(* ===== verification/_CoqProject ===== *)
-Q . S2P
Prelude.v
Stake.v
Vote.v
Validator.v
Block.v
Chain.v
ConsensusState.v
Engine.v
EngineSafety.v
EngineRules.v
EngineFinality.v
Bookkeeper.v
Mempool.v
StoreView.v
Execution.v
Ledger.v
VmData.v
VmOps.v
Precompiles.v
Vm.v
VmFrame.v
VmGas.v
VmAnalysis.v
VmTyping.v
VmTotal.v
VmRun.v
VmCalls.v
VmStatic.v
VmSpec.v
Heap.v
Requests.v
RequestsInv.v
NetSync.v
SyncInv.v
SyncSpec.v
Text.v
Abi.v
AbiSpec.v
Bind.v
TokenBanks.v
InterChain.v
EventCache.v
InterChainSpec.v
CacheSpec.v
EventLog.v
Witness.v
WitnessSpec.v
Orchestrator.v
RelaySpec.v
RelaySafety.v
RollingDB.v
RollingSpec.v
RollingCompact.v
Snapshot.v
SnapshotImport.v
SnapshotSpec.v
SnapshotExport.v
SnapshotExportSpec.v
Correction.v
Bloom.v
Rpc.v
RpcSpec.v
AbiParse.v
AbiParseSpec.v
AbiTopics.v
BindLogs.v
EthTx.v
EthTxSpec.v
