(* ===== verification/Prelude.v ===== *)
(** * The Theta subchain node: a verification library

    The program (src/) is a node of a Theta subchain.  Validators take turns in
    proposing blocks and vote on them; a block with votes of more than two
    thirds of the stake is committed, and its parent is finalized when the
    block certifies it.  Transactions reach the node through its mempool, are
    put in blocks by the proposer and are executed by the ledger, smart
    contracts by a virtual machine.  Nodes exchange blocks and votes over a
    peer to peer network and fetch the blocks they miss.  The validator sets
    come from the main chain, which a witness observes.  Tokens move between the
    main chain and the subchain: they are locked in a token bank of one chain and
    vouchers are minted on the other, and back; the witness collects the events of
    the banks and an orchestrator relays them.

    This file holds the notations, the tactics and the lemmas on machine
    integers, sums and bytes that all others share.

    ** Parts, files and sources

    Data of the chain.
    - Stake.v: src/core/stake.go.  Stake holders with deposit, withdrawal and
      return of stakes.
    - Vote.v: src/core/vote.go.  Votes and vote sets.
    - Validator.v: src/core/validator.go, src/consensus/validator.go and the
      certificates of src/core/vote.go.  Validator sets, the majority rule and
      the choice of the proposer.
    - Block.v: src/core/block.go.  Headers with their hash cache, blocks with
      their status, their codecs and their validation.
    - Chain.v: src/blockchain/.  The store of blocks with its indexes of
      heights, transactions, votes and receipts.

    Consensus.
    - ConsensusState.v: src/consensus/state.go.  The persisted state.
    - Engine.v: src/consensus/engine.go.  The handlers of the engine as
      programs of a state and error monad.  EngineSafety.v, EngineRules.v and
      EngineFinality.v hold the theorems about them.

    Transactions.
    - Bookkeeper.v and Mempool.v: src/mempool/.
    - StoreView.v: src/ledger/state/storeview.go, keys.go and
      src/store/treestore/.  The view of the accounts and contracts.
    - Execution.v: src/ledger/execution/ and src/ledger/vm/exec.go.  The
      executors of the four kinds of transactions.
    - Ledger.v: src/ledger/ledger.go, src/ledger/state/state.go and
      src/ledger/types/tx.go.  Proposing, applying and screening.

    The virtual machine (src/ledger/vm/).
    - VmData.v: stack, memory, contracts, opcodes and errors.
    - VmOps.v: gas functions and instructions.
    - Precompiles.v: the contracts written in Go.
    - Vm.v: the jump table, the interpreter and the message calls.
    - VmFrame.v, VmGas.v, VmAnalysis.v, VmTyping.v, VmTotal.v, VmRun.v,
      VmCalls.v, VmStatic.v and VmSpec.v: what it may change, what it costs,
      where it jumps, that it neither panics nor runs for ever.

    Block synchronisation (src/netsync/).
    - Heap.v: the heap of Go's container/heap.
    - Requests.v: request.go, the request manager; RequestsInv.v: its
      invariant and the rules of the weakest precondition of its methods.
    - NetSync.v: sync.go and encode.go, the message handlers; SyncInv.v: the
      handlers and the runs of a node; SyncSpec.v: the properties.

    Transfers between the chains (src/interchain/, src/core/, src/eth/abi/).
    - Text.v: strings, decimal and hexadecimal numbers and slices of Go.
    - Abi.v: src/eth/abi/, the codec of contract calls and events; AbiSpec.v:
      its round trip, safety and types.
    - Bind.v: src/eth/abi/bind/base.go, calls and transactions of contracts.
    - TokenBanks.v: the ABIs of src/interchain/contracts/accessors/ and the
      accessors that the node calls.
    - InterChain.v: src/core/inter_chain_message_event.go, events,
      denominations and parsers; InterChainSpec.v: their properties.
    - EventCache.v: src/interchain/utils/inter_chain_event_cache.go and
      src/interchain/witness/metachain_witness_state.go; CacheSpec.v: the
      refinement of a finite map.
    - EventLog.v: src/interchain/utils/eth_rpc_utils.go, from logs to events.
    - Witness.v: src/interchain/witness/metachain_witness.go; WitnessSpec.v:
      what is scanned.
    - Orchestrator.v: src/interchain/orchestrator/orchestrator.go; RelaySpec.v:
      the table of transfers and the path of an event; RelaySafety.v: what a
      tick may send.
    - AbiParse.v: the construction of ABIs from their JSON fields, the parser
      of types and of selectors (type.go, abi.go, method.go, event.go, error.go
      and selector_parser.go of src/eth/abi/); AbiParseSpec.v: its round trips.
    - AbiTopics.v: topics.go of src/eth/abi/.  BindLogs.v: the filters, logs,
      deployments and transfers of src/eth/abi/bind/base.go.
    - EthTx.v: src/eth/core/types/ and src/eth/ethclient/signer.go, the
      transactions that are sent to the chains; EthTxSpec.v: their properties.

    Storage and snapshots.
    - RollingDB.v: src/store/rollingdb/, the stack of databases with its tags
      and its compaction as a job that runs beside the node; RollingSpec.v: the
      refinement of one map; RollingCompact.v: what a compaction keeps.
    - Snapshot.v: src/core/snapshot.go, backup.go, genesis.go and the checks of
      src/snapshot/snapshot_import.go; SnapshotImport.v: the import;
      SnapshotSpec.v: what it trusts.
    - SnapshotExport.v: src/snapshot/snapshot_export.go, chain_export.go and
      chain_correction_export.go; SnapshotExportSpec.v and Correction.v: what
      the import reads of the exports, and the ledger's part of a correction.
    - Bloom.v: src/core/bloom.go and src/eth/core/types/bloom9.go.

    The service.
    - Rpc.v: src/rpc/, the queries, the submission of transactions with its
      callbacks, contract calls and backups; RpcSpec.v: their properties.

    ** How the parts meet

    A Go function is a Rocq function: pure code is a function of its
    arguments; code with state takes and returns it, or is a program of the
    monad of its file; an error is [Err], a panic [Panic], of the type
    [outcome] below.  Shared objects are modelled by a store and addresses
    where aliasing matters (transaction groups, pending blocks).  What one part
    promises to another is a type class that the other part's theorems are
    proved against:
    - [Store] (Chain.v): the key-value store of the chain;
    - [Environment] (Engine.v): the ledger, the validator manager, the witness,
      the clock and the iteration of maps, as the engine uses them;
    - [EVM] (Execution.v): the message calls of the virtual machine, with the
      guarantees the executors need; the instance [subchain_evm] of VmGas.v
      discharges it with the interpreter of Vm.v;
    - [Consensus] (Requests.v): the tip, the last finalized block and the
      shared chain; the instance [engine_consensus] of NetSync.v discharges it
      with the engine of Engine.v;
    - [Backend] (Bind.v) and [Remote] (EventLog.v): the requests to the RPC
      interface of a chain, over a world that any request may change; [Traced]
      (RelaySafety.v): a world that remembers what was sent;
    - [Database] (EventCache.v): the database under the event cache;
    - [LevelDB], [TagCodec] and [TrieIterator] (RollingDB.v): the databases
      of the layers, the encoding of tags and the walk over a trie;
    - [StateDB] and [SnapshotLib] (Snapshot.v), [SnapshotEnc], [StateDump],
      [TrieDump] and [ExportLib] (SnapshotExport.v): the state, its tries and
      the encodings and proofs of snapshots; [CorrectionLedger]
      (SnapshotImport.v): the execution of a corrected block, which
      [ledger_correction] of Correction.v discharges with the ledger of
      Ledger.v;
    - [KeccakDigest] (Bloom.v), [FieldNames] (AbiParse.v) and
      [ContractFilterer] (BindLogs.v): the digest, the case of names and the log
      queries;
    - [RpcLib] (Rpc.v): encodings of transactions and receipts;
    - [Secp256k1] and [TxRlp] (EthTx.v), with their laws in EthTxSpec.v: the
      elliptic curve and RLP.

    ** What the theorems show

    - Consensus.  A node never casts two conflicting votes, also across
      restarts; two certificates share more than a third of the stake; a
      finalized block stays finalized; blocks are committed and finalized by
      the rule of the certificates; the epoch of a node decreases only by a
      vote of the last 64-bit epoch; validation and the choice of the tip.
    - Chain and state.  The indexes of the block store agree along any run;
      finalization ends and what it changes; snapshots of the state view are
      restored exactly; the changes of balances are accounted for; the
      consensus state is read back after a restart.
    - Transactions.  Each executor on every branch; what a proposer puts in a
      block can be applied; the ledger is reset after a failed block; the
      mempool keeps its queues and its map in agreement.
    - Virtual machine.  A message call returns, spends at most its gas and
      undoes the state on an error; the state stays typed; a static call only
      changes TFuel balances; the jump analysis agrees with a walk over the
      instructions.
    - Synchronisation.  The containers of pending blocks agree along any run
      and the chain changes by its own operations only; the size of what a
      tick sends; which messages crash the node; an exchange of inventories and
      the transfer of a block make progress; only blocks with a valid parent
      are passed to consensus, and every child of the last finalized block is.
    - Transfers.  Values packed by the ABI codec are unpacked again, and
      unpacking never panics; denominations are valid and unambiguous; the
      struct of every token bank event receives the fields of the contract's
      event; the event cache is a finite map; no event of a scanned block is
      missed while queries are answered, and one of a failed query is; a lock or
      burn arrives with its values in the call on the target chain; a tick sends
      nothing else, in the order of the nonces, and repeats a call only after
      its threshold.
    - Interfaces of contracts and transactions of Ethereum.  The names of types
      and the signatures of methods are parsed back; an interface keeps all
      overloads; topics and logs are read back; the sender of a signed
      transaction is its signer and no other chain accepts it; the cache of the
      sender changes no answer; the binary and the JSON forms are read back; the
      lists of a block go into a trie in the order of the keys.
    - Storage and snapshots.  Without pruning the layers of the rolling database
      answer like one map; with it a compaction keeps the planned state under
      any interleaving and ends; the import of a snapshot accepts a validator
      set only on votes of the one before it, and the records of the backups are
      a chain and are what the block store receives; a backup is read back; a
      corrected chain is a chain; the Bloom filters have no false negatives and
      agree with their reference definition.
    - Service.  A range of blocks is answered completely and in order; callbacks
      fire once; what is reported of a transaction that was submitted.

    ** Fuel and bounds

    Recursion that is not structural carries fuel, and running out of it is an
    error that the theorems exclude:
    - finalization walks parent links, and needs more fuel than there are
      blocks that are not finalized (Chain.v);
    - the search for the tip needs as much fuel as the blocks above the
      committed one (Engine.v, EngineRules.v);
    - the rejection sampling of the proposer draws until a draw is accepted
      (Validator.v);
    - the interpreter takes at least one unit of gas per step and per call, so
      the gas plus one is enough, for gas below 2^58, where no memory size
      overflows (VmCalls.v);
    - the backoff of an inventory request takes at most 73 rounds, the loops of
      a tick one round per pending block, a served inventory one round per
      entry, and a round of passing blocks one per height up to the first empty
      one (Requests.v, SyncInv.v);
    - the records of a file are read with its length as fuel, backups and ranges
      of blocks walk down the heights (SnapshotImport.v, SnapshotExport.v,
      Rpc.v), and a compaction takes as many steps as its tries have nodes
      (RollingCompact.v);
    - a type is parsed with the number of its brackets, a selector with the
      length of its text, and a name is made unique with the number of names
      that are taken (AbiParse.v).
    Integers of 64 bits wrap around where the code computes with them.

    ** Parameters

    Code that is not under src/ is a parameter with the documented behaviour
    the proofs use: the types, RLP, cryptography, trie, store, priority queue
    and utilities of theta, the LRU cache of hashicorp, and the main chain seen
    by the witness.  Hashes of state trees are taken to be free of collisions.
    Each property with such a hypothesis is applied to concrete instances.

    ** Not modelled

    - Locks and goroutines: every method is one atomic step, and runs
      interleave the steps.
    - The tracer and the pool of integers of the virtual machine, the assembler
      and the copies of go-ethereum packages other than the ABI codec, the
      bound contracts and transactions; of these the ordering by price and the
      comparisons of fees.
    - The in-place append of the ecrecover contract, which overwrites a byte of
      its input.
    - The text of JSON (its decoded fields are modelled where the code checks
      them), logging, the HTTP side of the RPC server and its client, the
      command line, the wiring of the node and the message handlers that only
      forward.
    - The ABIs of the token banks are written out in TokenBanks.v instead of
      being read from their texts.  The HTTP request of a log query, and the
      construction of the witness and the orchestrator from the configuration.
    - The simulated witness, the tools, the bytecode of predeployed contracts and
      the generated accessors that the node does not call. *)

From stdpp Require Import gmap sorting.
From stdpp Require Import base list numbers strings.

(** ** Identifiers of the program

    [common.Address] is a 20-byte array and [common.Hash] a 32-byte array.
    Both are represented by the unsigned integer their bytes denote in
    big-endian order: array equality is integer equality, and
    [bytes.Compare] of two arrays of the same length is integer comparison. *)
Abbreviation Address := Z (only parsing).
Abbreviation Hash := Z (only parsing).
Abbreviation uint64 := Z (only parsing).

(** [IsEmpty] of an address or a hash: all bytes are zero. *)
Definition IsEmpty (h : Z) : bool := bool_decide (h = 0%Z).

(** ** Machine integers *)

Declare Scope u64_scope.
Delimit Scope u64_scope with u64.

Definition two64 : Z := 18446744073709551616.
Definition wrap64 (z : Z) : Z := z mod two64.
Definition u64_add (x y : Z) : Z := wrap64 (x + y).
Definition u64_sub (x y : Z) : Z := wrap64 (x - y).
Definition u64_mul (x y : Z) : Z := wrap64 (x * y).
(** The conversion [int64(x)] of a 64-bit unsigned value. *)
Definition to_int64 (z : Z) : Z := if (z <? 9223372036854775808)%Z then z else (z - two64)%Z.
Definition is_u64 (z : Z) : Prop := (0 <= z < two64)%Z.

Notation "x +₆₄ y" := (u64_add x y) (at level 50, left associativity) : u64_scope.
Notation "x -₆₄ y" := (u64_sub x y) (at level 50, left associativity) : u64_scope.
Notation "x *₆₄ y" := (u64_mul x y) (at level 40, left associativity) : u64_scope.

(** ** Results of Go functions

    [Ok v] is a normal return, [Err e] a return with a non-nil [error], and
    [Panic] a call to [panic], [log.Panic] or [log.Fatal]. *)
Inductive outcome (A : Type) : Type :=
| Ok (a : A)
| Err (msg : string)
| Panic (msg : string).
Arguments Ok {A} a.
Arguments Err {A} msg.
Arguments Panic {A} msg.

#[export] Instance outcome_ret : MRet outcome := fun A a => Ok a.
#[export] Instance outcome_bind : MBind outcome := fun A B f m =>
  match m with
  | Ok a => f a
  | Err e => Err e
  | Panic e => Panic e
  end.

#[export] Instance outcome_fmap : FMap outcome := fun A B f m =>
  match m with
  | Ok a => Ok (f a)
  | Err e => Err e
  | Panic e => Panic e
  end.

Definition is_ok {A} (r : outcome A) : bool :=
  match r with Ok _ => true | _ => false end.

Definition is_panic {A} (r : outcome A) : bool :=
  match r with Panic _ => true | _ => false end.

(** ** Bytes

    A byte is an integer in [0, 256); [be_bytes n z] is the [n]-byte big-endian
    array of [z] (hash[:] for a hash with [n] = 32) and [be_value] reads it
    back. *)
Fixpoint be_bytes (n : nat) (z : Z) : list Z :=
  match n with
  | O => []
  | S n' => be_bytes n' (Z.shiftr z 8) ++ [Z.land z 255]
  end.

Definition be_value (l : list Z) : Z := foldl (fun acc b => acc * 256 + b)%Z 0%Z l.

(** ** Sums over lists *)

Definition sumZ {A} (f : A -> Z) (l : list A) : Z :=
  foldr (fun x acc => f x + acc)%Z 0%Z l.

Arguments sumZ : simpl never.
Arguments wrap64 : simpl never.
Arguments u64_add : simpl never.
Arguments u64_sub : simpl never.
Arguments u64_mul : simpl never.
Arguments two64 : simpl never.

(** ** Automation of the library *)

Create HintDb subchain.

(** Destruct the scrutinee of an [if] or [match] in the goal or a hypothesis,
    keeping the equation, and discard the impossible branches. *)
Ltac split_match :=
  match goal with
  | |- context [match ?x with _ => _ end] => destruct x eqn:?; try discriminate
  | H : context [match ?x with _ => _ end] |- _ => destruct x eqn:?; try discriminate
  end.

(** Normalise boolean tests to the propositions they decide. *)
Ltac bool_to_prop :=
  repeat match goal with
  | H : bool_decide _ = true |- _ => apply bool_decide_eq_true in H
  | H : bool_decide _ = false |- _ => apply bool_decide_eq_false in H
  | H : Z.ltb _ _ = true |- _ => apply Z.ltb_lt in H
  | H : Z.ltb _ _ = false |- _ => apply Z.ltb_ge in H
  | H : Z.leb _ _ = true |- _ => apply Z.leb_le in H
  | H : Z.leb _ _ = false |- _ => apply Z.leb_gt in H
  | H : Z.eqb _ _ = true |- _ => apply Z.eqb_eq in H
  | H : Z.eqb _ _ = false |- _ => apply Z.eqb_neq in H
  | H : negb _ = true |- _ => apply negb_true_iff in H
  | H : negb _ = false |- _ => apply negb_false_iff in H
  | H : andb _ _ = true |- _ => apply andb_true_iff in H; destruct H
  | H : orb _ _ = false |- _ => apply orb_false_iff in H; destruct H
  end.

(** ** Lemmas on machine integers *)

Lemma two64_pos : (0 < two64)%Z.
Proof. reflexivity. Qed.

Lemma wrap64_range z : is_u64 (wrap64 z).
Proof. apply Z.mod_pos_bound, two64_pos. Qed.

Lemma wrap64_small z : is_u64 z -> wrap64 z = z.
Proof. apply Z.mod_small. Qed.

Lemma u64_add_small x y : is_u64 (x + y)%Z -> u64_add x y = (x + y)%Z.
Proof. apply wrap64_small. Qed.

Lemma u64_mul_small x y : is_u64 (x * y)%Z -> u64_mul x y = (x * y)%Z.
Proof. intros [? ?]. unfold u64_mul. by apply wrap64_small. Qed.

Lemma u64_sub_small x y : is_u64 (x - y)%Z -> u64_sub x y = (x - y)%Z.
Proof. apply wrap64_small. Qed.

Lemma u64_add_range x y : is_u64 (u64_add x y).
Proof. apply wrap64_range. Qed.

Lemma u64_sub_range x y : is_u64 (u64_sub x y).
Proof. apply wrap64_range. Qed.

#[export] Hint Resolve wrap64_range u64_add_range u64_sub_range : subchain.

(** ** Lemmas on sums *)

Section Sums.
Context {A : Type}.
Implicit Types (f g : A -> Z) (l : list A).
Local Open Scope Z_scope.

Lemma sumZ_nil f : sumZ f [] = 0.
Proof. reflexivity. Qed.

Lemma sumZ_cons f x l : sumZ f (x :: l) = f x + sumZ f l.
Proof. reflexivity. Qed.

Lemma sumZ_app f l1 l2 : sumZ f (l1 ++ l2) = sumZ f l1 + sumZ f l2.
Proof.
  induction l1 as [|x l1 IH]; [done|].
  by rewrite <- app_comm_cons, !sumZ_cons, IH, Z.add_assoc.
Qed.

#[global] Instance sumZ_perm f : Proper ((≡ₚ) ==> (=)) (sumZ f).
Proof.
  induction 1 as [|x l1 l2 _ IH|x y l|l1 l2 l3 _ IH1 _ IH2];
    rewrite ?sumZ_cons; [done|by rewrite IH|lia|congruence].
Qed.

Lemma sumZ_ext f g l : (forall x, x ∈ l -> f x = g x) -> sumZ f l = sumZ g l.
Proof.
  induction l as [|x l IH]; intros Hfg; [done|].
  rewrite !sumZ_cons, (Hfg x), IH; [done| |left].
  intros y Hy; apply Hfg; by right.
Qed.

Lemma sumZ_nonneg f l : (forall x, x ∈ l -> 0 <= f x) -> 0 <= sumZ f l.
Proof.
  induction l as [|x l IH]; intros Hf; [done|].
  rewrite sumZ_cons. pose proof (Hf x ltac:(left)).
  enough (0 <= sumZ f l) by lia. apply IH; intros y Hy; apply Hf; by right.
Qed.

Lemma sumZ_filter_split f (P : A -> Prop) `{forall x, Decision (P x)} l :
  sumZ f l = sumZ f (filter P l) + sumZ f (filter (fun x => ~ P x) l).
Proof.
  induction l as [|x l IH]; [done|].
  rewrite !filter_cons. repeat case_decide; rewrite ?sumZ_cons; try tauto; lia.
Qed.

Lemma sumZ_filter_le f (P : A -> Prop) `{forall x, Decision (P x)} l :
  (forall x, x ∈ l -> 0 <= f x) -> sumZ f (filter P l) <= sumZ f l.
Proof.
  intros Hf. rewrite (sumZ_filter_split f P l).
  enough (0 <= sumZ f (filter (fun x => ~ P x) l)) by lia.
  apply sumZ_nonneg; intros x [_ Hx]%list_elem_of_filter; eauto.
Qed.

Lemma sumZ_filter_if f (P : A -> Prop) `{forall x, Decision (P x)} l :
  sumZ f (filter P l) = sumZ (fun x => if decide (P x) then f x else 0) l.
Proof.
  induction l as [|x l IH]; [done|].
  rewrite filter_cons, sumZ_cons. by case_decide; rewrite ?sumZ_cons, IH.
Qed.

Lemma sumZ_add f g l : sumZ (fun x => f x + g x) l = sumZ f l + sumZ g l.
Proof. induction l as [|x l IH]; [done|]. rewrite !sumZ_cons, IH. lia. Qed.

Lemma sumZ_le f g l : (forall x, x ∈ l -> f x <= g x) -> sumZ f l <= sumZ g l.
Proof.
  induction l as [|x l IH]; intros Hfg; [done|].
  rewrite !sumZ_cons. pose proof (Hfg x ltac:(left)).
  enough (sumZ f l <= sumZ g l) by lia. apply IH; intros y Hy; apply Hfg; by right.
Qed.

Lemma sumZ_sublist f l1 l2 :
  l1 `sublist_of` l2 -> (forall x, x ∈ l2 -> 0 <= f x) -> sumZ f l1 <= sumZ f l2.
Proof.
  induction 1 as [|x l1 l2 _ IH|x l1 l2 _ IH]; intros Hf; [done| |];
    rewrite !sumZ_cons; pose proof (Hf x ltac:(left));
    enough (sumZ f l1 <= sumZ f l2) by lia;
    apply IH; intros y Hy; apply Hf; by right.
Qed.

Lemma sumZ_submseteq f l1 l2 :
  l1 ⊆+ l2 -> (forall x, x ∈ l2 -> 0 <= f x) -> sumZ f l1 <= sumZ f l2.
Proof.
  intros (k & Hk)%submseteq_Permutation Hf. rewrite Hk, sumZ_app.
  enough (0 <= sumZ f k) by lia.
  apply sumZ_nonneg; intros x Hx. apply Hf. rewrite Hk, elem_of_app. by right.
Qed.

End Sums.

Lemma sumZ_fmap {A B} (f : B -> Z) (g : A -> B) l : sumZ f (g <$> l) = sumZ (f ∘ g) l.
Proof. induction l as [|x l IH]; [done|]. by rewrite fmap_cons, !sumZ_cons, IH. Qed.

(** ** Lemmas on bytes *)

Section Bytes.
Local Open Scope Z_scope.

Lemma land_255 z : Z.land z 255 = z mod 256.
Proof. change 255 with (Z.ones 8). by rewrite Z.land_ones. Qed.

Lemma shiftr_8 z : Z.shiftr z 8 = z / 256.
Proof. by rewrite Z.shiftr_div_pow2. Qed.

Lemma be_bytes_length n z : length (be_bytes n z) = n.
Proof.
  revert z; induction n as [|n IH]; intros z; simpl; [done|].
  rewrite length_app, IH. simpl. lia.
Qed.

Lemma be_value_snoc l b : be_value (l ++ [b]) = be_value l * 256 + b.
Proof. unfold be_value. by rewrite foldl_app. Qed.

Lemma be_value_bytes n z : be_value (be_bytes n z) = z mod 256 ^ Z.of_nat n.
Proof.
  revert z; induction n as [|n IH]; intros z; [by rewrite Z.mod_1_r|].
  cbn [be_bytes]. rewrite be_value_snoc, IH, land_255, shiftr_8.
  rewrite Nat2Z.inj_succ, Z.pow_succ_r by lia.
  rewrite Z.rem_mul_r by lia. lia.
Qed.

Lemma be_bytes_inj n x y :
  0 <= x < 256 ^ Z.of_nat n -> 0 <= y < 256 ^ Z.of_nat n -> be_bytes n x = be_bytes n y -> x = y.
Proof.
  intros Hx Hy Heq. apply (f_equal be_value) in Heq.
  by rewrite !be_value_bytes, !Z.mod_small in Heq.
Qed.

Lemma be_bytes_byte n z : Forall (fun b => 0 <= b < 256) (be_bytes n z).
Proof.
  revert z; induction n as [|n IH]; intros z; simpl; [constructor|].
  apply Forall_app; split; [apply IH|]. constructor; [|constructor].
  rewrite land_255. by apply Z.mod_pos_bound.
Qed.

End Bytes.

(** ** Lemmas on filters *)

Lemma filter_length_le {A} (f g : A -> bool) l :
  (forall x, x ∈ l -> f x = true -> g x = true) ->
  (length (List.filter f l) <= length (List.filter g l))%nat.
Proof.
  induction l as [|x l IH]; intros Hfg; simpl; [lia|].
  assert (Hl : forall y, y ∈ l -> f y = true -> g y = true) by (intros; apply Hfg; [by right|done]).
  specialize (IH Hl). destruct (f x) eqn:Hf; simpl.
  - rewrite (Hfg x) by (left || done). simpl. lia.
  - destruct (g x); simpl; lia.
Qed.

Lemma filter_length_lt {A} (f g : A -> bool) l x :
  (forall y, y ∈ l -> f y = true -> g y = true) -> x ∈ l -> g x = true -> f x = false ->
  (length (List.filter f l) < length (List.filter g l))%nat.
Proof.
  induction l as [|y l IH]; intros Hfg Hx Hg Hf; [by apply elem_of_nil in Hx|]. simpl.
  assert (Hl : forall z, z ∈ l -> f z = true -> g z = true) by (intros; apply Hfg; [by right|done]).
  apply elem_of_cons in Hx as [<-|Hx].
  - rewrite Hf, Hg. simpl. pose proof (filter_length_le f g l Hl). lia.
  - specialize (IH Hl Hx Hg Hf). destruct (f y) eqn:Hfy.
    + rewrite (Hfg y) by (left || done). simpl. lia.
    + destruct (g y); simpl; lia.
Qed.
(** Filters that keep everything or nothing. *)
Lemma filter_all {A} (P : A -> Prop) `{forall x, Decision (P x)} l : Forall P l -> filter P l = l.
Proof. induction 1 as [|x l Hx _ IH]; [done|]. rewrite filter_cons_True by done. by rewrite IH. Qed.

Lemma filter_none {A} (P : A -> Prop) `{forall x, Decision (P x)} l :
  Forall (fun x => ~ P x) l -> filter P l = [].
Proof. induction 1 as [|x l Hx _ IH]; [done|]. by rewrite filter_cons_False. Qed.
