(* ===== verification/Stake.v ===== *)
(** * Stakes and stake holders (src/core/stake.go)

    [Stake] and [StakeHolder] with the deposit, withdraw and return
    operations.  A holder's stakes form a slice searched linearly by source
    address; a withdrawal locks the stake for [ReturnLockingPeriod] blocks
    and a return removes it.  The theorems give the accounting of
    [TotalStake], the locking period (with the 64-bit overflow of the return
    height), and the conservation of deposits along any run. *)

From stdpp Require Import base list numbers strings.
From S2P Require Import Prelude.
Local Open Scope string_scope.
Local Open Scope list_scope.
Local Open Scope Z_scope.

Definition ReturnLockingPeriod : uint64 := 28800.
Definition InvalidReturnHeight : uint64 := 18446744073709551615.

Record Stake := mkStake {
  Holder : Address;
  Source : Address;
  Amount : Z;
  Withdrawn : bool;
  ReturnHeight : uint64
}.

(** [NewStake]: the holder field is left at its zero value. *)
Definition NewStake (source : Address) (amount : Z) : Stake :=
  mkStake 0 source amount false InvalidReturnHeight.

Record StakeHolder := NewStakeHolder {
  SHolder : Address;
  Stakes : list Stake
}.

Definition set_stakes (sh : StakeHolder) (l : list Stake) : StakeHolder :=
  NewStakeHolder (SHolder sh) l.

(** [TotalStake]: the loop accumulates the stakes that are not withdrawn. *)
Definition TotalStake (sh : StakeHolder) : Z :=
  foldl (fun total s => if negb (Withdrawn s) then total + Amount s else total) 0 (Stakes sh).

Definition set_amount (s : Stake) (a : Z) : Stake :=
  mkStake (Holder s) (Source s) a (Withdrawn s) (ReturnHeight s).

(** The search loop of [depositStake]: [None] when no source matches. *)
Fixpoint deposit_loop (source : Address) (amount : Z) (l : list Stake)
    : option (outcome (list Stake)) :=
  match l with
  | [] => None
  | s :: l' =>
      if Z.eqb (Source s) source then
        Some (if Withdrawn s
              then Err "Cannot deposit during the withdrawal locking period"
              else Ok (set_amount s (Amount s + amount) :: l'))
      else fmap (M := option) (fun r => l'' ← r; Ok (s :: l'')) (deposit_loop source amount l')
  end.

Definition depositStake (sh : StakeHolder) (source : Address) (amount : Z)
    : outcome StakeHolder :=
  if amount <? 0 then Err "Invalid stake"
  else match deposit_loop source amount (Stakes sh) with
       | Some r => l ← r; Ok (set_stakes sh l)
       | None => Ok (set_stakes sh (Stakes sh ++ [NewStake source amount]))
       end.

Definition mark_withdrawn (s : Stake) (currentHeight : uint64) : Stake :=
  mkStake (Holder s) (Source s) (Amount s) true (u64_add currentHeight ReturnLockingPeriod).

Fixpoint withdraw_loop (source : Address) (currentHeight : uint64) (l : list Stake)
    : outcome (list Stake * Stake) :=
  match l with
  | [] => Err "Cannot withdraw, no matched stake source address found"
  | s :: l' =>
      if Z.eqb (Source s) source then
        if Withdrawn s then Err "Already withdrawn, cannot withdraw again for source"
        else let s' := mark_withdrawn s currentHeight in Ok (s' :: l', s')
      else '(l'', r) ← withdraw_loop source currentHeight l'; Ok (s :: l'', r)
  end.

(** [withdrawStake] returns the updated holder and the stake it withdrew. *)
Definition withdrawStake (sh : StakeHolder) (source : Address) (currentHeight : uint64)
    : outcome (StakeHolder * Stake) :=
  '(l, s) ← withdraw_loop source currentHeight (Stakes sh); Ok (set_stakes sh l, s).

Fixpoint return_loop (source : Address) (currentHeight : uint64) (l : list Stake)
    : outcome (list Stake * Stake) :=
  match l with
  | [] => Err "Cannot return, no matched stake source address found"
  | s :: l' =>
      if Z.eqb (Source s) source then
        if negb (Withdrawn s) then Err "Cannot return, stake not withdrawn yet"
        else if currentHeight <? ReturnHeight s then Err "Cannot return, current height"
        else Ok (l', s)
      else '(l'', r) ← return_loop source currentHeight l'; Ok (s :: l'', r)
  end.

(** [returnStake] removes the matching stake and hands it back. *)
Definition returnStake (sh : StakeHolder) (source : Address) (currentHeight : uint64)
    : outcome (StakeHolder * Stake) :=
  '(l, s) ← return_loop source currentHeight (Stakes sh); Ok (set_stakes sh l, s).

(** ** Well-formedness, lookup and the operations as a step relation *)

(** One stake per source, no negative amount, and an unset return height on
    stakes that are not withdrawn. *)
Definition stake_ok (s : Stake) : Prop :=
  0 <= Amount s /\ (Withdrawn s = false -> ReturnHeight s = InvalidReturnHeight).

Definition holder_ok (sh : StakeHolder) : Prop :=
  NoDup (Source <$> Stakes sh) /\ Forall stake_ok (Stakes sh).

(** The stake a source address has with the holder, if any. *)
Definition stake_of (l : list Stake) (source : Address) : option Stake :=
  List.find (fun s => Z.eqb (Source s) source) l.

(** All coins locked with the holder, withdrawn stakes included. *)
Definition locked (sh : StakeHolder) : Z := sumZ Amount (Stakes sh).

(** A run of the holder; its indices are the coins deposited and returned. *)
Inductive run (sh0 : StakeHolder) : StakeHolder -> Z -> Z -> Prop :=
| run_start : run sh0 sh0 0 0
| run_deposit sh sh' source amount d r :
    run sh0 sh d r -> depositStake sh source amount = Ok sh' ->
    run sh0 sh' (d + amount) r
| run_withdraw sh sh' s source h d r :
    run sh0 sh d r -> withdrawStake sh source h = Ok (sh', s) ->
    run sh0 sh' d r
| run_return sh sh' s source h d r :
    run sh0 sh d r -> returnStake sh source h = Ok (sh', s) ->
    run sh0 sh' d (r + Amount s).

Arguments TotalStake : simpl never.
Arguments stake_of : simpl never.
Arguments locked : simpl never.

(** ** Lemmas: the search loops on a split slice *)

Lemma stake_split l source :
  ((source ∉ (Source <$> l)) /\ stake_of l source = None) \/
  exists l1 s l2, l = l1 ++ s :: l2 /\ (source ∉ (Source <$> l1)) /\ Source s = source /\
    stake_of l source = Some s.
Proof.
  induction l as [|s l IH]; [left; by split; [apply not_elem_of_nil|]|].
  unfold stake_of in *; simpl. destruct (Z.eqb_spec (Source s) source) as [Heq|Hne].
  - right. exists [], s, l. repeat split; [apply not_elem_of_nil|done].
  - destruct IH as [[Hnot Hnone]|(l1 & s' & l2 & -> & Hnot & Hs' & Hsome)].
    + left. split; [|done]. by apply not_elem_of_cons.
    + right. exists (s :: l1), s', l2. repeat split; [|done..].
      by apply not_elem_of_cons.
Qed.

Ltac skip_prefix l1 :=
  intros Hnot Hsrc; induction l1 as [|x l1 IH]; simpl in *;
  [by rewrite Hsrc, Z.eqb_refl|];
  apply not_elem_of_cons in Hnot as [Hx Hnot];
  rewrite (proj2 (Z.eqb_neq _ _) (not_eq_sym Hx)), IH by done.

Lemma deposit_loop_none source a l :
  source ∉ (Source <$> l) -> deposit_loop source a l = None.
Proof.
  induction l as [|x l IH]; simpl; [done|]. intros [Hx Hnot]%not_elem_of_cons.
  by rewrite (proj2 (Z.eqb_neq _ _) (not_eq_sym Hx)), IH.
Qed.

Lemma deposit_loop_app source a l1 s l2 :
  source ∉ (Source <$> l1) -> Source s = source ->
  deposit_loop source a (l1 ++ s :: l2) =
  Some (if Withdrawn s then Err "Cannot deposit during the withdrawal locking period"
        else Ok (l1 ++ set_amount s (Amount s + a) :: l2)).
Proof. skip_prefix l1. by destruct (Withdrawn s). Qed.

Lemma withdraw_loop_none source h l :
  source ∉ (Source <$> l) ->
  withdraw_loop source h l = Err "Cannot withdraw, no matched stake source address found".
Proof.
  induction l as [|x l IH]; simpl; [done|]. intros [Hx Hnot]%not_elem_of_cons.
  by rewrite (proj2 (Z.eqb_neq _ _) (not_eq_sym Hx)), IH.
Qed.

Lemma withdraw_loop_app source h l1 s l2 :
  source ∉ (Source <$> l1) -> Source s = source ->
  withdraw_loop source h (l1 ++ s :: l2) =
  if Withdrawn s then Err "Already withdrawn, cannot withdraw again for source"
  else Ok (l1 ++ mark_withdrawn s h :: l2, mark_withdrawn s h).
Proof. skip_prefix l1. by destruct (Withdrawn s). Qed.

Lemma return_loop_none source h l :
  source ∉ (Source <$> l) ->
  return_loop source h l = Err "Cannot return, no matched stake source address found".
Proof.
  induction l as [|x l IH]; simpl; [done|]. intros [Hx Hnot]%not_elem_of_cons.
  by rewrite (proj2 (Z.eqb_neq _ _) (not_eq_sym Hx)), IH.
Qed.

Lemma return_loop_app source h l1 s l2 :
  source ∉ (Source <$> l1) -> Source s = source ->
  return_loop source h (l1 ++ s :: l2) =
  if negb (Withdrawn s) then Err "Cannot return, stake not withdrawn yet"
  else if h <? ReturnHeight s then Err "Cannot return, current height"
  else Ok (l1 ++ l2, s).
Proof. skip_prefix l1. by destruct (Withdrawn s), (h <? ReturnHeight s). Qed.

(** ** Lemmas: inversion of each operation *)

Lemma deposit_inv sh source a sh' :
  depositStake sh source a = Ok sh' ->
  0 <= a /\
  (((source ∉ (Source <$> Stakes sh)) /\ sh' = set_stakes sh (Stakes sh ++ [NewStake source a])) \/
   exists l1 s l2, Stakes sh = l1 ++ s :: l2 /\ (source ∉ (Source <$> l1)) /\ Source s = source /\
     Withdrawn s = false /\ sh' = set_stakes sh (l1 ++ set_amount s (Amount s + a) :: l2)).
Proof.
  unfold depositStake. destruct (a <? 0) eqn:Ha; [done|]. bool_to_prop. intros H; split; [done|].
  destruct (stake_split (Stakes sh) source) as [[Hnot _]|(l1 & s & l2 & Hl & Hnot & Hs & _)].
  - left. rewrite deposit_loop_none in H by done. split; [done|]. by injection H as <-.
  - right. exists l1, s, l2. rewrite Hl, (deposit_loop_app _ _ _ _ _ Hnot Hs) in H.
    destruct (Withdrawn s) eqn:?; cbn in H; [done|]. by simplify_eq.
Qed.

Lemma withdraw_inv sh source h sh' s' :
  withdrawStake sh source h = Ok (sh', s') ->
  exists l1 s l2, Stakes sh = l1 ++ s :: l2 /\ (source ∉ (Source <$> l1)) /\ Source s = source /\
    Withdrawn s = false /\ s' = mark_withdrawn s h /\ sh' = set_stakes sh (l1 ++ s' :: l2).
Proof.
  unfold withdrawStake. intros H.
  destruct (stake_split (Stakes sh) source) as [[Hnot _]|(l1 & s & l2 & Hl & Hnot & Hs & _)].
  - by rewrite withdraw_loop_none in H.
  - exists l1, s, l2. rewrite Hl, (withdraw_loop_app _ _ _ _ _ Hnot Hs) in H.
    destruct (Withdrawn s) eqn:?; cbn in H; [done|]. by simplify_eq.
Qed.

Lemma return_inv sh source h sh' s :
  returnStake sh source h = Ok (sh', s) ->
  exists l1 l2, Stakes sh = l1 ++ s :: l2 /\ (source ∉ (Source <$> l1)) /\ Source s = source /\
    Withdrawn s = true /\ ReturnHeight s <= h /\ sh' = set_stakes sh (l1 ++ l2).
Proof.
  unfold returnStake. intros H.
  destruct (stake_split (Stakes sh) source) as [[Hnot _]|(l1 & s0 & l2 & Hl & Hnot & Hs & _)].
  - by rewrite return_loop_none in H.
  - rewrite Hl, (return_loop_app _ _ _ _ _ Hnot Hs) in H.
    destruct (Withdrawn s0) eqn:?, (h <? ReturnHeight s0) eqn:?; cbn in H; try done.
    simplify_eq. bool_to_prop. exists l1, l2. by repeat split.
Qed.

(** ** Lemmas: accounting and the invariant *)

Definition live (s : Stake) : Z := if Withdrawn s then 0 else Amount s.

Lemma total_stake_sum sh : TotalStake sh = sumZ live (Stakes sh).
Proof.
  unfold TotalStake. generalize (Stakes sh) as l.
  enough (Hacc : forall l a, foldl (fun total s => if negb (Withdrawn s) then total + Amount s
    else total) a l = a + sumZ live l) by (intros l; by rewrite Hacc).
  induction l as [|s l IH]; intros a; simpl; [rewrite sumZ_nil; lia|].
  rewrite IH, sumZ_cons. unfold live. destruct (Withdrawn s); simpl; lia.
Qed.

Ltac stake_sums :=
  rewrite ?total_stake_sum; unfold locked; simpl; rewrite ?sumZ_app, ?sumZ_cons, ?sumZ_nil;
  unfold live; simpl.

Lemma fmap_source_app l1 s s' l2 :
  Source s' = Source s -> Source <$> (l1 ++ s' :: l2) = Source <$> (l1 ++ s :: l2).
Proof. intros Hs. by rewrite !fmap_app, !fmap_cons, Hs. Qed.

Lemma deposit_ok sh source a sh' :
  holder_ok sh -> depositStake sh source a = Ok sh' -> holder_ok sh'.
Proof.
  intros [Hnd Hall] (Ha & [[Hnot ->]|(l1 & s & l2 & Hl & _ & _ & Hw & ->)])%deposit_inv; simpl.
  - split; simpl.
    + rewrite fmap_app. apply NoDup_app. repeat split; [done| |apply NoDup_singleton].
      intros x Hx Heq%list_elem_of_singleton. by subst.
    + apply Forall_app; split; [done|]. by repeat constructor.
  - unfold holder_ok; simpl. rewrite Hl in Hnd, Hall. rewrite (fmap_source_app _ s) by done.
    split; [done|]. apply Forall_app in Hall as [? [[Hs Hr] ?]%Forall_cons].
    apply Forall_app; split; [done|]. constructor; [split; simpl; [lia|done]|done].
Qed.

Lemma withdraw_ok sh source h sh' s :
  holder_ok sh -> withdrawStake sh source h = Ok (sh', s) -> holder_ok sh'.
Proof.
  intros [Hnd Hall] (l1 & s0 & l2 & Hl & _ & _ & Hw & -> & ->)%withdraw_inv.
  unfold holder_ok; simpl. rewrite Hl in Hnd, Hall. rewrite (fmap_source_app _ s0) by done.
  split; [done|]. apply Forall_app in Hall as [? [[Hs Hr] ?]%Forall_cons].
  apply Forall_app; split; [done|]. constructor; [by split|done].
Qed.

Lemma return_ok sh source h sh' s :
  holder_ok sh -> returnStake sh source h = Ok (sh', s) -> holder_ok sh'.
Proof.
  intros [Hnd Hall] (l1 & l2 & Hl & _ & _ & _ & _ & ->)%return_inv.
  unfold holder_ok; simpl. rewrite Hl in Hnd, Hall.
  rewrite fmap_app, fmap_cons in Hnd. split.
  - rewrite fmap_app. apply NoDup_app in Hnd as (? & Hdis & [_ ?]%NoDup_cons).
    apply NoDup_app. repeat split; [done| |done]. intros x Hx Hx2. apply (Hdis x Hx). by right.
  - apply Forall_app in Hall as [? [_ ?]%Forall_cons]. by apply Forall_app.
Qed.

#[export] Hint Resolve deposit_ok withdraw_ok return_ok : subchain.

Lemma holder_ok_bounds sh : holder_ok sh -> 0 <= TotalStake sh <= locked sh.
Proof.
  intros [_ Hall]. rewrite total_stake_sum. unfold locked.
  induction Hall as [|s l [Hs _] _ IH]; [done|].
  rewrite !sumZ_cons. unfold live at 1 3. destruct (Withdrawn s); lia.
Qed.

Lemma stake_of_app l1 s l2 source :
  source ∉ (Source <$> l1) -> Source s = source -> stake_of (l1 ++ s :: l2) source = Some s.
Proof.
  unfold stake_of. induction l1 as [|x l1 IH]; intros Hnot Hs; simpl in *.
  - by rewrite Hs, Z.eqb_refl.
  - apply not_elem_of_cons in Hnot as [Hx Hnot].
    by rewrite (proj2 (Z.eqb_neq _ _) (not_eq_sym Hx)), IH.
Qed.

(** ** Properties *)

(** (depositing). For a non-negative amount, and unless the source is in
    its withdrawal period, a deposit succeeds, raises [TotalStake] by exactly
    the amount and adds it to the stake of that source (creating it when
    there is none); in every other case it returns an error. *)
Theorem depositStake_spec sh source amount :
  match depositStake sh source amount with
  | Ok sh' =>
      0 <= amount /\ TotalStake sh' = TotalStake sh + amount /\
      (exists s', stake_of (Stakes sh') source = Some s' /\ Withdrawn s' = false /\
         Amount s' = amount + match stake_of (Stakes sh) source with
                              | Some s => Amount s | None => 0 end) /\
      match stake_of (Stakes sh) source with Some s => Withdrawn s = false | None => True end
  | Err _ => amount < 0 \/ exists s, stake_of (Stakes sh) source = Some s /\ Withdrawn s = true
  | Panic _ => False
  end.
Proof.
  unfold depositStake. destruct (amount <? 0) eqn:Ha; bool_to_prop; [by left|].
  destruct (stake_split (Stakes sh) source) as [[Hnot Hno]|(l1 & s & l2 & Hl & Hnot & Hs & Hsome)].
  - rewrite deposit_loop_none, Hno by done. stake_sums. repeat split; [done|lia|].
    exists (NewStake source amount). rewrite stake_of_app by done. repeat split; simpl; lia.
  - rewrite Hsome, Hl, (deposit_loop_app _ _ _ _ _ Hnot Hs).
    destruct (Withdrawn s) eqn:Hw; cbn; [by right; exists s|].
    stake_sums. rewrite Hl. stake_sums. rewrite !Hw. repeat split; [done|lia|].
    eexists. rewrite stake_of_app by done. repeat split; simpl; [done|lia].
Qed.

Lemma depositStake_spec_example :
  depositStake (NewStakeHolder 1 [NewStake 5 10]) 5 7 =
  Ok (NewStakeHolder 1 [mkStake 0 5 17 false InvalidReturnHeight]).
Proof. reflexivity. Qed.

(** (locking period). A stake withdrawn at height [h], when [h] plus the
    locking period does not overflow 64 bits, stops counting in [TotalStake],
    cannot be withdrawn again, cannot be returned before
    [h + ReturnLockingPeriod], and from that height on is returned in full and
    removed; the other stakes are left as they were. *)
Theorem withdraw_lock_return sh source h sh' s h' :
  withdrawStake sh source h = Ok (sh', s) ->
  is_u64 (h + ReturnLockingPeriod) ->
  TotalStake sh' = TotalStake sh - Amount s /\
  is_ok (withdrawStake sh' source h') = false /\
  (h' < h + ReturnLockingPeriod -> is_ok (returnStake sh' source h') = false) /\
  (h + ReturnLockingPeriod <= h' ->
     exists sh'', returnStake sh' source h' = Ok (sh'', s) /\
       locked sh'' = locked sh - Amount s /\ TotalStake sh'' = TotalStake sh').
Proof.
  intros (l1 & s0 & l2 & Hl & Hnot & Hs & Hw & -> & ->)%withdraw_inv Hu.
  unfold withdrawStake, returnStake; simpl Stakes.
  rewrite (withdraw_loop_app _ _ l1 (mark_withdrawn s0 h)), (return_loop_app _ _ l1 (mark_withdrawn s0 h)) by done.
  simpl. rewrite u64_add_small by done. repeat split.
  - stake_sums. rewrite Hl. stake_sums. rewrite Hw. lia.
  - intros Hlt. by rewrite (proj2 (Z.ltb_lt _ _) Hlt).
  - intros Hge. rewrite (proj2 (Z.ltb_ge _ _) Hge). eexists; split; [done|].
    stake_sums. rewrite Hl. stake_sums. lia.
Qed.

Lemma withdraw_lock_return_witness :
  let sh := NewStakeHolder 1 [NewStake 5 10; NewStake 6 20] in
  exists sh' s, withdrawStake sh 5 100 = Ok (sh', s) /\
    (28900 < 100 + ReturnLockingPeriod -> is_ok (returnStake sh' 5 28900) = false).
Proof.
  intros sh. eexists _, _. split; [reflexivity|].
  apply (withdraw_lock_return sh 5 100 _ (mkStake 0 5 10 true 28900) 28900).
  - reflexivity.
  - unfold is_u64, ReturnLockingPeriod, two64; lia.
Defined.

(** (conservation). From a well-formed holder, any sequence of successful
    deposits, withdrawals and returns keeps the holder well formed, and the
    coins locked with it are the initial ones plus all deposits minus all
    returned stakes; [TotalStake] never exceeds them and is never negative. *)
Theorem run_conserves sh0 sh d r :
  holder_ok sh0 -> run sh0 sh d r ->
  holder_ok sh /\ locked sh = locked sh0 + d - r /\ 0 <= TotalStake sh <= locked sh.
Proof.
  intros Hok Hrun.
  enough (holder_ok sh /\ locked sh = locked sh0 + d - r) as [? ?]
    by (split_and!; [done|done| |]; by apply holder_ok_bounds).
  induction Hrun as [|sh sh' src a d r _ [IH1 IH2] Hd|sh sh' s src h d r _ [IH1 IH2] Hw
                     |sh sh' s src h d r _ [IH1 IH2] Hr]; [split; [done|lia]|..];
    (split; [eauto with subchain|]); revert IH2.
  - apply deposit_inv in Hd as (_ & [[_ ->]|(l1 & s & l2 & Hl & _ & _ & _ & ->)]);
      stake_sums; rewrite ?Hl; stake_sums; lia.
  - apply withdraw_inv in Hw as (l1 & s0 & l2 & Hl & _ & _ & _ & -> & ->).
    stake_sums; rewrite ?Hl; stake_sums; lia.
  - apply return_inv in Hr as (l1 & l2 & Hl & _ & _ & _ & _ & ->).
    stake_sums; rewrite ?Hl; stake_sums; lia.
Qed.

Lemma run_conserves_witness :
  exists sh, run (NewStakeHolder 1 []) sh 12 0 /\ holder_ok sh /\ locked sh = 12.
Proof.
  assert (Hr : run (NewStakeHolder 1 []) (NewStakeHolder 1 [NewStake 5 12]) (0 + 12) 0)
    by (eapply run_deposit; [constructor|reflexivity]).
  assert (Hok : holder_ok (NewStakeHolder 1 [])) by (split; constructor).
  exists (NewStakeHolder 1 [NewStake 5 12]). split; [exact Hr|].
  destruct (run_conserves _ _ _ _ Hok Hr) as (H1 & H2 & _). split; [exact H1|exact H2].
Defined.
