(* ===== verification/Vote.v ===== *)
(** * Votes and vote sets (src/core/vote.go)

    [Vote], its signature check, and [VoteSet], a Go map from the key
    "ID:Block:Epoch" to votes.  The three parts of the key are rendered at
    fixed width or last, so the map is modelled as a [gmap] keyed by the
    triple.  Go iterates a map in an unspecified order: each operation that
    ranges over a vote set takes the order of the iteration as a list, and
    its theorems hold for every order that lists the votes of the set. *)

From stdpp Require Import gmap sorting pretty.
From stdpp Require Import base list numbers strings.
From S2P Require Import Prelude.
Local Open Scope string_scope.
Local Open Scope list_scope.
Local Open Scope Z_scope.

(** [crypto.Signature] is an opaque byte string. *)
Abbreviation Signature := string (only parsing).
Abbreviation Bytes := string (only parsing).

Record Vote := mkVote {
  Block : Hash;
  Height : uint64;
  MainchainHeight : uint64;
  Epoch : uint64;
  ID : Address;
  VSignature : option Signature
}.

#[export] Instance Vote_eq_dec : EqDecision Vote.
Proof. solve_decision. Defined.

(** The cryptography and the encoding the votes rely on: the RLP encoding of
    a vote and the [IsEmpty] and [Verify] methods of a signature. *)
Class VoteCrypto := {
  EncodeVote : Vote -> Bytes;
  Sig_IsEmpty : Signature -> bool;
  Sig_Verify : Signature -> Bytes -> Address -> bool
}.

Section Votes.
Context `{VoteCrypto}.

(** [SignBytes]: only the block, the epoch and the voter are encoded. *)
Definition SignBytes (v : Vote) : Bytes :=
  EncodeVote (mkVote (Block v) 0 0 (Epoch v) (ID v) None).

(** [Sign] with a private key, given as the function it computes on bytes. *)
Definition Sign (priv : Bytes -> Signature) (v : Vote) : Vote :=
  mkVote (Block v) (Height v) (MainchainHeight v) (Epoch v) (ID v) (Some (priv (SignBytes v))).

Definition Vote_Validate (v : Vote) : outcome unit :=
  if IsEmpty (Block v) then Err "Block is not specified"
  else if IsEmpty (ID v) then Err "Voter is not specified"
  else match VSignature v with
       | None => Err "Vote is not signed"
       | Some sig =>
           if Sig_IsEmpty sig then Err "Vote is not signed"
           else if negb (Sig_Verify sig (SignBytes v) (ID v))
                then Err "Signature verification failed"
                else Ok tt
       end.

End Votes.

(** ** Vote sets *)

Abbreviation VoteKey := (Address * Hash * uint64)%type (only parsing).
Abbreviation VoteSet := (gmap (Z * Z * Z) Vote) (only parsing).

Definition vote_key (v : Vote) : VoteKey := (ID v, Block v, Epoch v).

Definition NewVoteSet : VoteSet := ∅.

Definition AddVote (s : VoteSet) (v : Vote) : VoteSet := <[vote_key v := v]> s.

(** Adding the votes of a slice one after the other. *)
Definition AddVotes (s : VoteSet) (l : list Vote) : VoteSet := foldl AddVote s l.

Definition VoteSet_Size (s : VoteSet) : nat := size s.

Definition VoteSet_IsEmpty (s : VoteSet) : bool := Nat.eqb (VoteSet_Size s) 0.

(** The votes of a set, in one particular order. *)
Definition range (s : VoteSet) : list Vote := (map_to_list s).*2.

(** [order] is a possible iteration over [s]. *)
Definition iterates (s : VoteSet) (order : list Vote) : Prop := order ≡ₚ range s.

Definition vote_le (v w : Vote) : Prop := ID v <= ID w.

#[export] Instance vote_le_dec : RelDecision vote_le.
Proof. intros v w. apply Z.le_dec. Defined.

(** [Votes] collects the votes in iteration order and sorts them by voter. *)
Definition Votes (order : list Vote) : list Vote := merge_sort vote_le order.

Fixpoint VoteSet_Validate `{VoteCrypto} (order : list Vote) : outcome unit :=
  match order with
  | [] => Ok tt
  | v :: order' =>
      match Vote_Validate v with
      | Err _ => Err "Contains invalid vote"
      | _ => VoteSet_Validate order'
      end
  end.

Definition Copy (order : list Vote) : VoteSet := AddVotes NewVoteSet (Votes order).

Definition Merge (order1 order2 : list Vote) : VoteSet :=
  AddVotes (AddVotes NewVoteSet (Votes order1)) (Votes order2).

(** [EncodeRLP] writes the sorted votes; [DecodeRLP] adds the decoded ones to
    an empty set ([UnmarshalJSON] and [MarshalJSON] do the same in JSON). *)
Definition EncodeRLP (order : list Vote) : list Vote := Votes order.
Definition DecodeRLP (votes : list Vote) : VoteSet := AddVotes NewVoteSet votes.

(** The loop of [UniqueVoter] and [UniqueVoterAndBlock]: keep, per key, a vote
    of the latest epoch, the first one met when epochs are equal. *)
Definition keep_latest {K} `{Countable K} (key : Vote -> K) (latest : gmap K Vote) (v : Vote)
    : gmap K Vote :=
  match latest !! key v with
  | Some prev => if Epoch v <=? Epoch prev then latest else <[key v := v]> latest
  | None => <[key v := v]> latest
  end.

Definition latest_votes {K} `{Countable K} (key : Vote -> K) (order : list Vote) : gmap K Vote :=
  foldl (keep_latest key) ∅ order.

Definition UniqueVoterAndBlock (order : list Vote) : VoteSet :=
  AddVotes NewVoteSet (map_to_list (latest_votes (fun v => (ID v, Block v)) order)).*2.

Definition UniqueVoter (order : list Vote) : VoteSet :=
  AddVotes NewVoteSet (map_to_list (latest_votes ID order)).*2.

(** Every vote is stored under its own key. *)
Definition keyed (s : VoteSet) : Prop := map_Forall (fun k v => k = vote_key v) s.

(** The vote is an element of the set. *)
Definition has_vote (s : VoteSet) (v : Vote) : Prop := s !! vote_key v = Some v.

(** No voter voted twice in one epoch. *)
Definition no_equivocation (s : VoteSet) : Prop :=
  forall v w, has_vote s v -> has_vote s w -> ID v = ID w -> Epoch v = Epoch w -> v = w.

(** What [UniqueVoter] promises: a subset of the votes with exactly one vote
    per voter, of that voter's latest epoch. *)
Definition latest_per {K} (key : Vote -> K) (s r : VoteSet) : Prop :=
  keyed r /\
  (forall v, has_vote r v -> has_vote s v) /\
  (forall v, has_vote s v -> exists w, has_vote r w /\ key w = key v /\ Epoch v <= Epoch w) /\
  (forall v w, has_vote r v -> has_vote r w -> key v = key w -> v = w).

Arguments AddVotes : simpl never.
Arguments latest_votes : simpl never.

(** ** Lemmas: sets as lists of votes *)

Lemma keyed_empty : keyed ∅.
Proof. apply map_Forall_empty. Qed.

Lemma keyed_AddVote s v : keyed s -> keyed (AddVote s v).
Proof. intros Hs. by apply map_Forall_insert_2. Qed.

Lemma keyed_AddVotes s l : keyed s -> keyed (AddVotes s l).
Proof.
  revert s; induction l as [|v l IH]; intros s Hs; [done|].
  apply IH, keyed_AddVote, Hs.
Qed.

#[export] Hint Resolve keyed_empty keyed_AddVote keyed_AddVotes : subchain.

Lemma elem_of_range s v : keyed s -> v ∈ range s <-> has_vote s v.
Proof.
  intros Hs. unfold range, has_vote. rewrite list_elem_of_fmap. split.
  - intros ([k w] & -> & Hin%elem_of_map_to_list). simpl. by rewrite <- (Hs _ _ Hin).
  - intros Hv. exists (vote_key v, v). split; [done|]. by apply elem_of_map_to_list.
Qed.

Lemma range_keys s : keyed s -> vote_key <$> range s = (map_to_list s).*1.
Proof.
  intros Hs. unfold range. rewrite <- list_fmap_compose.
  apply list_fmap_ext. intros i [k v] Hkv. simpl. symmetry. apply Hs.
  apply elem_of_map_to_list, list_elem_of_lookup. eauto.
Qed.

Lemma range_NoDup_keys s : keyed s -> NoDup (vote_key <$> range s).
Proof. intros Hs. rewrite range_keys by done. apply NoDup_fst_map_to_list. Qed.

Lemma iterates_elem s order v : keyed s -> iterates s order -> v ∈ order <-> has_vote s v.
Proof. intros Hs Ho. unfold iterates in Ho. rewrite Ho. by apply elem_of_range. Qed.

Lemma iterates_NoDup s order : keyed s -> iterates s order -> NoDup (vote_key <$> order).
Proof. intros Hs Ho. unfold iterates in Ho. rewrite Ho. by apply range_NoDup_keys. Qed.

Lemma iterates_range s : iterates s (range s).
Proof. unfold iterates. done. Qed.

Lemma Votes_perm order : Votes order ≡ₚ order.
Proof. apply merge_sort_Permutation. Qed.

#[export] Instance vote_le_total : Total vote_le.
Proof. intros v w. unfold vote_le. lia. Qed.

#[export] Instance vote_le_trans : Transitive vote_le.
Proof. intros u v w. unfold vote_le. lia. Qed.

Lemma AddVotes_notin s l k : k ∉ (vote_key <$> l) -> AddVotes s l !! k = s !! k.
Proof.
  revert s; induction l as [|v l IH]; intros s; [done|].
  rewrite fmap_cons. intros [Hk Hl]%not_elem_of_cons.
  change (AddVotes s (v :: l)) with (AddVotes (AddVote s v) l). rewrite IH by done.
  unfold AddVote. by rewrite lookup_insert_ne.
Qed.

Lemma AddVotes_in s l v :
  NoDup (vote_key <$> l) -> v ∈ l -> AddVotes s l !! vote_key v = Some v.
Proof.
  revert s; induction l as [|w l IH]; intros s; [by intros _ ?%elem_of_nil|].
  rewrite fmap_cons. intros [Hw Hnd]%NoDup_cons [->|Hv]%elem_of_cons;
    change (AddVotes s (w :: l)) with (AddVotes (AddVote s w) l); [|by apply IH].
  rewrite AddVotes_notin by done. apply lookup_insert_eq.
Qed.

Lemma AddVotes_empty_has l v :
  NoDup (vote_key <$> l) -> has_vote (AddVotes ∅ l) v <-> v ∈ l.
Proof.
  intros Hnd. split; [|by apply AddVotes_in].
  unfold has_vote. intros Hv.
  destruct (decide (vote_key v ∈ vote_key <$> l)) as [Hin|Hnot].
  - apply list_elem_of_fmap in Hin as (w & Heq & Hw).
    rewrite Heq, (AddVotes_in _ _ w) in Hv by done. by simplify_eq.
  - by rewrite AddVotes_notin, lookup_empty in Hv.
Qed.

(** Two keyed sets with the same votes are equal. *)
Lemma keyed_eq s t : keyed s -> keyed t -> (forall v, has_vote s v <-> has_vote t v) -> s = t.
Proof.
  intros Hs Ht Hst. apply map_eq. intros k. apply option_eq. intros v. split; intros Hv.
  - rewrite (Hs _ _ Hv) in Hv |- *. by apply Hst.
  - rewrite (Ht _ _ Hv) in Hv |- *. by apply Hst.
Qed.

Lemma AddVotes_perm_eq s order order' :
  keyed s -> iterates s order -> order' ≡ₚ order -> AddVotes ∅ order' = s.
Proof.
  intros Hs Ho Hp. assert (Hnd : NoDup (vote_key <$> order'))
    by (rewrite Hp; by eapply iterates_NoDup).
  apply keyed_eq; [auto with subchain|done|]. intros v.
  rewrite AddVotes_empty_has, Hp by done. by apply iterates_elem.
Qed.

Lemma AddVotes_union s t order' :
  keyed t -> iterates t order' -> AddVotes s order' = t ∪ s.
Proof.
  intros Ht Ho. apply map_eq. intros k. rewrite lookup_union.
  pose proof (iterates_NoDup _ _ Ht Ho) as Hnd.
  destruct (t !! k) as [v|] eqn:Hk; rewrite ?union_Some_l.
  - rewrite (Ht _ _ Hk) in Hk |- *. rewrite AddVotes_in; [by destruct (s !! vote_key v)|done|].
    by eapply iterates_elem.
  - rewrite AddVotes_notin; [by destruct (s !! k)|]. rewrite list_elem_of_fmap.
    intros (v & -> & Hv%(iterates_elem _ _ _ Ht Ho)). unfold has_vote in Hv. congruence.
Qed.

(** ** Lemmas: the consolidation loop *)

Section Latest.
Context {K} `{Countable K} (key : Vote -> K).

Lemma latest_votes_snoc order v :
  latest_votes key (order ++ [v]) = keep_latest key (latest_votes key order) v.
Proof. unfold latest_votes. by rewrite foldl_app. Qed.

Lemma latest_votes_from order k v :
  latest_votes key order !! k = Some v -> v ∈ order /\ key v = k.
Proof.
  revert k v; induction order as [|w order IH] using rev_ind; intros k v; [done|].
  rewrite latest_votes_snoc. unfold keep_latest.
  assert (Hold : latest_votes key order !! k = Some v -> v ∈ order ++ [w] /\ key v = k).
  { intros [Hv Hk]%IH. split; [apply elem_of_app; by left|done]. }
  assert (Hnew : <[key w := w]> (latest_votes key order) !! k = Some v ->
                 v ∈ order ++ [w] /\ key v = k).
  { rewrite lookup_insert. case_decide as Hkw; [|done]. intros [= ->].
    split; [apply elem_of_app; right; by left|done]. }
  repeat case_match; auto.
Qed.

Lemma latest_votes_covers order v :
  v ∈ order -> exists w, latest_votes key order !! key v = Some w /\ Epoch v <= Epoch w.
Proof.
  induction order as [|u order IH] using rev_ind; [by intros ?%elem_of_nil|].
  rewrite latest_votes_snoc. unfold keep_latest.
  intros [Hv|Hv%list_elem_of_singleton]%elem_of_app; [|subst v].
  - destruct (IH Hv) as (w & Hw & Hle). destruct (decide (key u = key v)) as [Heq|Hne].
    + rewrite Heq, Hw. destruct (Epoch u <=? Epoch w) eqn:Hc; bool_to_prop; [eauto|].
      exists u. rewrite lookup_insert_eq. split; [done|lia].
    + exists w. repeat case_match; rewrite ?lookup_insert_ne by done; done.
  - destruct (latest_votes key order !! key u) as [w|] eqn:Hw.
    + destruct (Epoch u <=? Epoch w) eqn:Hc; bool_to_prop; [eauto|].
      exists u. by rewrite lookup_insert_eq.
    + exists u. by rewrite lookup_insert_eq.
Qed.

(** The key of the consolidation is determined by the key of the vote. *)
Hypothesis key_coarser : forall v w, vote_key v = vote_key w -> key v = key w.

Lemma latest_values_NoDup order :
  NoDup (vote_key <$> (map_to_list (latest_votes key order)).*2).
Proof.
  apply NoDup_fmap_2_strong.
  - intros v w Hv Hw Hvw%key_coarser.
    apply list_elem_of_fmap in Hv as ([k v'] & -> & Hv%elem_of_map_to_list).
    apply list_elem_of_fmap in Hw as ([k' w'] & -> & Hw%elem_of_map_to_list). simpl in *.
    pose proof (latest_votes_from _ _ _ Hv) as [_ <-].
    pose proof (latest_votes_from _ _ _ Hw) as [_ <-]. rewrite Hvw in Hv. congruence.
  - apply NoDup_fmap_2_strong; [|apply NoDup_map_to_list].
    intros [k v] [k' w] Hv%elem_of_map_to_list Hw%elem_of_map_to_list. simpl. intros ->.
    apply latest_votes_from in Hv as [_ <-]. by apply latest_votes_from in Hw as [_ <-].
Qed.

Lemma latest_set_has order v :
  has_vote (AddVotes ∅ (map_to_list (latest_votes key order)).*2) v <->
  latest_votes key order !! key v = Some v.
Proof.
  rewrite AddVotes_empty_has by apply latest_values_NoDup.
  rewrite list_elem_of_fmap. split.
  - intros ([k w] & -> & Hin%elem_of_map_to_list). simpl.
    by destruct (latest_votes_from _ _ _ Hin) as [_ ->].
  - intros Hv. exists (key v, v). split; [done|]. by apply elem_of_map_to_list.
Qed.

Lemma latest_set_spec s order :
  keyed s -> iterates s order ->
  latest_per key s (AddVotes ∅ (map_to_list (latest_votes key order)).*2).
Proof.
  intros Hs Ho. split; [auto with subchain|]. split_and!.
  - intros v [Hv _]%latest_set_has%latest_votes_from. by apply (iterates_elem s order).
  - intros v Hv. apply (iterates_elem s order v Hs Ho) in Hv.
    destruct (latest_votes_covers _ _ Hv) as (w & Hw & Hle).
    destruct (latest_votes_from _ _ _ Hw) as [_ Hk]. exists w.
    rewrite latest_set_has, Hk. done.
  - intros v w Hv%latest_set_has Hw%latest_set_has Hk. rewrite Hk in Hv. congruence.
Qed.

(** [latest_per] determines the result when the epochs of the votes with one
    key are distinct. *)
Lemma latest_per_unique s r1 r2 :
  (forall v w, has_vote s v -> has_vote s w -> key v = key w -> Epoch v = Epoch w -> v = w) ->
  latest_per key s r1 -> latest_per key s r2 -> r1 = r2.
Proof.
  assert (Hsub : forall a b, (forall v w, has_vote s v -> has_vote s w -> key v = key w ->
      Epoch v = Epoch w -> v = w) -> latest_per key s a -> latest_per key s b ->
      forall v, has_vote a v -> has_vote b v).
  { intros a b Huniq (_ & Ha & Hacov & Hauniq) (_ & Hb & Hbcov & _) v Hv.
    destruct (Hbcov v (Ha v Hv)) as (w & Hw & Hkw & Hle).
    destruct (Hacov w (Hb w Hw)) as (w' & Hw' & Hkw' & Hle').
    assert (w' = v) as -> by (apply Hauniq; congruence).
    rewrite (Huniq v w); auto; lia. }
  intros Huniq H1 H2. apply keyed_eq; [apply H1|apply H2|].
  intros v; split; by eapply Hsub.
Qed.

End Latest.

Lemma voter_coarser v w : vote_key v = vote_key w -> ID v = ID w.
Proof. unfold vote_key. congruence. Qed.

Lemma voter_block_coarser v w : vote_key v = vote_key w -> (ID v, Block v) = (ID w, Block w).
Proof. unfold vote_key. congruence. Qed.

Lemma UniqueVoter_latest s order :
  keyed s -> iterates s order -> latest_per ID s (UniqueVoter order).
Proof. apply latest_set_spec, voter_coarser. Qed.

Lemma UniqueVoter_keyed order : keyed (UniqueVoter order).
Proof. apply keyed_AddVotes, keyed_empty. Qed.

Lemma UniqueVoterAndBlock_keyed order : keyed (UniqueVoterAndBlock order).
Proof. apply keyed_AddVotes, keyed_empty. Qed.

#[export] Hint Resolve UniqueVoter_keyed UniqueVoterAndBlock_keyed : subchain.

(** ** Properties *)

(** Three votes of one validator, two of them for different blocks in the
    same epoch. *)
Definition vote_a : Vote := mkVote 10 1 0 1 7 None.
Definition vote_b : Vote := mkVote 11 2 0 2 7 None.
Definition vote_c : Vote := mkVote 12 2 0 2 7 None.
Definition votes_ab : VoteSet := AddVote (AddVote NewVoteSet vote_a) vote_b.
Definition votes_bc : VoteSet := AddVote (AddVote NewVoteSet vote_b) vote_c.

(** (consolidation by voter). Whatever the iteration order, [UniqueVoter]
    returns a subset of the votes with exactly one vote for each voter of the
    set, of the latest epoch that voter voted in; and when no voter voted
    twice in one epoch the result does not depend on the order. *)
Theorem UniqueVoter_spec s order :
  keyed s -> iterates s order ->
  latest_per ID s (UniqueVoter order) /\
  (no_equivocation s -> forall order', iterates s order' -> UniqueVoter order' = UniqueVoter order).
Proof.
  intros Hs Ho. split; [by apply UniqueVoter_latest|].
  intros Hne order' Ho'. apply (latest_per_unique ID s); [done|..];
    by apply UniqueVoter_latest.
Qed.

Lemma UniqueVoter_spec_witness :
  keyed votes_ab /\ latest_per ID votes_ab (UniqueVoter (range votes_ab)) /\
  UniqueVoter (range votes_ab) = AddVote NewVoteSet vote_b.
Proof.
  assert (Hk : keyed votes_ab) by (apply keyed_AddVote, keyed_AddVote, keyed_empty).
  split; [exact Hk|]. split; [|reflexivity].
  apply (UniqueVoter_spec votes_ab (range votes_ab) Hk (iterates_range _)).
Defined.

(** (consolidation by voter and block). [UniqueVoterAndBlock] keeps, for
    each voter and block, the vote of the latest epoch, and its result never
    depends on the order in which the map is iterated. *)
Theorem UniqueVoterAndBlock_spec s order order' :
  keyed s -> iterates s order -> iterates s order' ->
  latest_per (fun v => (ID v, Block v)) s (UniqueVoterAndBlock order) /\
  UniqueVoterAndBlock order' = UniqueVoterAndBlock order.
Proof.
  intros Hs Ho Ho'. split; [by apply latest_set_spec; [apply voter_block_coarser|..]|].
  apply (latest_per_unique (fun v => (ID v, Block v)) s);
    [|by apply latest_set_spec; [apply voter_block_coarser|..]..].
  intros v w Hv Hw [= Hid Hb] He. unfold has_vote, vote_key in *.
  rewrite Hid, Hb, He in Hv. congruence.
Qed.

Lemma UniqueVoterAndBlock_spec_witness :
  UniqueVoterAndBlock [vote_c; vote_b] = UniqueVoterAndBlock [vote_b; vote_c].
Proof.
  assert (Hk : keyed votes_bc) by (apply keyed_AddVote, keyed_AddVote, keyed_empty).
  apply (UniqueVoterAndBlock_spec votes_bc [vote_b; vote_c] [vote_c; vote_b] Hk).
  - vm_compute. first [apply Permutation_refl|apply Permutation_swap].
  - vm_compute. first [apply Permutation_refl|apply Permutation_swap].
Defined.

(** (order dependence). When a voter voted for two blocks in one epoch,
    two iterations over the same set make [UniqueVoter] keep different
    votes. *)
Theorem UniqueVoter_order_dependent :
  exists s o1 o2, keyed s /\ iterates s o1 /\ iterates s o2 /\ UniqueVoter o1 <> UniqueVoter o2.
Proof.
  exists votes_bc, [vote_b; vote_c], [vote_c; vote_b]. split_and!.
  - apply keyed_AddVote, keyed_AddVote, keyed_empty.
  - vm_compute. first [apply Permutation_refl|apply Permutation_swap].
  - vm_compute. first [apply Permutation_refl|apply Permutation_swap].
  - vm_compute. discriminate.
Qed.

(** (round trip and merge). Copying a vote set, or encoding and decoding
    it, gives the same set back, and merging two sets gives their union, in
    which the votes of the second set win; each for every iteration order. *)
Theorem voteset_roundtrip s t order order' :
  keyed s -> iterates s order -> keyed t -> iterates t order' ->
  Copy order = s /\ DecodeRLP (EncodeRLP order) = s /\ Merge order order' = t ∪ s.
Proof.
  intros Hs Ho Ht Ho'. unfold Copy, DecodeRLP, EncodeRLP, Merge, NewVoteSet.
  rewrite !(AddVotes_perm_eq s order (Votes order)) by (done || apply Votes_perm).
  repeat split. apply AddVotes_union; [done|].
  unfold iterates in *. by rewrite Votes_perm.
Qed.

Lemma voteset_roundtrip_witness :
  Merge (range votes_ab) (range votes_bc) = votes_bc ∪ votes_ab.
Proof.
  apply (voteset_roundtrip votes_ab votes_bc (range votes_ab) (range votes_bc)).
  - apply keyed_AddVote, keyed_AddVote, keyed_empty.
  - apply iterates_range.
  - apply keyed_AddVote, keyed_AddVote, keyed_empty.
  - apply iterates_range.
Defined.

(** (signing). A vote for a non-empty block, signed by its voter with a key
    whose signatures are non-empty and verify, is valid; and it stays valid
    when [Height] and [MainchainHeight] are replaced by any values, since they
    are not among the signed bytes. *)
Theorem sign_validates `{VoteCrypto} priv v height mainchainHeight :
  (forall msg, Sig_IsEmpty (priv msg) = false) ->
  (forall msg, Sig_Verify (priv msg) msg (ID v) = true) ->
  Block v <> 0 -> ID v <> 0 ->
  let signed := Sign priv v in
  Vote_Validate signed = Ok tt /\
  Vote_Validate (mkVote (Block signed) height mainchainHeight (Epoch signed) (ID signed)
                   (VSignature signed)) = Ok tt.
Proof.
  intros Hne Hver Hb Hid signed.
  assert (Hs : Vote_Validate signed = Ok tt); [|by split].
  unfold Vote_Validate, signed, Sign, IsEmpty; simpl.
  rewrite !bool_decide_eq_false_2 by done.
  change (SignBytes (mkVote (Block v) (Height v) (MainchainHeight v) (Epoch v) (ID v)
            (Some (priv (SignBytes v))))) with (SignBytes v).
  by rewrite Hne, Hver.
Qed.

(** A toy signature scheme: the signature of a message is the message with a
    prefix, whoever signs it. *)
Definition toy_crypto : VoteCrypto := {|
  EncodeVote v := pretty (Block v) +:+ "/" +:+ pretty (Epoch v) +:+ "/" +:+ pretty (ID v);
  Sig_IsEmpty s := bool_decide (s = "");
  Sig_Verify s msg _ := bool_decide (s = "s" +:+ msg)
|}.

Lemma sign_validates_witness :
  @Vote_Validate toy_crypto (@Sign toy_crypto (fun msg => "s" +:+ msg) vote_a) = Ok tt.
Proof.
  apply (@sign_validates toy_crypto (fun msg => "s" +:+ msg) vote_a 5 6).
  - intros msg. reflexivity.
  - intros msg. apply bool_decide_eq_true_2. reflexivity.
  - discriminate.
  - discriminate.
Defined.
