(* ===== verification/Validator.v ===== *)
(** * Validator sets, majorities and certificates
    (src/core/validator.go, src/core/vote.go, src/consensus/validator.go)

    [Validator] and [ValidatorSet] with their ordering and majority rule,
    [CommitCertificate.IsValid], and the proposer selection of the validator
    managers.  The main results: a validator set does not depend on the order
    its members are added in; two valid certificates share more than a third
    of the stake; and the exact conditions under which the weighted proposer
    selection returns a validator. *)

From Stdlib Require Import Ascii.
From stdpp Require Import gmap sorting.
From stdpp Require Import base list numbers strings.
From S2P Require Import Prelude Vote.
Local Open Scope string_scope.
Local Open Scope list_scope.
Local Open Scope Z_scope.

Record Validator := mkValidator {
  VAddress : Address;
  VStake : Z
}.

#[export] Instance Validator_eq_dec : EqDecision Validator.
Proof. solve_decision. Defined.

Definition Validator_Equals (v x : Validator) : bool :=
  if negb (Z.eqb (VAddress v) (VAddress x)) then false
  else if negb (Z.eqb (VStake v) (VStake x)) then false
  else true.

Record ValidatorSet := mkValidatorSet {
  dynasty : Z;
  validators : list Validator
}.

Definition NewValidatorSet (d : Z) : ValidatorSet := mkValidatorSet d [].

Definition ValidatorSet_Size (s : ValidatorSet) : nat := length (validators s).

(** The comparison loop of [ValidatorSet.Equals], on slices of equal length. *)
Fixpoint equal_validators (l k : list Validator) : bool :=
  match l, k with
  | v :: l', x :: k' => if negb (Validator_Equals v x) then false else equal_validators l' k'
  | _, _ => true
  end.

Definition ValidatorSet_Equals (s t : ValidatorSet) : bool :=
  if negb (Z.eqb (dynasty s) (dynasty t)) then false
  else if negb (Nat.eqb (length (validators s)) (length (validators t))) then false
  else equal_validators (validators s) (validators t).

Definition GetValidator (s : ValidatorSet) (id : Address) : outcome Validator :=
  match List.find (fun v => Z.eqb (VAddress v) id) (validators s) with
  | Some v => Ok v
  | None => Err "ValidatorNotFound"
  end.

(** [ByID]: the order of [bytes.Compare] on the addresses. *)
Definition by_id (v w : Validator) : Prop := VAddress v <= VAddress w.

#[export] Instance by_id_dec : RelDecision by_id.
Proof. intros v w. apply Z.le_dec. Defined.

Definition AddValidator (s : ValidatorSet) (v : Validator) : ValidatorSet :=
  mkValidatorSet (dynasty s) (merge_sort by_id (validators s ++ [v])).

Definition AddValidators (s : ValidatorSet) (l : list Validator) : ValidatorSet :=
  foldl AddValidator s l.

Definition ValidatorSet_Copy (s : ValidatorSet) : ValidatorSet :=
  AddValidators (NewValidatorSet (dynasty s)) (validators s).

Definition ValidatorSet_TotalStake (s : ValidatorSet) : Z :=
  foldl (fun acc v => acc + VStake v) 0 (validators s).

Definition HasMajorityVotes (s : ValidatorSet) (votes : list Vote) : bool :=
  let votedStake :=
    foldl (fun acc v => match GetValidator s (ID v) with
                        | Ok validator => acc + VStake validator
                        | _ => acc
                        end) 0 votes in
  (ValidatorSet_TotalStake s * 2 <? votedStake * 3).

Definition HasMajority (s : ValidatorSet) (order : list Vote) : bool :=
  HasMajorityVotes s (Votes order).

(** [FilterByValidators] of a vote set, given the order of its iteration. *)
Definition FilterByValidators (order : list Vote) (s : ValidatorSet) : VoteSet :=
  foldl (fun ret v => if is_ok (GetValidator s (ID v)) then AddVote ret v else ret)
    NewVoteSet order.

(** ** Commit certificates *)

Record CommitCertificate := mkCC {
  CCVotes : option VoteSet;
  CCBlockHash : Hash
}.

(** [CommitCertificate.IsValid]; [order] is the iteration of [UniqueVoter]
    over the votes of the certificate. *)
Definition CC_IsValid `{VoteCrypto} (cc : CommitCertificate) (order : list Vote)
    (vs : ValidatorSet) : bool :=
  match CCVotes cc with
  | None => false
  | Some votes =>
      if VoteSet_IsEmpty votes then false
      else
        let filtered := UniqueVoter order in
        if negb (Nat.eqb (VoteSet_Size filtered) (VoteSet_Size votes)) then false
        else if Nat.ltb (ValidatorSet_Size vs) (VoteSet_Size filtered) then false
        else if negb (forallb (fun v => Z.eqb (Block v) (CCBlockHash cc) && is_ok (Vote_Validate v))
                        (Votes (range filtered))) then false
        else HasMajority vs (range filtered)
  end.

(** ** Proposer selection (src/consensus/validator.go) *)

Definition BigMaxUint32 : Z := 4294967295.
Definition maxInt64 : uint64 := 9223372036854775807.

(** A seeded generator of math/rand: [Int63n n] is in [0, n) for a positive
    [n] (and panics otherwise), [Uint64] is a stream of 64-bit values. *)
Record Rand := mkRand {
  Int63n : Z -> Z;
  Uint64 : nat -> Z
}.

Definition rand_ok (rnd : Rand) : Prop :=
  (forall n, 0 < n -> 0 <= Int63n rnd n < n) /\ (forall i, is_u64 (Uint64 rnd i)).

(** The rejection loop of [randUint64], from the [i]-th value of the stream. *)
Fixpoint rejection (rnd : Rand) (max : uint64) (i fuel : nat) : option uint64 :=
  match fuel with
  | O => None
  | S fuel' => if Uint64 rnd i <? max then Some (Uint64 rnd i)
               else rejection rnd max (S i) fuel'
  end.

Definition randUint64 (rnd : Rand) (fuel : nat) (max : uint64) : outcome uint64 :=
  if max <=? maxInt64 then
    if max <=? 0 then Panic "invalid argument to Int63n" else Ok (Int63n rnd max)
  else match rejection rnd max 0 fuel with
       | Some r => Ok r
       | None => Err "out of fuel"
       end.

Definition scaleDown (x scalingFactor : Z) : outcome uint64 :=
  if Z.eqb scalingFactor 0 then Panic "scalingFactor is zero"
  else Ok (wrap64 (x / scalingFactor)).

(** The cumulative scan over the validators, with the 64-bit counter. *)
Fixpoint select_validator (r scalingFactor : Z) (curr : uint64) (l : list Validator)
    : outcome Validator :=
  match l with
  | [] => Panic "Failed to randomly select a validator"
  | v :: l' =>
      scaled ← scaleDown (VStake v) scalingFactor;
      let curr' := u64_add curr scaled in
      if r <? curr' then Ok v else select_validator r scalingFactor curr' l'
  end.

(** [RotatingValidatorManager.getProposerFromValidators]; [new_source seed]
    is the generator seeded with the epoch. *)
Definition rotating_proposer (new_source : Z -> Rand) (fuel : nat) (s : ValidatorSet)
    (epoch : uint64) : outcome Validator :=
  if Nat.eqb (ValidatorSet_Size s) 0 then Panic "No validators have been added"
  else
    let totalStake := ValidatorSet_TotalStake s in
    let scalingFactor := totalStake / BigMaxUint32 + 1 in
    scaledTotalStake ← scaleDown totalStake scalingFactor;
    r ← randUint64 (new_source (to_int64 epoch)) fuel scaledTotalStake;
    select_validator r scalingFactor 0 (validators s).

(** [FixedValidatorManager.getProposerFromValidators]. *)
Definition fixed_proposer (s : ValidatorSet) : outcome Validator :=
  if Nat.eqb (ValidatorSet_Size s) 0 then Panic "No validators have been added"
  else match validators s with
       | v :: _ => Ok v
       | [] => Panic "index out of range"
       end.

(** [FilterValidators] rebuilds each validator from the hexadecimal form of
    its address; [Hex] and [HexToAddress] are those of theta/common. *)
Section FilterValidators.
Context (Hex : Address -> string) (HexToAddress : string -> Address).

Definition NewValidator (addressStr : string) (stake : Z) : Validator :=
  mkValidator (HexToAddress addressStr) stake.

Definition FilterValidators (vs : ValidatorSet) : ValidatorSet :=
  foldl (fun valSet candidate =>
           let valAddr := Hex (VAddress candidate) in
           let valStake := VStake candidate in
           if Z.eqb valStake 0 then valSet
           else AddValidator valSet (NewValidator valAddr valStake))
    (NewValidatorSet (dynasty vs)) (validators vs).

(** [selectValidatorsForBlock]: what the ledger answers is an argument. *)
Definition selectValidatorsForBlock (answer : outcome (option ValidatorSet))
    : outcome ValidatorSet :=
  match answer with
  | Err _ => Panic "Failed to get the validator set"
  | Panic m => Panic m
  | Ok None => Panic "Failed to retrieve the validator set"
  | Ok (Some vs) => Ok (FilterValidators vs)
  end.
End FilterValidators.

(** ** Well-formedness and stake of a group of voters *)

Definition valset_ok (s : ValidatorSet) : Prop :=
  NoDup (VAddress <$> validators s) /\ Forall (fun v => 0 <= VStake v) (validators s).

(** The combined stake of the validators whose address satisfies [P]. *)
Definition stake_where (s : ValidatorSet) (P : Address -> Prop) `{forall a, Decision (P a)} : Z :=
  sumZ VStake (filter (fun v => P (VAddress v)) (validators s)).

Definition voters (l : list Vote) : list Address := ID <$> l.

Arguments ValidatorSet_TotalStake : simpl never.
Arguments voters : simpl never.

(** ** Lemmas: ordering *)

#[export] Instance by_id_total : Total by_id.
Proof. intros v w. unfold by_id. lia. Qed.

#[export] Instance by_id_trans : Transitive by_id.
Proof. intros u v w. unfold by_id. lia. Qed.

(** With distinct addresses there is only one sorted arrangement, whatever
    sorting algorithm produces it. *)
Lemma sorted_arrangement_unique l l1 l2 :
  NoDup (VAddress <$> l) -> Sorted by_id l1 -> Sorted by_id l2 -> l1 ≡ₚ l -> l2 ≡ₚ l -> l1 = l2.
Proof.
  intros Hnd Hs1 Hs2 Hp1 Hp2. apply (Sorted_unique_strong by_id); [|done|done|by rewrite Hp1].
  intros v w Hv Hw Hvw Hwv. rewrite Hp1 in Hv. rewrite Hp2 in Hw.
  apply list_elem_of_lookup in Hv as [i Hi], Hw as [j Hj].
  assert (i = j) as ->; [|congruence].
  apply (NoDup_lookup (VAddress <$> l) i j (VAddress v)); rewrite ?list_lookup_fmap, ?Hi, ?Hj;
    [done|done|]. simpl. f_equal. unfold by_id in *. lia.
Qed.

Lemma AddValidators_perm s l :
  validators (AddValidators s l) ≡ₚ validators s ++ l.
Proof.
  revert s; induction l as [|v l IH]; intros s; simpl; [by rewrite app_nil_r|].
  rewrite IH. simpl. rewrite merge_sort_Permutation. by rewrite <- app_assoc.
Qed.

Lemma AddValidators_sorted s l :
  Sorted by_id (validators s) -> Sorted by_id (validators (AddValidators s l)).
Proof.
  revert s; induction l as [|v l IH]; intros s Hs; simpl; [done|].
  apply IH. simpl. apply Sorted_merge_sort, _.
Qed.

Lemma AddValidators_dynasty s l : dynasty (AddValidators s l) = dynasty s.
Proof. revert s; induction l as [|v l IH]; intros s; simpl; [done|]. by rewrite IH. Qed.

Lemma valset_eta s : s = mkValidatorSet (dynasty s) (validators s).
Proof. by destruct s. Qed.

(** ** Lemmas: stake sums *)

Lemma total_stake_sumZ s : ValidatorSet_TotalStake s = sumZ VStake (validators s).
Proof.
  unfold ValidatorSet_TotalStake. generalize (validators s) as l.
  enough (Hacc : forall l a, foldl (fun acc v => acc + VStake v) a l = a + sumZ VStake l)
    by (intros l; by rewrite Hacc).
  induction l as [|v l IH]; intros a; simpl; [rewrite sumZ_nil; lia|].
  rewrite IH, sumZ_cons. lia.
Qed.

Definition weight (s : ValidatorSet) (id : Address) : Z :=
  match GetValidator s id with Ok v => VStake v | _ => 0 end.

Lemma majority_weight s votes :
  HasMajorityVotes s votes =
  (ValidatorSet_TotalStake s * 2 <? sumZ (weight s) (voters votes) * 3).
Proof.
  unfold HasMajorityVotes. do 2 f_equal.
  enough (Hacc : forall l a, foldl (fun acc v => match GetValidator s (ID v) with
      | Ok validator => acc + VStake validator | _ => acc end) a l =
      a + sumZ (weight s) (voters l)) by (by rewrite Hacc).
  induction l as [|v l IH]; intros a; [unfold voters; simpl; rewrite sumZ_nil; lia|].
  simpl foldl. rewrite IH. change (voters (v :: l)) with (ID v :: voters l).
  rewrite sumZ_cons. unfold weight at 2.
  destruct (GetValidator s (ID v)); lia.
Qed.

#[export] Instance majority_perm s : Proper ((≡ₚ) ==> (=)) (HasMajorityVotes s).
Proof. intros l l' Hl. rewrite !majority_weight. unfold voters. by rewrite Hl. Qed.

Lemma HasMajority_order s order : HasMajority s order = HasMajorityVotes s order.
Proof. unfold HasMajority. by rewrite Votes_perm. Qed.

Lemma stake_where_if s P `{forall a, Decision (P a)} :
  stake_where s P = sumZ (fun v => if decide (P (VAddress v)) then VStake v else 0) (validators s).
Proof. apply sumZ_filter_if. Qed.

Lemma GetValidator_elem s id v : GetValidator s id = Ok v -> v ∈ validators s /\ VAddress v = id.
Proof.
  unfold GetValidator. destruct (List.find _ _) as [w|] eqn:Hf; [|done].
  intros [= ->]. apply List.find_some in Hf as [Hin Heq]. bool_to_prop.
  by rewrite list_elem_of_In.
Qed.

Lemma GetValidator_in s v :
  valset_ok s -> v ∈ validators s -> GetValidator s (VAddress v) = Ok v.
Proof.
  intros [Hnd _] Hv. unfold GetValidator. destruct (List.find _ _) as [w|] eqn:Hf.
  - apply List.find_some in Hf as [Hin Heq]. bool_to_prop. rewrite <- list_elem_of_In in Hin.
    apply list_elem_of_lookup in Hin as [i Hi], Hv as [j Hj].
    assert (i = j) as ->; [|congruence].
    apply (NoDup_lookup (VAddress <$> validators s) i j (VAddress v));
      rewrite ?list_lookup_fmap, ?Hi, ?Hj; [done| |done]. simpl. by f_equal.
  - apply list_elem_of_In in Hv. eapply List.find_none in Hf; [|exact Hv].
    simpl in Hf. by rewrite Z.eqb_refl in Hf.
Qed.

Lemma weight_stake_where s a : valset_ok s -> weight s a = stake_where s (eq a).
Proof.
  intros [Hnd _]. rewrite stake_where_if. unfold weight, GetValidator.
  induction (validators s) as [|v l IH]; [done|].
  rewrite fmap_cons in Hnd. apply NoDup_cons in Hnd as [Hv Hnd].
  rewrite sumZ_cons. simpl List.find.
  destruct (Z.eqb_spec (VAddress v) a) as [Heq|Hne].
  - subst a. rewrite decide_True by done.
    rewrite (sumZ_ext _ (fun _ => 0)), <- (Z.add_0_r (VStake v)) at 1.
    + f_equal. clear. induction l as [|w l IH]; [done|]. by rewrite sumZ_cons, <- IH.
    + intros w Hw. rewrite decide_False; [done|]. intros Heq. apply Hv.
      rewrite Heq. by apply list_elem_of_fmap_2.
  - rewrite decide_False by congruence. by apply IH.
Qed.

(** The stake of distinct voters is the stake of the validators among them. *)
Lemma voters_stake s ids :
  valset_ok s -> NoDup ids -> sumZ (weight s) ids = stake_where s (fun a => a ∈ ids).
Proof.
  intros Hok. induction 1 as [|a ids Ha _ IH].
  - rewrite stake_where_if, sumZ_nil. induction (validators s) as [|v l IHl]; [done|].
    rewrite sumZ_cons, <- IHl. by rewrite decide_False by apply not_elem_of_nil.
  - rewrite sumZ_cons, IH, weight_stake_where by done. rewrite !stake_where_if, <- sumZ_add.
    apply sumZ_ext. intros v _. repeat case_decide; try lia;
      exfalso; rewrite ?elem_of_cons in *; naive_solver.
Qed.

Lemma stake_inclusion_exclusion s P Q `{forall a, Decision (P a)} `{forall a, Decision (Q a)} :
  valset_ok s ->
  stake_where s P + stake_where s Q <=
  ValidatorSet_TotalStake s + stake_where s (fun a => P a /\ Q a).
Proof.
  intros [_ Hpos]. rewrite total_stake_sumZ, !stake_where_if, <- !sumZ_add.
  apply sumZ_le. intros v Hv. rewrite Forall_forall in Hpos. specialize (Hpos v Hv).
  repeat case_decide; try tauto; lia.
Qed.

(** ** Lemmas: what a valid certificate contains *)

Lemma UniqueVoter_NoDup s order :
  keyed s -> iterates s order -> NoDup (voters (range (UniqueVoter order))).
Proof.
  intros Hs Ho. destruct (UniqueVoter_latest s order Hs Ho) as (Hk & _ & _ & Huniq).
  apply NoDup_fmap_2_strong.
  - intros v w Hv%elem_of_range Hw%elem_of_range Heq; auto.
  - apply (NoDup_fmap_1 vote_key), range_NoDup_keys, Hk.
Qed.

Lemma CC_IsValid_inv `{VoteCrypto} cc order vs votes :
  CCVotes cc = Some votes -> keyed votes -> iterates votes order ->
  CC_IsValid cc order vs = true ->
  let ids := voters (range (UniqueVoter order)) in
  NoDup ids /\
  (ValidatorSet_TotalStake vs * 2 < sumZ (weight vs) ids * 3) /\
  (forall a, a ∈ ids -> exists v, has_vote votes v /\ ID v = a /\ Block v = CCBlockHash cc /\
     Vote_Validate v = Ok tt).
Proof.
  intros Hcc Hk Ho Hvalid ids. unfold CC_IsValid in Hvalid. rewrite Hcc in Hvalid.
  repeat (case_match; [done|]). split; [by eapply UniqueVoter_NoDup|].
  rewrite HasMajority_order, majority_weight in Hvalid. bool_to_prop. split; [done|].
  intros a (v & -> & Hv)%list_elem_of_fmap. exists v.
  destruct (UniqueVoter_latest votes order Hk Ho) as (Hku & Hsub & _ & _).
  split; [by apply Hsub, elem_of_range|]. split; [done|].
  match goal with Hall : forallb _ _ = true |- _ =>
    rewrite forallb_forall in Hall; pose proof (Hall v) as Hchk end.
  rewrite <- list_elem_of_In, Votes_perm in Hchk. specialize (Hchk Hv). bool_to_prop.
  split; [done|]. destruct (Vote_Validate v) as [[]| |]; done.
Qed.

Lemma quorum_stake s ids1 ids2 :
  valset_ok s -> NoDup ids1 -> NoDup ids2 ->
  ValidatorSet_TotalStake s * 2 < sumZ (weight s) ids1 * 3 ->
  ValidatorSet_TotalStake s * 2 < sumZ (weight s) ids2 * 3 ->
  ValidatorSet_TotalStake s < 3 * stake_where s (fun a => a ∈ ids1 /\ a ∈ ids2).
Proof.
  intros Hok H1 H2. rewrite !voters_stake by done. intros Hm1 Hm2.
  pose proof (stake_inclusion_exclusion s (fun a => a ∈ ids1) (fun a => a ∈ ids2) Hok).
  cbn beta in *. lia.
Qed.

(** A group of more stake than another has a validator the other lacks. *)
Lemma stake_where_witness s P Q `{forall a, Decision (P a)} `{forall a, Decision (Q a)} :
  valset_ok s -> stake_where s Q < stake_where s P ->
  exists v, v ∈ validators s /\ P (VAddress v) /\ ~ Q (VAddress v).
Proof.
  intros [_ Hpos] Hlt.
  destruct (decide (Exists (fun v => P (VAddress v) /\ ~ Q (VAddress v)) (validators s)))
    as [(v & Hv & Hpq)%Exists_exists|Hno]; [eauto|].
  exfalso. rewrite !stake_where_if in Hlt. apply Z.lt_nge in Hlt. apply Hlt, sumZ_le.
  intros v Hv. rewrite Forall_forall in Hpos. specialize (Hpos v Hv).
  repeat case_decide; try lia. exfalso. apply Hno, Exists_exists. eauto.
Qed.

(** ** Lemmas: proposer selection *)

Definition scaled_sum (f : Z) (l : list Validator) : Z := sumZ (fun v => VStake v / f) l.

Lemma scaled_sum_le f l :
  0 < f -> scaled_sum f l <= sumZ VStake l / f.
Proof.
  intros Hf. unfold scaled_sum. induction l as [|v l IH]; [done|].
  rewrite !sumZ_cons. pose proof (Z.div_mod (VStake v) f). pose proof (Z.div_mod (sumZ VStake l) f).
  pose proof (Z.mod_pos_bound (VStake v) f Hf). pose proof (Z.mod_pos_bound (sumZ VStake l) f Hf).
  apply Z.le_trans with (VStake v / f + sumZ VStake l / f); [lia|].
  apply Z.div_le_lower_bound; nia.
Qed.

Lemma scaled_total_bound t : 0 <= t -> 0 <= t / (t / BigMaxUint32 + 1) < BigMaxUint32.
Proof.
  intros Ht. pose proof (Z.div_pos t BigMaxUint32 Ht eq_refl).
  split; [apply Z.div_pos; lia|]. apply Z.div_lt_upper_bound; [lia|].
  pose proof (Z.div_mod t BigMaxUint32 ltac:(done)).
  pose proof (Z.mod_pos_bound t BigMaxUint32 ltac:(done)). lia.
Qed.

Lemma select_validator_spec r f l curr :
  0 < f -> 0 <= curr -> Forall (fun v => 0 <= VStake v) l ->
  curr + scaled_sum f l < two64 -> curr <= r ->
  (r < curr + scaled_sum f l /\ exists l1 v l2, l = l1 ++ v :: l2 /\
     select_validator r f curr l = Ok v /\
     curr + scaled_sum f l1 <= r < curr + scaled_sum f (l1 ++ [v])) \/
  (curr + scaled_sum f l <= r /\
     select_validator r f curr l = Panic "Failed to randomly select a validator").
Proof.
  intros Hf. revert curr. induction l as [|v l IH]; intros curr Hc Hpos Hb Hr.
  { right. unfold scaled_sum. rewrite sumZ_nil. split; [lia|done]. }
  apply Forall_cons in Hpos as [Hv Hpos]. unfold scaled_sum in *. rewrite sumZ_cons in *.
  pose proof (Z.div_pos _ _ Hv Hf).
  assert (0 <= sumZ (fun v => VStake v / f) l).
  { apply sumZ_nonneg. intros w Hw. rewrite Forall_forall in Hpos. apply Z.div_pos; auto. }
  cbn [select_validator]. unfold scaleDown.
  rewrite (proj2 (Z.eqb_neq f 0)) by lia. cbn -[Z.div].
  rewrite wrap64_small, u64_add_small by (unfold is_u64; lia).
  destruct (r <? curr + VStake v / f) eqn:Hlt; bool_to_prop.
  - left. split; [lia|]. exists [], v, l. simpl app. rewrite sumZ_cons, sumZ_nil.
    repeat split; lia.
  - destruct (IH (curr + VStake v / f)) as [(Hlt' & l1 & w & l2 & -> & Hsel & Hcum)|[Hge Hsel]];
      [lia|done|lia|lia| |right; split; [lia|done]].
    left. split; [lia|]. exists (v :: l1), w, l2. split; [done|]. split; [done|].
    rewrite <- app_comm_cons, !sumZ_cons. lia.
Qed.

(** The draw of the proposer selection is below the scaled total stake, so the
    rejection loop of [randUint64] is never entered. *)
Lemma rotating_draw new_source fuel s epoch :
  (forall seed, rand_ok (new_source seed)) -> valset_ok s -> 0 < ValidatorSet_TotalStake s ->
  let f := ValidatorSet_TotalStake s / BigMaxUint32 + 1 in
  0 < ValidatorSet_TotalStake s / f ->
  exists r, 0 <= r < ValidatorSet_TotalStake s / f /\
    rotating_proposer new_source fuel s epoch = select_validator r f 0 (validators s).
Proof.
  intros Hrnd Hok Hpos f Hsc.
  pose proof (scaled_total_bound _ (Z.lt_le_incl _ _ Hpos)) as Hb. fold f in Hb.
  assert (Hf : 0 < f) by (unfold f; pose proof (Z.div_pos _ BigMaxUint32
    (Z.lt_le_incl _ _ Hpos) eq_refl); lia).
  unfold rotating_proposer, ValidatorSet_Size.
  destruct (validators s) as [|v l] eqn:Hl.
  { rewrite total_stake_sumZ, Hl, sumZ_nil in Hpos. lia. }
  cbn [length Nat.eqb]. fold f. unfold scaleDown at 1.
  rewrite (proj2 (Z.eqb_neq f 0)) by lia. cbn -[select_validator Z.div].
  unfold randUint64. rewrite wrap64_small by (unfold is_u64, two64, BigMaxUint32 in *; lia).
  rewrite (proj2 (Z.leb_le _ maxInt64)) by (unfold maxInt64, BigMaxUint32 in *; lia).
  rewrite (proj2 (Z.leb_gt _ 0)) by lia. cbn -[select_validator Z.div].
  eexists; split; [|reflexivity]. by apply Hrnd.
Qed.

Lemma small_total_factor t : 0 <= t < BigMaxUint32 -> t / BigMaxUint32 + 1 = 1.
Proof. intros Ht. by rewrite Z.div_small. Qed.

Lemma scaled_total_positive t : 0 < t -> 0 < t / (t / BigMaxUint32 + 1).
Proof.
  intros Ht. apply Z.div_str_pos.
  pose proof (Z.div_mod t BigMaxUint32 ltac:(done)).
  pose proof (Z.mod_pos_bound t BigMaxUint32 ltac:(done)).
  pose proof (Z.div_pos t BigMaxUint32 ltac:(lia) eq_refl).
  unfold BigMaxUint32 in *. split; [lia|nia].
Qed.

Lemma Validator_Equals_iff v x : Validator_Equals v x = true <-> v = x.
Proof.
  destruct v as [a b], x as [a' b']. unfold Validator_Equals. simpl.
  destruct (Z.eqb_spec a a'), (Z.eqb_spec b b'); simpl; split; congruence.
Qed.

Lemma equal_validators_iff l k :
  length l = length k -> equal_validators l k = true <-> l = k.
Proof.
  revert k. induction l as [|v l IH]; intros [|x k]; simpl; [done|done|done|].
  intros [= Hlen]. destruct (Validator_Equals v x) eqn:Hv; simpl.
  - apply Validator_Equals_iff in Hv as ->. rewrite IH by done. split; congruence.
  - split; [done|]. intros [= -> ->]. by rewrite (proj2 (Validator_Equals_iff x x) eq_refl) in Hv.
Qed.

Lemma ValidatorSet_Equals_iff s t : ValidatorSet_Equals s t = true <-> s = t.
Proof.
  destruct s as [d l], t as [d' k]. unfold ValidatorSet_Equals. simpl.
  destruct (Z.eqb_spec d d') as [->|]; simpl; [|split; congruence].
  destruct (Nat.eqb_spec (length l) (length k)) as [Hlen|]; simpl; [|split; congruence].
  rewrite equal_validators_iff by done. split; congruence.
Qed.

Lemma FilterValidators_fold Hex HexToAddress acc l :
  (forall a, HexToAddress (Hex a) = a) ->
  foldl (fun valSet candidate => if Z.eqb (VStake candidate) 0 then valSet
    else AddValidator valSet (NewValidator HexToAddress (Hex (VAddress candidate)) (VStake candidate)))
    acc l = AddValidators acc (filter (fun v => VStake v <> 0) l).
Proof.
  intros Hhex. revert acc. induction l as [|v l IH]; intros acc; simpl; [done|].
  rewrite filter_cons, IH. destruct (Z.eqb_spec (VStake v) 0) as [Hz|Hz].
  - by rewrite decide_False by lia.
  - rewrite decide_True by done. unfold NewValidator. rewrite Hhex. by destruct v.
Qed.

Lemma filter_stake_sum l : sumZ VStake (filter (fun v => VStake v <> 0) l) = sumZ VStake l.
Proof.
  rewrite sumZ_filter_if. apply sumZ_ext. intros v _. case_decide; lia.
Qed.

(** ** Properties *)

(** (order of a validator set). Validators with distinct addresses added
    one by one give, whatever the order they are added in, the same set: the
    one arrangement sorted by address, which any sorting algorithm produces;
    its members and total stake are those that were added. *)
Theorem validator_set_canonical d l l' k :
  NoDup (VAddress <$> l) -> l' ≡ₚ l -> Sorted by_id k -> k ≡ₚ l ->
  AddValidators (NewValidatorSet d) l' = mkValidatorSet d k /\
  ValidatorSet_Copy (mkValidatorSet d k) = mkValidatorSet d k /\
  ValidatorSet_TotalStake (mkValidatorSet d k) = sumZ VStake l.
Proof.
  intros Hnd Hp Hk Hkl.
  assert (Hall : forall m, m ≡ₚ l -> AddValidators (NewValidatorSet d) m = mkValidatorSet d k).
  { intros m Hm. rewrite (valset_eta (AddValidators _ m)), AddValidators_dynasty. f_equal.
    apply (sorted_arrangement_unique l); [done| |done| |done].
    - apply AddValidators_sorted. constructor.
    - by rewrite AddValidators_perm. }
  split; [by apply Hall|]. split; [by apply Hall|].
  rewrite total_stake_sumZ. simpl. by rewrite Hkl.
Qed.

Lemma validator_set_canonical_witness :
  AddValidators (NewValidatorSet 1) [mkValidator 9 5; mkValidator 3 7] =
  mkValidatorSet 1 [mkValidator 3 7; mkValidator 9 5].
Proof.
  apply (validator_set_canonical 1 [mkValidator 3 7; mkValidator 9 5]
           [mkValidator 9 5; mkValidator 3 7] [mkValidator 3 7; mkValidator 9 5]).
  - apply (bool_decide_unpack _). reflexivity.
  - apply Permutation_swap.
  - repeat constructor. unfold by_id. simpl. lia.
  - apply Permutation_refl.
Defined.

(** C2 (quorum intersection). Two certificates valid for the same validator
    set were signed by a common group of validators holding more than a third
    of the total stake; so, if the validators in some group [byz] hold at most
    a third, a validator outside [byz] signed a valid vote for the block of
    each certificate. *)
Theorem cc_quorum_intersection `{VoteCrypto} cc1 cc2 votes1 votes2 order1 order2 vs
    (byz : Address -> Prop) `{forall a, Decision (byz a)} :
  valset_ok vs ->
  CCVotes cc1 = Some votes1 -> keyed votes1 -> iterates votes1 order1 ->
  CCVotes cc2 = Some votes2 -> keyed votes2 -> iterates votes2 order2 ->
  CC_IsValid cc1 order1 vs = true -> CC_IsValid cc2 order2 vs = true ->
  3 * stake_where vs byz <= ValidatorSet_TotalStake vs ->
  exists u v1 v2, u ∈ validators vs /\ ~ byz (VAddress u) /\
    has_vote votes1 v1 /\ ID v1 = VAddress u /\ Block v1 = CCBlockHash cc1 /\ Vote_Validate v1 = Ok tt /\
    has_vote votes2 v2 /\ ID v2 = VAddress u /\ Block v2 = CCBlockHash cc2 /\ Vote_Validate v2 = Ok tt.
Proof.
  intros Hok Hcc1 Hk1 Ho1 Hcc2 Hk2 Ho2 Hv1 Hv2 Hbyz.
  destruct (CC_IsValid_inv _ _ _ _ Hcc1 Hk1 Ho1 Hv1) as (Hnd1 & Hm1 & Hin1).
  destruct (CC_IsValid_inv _ _ _ _ Hcc2 Hk2 Ho2 Hv2) as (Hnd2 & Hm2 & Hin2).
  pose proof (quorum_stake vs _ _ Hok Hnd1 Hnd2 Hm1 Hm2) as Hq.
  assert (Hgt : stake_where vs byz < stake_where vs (fun a =>
    a ∈ voters (range (UniqueVoter order1)) /\ a ∈ voters (range (UniqueVoter order2)))) by lia.
  apply (stake_where_witness vs _ byz Hok) in Hgt as (u & Hu & [Hu1 Hu2] & Hnb).
  destruct (Hin1 _ Hu1) as (v1 & ? & ? & ? & ?). destruct (Hin2 _ Hu2) as (v2 & ? & ? & ? & ?).
  exists u, v1, v2. by split_and!.
Qed.

(** Four validators of equal stake, and the votes of three of them. *)
Definition four_validators : ValidatorSet :=
  mkValidatorSet 1 [mkValidator 1 10; mkValidator 2 10; mkValidator 3 10; mkValidator 4 10].

Definition toy_vote (block : Hash) (id : Address) : Vote :=
  @Sign toy_crypto (fun msg => "s" +:+ msg) (mkVote block 1 0 1 id None).

Definition toy_votes (block : Hash) (ids : list Address) : VoteSet :=
  AddVotes NewVoteSet (toy_vote block <$> ids).

Lemma cc_quorum_intersection_witness :
  exists u, u ∈ validators four_validators /\ VAddress u <> 2.
Proof.
  pose (votes1 := toy_votes 77 [1; 2; 3]). pose (votes2 := toy_votes 88 [2; 3; 4]).
  destruct (@cc_quorum_intersection toy_crypto (mkCC (Some votes1) 77) (mkCC (Some votes2) 88)
    votes1 votes2 (range votes1) (range votes2) four_validators (eq 2) _) as (u & v1 & v2 & Hu & Hb & _).
  - split; [apply (bool_decide_unpack _); reflexivity|]. repeat constructor; simpl; lia.
  - reflexivity.
  - apply keyed_AddVotes, keyed_empty.
  - apply iterates_range.
  - reflexivity.
  - apply keyed_AddVotes, keyed_empty.
  - apply iterates_range.
  - vm_compute. reflexivity.
  - vm_compute. reflexivity.
  - vm_compute. discriminate.
  - exists u. split; [exact Hu|]. intros Heq. apply Hb. symmetry. exact Heq.
Defined.

(** (weighted proposer selection). With a generator that honours its
    bounds and a set of positive total stake, the draw [r] is below the scaled
    total; the selected validator is the one whose slice of the cumulative
    scaled stakes contains [r], and the selection fails exactly when [r] is
    not below the sum of the scaled stakes. When the total stake is below
    2^32 - 1 the scaling is the identity and the selection always succeeds. *)
Theorem rotating_proposer_spec new_source fuel s epoch :
  (forall seed, rand_ok (new_source seed)) -> valset_ok s -> 0 < ValidatorSet_TotalStake s ->
  let f := ValidatorSet_TotalStake s / BigMaxUint32 + 1 in
  exists r, 0 <= r < ValidatorSet_TotalStake s / f /\
    ((r < scaled_sum f (validators s) /\
      exists l1 v l2, validators s = l1 ++ v :: l2 /\
        rotating_proposer new_source fuel s epoch = Ok v /\
        scaled_sum f l1 <= r < scaled_sum f (l1 ++ [v])) \/
     (scaled_sum f (validators s) <= r /\
      is_panic (rotating_proposer new_source fuel s epoch) = true)) /\
    (ValidatorSet_TotalStake s < BigMaxUint32 -> r < scaled_sum f (validators s)).
Proof.
  intros Hrnd Hok Hpos f.
  destruct (rotating_draw new_source fuel s epoch Hrnd Hok Hpos (scaled_total_positive _ Hpos))
    as (r & Hr & ->). fold f in Hr |- *. exists r. split; [done|].
  pose proof (scaled_total_bound _ (Z.lt_le_incl _ _ Hpos)) as Hb. fold f in Hb.
  assert (Hf : 0 < f) by (unfold f; pose proof (Z.div_pos _ BigMaxUint32
    (Z.lt_le_incl _ _ Hpos) eq_refl); lia).
  pose proof (scaled_sum_le f (validators s) Hf) as Hle. rewrite <- total_stake_sumZ in Hle.
  split.
  - destruct (select_validator_spec r f (validators s) 0) as
      [(Hlt & l1 & v & l2 & Hl & Hsel & Hcum)|[Hge Hsel]];
      [done|lia|apply Hok|unfold two64, BigMaxUint32 in *; lia|lia|left|right].
    + split; [lia|]. exists l1, v, l2. rewrite Hsel. split_and!; try done; lia.
    + rewrite Hsel. split; [lia|done].
  - intros Hsmall. unfold scaled_sum. assert (f = 1) as Hf1 by (apply small_total_factor; lia).
    rewrite Hf1, Z.div_1_r in *. rewrite (sumZ_ext _ VStake) by (intros; apply Z.div_1_r).
    rewrite <- total_stake_sumZ. lia.
Qed.

(** A generator that always draws the largest value allowed. *)
Definition max_rand (seed : Z) : Rand := mkRand (fun n => n - 1) (fun _ => 0).

Lemma max_rand_ok seed : rand_ok (max_rand seed).
Proof. split; intros; simpl; [lia|]. unfold is_u64, two64. lia. Qed.

Lemma rotating_proposer_spec_witness :
  exists r, 0 <= r < 40 /\
    (ValidatorSet_TotalStake four_validators < BigMaxUint32 ->
     r < scaled_sum 1 (validators four_validators)).
Proof.
  destruct (rotating_proposer_spec max_rand 0 four_validators 3) as (r & Hr & _ & Hs).
  - apply max_rand_ok.
  - split; [apply (bool_decide_unpack _); reflexivity|]. repeat constructor; simpl; lia.
  - reflexivity.
  - exists r. split; [exact Hr|exact Hs].
Defined.

(** (proposer selection can fail). Because each stake is rounded down
    separately, the scaled stakes can add up to less than the scaled total: for
    two validators of stake 2^32 + 1 and a generator within its bounds, the
    selection panics although the set has positive stake. *)
Theorem rotating_proposer_panics :
  exists s new_source epoch, valset_ok s /\ Forall (fun v => 0 < VStake v) (validators s) /\
    (forall seed, rand_ok (new_source seed)) /\
    is_panic (rotating_proposer new_source 0 s epoch) = true.
Proof.
  exists (mkValidatorSet 1 [mkValidator 1 4294967297; mkValidator 2 4294967297]), max_rand, 1.
  split_and!.
  - apply (bool_decide_unpack _). reflexivity.
  - repeat constructor; simpl; lia.
  - apply max_rand_ok.
  - vm_compute. reflexivity.
Qed.

(** (validator set used by consensus). Filtering a set obtained from the
    ledger, when the hexadecimal form of an address reads back as the address,
    drops exactly the validators without stake: the result is sorted, keeps
    the dynasty and the total stake, is well formed when the input is, and
    [ValidatorSet.Equals] recognises it and no other set. *)
Theorem FilterValidators_spec Hex HexToAddress vs :
  (forall a, HexToAddress (Hex a) = a) -> valset_ok vs ->
  let r := FilterValidators Hex HexToAddress vs in
  selectValidatorsForBlock Hex HexToAddress (Ok (Some vs)) = Ok r /\
  validators r ≡ₚ filter (fun v => VStake v <> 0) (validators vs) /\
  Sorted by_id (validators r) /\ dynasty r = dynasty vs /\ valset_ok r /\
  ValidatorSet_TotalStake r = ValidatorSet_TotalStake vs /\
  (forall t, ValidatorSet_Equals r t = true <-> r = t).
Proof.
  intros Hhex [Hnd Hpos] r.
  assert (Hr : r = AddValidators (NewValidatorSet (dynasty vs))
                     (filter (fun v => VStake v <> 0) (validators vs)))
    by (apply FilterValidators_fold, Hhex).
  assert (Hp : validators r ≡ₚ filter (fun v => VStake v <> 0) (validators vs))
    by (rewrite Hr; apply AddValidators_perm).
  split; [done|]. split; [done|]. split_and!.
  - rewrite Hr. apply AddValidators_sorted. constructor.
  - rewrite Hr, AddValidators_dynasty. done.
  - split; rewrite Hp.
    + eapply sublist_NoDup; [exact Hnd|]. apply fmap_sublist, sublist_filter.
    + rewrite Forall_forall in *. intros v [_ Hv]%list_elem_of_filter. by apply Hpos.
  - rewrite !total_stake_sumZ, Hp. apply filter_stake_sum.
  - intros t. apply ValidatorSet_Equals_iff.
Qed.

(** A printable form of addresses that reads back, for the witness. *)
Fixpoint toy_bits (p : positive) : string :=
  match p with
  | xH => ""
  | xO p' => String "0"%char (toy_bits p')
  | xI p' => String "1"%char (toy_bits p')
  end.

Fixpoint toy_unbits (s : string) : positive :=
  match s with
  | EmptyString => xH
  | String c s' => if Ascii.eqb c "1"%char then xI (toy_unbits s') else xO (toy_unbits s')
  end.

Definition toy_hex (a : Address) : string :=
  match a with Z0 => "z" | Zpos p => String "p"%char (toy_bits p) | Zneg p => String "n"%char (toy_bits p) end.

Definition toy_unhex (s : string) : Address :=
  match s with
  | String c s' => if Ascii.eqb c "p"%char then Zpos (toy_unbits s')
                   else if Ascii.eqb c "n"%char then Zneg (toy_unbits s') else 0
  | EmptyString => 0
  end.

Lemma toy_unhex_hex a : toy_unhex (toy_hex a) = a.
Proof.
  assert (Hb : forall p, toy_unbits (toy_bits p) = p)
    by (induction p as [p IH|p IH|]; simpl; congruence).
  destruct a; simpl; by rewrite ?Hb.
Qed.

Lemma FilterValidators_spec_witness :
  dynasty (FilterValidators toy_hex toy_unhex four_validators) = 1 /\
  ValidatorSet_TotalStake (FilterValidators toy_hex toy_unhex four_validators) = 40.
Proof.
  assert (Hok : valset_ok four_validators)
    by (split; [apply (bool_decide_unpack _); reflexivity|]; repeat constructor; simpl; lia).
  destruct (FilterValidators_spec toy_hex toy_unhex four_validators toy_unhex_hex Hok)
    as (_ & _ & _ & Hd & _ & Ht & _).
  split; [exact Hd|exact Ht].
Defined.
