(* ===== verification/Block.v ===== *)
(** * Blocks, headers and block statuses (src/core/block.go)

    The block header with its hash cache, its hand-written RLP codec and its
    validation; blocks, extended blocks and the block status.  RLP values are
    modelled at the level of the typed fields the codecs write and read one
    after the other; hashing, encoding to bytes, the transaction trie and
    signature verification are parameters. *)

From stdpp Require Import gmap sorting.
From stdpp Require Import base list numbers strings.
From S2P Require Import Prelude Vote Validator.
Local Open Scope string_scope.
Local Open Scope list_scope.
Local Open Scope Z_scope.

(** A [BlockHeader]; [hash] is the cache of the calculated hash (zero when it
    has not been calculated), and a nil pointer is [None]. *)
Record BlockHeader := mkHeader {
  ChainID : string;
  BEpoch : uint64;
  BHeight : uint64;
  Parent : Hash;
  HCC : CommitCertificate;
  TxHash : Hash;
  ReceiptHash : Hash;
  Bloom : Z;
  StateHash : Hash;
  Timestamp : option Z;
  Proposer : Address;
  BSignature : option Signature;
  hash : Hash
}.

Record Block := mkBlock {
  Header : BlockHeader;
  Txs : list Bytes
}.

(** [BlockStatus], in the order of the constants. *)
Inductive BlockStatus :=
| BlockStatusPending
| BlockStatusValid
| BlockStatusInvalid
| BlockStatusCommitted
| BlockStatusDirectlyFinalized
| BlockStatusIndirectlyFinalized
| BlockStatusTrusted
| BlockStatusDisposed.

#[export] Instance BlockStatus_eq_dec : EqDecision BlockStatus.
Proof. solve_decision. Defined.

Record ExtendedBlock := mkExtendedBlock {
  EBlock : Block;
  Children : list Hash;
  Status : BlockStatus;
  HasValidatorUpdate : bool
}.

Definition IsPending (bs : BlockStatus) : bool := bool_decide (bs = BlockStatusPending).
Definition IsCommitted (bs : BlockStatus) : bool := bool_decide (bs = BlockStatusCommitted).
Definition IsDirectlyFinalized (bs : BlockStatus) : bool :=
  bool_decide (bs = BlockStatusDirectlyFinalized).
Definition IsIndirectlyFinalized (bs : BlockStatus) : bool :=
  bool_decide (bs = BlockStatusIndirectlyFinalized).
Definition IsTrusted (bs : BlockStatus) : bool := bool_decide (bs = BlockStatusTrusted).
Definition IsFinalized (bs : BlockStatus) : bool :=
  IsDirectlyFinalized bs || IsIndirectlyFinalized bs || IsTrusted bs.
Definition IsInvalid (bs : BlockStatus) : bool :=
  bool_decide (bs = BlockStatusInvalid) || bool_decide (bs = BlockStatusDisposed).
Definition IsValid (bs : BlockStatus) : bool :=
  negb (bool_decide (bs = BlockStatusPending)) && negb (bool_decide (bs = BlockStatusInvalid)) &&
  negb (bool_decide (bs = BlockStatusDisposed)).

(** ** Field streams: the RLP lists of the codecs *)

(** A typed RLP item; [FList] is a nested list. *)
Inductive Field :=
| FString (s : string)
| FUint (n : Z)
| FHash (h : Hash)
| FHashes (l : list Hash)
| FCC (cc : CommitCertificate)
| FBloom (b : Z)
| FBig (x : Z)
| FAddress (a : Address)
| FSignature (s : Signature)
| FBytesList (l : list Bytes)
| FBool (b : bool)
| FList (l : list Field).

(** Decoders read items from the front of a stream. *)
Definition decoder (A : Type) : Type := list Field -> outcome (A * list Field).

Definition dec {A} (get : Field -> option A) : decoder A := fun st =>
  match st with
  | f :: st' => match get f with Some a => Ok (a, st') | None => Err "rlp: wrong kind" end
  | [] => Err "rlp: end of list"
  end.

(** [stream.List] enters a nested list, [stream.ListEnd] leaves it. *)
Definition dec_list {A} (body : decoder A) : decoder A := fun st =>
  match st with
  | FList l :: st' => '(a, rest) ← body l;
                      match rest with [] => Ok (a, st') | _ => Err "rlp: not at end of list" end
  | _ => Err "rlp: expected list"
  end.

Definition as_string f := match f with FString s => Some s | _ => None end.
Definition as_uint f := match f with FUint n => Some n | _ => None end.
Definition as_hash f := match f with FHash h => Some h | _ => None end.
Definition as_hashes f := match f with FHashes l => Some l | _ => None end.
Definition as_cc f := match f with FCC cc => Some cc | _ => None end.
Definition as_bloom f := match f with FBloom b => Some b | _ => None end.
Definition as_big f := match f with FBig x => Some x | _ => None end.
Definition as_address f := match f with FAddress a => Some a | _ => None end.
Definition as_signature f := match f with FSignature s => Some s | _ => None end.
Definition as_bytes_list f := match f with FBytesList l => Some l | _ => None end.
Definition as_bool f := match f with FBool b => Some b | _ => None end.

(** [BlockHeader.EncodeRLP], for a header whose timestamp and signature are
    set; the cached hash is not written. *)
Definition Header_EncodeRLP (h : BlockHeader) : option Field :=
  match Timestamp h, BSignature h with
  | Some ts, Some sig =>
      Some (FList [FString (ChainID h); FUint (BEpoch h); FUint (BHeight h); FHash (Parent h);
                   FCC (HCC h); FHash (TxHash h); FHash (ReceiptHash h); FBloom (Bloom h);
                   FHash (StateHash h); FBig ts; FAddress (Proposer h); FSignature sig])
  | _, _ => None
  end.

(** [BlockHeader.DecodeRLP]. *)
Definition Header_DecodeRLP : decoder BlockHeader :=
  dec_list (fun st =>
    '(chainID, st) ← dec as_string st;
    '(epoch, st) ← dec as_uint st;
    '(height, st) ← dec as_uint st;
    '(parent, st) ← dec as_hash st;
    '(hcc, st) ← dec as_cc st;
    '(txHash, st) ← dec as_hash st;
    '(receiptHash, st) ← dec as_hash st;
    '(bloom, st) ← dec as_bloom st;
    '(stateHash, st) ← dec as_hash st;
    '(timestamp, st) ← dec as_big st;
    '(proposer, st) ← dec as_address st;
    '(signature, st) ← dec as_signature st;
    Ok (mkHeader chainID epoch height parent hcc txHash receiptHash bloom stateHash
          (Some timestamp) proposer (Some signature) 0, st)).

Definition Block_EncodeRLP (b : Block) : option Field :=
  h ← Header_EncodeRLP (Header b); Some (FList [h; FBytesList (Txs b)]).

Definition Block_DecodeRLP : decoder Block :=
  dec_list (fun st =>
    '(h, st) ← Header_DecodeRLP st;
    '(txs, st) ← dec as_bytes_list st;
    Ok (mkBlock h txs, st)).

(** The status byte of an extended block. *)
Definition status_byte (bs : BlockStatus) : Z :=
  match bs with
  | BlockStatusPending => 0
  | BlockStatusValid => 1
  | BlockStatusInvalid => 2
  | BlockStatusCommitted => 3
  | BlockStatusDirectlyFinalized => 4
  | BlockStatusIndirectlyFinalized => 5
  | BlockStatusTrusted => 6
  | BlockStatusDisposed => 7
  end.

(** A byte above 7 is no status constant: the conversion keeps it, here it is
    an error of the decoder. *)
Definition byte_status (n : Z) : option BlockStatus :=
  match n with
  | 0 => Some BlockStatusPending
  | 1 => Some BlockStatusValid
  | 2 => Some BlockStatusInvalid
  | 3 => Some BlockStatusCommitted
  | 4 => Some BlockStatusDirectlyFinalized
  | 5 => Some BlockStatusIndirectlyFinalized
  | 6 => Some BlockStatusTrusted
  | 7 => Some BlockStatusDisposed
  | _ => None
  end.

Definition ExtendedBlock_EncodeRLP (eb : ExtendedBlock) : option Field :=
  b ← Block_EncodeRLP (EBlock eb);
  Some (FList [b; FHashes (Children eb); FUint (status_byte (Status eb));
               FBool (HasValidatorUpdate eb)]).

Definition ExtendedBlock_DecodeRLP : decoder ExtendedBlock :=
  dec_list (fun st =>
    '(b, st) ← Block_DecodeRLP st;
    '(children, st) ← dec as_hashes st;
    '(status, st) ← dec (fun f => n ← as_uint f; byte_status n) st;
    '(update, st) ← dec as_bool st;
    Ok (mkExtendedBlock b children status update, st)).

(** ** Hashing, signing and validation *)

Definition set_hash (h : BlockHeader) (x : Hash) : BlockHeader :=
  mkHeader (ChainID h) (BEpoch h) (BHeight h) (Parent h) (HCC h) (TxHash h) (ReceiptHash h)
    (Bloom h) (StateHash h) (Timestamp h) (Proposer h) (BSignature h) x.

Definition set_signature (h : BlockHeader) (sig : option Signature) : BlockHeader :=
  mkHeader (ChainID h) (BEpoch h) (BHeight h) (Parent h) (HCC h) (TxHash h) (ReceiptHash h)
    (Bloom h) (StateHash h) (Timestamp h) (Proposer h) sig (hash h).

Definition set_tx_hashes (h : BlockHeader) (tx receipt : Hash) : BlockHeader :=
  mkHeader (ChainID h) (BEpoch h) (BHeight h) (Parent h) (HCC h) tx receipt
    (Bloom h) (StateHash h) (Timestamp h) (Proposer h) (BSignature h) (hash h).

(** The header without its cache: the value the encoder sees. *)
Definition uncached (h : BlockHeader) : BlockHeader := set_hash h 0.

(** [EncodeHeader] is [rlp.EncodeToBytes], which calls [EncodeRLP] and so sees
    the header without its cache; [CalculateRootHash] is the root of the trie
    of the transactions. *)
Class BlockCrypto := {
  EncodeHeader : BlockHeader -> Bytes;
  Keccak256Hash : Bytes -> Hash;
  CalculateRootHash : list Bytes -> Hash
}.

Section Hashing.
Context `{BlockCrypto}.

Definition calculateHash (h : BlockHeader) : Hash := Keccak256Hash (EncodeHeader (uncached h)).

(** [Hash]: the cached hash, calculated and cached when there is none. *)
Definition Hash_ (h : BlockHeader) : Hash * BlockHeader :=
  if IsEmpty (hash h) then (calculateHash h, set_hash h (calculateHash h)) else (hash h, h).

Definition UpdateHash (h : BlockHeader) : Hash * BlockHeader :=
  (calculateHash h, set_hash h (calculateHash h)).

Definition BlockHash (b : Block) : Hash := fst (Hash_ (Header b)).

Definition Header_SignBytes (h : BlockHeader) : Bytes :=
  EncodeHeader (uncached (set_signature h None)).

Definition EmptyRootHash : Hash := CalculateRootHash [].

(** [AddTxs] followed by [updateTxHash]. *)
Definition AddTxs (b : Block) (txs : list Bytes) : Block :=
  let all := Txs b ++ txs in
  mkBlock (set_tx_hashes (Header b) (CalculateRootHash all) EmptyRootHash) all.

Definition Header_Validate `{VoteCrypto} (h : BlockHeader) (chainID : string) : outcome unit :=
  if negb (String.eqb chainID (ChainID h)) then Err "ChainID mismatch"
  else if IsEmpty (Parent h) then Err "Parent is empty"
  else if IsEmpty (CCBlockHash (HCC h)) then Err "HCC is empty"
  else match Timestamp h with
  | None => Err "Timestamp is missing"
  | Some _ =>
      if IsEmpty (Proposer h) then Err "Proposer is not specified"
      else match BSignature h with
      | None => Err "Block is not signed"
      | Some sig =>
          if Sig_IsEmpty sig then Err "Block is not signed"
          else if negb (Sig_Verify sig (Header_SignBytes h) (Proposer h))
               then Err "Signature verification failed"
               else Ok tt
      end
  end.

Definition Block_Validate `{VoteCrypto} (b : Block) (chainID : string) : outcome unit :=
  match Header_Validate (Header b) chainID with
  | Ok _ => if negb (Z.eqb (TxHash (Header b)) (CalculateRootHash (Txs b)))
            then Err "TxHash does not match" else Ok tt
  | res => res
  end.

End Hashing.

(** The cache, when set, holds the hash of the header. *)
Definition cache_ok `{BlockCrypto} (h : BlockHeader) : Prop :=
  hash h = 0 \/ hash h = calculateHash h.

(** ** Lemmas on the hash cache *)

Section HashLemmas.
Context `{BlockCrypto}.

Lemma calculateHash_set_hash h x : calculateHash (set_hash h x) = calculateHash h.
Proof. reflexivity. Qed.

Lemma Hash_fst h : cache_ok h -> fst (Hash_ h) = calculateHash h.
Proof.
  unfold Hash_, IsEmpty. intros [Hz|Hc]; case_bool_decide; simpl; congruence.
Qed.

Lemma Hash_cache_ok h : cache_ok h -> cache_ok (snd (Hash_ h)).
Proof. unfold Hash_. intros Hc. destruct (IsEmpty (hash h)); [by right|done]. Qed.

Lemma UpdateHash_cache_ok h : cache_ok (snd (UpdateHash h)).
Proof. by right. Qed.

End HashLemmas.

(** ** Properties *)

(** (block codec). Decoding the encoding of an extended block whose
    header has a timestamp and a signature gives the block back, with an empty
    hash cache, and leaves the rest of the stream. *)
Theorem extended_block_roundtrip eb f rest :
  ExtendedBlock_EncodeRLP eb = Some f ->
  ExtendedBlock_DecodeRLP (f :: rest) =
  Ok (mkExtendedBlock (mkBlock (uncached (Header (EBlock eb))) (Txs (EBlock eb)))
        (Children eb) (Status eb) (HasValidatorUpdate eb), rest).
Proof.
  destruct eb as [[[? ? ? ? ? ? ? ? ? [ts|] ? [sig|] ?] txs] ch st up]; try done.
  intros [= <-]. by destruct st.
Qed.

Definition sample_header : BlockHeader :=
  mkHeader "tsub360777" 3 2 100 (mkCC None 100) 5 6 0 7 (Some 1000) 42 (Some "sig") 0.
Definition sample_block : ExtendedBlock :=
  mkExtendedBlock (mkBlock sample_header ["tx1"; "tx2"]) [200; 201] BlockStatusCommitted true.

Lemma extended_block_roundtrip_witness :
  exists f, ExtendedBlock_EncodeRLP sample_block = Some f /\
    ExtendedBlock_DecodeRLP [f] = Ok (sample_block, []).
Proof.
  eexists. split; [reflexivity|].
  apply (extended_block_roundtrip sample_block _ []). reflexivity.
Defined.

(** (sealing a block). A header with non-empty parent, certificate block
    and proposer and a timestamp, whose transactions are added with [AddTxs]
    and which is then signed by a key of its proposer whose signatures are
    non-empty and verify, passes [Block.Validate]; changing a transaction so
    that the root differs makes it fail. *)
Theorem sealed_block_validates `{BlockCrypto} `{VoteCrypto} b txs priv chainID ts :
  (forall msg, Sig_IsEmpty (priv msg) = false) ->
  (forall msg, Sig_Verify (priv msg) msg (Proposer (Header b)) = true) ->
  ChainID (Header b) = chainID -> Parent (Header b) <> 0 -> CCBlockHash (HCC (Header b)) <> 0 ->
  Timestamp (Header b) = Some ts -> Proposer (Header b) <> 0 ->
  let b1 := AddTxs b txs in
  let sealed txs' := mkBlock (set_signature (Header b1) (Some (priv (Header_SignBytes (Header b1))))) txs' in
  Block_Validate (sealed (Txs b ++ txs)) chainID = Ok tt /\
  forall txs', CalculateRootHash txs' <> CalculateRootHash (Txs b ++ txs) ->
    Block_Validate (sealed txs') chainID = Err "TxHash does not match".
Proof.
  intros Hne Hver Hchain Hp Hcc Hts Hprop b1 sealed.
  assert (Hh : Header_Validate (Header (sealed [])) chainID = Ok tt).
  { unfold Header_Validate, sealed, b1, AddTxs, IsEmpty; simpl.
    rewrite Hchain, String.eqb_refl, !bool_decide_eq_false_2, Hts, Hne by done. simpl.
    unfold Header_SignBytes at 1; simpl. by rewrite Hver. }
  unfold Block_Validate. split.
  - change (Header (sealed (Txs b ++ txs))) with (Header (sealed [])). rewrite Hh. simpl.
    by rewrite Z.eqb_refl.
  - intros txs' Hneq. change (Header (sealed txs')) with (Header (sealed [])). rewrite Hh. simpl.
    by rewrite (proj2 (Z.eqb_neq _ _) (not_eq_sym Hneq)).
Qed.

Definition toy_block_crypto : BlockCrypto := {|
  EncodeHeader h := ChainID h;
  Keccak256Hash s := Z.of_nat (String.length s);
  CalculateRootHash l := Z.of_nat (length l)
|}.

Lemma sealed_block_validates_witness :
  let b1 := @AddTxs toy_block_crypto (mkBlock sample_header []) ["t"] in
  @Block_Validate toy_block_crypto toy_crypto
    (mkBlock (set_signature (Header b1) (Some ("s" +:+ @Header_SignBytes toy_block_crypto (Header b1)))) ["t"])
    "tsub360777" = Ok tt.
Proof.
  refine (proj1 (@sealed_block_validates toy_block_crypto toy_crypto (mkBlock sample_header []) ["t"]
    (fun msg => "s" +:+ msg) "tsub360777" 1000 _ _ _ _ _ _ _)).
  - intros msg. reflexivity.
  - intros msg. apply bool_decide_eq_true_2. reflexivity.
  - reflexivity.
  - discriminate.
  - discriminate.
  - reflexivity.
  - discriminate.
Defined.
