(* ===== verification/Chain.v ===== *)
(** * The block store (src/blockchain/chain.go, vote.go, tx.go)

    [Chain] keeps blocks, the height index, the transaction index, the votes
    and the receipts in one key-value store.  The store belongs to
    theta/store: it is a type class with the contract that [Get] returns the
    last value [Put] under the key and not deleted since.  The keys are
    written down as byte strings and shown not to collide, and the operations
    use them as tagged keys.  Loops over parent links carry fuel. *)

From stdpp Require Import gmap sorting pretty relations.
From stdpp Require Import base list numbers strings.
From S2P Require Import Prelude Vote Validator Block.
Local Open Scope string_scope.
Local Open Scope list_scope.
Local Open Scope Z_scope.

Definition maxDistance : nat := 2000.

(** ** Keys *)

Inductive Key :=
| KBlock (h : Hash)
| KHeight (height : uint64)
| KTx (h : Hash)
| KVote (h : Hash)
| KReceiptV1 (txHash : Hash)
| KReceiptV2 (blockHash txHash : Hash)
| KBalance (blockHash txHash : Hash).

#[export] Instance Key_eq_dec : EqDecision Key.
Proof. solve_decision. Defined.

#[export] Instance Key_countable : Countable Key.
Proof.
  refine (inj_countable'
    (fun k => match k with
              | KBlock h => (0, h, 0) | KHeight n => (1, n, 0) | KTx h => (2, h, 0)
              | KVote h => (3, h, 0) | KReceiptV1 t => (4, t, 0)
              | KReceiptV2 b t => (5, b, t) | KBalance b t => (6, b, t) end)
    (fun '(tag, a, b) =>
       match tag with
       | 0 => KBlock a | 1 => KHeight a | 2 => KTx a | 3 => KVote a
       | 4 => KReceiptV1 a | 5 => KReceiptV2 a b | _ => KBalance a b end) _).
  by intros [].
Defined.

(** [binary.PutUvarint]: seven bits per byte, low bits first; ten bytes are
    enough for 64 bits. *)
Fixpoint PutUvarint (n : nat) (x : Z) : list Z :=
  match n with
  | O => []
  | S n' => if x <? 128 then [x]
            else Z.lor (Z.land x 255) 128 :: PutUvarint n' (Z.shiftr x 7)
  end.

Definition MaxVarintLen64 : nat := 10.

(** ["bh/"], ["tx/"], ["vt/"], ["txr/"], ["txr/v2/"], ["txb/"] and ["/"]. *)
Definition bh_prefix : list Z := [98; 104; 47].
Definition tx_prefix : list Z := [116; 120; 47].
Definition vt_prefix : list Z := [118; 116; 47].
Definition txr_prefix : list Z := [116; 120; 114; 47].
Definition txr_v2_prefix : list Z := [116; 120; 114; 47; 118; 50; 47].
Definition txb_prefix : list Z := [116; 120; 98; 47].

Definition hash_bytes (h : Hash) : list Z := be_bytes 32 h.

Definition blockByHeightIndexKey (height : uint64) : list Z :=
  bh_prefix ++ PutUvarint MaxVarintLen64 height.
Definition txIndexKey (h : Hash) : list Z := tx_prefix ++ hash_bytes h.
Definition voteIndexKey (h : Hash) : list Z := vt_prefix ++ hash_bytes h.
Definition txReceiptKeyV1 (h : Hash) : list Z := txr_prefix ++ hash_bytes h.
Definition txReceiptKeyV2 (b t : Hash) : list Z :=
  txr_v2_prefix ++ hash_bytes b ++ [47] ++ hash_bytes t.
Definition txBalanceChangesKey (b t : Hash) : list Z :=
  txb_prefix ++ hash_bytes b ++ [47] ++ hash_bytes t.

(** The byte string under which the value of a tagged key is stored. *)
Definition key_bytes (k : Key) : list Z :=
  match k with
  | KBlock h => hash_bytes h
  | KHeight n => blockByHeightIndexKey n
  | KTx h => txIndexKey h
  | KVote h => voteIndexKey h
  | KReceiptV1 t => txReceiptKeyV1 t
  | KReceiptV2 b t => txReceiptKeyV2 b t
  | KBalance b t => txBalanceChangesKey b t
  end.

(** Keys made of 256-bit hashes and 64-bit heights. *)
Definition is_hash (h : Hash) : Prop := 0 <= h < 2 ^ 256.
Definition key_ok (k : Key) : Prop :=
  match k with
  | KBlock h | KTx h | KVote h | KReceiptV1 h => is_hash h
  | KHeight n => is_u64 n
  | KReceiptV2 b t | KBalance b t => is_hash b /\ is_hash t
  end.

(** ** Values and the store *)

Record TxIndexEntry := mkTxIndexEntry {
  EntryBlockHash : Hash;
  EntryBlockHeight : uint64;
  EntryIndex : uint64
}.

(** Receipts; logs and balance changes are opaque values of theta. *)
Record TxReceiptEntry := mkTxReceiptEntry {
  RTxHash : Hash;
  RLogs : list Bytes;
  REvmRet : Bytes;
  RContractAddress : Address;
  RGasUsed : uint64;
  REvmErr : string
}.

(** Balance changes of one execution, recorded next to the receipt. *)
Record TxBalanceChangesEntry := mkTxBalanceChangesEntry {
  CTxHash : Hash;
  CBalanceChanges : list Bytes;
  CEvmRet : Bytes;
  CContractAddress : Address;
  CGasUsed : uint64;
  CEvmErr : string
}.

Inductive Value :=
| VBlock (b : ExtendedBlock)
| VHashes (l : list Hash)
| VTxEntry (e : TxIndexEntry)
| VVotes (s : VoteSet)
| VReceipt (r : TxReceiptEntry)
| VBalances (r : TxBalanceChangesEntry).

(** The contract of theta/store. *)
Class Store (S : Type) := {
  Get : S -> Key -> option Value;
  Put : S -> Key -> Value -> S;
  Delete : S -> Key -> S;
  Get_Put s k v k' : Get (Put s k v) k' = if decide (k = k') then Some v else Get s k';
  Get_Delete s k k' : Get (Delete s k) k' = if decide (k = k') then None else Get s k'
}.

(** An in-memory store that meets it. *)
#[export] Instance gmap_store : Store (gmap Key Value).
Proof.
  refine {| Get m k := m !! k; Put m k v := <[k := v]> m; Delete m k := delete k m |}.
  - intros m k v k'. apply lookup_insert.
  - intros m k k'. apply lookup_delete.
Defined.

Record Chain (S : Type) := mkChain {
  store : S;
  CChainID : string;
  root : Hash
}.
Arguments mkChain {S}.
Arguments store {S}.
Arguments CChainID {S}.
Arguments root {S}.

Section ChainOps.
Context `{BlockCrypto} {S : Type} `{!Store S}.
(** [CalcEthTxHash] decodes a smart contract transaction of theta/ledger and
    hashes its Ethereum form, or fails. *)
Context (CalcEthTxHash : ExtendedBlock -> Bytes -> outcome Hash).
Implicit Types (ch : Chain S).

Definition with_store ch (s : S) : Chain S := mkChain s (CChainID ch) (root ch).

Definition EBHash (eb : ExtendedBlock) : Hash := BlockHash (EBlock eb).
Definition EBHeight (eb : ExtendedBlock) : uint64 := BHeight (Header (EBlock eb)).
Definition EBParent (eb : ExtendedBlock) : Hash := Parent (Header (EBlock eb)).

(** The block as it is read back from the store: without the hash cache. *)
Definition stored (eb : ExtendedBlock) : ExtendedBlock :=
  mkExtendedBlock (mkBlock (uncached (Header (EBlock eb))) (Txs (EBlock eb)))
    (Children eb) (Status eb) (HasValidatorUpdate eb).

Definition saveBlock ch (eb : ExtendedBlock) : Chain S :=
  with_store ch (Put (store ch) (KBlock (EBHash eb)) (VBlock (stored eb))).

Definition findBlock ch (h : Hash) : option ExtendedBlock :=
  match Get (store ch) (KBlock h) with Some (VBlock b) => Some b | _ => None end.

(** ** Height index *)

Definition height_index ch (height : uint64) : list Hash :=
  match Get (store ch) (KHeight height) with Some (VHashes l) => l | _ => [] end.

Definition AddBlockByHeightIndex ch (height : uint64) (block : Hash) : Chain S :=
  let entry := height_index ch height in
  if bool_decide (block ∈ entry) then ch
  else with_store ch (Put (store ch) (KHeight height) (VHashes (entry ++ [block]))).

Definition findBlocksByHeight ch (height : uint64) : list ExtendedBlock :=
  omap (findBlock ch) (height_index ch height).

(** ** Transaction index *)

Definition find_tx_entry ch (h : Hash) : option TxIndexEntry :=
  match Get (store ch) (KTx h) with Some (VTxEntry e) => Some e | _ => None end.

Definition insertEthTxHash ch (eb : ExtendedBlock) (rawTx : Bytes) (e : TxIndexEntry) : Chain S :=
  match CalcEthTxHash eb rawTx with
  | Ok h => with_store ch (Put (store ch) (KTx h) (VTxEntry e))
  | _ => ch
  end.

Fixpoint add_txs_loop ch (eb : ExtendedBlock) (force : bool) (idx : nat) (txs : list Bytes)
    : Chain S :=
  match txs with
  | [] => ch
  | tx :: txs' =>
      let e := mkTxIndexEntry (EBHash eb) (EBHeight eb) (Z.of_nat idx) in
      let key := KTx (Keccak256Hash tx) in
      let skip := negb force && bool_decide (is_Some (Get (store ch) key)) in
      let ch' := if skip then ch
                 else insertEthTxHash (with_store ch (Put (store ch) key (VTxEntry e))) eb tx e in
      add_txs_loop ch' eb force (Datatypes.S idx) txs'
  end.

Definition AddTxsToIndex ch (eb : ExtendedBlock) (force : bool) : Chain S :=
  add_txs_loop ch eb force 0 (Txs (EBlock eb)).

(** [FindTxByHash]: the transaction and its block; indexing past the end of
    the slice panics. *)
Definition FindTxByHash ch (h : Hash) : outcome (option (Bytes * ExtendedBlock)) :=
  match find_tx_entry ch h with
  | None => Ok None
  | Some e =>
      match findBlock ch (EntryBlockHash e) with
      | None => Ok None
      | Some b => match Txs (EBlock b) !! Z.to_nat (EntryIndex e) with
                  | Some tx => Ok (Some (tx, b))
                  | None => Panic "index out of range"
                  end
      end
  end.

(** ** Receipts: recorded under the block and transaction hashes, and under
    the transaction hash alone for compatibility. *)

Definition AddTxReceipt ch (block : option Block) (rawTx : Bytes)
    (logs balanceChanges : list Bytes) (evmRet : Bytes) (contractAddr : Address) (gasUsed : uint64) (evmErr : option string) : outcome (Chain S) :=
  let txHash := Keccak256Hash rawTx in
  let errStr := match evmErr with Some e => e | None => "" end in
  let entry := mkTxReceiptEntry txHash logs evmRet contractAddr gasUsed errStr in
  let changes := mkTxBalanceChangesEntry txHash balanceChanges evmRet contractAddr gasUsed errStr in
  match block with
  | None => Panic "AddTxReceipt: block is nil"
  | Some b =>
      let s1 := Put (store ch) (KReceiptV2 (BlockHash b) txHash) (VReceipt entry) in
      let s2 := Put s1 (KReceiptV1 txHash) (VReceipt entry) in
      let s3 := Put s2 (KBalance (BlockHash b) txHash) (VBalances changes) in
      Ok (with_store ch s3)
  end.

Definition FindTxReceiptByHash ch (blockHash txHash : Hash) : option TxReceiptEntry :=
  match Get (store ch) (KReceiptV2 blockHash txHash) with
  | Some (VReceipt r) => Some r
  | Some _ => None
  | None => match Get (store ch) (KReceiptV1 txHash) with Some (VReceipt r) => Some r | _ => None end
  end.

Definition FindTxBalanceChangesByHash ch (blockHash txHash : Hash) : option TxBalanceChangesEntry :=
  match Get (store ch) (KBalance blockHash txHash) with Some (VBalances r) => Some r | _ => None end.

(** ** Vote index *)

Definition FindVotesByHash ch (h : Hash) : VoteSet :=
  match Get (store ch) (KVote h) with Some (VVotes s) => s | _ => NewVoteSet end.

Definition AddVoteToIndex ch (v : Vote) : Chain S :=
  if IsEmpty (Vote.Block v) then ch
  else with_store ch (Put (store ch) (KVote (Vote.Block v))
         (VVotes (AddVote (FindVotesByHash ch (Vote.Block v)) v))).

Definition RemoveVotesByHash ch (h : Hash) : Chain S :=
  with_store ch (Delete (store ch) (KVote h)).

(** ** Adding blocks *)

Definition set_children (eb : ExtendedBlock) (l : list Hash) : ExtendedBlock :=
  mkExtendedBlock (EBlock eb) l (Status eb) (HasValidatorUpdate eb).
Definition set_status (eb : ExtendedBlock) (st : BlockStatus) : ExtendedBlock :=
  mkExtendedBlock (EBlock eb) (Children eb) st (HasValidatorUpdate eb).

(** The children already stored when their parent arrives. *)
Definition waiting_children ch (block : Block) : list Hash :=
  EBHash <$> filter (fun c => EBParent c = BlockHash block)
    (findBlocksByHeight ch (u64_add (BHeight (Header block)) 1)).

(** "Update parent if present": the new block is appended to the children of
    its parent, unless it is a snapshot root. *)
Definition link_parent ch (block : Block) (isSnapshotRoot : bool) : Chain S :=
  if negb (IsEmpty (Parent (Header block))) && negb isSnapshotRoot then
    match findBlock ch (Parent (Header block)) with
    | Some p => saveBlock ch (set_children p (Children p ++ [BlockHash block]))
    | None => ch
    end
  else ch.

(** [addBlock]; a block that is already stored is returned with the error. *)
Definition addBlock ch (block : Block) (isSnapshotRoot : bool)
    : outcome (ExtendedBlock * Chain S) :=
  if negb (String.eqb (ChainID (Header block)) (CChainID ch)) then Err "ChainID mismatch"
  else
    let h := BlockHash block in
    match findBlock ch h with
    | Some _ => Err "Block has already been added"
    | None =>
        let ch1 := link_parent ch block isSnapshotRoot in
        let eb := mkExtendedBlock block (waiting_children ch1 block) BlockStatusPending false in
        let ch2 := saveBlock ch1 eb in
        let ch3 := AddBlockByHeightIndex ch2 (EBHeight eb) h in
        Ok (eb, AddTxsToIndex ch3 eb false)
    end.

Definition AddBlock ch (block : Block) := addBlock ch block false.
Definition AddSnapshotRoot ch (block : Block) := addBlock ch block true.

Definition FixBlockIndex ch (eb : ExtendedBlock) : Chain S :=
  AddTxsToIndex (AddBlockByHeightIndex ch (EBHeight eb) (EBHash eb)) eb false.

Definition FixMissingChildren ch (eb : ExtendedBlock) : Chain S :=
  saveBlock ch (set_children eb (filter (fun h => is_Some (findBlock ch h)) (Children eb))).

(** ** Status updates *)

Definition update_block ch (h : Hash) (f : ExtendedBlock -> ExtendedBlock)
    : outcome (ExtendedBlock * Chain S) :=
  match findBlock ch h with
  | None => Panic "block not found"
  | Some b => Ok (f b, saveBlock ch (f b))
  end.

Definition MarkBlockValid ch h := update_block ch h (fun b => set_status b BlockStatusValid).
Definition MarkBlockInvalid ch h := update_block ch h (fun b => set_status b BlockStatusInvalid).
Definition CommitBlock ch h := update_block ch h (fun b => set_status b BlockStatusCommitted).
Definition MarkBlockHasValidatorUpdate ch h :=
  update_block ch h (fun b => mkExtendedBlock (EBlock b) (Children b) (Status b) true).

(** [FinalizePreviousBlocks]: the loop over the parent links.  [None] is out
    of fuel; the second component is the returned error. *)
Fixpoint finalize_loop (fuel : nat) ch (h : Hash) (st : BlockStatus)
    : option (Chain S * option string) :=
  if IsEmpty h then Some (ch, None)
  else match fuel with
  | O => None
  | Datatypes.S fuel' =>
      match findBlock ch h with
      | None => Some (ch, None)
      | Some b =>
          if IsFinalized (Status b) then Some (ch, None)
          else if bool_decide (Status b = BlockStatusDisposed)
               then Some (ch, Some "Cannot finalize disposed branch")
          else
            let b' := set_status b st in
            let ch' := AddTxsToIndex (saveBlock ch b') b' true in
            finalize_loop fuel' ch' (EBParent b) BlockStatusIndirectlyFinalized
      end
  end.

Definition FinalizePreviousBlocks (fuel : nat) ch (h : Hash) :=
  finalize_loop fuel ch h BlockStatusDirectlyFinalized.

(** ** Queries *)

Definition Root ch : option ExtendedBlock := findBlock ch (root ch).

Definition IsOrphan ch (block : Block) : bool :=
  bool_decide (findBlock ch (Parent (Header block)) = None).

Fixpoint descendant_loop ch (ascendant h : Hash) (n : nat) : bool :=
  match n with
  | O => false
  | Datatypes.S n' =>
      if Z.eqb h ascendant then true
      else match findBlock ch h with
           | None => false
           | Some b => descendant_loop ch ascendant (EBParent b) n'
           end
  end.

Definition IsDescendant ch (ascendant descendant : Hash) : bool :=
  descendant_loop ch ascendant descendant maxDistance.

(** [PrintBranch]: the hashes from a leaf to the last stored ancestor. *)
Fixpoint PrintBranch (fuel : nat) ch (h : Hash) : list Hash :=
  match fuel with
  | O => []
  | Datatypes.S fuel' =>
      match findBlock ch h with
      | None => []
      | Some b => h :: PrintBranch fuel' ch (EBParent b)
      end
  end.

(** [NewChain]. *)
Definition NewChain (fuel : nat) (chainID : string) (s : S) (rootBlock : Block)
    : outcome (Chain S) :=
  let ch := mkChain s chainID 0 in
  let h := BlockHash rootBlock in
  ch1 ← match findBlock ch h with
        | Some _ => Ok ch
        | None => match AddSnapshotRoot ch rootBlock with
                  | Ok (_, ch') => Ok ch'
                  | _ => Panic "cannot add root"
                  end
        end;
  match FinalizePreviousBlocks fuel ch1 h with
  | Some (ch2, _) => Ok (mkChain (store ch2) (CChainID ch2) h)
  | None => Err "out of fuel"
  end.

End ChainOps.

(** ** Invariants *)

Section ChainSpec.
Context `{BlockCrypto} {S : Type} `{!Store S}.
Implicit Types (ch : Chain S).

(** Every block is stored under its hash, without a cached hash. *)
Definition blocks_ok ch : Prop :=
  forall h b, findBlock ch h = Some b ->
    calculateHash (Header (EBlock b)) = h /\ hash (Header (EBlock b)) = 0.

(** Every block is in the index of its height. *)
Definition indexed ch : Prop :=
  forall h b, findBlock ch h = Some b -> h ∈ height_index ch (EBHeight b).

(** A stored block one height above its stored parent is among the children of
    that parent, and every listed child is stored and links back. *)
Definition linked ch : Prop :=
  (forall h b pb, findBlock ch h = Some b -> EBParent b <> 0 ->
     findBlock ch (EBParent b) = Some pb -> EBHeight b = u64_add (EBHeight pb) 1 ->
     h ∈ Children pb) /\
  (forall h b c, findBlock ch h = Some b -> c ∈ Children b ->
     exists cb, findBlock ch c = Some cb /\ EBParent cb = h).

Definition chain_inv ch : Prop := blocks_ok ch /\ indexed ch /\ linked ch.

(** The parent of a finalized block is finalized when it is stored. *)
Definition finalized_closed ch : Prop :=
  forall h b pb, findBlock ch h = Some b -> IsFinalized (Status b) = true ->
    EBParent b <> 0 -> findBlock ch (EBParent b) = Some pb -> IsFinalized (Status pb) = true.

(** Walking [n] parent links from [h]. *)
Fixpoint nth_ancestor ch (n : nat) (h : Hash) : option Hash :=
  match n with
  | O => Some h
  | Datatypes.S n' => b ← findBlock ch h; nth_ancestor ch n' (EBParent b)
  end.

(** Two chains hold the same blocks, up to their statuses; a finalized status
    is kept, and a changed one becomes finalized. *)
Definition only_finalizes ch ch' : Prop :=
  forall h,
    match findBlock ch h, findBlock ch' h with
    | Some b, Some b' =>
        b' = set_status b (Status b') /\
        (b' = b \/ (IsFinalized (Status b) = false /\ IsFinalized (Status b') = true))
    | None, None => True
    | _, _ => False
    end.

(** The operations the other components perform on a chain. *)
Inductive chain_step (CalcEthTxHash : ExtendedBlock -> Bytes -> outcome Hash) ch
    : Chain S -> Prop :=
| step_add block eb ch' :
    cache_ok (Header block) -> is_u64 (BHeight (Header block)) ->
    AddBlock CalcEthTxHash ch block = Ok (eb, ch') -> chain_step CalcEthTxHash ch ch'
| step_valid h b ch' : MarkBlockValid ch h = Ok (b, ch') -> chain_step CalcEthTxHash ch ch'
| step_invalid h b ch' : MarkBlockInvalid ch h = Ok (b, ch') -> chain_step CalcEthTxHash ch ch'
| step_commit h b ch' : CommitBlock ch h = Ok (b, ch') -> chain_step CalcEthTxHash ch ch'
| step_update h b ch' :
    MarkBlockHasValidatorUpdate ch h = Ok (b, ch') -> chain_step CalcEthTxHash ch ch'
| step_finalize fuel h ch' err :
    FinalizePreviousBlocks CalcEthTxHash fuel ch h = Some (ch', err) ->
    chain_step CalcEthTxHash ch ch'
| step_vote v : chain_step CalcEthTxHash ch (AddVoteToIndex ch v)
| step_remove_votes h : chain_step CalcEthTxHash ch (RemoveVotesByHash ch h)
| step_status h b st :
    findBlock ch h = Some b -> chain_step CalcEthTxHash ch (saveBlock ch (set_status b st))
| step_index eb force : chain_step CalcEthTxHash ch (AddTxsToIndex CalcEthTxHash ch eb force)
| step_receipt block rawTx logs changes evmRet addr gas evmErr ch' :
    AddTxReceipt ch block rawTx logs changes evmRet addr gas evmErr = Ok ch' ->
    chain_step CalcEthTxHash ch ch'.

(** The operations of the ledger on a chain. *)
Inductive receipt_step ch : Chain S -> Prop :=
| receipt_added block rawTx logs changes evmRet addr gas evmErr ch' :
    AddTxReceipt ch block rawTx logs changes evmRet addr gas evmErr = Ok ch' -> receipt_step ch ch'.

(** The store, apart from its contents. *)
Definition same_id ch ch' : Prop := root ch' = root ch /\ CChainID ch' = CChainID ch.

(** Heights are 64-bit integers. *)
Definition heights_ok ch : Prop := forall h b, findBlock ch h = Some b -> is_u64 (EBHeight b).

(** No stored block is lost, and the header and transactions stay. *)
Definition keeps_blocks ch ch' : Prop :=
  forall h b, findBlock ch h = Some b -> exists b', findBlock ch' h = Some b' /\ EBlock b' = EBlock b.

End ChainSpec.

(** ** Lemmas: keys *)

Section Keys.

Lemma lor_128 x : 0 <= x < 256 -> Z.lor x 128 = x mod 128 + 128.
Proof.
  intros Hx. assert (Hcase : x < 128 \/ 128 <= x) by lia. destruct Hcase.
  - rewrite Z.mod_small by lia. rewrite <- Z.lxor_lor, Z.add_nocarry_lxor; [done|..];
      apply Z.bits_inj'; intros n Hn; rewrite Z.land_spec, Z.bits_0;
      change 128 with (2 ^ 7); rewrite Z.pow2_bits_eqb by lia;
      destruct (Z.eqb_spec 7 n) as [<-|]; rewrite ?andb_false_r; try done;
      rewrite andb_true_r; apply Z.bits_above_log2; try lia;
      destruct (Z.eq_dec x 0) as [->|]; [done|apply Z.log2_lt_pow2; lia | done | apply Z.log2_lt_pow2; lia].
  - replace (x mod 128) with (x - 128) by (apply (Z.mod_unique_pos x 128 1); lia).
    apply Z.bits_inj'. intros n Hn. rewrite Z.lor_spec.
    replace (x - 128 + 128) with x by lia.
    change 128 with (2 ^ 7). rewrite Z.pow2_bits_eqb by lia.
    destruct (Z.eqb_spec 7 n) as [<-|]; [|by rewrite orb_false_r].
    rewrite orb_true_r. symmetry. replace 7 with (Z.log2 x); [apply Z.bit_log2; lia|].
    apply Z.log2_unique; lia.
Qed.

(** Reading a varint back. *)
Fixpoint uvarint_value (l : list Z) : Z :=
  match l with
  | [] => 0
  | b :: l' => if b <? 128 then b else b - 128 + 128 * uvarint_value l'
  end.

Lemma PutUvarint_value n x :
  0 <= x < 128 ^ Z.of_nat n -> uvarint_value (PutUvarint n x) = x.
Proof.
  revert x; induction n as [|n IH]; intros x Hx; [simpl in *; lia|].
  rewrite Nat2Z.inj_succ, Z.pow_succ_r in Hx by lia. cbn [PutUvarint].
  destruct (x <? 128) eqn:Hlt; cbn [uvarint_value]; [by rewrite Hlt|]. bool_to_prop.
  rewrite land_255, lor_128 by (by apply Z.mod_pos_bound).
  rewrite (Z.shiftr_div_pow2 x 7) by lia. change (2 ^ 7) with 128.
  rewrite IH.
  - pose proof (Z.mod_pos_bound (x mod 256) 128 eq_refl).
    rewrite (proj2 (Z.ltb_ge _ _)) by lia.
    rewrite Z.mod_mod_divide by (by exists 2).
    pose proof (Z.div_mod x 128 ltac:(done)). lia.
  - split; [apply Z.div_pos; lia|]. apply Z.div_lt_upper_bound; lia.
Qed.

Lemma PutUvarint_length n x : (length (PutUvarint n x) <= n)%nat.
Proof.
  revert x; induction n as [|n IH]; intros x; simpl; [lia|].
  destruct (x <? 128); simpl; [lia|]. specialize (IH (Z.shiftr x 7)). lia.
Qed.

Lemma hash_bytes_length h : length (hash_bytes h) = 32%nat.
Proof. apply be_bytes_length. Qed.

Lemma hash_bytes_inj x y : is_hash x -> is_hash y -> hash_bytes x = hash_bytes y -> x = y.
Proof. apply (be_bytes_inj 32). Qed.

(** The length of a key tells its kind, except for the two kinds of 35 bytes. *)
Lemma key_bytes_length k :
  match k with
  | KBlock _ => length (key_bytes k) = 32%nat
  | KHeight _ => (length (key_bytes k) <= 13)%nat
  | KTx _ | KVote _ => length (key_bytes k) = 35%nat
  | KReceiptV1 _ => length (key_bytes k) = 36%nat
  | KReceiptV2 _ _ => length (key_bytes k) = 72%nat
  | KBalance _ _ => length (key_bytes k) = 69%nat
  end.
Proof.
  destruct k; cbn [key_bytes]; unfold blockByHeightIndexKey, txIndexKey, voteIndexKey,
    txReceiptKeyV1, txReceiptKeyV2, txBalanceChangesKey;
    rewrite ?length_app, ?hash_bytes_length; try reflexivity.
  pose proof (PutUvarint_length MaxVarintLen64 height). unfold MaxVarintLen64 in *.
  cbn [length bh_prefix]. lia.
Qed.

Lemma pair_bytes_inj b t b' t' :
  is_hash b /\ is_hash t -> is_hash b' /\ is_hash t' ->
  hash_bytes b ++ [47] ++ hash_bytes t = hash_bytes b' ++ [47] ++ hash_bytes t' ->
  b = b' /\ t = t'.
Proof.
  intros [Hb Ht] [Hb' Ht'] Heq. apply app_inj_1 in Heq as [H1 H2];
    [|by rewrite !hash_bytes_length].
  apply (app_inv_head [47]) in H2. split; by apply hash_bytes_inj.
Qed.

Lemma height_key_inj x y : is_u64 x -> is_u64 y ->
  blockByHeightIndexKey x = blockByHeightIndexKey y -> x = y.
Proof.
  unfold blockByHeightIndexKey, is_u64, two64. intros Hx Hy Heq%(app_inv_head bh_prefix).
  apply (f_equal uvarint_value) in Heq.
  assert (Hp : 18446744073709551616 < 128 ^ Z.of_nat MaxVarintLen64) by (vm_compute; done).
  by rewrite !PutUvarint_value in Heq by lia.
Qed.

End Keys.

(** ** Lemmas: frames of the store operations *)

Section ChainLemmas.
Context `{BlockCrypto} {S : Type} `{!Store S}.
Implicit Types (ch : Chain S).

Lemma stored_id eb : hash (Header (EBlock eb)) = 0 -> stored eb = eb.
Proof. destruct eb as [[[] ?] ? ? ?]; simpl. by intros ->. Qed.

Lemma findBlock_saveBlock ch eb h :
  findBlock (saveBlock ch eb) h =
  if decide (EBHash eb = h) then Some (stored eb) else findBlock ch h.
Proof.
  unfold findBlock, saveBlock. cbn [store with_store]. rewrite Get_Put.
  repeat case_decide; congruence.
Qed.

(** Operations that do not touch the blocks. *)
Definition same_blocks ch ch' : Prop := forall h, findBlock ch' h = findBlock ch h.

Definition block_key (k : Key) : bool := match k with KBlock _ => true | _ => false end.

Lemma same_blocks_put ch k v : block_key k = false -> same_blocks ch (with_store ch (Put (store ch) k v)).
Proof.
  intros Hk h. unfold findBlock. cbn [store with_store]. rewrite Get_Put.
  case_decide; [by subst|done].
Qed.

Lemma same_blocks_trans ch1 ch2 ch3 :
  same_blocks ch1 ch2 -> same_blocks ch2 ch3 -> same_blocks ch1 ch3.
Proof. intros H12 H23 h. by rewrite H23, H12. Qed.

Lemma same_blocks_height ch n h : same_blocks ch (AddBlockByHeightIndex ch n h).
Proof.
  unfold AddBlockByHeightIndex. case_bool_decide; [done|]. by apply same_blocks_put.
Qed.

Lemma height_index_add ch n h m :
  height_index (AddBlockByHeightIndex ch n h) m =
  if decide (n = m /\ h ∉ height_index ch n) then height_index ch m ++ [h] else height_index ch m.
Proof.
  unfold AddBlockByHeightIndex. case_bool_decide as Hin.
  - rewrite decide_False; [done|]. naive_solver.
  - destruct (decide (n = m)) as [->|Hne].
    + rewrite decide_True by done. unfold height_index at 1. cbn [store with_store].
      by rewrite Get_Put, decide_True.
    + rewrite decide_False by naive_solver. unfold height_index. cbn [store with_store].
      rewrite Get_Put, decide_False by congruence. done.
Qed.

Context (CalcEthTxHash : ExtendedBlock -> Bytes -> outcome Hash).

Lemma same_blocks_eth ch eb tx e : same_blocks ch (insertEthTxHash CalcEthTxHash ch eb tx e).
Proof. unfold insertEthTxHash. case_match; [by apply same_blocks_put|done|done]. Qed.

Lemma same_blocks_txs ch eb force : same_blocks ch (AddTxsToIndex CalcEthTxHash ch eb force).
Proof.
  unfold AddTxsToIndex. generalize 0%nat as idx. generalize (Txs (EBlock eb)) as txs.
  intros txs. revert ch. induction txs as [|tx txs IH]; intros ch idx; [done|].
  cbn [add_txs_loop]. eapply same_blocks_trans; [|apply IH].
  case_match; [done|]. eapply same_blocks_trans; [|apply same_blocks_eth].
  by apply same_blocks_put.
Qed.

Lemma same_blocks_vote ch v : same_blocks ch (AddVoteToIndex ch v).
Proof. unfold AddVoteToIndex. case_match; [done|]. by apply same_blocks_put. Qed.

(** The height index is only changed by [AddBlockByHeightIndex]. *)
Definition same_index ch ch' : Prop := forall n, height_index ch' n = height_index ch n.

Definition height_key (k : Key) : bool := match k with KHeight _ => true | _ => false end.

Lemma same_index_put ch k v : height_key k = false -> same_index ch (with_store ch (Put (store ch) k v)).
Proof.
  intros Hk n. unfold height_index. cbn [store with_store]. rewrite Get_Put.
  case_decide; [by subst|done].
Qed.

Lemma same_index_trans ch1 ch2 ch3 :
  same_index ch1 ch2 -> same_index ch2 ch3 -> same_index ch1 ch3.
Proof. intros H12 H23 n. by rewrite H23, H12. Qed.

Lemma same_index_save ch eb : same_index ch (saveBlock ch eb).
Proof. by apply same_index_put. Qed.

Lemma same_index_txs ch eb force : same_index ch (AddTxsToIndex CalcEthTxHash ch eb force).
Proof.
  unfold AddTxsToIndex. generalize 0%nat as idx. generalize (Txs (EBlock eb)) as txs.
  intros txs. revert ch. induction txs as [|tx txs IH]; intros ch idx; [done|].
  cbn [add_txs_loop]. eapply same_index_trans; [|apply IH].
  case_match; [done|]. unfold insertEthTxHash.
  case_match; [eapply same_index_trans|..]; by apply same_index_put.
Qed.

End ChainLemmas.

#[export] Hint Resolve same_blocks_put same_blocks_height same_blocks_eth same_blocks_txs
  same_blocks_vote same_index_put same_index_save same_index_txs : subchain.

Section ChainProofs.
Context `{BlockCrypto} {S : Type} `{!Store S}.
Implicit Types (ch : Chain S).

Lemma blocks_ok_hash ch h b : blocks_ok ch -> findBlock ch h = Some b -> EBHash b = h.
Proof.
  intros Hok Hb. destruct (Hok _ _ Hb) as [<- Hz]. apply Hash_fst. by left.
Qed.

Lemma blocks_ok_stored ch h b : blocks_ok ch -> findBlock ch h = Some b -> stored b = b.
Proof. intros Hok Hb. by apply stored_id, (Hok _ _ Hb). Qed.

Lemma blocks_ok_save ch eb :
  blocks_ok ch -> cache_ok (Header (EBlock eb)) -> blocks_ok (saveBlock ch eb).
Proof.
  intros Hok Hc h b. rewrite findBlock_saveBlock. case_decide as Hh; [|apply Hok].
  intros [= <-]. simpl. split; [|done]. rewrite <- Hh.
  change (calculateHash (Header (EBlock eb)) = EBHash eb). symmetry. by apply Hash_fst.
Qed.

Lemma blocks_ok_same ch ch' : blocks_ok ch -> same_blocks ch ch' -> blocks_ok ch'.
Proof. intros Hok Hs h b. rewrite Hs. apply Hok. Qed.

(** Saving a new version of a stored block. *)
Lemma findBlock_resave ch h b f h' :
  blocks_ok ch -> findBlock ch h = Some b -> EBlock (f b) = EBlock b ->
  findBlock (saveBlock ch (f b)) h' = if decide (h = h') then Some (f b) else findBlock ch h'.
Proof.
  intros Hok Hb Hf. rewrite findBlock_saveBlock.
  assert (Hh : EBHash (f b) = h) by (unfold EBHash; rewrite Hf; by apply (blocks_ok_hash ch)).
  rewrite Hh. case_decide; [|done]. f_equal. apply stored_id. rewrite Hf. by apply (Hok _ _ Hb).
Qed.

Lemma blocks_ok_resave ch h b f :
  blocks_ok ch -> findBlock ch h = Some b -> EBlock (f b) = EBlock b ->
  blocks_ok (saveBlock ch (f b)).
Proof.
  intros Hok Hb Hf. apply blocks_ok_save; [done|]. rewrite Hf. left. by apply (Hok _ _ Hb).
Qed.

Lemma only_finalizes_refl ch : only_finalizes ch ch.
Proof.
  intros h. destruct (findBlock ch h) as [b|]; [|done]. split; [by destruct b|by left].
Qed.

Lemma only_finalizes_trans ch1 ch2 ch3 :
  only_finalizes ch1 ch2 -> only_finalizes ch2 ch3 -> only_finalizes ch1 ch3.
Proof.
  intros H12 H23 h. specialize (H12 h). specialize (H23 h).
  destruct (findBlock ch1 h) as [b1|], (findBlock ch2 h) as [b2|], (findBlock ch3 h) as [b3|];
    try done.
  destruct H12 as [E12 C12], H23 as [E23 C23]. split.
  - rewrite E23, E12. by destruct b3.
  - destruct C12 as [->|[? ?]], C23 as [->|[? ?]]; try (by left); by right.
Qed.

Context (CalcEthTxHash : ExtendedBlock -> Bytes -> outcome Hash).

(** One iteration of the finalization loop. *)
Definition finalize_step ch (b : ExtendedBlock) (st : BlockStatus) : Chain S :=
  AddTxsToIndex CalcEthTxHash (saveBlock ch (set_status b st)) (set_status b st) true.

Lemma finalize_step_find ch h b st h' :
  blocks_ok ch -> findBlock ch h = Some b ->
  findBlock (finalize_step ch b st) h' =
  if decide (h = h') then Some (set_status b st) else findBlock ch h'.
Proof.
  intros Hok Hb. unfold finalize_step. rewrite (same_blocks_txs _ _ _ _ h').
  by apply (findBlock_resave ch h b (fun b => set_status b st)).
Qed.

Lemma finalize_step_ok ch h b st :
  blocks_ok ch -> findBlock ch h = Some b -> blocks_ok (finalize_step ch b st).
Proof.
  intros Hok Hb. eapply blocks_ok_same; [|apply same_blocks_txs].
  by apply (blocks_ok_resave ch h b (fun b => set_status b st)).
Qed.

Lemma finalize_step_only ch h b st :
  blocks_ok ch -> findBlock ch h = Some b -> IsFinalized (Status b) = false ->
  IsFinalized st = true -> only_finalizes ch (finalize_step ch b st).
Proof.
  intros Hok Hb Hnf Hst h'. rewrite (finalize_step_find ch h) by done. case_decide as Hh.
  - subst h'. rewrite Hb. split; [done|]. right. by rewrite Hnf.
  - apply only_finalizes_refl.
Qed.

(** Whether a hash is that of a stored block that is not finalized. *)
Definition is_unfinalized ch (h : Hash) : bool :=
  match findBlock ch h with Some b => negb (IsFinalized (Status b)) | None => false end.

Definition unfinalized ch (hs : list Hash) : nat := length (List.filter (is_unfinalized ch) hs).

Lemma finalize_step_decreases ch h b st hs :
  blocks_ok ch -> findBlock ch h = Some b -> IsFinalized (Status b) = false ->
  IsFinalized st = true -> h ∈ hs -> (unfinalized (finalize_step ch b st) hs < unfinalized ch hs)%nat.
Proof.
  intros Hok Hb Hnf Hst Hin. apply filter_length_lt with h; [|done|..];
    unfold is_unfinalized; rewrite ?Hb; rewrite ?(finalize_step_find ch h) by done.
  - intros h' _. rewrite (finalize_step_find ch h) by done. case_decide; [subst|done].
    simpl. by rewrite Hst.
  - by rewrite Hnf.
  - rewrite decide_True by done. simpl. by rewrite Hst.
Qed.

(** What the loop guarantees from any hash. *)
Lemma finalize_loop_spec fuel ch h st ch' err :
  blocks_ok ch -> IsFinalized st = true ->
  finalize_loop CalcEthTxHash fuel ch h st = Some (ch', err) ->
  blocks_ok ch' /\ only_finalizes ch ch' /\
  (err = None -> h <> 0 -> forall b, findBlock ch' h = Some b -> IsFinalized (Status b) = true) /\
  (err = None -> (forall h1 b1 pb, findBlock ch h1 = Some b1 -> IsFinalized (Status b1) = true ->
       EBParent b1 <> 0 -> EBParent b1 <> h -> findBlock ch (EBParent b1) = Some pb ->
       IsFinalized (Status pb) = true) -> finalized_closed ch').
Proof.
  revert ch h st. induction fuel as [|fuel IH]; intros ch h st Hok Hst Hrun.
  all: cbn [finalize_loop] in Hrun; unfold IsEmpty in Hrun; case_bool_decide as Hh.
  1, 3: simplify_eq; split_and!; [done|apply only_finalizes_refl|done|];
    intros _ Hcl h1 b1 pb H1 H2 H3 H4; apply (Hcl h1 b1 pb); congruence.
  { done. }
  destruct (findBlock ch h) as [b|] eqn:Hb.
  2: { simplify_eq. split_and!; [done|apply only_finalizes_refl|congruence|].
       intros _ Hcl h1 b1 pb H1 H2 H3 H4. apply (Hcl h1 b1 pb); congruence. }
  destruct (IsFinalized (Status b)) eqn:Hnf.
  { simplify_eq. split_and!; [done|apply only_finalizes_refl|congruence|].
    intros _ Hcl h1 b1 pb H1 H2 H3 H4. destruct (decide (EBParent b1 = h)); [congruence|].
    by apply (Hcl h1 b1 pb). }
  case_bool_decide as Hdis.
  { simplify_eq. split_and!; [done|apply only_finalizes_refl|done|done]. }
  change (AddTxsToIndex _ (saveBlock ch _) _ _) with (finalize_step ch b st) in Hrun.
  pose proof (finalize_step_ok ch h b st Hok Hb) as Hok1.
  pose proof (finalize_step_only ch h b st Hok Hb Hnf Hst) as Honly1.
  destruct (IH _ _ BlockStatusIndirectlyFinalized Hok1 eq_refl Hrun) as (Hok' & Honly & Hfin & Hclosed).
  split; [done|]. split; [by eapply only_finalizes_trans|]. split.
  - intros He _ b' Hb'. specialize (Honly h). rewrite (finalize_step_find ch h) in Honly by done.
    rewrite decide_True, Hb' in Honly by done. destruct Honly as [_ [->|[_ ?]]]; done.
  - intros He Hcl. apply Hclosed; [done|]. intros h1 b1 pb.
    rewrite !(finalize_step_find ch h) by done.
    intros H1 H2 H3 H4 H5. case_decide; case_decide; simplify_eq; try done.
    apply (Hcl h1 b1 pb); congruence.
Qed.

Lemma finalize_loop_terminates fuel ch h st hs :
  blocks_ok ch -> IsFinalized st = true ->
  (forall x b, findBlock ch x = Some b -> x ∈ hs) -> (unfinalized ch hs < fuel)%nat ->
  is_Some (finalize_loop CalcEthTxHash fuel ch h st).
Proof.
  revert ch h st. induction fuel as [|fuel IH]; intros ch h st Hok Hst Hall Hf; [lia|].
  cbn [finalize_loop]. destruct (IsEmpty h); [eauto|].
  destruct (findBlock ch h) as [b|] eqn:Hb; [|eauto].
  destruct (IsFinalized (Status b)) eqn:Hnf; [eauto|]. case_bool_decide; [eauto|].
  change (AddTxsToIndex _ (saveBlock ch _) _ _) with (finalize_step ch b st).
  apply IH; [by eapply finalize_step_ok|done|..].
  - intros x b' Hx. rewrite (finalize_step_find ch h) in Hx by done.
    case_decide; [subst|]; eauto.
  - pose proof (finalize_step_decreases ch h b st hs Hok Hb Hnf Hst (Hall _ _ Hb)). lia.
Qed.

(** An error comes from a disposed block. *)
Lemma finalize_loop_error fuel ch h st ch' err :
  blocks_ok ch -> IsFinalized st = true ->
  finalize_loop CalcEthTxHash fuel ch h st = Some (ch', err) -> err <> None ->
  exists x b, findBlock ch x = Some b /\ Status b = BlockStatusDisposed.
Proof.
  revert ch h st. induction fuel as [|fuel IH]; intros ch h st Hok Hst Hrun Herr.
  all: cbn [finalize_loop] in Hrun; destruct (IsEmpty h); [by simplify_eq|]; try done.
  destruct (findBlock ch h) as [b|] eqn:Hb; [|by simplify_eq].
  destruct (IsFinalized (Status b)); [by simplify_eq|].
  case_bool_decide as Hdis; [by eauto|].
  change (AddTxsToIndex _ (saveBlock ch _) _ _) with (finalize_step ch b st) in Hrun.
  destruct (IH _ _ BlockStatusIndirectlyFinalized (finalize_step_ok ch h b st Hok Hb) eq_refl Hrun Herr)
    as (x & bx & Hx & Hd).
  rewrite (finalize_step_find ch h) in Hx by done. case_decide; [|by eauto].
  simplify_eq. simpl in Hd. by subst st.
Qed.

End ChainProofs.

(** ** Lemmas: adding a block *)

Section AddBlockProofs.
Context `{BlockCrypto} {S : Type} `{!Store S}.
Implicit Types (ch : Chain S).

(** The update [link_parent] makes to the block stored under [h']. *)
Definition adopt (block : Block) (isRoot : bool) (h' : Hash) (b : ExtendedBlock) : ExtendedBlock :=
  if decide (h' = Parent (Header block) /\ Parent (Header block) <> 0 /\ isRoot = false)
  then set_children b (Children b ++ [BlockHash block]) else b.

Lemma adopt_block block r h' b : EBlock (adopt block r h' b) = EBlock b.
Proof. unfold adopt. by case_decide. Qed.

Lemma adopt_children block r h' b c :
  c ∈ Children (adopt block r h' b) <->
  c ∈ Children b \/ (c = BlockHash block /\ h' = Parent (Header block) /\
                     Parent (Header block) <> 0 /\ r = false).
Proof.
  unfold adopt. case_decide as Hd; simpl; [|tauto].
  rewrite elem_of_app, list_elem_of_singleton. tauto.
Qed.

Lemma link_parent_find ch block r h' :
  blocks_ok ch -> findBlock (link_parent ch block r) h' = adopt block r h' <$> findBlock ch h'.
Proof.
  intros Hok.
  assert (Hid : ~ (h' = Parent (Header block) /\ Parent (Header block) <> 0 /\ r = false) ->
    adopt block r h' <$> findBlock ch h' = findBlock ch h').
  { intros Hn. destruct (findBlock ch h'); [|done]. simpl. unfold adopt. by rewrite decide_False. }
  unfold link_parent, IsEmpty. case_bool_decide as Hp; simpl; [rewrite Hid; naive_solver|].
  destruct r; simpl; [rewrite Hid; naive_solver|].
  destruct (findBlock ch (Parent (Header block))) as [p|] eqn:Hpb.
  - rewrite (findBlock_resave ch (Parent (Header block)) p
      (fun p => set_children p (Children p ++ [BlockHash block]))) by done.
    destruct (decide (Parent (Header block) = h')) as [<-|Hne]; [|rewrite Hid; naive_solver].
    rewrite Hpb. simpl. unfold adopt. by rewrite decide_True.
  - destruct (decide (h' = Parent (Header block))) as [->|Hne]; [by rewrite Hpb|].
    rewrite Hid; naive_solver.
Qed.

Lemma link_parent_ok ch block r : blocks_ok ch -> blocks_ok (link_parent ch block r).
Proof.
  intros Hok h b. rewrite link_parent_find by done.
  destruct (findBlock ch h) as [b0|] eqn:Hb; [|done]. simpl. intros [= <-].
  rewrite adopt_block. by apply Hok.
Qed.

Lemma link_parent_index ch block r : same_index ch (link_parent ch block r).
Proof.
  unfold link_parent. repeat (case_match; try done). apply same_index_save.
Qed.

(** The stored form of a block that has just been added. *)
Definition new_block ch (block : Block) (r : bool) : ExtendedBlock :=
  mkExtendedBlock block (waiting_children (link_parent ch block r) block) BlockStatusPending false.

Lemma elem_of_blocks_by_height ch n b :
  b ∈ findBlocksByHeight ch n <-> exists h, h ∈ height_index ch n /\ findBlock ch h = Some b.
Proof. unfold findBlocksByHeight. apply list_elem_of_omap. Qed.

Lemma elem_of_waiting ch block c :
  blocks_ok ch ->
  c ∈ waiting_children ch block <->
  exists cb, c ∈ height_index ch (u64_add (BHeight (Header block)) 1) /\
    findBlock ch c = Some cb /\ EBParent cb = BlockHash block.
Proof.
  intros Hok. unfold waiting_children. rewrite list_elem_of_fmap. split.
  - intros (cb & -> & [Hp (h & Hin & Hb)%elem_of_blocks_by_height]%list_elem_of_filter).
    rewrite (blocks_ok_hash _ _ _ Hok Hb). eauto.
  - intros (cb & Hin & Hb & Hp). exists cb.
    split; [by rewrite (blocks_ok_hash _ _ _ Hok Hb)|].
    apply list_elem_of_filter. split; [done|]. apply elem_of_blocks_by_height. eauto.
Qed.

Lemma u64_add_1_ne n : n <> u64_add n 1.
Proof.
  unfold u64_add, wrap64. intros Heq.
  pose proof (Z.mod_pos_bound (n + 1) two64 two64_pos).
  destruct (decide (n + 1 = two64)) as [He|Hne].
  - rewrite He, Z.mod_same in Heq by (unfold two64; lia). unfold two64 in *. lia.
  - rewrite Z.mod_small in Heq by lia. lia.
Qed.
Context (CalcEthTxHash : ExtendedBlock -> Bytes -> outcome Hash).

Lemma addBlock_inv ch block r eb ch' :
  addBlock CalcEthTxHash ch block r = Ok (eb, ch') -> blocks_ok ch -> cache_ok (Header block) ->
  ChainID (Header block) = CChainID ch /\ findBlock ch (BlockHash block) = None /\
  eb = new_block ch block r /\ blocks_ok ch' /\
  (forall h, findBlock ch' h = if decide (BlockHash block = h) then Some (stored eb)
                               else adopt block r h <$> findBlock ch h) /\
  (forall n, height_index ch' n =
     if decide (BHeight (Header block) = n /\ BlockHash block ∉ height_index ch (BHeight (Header block)))
     then height_index ch n ++ [BlockHash block] else height_index ch n).
Proof.
  unfold addBlock. destruct (String.eqb _ _) eqn:Hid; [|done]. apply String.eqb_eq in Hid.
  cbn [negb]. destruct (findBlock ch (BlockHash block)) eqn:Hnone; [done|].
  intros [= <- <-] Hok Hc. fold (new_block ch block r).
  set (eb := new_block ch block r). set (ch2 := saveBlock (link_parent ch block r) eb).
  split; [done|]. split; [done|]. split; [done|].
  assert (Hok2 : blocks_ok ch2) by (apply blocks_ok_save; [by apply link_parent_ok|done]).
  assert (Hs : same_blocks ch2 (AddTxsToIndex CalcEthTxHash
     (AddBlockByHeightIndex ch2 (EBHeight eb) (BlockHash block)) eb false))
    by (eapply same_blocks_trans; [apply same_blocks_height|apply same_blocks_txs]).
  split; [by eapply blocks_ok_same|]. split.
  - intros h. rewrite Hs. unfold ch2. rewrite findBlock_saveBlock.
    change (EBHash eb) with (BlockHash block). case_decide; [done|]. by apply link_parent_find.
  - intros n. rewrite (same_index_txs _ _ _ _ n), height_index_add.
    change (EBHeight eb) with (BHeight (Header block)). unfold ch2.
    by rewrite !(same_index_save _ _ _), !(link_parent_index _ _ _ _).
Qed.

End AddBlockProofs.

(** ** Lemmas: the invariant along the operations *)

Section InvariantProofs.
Context `{BlockCrypto} {S : Type} `{!Store S}.
Implicit Types (ch : Chain S).

Lemma ancestor_loop_spec ch a h n :
  descendant_loop ch a h n = true <-> exists k, (k < n)%nat /\ nth_ancestor ch k h = Some a.
Proof.
  revert h. induction n as [|n IH]; intros h; cbn [descendant_loop].
  { split; [done|]. intros (k & ? & _). lia. }
  destruct (Z.eqb_spec h a) as [->|Hne].
  { split; [|done]. intros _. exists 0%nat. split; [lia|done]. }
  destruct (findBlock ch h) as [b|] eqn:Hb.
  - rewrite IH. split.
    + intros (k & Hk & Ha). exists (Datatypes.S k). split; [lia|]. simpl. by rewrite Hb.
    + intros ([|k] & Hk & Ha); simpl in Ha; [congruence|]. rewrite Hb in Ha.
      exists k. split; [lia|done].
  - split; [done|]. intros ([|k] & Hk & Ha); simpl in Ha; [congruence|]. by rewrite Hb in Ha.
Qed.

(** Operations that keep the blocks and the children lists. *)
Definition same_shape ch ch' : Prop :=
  same_index ch ch' /\
  forall h, match findBlock ch h, findBlock ch' h with
            | Some b, Some b' => EBlock b' = EBlock b /\ Children b' = Children b
            | None, None => True
            | _, _ => False
            end.

Lemma shape_chain_inv ch ch' : chain_inv ch -> same_shape ch ch' -> chain_inv ch'.
Proof.
  intros (Hok & Hidx & [Hfwd Hbwd]) [Hi Hs].
  assert (Hback : forall h b', findBlock ch' h = Some b' ->
    exists b, findBlock ch h = Some b /\ EBlock b' = EBlock b /\ Children b' = Children b).
  { intros h b' Hb'. specialize (Hs h). rewrite Hb' in Hs.
    destruct (findBlock ch h); [eauto|done]. }
  split_and!.
  - intros h b' (b & Hb & He & _)%Hback. rewrite He. by apply Hok.
  - intros h b' (b & Hb & He & _)%Hback. rewrite Hi. unfold EBHeight. rewrite He. by apply Hidx.
  - split.
    + intros h b' pb' (b & Hb & He & _)%Hback. unfold EBParent, EBHeight. rewrite He.
      intros Hp (pb & Hpb & Hpe & ->)%Hback. rewrite Hpe. by apply Hfwd.
    + intros h b' c (b & Hb & He & ->)%Hback Hc.
      destruct (Hbwd _ _ _ Hb Hc) as (cb & Hcb & Hp).
      specialize (Hs c). rewrite Hcb in Hs. destruct (findBlock ch' c) as [cb'|]; [|done].
      destruct Hs as [Hce _]. exists cb'. split; [done|]. unfold EBParent. by rewrite Hce.
Qed.

Lemma update_shape ch h f b ch' :
  blocks_ok ch -> (forall b, EBlock (f b) = EBlock b /\ Children (f b) = Children b) ->
  update_block ch h f = Ok (b, ch') -> same_shape ch ch'.
Proof.
  intros Hok Hf. unfold update_block. destruct (findBlock ch h) as [b0|] eqn:Hb; [|done].
  intros [= <- <-]. split; [apply same_index_save|]. intros h'.
  rewrite (findBlock_resave ch h b0 f) by (done || apply Hf). case_decide as Hh.
  - subst. rewrite Hb. apply Hf.
  - by destruct (findBlock ch h').
Qed.

Context (CalcEthTxHash : ExtendedBlock -> Bytes -> outcome Hash).

Lemma add_indexed ch block r eb ch' :
  blocks_ok ch -> cache_ok (Header block) -> indexed ch ->
  addBlock CalcEthTxHash ch block r = Ok (eb, ch') -> indexed ch'.
Proof.
  intros Hok Hc Hidx (_ & _ & -> & _ & Hfind & Hindex)%addBlock_inv; try done.
  intros h b Hb. rewrite Hfind in Hb. rewrite Hindex.
  destruct (decide (BlockHash block = h)) as [<-|Hh].
  - injection Hb as <-. change (EBHeight (stored _)) with (BHeight (Header block)).
    destruct (decide (BlockHash block ∈ height_index ch (BHeight (Header block)))) as [Hd|Hd].
    + rewrite decide_False; [done|tauto].
    + rewrite decide_True by done. apply elem_of_app. right. by left.
  - destruct (findBlock ch h) as [b0|] eqn:Hb0; [|done]. injection Hb as <-.
    assert (Hin : h ∈ height_index ch (EBHeight (adopt block r h b0)))
      by (unfold EBHeight; rewrite adopt_block; by apply Hidx).
    destruct (decide (_ /\ _)); [apply elem_of_app; by left|done].
Qed.

Lemma add_linked ch block r eb ch' :
  blocks_ok ch -> cache_ok (Header block) -> indexed ch -> linked ch ->
  r = false \/ findBlock ch (Parent (Header block)) = None ->
  addBlock CalcEthTxHash ch block r = Ok (eb, ch') -> linked ch'.
Proof.
  intros Hok Hc Hidx [Hfwd Hbwd] Hr (_ & Hnone & -> & _ & Hfind & _)%addBlock_inv; try done.
  pose proof (link_parent_ok ch block r Hok) as Hok1. split.
  - intros h b pb. rewrite !Hfind. intros Hb Hp0 Hpb Hh.
    destruct (decide (BlockHash block = h)) as [<-|Hneh].
    + injection Hb as <-. change (EBParent (stored _)) with (Parent (Header block)) in *.
      case_decide as Hself; [injection Hpb as <-; by apply u64_add_1_ne in Hh|].
      destruct (findBlock ch (Parent (Header block))) as [p|] eqn:Hp; [|done].
      injection Hpb as <-. apply adopt_children. right. destruct Hr; [done|congruence].
    + destruct (findBlock ch h) as [b0|] eqn:Hb0; [|done]. injection Hb as <-.
      unfold EBParent, EBHeight in Hpb, Hh, Hp0. rewrite adopt_block in Hpb, Hh, Hp0.
      fold (EBParent b0) in Hpb, Hp0. fold (EBHeight b0) in Hh. case_decide as Hch.
      * injection Hpb as <-. change (EBHeight b0 = u64_add (BHeight (Header block)) 1) in Hh.
        simpl. apply elem_of_waiting; [done|].
        exists (adopt block r h b0). rewrite (link_parent_index _ _ _ _), link_parent_find, Hb0 by done.
        split_and!; [|done|unfold EBParent; by rewrite adopt_block].
        rewrite <- Hh. by apply Hidx.
      * destruct (findBlock ch (EBParent b0)) as [p|] eqn:Hp; [|done]. injection Hpb as <-.
        apply adopt_children. left. rewrite adopt_block in Hh. by apply (Hfwd h b0 p).
  - intros h b c. rewrite Hfind. intros Hb Hin.
    assert (Hold : forall cb, findBlock ch c = Some cb -> EBParent cb = h ->
      exists cb', findBlock ch' c = Some cb' /\ EBParent cb' = h).
    { intros cb Hcb Hp. exists (adopt block r c cb). rewrite Hfind, decide_False, Hcb by congruence.
      split; [done|]. unfold EBParent. by rewrite adopt_block. }
    destruct (decide (BlockHash block = h)) as [<-|Hneh].
    + injection Hb as <-. simpl in Hin. apply elem_of_waiting in Hin as (cb & _ & Hcb & Hp); [|done].
      rewrite link_parent_find in Hcb by done.
      destruct (findBlock ch c) as [cb0|] eqn:Hcb0; [|done]. injection Hcb as <-.
      unfold EBParent in Hp. rewrite adopt_block in Hp. by eapply Hold.
    + destruct (findBlock ch h) as [b0|] eqn:Hb0; [|done]. injection Hb as <-.
      apply adopt_children in Hin as [Hin|(-> & -> & _)].
      * destruct (Hbwd _ _ _ Hb0 Hin) as (cb & Hcb & Hp). by eapply Hold.
      * exists (stored (new_block ch block r)). rewrite Hfind, decide_True by done. done.
Qed.

Lemma add_chain_inv ch block r eb ch' :
  chain_inv ch -> cache_ok (Header block) ->
  r = false \/ findBlock ch (Parent (Header block)) = None ->
  addBlock CalcEthTxHash ch block r = Ok (eb, ch') -> chain_inv ch'.
Proof.
  intros (Hok & Hidx & Hlink) Hc Hr Hadd. split_and!.
  - by apply addBlock_inv in Hadd as (_ & _ & _ & Hok' & _).
  - by eapply add_indexed.
  - by eapply add_linked.
Qed.

Lemma finalize_index fuel ch h st ch' err :
  finalize_loop CalcEthTxHash fuel ch h st = Some (ch', err) -> same_index ch ch'.
Proof.
  revert ch h st. induction fuel as [|fuel IH]; intros ch h st; cbn [finalize_loop];
    repeat case_match; intros; simplify_eq; try done.
  eapply same_index_trans; [|by eapply IH].
  eapply same_index_trans; [apply same_index_save|apply same_index_txs].
Qed.

Lemma finalize_shape fuel ch h st ch' err :
  blocks_ok ch -> IsFinalized st = true ->
  finalize_loop CalcEthTxHash fuel ch h st = Some (ch', err) -> same_shape ch ch'.
Proof.
  intros Hok Hst Hrun. split; [by eapply finalize_index|]. intros x.
  destruct (finalize_loop_spec _ _ _ _ _ _ _ Hok Hst Hrun) as (_ & Honly & _).
  specialize (Honly x). destruct (findBlock ch x), (findBlock ch' x); try done.
  destruct Honly as [-> _]. done.
Qed.

Lemma same_blocks_shape ch ch' : same_blocks ch ch' -> same_index ch ch' -> same_shape ch ch'.
Proof. intros Hb Hi. split; [done|]. intros h. rewrite Hb. by destruct (findBlock ch h). Qed.

Lemma receipt_same ch block rawTx logs changes evmRet addr gas evmErr ch' :
  AddTxReceipt ch block rawTx logs changes evmRet addr gas evmErr = Ok ch' ->
  same_blocks ch ch' /\ same_index ch ch' /\ same_id ch ch'.
Proof.
  unfold AddTxReceipt. destruct block; [|done]. intros [= <-]. split_and!; [..|done];
    intros x; unfold findBlock, height_index; cbn [store with_store];
    by rewrite !Get_Put, !decide_False.
Qed.

Lemma remove_votes_shape ch h : same_shape ch (RemoveVotesByHash ch h).
Proof.
  apply same_blocks_shape; intros x; unfold findBlock, height_index, RemoveVotesByHash;
    cbn [store with_store]; by rewrite Get_Delete, decide_False.
Qed.

(** A step adds a block, or keeps the blocks and their children. *)
Lemma step_cases ch ch' : blocks_ok ch -> chain_step CalcEthTxHash ch ch' ->
  same_shape ch ch' \/
  exists block eb, cache_ok (Header block) /\ is_u64 (BHeight (Header block)) /\
    AddBlock CalcEthTxHash ch block = Ok (eb, ch').
Proof.
  intros Hok [block eb ch2 Hc Hu Hadd|h b ch2 Hu|h b ch2 Hu|h b ch2 Hu|h b ch2 Hu|fuel h ch2 err Hf|v|h
             |h b st Hb|eb force|block rawTx logs changes evmRet addr gas evmErr ch2 Hr].
  1: by right; eauto.
  all: left.
  1-4: by eapply update_shape; [..|exact Hu].
  - by eapply finalize_shape; [..|exact Hf].
  - apply same_blocks_shape; [apply same_blocks_vote|].
    unfold AddVoteToIndex. case_match; [done|]. by apply same_index_put.
  - apply remove_votes_shape.
  - apply (update_shape ch h (fun b => set_status b st) (set_status b st)); [done|done|].
    unfold update_block. by rewrite Hb.
  - apply same_blocks_shape; [apply same_blocks_txs|apply same_index_txs].
  - apply receipt_same in Hr as (? & ? & _). by apply same_blocks_shape.
Qed.

Lemma step_chain_inv ch ch' : chain_inv ch -> chain_step CalcEthTxHash ch ch' -> chain_inv ch'.
Proof.
  intros Hinv [Hs|(block & eb & Hc & _ & Hadd)]%step_cases; [..|apply Hinv].
  - by eapply shape_chain_inv.
  - by eapply add_chain_inv; [..|exact Hadd]; [..|left].
Qed.

Lemma steps_chain_inv ch ch' :
  chain_inv ch -> rtc (chain_step CalcEthTxHash) ch ch' -> chain_inv ch'.
Proof. intros Hinv Hsteps. induction Hsteps; [done|]. eauto using step_chain_inv. Qed.

Lemma NewChain_inv fuel chainID (s : S) rootBlock ch0 :
  (forall h, Get s (KBlock h) = None) -> cache_ok (Header rootBlock) ->
  NewChain CalcEthTxHash fuel chainID s rootBlock = Ok ch0 -> chain_inv ch0.
Proof.
  intros Hempty Hc Hnew. unfold NewChain in Hnew. set (chE := mkChain s chainID 0) in *.
  assert (Hnone : forall h, findBlock chE h = None) by (intros h; unfold findBlock; simpl; by rewrite Hempty).
  assert (HinvE : chain_inv chE)
    by (split; [|split; [|split]]; intros ? ? **; match goal with
        Hf : findBlock chE _ = Some _ |- _ => by rewrite Hnone in Hf end).
  rewrite Hnone in Hnew. destruct (AddSnapshotRoot CalcEthTxHash chE rootBlock) as [[eb ch1]| |] eqn:Hadd;
    cbn in Hnew; try done.
  assert (Hinv1 : chain_inv ch1) by (eapply add_chain_inv; [done|done|by right|exact Hadd]).
  destruct (FinalizePreviousBlocks _ _ _ _) as [[ch2 err]|] eqn:Hfin; [|done]. injection Hnew as <-.
  assert (Hinv2 : chain_inv ch2) by (eapply step_chain_inv; [done|by eapply step_finalize]).
  exact Hinv2.
Qed.

Lemma same_id_trans ch1 ch2 ch3 : same_id ch1 ch2 -> same_id ch2 ch3 -> same_id ch1 ch3.
Proof. intros [H1 H2] [H3 H4]. split; congruence. Qed.

Lemma same_id_txs ch eb force : same_id ch (AddTxsToIndex CalcEthTxHash ch eb force).
Proof.
  unfold AddTxsToIndex. generalize 0%nat as idx. generalize (Txs (EBlock eb)) as txs.
  intros txs. revert ch. induction txs as [|tx txs IH]; intros ch idx; [done|].
  cbn [add_txs_loop]. eapply same_id_trans; [|apply IH].
  case_match; [done|]. unfold insertEthTxHash. by case_match.
Qed.

Lemma same_id_finalize fuel ch h st ch' err :
  finalize_loop CalcEthTxHash fuel ch h st = Some (ch', err) -> same_id ch ch'.
Proof.
  revert ch h st. induction fuel as [|fuel IH]; intros ch h st; cbn [finalize_loop];
    repeat case_match; intros; simplify_eq; try done.
  eapply same_id_trans; [|by eapply IH]. eapply same_id_trans; [|apply same_id_txs]. done.
Qed.

Lemma same_id_add ch block r eb ch' :
  addBlock CalcEthTxHash ch block r = Ok (eb, ch') -> same_id ch ch'.
Proof.
  unfold addBlock. repeat case_match; try done. intros [= _ <-].
  eapply same_id_trans; [|apply same_id_txs]. unfold AddBlockByHeightIndex, link_parent.
  by repeat case_match.
Qed.

Lemma step_same_id ch ch' : chain_step CalcEthTxHash ch ch' -> same_id ch ch'.
Proof.
  intros [block eb ch2 Hc Hu Hadd|h b ch2 Hu|h b ch2 Hu|h b ch2 Hu|h b ch2 Hu|fuel h ch2 err Hf|v|h
         |h b st Hb|eb force|block rawTx logs changes evmRet addr gas evmErr ch2 Hr].
  1: by eapply same_id_add.
  1-4: revert Hu; unfold MarkBlockValid, MarkBlockInvalid, CommitBlock,
         MarkBlockHasValidatorUpdate, update_block; case_match; [by intros [= _ <-]|done].
  - by eapply same_id_finalize.
  - unfold AddVoteToIndex. by case_match.
  - done.
  - done.
  - apply same_id_txs.
  - by eapply receipt_same.
Qed.

(** The guarantees a run of steps gives to the other components. *)
Lemma step_evolves ch ch' : blocks_ok ch -> heights_ok ch -> chain_step CalcEthTxHash ch ch' ->
  blocks_ok ch' /\ heights_ok ch' /\ keeps_blocks ch ch'.
Proof.
  intros Hok Hh [[_ Hs]|(block & eb & Hc & Hu & Hadd)]%step_cases; [..|done].
  - assert (Hback : forall h b', findBlock ch' h = Some b' ->
      exists b, findBlock ch h = Some b /\ EBlock b' = EBlock b).
    { intros h b' Hb'. specialize (Hs h). rewrite Hb' in Hs.
      destruct (findBlock ch h); [|done]. naive_solver. }
    split_and!.
    + intros h b' (b & Hb & ->)%Hback. by apply Hok.
    + intros h b' (b & Hb & He)%Hback. unfold EBHeight. rewrite He. by apply (Hh h b).
    + intros h b Hb. specialize (Hs h). rewrite Hb in Hs.
      destruct (findBlock ch' h); [|done]. naive_solver.
  - apply addBlock_inv in Hadd as (_ & Hnone & -> & Hok' & Hfind & _); [|done|done].
    split; [done|]. split.
    + intros h b. rewrite Hfind. case_decide; [by intros [= <-]|].
      destruct (findBlock ch h) as [b0|] eqn:Hb0; [|done]. intros [= <-].
      unfold EBHeight. rewrite adopt_block. by apply (Hh h b0).
    + intros h b Hb. rewrite Hfind. case_decide; [congruence|]. rewrite Hb.
      eexists. split; [done|]. apply adopt_block.
Qed.

Lemma steps_evolve ch ch' : blocks_ok ch -> heights_ok ch -> rtc (chain_step CalcEthTxHash) ch ch' ->
  blocks_ok ch' /\ heights_ok ch' /\ keeps_blocks ch ch' /\ same_id ch ch'.
Proof.
  intros Hok Hh Hsteps. induction Hsteps as [ch|ch1 ch2 ch3 Hstep _ IH].
  - split_and!; try done. intros h b Hb. eauto.
  - destruct (step_evolves _ _ Hok Hh Hstep) as (Hok2 & Hh2 & Hk2).
    destruct (IH Hok2 Hh2) as (Hok3 & Hh3 & Hk3 & Hid). split_and!; try done.
    + intros h b (b' & Hb' & He)%Hk2. apply Hk3 in Hb' as (b'' & ? & ?). exists b''. split; [done|congruence].
    + eapply same_id_trans; [by apply step_same_id|done].
Qed.

End InvariantProofs.

(** ** Lemmas: the transaction index *)

Section TxIndexProofs.
Context `{BlockCrypto} {S : Type} `{!Store S}.
Context (CalcEthTxHash : ExtendedBlock -> Bytes -> outcome Hash).
Implicit Types (ch : Chain S).

(** The index entry under [h] points to a transaction of [eb] with that hash,
    or with that Ethereum hash. *)
Definition entry_of (eb : ExtendedBlock) (h : Hash) (e : TxIndexEntry) : Prop :=
  EntryBlockHash e = EBHash eb /\
  exists tx, Txs (EBlock eb) !! Z.to_nat (EntryIndex e) = Some tx /\
    (Keccak256Hash tx = h \/ CalcEthTxHash eb tx = Ok h).

Lemma find_tx_put ch k e h :
  find_tx_entry (with_store ch (Put (store ch) (KTx k) (VTxEntry e))) h =
  if decide (k = h) then Some e else find_tx_entry ch h.
Proof.
  unfold find_tx_entry. cbn [store with_store]. rewrite Get_Put.
  destruct (decide (k = h)) as [->|Hne]; [by rewrite decide_True|].
  rewrite decide_False by congruence. done.
Qed.

Lemma find_tx_insert ch eb tx idx h :
  Txs (EBlock eb) !! idx = Some tx ->
  let e := mkTxIndexEntry (EBHash eb) (EBHeight eb) (Z.of_nat idx) in
  let ch' := insertEthTxHash CalcEthTxHash
               (with_store ch (Put (store ch) (KTx (Keccak256Hash tx)) (VTxEntry e))) eb tx e in
  (forall e', find_tx_entry ch' h = Some e' -> entry_of eb h e' \/ find_tx_entry ch h = Some e') /\
  (Keccak256Hash tx = h -> exists e', find_tx_entry ch' h = Some e' /\ entry_of eb h e') /\
  (forall e', find_tx_entry ch h = Some e' -> entry_of eb h e' ->
     exists e'', find_tx_entry ch' h = Some e'' /\ entry_of eb h e'').
Proof.
  intros Htx e ch'.
  assert (He : forall h', Keccak256Hash tx = h' \/ CalcEthTxHash eb tx = Ok h' -> entry_of eb h' e).
  { intros h' Hh'. split; [done|]. exists tx. simpl. by rewrite Nat2Z.id. }
  assert (Hf : find_tx_entry ch' h = Some e /\ entry_of eb h e \/
               find_tx_entry ch' h = find_tx_entry ch h /\ Keccak256Hash tx <> h).
  { unfold ch', insertEthTxHash. destruct (CalcEthTxHash eb tx) as [h2| |] eqn:Heth.
    1: rewrite find_tx_put; destruct (decide (h2 = h)) as [->|]; [by left; auto|].
    all: rewrite find_tx_put; destruct (decide (Keccak256Hash tx = h)) as [Heq|]; [by left; auto|by right]. }
  destruct Hf as [[Hf Hent]|[Hf Hne]]; rewrite Hf; split_and!.
  - intros e' [= <-]. by left.
  - intros _. eauto.
  - eauto.
  - auto.
  - congruence.
  - eauto.
Qed.

Lemma add_txs_loop_entries ch eb idx txs h :
  (forall i tx, txs !! i = Some tx -> Txs (EBlock eb) !! (idx + i)%nat = Some tx) ->
  (exists e, find_tx_entry ch h = Some e /\ entry_of eb h e) \/ h ∈ (Keccak256Hash <$> txs) ->
  exists e, find_tx_entry (add_txs_loop CalcEthTxHash ch eb true idx txs) h = Some e /\
    entry_of eb h e.
Proof.
  revert ch idx. induction txs as [|tx txs IH]; intros ch idx Htxs Hin.
  { destruct Hin as [Hin|Hin]; [done|by apply elem_of_nil in Hin]. }
  cbn [add_txs_loop negb andb].
  assert (Htx : Txs (EBlock eb) !! idx = Some tx)
    by (rewrite <- (Htxs 0%nat tx eq_refl); f_equal; lia).
  destruct (find_tx_insert ch eb tx idx h Htx) as (_ & Hnew & Hold).
  apply IH.
  - intros i tx' Hi. rewrite <- (Htxs (Datatypes.S i) tx' Hi). f_equal. lia.
  - destruct Hin as [(e & He & Hent)|Hin]; [left; by eapply Hold|].
    rewrite fmap_cons in Hin. apply elem_of_cons in Hin as [->|Hin]; [left; by apply Hnew|by right].
Qed.
End TxIndexProofs.

(** ** A concrete chain for the witnesses *)

Fixpoint toy_digest (acc : Z) (s : string) : Z :=
  match s with
  | EmptyString => acc
  | String c s' => toy_digest (acc * 256 + Z.of_nat (Ascii.nat_of_ascii c) + 1) s'
  end.

(** Hashes that depend on the height and the epoch of a header only. *)
Definition demo_crypto : BlockCrypto := {|
  EncodeHeader h := pretty (BHeight h) +:+ "/" +:+ pretty (BEpoch h);
  Keccak256Hash s := toy_digest 1 s;
  CalculateRootHash l := Z.of_nat (length l)
|}.

Definition no_eth (eb : ExtendedBlock) (tx : Bytes) : outcome Hash := Err "not a smart contract".

Definition demo_block (height parent : Z) (txs : list Bytes) : Block :=
  mkBlock (mkHeader "tsub360777" height height parent (mkCC None parent) 0 0 0 0 (Some height)
             42 (Some "sig") 0) txs.

Definition demo_hash (height : Z) : Hash := @BlockHash demo_crypto (demo_block height 0 []).

Definition demo_root : Block := demo_block 0 0 ["genesis"].
Definition demo_b1 : Block := demo_block 1 (demo_hash 0) ["tx1"; "tx2"].
Definition demo_b2 : Block := demo_block 2 (demo_hash 1) ["tx3"].

Definition demo_chain0 : outcome (Chain (gmap Key Value)) :=
  @NewChain demo_crypto _ _ no_eth 2 "tsub360777" ∅ demo_root.

Definition no_chain : Chain (gmap Key Value) := mkChain ∅ "" 0.
Definition demo0 : Chain (gmap Key Value) :=
  match demo_chain0 with Ok ch => ch | _ => no_chain end.

Definition added (r : outcome (ExtendedBlock * Chain (gmap Key Value))) : Chain (gmap Key Value) :=
  match r with Ok (_, ch) => ch | _ => no_chain end.
Definition added_block (r : outcome (ExtendedBlock * Chain (gmap Key Value))) : ExtendedBlock :=
  match r with Ok (eb, _) => eb | _ => mkExtendedBlock demo_root [] BlockStatusPending false end.

Lemma demo_ok : is_ok demo_chain0 = true -> demo_chain0 = Ok demo0.
Proof. unfold demo0. by destruct demo_chain0. Qed.

Lemma added_ok r : is_ok r = true -> r = Ok (added_block r, added r).
Proof. by destruct r as [[eb ch]| |]. Qed.

(** The root, then the second block, then the first one. *)
Definition demo1 : Chain (gmap Key Value) := added (@AddBlock demo_crypto _ _ no_eth demo0 demo_b2).
Definition demo : Chain (gmap Key Value) := added (@AddBlock demo_crypto _ _ no_eth demo1 demo_b1).

Lemma demo0_inv : @chain_inv demo_crypto _ _ demo0.
Proof.
  eapply (@NewChain_inv demo_crypto _ _ no_eth 2 "tsub360777" ∅ demo_root);
    [by intros h|by left|apply demo_ok; vm_compute; reflexivity].
Qed.

(** A test of every block of an in-memory chain. *)
Definition check_blocks (P : Hash -> ExtendedBlock -> bool) (ch : Chain (gmap Key Value)) : bool :=
  forallb (fun kv => match kv with (KBlock h, VBlock b) => P h b | _ => true end)
    (map_to_list (store ch)).

Lemma check_blocks_sound P ch :
  check_blocks P ch = true -> forall h b, findBlock ch h = Some b -> P h b = true.
Proof.
  unfold check_blocks, findBlock. intros Hall h b Hf. rewrite forallb_forall in Hall.
  cbn [Get gmap_store] in Hf. destruct (store ch !! KBlock h) as [[]|] eqn:Hget; simplify_eq.
  apply (Hall (KBlock h, VBlock b)). by apply list_elem_of_In, elem_of_map_to_list.
Qed.

Definition closed_at (ch : Chain (gmap Key Value)) (_ : Hash) (b : ExtendedBlock) : bool :=
  if IsFinalized (Status b) && negb (IsEmpty (EBParent b)) then
    match findBlock ch (EBParent b) with Some pb => IsFinalized (Status pb) | None => true end
  else true.

Lemma check_closed ch :
  check_blocks (closed_at ch) ch = true -> finalized_closed ch.
Proof.
  intros Hall h b pb Hb Hfin Hp Hpb. pose proof (check_blocks_sound _ _ Hall h b Hb) as Hc.
  unfold closed_at, IsEmpty in Hc. rewrite Hfin, Hpb, bool_decide_eq_false_2 in Hc by done. done.
Qed.

Lemma check_blocks_ok `{BlockCrypto} ch :
  check_blocks (fun h b => (calculateHash (Header (EBlock b)) =? h) &&
                           (hash (Header (EBlock b)) =? 0)) ch = true -> blocks_ok ch.
Proof. intros Hall h b Hb. pose proof (check_blocks_sound _ _ Hall h b Hb) as [??]%andb_prop. split; by apply Z.eqb_eq. Qed.

Lemma check_heights ch :
  check_blocks (fun _ b => (0 <=? EBHeight b) && (EBHeight b <? two64)) ch = true -> heights_ok ch.
Proof.
  intros Hall h b Hb. pose proof (check_blocks_sound _ _ Hall h b Hb) as [??]%andb_prop.
  split; [by apply Z.leb_le|by apply Z.ltb_lt].
Qed.

Definition stored_hashes (ch : Chain (gmap Key Value)) : list Hash :=
  omap (fun kv => match kv with (KBlock h, VBlock _) => Some h | _ => None end)
    (map_to_list (store ch)).

Lemma find_in_keys (ch : Chain (gmap Key Value)) h b : findBlock ch h = Some b -> h ∈ stored_hashes ch.
Proof.
  unfold findBlock, stored_hashes. cbn [Get gmap_store].
  destruct (store ch !! KBlock h) as [[]|] eqn:Hget; intros [= ->].
  apply list_elem_of_omap. exists (KBlock h, VBlock b). split; [by apply elem_of_map_to_list|done].
Qed.

(** ** Properties *)

(** (store keys). The byte strings of the seven kinds of keys never
    collide: distinct keys, made of 256-bit hashes and 64-bit heights, have
    distinct encodings. *)
Theorem key_bytes_injective k k' :
  key_ok k -> key_ok k' -> key_bytes k = key_bytes k' -> k = k'.
Proof.
  intros Hk Hk' Heq. pose proof (key_bytes_length k) as Hl. pose proof (key_bytes_length k') as Hl'.
  rewrite Heq in Hl. destruct k, k'; cbn beta iota in Hl, Hl'; try lia;
    clear Hl Hl'; cbn [key_bytes key_ok] in Heq, Hk, Hk'.
  - f_equal. by apply hash_bytes_inj.
  - f_equal. by apply height_key_inj.
  - f_equal. apply (app_inv_head tx_prefix) in Heq. by apply hash_bytes_inj.
  - discriminate.
  - discriminate.
  - f_equal. apply (app_inv_head vt_prefix) in Heq. by apply hash_bytes_inj.
  - f_equal. apply (app_inv_head txr_prefix) in Heq. by apply hash_bytes_inj.
  - apply (app_inv_head txr_v2_prefix) in Heq. by destruct (pair_bytes_inj _ _ _ _ Hk Hk' Heq) as [-> ->].
  - apply (app_inv_head txb_prefix) in Heq. by destruct (pair_bytes_inj _ _ _ _ Hk Hk' Heq) as [-> ->].
Qed.

Lemma key_bytes_injective_witness : KHeight 300 = KHeight 300.
Proof.
  apply key_bytes_injective; [unfold key_ok, is_u64, two64; lia| |reflexivity].
  unfold key_ok, is_u64, two64; lia.
Defined.

(** C14 (chain invariant). From a chain created over a store without blocks,
    every sequence of block additions, status changes, finalizations and vote
    updates keeps the store consistent: each block is stored under its hash
    and indexed by its height, each block one height above its stored parent
    is in the children list of that parent whichever of the two arrived first,
    and every listed child is stored and links back. *)
Theorem chain_invariant `{BlockCrypto} {S} `{!Store S} CalcEthTxHash fuel chainID (s : S) rootBlock ch0 ch :
  (forall h, Get s (KBlock h) = None) -> cache_ok (Header rootBlock) ->
  NewChain CalcEthTxHash fuel chainID s rootBlock = Ok ch0 ->
  rtc (chain_step CalcEthTxHash) ch0 ch -> chain_inv ch.
Proof.
  intros Hempty Hc Hnew Hsteps. eapply steps_chain_inv; [by eapply NewChain_inv|done].
Qed.

Lemma chain_invariant_witness : @chain_inv demo_crypto _ _ demo.
Proof.
  apply (@chain_invariant demo_crypto _ _ no_eth 2 "tsub360777" ∅ demo_root demo0 demo).
  - intros h. reflexivity.
  - left. reflexivity.
  - apply demo_ok. vm_compute. reflexivity.
  - apply (rtc_l _ _ demo1).
    { apply (step_add _ _ demo_b2 (added_block (@AddBlock demo_crypto _ _ no_eth demo0 demo_b2)));
        [left; reflexivity|by vm_compute|apply added_ok; vm_compute; reflexivity]. }
    apply rtc_once.
    apply (step_add _ _ demo_b1 (added_block (@AddBlock demo_crypto _ _ no_eth demo1 demo_b1)));
      [left; reflexivity|by vm_compute|apply added_ok; vm_compute; reflexivity].
Defined.

(** (adding a block). [addBlock] fails, leaving the chain as it was, when
    the chain identifier differs or the block is already stored; otherwise the
    block is stored as pending, its parent (unless it is a snapshot root) gains
    it as its last child, every other block is untouched, the block is found
    at its height, and its children are the waiting blocks that name it. *)
Theorem addBlock_spec `{BlockCrypto} {S} `{!Store S} CalcEthTxHash (ch : Chain S) block isRoot :
  chain_inv ch -> cache_ok (Header block) ->
  match addBlock CalcEthTxHash ch block isRoot with
  | Ok (eb, ch') =>
      EBlock eb = block /\ Status eb = BlockStatusPending /\ HasValidatorUpdate eb = false /\
      findBlock ch (BlockHash block) = None /\
      findBlock ch' (BlockHash block) = Some (stored eb) /\
      (forall h, h <> BlockHash block -> findBlock ch' h = adopt block isRoot h <$> findBlock ch h) /\
      stored eb ∈ findBlocksByHeight ch' (BHeight (Header block)) /\
      (forall c cb, findBlock ch c = Some cb -> EBParent cb = BlockHash block ->
         EBHeight cb = u64_add (BHeight (Header block)) 1 -> c ∈ Children eb)
  | Err _ => ChainID (Header block) <> CChainID ch \/ is_Some (findBlock ch (BlockHash block))
  | Panic _ => False
  end.
Proof.
  intros (Hok & Hidx & Hlink) Hc.
  destruct (addBlock CalcEthTxHash ch block isRoot) as [[eb ch']|e|e] eqn:Hadd.
  - pose proof (add_indexed _ _ _ _ _ _ Hok Hc Hidx Hadd) as Hidx'.
    apply addBlock_inv in Hadd as (_ & Hnone & -> & Hok' & Hfind & _); try done.
    assert (Hself : findBlock ch' (BlockHash block) = Some (stored (new_block ch block isRoot)))
      by (by rewrite Hfind, decide_True).
    split_and!; try done.
    + intros h Hh. by rewrite Hfind, decide_False.
    + apply elem_of_blocks_by_height. eexists. split; [by apply (Hidx' _ _ Hself)|done].
    + intros c cb Hcb Hp Hh. simpl. apply elem_of_waiting; [by apply link_parent_ok|].
      exists (adopt block isRoot c cb). rewrite (link_parent_index _ _ _ _), link_parent_find, Hcb by done.
      split_and!; [rewrite <- Hh; by apply Hidx|done|unfold EBParent; by rewrite adopt_block].
  - unfold addBlock in Hadd. destruct (String.eqb_spec (ChainID (Header block)) (CChainID ch)); [|by left].
    right. cbn [negb] in Hadd. destruct (findBlock ch (BlockHash block)); [eauto|done].
  - unfold addBlock in Hadd. by repeat case_match.
Qed.

Lemma addBlock_spec_witness :
  exists eb ch', @addBlock demo_crypto _ _ no_eth no_chain demo_b1 false = Err "ChainID mismatch" /\
    @addBlock demo_crypto _ _ no_eth (mkChain (∅ : gmap Key Value) "tsub360777" 0) demo_b1 false = Ok (eb, ch') /\
    Status eb = BlockStatusPending.
Proof.
  pose (chE := mkChain (∅ : gmap Key Value) "tsub360777" 0).
  assert (Hinv : @chain_inv demo_crypto _ _ chE) by (split; [|split; [|split]]; done).
  pose proof (@addBlock_spec demo_crypto _ _ no_eth chE demo_b1 false Hinv (or_introl eq_refl)) as Hspec.
  exists (added_block (@addBlock demo_crypto _ _ no_eth chE demo_b1 false)),
    (added (@addBlock demo_crypto _ _ no_eth chE demo_b1 false)).
  split; [vm_compute; reflexivity|].
  split; [apply added_ok; vm_compute; reflexivity|].
  revert Hspec. destruct (addBlock _ _ _ _) as [[eb ch']|e|e]; simpl.
  - intros (_ & Hst & _). exact Hst.
  - reflexivity.
  - intros [].
Defined.

(** C30 (finalization). With fuel above the number of stored blocks that are
    not finalized, [FinalizePreviousBlocks] ends; it never changes a block
    except by turning a status that is not finalized into a finalized one; and
    when it returns no error, the block is finalized if it is stored, and the
    set of finalized blocks stays closed under stored parents. *)
Theorem finalize_spec `{BlockCrypto} {S} `{!Store S} CalcEthTxHash (ch : Chain S) h hs fuel :
  blocks_ok ch -> finalized_closed ch ->
  (forall x b, findBlock ch x = Some b -> x ∈ hs) -> (unfinalized ch hs < fuel)%nat ->
  exists ch' err, FinalizePreviousBlocks CalcEthTxHash fuel ch h = Some (ch', err) /\
    only_finalizes ch ch' /\
    (err = None -> finalized_closed ch' /\
       (h <> 0 -> forall b, findBlock ch' h = Some b -> IsFinalized (Status b) = true)) /\
    (err <> None -> exists x b, findBlock ch x = Some b /\ Status b = BlockStatusDisposed).
Proof.
  intros Hok Hcl Hall Hf. unfold FinalizePreviousBlocks.
  destruct (finalize_loop_terminates CalcEthTxHash fuel ch h BlockStatusDirectlyFinalized hs
              Hok eq_refl Hall Hf) as [[ch' err] Hrun].
  exists ch', err. split; [done|].
  destruct (finalize_loop_spec _ _ _ _ BlockStatusDirectlyFinalized _ _ Hok eq_refl Hrun)
    as (_ & Honly & Hfin & Hclosed).
  split; [done|]. split.
  - intros He. split; [|by apply Hfin]. apply Hclosed; [done|].
    intros h1 b1 pb H1 H2 H3 _ H4. by apply (Hcl h1 b1 pb).
  - intros He. by eapply finalize_loop_error; [..|exact Hrun|].
Qed.

Lemma finalize_spec_witness :
  exists ch' err, @FinalizePreviousBlocks demo_crypto _ _ no_eth 4 demo (demo_hash 2) = Some (ch', err) /\
    only_finalizes demo ch'.
Proof.
  destruct (@finalize_spec demo_crypto _ _ no_eth demo (demo_hash 2) (stored_hashes demo) 4)
    as (ch' & err & Hr & Ho & _).
  - apply (@check_blocks_ok demo_crypto). vm_compute. reflexivity.
  - apply check_closed. vm_compute. reflexivity.
  - exact (find_in_keys demo).
  - apply Nat.ltb_lt. vm_compute. reflexivity.
  - exists ch', err. split; [exact Hr|exact Ho].
Defined.

(** (transaction lookup). After a block that is stored under its hash was
    indexed with the force flag, looking up the hash of any of its
    transactions returns a transaction of that block with that hash, or one
    whose Ethereum hash collides with it; no lookup of such a hash panics. *)
Theorem tx_index_lookup `{BlockCrypto} {S} `{!Store S} CalcEthTxHash (ch : Chain S) eb tx :
  findBlock ch (EBHash eb) = Some (stored eb) -> tx ∈ Txs (EBlock eb) ->
  exists tx', FindTxByHash (AddTxsToIndex CalcEthTxHash ch eb true) (Keccak256Hash tx) =
      Ok (Some (tx', stored eb)) /\
    tx' ∈ Txs (EBlock eb) /\
    (Keccak256Hash tx' = Keccak256Hash tx \/ CalcEthTxHash eb tx' = Ok (Keccak256Hash tx)).
Proof.
  intros Hfind Htx.
  destruct (add_txs_loop_entries CalcEthTxHash ch eb 0 (Txs (EBlock eb)) (Keccak256Hash tx))
    as (e & He & Hblock & tx' & Hi & Hh); [done|right; by apply list_elem_of_fmap_2|].
  exists tx'. unfold FindTxByHash. unfold AddTxsToIndex at 1. rewrite He, Hblock.
  rewrite (same_blocks_txs CalcEthTxHash ch eb true), Hfind. cbn [stored EBlock Txs]. rewrite Hi.
  split_and!; [done|by eapply list_elem_of_lookup_2|done].
Qed.

Lemma tx_index_lookup_witness :
  exists tx', FindTxByHash (@AddTxsToIndex demo_crypto _ _ no_eth
      (@saveBlock demo_crypto _ _ no_chain (mkExtendedBlock demo_b1 [] BlockStatusValid false))
      (mkExtendedBlock demo_b1 [] BlockStatusValid false) true) (toy_digest 1 "tx2") =
    Ok (Some (tx', mkExtendedBlock demo_b1 [] BlockStatusValid false)) /\ tx' = "tx2".
Proof.
  destruct (@tx_index_lookup demo_crypto _ _ no_eth
      (@saveBlock demo_crypto _ _ no_chain (mkExtendedBlock demo_b1 [] BlockStatusValid false))
      (mkExtendedBlock demo_b1 [] BlockStatusValid false) "tx2") as (tx' & Hf & Hin & _).
  - rewrite findBlock_saveBlock. by rewrite decide_True.
  - apply (bool_decide_unpack _). vm_compute. exact I.
  - exists tx'. split; [exact Hf|]. vm_compute in Hf. congruence.
Defined.

(** (receipts). [AddTxReceipt] panics exactly on a missing block; otherwise
    the receipt and the balance changes are read back under the block, the
    receipt is also the answer for any block without an entry of its own, and
    blocks and indices are untouched. *)
Theorem receipt_roundtrip `{BlockCrypto} {S} `{!Store S} (ch : Chain S) block rawTx logs changes
    evmRet addr gas evmErr :
  match AddTxReceipt ch block rawTx logs changes evmRet addr gas evmErr, block with
  | Panic _, None => True
  | Ok ch', Some b =>
      let txHash := Keccak256Hash rawTx in
      let r := mkTxReceiptEntry txHash logs evmRet addr gas (default "" evmErr) in
      FindTxReceiptByHash ch' (BlockHash b) txHash = Some r /\
      FindTxBalanceChangesByHash ch' (BlockHash b) txHash =
        Some (mkTxBalanceChangesEntry txHash changes evmRet addr gas (default "" evmErr)) /\
      (forall b2, b2 <> BlockHash b -> FindTxReceiptByHash ch' b2 txHash =
         match Get (store ch) (KReceiptV2 b2 txHash) with
         | Some (VReceipt r2) => Some r2 | Some _ => None | None => Some r end) /\
      (forall b2 h, h <> txHash -> FindTxReceiptByHash ch' b2 h = FindTxReceiptByHash ch b2 h) /\
      same_blocks ch ch' /\ same_index ch ch'
  | _, _ => False
  end.
Proof.
  destruct block as [b|]; [|done]. cbn [AddTxReceipt].
  unfold FindTxReceiptByHash, FindTxBalanceChangesByHash, same_blocks, same_index, findBlock,
    height_index. cbn [store with_store].
  split_and!; intros; rewrite ?Get_Put; repeat (case_decide; simplify_eq; try done);
    by destruct evmErr.
Qed.

(** (descendants). [IsDescendant] holds exactly when fewer than
    [maxDistance] parent links lead from the descendant to the ascendant. *)
Theorem IsDescendant_spec `{BlockCrypto} {S} `{!Store S} (ch : Chain S) a d :
  IsDescendant ch a d = true <-> exists k, (k < maxDistance)%nat /\ nth_ancestor ch k d = Some a.
Proof. apply ancestor_loop_spec. Qed.
