(* ===== verification/ConsensusState.v ===== *)
(** * The consensus state (src/consensus/state.go)

    [State] keeps the highest committed and the last finalized block, the
    epoch, the last vote and the last proposal, persists a summary of them
    under one database key, and keeps the epoch votes under another.  Every
    setter writes the summary; [Load] reads it back when the node restarts. *)

From stdpp Require Import gmap sorting.
From stdpp Require Import base list numbers strings.
From S2P Require Import Prelude Vote Validator Block Chain.
Local Open Scope string_scope.
Local Open Scope list_scope.
Local Open Scope Z_scope.

(** [Proposal] of src/core/vote.go. *)
Record Proposal := mkProposal {
  PBlock : option Block.Block;
  ProposerID : Address;
  PVotes : option VoteSet
}.

Definition zero_proposal : Proposal := mkProposal None 0 None.
Definition zero_vote : Vote := mkVote 0 0 0 0 0 None.

(** The last inter-chain event is a field nobody reads or writes; it is kept
    as its encoding, [None] being the zero value. *)
Record StateStub := mkStateStub {
  SRoot : Hash;
  SHighestCCBlock : Hash;
  SLastFinalizedBlock : Hash;
  SLastProposal : Proposal;
  SLastVote : Vote;
  SLastInterChainMessageEvent : option Bytes;
  SEpoch : uint64
}.

Definition zero_stub : StateStub := mkStateStub 0 0 0 zero_proposal zero_vote None 0.

(** The two entries of the database: [DBStateStubKey] and [DBEpochVotesKey]. *)
Record StateDB := mkStateDB {
  db_stub : option StateStub;
  db_epoch_votes : option VoteSet
}.

Record State (S : Type) := mkState {
  db : StateDB;
  chain : Chain S;
  highestCCBlock : Hash;
  lastFinalizedBlock : Hash;
  LastProposal : Proposal;
  LastVote : Vote;
  LastInterChainMessageEvent : option Bytes;
  epoch : uint64
}.
Arguments mkState {S}.
Arguments db {S}.
Arguments chain {S}.
Arguments highestCCBlock {S}.
Arguments lastFinalizedBlock {S}.
Arguments LastProposal {S}.
Arguments LastVote {S}.
Arguments LastInterChainMessageEvent {S}.
Arguments epoch {S}.

Section StateOps.
Context `{BlockCrypto} {S : Type} `{!Store S}.
Implicit Types (s t : State S).

Definition with_db s (d : StateDB) : State S :=
  mkState d (chain s) (highestCCBlock s) (lastFinalizedBlock s) (LastProposal s) (LastVote s)
    (LastInterChainMessageEvent s) (epoch s).
Definition with_chain s (ch : Chain S) : State S :=
  mkState (db s) ch (highestCCBlock s) (lastFinalizedBlock s) (LastProposal s) (LastVote s)
    (LastInterChainMessageEvent s) (epoch s).
Definition with_proposal s (p : Proposal) : State S :=
  mkState (db s) (chain s) (highestCCBlock s) (lastFinalizedBlock s) p (LastVote s)
    (LastInterChainMessageEvent s) (epoch s).

(** [chain.Root().Hash()]; a missing root is a nil dereference. *)
Definition root_hash (ch : Chain S) : outcome Hash :=
  match Root ch with
  | Some b => Ok (EBHash b)
  | None => Panic "nil pointer dereference"
  end.

(** The summary leaves the inter-chain event at its zero value. *)
Definition getSummary s : outcome StateStub :=
  r ← root_hash (chain s);
  Ok (mkStateStub r (highestCCBlock s) (lastFinalizedBlock s) (LastProposal s) (LastVote s)
        None (epoch s)).

Definition commit s : outcome (State S) :=
  stub ← getSummary s;
  Ok (with_db s (mkStateDB (Some stub) (db_epoch_votes (db s)))).

(** [Load]: a missing entry leaves the zero summary, which is on another root. *)
Definition Load s : outcome (State S) :=
  let stub := default zero_stub (db_stub (db s)) in
  r ← root_hash (chain s);
  if negb (Z.eqb (SRoot stub) r) then Ok s
  else Ok (mkState (db s) (chain s) (SHighestCCBlock stub) (SLastFinalizedBlock stub)
             (SLastProposal stub) (SLastVote stub) (LastInterChainMessageEvent s) (SEpoch stub)).

Definition NewState (d : StateDB) (ch : Chain S) : outcome (State S) :=
  match Root ch with
  | None => Panic "nil pointer dereference"
  | Some b =>
      Load (mkState d ch (EBHash b) (EBHash b) zero_proposal zero_vote None (BEpoch (Header (EBlock b))))
  end.

Definition SetEpoch s (e : uint64) : outcome (State S) :=
  commit (mkState (db s) (chain s) (highestCCBlock s) (lastFinalizedBlock s) (LastProposal s)
            (LastVote s) (LastInterChainMessageEvent s) e).
Definition SetLastProposal s (p : Proposal) : outcome (State S) := commit (with_proposal s p).
Definition SetLastVote s (v : Vote) : outcome (State S) :=
  commit (mkState (db s) (chain s) (highestCCBlock s) (lastFinalizedBlock s) (LastProposal s) v
            (LastInterChainMessageEvent s) (epoch s)).
Definition SetHighestCCBlock s (b : ExtendedBlock) : outcome (State S) :=
  commit (mkState (db s) (chain s) (EBHash b) (lastFinalizedBlock s) (LastProposal s) (LastVote s)
            (LastInterChainMessageEvent s) (epoch s)).
Definition SetLastFinalizedBlock s (b : ExtendedBlock) : outcome (State S) :=
  commit (mkState (db s) (chain s) (highestCCBlock s) (EBHash b) (LastProposal s) (LastVote s)
            (LastInterChainMessageEvent s) (epoch s)).

(** [log.Fatal] ends the process. *)
Definition GetHighestCCBlock s : outcome ExtendedBlock :=
  match findBlock (chain s) (highestCCBlock s) with
  | Some b => Ok b
  | None => Panic "Failed to load highest CC block"
  end.
Definition GetLastFinalizedBlock s : outcome ExtendedBlock :=
  match findBlock (chain s) (lastFinalizedBlock s) with
  | Some b => Ok b
  | None => Panic "Failed to load last finalized block"
  end.

(** [GetEpochVotes]: [None] is the error of a missing entry. *)
Definition GetEpochVotes s : option VoteSet := db_epoch_votes (db s).

(** The set the new vote is added to, and that [UniqueVoter] ranges over. *)
Definition epoch_votes_with s (v : Vote) : VoteSet :=
  AddVote (default NewVoteSet (GetEpochVotes s)) v.

(** [AddEpochVote]; [order] is the iteration of [UniqueVoter] over that set. *)
Definition AddEpochVote s (order : list Vote) : State S :=
  with_db s (mkStateDB (db_stub (db s)) (Some (UniqueVoter order))).

Definition State_AddVote s (v : Vote) (order : list Vote) : State S :=
  let s' := AddEpochVote s order in
  with_chain s' (AddVoteToIndex (chain s') v).

(** ** Recovery after a restart *)

(** The fields the node acts on. *)
Definition same_fields s (t : State S) : Prop :=
  highestCCBlock s = highestCCBlock t /\ lastFinalizedBlock s = lastFinalizedBlock t /\
  LastProposal s = LastProposal t /\ LastVote s = LastVote t /\ epoch s = epoch t.

(** One setter. *)
Inductive setter (s t : State S) : Prop :=
| set_epoch e : SetEpoch s e = Ok t -> setter s t
| set_proposal p : SetLastProposal s p = Ok t -> setter s t
| set_vote v : SetLastVote s v = Ok t -> setter s t
| set_hcc b : SetHighestCCBlock s b = Ok t -> setter s t
| set_lfb b : SetLastFinalizedBlock s b = Ok t -> setter s t.

Lemma commit_inv s t : commit s = Ok t ->
  exists r, root_hash (chain s) = Ok r /\
    t = with_db s (mkStateDB (Some (mkStateStub r (highestCCBlock s) (lastFinalizedBlock s)
          (LastProposal s) (LastVote s) None (epoch s))) (db_epoch_votes (db s))).
Proof.
  unfold commit, getSummary. destruct (root_hash (chain s)) as [r| |]; cbn; [|done|done].
  intros [= <-]. eauto.
Qed.

Lemma setter_commit s t : setter s t -> exists s', commit s' = Ok t /\ chain s' = chain s /\
  db_epoch_votes (db s') = db_epoch_votes (db s).
Proof. intros []; eexists; (split; [eassumption|done]). Qed.

Lemma reload_committed s t : commit s = Ok t ->
  exists t', NewState (db t) (chain t) = Ok t' /\ same_fields t' t /\ db t' = db t /\ chain t' = chain t.
Proof.
  intros (r & Hr & ->)%commit_inv. unfold NewState. cbn [chain with_db db].
  pose proof Hr as Hr'. unfold root_hash in Hr'. destruct (Root (chain s)) as [b|]; [|done].
  unfold Load. cbn [db db_stub default chain]. rewrite Hr. cbn [mbind outcome_bind SRoot id].
  rewrite Z.eqb_refl. cbn [negb]. eexists. split; [reflexivity|]. by split_and!.
Qed.

End StateOps.

(** ** Properties *)

Section Demo.
Definition demo_state0 : State (gmap Key Value) :=
  mkState (mkStateDB None None) demo (demo_hash 0) (demo_hash 0) zero_proposal zero_vote None 0.
Definition voted (v : Vote) : State (gmap Key Value) :=
  match @SetLastVote demo_crypto _ _ demo_state0 v with Ok s => s | _ => demo_state0 end.
End Demo.

(** (restart). After any setter, a node that restarts from the database and
    the chain has the highest committed block, the last finalized block, the
    last vote, the last proposal and the epoch it had, and the epoch votes;
    when the summary is of another root it is ignored, and the node starts at
    the root of the chain. *)
Theorem state_restart `{BlockCrypto} {S} `{!Store S} (s t : State S) :
  setter s t ->
  (exists t', NewState (db t) (chain t) = Ok t' /\ same_fields t' t /\ db t' = db t) /\
  GetEpochVotes t = GetEpochVotes s /\
  (forall ch b, Root ch = Some b -> root_hash (chain t) <> Ok (EBHash b) ->
     NewState (db t) ch =
       Ok (mkState (db t) ch (EBHash b) (EBHash b) zero_proposal zero_vote None
             (BEpoch (Header (EBlock b))))).
Proof.
  intros (s' & Hc & _ & Hv)%setter_commit. split_and!.
  - destruct (reload_committed _ _ Hc) as (t' & ? & ? & ? & _). eauto.
  - apply commit_inv in Hc as (r & _ & ->). exact Hv.
  - intros ch b Hroot Hne. apply commit_inv in Hc as (r & Hr & ->). cbn [chain with_db] in Hne.
    unfold NewState. rewrite Hroot. unfold Load, root_hash. cbn [chain db with_db].
    rewrite Hroot. cbn. destruct (Z.eqb_spec r (EBHash b)) as [->|]; [by rewrite Hr in Hne|done].
Qed.

Lemma state_restart_witness :
  exists t', @NewState demo_crypto _ _ (db (voted vote_a)) (chain (voted vote_a)) = Ok t' /\
    LastVote t' = vote_a.
Proof.
  assert (Hset : @SetLastVote demo_crypto _ _ demo_state0 vote_a = Ok (voted vote_a)).
  { unfold voted. assert (Hok : is_ok (@SetLastVote demo_crypto _ _ demo_state0 vote_a) = true)
      by (vm_compute; reflexivity).
    by destruct (SetLastVote _ _). }
  destruct (@state_restart demo_crypto _ _ demo_state0 (voted vote_a)) as ((t' & Hn & Hf & _) & _ & _).
  - exact (set_vote _ _ _ Hset).
  - exists t'. split; [exact Hn|]. destruct Hf as (_ & _ & _ & Hv & _). rewrite Hv.
    apply commit_inv in Hset as (r & _ & ->). reflexivity.
Defined.
