(* ===== verification/Engine.v ===== *)
(** * The consensus engine (src/consensus/engine.go)

    The handlers of [ConsensusEngine] as functions of a state and error monad
    over the engine: the consensus state with its chain and database, the
    flags of the epoch, the messages sent to the peers and queued for the
    engine itself, and the blocks published as finalized.  The ledger and the
    validator manager are the interfaces of src/core/ledger.go and
    src/core/consensus.go; together with the main chain witness, the clock and
    the iteration order of Go maps they form the environment. *)

From stdpp Require Import gmap sorting relations.
From stdpp Require Import base list numbers strings.
From S2P Require Import Prelude Vote Validator Block Chain ConsensusState.
Local Open Scope string_scope.
Local Open Scope list_scope.
Local Open Scope Z_scope.

(** [result.Result] of theta: success with the [hasValidatorUpdate] entry of
    its info map if there is one, an error, or undecided. *)
Inductive Result :=
| ROk (hasValidatorUpdate : option bool)
| RError
| RUndecided.

Definition IsError (r : Result) : bool := match r with RError => true | _ => false end.
Definition IsUndecided (r : Result) : bool := match r with RUndecided => true | _ => false end.

(** The environment: the iteration of a Go map, the clock, the main chain
    height seen by the witness, the ledger and the validator manager.  All the
    ledger writes in the chain are receipts. *)
Class Environment `{BlockCrypto} (S : Type) `{!Store S} (E : Type) := {
  iterate : E -> VoteSet -> list Vote * E;
  Now : E -> Z * E;
  GetMainchainBlockHeight : E -> option Z * E;
  ResetState : E -> Chain S -> Block.Block -> outcome (Result * E);
  ApplyBlockTxs : E -> Chain S -> Block.Block -> outcome (Result * E * Chain S);
  ProposeBlockTxs : E -> Chain S -> Block.Block -> bool ->
    outcome (Result * (Hash * list Bytes) * E * Chain S);
  FinalizeState : E -> uint64 -> Hash -> E;
  GetValidatorSet : E -> Chain S -> Hash -> outcome ValidatorSet;
  GetNextValidatorSet : E -> Chain S -> Hash -> outcome ValidatorSet;
  GetNextProposer : E -> Chain S -> Hash -> uint64 -> outcome Validator;
  iterate_ok e s : iterates s (iterate e s).1;
  ApplyBlockTxs_receipts e ch b r e' ch' :
    ApplyBlockTxs e ch b = Ok (r, e', ch') -> rtc receipt_step ch ch';
  ProposeBlockTxs_receipts e ch b d r x e' ch' :
    ProposeBlockTxs e ch b d = Ok (r, x, e', ch') -> rtc receipt_step ch ch'
}.

Inductive Message :=
| MVote (v : Vote)
| MBlock (b : Block.Block).

Inductive Packet :=
| PacketVote (v : Vote)
| PacketProposal (p : Proposal).

Record Engine (S E : Type) := mkEngine {
  state : State S;
  env : E;
  hasSynced : bool;
  stopped : bool;
  voteTimerReady : bool;
  blockProcessed : bool;
  sent : list Packet;
  incoming : list Message;
  finalizedBlocks : list Block.Block
}.
Arguments mkEngine {S E}.
Arguments state {S E}.
Arguments env {S E}.
Arguments hasSynced {S E}.
Arguments stopped {S E}.
Arguments voteTimerReady {S E}.
Arguments blockProcessed {S E}.
Arguments sent {S E}.
Arguments incoming {S E}.
Arguments finalizedBlocks {S E}.

(** ** The monad of the handlers *)

Definition M (S E A : Type) : Type := Engine S E -> outcome (A * Engine S E).

#[export] Instance M_ret S E : MRet (M S E) := fun A a e => Ok (a, e).
#[export] Instance M_bind S E : MBind (M S E) := fun A B f m e =>
  match m e with
  | Ok (a, e') => f a e'
  | Err msg => Err msg
  | Panic msg => Panic msg
  end.

Section Monad.
Context {S E : Type}.

Definition ret {A} (a : A) : M S E A := fun e => Ok (a, e).
Definition panic {A} (msg : string) : M S E A := fun _ => Panic msg.
Definition gets {A} (f : Engine S E -> A) : M S E A := fun e => Ok (f e, e).
Definition modify (f : Engine S E -> Engine S E) : M S E unit := fun e => Ok (tt, f e).
Definition lift {A} (o : outcome A) : M S E A := fun e =>
  match o with Ok a => Ok (a, e) | Err msg => Err msg | Panic msg => Panic msg end.

Definition with_state (st : State S) (e : Engine S E) : Engine S E :=
  mkEngine st (env e) (hasSynced e) (stopped e) (voteTimerReady e) (blockProcessed e) (sent e)
    (incoming e) (finalizedBlocks e).
Definition with_env (x : E) (e : Engine S E) : Engine S E :=
  mkEngine (state e) x (hasSynced e) (stopped e) (voteTimerReady e) (blockProcessed e) (sent e)
    (incoming e) (finalizedBlocks e).
Definition with_synced (b : bool) (e : Engine S E) : Engine S E :=
  mkEngine (state e) (env e) b (stopped e) (voteTimerReady e) (blockProcessed e) (sent e)
    (incoming e) (finalizedBlocks e).
Definition with_flags (timer processed : bool) (e : Engine S E) : Engine S E :=
  mkEngine (state e) (env e) (hasSynced e) (stopped e) timer processed (sent e)
    (incoming e) (finalizedBlocks e).
Definition with_sent (p : Packet) (e : Engine S E) : Engine S E :=
  mkEngine (state e) (env e) (hasSynced e) (stopped e) (voteTimerReady e) (blockProcessed e)
    (sent e ++ [p]) (incoming e) (finalizedBlocks e).
Definition with_incoming (l : list Message) (e : Engine S E) : Engine S E :=
  mkEngine (state e) (env e) (hasSynced e) (stopped e) (voteTimerReady e) (blockProcessed e)
    (sent e) l (finalizedBlocks e).
Definition with_finalized (l : list Block.Block) (e : Engine S E) : Engine S E :=
  mkEngine (state e) (env e) (hasSynced e) (stopped e) (voteTimerReady e) (blockProcessed e)
    (sent e) (incoming e) l.
Definition stop (e : Engine S E) : Engine S E :=
  mkEngine (state e) (env e) (hasSynced e) true (voteTimerReady e) (blockProcessed e)
    (sent e) (incoming e) (finalizedBlocks e).

(** Running an operation of the consensus state, or of its chain. *)
Definition on_state (f : State S -> outcome (State S)) : M S E unit := fun e =>
  match f (state e) with
  | Ok st => Ok (tt, with_state st e)
  | Err msg => Err msg
  | Panic msg => Panic msg
  end.
Definition on_chain {A} (f : Chain S -> outcome (A * Chain S)) : M S E A := fun e =>
  match f (chain (state e)) with
  | Ok (a, ch) => Ok (a, with_state (with_chain (state e) ch) e)
  | Err msg => Err msg
  | Panic msg => Panic msg
  end.

Fixpoint for_each {A} (f : A -> M S E unit) (l : list A) : M S E unit :=
  match l with
  | [] => ret tt
  | x :: l' => _ ← f x; for_each f l'
  end.

(** Dereferencing a pointer. *)
Definition deref {A} (p : option A) : M S E A :=
  match p with Some a => ret a | None => panic "nil pointer dereference" end.
End Monad.

(** [HardcodeBlockHashes] of src/core/hardcode_block_hashes.go: empty. *)
Definition HardcodeBlockHashes : list (uint64 * Hash) := [].

Fixpoint hardcoded (l : list (uint64 * Hash)) (height : uint64) : option Hash :=
  match l with
  | [] => None
  | (n, h) :: l' => if Z.eqb n height then Some h else hardcoded l' height
  end.

(** src/common/consts.go and utils.go. *)
Definition NumMainchainBlocksPerDynasty : Z := 10000.
Definition CalculateDynasty (mainchainHeight : Z) : Z := mainchainHeight / NumMainchainBlocksPerDynasty.

(** ** The handlers *)

(** The node: its address and signing key, the hexadecimal form of addresses,
    the hardcoded hashes, the capacity of the channel of finalized blocks, and
    the bound on the loops over the block tree. *)
Record Config := mkConfig {
  self : Address;
  priv : Bytes -> Signature;
  Hex : Address -> string;
  HexToAddress : string -> Address;
  CalcEthTxHash : ExtendedBlock -> Bytes -> outcome Hash;
  hardcode : list (uint64 * Hash);
  queueSize : nat;
  fuel : nat
}.

Section EngineOps.
Context `{BlockCrypto} `{VoteCrypto} {S : Type} `{!Store S} {E : Type} `{!Environment S E}.
Context (cfg : Config).
Implicit Types (e : Engine S E).

Definition cur_chain : M S E (Chain S) := gets (fun e => chain (state e)).

(** [for ... range] over the map of a vote set. *)
Definition range_votes (s : VoteSet) : M S E (list Vote) := fun e =>
  let (l, x) := iterate (env e) s in Ok (l, with_env x e).

Definition FindBlock (h : Hash) : M S E (option ExtendedBlock) :=
  gets (fun e => findBlock (chain (state e)) h).

Definition HighestCCBlock : M S E ExtendedBlock :=
  fun e => lift (GetHighestCCBlock (state e)) e.
Definition LastFinalizedBlock : M S E ExtendedBlock :=
  fun e => lift (GetLastFinalizedBlock (state e)) e.
Definition GetEpoch : M S E uint64 := gets (fun e => epoch (state e)).

Definition ValidatorSetOf (h : Hash) : M S E ValidatorSet :=
  fun e => lift (GetValidatorSet (env e) (chain (state e)) h) e.
Definition NextValidatorSetOf (h : Hash) : M S E ValidatorSet :=
  fun e => lift (GetNextValidatorSet (env e) (chain (state e)) h) e.
Definition NextProposerOf (h : Hash) (ep : uint64) : M S E Validator :=
  fun e => lift (GetNextProposer (env e) (chain (state e)) h ep) e.

Definition reset_state (b : Block.Block) : M S E Result := fun e =>
  match ResetState (env e) (chain (state e)) b with
  | Ok (r, x) => Ok (r, with_env x e)
  | Err msg => Err msg
  | Panic msg => Panic msg
  end.
Definition apply_block_txs (b : Block.Block) : M S E Result := fun e =>
  match ApplyBlockTxs (env e) (chain (state e)) b with
  | Ok (r, x, ch) => Ok (r, with_state (with_chain (state e) ch) (with_env x e))
  | Err msg => Err msg
  | Panic msg => Panic msg
  end.
Definition propose_block_txs (b : Block.Block) (d : bool) : M S E (Result * (Hash * list Bytes)) :=
  fun e =>
  match ProposeBlockTxs (env e) (chain (state e)) b d with
  | Ok (r, x, env', ch) => Ok ((r, x), with_state (with_chain (state e) ch) (with_env env' e))
  | Err msg => Err msg
  | Panic msg => Panic msg
  end.
Definition main_chain_height : M S E (option Z) := fun e =>
  let (h, x) := GetMainchainBlockHeight (env e) in Ok (h, with_env x e).
Definition unix_now : M S E Z := fun e =>
  let (t, x) := Now (env e) in Ok (t, with_env x e).

Definition has_majority (vs : ValidatorSet) (votes : VoteSet) : M S E bool :=
  order ← range_votes votes; ret (HasMajority vs order).

Definition broadcastVote (v : Vote) : M S E unit := modify (with_sent (PacketVote v)).

(** A goroutine that runs [AddMessage]. *)
Definition spawn (m : Message) : M S E unit := modify (fun e => with_incoming (incoming e ++ [m]) e).

(** *** Synchronisation *)

Definition isSyncing (lastestFinalizedBlock : ExtendedBlock) (currentHeight : uint64) : M S E bool :=
  currentTime ← unix_now;
  ts ← deref (Timestamp (Header (EBlock lastestFinalizedBlock)));
  if ts <? currentTime - 30
  then ret (5 <? u64_sub currentHeight (EBHeight lastestFinalizedBlock))
  else ret false.

Definition max_vote_height (votes : list Vote) : uint64 :=
  foldl (fun m v => if m <? Height v then Height v else m) 0 votes.

Definition checkSyncStatus : M S E unit :=
  votes ← gets (fun e => GetEpochVotes (state e));
  match votes with
  | None => ret tt
  | Some s =>
      order ← range_votes s;
      let currentHeight := u64_sub (max_vote_height (Votes order)) 1 in
      lfb ← LastFinalizedBlock;
      b ← isSyncing lfb currentHeight;
      modify (with_synced (negb b))
  end.

(** *** The tip *)

(** The children of a block, in their order; a missing one is fatal. *)
Fixpoint load_children (ch : Chain S) (l : list Hash) : outcome (list ExtendedBlock) :=
  match l with
  | [] => Ok []
  | c :: l' =>
      match findBlock ch c with
      | None => Panic "Failed to find child block"
      | Some b => bs ← load_children ch l'; Ok (b :: bs)
      end
  end.

(** The depth-first search of [GetTip]; the head of the list is the top of
    the stack. *)
Fixpoint tip_loop (n : nat) (ch : Chain S) (leaf : bool) (stack : list ExtendedBlock)
    (candidate : ExtendedBlock) : outcome ExtendedBlock :=
  match stack with
  | [] => Ok candidate
  | curr :: rest =>
      match n with
      | O => Err "out of fuel"
      | Datatypes.S n' =>
          if negb (IsValid (Status curr)) then tip_loop n' ch leaf rest candidate
          else if negb leaf && HasValidatorUpdate curr then tip_loop n' ch leaf rest candidate
          else
            let candidate' := if EBHeight candidate <? EBHeight curr then curr else candidate in
            kids ← load_children ch (Children curr);
            tip_loop n' ch leaf (rev kids ++ rest) candidate'
      end
  end.

Definition GetTip (includePendingBlockingLeaf : bool) : M S E ExtendedBlock :=
  hcc ← HighestCCBlock;
  ch ← cur_chain;
  lift (tip_loop (fuel cfg) ch includePendingBlockingLeaf [hcc] hcc).

Definition GetTipToVote : M S E ExtendedBlock := GetTip true.
Definition GetTipToExtend : M S E ExtendedBlock := GetTip false.

(** *** Proposers *)

Definition shouldProposeByID (previousBlock : Hash) (ep : uint64) (id : string) : M S E bool :=
  if Z.eqb ep 0 then ret false
  else
    proposer ← NextProposerOf previousBlock ep;
    ret (String.eqb (Hex cfg (VAddress proposer)) id).

Definition shouldPropose (tip : ExtendedBlock) (ep : uint64) : M S E bool :=
  if ep <=? BEpoch (Header (EBlock tip)) then ret false
  else shouldProposeByID (EBHash tip) ep (Hex cfg (self cfg)).

(** *** Block validation; [None] is [result.OK]. *)

Definition block_hcc (b : Block.Block) : CommitCertificate := HCC (Header b).

(** The certificate of a block whose HCC is not finalized. *)
Definition hcc_valid (block : Block.Block) : M S E bool :=
  vs ← ValidatorSetOf (CCBlockHash (block_hcc block));
  order ← match CCVotes (block_hcc block) with
          | Some votes => range_votes votes
          | None => ret []
          end;
  ret (CC_IsValid (block_hcc block) order vs).

(** The certificate checks of [validateBlock]. *)
Definition validate_hcc (block : Block.Block) : M S E (option string) :=
  let hcc := CCBlockHash (block_hcc block) in
  ch ← cur_chain;
  if negb (IsDescendant ch hcc (BlockHash block)) then ret (Some "HCC is not ancestor")
  else
    hccBlock ← FindBlock hcc;
    match hccBlock with
    | None => ret (Some "HCC block not found")
    | Some b =>
        if IsFinalized (Status b) then ret None
        else
          ok ← hcc_valid block;
          ret (if (ok : bool) then None else Some "Invalid HCC")
    end.

(** Two direct confirmations after a validator change. *)
Definition validate_confirmations (block : Block.Block) (parent : ExtendedBlock)
    : M S E (option string) :=
  let direct := Z.eqb (CCBlockHash (block_hcc block)) (Parent (Header block)) in
  if HasValidatorUpdate parent && negb direct
  then ret (Some "HCC incorrect: parent has validator changes")
  else
    if IsEmpty (EBParent parent) then ret None
    else
      grandParent ← FindBlock (EBParent parent);
      match grandParent with
      | None => ret (Some "Grandparent not found")
      | Some g => if HasValidatorUpdate g && negb direct
                  then ret (Some "HCC incorrect: grandparent has validator changes")
                  else ret None
      end.

(** Running a check after another one that succeeded. *)
Definition and_then (m k : M S E (option string)) : M S E (option string) :=
  r ← m; match r with None => k | Some msg => ret (Some msg) end.

Definition validate_parent (block : Block.Block) (parent : ExtendedBlock) : M S E (option string) :=
  let h := Header block in
  let ph := Header (EBlock parent) in
  lfb ← LastFinalizedBlock;
  if BHeight h <=? EBHeight lfb then ret (Some "Block is older than last finalized block")
  else if negb (Z.eqb (u64_add (BHeight ph) 1) (BHeight h)) then ret (Some "Block height is incorrect")
  else
    pts ← deref (Timestamp ph);
    ts ← deref (Timestamp h);
    if ts <? pts + 1 then ret (Some "Block timestamp needs to increase monotonically")
    else if BEpoch h <=? BEpoch ph then ret (Some "Block epoch must be greater than parent epoch")
    else if negb (IsValid (Status parent)) then
      if IsPending (Status parent) then panic "Parent block is pending"
      else ret (Some "Parent block is invalid")
    else ret None.

Definition validate_proposer (block : Block.Block) : M S E (option string) :=
  let h := Header block in
  ok ← shouldProposeByID (Parent h) (BEpoch h) (Hex cfg (Proposer h));
  ret (if (ok : bool) then None else Some "Invalid proposer").

Definition validateBlock (block : Block.Block) (parent : ExtendedBlock) : M S E (option string) :=
  and_then (validate_parent block parent)
    (and_then (validate_hcc block)
       (and_then (validate_confirmations block parent) (validate_proposer block))).

(** *** Commit and finalization *)

Definition finalize_previous (h : Hash) : M S E (option string) := fun e =>
  match FinalizePreviousBlocks (CalcEthTxHash cfg) (fuel cfg) (chain (state e)) h with
  | None => Err "out of fuel"
  | Some (ch, err) => Ok (err, with_state (with_chain (state e) ch) e)
  end.

(** The send on [finalizedBlocks] is dropped when the channel is full. *)
Definition publish (b : Block.Block) : M S E unit :=
  modify (fun e => if Nat.ltb (length (finalizedBlocks e)) (queueSize cfg)
                   then with_finalized (finalizedBlocks e ++ [b]) e else e).

Definition finalizeBlock (block : ExtendedBlock) : M S E (option string) :=
  isStopped ← gets stopped;
  if (isStopped : bool) then ret None
  else
    lfb ← LastFinalizedBlock;
    if Z.eqb (EBHash block) (EBHash lfb) then ret None
    else
      _ ← on_state (fun s => SetLastFinalizedBlock s block);
      _ ← modify (fun e => with_env (FinalizeState (env e) (EBHeight block)
                                       (StateHash (Header (EBlock block)))) e);
      _ ← checkSyncStatus;
      err ← finalize_previous (EBHash block);
      match err with
      | Some msg => ret (Some msg)
      | None =>
          _ ← on_chain (fun ch => Ok (tt, AddTxsToIndex (CalcEthTxHash cfg) ch block true));
          _ ← publish (EBlock block);
          ret None
      end.

(** Updating the highest committed block. *)
Definition commit_cc (ccBlock : ExtendedBlock) : M S E unit :=
  _ ← on_state (fun s => SetHighestCCBlock s ccBlock);
  _ ← on_chain (fun ch => CommitBlock ch (EBHash ccBlock));
  ret tt.

Definition processCCBlock (ccBlock : ExtendedBlock) : M S E unit :=
  hcc ← HighestCCBlock;
  if EBHeight ccBlock <=? EBHeight hcc then ret tt
  else if Z.eqb (EBParent ccBlock) (CCBlockHash (block_hcc (EBlock ccBlock))) then
    parent ← FindBlock (EBParent ccBlock);
    match parent with
    | None => ret tt
    | Some p =>
        err ← finalizeBlock p;
        match err with
        | Some _ => ret tt
        | None => commit_cc ccBlock
        end
    end
  else commit_cc ccBlock.

Definition checkCC (h : Hash) : M S E unit :=
  if IsEmpty h then ret tt
  else
    found ← FindBlock h;
    match found with
    | None => ret tt
    | Some block =>
        if IsInvalid (Status block) then ret tt
        else if IsPending (Status block) then ret tt
        else if IsCommitted (Status block) || IsDirectlyFinalized (Status block) ||
                IsIndirectlyFinalized (Status block) then ret tt
        else if IsTrusted (Status block) then processCCBlock block
        else
          hcc ← HighestCCBlock;
          if EBHeight block <? EBHeight hcc then ret tt
          else
            votes ← gets (fun e => FindVotesByHash (chain (state e)) h);
            order ← range_votes votes;
            vs ← ValidatorSetOf h;
            majority ← has_majority vs (UniqueVoter order);
            if (majority : bool) then processCCBlock block else ret tt
    end.

(** *** Votes *)

Definition shouldVoteByID (id : Address) (block : Hash) : M S E bool :=
  vs ← ValidatorSetOf block;
  ret (is_ok (GetValidator vs id)).
Definition shouldVote (block : Hash) : M S E bool := shouldVoteByID (self cfg) block.

Definition createVote (block : Block.Block) : M S E Vote :=
  height ← main_chain_height;
  ep ← GetEpoch;
  ret (Sign (priv cfg)
         (mkVote (BlockHash block) (BHeight (Header block))
            (match height with Some h => wrap64 h | None => 0 end) ep (self cfg) None)).

(** Whether [vote] repeats the last vote instead of voting for the tip. *)
Definition should_repeat (tip : ExtendedBlock) : M S E bool :=
  lastVote ← gets (fun e => LastVote (state e));
  if negb (Z.eqb (Height lastVote) 0) && (EBHeight tip <=? Height lastVote) then ret true
  else
    hcc ← HighestCCBlock;
    ret (negb (Z.eqb (Height lastVote) 0) &&
         negb (Z.eqb (CCBlockHash (block_hcc (EBlock tip))) (EBHash hcc))).

(** The vote to cast; a new one is recorded as the last vote. *)
Definition choose_vote (tip : ExtendedBlock) : M S E Vote :=
  again ← should_repeat tip;
  if (again : bool) then
    lastVote ← gets (fun e => LastVote (state e));
    found ← FindBlock (Vote.Block lastVote);
    match found with
    | None => panic "key not found"
    | Some b => createVote (EBlock b)
    end
  else
    v ← createVote (EBlock tip);
    _ ← on_state (fun s => SetLastVote s v);
    ret v.

Definition vote : M S E unit :=
  tip ← GetTipToVote;
  should ← shouldVote (EBHash tip);
  if negb should then ret tt
  else
    v ← choose_vote tip;
    _ ← broadcastVote v;
    spawn (MVote v).

Definition validateVote (v : Vote) : bool := is_ok (Vote_Validate v).

(** Saving a vote in the epoch votes and in the vote index. *)
Definition save_vote (v : Vote) : M S E unit :=
  votes ← gets (fun e => epoch_votes_with (state e) v);
  order ← range_votes votes;
  on_state (fun s => Ok (State_AddVote s v order)).

(** The epoch votes that are not older than [v]. *)
Definition current_votes (v : Vote) (votes : list Vote) : VoteSet :=
  AddVotes NewVoteSet (filter (fun w => Epoch v <= Epoch w) votes).

(** Moving to the epoch after that of [v], with a majority for it. *)
Definition advance_epoch (v : Vote) (currentEpochVotes : VoteSet) : M S E unit :=
  let nextEpoch := u64_add (Epoch v) 1 in
  ep ← GetEpoch;
  _ ← (if u64_add ep 1 <? nextEpoch then
         order ← range_votes currentEpochVotes;
         for_each broadcastVote (Votes order)
       else ret tt);
  tip ← GetTipToExtend;
  _ ← NextProposerOf (EBHash tip) nextEpoch;
  _ ← on_state (fun s => SetEpoch s nextEpoch);
  checkSyncStatus.

Definition handleVote (v : Vote) : M S E bool :=
  if negb (validateVote v) then ret false
  else
    _ ← save_vote v;
    lfb ← LastFinalizedBlock;
    nextValidators ← NextValidatorSetOf (EBHash lfb);
    ep ← GetEpoch;
    if ep <=? Epoch v then
      all ← gets (fun e => GetEpochVotes (state e));
      match all with
      | None => panic "Failed to retrieve epoch votes"
      | Some allEpochVotes =>
          order ← range_votes allEpochVotes;
          let current := current_votes v (Votes order) in
          majority ← has_majority nextValidators current;
          if (majority : bool) then _ ← advance_epoch v current; ret true
          else ret false
      end
    else ret false.

(** *** Blocks *)

Definition mark_invalid (h : Hash) : M S E unit :=
  _ ← on_chain (fun ch => MarkBlockInvalid ch h); ret tt.

Definition find_parent (block : Block.Block) : M S E ExtendedBlock :=
  parent ← FindBlock (Parent (Header block));
  match parent with Some p => ret p | None => panic "Failed to find parent block" end.

(** Processing the certificate of a block before executing the block. *)
Definition handle_hcc (block : Block.Block) : M S E unit :=
  votes ← deref (CCVotes (block_hcc block));
  order ← range_votes votes;
  _ ← for_each (fun v => _ ← handleVote v; ret tt) (Votes order);
  hcc ← HighestCCBlock;
  if Z.eqb (EBHash hcc) (CCBlockHash (block_hcc block)) then ret tt
  else checkCC (CCBlockHash (block_hcc block)).

(** The rest of [handleNormalBlock] once the transactions are applied. *)
Definition accept_block (block : Block.Block) (hasValidatorUpdate : option bool) : M S E unit :=
  let h := BlockHash block in
  _ ← (match hasValidatorUpdate with
       | Some true => _ ← on_chain (fun ch => MarkBlockHasValidatorUpdate ch h); ret tt
       | _ => ret tt
       end);
  _ ← on_chain (fun ch => MarkBlockValid ch h);
  localEpoch ← GetEpoch;
  _ ← (if Z.eqb (BEpoch (Header block)) (u64_sub localEpoch 1) || Z.eqb (BEpoch (Header block)) localEpoch
       then
         _ ← modify (fun e => with_flags (voteTimerReady e) true e);
         ready ← gets voteTimerReady;
         if (ready : bool) then vote else ret tt
       else ret tt);
  checkCC h.

Definition handleNormalBlock (eb : ExtendedBlock) : M S E unit :=
  let block := EBlock eb in
  if negb (IsPending (Status eb)) then ret tt
  else
    parent ← find_parent block;
    err ← validateBlock block parent;
    match err with
    | Some _ => mark_invalid (BlockHash block)
    | None =>
        _ ← handle_hcc block;
        r1 ← reset_state (EBlock parent);
        if IsError r1 then mark_invalid (BlockHash block)
        else
          r2 ← apply_block_txs block;
          match r2 with
          | RError => mark_invalid (BlockHash block)
          | RUndecided => ret tt
          | ROk update => accept_block block update
          end
    end.

Definition handleHardcodeBlock (h : Hash) : M S E unit :=
  found ← FindBlock h;
  match found with
  | None => ret tt
  | Some b =>
      let eb := set_status b BlockStatusTrusted in
      _ ← on_chain (fun ch => Ok (tt, saveBlock ch eb));
      parent ← find_parent (EBlock eb);
      r1 ← reset_state (EBlock parent);
      if IsError r1 then ret tt
      else
        r2 ← apply_block_txs (EBlock eb);
        if IsError r2 || IsUndecided r2 then ret tt
        else on_state (fun s => SetHighestCCBlock s eb)
  end.

Definition handleBlock (block : Block.Block) : M S E unit :=
  found ← FindBlock (BlockHash block);
  match found with
  | None => panic "Failed to find block"
  | Some eb =>
      match hardcoded (hardcode cfg) (EBHeight eb) with
      | Some h => handleHardcodeBlock h
      | None => handleNormalBlock eb
      end
  end.

Definition processMessage (m : Message) : M S E bool :=
  match m with
  | MVote v =>
      endEpoch ← handleVote v;
      _ ← checkCC (Vote.Block v);
      ret (endEpoch : bool)
  | MBlock b => _ ← handleBlock b; ret false
  end.

(** *** Proposals *)

Definition validatorMajorityInTheSameDynasty (tip : ExtendedBlock) : M S E bool :=
  votes ← gets (fun e => GetEpochVotes (state e));
  match votes with
  | None => ret true
  | Some epochVotes =>
      vs ← NextValidatorSetOf (EBHash tip);
      order ← range_votes epochVotes;
      ahead ← has_majority vs (AddVotes NewVoteSet
                (filter (fun v => u64_add (EBHeight tip) 1 <= Height v) (Votes order)));
      if (ahead : bool) then ret false
      else
        height ← main_chain_height;
        match height with
        | None => ret false
        | Some mainchainHeight =>
            order' ← range_votes epochVotes;
            has_majority vs (AddVotes NewVoteSet
              (filter (fun v => CalculateDynasty mainchainHeight <=
                                CalculateDynasty (to_int64 (MainchainHeight v))) (Votes order')))
        end
  end.

Definition new_header (chainID : string) (ep height : uint64) (parent : Hash) (hcc : CommitCertificate)
    (ts : Z) (proposer : Address) : BlockHeader :=
  mkHeader chainID ep height parent hcc 0 0 0 0 (Some ts) proposer None 0.

Definition set_state_hash (h : BlockHeader) (x : Hash) : BlockHeader :=
  mkHeader (ChainID h) (BEpoch h) (BHeight h) (Parent h) (HCC h) (TxHash h) (ReceiptHash h)
    (Bloom h) x (Timestamp h) (Proposer h) (BSignature h) (hash h).

(** The unsigned block of a proposal on [tip]. *)
Definition draft_block (tip : ExtendedBlock) : M S E Block.Block :=
  parentBlock ← FindBlock (EBHash tip);
  match parentBlock with
  | None => panic "Failed to find parent block with hash"
  | Some p =>
      pts ← deref (Timestamp (Header (EBlock p)));
      chainID ← gets (fun e => CChainID (chain (state e)));
      ep ← GetEpoch;
      now ← unix_now;
      hcc ← HighestCCBlock;
      hccValidators ← ValidatorSetOf (EBHash hcc);
      order ← gets (fun e => FindVotesByHash (chain (state e)) (EBHash hcc)) ≫= range_votes;
      order' ← range_votes (UniqueVoter order);
      let hccVotes := FilterByValidators order' hccValidators in
      ret (mkBlock (new_header chainID ep (u64_add (EBHeight tip) 1) (EBHash tip)
                      (mkCC (Some hccVotes) (EBHash hcc))
                      (if now <? pts + 1 then pts + 1 else now) (self cfg)) [])
  end.

(** Adding the transactions and the state hash, and signing. *)
Definition seal_block (b : Block.Block) (txs : list Bytes) (newRoot : Hash) : Block.Block :=
  let b1 := AddTxs b txs in
  let b2 := mkBlock (set_state_hash (Header b1) newRoot) (Txs b1) in
  mkBlock (set_signature (Header b2) (Some (priv cfg (Header_SignBytes (Header b2))))) (Txs b2).

(** The votes sent along with a proposal. *)
Definition proposal_votes : M S E VoteSet :=
  lastCC ← HighestCCBlock;
  lastCCValidators ← ValidatorSetOf (EBHash lastCC);
  o1 ← gets (fun e => FindVotesByHash (chain (state e)) (EBHash lastCC)) ≫= range_votes;
  o2 ← gets (fun e => default NewVoteSet (GetEpochVotes (state e))) ≫= range_votes;
  o3 ← range_votes (Merge o1 o2);
  o4 ← range_votes (UniqueVoterAndBlock o3);
  ret (FilterByValidators o4 lastCCValidators).

(** [createProposal]; [None] is the error. *)
Definition createProposal (sameDynasty : bool) : M S E (option Proposal) :=
  tip ← GetTipToExtend;
  r ← reset_state (EBlock tip);
  if IsError r then panic "Failed to reset state to tip.StateHash"
  else
    block ← draft_block tip;
    res ← propose_block_txs block sameDynasty;
    let '(r2, (newRoot, txs)) := res in
    if IsError r2 || IsUndecided r2 then ret None
    else
      votes ← proposal_votes;
      ret (Some (mkProposal (Some (seal_block block txs newRoot))
                   (HexToAddress cfg (Hex cfg (self cfg))) (Some votes))).

(** Recording a new proposal, without writing it to the database, and storing
    its block. *)
Definition store_proposal (created : option Proposal) : M S E (option Proposal) :=
  match created with
  | None => ret None
  | Some p =>
      _ ← on_state (fun s => Ok (with_proposal s p));
      b ← deref (PBlock p);
      _ ← on_chain (fun ch =>
            match AddBlock (CalcEthTxHash cfg) ch b with
            | Ok r => Ok r
            | _ => Panic "Failed to add proposed block to chain"
            end);
      ret (Some p)
  end.

(** The proposal to send: the last one again in the same epoch, or a new one. *)
Definition choose_proposal (tip : ExtendedBlock) : M S E (option Proposal) :=
  sameDynasty ← validatorMajorityInTheSameDynasty tip;
  last ← gets (fun e => LastProposal (state e));
  ep ← GetEpoch;
  if match PBlock last with Some b => Z.eqb ep (BEpoch (Header b)) | None => false end
  then ret (Some last)
  else createProposal sameDynasty ≫= store_proposal.

Definition propose : M S E unit :=
  tip ← GetTipToExtend;
  ep ← GetEpoch;
  should ← shouldPropose tip ep;
  if negb should then ret tt
  else
    chosen ← choose_proposal tip;
    match chosen with
    | None => ret tt
    | Some p =>
        _ ← modify (with_sent (PacketProposal p));
        b ← deref (PBlock p);
        spawn (MBlock b)
    end.

(** *** The main loop *)

Definition enterEpoch : M S E unit := modify (with_flags false false).

(** The start of an epoch, and one event of the inner loop; the result of an
    event tells whether the epoch ends. *)
Definition begin_epoch : M S E unit := _ ← enterEpoch; propose.

Inductive Event :=
| EvStop
| EvMessage (m : Message)
| EvVoteTimer
| EvEpochTimer.

Definition on_event (ev : Event) : M S E bool :=
  match ev with
  | EvStop => _ ← modify stop; ret false
  | EvMessage m => processMessage m
  | EvVoteTimer =>
      _ ← modify (fun e => with_flags true (blockProcessed e) e);
      processed ← gets blockProcessed;
      _ ← (if (processed : bool) then vote else ret tt);
      ret false
  | EvEpochTimer => _ ← vote; ret true
  end.

Definition loop_event (ev : Event) : M S E unit :=
  endEpoch ← on_event ev;
  if (endEpoch : bool) then begin_epoch else ret tt.

(** *** Start: the rewind to a hardcoded block *)

(** The hardcoded heights in increasing order. *)
Definition heights : list uint64 := merge_sort Z.le (fst <$> hardcode cfg).

(** The index of the last height not above that of the committed block. *)
Fixpoint closest (l : list uint64) (top : uint64) (i : Z) (idx : Z) : Z :=
  match l with
  | [] => idx
  | n :: l' => if n <=? top then closest l' top (i + 1) i else idx
  end.

Definition finalized_at (ch : Chain S) (n : uint64) : option ExtendedBlock :=
  head (filter (fun b => IsFinalized (Status b) = true) (findBlocksByHeight ch n)).

(** Downwards from index [i], the first index whose finalized block is the
    hardcoded one ([-1] if there is none). *)
Fixpoint agreeing (ch : Chain S) (i : nat) : outcome Z :=
  match heights !! i with
  | None => Panic "index out of range"
  | Some n =>
      match finalized_at ch n with
      | None => Panic "Can't find finalized block at height"
      | Some b =>
          if bool_decide (hardcoded (hardcode cfg) n = Some (EBHash b)) then Ok (Z.of_nat i)
          else match i with
               | O => Ok (-1)
               | Datatypes.S i' => agreeing ch i'
               end
      end
  end.

(** Disposing of the blocks from [lastCC] down to the given height. *)
Fixpoint rewind_loop (n : nat) (ch : Chain S) (height : uint64) (lastCC : ExtendedBlock)
    : outcome (ExtendedBlock * Chain S) :=
  if EBHeight lastCC <? height then Ok (lastCC, ch)
  else match n with
  | O => Err "out of fuel"
  | Datatypes.S n' =>
      let ch1 := RemoveVotesByHash (saveBlock ch (set_status lastCC BlockStatusDisposed)) (EBHash lastCC) in
      match findBlock ch1 (EBParent lastCC) with
      | None => Panic "Failed to find parent block"
      | Some p => rewind_loop n' ch1 height p
      end
  end.

Definition autoRewind (lastCC : ExtendedBlock) : M S E ExtendedBlock :=
  let idx := closest heights (EBHeight lastCC) 0 (-1) in
  if 0 <? idx then
    ch ← cur_chain;
    i ← lift (agreeing ch (Z.to_nat idx));
    lastCC' ← (if i <? idx then
                 match heights !! Z.to_nat (i + 1) with
                 | None => panic "index out of range"
                 | Some n => on_chain (fun ch => rewind_loop (fuel cfg) ch n lastCC)
                 end
               else ret lastCC);
    _ ← on_state (fun s => SetLastFinalizedBlock s lastCC');
    _ ← on_state (fun s => SetHighestCCBlock s lastCC');
    _ ← on_state (fun s => SetLastVote s zero_vote);
    _ ← on_state (fun s => SetLastProposal s zero_proposal);
    ret lastCC'
  else ret lastCC.

(** [Start], up to the main loop. *)
Definition Start (maxEpochLength minBlockInterval : Z) : M S E unit :=
  if maxEpochLength <=? minBlockInterval then panic "Invalid configuration"
  else
    hcc ← HighestCCBlock;
    lastCC ← autoRewind hcc;
    _ ← reset_state (EBlock lastCC);
    checkSyncStatus.

End EngineOps.

(** ** Reasoning about handlers *)

(** [keeps R m]: whenever [m] ends, the engines before and after are related. *)
Definition keeps {S E A} (R : Engine S E -> Engine S E -> Prop) (m : M S E A) : Prop :=
  forall e a e', m e = Ok (a, e') -> R e e'.

(** [reads m]: [m] leaves the engine as it is. *)
Definition reads {S E A} (m : M S E A) : Prop := forall e a e', m e = Ok (a, e') -> e' = e.

Section Keeps.
Context {S E : Type} (R : Engine S E -> Engine S E -> Prop) `{!PreOrder R}.

Lemma bind_inv {A B} (m : M S E A) (f : A -> M S E B) e b e' :
  (m ≫= f) e = Ok (b, e') -> exists a e1, m e = Ok (a, e1) /\ f a e1 = Ok (b, e').
Proof. unfold mbind, M_bind. destruct (m e) as [[a e1]| |]; [eauto|done|done]. Qed.

Lemma keeps_bind {A B} (m : M S E A) (f : A -> M S E B) :
  keeps R m -> (forall a, keeps R (f a)) -> keeps R (m ≫= f).
Proof.
  intros Hm Hf e b e' (a & e1 & H1 & H2)%bind_inv. etrans; [by eapply Hm|by eapply Hf].
Qed.

Lemma reads_keeps {A} (m : M S E A) : reads m -> keeps R m.
Proof. intros Hm e a e' H. by rewrite (Hm _ _ _ H). Qed.

Lemma keeps_modify f : (forall e, R e (f e)) -> keeps R (modify f).
Proof. intros Hf e a e' [= <- <-]. apply Hf. Qed.

Lemma keeps_for_each {A} (f : A -> M S E unit) l :
  (forall x, keeps R (f x)) -> keeps R (for_each f l).
Proof.
  intros Hf. induction l as [|x l IH]; cbn [for_each].
  - apply reads_keeps. by intros e a e' [= <- <-].
  - by apply keeps_bind.
Qed.

Lemma keeps_on_state f :
  (forall e st, f (state e) = Ok st -> R e (with_state st e)) -> keeps R (on_state f).
Proof. intros Hf e a e'. unfold on_state. destruct (f (state e)) eqn:?; [|done|done]. intros [= <- <-]. eauto. Qed.

Lemma keeps_on_chain {A} (f : Chain S -> outcome (A * Chain S)) :
  (forall e a ch, f (chain (state e)) = Ok (a, ch) ->
     R e (with_state (with_chain (state e) ch) e)) -> keeps R (on_chain f).
Proof.
  intros Hf e a e'. unfold on_chain. destruct (f (chain (state e))) as [[? ?]| |] eqn:?; [|done|done].
  intros [= <- <-]. eauto.
Qed.
End Keeps.

Lemma keeps_mono {S E A} (R R' : Engine S E -> Engine S E -> Prop) (m : M S E A) :
  (forall e e', R e e' -> R' e e') -> keeps R m -> keeps R' m.
Proof. intros Hs Hm e a e' H. by eapply Hs, Hm. Qed.

Create HintDb reads.
Create HintDb keeps.

Section Reads.
Context `{BlockCrypto} `{VoteCrypto} {S : Type} `{!Store S} {E : Type} `{!Environment S E}.
Context (cfg : Config).

Lemma reads_ret {A} (a : A) : reads (S := S) (E := E) (ret a).
Proof. by intros e a' e' [= _ <-]. Qed.
Lemma reads_gets {A} (f : Engine S E -> A) : reads (gets f).
Proof. by intros e a e' [= _ <-]. Qed.
Lemma reads_panic {A} msg : reads (S := S) (E := E) (A := A) (panic msg).
Proof. done. Qed.
Lemma reads_lift {A} (o : Engine S E -> outcome A) : reads (fun e => lift (o e) e).
Proof. intros e a e'. unfold lift. destruct (o e); [by intros [= _ <-]|done|done]. Qed.
Lemma reads_bind {A B} (m : M S E A) (f : A -> M S E B) :
  reads m -> (forall a, reads (f a)) -> reads (m ≫= f).
Proof.
  intros Hm Hf e b e' (a & e1 & H1 & H2)%bind_inv. apply Hf in H2. by apply Hm in H1 as ->.
Qed.
Lemma reads_deref {A} (p : option A) : reads (S := S) (E := E) (deref p).
Proof. destruct p; [apply reads_ret|apply reads_panic]. Qed.

Lemma reads_FindBlock h : reads (E := E) (FindBlock h).
Proof. apply reads_gets. Qed.
Lemma reads_HCC : reads (E := E) HighestCCBlock.
Proof. apply reads_lift. Qed.
Lemma reads_LFB : reads (E := E) LastFinalizedBlock.
Proof. apply reads_lift. Qed.
Lemma reads_GetEpoch : reads (S := S) (E := E) GetEpoch.
Proof. apply reads_gets. Qed.
Lemma reads_cur_chain : reads (S := S) (E := E) cur_chain.
Proof. apply reads_gets. Qed.
Lemma reads_ValidatorSetOf h : reads (ValidatorSetOf h).
Proof. apply reads_lift. Qed.
Lemma reads_NextValidatorSetOf h : reads (NextValidatorSetOf h).
Proof. apply reads_lift. Qed.
Lemma reads_NextProposerOf h ep : reads (NextProposerOf h ep).
Proof. apply reads_lift. Qed.

Lemma reads_GetTip leaf : reads (E := E) (GetTip cfg leaf).
Proof.
  unfold GetTip. apply reads_bind; [apply reads_HCC|intros hcc].
  apply reads_bind; [apply reads_cur_chain|intros ch].
  apply (reads_lift (fun _ => _)).
Qed.

Lemma reads_GetTipToVote : reads (E := E) (GetTipToVote cfg).
Proof. apply reads_GetTip. Qed.
Lemma reads_GetTipToExtend : reads (E := E) (GetTipToExtend cfg).
Proof. apply reads_GetTip. Qed.

Lemma reads_shouldProposeByID h ep id : reads (shouldProposeByID cfg h ep id).
Proof.
  unfold shouldProposeByID. destruct (Z.eqb ep 0); [apply reads_ret|].
  apply reads_bind; [apply reads_NextProposerOf|intros; apply reads_ret].
Qed.

Lemma reads_shouldPropose tip ep : reads (shouldPropose cfg tip ep).
Proof. unfold shouldPropose. case_match; [apply reads_ret|apply reads_shouldProposeByID]. Qed.

Lemma reads_shouldVote h : reads (shouldVote cfg h).
Proof. apply reads_bind; [apply reads_ValidatorSetOf|intros; apply reads_ret]. Qed.

Lemma reads_find_parent b : reads (E := E) (find_parent b).
Proof.
  apply reads_bind; [apply reads_FindBlock|intros []; [apply reads_ret|apply reads_panic]].
Qed.

Lemma reads_should_repeat tip : reads (E := E) (should_repeat tip).
Proof.
  apply reads_bind; [apply reads_gets|intros v]. case_match; [apply reads_ret|].
  apply reads_bind; [apply reads_HCC|intros; apply reads_ret].
Qed.
End Reads.

#[export] Hint Resolve reads_ret reads_gets reads_panic reads_lift reads_deref reads_FindBlock
  reads_HCC reads_LFB reads_GetEpoch reads_cur_chain reads_ValidatorSetOf reads_NextValidatorSetOf
  reads_NextProposerOf reads_GetTip reads_GetTipToVote reads_GetTipToExtend reads_shouldProposeByID
  reads_shouldPropose reads_shouldVote reads_find_parent reads_should_repeat : reads.

(** Decomposes a handler into its actions. *)
Ltac keeps_tac :=
  repeat first
    [ solve [eauto with keeps]
    | lazymatch goal with
      | |- keeps _ (_ ≫= _) => apply keeps_bind; [typeclasses eauto|..|intros]
      | |- keeps _ (for_each _ _) => apply keeps_for_each; [typeclasses eauto|intros]
      | |- keeps _ (match ?x with _ => _ end) => destruct x eqn:?
      | |- keeps _ (let _ := _ in _) => cbv zeta
      end
    | solve [apply reads_keeps; [typeclasses eauto|eauto with reads]] ].

(** ** What a handler may do to the engine *)

Section Safety.
Context `{BlockCrypto} `{VoteCrypto} {S : Type} `{!Store S} {E : Type} `{!Environment S E}.
Context (cfg : Config).
Implicit Types (e : Engine S E).

Abbreviation ch e := (chain (state e)).
Abbreviation steps := (rtc (chain_step (CalcEthTxHash cfg))).

(** The votes the node has cast. *)
Definition as_vote (m : Message) : option Vote := match m with MVote v => Some v | _ => None end.
Definition cast_votes e : list Vote := omap as_vote (incoming e).

(** A node that restarts would recover the fields it has in memory. *)
Definition same_core (s t : State S) : Prop :=
  highestCCBlock s = highestCCBlock t /\ lastFinalizedBlock s = lastFinalizedBlock t /\
  LastVote s = LastVote t /\ epoch s = epoch t.

Definition durable e : Prop :=
  exists st, NewState (db (state e)) (ch e) = Ok st /\ same_core st (state e).

Definition stored_ok e : Prop := blocks_ok (ch e) /\ heights_ok (ch e).

(** The highest committed block is replaced by higher ones only. *)
Definition hcc_grows e e' : Prop :=
  forall b, findBlock (ch e) (highestCCBlock (state e)) = Some b ->
    exists b', findBlock (ch e') (highestCCBlock (state e')) = Some b' /\ EBHeight b <= EBHeight b'.

(** The engine evolves through operations of the chain, without casting a
    vote. *)
Definition quiet0 e e' : Prop :=
  steps (ch e) (ch e') /\ LastVote (state e') = LastVote (state e) /\ cast_votes e' = cast_votes e /\
  (stored_ok e -> durable e -> durable e').

(** Nor does the height of its highest committed block decrease. *)
Definition quiet e e' : Prop :=
  quiet0 e e' /\ (hardcode cfg = [] -> stored_ok e -> hcc_grows e e').

(** The same for handlers that may cast votes. *)
Definition progress e e' : Prop :=
  steps (ch e) (ch e') /\
  (hardcode cfg = [] -> stored_ok e -> hcc_grows e e').

Lemma quiet_progress e e' : quiet e e' -> progress e e'.
Proof. intros [(? & _) ?]. done. Qed.

Lemma steps_stored e e' : steps (ch e) (ch e') -> stored_ok e -> stored_ok e'.
Proof. intros Hs [Hb Hh]. by destruct (steps_evolve _ _ _ Hb Hh Hs) as (? & ? & _). Qed.

Lemma hcc_grows_refl e : hcc_grows e e.
Proof. intros b Hb. exists b. split; [done|lia]. Qed.

Lemma hcc_grows_trans e1 e2 e3 : hcc_grows e1 e2 -> hcc_grows e2 e3 -> hcc_grows e1 e3.
Proof.
  intros H12 H23 b Hb. destruct (H12 b Hb) as (b2 & Hb2 & ?).
  destruct (H23 b2 Hb2) as (b3 & ? & ?). exists b3. split; [done|lia].
Qed.

#[export] Instance quiet0_preorder : PreOrder quiet0.
Proof.
  split.
  - intros e. unfold quiet0. split_and!; [reflexivity|done|done|done].
  - intros e1 e2 e3 (S12 & L12 & C12 & D12) (S23 & L23 & C23 & D23).
    unfold quiet0. split_and!; [by etrans|congruence|congruence|].
    + intros Hok Hd. apply D23; [|by apply D12]. by eapply steps_stored.
Qed.

#[export] Instance quiet_preorder : PreOrder quiet.
Proof.
  split.
  - intros e. split; [reflexivity|]. intros _ _. apply hcc_grows_refl.
  - intros e1 e2 e3 [Q12 H12] [Q23 H23]. split; [by etrans|]. intros Hh Hok.
    eapply hcc_grows_trans; [by apply H12|]. apply H23; [done|].
    eapply steps_stored; [apply Q12|done].
Qed.

#[export] Instance progress_preorder : PreOrder progress.
Proof.
  split.
  - intros e. split; [reflexivity|]. intros _ _. apply hcc_grows_refl.
  - intros e1 e2 e3 (S12 & H12) (S23 & H23). split; [by etrans|].
    + intros Hh Hok. eapply hcc_grows_trans; [by apply H12|]. apply H23; [done|].
      by eapply steps_stored.
Qed.

Lemma quiet_same_state e e' :
  state e' = state e -> cast_votes e' = cast_votes e -> quiet e e'.
Proof.
  intros Hs Hc. unfold quiet, quiet0, hcc_grows, durable. rewrite Hs.
  split_and!; try done. intros _ _ b Hb. exists b. split; [done|lia].
Qed.

(** A stored block keeps its height. *)
Lemma steps_find e e' h b : stored_ok e -> steps (ch e) (ch e') -> findBlock (ch e) h = Some b ->
  exists b', findBlock (ch e') h = Some b' /\ EBHeight b' = EBHeight b.
Proof.
  intros [Hb Hh] Hs Hf. destruct (steps_evolve _ _ _ Hb Hh Hs) as (_ & _ & Hk & _).
  destruct (Hk _ _ Hf) as (b' & Hb' & He). exists b'. split; [done|]. unfold EBHeight. by rewrite He.
Qed.

(** The start of the node depends on the header of the root block only. *)
Lemma NewState_frame d d' (c c' : Chain S) st :
  NewState d c = Ok st -> db_stub d' = db_stub d -> keeps_blocks c c' -> root c' = root c ->
  exists st', NewState d' c' = Ok st' /\ same_core st' st.
Proof.
  unfold NewState, Load, root_hash. cbn [chain db]. unfold Root. intros Hn Hd Hk Hr.
  destruct (findBlock c (root c)) as [b|] eqn:Hb; [|done].
  destruct (Hk _ _ Hb) as (b' & Hb' & He). rewrite Hr, Hd, Hb'.
  cbn [mbind outcome_bind] in *. unfold EBHash in *. rewrite He.
  destruct (negb _); injection Hn as <-; by eexists.
Qed.

Lemma durable_frame e e' : durable e -> same_core (state e') (state e) ->
  db_stub (db (state e')) = db_stub (db (state e)) -> keeps_blocks (ch e) (ch e') ->
  root (ch e') = root (ch e) -> durable e'.
Proof.
  intros (st & Hn & Hc) Hs Hd Hk Hr. destruct (NewState_frame _ _ _ _ _ Hn Hd Hk Hr) as (st' & Hn' & Hc').
  exists st'. split; [done|]. unfold same_core in *. destruct_and!. split_and!; congruence.
Qed.

Lemma quiet_chain e c : steps (ch e) c -> quiet e (with_state (with_chain (state e) c) e).
Proof.
  intros Hs. unfold quiet, quiet0. split_and!; try done.
  - intros [Hb Hh] Hd. destruct (steps_evolve _ _ _ Hb Hh Hs) as (_ & _ & Hk & Hid & _).
    by eapply durable_frame.
  - intros _ Hok b Hb0.
    destruct (steps_find e (with_state (with_chain (state e) c) e) _ b Hok Hs Hb0) as (b' & Hb' & Hh).
    exists b'. split; [done|lia].
Qed.

Lemma durable_commit e s st : commit s = Ok st -> durable (with_state st e).
Proof.
  intros (st' & Hn & (? & ? & ? & ? & ?) & _)%reload_committed. exists st'. by split_and!.
Qed.

(** A setter that does not touch the chain or the last vote. *)
Lemma quiet0_commit e s st :
  commit s = Ok st -> chain s = ch e -> LastVote s = LastVote (state e) -> quiet0 e (with_state st e).
Proof.
  intros Hc Hch Hlv. pose proof (durable_commit e _ _ Hc) as Hd.
  apply commit_inv in Hc as (r & Hr & ->). unfold quiet0. split_and!; try done.
  simpl. by rewrite Hch.
Qed.

Lemma quiet_commit e s st :
  commit s = Ok st -> chain s = ch e -> LastVote s = LastVote (state e) ->
  highestCCBlock s = highestCCBlock (state e) -> quiet e (with_state st e).
Proof.
  intros Hc Hch Hlv Hhcc. split; [by eapply quiet0_commit|]. intros _ _ b Hb.
  apply commit_inv in Hc as (r & _ & ->). exists b. simpl. rewrite Hch, Hhcc. split; [done|lia].
Qed.
End Safety.

Section Handlers.
Context `{BlockCrypto} `{VoteCrypto} {S : Type} `{!Store S} {E : Type} `{!Environment S E}.
Context (cfg : Config).
Implicit Types (e : Engine S E).

Abbreviation quiet := (quiet (S := S) (E := E) cfg).

Lemma quiet_env f : keeps quiet (modify (fun e => with_env (f e) e)).
Proof. apply keeps_modify. intros e. by apply quiet_same_state. Qed.

Lemma quiet_range s : keeps quiet (range_votes s).
Proof.
  intros e l e'. unfold range_votes. destruct (iterate (env e) s). intros [= <- <-].
  by apply quiet_same_state.
Qed.

Lemma quiet_height : keeps quiet main_chain_height.
Proof.
  intros e l e'. unfold main_chain_height. destruct (GetMainchainBlockHeight (env e)).
  intros [= <- <-]. by apply quiet_same_state.
Qed.

Lemma quiet_now : keeps quiet unix_now.
Proof.
  intros e l e'. unfold unix_now. destruct (Now (env e)). intros [= <- <-].
  by apply quiet_same_state.
Qed.

Lemma quiet_reset b : keeps quiet (reset_state b).
Proof.
  intros e l e'. unfold reset_state. destruct (ResetState _ _ _) as [[r x]| |]; [|done|done].
  intros [= <- <-]. by apply quiet_same_state.
Qed.

Lemma receipts_steps c c' : rtc receipt_step c c' -> rtc (chain_step (CalcEthTxHash cfg)) c c'.
Proof.
  apply rtc_subrel. intros c1 c2 [block rawTx logs changes evmRet addr gas evmErr c3 Hr].
  by eapply step_receipt.
Qed.

Lemma quiet_env_chain e x c :
  rtc (chain_step (CalcEthTxHash cfg)) (chain (state e)) c ->
  quiet e (with_state (with_chain (state e) c) (with_env x e)).
Proof. intros Hs. etrans; [by apply (quiet_same_state _ e (with_env x e))|by apply (quiet_chain _ (with_env x e))]. Qed.

Lemma quiet_apply b : keeps quiet (apply_block_txs b).
Proof.
  intros e l e'. unfold apply_block_txs.
  destruct (ApplyBlockTxs _ _ _) as [[[r x] c]| |] eqn:Ha; [|done|done].
  intros [= <- <-]. by eapply quiet_env_chain, receipts_steps, ApplyBlockTxs_receipts.
Qed.

Lemma quiet_propose_txs b d : keeps quiet (propose_block_txs b d).
Proof.
  intros e l e'. unfold propose_block_txs.
  destruct (ProposeBlockTxs _ _ _ _) as [[[[r y] x] c]| |] eqn:Ha; [|done|done].
  intros [= <- <-]. by eapply quiet_env_chain, receipts_steps, ProposeBlockTxs_receipts.
Qed.

(** One operation of the chain. *)
Lemma quiet_chain_op {A} (f : Chain S -> outcome (A * Chain S)) :
  (forall c a c', f c = Ok (a, c') -> rtc (chain_step (CalcEthTxHash cfg)) c c') ->
  keeps quiet (on_chain f).
Proof. intros Hf. apply keeps_on_chain. intros e a c Hc. by eapply quiet_chain, Hf. Qed.

Lemma quiet_mark_invalid h : keeps quiet (mark_invalid h).
Proof.
  apply keeps_bind; [typeclasses eauto|..|intros; apply reads_keeps; eauto with reads; typeclasses eauto].
  apply quiet_chain_op. intros c a c' Hm. by eapply rtc_once, step_invalid.
Qed.

Lemma quiet_mark_valid h : keeps quiet (on_chain (fun ch => MarkBlockValid ch h)).
Proof. apply quiet_chain_op. intros c a c' Hm. by eapply rtc_once, step_valid. Qed.

Lemma quiet_mark_update h : keeps quiet (on_chain (fun ch => MarkBlockHasValidatorUpdate ch h)).
Proof. apply quiet_chain_op. intros c a c' Hm. by eapply rtc_once, step_update. Qed.

Lemma quiet_commit_block h : keeps quiet (on_chain (fun ch => CommitBlock ch h)).
Proof. apply quiet_chain_op. intros c a c' Hm. by eapply rtc_once, step_commit. Qed.

Lemma quiet_index eb :
  keeps quiet (on_chain (fun ch => Ok (tt, AddTxsToIndex (CalcEthTxHash cfg) ch eb true))).
Proof. apply quiet_chain_op. intros c a c' [= <- <-]. apply rtc_once, step_index. Qed.

Lemma quiet_finalize_previous h : keeps quiet (finalize_previous cfg h).
Proof.
  intros e err e'. unfold finalize_previous.
  destruct (FinalizePreviousBlocks _ _ _ _) as [[c er]|] eqn:Hf; [|done]. intros [= <- <-].
  by eapply quiet_chain, rtc_once, step_finalize.
Qed.

Lemma quiet_publish b : keeps quiet (publish cfg b).
Proof. apply keeps_modify. intros e. case_match; [by apply quiet_same_state|reflexivity]. Qed.

Lemma quiet_synced b : keeps quiet (modify (with_synced b)).
Proof. apply keeps_modify. intros e. by apply quiet_same_state. Qed.

Lemma quiet_sent p : keeps quiet (modify (with_sent p)).
Proof. apply keeps_modify. intros e. by apply quiet_same_state. Qed.

Lemma quiet_flags f g : keeps quiet (modify (fun e => with_flags (f e) (g e) e)).
Proof. apply keeps_modify. intros e. by apply quiet_same_state. Qed.

Lemma quiet_stop : keeps quiet (modify stop).
Proof. apply keeps_modify. intros e. by apply quiet_same_state. Qed.

Lemma quiet_set_lfb b : keeps quiet (on_state (fun s => SetLastFinalizedBlock s b)).
Proof.
  apply keeps_on_state. intros e st Hc. by eapply quiet_commit; [exact Hc|done..].
Qed.
End Handlers.

#[export] Hint Resolve quiet_env quiet_range quiet_height quiet_now quiet_reset quiet_apply
  quiet_propose_txs quiet_mark_invalid quiet_mark_valid quiet_mark_update quiet_commit_block
  quiet_index quiet_finalize_previous quiet_publish quiet_synced quiet_sent quiet_flags quiet_stop
  quiet_set_lfb : keeps.

Section Handlers2.
Context `{BlockCrypto} `{VoteCrypto} {S : Type} `{!Store S} {E : Type} `{!Environment S E}.
Context (cfg : Config).
Implicit Types (e : Engine S E).

Abbreviation quiet := (quiet (S := S) (E := E) cfg).

Lemma quiet_checkSyncStatus : keeps quiet checkSyncStatus.
Proof. unfold checkSyncStatus, isSyncing. keeps_tac. Qed.

Lemma quiet_has_majority vs votes : keeps quiet (has_majority vs votes).
Proof. unfold has_majority. keeps_tac. Qed.

Lemma quiet_finalizeBlock b : keeps quiet (finalizeBlock cfg b).
Proof. pose proof quiet_checkSyncStatus. unfold finalizeBlock. keeps_tac. Qed.

Lemma quiet_save_vote v : keeps quiet (save_vote v).
Proof.
  unfold save_vote. keeps_tac. apply keeps_on_state. intros e st [= <-].
  etrans; [|apply (quiet_chain _ (with_state (AddEpochVote (state e) a0) e)), rtc_once, (step_vote _ _ v)].
  unfold quiet, quiet0. split_and!; try done.
  - intros [Hb Hh] Hd. eapply durable_frame; try done. intros h b. eauto.
  - intros _ _ b Hb. exists b. split; [done|lia].
Qed.
End Handlers2.

#[export] Hint Resolve quiet_checkSyncStatus quiet_has_majority quiet_finalizeBlock
  quiet_save_vote : keeps.

(** Actions that leave the consensus state and the queue alone. *)
Definition still {S E} (e e' : Engine S E) : Prop := state e' = state e /\ incoming e' = incoming e.

#[export] Instance still_preorder {S E} : PreOrder (still (S := S) (E := E)).
Proof. split; [done|]. intros e1 e2 e3 [? ?] [? ?]. split; congruence. Qed.

(** Takes the first action off a handler that ended. *)
Tactic Notation "step" hyp(H) "as" ident(a) ident(e1) ident(H1) :=
  apply bind_inv in H as (a & e1 & H1 & H).

Lemma on_state_inv {S E} (f : State S -> outcome (State S)) (e e' : Engine S E) a :
  on_state f e = Ok (a, e') -> exists st, f (state e) = Ok st /\ e' = with_state st e.
Proof. unfold on_state. destruct (f (state e)); [intros [= _ <-]; eauto|done|done]. Qed.

Lemma on_chain_inv {S E A} (f : Chain S -> outcome (A * Chain S)) (e e' : Engine S E) a :
  on_chain f e = Ok (a, e') ->
  exists c, f (chain (state e)) = Ok (a, c) /\ e' = with_state (with_chain (state e) c) e.
Proof. unfold on_chain. destruct (f _) as [[]| |]; [intros [= <- <-]; eauto|done|done]. Qed.

Section EpochHandlers.
Context `{BlockCrypto} `{VoteCrypto} {S : Type} `{!Store S} {E : Type} `{!Environment S E}.
Context (cfg : Config).
Implicit Types (e : Engine S E).

Abbreviation quiet := (quiet (S := S) (E := E) cfg).

Lemma still_quiet e e' : still e e' -> quiet e e'.
Proof. intros [Hs Hi]. apply quiet_same_state; [done|]. unfold cast_votes. by rewrite Hi. Qed.

Lemma still_range s : keeps still (range_votes (E := E) s).
Proof.
  intros e l e'. unfold range_votes. destruct (iterate (env e) s). by intros [= <- <-].
Qed.

Lemma still_has_majority vs s : keeps still (has_majority (E := E) vs s).
Proof. pose proof still_range. unfold has_majority. keeps_tac. Qed.

Lemma still_broadcast v : keeps (still (S := S) (E := E)) (broadcastVote v).
Proof. by apply keeps_modify. Qed.

Lemma keeps_if_broadcast v cur ep :
  keeps still (if u64_add ep 1 <? u64_add (Epoch v) 1
               then order ← range_votes (E := E) cur; for_each broadcastVote (Votes order)
               else ret tt).
Proof. pose proof still_range. pose proof still_broadcast. keeps_tac. Qed.

Lemma quiet_advance_epoch v cur e a e' :
  advance_epoch cfg v cur e = Ok (a, e') -> quiet e e'.
Proof.
  intros Hrun. unfold advance_epoch in Hrun.
  step Hrun as ep e1 H1. apply reads_GetEpoch in H1 as ->.
  step Hrun as u e2 H2. step Hrun as tip e3 H3. apply reads_GetTipToExtend in H3 as ->.
  step Hrun as pr e4 H4. apply reads_NextProposerOf in H4 as ->. step Hrun as u' e5 H5.
  apply on_state_inv in H5 as (st & Hset & ->).
  assert (Hst : still e e2).
  { eapply (keeps_if_broadcast v cur ep). exact H2. }
  etrans; [by apply still_quiet|]. etrans; [|by eapply quiet_checkSyncStatus].
  by eapply quiet_commit; [exact Hset|done..].
Qed.

Lemma quiet_handleVote v : keeps quiet (handleVote cfg v).
Proof.
  intros e a e' Hrun. unfold handleVote in Hrun.
  destruct (validateVote v) eqn:Hv; cbn [negb] in Hrun; [|injection Hrun as <- <-; reflexivity].
  step Hrun as u e1 H1. etrans; [by eapply quiet_save_vote|clear H1].
  step Hrun as lfb e2 H2. apply reads_LFB in H2 as ->.
  step Hrun as nv e3 H3. apply reads_NextValidatorSetOf in H3 as ->.
  step Hrun as ep e4 H4. injection H4 as <- <-.
  destruct (epoch (state e1) <=? Epoch v) eqn:Hep; [|injection Hrun as <- <-; reflexivity].
  step Hrun as al e5 H5. injection H5 as <- <-.
  destruct (GetEpochVotes (state e1)) as [votes|]; [|done].
  step Hrun as order e6 H6. step Hrun as maj e7 H7.
  assert (Hst : still e1 e7) by (etrans; [by eapply still_range|by eapply still_has_majority]).
  etrans; [by apply still_quiet|]. destruct maj; [|injection Hrun as <- <-; reflexivity].
  step Hrun as u7 e8 H8. injection Hrun as <- <-.
  by eapply quiet_advance_epoch.
Qed.
End EpochHandlers.

#[export] Hint Resolve quiet_handleVote : keeps.

Section CommitHandlers.
Context `{BlockCrypto} `{VoteCrypto} {S : Type} `{!Store S} {E : Type} `{!Environment S E}.
Context (cfg : Config).
Implicit Types (e : Engine S E).

Abbreviation quiet := (quiet (S := S) (E := E) cfg).
Abbreviation quiet0 := (quiet0 (S := S) (E := E) cfg).

Lemma commit_cc_inv b e a e' : commit_cc b e = Ok (a, e') ->
  quiet0 e e' /\ highestCCBlock (state e') = EBHash b.
Proof.
  unfold commit_cc. intros Hrun. step Hrun as u1 e1 H1. step Hrun as u2 e2 H2.
  injection Hrun as _ <-. apply on_state_inv in H1 as (st & Hset & ->).
  assert (Hq : quiet (with_state st e) e2) by (by eapply quiet_commit_block).
  split.
  - etrans; [|apply Hq]. by eapply quiet0_commit; [exact Hset|done..].
  - apply on_chain_inv in H2 as (c & _ & ->). simpl. by apply commit_inv in Hset as (r & _ & ->).
Qed.

Lemma HighestCCBlock_inv e b e1 : HighestCCBlock e = Ok (b, e1) ->
  e1 = e /\ findBlock (chain (state e)) (highestCCBlock (state e)) = Some b.
Proof.
  unfold HighestCCBlock, lift, GetHighestCCBlock. destruct (findBlock _ _); [|done].
  by intros [= <- <-].
Qed.

Lemma quiet_then_commit hcc b e e1 a e' :
  findBlock (chain (state e)) (highestCCBlock (state e)) = Some hcc ->
  EBHeight hcc < EBHeight b -> (stored_ok e -> findBlock (chain (state e)) (EBHash b) = Some b) ->
  quiet e e1 -> commit_cc b e1 = Ok (a, e') -> quiet e e'.
Proof.
  intros Hhcc Hlt Hb Hq Hc. apply commit_cc_inv in Hc as [Hq0 Hset].
  assert (Hq1 : quiet0 e e') by (etrans; [apply Hq|done]). split; [done|].
  intros _ Hok b0 Hb0. rewrite Hset.
  destruct (steps_find cfg e e' _ _ Hok (proj1 Hq1) (Hb Hok)) as (b' & Hb' & Hh).
  exists b'. split; [done|]. rewrite Hhcc in Hb0. injection Hb0 as <-. lia.
Qed.

Lemma quiet_processCCBlock b e a e' :
  (stored_ok e -> findBlock (chain (state e)) (EBHash b) = Some b) ->
  processCCBlock cfg b e = Ok (a, e') -> quiet e e'.
Proof.
  intros Hb Hrun. unfold processCCBlock in Hrun. step Hrun as hcc e1 H1.
  apply HighestCCBlock_inv in H1 as [-> Hhcc].
  destruct (EBHeight b <=? EBHeight hcc) eqn:Hle; [injection Hrun as _ <-; reflexivity|].
  apply Z.leb_gt in Hle. destruct (Z.eqb _ _).
  - step Hrun as p e2 H2. apply reads_FindBlock in H2 as ->.
    destruct p as [p|]; [|injection Hrun as _ <-; reflexivity].
    step Hrun as err e3 H3. apply quiet_finalizeBlock in H3 as Hq.
    destruct err; [by injection Hrun as _ <-|]. by eapply quiet_then_commit.
  - eapply quiet_then_commit; [done|done|done|reflexivity|exact Hrun].
Qed.

Lemma quiet_checkCC h : keeps quiet (checkCC cfg h).
Proof.
  intros e a e' Hrun. unfold checkCC in Hrun.
  destruct (IsEmpty h); [injection Hrun as _ <-; reflexivity|].
  step Hrun as fb e1 H1. injection H1 as <- <-.
  destruct (findBlock (chain (state e)) h) as [b|] eqn:Hb; [|injection Hrun as _ <-; reflexivity].
  assert (Hst : stored_ok e -> findBlock (chain (state e)) (EBHash b) = Some b).
  { intros [Hok _]. by rewrite (blocks_ok_hash _ _ _ Hok Hb). }
  destruct (IsInvalid _); [injection Hrun as _ <-; reflexivity|].
  destruct (IsPending _); [injection Hrun as _ <-; reflexivity|].
  destruct (_ || _); [injection Hrun as _ <-; reflexivity|].
  destruct (IsTrusted _); [by eapply quiet_processCCBlock|].
  step Hrun as hcc e2 H2. apply HighestCCBlock_inv in H2 as [-> _].
  destruct (_ <? _); [injection Hrun as _ <-; reflexivity|].
  step Hrun as votes e3 H3. injection H3 as <- <-. step Hrun as order e4 H4.
  step Hrun as vs e5 H5. apply reads_ValidatorSetOf in H5 as ->. step Hrun as maj e6 H6.
  assert (Hs : still e e6) by (etrans; [by eapply still_range|by eapply still_has_majority]).
  etrans; [by apply still_quiet|].
  destruct maj; [|injection Hrun as _ <-; reflexivity].
  eapply quiet_processCCBlock; [|exact Hrun].
  unfold stored_ok. destruct Hs as [-> _]. done.
Qed.

Lemma quiet_createVote b : keeps quiet (createVote cfg b).
Proof. unfold createVote. keeps_tac. Qed.

Lemma quiet_validateBlock b p : keeps quiet (validateBlock cfg b p).
Proof.
  unfold validateBlock, and_then, validate_parent, validate_hcc, hcc_valid, validate_confirmations,
    validate_proposer. keeps_tac.
Qed.

Lemma quiet_handle_hcc b : keeps quiet (handle_hcc cfg b).
Proof. pose proof quiet_checkCC. unfold handle_hcc. keeps_tac. Qed.

Lemma quiet_handleHardcodeBlock h : hardcode cfg <> [] -> keeps quiet (handleHardcodeBlock h).
Proof.
  intros Hne e a e' Hrun. unfold handleHardcodeBlock in Hrun.
  step Hrun as fb e1 H1. injection H1 as <- <-.
  destruct (findBlock (chain (state e)) h) as [b|] eqn:Hb; [|injection Hrun as _ <-; reflexivity].
  step Hrun as u e2 H2. apply on_chain_inv in H2 as (c & [= <- <-] & ->).
  etrans; [by eapply quiet_chain, rtc_once, (step_status _ _ h b BlockStatusTrusted)|].
  revert Hrun. match goal with |- _ ?e1 = _ -> _ => generalize e1 end. intros e2 Hrun.
  revert Hrun. match goal with |- ?m _ = _ -> _ => assert (Hk : keeps quiet m); [|exact (Hk e2 a e')] end.
  keeps_tac. apply keeps_on_state. intros e3 st Hc. split; [|by intros ?].
  by eapply quiet0_commit; [exact Hc|done..].
Qed.
End CommitHandlers.

#[export] Hint Resolve quiet_checkCC quiet_createVote quiet_validateBlock quiet_handle_hcc : keeps.

Section ProposalHandlers.
Context `{BlockCrypto} `{VoteCrypto} {S : Type} `{!Store S} {E : Type} `{!Environment S E}.
Context (cfg : Config).
Implicit Types (e : Engine S E).

Abbreviation quiet := (quiet (S := S) (E := E) cfg).

Lemma quiet_same_dynasty tip : keeps quiet (validatorMajorityInTheSameDynasty tip).
Proof. unfold validatorMajorityInTheSameDynasty. keeps_tac. Qed.

Lemma quiet_draft_block tip : keeps quiet (draft_block cfg tip).
Proof. unfold draft_block. keeps_tac. Qed.

Lemma quiet_proposal_votes : keeps quiet proposal_votes.
Proof. unfold proposal_votes. keeps_tac. Qed.

Lemma quiet_createProposal d : keeps quiet (createProposal cfg d).
Proof.
  pose proof quiet_draft_block. pose proof quiet_proposal_votes. unfold createProposal. keeps_tac.
Qed.

(** A block the node proposes has no cached hash and a 64-bit height. *)
Definition fresh_block (b : Block.Block) : Prop :=
  hash (Header b) = 0 /\ is_u64 (BHeight (Header b)).

Lemma draft_fresh tip e b e' : draft_block cfg tip e = Ok (b, e') -> fresh_block b.
Proof.
  unfold draft_block. intros Hrun. step Hrun as p e1 H1. destruct p as [p|]; [|done].
  do 8 (let a := fresh in let e1 := fresh in let Hs := fresh in step Hrun as a e1 Hs).
  injection Hrun as <- _. split; [done|]. simpl. unfold is_u64, u64_add, wrap64, two64.
  by apply Z.mod_pos_bound.
Qed.

Lemma seal_fresh b txs r : fresh_block b -> fresh_block (seal_block cfg b txs r).
Proof. done. Qed.

Lemma createProposal_fresh d e p e' :
  createProposal cfg d e = Ok (Some p, e') -> exists b, PBlock p = Some b /\ fresh_block b.
Proof.
  unfold createProposal. intros Hrun. step Hrun as tip e1 H1. step Hrun as r e2 H2.
  destruct (IsError r); [done|]. step Hrun as b e3 H3. step Hrun as res e4 H4.
  destruct res as [r2 [newRoot txs]]. destruct (_ || _); [done|].
  step Hrun as votes e5 H5. injection Hrun as <- _. eexists. split; [done|].
  by eapply seal_fresh, draft_fresh.
Qed.

Lemma quiet_store_proposal p e a e' :
  (forall q, p = Some q -> exists b, PBlock q = Some b /\ fresh_block b) ->
  store_proposal cfg p e = Ok (a, e') -> quiet e e'.
Proof.
  intros Hp Hrun. destruct p as [q|]; [|injection Hrun as _ <-; reflexivity].
  destruct (Hp q eq_refl) as (b & Hb & Hc & Hu). unfold store_proposal in Hrun.
  step Hrun as u e1 H1. apply on_state_inv in H1 as (st & [= <-] & ->).
  rewrite Hb in Hrun. step Hrun as b' e2 H2. injection H2 as <- <-. step Hrun as eb e3 H3.
  injection Hrun as _ <-. apply on_chain_inv in H3 as (c & Hadd & ->).
  etrans; [|eapply (quiet_chain _ (with_state (with_proposal (state e) q) e)), rtc_once].
  - unfold quiet, quiet0. split_and!; try done. intros _ _. apply (hcc_grows_refl e).
  - destruct (AddBlock _ _ _) as [[eb' c']| |] eqn:Ha in Hadd; try done. injection Hadd as -> ->.
    eapply step_add; [by left|done|exact Ha].
Qed.

Lemma quiet_new_proposal d : keeps quiet (createProposal cfg d ≫= store_proposal cfg).
Proof.
  intros e r e' Hrun. step Hrun as p e1 Hp. etrans; [by eapply quiet_createProposal|].
  eapply quiet_store_proposal; [|exact Hrun]. intros q ->. by eapply createProposal_fresh.
Qed.

Lemma quiet_choose_proposal tip : keeps quiet (choose_proposal cfg tip).
Proof.
  pose proof quiet_same_dynasty. pose proof quiet_new_proposal. unfold choose_proposal. keeps_tac.
Qed.

Lemma quiet_spawn_block b : keeps quiet (spawn (MBlock b)).
Proof.
  apply keeps_modify. intros e. apply quiet_same_state; [done|].
  unfold cast_votes. simpl. rewrite omap_app. simpl. by rewrite app_nil_r.
Qed.

Lemma quiet_propose : keeps quiet (propose cfg).
Proof.
  pose proof quiet_choose_proposal. pose proof quiet_spawn_block. unfold propose. keeps_tac.
Qed.

Lemma quiet_begin_epoch : keeps quiet (begin_epoch cfg).
Proof.
  pose proof quiet_propose. unfold begin_epoch, enterEpoch. keeps_tac.
Qed.
End ProposalHandlers.

#[export] Hint Resolve quiet_propose quiet_begin_epoch : keeps.

(** The handlers that may cast a vote keep every relation that contains
    [quiet] and that [vote] keeps. *)
Section Composite.
Context `{BlockCrypto} `{VoteCrypto} {S : Type} `{!Store S} {E : Type} `{!Environment S E}.
Context (cfg : Config) (R : Engine S E -> Engine S E -> Prop) `{!PreOrder R}.
Context (HR : forall e e', quiet cfg e e' -> R e e') (Hvote : keeps R (vote cfg)).

Lemma lift_quiet {A} (m : M S E A) : keeps (quiet cfg) m -> keeps R m.
Proof. by apply keeps_mono. Qed.
Hint Resolve lift_quiet : keeps.

Lemma keeps_accept_block b u : keeps R (accept_block cfg b u).
Proof.
  unfold accept_block. keeps_tac.
Qed.

Lemma keeps_handleNormalBlock eb : keeps R (handleNormalBlock cfg eb).
Proof.
  pose proof keeps_accept_block. unfold handleNormalBlock. keeps_tac.
Qed.

Lemma keeps_handleBlock b : keeps R (handleBlock cfg b).
Proof.
  pose proof keeps_handleNormalBlock. unfold handleBlock. keeps_tac.
  apply lift_quiet, quiet_handleHardcodeBlock. by intros Hn; simplify_eq; rewrite Hn in *.
Qed.

Lemma keeps_processMessage m : keeps R (processMessage cfg m).
Proof. pose proof keeps_handleBlock. unfold processMessage. keeps_tac. Qed.

Lemma keeps_loop_event ev : keeps R (loop_event cfg ev).
Proof.
  pose proof keeps_processMessage. unfold loop_event, on_event. keeps_tac.
Qed.
End Composite.
