(* ===== verification/EngineSafety.v ===== *)
(** * Safety of the consensus engine

    The theorems about runs of the engine: a node never casts two conflicting
    votes, even across restarts; the height of its highest committed block
    never decreases without hardcoded blocks, and its epoch decreases only when
    it receives a vote of the last 64-bit epoch.  EngineRules.v and
    EngineFinality.v follow with the single rules and with finality. *)

From stdpp Require Import gmap sorting relations pretty.
From stdpp Require Import base list numbers strings.
From S2P Require Import Prelude Vote Validator Block Chain ConsensusState Engine.
Local Open Scope string_scope.
Local Open Scope list_scope.
Local Open Scope Z_scope.

Section VoteSafety.
Context `{BlockCrypto} `{VoteCrypto} {S : Type} `{!Store S} {E : Type} `{!Environment S E}.
Context (cfg : Config).
Implicit Types (e : Engine S E).

Abbreviation ch e := (chain (state e)).

(** The votes of the certificate of a block, and those that reach
    [handleVote] in an event. *)
Definition certificate_votes (b : Block.Block) : list Vote :=
  match CCVotes (block_hcc b) with Some s => range s | None => [] end.

Definition received (ev : Event) e : list Vote :=
  match ev with
  | EvMessage (MVote v) => [v]
  | EvMessage (MBlock b) =>
      match findBlock (ch e) (BlockHash b) with Some eb => certificate_votes (EBlock eb) | None => [] end
  | EvStop | EvVoteTimer | EvEpochTimer => []
  end.

(** A step of the node with the votes it receives: an event of the main loop, a
    block stored by the sync manager, a restart from the database, or the start
    of the engine with the first epoch.  The rewind of the start is part of it
    without hardcoded blocks, when it does nothing. *)
Inductive receiving_step e : list Vote -> Engine S E -> Prop :=
| step_event ev e' : loop_event cfg ev e = Ok (tt, e') -> receiving_step e (received ev e) e'
| step_sync block eb c :
    cache_ok (Header block) -> is_u64 (BHeight (Header block)) ->
    AddBlock (CalcEthTxHash cfg) (ch e) block = Ok (eb, c) ->
    receiving_step e [] (with_state (with_chain (state e) c) e)
| step_restart st x :
    NewState (db (state e)) (ch e) = Ok st ->
    receiving_step e [] (mkEngine st x false false false false (sent e) (incoming e) (finalizedBlocks e))
| step_start maxEpochLength minBlockInterval e' :
    hardcode cfg = [] ->
    (Start cfg maxEpochLength minBlockInterval ≫= fun _ => begin_epoch cfg) e = Ok (tt, e') -> receiving_step e [] e'.

Definition engine_step e e' : Prop := exists votes, receiving_step e votes e'.

(** A run with the votes the node receives in it. *)
Inductive engine_run : list Vote -> Engine S E -> Engine S E -> Prop :=
| run_nil e : engine_run [] e e
| run_step e votes e1 rest e' : receiving_step e votes e1 -> engine_run rest e1 e' -> engine_run (votes ++ rest) e e'.

Lemma run_iff e e' : rtc engine_step e e' <-> exists votes, engine_run votes e e'.
Proof.
  split.
  - induction 1 as [e|e1 e2 e3 [votes Hs] _ [rest IH]]; eexists; [apply run_nil|by eapply run_step].
  - intros [votes Hr]. induction Hr as [|e1 votes e2 rest e3 Hs _ IH]; [done|]. eapply rtc_l; [by exists votes|done].
Qed.

(** Votes in the order they were cast: heights do not decrease, and votes at
    one height above the genesis are for one block. *)
Definition consistent (l : list Vote) : Prop :=
  forall i j v w, (i <= j)%nat -> l !! i = Some v -> l !! j = Some w ->
    Height v <= Height w /\ (Height v = Height w -> Height v <> 0 -> Vote.Block v = Vote.Block w).

(** The last vote dominates the votes cast so far, and is for a stored block. *)
Definition vote_inv e : Prop :=
  stored_ok e /\ durable e /\
  (Height (LastVote (state e)) <> 0 ->
     exists b, findBlock (ch e) (Vote.Block (LastVote (state e))) = Some b /\
       EBHeight b = Height (LastVote (state e))) /\
  (forall v, v ∈ cast_votes e ->
     0 <= Height v <= Height (LastVote (state e)) /\
     (Height v = Height (LastVote (state e)) -> Height v <> 0 ->
        Vote.Block v = Vote.Block (LastVote (state e)))) /\
  consistent (cast_votes e).

Definition keeps_vote_inv e e' : Prop := vote_inv e -> vote_inv e'.

#[export] Instance keeps_vote_inv_preorder : PreOrder keeps_vote_inv.
Proof. split; unfold keeps_vote_inv; [by intros e|]. intros e1 e2 e3 ? ?. by auto. Qed.

(** *** The tip is a stored block *)

Definition is_stored (c : Chain S) (b : ExtendedBlock) : Prop := exists h, findBlock c h = Some b.

Lemma load_children_stored c l bs : load_children c l = Ok bs -> Forall (is_stored c) bs.
Proof.
  revert bs. induction l as [|h l IH]; intros bs; cbn [load_children]; [by intros [= <-]|].
  destruct (findBlock c h) as [b|] eqn:Hb; [|done].
  destruct (load_children c l) as [bs'| |]; cbn; try done. intros [= <-].
  constructor; [by exists h|by apply IH].
Qed.

Lemma tip_loop_stored n c leaf stack cand tip :
  Forall (is_stored c) stack -> is_stored c cand ->
  tip_loop n c leaf stack cand = Ok tip -> is_stored c tip.
Proof.
  revert stack cand. induction n as [|n IH]; intros [|curr rest] cand Hst Hc; cbn [tip_loop];
    try (by intros [= <-]); try done.
  apply Forall_cons in Hst as [Hcurr Hrest]. destruct (negb _); [by apply IH|].
  destruct (_ && _); [by apply IH|].
  destruct (load_children c (Children curr)) as [kids| |] eqn:Hk; cbn; try done.
  apply IH; [|by case_match]. apply Forall_app. split; [|done].
  apply Forall_rev. by apply (load_children_stored _ (Children curr)).
Qed.

Lemma GetTip_inv leaf e tip e' : GetTip cfg leaf e = Ok (tip, e') ->
  e' = e /\ exists hcc, findBlock (ch e) (highestCCBlock (state e)) = Some hcc /\
    tip_loop (fuel cfg) (ch e) leaf [hcc] hcc = Ok tip.
Proof.
  intros Hrun. pose proof Hrun as ->%reads_GetTip. split; [done|]. unfold GetTip in Hrun.
  step Hrun as hcc e1 H1. apply HighestCCBlock_inv in H1 as [-> Hh].
  step Hrun as c e2 H2. injection H2 as <- <-. exists hcc. split; [done|].
  unfold lift in Hrun. destruct (tip_loop _ _ _ _ _); [|done|done]. by injection Hrun as <-.
Qed.

Lemma GetTip_stored leaf e tip e' : stored_ok e -> GetTip cfg leaf e = Ok (tip, e') ->
  e' = e /\ findBlock (ch e) (EBHash tip) = Some tip.
Proof.
  intros [Hok _] (-> & hcc & Hh & Ht)%GetTip_inv. split; [done|].
  assert (is_stored (ch e) tip) as [h Hf].
  { eapply tip_loop_stored; [..|exact Ht]; [repeat constructor|]; by eexists. }
  by rewrite (blocks_ok_hash _ _ _ Hok Hf).
Qed.

(** *** The vote *)

(** A vote of this node for a block. *)
Definition vote_for (b : Block.Block) (v : Vote) : Prop :=
  Vote.Block v = BlockHash b /\ Height v = BHeight (Header b) /\ ID v = self cfg.

Lemma createVote_inv b e v e' : createVote cfg b e = Ok (v, e') ->
  state e' = state e /\ incoming e' = incoming e /\ vote_for b v /\ Epoch v = epoch (state e).
Proof.
  unfold createVote, main_chain_height. intros Hrun. step Hrun as height e1 H1.
  destruct (GetMainchainBlockHeight (env e)) as [x y]. injection H1 as <- <-.
  step Hrun as ep e2 H2. injection H2 as <- <-. injection Hrun as <- <-. by split_and!.
Qed.

(** What [vote] does when it casts a vote: it repeats the last one, or votes
    for the tip, above the last vote, and records that vote. *)
Definition cast_rule e tip v e' : Prop :=
  (Height (LastVote (state e)) <> 0 /\ state e' = state e /\
   (exists b, findBlock (ch e) (Vote.Block (LastVote (state e))) = Some b /\ vote_for (EBlock b) v)) \/
  ((Height (LastVote (state e)) = 0 \/
    Height (LastVote (state e)) < EBHeight tip /\
    CCBlockHash (block_hcc (EBlock tip)) = highestCCBlock (state e)) /\
   vote_for (EBlock tip) v /\ SetLastVote (state e) v = Ok (state e')).

Lemma should_repeat_inv tip e again e' : stored_ok e ->
  should_repeat tip e = Ok (again, e') ->
  e' = e /\ (again = true -> Height (LastVote (state e)) <> 0) /\
  (again = false -> Height (LastVote (state e)) = 0 \/
     Height (LastVote (state e)) < EBHeight tip /\
     CCBlockHash (block_hcc (EBlock tip)) = highestCCBlock (state e)).
Proof.
  intros [Hok _] Hrun. pose proof Hrun as ->%reads_should_repeat. split; [done|].
  unfold should_repeat in Hrun. step Hrun as lv e1 H1. injection H1 as <- <-.
  destruct (Z.eqb_spec (Height (LastVote (state e))) 0) as [Hz|Hz]; cbn [negb andb] in Hrun.
  - step Hrun as hcc e2 H2. injection Hrun as <- _. split; [done|by left].
  - destruct (_ <=? _) eqn:Hle; [injection Hrun as <-; by split|].
    apply Z.leb_gt in Hle. step Hrun as hcc e2 H2. apply HighestCCBlock_inv in H2 as [-> Hh].
    injection Hrun as <-. split; [done|]. intros Heq. right. split; [lia|].
    rewrite (blocks_ok_hash _ _ _ Hok Hh) in Heq. apply negb_false_iff in Heq. by apply Z.eqb_eq.
Qed.

Lemma choose_vote_inv tip e v e' : stored_ok e -> choose_vote cfg tip e = Ok (v, e') ->
  incoming e' = incoming e /\ cast_rule e tip v e'.
Proof.
  intros Hok Hrun. unfold choose_vote in Hrun. step Hrun as again e1 H1.
  apply should_repeat_inv in H1 as (-> & Hyes & Hno); [|done]. destruct again.
  - step Hrun as lv e2 H2. injection H2 as <- <-. step Hrun as fb e3 H3. injection H3 as <- <-.
    destruct (findBlock _ _) as [b|] eqn:Hb; [|done].
    apply createVote_inv in Hrun as (Hs & Hi & Hv & _). split; [done|]. left.
    split_and!; [by apply Hyes|done|by eauto].
  - step Hrun as v' e2 H2. apply createVote_inv in H2 as (Hs & Hi & Hv & _).
    step Hrun as u e3 H3. injection Hrun as -> <-. apply on_state_inv in H3 as (st & Hset & ->).
    split; [done|]. right. split_and!; [by apply Hno|done|]. simpl. by rewrite <- Hs.
Qed.

Lemma vote_cases e a e' : stored_ok e -> vote cfg e = Ok (a, e') ->
  e' = e \/ exists tip v e1, GetTip cfg true e = Ok (tip, e) /\
    findBlock (ch e) (EBHash tip) = Some tip /\ cast_rule e tip v e1 /\ state e' = state e1 /\
    incoming e' = incoming e ++ [MVote v].
Proof.
  intros Hok Hrun. unfold vote in Hrun. step Hrun as tip e1 H1.
  pose proof (GetTip_stored _ _ _ _ Hok H1) as [-> Htip].
  step Hrun as should e2 H2. pose proof H2 as ->%reads_shouldVote. destruct should; cbn [negb] in Hrun;
    [|injection Hrun as _ <-; by left].
  right. step Hrun as v e3 H3. apply choose_vote_inv in H3 as [Hi Hrule]; [|done].
  step Hrun as u e4 H4. injection H4 as _ <-. injection Hrun as _ <-.
  exists tip, v, e3. split_and!; try done. simpl. by rewrite Hi.
Qed.

(** *** The invariant along the steps *)

Lemma consistent_snoc l v :
  consistent l ->
  (forall w, w ∈ l -> Height w <= Height v /\
     (Height w = Height v -> Height w <> 0 -> Vote.Block w = Vote.Block v)) ->
  consistent (l ++ [v]).
Proof.
  intros Hl Hv i j w1 w2 Hij H1 H2. apply lookup_app_Some in H2 as [H2|[Hlen H2]].
  - apply (Hl i j); [done| |done]. rewrite lookup_app_l in H1; [done|].
    apply lookup_lt_Some in H2. lia.
  - apply list_lookup_singleton_Some in H2 as [Hj ->].
    apply lookup_app_Some in H1 as [H1|[Hlen1 H1]].
    + apply Hv. by eapply list_elem_of_lookup_2.
    + apply list_lookup_singleton_Some in H1 as [_ ->]. split; [lia|done].
Qed.

Lemma cast_snoc e e' v : incoming e' = incoming e ++ [MVote v] ->
  cast_votes e' = cast_votes e ++ [v].
Proof. intros Hi. unfold cast_votes. rewrite Hi, omap_app. done. Qed.

(** Extending the votes by one that dominates the last vote. *)
Lemma vote_inv_cast e e' v :
  vote_inv e -> incoming e' = incoming e ++ [MVote v] -> stored_ok e' -> durable e' ->
  Vote.Block (LastVote (state e')) = Vote.Block v -> Height (LastVote (state e')) = Height v ->
  0 <= Height v -> Height (LastVote (state e)) <= Height v ->
  (Height (LastVote (state e)) = Height v -> Height v <> 0 ->
     Vote.Block (LastVote (state e)) = Vote.Block v) ->
  (Height v <> 0 -> exists b, findBlock (ch e') (Vote.Block v) = Some b /\ EBHeight b = Height v) ->
  vote_inv e'.
Proof.
  intros (_ & _ & _ & Hdom & Hcons) Hi Hok Hd Hb Hh Hpos Hle Heq Hst.
  assert (Hold : forall w, w ∈ cast_votes e -> 0 <= Height w <= Height v /\
    (Height w = Height v -> Height w <> 0 -> Vote.Block w = Vote.Block v)).
  { intros w Hw. destruct (Hdom w Hw) as [Hr He]. split; [lia|]. intros Hwv Hnz.
    rewrite <- Heq by lia. apply He; lia. }
  unfold vote_inv. rewrite Hh, Hb, (cast_snoc _ _ _ Hi). split_and!; try done.
  - intros w [Hw| ->%list_elem_of_singleton]%elem_of_app; [by apply Hold|]. split; [lia|done].
  - apply consistent_snoc; [done|]. intros w Hw. destruct (Hold w Hw). split; [lia|done].
Qed.

Lemma SetLastVote_inv s v st : SetLastVote s v = Ok st -> LastVote st = v /\ chain st = chain s.
Proof. by intros (r & _ & ->)%commit_inv. Qed.

Lemma stored_ok_frame e e' : ch e' = ch e -> stored_ok e -> stored_ok e'.
Proof. unfold stored_ok. by intros ->. Qed.

Lemma vote_keeps_inv : keeps keeps_vote_inv (vote cfg).
Proof.
  intros e a e' Hrun Hinv. pose proof Hinv as (Hok & Hd & Hlast & Hdom & _).
  destruct (vote_cases _ _ _ Hok Hrun) as [->|(tip & v & e1 & _ & Htip & Hrule & Hst & Hi)]; [done|].
  destruct Hok as [Hb Hu]. destruct Hrule as [(Hnz & Hs & b & Hf & Hv1 & Hv2 & _)|(Hc & (Hv1 & Hv2 & _) & Hset)].
  - rewrite Hs in Hst. destruct (Hlast Hnz) as (b' & Hf' & Hh). rewrite Hf in Hf'. injection Hf' as <-.
    assert (HB : Vote.Block v = Vote.Block (LastVote (state e)))
      by (rewrite Hv1; by apply (blocks_ok_hash _ _ _ Hb Hf)).
    assert (HH : Height v = Height (LastVote (state e))) by (rewrite Hv2; exact Hh).
    pose proof (Hu _ _ Hf) as Hr. unfold EBHeight, is_u64 in Hr.
    eapply (vote_inv_cast e e' v); rewrite ?Hst; try done; try lia; try congruence.
    + by apply (stored_ok_frame e); [rewrite Hst|split].
    + eapply durable_frame; [exact Hd|by rewrite Hst..|rewrite Hst; by intros ?; eauto|by rewrite Hst].
    + intros _. exists b. split; [by rewrite HB|]. by rewrite HH.
  - rewrite <- Hst in Hset. pose proof (SetLastVote_inv _ _ _ Hset) as [Hl Hch].
    pose proof (Hu _ _ Htip) as Hr. unfold is_u64 in Hr. change (BHeight (Header (EBlock tip))) with (EBHeight tip) in Hv2.
    change (BlockHash (EBlock tip)) with (EBHash tip) in Hv1.
    eapply (vote_inv_cast e e' v); rewrite ?Hl, ?Hch; try done; try lia.
    + by apply (stored_ok_frame e); [|split].
    + apply (durable_commit e' _ _) in Hset. by destruct e'.
    + intros _. exists tip. rewrite Hv1, Hv2. done.
Qed.

Lemma quiet_keeps_inv e e' : quiet cfg e e' -> keeps_vote_inv e e'.
Proof.
  intros [(Hs & Hl & Hc & Hd) _] (Hok & Hdur & Hlast & Hrest). unfold vote_inv. rewrite Hl, Hc.
  split_and!; [by eapply steps_stored|by apply Hd| |apply Hrest|apply Hrest].
  intros Hnz. destruct (Hlast Hnz) as (b & Hf & Hh).
  destruct (steps_find cfg e e' _ _ Hok Hs Hf) as (b' & Hf' & Hh'). exists b'. split; [done|lia].
Qed.

Lemma sync_quiet e block eb c :
  cache_ok (Header block) -> is_u64 (BHeight (Header block)) ->
  AddBlock (CalcEthTxHash cfg) (ch e) block = Ok (eb, c) ->
  quiet cfg e (with_state (with_chain (state e) c) e).
Proof. intros Hc Hu Ha. by eapply quiet_chain, rtc_once, step_add. Qed.

(** The start of the engine, when it does not rewind. *)
Lemma autoRewind_none lastCC : hardcode cfg = [] -> autoRewind (E := E) cfg lastCC = ret lastCC.
Proof. intros Hh. unfold autoRewind, heights. by rewrite Hh. Qed.

Lemma keeps_start (R : Engine S E -> Engine S E -> Prop) `{!PreOrder R} a b :
  hardcode cfg = [] -> (forall x, keeps R (reset_state x)) -> keeps R checkSyncStatus -> keeps R (begin_epoch cfg) ->
  keeps R (Start cfg a b ≫= fun _ => begin_epoch cfg).
Proof.
  intros Hh Hreset Hsync Hbegin. apply keeps_bind; [done| |intros _; exact Hbegin].
  unfold Start. case_match; [apply reads_keeps; [done|apply reads_panic]|]. apply keeps_bind; [done|apply reads_keeps; [done|apply reads_HCC]|intros hcc].
  rewrite autoRewind_none by done. apply keeps_bind; [done|apply reads_keeps; [done|apply reads_ret]|intros lastCC].
  by apply keeps_bind.
Qed.

Lemma quiet_start a b : hardcode cfg = [] -> keeps (quiet cfg) (Start cfg a b ≫= fun _ => begin_epoch cfg).
Proof.
  intros Hh. apply keeps_start; [apply _|done|apply quiet_reset|apply quiet_checkSyncStatus|apply quiet_begin_epoch].
Qed.

(** A restart recovers the fields and the chain. *)
Lemma restart_inv (d : StateDB) (c : Chain S) st : NewState d c = Ok st -> chain st = c /\ db st = d.
Proof.
  unfold NewState, Load. destruct (Root c) as [b|]; [|done]. cbn [chain db].
  destruct (root_hash c); cbn; [|done|done]. destruct (negb _); by intros [= <-].
Qed.

Lemma engine_step_inv e e' : vote_inv e -> engine_step e e' -> vote_inv e'.
Proof.
  intros Hinv [votes [ev e2 Hrun|block eb c Hc Hu Ha|st x Hn|a b e2 Hh Hrun]];
    [..|revert Hinv; by eapply quiet_keeps_inv, quiet_start].
  - revert Hinv. eapply (keeps_loop_event cfg keeps_vote_inv); [..|exact Hrun];
      [apply quiet_keeps_inv|apply vote_keeps_inv].
  - revert Hinv. by eapply quiet_keeps_inv, sync_quiet.
  - pose proof Hinv as (Hok & (st' & Hn' & Hcore) & Hlast & Hdom & Hcons).
    rewrite Hn in Hn'. injection Hn' as <-. apply restart_inv in Hn as Hcd. destruct Hcd as [Hch Hdb].
    destruct Hcore as (H1 & H2 & H3 & H4). unfold vote_inv, stored_ok, cast_votes. simpl.
    rewrite H3, Hch. split_and!; try done; try apply Hok.
    exists st. simpl. rewrite Hdb, Hch. split; [done|]. by split_and!.
Qed.
End VoteSafety.

Section Progress.
Context `{BlockCrypto} `{VoteCrypto} {S : Type} `{!Store S} {E : Type} `{!Environment S E}.
Context (cfg : Config).
Implicit Types (e : Engine S E).

Lemma progress_set_vote v : keeps (progress (E := E) cfg) (on_state (fun s => SetLastVote s v)).
Proof.
  apply keeps_on_state. intros e st (r & _ & ->)%commit_inv. split; [reflexivity|]. intros _ _. apply (hcc_grows_refl e).
Qed.

Lemma progress_spawn m : keeps (progress (E := E) cfg) (spawn m).
Proof.
  apply keeps_modify. intros e. split; [reflexivity|]. intros _ _. apply (hcc_grows_refl e).
Qed.

Lemma progress_vote : keeps (progress cfg) (vote cfg).
Proof.
  pose proof (fun A (m : M S E A) => keeps_mono _ _ m (quiet_progress cfg)) as Hq.
  pose proof progress_set_vote as Hset. pose proof progress_spawn as Hspawn.
  unfold vote, choose_vote, broadcastVote. keeps_tac.
Qed.

Lemma progress_step e e' : vote_inv e -> engine_step cfg e e' -> progress cfg e e'.
Proof.
  intros Hinv [votes [ev e2 Hrun|block eb c Hc Hu Ha|st x Hn|a b e2 Hh Hrun]]; [..|by eapply quiet_progress, quiet_start].
  - eapply (keeps_loop_event cfg (progress cfg)); [..|exact Hrun];
      [apply quiet_progress|apply progress_vote].
  - by eapply quiet_progress, sync_quiet.
  - destruct Hinv as (_ & (st' & Hn' & Hcore) & _). rewrite Hn in Hn'. injection Hn' as <-.
    apply restart_inv in Hn as [Hch _]. destruct Hcore as (H1 & _).
    unfold progress, hcc_grows. simpl. rewrite Hch, H1. split; [reflexivity|]. intros _ _ b Hb. exists b. split; [done|lia].
Qed.

Lemma progress_steps e e' : vote_inv e -> rtc (engine_step cfg) e e' -> progress cfg e e'.
Proof.
  intros Hinv Hsteps. induction Hsteps as [e|e1 e2 e3 Hstep _ IH]; [reflexivity|].
  etrans; [by apply progress_step|]. apply IH. by eapply engine_step_inv.
Qed.

(** A node that starts without a vote on record satisfies the invariant. *)
Lemma fresh_vote_inv d c st x :
  NewState d c = Ok st -> blocks_ok c -> heights_ok c -> LastVote st = zero_vote ->
  vote_inv (mkEngine st x false false false false [] [] [] : Engine S E).
Proof.
  intros Hn Hb Hh Hl. apply restart_inv in Hn as Hcd. destruct Hcd as [Hch Hdb].
  unfold vote_inv, stored_ok, durable, cast_votes. simpl. rewrite Hl, Hch, Hdb. simpl.
  split_and!; try done.
  - exists st. split; [done|]. by split_and!.
  - intros v Hv. by apply elem_of_nil in Hv.
Qed.

(** The result of an event that ends normally. *)
Definition after (ev : Event) e : Engine S E :=
  match loop_event cfg ev e with Ok (_, e') => e' | _ => e end.

Lemma after_ok ev e : is_ok (loop_event cfg ev e) = true -> loop_event cfg ev e = Ok (tt, after ev e).
Proof. unfold after. by destruct (loop_event cfg ev e) as [[[] e']| |]. Qed.

Lemma after_step ev e : is_ok (loop_event cfg ev e) = true -> engine_step cfg e (after ev e).
Proof. intros Hok. eexists. by eapply step_event, after_ok. Qed.
End Progress.

(** ** Epochs *)

Section Epochs.
Context `{BlockCrypto} `{VoteCrypto} {S : Type} `{!Store S} {E : Type} `{!Environment S E}.
Context (cfg : Config).
Implicit Types (e : Engine S E).

Definition epoch_grows e e' : Prop := epoch (state e) <= epoch (state e').

#[export] Instance epoch_grows_preorder : PreOrder epoch_grows.
Proof. split; unfold epoch_grows; [by intros e|]. intros e1 e2 e3. lia. Qed.

Lemma epoch_same e e' : epoch (state e') = epoch (state e) -> epoch_grows e e'.
Proof. unfold epoch_grows. lia. Qed.

Lemma epoch_still {A} (m : M S E A) : keeps still m -> keeps epoch_grows m.
Proof. apply keeps_mono. intros e e' [Hs _]. apply epoch_same. by rewrite Hs. Qed.

Lemma epoch_modify (f : Engine S E -> Engine S E) : (forall e, state (f e) = state e) -> keeps epoch_grows (modify f).
Proof. intros Hf. apply keeps_modify. intros e. apply epoch_same. by rewrite Hf. Qed.

Lemma epoch_chain {A} (f : Chain S -> outcome (A * Chain S)) : keeps epoch_grows (on_chain (E := E) f).
Proof. apply keeps_on_chain. intros e a c _. by apply epoch_same. Qed.

Lemma epoch_range s : keeps epoch_grows (range_votes (E := E) s).
Proof. apply epoch_still, still_range. Qed.
Lemma epoch_majority vs s : keeps epoch_grows (has_majority (E := E) vs s).
Proof. apply epoch_still, still_has_majority. Qed.
Lemma epoch_now : keeps epoch_grows (unix_now (E := E)).
Proof. intros e t e'. unfold unix_now. destruct (Now (env e)). intros [= _ <-]. by apply epoch_same. Qed.
Lemma epoch_height : keeps epoch_grows (main_chain_height (E := E)).
Proof. intros e t e'. unfold main_chain_height. destruct (GetMainchainBlockHeight (env e)). intros [= _ <-]. by apply epoch_same. Qed.
Lemma epoch_reset b : keeps epoch_grows (reset_state (E := E) b).
Proof. intros e r e'. unfold reset_state. destruct (ResetState _ _ _) as [[]| |]; [|done|done]. intros [= _ <-]. by apply epoch_same. Qed.
Lemma epoch_apply b : keeps epoch_grows (apply_block_txs (E := E) b).
Proof. intros e r e'. unfold apply_block_txs. destruct (ApplyBlockTxs _ _ _) as [[[]]| |]; [|done|done]. intros [= _ <-]. by apply epoch_same. Qed.
Lemma epoch_propose_txs b d : keeps epoch_grows (propose_block_txs (E := E) b d).
Proof. intros e r e'. unfold propose_block_txs. destruct (ProposeBlockTxs _ _ _ _) as [[[[]]]| |]; [|done|done]. intros [= _ <-]. by apply epoch_same. Qed.
Lemma epoch_finalize_previous h : keeps epoch_grows (finalize_previous (E := E) cfg h).
Proof. intros e r e'. unfold finalize_previous. destruct (FinalizePreviousBlocks _ _ _ _) as [[]|]; [|done]. intros [= _ <-]. by apply epoch_same. Qed.

(** The setters of other fields. *)
Ltac epoch_setter := apply keeps_on_state; intros e st Hst; apply epoch_same;
  first [apply commit_inv in Hst as (r & _ & ->) | injection Hst as <-]; done.

Lemma epoch_set_lfb b : keeps epoch_grows (on_state (E := E) (fun s => SetLastFinalizedBlock s b)).
Proof. epoch_setter. Qed.
Lemma epoch_set_hcc b : keeps epoch_grows (on_state (E := E) (fun s => SetHighestCCBlock s b)).
Proof. epoch_setter. Qed.
Lemma epoch_set_vote v : keeps epoch_grows (on_state (E := E) (fun s => SetLastVote s v)).
Proof. epoch_setter. Qed.
Lemma epoch_set_proposal p : keeps epoch_grows (on_state (E := E) (fun s => Ok (with_proposal s p))).
Proof. epoch_setter. Qed.
Lemma epoch_add_vote v order : keeps epoch_grows (on_state (E := E) (fun s => Ok (State_AddVote s v order))).
Proof. epoch_setter. Qed.

Lemma epoch_spawn m : keeps epoch_grows (spawn (S := S) (E := E) m).
Proof. by apply epoch_modify. Qed.
Lemma epoch_broadcast v : keeps epoch_grows (broadcastVote (S := S) (E := E) v).
Proof. by apply epoch_modify. Qed.
Lemma epoch_publish b : keeps epoch_grows (publish (S := S) (E := E) cfg b).
Proof. apply epoch_modify. intros e. by case_match. Qed.

#[local] Hint Resolve epoch_chain epoch_range epoch_majority epoch_now epoch_height epoch_reset epoch_apply
  epoch_propose_txs epoch_finalize_previous epoch_set_lfb epoch_set_hcc epoch_set_vote epoch_set_proposal
  epoch_add_vote epoch_spawn epoch_broadcast epoch_publish : keeps.
#[local] Hint Extern 1 (keeps epoch_grows (modify _)) => by apply epoch_modify : keeps.

Lemma epoch_sync : keeps epoch_grows (checkSyncStatus (E := E)).
Proof. unfold checkSyncStatus, isSyncing. keeps_tac. Qed.
#[local] Hint Resolve epoch_sync : keeps.

Lemma epoch_finalizeBlock b : keeps epoch_grows (finalizeBlock (E := E) cfg b).
Proof. unfold finalizeBlock. keeps_tac. Qed.
#[local] Hint Resolve epoch_finalizeBlock : keeps.

Lemma epoch_checkCC h : keeps epoch_grows (checkCC (E := E) cfg h).
Proof. unfold checkCC, processCCBlock, commit_cc. keeps_tac. Qed.

Lemma epoch_vote : keeps epoch_grows (vote (E := E) cfg).
Proof. unfold vote, choose_vote, createVote. keeps_tac. Qed.

Lemma epoch_validateBlock b p : keeps epoch_grows (validateBlock (E := E) cfg b p).
Proof.
  unfold validateBlock, and_then, validate_parent, validate_hcc, hcc_valid, validate_confirmations, validate_proposer.
  keeps_tac.
Qed.
#[local] Hint Resolve epoch_checkCC epoch_vote epoch_validateBlock : keeps.

Lemma epoch_begin : keeps epoch_grows (begin_epoch (E := E) cfg).
Proof.
  unfold begin_epoch, enterEpoch, propose, choose_proposal, validatorMajorityInTheSameDynasty, createProposal, store_proposal,
    draft_block, proposal_votes. keeps_tac.
Qed.
#[local] Hint Resolve epoch_begin : keeps.

(** A vote that is not of the last epoch, if it validates at all. *)
Definition low_vote (v : Vote) : Prop := validateVote v = true -> 0 <= Epoch v < two64 - 1.

Lemma epoch_advance v cur e a e' :
  validateVote v = true -> low_vote v -> epoch (state e) <= Epoch v ->
  advance_epoch cfg v cur e = Ok (a, e') -> epoch_grows e e'.
Proof.
  intros Hv Hlow Hep Hrun. unfold advance_epoch in Hrun.
  step Hrun as ep e1 H1. apply reads_GetEpoch in H1 as ->.
  step Hrun as u e2 H2. step Hrun as tip e3 H3. apply reads_GetTipToExtend in H3 as ->.
  step Hrun as pr e4 H4. apply reads_NextProposerOf in H4 as ->. step Hrun as u' e5 H5.
  apply on_state_inv in H5 as (st & Hset & ->).
  assert (Hst : still e e2) by (eapply (keeps_if_broadcast v cur ep); exact H2).
  etrans; [|by eapply epoch_sync]. unfold epoch_grows. cbn [state with_state].
  apply commit_inv in Hset as (r & _ & ->). cbn. specialize (Hlow Hv).
  unfold u64_add, wrap64. rewrite Z.mod_small; lia.
Qed.

Lemma epoch_handleVote v : low_vote v -> keeps epoch_grows (handleVote (E := E) cfg v).
Proof.
  intros Hlow e a e' Hrun. unfold handleVote in Hrun.
  destruct (validateVote v) eqn:Hv; cbn [negb] in Hrun; [|injection Hrun as <- <-; reflexivity].
  step Hrun as u e1 H1. etrans; [assert (Hk : keeps epoch_grows (save_vote (E := E) v)) by (unfold save_vote; keeps_tac); by eapply Hk|clear H1].
  step Hrun as lfb e2 H2. apply reads_LFB in H2 as ->.
  step Hrun as nv e3 H3. apply reads_NextValidatorSetOf in H3 as ->.
  step Hrun as ep e4 H4. injection H4 as <- <-.
  destruct (epoch (state e1) <=? Epoch v) eqn:Hep; [|injection Hrun as <- <-; reflexivity].
  apply Z.leb_le in Hep. step Hrun as al e5 H5. injection H5 as <- <-.
  destruct (GetEpochVotes (state e1)) as [votes|]; [|done].
  step Hrun as order e6 H6. step Hrun as maj e7 H7.
  assert (Hst : still e1 e7) by (etrans; [by eapply still_range|by eapply still_has_majority]).
  etrans; [apply (epoch_same e1 e7); by destruct Hst as [-> _]|]. destruct maj; [|injection Hrun as <- <-; reflexivity].
  step Hrun as u7 e8 H8. injection Hrun as <- <-.
  eapply epoch_advance; [done|done| |exact H8]. by destruct Hst as [-> _].
Qed.

Lemma keeps_for_each_in {A} (R : Engine S E -> Engine S E -> Prop) `{!PreOrder R} (f : A -> M S E unit) l :
  (forall x, x ∈ l -> keeps R (f x)) -> keeps R (for_each f l).
Proof.
  intros Hf. induction l as [|x l IH]; cbn [for_each]; [apply reads_keeps; eauto with reads|].
  apply keeps_bind; [done|apply Hf; constructor|]. intros _. apply IH. intros y Hy. apply Hf. by constructor.
Qed.

Lemma epoch_handle_hcc b : Forall low_vote (certificate_votes b) -> keeps epoch_grows (handle_hcc (E := E) cfg b).
Proof.
  unfold certificate_votes, handle_hcc. intros Hlow e a e' Hrun. step Hrun as votes e1 H1.
  destruct (CCVotes (block_hcc b)) as [s|]; [|done]. injection H1 as -> ->.
  step Hrun as order e2 H2. etrans; [by eapply epoch_range|].
  assert (Ho : order ≡ₚ range votes).
  { unfold range_votes in H2. pose proof (iterate_ok (env e1) votes) as Hi. destruct (iterate (env e1) votes).
    by injection H2 as <- _. }
  revert Hrun. match goal with |- ?m _ = _ -> _ => assert (Hk : keeps epoch_grows m); [|exact (Hk e2 a e')] end.
  apply keeps_bind; [apply _| |intros; keeps_tac]. apply keeps_for_each_in; [apply _|]. intros v Hv.
  apply keeps_bind; [apply _| |intros; keeps_tac]. apply epoch_handleVote. rewrite Votes_perm, Ho in Hv.
  rewrite Forall_forall in Hlow. by apply Hlow.
Qed.

Lemma epoch_handleNormalBlock eb :
  Forall low_vote (certificate_votes (EBlock eb)) -> keeps epoch_grows (handleNormalBlock (E := E) cfg eb).
Proof.
  intros Hlow. pose proof (epoch_handle_hcc (EBlock eb) Hlow).
  unfold handleNormalBlock, accept_block, mark_invalid. keeps_tac.
Qed.

Lemma epoch_handleHardcodeBlock h : keeps epoch_grows (handleHardcodeBlock (E := E) h).
Proof. unfold handleHardcodeBlock. keeps_tac. Qed.

Lemma epoch_event ev e u e' : Forall low_vote (received ev e) -> loop_event cfg ev e = Ok (u, e') -> epoch_grows e e'.
Proof.
  intros Hlow Hrun. unfold loop_event in Hrun. step Hrun as endEpoch e1 H1.
  etrans; [clear Hrun|revert Hrun; destruct endEpoch; [by apply epoch_begin|by intros [= _ <-]]].
  destruct ev as [|[v|b]| |]; cbn [on_event processMessage received] in *.
  - revert H1. match goal with |- ?m _ = _ -> _ => assert (Hk : keeps epoch_grows m); [keeps_tac|exact (Hk e endEpoch e1)] end.
  - apply Forall_inv in Hlow. pose proof (epoch_handleVote v Hlow).
    revert H1. match goal with |- ?m _ = _ -> _ => assert (Hk : keeps epoch_grows m); [keeps_tac|exact (Hk e endEpoch e1)] end.
  - step H1 as u1 e2 H2. injection H1 as _ <-. unfold handleBlock in H2. step H2 as found e3 H3. injection H3 as <- <-.
    destruct (findBlock _ _) as [eb|]; [|done].
    destruct (hardcoded _ _); [by eapply epoch_handleHardcodeBlock|by eapply epoch_handleNormalBlock].
  - revert H1. match goal with |- ?m _ = _ -> _ => assert (Hk : keeps epoch_grows m); [keeps_tac|exact (Hk e endEpoch e1)] end.
  - revert H1. match goal with |- ?m _ = _ -> _ => assert (Hk : keeps epoch_grows m); [keeps_tac|exact (Hk e endEpoch e1)] end.
Qed.

Lemma epoch_step votes e e' : vote_inv e -> receiving_step cfg e votes e' -> Forall low_vote votes -> epoch_grows e e'.
Proof.
  intros Hinv [ev e2 Hrun|block eb c Hc Hu Ha|st x Hn|a b e2 Hh Hrun] Hlow.
  - by eapply epoch_event.
  - by apply epoch_same.
  - destruct Hinv as (_ & (st' & Hn' & Hcore) & _). rewrite Hn in Hn'. injection Hn' as <-.
    destruct Hcore as (_ & _ & _ & H4). by apply epoch_same.
  - revert Hrun. eapply (keeps_start cfg epoch_grows); [done|apply epoch_reset|apply epoch_sync|apply epoch_begin].
Qed.

Lemma epoch_run votes e e' : vote_inv e -> engine_run cfg votes e e' -> Forall low_vote votes -> epoch_grows e e'.
Proof.
  intros Hinv Hr. induction Hr as [e|e votes e1 rest e' Hs _ IH]; [done|]. intros [Hv Hrest]%Forall_app.
  etrans; [by eapply epoch_step|]. apply IH; [|done]. eapply engine_step_inv; [exact Hinv|by exists votes].
Qed.

End Epochs.

(** ** A concrete node for the witnesses *)

Definition demo_votes : VoteCrypto := {|
  EncodeVote v := pretty (Vote.Block v) +:+ "/" +:+ pretty (Epoch v);
  Sig_IsEmpty _ := false;
  Sig_Verify sig _ _ := String.eqb sig "sig"
|}.

(** One validator, the node itself, and a ledger that accepts every block. *)
Definition demo_validators : ValidatorSet := AddValidator (NewValidatorSet 0) (mkValidator 42 10).

#[export] Instance demo_environment : @Environment demo_crypto (gmap Key Value) _ unit.
Proof.
  refine {|
    iterate e s := (range s, e);
    Now e := (100, e);
    GetMainchainBlockHeight e := (Some 5, e);
    ResetState e _ _ := Ok (ROk None, e);
    ApplyBlockTxs e c _ := Ok (ROk None, e, c);
    ProposeBlockTxs e c _ _ := Ok (ROk None, (7, ["tx"]), e, c);
    FinalizeState e _ _ := e;
    GetValidatorSet _ _ _ := Ok demo_validators;
    GetNextValidatorSet _ _ _ := Ok demo_validators;
    GetNextProposer _ _ _ _ := Ok (mkValidator 42 10)
  |}.
  - intros e s. unfold iterates. reflexivity.
  - intros e c b r e' c' [= _ _ <-]. reflexivity.
  - intros e c b d r x e' c' [= _ _ _ <-]. reflexivity.
Defined.

Definition demo_config : Config :=
  mkConfig 42 (fun _ => "sig") toy_hex toy_unhex no_eth HardcodeBlockHashes 8 20.

Definition demo_fresh : State (gmap Key Value) :=
  match @NewState demo_crypto _ _ (mkStateDB None None) demo0 with Ok s => s | _ => demo_state0 end.

Definition demo_engine : Engine (gmap Key Value) unit :=
  mkEngine demo_fresh tt false false false false [] [] [].

(** A block whose certificate has a vote set. *)
Definition certified (height : Z) (votes : VoteSet) : Block.Block :=
  mkBlock (mkHeader "tsub360777" height height (demo_hash (height - 1))
             (mkCC (Some votes) (demo_hash (height - 1))) 0 0 0 0 (Some height) 42 (Some "sig") 0)
    ["tx"].

Definition synced (b : Block.Block) (e : Engine (gmap Key Value) unit) : Engine (gmap Key Value) unit :=
  with_state (with_chain (state e) (added (@AddBlock demo_crypto _ _ no_eth (chain (state e)) b))) e.

(** The sync manager delivers a block, the engine processes it, and votes when the
    epoch times out. *)
Definition demo_run1 : Engine (gmap Key Value) unit := synced (certified 1 NewVoteSet) demo_engine.
Definition demo_run2 : Engine (gmap Key Value) unit :=
  @after demo_crypto demo_votes _ _ _ _ demo_config (EvMessage (MBlock (certified 1 NewVoteSet))) demo_run1.
Definition demo_run3 : Engine (gmap Key Value) unit :=
  @after demo_crypto demo_votes _ _ _ _ demo_config EvEpochTimer demo_run2.

Lemma demo_fresh_ok : @NewState demo_crypto _ _ (mkStateDB None None) demo0 = Ok demo_fresh.
Proof.
  unfold demo_fresh.
  assert (Hok : is_ok (@NewState demo_crypto _ _ (mkStateDB None None) demo0) = true)
    by (vm_compute; reflexivity).
  by destruct (NewState _ _).
Qed.

Lemma demo_vote_inv : @vote_inv demo_crypto _ _ _ demo_engine.
Proof.
  apply (fresh_vote_inv (mkStateDB None None) demo0).
  - exact demo_fresh_ok.
  - apply (@check_blocks_ok demo_crypto). vm_compute. reflexivity.
  - apply check_heights. vm_compute. reflexivity.
  - vm_compute. reflexivity.
Qed.

Lemma demo_steps2 : rtc (@engine_step demo_crypto demo_votes _ _ _ _ demo_config) demo_engine demo_run2.
Proof.
  apply (rtc_l _ _ demo_run1).
  { exists []. eapply (step_sync _ _ (certified 1 NewVoteSet)); [left; reflexivity|by vm_compute|].
    apply added_ok. vm_compute. reflexivity. }
  apply rtc_once, after_step. vm_compute. reflexivity.
Qed.

Lemma demo_steps : rtc (@engine_step demo_crypto demo_votes _ _ _ _ demo_config) demo_engine demo_run3.
Proof. eapply rtc_r; [exact demo_steps2|]. apply after_step. vm_compute. reflexivity. Qed.

Lemma demo_chain_inv e :
  rtc (@engine_step demo_crypto demo_votes _ _ _ _ demo_config) demo_engine e ->
  @chain_inv demo_crypto _ _ (chain (state e)).
Proof.
  intros Hsteps. destruct (progress_steps _ _ _ demo_vote_inv Hsteps) as (Hs & _).
  eapply steps_chain_inv; [|exact Hs]. cbn [state demo_engine].
  destruct (restart_inv _ _ _ demo_fresh_ok) as [-> _]. exact demo0_inv.
Qed.

(** The only validator votes in epoch 5, and then in the last one. *)
Definition demo_vote (ep : Z) : Vote := @Sign demo_votes (fun _ => "sig") (mkVote (demo_hash 1) 1 5 ep 42 None).
Definition demo_later : Engine (gmap Key Value) unit :=
  @after demo_crypto demo_votes _ _ _ _ demo_config (EvMessage (MVote (demo_vote 5))) demo_engine.
Definition demo_wrapped : Engine (gmap Key Value) unit :=
  @after demo_crypto demo_votes _ _ _ _ demo_config (EvMessage (MVote (demo_vote (two64 - 1)))) demo_later.

Lemma demo_wrap_run :
  @engine_run demo_crypto demo_votes _ _ _ _ demo_config [demo_vote 5; demo_vote (two64 - 1)] demo_engine demo_wrapped.
Proof.
  eapply (run_step _ _ [demo_vote 5] demo_later [demo_vote (two64 - 1)]);
    [|eapply (run_step _ _ [demo_vote (two64 - 1)] demo_wrapped []); [|apply run_nil]].
  - apply (step_event _ _ (EvMessage (MVote (demo_vote 5)))), after_ok. vm_compute. reflexivity.
  - apply (step_event _ _ (EvMessage (MVote (demo_vote (two64 - 1))))), after_ok. vm_compute. reflexivity.
Qed.

(** ** Properties *)

(** C1 (vote safety). Along every run of a node, through events of the main
    loop, blocks stored by the sync manager and restarts from the database,
    the votes the node casts have heights that never decrease, and two votes
    cast at the same height above the genesis are for the same block. *)
Theorem vote_safety `{BlockCrypto} `{VoteCrypto} {S} `{!Store S} {E} `{!Environment S E} cfg
    (e e' : Engine S E) :
  vote_inv e -> rtc (engine_step cfg) e e' -> consistent (cast_votes e').
Proof.
  intros Hinv Hsteps. assert (Hinv' : vote_inv e'); [|apply Hinv'].
  induction Hsteps; [done|]. eauto using engine_step_inv.
Qed.

Lemma vote_safety_witness :
  consistent (cast_votes demo_run3) /\ Vote.Block <$> cast_votes demo_run3 = [demo_hash 1].
Proof.
  split; [|vm_compute; reflexivity].
  apply (@vote_safety demo_crypto demo_votes _ _ _ _ demo_config demo_engine demo_run3).
  - exact demo_vote_inv.
  - exact demo_steps.
Defined.

(** C13 (progress). Along every run of a node, restarts included, the chain
    only evolves through the operations of the block store, so that no block
    is lost or altered and the store stays consistent; the highest committed
    block is only replaced by higher ones, without hardcoded blocks; and the
    epoch does not decrease, unless a vote of the last 64-bit epoch that
    validates is among the votes the node receives in the run, in messages or
    in certificates of blocks: the epoch after that one is zero. *)
Theorem engine_progress `{BlockCrypto} `{VoteCrypto} {S} `{!Store S} {E} `{!Environment S E} cfg
    (votes : list Vote) (e e' : Engine S E) :
  vote_inv e -> engine_run cfg votes e e' ->
  rtc (chain_step (CalcEthTxHash cfg)) (chain (state e)) (chain (state e')) /\
  keeps_blocks (chain (state e)) (chain (state e')) /\
  (chain_inv (chain (state e)) -> chain_inv (chain (state e'))) /\
  (hardcode cfg = [] -> hcc_grows e e') /\
  (Forall (fun v => is_u64 (Epoch v)) votes -> epoch (state e') < epoch (state e) ->
   exists v, v ∈ votes /\ validateVote v = true /\ Epoch v = two64 - 1).
Proof.
  intros Hinv Hrun. assert (Hsteps : rtc (engine_step cfg) e e') by (apply run_iff; by exists votes).
  destruct (progress_steps cfg e e' Hinv Hsteps) as (Hs & Hhcc).
  pose proof Hinv as ([Hb Hh] & _). split_and!; try done.
  - by destruct (steps_evolve _ _ _ Hb Hh Hs) as (_ & _ & Hk & _).
  - intros Hc. by eapply steps_chain_inv.
  - intros Hc. by apply Hhcc.
  - intros Hu Hlt. destruct (decide (Exists (fun v => validateVote v = true /\ Epoch v = two64 - 1) votes)) as [Hex|Hno].
    { apply Exists_exists in Hex as (v & ? & ? & ?). eauto. }
    exfalso. assert (Hlow : Forall low_vote votes); [|pose proof (epoch_run cfg votes e e' Hinv Hrun Hlow) as Hg; unfold epoch_grows in Hg; lia].
    apply Forall_Exists_neg in Hno.
    rewrite Forall_forall in Hno, Hu |- *. intros v Hv Hval. pose proof (Hu v Hv) as Huv. specialize (Hno v Hv).
    unfold is_u64 in Huv. assert (Epoch v <> two64 - 1) by naive_solver. lia.
Qed.

(** A vote of the last epoch sets the epoch back from 6 to 0. *)
Lemma engine_progress_witness :
  @hcc_grows _ _ _ demo_engine demo_wrapped /\ epoch (state demo_later) = 6 /\ epoch (state demo_wrapped) = 0 /\
  exists v, v ∈ [demo_vote (two64 - 1)] /\ @validateVote demo_votes v = true /\ Epoch v = two64 - 1.
Proof.
  destruct (@engine_progress demo_crypto demo_votes _ _ _ _ demo_config _ demo_engine demo_wrapped demo_vote_inv demo_wrap_run)
    as (_ & _ & _ & Hhcc & _).
  split; [apply Hhcc; reflexivity|]. split; [vm_compute; reflexivity|]. split; [vm_compute; reflexivity|].
  assert (Hinv : @vote_inv demo_crypto _ _ _ demo_later).
  { eapply (engine_step_inv demo_config demo_engine); [exact demo_vote_inv|]. apply after_step. vm_compute. reflexivity. }
  apply (@engine_progress demo_crypto demo_votes _ _ _ _ demo_config [demo_vote (two64 - 1)] demo_later demo_wrapped Hinv).
  - apply (run_step _ _ [demo_vote (two64 - 1)] demo_wrapped []); [|apply run_nil].
    apply (step_event _ _ (EvMessage (MVote (demo_vote (two64 - 1))))), after_ok. vm_compute. reflexivity.
  - repeat constructor; vm_compute; discriminate.
  - vm_compute. reflexivity.
Defined.
