(* ===== verification/EngineRules.v ===== *)
(** * Rules of the consensus engine: tip, validation and commit

    What the choice of the tip returns and that it ends, when a block is
    accepted, and when the engine moves its committed and finalized blocks. *)

From stdpp Require Import gmap sorting relations.
From stdpp Require Import base list numbers strings.
From S2P Require Import Prelude Vote Validator Block Chain ConsensusState Engine EngineSafety.
Local Open Scope string_scope.
Local Open Scope list_scope.
Local Open Scope Z_scope.

(** ** The tip *)

Section Tip.
Context `{BlockCrypto} `{VoteCrypto} {S : Type} `{!Store S} {E : Type} `{!Environment S E}.
Implicit Types (c : Chain S) (e : Engine S E).

(** A block the search goes through. *)
Definition extendable (leaf : bool) (b : ExtendedBlock) : bool :=
  IsValid (Status b) && (leaf || negb (HasValidatorUpdate b)).

(** [reaches c leaf s b]: children links through such blocks lead from [s] to [b]. *)
Inductive reaches c (leaf : bool) : ExtendedBlock -> ExtendedBlock -> Prop :=
| reach_here s : extendable leaf s = true -> reaches c leaf s s
| reach_child s h k b :
    extendable leaf s = true -> h ∈ Children s -> findBlock c h = Some k ->
    reaches c leaf k b -> reaches c leaf s b.

(** A stored child of a stored block. *)
Definition child_of c (k b : ExtendedBlock) : Prop :=
  is_stored c b /\ exists h, h ∈ Children b /\ findBlock c h = Some k.

Lemma tip_loop_step n c leaf curr rest cand :
  tip_loop (Datatypes.S n) c leaf (curr :: rest) cand =
  if extendable leaf curr then
    kids ← load_children c (Children curr);
    tip_loop n c leaf (rev kids ++ rest) (if EBHeight cand <? EBHeight curr then curr else cand)
  else tip_loop n c leaf rest cand.
Proof.
  cbn [tip_loop]. unfold extendable. destruct (IsValid (Status curr)); [|done].
  destruct leaf, (HasValidatorUpdate curr); done.
Qed.

Lemma load_children_inv c l bs : load_children c l = Ok bs ->
  Forall2 (fun h b => findBlock c h = Some b) l bs.
Proof.
  revert bs. induction l as [|h l IH]; intros bs; cbn [load_children]; [by intros [= <-]|].
  destruct (findBlock c h) as [b|] eqn:Hb; [|done].
  destruct (load_children c l) as [bs'| |]; cbn; try done. intros [= <-].
  constructor; [done|by apply IH].
Qed.

Lemma load_children_ok c l : Forall (fun h => is_Some (findBlock c h)) l ->
  exists bs, load_children c l = Ok bs.
Proof.
  induction 1 as [|h l [b Hb] _ [bs IH]]; cbn [load_children]; [eauto|]. rewrite Hb, IH. cbn. eauto.
Qed.

(** The loop returns a reachable block of the greatest height. *)
Lemma tip_loop_max n c leaf stack cand tip :
  tip_loop n c leaf stack cand = Ok tip ->
  EBHeight cand <= EBHeight tip /\
  (tip = cand \/ exists s, s ∈ stack /\ reaches c leaf s tip) /\
  (forall s b, s ∈ stack -> reaches c leaf s b -> EBHeight b <= EBHeight tip).
Proof.
  revert stack cand. induction n as [|n IH]; intros [|curr rest] cand Hrun.
  1, 3: injection Hrun as <-; split_and!; [lia|by left|]; by intros s b Hs%elem_of_nil.
  { done. }
  rewrite tip_loop_step in Hrun. destruct (extendable leaf curr) eqn:Hext.
  - destruct (load_children c (Children curr)) as [kids| |] eqn:Hk; cbn in Hrun; try done.
    apply load_children_inv in Hk. apply IH in Hrun as (Hle & Hor & Hmax).
    assert (Hcur : EBHeight cand <= EBHeight tip /\ EBHeight curr <= EBHeight tip)
      by (destruct (Z.ltb_spec (EBHeight cand) (EBHeight curr)); lia).
    split_and!; [lia| |].
    + destruct Hor as [->|(s & Hs & Hr)].
      * destruct (_ <? _); [right|by left]. exists curr. split; [by left|by apply reach_here].
      * right. apply elem_of_app in Hs as [Hs|Hs]; [|exists s; split; [by right|done]].
        exists curr. split; [by left|]. apply list_elem_of_In, in_rev, list_elem_of_In in Hs.
        apply list_elem_of_lookup_1 in Hs as [i Hi].
        destruct (Forall2_lookup_r _ _ _ _ _ Hk Hi) as (h & Hh & Hf).
        eapply reach_child; [done|by eapply list_elem_of_lookup_2|done|done].
    + intros s b [->|Hs]%elem_of_cons Hr.
      * inversion Hr as [|s' h k b' _ Hh Hf Hr']; subst; [lia|].
        apply list_elem_of_lookup_1 in Hh as [i Hi].
        destruct (Forall2_lookup_l _ _ _ _ _ Hk Hi) as (k' & Hk' & Hf'). simplify_eq.
        eapply Hmax; [|exact Hr']. apply elem_of_app. left.
        apply list_elem_of_In. rewrite <- in_rev. apply list_elem_of_In. by eapply list_elem_of_lookup_2.
      * eapply (Hmax s); [|done]. apply elem_of_app. by right.
  - apply IH in Hrun as (Hle & Hor & Hmax). split_and!; [done| |].
    + destruct Hor as [->|(s & Hs & Hr)]; [by left|]. right. exists s. split; [by right|done].
    + intros s b [->|Hs]%elem_of_cons Hr; [|by eapply Hmax]. inversion Hr; congruence.
Qed.

(** The loop ends with enough fuel on any candidate. *)
Definition ends c leaf (n : nat) (stack : list ExtendedBlock) : Prop :=
  forall m cand, (n <= m)%nat -> exists tip, tip_loop m c leaf stack cand = Ok tip.

Definition children_stored c : Prop :=
  forall h b k, findBlock c h = Some b -> k ∈ Children b -> is_Some (findBlock c k).

Lemma ends_push c leaf s :
  children_stored c -> Acc (child_of c) s -> is_stored c s ->
  forall rest n, ends c leaf n rest -> exists n', ends c leaf n' (s :: rest).
Proof.
  intros Hch. induction 1 as [s _ IH]. intros Hs rest n Hn.
  destruct (extendable leaf s) eqn:Hext.
  2: { exists (Datatypes.S n). intros [|m] cand Hm; [lia|]. rewrite tip_loop_step, Hext.
       apply Hn. lia. }
  destruct (load_children_ok c (Children s)) as [kids Hk].
  { apply Forall_forall. intros k Hk. destruct Hs as [h Hh]. by eapply Hch. }
  assert (Hkids : Forall (fun k => child_of c k s) (rev kids)).
  { apply Forall_rev. apply load_children_inv in Hk. apply Forall_lookup. intros i k Hi.
    destruct (Forall2_lookup_r _ _ _ _ _ Hk Hi) as (h & Hh & Hf). split; [done|].
    exists h. split; [by eapply list_elem_of_lookup_2|done]. }
  assert (exists n', ends c leaf n' (rev kids ++ rest)) as [n' Hn'].
  { clear Hk. induction Hkids as [|k ks Hk _ IHks]; [by exists n|].
    destruct IHks as [n1 Hn1]. apply (IH k Hk) with n1; [|done].
    destruct Hk as (_ & h & _ & Hf). by exists h. }
  exists (Datatypes.S n'). intros [|m] cand Hm; [lia|]. rewrite tip_loop_step, Hext, Hk. cbn.
  apply Hn'. lia.
Qed.

Lemma chain_children_stored c : chain_inv c -> children_stored c.
Proof. intros (_ & _ & _ & Hl) h b k Hb Hk. destruct (Hl h b k Hb Hk) as (cb & -> & _). eauto. Qed.

Lemma child_wf_height c bound :
  (forall k b, child_of c k b -> EBHeight b < EBHeight k <= bound) -> well_founded (child_of c).
Proof.
  intros Hh. apply (wf_projected lt (fun b => Z.to_nat (bound - EBHeight b))); [|apply lt_wf].
  intros k b Hkb. apply Hh in Hkb. lia.
Qed.
End Tip.

(** The concrete node after it processed a block. *)

Definition demo_hcc : ExtendedBlock :=
  default (mkExtendedBlock demo_root [] BlockStatusPending false)
    (findBlock (chain (state demo_run2)) (highestCCBlock (state demo_run2))).

Lemma demo_run2_hcc :
  findBlock (chain (state demo_run2)) (highestCCBlock (state demo_run2)) = Some demo_hcc.
Proof.
  unfold demo_hcc.
  assert (Hs : bool_decide (is_Some (findBlock (chain (state demo_run2)) (highestCCBlock (state demo_run2)))) = true)
    by (vm_compute; reflexivity).
  apply bool_decide_eq_true_1 in Hs as [b ->]. done.
Qed.

Definition rising (c : Chain (gmap Key Value)) (_ : Hash) (b : ExtendedBlock) : bool :=
  forallb (fun h => match findBlock c h with
                    | Some k => (EBHeight b <? EBHeight k) && (EBHeight k <=? 10)
                    | None => true end) (Children b).

Lemma check_rising (c : Chain (gmap Key Value)) :
  check_blocks (rising c) c = true -> well_founded (child_of c).
Proof.
  intros Hall. apply (child_wf_height c 10). intros k b ([h0 Hb] & h & Hh & Hk).
  pose proof (check_blocks_sound _ _ Hall h0 b Hb) as Hr. unfold rising in Hr.
  rewrite forallb_forall in Hr. specialize (Hr h). rewrite Hk in Hr.
  apply list_elem_of_In, Hr, andb_prop in Hh as [Hlt Hle]. split; [by apply Z.ltb_lt|by apply Z.leb_le].
Qed.

Lemma demo_run2_wf : well_founded (child_of (chain (state demo_run2))).
Proof. apply check_rising. vm_compute. reflexivity. Qed.

(** ** Properties: the tip *)

(** (tip). On a consistent chain without cycles of children links,
    [GetTip] ends with enough fuel and changes nothing; it returns the highest
    committed block or a block reached from it through valid blocks (blocks
    without a pending validator update unless leaves are included), and none
    of these is higher. *)
Theorem GetTip_spec `{BlockCrypto} `{VoteCrypto} {S} `{!Store S} {E} `{!Environment S E}
    (e : Engine S E) leaf hcc :
  chain_inv (chain (state e)) -> well_founded (child_of (chain (state e))) ->
  findBlock (chain (state e)) (highestCCBlock (state e)) = Some hcc ->
  exists n, forall cfg, (n <= fuel cfg)%nat ->
    exists tip, GetTip cfg leaf e = Ok (tip, e) /\
      (tip = hcc \/ reaches (chain (state e)) leaf hcc tip) /\
      (forall b, reaches (chain (state e)) leaf hcc b -> EBHeight b <= EBHeight tip).
Proof.
  intros Hinv Hwf Hhcc.
  destruct (ends_push (chain (state e)) leaf hcc (chain_children_stored _ Hinv) (Hwf hcc)
              (ex_intro _ _ Hhcc) [] 0) as [n Hn].
  { intros m cand _. exists cand. by destruct m. }
  exists n. intros cfg Hf. destruct (Hn (fuel cfg) hcc Hf) as [tip Htip]. exists tip. split.
  - unfold GetTip, HighestCCBlock, GetHighestCCBlock, cur_chain, gets, lift, mbind, M_bind.
    by rewrite Hhcc, Htip.
  - destruct (tip_loop_max _ _ _ _ _ _ Htip) as (_ & Hor & Hmax). split.
    + destruct Hor as [?|(s & ->%list_elem_of_singleton & Hr)]; [by left|by right].
    + intros b Hb. eapply Hmax; [|done]. by left.
Qed.

Lemma GetTip_spec_witness :
  exists n, forall cfg, (n <= fuel cfg)%nat ->
    exists tip, @GetTip _ _ _ cfg true demo_run2 = Ok (tip, demo_run2) /\
      (forall b, reaches (chain (state demo_run2)) true demo_hcc b -> EBHeight b <= EBHeight tip).
Proof.
  destruct (@GetTip_spec demo_crypto demo_votes _ _ _ _ demo_run2 true demo_hcc) as [n Hn].
  - apply demo_chain_inv, demo_steps2.
  - apply demo_run2_wf.
  - apply demo_run2_hcc.
  - exists n. intros cfg Hf. destruct (Hn cfg Hf) as (tip & Ht & _ & Hmax).
    exists tip. split; [exact Ht|exact Hmax].
Defined.

(** ** Block validation *)

Section Validation.
Context `{BlockCrypto} `{VoteCrypto} {S : Type} `{!Store S} {E : Type} `{!Environment S E}.
Context (cfg : Config).
Implicit Types (e : Engine S E).

Abbreviation ch e := (chain (state e)).

(** The height, timestamp, epoch and status rules. *)
Definition follows e (h : BlockHeader) (parent : ExtendedBlock) : Prop :=
  let ph := Header (EBlock parent) in
  exists lfb pts ts,
    findBlock (ch e) (lastFinalizedBlock (state e)) = Some lfb /\
    Timestamp ph = Some pts /\ Timestamp h = Some ts /\
    EBHeight lfb < BHeight h /\ BHeight h = u64_add (BHeight ph) 1 /\ pts < ts /\
    BEpoch ph < BEpoch h /\ IsValid (Status parent) = true.

(** The certificate of the block is for a stored ancestor that is finalized,
    or it is valid for the validators of that ancestor.  Checking it ranges
    over its votes. *)
Definition certified_hcc e (block : Block.Block) e' : Prop :=
  let cc := block_hcc block in
  IsDescendant (ch e) (CCBlockHash cc) (BlockHash block) = true /\
  exists b, findBlock (ch e) (CCBlockHash cc) = Some b /\
    (IsFinalized (Status b) = true /\ e' = e \/
     IsFinalized (Status b) = false /\ exists vs votes,
       GetValidatorSet (env e) (ch e) (CCBlockHash cc) = Ok vs /\ CCVotes cc = Some votes /\
       CC_IsValid cc (iterate (env e) votes).1 vs = true /\ e' = with_env (iterate (env e) votes).2 e).

(** Two direct confirmations after a validator update. *)
Definition confirms e (block : Block.Block) (parent : ExtendedBlock) : Prop :=
  let direct := CCBlockHash (block_hcc block) = Parent (Header block) in
  (HasValidatorUpdate parent = true -> direct) /\
  (EBParent parent <> 0 ->
     exists g, findBlock (ch e) (EBParent parent) = Some g /\ (HasValidatorUpdate g = true -> direct)).

(** The proposer of the block is the one of its epoch. *)
Definition proposed_by e (h : BlockHeader) : Prop :=
  BEpoch h <> 0 /\ exists v, GetNextProposer (env e) (ch e) (Parent h) (BEpoch h) = Ok v /\
    Hex cfg (VAddress v) = Hex cfg (Proposer h).

Lemma and_then_ok (m k : M S E (option string)) e e' :
  and_then m k e = Ok (None, e') <-> exists e1, m e = Ok (None, e1) /\ k e1 = Ok (None, e').
Proof.
  unfold and_then, mbind, M_bind. destruct (m e) as [[[msg|] e1]| |]; split.
  all: try (intros Hx; by inversion Hx). all: try (intros (e2 & Hx & Hk); by simplify_eq).
  intros Hk. eauto.
Qed.

Lemma validate_parent_ok block parent e e' :
  validate_parent block parent e = Ok (None, e') <-> follows e (Header block) parent /\ e' = e.
Proof.
  unfold validate_parent, LastFinalizedBlock, GetLastFinalizedBlock, lift, follows, mbind, M_bind.
  destruct (findBlock (ch e) (lastFinalizedBlock (state e))) as [lfb|] eqn:Hl;
    [|split; [done|]; intros [(? & ? & ? & ? & _) _]; done].
  split.
  - destruct (Z.leb_spec (BHeight (Header block)) (EBHeight lfb)); [done|].
    destruct (Z.eqb_spec (u64_add (BHeight (Header (EBlock parent))) 1) (BHeight (Header block))); cbn [negb]; [|done].
    destruct (Timestamp (Header (EBlock parent))) as [pts|]; cbn; [|done].
    destruct (Timestamp (Header block)) as [ts|]; cbn; [|done].
    destruct (Z.ltb_spec ts (pts + 1)); [done|].
    destruct (Z.leb_spec (BEpoch (Header block)) (BEpoch (Header (EBlock parent)))); [done|].
    destruct (IsValid (Status parent)); cbn; [|by case_match]. intros [= <-]. split; [|done].
    exists lfb, pts, ts. split_and!; (done || lia).
  - intros [(lfb' & pts & ts & [= <-] & Hp & Ht & H1 & H2 & H3 & H4 & H5) ->].
    rewrite (proj2 (Z.leb_gt _ _)), <- H2, Z.eqb_refl, Hp, Ht by lia. cbn.
    rewrite (proj2 (Z.ltb_ge _ _)) by lia. rewrite (proj2 (Z.leb_gt _ _)), H5 by lia. done.
Qed.

Lemma validate_hcc_ok block e e' :
  validate_hcc block e = Ok (None, e') <-> certified_hcc e block e'.
Proof.
  unfold validate_hcc, certified_hcc, cur_chain, FindBlock, gets, mbind, M_bind.
  destruct (IsDescendant _ _ _); cbn [negb]; [|split; [done|by intros [? _]]].
  destruct (findBlock (ch e) _) as [b|]; [|split; [done|by intros (_ & b & ? & _)]].
  destruct (IsFinalized (Status b)) eqn:Hf.
  { split; [intros [= <-]; split; [done|]; eexists; split; [done|by left]|].
    intros (_ & b' & [= <-] & [[_ ->]|[? _]]); [done|congruence]. }
  unfold hcc_valid, ValidatorSetOf, range_votes, lift, mbind, M_bind.
  destruct (GetValidatorSet _ _ _) as [vs| |] eqn:Hv.
  2, 3: split; [done|]; intros (_ & b' & [= <-] & [[? _]|(_ & vs & votes & ? & _)]); congruence.
  destruct (CCVotes (block_hcc block)) as [votes|] eqn:Hvotes.
  - destruct (iterate (env e) votes) as [l x] eqn:Hi. cbn. destruct (CC_IsValid _ _ _) eqn:Hcc; split; try done.
    + intros [= <-]. split; [done|]. exists b. split; [done|]. right. split; [done|].
      exists vs, votes. by rewrite Hi.
    + intros (_ & b' & [= <-] & [[? _]|(_ & vs' & votes' & [= <-] & [= <-] & Hc & ->)]); [congruence|].
      by rewrite Hi.
    + intros (_ & b' & [= <-] & [[? _]|(_ & vs' & votes' & [= <-] & [= <-] & Hc & ->)]); [congruence|].
      rewrite Hi in Hc. cbn in Hc. congruence.
  - cbn. unfold CC_IsValid. rewrite Hvotes. split; [done|].
    intros (_ & b' & [= <-] & [[? _]|(_ & vs' & votes' & _ & ? & _)]); congruence.
Qed.

Lemma validate_confirmations_ok block parent e e' :
  validate_confirmations block parent e = Ok (None, e') <-> confirms e block parent /\ e' = e.
Proof.
  unfold validate_confirmations, confirms, FindBlock, gets, mbind, M_bind, IsEmpty.
  assert (Hok : forall P : Prop, P -> (ret (None : option string) e = Ok (None, e') <-> P /\ e' = e)).
  { intros P HP. unfold ret. split; [by intros [= <-]|by intros [_ ->]]. }
  assert (Hno : forall (P : Prop) (msg : string), (P -> False) -> (ret (Some msg) e = Ok (None, e') <-> P /\ e' = e)).
  { intros P msg HP. unfold ret. split; [done|by intros [?%HP _]]. }
  destruct (Z.eqb_spec (CCBlockHash (block_hcc block)) (Parent (Header block))) as [Hd|Hd];
    cbn [negb]; rewrite ?andb_false_r, ?andb_true_r.
  - case_bool_decide as Hz; [by apply Hok|].
    destruct (findBlock (ch e) (EBParent parent)) as [g|].
    + rewrite andb_false_r. apply Hok. eauto.
    + apply Hno. intros [_ Hg]. by destruct (Hg Hz) as (? & ? & _).
  - destruct (HasValidatorUpdate parent); [apply Hno; intros [Hp _]; by apply Hd, Hp|].
    case_bool_decide as Hz; [by apply Hok|].
    destruct (findBlock (ch e) (EBParent parent)) as [g|].
    + rewrite andb_true_r. destruct (HasValidatorUpdate g) eqn:Hg.
      * apply Hno. intros [_ Hx]. destruct (Hx Hz) as (g' & [= <-] & Hdir). by apply Hd, Hdir.
      * apply Hok. split; [done|]. intros _. exists g. split; [done|]. by rewrite Hg.
    + apply Hno. intros [_ Hg]. by destruct (Hg Hz) as (? & ? & _).
Qed.

Lemma validate_proposer_ok block e e' :
  validate_proposer cfg block e = Ok (None, e') <-> proposed_by e (Header block) /\ e' = e.
Proof.
  unfold validate_proposer, shouldProposeByID, proposed_by, NextProposerOf, lift, mbind, M_bind.
  destruct (Z.eqb_spec (BEpoch (Header block)) 0) as [Hz|Hz]; [split; [done|by intros [[? _] _]]|].
  destruct (GetNextProposer _ _ _ _) as [v| |];
    [|split; [done|by intros [(_ & v & ? & _) _]]..].
  cbn. destruct (String.eqb_spec (Hex cfg (VAddress v)) (Hex cfg (Proposer (Header block)))) as [Heq|Hne].
  - split; [intros [= <-]; split; [|done]; split; [done|]; by exists v|by intros [_ ->]].
  - split; [done|]. intros [(_ & v' & [= <-] & ?) _]. done.
Qed.
End Validation.

(** ** Properties: validation *)

(** C12 (block validation). [validateBlock] accepts a block exactly when it is
    above the last finalized block, one above its valid parent, later and in a
    later epoch; its certificate is for a stored ancestor that is finalized or
    has a valid commit certificate; blocks with validator updates among its
    two ancestors are confirmed directly; and its proposer is the one drawn
    for its epoch.  Accepting it does not change the consensus state. *)
Theorem validateBlock_spec `{BlockCrypto} `{VoteCrypto} {S} `{!Store S} {E} `{!Environment S E} cfg
    (e e' : Engine S E) block parent :
  validateBlock cfg block parent e = Ok (None, e') <->
  follows e (Header block) parent /\ certified_hcc e block e' /\ confirms e block parent /\
  proposed_by cfg e' (Header block).
Proof.
  unfold validateBlock. rewrite and_then_ok. setoid_rewrite and_then_ok.
  setoid_rewrite validate_parent_ok. setoid_rewrite validate_hcc_ok.
  setoid_rewrite and_then_ok. setoid_rewrite validate_confirmations_ok.
  setoid_rewrite validate_proposer_ok.
  assert (Hst : forall e1, certified_hcc e block e1 -> state e1 = state e)
    by (intros e1 (_ & b & _ & [[_ ->]|(_ & vs & votes & _ & _ & _ & ->)]); done).
  split.
  - intros (e1 & [Hf ->] & e2 & Hc & e3 & [Hconf ->] & Hp & ->). split_and!; try done.
    revert Hconf. unfold confirms. by rewrite (Hst _ Hc).
  - intros (Hf & Hc & Hconf & Hp). exists e. split; [done|]. exists e'. split; [done|].
    exists e'. split; [|done]. split; [|done]. revert Hconf. unfold confirms. by rewrite (Hst _ Hc).
Qed.

(** ** The commit rule *)

(** Actions that keep the committed and the finalized block. *)
Definition pinned {S E} (e e' : Engine S E) : Prop :=
  highestCCBlock (state e') = highestCCBlock (state e) /\
  lastFinalizedBlock (state e') = lastFinalizedBlock (state e).

#[export] Instance pinned_preorder {S E} : PreOrder (pinned (S := S) (E := E)).
Proof. split; [done|]. intros e1 e2 e3 [? ?] [? ?]. split; congruence. Qed.

Section Commit.
Context `{BlockCrypto} `{VoteCrypto} {S : Type} `{!Store S} {E : Type} `{!Environment S E}.
Context (cfg : Config).
Implicit Types (e : Engine S E).

Abbreviation ch e := (chain (state e)).
Abbreviation hcc_of e := (highestCCBlock (state e)).
Abbreviation lfb_of e := (lastFinalizedBlock (state e)).

Lemma still_pinned e e' : still e e' -> pinned e e'.
Proof. intros [Hs _]. unfold pinned. by rewrite Hs. Qed.

Lemma still_now : keeps still (unix_now (S := S) (E := E)).
Proof. intros e t e'. unfold unix_now. destruct (Now (env e)). by intros [= _ <-]. Qed.

Lemma still_sync : keeps still (checkSyncStatus (S := S) (E := E)).
Proof.
  pose proof (still_range (E := E)). pose proof still_now.
  assert (forall b, keeps (still (S := S) (E := E)) (modify (with_synced b))) by (intros; by apply keeps_modify).
  unfold checkSyncStatus, isSyncing. keeps_tac.
Qed.

Definition has_disposed e : Prop :=
  exists x b, findBlock (ch e) x = Some b /\ Status b = BlockStatusDisposed.

(** [finalizeBlock] moves the last finalized block, unless the engine has
    stopped, and fails only if some block is disposed. *)
Lemma finalizeBlock_rule p e r e' :
  blocks_ok (ch e) -> finalizeBlock cfg p e = Ok (r, e') ->
  hcc_of e' = hcc_of e /\ lfb_of e' = (if stopped e then lfb_of e else EBHash p) /\
  (r = None \/ has_disposed e).
Proof.
  intros Hok Hrun. unfold finalizeBlock in Hrun. step Hrun as stp e1 H1. injection H1 as <- <-.
  destruct (stopped e); [injection Hrun as <- <-; split_and!; [done|done|by left]|].
  step Hrun as lfb e2 H2. pose proof H2 as ->%reads_LFB.
  destruct (Z.eqb_spec (EBHash p) (EBHash lfb)) as [Heq|_].
  { injection Hrun as <- <-. split_and!; [done| |by left]. rewrite Heq.
    unfold LastFinalizedBlock, lift, GetLastFinalizedBlock in H2.
    destruct (findBlock (ch e) (lfb_of e)) as [b|] eqn:Hb; [|done]. injection H2 as <-.
    symmetry. by apply (blocks_ok_hash (ch e)). }
  step Hrun as u3 e3 H3. step Hrun as u4 e4 H4. step Hrun as u5 e5 H5. step Hrun as err e6 H6.
  apply on_state_inv in H3 as (st & Hset & ->). apply commit_inv in Hset as (x & _ & ->).
  injection H4 as _ <-. destruct (still_sync _ _ _ H5) as [Hst _]. clear H5.
  unfold finalize_previous in H6.
  destruct (FinalizePreviousBlocks _ _ _ _) as [[c er]|] eqn:Hf; [|done]. injection H6 as <- <-.
  rewrite Hst in Hf. simpl in Hf.
  assert (Hend : pinned e5 e' /\ r = er).
  { destruct er as [msg|]; [by injection Hrun as <- <-|].
    step Hrun as u7 e7 H7. step Hrun as u8 e8 H8. injection Hrun as <- <-.
    apply on_chain_inv in H7 as (c' & [= _ <-] & ->). injection H8 as _ <-.
    split; [|done]. by destruct (Nat.ltb _ _). }
  destruct Hend as [[Hh Hl] ->]. rewrite Hh, Hl, Hst. split_and!; [done|done|].
  destruct er as [msg|]; [right|by left].
  by eapply finalize_loop_error; [exact Hok|..|exact Hf|].
Qed.

Lemma commit_cc_rule b e a e' : commit_cc b e = Ok (a, e') ->
  hcc_of e' = EBHash b /\ lfb_of e' = lfb_of e.
Proof.
  unfold commit_cc. intros Hrun. step Hrun as u1 e1 H1. step Hrun as u2 e2 H2.
  injection Hrun as _ <-. apply on_state_inv in H1 as (st & Hset & ->).
  apply commit_inv in Hset as (x & _ & ->). by apply on_chain_inv in H2 as (c & _ & ->).
Qed.

Definition direct (b : ExtendedBlock) : Prop := EBParent b = CCBlockHash (block_hcc (EBlock b)).

(** The effect of a new certificate for [b]. *)
Definition committed e b e' : Prop :=
  (~ direct b -> hcc_of e' = EBHash b /\ lfb_of e' = lfb_of e) /\
  (direct b -> findBlock (ch e) (EBParent b) = None -> pinned e e') /\
  (direct b -> is_Some (findBlock (ch e) (EBParent b)) ->
     lfb_of e' = (if stopped e then lfb_of e else EBParent b) /\
     (hcc_of e' = EBHash b \/ has_disposed e /\ hcc_of e' = hcc_of e)).

Lemma processCC_rule b hcc e a e' :
  blocks_ok (ch e) -> findBlock (ch e) (hcc_of e) = Some hcc ->
  processCCBlock cfg b e = Ok (a, e') ->
  if EBHeight b <=? EBHeight hcc then e' = e else committed e b e'.
Proof.
  intros Hok Hhcc Hrun. unfold processCCBlock in Hrun. step Hrun as hcc' e1 H1.
  apply HighestCCBlock_inv in H1 as [-> Hhcc']. rewrite Hhcc in Hhcc'. injection Hhcc' as <-.
  destruct (EBHeight b <=? EBHeight hcc); [by injection Hrun as _ <-|].
  unfold committed. destruct (Z.eqb_spec (EBParent b) (CCBlockHash (block_hcc (EBlock b)))) as [Hd|Hd].
  2: { apply commit_cc_rule in Hrun. split_and!; [done|by intros ?|by intros ?]. }
  step Hrun as p e2 H2. injection H2 as <- <-.
  destruct (findBlock (ch e) (EBParent b)) as [p|] eqn:Hp.
  2: { injection Hrun as _ <-. split_and!; [done|done|]. by intros _ [? ?]. }
  split_and!; [done|done|]. intros _ _. step Hrun as err e3 H3.
  apply finalizeBlock_rule in H3 as (Hh & Hl & Hr); [|done].
  rewrite (blocks_ok_hash _ _ _ Hok Hp) in Hl.
  destruct err as [msg|].
  - injection Hrun as _ <-. split; [done|]. right. destruct Hr as [?|?]; done.
  - apply commit_cc_rule in Hrun as [Hh' Hl']. split; [congruence|by left].
Qed.

(** The condition for a certificate: a trusted block, or a valid block with a
    majority of the votes of its validators. *)
Definition quorum e (h : Hash) (b : ExtendedBlock) : Prop :=
  Status b = BlockStatusTrusted \/
  Status b = BlockStatusValid /\
  let (order, x) := iterate (env e) (FindVotesByHash (ch e) h) in
  exists vs, GetValidatorSet x (ch e) h = Ok vs /\
    HasMajority vs (iterate x (UniqueVoter order)).1 = true.

End Commit.

(** The concrete node with its own vote on record. *)
Definition demo_voted : Engine (gmap Key Value) unit :=
  match cast_votes demo_run3 with
  | [] => demo_run3
  | v :: _ => match @handleVote demo_crypto demo_votes _ _ _ _ demo_config v demo_run3 with
              | Ok (_, e) => e | _ => demo_run3 end
  end.

Definition checked (h : Hash) (e : Engine (gmap Key Value) unit) : Engine (gmap Key Value) unit :=
  match @checkCC demo_crypto _ _ _ _ demo_config h e with Ok (_, e') => e' | _ => e end.

Lemma checked_ok h e : is_ok (@checkCC demo_crypto _ _ _ _ demo_config h e) = true ->
  @checkCC demo_crypto _ _ _ _ demo_config h e = Ok (tt, checked h e).
Proof. unfold checked. by destruct (checkCC _ h e) as [[[] ?]| |]. Qed.

(** ** Properties: the commit rule *)

(** C4 (commit rule). [checkCC] moves the committed or the finalized block
    only for a stored block that is trusted, or valid with votes of more than
    two thirds of the stake, above the highest committed block; then that
    block becomes the highest committed block, and its parent the last
    finalized one exactly when the parent is also the block certified by its
    own certificate (and the engine is running); finalization of a disposed
    branch is the only failure. *)
Theorem commit_rule `{BlockCrypto} `{VoteCrypto} {S} `{!Store S} {E} `{!Environment S E} cfg
    (e e' : Engine S E) h a :
  blocks_ok (chain (state e)) -> checkCC cfg h e = Ok (a, e') ->
  pinned e e' \/
  exists b hcc, findBlock (chain (state e)) h = Some b /\
    findBlock (chain (state e)) (highestCCBlock (state e)) = Some hcc /\
    EBHeight hcc < EBHeight b /\ quorum e h b /\ committed e b e'.
Proof.
  intros Hok Hrun. unfold checkCC in Hrun.
  destruct (IsEmpty h); [injection Hrun as _ <-; by left|].
  step Hrun as fb e1 H1. injection H1 as <- <-.
  destruct (findBlock (chain (state e)) h) as [b|] eqn:Hb; [|injection Hrun as _ <-; by left].
  destruct (IsInvalid _) eqn:Hi; [injection Hrun as _ <-; by left|].
  destruct (IsPending _) eqn:Hp; [injection Hrun as _ <-; by left|].
  destruct (_ || _) eqn:Hc; [injection Hrun as _ <-; by left|].
  destruct (IsTrusted _) eqn:Ht.
  - pose proof Hrun as Hrun'. unfold processCCBlock in Hrun'. step Hrun' as hcc e1 H1.
    apply HighestCCBlock_inv in H1 as [_ Hhcc].
    pose proof (processCC_rule cfg b hcc e a e' Hok Hhcc Hrun) as Hr.
    destruct (Z.leb_spec (EBHeight b) (EBHeight hcc)); [subst; by left|]. right.
    exists b, hcc. split_and!; try done. left. revert Ht. by destruct (Status b).
  - step Hrun as hcc e2 H2. apply HighestCCBlock_inv in H2 as [-> Hhcc].
    destruct (_ <? _); [injection Hrun as _ <-; by left|].
    step Hrun as votes e3 H3. injection H3 as <- <-. step Hrun as order e4 H4.
    step Hrun as vs e5 H5. pose proof H5 as ->%reads_ValidatorSetOf. step Hrun as maj e6 H6.
    assert (Hst : still e e6) by (etrans; [by eapply still_range|by eapply still_has_majority]).
    destruct maj; [|injection Hrun as _ <-; left; by apply still_pinned].
    unfold range_votes in H4. destruct (iterate (env e) _) as [o x] eqn:Hit. injection H4 as <- <-.
    unfold has_majority, range_votes in H6. step H6 as o2 e7 H7.
    destruct (iterate (env (with_env x e)) (UniqueVoter o)) as [o3 y] eqn:Hit2. injection H7 as <- <-.
    injection H6 as Hmaj <-.
    pose proof (processCC_rule cfg b hcc (with_env y (with_env x e)) a e' Hok Hhcc Hrun) as Hr.
    destruct (Z.leb_spec (EBHeight b) (EBHeight hcc)); [subst; by left|]. right.
    exists b, hcc. split_and!; try done.
    right. split; [revert Hi Hp Hc Ht; by destruct (Status b)|]. rewrite Hit.
    exists vs. unfold ValidatorSetOf, lift in H5. simpl in H5, Hit2.
    destruct (GetValidatorSet x (chain (state e)) h); [|done|done]. injection H5 as ->.
    split; [done|]. by rewrite Hit2.
Qed.

Lemma commit_rule_witness :
  exists b hcc, findBlock (chain (state demo_voted)) (demo_hash 1) = Some b /\
    EBHeight hcc < EBHeight b /\ @quorum demo_crypto _ _ _ _ demo_voted (demo_hash 1) b.
Proof.
  destruct (@commit_rule demo_crypto demo_votes _ _ _ _ demo_config demo_voted
              (checked (demo_hash 1) demo_voted) (demo_hash 1) tt)
    as [[Hpin _]|(b & hcc & Hb & _ & Hlt & Hq & _)].
  - apply (@check_blocks_ok demo_crypto). vm_compute. reflexivity.
  - apply checked_ok. vm_compute. reflexivity.
  - exfalso. revert Hpin. vm_compute. discriminate.
  - exists b, hcc. exact (conj Hb (conj Hlt Hq)).
Defined.
