(* ===== verification/EngineFinality.v ===== *)
(** * Finality

    A block that the engine has finalized keeps its status: neither the
    validation, commitment or finalization of other blocks nor votes, timers
    and proposals ever change it.  The argument follows the blocks a handler
    may touch: the ancestors of the block it works on. *)

From stdpp Require Import gmap sorting relations.
From stdpp Require Import base list numbers strings.
From S2P Require Import Prelude Vote Validator Block Chain ConsensusState Engine EngineSafety EngineRules.
Local Open Scope string_scope.
Local Open Scope list_scope.
Local Open Scope Z_scope.

(** ** Chains with the same headers *)

Section Chains.
Context `{BlockCrypto} {S : Type} `{!Store S}.
Implicit Types (c : Chain S).

Definition same_headers c c' : Prop := forall h, EBlock <$> findBlock c' h = EBlock <$> findBlock c h.

(** No block is its own proper ancestor. *)
Definition acyclic c : Prop := forall n h, nth_ancestor c (Datatypes.S n) h <> Some h.

Definition settled (bs : BlockStatus) : bool := IsDirectlyFinalized bs || IsIndirectlyFinalized bs.

(** Finalized blocks keep their status. *)
Definition final_kept c c' : Prop :=
  forall h b, findBlock c h = Some b -> settled (Status b) = true ->
    exists b', findBlock c' h = Some b' /\ Status b' = Status b.

(** Only ancestors of [h] (and [h] itself) have changed. *)
Definition only_ancestors h c c' : Prop :=
  forall x, findBlock c' x = findBlock c x \/ exists n, nth_ancestor c n h = Some x.

Lemma same_headers_refl c : same_headers c c.
Proof. done. Qed.
Lemma same_headers_trans c1 c2 c3 : same_headers c1 c2 -> same_headers c2 c3 -> same_headers c1 c3.
Proof. intros H12 H23 h. by rewrite H23, H12. Qed.
Lemma final_kept_refl c : final_kept c c.
Proof. intros h b Hb _. eauto. Qed.
Lemma final_kept_trans c1 c2 c3 : final_kept c1 c2 -> final_kept c2 c3 -> final_kept c1 c3.
Proof.
  intros H12 H23 h b Hb Hs. destruct (H12 h b Hb Hs) as (b2 & Hb2 & He).
  destruct (H23 h b2 Hb2) as (b3 & ? & ?); [congruence|]. exists b3. split; [done|congruence].
Qed.

Lemma same_blocks_headers c c' : same_blocks c c' -> same_headers c c'.
Proof. intros Hs h. by rewrite Hs. Qed.
Lemma same_blocks_final c c' : same_blocks c c' -> final_kept c c'.
Proof. intros Hs h b Hb _. rewrite Hs. eauto. Qed.

Lemma nth_ancestor_headers c c' n h : same_headers c c' -> nth_ancestor c' n h = nth_ancestor c n h.
Proof.
  intros Hs. revert h. induction n as [|n IH]; intros h; [done|]. cbn [nth_ancestor].
  specialize (Hs h). destruct (findBlock c' h) as [b'|], (findBlock c h) as [b|]; try done.
  cbn in Hs |- *. injection Hs as He. unfold EBParent. rewrite He. apply IH.
Qed.

Lemma acyclic_headers c c' : same_headers c c' -> acyclic c -> acyclic c'.
Proof. intros Hs Ha n h. rewrite (nth_ancestor_headers c c') by done. apply Ha. Qed.

Lemma nth_ancestor_add c n m h x :
  nth_ancestor c n h = Some x -> nth_ancestor c (n + m) h = nth_ancestor c m x.
Proof.
  revert h. induction n as [|n IH]; intros h; [by intros [= ->]|]. cbn [nth_ancestor Nat.add].
  destruct (findBlock c h); cbn; [apply IH|done].
Qed.

Lemma only_ancestors_trans h c1 c2 c3 : same_headers c1 c2 ->
  only_ancestors h c1 c2 -> only_ancestors h c2 c3 -> only_ancestors h c1 c3.
Proof.
  intros Hs H12 H23 x. destruct (H23 x) as [->|[n Hn]]; [apply H12|].
  right. exists n. by rewrite <- (nth_ancestor_headers c1 c2).
Qed.

Lemma settled_finalized bs : settled bs = true -> IsFinalized bs = true.
Proof. by destruct bs. Qed.

Lemma only_finalizes_headers c c' : only_finalizes c c' -> same_headers c c'.
Proof.
  intros Ho h. specialize (Ho h). destruct (findBlock c h), (findBlock c' h); try done.
  destruct Ho as [-> _]. done.
Qed.

Lemma only_finalizes_final c c' : only_finalizes c c' -> final_kept c c'.
Proof.
  intros Ho h b Hb Hs%settled_finalized. specialize (Ho h). rewrite Hb in Ho.
  destruct (findBlock c' h) as [b'|]; [|done]. exists b'. split; [done|].
  destruct Ho as [_ [->|[? _]]]; [done|congruence].
Qed.

(** Replacing the status of one block that is not finalized. *)
Lemma update_final c h f b c' : blocks_ok c -> (forall b, EBlock (f b) = EBlock b) ->
  update_block c h f = Ok (b, c') ->
  exists b0, findBlock c h = Some b0 /\ same_headers c c' /\
    (forall x, findBlock c' x = if decide (h = x) then Some (f b0) else findBlock c x) /\
    (settled (Status b0) = false \/ Status (f b0) = Status b0 -> final_kept c c').
Proof.
  intros Hok Hf. unfold update_block. destruct (findBlock c h) as [b0|] eqn:Hb; [|done].
  intros [= <- <-]. exists b0. split; [done|].
  assert (Hfind : forall x, findBlock (saveBlock c (f b0)) x = if decide (h = x) then Some (f b0) else findBlock c x)
    by (intros x; by apply findBlock_resave).
  split; [|split; [done|]].
  - intros x. rewrite Hfind. case_decide; [|done]. subst. rewrite Hb. cbn. by rewrite Hf.
  - intros Hs x bx Hx Hset. rewrite Hfind. case_decide; [|eauto]. subst. rewrite Hb in Hx. injection Hx as ->.
    exists (f bx). split; [done|]. destruct Hs; [congruence|done].
Qed.

Context (CalcEthTxHash : ExtendedBlock -> Bytes -> outcome Hash).

(** Finalization touches ancestors only. *)
Lemma finalize_loop_ancestors fuel c h st c' err :
  blocks_ok c -> IsFinalized st = true ->
  finalize_loop CalcEthTxHash fuel c h st = Some (c', err) -> only_ancestors h c c'.
Proof.
  revert c h st. induction fuel as [|fuel IH]; intros c h st Hok Hst Hrun x.
  all: cbn [finalize_loop] in Hrun; destruct (IsEmpty h); [simplify_eq; by left|]; try done.
  destruct (findBlock c h) as [b|] eqn:Hb; [|simplify_eq; by left].
  destruct (IsFinalized (Status b)) eqn:Hnf; [simplify_eq; by left|].
  case_bool_decide; [simplify_eq; by left|].
  change (AddTxsToIndex _ (saveBlock c _) _ _) with (finalize_step CalcEthTxHash c b st) in Hrun.
  pose proof (finalize_step_ok CalcEthTxHash c h b st Hok Hb) as Hok1.
  pose proof (only_finalizes_headers _ _ (finalize_step_only CalcEthTxHash c h b st Hok Hb Hnf Hst)) as Hh.
  destruct (IH _ _ BlockStatusIndirectlyFinalized Hok1 eq_refl Hrun x) as [->|[n Hn]].
  - rewrite (finalize_step_find CalcEthTxHash c h b st) by done.
    case_decide; [|by left]. subst. right. by exists 0%nat.
  - right. exists (Datatypes.S n). cbn [nth_ancestor]. rewrite Hb. cbn.
    by rewrite <- (nth_ancestor_headers c _ n _ Hh).
Qed.
End Chains.

(** ** Handlers that do not touch the blocks *)

Definition sb {S} `{!Store S} {E} (e e' : Engine S E) : Prop :=
  same_blocks (chain (state e)) (chain (state e')).

#[export] Instance sb_preorder {S} `{!Store S} {E} : PreOrder (sb (S := S) (E := E)).
Proof. split; unfold sb; [done|]. intros e1 e2 e3. apply same_blocks_trans. Qed.

Section SameBlocks.
Context `{BlockCrypto} `{VoteCrypto} {S : Type} `{!Store S} {E : Type} `{!Environment S E}.
Context (cfg : Config).
Implicit Types (e : Engine S E).

Lemma sb_state e e' : chain (state e') = chain (state e) -> sb e e'.
Proof. unfold sb. by intros ->. Qed.

Lemma sb_env_action {A} (m : M S E A) : keeps still m -> keeps sb m.
Proof. apply keeps_mono. intros e e' [Hs _]. apply sb_state. by rewrite Hs. Qed.

Lemma sb_commit (f : State S -> State S) (Hf : forall s, chain (f s) = chain s) :
  keeps (sb (E := E)) (on_state (fun s => commit (f s))).
Proof.
  apply keeps_on_state. intros e st (r & _ & ->)%commit_inv. apply sb_state. simpl. apply Hf.
Qed.

Lemma receipts_same c c' : rtc receipt_step c c' -> same_blocks c c'.
Proof.
  induction 1 as [|c1 c2 c3 [block raw logs chg ret addr gas er c4 Hr] _ IH]; [done|].
  eapply same_blocks_trans; [|exact IH]. by apply receipt_same in Hr as [Hs _].
Qed.

Lemma sb_save_vote v : keeps (sb (E := E)) (save_vote v).
Proof.
  unfold save_vote. pose proof (fun s => sb_env_action _ (still_range s)). keeps_tac.
  apply keeps_on_state. intros e st [= <-]. unfold sb. simpl. apply same_blocks_vote.
Qed.

Lemma sb_modify (f : Engine S E -> Engine S E) :
  (forall e, chain (state (f e)) = chain (state e)) -> keeps sb (modify f).
Proof. intros Hf. apply keeps_modify. intros e. by apply sb_state. Qed.

Lemma sb_now : keeps (sb (E := E)) unix_now.
Proof. intros e t e'. unfold unix_now. destruct (Now (env e)). by intros [= _ <-]. Qed.

Lemma sb_height : keeps (sb (E := E)) main_chain_height.
Proof. intros e t e'. unfold main_chain_height. destruct (GetMainchainBlockHeight (env e)). by intros [= _ <-]. Qed.

Lemma sb_sync : keeps (sb (E := E)) checkSyncStatus.
Proof.
  pose proof (fun s => sb_env_action _ (still_range s)). pose proof sb_now.
  assert (forall b, keeps (sb (E := E)) (modify (with_synced b))) by (intros; by apply sb_modify).
  unfold checkSyncStatus, isSyncing. keeps_tac.
Qed.

Lemma sb_handleVote v : keeps sb (handleVote cfg v).
Proof.
  pose proof sb_save_vote. pose proof sb_sync. pose proof (fun s => sb_env_action _ (still_range s)).
  pose proof (fun vs s => sb_env_action _ (still_has_majority vs s)).
  pose proof (fun w => sb_env_action _ (still_broadcast (S := S) (E := E) w)).
  assert (forall n, keeps (sb (E := E)) (on_state (fun s => SetEpoch s n)))
    by (intros n; by apply (sb_commit (fun s => mkState (db s) (chain s) (highestCCBlock s)
          (lastFinalizedBlock s) (LastProposal s) (LastVote s) (LastInterChainMessageEvent s) n))).
  unfold handleVote, advance_epoch. keeps_tac.
Qed.

Lemma sb_vote : keeps sb (vote cfg).
Proof.
  pose proof sb_height.
  assert (forall v, keeps (sb (E := E)) (on_state (fun s => SetLastVote s v)))
    by (intros v; by apply (sb_commit (fun s => mkState (db s) (chain s) (highestCCBlock s)
          (lastFinalizedBlock s) (LastProposal s) v (LastInterChainMessageEvent s) (epoch s)))).
  assert (forall v, keeps (sb (E := E)) (broadcastVote v)) by (intros; by apply sb_modify).
  assert (forall m, keeps (sb (E := E)) (spawn m)) by (intros; by apply sb_modify).
  unfold vote, choose_vote, createVote. keeps_tac.
Qed.

Lemma sb_reset b : keeps (sb (E := E)) (reset_state b).
Proof.
  intros e r e'. unfold reset_state. destruct (ResetState _ _ _) as [[]| |]; [|done|done]. by intros [= _ <-].
Qed.

Lemma sb_apply b : keeps (sb (E := E)) (apply_block_txs b).
Proof.
  intros e r e'. unfold apply_block_txs. destruct (ApplyBlockTxs _ _ _) as [[[r1 x] c]| |] eqn:Ha; [|done|done].
  intros [= _ <-]. unfold sb. simpl. by eapply receipts_same, ApplyBlockTxs_receipts.
Qed.

Lemma sb_validate b p : keeps sb (validateBlock cfg b p).
Proof.
  pose proof (fun s => sb_env_action _ (still_range s)).
  unfold validateBlock, and_then, validate_parent, validate_hcc, hcc_valid, validate_confirmations,
    validate_proposer. keeps_tac.
Qed.
End SameBlocks.

(** ** What commitment and finalization touch *)

Section Effects.
Context `{BlockCrypto} `{VoteCrypto} {S : Type} `{!Store S} {E : Type} `{!Environment S E}.
Context (cfg : Config).
Implicit Types (e : Engine S E).

Abbreviation ch e := (chain (state e)).

Definition effect (h : Hash) e e' : Prop :=
  same_headers (ch e) (ch e') /\ only_ancestors h (ch e) (ch e') /\ final_kept (ch e) (ch e').

Lemma sb_effect h e e' : sb e e' -> effect h e e'.
Proof.
  intros Hs. split_and!; [by apply same_blocks_headers| |by apply same_blocks_final].
  intros x. left. apply Hs.
Qed.

Lemma effect_trans h e1 e2 e3 : effect h e1 e2 -> effect h e2 e3 -> effect h e1 e3.
Proof.
  intros (H1 & A1 & F1) (H2 & A2 & F2). split_and!;
    [by eapply same_headers_trans|by eapply only_ancestors_trans|by eapply final_kept_trans].
Qed.

(** Touching the ancestors of an ancestor. *)
Lemma effect_ancestor h p n e e' : nth_ancestor (ch e) n h = Some p -> effect p e e' -> effect h e e'.
Proof.
  intros Hn (Hh & Ho & Hf). split_and!; [done| |done]. intros x.
  destruct (Ho x) as [?|[m Hm]]; [by left|]. right. exists (n + m)%nat.
  by rewrite (nth_ancestor_add _ _ _ _ _ Hn).
Qed.

(** Stored blocks keep their hashes when the headers stay and saved blocks
    have no cached hash. *)
Lemma quiet_blocks_ok e e' : quiet cfg e e' -> stored_ok e -> stored_ok e'.
Proof. intros [(Hs & _) _]. by apply (steps_stored cfg). Qed.

Lemma finalize_previous_effect h e r e' :
  blocks_ok (ch e) -> finalize_previous cfg h e = Ok (r, e') -> effect h e e'.
Proof.
  intros Hok. unfold finalize_previous, FinalizePreviousBlocks.
  destruct (finalize_loop _ _ _ _ _) as [[c err]|] eqn:Hf; [|done]. intros [= <- <-].
  destruct (finalize_loop_spec _ _ _ _ BlockStatusDirectlyFinalized _ _ Hok eq_refl Hf) as (_ & Ho & _).
  split_and!; simpl; [by apply only_finalizes_headers| |by apply only_finalizes_final].
  by eapply finalize_loop_ancestors; [..|exact Hf].
Qed.

Lemma finalizeBlock_effect p e r e' :
  blocks_ok (ch e) -> finalizeBlock cfg p e = Ok (r, e') -> effect (EBHash p) e e'.
Proof.
  intros Hok Hrun. unfold finalizeBlock in Hrun. step Hrun as stp e1 H1. injection H1 as <- <-.
  destruct (stopped e); [injection Hrun as _ <-; by apply sb_effect|].
  step Hrun as lfb e2 H2. apply reads_LFB in H2 as ->.
  destruct (Z.eqb _ _); [injection Hrun as _ <-; by apply sb_effect|].
  step Hrun as u3 e3 H3. step Hrun as u4 e4 H4. step Hrun as u5 e5 H5. step Hrun as err e6 H6.
  assert (Hs : sb e e5).
  { etrans; [|by eapply sb_sync]. injection H4 as _ <-. apply sb_state. simpl.
    apply on_state_inv in H3 as (st & Hset & ->). by apply commit_inv in Hset as (? & _ & ->). }
  eapply effect_trans; [by apply sb_effect|].
  apply finalize_previous_effect in H6; [|eapply blocks_ok_same; [exact Hok|exact Hs]].
  eapply effect_trans; [exact H6|]. apply sb_effect.
  destruct err; [by injection Hrun as _ <-|].
  step Hrun as u7 e7 H7. step Hrun as u8 e8 H8. injection Hrun as _ <-.
  apply on_chain_inv in H7 as (c & [= <- <-] & ->). injection H8 as _ <-. unfold sb. simpl.
  destruct (Nat.ltb _ _); simpl; apply same_blocks_txs.
Qed.

(** The highest committed block of an engine is set by [commit_cc]; the block
    it commits must not be finalized. *)
Lemma commit_cc_effect b e a e' :
  blocks_ok (ch e) -> commit_cc b e = Ok (a, e') ->
  (forall b0, findBlock (ch e) (EBHash b) = Some b0 -> settled (Status b0) = false) ->
  effect (EBHash b) e e'.
Proof.
  intros Hok Hrun Hns. unfold commit_cc in Hrun. step Hrun as u1 e1 H1. step Hrun as u2 e2 H2.
  injection Hrun as _ <-. apply on_state_inv in H1 as (st & Hset & ->).
  apply commit_inv in Hset as (r & _ & ->). apply on_chain_inv in H2 as (c & Hu & ->).
  apply update_final in Hu as (b0 & Hb0 & Hh & Hfind & Hfin); [|done|done].
  split_and!; simpl in *; [done| |apply Hfin; left; by eapply Hns].
  intros x. rewrite Hfind. case_decide; [subst; right; by exists 0%nat|by left].
Qed.

Lemma processCC_effect b e a e' :
  stored_ok e -> acyclic (ch e) -> findBlock (ch e) (EBHash b) = Some b ->
  settled (Status b) = false -> processCCBlock cfg b e = Ok (a, e') -> effect (EBHash b) e e'.
Proof.
  intros Hok Hac Hb Hns Hrun. unfold processCCBlock in Hrun. step Hrun as hcc e1 H1.
  apply HighestCCBlock_inv in H1 as [-> _].
  destruct (_ <=? _); [injection Hrun as _ <-; by apply sb_effect|].
  destruct (Z.eqb _ _).
  2: { eapply commit_cc_effect; [apply Hok|exact Hrun|]. intros b0 Hb0. congruence. }
  step Hrun as p e2 H2. injection H2 as <- <-.
  destruct (findBlock (ch e) (EBParent b)) as [p|] eqn:Hp; [|injection Hrun as _ <-; by apply sb_effect].
  step Hrun as err e3 H3.
  assert (Hq : stored_ok e3) by (eapply quiet_blocks_ok; [by eapply quiet_finalizeBlock|done]).
  pose proof (finalizeBlock_effect _ _ _ _ (proj1 Hok) H3) as Heff.
  rewrite (blocks_ok_hash _ _ _ (proj1 Hok) Hp) in Heff.
  assert (Hsame : findBlock (ch e3) (EBHash b) = Some b).
  { destruct Heff as (_ & Ho & _). destruct (Ho (EBHash b)) as [->|[n Hn]]; [done|].
    exfalso. apply (Hac n (EBHash b)). cbn [nth_ancestor]. by rewrite Hb. }
  assert (Heff' : effect (EBHash b) e e3).
  { eapply (effect_ancestor _ (EBParent b) 1); [|done]. cbn [nth_ancestor]. by rewrite Hb. }
  destruct err; [by injection Hrun as _ <-|].
  eapply effect_trans; [exact Heff'|]. eapply commit_cc_effect; [apply Hq|exact Hrun|].
  intros b0 Hb0. congruence.
Qed.

Lemma checkCC_effect h e a e' :
  stored_ok e -> acyclic (ch e) -> checkCC cfg h e = Ok (a, e') ->
  effect h e e' /\
  (forall b, findBlock (ch e) h = Some b -> IsPending (Status b) = true -> sb e e').
Proof.
  intros Hok Hac Hrun. unfold checkCC in Hrun.
  assert (Hid : forall m, ret tt e = Ok (m, e') -> effect h e e' /\ sb e e')
    by (intros m [= _ <-]; split; [by apply sb_effect|done]).
  destruct (IsEmpty h); [by destruct (Hid _ Hrun)|].
  step Hrun as fb e1 H1. injection H1 as <- <-.
  destruct (findBlock (ch e) h) as [b|] eqn:Hb; [|by destruct (Hid _ Hrun)].
  assert (Hh : EBHash b = h) by (by apply (blocks_ok_hash _ _ _ (proj1 Hok))).
  destruct (IsInvalid _); [by destruct (Hid _ Hrun)|].
  destruct (IsPending _) eqn:Hpend; [by destruct (Hid _ Hrun)|].
  assert (Hgoal : effect h e e' -> effect h e e' /\
    (forall b0, Some b = Some b0 -> IsPending (Status b0) = true -> sb e e'))
    by (intros He; split; [done|]; intros b0 [= <-]; congruence).
  destruct (_ || _) eqn:Hset; [by destruct (Hid _ Hrun); apply Hgoal|].
  assert (Hns : settled (Status b) = false)
    by (revert Hset; unfold settled; by destruct (Status b)).
  apply Hgoal. subst h.
  destruct (IsTrusted _); [by eapply processCC_effect|].
  step Hrun as hcc e2 H2. apply HighestCCBlock_inv in H2 as [-> _].
  destruct (_ <? _); [by destruct (Hid _ Hrun)|].
  step Hrun as votes e3 H3. injection H3 as <- <-. step Hrun as order e4 H4.
  step Hrun as vs e5 H5. apply reads_ValidatorSetOf in H5 as ->. step Hrun as maj e6 H6.
  assert (Hst : still e e6) by (etrans; [by eapply still_range|by eapply still_has_majority]).
  destruct Hst as [Hst _]. eapply effect_trans; [apply sb_effect, sb_state; by rewrite Hst|].
  destruct maj; [|injection Hrun as _ <-; by apply sb_effect].
  eapply processCC_effect; [..|exact Hrun]; unfold stored_ok; rewrite ?Hst; done.
Qed.
End Effects.

(** ** Blocks and events *)

Section Finality.
Context `{BlockCrypto} `{VoteCrypto} {S : Type} `{!Store S} {E : Type} `{!Environment S E}.
Context (cfg : Config).
Implicit Types (e : Engine S E).

Abbreviation ch e := (chain (state e)).

(** The conditions a handler needs, which it also preserves. *)
Definition good e : Prop := stored_ok e /\ acyclic (ch e).

Lemma good_quiet e e' : good e -> quiet cfg e e' -> same_headers (ch e) (ch e') -> good e'.
Proof.
  intros [Hok Hac] Hq Hh. split; [by eapply quiet_blocks_ok|by eapply acyclic_headers].
Qed.

Lemma good_sb e e' : good e -> quiet cfg e e' -> sb e e' -> good e'.
Proof. intros Hg Hq Hs. eapply good_quiet; [done|done|by apply same_blocks_headers]. Qed.

Lemma handle_hcc_effect block e a e' :
  good e -> handle_hcc cfg block e = Ok (a, e') ->
  let hcc := CCBlockHash (block_hcc block) in
  effect hcc e e' /\
  (forall b, findBlock (ch e) hcc = Some b -> IsPending (Status b) = true -> sb e e').
Proof.
  intros Hg Hrun hcc. unfold handle_hcc in Hrun. step Hrun as votes e1 H1. apply reads_deref in H1 as ->.
  step Hrun as order e2 H2. step Hrun as u e3 H3. step Hrun as hb e4 H4. apply reads_HCC in H4 as ->.
  assert (Hk : forall (R : Engine S E -> Engine S E -> Prop), PreOrder R ->
    (forall v, keeps R (handleVote cfg v)) -> R e2 e3).
  { intros R HR HkR. revert H3. apply keeps_for_each; [done|]. intros v e5 a5 e6 H5.
    step H5 as r e7 H7. injection H5 as _ <-. by eapply HkR. }
  assert (Hs : sb e e3).
  { etrans; [by eapply (sb_env_action _ (still_range votes))|]. apply Hk; [apply _|apply sb_handleVote]. }
  assert (Hg3 : good e3).
  { eapply good_sb; [exact Hg| |exact Hs]. etrans; [by eapply quiet_range|].
    apply Hk; [apply _|apply quiet_handleVote]. }
  destruct (Z.eqb _ _).
  { injection Hrun as _ <-. split; [by apply sb_effect|done]. }
  destruct Hg3 as [Hok3 Hac3]. destruct (checkCC_effect cfg _ _ _ _ Hok3 Hac3 Hrun) as [Heff Hp]. split.
  - by eapply effect_trans; [apply sb_effect|].
  - intros b Hb Hpend. etrans; [exact Hs|]. apply (Hp b); [|done]. by rewrite Hs.
Qed.

(** Changing the status of a block that is not finalized. *)
Lemma mark_final f h e a e' :
  good e -> (forall b, EBlock (f b) = EBlock b) ->
  on_chain (fun c => update_block c h f) e = Ok (a, e') ->
  (forall b, findBlock (ch e) h = Some b -> settled (Status b) = false \/ Status (f b) = Status b) ->
  exists b, findBlock (ch e) h = Some b /\ findBlock (ch e') h = Some (f b) /\
    same_headers (ch e) (ch e') /\ final_kept (ch e) (ch e').
Proof.
  intros [[Hok _] _] Hf Hrun Hns. apply on_chain_inv in Hrun as (c & Hu & ->).
  apply update_final in Hu as (b & Hb & Hh & Hfind & Hfin); [|done|done].
  exists b. split_and!; simpl; try done; [by rewrite Hfind, decide_True|by apply Hfin, Hns].
Qed.

Lemma mark_invalid_final h e a e' :
  good e -> (forall b, findBlock (ch e) h = Some b -> settled (Status b) = false) ->
  mark_invalid h e = Ok (a, e') -> final_kept (ch e) (ch e').
Proof.
  intros Hg Hns Hrun. unfold mark_invalid in Hrun. step Hrun as b e1 H1. injection Hrun as _ <-.
  eapply mark_final in H1 as (b0 & _ & _ & _ & Hf); [exact Hf|done|done|].
  intros b0 Hb0. left. by apply Hns.
Qed.

Lemma accept_block_final block u e a e' :
  good e -> (forall b, findBlock (ch e) (BlockHash block) = Some b -> settled (Status b) = false) ->
  accept_block cfg block u e = Ok (a, e') -> final_kept (ch e) (ch e').
Proof.
  intros Hg Hns Hrun. unfold accept_block in Hrun. set (h := BlockHash block) in *.
  step Hrun as u1 e1 H1.
  assert (final_kept (ch e) (ch e1) /\ good e1 /\
    (forall b, findBlock (ch e1) h = Some b -> settled (Status b) = false)) as (Hf1 & Hg1 & Hns1).
  { assert (Hid : forall m, ret tt e = Ok (m, e1) -> final_kept (ch e) (ch e1) /\ good e1 /\
      (forall b, findBlock (ch e1) h = Some b -> settled (Status b) = false))
      by (intros m [= _ <-]; split_and!; [apply final_kept_refl|exact Hg|done]).
    destruct u as [[]|]; [|by eapply Hid|by eapply Hid].
    step H1 as b0 e2 H2. injection H1 as _ <-.
    assert (Hq : quiet cfg e e2) by (by eapply quiet_mark_update).
    eapply mark_final in H2 as (b & Hb & Hb' & Hh & Hf); [|done|done|by right].
    split_and!; [done|by eapply good_quiet|]. intros b1 Hb1. rewrite Hb' in Hb1.
    injection Hb1 as <-. simpl. by eapply Hns. }
  step Hrun as bv e2 H2. assert (Hq2 : quiet cfg e1 e2) by (by eapply quiet_mark_valid).
  eapply mark_final in H2 as (b & Hb & Hb' & Hh & Hf2); [|done|done|intros b0 Hb0; left; by apply Hns1].
  assert (Hg2 : good e2) by (by eapply good_quiet).
  step Hrun as ep e3 H3. apply reads_GetEpoch in H3 as ->. step Hrun as u4 e4 H4.
  assert (sb e2 e4 /\ stored_ok e4) as [Hs Hok4].
  { destruct (_ || _).
    - step H4 as u5 e5 H5. injection H5 as _ <-. step H4 as rd e6 H6. injection H6 as <- <-.
      cbn [voteTimerReady with_flags] in H4.
      destruct (voteTimerReady e2); [|injection H4 as _ <-; split; [done|apply Hg2]].
      split; [by eapply sb_vote in H4|]. eapply progress_vote in H4 as [Hst _].
      eapply steps_stored; [exact Hst|apply Hg2].
    - injection H4 as _ <-. split; [done|apply Hg2]. }
  destruct (checkCC_effect cfg h e4 a e') as [(_ & _ & Hf4) _]; [done| |done|].
  { eapply acyclic_headers; [apply same_blocks_headers, Hs|apply Hg2]. }
  eapply final_kept_trans; [exact Hf1|]. eapply final_kept_trans; [exact Hf2|].
  eapply final_kept_trans; [apply same_blocks_final, Hs|exact Hf4].
Qed.
End Finality.

Section Events.
Context `{BlockCrypto} `{VoteCrypto} {S : Type} `{!Store S} {E : Type} `{!Environment S E}.
Context (cfg : Config).
Implicit Types (e : Engine S E).

Abbreviation ch e := (chain (state e)).

Lemma validate_descendant block p e e' : validateBlock cfg block p e = Ok (None, e') ->
  state e' = state e /\
  exists k, nth_ancestor (ch e) k (BlockHash block) = Some (CCBlockHash (block_hcc block)).
Proof.
  unfold validateBlock. intros (e1 & [_ ->]%validate_parent_ok & Hr)%and_then_ok.
  apply and_then_ok in Hr as (e2 & Hc%validate_hcc_ok & Hr).
  apply and_then_ok in Hr as (e3 & [_ ->]%validate_confirmations_ok & [_ ->]%validate_proposer_ok).
  destruct Hc as (Hd & b & _ & Hst). split.
  - by destruct Hst as [[_ ->]|(_ & vs & votes & _ & _ & _ & ->)].
  - apply ancestor_loop_spec in Hd as (k & _ & Hk). eauto.
Qed.

(** After the certificate is processed, the block itself is still pending. *)
Lemma handle_hcc_pending block b k e a e' :
  good e -> findBlock (ch e) (BlockHash block) = Some b -> IsPending (Status b) = true ->
  nth_ancestor (ch e) k (BlockHash block) = Some (CCBlockHash (block_hcc block)) ->
  handle_hcc cfg block e = Ok (a, e') ->
  findBlock (ch e') (BlockHash block) = Some b /\ same_headers (ch e) (ch e') /\
  final_kept (ch e) (ch e').
Proof.
  intros Hg Hb Hp Hk Hrun. destruct (handle_hcc_effect cfg _ _ _ _ Hg Hrun) as [(Hh & Ho & Hf) Hpend].
  split_and!; [|done|done]. destruct (Ho (BlockHash block)) as [->|[n Hn]]; [done|].
  pose proof (nth_ancestor_add _ _ n _ _ Hk) as Hcycle. rewrite Hn in Hcycle.
  destruct k as [|k]; [|by apply (proj2 Hg) in Hcycle].
  injection Hk as Heq. rewrite <- Heq in Hpend. by rewrite (Hpend b Hb Hp).
Qed.

Lemma handleNormalBlock_final eb e a e' :
  good e -> findBlock (ch e) (BlockHash (EBlock eb)) = Some eb ->
  handleNormalBlock cfg eb e = Ok (a, e') -> final_kept (ch e) (ch e').
Proof.
  intros Hg Hb Hrun. unfold handleNormalBlock in Hrun.
  destruct (IsPending (Status eb)) eqn:Hp; cbn [negb] in Hrun;
    [|injection Hrun as _ <-; apply final_kept_refl].
  assert (Hns : settled (Status eb) = false) by (revert Hp; by destruct (Status eb)).
  step Hrun as parent e1 H1. apply reads_find_parent in H1 as ->. step Hrun as err e2 H2.
  assert (Hs2 : sb e e2) by (by eapply sb_validate).
  assert (Hg2 : good e2) by (eapply good_sb; [exact Hg|by eapply quiet_validateBlock|exact Hs2]).
  destruct err as [msg|].
  { eapply final_kept_trans; [apply same_blocks_final, Hs2|].
    eapply mark_invalid_final; [exact Hg2| |exact Hrun]. intros b. rewrite Hs2, Hb. by intros [= <-]. }
  apply validate_descendant in H2 as [Hst [k Hk]]. step Hrun as u3 e3 H3.
  assert (Hq3 : quiet cfg e2 e3) by (by eapply quiet_handle_hcc).
  eapply handle_hcc_pending in H3 as (Hb3 & Hh3 & Hf3); [|exact Hg2|by rewrite Hst|exact Hp|by rewrite Hst].
  assert (Hg3 : good e3) by (by eapply good_quiet).
  step Hrun as r1 e4 H4. assert (Hs4 : sb e3 e4) by (by eapply sb_reset).
  assert (Hg4 : good e4) by (eapply good_sb; [exact Hg3|by eapply (quiet_reset cfg)|exact Hs4]).
  assert (Hf4 : final_kept (ch e) (ch e4)).
  { eapply final_kept_trans; [apply same_blocks_final, Hs2|].
    eapply final_kept_trans; [exact Hf3|apply same_blocks_final, Hs4]. }
  eapply final_kept_trans; [exact Hf4|].
  assert (Hb4 : forall b, findBlock (ch e4) (BlockHash (EBlock eb)) = Some b -> settled (Status b) = false)
    by (intros b; rewrite Hs4, Hb3; by intros [= <-]).
  destruct (IsError r1); [by eapply mark_invalid_final|].
  step Hrun as r2 e5 H5. assert (Hs5 : sb e4 e5) by (by eapply sb_apply).
  assert (Hg5 : good e5) by (eapply good_sb; [exact Hg4|by eapply (quiet_apply cfg)|exact Hs5]).
  assert (Hb5 : forall b, findBlock (ch e5) (BlockHash (EBlock eb)) = Some b -> settled (Status b) = false)
    by (intros b; rewrite Hs5; apply Hb4).
  eapply final_kept_trans; [apply same_blocks_final, Hs5|].
  destruct r2; [by eapply accept_block_final|by eapply mark_invalid_final|].
  injection Hrun as _ <-. apply final_kept_refl.
Qed.

Lemma processMessage_final m e r e' :
  good e -> hardcode cfg = [] -> processMessage cfg m e = Ok (r, e') -> final_kept (ch e) (ch e').
Proof.
  intros Hg Hhc Hrun. destruct m as [v|b]; cbn [processMessage] in Hrun.
  - step Hrun as en e1 H1. step Hrun as u e2 H2. injection Hrun as _ <-.
    assert (Hs : sb e e1) by (by eapply sb_handleVote).
    assert (Hg1 : good e1) by (eapply good_sb; [exact Hg|by eapply quiet_handleVote|exact Hs]).
    destruct Hg1 as [Hok1 Hac1]. destruct (checkCC_effect cfg _ _ _ _ Hok1 Hac1 H2) as [(_ & _ & Hf) _].
    eapply final_kept_trans; [apply same_blocks_final, Hs|exact Hf].
  - step Hrun as u e1 H1. injection Hrun as _ <-. unfold handleBlock in H1.
    step H1 as fb e2 H2. injection H2 as <- <-. destruct (findBlock _ _) as [eb|] eqn:Hb; [|done].
    rewrite Hhc in H1. cbn [hardcoded] in H1. eapply handleNormalBlock_final; [done| |exact H1].
    change (BlockHash (EBlock eb)) with (EBHash eb).
    by rewrite (blocks_ok_hash _ _ _ (proj1 (proj1 Hg)) Hb).
Qed.
End Events.

(** ** Proposals and the main loop *)

Section MainLoop.
Context `{BlockCrypto} `{VoteCrypto} {S : Type} `{!Store S} {E : Type} `{!Environment S E}.
Context (cfg : Config).
Implicit Types (e : Engine S E).

Abbreviation ch e := (chain (state e)).

Lemma sb_propose_txs b d : keeps (sb (E := E)) (propose_block_txs b d).
Proof.
  intros e r e'. unfold propose_block_txs.
  destruct (ProposeBlockTxs _ _ _ _) as [[[[r1 y] x] c]| |] eqn:Ha; [|done|done].
  intros [= _ <-]. unfold sb. simpl. by eapply receipts_same, ProposeBlockTxs_receipts.
Qed.

Lemma sb_createProposal d : keeps sb (createProposal cfg d).
Proof.
  pose proof sb_propose_txs. pose proof (sb_reset (E := E)). pose proof (sb_now (E := E)).
  pose proof (fun s => sb_env_action _ (still_range s)).
  unfold createProposal, draft_block, proposal_votes. keeps_tac.
Qed.

Lemma sb_same_dynasty tip : keeps (sb (E := E)) (validatorMajorityInTheSameDynasty tip).
Proof.
  pose proof (fun s => sb_env_action _ (still_range s)). pose proof (sb_height (E := E)).
  pose proof (fun vs s => sb_env_action _ (still_has_majority vs s)).
  unfold validatorMajorityInTheSameDynasty. keeps_tac.
Qed.

(** Adding a block keeps the statuses of the others. *)
Lemma add_final c block eb c' : blocks_ok c -> cache_ok (Header block) ->
  AddBlock (CalcEthTxHash cfg) c block = Ok (eb, c') -> final_kept c c'.
Proof.
  intros Hok Hc (_ & Hnone & -> & _ & Hfind & _)%addBlock_inv h b Hb _; [|done|done].
  rewrite Hfind. case_decide; [congruence|]. rewrite Hb. eexists. split; [done|].
  unfold adopt. by case_decide.
Qed.

Definition keeps_final e e' : Prop := stored_ok e -> stored_ok e' /\ final_kept (ch e) (ch e').

#[export] Instance keeps_final_preorder : PreOrder keeps_final.
Proof.
  split; unfold keeps_final.
  - intros e Hok. split; [done|apply final_kept_refl].
  - intros e1 e2 e3 H12 H23 [Hok2 Hf2]%H12. apply H23 in Hok2 as [Hok3 Hf3].
    split; [done|by eapply final_kept_trans].
Qed.

Lemma final_sb {A} (m : M S E A) : keeps (progress cfg) m -> keeps sb m -> keeps keeps_final m.
Proof.
  intros Hq Hs e a e' Hrun Hok. destruct (Hq _ _ _ Hrun) as (Hst & _).
  split; [by eapply steps_stored|]. by eapply same_blocks_final, Hs.
Qed.

Lemma final_quiet {A} (m : M S E A) : keeps (quiet cfg) m -> keeps sb m -> keeps keeps_final m.
Proof. intros Hq. apply final_sb. eapply keeps_mono; [apply quiet_progress|done]. Qed.

Lemma final_new_proposal d : keeps keeps_final (createProposal cfg d ≫= store_proposal cfg).
Proof.
  intros e r e' Hrun. pose proof (quiet_new_proposal cfg d _ _ _ Hrun) as Hq.
  intros Hok. split; [by eapply quiet_blocks_ok|].
  step Hrun as p e1 H1. pose proof (sb_createProposal d _ _ _ H1) as Hs.
  eapply final_kept_trans; [apply same_blocks_final, Hs|].
  destruct p as [q|]; [|injection Hrun as _ <-; apply final_kept_refl].
  destruct (createProposal_fresh _ _ _ _ _ H1) as (b & Hb & Hc & Hu). unfold store_proposal in Hrun.
  step Hrun as u e2 H2. apply on_state_inv in H2 as (st & [= <-] & ->).
  rewrite Hb in Hrun. step Hrun as b' e3 H3. injection H3 as <- <-. step Hrun as eb e4 H4.
  injection Hrun as _ <-. apply on_chain_inv in H4 as (c & Hadd & ->). simpl in *.
  destruct (AddBlock _ _ _) as [[eb' c']| |] eqn:Ha; try done. injection Hadd as -> ->.
  eapply add_final; [|by left|exact Ha]. eapply blocks_ok_same; [apply Hok|exact Hs].
Qed.

Lemma final_begin_epoch : keeps keeps_final (begin_epoch cfg).
Proof.
  pose proof final_new_proposal.
  assert (forall tip, keeps keeps_final (validatorMajorityInTheSameDynasty tip))
    by (intros; apply final_quiet; [apply quiet_same_dynasty|apply sb_same_dynasty]).
  assert (forall p, keeps keeps_final (modify (with_sent p)))
    by (intros; apply final_quiet; [apply quiet_sent|by apply sb_modify]).
  assert (forall b, keeps keeps_final (spawn (MBlock b)))
    by (intros; apply final_quiet; [apply quiet_spawn_block|by apply sb_modify]).
  assert (keeps keeps_final enterEpoch)
    by (apply final_quiet; [apply (quiet_flags cfg (fun _ => false) (fun _ => false))|by apply sb_modify]).
  unfold begin_epoch, propose, choose_proposal. keeps_tac.
Qed.

Lemma final_vote : keeps keeps_final (vote cfg).
Proof. apply final_sb; [apply progress_vote|apply sb_vote]. Qed.

Lemma on_event_final ev e r e' :
  good e -> hardcode cfg = [] -> on_event cfg ev e = Ok (r, e') ->
  stored_ok e' /\ final_kept (ch e) (ch e').
Proof.
  intros Hg Hh Hrun. pose proof final_vote.
  assert (Hother : forall m : M S E bool, keeps keeps_final m -> m e = Ok (r, e') ->
    stored_ok e' /\ final_kept (ch e) (ch e')) by (intros m Hm Hr; eapply Hm; [exact Hr|apply Hg]).
  destruct ev as [|m| |]; cbn [on_event] in Hrun.
  - revert Hrun. apply Hother.
    assert (keeps keeps_final (modify stop)) by (apply final_quiet; [apply quiet_stop|by apply sb_modify]).
    keeps_tac.
  - split; [|by eapply processMessage_final].
    destruct (keeps_processMessage cfg (progress cfg) (quiet_progress cfg) (progress_vote cfg) m _ _ _ Hrun)
      as (Hs & _).
    eapply steps_stored; [exact Hs|apply Hg].
  - revert Hrun. apply Hother.
    assert (keeps keeps_final (modify (fun e => with_flags true (blockProcessed e) e)))
      by (apply final_quiet; [apply (quiet_flags cfg (fun _ => true) blockProcessed)|by apply sb_modify]).
    keeps_tac.
  - revert Hrun. apply Hother. keeps_tac.
Qed.
End MainLoop.

(** Chains whose blocks are higher than their parents have no cycle. *)
Lemma acyclic_heights {S} `{!Store S} (c : Chain S) :
  (forall h b pb, findBlock c h = Some b -> findBlock c (EBParent b) = Some pb -> EBHeight pb < EBHeight b) ->
  acyclic c.
Proof.
  intros Hup.
  assert (Hdown : forall n h b x bx, findBlock c h = Some b -> nth_ancestor c (Datatypes.S n) h = Some x ->
    findBlock c x = Some bx -> EBHeight bx < EBHeight b).
  { induction n as [|n IH]; intros h b x bx Hb Hn Hx; cbn [nth_ancestor] in Hn; rewrite Hb in Hn; cbn in Hn.
    - injection Hn as <-. by eapply Hup.
    - destruct (findBlock c (EBParent b)) as [pb|] eqn:Hp; [|done].
      pose proof (Hup _ _ _ Hb Hp). enough (EBHeight bx < EBHeight pb) by lia.
      apply (IH (EBParent b) pb x bx); [done| |done]. cbn [nth_ancestor]. by rewrite Hp. }
  intros n h Hn. pose proof Hn as Hn'. cbn [nth_ancestor] in Hn'.
  destruct (findBlock c h) as [b|] eqn:Hb; [|done]. specialize (Hdown n h b h b Hb Hn Hb). lia.
Qed.

Definition above_parent (c : Chain (gmap Key Value)) (_ : Hash) (b : ExtendedBlock) : bool :=
  match findBlock c (EBParent b) with Some pb => EBHeight pb <? EBHeight b | None => true end.

Lemma check_acyclic (c : Chain (gmap Key Value)) :
  check_blocks (above_parent c) c = true -> acyclic c.
Proof.
  intros Hall. apply acyclic_heights. intros h b pb Hb Hp.
  pose proof (check_blocks_sound _ _ Hall h b Hb) as Hc. unfold above_parent in Hc. rewrite Hp in Hc.
  by apply Z.ltb_lt.
Qed.

(** ** Properties: finality *)

(** C3 (finality). On a chain whose parent links have no cycle, no event of
    the main loop (a vote, a block, a timer, the proposal at the start of an
    epoch) changes the status of a block that is directly or indirectly
    finalized, or loses it, without hardcoded blocks. *)
Theorem finality `{BlockCrypto} `{VoteCrypto} {S} `{!Store S} {E} `{!Environment S E} cfg
    (e e' : Engine S E) ev :
  stored_ok e -> acyclic (chain (state e)) -> hardcode cfg = [] ->
  loop_event cfg ev e = Ok (tt, e') -> final_kept (chain (state e)) (chain (state e')).
Proof.
  intros Hok Hac Hh Hrun. unfold loop_event in Hrun. step Hrun as en e1 H1.
  apply on_event_final in H1 as [Hok1 Hf1]; [|by split|done].
  destruct en; [|injection Hrun as <-; exact Hf1].
  eapply final_kept_trans; [exact Hf1|]. by eapply final_begin_epoch.
Qed.

Lemma finality_witness :
  final_kept (chain (state demo_run2)) (chain (state demo_run3)) /\
  is_ok (@loop_event demo_crypto demo_votes _ _ _ _ demo_config EvEpochTimer demo_run2) = true.
Proof.
  split; [|vm_compute; reflexivity].
  apply (@finality demo_crypto demo_votes _ _ _ _ demo_config demo_run2 demo_run3 EvEpochTimer).
  - split; [apply (@check_blocks_ok demo_crypto)|apply check_heights]; vm_compute; reflexivity.
  - apply check_acyclic. vm_compute. reflexivity.
  - reflexivity.
  - apply after_ok. vm_compute. reflexivity.
Defined.
