(* ===== verification/Bookkeeper.v ===== *)
(** * The transaction bookkeeper (src/mempool/tx_bookkeeper.go)

    A map of recently seen transactions with a FIFO list of the same records,
    from which records older than [maxTxLife] are dropped.  The map and the
    list share their records; only the status of a record changes, and only
    through the map.  Times are in nanoseconds, and an operation reads the
    clock once. *)

From stdpp Require Import gmap sorting.
From stdpp Require Import base list numbers strings.
From S2P Require Import Prelude Vote.
Local Open Scope string_scope.
Local Open Scope list_scope.
Local Open Scope Z_scope.

Definition defaultMaxNumTxs : nat := N.to_nat 200000.
Definition maxTxLife : Z := 60 * 1000000000.

Inductive TxStatus := TxStatusPending | TxStatusAbandoned.

Record TxRecord := mkTxRecord {
  RecHash : string;
  RecStatus : TxStatus;
  CreatedAt : Z
}.

Record transactionBookkeeper := mkBookkeeper {
  txMap : gmap string TxRecord;
  txList : list TxRecord;
  maxNumTxs : nat
}.

Definition createTransactionBookkeeper (max : nat) : transactionBookkeeper := mkBookkeeper ∅ [] max.

Definition IsOutdated (now : Z) (r : TxRecord) : bool := maxTxLife <? now - CreatedAt r.

Definition reset (tb : transactionBookkeeper) : transactionBookkeeper :=
  mkBookkeeper ∅ [] (maxNumTxs tb).

(** The loop that drops outdated records from the front. *)
Fixpoint drop_outdated (now : Z) (m : gmap string TxRecord) (l : list TxRecord)
    : gmap string TxRecord * list TxRecord :=
  match l with
  | [] => (m, [])
  | r :: l' =>
      if negb (IsOutdated now r) then (m, l)
      else drop_outdated now (delete (RecHash r) m) l'
  end.

Definition removeOutdatedTxsUnsafe (now : Z) (tb : transactionBookkeeper) : transactionBookkeeper :=
  let (m, l) := drop_outdated now (txMap tb) (txList tb) in mkBookkeeper m l (maxNumTxs tb).

Section Bookkeeper.
Context (getTransactionHash : Bytes -> string).

Definition hasSeen (now : Z) (tb : transactionBookkeeper) (rawTx : Bytes)
    : bool * transactionBookkeeper :=
  let tb' := removeOutdatedTxsUnsafe now tb in
  (bool_decide (is_Some (txMap tb' !! getTransactionHash rawTx)), tb').

Definition getStatus (now : Z) (tb : transactionBookkeeper) (txhash : string)
    : (TxStatus * bool) * transactionBookkeeper :=
  let tb' := removeOutdatedTxsUnsafe now tb in
  (match txMap tb' !! txhash with
   | None => (TxStatusAbandoned, false)
   | Some r => (RecStatus r, true)
   end, tb').

(** The oldest record is dropped when the list is full. *)
Definition pop_oldest (tb : transactionBookkeeper) : transactionBookkeeper :=
  if Nat.leb (maxNumTxs tb) (length (txList tb)) then
    match txList tb with
    | [] => tb
    | r :: l => mkBookkeeper (delete (RecHash r) (txMap tb)) l (maxNumTxs tb)
    end
  else tb.

Definition record (now : Z) (tb : transactionBookkeeper) (rawTx : Bytes)
    : bool * transactionBookkeeper :=
  let txhash := getTransactionHash rawTx in
  let tb1 := removeOutdatedTxsUnsafe now tb in
  if bool_decide (is_Some (txMap tb1 !! txhash)) then (false, tb1)
  else
    let tb2 := pop_oldest tb1 in
    let r := mkTxRecord txhash TxStatusPending now in
    (true, mkBookkeeper (<[txhash := r]> (txMap tb2)) (txList tb2 ++ [r]) (maxNumTxs tb2)).

Definition markAbandoned (tb : transactionBookkeeper) (rawTx : Bytes) : transactionBookkeeper :=
  let txhash := getTransactionHash rawTx in
  match txMap tb !! txhash with
  | None => tb
  | Some r => mkBookkeeper (<[txhash := mkTxRecord (RecHash r) TxStatusAbandoned (CreatedAt r)]> (txMap tb))
                (txList tb) (maxNumTxs tb)
  end.

(** [remove] deletes from the map and leaves the list alone. *)
Definition remove (tb : transactionBookkeeper) (rawTx : Bytes) : transactionBookkeeper :=
  mkBookkeeper (delete (getTransactionHash rawTx) (txMap tb)) (txList tb) (maxNumTxs tb).

(** ** The invariant *)

(** The list holds one record per hash, oldest first, created by [now]; the
    map has exactly their hashes, with the same creation times. *)
Definition book_ok (now : Z) (tb : transactionBookkeeper) : Prop :=
  NoDup (RecHash <$> txList tb) /\
  StronglySorted (fun r r' => CreatedAt r <= CreatedAt r') (txList tb) /\
  Forall (fun r => CreatedAt r <= now) (txList tb) /\
  (forall h, txMap tb !! h = None <-> h ∉ RecHash <$> txList tb) /\
  (forall h r r', txMap tb !! h = Some r -> r' ∈ txList tb -> RecHash r' = h ->
     CreatedAt r = CreatedAt r').

(** A record that is not outdated. *)
Definition fresh (now : Z) (l : list TxRecord) (h : string) : Prop :=
  exists r, r ∈ l /\ RecHash r = h /\ now - CreatedAt r <= maxTxLife.

Lemma book_ok_later now now' tb : now <= now' -> book_ok now tb -> book_ok now' tb.
Proof.
  intros Hle (H1 & H2 & H3 & H4 & H5). split_and!; try done.
  eapply Forall_impl; [exact H3|]. simpl. lia.
Qed.

Lemma book_ok_empty now max : book_ok now (createTransactionBookkeeper max).
Proof.
  split_and!; simpl; [apply NoDup_nil_2|constructor|constructor| |].
  - intros h. split; [intros _; apply not_elem_of_nil|intros _; apply lookup_empty].
  - intros h r r' Hr. by rewrite lookup_empty in Hr.
Qed.

(** Dropping the oldest record. *)
Lemma book_ok_tail now r m l max :
  book_ok now (mkBookkeeper m (r :: l) max) -> book_ok now (mkBookkeeper (delete (RecHash r) m) l max).
Proof.
  intros (H1 & H2 & H3 & H4 & H5). unfold book_ok in *. cbn [txList txMap fmap list_fmap] in *.
  apply NoDup_cons in H1 as [Hr H1]. apply StronglySorted_inv in H2 as [H2 _]. apply Forall_cons in H3 as [_ H3].
  split_and!; try done.
  - intros h. rewrite lookup_delete_None, H4, not_elem_of_cons.
    destruct (decide (RecHash r = h)) as [<-|]; split; [done|by left|intros [?|[_ ?]]; done|].
    intros Hn. right. split; [congruence|done].
  - intros h x x' Hx Hin Hh. apply lookup_delete_Some in Hx as [_ Hx].
    apply (H5 h x x' Hx); [by right|done].
Qed.

Lemma drop_outdated_ok now m l max :
  book_ok now (mkBookkeeper m l max) ->
  let (m', l') := drop_outdated now m l in
  book_ok now (mkBookkeeper m' l' max) /\ suffix l' l /\
  (forall r, r ∈ l' <-> r ∈ l /\ now - CreatedAt r <= maxTxLife).
Proof.
  revert m. induction l as [|r l IH]; intros m Hok; cbn [drop_outdated].
  { split_and!; [done|done|]. intros r. rewrite elem_of_nil. tauto. }
  unfold IsOutdated. destruct (Z.ltb_spec maxTxLife (now - CreatedAt r)) as [Hout|Hin]; cbn [negb].
  - specialize (IH _ (book_ok_tail _ _ _ _ _ Hok)).
    destruct (drop_outdated now (delete (RecHash r) m) l) as [m' l'].
    destruct IH as (Hok' & Hsuf & Hiff). split_and!; [done|by apply suffix_cons_r|].
    intros x. rewrite Hiff, elem_of_cons. split; [tauto|]. intros [[->|?] ?]; [lia|done].
  - split_and!; [done|done|]. intros x. split; [|tauto]. intros Hx. split; [done|].
    destruct Hok as (_ & Hs & _). cbn [txList] in Hs. apply StronglySorted_inv in Hs as [_ Hs].
    apply elem_of_cons in Hx as [->|Hx]; [lia|]. rewrite Forall_forall in Hs. specialize (Hs x Hx). lia.
Qed.

Lemma removeOutdated_ok now tb : book_ok now tb ->
  let tb' := removeOutdatedTxsUnsafe now tb in
  book_ok now tb' /\ maxNumTxs tb' = maxNumTxs tb /\ suffix (txList tb') (txList tb) /\
  (forall r, r ∈ txList tb' <-> r ∈ txList tb /\ now - CreatedAt r <= maxTxLife).
Proof.
  destruct tb as [m l max]. intros Hok. pose proof (drop_outdated_ok _ _ _ _ Hok) as Hd.
  unfold removeOutdatedTxsUnsafe. cbn [txMap txList maxNumTxs].
  destruct (drop_outdated now m l) as [m' l']. cbn [txList maxNumTxs]. destruct Hd as (? & ? & ?). by split_and!.
Qed.

(** Dropping twice at the same time is dropping once. *)
Lemma drop_outdated_idem now m l :
  let (m', l') := drop_outdated now m l in drop_outdated now m' l' = (m', l').
Proof.
  revert m. induction l as [|r l IH]; intros m; cbn [drop_outdated]; [done|].
  destruct (negb (IsOutdated now r)) eqn:Ho; [|apply IH]. cbn [drop_outdated]. by rewrite Ho.
Qed.

Lemma removeOutdated_idem now tb :
  removeOutdatedTxsUnsafe now (removeOutdatedTxsUnsafe now tb) = removeOutdatedTxsUnsafe now tb.
Proof.
  unfold removeOutdatedTxsUnsafe. pose proof (drop_outdated_idem now (txMap tb) (txList tb)) as Hi.
  destruct (drop_outdated now (txMap tb) (txList tb)) as [m l]. cbn [txMap txList maxNumTxs]. by rewrite Hi.
Qed.

Lemma known_iff now tb h : book_ok now tb ->
  is_Some (txMap (removeOutdatedTxsUnsafe now tb) !! h) <-> fresh now (txList tb) h.
Proof.
  intros Hok. destruct (removeOutdated_ok now tb Hok) as ((_ & _ & _ & Hdom & _) & _ & _ & Hiff).
  rewrite <- not_eq_None_Some, Hdom. unfold fresh. split.
  - intros Hn. apply dec_stable, list_elem_of_fmap in Hn as (r & -> & Hr). apply Hiff in Hr as [? ?]. eauto.
  - intros (r & Hr & <- & Hf) Hn. apply Hn, list_elem_of_fmap_2, Hiff. done.
Qed.

Lemma pop_oldest_ok now tb : book_ok now tb ->
  book_ok now (pop_oldest tb) /\ suffix (txList (pop_oldest tb)) (txList tb) /\
  maxNumTxs (pop_oldest tb) = maxNumTxs tb /\
  ((0 < maxNumTxs tb)%nat -> (length (txList tb) <= maxNumTxs tb)%nat ->
   (length (txList (pop_oldest tb)) < maxNumTxs tb)%nat) /\
  ((length (txList tb) < maxNumTxs tb)%nat -> pop_oldest tb = tb).
Proof.
  intros Hok. unfold pop_oldest. destruct (Nat.leb_spec (maxNumTxs tb) (length (txList tb))).
  - destruct tb as [m [|r l] max]; cbn [txList maxNumTxs length txMap] in *; split_and!; try done; try lia.
    + by apply book_ok_tail in Hok.
    + by apply suffix_cons_r.
  - split_and!; try done; lia.
Qed.

Lemma suffix_hashes l l' h : suffix l' l -> h ∉ RecHash <$> l -> h ∉ RecHash <$> l'.
Proof. intros [k ->]. rewrite fmap_app, not_elem_of_app. tauto. Qed.

Lemma book_ok_snoc now tb h : book_ok now tb -> h ∉ RecHash <$> txList tb ->
  let r := mkTxRecord h TxStatusPending now in
  book_ok now (mkBookkeeper (<[h := r]> (txMap tb)) (txList tb ++ [r]) (maxNumTxs tb)).
Proof.
  intros (H1 & H2 & H3 & H4 & H5) Hn r. unfold book_ok. cbn [txList txMap]. rewrite fmap_app. split_and!.
  - apply NoDup_app. split_and!; [done| |apply NoDup_singleton].
    intros x Hx ->%list_elem_of_singleton. by apply Hn.
  - clear - H2 H3. induction H2 as [|x l Hs IH Hx]; [repeat constructor|].
    apply Forall_cons in H3 as [Hx' H3]. cbn [app]. constructor; [by apply IH|].
    apply Forall_app. split; [done|]. by repeat constructor.
  - apply Forall_app. split; [done|]. repeat constructor. simpl. lia.
  - intros x. rewrite lookup_insert_None, H4, not_elem_of_app. cbn [fmap list_fmap RecHash r].
    rewrite not_elem_of_cons. split; [intros [? ?]; split_and!; [done|congruence|apply not_elem_of_nil]|].
    intros (? & ? & _). split; [done|congruence].
  - intros x y y' Hy Hin Hh. destruct (decide (h = x)) as [<-|Hne].
    + rewrite lookup_insert_eq in Hy. injection Hy as <-. apply elem_of_app in Hin as [Hin| ->%list_elem_of_singleton]; [|done].
      exfalso. apply Hn. rewrite <- Hh. by apply list_elem_of_fmap_2.
    + rewrite lookup_insert_ne in Hy by done. apply elem_of_app in Hin as [Hin| ->%list_elem_of_singleton]; [|done].
      by apply (H5 x y y').
Qed.

Lemma record_ok now tb rawTx : book_ok now tb ->
  book_ok now (record now tb rawTx).2 /\
  ((record now tb rawTx).1 = false <-> fresh now (txList tb) (getTransactionHash rawTx)) /\
  ((record now tb rawTx).1 = true -> exists l, suffix l (txList tb) /\
     txList (record now tb rawTx).2 = l ++ [mkTxRecord (getTransactionHash rawTx) TxStatusPending now]) /\
  ((0 < maxNumTxs tb)%nat -> (length (txList tb) <= maxNumTxs tb)%nat ->
   (length (txList (record now tb rawTx).2) <= maxNumTxs tb)%nat).
Proof.
  intros Hok. pose proof (known_iff now tb (getTransactionHash rawTx) Hok) as Hk.
  destruct (removeOutdated_ok now tb Hok) as (Hok1 & Hmax & Hsuf & _). unfold record.
  assert (Hlen : (length (txList (removeOutdatedTxsUnsafe now tb)) <= length (txList tb))%nat)
    by (destruct Hsuf as [k ->]; rewrite length_app; lia).
  destruct (pop_oldest_ok now _ Hok1) as (Hok2 & Hsuf2 & Hmax2 & Hlt & _).
  case_bool_decide as Hd; cbn [fst snd].
  - split_and!; [done|by split; intros; [apply Hk|]|done|]. intros; lia.
  - split_and!.
    + apply book_ok_snoc; [done|]. eapply suffix_hashes; [exact Hsuf2|].
      destruct Hok1 as (_ & _ & _ & Hdom & _). apply Hdom. by apply eq_None_not_Some.
    + split; [done|]. intros Hf. by apply Hk in Hf.
    + intros _. eexists. split; [|reflexivity]. by etrans.
    + intros Hpos Hle. cbn [txList]. rewrite length_app. simpl. rewrite <- Hmax in *.
      specialize (Hlt Hpos ltac:(lia)). lia.
Qed.

Lemma markAbandoned_ok now tb rawTx : book_ok now tb -> book_ok now (markAbandoned tb rawTx).
Proof.
  intros (H1 & H2 & H3 & H4 & H5). unfold markAbandoned.
  destruct (txMap tb !! getTransactionHash rawTx) as [r|] eqn:Hr; [|by split_and!].
  unfold book_ok. cbn [txList txMap]. split_and!; try done.
  - intros h. rewrite lookup_insert_None, <- H4. split; [tauto|]. intros Hn. split; [done|]. congruence.
  - intros h y y' Hy Hin Hh. destruct (decide (getTransactionHash rawTx = h)) as [<-|Hne].
    + rewrite lookup_insert_eq in Hy. injection Hy as <-. by apply (H5 _ r y' Hr).
    + rewrite lookup_insert_ne in Hy by done. by apply (H5 h y y').
Qed.
End Bookkeeper.

(** ** Properties *)

(** (seen transactions). In a consistent bookkeeper, a transaction is
    known exactly while a record of it is at most one minute old; recording a
    transaction fails exactly when it is known, keeps the bookkeeper
    consistent and within its capacity, and makes the transaction known until
    a minute has passed and no longer. *)
Theorem bookkeeper_spec getTransactionHash now tb rawTx :
  book_ok now tb ->
  let h := getTransactionHash rawTx in
  let tb' := (record getTransactionHash now tb rawTx).2 in
  ((hasSeen getTransactionHash now tb rawTx).1 = true <-> fresh now (txList tb) h) /\
  book_ok now (hasSeen getTransactionHash now tb rawTx).2 /\
  ((record getTransactionHash now tb rawTx).1 = negb (hasSeen getTransactionHash now tb rawTx).1) /\
  book_ok now tb' /\
  ((0 < maxNumTxs tb)%nat -> (length (txList tb) <= maxNumTxs tb)%nat ->
   (length (txList tb') <= maxNumTxs tb)%nat) /\
  ((record getTransactionHash now tb rawTx).1 = true -> forall t, now <= t ->
     ((hasSeen getTransactionHash t tb' rawTx).1 = true <-> t <= now + maxTxLife)).
Proof.
  intros Hok h tb'. pose proof (known_iff now tb h Hok) as Hk.
  destruct (record_ok getTransactionHash now tb rawTx Hok) as (Hok' & Hiff & Hlist & Hlen).
  assert (Hseen : (hasSeen getTransactionHash now tb rawTx).1 = true <-> fresh now (txList tb) h)
    by (unfold hasSeen; simpl; by rewrite bool_decide_eq_true).
  split_and!; try done.
  - unfold hasSeen. simpl. by apply removeOutdated_ok.
  - fold h in Hiff. destruct (record getTransactionHash now tb rawTx).1, (hasSeen getTransactionHash now tb rawTx).1;
      try done; exfalso.
    + assert (Hf : fresh now (txList tb) h) by (by apply Hseen). by apply Hiff in Hf.
    + assert (Hf : fresh now (txList tb) h) by (by apply Hiff). by apply Hseen in Hf.
  - intros Hr t Ht. destruct (Hlist Hr) as (l & Hsuf & Hl). unfold hasSeen. simpl.
    rewrite bool_decide_eq_true, known_iff by (by eapply book_ok_later). fold h.
    change (record getTransactionHash now tb rawTx).2 with tb' in Hl. rewrite Hl. split.
    + intros (r & Hin & Hh & Hlife). apply elem_of_app in Hin as [Hin| ->%list_elem_of_singleton]; [|simpl in Hlife; lia].
      exfalso. destruct Hok' as (Hnd & _). change (record getTransactionHash now tb rawTx).2 with tb' in Hnd.
      rewrite Hl, fmap_app in Hnd. apply NoDup_app in Hnd as (_ & Hdis & _).
      apply (Hdis h); [rewrite <- Hh; by apply list_elem_of_fmap_2|by apply list_elem_of_singleton].
    + intros Hle. eexists. split; [apply elem_of_app; right; by apply list_elem_of_singleton|].
      split; [done|]. simpl. lia.
Qed.

Lemma bookkeeper_spec_witness :
  let tb := (record id 5 (createTransactionBookkeeper 2) "a").2 in
  (hasSeen id 7 (record id 7 tb "b").2 "b").1 = true.
Proof.
  intros tb. destruct (bookkeeper_spec id 7 tb "b") as (_ & _ & _ & _ & _ & Hlate).
  - apply (book_ok_later 5 7); [lia|]. apply record_ok, book_ok_empty.
  - apply Hlate; [vm_compute; reflexivity|lia|unfold maxTxLife; lia].
Defined.
