(* ===== verification/Mempool.v ===== *)
(** * The mempool (src/mempool/mempool.go)

    Transactions are grouped by account; the groups are in a priority queue
    ordered by the gas price of their first transaction, and the transactions
    of a group in one ordered by sequence number.  The queue of
    theta/common/pqueue is a type class with the contract of a heap.  A group
    is a shared object, identified by its address: the queue holds addresses
    and the map the contents.  An operation reads the clock once. *)

From stdpp Require Import gmap sorting.
From stdpp Require Import base list numbers strings.
From S2P Require Import Prelude Vote Bookkeeper.
Local Open Scope string_scope.
Local Open Scope list_scope.
Local Open Scope Z_scope.

(** [pqueue.PriorityQueue], as the list of its elements in the order of
    [ElementList]; [heap_ok] says that they are in heap order. *)
Class PQueue := {
  heap_ok : forall {A}, (A -> Z) -> list A -> Prop;
  Push : forall {A}, (A -> Z) -> list A -> A -> list A;
  Pop : forall {A}, (A -> Z) -> list A -> option (A * list A);
  Peek : forall {A}, (A -> Z) -> list A -> option A;
  Remove : forall {A} `{EqDecision A}, (A -> Z) -> list A -> A -> list A;
  heap_nil {A} (p : A -> Z) : heap_ok p [];
  Push_perm {A} (p : A -> Z) l x : Push p l x ≡ₚ x :: l;
  Push_ok {A} (p : A -> Z) l x : heap_ok p l -> heap_ok p (Push p l x);
  Pop_nil {A} (p : A -> Z) l : Pop p l = None <-> l = [];
  Pop_perm {A} (p : A -> Z) l x l' : Pop p l = Some (x, l') -> l ≡ₚ x :: l';
  Pop_ok {A} (p : A -> Z) l x l' : heap_ok p l -> Pop p l = Some (x, l') ->
    heap_ok p l' /\ forall y, y ∈ l -> p y <= p x;
  Peek_Pop {A} (p : A -> Z) l : Peek p l = fst <$> Pop p l;
  Remove_perm {A} `{EqDecision A} (p : A -> Z) l x : x ∈ l -> l ≡ₚ x :: Remove p l x;
  Remove_ok {A} `{EqDecision A} (p : A -> Z) l x : heap_ok p l -> heap_ok p (Remove p l x)
}.

(** [TxInfo] of src/core/ledger.go. *)
Record TxInfo := mkTxInfo {
  EffectiveGasPrice : Z;
  TxAddress : Address;
  Sequence : uint64
}.

#[export] Instance TxInfo_eq_dec : EqDecision TxInfo.
Proof. solve_decision. Defined.

Record mempoolTransaction := mkMempoolTx {
  rawTransaction : Bytes;
  txInfo : TxInfo
}.

#[export] Instance mempoolTransaction_eq_dec : EqDecision mempoolTransaction.
Proof. solve_decision. Defined.

Record Mempool := mkMempool {
  candidateTxs : list Address;
  txBookeepper : transactionBookkeeper;
  addressToTxGroup : gmap Address (list mempoolTransaction);
  mp_size : Z
}.

Definition CreateMempool : Mempool :=
  mkMempool [] (createTransactionBookkeeper defaultMaxNumTxs) ∅ 0.

Definition DuplicateTxError : string := "Transaction already seen".
Definition FastsyncSkipTxError : string := "Skip tx during fastsync".

Section Mempool.
Context `{PQueue} (getTransactionHash : Bytes -> string).
(** [ScreenTx] and [ScreenTxUnsafe] of the ledger, which act on its state: a
    transaction that passes is executed on the screened view. *)
Context {L : Type} (ScreenTx : L -> Bytes -> (TxInfo + string) * L) (ScreenTxUnsafe : L -> Bytes -> bool * L).

(** Transactions with the lowest sequence come first. *)
Definition tx_Priority (t : mempoolTransaction) : Z := - Sequence (txInfo t).

Abbreviation group := (list mempoolTransaction) (only parsing).
Definition group_IsEmpty (g : group) : bool := bool_decide (g = []).

Definition group_Priority (g : group) : Z :=
  match Peek tx_Priority g with
  | None => -1
  | Some t => EffectiveGasPrice (txInfo t)
  end.

Definition AddTx (g : group) (rawTx : Bytes) (info : TxInfo) : group :=
  Push tx_Priority g (mkMempoolTx rawTx info).

(** [PopTx] on an empty group fails the conversion of the nil element. *)
Definition PopTx (g : group) : outcome (mempoolTransaction * group) :=
  match Pop tx_Priority g with
  | None => Panic "interface conversion: nil"
  | Some r => Ok r
  end.

Definition RemoveTxs (g : group) (committed : gset Bytes) : Z * group :=
  let elems := filter (fun t => rawTransaction t ∈ committed) g in
  (Z.of_nat (length elems), foldl (Remove tx_Priority) g elems).

(** The priority of a queued group, read through its address. *)
Definition prio (m : gmap Address group) (a : Address) : Z := group_Priority (default [] (m !! a)).

(** A group that has become empty is deleted from the map. *)
Definition put_group (m : gmap Address group) (a : Address) (g : group) : gmap Address group :=
  if group_IsEmpty g then delete a m else <[a := g]> m.

Definition InsertTransaction (now : Z) (synced : bool) (led : L) (mp : Mempool) (rawTx : Bytes)
    : option string * Mempool * L :=
  let (seen, tb1) := hasSeen getTransactionHash now (txBookeepper mp) rawTx in
  let mp1 := mkMempool (candidateTxs mp) tb1 (addressToTxGroup mp) (mp_size mp) in
  if (seen : bool) then (Some DuplicateTxError, mp1, led)
  else if synced then
    match ScreenTx led rawTx with
    | (inr msg, led) => (Some msg, mp1, led)
    | (inl info, led) =>
        let tb2 := (record getTransactionHash now tb1 rawTx).2 in
        let a := TxAddress info in
        let m := addressToTxGroup mp in
        let m' := <[a := AddTx (default [] (m !! a)) rawTx info]> m in
        let q' := match m !! a with
                  | Some _ => Remove (prio m') (candidateTxs mp) a
                  | None => candidateTxs mp
                  end in
        (None, mkMempool (Push (prio m') q' a) tb2 m' (mp_size mp + 1), led)
    end
  else (Some FastsyncSkipTxError, mp1, led).

(** The loop of [ReapUnsafe]; the second component of the result is the list
    of the popped transactions, outdated ones included. *)
Fixpoint reap_loop (now : Z) (n : nat) (mp : Mempool)
    : outcome (list Bytes * list mempoolTransaction * Mempool) :=
  match n with
  | O => Ok ([], [], mp)
  | S n' =>
      match Pop (prio (addressToTxGroup mp)) (candidateTxs mp) with
      | None => Ok ([], [], mp)
      | Some (a, q) =>
          r ← PopTx (default [] (addressToTxGroup mp !! a));
          let (t, g) := (r : mempoolTransaction * group) in
          let (st, tb) := getStatus now (txBookeepper mp) (getTransactionHash (rawTransaction t)) in
          let m' := put_group (addressToTxGroup mp) a g in
          let q' := if group_IsEmpty g then q else Push (prio m') q a in
          rest ← reap_loop now n' (mkMempool q' tb m' (mp_size mp));
          let '(txs, popped, mp') := (rest : list Bytes * list mempoolTransaction * Mempool) in
          Ok (if st.2 then rawTransaction t :: txs else txs, t :: popped, mp')
      end
  end.

Definition ReapUnsafe (now : Z) (maxNumTxs : Z) (mp : Mempool) : outcome (list Bytes * Mempool) :=
  if Z.eqb maxNumTxs 0 then Ok ([], mp)
  else
    let max := if maxNumTxs <? 0 then mp_size mp else Z.min (mp_size mp) maxNumTxs in
    r ← reap_loop now (Z.to_nat max) mp;
    let '(txs, _, mp') := (r : list Bytes * list mempoolTransaction * Mempool) in
    Ok (txs, mkMempool (candidateTxs mp') (txBookeepper mp') (addressToTxGroup mp')
               (mp_size mp' - Z.of_nat (length txs))).

(** One group of [removeTxs]: its contents, the size and the emptied groups. *)
Definition remove_group (committed : gset Bytes) (acc : gmap Address group * Z * list Address)
    (a : Address) : gmap Address group * Z * list Address :=
  let '(m, size, dead) := acc in
  let (n, g) := RemoveTxs (default [] (m !! a)) committed in
  (put_group m a g, size - n, if group_IsEmpty g then dead ++ [a] else dead).

Definition removeTxs (mp : Mempool) (committedRawTxs : list Bytes) : Mempool :=
  let '(m, size, dead) :=
    foldl (remove_group (list_to_set committedRawTxs)) (addressToTxGroup mp, mp_size mp, [])
      (candidateTxs mp) in
  mkMempool (foldl (Remove (prio m)) (candidateTxs mp) dead) (txBookeepper mp) m size.

(** The scan of [UpdateUnsafe] for transactions that have become obsolete. *)
Definition screen_one (now : Z) (acc : list Bytes * transactionBookkeeper * L) (t : mempoolTransaction)
    : list Bytes * transactionBookkeeper * L :=
  let '(invalid, tb, led) := acc in
  let (st, tb1) := getStatus now tb (getTransactionHash (rawTransaction t)) in
  if negb st.2 then (invalid ++ [rawTransaction t], tb1, led)
  else
    let (ok, led) := ScreenTxUnsafe led (rawTransaction t) in
    if (ok : bool) then (invalid, tb1, led)
    else (invalid ++ [rawTransaction t], markAbandoned getTransactionHash tb1 (rawTransaction t), led).

(** The transactions in the order of the scan: group after group. *)
Definition queued (mp : Mempool) : list mempoolTransaction :=
  mjoin ((fun a => default [] (addressToTxGroup mp !! a)) <$> candidateTxs mp).

Definition UpdateUnsafe (now : Z) (led : L) (mp : Mempool) (committedRawTxs : list Bytes) : Mempool * L :=
  let mp1 := removeTxs mp committedRawTxs in
  let '(invalid, tb, led) := foldl (screen_one now) ([], txBookeepper mp1, led) (queued mp1) in
  (removeTxs (mkMempool (candidateTxs mp1) tb (addressToTxGroup mp1) (mp_size mp1)) invalid, led).

Definition GetCandidateTransactionHashes (mp : Mempool) : list string :=
  (fun t => String.append "0x" (getTransactionHash (rawTransaction t))) <$> queued mp.

(** [Flush] empties the queue and the bookkeeper, not the map of the groups. *)
Definition Flush (mp : Mempool) : Mempool :=
  mkMempool [] (reset (txBookeepper mp)) (addressToTxGroup mp) 0.

(** ** Invariant *)

(** All pooled transactions. *)
Definition pool (m : gmap Address group) : list mempoolTransaction := mjoin (map_to_list m).*2.

Definition group_ok (a : Address) (g : group) : Prop :=
  g <> [] /\ heap_ok tx_Priority g /\ Forall (fun t => TxAddress (txInfo t) = a) g.

(** The queue holds exactly the accounts with pooled transactions. *)
Definition mp_ok (mp : Mempool) : Prop :=
  NoDup (candidateTxs mp) /\
  (forall a, a ∈ candidateTxs mp <-> is_Some (addressToTxGroup mp !! a)) /\
  map_Forall group_ok (addressToTxGroup mp).

Lemma pool_delete m a g : m !! a = Some g -> pool m ≡ₚ g ++ pool (delete a m).
Proof.
  intros Ha. unfold pool. rewrite <- (map_to_list_delete m a g Ha). done.
Qed.

Lemma pool_insert m a g : pool (<[a := g]> m) ≡ₚ g ++ pool (delete a m).
Proof.
  rewrite (pool_delete (<[a := g]> m) a g) by apply lookup_insert_eq.
  by rewrite delete_insert_eq.
Qed.

Lemma pool_replace m a g g' : m !! a = Some g -> forall k, g ≡ₚ k ++ g' ->
  pool m ≡ₚ k ++ pool (<[a := g']> m).
Proof. intros Ha k Hk. rewrite pool_insert, (pool_delete m a g Ha), Hk. by rewrite app_assoc. Qed.

Lemma pool_elem m t : t ∈ pool m <-> exists a g, m !! a = Some g /\ t ∈ g.
Proof.
  unfold pool. rewrite list_elem_of_join. split.
  - intros (g & Ht & Hg). apply list_elem_of_fmap in Hg as ([a g'] & -> & Hin).
    apply elem_of_map_to_list in Hin. eauto.
  - intros (a & g & Ha & Ht). exists g. split; [done|]. apply list_elem_of_fmap.
    exists (a, g). split; [done|]. by apply elem_of_map_to_list.
Qed.

Lemma pool_put m a g g' k : m !! a = Some g -> g ≡ₚ k ++ g' -> pool m ≡ₚ k ++ pool (put_group m a g').
Proof.
  intros Ha Hk. unfold put_group, group_IsEmpty. case_bool_decide as Hg.
  - rewrite (pool_delete m a g Ha), Hk, Hg. by rewrite app_nil_r.
  - by apply pool_replace with g.
Qed.

Lemma put_group_lookup m a g b :
  put_group m a g !! b = if decide (a = b) then (if group_IsEmpty g then None else Some g) else m !! b.
Proof.
  unfold put_group. destruct (group_IsEmpty g); case_decide; subst;
    rewrite ?lookup_delete_eq, ?lookup_insert_eq, ?lookup_delete_ne, ?lookup_insert_ne; done.
Qed.

Lemma put_group_ok m a g : map_Forall group_ok m -> (g <> [] -> group_ok a g) -> map_Forall group_ok (put_group m a g).
Proof.
  intros Hm Hg b x. rewrite put_group_lookup. case_decide as Hab; [|apply Hm]. subst b.
  unfold group_IsEmpty. case_bool_decide; [done|]. intros [= <-]. by apply Hg.
Qed.

Lemma AddTx_ok a g rawTx info : TxAddress info = a -> (g = [] \/ group_ok a g) ->
  group_ok a (AddTx g rawTx info) /\ AddTx g rawTx info ≡ₚ mkMempoolTx rawTx info :: g.
Proof.
  intros Ha Hg. unfold AddTx. assert (Hp := Push_perm tx_Priority g (mkMempoolTx rawTx info)).
  split; [|done]. split_and!.
  - intros Hn. rewrite Hn in Hp. by apply Permutation_nil_cons in Hp.
  - apply Push_ok. destruct Hg as [->|(_ & ? & _)]; [apply heap_nil|done].
  - rewrite Hp. constructor; [done|]. destruct Hg as [->|(_ & _ & ?)]; [constructor|done].
Qed.

Lemma insert_ok now synced led mp rawTx :
  mp_ok mp ->
  let '(err, mp', _) := InsertTransaction now synced led mp rawTx in
  mp_ok mp' /\
  match err with
  | Some _ => addressToTxGroup mp' = addressToTxGroup mp /\ candidateTxs mp' = candidateTxs mp /\
              mp_size mp' = mp_size mp
  | None => exists info, (ScreenTx led rawTx).1 = inl info /\
      pool (addressToTxGroup mp') ≡ₚ mkMempoolTx rawTx info :: pool (addressToTxGroup mp) /\
      mp_size mp' = mp_size mp + 1
  end.
Proof.
  clear ScreenTxUnsafe. intros (Hnd & Hdom & Hgr). unfold InsertTransaction.
  destruct (hasSeen _ _ _ _) as [seen tb1]. destruct seen; [by split_and!|].
  destruct synced; [|by split_and!]. destruct (ScreenTx led rawTx) as [[info|msg] led'] eqn:Hs; [|by split_and!].
  set (a := TxAddress info). set (m := addressToTxGroup mp). set (g0 := default [] (m !! a)).
  assert (Hg0 : g0 = [] \/ group_ok a g0).
  { unfold g0. destruct (m !! a) as [g|] eqn:Hg; [right; by apply (Hgr a)|by left]. }
  destruct (AddTx_ok a g0 rawTx info eq_refl Hg0) as [Hok Hperm].
  set (m' := <[a := AddTx g0 rawTx info]> m) in *.
  assert (Hq : exists q, (match m !! a with Some _ => Remove (prio m') (candidateTxs mp) a
                          | None => candidateTxs mp end) = q /\ NoDup (a :: q) /\
               forall x, x ∈ a :: q <-> x = a \/ x ∈ candidateTxs mp).
  { eexists. split; [reflexivity|]. destruct (m !! a) as [g|] eqn:Hg.
    - assert (Hin : a ∈ candidateTxs mp) by (apply Hdom; by exists g).
      pose proof (Remove_perm (prio m') _ _ Hin) as Hr. split; [by rewrite <- Hr|].
      intros x. rewrite <- Hr. split; [tauto|]. by intros [->|?].
    - assert (Hin : a ∉ candidateTxs mp).
      { intros [g Hg']%Hdom. unfold m in Hg. congruence. }
      split; [by constructor|]. intros x. by rewrite elem_of_cons. }
  destruct Hq as (q & -> & Hndq & Hinq). unfold mp_ok. cbn [candidateTxs addressToTxGroup mp_size]. split_and!.
  - by rewrite Push_perm.
  - intros x. rewrite Push_perm, Hinq, Hdom. unfold m'. destruct (decide (a = x)) as [<-|Hne].
    + rewrite lookup_insert_eq. split; [eauto|by left].
    + rewrite lookup_insert_ne by done. split; [intros [?|?]; [congruence|done]|by right].
  - apply map_Forall_insert_2; done.
  - exists info. split_and!; [done| |done]. unfold m'. rewrite pool_insert, Hperm. cbn [app]. constructor.
    unfold g0, m. destruct (addressToTxGroup mp !! a) as [g|] eqn:Hg; cbn [default id].
    + by rewrite <- (pool_delete _ _ _ Hg).
    + by rewrite delete_id.
Qed.

(** ** Reaping *)

(** The bookkeeper knows the transaction at that time. *)
Definition known (now : Z) (tb : transactionBookkeeper) (t : mempoolTransaction) : Prop :=
  is_Some (txMap (removeOutdatedTxsUnsafe now tb) !! getTransactionHash (rawTransaction t)).
#[local] Instance known_dec now tb t : Decision (known now tb t).
Proof. apply _. Defined.

(** Transactions of one account in the order of their sequence numbers. *)
Definition seq_le (t t' : mempoolTransaction) : Prop :=
  TxAddress (txInfo t) = TxAddress (txInfo t') -> Sequence (txInfo t) <= Sequence (txInfo t').

Lemma PopTx_group a g : group_ok a g -> exists t g', PopTx g = Ok (t, g') /\ g ≡ₚ t :: g' /\
  TxAddress (txInfo t) = a /\ (g' <> [] -> group_ok a g') /\
  Forall (fun t' => Sequence (txInfo t) <= Sequence (txInfo t')) g'.
Proof.
  intros (Hne & Hh & Hf). unfold PopTx. destruct (Pop tx_Priority g) as [[t g']|] eqn:Hp.
  2: { by apply Pop_nil in Hp. }
  pose proof (Pop_perm _ _ _ _ Hp) as Hperm. destruct (Pop_ok _ _ _ _ Hh Hp) as [Hh' Hmin].
  rewrite Hperm in Hf. apply Forall_cons in Hf as [Ht Hf].
  exists t, g'. split_and!; try done.
  apply Forall_forall. intros t' Ht'. specialize (Hmin t'). unfold tx_Priority in Hmin.
  assert (t' ∈ g) by (rewrite Hperm; by right). specialize (Hmin H0). lia.
Qed.

Lemma reap_loop_ok now n mp :
  mp_ok mp -> exists txs popped mp', reap_loop now n mp = Ok (txs, popped, mp') /\
    mp_ok mp' /\ mp_size mp' = mp_size mp /\
    pool (addressToTxGroup mp) ≡ₚ popped ++ pool (addressToTxGroup mp') /\
    (length popped <= n)%nat /\ ((length popped < n)%nat -> candidateTxs mp' = []) /\
    txs = rawTransaction <$> filter (known now (txBookeepper mp)) popped /\
    StronglySorted seq_le popped /\
    (forall t t', t ∈ popped -> t' ∈ pool (addressToTxGroup mp') -> seq_le t t').
Proof.
  revert mp. induction n as [|n IH]; intros mp Hok; cbn [reap_loop].
  { exists [], [], mp. split_and!; try done; try lia; [constructor|]. by intros t t' ?%elem_of_nil. }
  destruct (Pop _ (candidateTxs mp)) as [[a q]|] eqn:Hpop.
  2: { apply Pop_nil in Hpop. exists [], [], mp. split_and!; try done; simpl; try lia; [constructor|].
       by intros t t' ?%elem_of_nil. }
  apply Pop_perm in Hpop. pose proof Hok as (Hnd & Hdom & Hgr).
  assert (is_Some (addressToTxGroup mp !! a)) as [g Hg] by (apply Hdom; rewrite Hpop; by left).
  rewrite Hg. cbn [default id]. destruct (PopTx_group a g) as (t & g' & -> & Hperm & Hta & Hg' & Hmin);
    [by apply (Hgr a)|]. cbn [mbind outcome_bind].
  unfold getStatus. cbv beta iota zeta.
  set (m' := put_group (addressToTxGroup mp) a g'). set (tb := removeOutdatedTxsUnsafe now (txBookeepper mp)).
  set (q' := if group_IsEmpty g' then q else Push (prio m') q a).
  rewrite Hpop in Hnd. apply NoDup_cons in Hnd as [Haq Hndq].
  assert (Hq' : forall x, x ∈ q' <-> x ∈ q \/ (g' <> [] /\ x = a)).
  { intros x. unfold q', group_IsEmpty. case_bool_decide as Hn; [rewrite Hn; tauto|].
    rewrite Push_perm, elem_of_cons. tauto. }
  assert (Hok' : mp_ok (mkMempool q' tb m' (mp_size mp))).
  { unfold mp_ok. cbn [candidateTxs addressToTxGroup]. split_and!.
    - unfold q'. destruct (group_IsEmpty g'); [done|]. rewrite Push_perm. by constructor.
    - intros x. rewrite Hq'. unfold m'. rewrite put_group_lookup. destruct (decide (a = x)) as [<-|Hne].
      + unfold group_IsEmpty. case_bool_decide as Hn; split.
        * intros [Hx|[Hx _]]; done.
        * by intros [x Hx].
        * by eauto.
        * intros _. by right.
      + rewrite <- Hdom, Hpop, elem_of_cons. split; [intros [?|[_ ?]]; [by right|congruence]|].
        intros [?|?]; [congruence|by left].
    - by apply put_group_ok. }
  destruct (IH _ Hok') as (txs & popped & mp' & -> & Hmp' & Hsize & Hpool & Hlen & Hend & Htxs & Hsort & Hrest).
  cbn [mbind outcome_bind addressToTxGroup mp_size txBookeepper] in *.
  assert (Hpool0 : pool (addressToTxGroup mp) ≡ₚ t :: pool m')
    by (apply (pool_put _ a g g' [t]); done).
  assert (Hle : forall t', t' ∈ pool m' -> seq_le t t').
  { intros t' Ht' Haddr. apply pool_elem in Ht' as (b & gb & Hb & Ht').
    destruct Hok' as (_ & _ & Hgr'). destruct (Hgr' b gb Hb) as (_ & _ & Hfb). cbn [addressToTxGroup] in Hb.
    rewrite Forall_forall in Hfb. rewrite (Hfb t' Ht') in Haddr. subst b. rewrite Hta in Hb.
    unfold m' in Hb. rewrite put_group_lookup, decide_True in Hb by done.
    destruct (group_IsEmpty g'); [done|]. injection Hb as <-. rewrite Forall_forall in Hmin. by apply Hmin. }
  exists (if bool_decide (known now (txBookeepper mp) t) then rawTransaction t :: txs else txs), (t :: popped), mp'.
  split_and!; try done.
  - case_bool_decide as Hk; unfold known in Hk; fold tb in Hk.
    + by destruct Hk as [x ->].
    + by apply eq_None_not_Some in Hk as ->.
  - rewrite Hpool0, Hpool. done.
  - simpl. lia.
  - simpl. intros Hlt. apply Hend. lia.
  - rewrite filter_cons. assert (Hf : filter (known now tb) popped = filter (known now (txBookeepper mp)) popped)
      by (apply list_filter_iff; intros x; unfold known, tb; by rewrite removeOutdated_idem).
    rewrite Hf in Htxs. destruct (decide _) as [Hk|Hk];
      [rewrite bool_decide_eq_true_2 by done|rewrite bool_decide_eq_false_2 by done];
      rewrite ?fmap_cons; by rewrite Htxs.
  - constructor; [done|]. apply Forall_forall. intros t' Ht'. apply Hle. rewrite Hpool. by apply elem_of_app; left.
  - intros x t' [->|Hx]%elem_of_cons Ht'; [|by apply Hrest]. apply Hle. rewrite Hpool. by apply elem_of_app; right.
Qed.

(** ** Removing transactions *)

Lemma foldl_Remove {A} `{EqDecision A} (pr : A -> Z) (l k r : list A) :
  l ≡ₚ k ++ r ->
  foldl (Remove pr) l k ≡ₚ r /\ (heap_ok pr l -> heap_ok pr (foldl (Remove pr) l k)).
Proof.
  revert l. induction k as [|x k IH]; intros l Hl; [done|]. cbn [foldl].
  assert (Hx : x ∈ l) by (rewrite Hl; by left).
  pose proof (Remove_perm pr l x Hx) as Hp. rewrite Hp in Hl. apply Permutation_cons_inv in Hl.
  destruct (IH _ Hl) as [Hr Hh]. split; [done|]. intros Hok. apply Hh. by apply (Remove_ok pr).
Qed.

Lemma RemoveTxs_ok a g committed : group_ok a g ->
  let (n, g') := RemoveTxs g committed in
  n = Z.of_nat (length (filter (fun t => rawTransaction t ∈ committed) g)) /\
  g ≡ₚ filter (fun t => rawTransaction t ∈ committed) g ++ g' /\
  Forall (fun t => (rawTransaction t ∉ committed)) g' /\ (g' <> [] -> group_ok a g').
Proof.
  intros (_ & Hh & Hf). unfold RemoveTxs. set (P := fun t => rawTransaction t ∈ committed).
  pose proof (filter_app_complement P g) as Hc.
  destruct (foldl_Remove tx_Priority g (filter P g) (filter (fun t => ~ P t) g)) as [Hr Hok]; [by rewrite Hc|].
  split_and!; [done| | |].
  - by rewrite Hr, Hc.
  - rewrite Hr. apply Forall_forall. intros t [Ht _]%list_elem_of_filter. exact Ht.
  - intros Hne. split_and!; [done|by apply Hok|]. rewrite Hr. apply Forall_forall.
    intros t [_ Ht]%list_elem_of_filter. rewrite Forall_forall in Hf. by apply Hf.
Qed.

Lemma remove_loop_ok committed queue m size dead :
  NoDup queue -> (forall a, a ∈ queue -> is_Some (m !! a)) -> map_Forall group_ok m ->
  let '(m', size', dead') := foldl (remove_group committed) (m, size, dead) queue in
  exists removed gone,
    map_Forall group_ok m' /\ (forall a, a ∉ queue -> m' !! a = m !! a) /\
    (forall a g, a ∈ queue -> m' !! a = Some g -> Forall (fun t => (rawTransaction t ∉ committed)) g) /\
    pool m ≡ₚ removed ++ pool m' /\ Forall (fun t => rawTransaction t ∈ committed) removed /\
    size' = size - Z.of_nat (length removed) /\ dead' = dead ++ gone /\ gone ⊆+ queue /\
    (forall a, a ∈ gone <-> a ∈ queue /\ m' !! a = None).
Proof.
  revert m size dead. induction queue as [|a queue IH]; intros m size dead Hnd Hdom Hgr; cbn [foldl].
  { exists [], []. rewrite app_nil_r, Z.sub_0_r. split_and!; try done.
    - by intros a g ?%elem_of_nil.
    - intros a. rewrite elem_of_nil. tauto. }
  apply NoDup_cons in Hnd as [Ha Hnd]. destruct (Hdom a) as [g Hg]; [by left|].
  pose proof (RemoveTxs_ok a g committed (Hgr a g Hg)) as Hrm.
  assert (Hstep : remove_group committed (m, size, dead) a =
    let (n, g') := RemoveTxs g committed in
    (put_group m a g', size - n, if group_IsEmpty g' then dead ++ [a] else dead))
    by (unfold remove_group; by rewrite Hg).
  rewrite Hstep. clear Hstep.
  destruct (RemoveTxs g committed) as [n g']. destruct Hrm as (-> & Hperm & Hclean & Hok').
  set (k := filter _ g) in *. set (m1 := put_group m a g').
  assert (Hpool : pool m ≡ₚ k ++ pool m1) by (by apply pool_put with g).
  assert (Hdom1 : forall b, b ∈ queue -> is_Some (m1 !! b)).
  { intros b Hb. unfold m1. rewrite put_group_lookup, decide_False by (intros ->; done). apply Hdom. by right. }
  specialize (IH m1 (size - Z.of_nat (length k)) (if group_IsEmpty g' then dead ++ [a] else dead) Hnd Hdom1
                (put_group_ok m a g' Hgr Hok')).
  destruct (foldl _ _ queue) as [[m' size'] dead'].
  destruct IH as (removed & gone & Hgr' & Hout & Hin & Hpool' & Hrem & -> & -> & Hsub & Hgone).
  exists (k ++ removed), (if group_IsEmpty g' then a :: gone else gone).
  assert (Hma : m' !! a = if group_IsEmpty g' then None else Some g')
    by (rewrite Hout by done; unfold m1; by rewrite put_group_lookup, decide_True).
  split_and!.
  - done.
  - intros b [Hba Hb]%not_elem_of_cons. rewrite Hout by done. unfold m1. by rewrite put_group_lookup, decide_False.
  - intros b x [->|Hb]%elem_of_cons Hx; [|by eapply Hin]. rewrite Hma in Hx.
    destruct (group_IsEmpty g'); [done|]. by injection Hx as <-.
  - rewrite Hpool, Hpool'. by rewrite app_assoc.
  - apply Forall_app. split; [|done]. apply Forall_forall. by intros t [Ht _]%list_elem_of_filter.
  - rewrite length_app. lia.
  - destruct (group_IsEmpty g'); [by rewrite <- app_assoc|done].
  - destruct (group_IsEmpty g'); [by apply submseteq_skip|by apply submseteq_cons].
  - intros b. destruct (group_IsEmpty g') eqn:He; rewrite ?elem_of_cons, Hgone; split.
    + intros [->|[? ?]]; [split; [by left|done]|split; [by right|done]].
    + intros [[->|?] ?]; [by left|by right].
    + intros [? ?]. split; [by right|done].
    + intros [[->|?] Hn]; [|done]. by rewrite Hma in Hn.
Qed.

Lemma removeTxs_ok mp committed : mp_ok mp ->
  let mp' := removeTxs mp committed in
  mp_ok mp' /\ txBookeepper mp' = txBookeepper mp /\
  pool (addressToTxGroup mp') ≡ₚ filter (fun t => (rawTransaction t ∉ committed)) (pool (addressToTxGroup mp)) /\
  mp_size mp' - Z.of_nat (length (pool (addressToTxGroup mp'))) =
    mp_size mp - Z.of_nat (length (pool (addressToTxGroup mp))).
Proof.
  intros (Hnd & Hdom & Hgr). unfold removeTxs.
  pose proof (remove_loop_ok (list_to_set committed) (candidateTxs mp) (addressToTxGroup mp) (mp_size mp) []
                Hnd (fun a => proj1 (Hdom a)) Hgr) as Hloop.
  destruct (foldl _ _ (candidateTxs mp)) as [[m size] dead].
  destruct Hloop as (removed & gone & Hgr' & Hout & Hin & Hpool & Hrem & -> & -> & Hsub & Hgone).
  cbn [app]. apply submseteq_Permutation in Hsub as [rest Hq].
  destruct (foldl_Remove (prio m) (candidateTxs mp) gone rest Hq) as [Hrest _].
  rewrite Hq in Hnd. apply NoDup_app in Hnd as (_ & Hdis & Hndr).
  unfold mp_ok. cbn [candidateTxs addressToTxGroup txBookeepper mp_size]. split_and!; try done.
  - by rewrite Hrest.
  - intros a. rewrite Hrest. split.
    + intros Ha. assert (Hc : a ∈ candidateTxs mp) by (rewrite Hq; apply elem_of_app; by right).
      apply not_eq_None_Some. intros Hn. apply (Hdis a); [by apply Hgone|done].
    + intros [g Hg]. destruct (decide (a ∈ candidateTxs mp)) as [Hc|Hc].
      * rewrite Hq in Hc. apply elem_of_app in Hc as [Hc|Hc]; [|done].
        apply Hgone in Hc as [_ Hn]. congruence.
      * rewrite Hout in Hg by done. exfalso. apply Hc, Hdom. eauto.
  - rewrite Hpool, filter_app.
    rewrite (filter_none _ removed), (filter_all _ (pool m)); [done| |].
    + apply Forall_forall. intros t Ht. apply pool_elem in Ht as (a & g & Ha & Ht).
      destruct (decide (a ∈ candidateTxs mp)) as [Hc|Hc].
      * pose proof (Hin a g Hc Ha) as Hcl. rewrite Forall_forall in Hcl.
        specialize (Hcl t Ht). by rewrite elem_of_list_to_set in Hcl.
      * rewrite Hout in Ha by done. exfalso. apply Hc, Hdom. eauto.
    + eapply Forall_impl; [exact Hrem|]. intros t. simpl. rewrite elem_of_list_to_set. tauto.
  - rewrite Hpool, length_app. lia.
Qed.

(** ** Updates *)

(** The bookkeepers that know the same transactions and hold no outdated
    record at the front. *)
Definition same_known (now : Z) (tb tb' : transactionBookkeeper) : Prop :=
  forall h, is_Some (txMap (removeOutdatedTxsUnsafe now tb') !! h) <->
            is_Some (txMap (removeOutdatedTxsUnsafe now tb) !! h).

Lemma drop_outdated_length now m l : (length (drop_outdated now m l).2 <= length l)%nat.
Proof.
  revert m. induction l as [|r l IH]; intros m; cbn [drop_outdated]; [done|].
  destruct (negb _); [done|]. specialize (IH (delete (RecHash r) m)). simpl. lia.
Qed.

Lemma same_known_abandoned now tb raw : let tb1 := removeOutdatedTxsUnsafe now tb in
  same_known now tb (markAbandoned getTransactionHash tb1 raw).
Proof.
  intros tb1 h. assert (Hid : removeOutdatedTxsUnsafe now tb1 = tb1) by apply removeOutdated_idem.
  assert (Hrm : removeOutdatedTxsUnsafe now (markAbandoned getTransactionHash tb1 raw) =
                markAbandoned getTransactionHash tb1 raw).
  { unfold markAbandoned. destruct (txMap tb1 !! _) as [r|]; [|done].
    unfold removeOutdatedTxsUnsafe in Hid |- *. cbn [txMap txList maxNumTxs].
    destruct (txList tb1) as [|x l] eqn:Hl; [done|]. cbn [drop_outdated] in Hid |- *.
    destruct (negb (IsOutdated now x)) eqn:Hx; [done|]. exfalso.
    pose proof (drop_outdated_length now (delete (RecHash x) (txMap tb1)) l) as Hlen.
    destruct (drop_outdated now _ l) as [m' l']. apply (f_equal txList) in Hid. cbn [txList snd] in *.
    rewrite Hl in Hid. subst l'. simpl in Hlen. lia. }
  rewrite Hrm. fold tb1. unfold markAbandoned.
  destruct (txMap tb1 !! getTransactionHash raw) as [r|] eqn:Hr; [|done]. cbn [txMap].
  destruct (decide (getTransactionHash raw = h)) as [<-|Hne].
  - rewrite lookup_insert_eq, Hr. split; eauto.
  - by rewrite lookup_insert_ne.
Qed.

(** The transactions that the scan finds obsolete: those the bookkeeper no
    longer knows, and those that fail the screening in the order of the scan. *)
Fixpoint obsolete (now : Z) (tb : transactionBookkeeper) (led : L) (txs : list mempoolTransaction) : list Bytes :=
  match txs with
  | [] => []
  | t :: txs' =>
    if decide (known now tb t) then
      let (ok, led') := ScreenTxUnsafe led (rawTransaction t) in
      if (ok : bool) then obsolete now tb led' txs' else rawTransaction t :: obsolete now tb led' txs'
    else rawTransaction t :: obsolete now tb led txs'
  end.

Lemma screen_ok now tb0 led txs invalid tb : same_known now tb0 tb ->
  (foldl (screen_one now) (invalid, tb, led) txs).1.1 = invalid ++ obsolete now tb0 led txs.
Proof.
  revert invalid tb led. induction txs as [|t txs IH]; intros invalid tb led Hk; cbn [foldl obsolete].
  { by rewrite app_nil_r. }
  specialize (Hk (getTransactionHash (rawTransaction t))) as Hkt.
  assert (Hk1 : same_known now tb0 (removeOutdatedTxsUnsafe now tb))
    by (intros h; rewrite removeOutdated_idem; apply Hk).
  unfold screen_one at 2, getStatus.
  destruct (txMap (removeOutdatedTxsUnsafe now tb) !! _) as [r|] eqn:Hr; cbn [negb snd].
  - rewrite decide_True by (apply Hkt; eauto). destruct (ScreenTxUnsafe led (rawTransaction t)) as [[] led'].
    + by apply IH.
    + rewrite IH; [by rewrite <- app_assoc|]. intros h.
      rewrite (same_known_abandoned now tb (rawTransaction t) h). apply Hk.
  - rewrite decide_False by (intros Hn; apply Hkt in Hn as [? ?]; done).
    rewrite IH by done. by rewrite <- app_assoc.
Qed.

Lemma update_ok now led mp committed : mp_ok mp ->
  let mp' := (UpdateUnsafe now led mp committed).1 in
  mp_ok mp' /\
  (forall t, t ∈ pool (addressToTxGroup mp') <->
     t ∈ pool (addressToTxGroup mp) /\ (rawTransaction t ∉ committed) /\
     (rawTransaction t ∉ obsolete now (txBookeepper mp) led (queued (removeTxs mp committed)))) /\
  mp_size mp' - Z.of_nat (length (pool (addressToTxGroup mp'))) =
    mp_size mp - Z.of_nat (length (pool (addressToTxGroup mp))).
Proof.
  clear ScreenTx. intros Hok. unfold UpdateUnsafe. destruct (removeTxs_ok mp committed Hok) as (Hok1 & Htb1 & Hpool1 & Hsize1).
  set (mp1 := removeTxs mp committed) in *.
  pose proof (screen_ok now (txBookeepper mp) led (queued mp1) [] (txBookeepper mp1)) as Hscr.
  destruct (foldl (screen_one now) ([], txBookeepper mp1, led) (queued mp1)) as [[invalid tb] led'].
  cbn [fst app] in Hscr |- *. rewrite Hscr by (by rewrite Htb1). clear Hscr.
  destruct (removeTxs_ok (mkMempool (candidateTxs mp1) tb (addressToTxGroup mp1) (mp_size mp1))
    (obsolete now (txBookeepper mp) led (queued mp1)) Hok1)
    as (Hok2 & _ & Hpool2 & Hsize2). cbn [addressToTxGroup mp_size] in Hpool2, Hsize2.
  split_and!; [done| |lia].
  intros t. rewrite Hpool2, list_elem_of_filter, Hpool1, list_elem_of_filter. tauto.
Qed.

(** ** Runs *)

(** The operations on a mempool, at any times. *)
Inductive mp_step (mp : Mempool) : Mempool -> Prop :=
| mp_insert now synced led rawTx err mp' led' :
    InsertTransaction now synced led mp rawTx = (err, mp', led') -> mp_step mp mp'
| mp_reap now max txs mp' : ReapUnsafe now max mp = Ok (txs, mp') -> mp_step mp mp'
| mp_update now led committed : mp_step mp (UpdateUnsafe now led mp committed).1.

Definition excess (mp : Mempool) : Z := mp_size mp - Z.of_nat (length (pool (addressToTxGroup mp))).

Lemma reap_ok now max mp : mp_ok mp -> 0 <= excess mp ->
  exists txs popped mp', ReapUnsafe now max mp = Ok (txs, mp') /\ mp_ok mp' /\
    pool (addressToTxGroup mp) ≡ₚ popped ++ pool (addressToTxGroup mp') /\
    txs = rawTransaction <$> filter (known now (txBookeepper mp)) popped /\
    (0 <= max -> Z.of_nat (length popped) <= max) /\
    (max < 0 -> pool (addressToTxGroup mp') = []) /\
    StronglySorted seq_le popped /\
    (forall t t', t ∈ popped -> t' ∈ pool (addressToTxGroup mp') -> seq_le t t') /\
    excess mp' = excess mp + Z.of_nat (length popped) - Z.of_nat (length txs).
Proof.
  intros Hok Hex. unfold ReapUnsafe. destruct (Z.eqb_spec max 0) as [->|Hz].
  { exists [], [], mp. split_and!; try done; try lia; [constructor| |simpl; lia].
    by intros t t' ?%elem_of_nil. }
  set (n := Z.to_nat _).
  destruct (reap_loop_ok now n mp Hok)
    as (txs & popped & mp' & -> & Hok' & Hsize & Hpool & Hlen & Hend & Htxs & Hsort & Hrest).
  cbn [mbind outcome_bind]. eexists txs, popped, _. split; [reflexivity|].
  unfold excess, mp_ok in *. cbn [addressToTxGroup candidateTxs mp_size].
  assert (Hn : (length (pool (addressToTxGroup mp)) = length popped + length (pool (addressToTxGroup mp')))%nat)
    by (rewrite Hpool, length_app; done).
  split_and!; try done; try apply Hok'; try lia; intros Hm;
    unfold n in Hlen, Hend; destruct (Z.ltb_spec max 0); try lia.
  destruct (decide (length popped < Z.to_nat (mp_size mp))%nat) as [Hlt|Hge].
  - destruct Hok' as (_ & Hdom & _). specialize (Hend Hlt).
    destruct (pool (addressToTxGroup mp')) as [|t l] eqn:Hp; [done|].
    assert (Ht : t ∈ pool (addressToTxGroup mp')) by (rewrite Hp; by left).
    apply pool_elem in Ht as (a & g & Ha & _). assert (Hc : a ∈ candidateTxs mp') by (apply Hdom; eauto).
    rewrite Hend in Hc. by apply elem_of_nil in Hc.
  - apply nil_length_inv. lia.
Qed.

Lemma mp_step_ok mp mp' : mp_ok mp -> 0 <= excess mp -> mp_step mp mp' -> mp_ok mp' /\ 0 <= excess mp'.
Proof.
  intros Hok Hex [now synced led rawTx err mp2 led' Hi|now max txs mp2 Hr|now led committed].
  - pose proof (insert_ok now synced led mp rawTx Hok) as H1. rewrite Hi in H1. destruct H1 as [Hok' Herr].
    split; [done|]. unfold excess in *. destruct err as [msg|].
    + destruct Herr as (-> & _ & ->). lia.
    + destruct Herr as (info & _ & Hp & ->). rewrite Hp. simpl. lia.
  - destruct (reap_ok now max mp Hok Hex) as (txs' & popped & mp3 & Hr' & Hok' & _ & Htxs & _ & _ & _ & _ & He).
    rewrite Hr in Hr'. injection Hr' as <- <-. split; [done|]. rewrite He, Htxs, length_fmap.
    pose proof (length_filter (known now (txBookeepper mp)) popped). lia.
  - destruct (update_ok now led mp committed Hok) as (Hok' & _ & He). split; [done|]. unfold excess in *. lia.
Qed.

Lemma CreateMempool_ok : mp_ok CreateMempool /\ excess CreateMempool = 0.
Proof.
  split; [|done]. unfold mp_ok, CreateMempool. cbn [candidateTxs addressToTxGroup].
  split_and!; [apply NoDup_nil_2| |apply map_Forall_empty]. intros a. rewrite elem_of_nil, lookup_empty.
  split; [done|by intros [? ?]].
Qed.
End Mempool.

(** ** A concrete queue: lists sorted by decreasing priority *)

Fixpoint sorted_push {A} (p : A -> Z) (l : list A) (x : A) : list A :=
  match l with
  | [] => [x]
  | y :: l' => if p y <? p x then x :: l else y :: sorted_push p l' x
  end.

Fixpoint remove_first {A} `{EqDecision A} (l : list A) (x : A) : list A :=
  match l with
  | [] => []
  | y :: l' => if decide (y = x) then l' else y :: remove_first l' x
  end.

Lemma sorted_push_perm {A} (p : A -> Z) l x : sorted_push p l x ≡ₚ x :: l.
Proof.
  induction l as [|y l IH]; cbn [sorted_push]; [done|]. destruct (_ <? _); [done|]. rewrite IH. constructor.
Qed.

Lemma remove_first_perm {A} `{EqDecision A} (l : list A) x : x ∈ l -> l ≡ₚ x :: remove_first l x.
Proof.
  induction l as [|y l IH]; cbn [remove_first]; [by intros ?%elem_of_nil|].
  intros [->|Hx]%elem_of_cons; [by rewrite decide_True|]. case_decide; [by subst|].
  rewrite (IH Hx) at 1. constructor.
Qed.

Lemma remove_first_sub {A} `{EqDecision A} (P : A -> Prop) (l : list A) x : Forall P l -> Forall P (remove_first l x).
Proof. induction 1; cbn [remove_first]; [constructor|]. case_decide; [done|by constructor]. Qed.

#[export] Instance sorted_queue : PQueue.
Proof.
  refine {|
    heap_ok A p l := StronglySorted (fun x y => p y <= p x) l;
    Push A := sorted_push;
    Pop A p l := match l with [] => None | x :: l' => Some (x, l') end;
    Peek A p l := head l;
    Remove A _ p := remove_first
  |}.
  - constructor.
  - intros. apply sorted_push_perm.
  - intros A p l x Hs. induction Hs as [|y l Hs IH Hy]; cbn [sorted_push]; [repeat constructor|].
    destruct (Z.ltb_spec (p y) (p x)) as [Hlt|Hge].
    + constructor; [by constructor|]. constructor; [lia|]. eapply Forall_impl; [exact Hy|]. simpl. lia.
    + constructor; [done|]. rewrite sorted_push_perm. constructor; [lia|done].
  - intros A p [|x l]; split; try done. 
  - intros A p [|y l] x l' [= <- <-]. done.
  - intros A p [|y l] x l' Hs [= <- <-]. apply StronglySorted_inv in Hs as [Hs Hx]. split; [done|].
    intros z [->|Hz]%elem_of_cons; [lia|]. rewrite Forall_forall in Hx. by apply Hx.
  - by intros A p [|x l].
  - intros. by apply remove_first_perm.
  - intros A HA p l x Hs. induction Hs as [|y l Hs IH Hy]; cbn [remove_first]; [constructor|].
    case_decide; [done|]. constructor; [done|]. by apply remove_first_sub.
Defined.

(** Transactions named by account and sequence number. *)
Definition toy_info (raw : Bytes) : TxInfo + string :=
  if String.eqb raw "a1" then inl (mkTxInfo 5 1 1)
  else if String.eqb raw "a2" then inl (mkTxInfo 9 1 2)
  else if String.eqb raw "b1" then inl (mkTxInfo 7 2 1)
  else inr "invalid".

Definition toy_screen (led : unit) (raw : Bytes) : (TxInfo + string) * unit := (toy_info raw, led).
Definition toy_check (led : unit) (raw : Bytes) : bool * unit := (true, led).

Definition toy_insert (now : Z) (raw : Bytes) (mp : Mempool) : Mempool :=
  (InsertTransaction id toy_screen now true tt mp raw).1.2.

Definition toy_pool : Mempool :=
  toy_insert 0 "b1" (toy_insert 0 "a1" (toy_insert 0 "a2" CreateMempool)).

Lemma toy_pool_ok : mp_ok toy_pool /\ 0 <= excess toy_pool.
Proof.
  assert (Hstep : forall mp raw, mp_ok mp /\ 0 <= excess mp ->
    mp_ok (toy_insert 0 raw mp) /\ 0 <= excess (toy_insert 0 raw mp)).
  { intros mp raw [Hok Hex]. eapply (mp_step_ok id toy_screen toy_check); [done|done|].
    set (r := InsertTransaction id toy_screen 0 true tt mp raw).
    apply (mp_insert _ _ _ mp 0 true tt raw r.1.1 _ r.2). unfold toy_insert. fold r. by destruct r as [[? ?] ?]. }
  apply Hstep, Hstep, Hstep. destruct CreateMempool_ok as [? ->]. split; [done|lia].
Qed.

(** ** Properties *)

(** C38 (mempool invariant). Along every run of insertions, reaps and updates
    from an empty mempool, the queue holds each account with pooled
    transactions once, each group is a heap of transactions of its account,
    the recorded size is at least the number of pooled transactions, and no
    reap panics. *)
Theorem mempool_invariant `{PQueue} {L} hash (ScreenTx : L -> Bytes -> (TxInfo + string) * L) ScreenTxUnsafe mp :
  rtc (mp_step hash ScreenTx ScreenTxUnsafe) CreateMempool mp ->
  mp_ok mp /\ Z.of_nat (length (pool (addressToTxGroup mp))) <= mp_size mp /\
  forall now max, is_ok (ReapUnsafe hash now max mp) = true.
Proof.
  intros Hsteps. assert (Hinv : mp_ok mp /\ 0 <= excess mp).
  { destruct CreateMempool_ok as [H0 He].
    assert (Hex : 0 <= excess CreateMempool) by lia. clear He.
    induction Hsteps as [|mp1 mp2 mp3 Hstep _ IH]; [done|].
    destruct (mp_step_ok hash ScreenTx ScreenTxUnsafe mp1 mp2 H0 Hex Hstep). by apply IH. }
  destruct Hinv as [Hok Hex]. split_and!; [done|unfold excess in Hex; lia|].
  intros now max. by destruct (reap_ok hash now max mp Hok Hex) as (txs & popped & mp' & -> & _).
Qed.

Lemma mempool_invariant_witness : mp_ok (toy_insert 0 "a1" CreateMempool).
Proof.
  apply (mempool_invariant id toy_screen toy_check). apply rtc_once.
  eapply (mp_insert _ _ _ _ 0 true tt "a1"). reflexivity.
Defined.

(** (reap). [ReapUnsafe] pops at most the requested number of transactions
    (all of them for a negative number), returns those the bookkeeper still
    knows in the order popped, leaves the others in the pool, and pops the
    transactions of an account in the order of their sequence numbers, before
    the ones it leaves.  The recorded size is only reduced by the transactions
    returned: it drifts by the number of outdated ones. *)
Theorem reap_spec `{PQueue} hash now max mp :
  mp_ok mp -> 0 <= excess mp ->
  exists txs popped mp', ReapUnsafe hash now max mp = Ok (txs, mp') /\ mp_ok mp' /\
    pool (addressToTxGroup mp) ≡ₚ popped ++ pool (addressToTxGroup mp') /\
    txs = rawTransaction <$> filter (known hash now (txBookeepper mp)) popped /\
    (0 <= max -> Z.of_nat (length popped) <= max) /\
    (max < 0 -> pool (addressToTxGroup mp') = []) /\
    StronglySorted seq_le popped /\
    (forall t t', t ∈ popped -> t' ∈ pool (addressToTxGroup mp') -> seq_le t t') /\
    excess mp' = excess mp + Z.of_nat (length popped) - Z.of_nat (length txs).
Proof. apply reap_ok. Qed.

Lemma reap_spec_witness :
  exists mp', ReapUnsafe id 1 (-1) toy_pool = Ok (["b1"; "a1"; "a2"], mp') /\ mp_ok mp'.
Proof.
  destruct (reap_spec id 1 (-1) toy_pool) as (txs & popped & mp' & Hr & Hok & _).
  - exact (proj1 toy_pool_ok).
  - exact (proj2 toy_pool_ok).
  - exists mp'. split; [|exact Hok]. rewrite Hr. f_equal. f_equal.
    assert (Ht : match ReapUnsafe id 1 (-1) toy_pool with Ok (l, _) => l | _ => [] end = ["b1"; "a1"; "a2"])
      by (vm_compute; reflexivity).
    by rewrite Hr in Ht.
Defined.

(** (update). [UpdateUnsafe] keeps exactly the pooled transactions that
    were not committed and are not obsolete: the bookkeeper still knows them
    and they pass the screening, which acts on the ledger transaction after
    transaction.  The size is reduced by the number of the others. *)
Theorem update_spec `{PQueue} {L} hash (ScreenTxUnsafe : L -> Bytes -> bool * L) now led mp committed :
  mp_ok mp ->
  let mp' := (UpdateUnsafe hash ScreenTxUnsafe now led mp committed).1 in
  mp_ok mp' /\
  (forall t, t ∈ pool (addressToTxGroup mp') <->
     t ∈ pool (addressToTxGroup mp) /\ (rawTransaction t ∉ committed) /\
     (rawTransaction t ∉
        obsolete hash ScreenTxUnsafe now (txBookeepper mp) led (queued (removeTxs mp committed)))) /\
  excess mp' = excess mp.
Proof. intros Hok. exact (update_ok hash ScreenTxUnsafe now led mp committed Hok). Qed.

Lemma update_spec_witness :
  mp_ok ((UpdateUnsafe id toy_check 1 tt toy_pool ["a1"]).1) /\
  GetCandidateTransactionHashes id ((UpdateUnsafe id toy_check 1 tt toy_pool ["a1"]).1) = ["0xb1"; "0xa2"].
Proof.
  split; [|vm_compute; reflexivity].
  apply (update_spec id toy_check 1 tt toy_pool ["a1"]). exact (proj1 toy_pool_ok).
Defined.

(** (size drift). After its transactions have timed out, reaping empties
    the pool and returns nothing, but the mempool still reports its old size. *)
Theorem size_drift :
  exists mp', ReapUnsafe id (2 * maxTxLife) (-1) toy_pool = Ok ([], mp') /\
    candidateTxs mp' = [] /\ mp_size mp' = 3.
Proof.
  assert (Ht : match ReapUnsafe id (2 * maxTxLife) (-1) toy_pool with
               | Ok (l, mp') => (l, candidateTxs mp', mp_size mp') | _ => ([""], [], 0) end = ([], [], 3))
    by (vm_compute; reflexivity).
  destruct (ReapUnsafe id (2 * maxTxLife) (-1) toy_pool) as [[l mp']| |]; [|discriminate Ht..].
  injection Ht as -> Hc Hs. exists mp'. done.
Qed.
