(* ===== verification/StoreView.v ===== *)
(** * The ledger state view (src/ledger/state/keys.go, storeview.go and
    src/store/treestore/treestore.go)

    A [StoreView] is a state trie with the scratch data of the execution of a
    block.  The trie belongs to theta/store: a tree is its contents, split by
    the kind of key (the byte keys are shown not to collide), together with a
    collision free root hash; the databases of the trie map the roots
    committed so far to trees.  [types.Account] and [types.Coins] of theta are
    records with an interface for their methods.  Coins are decoded from the
    store or from transactions and have no nil amount. *)

From stdpp Require Import gmap sorting pretty relations.
From stdpp Require Import base list numbers strings.
From S2P Require Import Prelude Vote Validator Block.
Local Open Scope string_scope.
Local Open Scope list_scope.
Local Open Scope Z_scope.

(** ** Coins and accounts of theta/ledger/types *)

Record Coins := mkCoins { ThetaWei : Z; TFuelWei : Z }.

#[export] Instance Coins_eq_dec : EqDecision Coins.
Proof. solve_decision. Defined.

Record Account := mkAccount {
  AccAddress : Address;
  AccSequence : uint64;
  AccBalance : Coins;
  LastUpdatedBlockHeight : uint64;
  AccRoot : Hash;
  AccCodeHash : Hash
}.

Definition set_balance (acc : Account) (c : Coins) : Account :=
  mkAccount (AccAddress acc) (AccSequence acc) c (LastUpdatedBlockHeight acc) (AccRoot acc) (AccCodeHash acc).
Definition set_sequence (acc : Account) (n : uint64) : Account :=
  mkAccount (AccAddress acc) n (AccBalance acc) (LastUpdatedBlockHeight acc) (AccRoot acc) (AccCodeHash acc).
Definition set_height (acc : Account) (n : uint64) : Account :=
  mkAccount (AccAddress acc) (AccSequence acc) (AccBalance acc) n (AccRoot acc) (AccCodeHash acc).
Definition set_root (acc : Account) (h : Hash) : Account :=
  mkAccount (AccAddress acc) (AccSequence acc) (AccBalance acc) (LastUpdatedBlockHeight acc) h (AccCodeHash acc).
Definition set_code_hash (acc : Account) (h : Hash) : Account :=
  mkAccount (AccAddress acc) (AccSequence acc) (AccBalance acc) (LastUpdatedBlockHeight acc) (AccRoot acc) h.

(** Both amounts of [c] are at most those of [d]. *)
Definition coins_le (c d : Coins) : Prop := ThetaWei c <= ThetaWei d /\ TFuelWei c <= TFuelWei d.

(** The methods of the types of theta that the sources call. *)
Class ThetaTypes := {
  Plus : Coins -> Coins -> Coins;
  Minus : Coins -> Coins -> Coins;
  IsGTE : Coins -> Coins -> bool;
  IsEqual : Coins -> Coins -> bool;
  IsNonnegative : Coins -> bool;
  IsZero : Coins -> bool;
  NewAccount : Address -> Account;
  UpdateToHeight : Account -> uint64 -> Account;
  IsASmartContract : Account -> bool;
  EmptyCodeHash : Hash;
  Plus_spec c d : Plus c d = mkCoins (ThetaWei c + ThetaWei d) (TFuelWei c + TFuelWei d);
  Minus_spec c d : Minus c d = mkCoins (ThetaWei c - ThetaWei d) (TFuelWei c - TFuelWei d);
  IsGTE_spec c d : IsGTE c d = true <-> coins_le d c;
  IsEqual_spec c d : IsEqual c d = true <-> c = d;
  IsNonnegative_spec c : IsNonnegative c = true <-> coins_le (mkCoins 0 0) c;
  IsZero_spec c : IsZero c = true <-> c = mkCoins 0 0;
  NewAccount_address a : AccAddress (NewAccount a) = a;
  NewAccount_sequence a : AccSequence (NewAccount a) = 0;
  NewAccount_balance a : AccBalance (NewAccount a) = mkCoins 0 0;
  NewAccount_root a : AccRoot (NewAccount a) = 0;
  NewAccount_code a : AccCodeHash (NewAccount a) = EmptyCodeHash;
  UpdateToHeight_keeps acc n : let acc' := UpdateToHeight acc n in
    AccAddress acc' = AccAddress acc /\ AccSequence acc' = AccSequence acc /\
    AccBalance acc' = AccBalance acc /\ AccRoot acc' = AccRoot acc /\ AccCodeHash acc' = AccCodeHash acc
}.

(** ** Keys *)

Definition string_bytes (s : string) : list Z :=
  (fun c => Z.of_nat (Ascii.nat_of_ascii c)) <$> String.list_ascii_of_string s.

Definition ChainIDKey : list Z := string_bytes "chainid".
Definition AccountKey (addr : Address) : list Z := string_bytes "ls/a/" ++ be_bytes 20 addr.
Definition SplitRuleKeyPrefix : list Z := string_bytes "ls/ssc/split/".
Definition SplitRuleKey (resourceID : string) : list Z := SplitRuleKeyPrefix ++ string_bytes resourceID.
Definition CodeKey (codeHash : Hash) : list Z := string_bytes "ls/ch/" ++ be_bytes 32 codeHash.
Definition CurrentValidatorSetKey : list Z := string_bytes "ls/vs".
Definition ValidatorSetForChainDuringDynastyKey (chainID dynasty : Z) : list Z :=
  let key := string_bytes "ls/vscd/" in
  let key := key ++ string_bytes (pretty chainID) in
  let key := key ++ string_bytes "/" in
  key ++ string_bytes (pretty dynasty).
Definition ValidatorSetUpdateTxHeightListKey : list Z := string_bytes "ls/sthl".
Definition StatePruningProgressKey : list Z := string_bytes "ls/spp".
Definition ChainRegistrarContractAddressKey : list Z := string_bytes "ls/trca".
Definition TFuelTokenBankContractAddressKey : list Z := string_bytes "ls/tbca/tfuel".
Definition TNT20TokenBankContractAddressKey : list Z := string_bytes "ls/tbca/tnt20".
Definition TNT721TokenBankContractAddressKey : list Z := string_bytes "ls/tbca/tnt721".
Definition TNT1155TokenBankContractAddressKey : list Z := string_bytes "ls/tbca/tnt1155".

(** The kinds of keys and their byte strings. *)
Inductive StateKey :=
| KChainID
| KAccount (addr : Address)
| KSplitRule (resourceID : string)
| KCode (codeHash : Hash)
| KValidatorSet
| KDynastySet (chainID dynasty : Z)
| KHeightList
| KPruning
| KRegistrar
| KTFuelBank
| KTNT20Bank
| KTNT721Bank
| KTNT1155Bank.

Definition state_key_bytes (k : StateKey) : list Z :=
  match k with
  | KChainID => ChainIDKey
  | KAccount addr => AccountKey addr
  | KSplitRule resourceID => SplitRuleKey resourceID
  | KCode codeHash => CodeKey codeHash
  | KValidatorSet => CurrentValidatorSetKey
  | KDynastySet chainID dynasty => ValidatorSetForChainDuringDynastyKey chainID dynasty
  | KHeightList => ValidatorSetUpdateTxHeightListKey
  | KPruning => StatePruningProgressKey
  | KRegistrar => ChainRegistrarContractAddressKey
  | KTFuelBank => TFuelTokenBankContractAddressKey
  | KTNT20Bank => TNT20TokenBankContractAddressKey
  | KTNT721Bank => TNT721TokenBankContractAddressKey
  | KTNT1155Bank => TNT1155TokenBankContractAddressKey
  end.

(** Keys made of 160-bit addresses and 256-bit hashes. *)
Definition state_key_ok (k : StateKey) : Prop :=
  match k with
  | KAccount addr => 0 <= addr < 2 ^ 160
  | KCode codeHash => 0 <= codeHash < 2 ^ 256
  | _ => True
  end.

(** ** Trees *)

Record Tree := mkTree {
  accounts : gmap Address Account;
  codes : gmap Hash Bytes;
  currentValidatorSet : option ValidatorSet;
  dynastyValidatorSets : gmap (Z * Z) ValidatorSet;
  heightList : option (list uint64);
  TFuelTokenBank : option Address;
  TNT20TokenBank : option Address;
  TNT721TokenBank : option Address;
  TNT1155TokenBank : option Address
}.

Definition empty_tree : Tree := mkTree ∅ ∅ None ∅ None None None None None.

Definition with_accounts (t : Tree) (m : gmap Address Account) : Tree :=
  mkTree m (codes t) (currentValidatorSet t) (dynastyValidatorSets t) (heightList t) (TFuelTokenBank t)
    (TNT20TokenBank t) (TNT721TokenBank t) (TNT1155TokenBank t).
Definition with_codes (t : Tree) (m : gmap Hash Bytes) : Tree :=
  mkTree (accounts t) m (currentValidatorSet t) (dynastyValidatorSets t) (heightList t) (TFuelTokenBank t)
    (TNT20TokenBank t) (TNT721TokenBank t) (TNT1155TokenBank t).
Definition with_validators (t : Tree) (vs : ValidatorSet) (m : gmap (Z * Z) ValidatorSet) : Tree :=
  mkTree (accounts t) (codes t) (Some vs) m (heightList t) (TFuelTokenBank t)
    (TNT20TokenBank t) (TNT721TokenBank t) (TNT1155TokenBank t).
Definition with_height_list (t : Tree) (l : list uint64) : Tree :=
  mkTree (accounts t) (codes t) (currentValidatorSet t) (dynastyValidatorSets t) (Some l) (TFuelTokenBank t)
    (TNT20TokenBank t) (TNT721TokenBank t) (TNT1155TokenBank t).

(** The hashes of theta/store/trie and theta/crypto: collision free. *)
Class TrieHash := {
  EmptyTreeHash : Hash;
  tree_root : Tree -> Hash;
  storage_root : gmap Z Z -> Hash;
  code_hash : Bytes -> Hash;
  tree_root_inj t t' : tree_root t = tree_root t' -> t = t';
  storage_root_inj s s' : storage_root s = storage_root s' -> s = s';
  storage_root_nonzero s : storage_root s <> 0;
  storage_root_empty : storage_root ∅ = EmptyTreeHash;
  tree_root_nonzero t : tree_root t <> 0;
  tree_root_empty : tree_root empty_tree = EmptyTreeHash;
  code_hash_inj c c' : code_hash c = code_hash c' -> c = c'
}.

(** [SuicidedCodeHash] of src/core/block.go. *)
Definition SuicidedCodeHash : Hash := 0xdeaddeaddeaddeaddeaddeaddeaddeaddeaddeaddeaddeaddeaddeaddeaddead.

(** A log of theta/ledger/types: an event emitted by a contract. *)
Record Log := mkLog { LogAddress : Address; LogTopics : list Hash; LogData : Bytes }.

Record BalanceChange := mkBalanceChange {
  BCAddress : Address;
  BCTokenType : Z;
  BCIsNegative : bool;
  BCDelta : Z
}.

(** A view: its fields, with the roots its trie database holds.  [storages]
    is the part of the database that holds the account tries, [snapshots] the
    one that holds the state tries. *)
Record StoreView := mkStoreView {
  height : uint64;
  tree : Tree;
  storages : gmap Hash (gmap Z Z);
  snapshots : gmap Hash Tree;
  coinbaseTransactinProcessed : bool;
  subchainValidatorSetTransactinProcessed : bool;
  refund : uint64;
  logs : list Log;
  balanceChanges : list BalanceChange
}.

Definition with_tree (sv : StoreView) (t : Tree) : StoreView :=
  mkStoreView (height sv) t (storages sv) (snapshots sv) (coinbaseTransactinProcessed sv)
    (subchainValidatorSetTransactinProcessed sv) (refund sv) (logs sv) (balanceChanges sv).
Definition with_storages (sv : StoreView) (m : gmap Hash (gmap Z Z)) : StoreView :=
  mkStoreView (height sv) (tree sv) m (snapshots sv) (coinbaseTransactinProcessed sv)
    (subchainValidatorSetTransactinProcessed sv) (refund sv) (logs sv) (balanceChanges sv).
Definition with_snapshots (sv : StoreView) (m : gmap Hash Tree) : StoreView :=
  mkStoreView (height sv) (tree sv) (storages sv) m (coinbaseTransactinProcessed sv)
    (subchainValidatorSetTransactinProcessed sv) (refund sv) (logs sv) (balanceChanges sv).
Definition with_processed (sv : StoreView) (coinbase update : bool) : StoreView :=
  mkStoreView (height sv) (tree sv) (storages sv) (snapshots sv) coinbase update (refund sv) (logs sv)
    (balanceChanges sv).
Definition with_scratch (sv : StoreView) (r : uint64) (l : list Log) (bc : list BalanceChange) : StoreView :=
  mkStoreView (height sv) (tree sv) (storages sv) (snapshots sv) (coinbaseTransactinProcessed sv)
    (subchainValidatorSetTransactinProcessed sv) r l bc.

Section StoreViewOps.
Context `{ThetaTypes} `{TrieHash}.
Implicit Types (sv : StoreView) (addr : Address) (acc : Account).

(** [Copy]: a fresh view on the same tree.  Both views keep the tree in the
    trie database they share. *)
Definition StoreView_Copy sv : StoreView * StoreView :=
  let trees := <[tree_root (tree sv) := tree sv]> (snapshots sv) in
  (with_snapshots sv trees, mkStoreView (height sv) (tree sv) (storages sv) trees false false 0 [] []).

Definition IncrementHeight sv : StoreView :=
  mkStoreView (u64_add (height sv) 1) (tree sv) (storages sv) (snapshots sv)
    (coinbaseTransactinProcessed sv) (subchainValidatorSetTransactinProcessed sv) (refund sv) (logs sv)
    (balanceChanges sv).

Definition StoreView_Hash sv : Hash := tree_root (tree sv).

Definition SetCoinbaseTransactionProcessed sv (processed : bool) : StoreView :=
  with_processed sv processed (subchainValidatorSetTransactinProcessed sv).
Definition SetSubchainValidatorSetTransactionProcessed sv (processed : bool) : StoreView :=
  with_processed sv (coinbaseTransactinProcessed sv) processed.

(** *** Accounts *)

Definition GetAccount sv addr : option Account := accounts (tree sv) !! addr.

(** The trie of an account; [NewTreeStore] returns nil for an unknown root. *)
Definition getAccountStorage sv acc : option (gmap Z Z) :=
  if Z.eqb (AccRoot acc) 0 || Z.eqb (AccRoot acc) EmptyTreeHash then Some ∅
  else storages sv !! AccRoot acc.

Definition put_account sv addr acc : StoreView :=
  with_tree sv (with_accounts (tree sv) (<[addr := acc]> (accounts (tree sv)))).

(** [setAccount] with its update of the reference count, which commits the
    unchanged account trie.  An account is taken to be encodable: RLP refuses
    negative balances only, which the executors keep out (Execution.v). *)
Definition setAccount sv addr acc (updateRefCountForAccountStateTree : bool) : outcome StoreView :=
  let sv := put_account sv addr acc in
  if negb updateRefCountForAccountStateTree then Ok sv
  else if Z.eqb (AccRoot acc) 0 || Z.eqb (AccRoot acc) EmptyTreeHash then Ok sv
  else match getAccountStorage sv acc with
       | None => Panic "nil tree store"
       | Some s => Ok (with_storages sv (<[storage_root s := s]> (storages sv)))
       end.

Definition SetAccount sv addr acc : outcome StoreView := setAccount sv addr acc true.

Definition DeleteAccount sv addr : StoreView :=
  with_tree sv (with_accounts (tree sv) (delete addr (accounts (tree sv)))).

(** *** Validator sets, contract addresses, heights of updates *)

Definition GetDynasty sv : option Z := dynasty <$> currentValidatorSet (tree sv).
Definition StoreView_GetValidatorSet sv : option ValidatorSet := currentValidatorSet (tree sv).
Definition UpdateValidatorSet sv (chainID : Z) (vs : ValidatorSet) : StoreView :=
  with_tree sv (with_validators (tree sv) vs
    (<[(chainID, dynasty vs) := vs]> (dynastyValidatorSets (tree sv)))).
Definition GetValidatorSetForChainDuringDynasty sv (chainID dynasty : Z) : option ValidatorSet :=
  dynastyValidatorSets (tree sv) !! (chainID, dynasty).
Definition GetValidatorSetUpdateTxHeightList sv : option (list uint64) := heightList (tree sv).
Definition UpdateValidatorSetUpdateTxHeightList sv (hl : list uint64) : StoreView :=
  with_tree sv (with_height_list (tree sv) hl).

(** *** Logs, balance changes, refund *)

Definition ResetLogs sv : StoreView := with_scratch sv (refund sv) [] (balanceChanges sv).
Definition PopLogs sv : list Log * StoreView := (logs sv, ResetLogs sv).
Definition ResetBalanceChanges sv : StoreView := with_scratch sv (refund sv) (logs sv) [].
Definition PopBalanceChanges sv : list BalanceChange * StoreView := (balanceChanges sv, ResetBalanceChanges sv).
Definition AddLog sv (l : Log) : StoreView := with_scratch sv (refund sv) (logs sv ++ [l]) (balanceChanges sv).
Definition addBalanceChange sv (bc : BalanceChange) : StoreView :=
  with_scratch sv (refund sv) (logs sv) (balanceChanges sv ++ [bc]).
Definition AddRefund sv (gas : uint64) : StoreView :=
  with_scratch sv (u64_add (refund sv) gas) (logs sv) (balanceChanges sv).
Definition SubRefund sv (gas : uint64) : outcome StoreView :=
  if refund sv <? gas then Panic "Refund counter below zero"
  else Ok (with_scratch sv (u64_sub (refund sv) gas) (logs sv) (balanceChanges sv)).
Definition ResetRefund sv : StoreView := with_scratch sv 0 (logs sv) (balanceChanges sv).
Definition GetBlockHeight sv : uint64 := u64_add (height sv) 1.

(** *** The state database of the virtual machine *)

Definition CreateAccount sv addr : outcome StoreView := SetAccount sv addr (NewAccount addr).

Definition GetOrCreateAccount sv addr : Account :=
  match GetAccount sv addr with Some acc => acc | None => NewAccount addr end.

Definition CreateAccountWithPreviousBalance sv addr : outcome StoreView :=
  let account := NewAccount addr in
  let account := match GetAccount sv addr with
                 | Some existing => set_balance account (AccBalance existing)
                 | None => account
                 end in
  SetAccount sv addr account.

Definition SubBalance sv addr (amount : Z) : outcome StoreView :=
  if Z.eqb amount 0 then Ok sv else
  match GetAccount sv addr with
  | None => Panic "Account does not exist!"
  | Some acc =>
    let b := AccBalance acc in
    sv ← SetAccount sv addr (set_balance acc (mkCoins (ThetaWei b) (TFuelWei b - amount)));
    Ok (addBalanceChange sv (mkBalanceChange addr 1 true amount))
  end.

Definition AddBalance sv addr (amount : Z) : outcome StoreView :=
  if Z.eqb amount 0 then Ok sv else
  let acc := GetOrCreateAccount sv addr in
  let b := AccBalance acc in
  sv ← SetAccount sv addr (set_balance acc (mkCoins (ThetaWei b) (TFuelWei b + amount)));
  Ok (addBalanceChange sv (mkBalanceChange addr 1 false amount)).

Definition GetBalance sv addr : Z := TFuelWei (AccBalance (GetOrCreateAccount sv addr)).

Definition SubThetaBalance sv addr (amount : Z) : outcome StoreView :=
  if Z.eqb amount 0 then Ok sv else
  match GetAccount sv addr with
  | None => Panic "Account does not exist!"
  | Some acc =>
    let b := AccBalance acc in
    sv ← SetAccount sv addr (set_balance acc (mkCoins (ThetaWei b - amount) (TFuelWei b)));
    Ok (addBalanceChange sv (mkBalanceChange addr 0 true amount))
  end.

Definition AddThetaBalance sv addr (amount : Z) : outcome StoreView :=
  if Z.eqb amount 0 then Ok sv else
  let acc := GetOrCreateAccount sv addr in
  let b := AccBalance acc in
  sv ← SetAccount sv addr (set_balance acc (mkCoins (ThetaWei b + amount) (TFuelWei b)));
  Ok (addBalanceChange sv (mkBalanceChange addr 0 false amount)).

Definition GetThetaBalance sv addr : Z := ThetaWei (AccBalance (GetOrCreateAccount sv addr)).

Definition GetNonce sv addr : uint64 := AccSequence (GetOrCreateAccount sv addr).
Definition SetNonce sv addr (nonce : uint64) : outcome StoreView :=
  SetAccount sv addr (set_sequence (GetOrCreateAccount sv addr) nonce).

Definition GetCodeHash sv addr : Hash :=
  match GetAccount sv addr with Some acc => AccCodeHash acc | None => 0 end.

Definition GetCodeByHash sv (codeHash : Hash) : Bytes :=
  if Z.eqb codeHash SuicidedCodeHash then "" else default "" (codes (tree sv) !! codeHash).

Definition GetCode sv addr : Bytes :=
  match GetAccount sv addr with
  | None => ""
  | Some acc =>
    if Z.eqb (AccCodeHash acc) EmptyCodeHash || Z.eqb (AccCodeHash acc) SuicidedCodeHash then ""
    else GetCodeByHash sv (AccCodeHash acc)
  end.

(** The trie removes a key that is set to an empty value. *)
Definition put_code sv (codeHash : Hash) (code : Bytes) : StoreView :=
  with_tree sv (with_codes (tree sv)
    (if String.eqb code "" then delete codeHash (codes (tree sv)) else <[codeHash := code]> (codes (tree sv)))).

Definition SetCode sv addr (code : Bytes) : outcome StoreView :=
  let account := GetOrCreateAccount sv addr in
  let codeHash := code_hash code in
  let account := set_code_hash account codeHash in
  let sv := put_code sv codeHash code in
  SetAccount sv addr account.

Definition GetCodeSize sv addr : nat := String.length (GetCode sv addr).

Definition GetState sv addr (key : Hash) : outcome Hash :=
  match GetAccount sv addr with
  | None => Ok 0
  | Some acc =>
    match getAccountStorage sv acc with
    | None => Panic "nil tree store"
    | Some s => Ok (default 0 (s !! key))
    end
  end.

Definition SetState sv addr (key val : Hash) : outcome StoreView :=
  let account := GetOrCreateAccount sv addr in
  match getAccountStorage sv account with
  | None => Panic "nil tree store"
  | Some s =>
    let s' := if Z.eqb val 0 then delete key s else <[key := val]> s in
    let root := storage_root s' in
    let sv := with_storages sv (<[root := s']> (storages sv)) in
    setAccount sv addr (set_root account root) false
  end.

Definition Suicide sv addr : outcome (bool * StoreView) :=
  match GetAccount sv addr with
  | None => Ok (false, sv)
  | Some acc =>
    let b := AccBalance acc in
    let sv := addBalanceChange sv (mkBalanceChange addr 1 true (TFuelWei b)) in
    sv ← SetAccount sv addr (set_balance (set_code_hash acc SuicidedCodeHash) (mkCoins (ThetaWei b) 0));
    Ok (true, sv)
  end.

Definition HasSuicided sv addr : bool :=
  match GetAccount sv addr with None => true | Some acc => Z.eqb (AccCodeHash acc) SuicidedCodeHash end.
Definition Exist sv addr : bool := bool_decide (is_Some (GetAccount sv addr)).
Definition Empty sv addr : bool :=
  match GetAccount sv addr with
  | None => true
  | Some acc => Z.eqb (AccSequence acc) 0 && Z.eqb (AccCodeHash acc) EmptyCodeHash && IsZero (AccBalance acc)
  end.

Definition Snapshot sv : Hash * StoreView :=
  (StoreView_Hash sv, with_snapshots sv (<[tree_root (tree sv) := tree sv]> (snapshots sv))).

(** [trie.New]: the tree of a root, the empty tree for the zero hash and the
    hash of the empty tree. *)
Definition open_tree (trees : gmap Hash Tree) (root : Hash) : option Tree :=
  if Z.eqb root 0 || Z.eqb root EmptyTreeHash then Some empty_tree else trees !! root.

Definition RevertToSnapshot sv (root : Hash) : outcome StoreView :=
  match open_tree (snapshots sv) root with
  | Some t => Ok (with_tree sv t)
  | None => Panic "missing trie node"
  end.

(** [Save] commits the trie to the database, [NewStoreView] opens a tree of
    the database. *)
Definition NewStoreView (h : uint64) (root : Hash) (trees : gmap Hash Tree)
    (sts : gmap Hash (gmap Z Z)) : option StoreView :=
  t ← open_tree trees root;
  Some (mkStoreView h t sts trees false false 0 [] []).
Definition Save sv : Hash * StoreView := Snapshot sv.

(** ** The invariant of a view

    The databases hold trees under their roots, and the account tries of the
    current tree and of every snapshot are in the database. *)

Definition root_known (sts : gmap Hash (gmap Z Z)) (r : Hash) : Prop :=
  r = 0 \/ r = EmptyTreeHash \/ is_Some (sts !! r).

Definition tree_known (sts : gmap Hash (gmap Z Z)) (t : Tree) : Prop :=
  map_Forall (fun _ acc => root_known sts (AccRoot acc)) (accounts t).

Definition view_inv sv : Prop :=
  map_Forall (fun r s => storage_root s = r) (storages sv) /\
  map_Forall (fun r t => tree_root t = r /\ tree_known (storages sv) t) (snapshots sv) /\
  tree_known (storages sv) (tree sv).

(** [sv'] comes after [sv]: it satisfies the invariant and its databases
    extend those of [sv]. *)
Definition extends sv sv' : Prop :=
  view_inv sv' /\ storages sv ⊆ storages sv' /\ snapshots sv ⊆ snapshots sv'.

Lemma extends_refl sv : view_inv sv -> extends sv sv.
Proof. intros Hi. by split_and!. Qed.

Lemma extends_trans sv1 sv2 sv3 : extends sv1 sv2 -> extends sv2 sv3 -> extends sv1 sv3.
Proof. intros (_ & ? & ?) (? & ? & ?). split_and!; [done|by etrans..]. Qed.

Lemma root_known_mono sts sts' r : sts ⊆ sts' -> root_known sts r -> root_known sts' r.
Proof.
  intros Hs [?|[?|[s Hr]]]; [by left|by right; left|]. right; right. exists s. by eapply lookup_weaken.
Qed.

Lemma tree_known_mono sts sts' t : sts ⊆ sts' -> tree_known sts t -> tree_known sts' t.
Proof. intros Hs Ht a acc Ha. eapply root_known_mono; [done|]. by apply (Ht a). Qed.

(** Storing an account trie under its root extends the database. *)
Lemma storages_insert sv s : view_inv sv -> storages sv ⊆ <[storage_root s := s]> (storages sv).
Proof.
  intros (Hs & _). destruct (storages sv !! storage_root s) as [s'|] eqn:Hl; [|by apply insert_subseteq].
  assert (s' = s) as -> by (apply storage_root_inj, (Hs _ _ Hl)). by rewrite insert_id.
Qed.

Lemma extends_storage sv s : view_inv sv ->
  extends sv (with_storages sv (<[storage_root s := s]> (storages sv))).
Proof.
  intros Hi. pose proof (storages_insert sv s Hi) as Hsub. destruct Hi as (H1 & H2 & H3).
  split; [|done]. split_and!; cbn.
  - by apply map_Forall_insert_2.
  - intros r t Ht. destruct (H2 r t Ht). split; [done|]. by eapply tree_known_mono.
  - by eapply tree_known_mono.
Qed.

(** Replacing the tree by one whose account tries are known. *)
Lemma extends_tree sv t : view_inv sv -> tree_known (storages sv) t -> extends sv (with_tree sv t).
Proof. intros (H1 & H2 & _) Ht. by split_and!. Qed.

Lemma extends_put sv addr acc : view_inv sv -> root_known (storages sv) (AccRoot acc) ->
  extends sv (put_account sv addr acc).
Proof.
  intros Hi Hr. apply extends_tree; [done|]. apply map_Forall_insert_2; [done|]. apply Hi.
Qed.

(** Changes of the scratch data. *)
Lemma extends_scratch sv r l bc : view_inv sv -> extends sv (with_scratch sv r l bc).
Proof. intros (? & ? & ?). by split_and!. Qed.

Lemma extends_processed sv b b' : view_inv sv -> extends sv (with_processed sv b b').
Proof. intros (? & ? & ?). by split_and!. Qed.

Lemma getAccountStorage_known sv acc :
  root_known (storages sv) (AccRoot acc) <-> is_Some (getAccountStorage sv acc).
Proof.
  unfold root_known, getAccountStorage.
  destruct (Z.eqb_spec (AccRoot acc) 0), (Z.eqb_spec (AccRoot acc) EmptyTreeHash); simpl; split; eauto.
  by intros [?|[?|?]].
Qed.

Lemma known_account sv addr acc : view_inv sv -> GetAccount sv addr = Some acc ->
  root_known (storages sv) (AccRoot acc).
Proof. intros (_ & _ & Ht) Ha. by apply (Ht addr). Qed.

Lemma known_new sts addr : root_known sts (AccRoot (NewAccount addr)).
Proof. left. apply NewAccount_root. Qed.

Lemma known_or_new sv addr : view_inv sv -> root_known (storages sv) (AccRoot (GetOrCreateAccount sv addr)).
Proof.
  intros Hi. unfold GetOrCreateAccount. destruct (GetAccount sv addr) eqn:Ha; [by eapply known_account|apply known_new].
Qed.

(** [SetAccount] of an account with a known trie succeeds, stores it and
    changes no other account nor the databases' contents. *)
Lemma SetAccount_spec sv addr acc : view_inv sv -> root_known (storages sv) (AccRoot acc) ->
  exists sv', SetAccount sv addr acc = Ok sv' /\ extends sv sv' /\
    sv' = with_storages (put_account sv addr acc) (storages sv).
Proof.
  intros Hi Hr. unfold SetAccount, setAccount. cbn [negb].
  pose proof (extends_put sv addr acc Hi Hr) as He.
  destruct (Z.eqb (AccRoot acc) 0 || Z.eqb (AccRoot acc) EmptyTreeHash) eqn:Hz; [by eexists|].
  assert (Hk : is_Some (getAccountStorage (put_account sv addr acc) acc)) by (by apply getAccountStorage_known).
  destruct Hk as [s Hs]. rewrite Hs. eexists. split; [reflexivity|].
  unfold getAccountStorage in Hs. rewrite Hz in Hs. cbn in Hs.
  assert (Hrt : storage_root s = AccRoot acc) by (apply Hi; done).
  split.
  - eapply extends_trans; [exact He|]. apply extends_storage, He.
  - unfold with_storages. cbn. by rewrite (insert_id (storages sv)) by (by rewrite Hrt).
Qed.

(** What is read after [SetAccount]. *)
Lemma SetAccount_get sv addr acc sv' a : view_inv sv -> root_known (storages sv) (AccRoot acc) ->
  SetAccount sv addr acc = Ok sv' ->
  GetAccount sv' a = if decide (addr = a) then Some acc else GetAccount sv a.
Proof.
  intros Hi Hr Hs. destruct (SetAccount_spec sv addr acc Hi Hr) as (sv2 & Hs2 & _ & ->).
  rewrite Hs in Hs2. injection Hs2 as ->. unfold GetAccount. cbn. apply lookup_insert.
Qed.

(** ** Runs *)

(** The operations on a view, with any arguments. *)
Inductive view_step sv : StoreView -> Prop :=
| step_set addr acc sv' : root_known (storages sv) (AccRoot acc) -> SetAccount sv addr acc = Ok sv' -> view_step sv sv'
| step_delete addr : view_step sv (DeleteAccount sv addr)
| step_create addr sv' : CreateAccount sv addr = Ok sv' -> view_step sv sv'
| step_create_prev addr sv' : CreateAccountWithPreviousBalance sv addr = Ok sv' -> view_step sv sv'
| step_sub addr amount sv' : SubBalance sv addr amount = Ok sv' -> view_step sv sv'
| step_add addr amount sv' : AddBalance sv addr amount = Ok sv' -> view_step sv sv'
| step_sub_theta addr amount sv' : SubThetaBalance sv addr amount = Ok sv' -> view_step sv sv'
| step_add_theta addr amount sv' : AddThetaBalance sv addr amount = Ok sv' -> view_step sv sv'
| step_nonce addr n sv' : SetNonce sv addr n = Ok sv' -> view_step sv sv'
| step_code addr code sv' : SetCode sv addr code = Ok sv' -> view_step sv sv'
| step_state addr key val sv' : SetState sv addr key val = Ok sv' -> view_step sv sv'
| step_suicide addr b sv' : Suicide sv addr = Ok (b, sv') -> view_step sv sv'
| step_validators chainID vs : view_step sv (UpdateValidatorSet sv chainID vs)
| step_heights hl : view_step sv (UpdateValidatorSetUpdateTxHeightList sv hl)
| step_log l : view_step sv (AddLog sv l)
| step_add_refund gas : view_step sv (AddRefund sv gas)
| step_sub_refund gas sv' : SubRefund sv gas = Ok sv' -> view_step sv sv'
| step_reset_refund : view_step sv (ResetRefund sv)
| step_reset_logs : view_step sv (ResetLogs sv)
| step_reset_changes : view_step sv (ResetBalanceChanges sv)
| step_coinbase b : view_step sv (SetCoinbaseTransactionProcessed sv b)
| step_update b : view_step sv (SetSubchainValidatorSetTransactionProcessed sv b)
| step_snapshot : view_step sv (Snapshot sv).2
| step_revert root sv' : RevertToSnapshot sv root = Ok sv' -> view_step sv sv'.

(** An operation made of one [SetAccount] and scratch data. *)
Lemma extends_set sv addr acc f sv' : view_inv sv -> root_known (storages sv) (AccRoot acc) ->
  (forall x, view_inv x -> extends x (f x)) ->
  (x ← SetAccount sv addr acc; Ok (f x)) = Ok sv' -> extends sv sv'.
Proof.
  intros Hi Hr Hf Hs. destruct (SetAccount_spec sv addr acc Hi Hr) as (sv1 & Hs1 & He & _).
  rewrite Hs1 in Hs. injection Hs as <-. eapply extends_trans; [exact He|]. apply Hf, He.
Qed.

Lemma extends_set0 sv addr acc sv' : view_inv sv -> root_known (storages sv) (AccRoot acc) ->
  SetAccount sv addr acc = Ok sv' -> extends sv sv'.
Proof.
  intros Hi Hr Hs. destruct (SetAccount_spec sv addr acc Hi Hr) as (sv1 & Hs1 & He & _). congruence.
Qed.

Lemma snapshots_insert sv : view_inv sv -> extends sv (Snapshot sv).2.
Proof.
  intros (H1 & H2 & H3). split_and!; cbn; [|done|].
  - split_and!; [done| |done]. by apply map_Forall_insert_2.
  - destruct (snapshots sv !! tree_root (tree sv)) as [t|] eqn:Hl; [|by apply insert_subseteq].
    assert (t = tree sv) as -> by (apply tree_root_inj, (H2 _ _ Hl)). by rewrite insert_id.
Qed.

Lemma SetState_spec sv addr key val : view_inv sv ->
  let acc := GetOrCreateAccount sv addr in
  exists s s' sv', getAccountStorage sv acc = Some s /\
    s' = (if Z.eqb val 0 then delete key s else <[key := val]> s) /\
    SetState sv addr key val = Ok sv' /\ extends sv sv' /\
    sv' = put_account (with_storages sv (<[storage_root s' := s']> (storages sv))) addr
            (set_root acc (storage_root s')).
Proof.
  intros Hi acc. assert (Hk : is_Some (getAccountStorage sv acc)).
  { apply getAccountStorage_known. by apply known_or_new. }
  destruct Hk as [s Hs]. exists s, (if Z.eqb val 0 then delete key s else <[key := val]> s).
  eexists. split; [done|]. split; [done|]. unfold SetState. fold acc. rewrite Hs. cbn [setAccount negb].
  unfold setAccount. cbn [negb]. split; [reflexivity|]. split; [|reflexivity].
  set (s' := if Z.eqb val 0 then _ else _). eapply extends_trans; [by apply (extends_storage sv s')|].
  apply extends_put; [by apply extends_storage|]. right; right. cbn. rewrite lookup_insert_eq. by eexists.
Qed.

Ltac scratch := intros; apply extends_scratch; assumption.

Lemma step_extends sv sv' : view_inv sv -> view_step sv sv' -> extends sv sv'.
Proof.
  intros Hi Hstep. destruct Hstep as
    [addr acc sv' Hr Hs|addr|addr sv' Hs|addr sv' Hs|addr amount sv' Hs|addr amount sv' Hs|addr amount sv' Hs
    |addr amount sv' Hs|addr n sv' Hs|addr code sv' Hs|addr key val sv' Hs|addr b sv' Hs|chainID vs|hl|l|gas
    |gas sv' Hs| | | |b|b| |root sv' Hs];
    try (by scratch); try (by apply extends_processed); try (by apply extends_tree; [|apply Hi]).
  - by eapply extends_set0.
  - apply extends_tree; [done|]. apply map_Forall_delete, Hi.
  - eapply extends_set0; [done|apply known_new|done].
  - eapply extends_set0; [done| |exact Hs]. destruct (GetAccount sv addr); apply known_new.
  - unfold SubBalance in Hs. destruct (Z.eqb amount 0); [injection Hs as <-; by apply extends_refl|].
    destruct (GetAccount sv addr) as [acc|] eqn:Ha; [|done].
    eapply extends_set; [done| |scratch|exact Hs]. exact (known_account sv addr acc Hi Ha).
  - unfold AddBalance in Hs. destruct (Z.eqb amount 0); [injection Hs as <-; by apply extends_refl|].
    eapply extends_set; [done| |scratch|exact Hs]. exact (known_or_new sv addr Hi).
  - unfold SubThetaBalance in Hs. destruct (Z.eqb amount 0); [injection Hs as <-; by apply extends_refl|].
    destruct (GetAccount sv addr) as [acc|] eqn:Ha; [|done].
    eapply extends_set; [done| |scratch|exact Hs]. exact (known_account sv addr acc Hi Ha).
  - unfold AddThetaBalance in Hs. destruct (Z.eqb amount 0); [injection Hs as <-; by apply extends_refl|].
    eapply extends_set; [done| |scratch|exact Hs]. exact (known_or_new sv addr Hi).
  - eapply extends_set0; [done| |exact Hs]. exact (known_or_new sv addr Hi).
  - assert (He : extends sv (put_code sv (code_hash code) code)) by (by apply extends_tree; [|apply Hi]).
    eapply extends_trans; [exact He|]. eapply extends_set0; [apply He| |exact Hs]. exact (known_or_new sv addr Hi).
  - destruct (SetState_spec sv addr key val Hi) as (s & s' & sv2 & _ & _ & Hs2 & He & _). congruence.
  - unfold Suicide in Hs. destruct (GetAccount sv addr) as [acc|] eqn:Ha; [|injection Hs as <- <-; by apply extends_refl].
    set (sv1 := addBalanceChange sv _) in Hs. assert (He : extends sv sv1) by scratch.
    destruct (SetAccount sv1 addr _) as [sv2| |] eqn:Hs2; try done. injection Hs as <- <-.
    eapply extends_trans; [exact He|]. eapply extends_set0; [apply He| |exact Hs2]. exact (known_account sv addr acc Hi Ha).
  - unfold SubRefund in Hs. destruct (_ <? _); [done|]. injection Hs as <-. scratch.
  - by apply snapshots_insert.
  - unfold RevertToSnapshot, open_tree in Hs.
    destruct (Z.eqb root 0 || Z.eqb root EmptyTreeHash); [injection Hs as <-; by apply extends_tree|].
    destruct (snapshots sv !! root) as [t|] eqn:Hl; [|done]. injection Hs as <-.
    apply extends_tree; [done|]. destruct Hi as (_ & H2 & _). apply (H2 _ _ Hl).
Qed.

Lemma steps_extend sv sv' : view_inv sv -> rtc view_step sv sv' -> extends sv sv'.
Proof.
  intros Hi Hs. induction Hs as [sv|sv1 sv2 sv3 Hstep _ IH]; [by apply extends_refl|].
  pose proof (step_extends sv1 sv2 Hi Hstep) as He. eapply extends_trans; [exact He|]. apply IH, He.
Qed.

(** ** Snapshots *)

Lemma revert_spec sv sv2 : view_inv sv -> rtc view_step (Snapshot sv).2 sv2 ->
  RevertToSnapshot sv2 (Snapshot sv).1 = Ok (with_tree sv2 (tree sv)) /\
  storages sv ⊆ storages sv2.
Proof.
  intros Hi Hs. pose proof (snapshots_insert sv Hi) as He.
  destruct (steps_extend _ _ (proj1 He) Hs) as (Hi2 & Hst & Hsn).
  split; [|by etrans; [apply He|]]. unfold RevertToSnapshot, open_tree. cbn [Snapshot fst].
  unfold StoreView_Hash.
  assert (Hl : snapshots sv2 !! tree_root (tree sv) = Some (tree sv)).
  { eapply lookup_weaken; [|exact Hsn]. cbn. apply lookup_insert_eq. }
  destruct (Z.eqb_spec (tree_root (tree sv)) 0) as [Hz|_]; [by apply tree_root_nonzero in Hz|].
  destruct (Z.eqb_spec (tree_root (tree sv)) EmptyTreeHash) as [Hz|_]; cbn [orb]; [|by rewrite Hl].
  rewrite <- tree_root_empty in Hz. by apply tree_root_inj in Hz as ->.
Qed.

(** Reading an account trie in a later database. *)
Lemma getAccountStorage_mono sv sv' acc : storages sv ⊆ storages sv' ->
  root_known (storages sv) (AccRoot acc) -> getAccountStorage sv' acc = getAccountStorage sv acc.
Proof.
  intros Hs Hr. unfold getAccountStorage. destruct (_ || _) eqn:Hz; [done|].
  apply orb_false_iff in Hz as [Hz1%Z.eqb_neq Hz2%Z.eqb_neq].
  destruct Hr as [?|[?|[s Hr]]]; [done..|]. rewrite Hr. by eapply lookup_weaken.
Qed.

Lemma GetState_mono sv sv' addr key : view_inv sv -> storages sv ⊆ storages sv' -> tree sv' = tree sv ->
  GetState sv' addr key = GetState sv addr key.
Proof.
  intros Hi Hs Ht. unfold GetState, GetAccount. rewrite Ht.
  destruct (accounts (tree sv) !! addr) as [acc|] eqn:Ha; [|done].
  rewrite (getAccountStorage_mono sv sv' acc); [done|done|]. by apply (known_account sv addr acc).
Qed.

Lemma getAccountStorage_stored sv acc s : map_Forall (fun r s => storage_root s = r) (storages sv) ->
  AccRoot acc = storage_root s -> storages sv !! storage_root s = Some s -> getAccountStorage sv acc = Some s.
Proof.
  intros Hst Hr Hl. unfold getAccountStorage. rewrite Hr.
  destruct (Z.eqb_spec (storage_root s) 0) as [Hz|_]; [by apply storage_root_nonzero in Hz|].
  destruct (Z.eqb_spec (storage_root s) EmptyTreeHash) as [Hz|_]; cbn [orb]; [|done].
  rewrite <- storage_root_empty in Hz. by apply storage_root_inj in Hz as ->.
Qed.

Lemma GetState_SetState sv addr key val : view_inv sv ->
  exists sv', SetState sv addr key val = Ok sv' /\ view_inv sv' /\
    (forall addr' key', GetState sv' addr' key' =
       if decide (addr = addr' /\ key = key') then Ok val else GetState sv addr' key') /\
    (forall a, GetBalance sv' a = GetBalance sv a /\ GetThetaBalance sv' a = GetThetaBalance sv a).
Proof.
  intros Hi. destruct (SetState_spec sv addr key val Hi) as (s & s' & sv' & Hs & Hs' & Hset & He & Heq).
  exists sv'. split; [done|]. split; [apply He|].
  assert (Hget : forall a, GetAccount sv' a =
    if decide (addr = a) then Some (set_root (GetOrCreateAccount sv addr) (storage_root s')) else GetAccount sv a).
  { intros a. rewrite Heq. unfold GetAccount. cbn. apply lookup_insert. }
  assert (Hmono : storages sv ⊆ storages sv') by apply He. split.
  - intros a k. unfold GetState at 1. rewrite Hget. destruct (decide (addr = a)) as [<-|Hne].
    + rewrite (getAccountStorage_stored sv' _ s'); [|apply He|done|].
      * assert (Hold : GetState sv addr k = Ok (default 0 (s !! k))).
        { unfold GetState. unfold GetOrCreateAccount in Hs.
          destruct (GetAccount sv addr) as [acc|]; [by rewrite Hs|].
          unfold getAccountStorage in Hs. rewrite NewAccount_root in Hs. cbn in Hs. injection Hs as <-.
          by rewrite lookup_empty. }
        rewrite Hold, Hs'. destruct (Z.eqb_spec val 0) as [->|Hv].
        -- rewrite lookup_delete. clear -Hs'. repeat case_decide; naive_solver.
        -- rewrite lookup_insert. clear -Hs'. repeat case_decide; naive_solver.
      * rewrite Heq. cbn. apply lookup_insert_eq.
    + rewrite decide_False by naive_solver. unfold GetState.
      destruct (GetAccount sv a) as [acc|] eqn:Ha; [|done].
      rewrite (getAccountStorage_mono sv sv' acc); [done|done|]. by apply (known_account sv a acc).
  - intros a. unfold GetBalance, GetThetaBalance, GetOrCreateAccount at 1 3. rewrite Hget.
    destruct (decide (addr = a)) as [<-|]; done.
Qed.

(** ** The record of balance changes *)

(** The net change of a token of an address in a list of changes. *)
Definition signed (bc : BalanceChange) : Z := if BCIsNegative bc then - BCDelta bc else BCDelta bc.
Definition net (tokenType : Z) (addr : Address) (l : list BalanceChange) : Z :=
  sumZ signed (filter (fun bc => BCAddress bc = addr /\ BCTokenType bc = tokenType) l).

(** The operations of the virtual machine on a view, without reverts. *)
Inductive vm_step sv : StoreView -> Prop :=
| vm_create addr sv' : CreateAccountWithPreviousBalance sv addr = Ok sv' -> vm_step sv sv'
| vm_sub addr amount sv' : SubBalance sv addr amount = Ok sv' -> vm_step sv sv'
| vm_add addr amount sv' : AddBalance sv addr amount = Ok sv' -> vm_step sv sv'
| vm_sub_theta addr amount sv' : SubThetaBalance sv addr amount = Ok sv' -> vm_step sv sv'
| vm_add_theta addr amount sv' : AddThetaBalance sv addr amount = Ok sv' -> vm_step sv sv'
| vm_nonce addr n sv' : SetNonce sv addr n = Ok sv' -> vm_step sv sv'
| vm_code addr code sv' : SetCode sv addr code = Ok sv' -> vm_step sv sv'
| vm_state addr key val sv' : SetState sv addr key val = Ok sv' -> vm_step sv sv'
| vm_suicide addr b sv' : Suicide sv addr = Ok (b, sv') -> vm_step sv sv'
| vm_log l : vm_step sv (AddLog sv l)
| vm_add_refund gas : vm_step sv (AddRefund sv gas)
| vm_sub_refund gas sv' : SubRefund sv gas = Ok sv' -> vm_step sv sv'
| vm_snapshot : vm_step sv (Snapshot sv).2.

Lemma vm_view_step sv sv' : vm_step sv sv' -> view_step sv sv'.
Proof.
  destruct 1 as [addr sv' Hs|addr amount sv' Hs|addr amount sv' Hs|addr amount sv' Hs|addr amount sv' Hs
    |addr n sv' Hs|addr code sv' Hs|addr key val sv' Hs|addr b sv' Hs|l|gas|gas sv' Hs|].
  - exact (step_create_prev sv addr sv' Hs).
  - exact (step_sub sv addr amount sv' Hs).
  - exact (step_add sv addr amount sv' Hs).
  - exact (step_sub_theta sv addr amount sv' Hs).
  - exact (step_add_theta sv addr amount sv' Hs).
  - exact (step_nonce sv addr n sv' Hs).
  - exact (step_code sv addr code sv' Hs).
  - exact (step_state sv addr key val sv' Hs).
  - exact (step_suicide sv addr b sv' Hs).
  - exact (step_log sv l).
  - exact (step_add_refund sv gas).
  - exact (step_sub_refund sv gas sv' Hs).
  - exact (step_snapshot sv).
Qed.

Definition coins_of sv addr : Coins := AccBalance (GetOrCreateAccount sv addr).

(** The balances of [sv'] are those of [sv] and the changes recorded since. *)
Definition audited sv sv' : Prop :=
  exists l, balanceChanges sv' = balanceChanges sv ++ l /\
    forall a, coins_of sv' a = mkCoins (ThetaWei (coins_of sv a) + net 0 a l) (TFuelWei (coins_of sv a) + net 1 a l).

Lemma net_app t a l1 l2 : net t a (l1 ++ l2) = net t a l1 + net t a l2.
Proof. unfold net. by rewrite filter_app, sumZ_app. Qed.

Lemma net_one t a bc : net t a [bc] = if decide (BCAddress bc = a /\ BCTokenType bc = t) then signed bc else 0.
Proof.
  unfold net. rewrite filter_cons, filter_nil. destruct (decide _); [|done]. by rewrite sumZ_cons, sumZ_nil, Z.add_0_r.
Qed.

Lemma audited_same sv sv' : balanceChanges sv' = balanceChanges sv ->
  (forall a, coins_of sv' a = coins_of sv a) -> audited sv sv'.
Proof.
  intros Hb Hc. exists []. rewrite app_nil_r. split; [done|]. intros a. rewrite Hc. unfold net. rewrite filter_nil, sumZ_nil, !Z.add_0_r.
  by destruct (coins_of sv a).
Qed.

Lemma audited_trans sv1 sv2 sv3 : audited sv1 sv2 -> audited sv2 sv3 -> audited sv1 sv3.
Proof.
  intros (l1 & Hb1 & Hc1) (l2 & Hb2 & Hc2). exists (l1 ++ l2). rewrite Hb2, Hb1, app_assoc. split; [done|].
  intros a. rewrite Hc2, Hc1. cbn. by rewrite !net_app, !Z.add_assoc.
Qed.

(** Writing an account changes the coins of its address only. *)
Lemma coins_of_set sv addr acc sv' a : view_inv sv -> root_known (storages sv) (AccRoot acc) ->
  SetAccount sv addr acc = Ok sv' ->
  coins_of sv' a = (if decide (addr = a) then AccBalance acc else coins_of sv a) /\
  balanceChanges sv' = balanceChanges sv.
Proof.
  intros Hi Hr Hs. split.
  - unfold coins_of, GetOrCreateAccount. rewrite (SetAccount_get sv addr acc sv' a Hi Hr Hs). by case_decide.
  - destruct (SetAccount_spec sv addr acc Hi Hr) as (sv2 & Hs2 & _ & ->). rewrite Hs in Hs2. by injection Hs2 as ->.
Qed.

Lemma audited_set sv addr acc sv' : view_inv sv -> root_known (storages sv) (AccRoot acc) ->
  AccBalance acc = coins_of sv addr -> SetAccount sv addr acc = Ok sv' -> audited sv sv'.
Proof.
  intros Hi Hr Hb Hs. apply audited_same.
  - by eapply (coins_of_set sv addr acc sv' addr).
  - intros a. rewrite (proj1 (coins_of_set sv addr acc sv' a Hi Hr Hs)). case_decide; by subst.
Qed.

Lemma audited_change sv addr acc c bc sv' : view_inv sv -> root_known (storages sv) (AccRoot acc) ->
  BCAddress bc = addr -> BCTokenType bc = 0 \/ BCTokenType bc = 1 ->
  c = mkCoins (ThetaWei (coins_of sv addr) + (if Z.eqb (BCTokenType bc) 0 then signed bc else 0))
        (TFuelWei (coins_of sv addr) + (if Z.eqb (BCTokenType bc) 0 then 0 else signed bc)) ->
  (x ← SetAccount sv addr (set_balance acc c); Ok (addBalanceChange x bc)) = Ok sv' -> audited sv sv'.
Proof.
  intros Hi Hr Ha Ht Hc Hs. destruct (SetAccount sv addr (set_balance acc c)) as [sv1| |] eqn:H1; try done.
  injection Hs as <-. exists [bc]. split.
  - cbn. by rewrite (proj2 (coins_of_set sv addr (set_balance acc c) sv1 addr Hi Hr H1)).
  - intros a. change (coins_of (addBalanceChange sv1 bc) a) with (coins_of sv1 a).
    rewrite (proj1 (coins_of_set sv addr (set_balance acc c) sv1 a Hi Hr H1)), !net_one. cbn [AccBalance set_balance].
    rewrite Ha, Hc. destruct (decide (addr = a)) as [<-|Hne].
    + destruct Ht as [-> | ->]; cbn; repeat case_decide; naive_solver.
    + rewrite !decide_False by naive_solver. rewrite !Z.add_0_r. by destruct (coins_of sv a).
Qed.

Ltac unaltered := apply audited_same; reflexivity.

Lemma vm_step_audited sv sv' : view_inv sv -> vm_step sv sv' -> audited sv sv'.
Proof.
  intros Hi Hstep. pose proof (known_or_new sv) as Hnew.
  destruct Hstep as [addr sv' Hs|addr amount sv' Hs|addr amount sv' Hs|addr amount sv' Hs|addr amount sv' Hs
    |addr n sv' Hs|addr code sv' Hs|addr key val sv' Hs|addr b sv' Hs|l|gas|gas sv' Hs|]; try unaltered.
  - unfold CreateAccountWithPreviousBalance in Hs. refine (audited_set sv addr _ _ Hi _ _ Hs).
    + destruct (GetAccount sv addr); apply known_new.
    + unfold coins_of, GetOrCreateAccount. by destruct (GetAccount sv addr).
  - unfold SubBalance in Hs. destruct (Z.eqb amount 0); [injection Hs as <-; unaltered|].
    destruct (GetAccount sv addr) as [acc|] eqn:Ha; [|done].
    refine (audited_change sv addr _ _ _ _ Hi (known_account sv addr acc Hi Ha) _ _ _ Hs); [done|by right|].
    unfold coins_of, GetOrCreateAccount. rewrite Ha. cbn. by rewrite Z.add_0_r.
  - unfold AddBalance in Hs. destruct (Z.eqb amount 0); [injection Hs as <-; unaltered|].
    refine (audited_change sv addr _ _ _ _ Hi (Hnew addr Hi) _ _ _ Hs); [done|by right|].
    unfold coins_of. cbn. by rewrite Z.add_0_r.
  - unfold SubThetaBalance in Hs. destruct (Z.eqb amount 0); [injection Hs as <-; unaltered|].
    destruct (GetAccount sv addr) as [acc|] eqn:Ha; [|done].
    refine (audited_change sv addr _ _ _ _ Hi (known_account sv addr acc Hi Ha) _ _ _ Hs); [done|by left|].
    unfold coins_of, GetOrCreateAccount. rewrite Ha. cbn. by rewrite Z.add_0_r.
  - unfold AddThetaBalance in Hs. destruct (Z.eqb amount 0); [injection Hs as <-; unaltered|].
    refine (audited_change sv addr _ _ _ _ Hi (Hnew addr Hi) _ _ _ Hs); [done|by left|].
    unfold coins_of. cbn. by rewrite Z.add_0_r.
  - refine (audited_set sv addr _ _ Hi _ _ Hs); [exact (Hnew addr Hi)|done].
  - set (sv1 := put_code sv (code_hash code) code).
    assert (Hi1 : view_inv sv1) by (by apply extends_tree; [|apply Hi]).
    apply (audited_trans sv sv1); [unaltered|].
    refine (audited_set sv1 addr _ _ Hi1 _ _ Hs); [exact (Hnew addr Hi)|done].
  - destruct (GetState_SetState sv addr key val Hi) as (sv2 & Hs2 & _ & _ & Hc).
    rewrite Hs in Hs2. injection Hs2 as <-. apply audited_same.
    + destruct (SetState_spec sv addr key val Hi) as (s & s' & sv2 & _ & _ & Hs2 & _ & ->).
      rewrite Hs in Hs2. by injection Hs2 as ->.
    + intros a. destruct (Hc a) as [H1 H2]. unfold GetBalance, GetThetaBalance in H1, H2. unfold coins_of.
      destruct (AccBalance _), (AccBalance _). cbn in *. congruence.
  - unfold Suicide in Hs. destruct (GetAccount sv addr) as [acc|] eqn:Ha; [|injection Hs as <- <-; unaltered].
    set (bc := mkBalanceChange _ _ _ _) in Hs. set (c := mkCoins _ 0) in Hs.
    set (sv1 := addBalanceChange sv bc) in Hs.
    set (acc' := set_balance _ c) in Hs.
    destruct (SetAccount sv1 addr acc') as [sv2| |] eqn:Hs2; try done. injection Hs as <- <-.
    assert (Hi1 : view_inv sv1) by (by apply extends_scratch).
    assert (Hr : root_known (storages sv1) (AccRoot acc')) by exact (known_account sv addr acc Hi Ha).
    pose proof (coins_of_set sv1 addr acc' sv2 addr Hi1 Hr Hs2) as [_ Hb].
    exists [bc]. split; [done|]. intros a. rewrite !net_one. cbn [bc BCAddress BCTokenType].
    rewrite (proj1 (coins_of_set sv1 addr acc' sv2 a Hi1 Hr Hs2)).
    change (coins_of sv1 a) with (coins_of sv a). destruct (decide (addr = a)) as [<-|Hne].
    + unfold coins_of, GetOrCreateAccount. rewrite Ha.
      rewrite decide_False by (by intros [_ ?]). rewrite decide_True by done.
      unfold acc', c, bc, signed. cbn. f_equal; lia.
    + rewrite !decide_False by naive_solver. rewrite !Z.add_0_r. by destruct (coins_of sv a).
  - unfold SubRefund in Hs. destruct (_ <? _); [done|]. injection Hs as <-. unaltered.
Qed.

Lemma vm_steps_audited sv sv' : view_inv sv -> rtc vm_step sv sv' -> view_inv sv' /\ audited sv sv'.
Proof.
  intros Hi Hs. induction Hs as [sv|sv1 sv2 sv3 Hstep _ IH]; [split; [done|unaltered]|].
  destruct (IH (proj1 (step_extends sv1 sv2 Hi (vm_view_step sv1 sv2 Hstep)))) as [Hi3 Ha3].
  split; [done|]. eapply audited_trans; [|exact Ha3]. by apply vm_step_audited.
Qed.
End StoreViewOps.

(** ** Byte strings of the keys *)

Lemma string_bytes_cons c s : string_bytes (String c s) = Z.of_nat (Ascii.nat_of_ascii c) :: string_bytes s.
Proof. done. Qed.

Lemma string_bytes_app s t : string_bytes (s +:+ t) = string_bytes s ++ string_bytes t.
Proof.
  induction s as [|c s IH]; [done|]. change (String c s +:+ t) with (String c (s +:+ t)).
  by rewrite !string_bytes_cons, IH.
Qed.

Lemma string_bytes_inj s t : string_bytes s = string_bytes t -> s = t.
Proof.
  revert t. induction s as [|c s IH]; intros [|d t]; try done.
  rewrite !string_bytes_cons. intros [= Hc%Nat2Z.inj Ht]. f_equal; [|by apply IH].
  by rewrite <- (Ascii.ascii_nat_embedding c), Hc, Ascii.ascii_nat_embedding.
Qed.

(** Decimal numerals contain no ["/"]. *)
Lemma pretty_N_no_slash x s : (47 ∉ string_bytes s) -> (47 ∉ string_bytes (pretty_N_go x s)).
Proof.
  revert s. induction (N.lt_wf_0 x) as [x _ IH]; intros s Hs.
  destruct (decide (x = 0%N)) as [->|Hx]; [by rewrite pretty_N_go_0|].
  rewrite pretty_N_go_step by lia. apply IH; [by apply N.div_lt; lia|].
  rewrite string_bytes_cons, not_elem_of_cons. split; [|done].
  unfold pretty_N_char. by repeat case_match.
Qed.

Lemma pretty_no_slash (z : Z) : 47 ∉ string_bytes (pretty z).
Proof.
  assert (Hp : forall p, 47 ∉ string_bytes (pretty (N.pos p))).
  { intros p. unfold pretty, pretty_N. rewrite decide_False by done. apply pretty_N_no_slash, not_elem_of_nil. }
  destruct z as [|p|p]; unfold pretty, pretty_Z.
  - cbn. set_solver.
  - apply Hp.
  - rewrite string_bytes_app, not_elem_of_app. split; [cbn; set_solver|apply Hp].
Qed.

(** A separator splits a list in one way. *)
Lemma split_at_separator {A} (x : A) l1 l2 k1 k2 : (x ∉ l1) -> (x ∉ k1) ->
  l1 ++ x :: l2 = k1 ++ x :: k2 -> l1 = k1 /\ l2 = k2.
Proof.
  revert k1. induction l1 as [|y l1 IH]; intros [|z k1] Hl Hk Heq; cbn in Heq.
  - by injection Heq.
  - injection Heq as -> _. by apply not_elem_of_cons in Hk as [? _].
  - injection Heq as -> _. by apply not_elem_of_cons in Hl as [? _].
  - injection Heq as -> Heq. apply not_elem_of_cons in Hl as [_ Hl]. apply not_elem_of_cons in Hk as [_ Hk].
    by destruct (IH k1 Hl Hk Heq) as [-> ->].
Qed.

(** ** A concrete instance *)

#[export] Instance plain_types : ThetaTypes.
Proof.
  refine {|
    Plus c d := mkCoins (ThetaWei c + ThetaWei d) (TFuelWei c + TFuelWei d);
    Minus c d := mkCoins (ThetaWei c - ThetaWei d) (TFuelWei c - TFuelWei d);
    IsGTE c d := (ThetaWei d <=? ThetaWei c) && (TFuelWei d <=? TFuelWei c);
    IsEqual c d := bool_decide (c = d);
    IsNonnegative c := (0 <=? ThetaWei c) && (0 <=? TFuelWei c);
    IsZero c := bool_decide (c = mkCoins 0 0);
    NewAccount a := mkAccount a 0 (mkCoins 0 0) 0 0 7;
    UpdateToHeight acc n := set_height acc n;
    IsASmartContract acc := negb (Z.eqb (AccCodeHash acc) 7);
    EmptyCodeHash := 7
  |}; try done.
  - intros c d. by rewrite andb_true_iff, !Z.leb_le.
  - intros c d. apply bool_decide_eq_true.
  - intros c. by rewrite andb_true_iff, !Z.leb_le.
  - intros c. apply bool_decide_eq_true.
Defined.

#[export] Instance Account_eq_dec : EqDecision Account.
Proof. solve_decision. Defined.

#[export] Instance Coins_countable : Countable Coins.
Proof.
  refine (inj_countable' (fun c => (ThetaWei c, TFuelWei c)) (fun '(a, b) => mkCoins a b) _). by intros [].
Defined.

#[export] Instance Account_countable : Countable Account.
Proof.
  refine (inj_countable'
    (fun a => (AccCodeHash a, (AccRoot a, (AccBalance a, (AccAddress a, (AccSequence a, LastUpdatedBlockHeight a))))))
    (fun '(f, (e, (c, (a, (b, d))))) => mkAccount a b c d e f) _). by intros [].
Defined.

#[export] Instance ValidatorSet_eq_dec : EqDecision ValidatorSet.
Proof. solve_decision. Defined.

#[export] Instance Validator_countable : Countable Validator.
Proof.
  refine (inj_countable' (fun v => (VAddress v, VStake v)) (fun '(a, b) => mkValidator a b) _). by intros [].
Defined.

#[export] Instance ValidatorSet_countable : Countable ValidatorSet.
Proof.
  refine (inj_countable' (fun v => (dynasty v, validators v)) (fun '(a, b) => mkValidatorSet a b) _). by intros [].
Defined.

#[export] Instance Tree_eq_dec : EqDecision Tree.
Proof. solve_decision. Defined.

#[export] Instance Tree_countable : Countable Tree.
Proof.
  refine (inj_countable'
    (fun t => (accounts t, (codes t, (currentValidatorSet t, (dynastyValidatorSets t, (heightList t,
               (TFuelTokenBank t, (TNT20TokenBank t, (TNT721TokenBank t, TNT1155TokenBank t)))))))))
    (fun '(a, (b, (c, (d, (e, (f, (g, (h, i)))))))) => mkTree a b c d e f g h i) _). by intros [].
Defined.

(** Roots numbered after the contents, with 1 for the empty tree. *)
Definition number {A} `{Countable A} (zero x : A) : Z := if decide (x = zero) then 1 else 1 + Z.pos (encode x).

Lemma number_inj {A} `{Countable A} (zero x y : A) : number zero x = number zero y -> x = y.
Proof.
  unfold number. repeat case_decide; subst; try done; intros Heq; try lia.
  assert (He : encode x = encode y) by lia. by apply encode_inj in He.
Qed.

Lemma number_nonzero {A} `{Countable A} (zero x : A) : number zero x <> 0.
Proof. unfold number. case_decide; lia. Qed.

#[export] Instance plain_trie : TrieHash.
Proof.
  refine {|
    EmptyTreeHash := 1;
    tree_root := number empty_tree;
    storage_root := number ∅;
    code_hash c := Z.pos (encode c)
  |}.
  - apply number_inj.
  - apply number_inj.
  - apply number_nonzero.
  - unfold number. by rewrite decide_True.
  - apply number_nonzero.
  - unfold number. by rewrite decide_True.
  - intros c c' [= Heq]. by apply encode_inj in Heq.
Defined.

(** An empty view, and views reached from it. *)
Definition empty_view : StoreView := mkStoreView 0 empty_tree ∅ ∅ false false 0 [] [].

Lemma empty_view_inv `{TrieHash} : view_inv empty_view.
Proof. split_and!; apply map_Forall_empty. Qed.

(** ** Properties *)

(** (state keys). Different kinds of state data, accounts, contract codes
    and validator sets of different chains and dynasties are stored under
    different byte keys. *)
Theorem state_keys_injective k k' :
  state_key_ok k -> state_key_ok k' -> state_key_bytes k = state_key_bytes k' -> k = k'.
Proof.
  intros Hk Hk' Heq. destruct k, k'; cbn [state_key_bytes state_key_ok] in Hk, Hk', Heq; try done.
  all: unfold AccountKey, SplitRuleKey, CodeKey, ValidatorSetForChainDuringDynastyKey in Heq.
  all: try (apply (f_equal (take 8)) in Heq; discriminate Heq).
  - apply app_inv_head in Heq. f_equal. by apply (be_bytes_inj 20).
  - apply app_inv_head in Heq. f_equal. by apply string_bytes_inj.
  - apply app_inv_head in Heq. f_equal. by apply (be_bytes_inj 32).
  - rewrite <- !app_assoc in Heq. apply app_inv_head in Heq.
    destruct (split_at_separator 47 _ _ _ _ (pretty_no_slash _) (pretty_no_slash _) Heq) as [H1 H2].
    apply string_bytes_inj in H1, H2. apply (inj pretty) in H1, H2. by subst.
Qed.

Lemma state_keys_injective_witness : KDynastySet 360777 12 = KDynastySet 360777 12.
Proof. apply state_keys_injective; [exact I|exact I|reflexivity]. Defined.

(** C36 (snapshots). After any run of operations on a view, reverting to a
    snapshot succeeds and restores the state hash, every account, every code
    and every storage slot; the refund counter, the logs and the recorded
    balance changes are not reverted. *)
Theorem snapshot_revert `{ThetaTypes} `{TrieHash} sv sv2 :
  view_inv sv -> rtc view_step (Snapshot sv).2 sv2 ->
  exists sv3, RevertToSnapshot sv2 (Snapshot sv).1 = Ok sv3 /\ view_inv sv3 /\
    StoreView_Hash sv3 = StoreView_Hash sv /\
    (forall a, GetAccount sv3 a = GetAccount sv a /\ GetCode sv3 a = GetCode sv a) /\
    (forall a key, GetState sv3 a key = GetState sv a key) /\
    refund sv3 = refund sv2 /\ logs sv3 = logs sv2 /\ balanceChanges sv3 = balanceChanges sv2.
Proof.
  intros Hi Hs. destruct (revert_spec sv sv2 Hi Hs) as [Hr Hst]. eexists. split; [exact Hr|].
  pose proof (snapshots_insert sv Hi) as He.
  destruct (steps_extend _ _ (proj1 He) Hs) as ((H1 & H2 & _) & _).
  split; [split_and!; [done|done|]; eapply tree_known_mono; [exact Hst|apply Hi]|].
  split_and!; try done. intros a key. by apply GetState_mono.
Qed.

Lemma snapshot_revert_witness :
  exists sv2 sv3, AddBalance (Snapshot empty_view).2 1 5 = Ok sv2 /\
    RevertToSnapshot sv2 (Snapshot empty_view).1 = Ok sv3 /\ GetAccount sv3 1 = None.
Proof.
  eexists. edestruct (snapshot_revert empty_view) as (sv3 & Hr & _ & _ & Ha & _).
  - apply empty_view_inv.
  - eapply rtc_once, (step_add _ 1 5). reflexivity.
  - exists sv3. split; [reflexivity|]. split; [exact Hr|]. apply (Ha 1).
Defined.

(** (contract storage). [SetState] succeeds and changes exactly the slot it
    writes, storing zero by removing it; all balances stay. *)
Theorem storage_spec `{ThetaTypes} `{TrieHash} sv addr key val :
  view_inv sv ->
  exists sv', SetState sv addr key val = Ok sv' /\ view_inv sv' /\
    (forall addr' key', GetState sv' addr' key' =
       if decide (addr = addr' /\ key = key') then Ok val else GetState sv addr' key') /\
    (forall a, GetBalance sv' a = GetBalance sv a /\ GetThetaBalance sv' a = GetThetaBalance sv a).
Proof. apply GetState_SetState. Qed.

Lemma storage_spec_witness :
  exists sv', SetState empty_view 1 2 3 = Ok sv' /\ GetState sv' 1 2 = Ok 3 /\ GetState sv' 1 4 = Ok 0.
Proof.
  destruct (storage_spec empty_view 1 2 3 empty_view_inv) as (sv' & Hs & _ & Hg & _).
  exists sv'. split; [exact Hs|]. split; rewrite Hg; reflexivity.
Defined.

(** C37 (balance changes). Along every run of virtual machine operations
    without reverts, the recorded balance changes add up to the difference of
    the balances of every account, for both tokens. *)
Theorem balance_audit `{ThetaTypes} `{TrieHash} sv sv' :
  view_inv sv -> rtc vm_step (ResetBalanceChanges sv) sv' ->
  forall a, GetBalance sv' a = GetBalance sv a + net 1 a (balanceChanges sv') /\
    GetThetaBalance sv' a = GetThetaBalance sv a + net 0 a (balanceChanges sv').
Proof.
  intros Hi Hs a. destruct (vm_steps_audited (ResetBalanceChanges sv) sv') as [_ (l & Hl & Hc)];
    [by apply extends_scratch|done|].
  cbn in Hl. rewrite Hl. change (coins_of (ResetBalanceChanges sv)) with (coins_of sv) in Hc.
  specialize (Hc a). unfold coins_of in Hc. unfold GetBalance, GetThetaBalance. by rewrite Hc.
Qed.

Lemma balance_audit_witness :
  exists sv1 sv2, AddBalance (ResetBalanceChanges empty_view) 1 5 = Ok sv1 /\ SubBalance sv1 1 2 = Ok sv2 /\
    GetBalance sv2 1 = GetBalance empty_view 1 + net 1 1 (balanceChanges sv2).
Proof.
  eexists _, _. split; [reflexivity|]. split; [reflexivity|].
  eapply (balance_audit empty_view); [apply empty_view_inv|].
  eapply rtc_l; [eapply (vm_add _ 1 5); reflexivity|]. eapply rtc_once, (vm_sub _ 1 2). reflexivity.
Defined.

(** The balance changes of a reverted call are still in the record. *)
Theorem reverted_changes_reported `{ThetaTypes} `{TrieHash} :
  exists sv2 sv3, AddBalance (Snapshot empty_view).2 1 5 = Ok sv2 /\
    RevertToSnapshot sv2 (Snapshot empty_view).1 = Ok sv3 /\
    GetBalance sv3 1 = 0 /\ net 1 1 (balanceChanges sv3) = 5.
Proof.
  pose proof empty_view_inv as Hi. pose proof (snapshots_insert _ Hi) as [Hi1 _].
  destruct (AddBalance (Snapshot empty_view).2 1 5) as [sv2| |] eqn:Ha.
  - pose proof (vm_step_audited _ sv2 Hi1 (vm_add _ 1 5 sv2 Ha)) as (l & Hl & Hc).
    destruct (revert_spec empty_view sv2 Hi) as [Hr _]; [by apply rtc_once, (step_add _ 1 5)|].
    exists sv2. eexists. split_and!; [done|exact Hr| |].
    + unfold GetBalance, GetOrCreateAccount, GetAccount. cbn. rewrite lookup_empty. by rewrite NewAccount_balance.
    + unfold AddBalance in Ha. cbn [Z.eqb] in Ha.
      set (acc := set_balance _ _) in Ha. destruct (SetAccount _ 1 acc) as [sv1| |] eqn:Hs; try done.
      injection Ha as <-. cbn. rewrite (proj2 (coins_of_set _ 1 acc sv1 1 Hi1 (known_or_new _ 1 Hi1) Hs)). reflexivity.
  - exfalso. unfold AddBalance in Ha. cbn [Z.eqb] in Ha. set (acc := set_balance _ _) in Ha.
    destruct (SetAccount_spec _ 1 acc Hi1 (known_or_new _ 1 Hi1)) as (sv1 & Hs & _). by rewrite Hs in Ha.
  - exfalso. unfold AddBalance in Ha. cbn [Z.eqb] in Ha. set (acc := set_balance _ _) in Ha.
    destruct (SetAccount_spec _ 1 acc Hi1 (known_or_new _ 1 Hi1)) as (sv1 & Hs & _). by rewrite Hs in Ha.
Qed.
