(* ===== verification/Execution.v ===== *)
(** * Transaction execution (src/ledger/execution/*.go, src/ledger/vm/exec.go)

    The four transaction executors and the dispatch of [Executor].  The view
    is passed explicitly and returned also when a transaction fails, because
    the caller keeps it.  The transaction types, their signatures and the
    numeric parameters belong to theta and are an interface; so are the
    message calls of the virtual machine, which VmGas.v discharges. *)

From stdpp Require Import gmap sorting relations.
From stdpp Require Import base list numbers strings.
From S2P Require Import Prelude Vote Validator Block Bookkeeper Mempool StoreView.
Local Open Scope string_scope.
Local Open Scope list_scope.
Local Open Scope Z_scope.

(** ** Transactions *)

Record TxInput := mkTxInput {
  InAddress : Address;
  InCoins : Coins;
  InSequence : uint64;
  InSignature : Signature
}.

Record TxOutput := mkTxOutput { OutAddress : Address; OutCoins : Coins }.

Record CoinbaseTx := mkCoinbaseTx { CBProposer : TxInput; CBOutputs : list TxOutput; CBBlockHeight : uint64 }.

Record SendTx := mkSendTx { SendFee : Coins; Inputs : list TxInput; Outputs : list TxOutput }.

Record SmartContractTx := mkSmartContractTx {
  From : TxInput;
  To : TxOutput;
  GasLimit : uint64;
  GasPrice : Z;
  Data : Bytes
}.

(** [SubchainValidatorSetUpdateTx] of src/ledger/types/tx.go. *)
Record SubchainValidatorSetUpdateTx := mkValidatorSetUpdateTx {
  UpProposer : TxInput;
  UpDynasty : Z;
  UpValidators : list Validator
}.

Inductive Tx :=
| TxCoinbase (tx : CoinbaseTx)
| TxSend (tx : SendTx)
| TxSmartContract (tx : SmartContractTx)
| TxValidatorSetUpdate (tx : SubchainValidatorSetUpdateTx)
| TxStakeRewardDistribution
| TxSlash
| TxDepositStake (forValidator : bool)
| TxWithdrawStake (forValidator : bool).

(** [result.Result] of a transaction: the errors that carry a message, and
    undecided. *)
Inductive TxResult :=
| TxOK
| TxError (msg : string)
| TxUndecided.

Definition tx_is_error (r : TxResult) : bool := match r with TxError _ => true | _ => false end.
Definition tx_is_ok (r : TxResult) : bool := match r with TxOK => true | _ => false end.

Inductive ViewSelector := DeliveredView | CheckedView | ScreenedView.

Inductive CrossChainTokenType := TokenTFuel | TokenTNT20 | TokenTNT721 | TokenTNT1155.

(** The methods and constants of theta that the executors use. *)
Class TxTypes := {
  input_ValidateBasic : TxInput -> bool;
  output_ValidateBasic : TxOutput -> bool;
  SignBytes : string -> Tx -> Bytes;
  TxID : string -> Tx -> Hash;
  Verify : Signature -> Bytes -> Address -> bool;
  ChangeEthereumTxWrapper : Bytes -> Bytes;
  ValidEthSignature : string -> uint64 -> SmartContractTx -> bool;
  Keccak256 : Bytes -> Bytes;
  MapChainID : string -> Z;
  MaxAccountsAffectedPerTx : Z;
  GetSendTxMinimumTransactionFeeTFuelWei : uint64 -> uint64 -> Z;
  GetMaxGasLimit : uint64 -> Z;
  HeightEnableSmartContract : uint64;
  HeightEnableTheta3 : uint64;
  HeightTxWrapperExtension : uint64;
  HeightRPCCompatibility : uint64;
  HeightJune2021FeeAdjustment : uint64;
  GasRegularTx : uint64;
  GasRegularTxJune2021 : uint64;
  TxGas : uint64;
  TxGasContractCreation : uint64;
  TxDataNonZeroGas : uint64;
  TxDataZeroGas : uint64;
  output_nonneg o : output_ValidateBasic o = true -> coins_le (mkCoins 0 0) (OutCoins o);
  data_gas_pos : 0 < TxDataNonZeroGas /\ 0 < TxDataZeroGas
}.

(** What an executor knows besides the view: the chain identifier, the height
    of the ledger state, the block being processed with its parent's
    validator set, the witness of the main chain, the token bank contracts
    and the parent block. *)
Record ExecContext := mkExecContext {
  chainID : string;
  stateHeight : uint64;
  currentBlock : option Block.Block;
  NextValidatorSet : Hash -> ValidatorSet;
  GetValidatorSetByDynasty : Z -> option ValidatorSet;
  TokenBank : CrossChainTokenType -> option Address;
  parentHeight : uint64;
  parentTimestamp : Z;
  parentChainID : string
}.

(** [MinimumGasPrice] and [GetMinimumGasPrice] of src/common. *)
Definition MinimumGasPrice : Z := 100000000.
Definition GetMinimumGasPrice : Z := MinimumGasPrice.

(** What [process] gives to [Chain.AddTxReceipt]. *)
Record Receipt := mkReceipt {
  RcLogs : list Log;
  RcBalanceChanges : list BalanceChange;
  RcEvmRet : Bytes;
  RcContractAddr : Address;
  RcGasUsed : uint64;
  RcEvmErr : option string
}.

(** The guard of an early [return result.Error(msg)]. *)
Definition check (b : bool) (msg : string) : outcome unit := if b then Ok tt else Err msg.

Section Execution.
Context `{ThetaTypes} `{TrieHash} `{TxTypes}.
Implicit Types (view : StoreView) (ctx : ExecContext) (acc : Account).

(** ** Execution utilities (executils.go) *)

Definition getValidatorSet ctx : outcome ValidatorSet :=
  match currentBlock ctx with
  | None => Panic "ledger.currentBlock is nil"
  | Some b => Ok (NextValidatorSet ctx (Parent (Header b)))
  end.

Definition getValidatorAddresses (vs : ValidatorSet) : list Address := VAddress <$> validators vs.

Fixpoint isAValidator (address : Address) (validatorAddresses : list Address) : outcome unit :=
  match validatorAddresses with
  | [] => Err "The coinbaseTx proposer is not a validator"
  | a :: l => if Z.eqb address a then Ok tt else isAValidator address l
  end.

Definition getOrMakeAccountImpl view (address : Address) (makeNewAccount : bool) : outcome Account :=
  acc ← match GetAccount view address with
        | Some acc => Ok acc
        | None => if makeNewAccount then Ok (set_height (NewAccount address) (height view))
                  else Err "getOrMakeAccountImpl - Unknown address"
        end;
  Ok (UpdateToHeight acc (height view)).

Definition getAccount view address : outcome Account := getOrMakeAccountImpl view address false.

(** [getOrMakeAccount] drops the error, which cannot occur. *)
Definition getOrMakeAccount view address : outcome Account := getOrMakeAccountImpl view address true.

Definition getOrMakeInputImpl view (in_ : TxInput) (makeNewAccount : bool) : outcome Account :=
  match getOrMakeAccountImpl view (InAddress in_) makeNewAccount with
  | Err _ => Err "getOrMakeInputImpl - Unknown address"
  | r => r
  end.
Definition getInput view in_ : outcome Account := getOrMakeInputImpl view in_ false.
Definition getOrMakeInput view in_ : outcome Account := getOrMakeInputImpl view in_ true.

Fixpoint getInputs view (accounts : gmap Address Account) (ins : list TxInput)
    : outcome (gmap Address Account) :=
  match ins with
  | [] => Ok accounts
  | i :: ins' =>
    _ ← check (bool_decide (accounts !! InAddress i = None)) "getInputs - Duplicated address";
    match getAccount view (InAddress i) with
    | Ok acc => getInputs view (<[InAddress i := acc]> accounts) ins'
    | Err _ => Err "getInputs - Unknown address"
    | Panic msg => Panic msg
    end
  end.

Fixpoint getOrMakeOutputs view (accounts : gmap Address Account) (outs : list TxOutput)
    : outcome (gmap Address Account) :=
  match outs with
  | [] => Ok accounts
  | o :: outs' =>
    _ ← check (bool_decide (accounts !! OutAddress o = None)) "getOrMakeOutputs - Duplicated address";
    acc ← getOrMakeAccount view (OutAddress o);
    getOrMakeOutputs view (<[OutAddress o := acc]> accounts) outs'
  end.

Fixpoint validateInputsBasic (ins : list TxInput) : outcome unit :=
  match ins with
  | [] => Ok tt
  | i :: ins' =>
    _ ← check (input_ValidateBasic i) "invalid input";
    _ ← check (Z.eqb (ThetaWei (InCoins i)) 0) "Subchain should not transfer native Theta coin";
    validateInputsBasic ins'
  end.

Fixpoint validateOutputsBasic (outs : list TxOutput) : outcome unit :=
  match outs with
  | [] => Ok tt
  | o :: outs' => _ ← check (output_ValidateBasic o) "invalid output"; validateOutputsBasic outs'
  end.

Definition validateInputAdvanced acc (signBytes : Bytes) (in_ : TxInput) (blockHeight : uint64) : outcome unit :=
  _ ← check (Z.eqb (u64_add (AccSequence acc) 1) (InSequence in_)) "CodeInvalidSequence";
  _ ← check (IsGTE (AccBalance acc) (InCoins in_)) "CodeInsufficientFund";
  let signatureValid := Verify (InSignature in_) signBytes (AccAddress acc) in
  let signatureValid :=
    if HeightTxWrapperExtension <=? blockHeight
    then signatureValid || Verify (InSignature in_) (ChangeEthereumTxWrapper signBytes) (AccAddress acc)
    else signatureValid in
  check signatureValid "CodeInvalidSignature".

Fixpoint validateInputsAdvanced (accounts : gmap Address Account) (signBytes : Bytes) (ins : list TxInput)
    (blockHeight : uint64) (total : Coins) : outcome Coins :=
  match ins with
  | [] => Ok total
  | i :: ins' =>
    match accounts !! InAddress i with
    | None => Panic "validateInputsAdvanced() expects account in accounts"
    | Some acc =>
      _ ← validateInputAdvanced acc signBytes i blockHeight;
      validateInputsAdvanced accounts signBytes ins' blockHeight (Plus total (InCoins i))
    end
  end.

Definition sumOutputs (outs : list TxOutput) : Coins :=
  foldl (fun total o => Plus total (OutCoins o)) (mkCoins 0 0) outs.

Fixpoint adjustByInputs view (accounts : gmap Address Account) (ins : list TxInput)
    : outcome (StoreView * gmap Address Account) :=
  match ins with
  | [] => Ok (view, accounts)
  | i :: ins' =>
    match accounts !! InAddress i with
    | None => Panic "adjustByInputs() expects account in accounts"
    | Some acc =>
      if negb (IsGTE (AccBalance acc) (InCoins i)) then Panic "adjustByInputs() expects sufficient funds" else
      let acc := set_balance acc (Minus (AccBalance acc) (InCoins i)) in
      let acc := set_sequence acc (u64_add (AccSequence acc) 1) in
      view ← SetAccount view (InAddress i) acc;
      adjustByInputs view (<[InAddress i := acc]> accounts) ins'
    end
  end.

Fixpoint adjustByOutputs view (accounts : gmap Address Account) (outs : list TxOutput) : outcome StoreView :=
  match outs with
  | [] => Ok view
  | o :: outs' =>
    match accounts !! OutAddress o with
    | None => Panic "adjustByOutputs() expects account in accounts"
    | Some acc =>
      let acc := set_balance acc (Plus (AccBalance acc) (OutCoins o)) in
      view ← SetAccount view (OutAddress o) acc;
      adjustByOutputs view (<[OutAddress o := acc]> accounts) outs'
    end
  end.

Definition sanityCheckForSendTxFee (fee : Coins) (numAccountsAffected blockHeight : uint64) : bool :=
  Z.eqb (ThetaWei fee) 0 &&
  (GetSendTxMinimumTransactionFeeTFuelWei numAccountsAffected blockHeight <=? TFuelWei fee).

Definition chargeFee acc (fee : Coins) : option Account :=
  if negb (IsGTE (AccBalance acc) fee) then None
  else Some (set_balance acc (Minus (AccBalance acc) fee)).

Definition getBlockHeight ctx : uint64 := u64_add (stateHeight ctx) 1.

Definition getRegularTxGas ctx : uint64 :=
  if getBlockHeight ctx <? HeightJune2021FeeAdjustment then GasRegularTx else GasRegularTxJune2021.

(** *** Operations free of gas fees *)

Definition mintTFuel : string := "mintVouchers(string,address,uint256,uint256,uint256)".
Definition mintTNT20 : string := "mintVouchers(string,string,string,uint8,address,uint256,uint256,uint256)".
Definition unlockTNT20 : string := "unlockTokens(uint256,string,address,uint256,uint256,uint256)".
Definition mintTNT721 : string := "mintVouchers(string,string,string,address,uint256,string,uint256,uint256)".
Definition unlockTNT721 : string := "unlockTokens(uint256,string,address,uint256,uint256,uint256)".
Definition mintTNT1155 : string := "mintVouchers(string,address,uint256,uint256,string,uint256,uint256)".
Definition unlockTNT1155 : string := "unlockTokens(uint256,string,address,uint256,uint256,uint256,uint256)".

(** Dereferencing the address of a token bank. *)
Definition bank ctx (t : CrossChainTokenType) : outcome Address :=
  match TokenBank ctx t with Some a => Ok a | None => Panic "nil pointer dereference" end.

Definition whitelistedMethods ctx (contractAddr : Address) : outcome (list string) :=
  tfuel ← bank ctx TokenTFuel;
  if Z.eqb contractAddr tfuel then Ok [mintTFuel] else
  tnt20 ← bank ctx TokenTNT20;
  if Z.eqb contractAddr tnt20 then Ok [mintTNT20; unlockTNT20] else
  tnt721 ← bank ctx TokenTNT721;
  if Z.eqb contractAddr tnt721 then Ok [mintTNT721; unlockTNT721] else
  tnt1155 ← bank ctx TokenTNT1155;
  if Z.eqb contractAddr tnt1155 then Ok [mintTNT1155; unlockTNT1155] else Ok [].

Definition funcSelector (signature : string) : Bytes := String.substring 0 4 (Keccak256 signature).

Definition isVotingForInterchainEvents ctx (contractAddr : Address) (calldata : Bytes) : outcome bool :=
  if Nat.ltb (String.length calldata) 4 then Ok false else
  methods ← whitelistedMethods ctx contractAddr;
  Ok (existsb (fun m => String.eqb (String.substring 0 4 calldata) (funcSelector m)) methods).

Definition isWhitelistedOperation view ctx (fromAddr contractAddr : Address) (calldata : Bytes) : outcome bool :=
  match StoreView_GetValidatorSet view with
  | None => Panic "nil pointer dereference"
  | Some vs =>
    if negb (is_ok (isAValidator fromAddr (getValidatorAddresses vs))) then Ok false
    else isVotingForInterchainEvents ctx contractAddr calldata
  end.

Definition sanityCheckForGasPrice view ctx (fromAddr contractAddr : Address) (calldata : Bytes) (gasPrice : Z)
    : outcome bool :=
  whitelisted ← isWhitelistedOperation view ctx fromAddr contractAddr calldata;
  if whitelisted && Z.eqb gasPrice 0 then Ok true
  else Ok (negb (gasPrice <? GetMinimumGasPrice)).

(** ** Send transactions (tx_send.go) *)

Definition send_sanityCheck view ctx (tx : SendTx) : outcome unit :=
  _ ← validateInputsBasic (Inputs tx);
  _ ← validateOutputsBasic (Outputs tx);
  _ ← check (negb (bool_decide (Inputs tx = []) || bool_decide (Outputs tx = [])))
        "Invalid sendTx, Inputs and/or Outputs are empty";
  let numAccountsAffected := Z.of_nat (length (Inputs tx) + length (Outputs tx)) in
  _ ← check (negb (MaxAccountsAffectedPerTx <? numAccountsAffected)) "Trasaction modifying too many accounts";
  accounts ← getInputs view ∅ (Inputs tx);
  _ ← check (forallb (fun i => Z.eqb (ThetaWei (InCoins i)) 0) (Inputs tx)) "CodeDoNotSupportNativeThetaInSubchain";
  accounts ← getOrMakeOutputs view accounts (Outputs tx);
  let blockHeight := u64_add (height view) 1 in
  _ ← check (negb ((HeightEnableSmartContract <=? blockHeight) &&
                   existsb IsASmartContract (map_to_list accounts).*2))
        "Sending Theta/TFuel to a smart contract through a SendTx transaction is not allowed";
  let signBytes := SignBytes (chainID ctx) (TxSend tx) in
  inTotal ← validateInputsAdvanced accounts signBytes (Inputs tx) blockHeight (mkCoins 0 0);
  _ ← check (sanityCheckForSendTxFee (SendFee tx) numAccountsAffected blockHeight) "CodeInvalidFee";
  let outPlusFees := Plus (sumOutputs (Outputs tx)) (SendFee tx) in
  check (IsEqual inTotal outPlusFees) "Input total != output total + fees".

(** The result of [process]: the transaction hash and the result, with the
    view it leaves and the receipts it adds to the chain. *)
Record Processed := mkProcessed {
  PHash : Hash;
  PResult : TxResult;
  PView : StoreView;
  PReceipts : list Receipt
}.

(** [return common.Hash{}, result.Error(msg)]. *)
Definition rejected view (msg : string) : Processed := mkProcessed 0 (TxError msg) view [].

Definition send_process view ctx (tx : SendTx) : outcome Processed :=
  match (accounts ← getInputs view ∅ (Inputs tx); getOrMakeOutputs view accounts (Outputs tx)) with
  | Err msg => Ok (rejected view msg)
  | Panic msg => Panic msg
  | Ok accounts =>
    '(view, accounts) ← adjustByInputs view accounts (Inputs tx);
    view ← adjustByOutputs view accounts (Outputs tx);
    Ok (mkProcessed (TxID (chainID ctx) (TxSend tx)) TxOK view [])
  end.

Definition send_effectiveGasPrice ctx (tx : SendTx) : outcome Z :=
  let numAccountsAffected := Z.of_nat (length (Inputs tx) + length (Outputs tx)) in
  let gasSendTxPerAccount := getRegularTxGas ctx / 2 in
  let gas := u64_mul gasSendTxPerAccount numAccountsAffected in
  let gas := if gas <? u64_mul 2 gasSendTxPerAccount then u64_mul 2 gasSendTxPerAccount else gas in
  if Z.eqb gas 0 then Panic "division by zero" else Ok (TFuelWei (SendFee tx) / gas).

Definition send_getTxInfo ctx (tx : SendTx) : outcome TxInfo :=
  match Inputs tx with
  | [] => Panic "index out of range"
  | i :: _ => price ← send_effectiveGasPrice ctx tx; Ok (mkTxInfo price (InAddress i) (InSequence i))
  end.

(** ** Coinbase transactions (tx_coinbase.go) *)

Definition coinbase_sanityCheck view ctx (tx : CoinbaseTx) : outcome unit :=
  validatorSet ← getValidatorSet ctx;
  let validatorAddresses := getValidatorAddresses validatorSet in
  _ ← check (input_ValidateBasic (CBProposer tx)) "invalid proposer";
  _ ← check (negb (coinbaseTransactinProcessed view))
        "Another coinbase transaction has been processed for the current block";
  _ ← isAValidator (InAddress (CBProposer tx)) validatorAddresses;
  proposerAccount ← getOrMakeInput view (CBProposer tx);
  let signBytes := SignBytes (chainID ctx) (TxCoinbase tx) in
  _ ← check (Verify (InSignature (CBProposer tx)) signBytes (AccAddress proposerAccount)) "SignBytes";
  check (Z.eqb (CBBlockHeight tx) (stateHeight ctx)) "invalid block height for the coinbase transaction".

Definition coinbase_process view ctx (tx : CoinbaseTx) : Processed :=
  if coinbaseTransactinProcessed view
  then rejected view "Another coinbase transaction has been processed for the current block"
  else mkProcessed (TxID (chainID ctx) (TxCoinbase tx)) TxOK (SetCoinbaseTransactionProcessed view true) [].

(** ** Validator set updates (tx_validator_set_update.go) *)

Definition update_sanityCheck view ctx (tx : SubchainValidatorSetUpdateTx) : outcome unit :=
  validatorSet ← getValidatorSet ctx;
  let validatorAddresses := getValidatorAddresses validatorSet in
  _ ← check (input_ValidateBasic (UpProposer tx)) "invalid proposer";
  _ ← check (negb (subchainValidatorSetTransactinProcessed view))
        "Another subchain validator set update transaction has been processed for the current block";
  _ ← isAValidator (InAddress (UpProposer tx)) validatorAddresses;
  proposerAccount ← getOrMakeInput view (UpProposer tx);
  let signBytes := SignBytes (chainID ctx) (TxValidatorSetUpdate tx) in
  check (Verify (InSignature (UpProposer tx)) signBytes (AccAddress proposerAccount)) "SignBytes".

(** The loop over the new validators: it collects them in the new set and
    creates the accounts that do not exist. *)
Fixpoint install_validators view (newValidatorSet : ValidatorSet) (l : list Validator)
    : outcome (StoreView * ValidatorSet) :=
  match l with
  | [] => Ok (view, newValidatorSet)
  | v :: l' =>
    let newValidatorSet := AddValidator newValidatorSet v in
    view ← match GetAccount view (VAddress v) with
           | Some _ => Ok view
           | None => SetAccount view (VAddress v) (set_height (NewAccount (VAddress v)) (height view))
           end;
    install_validators view newValidatorSet l'
  end.

Definition update_process view ctx (tx : SubchainValidatorSetUpdateTx) : outcome Processed :=
  if subchainValidatorSetTransactinProcessed view
  then Ok (rejected view "Another subchain validator set update transaction has been processed for the current block")
  else
  let newDynasty := UpDynasty tx in
  '(view, newValidatorSet) ← install_validators view (NewValidatorSet newDynasty) (UpValidators tx);
  match GetDynasty view with
  | None => Panic "nil pointer dereference"
  | Some currentDynasty =>
    if newDynasty <=? currentDynasty
    then Ok (rejected view "new dynasty needs to be strictly larger than the current dynasty")
    else match GetValidatorSetByDynasty ctx newDynasty with
    | None => Ok (mkProcessed 0 TxUndecided view [])
    | Some witnessedValidatorSet =>
      if negb (ValidatorSet_Equals newValidatorSet witnessedValidatorSet)
      then Ok (rejected view "validator set mismatch")
      else
      let view := UpdateValidatorSet view (MapChainID (chainID ctx)) newValidatorSet in
      let view := SetSubchainValidatorSetTransactionProcessed view true in
      Ok (mkProcessed (TxID (chainID ctx) (TxValidatorSetUpdate tx)) TxOK view [])
    end
  end.

(** ** The virtual machine (src/ledger/vm/exec.go) *)

Definition MaxUint64 : Z := 18446744073709551615.

Definition nonzero_bytes (data : Bytes) : Z :=
  Z.of_nat (length (List.filter (fun b => negb (Z.eqb b 0)) (string_bytes data))).

Definition CalculateIntrinsicGas (data : Bytes) (createContract : bool) : option uint64 :=
  let gas := if createContract then TxGasContractCreation else TxGas in
  if Nat.eqb (String.length data) 0 then Some gas else
  let nz := nonzero_bytes data in
  if u64_sub MaxUint64 gas / TxDataNonZeroGas <? nz then None else
  let gas := u64_add gas (u64_mul nz TxDataNonZeroGas) in
  let z := u64_sub (Z.of_nat (String.length data)) nz in
  if u64_sub MaxUint64 gas / TxDataZeroGas <? z then None else
  Some (u64_add gas (u64_mul z TxDataZeroGas)).
End Execution.

(** The context of a message call: its origin and gas price, and the block. *)
Record BlockInfo := mkBlockInfo { BIHeight : uint64; BITimestamp : Z; BIChainID : string }.
Record EvmContext := mkEvmContext {
  Origin : Address;
  EvmGasPrice : Z;
  EvmGasLimit : uint64;
  BlockNumber : Z;
  Time : Z;
  EvmChainID : string
}.

(** What the virtual machine does not change. *)
Definition same_validators (view view' : StoreView) : Prop :=
  height view' = height view /\ currentValidatorSet (tree view') = currentValidatorSet (tree view) /\
  coinbaseTransactinProcessed view' = coinbaseTransactinProcessed view /\
  subchainValidatorSetTransactinProcessed view' = subchainValidatorSetTransactinProcessed view.

(** The message calls of src/ledger/vm/vm.go at depth zero: the returned
    bytes, the address of the contract, the gas left and the error.  They act
    on the state through its operations, leave the validator sets alone and
    give back at most the gas they got. *)
Class EVM `{ThetaTypes} `{TrieHash} := {
  exec_Call : EvmContext -> Address -> Address -> Bytes -> uint64 -> Z -> StoreView ->
    outcome (Bytes * uint64 * option string * StoreView);
  exec_Create : EvmContext -> Address -> Bytes -> uint64 -> Z -> StoreView ->
    outcome (Bytes * Address * uint64 * option string * StoreView);
  exec_Call_ok c caller addr input gas value view ret left err view' : view_inv view -> is_u64 gas ->
    exec_Call c caller addr input gas value view = Ok (ret, left, err, view') ->
    rtc view_step view view' /\ same_validators view view' /\ 0 <= left <= gas;
  exec_Create_ok c caller code gas value view ret addr left err view' : view_inv view -> is_u64 gas ->
    exec_Create c caller code gas value view = Ok (ret, addr, left, err, view') ->
    rtc view_step view view' /\ same_validators view view' /\ 0 <= left <= gas
}.

Section Contracts.
Context `{ThetaTypes} `{TrieHash} `{TxTypes} `{!EVM}.
Implicit Types (view : StoreView) (ctx : ExecContext) (acc : Account).

Definition Execute (info : BlockInfo) (tx : SmartContractTx) view
    : outcome (Bytes * Address * uint64 * option string * StoreView) :=
  let context := mkEvmContext (InAddress (From tx)) (GasPrice tx) (GasLimit tx) (u64_add (BIHeight info) 1)
    (BITimestamp info) (BIChainID info) in
  let value := TFuelWei (InCoins (From tx)) in
  let gasLimit := GasLimit tx in
  let fromAddr := InAddress (From tx) in
  let contractAddr := OutAddress (To tx) in
  let createContract := Z.eqb contractAddr 0 in
  let blockHeight := GetBlockHeight view in
  if GetMaxGasLimit blockHeight <? gasLimit then Ok ("", 0, 0, Some "ErrInvalidGasLimit", view) else
  match CalculateIntrinsicGas (Data tx) createContract with
  | None => Ok ("", 0, 0, Some "ErrOutOfGas", view)
  | Some intrinsicGas =>
    if gasLimit <? intrinsicGas then Ok ("", 0, 0, Some "ErrOutOfGas", view) else
    let remainingGas := u64_sub gasLimit intrinsicGas in
    '(evmRet, contractAddr, leftOverGas, evmErr, view) ←
      (if createContract then exec_Create context fromAddr (Data tx) remainingGas value view
       else '(evmRet, leftOverGas, evmErr, view) ←
              exec_Call context fromAddr contractAddr (Data tx) remainingGas value view;
            Ok (evmRet, contractAddr, leftOverGas, evmErr, view));
    let gasUsed := if gasLimit <? leftOverGas then 0 else u64_sub gasLimit leftOverGas in
    Ok (evmRet, contractAddr, gasUsed, evmErr, view)
  end.

(** ** Smart contract transactions (tx_smart_contract.go) *)

Definition checkIntrinsicGas (tx : SmartContractTx) : bool :=
  match CalculateIntrinsicGas (Data tx) (Z.eqb (OutAddress (To tx)) 0) with
  | None => false
  | Some intrinsicGas => negb (GasLimit tx <? intrinsicGas)
  end.

(** The check of the signature, as a native or as an Ethereum signature. *)
Definition contract_signature ctx (tx : SmartContractTx) (blockHeight : uint64) : outcome unit :=
  let signBytes := SignBytes (chainID ctx) (TxSmartContract tx) in
  let from := From tx in
  let nativeSignatureValid := Verify (InSignature from) signBytes (InAddress from) in
  let nativeSignatureValid :=
    if HeightTxWrapperExtension <=? blockHeight
    then nativeSignatureValid || Verify (InSignature from) (ChangeEthereumTxWrapper signBytes) (InAddress from)
    else nativeSignatureValid in
  if nativeSignatureValid then Ok tt else
  _ ← check (negb (blockHeight <? HeightRPCCompatibility)) "CodeInvalidSignature";
  _ ← check (Z.eqb (ThetaWei (InCoins from)) 0) "Sending Theta with ETH transaction is not allowed";
  check (ValidEthSignature (chainID ctx) blockHeight tx) "CodeInvalidSignature".

Definition contract_sanityCheck view ctx (tx : SmartContractTx) : outcome unit :=
  let blockHeight := getBlockHeight ctx in
  let from := From tx in
  _ ← check (input_ValidateBasic from) "invalid input";
  _ ← contract_signature ctx tx blockHeight;
  fromAccount ← match getInput view from with
                | Err _ => Err "Failed to get the account (the address has no Theta nor TFuel)"
                | r => r
                end;
  _ ← check (Z.eqb (u64_add (AccSequence fromAccount) 1) (InSequence from)) "CodeInvalidSequence";
  _ ← check (IsGTE (AccBalance fromAccount) (InCoins from)) "CodeInsufficientFund";
  let coins := InCoins from in
  _ ← check (IsNonnegative coins) "CodeInvalidValueToTransfer";
  priceOk ← sanityCheckForGasPrice view ctx (InAddress from) (OutAddress (To tx)) (Data tx) (GasPrice tx);
  _ ← check priceOk "CodeInvalidGasPrice";
  _ ← check (negb (GetMaxGasLimit blockHeight <? GasLimit tx)) "CodeInvalidGasLimit";
  _ ← check (checkIntrinsicGas tx) "CodeInvalidGasLimit";
  let feeLimit := GasPrice tx * GasLimit tx in
  _ ← check (negb ((2 ^ 255 <=? Z.abs feeLimit) || (feeLimit <? 0))) "CodeFeeLimitTooHigh";
  _ ← check (Z.eqb (ThetaWei coins) 0) "CodeDoNotSupportNativeThetaInSubchain";
  let minimalBalance := mkCoins 0 (feeLimit + TFuelWei coins) in
  check (IsGTE (AccBalance fromAccount) minimalBalance) "CodeInsufficientFund".

Definition contract_process view ctx (viewSel : ViewSelector) (tx : SmartContractTx) : outcome Processed :=
  let view := ResetBalanceChanges (ResetLogs view) in
  let info := mkBlockInfo (parentHeight ctx) (parentTimestamp ctx) (parentChainID ctx) in
  '(evmRet, contractAddr, gasUsed, evmErr, view) ← Execute info tx view;
  match getInput view (From tx) with
  | Panic msg => Panic msg
  | Err _ => Ok (rejected view "Failed to get the from account")
  | Ok fromAccount =>
    let fee := mkCoins 0 (GasPrice tx * gasUsed) in
    match chargeFee fromAccount fee with
    | None => Ok (rejected view "failed to charge transaction fee")
    | Some fromAccount =>
      let createContract := Z.eqb (OutAddress (To tx)) 0 in
      let fromAccount := if createContract then fromAccount
                         else set_sequence fromAccount (u64_add (AccSequence fromAccount) 1) in
      view ← SetAccount view (InAddress (From tx)) fromAccount;
      let (lg, view) := PopLogs view in
      let (changes, view) := PopBalanceChanges view in
      let (lg, changes) := match evmErr with Some _ => ([], []) | None => (lg, changes) end in
      let receipts := match viewSel with
                      | DeliveredView => [mkReceipt lg changes evmRet contractAddr gasUsed evmErr]
                      | _ => []
                      end in
      Ok (mkProcessed (TxID (chainID ctx) (TxSmartContract tx)) TxOK view receipts)
    end
  end.

Definition contract_getTxInfo (tx : SmartContractTx) : TxInfo :=
  mkTxInfo (GasPrice tx) (InAddress (From tx)) (InSequence (From tx)).

(** ** The executor (executor.go) *)

Definition isTxTypeSupported view (tx : Tx) : bool :=
  let blockHeight := u64_add (height view) 1 in
  match tx with
  | TxSmartContract _ => negb (blockHeight <? HeightEnableSmartContract)
  | TxStakeRewardDistribution => negb (blockHeight <? HeightEnableTheta3)
  | _ => true
  end.

Definition sanityCheck (skipSanityCheck : bool) view ctx (tx : Tx) : outcome unit :=
  if skipSanityCheck then Ok tt else
  if negb (isTxTypeSupported view tx) then Err "tx type not supported yet" else
  match tx with
  | TxCoinbase t => coinbase_sanityCheck view ctx t
  | TxValidatorSetUpdate t => update_sanityCheck view ctx t
  | TxSend t => send_sanityCheck view ctx t
  | TxSmartContract t => contract_sanityCheck view ctx t
  | _ => Err "Unknown tx type"
  end.

Definition process view ctx (viewSel : ViewSelector) (tx : Tx) : outcome Processed :=
  if negb (isTxTypeSupported view tx) then Ok (rejected view "tx type not supported yet") else
  match tx with
  | TxCoinbase t => Ok (coinbase_process view ctx t)
  | TxValidatorSetUpdate t => update_process view ctx t
  | TxSend t => send_process view ctx t
  | TxSmartContract t => contract_process view ctx viewSel t
  | _ => Ok (rejected view "Unknown tx type")
  end.

Definition processTx (skipSanityCheck : bool) view ctx (viewSel : ViewSelector) (tx : Tx) : outcome Processed :=
  match sanityCheck skipSanityCheck view ctx tx with
  | Err msg => Ok (rejected view msg)
  | Panic msg => Panic msg
  | Ok _ => process view ctx viewSel tx
  end.

Definition GetTxInfo ctx (tx : Tx) : outcome TxInfo :=
  match tx with
  | TxCoinbase _ | TxValidatorSetUpdate _ => Ok (mkTxInfo 0 0 0)
  | TxSend t => send_getTxInfo ctx t
  | TxSmartContract t => Ok (contract_getTxInfo t)
  | _ => Err "Unknown tx type"
  end.
End Contracts.

(** ** Send transactions: the accounts they load *)

Section Send.
Context `{ThetaTypes} `{TrieHash} `{TxTypes}.
Implicit Types (view : StoreView) (ctx : ExecContext) (acc : Account).

(** The account an address is loaded as. *)
Definition loaded view (a : Address) : Account :=
  UpdateToHeight match GetAccount view a with
                 | Some acc => acc
                 | None => set_height (NewAccount a) (height view)
                 end (height view).

Lemma loaded_spec view a : view_inv view ->
  AccAddress (loaded view a) = AccAddress (GetOrCreateAccount view a) /\
  AccBalance (loaded view a) = coins_of view a /\ AccSequence (loaded view a) = GetNonce view a /\
  root_known (storages view) (AccRoot (loaded view a)).
Proof.
  intros Hi. unfold loaded, coins_of, GetNonce, GetOrCreateAccount.
  set (acc := match GetAccount view a with Some x => x | None => set_height _ _ end).
  destruct (UpdateToHeight_keeps acc (height view)) as (K1 & K2 & K3 & K4 & _). rewrite K1, K2, K3, K4.
  unfold acc. destruct (GetAccount view a) as [x|] eqn:Ha; split_and!; try done.
  - by apply (known_account view a).
  - apply (known_new (storages view) a).
Qed.

Lemma getAccount_ok view a acc : getAccount view a = Ok acc <-> is_Some (GetAccount view a) /\ acc = loaded view a.
Proof.
  unfold getAccount, getOrMakeAccountImpl, loaded. destruct (GetAccount view a) as [x|]; cbn.
  - split; [intros [= <-]; eauto|intros [_ ->]; done].
  - split; [done|by intros [[? ?] _]].
Qed.

Lemma getOrMakeAccount_ok view a : getOrMakeAccount view a = Ok (loaded view a).
Proof. unfold getOrMakeAccount, getOrMakeAccountImpl, loaded. by destruct (GetAccount view a). Qed.

Lemma check_ok b msg : check b msg = Ok tt <-> b = true.
Proof. by destruct b. Qed.

Lemma check_bind {A} b msg (f : unit -> outcome A) r :
  mbind f (check b msg) = Ok r <-> b = true /\ f tt = Ok r.
Proof. destruct b; cbn; naive_solver. Qed.

(** Both loops load the accounts of fresh addresses. *)
Definition loads view (accs accs' : gmap Address Account) (l : list Address) : Prop :=
  NoDup l /\ (forall a, a ∈ l -> accs !! a = None) /\
  (forall a, accs' !! a = if decide (a ∈ l) then Some (loaded view a) else accs !! a).

Lemma loads_nil view accs : loads view accs accs [].
Proof.
  split_and!; [constructor|by intros a ?%elem_of_nil|].
  intros a. rewrite decide_False; [done|apply not_elem_of_nil].
Qed.

Lemma loads_cons view accs accs' a l : accs !! a = None ->
  loads view (<[a := loaded view a]> accs) accs' l -> loads view accs accs' (a :: l).
Proof.
  intros Ha (Hnd & Hfr & Hl). assert (Hal : a ∉ l).
  { intros Hin. specialize (Hfr a Hin). by rewrite lookup_insert_eq in Hfr. }
  split_and!.
  - by constructor.
  - intros b [->|Hb]%elem_of_cons; [done|]. specialize (Hfr b Hb).
    apply lookup_insert_None in Hfr. tauto.
  - intros b. rewrite Hl. destruct (decide (b ∈ l)) as [Hb|Hb].
    + by rewrite decide_True by (by right).
    + rewrite lookup_insert. destruct (decide (a = b)) as [<-|Hne].
      * by rewrite decide_True by (by left).
      * rewrite decide_False; [done|]. intros [->|?]%elem_of_cons; done.
Qed.

Lemma getInputs_ok view accs ins accs' : getInputs view accs ins = Ok accs' ->
  loads view accs accs' (InAddress <$> ins) /\ Forall (fun i => is_Some (GetAccount view (InAddress i))) ins.
Proof.
  revert accs. induction ins as [|i ins IH]; intros accs Hg; cbn [getInputs] in Hg.
  - injection Hg as ->. split; [apply loads_nil|constructor].
  - apply check_bind in Hg as [Hd%bool_decide_eq_true Hg].
    destruct (getAccount view (InAddress i)) as [acc| |] eqn:Ha; try done.
    apply getAccount_ok in Ha as [Hs ->]. destruct (IH _ Hg) as [Hl Hf].
    split; [by apply loads_cons|by constructor].
Qed.

Lemma getOrMakeOutputs_ok view accs outs accs' : getOrMakeOutputs view accs outs = Ok accs' ->
  loads view accs accs' (OutAddress <$> outs).
Proof.
  revert accs. induction outs as [|o outs IH]; intros accs Hg; cbn [getOrMakeOutputs] in Hg.
  - injection Hg as ->. apply loads_nil.
  - apply check_bind in Hg as [Hd%bool_decide_eq_true Hg]. rewrite getOrMakeAccount_ok in Hg. cbn in Hg.
    apply loads_cons; [done|]. by apply IH.
Qed.

(** ** The adjustment of balances *)

(** The loaded accounts agree with the view. *)
Definition synced view (accs : gmap Address Account) : Prop :=
  forall a acc, accs !! a = Some acc ->
    AccBalance acc = coins_of view a /\ AccSequence acc = GetNonce view a /\
    root_known (storages view) (AccRoot acc).

Definition coins_minus (c d : Coins) : Coins := mkCoins (ThetaWei c - ThetaWei d) (TFuelWei c - TFuelWei d).

(** What an address pays and receives. *)
Definition paid (f : Coins -> Z) (ins : list TxInput) (a : Address) : Z :=
  sumZ (fun i => if decide (InAddress i = a) then f (InCoins i) else 0) ins.
Definition received (f : Coins -> Z) (outs : list TxOutput) (a : Address) : Z :=
  sumZ (fun o => if decide (OutAddress o = a) then f (OutCoins o) else 0) outs.

(** Writing an account that is loaded. *)
Lemma write_account view accs a acc : view_inv view -> synced view accs ->
  root_known (storages view) (AccRoot acc) ->
  exists view', SetAccount view a acc = Ok view' /\ view_inv view' /\ synced view' (<[a := acc]> accs) /\
    storages view' = storages view /\ height view' = height view /\
    (forall b, GetAccount view' b = if decide (a = b) then Some acc else GetAccount view b) /\
    (forall b, coins_of view' b = if decide (a = b) then AccBalance acc else coins_of view b) /\
    (forall b, GetNonce view' b = if decide (a = b) then AccSequence acc else GetNonce view b).
Proof.
  intros Hi Hs Hr. destruct (SetAccount_spec view a acc Hi Hr) as (view' & Hset & [Hi' _] & Heq).
  exists view'. pose proof (SetAccount_get view a acc view') as Hget.
  assert (Hst : storages view' = storages view) by (by rewrite Heq).
  assert (Hc : forall b, coins_of view' b = if decide (a = b) then AccBalance acc else coins_of view b).
  { intros b. by apply (coins_of_set view a acc view' b). }
  assert (Hn : forall b, GetNonce view' b = if decide (a = b) then AccSequence acc else GetNonce view b).
  { intros b. unfold GetNonce, GetOrCreateAccount. rewrite Hget by done. by case_decide. }
  split_and!; try done; [|by rewrite Heq|intros b; by apply Hget].
  intros b x Hx. rewrite Hc, Hn, Hst. apply lookup_insert_Some in Hx as [[-> ->]|[Hne Hx]].
  - by rewrite !decide_True.
  - rewrite !decide_False by done. by apply Hs.
Qed.

Lemma adjustByInputs_ok view accs ins : view_inv view -> synced view accs ->
  NoDup (InAddress <$> ins) ->
  Forall (fun i => is_Some (accs !! InAddress i) /\ coins_le (InCoins i) (coins_of view (InAddress i))) ins ->
  exists view' accs', adjustByInputs view accs ins = Ok (view', accs') /\ view_inv view' /\ synced view' accs' /\
    (forall a, is_Some (accs !! a) -> is_Some (accs' !! a)) /\ height view' = height view /\
    (forall a, coins_of view' a = mkCoins (ThetaWei (coins_of view a) - paid ThetaWei ins a)
                                          (TFuelWei (coins_of view a) - paid TFuelWei ins a)) /\
    (forall a, GetNonce view' a = if decide (a ∈ InAddress <$> ins) then u64_add (GetNonce view a) 1 else GetNonce view a) /\
    (forall a, (a ∉ InAddress <$> ins) -> GetAccount view' a = GetAccount view a).
Proof.
  revert view accs. induction ins as [|i ins IH]; intros view accs Hi Hs Hnd Hf; cbn [adjustByInputs].
  { exists view, accs. split_and!; try done. intros a. unfold paid. rewrite !sumZ_nil, !Z.sub_0_r. by destruct (coins_of view a). }
  apply Forall_cons in Hf as [[[acc Hacc] Hle] Hf]. rewrite fmap_cons in Hnd. apply NoDup_cons in Hnd as [Hni Hnd].
  rewrite Hacc. destruct (Hs _ _ Hacc) as (Hb & Hn & Hr).
  assert (Hge : IsGTE (AccBalance acc) (InCoins i) = true) by (apply IsGTE_spec; by rewrite Hb). rewrite Hge. cbn [negb].
  set (acc' := set_sequence _ _).
  destruct (write_account view accs (InAddress i) acc' Hi Hs Hr)
    as (view1 & Hset & Hi1 & Hs1 & Hst1 & Hh1 & Hg1 & Hc1 & Hn1).
  rewrite Hset. cbn [mbind outcome_bind].
  destruct (IH view1 (<[InAddress i := acc']> accs) Hi1 Hs1 Hnd)
    as (view2 & accs2 & Ha2 & Hi2 & Hs2 & Hd2 & Hh2 & Hc2 & Hn2 & Hg2).
  { apply Forall_forall. intros j Hj. rewrite Forall_forall in Hf. destruct (Hf j Hj) as [Hsj Hlej].
    assert (Hne : InAddress i <> InAddress j) by (intros Heq; apply Hni; rewrite Heq; by apply list_elem_of_fmap_2).
    rewrite lookup_insert_ne by done. rewrite Hc1, decide_False by done. done. }
  exists view2, accs2. split_and!; [done|done|done| |congruence| | |].
  - intros a Ha. apply Hd2. rewrite lookup_insert. by case_decide.
  - intros a. rewrite Hc2, Hc1. unfold paid. rewrite !sumZ_cons. cbn [acc' AccBalance set_sequence set_balance].
    destruct (decide (InAddress i = a)) as [<-|]; rewrite ?Minus_spec, ?Hb; cbn; f_equal; lia.
  - intros a. rewrite Hn2, Hn1. rewrite fmap_cons. destruct (decide (InAddress i = a)) as [<-|Hne].
    + rewrite decide_False by done. rewrite decide_True by (by left). cbn. by rewrite Hn.
    + destruct (decide (a ∈ InAddress <$> ins)); [by rewrite decide_True by (by right)|].
      rewrite decide_False; [done|]. intros [->|?]%elem_of_cons; done.
  - intros a Ha. rewrite fmap_cons, not_elem_of_cons in Ha. destruct Ha as [Hne Ha].
    rewrite Hg2 by done. rewrite Hg1, decide_False by done. done.
Qed.

Lemma adjustByOutputs_ok view accs outs : view_inv view -> synced view accs ->
  Forall (fun o => is_Some (accs !! OutAddress o)) outs ->
  exists view', adjustByOutputs view accs outs = Ok view' /\ view_inv view' /\ height view' = height view /\
    (forall a, coins_of view' a = mkCoins (ThetaWei (coins_of view a) + received ThetaWei outs a)
                                          (TFuelWei (coins_of view a) + received TFuelWei outs a)) /\
    (forall a, GetNonce view' a = GetNonce view a) /\
    (forall a, (a ∉ OutAddress <$> outs) -> GetAccount view' a = GetAccount view a).
Proof.
  revert view accs. induction outs as [|o outs IH]; intros view accs Hi Hs Hf; cbn [adjustByOutputs].
  { exists view. split_and!; try done. intros a. unfold received. rewrite !sumZ_nil, !Z.add_0_r. by destruct (coins_of view a). }
  apply Forall_cons in Hf as [[acc Hacc] Hf]. rewrite Hacc. destruct (Hs _ _ Hacc) as (Hb & Hn & Hr).
  set (acc' := set_balance _ _).
  destruct (write_account view accs (OutAddress o) acc' Hi Hs Hr)
    as (view1 & Hset & Hi1 & Hs1 & Hst1 & Hh1 & Hg1 & Hc1 & Hn1).
  rewrite Hset. cbn [mbind outcome_bind].
  destruct (IH view1 (<[OutAddress o := acc']> accs) Hi1 Hs1) as (view2 & Ha2 & Hi2 & Hh2 & Hc2 & Hn2 & Hg2).
  { eapply Forall_impl; [exact Hf|]. intros j Hj. cbn in *. rewrite lookup_insert. by case_decide. }
  exists view2. split_and!; [done|done|congruence| | |].
  - intros a. rewrite Hc2, Hc1. unfold received. rewrite !sumZ_cons. cbn [acc' AccBalance set_balance].
    destruct (decide (OutAddress o = a)) as [<-|]; rewrite ?Plus_spec, ?Hb; cbn; f_equal; lia.
  - intros a. rewrite Hn2, Hn1. destruct (decide (OutAddress o = a)) as [<-|]; [by cbn|done].
  - intros a Ha. rewrite fmap_cons, not_elem_of_cons in Ha. destruct Ha as [Hne Ha].
    rewrite Hg2 by done. rewrite Hg1, decide_False by done. done.
Qed.

(** ** The check of a send transaction *)

Lemma validateInputsAdvanced_ok accs sb ins bh total r :
  validateInputsAdvanced accs sb ins bh total = Ok r ->
  r = mkCoins (ThetaWei total + sumZ (fun i => ThetaWei (InCoins i)) ins)
              (TFuelWei total + sumZ (fun i => TFuelWei (InCoins i)) ins) /\
  Forall (fun i => exists acc, accs !! InAddress i = Some acc /\
    u64_add (AccSequence acc) 1 = InSequence i /\ coins_le (InCoins i) (AccBalance acc)) ins.
Proof.
  revert total. induction ins as [|i ins IH]; intros total Hv; cbn [validateInputsAdvanced] in Hv.
  { injection Hv as <-. rewrite !sumZ_nil, !Z.add_0_r. split; [by destruct total|constructor]. }
  destruct (accs !! InAddress i) as [acc|] eqn:Hacc; [|done].
  destruct (validateInputAdvanced acc sb i bh) as [[]| |] eqn:Ha; try done. cbn in Hv.
  unfold validateInputAdvanced in Ha. apply check_bind in Ha as [Hseq%Z.eqb_eq Ha].
  apply check_bind in Ha as [Hge%IsGTE_spec _]. destruct (IH _ Hv) as [-> Hf]. split.
  - rewrite Plus_spec, !sumZ_cons. cbn. f_equal; lia.
  - constructor; [by exists acc|done].
Qed.

Lemma sumOutputs_spec outs :
  sumOutputs outs = mkCoins (sumZ (fun o => ThetaWei (OutCoins o)) outs) (sumZ (fun o => TFuelWei (OutCoins o)) outs).
Proof.
  unfold sumOutputs. enough (Hg : forall c, foldl (fun total o => Plus total (OutCoins o)) c outs =
    mkCoins (ThetaWei c + sumZ (fun o => ThetaWei (OutCoins o)) outs)
            (TFuelWei c + sumZ (fun o => TFuelWei (OutCoins o)) outs)) by apply Hg.
  induction outs as [|o outs IH]; intros c; cbn [foldl].
  - rewrite !sumZ_nil, !Z.add_0_r. by destruct c.
  - rewrite IH, Plus_spec, !sumZ_cons. cbn. f_equal; lia.
Qed.

Lemma validateOutputsBasic_ok outs : validateOutputsBasic outs = Ok tt ->
  Forall (fun o => coins_le (mkCoins 0 0) (OutCoins o)) outs.
Proof.
  induction outs as [|o outs IH]; intros Hv; [constructor|]. cbn in Hv.
  apply check_bind in Hv as [Ho Hv]. constructor; [by apply output_nonneg|by apply IH].
Qed.

Lemma bind_ok {A B} (m : outcome A) (f : A -> outcome B) r :
  mbind f m = Ok r <-> exists a, m = Ok a /\ f a = Ok r.
Proof. destruct m; cbn; naive_solver. Qed.

(** What the check of a send transaction establishes. *)
Lemma send_sanityCheck_ok view ctx tx : view_inv view -> send_sanityCheck view ctx tx = Ok tt ->
  exists accs1 accs2, getInputs view ∅ (Inputs tx) = Ok accs1 /\
    getOrMakeOutputs view accs1 (Outputs tx) = Ok accs2 /\
    loads view ∅ accs1 (InAddress <$> Inputs tx) /\ loads view accs1 accs2 (OutAddress <$> Outputs tx) /\
    Forall (fun i => u64_add (GetNonce view (InAddress i)) 1 = InSequence i /\
                     coins_le (InCoins i) (coins_of view (InAddress i))) (Inputs tx) /\
    Forall (fun o => coins_le (mkCoins 0 0) (OutCoins o)) (Outputs tx) /\ Inputs tx <> [] /\
    ThetaWei (SendFee tx) = 0 /\
    sumZ (fun i => ThetaWei (InCoins i)) (Inputs tx) = sumZ (fun o => ThetaWei (OutCoins o)) (Outputs tx) /\
    sumZ (fun i => TFuelWei (InCoins i)) (Inputs tx) =
      sumZ (fun o => TFuelWei (OutCoins o)) (Outputs tx) + TFuelWei (SendFee tx).
Proof.
  intros Hi Hc. unfold send_sanityCheck in Hc.
  apply bind_ok in Hc as ([] & _ & Hc). apply bind_ok in Hc as ([] & Ho & Hc).
  apply check_bind in Hc as [Hne Hc]. apply check_bind in Hc as [_ Hc].
  apply bind_ok in Hc as (accs1 & Hin & Hc). apply check_bind in Hc as [_ Hc].
  apply bind_ok in Hc as (accs2 & Hout & Hc). apply check_bind in Hc as [_ Hc].
  apply bind_ok in Hc as (total & Hv & Hc). apply check_bind in Hc as [Hfee Hc].
  apply check_ok, IsEqual_spec in Hc. exists accs1, accs2.
  destruct (getInputs_ok _ _ _ _ Hin) as [Hl1 _]. pose proof (getOrMakeOutputs_ok _ _ _ _ Hout) as Hl2.
  destruct (validateInputsAdvanced_ok _ _ _ _ _ _ Hv) as [-> Hf].
  rewrite sumOutputs_spec, Plus_spec in Hc. cbn in Hc. injection Hc as Ht Hu.
  apply andb_true_iff in Hfee as [Hz%Z.eqb_eq _].
  split_and!; try done; [| |intros He; by rewrite (bool_decide_eq_true_2 _ He) in Hne|lia].
  - eapply Forall_impl; [apply Forall_forall; intros i Hi'; exact (conj Hi' (proj1 (Forall_forall _ _) Hf i Hi'))|].
    intros i [Hi' (acc & Hacc & Hseq & Hle)]. cbn in Hacc.
    destruct Hl1 as (_ & _ & Hl1), Hl2 as (_ & Hfr & Hl2). rewrite Hl2 in Hacc.
    assert (Hni : InAddress i ∉ OutAddress <$> Outputs tx).
    { intros Hin'. specialize (Hfr _ Hin'). rewrite Hl1 in Hfr.
      by rewrite decide_True in Hfr by (by apply list_elem_of_fmap_2). }
    rewrite decide_False in Hacc by done. rewrite Hl1 in Hacc.
    rewrite decide_True in Hacc by (by apply list_elem_of_fmap_2). injection Hacc as <-.
    destruct (loaded_spec view (InAddress i) Hi) as (_ & Hb & Hn & _). by rewrite Hb, Hn in *.
  - by apply validateOutputsBasic_ok.
Qed.

Lemma loads_synced view accs accs' l : view_inv view -> synced view accs -> loads view accs accs' l -> synced view accs'.
Proof.
  intros Hi Hs (_ & _ & Hl) a acc Ha. rewrite Hl in Ha. destruct (decide (a ∈ l)); [|by apply Hs].
  injection Ha as <-. destruct (loaded_spec view a Hi) as (_ & ? & ? & ?). done.
Qed.

(** ** Payments *)

Lemma paid_other f ins a : (a ∉ InAddress <$> ins) -> paid f ins a = 0.
Proof.
  intros Ha. unfold paid. rewrite (sumZ_ext _ (fun _ => 0)); [by induction ins; [|rewrite sumZ_cons; set_solver]|].
  intros i Hi. rewrite decide_False; [done|]. intros <-. apply Ha. by apply list_elem_of_fmap_2.
Qed.

Lemma paid_by f ins i : NoDup (InAddress <$> ins) -> i ∈ ins -> paid f ins (InAddress i) = f (InCoins i).
Proof.
  induction ins as [|j ins IH]; intros Hnd Hi; [by apply elem_of_nil in Hi|].
  rewrite fmap_cons in Hnd. apply NoDup_cons in Hnd as [Hni Hnd]. unfold paid. rewrite sumZ_cons. fold (paid f ins (InAddress i)).
  apply elem_of_cons in Hi as [->|Hi].
  - rewrite decide_True by done. rewrite paid_other by done. lia.
  - rewrite decide_False by (intros Heq; apply Hni; rewrite Heq; by apply list_elem_of_fmap_2). by rewrite IH.
Qed.

Lemma received_other f outs a : (a ∉ OutAddress <$> outs) -> received f outs a = 0.
Proof.
  intros Ha. unfold received. rewrite (sumZ_ext _ (fun _ => 0)); [by induction outs; [|rewrite sumZ_cons; set_solver]|].
  intros o Ho. rewrite decide_False; [done|]. intros <-. apply Ha. by apply list_elem_of_fmap_2.
Qed.

Lemma received_by f outs o : NoDup (OutAddress <$> outs) -> o ∈ outs -> received f outs (OutAddress o) = f (OutCoins o).
Proof.
  induction outs as [|j outs IH]; intros Hnd Ho; [by apply elem_of_nil in Ho|].
  rewrite fmap_cons in Hnd. apply NoDup_cons in Hnd as [Hni Hnd]. unfold received. rewrite sumZ_cons.
  fold (received f outs (OutAddress o)). apply elem_of_cons in Ho as [->|Ho].
  - rewrite decide_True by done. rewrite received_other by done. lia.
  - rewrite decide_False by (intros Heq; apply Hni; rewrite Heq; by apply list_elem_of_fmap_2). by rewrite IH.
Qed.

(** Summed over accounts that include all the addresses. *)
Lemma sum_at (x : Address) v addrs : NoDup addrs -> x ∈ addrs ->
  sumZ (fun a => if decide (x = a) then v else 0) addrs = v.
Proof.
  induction addrs as [|a addrs IH]; intros Hnd Hx; [by apply elem_of_nil in Hx|].
  apply NoDup_cons in Hnd as [Hni Hnd]. rewrite sumZ_cons. destruct (decide (x = a)) as [->|Hne].
  - rewrite (sumZ_ext _ (fun _ => 0)).
    + enough (sumZ (fun _ : Address => 0) addrs = 0) as -> by lia. clear. by induction addrs; [|rewrite sumZ_cons; lia].
    + intros b Hb. rewrite decide_False; [done|]. by intros ->.
  - apply elem_of_cons in Hx as [?|Hx]; [done|]. rewrite IH by done. lia.
Qed.

Lemma sum_paid f ins addrs : NoDup addrs -> (forall i, i ∈ ins -> InAddress i ∈ addrs) ->
  sumZ (paid f ins) addrs = sumZ (fun i => f (InCoins i)) ins.
Proof.
  intros Hnd. induction ins as [|i ins IH]; intros Hin.
  - unfold paid. clear. by induction addrs; [|rewrite sumZ_cons; cbn; rewrite sumZ_nil; lia].
  - rewrite sumZ_cons, <- IH by (intros; apply Hin; by right).
    rewrite <- (sum_at (InAddress i) (f (InCoins i)) addrs Hnd) at 1 by (apply Hin; by left).
    rewrite <- sumZ_add. by apply sumZ_ext.
Qed.

Lemma sum_received f outs addrs : NoDup addrs -> (forall o, o ∈ outs -> OutAddress o ∈ addrs) ->
  sumZ (received f outs) addrs = sumZ (fun o => f (OutCoins o)) outs.
Proof.
  intros Hnd. induction outs as [|o outs IH]; intros Hin.
  - unfold received. clear. by induction addrs; [|rewrite sumZ_cons; cbn; rewrite sumZ_nil; lia].
  - rewrite sumZ_cons, <- IH by (intros; apply Hin; by right).
    rewrite <- (sum_at (OutAddress o) (f (OutCoins o)) addrs Hnd) at 1 by (apply Hin; by left).
    rewrite <- sumZ_add. by apply sumZ_ext.
Qed.

(** The coins of a list of accounts. *)
Definition supply (f : Coins -> Z) view (addrs : list Address) : Z := sumZ (fun a => f (coins_of view a)) addrs.

Lemma u64_succ_neq x : u64_add x 1 <> x.
Proof.
  unfold u64_add, wrap64. intros Heq. pose proof two64_pos. destruct (decide (is_u64 x)) as [Hx|Hx].
  - unfold is_u64 in Hx. destruct (decide (x + 1 = two64)) as [He|He].
    + rewrite He, Z_mod_same_full in Heq. subst x. unfold two64 in *. lia.
    + rewrite Z.mod_small in Heq; lia.
  - apply Hx. rewrite <- Heq. apply Z.mod_pos_bound. lia.
Qed.

(** Every account has a nonnegative balance. *)
Definition solvent view : Prop := forall a, coins_le (mkCoins 0 0) (coins_of view a).

(** The view after a send transaction that passed the check. *)
Lemma send_effect view ctx tx : view_inv view -> send_sanityCheck view ctx tx = Ok tt ->
  exists view', send_process view ctx tx = Ok (mkProcessed (TxID (chainID ctx) (TxSend tx)) TxOK view' []) /\
    view_inv view' /\ height view' = height view /\
    NoDup (InAddress <$> Inputs tx) /\ NoDup (OutAddress <$> Outputs tx) /\
    (forall a, a ∈ InAddress <$> Inputs tx -> a ∉ OutAddress <$> Outputs tx) /\
    (forall a, coins_of view' a =
      mkCoins (ThetaWei (coins_of view a) - paid ThetaWei (Inputs tx) a + received ThetaWei (Outputs tx) a)
              (TFuelWei (coins_of view a) - paid TFuelWei (Inputs tx) a + received TFuelWei (Outputs tx) a)) /\
    (forall a, GetNonce view' a = if decide (a ∈ InAddress <$> Inputs tx) then u64_add (GetNonce view a) 1 else GetNonce view a) /\
    (forall a, (a ∉ InAddress <$> Inputs tx) -> (a ∉ OutAddress <$> Outputs tx) -> GetAccount view' a = GetAccount view a).
Proof.
  intros Hi Hc.
  destruct (send_sanityCheck_ok view ctx tx Hi Hc) as (accs1 & accs2 & Hin & Hout & Hl1 & Hl2 & Hf & _).
  unfold send_process. rewrite Hin. cbn [mbind outcome_bind]. rewrite Hout.
  assert (Hs2 : synced view accs2).
  { eapply loads_synced; [done| |exact Hl2]. eapply loads_synced; [done| |exact Hl1]. by intros a acc Ha. }
  destruct Hl1 as (Hnd1 & _ & Hl1), Hl2 as (Hnd2 & Hfr & Hl2).
  assert (Hsep : forall a, a ∈ InAddress <$> Inputs tx -> a ∉ OutAddress <$> Outputs tx).
  { intros a Ha Hb. specialize (Hfr a Hb). by rewrite Hl1, decide_True in Hfr. }
  destruct (adjustByInputs_ok view accs2 (Inputs tx) Hi Hs2 Hnd1)
    as (v1 & accs3 & -> & Hi1 & Hs3 & Hd3 & Hh1 & Hc1 & Hn1 & Hg1).
  { apply Forall_forall. intros i Hii. rewrite Forall_forall in Hf. split; [|by apply Hf].
    assert (Hia : InAddress i ∈ InAddress <$> Inputs tx) by (by apply list_elem_of_fmap_2).
    rewrite Hl2, decide_False by (by apply Hsep). rewrite Hl1, decide_True by done. by eexists. }
  cbn [mbind outcome_bind].
  destruct (adjustByOutputs_ok v1 accs3 (Outputs tx) Hi1 Hs3) as (v2 & -> & Hi2 & Hh2 & Hc2 & Hn2 & Hg2).
  { apply Forall_forall. intros o Hoo. apply Hd3. rewrite Hl2, decide_True by (by apply list_elem_of_fmap_2). by eexists. }
  exists v2. split_and!; try done; [congruence| | |].
  - intros a. by rewrite Hc2, Hc1.
  - intros a. by rewrite Hn2, Hn1.
  - intros a Ha Hb. rewrite Hg2, Hg1 by done. done.
Qed.

(** A sum over accounts after the payments. *)
Lemma supply_after f view view' ins outs addrs fee : NoDup addrs ->
  (forall i, i ∈ ins -> InAddress i ∈ addrs) -> (forall o, o ∈ outs -> OutAddress o ∈ addrs) ->
  (forall a, f (coins_of view' a) = f (coins_of view a) - paid f ins a + received f outs a) ->
  sumZ (fun i => f (InCoins i)) ins = sumZ (fun o => f (OutCoins o)) outs + fee ->
  supply f view' addrs = supply f view addrs - fee.
Proof.
  intros Hnd Hia Hoa Hcoins Hsum. rewrite <- (sum_paid f ins addrs), <- (sum_received f outs addrs) in Hsum by done.
  unfold supply. enough (sumZ (fun a => f (coins_of view' a)) addrs + sumZ (paid f ins) addrs =
    sumZ (fun a => f (coins_of view a)) addrs + sumZ (received f outs) addrs) by lia.
  rewrite <- !sumZ_add. apply sumZ_ext. intros a _. rewrite Hcoins. lia.
Qed.

Lemma send_ok view ctx tx : view_inv view -> send_sanityCheck view ctx tx = Ok tt ->
  exists view', send_process view ctx tx = Ok (mkProcessed (TxID (chainID ctx) (TxSend tx)) TxOK view' []) /\
    view_inv view' /\ height view' = height view /\
    (forall i, i ∈ Inputs tx -> coins_of view' (InAddress i) = coins_minus (coins_of view (InAddress i)) (InCoins i) /\
       GetNonce view' (InAddress i) = InSequence i) /\
    (forall o, o ∈ Outputs tx -> coins_of view' (OutAddress o) = Plus (coins_of view (OutAddress o)) (OutCoins o) /\
       GetNonce view' (OutAddress o) = GetNonce view (OutAddress o)) /\
    (forall a, (a ∉ InAddress <$> Inputs tx) -> (a ∉ OutAddress <$> Outputs tx) -> GetAccount view' a = GetAccount view a) /\
    (forall addrs, NoDup addrs -> (forall i, i ∈ Inputs tx -> InAddress i ∈ addrs) ->
       (forall o, o ∈ Outputs tx -> OutAddress o ∈ addrs) ->
       supply TFuelWei view' addrs = supply TFuelWei view addrs - TFuelWei (SendFee tx) /\
       supply ThetaWei view' addrs = supply ThetaWei view addrs) /\
    (solvent view -> solvent view').
Proof.
  intros Hi Hc.
  destruct (send_sanityCheck_ok view ctx tx Hi Hc) as (_ & _ & _ & _ & _ & _ & Hf & Ho & _ & _ & Hth & Htf).
  destruct (send_effect view ctx tx Hi Hc) as (v2 & Hp & Hi2 & Hh & Hnd1 & Hnd2 & Hsep & Hcoins & Hn & Hg).
  exists v2. split_and!; [done|done|done| | |done| |].
  - intros i Hii. rewrite Hcoins, !(paid_by _ _ i), Hn by done.
    assert (Hia : InAddress i ∈ InAddress <$> Inputs tx) by (by apply list_elem_of_fmap_2).
    rewrite !received_other by (by apply Hsep). rewrite !Z.add_0_r, decide_True by done. split; [done|].
    rewrite Forall_forall in Hf. by apply Hf.
  - intros o Hoo. assert (Hoa : OutAddress o ∈ OutAddress <$> Outputs tx) by (by apply list_elem_of_fmap_2).
    assert (Hni : OutAddress o ∉ InAddress <$> Inputs tx) by (intros Hx; by apply (Hsep _ Hx)).
    rewrite Hcoins, !(received_by _ _ o), Hn, !paid_other by done.
    rewrite decide_False, !Z.sub_0_r, Plus_spec by done. done.
  - intros addrs Hnd Hia Hoa. split.
    + eapply supply_after; [done|exact Hia|exact Hoa| |exact Htf]. intros a. by rewrite Hcoins.
    + rewrite <- (Z.sub_0_r (supply ThetaWei view addrs)).
      eapply supply_after; [done|exact Hia|exact Hoa| |by rewrite Z.add_0_r]. intros a. by rewrite Hcoins.
  - intros Hsol a. rewrite Hcoins. specialize (Hsol a) as [Hs1 Hs2']. cbn in Hs1, Hs2'.
    assert (Hrec : 0 <= received ThetaWei (Outputs tx) a /\ 0 <= received TFuelWei (Outputs tx) a).
    { rewrite Forall_forall in Ho. split; apply sumZ_nonneg; intros o Hoo; case_decide; try lia; apply (Ho o Hoo). }
    assert (Hpay : paid ThetaWei (Inputs tx) a <= ThetaWei (coins_of view a) /\
                   paid TFuelWei (Inputs tx) a <= TFuelWei (coins_of view a)).
    { destruct (decide (a ∈ InAddress <$> Inputs tx)) as [Ha|Ha]; [|rewrite !paid_other by done; lia].
      apply list_elem_of_fmap in Ha as (i & -> & Hii). rewrite !(paid_by _ _ i) by done.
      rewrite Forall_forall in Hf. by apply Hf. }
    split; cbn; lia.
Qed.

(** ** Validator set updates *)

Lemma install_validators_ok view vs l : view_inv view ->
  exists view', install_validators view vs l = Ok (view', AddValidators vs l) /\ view_inv view' /\
    same_validators view view' /\ (forall a, coins_of view' a = coins_of view a /\ GetNonce view' a = GetNonce view a) /\
    (forall a acc, GetAccount view a = Some acc -> GetAccount view' a = Some acc) /\
    (forall v, v ∈ l -> is_Some (GetAccount view' (VAddress v))).
Proof.
  revert view vs. induction l as [|v l IH]; intros view vs Hi; cbn [install_validators].
  { exists view. split_and!; try done. by intros v ?%elem_of_nil. }
  destruct (GetAccount view (VAddress v)) as [acc|] eqn:Ha; cbn [mbind outcome_bind].
  - destruct (IH view (AddValidator vs v) Hi) as (v' & Hp & Hi' & Hs & Hc & Hk & Hl).
    exists v'. split_and!; try done. intros w [->|Hw]%elem_of_cons; [|by apply Hl]. exists acc. by apply Hk.
  - set (acc := set_height _ _).
    assert (Hr : root_known (storages view) (AccRoot acc)) by exact (known_new (storages view) (VAddress v)).
    destruct (write_account view ∅ (VAddress v) acc Hi) as (v1 & Hset & Hi1 & _ & _ & _ & Hg1 & Hc1 & Hn1); [done..|].
    rewrite Hset. cbn [mbind outcome_bind].
    assert (Hrest : same_validators view v1).
    { destruct (SetAccount_spec view (VAddress v) acc Hi Hr) as (v1' & Hset' & _ & Heq).
      rewrite Hset in Hset'. injection Hset' as <-. rewrite Heq. by split_and!. }
    destruct (IH v1 (AddValidator vs v) Hi1) as (v' & Hp & Hi' & Hs & Hc & Hk & Hl).
    exists v'. split_and!; try done.
    + destruct Hrest as (?&?&?&?), Hs as (?&?&?&?). split_and!; congruence.
    + intros a. destruct (Hc a) as [-> ->]. rewrite Hc1, Hn1. unfold coins_of, GetNonce, GetOrCreateAccount.
      case_decide; [subst; by rewrite Ha|done].
    + intros a x Hx. apply Hk. rewrite Hg1. case_decide; [subst; congruence|done].
    + intros w [->|Hw]%elem_of_cons; [|by apply Hl]. exists acc. apply Hk. by rewrite Hg1, decide_True.
Qed.

(** The set an update installs. *)
Definition proposed_set (tx : SubchainValidatorSetUpdateTx) : ValidatorSet :=
  AddValidators (NewValidatorSet (UpDynasty tx)) (UpValidators tx).

Lemma update_process_ok view ctx tx d : view_inv view -> GetDynasty view = Some d ->
  exists p, update_process view ctx tx = Ok p /\ view_inv (PView p) /\ height (PView p) = height view /\
    (forall a, coins_of (PView p) a = coins_of view a /\ GetNonce (PView p) a = GetNonce view a) /\
    (PResult p = TxOK <->
       subchainValidatorSetTransactinProcessed view = false /\ d < UpDynasty tx /\
       exists w, GetValidatorSetByDynasty ctx (UpDynasty tx) = Some w /\ ValidatorSet_Equals (proposed_set tx) w = true) /\
    (PResult p = TxOK -> StoreView_GetValidatorSet (PView p) = Some (proposed_set tx) /\
       GetValidatorSetForChainDuringDynasty (PView p) (MapChainID (chainID ctx)) (dynasty (proposed_set tx)) = Some (proposed_set tx) /\
       subchainValidatorSetTransactinProcessed (PView p) = true /\
       (forall v, v ∈ UpValidators tx -> is_Some (GetAccount (PView p) (VAddress v)))) /\
    (PResult p <> TxOK -> StoreView_GetValidatorSet (PView p) = StoreView_GetValidatorSet view).
Proof.
  intros Hi Hd. unfold update_process. destruct (subchainValidatorSetTransactinProcessed view) eqn:Hf.
  { eexists. split; [reflexivity|]. split_and!; try done. cbn. split; [done|by intros [? _]]. }
  destruct (install_validators_ok view (NewValidatorSet (UpDynasty tx)) (UpValidators tx) Hi)
    as (v1 & -> & Hi1 & (Hh1 & Hv1 & _ & _) & Hc1 & _ & Hl1). cbn [mbind outcome_bind].
  fold (proposed_set tx). assert (Hd1 : GetDynasty v1 = Some d) by (unfold GetDynasty in *; by rewrite Hv1).
  rewrite Hd1. destruct (Z.leb_spec (UpDynasty tx) d) as [Hle|Hlt].
  { eexists. split; [reflexivity|]. split_and!; try done. cbn. split; [done|]. intros (_ & ? & _). lia. }
  destruct (GetValidatorSetByDynasty ctx (UpDynasty tx)) as [w|] eqn:Hw.
  2:{ eexists. split; [reflexivity|]. split_and!; try done. cbn. split; [done|]. by intros (_ & _ & w & ? & _). }
  destruct (ValidatorSet_Equals (proposed_set tx) w) eqn:He; cbn [negb].
  - eexists. split; [reflexivity|]. split; [by apply extends_processed, extends_tree; [|apply Hi1]|]. split; [done|].
    split; [done|]. split; [|split; [|done]].
    + cbn. split; [intros _; split_and!; try done; by exists w|done].
    + intros _. split_and!; try done. unfold GetValidatorSetForChainDuringDynasty. cbn. apply lookup_insert_eq.
  - eexists. split; [reflexivity|]. split_and!; try done. cbn. split; [done|].
    intros (_ & _ & w' & [= <-] & ?). congruence.
Qed.
End Send.

(** ** Intrinsic gas *)

Section Gas.
Context `{TxTypes}.

Lemma nonzero_bytes_le data : 0 <= nonzero_bytes data <= Z.of_nat (String.length data).
Proof.
  unfold nonzero_bytes. split; [lia|]. apply inj_le.
  etrans; [apply List.filter_length_le|]. unfold string_bytes. rewrite length_fmap.
  clear. induction data as [|c data IH]; cbn; lia.
Qed.

(** A guarded multiplication and addition of 64-bit integers. *)
Lemma guarded_add gas n c : is_u64 gas -> 0 <= n -> 0 < c ->
  (if u64_sub MaxUint64 gas / c <? n then None else Some (u64_add gas (u64_mul n c))) =
  (if gas + n * c <? two64 then Some (gas + n * c) else None).
Proof.
  intros Hg Hn Hc. unfold is_u64 in Hg. assert (Hm : MaxUint64 = two64 - 1) by reflexivity.
  rewrite u64_sub_small by (unfold is_u64; lia).
  destruct (Z.ltb_spec ((MaxUint64 - gas) / c) n) as [Hlt|Hge].
  - destruct (Z.ltb_spec (gas + n * c) two64) as [Hs|]; [|done].
    exfalso. assert (Hle : n <= (MaxUint64 - gas) / c) by (apply Z.div_le_lower_bound; lia). lia.
  - assert (Hle : c * ((MaxUint64 - gas) / c) <= MaxUint64 - gas) by (by apply Z.mul_div_le).
    assert (Hnc : n * c <= MaxUint64 - gas) by nia.
    destruct (Z.ltb_spec (gas + n * c) two64) as [Hs|]; [|lia].
    assert (Hmul : u64_mul n c = n * c) by (unfold u64_mul; apply wrap64_small; unfold is_u64; nia).
    rewrite Hmul, u64_add_small by (unfold is_u64; nia). done.
Qed.

Lemma intrinsic_gas data (create : bool) : is_u64 TxGas -> is_u64 TxGasContractCreation ->
  is_u64 (Z.of_nat (String.length data)) ->
  let gas := (if create then TxGasContractCreation else TxGas) + nonzero_bytes data * TxDataNonZeroGas +
             (Z.of_nat (String.length data) - nonzero_bytes data) * TxDataZeroGas in
  CalculateIntrinsicGas data create = if gas <? two64 then Some gas else None.
Proof.
  intros H1 H2 Hlen gas. unfold CalculateIntrinsicGas. destruct data_gas_pos as [Hnz Hz].
  pose proof (nonzero_bytes_le data) as Hle. unfold gas. clear gas.
  set (g := if create then TxGasContractCreation else TxGas).
  assert (Hg : is_u64 g) by (by destruct create). unfold is_u64 in Hlen.
  destruct (Nat.eqb_spec (String.length data) 0) as [H0|_].
  { rewrite H0 in *. assert (nonzero_bytes data = 0) as -> by lia. rewrite !Z.add_0_r.
    unfold is_u64 in Hg. destruct (Z.ltb_spec g two64); [done|lia]. }
  assert (Hsub : u64_sub (Z.of_nat (String.length data)) (nonzero_bytes data) =
    Z.of_nat (String.length data) - nonzero_bytes data) by (apply u64_sub_small; unfold is_u64; lia).
  rewrite Hsub. pose proof (guarded_add g (nonzero_bytes data) TxDataNonZeroGas Hg) as Hstep.
  specialize (Hstep ltac:(lia) Hnz).
  destruct (_ <? nonzero_bytes data).
  - destruct (Z.ltb_spec (g + nonzero_bytes data * TxDataNonZeroGas) two64); [done|].
    destruct (Z.ltb_spec (g + nonzero_bytes data * TxDataNonZeroGas +
      (Z.of_nat (String.length data) - nonzero_bytes data) * TxDataZeroGas) two64); [nia|done].
  - destruct (Z.ltb_spec (g + nonzero_bytes data * TxDataNonZeroGas) two64) as [Hs|]; [|done].
    injection Hstep as Hstep. rewrite Hstep. apply guarded_add; [|lia|done]. unfold is_u64 in *. nia.
Qed.
End Gas.

(** ** Smart contract transactions *)

Section ContractSpec.
Context `{ThetaTypes} `{TrieHash} `{TxTypes} `{!EVM}.
Implicit Types (view : StoreView) (ctx : ExecContext).

Lemma Execute_steps info tx view ret addr gasUsed err view' : view_inv view ->
  Execute info tx view = Ok (ret, addr, gasUsed, err, view') ->
  rtc view_step view view' /\ same_validators view view'.
Proof.
  intros Hi He. unfold Execute in He.
  assert (Hrefl : rtc view_step view view /\ same_validators view view) by (by split_and!).
  destruct (_ <? GasLimit tx); [by injection He as <- <- <- <- <-|].
  destruct (CalculateIntrinsicGas _ _) as [ig|] eqn:Hig; [|by injection He as <- <- <- <- <-].
  destruct (GasLimit tx <? ig); [by injection He as <- <- <- <- <-|].
  apply bind_ok in He as ([[[[ret' addr'] left] err'] v'] & Hrun & [= <- <- <- <- <-]).
  destruct (Z.eqb (OutAddress (To tx)) 0).
  - by apply exec_Create_ok in Hrun as (? & ? & _); [|done|apply wrap64_range].
  - apply bind_ok in Hrun as ([[[ret2 left2] err2] v2] & Hcall & [= <- <- <- <- <-]).
    by apply exec_Call_ok in Hcall as (? & ? & _); [|done|apply wrap64_range].
Qed.

Lemma Execute_gas info tx view ret addr gasUsed err view' : view_inv view ->
  Execute info tx view = Ok (ret, addr, gasUsed, err, view') -> is_u64 (GasLimit tx) -> is_u64 TxGas ->
  is_u64 TxGasContractCreation -> is_u64 (Z.of_nat (String.length (Data tx))) ->
  0 <= gasUsed <= GasLimit tx.
Proof.
  intros Hi He Hg Hb1 Hb2 Hlen. unfold Execute in He. unfold is_u64 in Hg.
  destruct (_ <? GasLimit tx); [injection He as <- <- <- <- <-; lia|].
  destruct (CalculateIntrinsicGas _ _) as [ig|] eqn:Hig; [|injection He as <- <- <- <- <-; lia].
  destruct (Z.ltb_spec (GasLimit tx) ig) as [|Hle]; [injection He as <- <- <- <- <-; lia|].
  assert (Higpos : 0 <= ig).
  { rewrite intrinsic_gas in Hig by done. destruct (_ <? _); [|done]. injection Hig as <-.
    pose proof (nonzero_bytes_le (Data tx)). destruct data_gas_pos. unfold is_u64 in *. destruct (Z.eqb _ 0); nia. }
  rewrite u64_sub_small in He by (unfold is_u64; lia).
  apply bind_ok in He as ([[[[ret' addr'] left] err'] v'] & Hrun & He).
  assert (Hok : 0 <= left <= GasLimit tx - ig).
  { destruct (Z.eqb (OutAddress (To tx)) 0).
    - by apply exec_Create_ok in Hrun as (_ & _ & Hl); [|done|unfold is_u64; lia].
    - apply bind_ok in Hrun as ([[[ret2 left2] err2] v2] & Hcall & [= <- <- <- <- <-]).
      by apply exec_Call_ok in Hcall as (_ & _ & Hl); [|done|unfold is_u64; lia]. }
  injection He as <- <- <- <- <-. destruct (Z.ltb_spec (GasLimit tx) left); [lia|].
  rewrite u64_sub_small by (unfold is_u64; lia). lia.
Qed.

Lemma getInput_ok view i acc : getInput view i = Ok acc <->
  is_Some (GetAccount view (InAddress i)) /\ acc = loaded view (InAddress i).
Proof.
  unfold getInput, getOrMakeInputImpl. rewrite <- getAccount_ok. unfold getAccount.
  by destruct (getOrMakeAccountImpl view (InAddress i) false).
Qed.

Lemma getInput_panic view i msg : getInput view i <> Panic msg.
Proof. unfold getInput, getOrMakeInputImpl, getOrMakeAccountImpl. by destruct (GetAccount view (InAddress i)). Qed.

(** The fee of a contract call, given the outcome of its execution. *)
Lemma contract_process_ok view ctx sel tx ret addr gasUsed err view1 :
  view_inv view -> Execute (mkBlockInfo (parentHeight ctx) (parentTimestamp ctx) (parentChainID ctx)) tx
    (ResetBalanceChanges (ResetLogs view)) = Ok (ret, addr, gasUsed, err, view1) -> view_inv view1 ->
  let from := InAddress (From tx) in
  let fee := mkCoins 0 (GasPrice tx * gasUsed) in
  exists p, contract_process view ctx sel tx = Ok p /\ view_inv (PView p) /\ same_validators view1 (PView p) /\
    (PResult p = TxOK <-> is_Some (GetAccount view1 from) /\ coins_le fee (coins_of view1 from)) /\
    (PResult p <> TxOK -> PView p = view1 /\ PReceipts p = []) /\
    (PResult p = TxOK ->
       (forall a, coins_of (PView p) a = if decide (from = a) then coins_minus (coins_of view1 a) fee else coins_of view1 a) /\
       (forall a, GetNonce (PView p) a =
          if decide (from = a /\ OutAddress (To tx) <> 0) then u64_add (GetNonce view1 a) 1 else GetNonce view1 a) /\
       PReceipts p = match sel with
         | DeliveredView => [mkReceipt (match err with Some _ => [] | None => logs view1 end)
             (match err with Some _ => [] | None => balanceChanges view1 end) ret addr gasUsed err]
         | _ => [] end).
Proof.
  intros Hi He Hi1 from fee. unfold contract_process. rewrite He. cbn [mbind outcome_bind].
  destruct (getInput view1 (From tx)) as [acc|msg|msg] eqn:Hin.
  - apply getInput_ok in Hin as [Hs ->]. fold from in Hs |- *.
    destruct (loaded_spec view1 from Hi1) as (_ & Hb & Hn & Hr).
    unfold chargeFee. fold fee. rewrite Hb. destruct (IsGTE (coins_of view1 from) fee) eqn:Hge; cbn [negb].
    + apply IsGTE_spec in Hge. set (acc := if Z.eqb _ 0 then _ else _).
      assert (Hracc : root_known (storages view1) (AccRoot acc)) by (unfold acc; by destruct (Z.eqb _ 0)).
      destruct (SetAccount_spec view1 from acc Hi1 Hracc) as (v2' & Hset' & _ & Heq2).
      destruct (write_account view1 ∅ from acc Hi1) as (v2 & Hset & Hi2 & _ & _ & _ & _ & Hc2 & Hn2); [done..|].
      rewrite Hset. cbn [mbind outcome_bind PopLogs PopBalanceChanges]. rewrite Hset in Hset'. injection Hset' as <-.
      destruct err as [e|]; (eexists; split; [reflexivity|]); cbn [PView PResult PReceipts];
        (split; [by do 2 apply extends_scratch|]; split; [rewrite Heq2; by split_and!|]; split; [done|];
         split; [done|]; intros _; split_and!; [| |destruct sel; rewrite ?Heq2; done]).
      1,3: intros a; change (coins_of (ResetBalanceChanges (ResetLogs v2)) a) with (coins_of v2 a); rewrite Hc2;
        destruct (decide (from = a)) as [<-|]; [|done]; unfold acc; destruct (Z.eqb _ 0); cbn; by rewrite Minus_spec.
      1,2: intros a; change (GetNonce (ResetBalanceChanges (ResetLogs v2)) a) with (GetNonce v2 a); rewrite Hn2;
        unfold acc; destruct (Z.eqb_spec (OutAddress (To tx)) 0) as [Hz|Hz];
        (destruct (decide (from = a)) as [<-|]; [|by rewrite decide_False by (by intros [? ?])]);
        [rewrite decide_False by (by intros [_ ?]); done|rewrite decide_True by done; cbn; by rewrite Hn].
    + eexists. split; [reflexivity|]. split_and!; try done. cbn. split; [done|].
      intros [_ Hle%IsGTE_spec]. congruence.
  - eexists. split; [reflexivity|]. split_and!; try done. cbn. split; [done|]. intros [Hs _].
    assert (Hok : getInput view1 (From tx) = Ok (loaded view1 (InAddress (From tx)))) by (by apply getInput_ok).
    congruence.
  - by apply getInput_panic in Hin.
Qed.
End ContractSpec.

(** ** A concrete instance *)

#[export] Instance plain_txs : TxTypes.
Proof.
  refine {|
    input_ValidateBasic i := (0 <=? ThetaWei (InCoins i)) && (0 <=? TFuelWei (InCoins i));
    output_ValidateBasic o := (0 <=? ThetaWei (OutCoins o)) && (0 <=? TFuelWei (OutCoins o));
    SignBytes chainID tx := chainID;
    TxID chainID tx := 1;
    Verify sig bytes addr := String.eqb sig "signed";
    ChangeEthereumTxWrapper b := b;
    ValidEthSignature c h tx := false;
    Keccak256 b := b;
    MapChainID c := Z.of_nat (String.length c);
    MaxAccountsAffectedPerTx := 512;
    GetSendTxMinimumTransactionFeeTFuelWei n h := 5 * n;
    GetMaxGasLimit h := 20000000;
    HeightEnableSmartContract := 0;
    HeightEnableTheta3 := 0;
    HeightTxWrapperExtension := 0;
    HeightRPCCompatibility := 0;
    HeightJune2021FeeAdjustment := 0;
    GasRegularTx := 10000;
    GasRegularTxJune2021 := 75000;
    TxGas := 21000;
    TxGasContractCreation := 53000;
    TxDataNonZeroGas := 68;
    TxDataZeroGas := 4
  |}; [|done].
  intros o Ho. by rewrite andb_true_iff, !Z.leb_le in Ho.
Defined.

(** A machine whose contracts do nothing and use half of the gas. *)
#[export] Instance idle_evm : EVM.
Proof.
  refine {|
    exec_Call c caller addr input gas value view := Ok ("", gas / 2, None, view);
    exec_Create c caller code gas value view := Ok ("", 77, gas / 2, None, view)
  |}.
  - intros ? ? ? ? gas ? ? ? ? ? ? _ [Hg _] [= <- <- <- <-]. split; [done|]. split; [done|]. split; [by apply Z.div_pos|].
    apply Z.div_le_upper_bound; lia.
  - intros ? ? ? gas ? ? ? ? ? ? ? _ [Hg _] [= <- <- <- <- <-]. split; [done|]. split; [done|]. split; [by apply Z.div_pos|].
    apply Z.div_le_upper_bound; lia.
Defined.

Definition demo_account (a : Address) (n : Z) : Account := mkAccount a 3 (mkCoins 0 n) 0 0 7.
Definition demo_set : ValidatorSet := mkValidatorSet 4 [mkValidator 9 100].
Definition demo_view : StoreView :=
  mkStoreView 5 (mkTree {[1 := demo_account 1 100; 2 := demo_account 2 50]} ∅ (Some demo_set) ∅ None
                   (Some 11) (Some 12) (Some 13) (Some 14)) ∅ ∅ false false 0 [] [].

Lemma demo_view_inv : view_inv demo_view.
Proof.
  split_and!; [apply map_Forall_empty..|]. unfold tree_known. cbn.
  apply map_Forall_insert_2; [by left|]. apply map_Forall_singleton. by left.
Qed.

Definition demo_ctx : ExecContext :=
  mkExecContext "tsub" 5 None (fun _ => demo_set)
    (fun d => if Z.eqb d 5 then Some (mkValidatorSet 5 [mkValidator 3 7; mkValidator 9 100]) else None)
    (fun _ => Some 11) 5 1000 "tsub".

(** Account 1 sends 60 of its coins to account 2 and 30 to a new account. *)
Definition demo_send : SendTx :=
  mkSendTx (mkCoins 0 15) [mkTxInput 1 (mkCoins 0 100) 4 "signed"]
    [mkTxOutput 2 (mkCoins 0 60); mkTxOutput 6 (mkCoins 0 25)].

Definition demo_update : SubchainValidatorSetUpdateTx :=
  mkValidatorSetUpdateTx (mkTxInput 9 (mkCoins 0 0) 1 "signed") 5 [mkValidator 9 100; mkValidator 3 7].

Definition demo_call : SmartContractTx :=
  mkSmartContractTx (mkTxInput 1 (mkCoins 0 0) 4 "signed") (mkTxOutput 2 (mkCoins 0 0)) 22000 0 "".

(** ** Properties *)

(** C5 (send transactions). A send transaction that passes the sanity check is
    processed without panic: each input pays its coins and moves its sequence
    number to the one of the transaction, each output receives its coins,
    other accounts stay, the coins of the accounts involved drop by exactly
    the fee, no balance becomes negative, and the transaction cannot be
    replayed on the resulting state. *)
Theorem send_spec `{ThetaTypes} `{TrieHash} `{TxTypes} view ctx tx :
  view_inv view -> send_sanityCheck view ctx tx = Ok tt ->
  exists view', send_process view ctx tx = Ok (mkProcessed (TxID (chainID ctx) (TxSend tx)) TxOK view' []) /\
    view_inv view' /\
    (forall i, i ∈ Inputs tx -> coins_of view' (InAddress i) = coins_minus (coins_of view (InAddress i)) (InCoins i) /\
       GetNonce view' (InAddress i) = InSequence i) /\
    (forall o, o ∈ Outputs tx -> coins_of view' (OutAddress o) = Plus (coins_of view (OutAddress o)) (OutCoins o) /\
       GetNonce view' (OutAddress o) = GetNonce view (OutAddress o)) /\
    (forall a, (a ∉ InAddress <$> Inputs tx) -> (a ∉ OutAddress <$> Outputs tx) -> GetAccount view' a = GetAccount view a) /\
    (forall addrs, NoDup addrs -> (forall i, i ∈ Inputs tx -> InAddress i ∈ addrs) ->
       (forall o, o ∈ Outputs tx -> OutAddress o ∈ addrs) ->
       supply TFuelWei view' addrs = supply TFuelWei view addrs - TFuelWei (SendFee tx) /\
       supply ThetaWei view' addrs = supply ThetaWei view addrs) /\
    (solvent view -> solvent view') /\
    (forall ctx', send_sanityCheck view' ctx' tx <> Ok tt).
Proof.
  intros Hi Hc. destruct (send_ok view ctx tx Hi Hc) as (view' & Hp & Hi' & _ & Hin & Hout & Hg & Hsup & Hsol).
  exists view'. split_and!; try done. intros ctx' Hc'.
  destruct (send_sanityCheck_ok view' ctx' tx Hi' Hc') as (_ & _ & _ & _ & _ & _ & Hf & _ & Hne & _).
  destruct (Inputs tx) as [|i ins]; [done|]. apply Forall_cons in Hf as [[Hseq _] _].
  rewrite (proj2 (Hin i ltac:(by left))) in Hseq. by apply u64_succ_neq in Hseq.
Qed.

Lemma send_spec_witness :
  exists view', send_process demo_view demo_ctx demo_send = Ok (mkProcessed 1 TxOK view' []) /\
    coins_of view' 1 = mkCoins 0 0 /\ coins_of view' 6 = mkCoins 0 25.
Proof.
  destruct (send_spec demo_view demo_ctx demo_send demo_view_inv) as (view' & Hp & _ & Hin & Hout & _).
  - vm_compute. reflexivity.
  - exists view'. split; [exact Hp|]. split.
    + etrans; [exact (proj1 (Hin (mkTxInput 1 (mkCoins 0 100) 4 "signed") ltac:(left)))|reflexivity].
    + etrans; [exact (proj1 (Hout (mkTxOutput 6 (mkCoins 0 25)) ltac:(right; left)))|reflexivity].
Defined.

(** C32 (validator set updates). In a state with a dynasty, an update is
    accepted exactly when it is the first of its block, its dynasty is larger
    than the current one and its set equals the one witnessed on the main
    chain for that dynasty; then the set is installed for the chain and its
    dynasty and the validators have accounts.  Otherwise the validator set
    stays.  No balance or sequence number changes. *)
Theorem validator_update_spec `{ThetaTypes} `{TrieHash} `{TxTypes} view ctx tx d :
  view_inv view -> GetDynasty view = Some d ->
  exists p, update_process view ctx tx = Ok p /\ view_inv (PView p) /\
    (forall a, coins_of (PView p) a = coins_of view a /\ GetNonce (PView p) a = GetNonce view a) /\
    (PResult p = TxOK <->
       subchainValidatorSetTransactinProcessed view = false /\ d < UpDynasty tx /\
       exists w, GetValidatorSetByDynasty ctx (UpDynasty tx) = Some w /\ ValidatorSet_Equals (proposed_set tx) w = true) /\
    (PResult p = TxOK -> StoreView_GetValidatorSet (PView p) = Some (proposed_set tx) /\
       GetValidatorSetForChainDuringDynasty (PView p) (MapChainID (chainID ctx)) (dynasty (proposed_set tx)) = Some (proposed_set tx) /\
       subchainValidatorSetTransactinProcessed (PView p) = true /\
       (forall v, v ∈ UpValidators tx -> is_Some (GetAccount (PView p) (VAddress v)))) /\
    (PResult p <> TxOK -> StoreView_GetValidatorSet (PView p) = StoreView_GetValidatorSet view).
Proof.
  intros Hi Hd. destruct (update_process_ok view ctx tx d Hi Hd) as (p & Hp & Hi' & _ & Hrest). by exists p.
Qed.

Lemma validator_update_spec_witness :
  exists p, update_process demo_view demo_ctx demo_update = Ok p /\ PResult p = TxOK /\
    StoreView_GetValidatorSet (PView p) = Some (mkValidatorSet 5 [mkValidator 3 7; mkValidator 9 100]).
Proof.
  destruct (validator_update_spec demo_view demo_ctx demo_update 4 demo_view_inv)
    as (p & Hp & _ & _ & Hiff & Hok & _); [reflexivity|].
  assert (Hr : PResult p = TxOK).
  { apply Hiff. split_and!; [reflexivity|reflexivity|]. eexists. split; reflexivity. }
  exists p. split; [exact Hp|]. split; [exact Hr|]. rewrite (proj1 (Hok Hr)). reflexivity.
Defined.

(** (contract fees). After the virtual machine has run, a contract
    transaction succeeds exactly when the sender still has the coins for the
    gas used, which is at most the gas limit; it charges the sender exactly
    gas price times gas used, moves its sequence number for a call, and
    records a receipt for the delivered view only, without events when the
    machine reported an error.  If it fails, the changes of the machine stay
    in the view. *)
Theorem contract_spec `{ThetaTypes} `{TrieHash} `{TxTypes} `{!EVM} view ctx sel tx ret addr gasUsed err view1 :
  view_inv view ->
  is_u64 (GasLimit tx) -> is_u64 TxGas -> is_u64 TxGasContractCreation ->
  is_u64 (Z.of_nat (String.length (Data tx))) ->
  Execute (mkBlockInfo (parentHeight ctx) (parentTimestamp ctx) (parentChainID ctx)) tx
    (ResetBalanceChanges (ResetLogs view)) = Ok (ret, addr, gasUsed, err, view1) ->
  let from := InAddress (From tx) in
  let fee := mkCoins 0 (GasPrice tx * gasUsed) in
  0 <= gasUsed <= GasLimit tx /\
  exists p, contract_process view ctx sel tx = Ok p /\ view_inv (PView p) /\
    (PResult p = TxOK <-> is_Some (GetAccount view1 from) /\ coins_le fee (coins_of view1 from)) /\
    (PResult p <> TxOK -> PView p = view1 /\ PReceipts p = []) /\
    (PResult p = TxOK ->
       (forall a, coins_of (PView p) a = if decide (from = a) then coins_minus (coins_of view1 a) fee else coins_of view1 a) /\
       (forall a, GetNonce (PView p) a =
          if decide (from = a /\ OutAddress (To tx) <> 0) then u64_add (GetNonce view1 a) 1 else GetNonce view1 a) /\
       PReceipts p = match sel with
         | DeliveredView => [mkReceipt (match err with Some _ => [] | None => logs view1 end)
             (match err with Some _ => [] | None => balanceChanges view1 end) ret addr gasUsed err]
         | _ => [] end).
Proof.
  intros Hi Hg Hb1 Hb2 Hl He from fee.
  assert (Hi0 : view_inv (ResetBalanceChanges (ResetLogs view))) by (by do 2 apply extends_scratch).
  destruct (Execute_steps _ tx _ ret addr gasUsed err view1 Hi0 He) as (Hs & _).
  split; [exact (Execute_gas _ tx _ ret addr gasUsed err view1 Hi0 He Hg Hb1 Hb2 Hl)|].
  destruct (contract_process_ok view ctx sel tx ret addr gasUsed err view1 Hi He) as (p & Hp & Hi' & _ & Hrest).
  - by eapply steps_extend.
  - by exists p.
Qed.

Lemma contract_spec_witness :
  exists p, contract_process demo_view demo_ctx DeliveredView demo_call = Ok p /\ PResult p = TxOK /\
    GetNonce (PView p) 1 = 4.
Proof.
  assert (He : exists v, Execute (mkBlockInfo 5 1000 "tsub") demo_call
    (ResetBalanceChanges (ResetLogs demo_view)) = Ok ("", 2, 21500, None, v) /\ v = ResetBalanceChanges (ResetLogs demo_view))
    by (eexists; split; reflexivity).
  destruct He as (v & He & ->).
  destruct (contract_spec demo_view demo_ctx DeliveredView demo_call "" 2 21500 None
    (ResetBalanceChanges (ResetLogs demo_view)) demo_view_inv) as
    (_ & p & Hp & _ & Hiff & _ & Hok); [done|done|done|done|exact He|].
  assert (Hr : PResult p = TxOK) by (apply Hiff; split; [by eexists|done]).
  exists p. split; [exact Hp|]. split; [exact Hr|]. destruct (Hok Hr) as (_ & Hn & _). rewrite Hn. reflexivity.
Defined.

(** (intrinsic gas). The guarded 64-bit computation of the intrinsic gas is
    exact: it returns the price of the bytes added to the base, and fails
    exactly when that does not fit in 64 bits. *)
Theorem intrinsic_gas_spec `{TxTypes} data (create : bool) :
  is_u64 TxGas -> is_u64 TxGasContractCreation -> is_u64 (Z.of_nat (String.length data)) ->
  let gas := (if create then TxGasContractCreation else TxGas) + nonzero_bytes data * TxDataNonZeroGas +
             (Z.of_nat (String.length data) - nonzero_bytes data) * TxDataZeroGas in
  CalculateIntrinsicGas data create = if gas <? two64 then Some gas else None.
Proof. apply intrinsic_gas. Qed.

Lemma intrinsic_gas_spec_witness : CalculateIntrinsicGas "abc" true = Some 53204.
Proof. rewrite intrinsic_gas_spec; [reflexivity|done|done|done]. Defined.

(** A rejected update of an earlier dynasty still creates the accounts of its
    validators in the view. *)
Lemma rejected_update_changes_view :
  exists p, update_process demo_view demo_ctx (mkValidatorSetUpdateTx (mkTxInput 9 (mkCoins 0 0) 1 "signed") 4 [mkValidator 3 7]) = Ok p /\
    tx_is_error (PResult p) = true /\ GetAccount demo_view 3 = None /\ is_Some (GetAccount (PView p) 3).
Proof. eexists. split; [reflexivity|]. split; [reflexivity|]. split; [reflexivity|]. eexists. reflexivity. Qed.
