(* ===== verification/Ledger.v ===== *)
(** * The ledger (src/ledger/ledger.go, src/ledger/state/state.go and
    src/ledger/types/tx.go)

    The ledger state holds the database of committed trees and four views:
    finalized, delivered, checked and screened.  Blocks are proposed on the
    checked view and applied on the delivered one.  The views share the trie
    database; since it maps hashes to the trees they identify and only grows,
    each view carries the part of it that it can reach.  Locks are not
    modelled: every operation is atomic.  The update of the mempool after a
    block runs later, in a goroutine of its own. *)

From Stdlib Require Import Ascii.
From stdpp Require Import gmap sorting relations.
From stdpp Require Import base list numbers strings.
From S2P Require Import Prelude Vote Validator Block Chain Bookkeeper Mempool StoreView Execution.
Local Open Scope string_scope.
Local Open Scope list_scope.
Local Open Scope Z_scope.

(** ** Transactions as bytes (src/ledger/types/tx.go)

    RLP belongs to theta: encoders may fail, and decoders invert them. *)

Class TxCodec := {
  TypeCoinbase : Z;
  TypeSend : Z;
  TypeSmartContract : Z;
  encode_type : Z -> Bytes;
  decode_type : Bytes -> option (Z * Bytes);
  encode_coinbase : CoinbaseTx -> option Bytes;
  decode_coinbase : Bytes -> option CoinbaseTx;
  encode_send : SendTx -> option Bytes;
  decode_send : Bytes -> option SendTx;
  encode_contract : SmartContractTx -> option Bytes;
  decode_contract : Bytes -> option SmartContractTx;
  encode_update : SubchainValidatorSetUpdateTx -> option Bytes;
  decode_update : Bytes -> option SubchainValidatorSetUpdateTx;
  types_distinct : NoDup [TypeCoinbase; TypeSend; TypeSmartContract; 201];
  type_roundtrip n b : decode_type (encode_type n +:+ b) = Some (n, b);
  coinbase_roundtrip tx b : encode_coinbase tx = Some b -> decode_coinbase b = Some tx;
  send_roundtrip tx b : encode_send tx = Some b -> decode_send b = Some tx;
  contract_roundtrip tx b : encode_contract tx = Some b -> decode_contract b = Some tx;
  update_roundtrip tx b : encode_update tx = Some b -> decode_update b = Some tx
}.

Definition TxSubchainValidatorSetUpdate : Z := 201.

Section Codec.
Context `{TxCodec}.

Definition TxToBytes (t : Tx) : option Bytes :=
  match t with
  | TxCoinbase tx => b ← encode_coinbase tx; Some (encode_type TypeCoinbase +:+ b)
  | TxSend tx => b ← encode_send tx; Some (encode_type TypeSend +:+ b)
  | TxSmartContract tx => b ← encode_contract tx; Some (encode_type TypeSmartContract +:+ b)
  | TxValidatorSetUpdate tx => b ← encode_update tx; Some (encode_type TxSubchainValidatorSetUpdate +:+ b)
  | _ => None
  end.

Definition TxFromBytes (raw : Bytes) : option Tx :=
  '(txType, b) ← decode_type raw;
  if Z.eqb txType TypeCoinbase then TxCoinbase <$> decode_coinbase b
  else if Z.eqb txType TypeSend then TxSend <$> decode_send b
  else if Z.eqb txType TypeSmartContract then TxSmartContract <$> decode_contract b
  else if Z.eqb txType TxSubchainValidatorSetUpdate then TxValidatorSetUpdate <$> decode_update b
  else None.
End Codec.

(** ** The ledger state (state.go) *)

Record LedgerState := mkLedgerState {
  db_trees : gmap Hash Tree;
  db_storages : gmap Hash (gmap Z Z);
  parentBlock : Block.Block;
  finalized : StoreView;
  delivered : StoreView;
  checked : StoreView;
  screened : StoreView
}.

Section State.
Context `{ThetaTypes} `{TrieHash}.
Implicit Types (s : LedgerState).

(** The fresh copies of the delivered view. *)
Definition with_delivered s (pb : Block.Block) (v : StoreView) : LedgerState :=
  let (v, c) := StoreView_Copy v in
  let (v, sc) := StoreView_Copy v in
  mkLedgerState (db_trees s) (db_storages s) pb (finalized s) v c sc.

Definition with_parent s (pb : Block.Block) : LedgerState :=
  mkLedgerState (db_trees s) (db_storages s) pb (finalized s) (delivered s) (checked s) (screened s).

Definition State_ResetState s (block : Block.Block) : TxResult * LedgerState :=
  match NewStoreView (BHeight (Header block)) (StateHash (Header block)) (db_trees s) (db_storages s) with
  | None => (TxError "Failed to set ledger state with state root hash", with_parent s block)
  | Some storeview => (TxOK, with_delivered s block storeview)
  end.

Definition Finalize s (h : uint64) (stateRootHash : Hash) : TxResult * LedgerState :=
  match NewStoreView h stateRootHash (db_trees s) (db_storages s) with
  | None => (TxError "Failed to finalize ledger state with state root hash", s)
  | Some storeview =>
    (TxOK, mkLedgerState (db_trees s) (db_storages s) (parentBlock s) storeview (delivered s) (checked s) (screened s))
  end.

Definition Commit s : Hash * LedgerState :=
  let v := delivered s in
  let hash := tree_root (tree v) in
  let s := mkLedgerState (<[hash := tree v]> (db_trees s)) (storages v ∪ db_storages s) (parentBlock s)
             (finalized s) v (checked s) (screened s) in
  (hash, with_delivered s (parentBlock s) (IncrementHeight (Save v).2)).
End State.

(** ** The ledger (ledger.go) *)

Definition MaxNumRegularTxsPerBlock : Z := 1024.
Definition NumMainchainBlocksPerDynasty : Z := 10000.
Definition CalculateDynasty (mainchainHeight : Z) : Z := mainchainHeight / NumMainchainBlocksPerDynasty.

(** The surroundings of a ledger: its chain identifier, the validator manager,
    the witness of the main chain, the token banks, the signing key, and the
    encodings of balance changes and logs in receipts. *)
Record LedgerEnv := mkLedgerEnv {
  LChainID : string;
  valMgr_GetNextValidatorSet : Hash -> ValidatorSet;
  valMgr_GetNextProposer : Hash -> uint64 -> Validator;
  witness_GetMainchainBlockHeight : option Z;
  witness_GetValidatorSetByDynasty : Z -> option ValidatorSet;
  token_bank : CrossChainTokenType -> option Address;
  PrivateKey_Sign : Bytes -> option Signature;
  change_bytes : BalanceChange -> Bytes;
  log_bytes : Log -> Bytes
}.

Section Ledger.
Context `{ThetaTypes} `{TrieHash} `{TxTypes} `{!EVM} `{TxCodec} `{BlockCrypto}.
Context {S : Type} `{!Store S} (le : LedgerEnv).
Implicit Types (s : LedgerState) (ch : Chain S) (block : Block.Block).

(** The context of the executor while [block] is processed. *)
Definition exec_context s (block : option Block.Block) : ExecContext :=
  mkExecContext (LChainID le) (height (delivered s)) block (valMgr_GetNextValidatorSet le)
    (witness_GetValidatorSetByDynasty le) (token_bank le)
    (BHeight (Header (parentBlock s))) (default 0 (Timestamp (Header (parentBlock s))))
    (ChainID (Header (parentBlock s))).

(** [AddTxReceipt] for the receipts of a transaction. *)
Fixpoint add_receipts ch (block : Block.Block) (rawTx : Bytes) (l : list Receipt) : outcome (Chain S) :=
  match l with
  | [] => Ok ch
  | r :: l' =>
    ch ← AddTxReceipt ch (Some block) rawTx (log_bytes le <$> RcLogs r) (change_bytes le <$> RcBalanceChanges r) (RcEvmRet r)
           (RcContractAddr r) (RcGasUsed r) (RcEvmErr r);
    add_receipts ch block rawTx l'
  end.

(** The loop of [ApplyBlockTxs] on the delivered view: [None] is the end of the
    loop, [Some] an early return. *)
Fixpoint apply_loop (ctx : ExecContext) (v : StoreView) ch block (txs : list Bytes)
    : outcome (option TxResult * StoreView * Chain S) :=
  match txs with
  | [] => Ok (None, v, ch)
  | rawTx :: txs' =>
    match TxFromBytes rawTx with
    | None => Ok (Some (TxError "Failed to parse transaction"), v, ch)
    | Some tx =>
      p ← processTx false v ctx DeliveredView tx;
      ch ← add_receipts ch block rawTx (PReceipts p);
      match PResult p with
      | TxOK => apply_loop ctx (PView p) ch block txs'
      | r => Ok (Some r, PView p, ch)
      end
    end
  end.

(** Stake transactions set [hasValidatorUpdate]; [TxFromBytes] decodes none. *)
Definition sets_validator_update (tx : Tx) : bool := 
  match tx with TxDepositStake p | TxWithdrawStake p => p | _ => false end.
Definition has_validator_update (txs : list Bytes) : bool :=
  existsb (fun raw => match TxFromBytes raw with Some tx => sets_validator_update tx | None => false end) txs.

Definition set_delivered s (v : StoreView) : LedgerState :=
  mkLedgerState (db_trees s) (db_storages s) (parentBlock s) (finalized s) v (checked s) (screened s).
Definition set_checked s (v : StoreView) : LedgerState :=
  mkLedgerState (db_trees s) (db_storages s) (parentBlock s) (finalized s) (delivered s) v (screened s).
Definition set_screened s (v : StoreView) : LedgerState :=
  mkLedgerState (db_trees s) (db_storages s) (parentBlock s) (finalized s) (delivered s) (checked s) v.

(** The result, the [hasValidatorUpdate] entry, the state and the chain. *)
Definition ApplyBlockTxs s ch block : outcome (TxResult * bool * LedgerState * Chain S) :=
  match findBlock ch (Parent (Header block)) with
  | None => Panic "Failed to find the parent block"
  | Some extParentBlock =>
    let parent := EBlock extParentBlock in
    '(early, v, ch) ← apply_loop (exec_context s (Some block)) (delivered s) ch block (Txs block);
    let s := set_delivered s v in
    match early with
    | Some r => Ok (r, false, (State_ResetState s parent).2, ch)
    | None =>
      if negb (Z.eqb (StoreView_Hash v) (StateHash (Header block)))
      then Ok (TxError "State root mismatch!", false, (State_ResetState s parent).2, ch)
      else Ok (TxOK, has_validator_update (Txs block), (Commit s).2, ch)
    end
  end.

Definition ApplyBlockTxsForChainCorrection s ch block : outcome (Hash * TxResult * LedgerState * Chain S) :=
  match findBlock ch (Parent (Header block)) with
  | None => Panic "Failed to find the parent block"
  | Some extParentBlock =>
    let parent := EBlock extParentBlock in
    '(early, v, ch) ← apply_loop (exec_context s (Some block)) (delivered s) ch block (Txs block);
    let s := set_delivered s v in
    match early with
    | Some r => Ok (0, r, (State_ResetState s parent).2, ch)
    | None => let s := (Commit s).2 in Ok (StoreView_Hash (delivered s), TxOK, s, ch)
    end
  end.

Definition ResetState s block : TxResult * LedgerState := State_ResetState s block.
Definition FinalizeState s (h : uint64) (rootHash : Hash) : TxResult * LedgerState := Finalize s h rootHash.

(** *** Screening *)

Definition shouldSkipCheckTx (tx : Tx) : bool := match tx with TxCoinbase _ | TxSlash => true | _ => false end.

Definition ScreenTxUnsafe s (rawTx : Bytes) : outcome (TxResult * LedgerState) :=
  match TxFromBytes rawTx with
  | None => Ok (TxError "Error decoding tx", s)
  | Some tx =>
    p ← processTx false (screened s) (exec_context s None) ScreenedView tx;
    Ok (PResult p, set_screened s (PView p))
  end.

Definition ScreenTx s (rawTx : Bytes) : outcome ((TxInfo + TxResult) * LedgerState) :=
  match TxFromBytes rawTx with
  | None => Ok (inr (TxError "Error decoding tx"), s)
  | Some tx =>
    if shouldSkipCheckTx tx then Ok (inr (TxError "Unauthorized transaction, should skip"), s) else
    p ← processTx false (screened s) (exec_context s None) ScreenedView tx;
    let s := set_screened s (PView p) in
    if tx_is_error (PResult p) then Ok (inr (PResult p), s) else
    match GetTxInfo (exec_context s None) tx with
    | Ok info => Ok (inl info, s)
    | Err msg => Ok (inr (TxError msg), s)
    | Panic msg => Panic msg
    end
  end.

(** *** Proposals *)

Definition signTransaction (tx : Tx) : option Signature := PrivateKey_Sign le (SignBytes (LChainID le) tx).

Definition addCoinbaseTx s (proposer : Validator) (rawTxs : list Bytes) : list Bytes :=
  let tx sig := mkCoinbaseTx (mkTxInput (VAddress proposer) (mkCoins 0 0) 0 sig) [] (height (delivered s)) in
  match signTransaction (TxCoinbase (tx "")) with
  | None => rawTxs
  | Some signature =>
    match TxToBytes (TxCoinbase (tx signature)) with
    | None => rawTxs
    | Some bytes => rawTxs ++ [bytes]
    end
  end.

Definition addSubchainValidatorSetUpdateTx (view : StoreView) (proposer : Validator) (newDynasty : Z)
    (newValidatorSet : ValidatorSet) (rawTxs : list Bytes) : outcome (list Bytes) :=
  match GetAccount view (VAddress proposer) with
  | None => Panic "Failed to get proposer account"
  | Some proposerAccount =>
    let tx sig := mkValidatorSetUpdateTx
      (mkTxInput (VAddress proposer) (mkCoins 0 0) (u64_add (AccSequence proposerAccount) 1) sig)
      newDynasty (validators newValidatorSet) in
    match signTransaction (TxValidatorSetUpdate (tx "")) with
    | None => Panic "Failed to add subchain validator set update transaction"
    | Some signature =>
      match TxToBytes (TxValidatorSetUpdate (tx signature)) with
      | None => Panic "Failed to serialize subchain validator set update transaction"
      | Some bytes => Ok (rawTxs ++ [bytes])
      end
    end
  end.

Definition getNewDynastyAndValidatorSet (view : StoreView) : outcome (option (Z * ValidatorSet)) :=
  match witness_GetMainchainBlockHeight le with
  | None => Ok None
  | Some mainchainBlockHeight =>
    let witnessedDynasty := CalculateDynasty mainchainBlockHeight in
    match witness_GetValidatorSetByDynasty le witnessedDynasty with
    | None => Ok None
    | Some witnessedValidatorSet =>
      match GetDynasty view with
      | None => Panic "nil pointer dereference"
      | Some currentDynasty =>
        if witnessedDynasty <=? currentDynasty then Ok None
        else Ok (Some (witnessedDynasty, witnessedValidatorSet))
      end
    end
  end.

Definition addSpecialTransactions s block (view : StoreView) (validatorMajorityInTheSameDynasty : bool)
    : outcome (list Bytes) :=
  let parentBlkHash := Parent (Header block) in
  let proposer := valMgr_GetNextProposer le parentBlkHash (BEpoch (Header block)) in
  let rawTxs := addCoinbaseTx s proposer [] in
  new ← getNewDynastyAndValidatorSet view;
  match new with
  | Some (newDynasty, newValidatorSet) =>
    if validatorMajorityInTheSameDynasty
    then addSubchainValidatorSetUpdateTx view proposer newDynasty newValidatorSet rawTxs
    else Ok rawTxs
  | None => Ok rawTxs
  end.

(** The loop of [ProposeBlockTxs] over the candidates: those that cannot be
    decoded or fail are skipped. *)
Fixpoint propose_loop (ctx : ExecContext) (v : StoreView) (candidates : list Bytes) : outcome (list Bytes * StoreView) :=
  match candidates with
  | [] => Ok ([], v)
  | raw :: l =>
    match TxFromBytes raw with
    | None => propose_loop ctx v l
    | Some tx =>
      p ← processTx false v ctx CheckedView tx;
      '(txs, v') ← propose_loop ctx (PView p) l;
      Ok (if tx_is_error (PResult p) then txs else raw :: txs, v')
    end
  end.

Definition ProposeBlockTxs `{PQueue} (getTransactionHash : Bytes -> string) (now : Z) s (mp : Mempool) block
    (validatorMajorityInTheSameDynasty : bool) : outcome (Hash * list Bytes * LedgerState * Mempool) :=
  special ← addSpecialTransactions s block (checked s) validatorMajorityInTheSameDynasty;
  '(regular, mp) ← ReapUnsafe getTransactionHash now MaxNumRegularTxsPerBlock mp;
  '(blockRawTxs, v) ← propose_loop (exec_context s (Some block)) (checked s) (special ++ regular);
  Ok (StoreView_Hash v, blockRawTxs, set_checked s v, mp).

(** *** Validator sets *)

(** The loop of [GetFinalizedValidatorSet]: at most two certificate links. *)
Fixpoint finalized_set_loop s ch (i : nat) (blockHash : Hash) : outcome (option ValidatorSet) :=
  match findBlock ch blockHash with
  | None => Err "Failed to find block for VS"
  | Some block =>
    let here :=
      match NewStoreView (BHeight (Header (EBlock block))) (StateHash (Header (EBlock block))) (db_trees s) (db_storages s) with
      | None => Panic "Failed to load state for validator pool"
      | Some storeView => Ok (StoreView_GetValidatorSet storeView)
      end in
    match i with
    | O => here
    | Datatypes.S i' =>
      if IsEmpty (CCBlockHash (HCC (Header (EBlock block)))) || IsTrusted (Status block) then here
      else finalized_set_loop s ch i' (CCBlockHash (HCC (Header (EBlock block))))
    end
  end.

Definition GetFinalizedValidatorSet s ch (blockHash : Hash) (isNext : bool) : outcome (option ValidatorSet) :=
  finalized_set_loop s ch (if isNext then 1 else 2) blockHash.
End Ledger.

(** ** Lemmas: transactions *)

Section TxLemmas.
Context `{ThetaTypes} `{TrieHash} `{TxTypes} `{!EVM}.
Implicit Types (v : StoreView) (ctx : ExecContext).

(** A dynasty only grows. *)
Definition dynasty_grows v v' : Prop :=
  forall d, GetDynasty v = Some d -> exists d', GetDynasty v' = Some d' /\ d <= d'.

(** What a transaction does to a view, whatever its result. *)
Definition tx_effect v v' : Prop := view_inv v' /\ height v' = height v /\ dynasty_grows v v'.

Lemma tx_effect_refl v : view_inv v -> tx_effect v v.
Proof. intros Hi. split_and!; try done. intros d Hd. by exists d. Qed.

Lemma tx_effect_trans v1 v2 v3 : tx_effect v1 v2 -> tx_effect v2 v3 -> tx_effect v1 v3.
Proof.
  intros (_ & Hh1 & Hd1) (Hi & Hh2 & Hd2). split_and!; [done|congruence|].
  intros d Hd. destruct (Hd1 d Hd) as (d1 & H1' & Hle1). destruct (Hd2 d1 H1') as (d2 & ? & ?). exists d2. split; [done|lia].
Qed.

Lemma tx_effect_same v v' : view_inv v' -> same_validators v v' -> tx_effect v v'.
Proof.
  intros Hi (Hh & Hv & _). split_and!; [done|done|]. intros d Hd. exists d. split; [|lia]. unfold GetDynasty in *. by rewrite Hv.
Qed.

(** An accepted send transaction does not touch the validator sets. *)
Lemma adjustByInputs_validators v accs ins v' accs' :
  adjustByInputs v accs ins = Ok (v', accs') -> view_inv v -> synced v accs -> same_validators v v'.
Proof.
  revert v accs. induction ins as [|i ins IH]; intros v accs Ha Hi Hs; cbn [adjustByInputs] in Ha.
  { by injection Ha as <- <-. }
  destruct (accs !! InAddress i) as [acc|] eqn:Hacc; [|done]. destruct (negb _); [done|].
  set (acc' := set_sequence _ _) in Ha. destruct (Hs _ _ Hacc) as (_ & _ & Hr).
  destruct (SetAccount_spec v (InAddress i) acc' Hi Hr) as (v0 & Hset0 & _ & Heq).
  destruct (write_account v accs (InAddress i) acc' Hi Hs Hr) as (v1 & Hset & Hi1 & Hs1 & _).
  rewrite Hset in Ha. cbn in Ha. rewrite Hset in Hset0. injection Hset0 as <-.
  destruct (IH v1 _ Ha Hi1 Hs1) as (? & ? & ? & ?). rewrite Heq in *. by split_and!.
Qed.

Lemma adjustByOutputs_validators v accs outs v' :
  adjustByOutputs v accs outs = Ok v' -> view_inv v -> synced v accs -> same_validators v v'.
Proof.
  revert v accs. induction outs as [|o outs IH]; intros v accs Ha Hi Hs; cbn [adjustByOutputs] in Ha.
  { by injection Ha as <-. }
  destruct (accs !! OutAddress o) as [acc|] eqn:Hacc; [|done].
  set (acc' := set_balance _ _) in Ha. destruct (Hs _ _ Hacc) as (_ & _ & Hr).
  destruct (SetAccount_spec v (OutAddress o) acc' Hi Hr) as (v0 & Hset0 & _ & Heq).
  destruct (write_account v accs (OutAddress o) acc' Hi Hs Hr) as (v1 & Hset & Hi1 & Hs1 & _).
  rewrite Hset in Ha. cbn in Ha. rewrite Hset in Hset0. injection Hset0 as <-.
  destruct (IH v1 _ Ha Hi1 Hs1) as (? & ? & ? & ?). rewrite Heq in *. by split_and!.
Qed.

Lemma send_validators v ctx tx p : view_inv v -> send_sanityCheck v ctx tx = Ok tt ->
  send_process v ctx tx = Ok p -> view_inv (PView p) /\ same_validators v (PView p).
Proof.
  intros Hi Hc Hp. destruct (send_ok v ctx tx Hi Hc) as (v' & Hp' & Hi' & _). rewrite Hp' in Hp. injection Hp as <-.
  split; [done|]. cbn.
  destruct (send_sanityCheck_ok v ctx tx Hi Hc) as (accs1 & accs2 & Hin & Hout & Hl1 & Hl2 & Hf & _).
  destruct (send_effect v ctx tx Hi Hc) as (_ & _ & _ & _ & Hnd1 & _).
  assert (Hs2 : synced v accs2).
  { eapply loads_synced; [done| |exact Hl2]. eapply loads_synced; [done| |exact Hl1]. by intros a acc Ha. }
  unfold send_process in Hp'. rewrite Hin in Hp'. cbn in Hp'. rewrite Hout in Hp'.
  apply bind_ok in Hp' as ([v1 accs3] & Ha1 & Hp'). apply bind_ok in Hp' as (v2 & Ha2 & [= <-]).
  pose proof (adjustByInputs_validators _ _ _ _ _ Ha1 Hi Hs2) as Hv1.
  destruct (adjustByInputs_ok v accs2 (Inputs tx) Hi Hs2 Hnd1) as (v1' & accs3' & Ha1' & Hi1 & Hs3 & _).
  { destruct Hl1 as (_ & _ & Hl1), Hl2 as (_ & Hfr & Hl2). apply Forall_forall. intros i Hii.
    rewrite Forall_forall in Hf. split; [|by apply Hf].
    assert (Hia : InAddress i ∈ InAddress <$> Inputs tx) by (by apply list_elem_of_fmap_2).
    assert (Ha : accs1 !! InAddress i = Some (loaded v (InAddress i))) by (by rewrite Hl1, decide_True).
    rewrite Hl2. case_decide as Hx; [by eexists|]. rewrite Ha. by eexists. }
  rewrite Ha1 in Ha1'. injection Ha1' as <- <-.
  pose proof (adjustByOutputs_validators _ _ _ _ Ha2 Hi1 Hs3) as Hv2.
  destruct Hv1 as (?&?&?&?), Hv2 as (?&?&?&?). split_and!; congruence.
Qed.

Lemma update_effect v ctx tx p : view_inv v -> update_process v ctx tx = Ok p -> tx_effect v (PView p).
Proof.
  intros Hi Hp. destruct (GetDynasty v) as [d|] eqn:Hd.
  - destruct (update_process_ok v ctx tx d Hi Hd) as (p' & Hp' & Hi' & Hh & _ & Hiff & Hok & Hno).
    rewrite Hp in Hp'. injection Hp' as <-. split_and!; [done|done|]. intros d0 Hd0. rewrite Hd in Hd0. injection Hd0 as <-.
    destruct (PResult p) eqn:Hr.
    + destruct (Hok eq_refl) as [Hset _].
      destruct (proj1 Hiff eq_refl) as (_ & Hlt & _). unfold GetDynasty, StoreView_GetValidatorSet in *. rewrite Hset.
      eexists. split; [reflexivity|]. unfold proposed_set, AddValidators.
      assert (Hdyn : forall l vs, dynasty (foldl AddValidator vs l) = dynasty vs)
        by (induction l as [|x l IH]; intros vs; [done|cbn; by rewrite IH]).
      rewrite Hdyn. cbn. lia.
    + exists d. split; [|lia]. unfold GetDynasty, StoreView_GetValidatorSet in *. by rewrite Hno.
    + exists d. split; [|lia]. unfold GetDynasty, StoreView_GetValidatorSet in *. by rewrite Hno.
  - unfold update_process in Hp. destruct (subchainValidatorSetTransactinProcessed v).
    + injection Hp as <-. by apply tx_effect_refl.
    + destruct (install_validators_ok v (NewValidatorSet (UpDynasty tx)) (UpValidators tx) Hi)
        as (v1 & Hin & _ & (_ & Hv & _) & _). rewrite Hin in Hp. cbn in Hp.
      unfold GetDynasty in *. by rewrite Hv, Hd in Hp.
Qed.

Lemma contract_effect v ctx sel tx p : view_inv v -> contract_process v ctx sel tx = Ok p -> tx_effect v (PView p).
Proof.
  intros Hi Hp. unfold contract_process in Hp. pose proof Hp as Hp0.
  apply bind_ok in Hp as ([[[[ret addr] gasUsed] err] v1] & He & _).
  assert (Hi0 : view_inv (ResetBalanceChanges (ResetLogs v))) by (by do 2 apply extends_scratch).
  destruct (Execute_steps _ _ _ _ _ _ _ _ Hi0 He) as [Hs Hv].
  assert (Hi1 : view_inv v1) by (by eapply steps_extend).
  destruct (contract_process_ok v ctx sel tx ret addr gasUsed err v1 Hi He Hi1) as (p' & Hp' & Hi' & Hv' & _).
  unfold contract_process in Hp'. rewrite Hp0 in Hp'. injection Hp' as <-.
  eapply (tx_effect_trans v v1); [by apply tx_effect_same|by apply tx_effect_same].
Qed.

Lemma processTx_effect v ctx sel tx p : view_inv v -> processTx false v ctx sel tx = Ok p -> tx_effect v (PView p).
Proof.
  intros Hi Hp. unfold processTx, sanityCheck, process in Hp.
  destruct (isTxTypeSupported v tx); cbn [negb] in Hp; [|injection Hp as <-; by apply tx_effect_refl].
  destruct tx as [tx|tx|tx|tx| | | |]; try (injection Hp as <-; by apply tx_effect_refl).
  - destruct (coinbase_sanityCheck v ctx tx) as [[]| |]; try done; injection Hp as <-; try by apply tx_effect_refl.
    unfold coinbase_process. destruct (coinbaseTransactinProcessed v); [by apply tx_effect_refl|].
    split_and!; [by apply extends_processed|done|]. intros d Hd. by exists d.
  - destruct (send_sanityCheck v ctx tx) as [[]| |] eqn:Hc; try done; [|injection Hp as <-; by apply tx_effect_refl].
    destruct (send_validators v ctx tx p Hi Hc Hp). by apply tx_effect_same.
  - destruct (contract_sanityCheck v ctx tx) as [[]| |]; try done; [|injection Hp as <-; by apply tx_effect_refl].
    by eapply contract_effect.
  - destruct (update_sanityCheck v ctx tx) as [[]| |]; try done; [|injection Hp as <-; by apply tx_effect_refl].
    by eapply update_effect.
Qed.

(** ** The view selector and the current block *)

(** Contexts that differ in the current block only, with the same parent. *)
Definition ctx_agree ctx ctx' : Prop :=
  chainID ctx' = chainID ctx /\ stateHeight ctx' = stateHeight ctx /\
  (Parent ∘ Header) <$> currentBlock ctx' = (Parent ∘ Header) <$> currentBlock ctx /\
  NextValidatorSet ctx' = NextValidatorSet ctx /\
  GetValidatorSetByDynasty ctx' = GetValidatorSetByDynasty ctx /\ TokenBank ctx' = TokenBank ctx /\
  parentHeight ctx' = parentHeight ctx /\ parentTimestamp ctx' = parentTimestamp ctx /\
  parentChainID ctx' = parentChainID ctx.

Lemma getValidatorSet_agree ctx ctx' : ctx_agree ctx ctx' -> getValidatorSet ctx' = getValidatorSet ctx.
Proof.
  intros (_ & _ & Hb & Hn & _). unfold getValidatorSet. rewrite Hn.
  destruct (currentBlock ctx) as [b|], (currentBlock ctx') as [b'|]; try done. cbn in Hb. by injection Hb as ->.
Qed.

Lemma sanityCheck_agree v ctx ctx' tx : ctx_agree ctx ctx' -> sanityCheck false v ctx' tx = sanityCheck false v ctx tx.
Proof.
  intros Ha. pose proof (getValidatorSet_agree ctx ctx' Ha) as Hg.
  destruct Ha as (Hc & Hh & _ & Hn & Hw & Ht & _).
  unfold sanityCheck, coinbase_sanityCheck, update_sanityCheck, send_sanityCheck, contract_sanityCheck,
    contract_signature, getBlockHeight, sanityCheckForGasPrice, isWhitelistedOperation,
    isVotingForInterchainEvents, whitelistedMethods, bank.
  by rewrite Hg, Hc, Hh, Ht.
Qed.

(** The result and the view of a transaction do not depend on them. *)
Lemma processTx_agree v ctx ctx' sel sel' tx p : ctx_agree ctx ctx' -> processTx false v ctx sel tx = Ok p ->
  exists p', processTx false v ctx' sel' tx = Ok p' /\ PResult p' = PResult p /\ PView p' = PView p.
Proof.
  intros Ha Hp. unfold processTx in *. rewrite (sanityCheck_agree v ctx ctx' tx Ha).
  destruct (sanityCheck false v ctx tx) as [[]| |]; try done; [|injection Hp as <-; by eexists].
  destruct Ha as (Hc & Hh & _ & Hn & Hw & Ht & H1' & H2' & H3').
  unfold process in *. destruct (negb (isTxTypeSupported v tx)); [injection Hp as <-; by eexists|].
  destruct tx as [tx|tx|tx|tx| | | |]; try (injection Hp as <-; by eexists).
  - injection Hp as <-. unfold coinbase_process. rewrite Hc. by destruct (coinbaseTransactinProcessed v); eexists.
  - unfold send_process in *. rewrite Hc. by eexists.
  - unfold contract_process in *. rewrite Hc, H1', H2', H3'.
    apply bind_ok in Hp as ([[[[ret addr] gasUsed] err] v1] & He & Hp). rewrite He. cbn [mbind outcome_bind].
    destruct (getInput v1 (From tx)) as [acc| |]; try done; [|injection Hp as <-; by eexists].
    destruct (chargeFee acc _) as [acc'|]; [|injection Hp as <-; by eexists].
    apply bind_ok in Hp as (v2 & Hset & Hp). rewrite Hset. cbn in *.
    destruct err; injection Hp as <-; by eexists.
  - unfold update_process in *. rewrite Hc, Hw. by eexists.
Qed.
End TxLemmas.

(** ** Lemmas: blocks *)

Section LedgerLemmas.
Context `{ThetaTypes} `{TrieHash} `{TxTypes} `{!EVM} `{TxCodec} `{BlockCrypto}.
Context {S : Type} `{!Store S} (le : LedgerEnv).
Implicit Types (s : LedgerState) (ch : Chain S) (block : Block.Block).

Lemma add_receipts_ok ch block raw l : exists ch', add_receipts le ch block raw l = Ok ch' /\ rtc receipt_step ch ch'.
Proof.
  revert ch. induction l as [|r l IH]; intros ch; cbn [add_receipts]; [by exists ch|].
  unfold AddTxReceipt at 1. cbn [mbind outcome_bind].
  match goal with |- context [add_receipts le ?c block raw l] => destruct (IH c) as (ch' & Hr & Hs) end.
  exists ch'. split; [done|]. eapply rtc_l; [|exact Hs].
  eapply (receipt_added ch (Some block) raw (log_bytes le <$> RcLogs r) (change_bytes le <$> RcBalanceChanges r) (RcEvmRet r)
    (RcContractAddr r) (RcGasUsed r) (RcEvmErr r)). reflexivity.
Qed.

Lemma apply_loop_effect ctx v ch block txs early v' ch' : view_inv v ->
  apply_loop le ctx v ch block txs = Ok (early, v', ch') ->
  tx_effect v v' /\ rtc receipt_step ch ch' /\ early <> Some TxOK.
Proof.
  revert v ch. induction txs as [|raw txs IH]; intros v ch Hi Ha; cbn [apply_loop] in Ha.
  { injection Ha as <- <- <-. split_and!; [by apply tx_effect_refl|done|done]. }
  destruct (TxFromBytes raw) as [tx|].
  2:{ injection Ha as <- <- <-. split_and!; [by apply tx_effect_refl|done|done]. }
  apply bind_ok in Ha as (p & Hp & Ha). apply bind_ok in Ha as (ch1 & Hc & Ha).
  pose proof (processTx_effect v ctx DeliveredView tx p Hi Hp) as He.
  destruct (add_receipts_ok ch block raw (PReceipts p)) as (ch1' & Hc' & Hs). rewrite Hc in Hc'. injection Hc' as <-.
  destruct (PResult p) as [|msg|] eqn:Hr.
  - destruct (IH (PView p) ch1) as (He2 & Hs2 & Hne); [apply He|done|].
    split_and!; [by eapply tx_effect_trans|by etrans|done].
  - injection Ha as <- <- <-. by split_and!.
  - injection Ha as <- <- <-. by split_and!.
Qed.

(** *** The state after a reset *)

Lemma with_delivered_views s pb v :
  coinbaseTransactinProcessed v = false -> subchainValidatorSetTransactinProcessed v = false ->
  refund v = 0 -> logs v = [] -> balanceChanges v = [] ->
  let s' := with_delivered s pb v in
  checked s' = delivered s' /\ screened s' = delivered s' /\ tree (delivered s') = tree v /\
  height (delivered s') = height v /\ db_trees s' = db_trees s /\ parentBlock s' = pb.
Proof.
  intros Hc Hu Hr Hl Hb s'. unfold s', with_delivered, StoreView_Copy. cbn.
  unfold with_snapshots. cbn. rewrite insert_insert_eq, Hc, Hu, Hr, Hl, Hb. by split_and!.
Qed.

Lemma reset_spec s block t : open_tree (db_trees s) (StateHash (Header block)) = Some t ->
  exists s', State_ResetState s block = (TxOK, s') /\
    checked s' = delivered s' /\ screened s' = delivered s' /\ tree (delivered s') = t /\
    height (delivered s') = BHeight (Header block) /\ db_trees s' = db_trees s /\ parentBlock s' = block.
Proof.
  intros Ht. unfold State_ResetState, NewStoreView. rewrite Ht. cbn.
  eexists. split; [reflexivity|]. by apply with_delivered_views.
Qed.

(** The database holds trees under their roots. *)
Definition db_ok s : Prop := map_Forall (fun r t => tree_root t = r) (db_trees s).

Lemma commit_spec s : db_ok s ->
  let s' := (Commit s).2 in
  (Commit s).1 = StoreView_Hash (delivered s) /\ db_ok s' /\ db_trees s ⊆ db_trees s' /\
  open_tree (db_trees s') (StoreView_Hash (delivered s)) = Some (tree (delivered s)) /\
  tree (delivered s') = tree (delivered s) /\ tree (checked s') = tree (delivered s) /\
  tree (screened s') = tree (delivered s) /\
  height (delivered s') = u64_add (height (delivered s)) 1.
Proof.
  intros Hdb s'. unfold s', Commit. cbn. split_and!; try done.
  - by apply map_Forall_insert_2.
  - destruct (db_trees s !! tree_root (tree (delivered s))) as [t|] eqn:Hl; [|by apply insert_subseteq].
    assert (t = tree (delivered s)) as -> by (apply tree_root_inj, (Hdb _ _ Hl)). by rewrite insert_id.
  - unfold open_tree, StoreView_Hash. rewrite lookup_insert_eq.
    destruct (Z.eqb_spec (tree_root (tree (delivered s))) 0) as [Hz|_]; [by apply tree_root_nonzero in Hz|].
    destruct (Z.eqb_spec (tree_root (tree (delivered s))) EmptyTreeHash) as [Hz|_]; cbn [orb]; [|done].
    rewrite <- tree_root_empty in Hz. by apply tree_root_inj in Hz as ->.
Qed.

(** [TxFromBytes] only gives the four kinds of subchain transactions. *)
Lemma TxFromBytes_kind raw tx : TxFromBytes raw = Some tx ->
  match tx with
  | TxCoinbase _ | TxSend _ | TxSmartContract _ | TxValidatorSetUpdate _ => True
  | _ => False
  end.
Proof.
  unfold TxFromBytes. intros Htx. destruct (decode_type raw) as [[n b]|]; [|done]. cbn in Htx.
  destruct (Z.eqb n TypeCoinbase); [apply fmap_Some in Htx as (t & _ & ->); done|].
  destruct (Z.eqb n TypeSend); [apply fmap_Some in Htx as (t & _ & ->); done|].
  destruct (Z.eqb n TypeSmartContract); [apply fmap_Some in Htx as (t & _ & ->); done|].
  destruct (Z.eqb n _); [apply fmap_Some in Htx as (t & _ & ->); done|done].
Qed.

Lemma no_validator_update txs : has_validator_update txs = false.
Proof.
  unfold has_validator_update. induction txs as [|raw txs IH]; [done|]. cbn [existsb]. rewrite IH, orb_false_r.
  destruct (TxFromBytes raw) as [tx|] eqn:Htx; [|done]. apply TxFromBytes_kind in Htx. by destruct tx.
Qed.

(** *** Proposing and applying *)

(** Every candidate is accepted, or rejected without a change of the view. *)
Fixpoint clean (ctx : ExecContext) (v : StoreView) (candidates : list Bytes) : Prop :=
  match candidates with
  | [] => True
  | raw :: l =>
    match TxFromBytes raw with
    | None => clean ctx v l
    | Some tx =>
      match processTx false v ctx CheckedView tx with
      | Ok p => (PResult p = TxOK \/ tx_is_error (PResult p) = true /\ PView p = v) /\ clean ctx (PView p) l
      | _ => False
      end
    end
  end.

Lemma propose_apply_loop ctx ctx' v ch block candidates txs v' : ctx_agree ctx ctx' -> clean ctx v candidates ->
  propose_loop ctx v candidates = Ok (txs, v') ->
  exists ch', apply_loop le ctx' v ch block txs = Ok (None, v', ch').
Proof.
  intros Ha. revert v ch txs. induction candidates as [|raw l IH]; intros v ch txs Hc Hp; cbn [propose_loop clean] in *.
  { injection Hp as <- <-. by exists ch. }
  destruct (TxFromBytes raw) as [tx|] eqn:Htx; [|by eapply IH].
  destruct (processTx false v ctx CheckedView tx) as [p| |] eqn:Hpr; [|done..]. cbn in Hp.
  destruct Hc as [Hc Hcl]. apply bind_ok in Hp as ([txs1 v1] & Hp & [= <- <-]).
  destruct Hc as [Hr|[Hr Hv]]; rewrite Hr in *; cbn [tx_is_error].
  - cbn [apply_loop]. rewrite Htx. destruct (processTx_agree v ctx ctx' CheckedView DeliveredView tx p Ha Hpr) as (p' & Hp' & Hr' & Hv').
    rewrite Hp'. cbn [mbind outcome_bind]. destruct (add_receipts_ok ch block raw (PReceipts p')) as (ch1 & Hch & _).
    rewrite Hch. cbn [mbind outcome_bind]. rewrite Hr', Hr, Hv'. by eapply IH.
  - rewrite Hv in *. by eapply IH.
Qed.
End LedgerLemmas.

(** ** A concrete codec *)

#[export] Instance Send_eq_dec : EqDecision SendTx.
Proof.
  assert (EqDecision TxInput) by solve_decision. assert (EqDecision TxOutput) by solve_decision. solve_decision.
Defined.

#[export] Instance Update_eq_dec : EqDecision SubchainValidatorSetUpdateTx.
Proof. assert (EqDecision TxInput) by solve_decision. solve_decision. Defined.

(** Self-delimiting positive numbers. *)
Fixpoint encode_pos (p : positive) : string :=
  match p with
  | xH => "e"
  | xO q => "o" +:+ encode_pos q
  | xI q => "i" +:+ encode_pos q
  end.

Fixpoint decode_pos (b : string) : option (positive * string) :=
  match b with
  | String "e"%char b' => Some (xH, b')
  | String "o"%char b' => '(q, r) ← decode_pos b'; Some (xO q, r)
  | String "i"%char b' => '(q, r) ← decode_pos b'; Some (xI q, r)
  | _ => None
  end.

Lemma decode_encode_pos p b : decode_pos (encode_pos p +:+ b) = Some (p, b).
Proof.
  revert b. induction p as [p IH|p IH|]; intros b; [| |done].
  - change (('(q, r) ← decode_pos (encode_pos p +:+ b); Some (xI q, r)) = Some (xI p, b)). by rewrite IH.
  - change (('(q, r) ← decode_pos (encode_pos p +:+ b); Some (xO q, r)) = Some (xO p, b)). by rewrite IH.
Qed.

Definition Z_to_pos (n : Z) : positive := match n with Z0 => 1 | Zpos p => xO p | Zneg p => xI p end.
Definition pos_to_Z (p : positive) : Z := match p with xH => 0 | xO q => Zpos q | xI q => Zneg q end.

(** A codec that knows one send transaction and one validator set update. *)
#[export] Instance demo_codec : TxCodec.
Proof.
  refine {|
    TypeCoinbase := 0; TypeSend := 2; TypeSmartContract := 7;
    encode_type n := encode_pos (Z_to_pos n);
    decode_type b := '(p, r) ← decode_pos b; Some (pos_to_Z p, r);
    encode_coinbase tx := None;
    decode_coinbase b := None;
    encode_send tx := if decide (tx = demo_send) then Some "send" else None;
    decode_send b := if String.eqb b "send" then Some demo_send else None;
    encode_contract tx := None;
    decode_contract b := None;
    encode_update tx := if decide (tx = demo_update) then Some "update" else None;
    decode_update b := if String.eqb b "update" then Some demo_update else None
  |}; try done.
  - repeat constructor; set_solver.
  - intros n b. rewrite decode_encode_pos. by destruct n.
  - intros tx b He. case_decide; [|done]. by injection He as <-; subst.
  - intros tx b He. case_decide; [|done]. by injection He as <-; subst.
Defined.

#[local] Existing Instance demo_crypto.

Definition send_bytes : Bytes := encode_type TypeSend +:+ "send".

(** A ledger on the demonstration view, whose parent block is 77. *)
Definition demo_header (parent stateHash : Z) : BlockHeader :=
  mkHeader "tsub" 1 5 parent (mkCC None 0) 0 0 0 stateHash (Some 1000) 9 None 0.
Definition demo_parent : Block.Block := mkBlock (demo_header 0 (StoreView_Hash demo_view)) [].
Definition demo_ledger : LedgerState :=
  mkLedgerState {[StoreView_Hash demo_view := tree demo_view]} ∅ demo_parent demo_view demo_view demo_view demo_view.
Definition ledger_chain : Chain (gmap Key Value) :=
  mkChain {[KBlock 77 := VBlock (mkExtendedBlock demo_parent [] BlockStatusValid false)]} "tsub" 77.
Definition demo_env : LedgerEnv :=
  mkLedgerEnv "tsub" (fun _ => demo_set) (fun _ _ => mkValidator 9 100) None (fun _ => None) (fun _ => Some 11)
    (fun _ => None) (fun _ => "") (fun _ => "").

Lemma demo_ledger_ok : db_ok demo_ledger.
Proof. apply map_Forall_singleton. reflexivity. Qed.

Definition ledger_pool : Mempool :=
  (InsertTransaction id (fun (led : unit) _ => (inl (mkTxInfo 1 1 4), led)) 0 true tt CreateMempool send_bytes).1.2.

(** ** Properties *)

(** (transaction bytes). A transaction that [TxToBytes] can serialise is
    recovered by [TxFromBytes], and the type tags keep the kinds apart. *)
Theorem tx_roundtrip `{TxCodec} t b : TxToBytes t = Some b -> TxFromBytes b = Some t.
Proof.
  intros Ht. pose proof types_distinct as Hd.
  repeat (apply NoDup_cons in Hd as [? Hd]). rewrite !not_elem_of_cons in *. destruct_and!.
  destruct t as [tx|tx|tx|tx| | | |]; try done; cbn in Ht; apply bind_Some in Ht as (body & Hb & [= <-]);
    unfold TxFromBytes, TxSubchainValidatorSetUpdate; rewrite type_roundtrip; cbn [mbind option_bind];
    repeat match goal with |- context [Z.eqb ?x ?y] => destruct (Z.eqb_spec x y); try congruence end.
  - by rewrite (coinbase_roundtrip _ _ Hb).
  - by rewrite (send_roundtrip _ _ Hb).
  - by rewrite (contract_roundtrip _ _ Hb).
  - by rewrite (update_roundtrip _ _ Hb).
Qed.

Lemma tx_roundtrip_witness : TxFromBytes (encode_type 2 +:+ "send") = Some (TxSend demo_send).
Proof. apply tx_roundtrip. vm_compute. reflexivity. Defined.

(** C7 (applying a block). [ApplyBlockTxs] writes nothing but receipts in the
    chain and leaves the finalized view alone.  If it succeeds, the delivered
    state has the state hash of the block and one more height, its dynasty
    has not decreased, and the ledger can be reset to the block.  If it fails,
    the ledger is back at the state of the parent block and the database is
    unchanged.  It never reports a validator update. *)
Theorem apply_block_spec `{ThetaTypes} `{TrieHash} `{TxTypes} `{!EVM} `{TxCodec} `{BlockCrypto} {S} `{!Store S}
    le s (ch : Chain S) block r upd s' ch' :
  view_inv (delivered s) -> db_ok s -> ApplyBlockTxs le s ch block = Ok (r, upd, s', ch') ->
  upd = false /\ rtc receipt_step ch ch' /\ db_ok s' /\ finalized s' = finalized s /\
  (r = TxOK -> StoreView_Hash (delivered s') = StateHash (Header block) /\
     height (delivered s') = u64_add (height (delivered s)) 1 /\
     dynasty_grows (delivered s) (delivered s') /\
     exists s2, State_ResetState s' block = (TxOK, s2) /\ tree (delivered s2) = tree (delivered s')) /\
  (r <> TxOK -> db_trees s' = db_trees s /\
     forall eb t, findBlock ch (Parent (Header block)) = Some eb ->
       open_tree (db_trees s) (StateHash (Header (EBlock eb))) = Some t ->
       tree (delivered s') = t /\ height (delivered s') = BHeight (Header (EBlock eb)) /\
       checked s' = delivered s' /\ screened s' = delivered s').
Proof.
  intros Hi Hdb Ha. unfold ApplyBlockTxs in Ha. destruct (findBlock ch (Parent (Header block))) as [eb|] eqn:Hf; [|done].
  apply bind_ok in Ha as ([[early v] ch1] & Hl & Ha).
  destruct (apply_loop_effect le _ _ _ _ _ _ _ _ Hi Hl) as ((Hiv & Hhv & Hdv) & Hs & Hne).
  set (s1 := set_delivered s v) in Ha. assert (Hdb1 : db_ok s1) by exact Hdb.
  assert (Hreset : forall t, open_tree (db_trees s) (StateHash (Header (EBlock eb))) = Some t ->
    let s2 := (State_ResetState s1 (EBlock eb)).2 in
    tree (delivered s2) = t /\ height (delivered s2) = BHeight (Header (EBlock eb)) /\
    checked s2 = delivered s2 /\ screened s2 = delivered s2).
  { intros t Ht. destruct (reset_spec s1 (EBlock eb) t Ht) as (s2 & -> & ? & ? & ? & ? & _). done. }
  assert (Hdbr : db_trees (State_ResetState s1 (EBlock eb)).2 = db_trees s /\
                 finalized (State_ResetState s1 (EBlock eb)).2 = finalized s)
    by (unfold State_ResetState; by destruct (NewStoreView _ _ _ _)).
  assert (Hfail : forall r0, r0 <> TxOK -> Ok (r0, false, (State_ResetState s1 (EBlock eb)).2, ch1) = Ok (r, upd, s', ch') ->
    upd = false /\ rtc receipt_step ch ch' /\ db_ok s' /\ finalized s' = finalized s /\ r <> TxOK /\
    s' = (State_ResetState s1 (EBlock eb)).2).
  { intros r0 Hr0 [= <- <- <- <-]. split_and!; try done; [|apply Hdbr]. unfold db_ok. by rewrite (proj1 Hdbr). }
  destruct early as [r0|]; [|destruct (negb _) eqn:Hroot].
  1,2: edestruct Hfail as (-> & ? & ? & ? & Hr & ->); [|exact Ha|]; [congruence|];
    split_and!; try done; intros _; split; [apply Hdbr|]; intros eb' t [= <-]; apply Hreset.
  assert (Heq : r = TxOK /\ upd = has_validator_update (Txs block) /\ s' = (Commit s1).2 /\ ch' = ch1)
    by (by injection Ha as <- <- <- <-).
  destruct Heq as (-> & -> & -> & ->). apply negb_false_iff, Z.eqb_eq in Hroot.
  destruct (commit_spec s1 Hdb1) as (_ & Hdb2 & _ & Hopen & Ht & _ & _ & Hh).
  change (delivered s1) with v in *. split_and!; try done; [apply no_validator_update|].
  intros _. unfold StoreView_Hash at 1. rewrite Ht, Hh, Hhv. split_and!; try done.
  rewrite Hroot in Hopen. destruct (reset_spec (Commit s1).2 block _ Hopen) as (s2 & -> & _ & _ & Ht2 & _).
  by exists s2.
Qed.

Lemma apply_block_spec_witness :
  exists s' ch', ApplyBlockTxs demo_env demo_ledger ledger_chain (mkBlock (demo_header 77 (StoreView_Hash demo_view)) [])
    = Ok (TxOK, false, s', ch') /\ StoreView_Hash (delivered s') = StoreView_Hash demo_view.
Proof.
  assert (Ha : exists s' ch', ApplyBlockTxs demo_env demo_ledger ledger_chain
    (mkBlock (demo_header 77 (StoreView_Hash demo_view)) []) = Ok (TxOK, false, s', ch')).
  { unfold ApplyBlockTxs. cbn -[StoreView_Hash Commit]. rewrite Z.eqb_refl. cbn -[StoreView_Hash Commit]. by eexists _, _. }
  destruct Ha as (s' & ch' & Ha). exists s', ch'. split; [exact Ha|].
  destruct (apply_block_spec demo_env demo_ledger ledger_chain _ TxOK false s' ch' demo_view_inv demo_ledger_ok Ha)
    as (_ & _ & _ & _ & Hok & _).
  apply Hok. reflexivity.
Defined.

(** C6 (proposals are valid). If every candidate transaction of a proposal is
    accepted, or rejected without a change of the checked view, then a ledger
    whose delivered view is the proposer's checked view accepts the proposed
    block: it computes the proposed state hash. *)
Theorem propose_apply `{ThetaTypes} `{TrieHash} `{TxTypes} `{!EVM} `{TxCodec} `{BlockCrypto} `{PQueue} {S} `{!Store S}
    le hash now s1 mp draft majority root txs s1' mp' special regular mp1 s2 (ch : Chain S) eb block :
  addSpecialTransactions le s1 draft (checked s1) majority = Ok special ->
  ReapUnsafe hash now MaxNumRegularTxsPerBlock mp = Ok (regular, mp1) ->
  clean (exec_context le s1 (Some draft)) (checked s1) (special ++ regular) ->
  ProposeBlockTxs le hash now s1 mp draft majority = Ok (root, txs, s1', mp') ->
  delivered s2 = checked s1 -> height (delivered s2) = height (delivered s1) -> parentBlock s2 = parentBlock s1 ->
  Parent (Header block) = Parent (Header draft) -> Txs block = txs -> StateHash (Header block) = root ->
  findBlock ch (Parent (Header block)) = Some eb ->
  exists s2' ch', ApplyBlockTxs le s2 ch block = Ok (TxOK, false, s2', ch') /\
    StoreView_Hash (delivered s2') = root.
Proof.
  intros Hsp Hre Hcl Hp Hv Hh Hpb Hpar Htxs Hroot Hf. unfold ProposeBlockTxs in Hp.
  rewrite Hsp, Hre in Hp. cbn [mbind outcome_bind] in Hp. apply bind_ok in Hp as ([txs0 v] & Hl & [= <- <- <- <-]).
  assert (Hag : ctx_agree (exec_context le s1 (Some draft)) (exec_context le s2 (Some block))).
  { unfold ctx_agree, exec_context. cbn. rewrite Hh, Hpb, Hpar. by split_and!. }
  destruct (propose_apply_loop le _ _ _ ch block _ _ _ Hag Hcl Hl) as (ch' & Hal).
  unfold ApplyBlockTxs. rewrite Hf, Hv, Htxs, Hal. cbn [mbind outcome_bind].
  rewrite Hroot, Z.eqb_refl. cbn [negb]. eexists _, ch'. rewrite no_validator_update. split; [reflexivity|]. reflexivity.
Qed.

Lemma propose_apply_witness :
  exists root s2' ch', ApplyBlockTxs demo_env demo_ledger ledger_chain
      (mkBlock (demo_header 77 root) [send_bytes]) = Ok (TxOK, false, s2', ch').
Proof.
  assert (Hp : exists root s1' mp', ProposeBlockTxs demo_env id 1 demo_ledger ledger_pool
    (mkBlock (demo_header 77 0) []) true = Ok (root, [send_bytes], s1', mp')) by (eexists _, _, _; reflexivity).
  destruct Hp as (root & s1' & mp' & Hp). exists root.
  edestruct (propose_apply demo_env id 1 demo_ledger ledger_pool (mkBlock (demo_header 77 0) []) true root
    [send_bytes] s1' mp' [] [send_bytes]) with (ch := ledger_chain) (s2 := demo_ledger)
    (block := mkBlock (demo_header 77 root) [send_bytes]) as (s2' & ch' & Ha & _).
  - reflexivity.
  - reflexivity.
  - cbn [clean app]. change (TxFromBytes send_bytes) with (Some (TxSend demo_send)). cbn iota.
    destruct (processTx false _ _ CheckedView _) as [p| |] eqn:Hpr; [|vm_compute in Hpr; discriminate Hpr..].
    split; [|exact I]. left. apply (f_equal (fun r => match r with Ok p => PResult p | _ => TxUndecided end)) in Hpr.
    vm_compute in Hpr. symmetry. exact Hpr.
  - exact Hp.
  - reflexivity.
  - reflexivity.
  - reflexivity.
  - reflexivity.
  - reflexivity.
  - reflexivity.
  - reflexivity.
  - exists s2', ch'. exact Ha.
Defined.

(** (screening validator set updates). Outside the processing of a block,
    screening a validator set update panics, whatever the update: the sanity
    check asks for the validators of the current block, which is nil, and
    [shouldSkipCheckTx] does not skip these transactions. *)
Theorem screen_update_panics `{ThetaTypes} `{TrieHash} `{TxTypes} `{!EVM} `{TxCodec} le s raw tx :
  TxFromBytes raw = Some (TxValidatorSetUpdate tx) ->
  ScreenTx le s raw = Panic "ledger.currentBlock is nil" /\
  ScreenTxUnsafe le s raw = Panic "ledger.currentBlock is nil".
Proof. intros Htx. unfold ScreenTx, ScreenTxUnsafe. by rewrite Htx. Qed.

Lemma screen_update_panics_witness :
  is_panic (ScreenTx demo_env demo_ledger (encode_type 201 +:+ "update")) = true.
Proof.
  destruct (screen_update_panics demo_env demo_ledger (encode_type 201 +:+ "update") demo_update) as [Hp _].
  - vm_compute. reflexivity.
  - rewrite Hp. reflexivity.
Defined.
