(* ===== verification/VmData.v ===== *)
(** * Data of the virtual machine (src/ledger/vm/stack.go, memory.go,
    stack_table.go, memory_table.go, common.go, analysis.go, contract.go,
    opcodes.go, errors.go and gas.go)

    A word of the stack is a [big.Int]; a byte is an [ascii], so that every
    list of them is a byte array; memory is the byte array of [Memory].  The
    pool of reused integers (intpool.go) holds dead values only and is not
    modelled: integers are values here.  The functions of theta/common,
    theta/common/math and theta/ledger/vm/params are interfaces with the
    behaviour they document. *)

From Stdlib Require Import Ascii.
From stdpp Require Import gmap sorting relations.
From stdpp Require Import base list numbers strings.
From S2P Require Import Prelude Vote Validator Block StoreView.
Local Open Scope string_scope.
Local Open Scope list_scope.
Local Open Scope Z_scope.

(** ** Bytes and big integers *)

Abbreviation byte := ascii (only parsing).
(** [bitvec] of analysis.go, a slice of bytes. *)
Abbreviation bitvec := (list Z) (only parsing).

Definition byte_val (b : byte) : Z := Z.of_N (N_of_ascii b).
Definition byte_of (z : Z) : byte := ascii_of_N (Z.to_N (z mod 256)).
Definition zero_byte : byte := byte_of 0.

Definition to_bytes (s : Bytes) : list byte := String.list_ascii_of_string s.
Definition of_bytes (l : list byte) : Bytes := String.string_of_list_ascii l.

(** [SetBytes] reads a big-endian unsigned integer, [array n x] are the bytes
    of an address ([n] = 20) or a hash ([n] = 32). *)
Definition SetBytes (l : list byte) : Z := be_value (byte_val <$> l).
Definition array (n : nat) (x : Z) : list byte := byte_of <$> be_bytes n x.
(** [Address.Big] and [Hash.Big]. *)
Definition address_Big (a : Address) : Z := SetBytes (array 20 a).
Definition hash_Big (h : Hash) : Z := SetBytes (array 32 h).

(** Methods of [big.Int]; [Uint64] and [Int64] take the low 64 bits. *)
Definition big_Uint64 (x : Z) : uint64 := wrap64 (Z.abs x).
Definition big_Int64 (x : Z) : Z := to_int64 (wrap64 (Z.sgn x * big_Uint64 x)).
Definition BitLen (x : Z) : Z := if Z.eqb x 0 then 0 else Z.log2 (Z.abs x) + 1.

(** [len] of a slice. *)
Definition lenZ {A} (l : list A) : Z := Z.of_nat (length l).

(** The slice expression [l[lo:hi]]. *)
Definition slice {A} (l : list A) (lo hi : Z) : outcome (list A) :=
  if (0 <=? lo) && (lo <=? hi) && (hi <=? lenZ l)
  then Ok (take (Z.to_nat (hi - lo)) (drop (Z.to_nat lo) l))
  else Panic "slice bounds out of range".

(** [copy] into the part of [dst] that starts at [off]. *)
Definition copy_at {A} (dst : list A) (off : Z) (src : list A) : list A :=
  take (Z.to_nat off) dst ++ src ++ drop (Z.to_nat off + length src) dst.

(** ** Libraries of theta *)

(** theta/common and theta/common/math *)
Class VmLib := {
  U256 : Z -> Z;
  S256 : Z -> Z;
  math_Exp : Z -> Z -> Z;
  math_Byte : Z -> Z -> Z -> Z;
  BigMax : Z -> Z -> Z;
  BigMin : Z -> Z -> Z;
  SafeAdd : uint64 -> uint64 -> uint64 * bool;
  SafeMul : uint64 -> uint64 -> uint64 * bool;
  ReadBits : Z -> list byte -> list byte;
  BigToAddress : Z -> Address;
  BigToHash : Z -> Hash;
  BytesToAddress : list byte -> Address;
  RightPadBytes : list byte -> Z -> list byte;
  LeftPadBytes : list byte -> Z -> list byte;
  U256_spec x : U256 x = x mod 2 ^ 256;
  S256_spec x : 0 <= x < 2 ^ 256 -> S256 x = if x <? 2 ^ 255 then x else x - 2 ^ 256;
  Exp_spec b e : 0 <= e -> math_Exp b e = (b ^ e) mod 2 ^ 256;
  Byte_spec x n i : 0 <= x -> 0 <= i < n -> math_Byte x n i = Z.land (Z.shiftr x (8 * (n - 1 - i))) 255;
  BigMax_spec x y : BigMax x y = Z.max x y;
  BigMin_spec x y : BigMin x y = Z.min x y;
  SafeAdd_spec x y : is_u64 x -> is_u64 y -> SafeAdd x y = (u64_add x y, two64 <=? x + y);
  SafeMul_spec x y : is_u64 x -> is_u64 y -> SafeMul x y = (u64_mul x y, two64 <=? x * y);
  ReadBits_spec x buf : ReadBits x buf = array (length buf) (Z.abs x);
  BigToAddress_spec x : BigToAddress x = Z.abs x mod 2 ^ 160;
  BigToHash_spec x : BigToHash x = Z.abs x mod 2 ^ 256;
  BytesToAddress_spec l : BytesToAddress l = SetBytes l mod 2 ^ 160;
  RightPadBytes_spec l n : RightPadBytes l n = l ++ replicate (Z.to_nat n - length l) zero_byte;
  LeftPadBytes_spec l n : LeftPadBytes l n = replicate (Z.to_nat n - length l) zero_byte ++ l
}.

(** theta/ledger/vm/params, with the gas table [params.ThetaGasTable].  The
    constants are 64-bit; every instruction that does not end the execution
    has a price, the transfer of value costs at least the stipend it gives,
    code is far smaller than the address space, and the divisors of the
    memory and exponentiation formulas are positive (20 in EIP-198). *)
Class VmParams := {
  StackLimit : uint64;
  CallCreateDepth : uint64;
  MaxCodeSizeForMetachain : Z;
  MemoryGas : uint64;
  QuadCoeffDiv : uint64;
  CopyGas : uint64;
  LogGas : uint64;
  LogTopicGas : uint64;
  LogDataGas : uint64;
  Sha3Gas : uint64;
  Sha3WordGas : uint64;
  JumpdestGas : uint64;
  CreateGas : uint64;
  Create2Gas : uint64;
  CreateDataGas : uint64;
  CallNewAccountGas : uint64;
  CallValueTransferGas : uint64;
  CallStipend : uint64;
  SuicideRefundGas : uint64;
  NetSstoreNoopGas : uint64;
  NetSstoreInitGas : uint64;
  NetSstoreCleanGas : uint64;
  NetSstoreDirtyGas : uint64;
  NetSstoreClearRefund : uint64;
  NetSstoreResetRefund : uint64;
  NetSstoreResetClearRefund : uint64;
  gt_ExtcodeSize : uint64;
  gt_ExtcodeCopy : uint64;
  gt_ExtcodeHash : uint64;
  gt_Balance : uint64;
  gt_SLoad : uint64;
  gt_Calls : uint64;
  gt_Suicide : uint64;
  gt_ExpByte : uint64;
  gt_CreateBySuicide : uint64;
  EcrecoverGas : uint64;
  Sha256BaseGas : uint64;
  Sha256PerWordGas : uint64;
  Ripemd160BaseGas : uint64;
  Ripemd160PerWordGas : uint64;
  IdentityBaseGas : uint64;
  IdentityPerWordGas : uint64;
  ModExpQuadCoeffDiv : uint64;
  Bn256AddGas : uint64;
  Bn256AddGasIstanbul : uint64;
  Bn256ScalarMulGas : uint64;
  Bn256ScalarMulGasIstanbul : uint64;
  Bn256PairingBaseGas : uint64;
  Bn256PairingPerPointGas : uint64;
  Bn256PairingBaseGasIstanbul : uint64;
  Bn256PairingPerPointGasIstanbul : uint64;
  params_u64 : is_u64 CopyGas /\ is_u64 LogGas /\ is_u64 LogDataGas /\ is_u64 Sha3Gas /\ is_u64 Sha3WordGas /\
    is_u64 JumpdestGas /\ is_u64 CreateGas /\ is_u64 Create2Gas /\ is_u64 gt_ExtcodeCopy /\ is_u64 gt_ExtcodeSize /\
    is_u64 gt_ExtcodeHash /\ is_u64 gt_Balance /\ is_u64 gt_SLoad /\ is_u64 gt_Calls /\ is_u64 gt_Suicide /\
    is_u64 NetSstoreNoopGas /\ is_u64 NetSstoreInitGas /\ is_u64 NetSstoreCleanGas /\ is_u64 NetSstoreDirtyGas /\
    is_u64 CallStipend /\ is_u64 EcrecoverGas /\ is_u64 Bn256AddGas /\ is_u64 Bn256AddGasIstanbul /\
    is_u64 Bn256ScalarMulGas /\ is_u64 Bn256ScalarMulGasIstanbul;
  params_pos : 1 <= JumpdestGas /\ 1 <= LogGas /\ 1 <= Sha3Gas /\ 1 <= CreateGas /\ 1 <= Create2Gas /\
    1 <= gt_ExtcodeCopy /\ 1 <= gt_ExtcodeSize /\ 1 <= gt_ExtcodeHash /\ 1 <= gt_Balance /\ 1 <= gt_SLoad /\
    1 <= gt_Calls /\ 1 <= NetSstoreNoopGas /\ 1 <= NetSstoreInitGas /\ 1 <= NetSstoreCleanGas /\
    1 <= NetSstoreDirtyGas;
  params_call : 0 <= CallNewAccountGas /\ CallStipend <= CallValueTransferGas /\
    gt_Calls + CallNewAccountGas + CallValueTransferGas < two64;
  params_sizes : 0 <= MaxCodeSizeForMetachain < 2 ^ 62 /\ 0 < QuadCoeffDiv /\ ModExpQuadCoeffDiv = 20
}.

(** ** Errors (errors.go, instructions.go, jump_table.go) *)

Inductive VMError :=
| ErrOutOfGas
| ErrCodeStoreOutOfGas
| ErrDepth
| ErrInsufficientBalance
| ErrContractAddressCollision
| errWriteProtection
| errReturnDataOutOfBounds
| errExecutionReverted
| errMaxCodeSizeExceeded
| errGasUintOverflow
| errInvalidOpcode (op : Z)
| errStackUnderflow
| errStackLimit
| errInvalidJump (pos : Z)
| errText (msg : string).

#[export] Instance VMError_eq_dec : EqDecision VMError.
Proof. solve_decision. Defined.

(** ** Opcodes (opcodes.go) *)

Definition STOP : Z := 0x00.
Definition ADD : Z := 0x01.
Definition MUL : Z := 0x02.
Definition SUB : Z := 0x03.
Definition DIV : Z := 0x04.
Definition SDIV : Z := 0x05.
Definition MOD : Z := 0x06.
Definition SMOD : Z := 0x07.
Definition ADDMOD : Z := 0x08.
Definition MULMOD : Z := 0x09.
Definition EXP : Z := 0x0a.
Definition SIGNEXTEND : Z := 0x0b.
Definition LT : Z := 0x10.
Definition GT : Z := 0x11.
Definition SLT : Z := 0x12.
Definition SGT : Z := 0x13.
Definition EQ : Z := 0x14.
Definition ISZERO : Z := 0x15.
Definition AND : Z := 0x16.
Definition OR : Z := 0x17.
Definition XOR : Z := 0x18.
Definition NOT : Z := 0x19.
Definition BYTE : Z := 0x1a.
Definition SHL : Z := 0x1b.
Definition SHR : Z := 0x1c.
Definition SAR : Z := 0x1d.
Definition SHA3 : Z := 0x20.
Definition ADDRESS : Z := 0x30.
Definition BALANCE : Z := 0x31.
Definition ORIGIN : Z := 0x32.
Definition CALLER : Z := 0x33.
Definition CALLVALUE : Z := 0x34.
Definition CALLDATALOAD : Z := 0x35.
Definition CALLDATASIZE : Z := 0x36.
Definition CALLDATACOPY : Z := 0x37.
Definition CODESIZE : Z := 0x38.
Definition CODECOPY : Z := 0x39.
Definition GASPRICE : Z := 0x3a.
Definition EXTCODESIZE : Z := 0x3b.
Definition EXTCODECOPY : Z := 0x3c.
Definition RETURNDATASIZE : Z := 0x3d.
Definition RETURNDATACOPY : Z := 0x3e.
Definition EXTCODEHASH : Z := 0x3f.
Definition BLOCKHASH : Z := 0x40.
Definition COINBASE : Z := 0x41.
Definition TIMESTAMP : Z := 0x42.
Definition NUMBER : Z := 0x43.
Definition DIFFICULTY : Z := 0x44.
Definition GASLIMIT : Z := 0x45.
Definition CHAINID : Z := 0x46.
Definition SELFBALANCE : Z := 0x47.
Definition POP : Z := 0x50.
Definition MLOAD : Z := 0x51.
Definition MSTORE : Z := 0x52.
Definition MSTORE8 : Z := 0x53.
Definition SLOAD : Z := 0x54.
Definition SSTORE : Z := 0x55.
Definition JUMP : Z := 0x56.
Definition JUMPI : Z := 0x57.
Definition PC : Z := 0x58.
Definition MSIZE : Z := 0x59.
Definition GAS : Z := 0x5a.
Definition JUMPDEST : Z := 0x5b.
Definition PUSH1 : Z := 0x60.
Definition PUSH32 : Z := 0x7f.
Definition DUP1 : Z := 0x80.
Definition SWAP1 : Z := 0x90.
Definition LOG0 : Z := 0xa0.
Definition CREATE : Z := 0xf0.
Definition CALL : Z := 0xf1.
Definition CALLCODE : Z := 0xf2.
Definition RETURN : Z := 0xf3.
Definition DELEGATECALL : Z := 0xf4.
Definition CREATE2 : Z := 0xf5.
Definition STATICCALL : Z := 0xfa.
Definition REVERT : Z := 0xfd.
Definition SELFDESTRUCT : Z := 0xff.

(** [IsPush] and [IsStaticJump]. *)
Definition IsPush (op : Z) : bool := (PUSH1 <=? op) && (op <=? PUSH32).
Definition IsStaticJump (op : Z) : bool := Z.eqb op JUMP.

(** ** Gas costs (gas.go) *)

Definition GasQuickStep : uint64 := 2.
Definition GasFastestStep : uint64 := 3.
Definition GasFastStep : uint64 := 5.
Definition GasMidStep : uint64 := 8.
Definition GasSlowStep : uint64 := 10.
Definition GasExtStep : uint64 := 20.

(** ** The stack (stack.go): the head of the list is the top *)

Abbreviation Stack := (list Z) (only parsing).

Definition Back (st : Stack) (n : nat) : outcome Z :=
  match st !! n with Some x => Ok x | None => Panic "index out of range" end.

(** [swap n] exchanges the top and the [n]-th element from the top. *)
Definition stack_swap (st : Stack) (n : nat) : outcome Stack :=
  match st !! 0%nat, st !! (n - 1)%nat with
  | Some x, Some y => Ok (<[0%nat := y]> (<[(n - 1)%nat := x]> st))
  | _, _ => Panic "index out of range"
  end.

(** ** Memory (memory.go) *)

Record Memory := mkMemory { store : list byte; lastGasCost : uint64 }.

Definition NewMemory : Memory := mkMemory [] 0.
Definition with_store (m : Memory) (l : list byte) : Memory := mkMemory l (lastGasCost m).
Definition memory_Len (m : Memory) : Z := lenZ (store m).

Definition memory_Set (m : Memory) (offset size : uint64) (value : list byte) : outcome Memory :=
  if 0 <? size then
    if lenZ (store m) <? u64_add offset size then Panic "invalid memory: store empty"
    else _ ← slice (store m) offset (u64_add offset size);
         Ok (with_store m (copy_at (store m) offset (take (Z.to_nat size) value)))
  else Ok m.

Section Data.
Context `{VmLib} `{VmParams}.

Definition memory_Set32 (m : Memory) (offset : uint64) (val : Z) : outcome Memory :=
  if lenZ (store m) <? u64_add offset 32 then Panic "invalid memory: store empty"
  else
    area ← slice (store m) offset (u64_add offset 32);
    Ok (with_store m (copy_at (store m) offset (ReadBits val area))).

Definition Resize (m : Memory) (size : uint64) : Memory :=
  if memory_Len m <? size
  then with_store m (store m ++ replicate (Z.to_nat (u64_sub size (memory_Len m))) zero_byte)
  else m.

(** [Get] and [GetPtr]; [offset] and [size] are signed. *)
Definition memory_Get (m : Memory) (offset size : Z) : outcome (list byte) :=
  if Z.eqb size 0 then Ok []
  else if offset <? lenZ (store m) then
    if size <? 0 then Panic "makeslice: len out of range" else slice (store m) offset (offset + size)
  else Ok [].
Definition memory_GetPtr (m : Memory) (offset size : Z) : outcome (list byte) :=
  if Z.eqb size 0 then Ok []
  else if offset <? lenZ (store m) then slice (store m) offset (offset + size)
  else Ok [].

(** ** Common functions (common.go) *)

Definition calcMemSize (off l : Z) : Z := if Z.eqb l 0 then 0 else off + l.

Definition getData (data : list byte) (start size : uint64) : outcome (list byte) :=
  let length := lenZ data in
  let start := if length <? start then length else start in
  let end_ := u64_add start size in
  let end_ := if length <? end_ then length else end_ in
  part ← slice data start end_;
  Ok (RightPadBytes part (to_int64 size)).

Definition getDataBig (data : list byte) (start size : Z) : outcome (list byte) :=
  let dlen := lenZ data in
  let s := BigMin start dlen in
  let e := BigMin (s + size) dlen in
  part ← slice data (big_Uint64 s) (big_Uint64 e);
  Ok (RightPadBytes part (to_int64 (big_Uint64 size))).

Definition bigUint64 (v : Z) : uint64 * bool := (big_Uint64 v, 64 <? BitLen v).

Definition toWordSize (size : uint64) : uint64 :=
  if 18446744073709551615 - 31 <? size then 18446744073709551615 / 32 + 1
  else u64_add size 31 / 32.

Definition allZero (b : list byte) : bool := forallb (fun x => Z.eqb (byte_val x) 0) b.

(** ** Stack validation (stack_table.go) *)

Definition require (st : Stack) (n : nat) : option VMError :=
  if (length st <? n)%nat then Some errStackUnderflow else None.

Definition makeStackFunc (pop push : nat) (st : Stack) : option VMError :=
  match require st pop with
  | Some e => Some e
  | None => if StackLimit <? lenZ st + Z.of_nat push - Z.of_nat pop then Some errStackLimit else None
  end.
Definition makeDupStackFunc (n : nat) : Stack -> option VMError := makeStackFunc n (n + 1).
Definition makeSwapStackFunc (n : nat) : Stack -> option VMError := makeStackFunc n n.

(** ** Memory sizes (memory_table.go) *)

Definition memorySha3 (st : Stack) : outcome Z := off ← Back st 0; l ← Back st 1; Ok (calcMemSize off l).
Definition memoryCallDataCopy (st : Stack) : outcome Z := off ← Back st 0; l ← Back st 2; Ok (calcMemSize off l).
Definition memoryReturnDataCopy (st : Stack) : outcome Z := off ← Back st 0; l ← Back st 2; Ok (calcMemSize off l).
Definition memoryCodeCopy (st : Stack) : outcome Z := off ← Back st 0; l ← Back st 2; Ok (calcMemSize off l).
Definition memoryExtCodeCopy (st : Stack) : outcome Z := off ← Back st 1; l ← Back st 3; Ok (calcMemSize off l).
Definition memoryMLoad (st : Stack) : outcome Z := off ← Back st 0; Ok (calcMemSize off 32).
Definition memoryMStore8 (st : Stack) : outcome Z := off ← Back st 0; Ok (calcMemSize off 1).
Definition memoryMStore (st : Stack) : outcome Z := off ← Back st 0; Ok (calcMemSize off 32).
Definition memoryCreate (st : Stack) : outcome Z := off ← Back st 1; l ← Back st 2; Ok (calcMemSize off l).
Definition memoryCreate2 (st : Stack) : outcome Z := off ← Back st 1; l ← Back st 2; Ok (calcMemSize off l).
Definition memoryCall (st : Stack) : outcome Z :=
  ro ← Back st 5; rl ← Back st 6; io ← Back st 3; il ← Back st 4;
  Ok (BigMax (calcMemSize ro rl) (calcMemSize io il)).
Definition memoryDelegateCall (st : Stack) : outcome Z :=
  ro ← Back st 4; rl ← Back st 5; io ← Back st 2; il ← Back st 3;
  Ok (BigMax (calcMemSize ro rl) (calcMemSize io il)).
Definition memoryStaticCall (st : Stack) : outcome Z :=
  ro ← Back st 4; rl ← Back st 5; io ← Back st 2; il ← Back st 3;
  Ok (BigMax (calcMemSize ro rl) (calcMemSize io il)).
Definition memoryReturn (st : Stack) : outcome Z := off ← Back st 0; l ← Back st 1; Ok (calcMemSize off l).
Definition memoryRevert (st : Stack) : outcome Z := off ← Back st 0; l ← Back st 1; Ok (calcMemSize off l).
Definition memoryLog (st : Stack) : outcome Z := mSize ← Back st 1; mStart ← Back st 0; Ok (calcMemSize mStart mSize).

(** ** Code analysis (analysis.go) *)

Definition or_byte (bits : bitvec) (i : Z) (mask : Z) : outcome bitvec :=
  match bits !! Z.to_nat i with
  | Some b => Ok (<[Z.to_nat i := Z.lor b mask]> bits)
  | None => Panic "index out of range"
  end.

Definition bits_set (bits : bitvec) (pos : uint64) : outcome bitvec :=
  or_byte bits (pos / 8) (Z.shiftr 0x80 (pos mod 8)).
Definition bits_set8 (bits : bitvec) (pos : uint64) : outcome bitvec :=
  bits ← or_byte bits (pos / 8) (Z.shiftr 0xff (pos mod 8));
  or_byte bits (pos / 8 + 1) (Z.lxor 0xff (Z.shiftr 0xff (pos mod 8))).
Definition codeSegment (bits : bitvec) (pos : uint64) : outcome bool :=
  match bits !! Z.to_nat (pos / 8) with
  | Some b => Ok (Z.eqb (Z.land b (Z.shiftr 0x80 (pos mod 8))) 0)
  | None => Panic "index out of range"
  end.

(** The inner loops of [codeBitmap]: [k] groups of eight bytes, then [k]
    single bytes; both return the program counter they have reached. *)
Fixpoint set_eights (k : nat) (bits : bitvec) (pc : uint64) : outcome (bitvec * uint64) :=
  match k with
  | O => Ok (bits, pc)
  | S k' => bits ← bits_set8 bits pc; set_eights k' bits (pc + 8)
  end.
Fixpoint set_ones (k : nat) (bits : bitvec) (pc : uint64) : outcome (bitvec * uint64) :=
  match k with
  | O => Ok (bits, pc)
  | S k' => bits ← bits_set bits pc; set_ones k' bits (pc + 1)
  end.

Fixpoint bitmap_loop (fuel : nat) (code : list byte) (bits : bitvec) (pc : uint64) : outcome bitvec :=
  match code !! Z.to_nat pc with
  | None => Ok bits
  | Some b =>
    match fuel with
    | O => Err "out of fuel"
    | S fuel' =>
      let op := byte_val b in
      if IsPush op then
        let numbits := op - PUSH1 + 1 in
        '(bits, pc) ← set_eights (Z.to_nat (numbits / 8)) bits (pc + 1);
        '(bits, pc) ← set_ones (Z.to_nat (numbits mod 8)) bits pc;
        bitmap_loop fuel' code bits pc
      else bitmap_loop fuel' code bits (pc + 1)
    end
  end.

Definition codeBitmap (code : list byte) : outcome bitvec :=
  bitmap_loop (length code) code (replicate (length code / 8 + 1 + 4) 0) 0.

(** ** Contracts (contract.go) *)

(** A [ContractRef] is an account, or a running contract with its caller and
    its value. *)
Inductive ContractRef :=
| AccountRef (addr : Address)
| ContractOf (addr callerAddress : Address) (value : Z).

Definition ref_Address (r : ContractRef) : Address :=
  match r with AccountRef a => a | ContractOf a _ _ => a end.

Record Contract := mkContract {
  CallerAddress : Address;
  caller : ContractRef;
  self : Address;
  analysis : option bitvec;
  Code : list byte;
  CodeHash : Hash;
  CodeAddr : option Address;
  Input : list byte;
  Gas : uint64;
  value : Z
}.

Definition NewContract (caller : ContractRef) (object : Address) (value : Z) (gas : uint64) : Contract :=
  mkContract (ref_Address caller) caller object None [] 0 None [] gas value.

Definition contract_ref (c : Contract) : ContractRef := ContractOf (self c) (CallerAddress c) (value c).

Definition AsDelegate (c : Contract) : outcome Contract :=
  match caller c with
  | AccountRef _ => Panic "interface conversion"
  | ContractOf _ parentCaller parentValue =>
    Ok (mkContract parentCaller (caller c) (self c) (analysis c) (Code c) (CodeHash c) (CodeAddr c) (Input c)
          (Gas c) parentValue)
  end.

Definition SetCallCode (c : Contract) (addr : option Address) (hash : Hash) (code : list byte) : Contract :=
  mkContract (CallerAddress c) (caller c) (self c) (analysis c) code hash addr (Input c) (Gas c) (value c).
(** [SetCodeOptionalHash] with its code and hash; the zero hash means none. *)
Definition SetCodeOptionalHash (c : Contract) (addr : option Address) (code : list byte) (hash : Hash) : Contract :=
  mkContract (CallerAddress c) (caller c) (self c) (analysis c) code hash addr (Input c) (Gas c) (value c).
Definition with_input (c : Contract) (input : list byte) : Contract :=
  mkContract (CallerAddress c) (caller c) (self c) (analysis c) (Code c) (CodeHash c) (CodeAddr c) input (Gas c) (value c).
Definition with_gas (c : Contract) (gas : uint64) : Contract :=
  mkContract (CallerAddress c) (caller c) (self c) (analysis c) (Code c) (CodeHash c) (CodeAddr c) (Input c) gas (value c).
Definition with_analysis (c : Contract) (bits : bitvec) : Contract :=
  mkContract (CallerAddress c) (caller c) (self c) (Some bits) (Code c) (CodeHash c) (CodeAddr c) (Input c) (Gas c) (value c).

Definition GetByte (c : Contract) (n : uint64) : Z :=
  match Code c !! Z.to_nat n with Some b => byte_val b | None => 0 end.
Definition GetOp (c : Contract) (n : uint64) : Z := GetByte c n.

Definition UseGas (c : Contract) (gas : uint64) : bool * Contract :=
  if Gas c <? gas then (false, c) else (true, with_gas c (u64_sub (Gas c) gas)).

(** [validJumpdest] with the analyses shared by the calls of a transaction;
    it returns the caches it has filled. *)
Definition validJumpdest (jumpdests : gmap Hash bitvec) (c : Contract) (dest : Z)
    : outcome (bool * gmap Hash bitvec * Contract) :=
  let udest := big_Uint64 dest in
  if (63 <=? BitLen dest) || (lenZ (Code c) <=? udest) then Ok (false, jumpdests, c)
  else if negb (Z.eqb (GetOp c udest) JUMPDEST) then Ok (false, jumpdests, c)
  else if negb (Z.eqb (CodeHash c) 0) then
    match jumpdests !! CodeHash c with
    | Some bits => ok ← codeSegment bits udest; Ok (ok, jumpdests, c)
    | None =>
      bits ← codeBitmap (Code c);
      ok ← codeSegment bits udest;
      Ok (ok, <[CodeHash c := bits]> jumpdests, c)
    end
  else
    match analysis c with
    | Some bits => ok ← codeSegment bits udest; Ok (ok, jumpdests, c)
    | None =>
      bits ← codeBitmap (Code c);
      ok ← codeSegment bits udest;
      Ok (ok, jumpdests, with_analysis c bits)
    end.

(** [callGas] (gas.go): the 63/64 rule. *)
Definition callGas (availableGas base : uint64) (callCost : Z) : VMError + uint64 :=
  let available := u64_sub availableGas base in
  let gas := u64_sub available (available / 64) in
  if (0 <? gt_CreateBySuicide) && ((64 <? BitLen callCost) || (gas <? big_Uint64 callCost)) then inr gas
  else if 64 <? BitLen callCost then inl errGasUintOverflow
  else inr (big_Uint64 callCost).
End Data.
