(* ===== verification/VmOps.v ===== *)
(** * Gas costs and instructions of the virtual machine
    (src/ledger/vm/gas_table.go and instructions.go)

    A gas function and an instruction are programs of a state and error monad
    over the state of the interpreter: the machine (state database, gas of the
    pending call, return data, jump analyses), the running contract, its
    program counter, memory and stack.  A Go error keeps the state reached,
    as the code does; [Err] of [outcome] is reserved for exhausted fuel.  The
    message calls of vm.go are an argument of the instructions that use them. *)

From Stdlib Require Import Ascii.
From stdpp Require Import gmap sorting relations.
From stdpp Require Import base list numbers strings.
From S2P Require Import Prelude Vote Validator Block StoreView Execution VmData.
Local Open Scope string_scope.
Local Open Scope list_scope.
Local Open Scope Z_scope.

(** ** The state of the interpreter *)

Record Machine := mkMachine {
  StateDB : StoreView;
  callGasTemp : uint64;
  returnData : list byte;
  jumpdests : gmap Hash bitvec
}.

Record ExecState := mkExec {
  machine : Machine;
  contract : Contract;
  pc : uint64;
  memory : Memory;
  stack : Stack
}.

Definition with_db (m : Machine) (db : StoreView) : Machine := mkMachine db (callGasTemp m) (returnData m) (jumpdests m).
Definition with_callGasTemp (m : Machine) (g : uint64) : Machine := mkMachine (StateDB m) g (returnData m) (jumpdests m).
Definition with_returnData (m : Machine) (d : list byte) : Machine := mkMachine (StateDB m) (callGasTemp m) d (jumpdests m).
Definition with_jumpdests (m : Machine) (j : gmap Hash bitvec) : Machine := mkMachine (StateDB m) (callGasTemp m) (returnData m) j.

Definition set_machine (m : Machine) (s : ExecState) : ExecState := mkExec m (contract s) (pc s) (memory s) (stack s).
Definition set_contract (c : Contract) (s : ExecState) : ExecState := mkExec (machine s) c (pc s) (memory s) (stack s).
Definition set_pc (p : uint64) (s : ExecState) : ExecState := mkExec (machine s) (contract s) p (memory s) (stack s).
Definition set_memory (m : Memory) (s : ExecState) : ExecState := mkExec (machine s) (contract s) (pc s) m (stack s).
Definition set_stack (st : Stack) (s : ExecState) : ExecState := mkExec (machine s) (contract s) (pc s) (memory s) st.

(** What does not change while a contract runs: the context of the message
    call, the chain, the depth of calls and the write protection.  [depth] and
    [readOnly] are restored by the deferred functions of [Run]. *)
Record Env := mkEnv {
  context : EvmContext;
  evm_chainID : Z;
  NoRecursion : bool;
  depth : Z;
  readOnly : bool
}.

(** ** The monad *)

Definition X (A : Type) : Type := ExecState -> outcome ((VMError + A) * ExecState).

#[export] Instance X_ret : MRet X := fun A a s => Ok (inr a, s).
#[export] Instance X_bind : MBind X := fun A B f m s =>
  match m s with
  | Ok (inr a, s') => f a s'
  | Ok (inl e, s') => Ok (inl e, s')
  | Err msg => Err msg
  | Panic msg => Panic msg
  end.

Definition done {A} (a : A) : X A := fun s => Ok (inr a, s).
Definition fail {A} (e : VMError) : X A := fun s => Ok (inl e, s).
Definition get {A} (f : ExecState -> A) : X A := fun s => Ok (inr (f s), s).
Definition update (f : ExecState -> ExecState) : X unit := fun s => Ok (inr tt, f s).
Definition run_outcome {A} (f : ExecState -> outcome A) : X A := fun s =>
  match f s with Ok a => Ok (inr a, s) | Err msg => Err msg | Panic msg => Panic msg end.

Definition pop : X Z := fun s =>
  match stack s with
  | x :: st => Ok (inr x, set_stack st s)
  | [] => Panic "index out of range"
  end.
Definition push (x : Z) : X unit := update (fun s => set_stack (x :: stack s) s).
Definition back (n : nat) : X Z := run_outcome (fun s => Back (stack s) n).
Definition db : X StoreView := get (fun s => StateDB (machine s)).
Definition set_db (v : StoreView) : X unit := update (fun s => set_machine (with_db (machine s) v) s).
(** An operation of the state database that may panic. *)
Definition on_db (f : StoreView -> outcome StoreView) : X unit :=
  v ← run_outcome (fun s => f (StateDB (machine s))); set_db v.
Definition on_memory (f : Memory -> outcome Memory) : X unit :=
  m ← run_outcome (fun s => f (memory s)); update (set_memory m).
Definition read_memory (offset size : Z) : X (list byte) := run_outcome (fun s => memory_Get (memory s) offset size).
Definition self_address : X Address := get (fun s => self (contract s)).

Section Instructions.
Context `{ThetaTypes} `{TrieHash} `{VmLib} `{VmParams}.

(** ** Gas costs (gas_table.go) *)

Definition memoryGasCost (newMemSize : uint64) : X uint64 :=
  if Z.eqb newMemSize 0 then done 0
  else if 0xffffffffe0 <? newMemSize then fail errGasUintOverflow
  else
    let newMemSizeWords := toWordSize newMemSize in
    let newMemSize := u64_mul newMemSizeWords 32 in
    mem ← get memory;
    if memory_Len mem <? newMemSize then
      let square := u64_mul newMemSizeWords newMemSizeWords in
      let linCoef := u64_mul newMemSizeWords MemoryGas in
      let quadCoef := square / QuadCoeffDiv in
      let newTotalFee := u64_add linCoef quadCoef in
      let fee := u64_sub newTotalFee (lastGasCost mem) in
      _ ← update (set_memory (mkMemory (store mem) newTotalFee));
      done fee
    else done 0.

Definition safe_add (x y : uint64) : X uint64 :=
  let (r, overflow) := SafeAdd x y in if overflow : bool then fail errGasUintOverflow else done r.
Definition safe_mul (x y : uint64) : X uint64 :=
  let (r, overflow) := SafeMul x y in if overflow : bool then fail errGasUintOverflow else done r.
Definition back_uint64 (n : nat) : X uint64 :=
  v ← back n;
  let (r, overflow) := bigUint64 v in if overflow : bool then fail errGasUintOverflow else done r.

Definition gasFunc : Type := uint64 -> X uint64.

Definition constGasFunc (gas : uint64) : gasFunc := fun _ => done gas.

Definition gasCallDataCopy : gasFunc := fun memorySize =>
  gas ← memoryGasCost memorySize;
  gas ← safe_add gas GasFastestStep;
  words ← back_uint64 2;
  words ← safe_mul (toWordSize words) CopyGas;
  safe_add gas words.

Definition gasReturnDataCopy : gasFunc := fun memorySize =>
  gas ← memoryGasCost memorySize;
  gas ← safe_add gas GasFastestStep;
  words ← back_uint64 2;
  words ← safe_mul (toWordSize words) CopyGas;
  safe_add gas words.

Definition GetCommittedState (v : StoreView) (addr : Address) (key : Hash) : outcome Hash := GetState v addr key.

Definition gasSStore : gasFunc := fun _ =>
  y ← back 1;
  x ← back 0;
  addr ← self_address;
  current ← run_outcome (fun s => GetState (StateDB (machine s)) addr (BigToHash x));
  let value := BigToHash y in
  if Z.eqb current value then done NetSstoreNoopGas
  else
    original ← run_outcome (fun s => GetCommittedState (StateDB (machine s)) addr (BigToHash x));
    if Z.eqb original current then
      if Z.eqb original 0 then done NetSstoreInitGas
      else
        _ ← (if Z.eqb value 0 then on_db (fun v => Ok (AddRefund v NetSstoreClearRefund)) else done tt);
        done NetSstoreCleanGas
    else
      _ ← (if negb (Z.eqb original 0) then
             if Z.eqb current 0 then on_db (fun v => SubRefund v NetSstoreClearRefund)
             else if Z.eqb value 0 then on_db (fun v => Ok (AddRefund v NetSstoreClearRefund))
             else done tt
           else done tt);
      _ ← (if Z.eqb original value then
             if Z.eqb original 0 then on_db (fun v => Ok (AddRefund v NetSstoreResetClearRefund))
             else on_db (fun v => Ok (AddRefund v NetSstoreResetRefund))
           else done tt);
      done NetSstoreDirtyGas.

Definition makeGasLog (n : uint64) : gasFunc := fun memorySize =>
  requestedSize ← back_uint64 1;
  gas ← memoryGasCost memorySize;
  gas ← safe_add gas LogGas;
  gas ← safe_add gas (u64_mul n LogTopicGas);
  memorySizeGas ← safe_mul requestedSize LogDataGas;
  safe_add gas memorySizeGas.

Definition gasSha3 : gasFunc := fun memorySize =>
  gas ← memoryGasCost memorySize;
  gas ← safe_add gas Sha3Gas;
  wordGas ← back_uint64 1;
  wordGas ← safe_mul (toWordSize wordGas) Sha3WordGas;
  safe_add gas wordGas.

Definition gasCodeCopy : gasFunc := fun memorySize =>
  gas ← memoryGasCost memorySize;
  gas ← safe_add gas GasFastestStep;
  wordGas ← back_uint64 2;
  wordGas ← safe_mul (toWordSize wordGas) CopyGas;
  safe_add gas wordGas.

Definition gasExtCodeCopy : gasFunc := fun memorySize =>
  gas ← memoryGasCost memorySize;
  gas ← safe_add gas gt_ExtcodeCopy;
  wordGas ← back_uint64 3;
  wordGas ← safe_mul (toWordSize wordGas) CopyGas;
  safe_add gas wordGas.

Definition gasExtCodeHash : gasFunc := fun _ => done gt_ExtcodeHash.
Definition gasMLoad : gasFunc := fun memorySize => gas ← memoryGasCost memorySize; safe_add gas GasFastestStep.
Definition gasMStore8 : gasFunc := fun memorySize => gas ← memoryGasCost memorySize; safe_add gas GasFastestStep.
Definition gasMStore : gasFunc := fun memorySize => gas ← memoryGasCost memorySize; safe_add gas GasFastestStep.
Definition gasCreate : gasFunc := fun memorySize => gas ← memoryGasCost memorySize; safe_add gas CreateGas.

Definition gasCreate2 : gasFunc := fun memorySize =>
  gas ← memoryGasCost memorySize;
  gas ← safe_add gas Create2Gas;
  wordGas ← back_uint64 2;
  wordGas ← safe_mul (toWordSize wordGas) Sha3WordGas;
  safe_add gas wordGas.

Definition gasBalance : gasFunc := fun _ => done gt_Balance.
Definition gasExtCodeSize : gasFunc := fun _ => done gt_ExtcodeSize.
Definition gasSLoad : gasFunc := fun _ => done gt_SLoad.

Definition gasExp : gasFunc := fun _ =>
  e ← back 1;
  let expByteLen := (BitLen e + 7) / 8 in
  safe_add (u64_mul expByteLen gt_ExpByte) GasSlowStep.

(** The end of the gas functions of calls: the gas that goes to the callee. *)
Definition call_gas (gas : uint64) : X uint64 :=
  available ← get (fun s => Gas (contract s));
  requested ← back 0;
  match callGas available gas requested with
  | inl e => fail e
  | inr temp =>
    _ ← update (fun s => set_machine (with_callGasTemp (machine s) temp) s);
    safe_add gas temp
  end.

Definition gasCall : gasFunc := fun memorySize =>
  v ← back 2;
  a ← back 1;
  let transfersValue := negb (Z.eqb v 0) in
  let address := BigToAddress a in
  view ← db;
  let gas := gt_Calls in
  let gas := if transfersValue && Empty view address then u64_add gas CallNewAccountGas else gas in
  let gas := if transfersValue then u64_add gas CallValueTransferGas else gas in
  memoryGas ← memoryGasCost memorySize;
  gas ← safe_add gas memoryGas;
  call_gas gas.

Definition gasCallCode : gasFunc := fun memorySize =>
  v ← back 2;
  let gas := gt_Calls in
  let gas := if negb (Z.eqb v 0) then u64_add gas CallValueTransferGas else gas in
  memoryGas ← memoryGasCost memorySize;
  gas ← safe_add gas memoryGas;
  call_gas gas.

Definition gasReturn : gasFunc := memoryGasCost.
Definition gasRevert : gasFunc := memoryGasCost.

Definition gasSuicide : gasFunc := fun _ =>
  a ← back 0;
  let address := BigToAddress a in
  me ← self_address;
  view ← db;
  let gas := gt_Suicide in
  let gas := if Empty view address && negb (Z.eqb (GetBalance view me) 0) then u64_add gas gt_CreateBySuicide else gas in
  _ ← (if negb (HasSuicided view me) then on_db (fun v => Ok (AddRefund v SuicideRefundGas)) else done tt);
  done gas.

Definition gasDelegateCall : gasFunc := fun memorySize =>
  gas ← memoryGasCost memorySize;
  gas ← safe_add gas gt_Calls;
  call_gas gas.

Definition gasStaticCall : gasFunc := fun memorySize =>
  gas ← memoryGasCost memorySize;
  gas ← safe_add gas gt_Calls;
  call_gas gas.

Definition gasPush : gasFunc := fun _ => done GasFastestStep.
Definition gasSwap : gasFunc := fun _ => done GasFastestStep.
Definition gasDup : gasFunc := fun _ => done GasFastestStep.

(** ** Instructions (instructions.go)

    [pop] followed by [push] of the new value also models the updates in place
    of the top of the stack. *)

Definition tt255 : Z := 2 ^ 255.
Definition word (b : bool) : Z := if b then 1 else 0.
Definition executionFunc : Type := X (list byte).
Definition nil_nil : executionFunc := done [].

Definition opAdd : executionFunc := x ← pop; y ← pop; _ ← push (U256 (x + y)); nil_nil.
Definition opSub : executionFunc := x ← pop; y ← pop; _ ← push (U256 (x - y)); nil_nil.
Definition opMul : executionFunc := x ← pop; y ← pop; _ ← push (U256 (x * y)); nil_nil.
Definition opDiv : executionFunc :=
  x ← pop; y ← pop;
  _ ← push (if negb (Z.eqb y 0) then U256 (x / y) else 0); nil_nil.
Definition opSdiv : executionFunc :=
  x ← pop; y ← pop;
  let x := S256 x in
  let y := S256 y in
  _ ← push (if Z.eqb y 0 || Z.eqb x 0 then 0
            else if negb (Z.eqb (Z.sgn x) (Z.sgn y)) then U256 (- (Z.abs x / Z.abs y))
            else U256 (Z.abs x / Z.abs y));
  nil_nil.
Definition opMod : executionFunc :=
  x ← pop; y ← pop; _ ← push (if Z.eqb y 0 then 0 else U256 (x mod y)); nil_nil.
Definition opSmod : executionFunc :=
  x ← pop; y ← pop;
  let x := S256 x in
  let y := S256 y in
  _ ← push (if Z.eqb y 0 then 0
            else if x <? 0 then U256 (- (Z.abs x mod Z.abs y))
            else U256 (Z.abs x mod Z.abs y));
  nil_nil.
Definition opExp : executionFunc := base ← pop; exponent ← pop; _ ← push (math_Exp base exponent); nil_nil.
Definition opSignExtend : executionFunc :=
  back ← pop;
  if back <? 31 then
    let bit := u64_add (u64_mul (big_Uint64 back) 8) 7 in
    num ← pop;
    let mask := Z.shiftl 1 bit - 1 in
    let num := if Z.testbit num bit then Z.lor num (Z.lnot mask) else Z.land num mask in
    _ ← push (U256 num);
    nil_nil
  else nil_nil.
Definition opNot : executionFunc := x ← pop; _ ← push (U256 (Z.lnot x)); nil_nil.
Definition opLt : executionFunc := x ← pop; y ← pop; _ ← push (word (x <? y)); nil_nil.
Definition opGt : executionFunc := x ← pop; y ← pop; _ ← push (word (y <? x)); nil_nil.
Definition opSlt : executionFunc :=
  x ← pop; y ← pop;
  _ ← push (if (tt255 <=? x) && (y <? tt255) then 1
            else if (x <? tt255) && (tt255 <=? y) then 0
            else word (x <? y));
  nil_nil.
Definition opSgt : executionFunc :=
  x ← pop; y ← pop;
  _ ← push (if (tt255 <=? x) && (y <? tt255) then 0
            else if (x <? tt255) && (tt255 <=? y) then 1
            else word (y <? x));
  nil_nil.
Definition opEq : executionFunc := x ← pop; y ← pop; _ ← push (word (Z.eqb x y)); nil_nil.
Definition opIszero : executionFunc := x ← pop; _ ← push (if 0 <? x then 0 else 1); nil_nil.
Definition opAnd : executionFunc := x ← pop; y ← pop; _ ← push (Z.land x y); nil_nil.
Definition opOr : executionFunc := x ← pop; y ← pop; _ ← push (Z.lor x y); nil_nil.
Definition opXor : executionFunc := x ← pop; y ← pop; _ ← push (Z.lxor x y); nil_nil.
Definition opByte : executionFunc :=
  th ← pop; val ← pop;
  _ ← push (if th <? 32 then math_Byte val 32 (big_Int64 th) else 0);
  nil_nil.
Definition opAddmod : executionFunc :=
  x ← pop; y ← pop; z ← pop;
  _ ← push (if 0 <? z then U256 ((x + y) mod z) else 0);
  nil_nil.
Definition opMulmod : executionFunc :=
  x ← pop; y ← pop; z ← pop;
  _ ← push (if 0 <? z then U256 ((x * y) mod z) else 0);
  nil_nil.
Definition opSHL : executionFunc :=
  shift ← pop; value ← pop;
  let shift := U256 shift in
  let value := U256 value in
  _ ← push (if 256 <=? shift then 0 else U256 (Z.shiftl value (big_Uint64 shift)));
  nil_nil.
Definition opSHR : executionFunc :=
  shift ← pop; value ← pop;
  let shift := U256 shift in
  let value := U256 value in
  _ ← push (if 256 <=? shift then 0 else U256 (Z.shiftr value (big_Uint64 shift)));
  nil_nil.
Definition opSAR : executionFunc :=
  shift ← pop; value ← pop;
  let shift := U256 shift in
  let value := S256 value in
  _ ← push (if 256 <=? shift then U256 (if 0 <=? value then 0 else -1)
            else U256 (Z.shiftr value (big_Uint64 shift)));
  nil_nil.

Definition opSha3 : executionFunc :=
  offset ← pop; size ← pop;
  data ← read_memory (big_Int64 offset) (big_Int64 size);
  _ ← push (hash_Big (code_hash (of_bytes data)));
  nil_nil.

Definition opAddress : executionFunc := a ← self_address; _ ← push (address_Big a); nil_nil.
Definition opBalance : executionFunc :=
  slot ← pop; view ← db; _ ← push (GetBalance view (BigToAddress slot)); nil_nil.
Definition opCaller : executionFunc :=
  a ← get (fun s => CallerAddress (contract s)); _ ← push (address_Big a); nil_nil.
Definition opCallValue : executionFunc := v ← get (fun s => value (contract s)); _ ← push v; nil_nil.
Definition opCallDataLoad : executionFunc :=
  off ← pop;
  data ← run_outcome (fun s => getDataBig (Input (contract s)) off 32);
  _ ← push (SetBytes data);
  nil_nil.
Definition opCallDataSize : executionFunc :=
  input ← get (fun s => Input (contract s)); _ ← push (lenZ input); nil_nil.
Definition opCallDataCopy : executionFunc :=
  memOffset ← pop; dataOffset ← pop; length ← pop;
  data ← run_outcome (fun s => getDataBig (Input (contract s)) dataOffset length);
  _ ← on_memory (fun m => memory_Set m (big_Uint64 memOffset) (big_Uint64 length) data);
  nil_nil.
Definition opReturnDataSize : executionFunc :=
  d ← get (fun s => returnData (machine s)); _ ← push (lenZ d); nil_nil.
Definition opReturnDataCopy : executionFunc :=
  memOffset ← pop; dataOffset ← pop; length ← pop;
  let end_ := dataOffset + length in
  d ← get (fun s => returnData (machine s));
  if (64 <? BitLen end_) || (lenZ d <? big_Uint64 end_) then fail errReturnDataOutOfBounds
  else
    part ← run_outcome (fun _ => slice d (big_Uint64 dataOffset) (big_Uint64 end_));
    _ ← on_memory (fun m => memory_Set m (big_Uint64 memOffset) (big_Uint64 length) part);
    nil_nil.
Definition opExtCodeSize : executionFunc :=
  slot ← pop; view ← db; _ ← push (Z.of_nat (GetCodeSize view (BigToAddress slot))); nil_nil.
Definition opCodeSize : executionFunc := c ← get (fun s => Code (contract s)); _ ← push (lenZ c); nil_nil.
Definition opCodeCopy : executionFunc :=
  memOffset ← pop; codeOffset ← pop; length ← pop;
  codeCopy ← run_outcome (fun s => getDataBig (Code (contract s)) codeOffset length);
  _ ← on_memory (fun m => memory_Set m (big_Uint64 memOffset) (big_Uint64 length) codeCopy);
  nil_nil.
Definition opExtCodeCopy : executionFunc :=
  a ← pop;
  let addr := BigToAddress a in
  memOffset ← pop; codeOffset ← pop; length ← pop;
  codeCopy ← run_outcome (fun s => getDataBig (to_bytes (GetCode (StateDB (machine s)) addr)) codeOffset length);
  _ ← on_memory (fun m => memory_Set m (big_Uint64 memOffset) (big_Uint64 length) codeCopy);
  nil_nil.
Definition opExtCodeHash : executionFunc :=
  slot ← pop; view ← db; _ ← push (hash_Big (GetCodeHash view (BigToAddress slot))); nil_nil.

Definition opBlockhash : executionFunc := fail (errText "opBlockhash not supported").
Definition opCoinbase : executionFunc := fail (errText "opCoinbase not supported").
Definition opDifficulty : executionFunc := fail (errText "opDifficulty not supported").
Definition opSelfBalance : executionFunc :=
  a ← self_address; view ← db; _ ← push (GetBalance view a); nil_nil.

Definition opPop : executionFunc := _ ← pop; nil_nil.
Definition opMload : executionFunc :=
  offset ← pop; data ← read_memory (big_Int64 offset) 32; _ ← push (SetBytes data); nil_nil.
Definition opMstore : executionFunc :=
  mStart ← pop; val ← pop; _ ← on_memory (fun m => memory_Set32 m (big_Uint64 mStart) val); nil_nil.
Definition opMstore8 : executionFunc :=
  o ← pop; v ← pop;
  let off := big_Int64 o in
  let val := big_Int64 v in
  _ ← on_memory (fun m =>
        if (0 <=? off) && (off <? lenZ (store m))
        then Ok (with_store m (<[Z.to_nat off := byte_of (Z.land val 0xff)]> (store m)))
        else Panic "index out of range");
  nil_nil.
Definition opSload : executionFunc :=
  loc ← pop;
  addr ← self_address;
  val ← run_outcome (fun s => GetState (StateDB (machine s)) addr (BigToHash loc));
  _ ← push (hash_Big val);
  nil_nil.
Definition opSstore : executionFunc :=
  loc ← pop; val ← pop;
  addr ← self_address;
  _ ← on_db (fun v => SetState v addr (BigToHash loc) (BigToHash val));
  nil_nil.

(** The test of a jump: fails with an error unless [pos] is a valid target. *)
Definition check_jump (pos : Z) : X unit :=
  r ← run_outcome (fun s => validJumpdest (jumpdests (machine s)) (contract s) pos);
  let '(ok, jd, c) := r in
  _ ← update (fun s => set_contract c (set_machine (with_jumpdests (machine s) jd) s));
  if ok : bool then done tt else fail (errInvalidJump pos).
Definition opJump : executionFunc :=
  pos ← pop; _ ← check_jump pos; _ ← update (set_pc (big_Uint64 pos)); nil_nil.
Definition opJumpi : executionFunc :=
  pos ← pop; cond ← pop;
  if negb (Z.eqb cond 0) then _ ← check_jump pos; _ ← update (set_pc (big_Uint64 pos)); nil_nil
  else _ ← update (fun s => set_pc (u64_add (pc s) 1) s); nil_nil.
Definition opJumpdest : executionFunc := nil_nil.
Definition opPc : executionFunc := p ← get pc; _ ← push p; nil_nil.
Definition opMsize : executionFunc := m ← get memory; _ ← push (memory_Len m); nil_nil.
Definition opGas : executionFunc := g ← get (fun s => Gas (contract s)); _ ← push g; nil_nil.
Definition opReturn : executionFunc :=
  offset ← pop; size ← pop; run_outcome (fun s => memory_GetPtr (memory s) (big_Int64 offset) (big_Int64 size)).
Definition opRevert : executionFunc :=
  offset ← pop; size ← pop; run_outcome (fun s => memory_GetPtr (memory s) (big_Int64 offset) (big_Int64 size)).
Definition opStop : executionFunc := nil_nil.
Definition opSuicide : executionFunc :=
  me ← self_address;
  view ← db;
  let balance := GetBalance view me in
  a ← pop;
  _ ← on_db (fun v => AddBalance v (BigToAddress a) balance);
  _ ← on_db (fun v => '(_, v) ← Suicide v me; Ok v);
  nil_nil.

Fixpoint pop_topics (n : nat) : X (list Hash) :=
  match n with
  | O => done []
  | S n' => x ← pop; l ← pop_topics n'; done (BigToHash x :: l)
  end.
Definition makeLog (size : nat) : executionFunc :=
  mStart ← pop; mSize ← pop;
  topics ← pop_topics size;
  d ← read_memory (big_Int64 mStart) (big_Int64 mSize);
  addr ← self_address;
  _ ← on_db (fun v => Ok (AddLog v (mkLog addr topics (of_bytes d))));
  nil_nil.

Definition makePush (size : uint64) (pushByteSize : Z) : executionFunc :=
  code ← get (fun s => Code (contract s));
  p ← get pc;
  let codeLen := lenZ code in
  let next := to_int64 (u64_add p 1) in
  let startMin := if next <? codeLen then next else codeLen in
  let endMin := if startMin + pushByteSize <? codeLen then startMin + pushByteSize else codeLen in
  part ← run_outcome (fun _ => slice code startMin endMin);
  _ ← push (SetBytes (RightPadBytes part pushByteSize));
  _ ← update (fun s => set_pc (u64_add (pc s) size) s);
  nil_nil.
Definition makeDup (size : nat) : executionFunc := x ← back (size - 1); _ ← push x; nil_nil.
Definition makeSwap (size : nat) : executionFunc :=
  st ← run_outcome (fun s => stack_swap (stack s) (size + 1)); _ ← update (set_stack st); nil_nil.

(** *** Instructions that read the context *)

Definition opOrigin (env : Env) : executionFunc := _ ← push (address_Big (Origin (context env))); nil_nil.
Definition opGasprice (env : Env) : executionFunc := _ ← push (EvmGasPrice (context env)); nil_nil.
Definition opTimestamp (env : Env) : executionFunc := _ ← push (U256 (Time (context env))); nil_nil.
Definition opNumber (env : Env) : executionFunc := _ ← push (U256 (BlockNumber (context env))); nil_nil.
Definition opGasLimit (env : Env) : executionFunc := _ ← push (U256 (EvmGasLimit (context env))); nil_nil.
Definition opChainID (env : Env) : executionFunc := _ ← push (evm_chainID env); nil_nil.
End Instructions.

(** *** Message calls *)

(** The result of a message call: the returned bytes, the gas left, the error
    and the machine; of a creation also the address of the contract. *)
Record CallResult := mkCallResult {
  cr_ret : list byte;
  cr_gas : uint64;
  cr_err : option VMError;
  cr_machine : Machine
}.
Record CreateResult := mkCreateResult { create_addr : Address; create_res : CallResult }.

(** The methods of [EVM] that instructions call. *)
Record Calls := mkCalls {
  evm_Call : ContractRef -> Address -> list byte -> uint64 -> Z -> Machine -> outcome CallResult;
  evm_CallCode : ContractRef -> Address -> list byte -> uint64 -> Z -> Machine -> outcome CallResult;
  evm_DelegateCall : ContractRef -> Address -> list byte -> uint64 -> Machine -> outcome CallResult;
  evm_StaticCall : ContractRef -> Address -> list byte -> uint64 -> Machine -> outcome CallResult;
  evm_Create : ContractRef -> list byte -> uint64 -> Z -> Machine -> outcome CreateResult;
  evm_Create2 : ContractRef -> list byte -> uint64 -> Z -> Z -> Machine -> outcome CreateResult
}.

Section CallInstructions.
Context `{ThetaTypes} `{TrieHash} `{VmLib} `{VmParams} (calls : Calls).

(** Uses all but one 64th of the gas of the contract and returns it. *)
Definition reserve_gas : X uint64 :=
  c ← get contract;
  let gas := u64_sub (Gas c) (Gas c / 64) in
  _ ← update (set_contract (UseGas c gas).2);
  done gas.

Definition add_gas (returnGas : uint64) : X unit :=
  update (fun s => set_contract (with_gas (contract s) (u64_add (Gas (contract s)) returnGas)) s).

Definition create_end (r : CreateResult) : executionFunc :=
  let res := create_res r in
  _ ← push (match cr_err res with Some _ => 0 | None => address_Big (create_addr r) end);
  _ ← add_gas (cr_gas res);
  done (match cr_err res with Some errExecutionReverted => cr_ret res | _ => [] end).

(** Runs a call on the machine of the state. *)
Definition with_machine {A} (f : Contract -> Machine -> outcome A) (post : A -> Machine) : X A :=
  r ← run_outcome (fun s => f (contract s) (machine s));
  _ ← update (set_machine (post r));
  done r.

Definition opCreate : executionFunc :=
  value ← pop; offset ← pop; size ← pop;
  input ← read_memory (big_Int64 offset) (big_Int64 size);
  gas ← reserve_gas;
  r ← with_machine (fun c m => evm_Create calls (contract_ref c) input gas value m) (fun r => cr_machine (create_res r));
  create_end r.

Definition opCreate2 : executionFunc :=
  endowment ← pop; offset ← pop; size ← pop; salt ← pop;
  input ← read_memory (big_Int64 offset) (big_Int64 size);
  gas ← reserve_gas;
  r ← with_machine (fun c m => evm_Create2 calls (contract_ref c) input gas endowment salt m)
        (fun r => cr_machine (create_res r));
  create_end r.

(** The end of the four call instructions. *)
Definition call_end (retOffset retSize : Z) (r : CallResult) : executionFunc :=
  _ ← push (match cr_err r with Some _ => 0 | None => 1 end);
  _ ← (match cr_err r with
       | None | Some errExecutionReverted =>
         on_memory (fun m => memory_Set m (big_Uint64 retOffset) (big_Uint64 retSize) (cr_ret r))
       | _ => done tt
       end);
  _ ← add_gas (cr_gas r);
  done (cr_ret r).

Definition opCall : executionFunc :=
  _ ← pop;
  gas ← get (fun s => callGasTemp (machine s));
  addr ← pop; value ← pop; inOffset ← pop; inSize ← pop; retOffset ← pop; retSize ← pop;
  let toAddr := BigToAddress addr in
  let value := U256 value in
  args ← read_memory (big_Int64 inOffset) (big_Int64 inSize);
  let gas := if negb (Z.eqb value 0) then u64_add gas CallStipend else gas in
  r ← with_machine (fun c m => evm_Call calls (contract_ref c) toAddr args gas value m) cr_machine;
  call_end retOffset retSize r.

Definition opCallCode : executionFunc :=
  _ ← pop;
  gas ← get (fun s => callGasTemp (machine s));
  addr ← pop; value ← pop; inOffset ← pop; inSize ← pop; retOffset ← pop; retSize ← pop;
  let toAddr := BigToAddress addr in
  let value := U256 value in
  args ← read_memory (big_Int64 inOffset) (big_Int64 inSize);
  let gas := if negb (Z.eqb value 0) then u64_add gas CallStipend else gas in
  r ← with_machine (fun c m => evm_CallCode calls (contract_ref c) toAddr args gas value m) cr_machine;
  call_end retOffset retSize r.

Definition opDelegateCall : executionFunc :=
  _ ← pop;
  gas ← get (fun s => callGasTemp (machine s));
  addr ← pop; inOffset ← pop; inSize ← pop; retOffset ← pop; retSize ← pop;
  let toAddr := BigToAddress addr in
  args ← read_memory (big_Int64 inOffset) (big_Int64 inSize);
  r ← with_machine (fun c m => evm_DelegateCall calls (contract_ref c) toAddr args gas m) cr_machine;
  call_end retOffset retSize r.

Definition opStaticCall : executionFunc :=
  _ ← pop;
  gas ← get (fun s => callGasTemp (machine s));
  addr ← pop; inOffset ← pop; inSize ← pop; retOffset ← pop; retSize ← pop;
  let toAddr := BigToAddress addr in
  args ← read_memory (big_Int64 inOffset) (big_Int64 inSize);
  r ← with_machine (fun c m => evm_StaticCall calls (contract_ref c) toAddr args gas m) cr_machine;
  call_end retOffset retSize r.
End CallInstructions.
