(* ===== verification/Precompiles.v ===== *)
(** * Precompiled contracts (src/ledger/vm/contracts.go)

    The twelve contracts implemented in Go: hashes, signatures, modular
    exponentiation, operations of the bn256 curve, and the four contracts of
    the subchain that read the dynasty and the validator sets and mint and
    burn TFuel.  The cryptography (theta/crypto, theta/crypto/bn256, SHA-256
    and RIPEMD-160) is an interface. *)

From Stdlib Require Import Ascii Zpow_facts.
From stdpp Require Import gmap sorting relations.
From stdpp Require Import base list numbers strings.
From S2P Require Import Prelude Vote Validator Block StoreView Execution VmData VmOps.
Local Open Scope string_scope.
Local Open Scope list_scope.
Local Open Scope Z_scope.

Class VmCrypto := {
  CreateAddress : Address -> uint64 -> Address;
  CreateAddress2 : Address -> Hash -> Hash -> Address;
  ValidateSignatureValues : Z -> Z -> Z -> bool -> bool;
  Ecrecover : list byte -> list byte -> option (list byte);
  sha256_Sum256 : list byte -> list byte;
  ripemd160_Sum : list byte -> list byte;
  G1 : Type;
  G2 : Type;
  G1_Unmarshal : list byte -> option G1;
  G2_Unmarshal : list byte -> option G2;
  G1_Marshal : G1 -> list byte;
  G1_Add : G1 -> G1 -> G1;
  G1_ScalarMult : G1 -> Z -> G1;
  PairingCheck : list G1 -> list G2 -> bool;
  Ecrecover_nonempty hash sig key : Ecrecover hash sig = Some key -> (0 < length key)%nat
}.

Inductive PrecompiledContract :=
| ecrecover
| sha256hash
| ripemd160hash
| dataCopy
| bigModExp
| bn256Add
| bn256ScalarMul
| bn256Pairing
| dynasty_contract
| validatorSet_contract
| mintTFuel
| burnTFuel.

Definition PrecompiledContracts (addr : Address) : option PrecompiledContract :=
  match addr with
  | 1 => Some ecrecover
  | 2 => Some sha256hash
  | 3 => Some ripemd160hash
  | 4 => Some dataCopy
  | 5 => Some bigModExp
  | 6 => Some bn256Add
  | 7 => Some bn256ScalarMul
  | 8 => Some bn256Pairing
  | 180 => Some dynasty_contract
  | 181 => Some validatorSet_contract
  | 182 => Some mintTFuel
  | 183 => Some burnTFuel
  | _ => None
  end.

(** [CanTransfer] and [Transfer] of vm.go. *)
Definition CanTransfer `{ThetaTypes} (view : StoreView) (addr : Address) (amount : Z) : bool :=
  amount <=? GetBalance view addr.
Definition Transfer `{ThetaTypes} `{TrieHash} (view : StoreView) (sender recipient : Address) (amount : Z)
    : outcome StoreView :=
  view ← SubBalance view sender amount;
  AddBalance view recipient amount.

(** [Bytes] of a [big.Int]: no leading zero. *)
Definition big_Bytes (x : Z) : list byte := array (Z.to_nat ((BitLen x + 7) / 8)) (Z.abs x).

(** The result of a precompiled contract: the output, an error, the state. *)
Definition PrecompileResult : Type := list byte * option VMError * StoreView.

Section Precompiles.
Context `{ThetaTypes} `{TrieHash} `{TxTypes} `{VmLib} `{VmParams} `{VmCrypto}.
Implicit Types (view : StoreView) (input : list byte).

(** [input[n:]], empty for a short input. *)
Definition tail_from input (n : nat) : list byte := if (n <? length input)%nat then drop n input else [].

Definition data_int input (start size : uint64) : outcome Z := d ← getData input start size; Ok (SetBytes d).

(** The gas of [bigModExp] from the three lengths and the head of the
    exponent. *)
Definition modexp_gas (baseLen expLen modLen expHead : Z) : uint64 :=
  let msb := if 0 <? BitLen expHead then BitLen expHead - 1 else 0 in
  let adjExpLen := if 32 <? expLen then 8 * (expLen - 32) else 0 in
  let adjExpLen := adjExpLen + msb in
  let gas := BigMax modLen baseLen in
  let gas := if gas <=? 64 then gas * gas
             else if gas <=? 1024 then gas * gas / 4 + (96 * gas - 3072)
             else gas * gas / 16 + (480 * gas - 199680) in
  let gas := gas * BigMax adjExpLen 1 in
  let gas := gas / ModExpQuadCoeffDiv in
  if 64 <? BitLen gas then 18446744073709551615 else big_Uint64 gas.

Definition modexp_RequiredGas input : outcome uint64 :=
  baseLen ← data_int input 0 32;
  expLen ← data_int input 32 32;
  modLen ← data_int input 64 32;
  let input := tail_from input 96 in
  expHead ← (if lenZ input <=? baseLen then Ok 0
             else if 32 <? expLen then data_int input (big_Uint64 baseLen) 32
             else data_int input (big_Uint64 baseLen) (big_Uint64 expLen));
  Ok (modexp_gas baseLen expLen modLen expHead).

(** The cost per 32-byte word of the input. *)
Definition word_cost input (perWord base : uint64) : uint64 :=
  u64_add (u64_mul (u64_add (lenZ input) 31 / 32) perWord) base.

Definition RequiredGas (p : PrecompiledContract) input (blockHeight : uint64) : outcome uint64 :=
  match p with
  | ecrecover => Ok EcrecoverGas
  | sha256hash => Ok (word_cost input Sha256PerWordGas Sha256BaseGas)
  | ripemd160hash => Ok (word_cost input Ripemd160PerWordGas Ripemd160BaseGas)
  | dataCopy => Ok (word_cost input IdentityPerWordGas IdentityBaseGas)
  | bigModExp => modexp_RequiredGas input
  | bn256Add => Ok (if blockHeight <? HeightJune2021FeeAdjustment then Bn256AddGas else Bn256AddGasIstanbul)
  | bn256ScalarMul =>
    Ok (if blockHeight <? HeightJune2021FeeAdjustment then Bn256ScalarMulGas else Bn256ScalarMulGasIstanbul)
  | bn256Pairing =>
    Ok (if blockHeight <? HeightJune2021FeeAdjustment
        then u64_add Bn256PairingBaseGas (u64_mul (lenZ input / 192) Bn256PairingPerPointGas)
        else u64_add Bn256PairingBaseGasIstanbul (u64_mul (lenZ input / 192) Bn256PairingPerPointGasIstanbul))
  | _ => Ok 200
  end.

Definition ecrecover_Run input : outcome (list byte) :=
  let input := RightPadBytes input 128 in
  rb ← slice input 64 96;
  sb ← slice input 96 128;
  match input !! 63%nat with
  | None => Panic "index out of range"
  | Some vb =>
    let v := (byte_val vb - 27) mod 256 in
    pad ← slice input 32 63;
    if negb (allZero pad) || negb (ValidateSignatureValues v (SetBytes rb) (SetBytes sb) false) then Ok []
    else
      hash ← slice input 0 32;
      sig ← slice input 64 128;
      match Ecrecover hash (sig ++ [byte_of v]) with
      | None => Ok []
      | Some pubKey =>
        key ← slice pubKey 1 (lenZ pubKey);
        low ← slice (array 32 (code_hash (of_bytes key))) 12 32;
        Ok (LeftPadBytes low 32)
      end
  end.

Definition modexp_Run input : outcome (list byte) :=
  bl ← data_int input 0 32;
  el ← data_int input 32 32;
  ml ← data_int input 64 32;
  let baseLen := big_Uint64 bl in
  let expLen := big_Uint64 el in
  let modLen := big_Uint64 ml in
  let input := tail_from input 96 in
  if Z.eqb baseLen 0 && Z.eqb modLen 0 then Ok []
  else
    base ← data_int input 0 baseLen;
    exp ← data_int input baseLen expLen;
    mod_ ← data_int input (u64_add baseLen expLen) modLen;
    if Z.eqb (BitLen mod_) 0 then Ok (LeftPadBytes [] (to_int64 modLen))
    else Ok (LeftPadBytes (big_Bytes (Zpow_mod base exp mod_)) (to_int64 modLen)).

Definition newCurvePoint (blob : list byte) : VMError + G1 :=
  match G1_Unmarshal blob with Some p => inr p | None => inl (errText "bn256: malformed point") end.
Definition newTwistPoint (blob : list byte) : VMError + G2 :=
  match G2_Unmarshal blob with Some p => inr p | None => inl (errText "bn256: malformed point") end.

Definition bn256Add_Run input : outcome (list byte * option VMError) :=
  xb ← getData input 0 64;
  match newCurvePoint xb with
  | inl e => Ok ([], Some e)
  | inr x =>
    yb ← getData input 64 64;
    match newCurvePoint yb with
    | inl e => Ok ([], Some e)
    | inr y => Ok (G1_Marshal (G1_Add x y), None)
    end
  end.

Definition bn256ScalarMul_Run input : outcome (list byte * option VMError) :=
  pb ← getData input 0 64;
  match newCurvePoint pb with
  | inl e => Ok ([], Some e)
  | inr p => k ← data_int input 64 32; Ok (G1_Marshal (G1_ScalarMult p k), None)
  end.

(** The loop over the pairs of points, [n] of them left. *)
Fixpoint pairing_points (n : nat) input (i : Z) : outcome (VMError + (list G1 * list G2)) :=
  match n with
  | O => Ok (inr ([], []))
  | S n' =>
    cb ← slice input i (i + 64);
    match newCurvePoint cb with
    | inl e => Ok (inl e)
    | inr c =>
      tb ← slice input (i + 64) (i + 192);
      match newTwistPoint tb with
      | inl e => Ok (inl e)
      | inr t =>
        rest ← pairing_points n' input (i + 192);
        Ok (match rest with inl e => inl e | inr (cs, ts) => inr (c :: cs, t :: ts) end)
      end
    end
  end.

Definition bn256Pairing_Run input : outcome (list byte * option VMError) :=
  if 0 <? lenZ input mod 192 then Ok ([], Some (errText "bad elliptic curve pairing size"))
  else
    r ← pairing_points (length input / 192) input 0;
    match r with
    | inl e => Ok ([], Some e)
    | inr (cs, ts) => Ok (array 32 (if PairingCheck cs ts then 1 else 0), None)
    end.

(** The ABI encoding of the argument tuple[] of src/eth/abi: the offset of
    the array, its length, and two words per validator. *)
Definition abi_word (x : Z) : list byte := array 32 (x mod 2 ^ 256).
Definition pack_validators (vs : list Validator) : list byte :=
  abi_word 32 ++ abi_word (lenZ vs) ++ concat ((fun v => abi_word (VAddress v) ++ abi_word (VStake v)) <$> vs).

Definition validatorSet_Run view input : outcome (list byte) :=
  chainID ← data_int input 0 32;
  dyn ← data_int input 32 32;
  match GetValidatorSetForChainDuringDynasty view chainID dyn with
  | None => Ok []
  | Some vs => Ok (pack_validators (validators vs))
  end.

Definition HasPreviledgedAccess view (callerAddr : Address) : outcome bool :=
  match TFuelTokenBank (tree view) with
  | None => Panic "nil pointer dereference"
  | Some bank => Ok (Z.eqb callerAddr bank)
  end.

Definition mintTFuel_Run view input (callerAddr : Address) : outcome PrecompileResult :=
  ok ← HasPreviledgedAccess view callerAddr;
  if negb ok then Ok ([], Some (errText "the execution context does not have previledged access"), view)
  else
    recipient ← getData input 0 20;
    mintAmount ← data_int input 20 32;
    if mintAmount <? 0 then Ok ([], Some (errText "mint amount must not be negative"), view)
    else view ← AddBalance view (BytesToAddress recipient) mintAmount; Ok ([], None, view).

Definition burnTFuel_Run view input (callerAddr : Address) : outcome PrecompileResult :=
  burnAmount ← data_int input 0 32;
  if burnAmount <? 0 then Ok ([], Some (errText "burn amount must not be negative"), view)
  else if negb (CanTransfer view callerAddr burnAmount) then Ok ([], Some ErrInsufficientBalance, view)
  else view ← SubBalance view callerAddr burnAmount; Ok ([], None, view).

Definition dynasty_Run view : outcome (list byte) :=
  match GetDynasty view with
  | None => Panic "nil pointer dereference"
  | Some d => Ok (LeftPadBytes (big_Bytes d) 32)
  end.

(** A contract that only computes. *)
Definition pure_result view (r : outcome (list byte)) : outcome PrecompileResult := ret ← r; Ok (ret, None, view).
Definition point_result view (r : outcome (list byte * option VMError)) : outcome PrecompileResult :=
  '(ret, err) ← r; Ok (ret, err, view).

Definition precompile_Run (p : PrecompiledContract) view input (callerAddr : Address) : outcome PrecompileResult :=
  match p with
  | ecrecover => pure_result view (ecrecover_Run input)
  | sha256hash => Ok (sha256_Sum256 input, None, view)
  | ripemd160hash => Ok (LeftPadBytes (ripemd160_Sum input) 32, None, view)
  | dataCopy => Ok (input, None, view)
  | bigModExp => pure_result view (modexp_Run input)
  | bn256Add => point_result view (bn256Add_Run input)
  | bn256ScalarMul => point_result view (bn256ScalarMul_Run input)
  | bn256Pairing => point_result view (bn256Pairing_Run input)
  | dynasty_contract => pure_result view (dynasty_Run view)
  | validatorSet_contract => pure_result view (validatorSet_Run view input)
  | mintTFuel => mintTFuel_Run view input callerAddr
  | burnTFuel => burnTFuel_Run view input callerAddr
  end.

(** The error, the gas left in the contract, and the state. *)
Definition RunPrecompiledContract view (p : PrecompiledContract) input (c : Contract)
    : outcome (list byte * option VMError * Contract * StoreView) :=
  gas ← RequiredGas p input (GetBlockHeight view);
  let (ok, c) := UseGas c gas in
  if ok : bool then
    '(ret, err, view) ← precompile_Run p view input (CallerAddress c);
    Ok (ret, err, c, view)
  else Ok ([], Some ErrOutOfGas, c, view).
End Precompiles.
