(* ===== verification/Vm.v ===== *)
(** * The interpreter and the message calls of the virtual machine
    (src/ledger/vm/vm.go, interpreter.go and jump_table.go)

    The jump table gives each opcode its execution and gas functions; [step]
    is one iteration of the loop of [EVMInterpreter.Run]; [loop] iterates it.
    Calls of contracts by contracts run the same loop, so [loop] carries fuel;
    the theorems show that one unit of fuel more than the gas is enough.  The
    machine is the one [Execute] creates: no tracer, the default jump table
    and a single interpreter, which is never cancelled. *)

From Stdlib Require Import Ascii.
From stdpp Require Import gmap sorting relations.
From stdpp Require Import base list numbers strings.
From S2P Require Import Prelude Vote Validator Block StoreView Execution VmData VmOps Precompiles.
Local Open Scope string_scope.
Local Open Scope list_scope.
Local Open Scope Z_scope.

(** ** The jump table (jump_table.go) *)

Record operation := mkOperation {
  execute : executionFunc;
  gasCost : gasFunc;
  validateStack : Stack -> option VMError;
  memorySize : option (Stack -> outcome Z);
  halts : bool;
  jumps : bool;
  writes : bool;
  reverts : bool;
  returns : bool
}.

Section Table.
Context `{ThetaTypes} `{TrieHash} `{VmLib} `{VmParams} (env : Env) (calls : Calls).

(** An operation without memory and flags, one with memory, and the flags. *)
Definition plain (e : executionFunc) (g : gasFunc) (v : Stack -> option VMError) : operation :=
  mkOperation e g v None false false false false false.
Definition with_memory (o : operation) (f : Stack -> outcome Z) : operation :=
  mkOperation (execute o) (gasCost o) (validateStack o) (Some f) (halts o) (jumps o) (writes o) (reverts o) (returns o).
Definition set_halts (o : operation) : operation :=
  mkOperation (execute o) (gasCost o) (validateStack o) (memorySize o) true (jumps o) (writes o) (reverts o) (returns o).
Definition set_jumps (o : operation) : operation :=
  mkOperation (execute o) (gasCost o) (validateStack o) (memorySize o) (halts o) true (writes o) (reverts o) (returns o).
Definition set_writes (o : operation) : operation :=
  mkOperation (execute o) (gasCost o) (validateStack o) (memorySize o) (halts o) (jumps o) true (reverts o) (returns o).
Definition set_reverts (o : operation) : operation :=
  mkOperation (execute o) (gasCost o) (validateStack o) (memorySize o) (halts o) (jumps o) (writes o) true (returns o).
Definition set_returns (o : operation) : operation :=
  mkOperation (execute o) (gasCost o) (validateStack o) (memorySize o) (halts o) (jumps o) (writes o) (reverts o) true.

Definition arithmetic_operations : list (Z * operation) := [
  (STOP, set_halts (plain opStop (constGasFunc 0) (makeStackFunc 0 0)));
  (ADD, plain opAdd (constGasFunc GasFastestStep) (makeStackFunc 2 1));
  (MUL, plain opMul (constGasFunc GasFastStep) (makeStackFunc 2 1));
  (SUB, plain opSub (constGasFunc GasFastestStep) (makeStackFunc 2 1));
  (DIV, plain opDiv (constGasFunc GasFastStep) (makeStackFunc 2 1));
  (SDIV, plain opSdiv (constGasFunc GasFastStep) (makeStackFunc 2 1));
  (MOD, plain opMod (constGasFunc GasFastStep) (makeStackFunc 2 1));
  (SMOD, plain opSmod (constGasFunc GasFastStep) (makeStackFunc 2 1));
  (ADDMOD, plain opAddmod (constGasFunc GasMidStep) (makeStackFunc 3 1));
  (MULMOD, plain opMulmod (constGasFunc GasMidStep) (makeStackFunc 3 1));
  (EXP, plain opExp gasExp (makeStackFunc 2 1));
  (SIGNEXTEND, plain opSignExtend (constGasFunc GasFastStep) (makeStackFunc 2 1));
  (LT, plain opLt (constGasFunc GasFastestStep) (makeStackFunc 2 1));
  (GT, plain opGt (constGasFunc GasFastestStep) (makeStackFunc 2 1));
  (SLT, plain opSlt (constGasFunc GasFastestStep) (makeStackFunc 2 1));
  (SGT, plain opSgt (constGasFunc GasFastestStep) (makeStackFunc 2 1));
  (EQ, plain opEq (constGasFunc GasFastestStep) (makeStackFunc 2 1));
  (ISZERO, plain opIszero (constGasFunc GasFastestStep) (makeStackFunc 1 1));
  (AND, plain opAnd (constGasFunc GasFastestStep) (makeStackFunc 2 1));
  (XOR, plain opXor (constGasFunc GasFastestStep) (makeStackFunc 2 1));
  (OR, plain opOr (constGasFunc GasFastestStep) (makeStackFunc 2 1));
  (NOT, plain opNot (constGasFunc GasFastestStep) (makeStackFunc 1 1));
  (BYTE, plain opByte (constGasFunc GasFastestStep) (makeStackFunc 2 1))
].

Definition environment_operations : list (Z * operation) := [
  (SHA3, with_memory (plain opSha3 gasSha3 (makeStackFunc 2 1)) memorySha3);
  (ADDRESS, plain opAddress (constGasFunc GasQuickStep) (makeStackFunc 0 1));
  (BALANCE, plain opBalance gasBalance (makeStackFunc 1 1));
  (ORIGIN, plain (opOrigin env) (constGasFunc GasQuickStep) (makeStackFunc 0 1));
  (CALLER, plain opCaller (constGasFunc GasQuickStep) (makeStackFunc 0 1));
  (CALLVALUE, plain opCallValue (constGasFunc GasQuickStep) (makeStackFunc 0 1));
  (CALLDATALOAD, plain opCallDataLoad (constGasFunc GasFastestStep) (makeStackFunc 1 1));
  (CALLDATASIZE, plain opCallDataSize (constGasFunc GasQuickStep) (makeStackFunc 0 1));
  (CALLDATACOPY, with_memory (plain opCallDataCopy gasCallDataCopy (makeStackFunc 3 0)) memoryCallDataCopy);
  (CODESIZE, plain opCodeSize (constGasFunc GasQuickStep) (makeStackFunc 0 1));
  (CODECOPY, with_memory (plain opCodeCopy gasCodeCopy (makeStackFunc 3 0)) memoryCodeCopy);
  (GASPRICE, plain (opGasprice env) (constGasFunc GasQuickStep) (makeStackFunc 0 1));
  (EXTCODESIZE, plain opExtCodeSize gasExtCodeSize (makeStackFunc 1 1));
  (EXTCODECOPY, with_memory (plain opExtCodeCopy gasExtCodeCopy (makeStackFunc 4 0)) memoryExtCodeCopy);
  (BLOCKHASH, plain opBlockhash (constGasFunc GasExtStep) (makeStackFunc 1 1));
  (COINBASE, plain opCoinbase (constGasFunc GasQuickStep) (makeStackFunc 0 1));
  (TIMESTAMP, plain (opTimestamp env) (constGasFunc GasQuickStep) (makeStackFunc 0 1));
  (NUMBER, plain (opNumber env) (constGasFunc GasQuickStep) (makeStackFunc 0 1));
  (DIFFICULTY, plain opDifficulty (constGasFunc GasQuickStep) (makeStackFunc 0 1));
  (GASLIMIT, plain (opGasLimit env) (constGasFunc GasQuickStep) (makeStackFunc 0 1));
  (CHAINID, plain (opChainID env) (constGasFunc GasQuickStep) (makeStackFunc 0 1));
  (SELFBALANCE, plain opSelfBalance (constGasFunc GasFastStep) (makeStackFunc 0 1))
].

Definition storage_operations : list (Z * operation) := [
  (POP, plain opPop (constGasFunc GasQuickStep) (makeStackFunc 1 0));
  (MLOAD, with_memory (plain opMload gasMLoad (makeStackFunc 1 1)) memoryMLoad);
  (MSTORE, with_memory (plain opMstore gasMStore (makeStackFunc 2 0)) memoryMStore);
  (MSTORE8, with_memory (plain opMstore8 gasMStore8 (makeStackFunc 2 0)) memoryMStore8);
  (SLOAD, plain opSload gasSLoad (makeStackFunc 1 1));
  (SSTORE, set_writes (plain opSstore gasSStore (makeStackFunc 2 0)));
  (JUMP, set_jumps (plain opJump (constGasFunc GasMidStep) (makeStackFunc 1 0)));
  (JUMPI, set_jumps (plain opJumpi (constGasFunc GasSlowStep) (makeStackFunc 2 0)));
  (PC, plain opPc (constGasFunc GasQuickStep) (makeStackFunc 0 1));
  (MSIZE, plain opMsize (constGasFunc GasQuickStep) (makeStackFunc 0 1));
  (GAS, plain opGas (constGasFunc GasQuickStep) (makeStackFunc 0 1));
  (JUMPDEST, plain opJumpdest (constGasFunc JumpdestGas) (makeStackFunc 0 0))
].

(** PUSH1 to PUSH32, DUP1 to DUP16, SWAP1 to SWAP16 and LOG0 to LOG4. *)
Definition push_operation (n : nat) : Z * operation :=
  (PUSH1 + Z.of_nat n - 1, plain (makePush (Z.of_nat n) (Z.of_nat n)) gasPush (makeStackFunc 0 1)).
Definition dup_operation (n : nat) : Z * operation :=
  (DUP1 + Z.of_nat n - 1, plain (makeDup n) gasDup (makeDupStackFunc n)).
Definition swap_operation (n : nat) : Z * operation :=
  (SWAP1 + Z.of_nat n - 1, plain (makeSwap n) gasSwap (makeSwapStackFunc (n + 1))).
Definition log_operation (n : nat) : Z * operation :=
  (LOG0 + Z.of_nat n,
   set_writes (with_memory (plain (makeLog n) (makeGasLog (Z.of_nat n)) (makeStackFunc (n + 2) 0)) memoryLog)).
Definition stack_operations : list (Z * operation) :=
  (push_operation <$> seq 1 32) ++ (dup_operation <$> seq 1 16) ++ (swap_operation <$> seq 1 16) ++
  (log_operation <$> seq 0 5).

Definition call_operations : list (Z * operation) := [
  (CREATE, set_returns (set_writes (with_memory (plain (opCreate calls) gasCreate (makeStackFunc 3 1)) memoryCreate)));
  (CALL, set_returns (with_memory (plain (opCall calls) gasCall (makeStackFunc 7 1)) memoryCall));
  (CALLCODE, set_returns (with_memory (plain (opCallCode calls) gasCallCode (makeStackFunc 7 1)) memoryCall));
  (RETURN, set_halts (with_memory (plain opReturn gasReturn (makeStackFunc 2 0)) memoryReturn));
  (SELFDESTRUCT, set_writes (set_halts (plain opSuicide gasSuicide (makeStackFunc 1 0))))
].

Definition newFrontierInstructionSet : list (Z * operation) :=
  arithmetic_operations ++ environment_operations ++ storage_operations ++ stack_operations ++ call_operations.

Definition newHomesteadInstructionSet : list (Z * operation) :=
  (DELEGATECALL, set_returns (with_memory (plain (opDelegateCall calls) gasDelegateCall (makeStackFunc 6 1))
                                memoryDelegateCall)) :: newFrontierInstructionSet.

Definition newByzantiumInstructionSet : list (Z * operation) := [
  (STATICCALL, set_returns (with_memory (plain (opStaticCall calls) gasStaticCall (makeStackFunc 6 1)) memoryStaticCall));
  (RETURNDATASIZE, plain opReturnDataSize (constGasFunc GasQuickStep) (makeStackFunc 0 1));
  (RETURNDATACOPY, with_memory (plain opReturnDataCopy gasReturnDataCopy (makeStackFunc 3 0)) memoryReturnDataCopy);
  (REVERT, set_returns (set_reverts (with_memory (plain opRevert gasRevert (makeStackFunc 2 0)) memoryRevert)))
] ++ newHomesteadInstructionSet.

Definition newConstantinopleInstructionSet : list (Z * operation) := [
  (SHL, plain opSHL (constGasFunc GasFastestStep) (makeStackFunc 2 1));
  (SHR, plain opSHR (constGasFunc GasFastestStep) (makeStackFunc 2 1));
  (SAR, plain opSAR (constGasFunc GasFastestStep) (makeStackFunc 2 1));
  (EXTCODEHASH, plain opExtCodeHash gasExtCodeHash (makeStackFunc 1 1));
  (CREATE2, set_returns (set_writes (with_memory (plain (opCreate2 calls) gasCreate2 (makeStackFunc 4 1)) memoryCreate2)))
] ++ newByzantiumInstructionSet.

(** The entry of an opcode; an opcode without entry is invalid. *)
Fixpoint find_op (op : Z) (l : list (Z * operation)) : option operation :=
  match l with
  | [] => None
  | (k, o) :: l' => if Z.eqb k op then Some o else find_op op l'
  end.
Definition JumpTable (op : Z) : option operation := find_op op newConstantinopleInstructionSet.

(** ** One iteration of the loop (interpreter.go) *)

Inductive StepResult :=
| Continue (s : ExecState)
| Stop (ret : list byte) (err : option VMError) (s : ExecState).

Definition enforceRestrictions (op : Z) (o : operation) (st : Stack) : outcome (option VMError) :=
  if readOnly env then
    if writes o then Ok (Some errWriteProtection)
    else if Z.eqb op CALL then v ← Back st 2; Ok (if 0 <? BitLen v then Some errWriteProtection else None)
    else Ok None
  else Ok None.

(** The size the memory must have for an operation. *)
Definition memory_size (o : operation) (st : Stack) : outcome (VMError + uint64) :=
  match memorySize o with
  | None => Ok (inr 0)
  | Some f =>
    v ← f st;
    let (memSize, overflow) := bigUint64 v in
    if overflow : bool then Ok (inl errGasUintOverflow)
    else
      let (size, overflow) := SafeMul (toWordSize memSize) 32 in
      if overflow : bool then Ok (inl errGasUintOverflow) else Ok (inr size)
  end.

(** The gas of an operation is charged and the memory resized. *)
Definition charge (o : operation) (size : uint64) : X unit := fun s =>
  match gasCost o size s with
  | Ok (inl _, s) => Ok (inl ErrOutOfGas, s)
  | Ok (inr cost, s) =>
    let (ok, c) := UseGas (contract s) cost in
    if ok : bool then
      let s := set_contract c s in
      Ok (inr tt, if 0 <? size then set_memory (Resize (memory s) size) s else s)
    else Ok (inl ErrOutOfGas, s)
  | Err msg => Err msg
  | Panic msg => Panic msg
  end.

Definition set_return (o : operation) (res : list byte) (s : ExecState) : ExecState :=
  if returns o then set_machine (with_returnData (machine s) res) s else s.

(** The execution of an operation that has been paid for. *)
Definition perform (o : operation) (s : ExecState) : outcome StepResult :=
  '(r, s) ← execute o s;
  match r with
  | inl e => Ok (Stop [] (Some e) (set_return o [] s))
  | inr res =>
    let s := set_return o res s in
    if reverts o then Ok (Stop res (Some errExecutionReverted) s)
    else if halts o then Ok (Stop res None s)
    else if jumps o then Ok (Continue s)
    else Ok (Continue (set_pc (u64_add (pc s) 1) s))
  end.

Definition step (s : ExecState) : outcome StepResult :=
  let op := GetOp (contract s) (pc s) in
  match JumpTable op with
  | None => Ok (Stop [] (Some (errInvalidOpcode op)) s)
  | Some o =>
    match validateStack o (stack s) with
    | Some e => Ok (Stop [] (Some e) s)
    | None =>
      restricted ← enforceRestrictions op o (stack s);
      match restricted with
      | Some e => Ok (Stop [] (Some e) s)
      | None =>
        size ← memory_size o (stack s);
        match size with
        | inl e => Ok (Stop [] (Some e) s)
        | inr size =>
          '(r, s) ← charge o size s;
          match r with
          | inl e => Ok (Stop [] (Some e) s)
          | inr _ => perform o s
          end
        end
      end
    end
  end.
End Table.

(** ** Message calls (vm.go) *)

(** The result of running a contract: the contract carries the gas left. *)
Record RunResult := mkRunResult {
  run_ret : list byte;
  run_err : option VMError;
  run_contract : Contract;
  run_machine : Machine
}.

Section Calls.
Context `{ThetaTypes} `{TrieHash} `{TxTypes} `{VmLib} `{VmParams} `{VmCrypto}.
(** The loop of the interpreter. *)
Variable loop : Env -> ExecState -> outcome RunResult.
Variable env : Env.

(** [EVMInterpreter.Run]. *)
Definition Run (c : Contract) (input : list byte) (readOnly_ : bool) (m : Machine) : outcome RunResult :=
  let env' := mkEnv (context env) (evm_chainID env) (NoRecursion env) (depth env + 1) (readOnly env || readOnly_) in
  let m := with_returnData m [] in
  if (length (Code c) =? 0)%nat then Ok (mkRunResult [] None c m)
  else loop env' (mkExec m (with_input c input) 0 NewMemory []).

Definition run (c : Contract) (input : list byte) (readOnly_ : bool) (m : Machine) : outcome RunResult :=
  match CodeAddr c ≫= PrecompiledContracts with
  | Some p =>
    '(ret, err, c, view) ← RunPrecompiledContract (StateDB m) p input c;
    Ok (mkRunResult ret err c (with_db m view))
  | None => Run c input readOnly_ m
  end.

(** The end of a call: on an error the state is reverted, and the gas is used
    up unless the contract reverted. *)
Definition call_result (snapshot : Hash) (r : RunResult) : outcome CallResult :=
  match run_err r with
  | None => Ok (mkCallResult (run_ret r) (Gas (run_contract r)) None (run_machine r))
  | Some e =>
    view ← RevertToSnapshot (StateDB (run_machine r)) snapshot;
    let c := if decide (e = errExecutionReverted) then run_contract r
             else (UseGas (run_contract r) (Gas (run_contract r))).2 in
    Ok (mkCallResult (run_ret r) (Gas c) (Some e) (with_db (run_machine r) view))
  end.

Definition refused (gas : uint64) (e : option VMError) (m : Machine) : outcome CallResult :=
  Ok (mkCallResult [] gas e m).

Definition take_snapshot (m : Machine) : Hash * Machine :=
  let (root, view) := Snapshot (StateDB m) in (root, with_db m view).

Definition call_code (view : StoreView) (c : Contract) (addr : Address) : Contract :=
  SetCallCode c (Some addr) (GetCodeHash view addr) (to_bytes (GetCode view addr)).

Definition Call (caller : ContractRef) (addr : Address) (input : list byte) (gas : uint64) (value : Z) (m : Machine)
    : outcome CallResult :=
  if NoRecursion env && (0 <? depth env) then refused gas None m
  else if CallCreateDepth <? depth env then refused gas (Some ErrDepth) m
  else if negb (CanTransfer (StateDB m) (ref_Address caller) value) then refused gas (Some ErrInsufficientBalance) m
  else
    let (snapshot, m) := take_snapshot m in
    let exists_ := Exist (StateDB m) addr in
    if negb exists_ && bool_decide (PrecompiledContracts addr = None) && Z.eqb value 0 then refused gas None m
    else
      view ← (if exists_ then Ok (StateDB m) else CreateAccountWithPreviousBalance (StateDB m) addr);
      view ← Transfer view (ref_Address caller) addr value;
      let m := with_db m view in
      let contract := call_code view (NewContract caller addr value gas) addr in
      r ← run contract input false m;
      call_result snapshot r.

Definition CallCode (caller : ContractRef) (addr : Address) (input : list byte) (gas : uint64) (value : Z) (m : Machine)
    : outcome CallResult :=
  if NoRecursion env && (0 <? depth env) then refused gas None m
  else if CallCreateDepth <? depth env then refused gas (Some ErrDepth) m
  else if negb (CanTransfer (StateDB m) (ref_Address caller) value) then refused gas (Some ErrInsufficientBalance) m
  else
    let (snapshot, m) := take_snapshot m in
    let contract := call_code (StateDB m) (NewContract caller (ref_Address caller) value gas) addr in
    r ← run contract input false m;
    call_result snapshot r.

(** [NewContract] gets a nil value, which [AsDelegate] replaces. *)
Definition DelegateCall (caller : ContractRef) (addr : Address) (input : list byte) (gas : uint64) (m : Machine)
    : outcome CallResult :=
  if NoRecursion env && (0 <? depth env) then refused gas None m
  else if CallCreateDepth <? depth env then refused gas (Some ErrDepth) m
  else
    let (snapshot, m) := take_snapshot m in
    contract ← AsDelegate (NewContract caller (ref_Address caller) 0 gas);
    let contract := call_code (StateDB m) contract addr in
    r ← run contract input false m;
    call_result snapshot r.

Definition StaticCall (caller : ContractRef) (addr : Address) (input : list byte) (gas : uint64) (m : Machine)
    : outcome CallResult :=
  if NoRecursion env && (0 <? depth env) then refused gas None m
  else if CallCreateDepth <? depth env then refused gas (Some ErrDepth) m
  else
    let (snapshot, m) := take_snapshot m in
    let contract := call_code (StateDB m) (NewContract caller addr 0 gas) addr in
    r ← run contract input true m;
    call_result snapshot r.

(** The code returned by a creation is stored, for a price per byte. *)
Definition store_code (address : Address) (r : RunResult) : outcome RunResult :=
  if bool_decide (run_err r = None) && negb (MaxCodeSizeForMetachain <? lenZ (run_ret r)) then
    let createDataGas := u64_mul (lenZ (run_ret r)) CreateDataGas in
    let (ok, c) := UseGas (run_contract r) createDataGas in
    if ok : bool then
      view ← SetCode (StateDB (run_machine r)) address (of_bytes (run_ret r));
      Ok (mkRunResult (run_ret r) None c (with_db (run_machine r) view))
    else Ok (mkRunResult (run_ret r) (Some ErrCodeStoreOutOfGas) c (run_machine r))
  else Ok r.

(** The end of a creation, where a code that is too long is an error. *)
Definition create_result (address : Address) (snapshot : Hash) (r : RunResult) : outcome CreateResult :=
  let maxCodeSizeExceeded := MaxCodeSizeForMetachain <? lenZ (run_ret r) in
  r ← store_code address r;
  let r := if maxCodeSizeExceeded && bool_decide (run_err r = None)
           then mkRunResult (run_ret r) (Some errMaxCodeSizeExceeded) (run_contract r) (run_machine r) else r in
  res ← call_result snapshot r;
  Ok (mkCreateResult address res).

Definition create_refused (address : Address) (gas : uint64) (e : option VMError) (m : Machine) : outcome CreateResult :=
  Ok (mkCreateResult address (mkCallResult [] gas e m)).

Definition create (caller : ContractRef) (code : list byte) (hash : Hash) (gas : uint64) (value : Z) (address : Address)
    (m : Machine) : outcome CreateResult :=
  if CallCreateDepth <? depth env then create_refused 0 gas (Some ErrDepth) m
  else if negb (CanTransfer (StateDB m) (ref_Address caller) value)
  then create_refused 0 gas (Some ErrInsufficientBalance) m
  else
    let nonce := GetNonce (StateDB m) (ref_Address caller) in
    view ← SetNonce (StateDB m) (ref_Address caller) (u64_add nonce 1);
    let contractHash := GetCodeHash view address in
    if negb (Z.eqb (GetNonce view address) 0) ||
       (negb (Z.eqb contractHash 0) && negb (Z.eqb contractHash EmptyCodeHash))
    then create_refused 0 0 (Some ErrContractAddressCollision) (with_db m view)
    else
      let (snapshot, m) := take_snapshot (with_db m view) in
      view ← CreateAccountWithPreviousBalance (StateDB m) address;
      view ← Transfer view (ref_Address caller) address value;
      let m := with_db m view in
      let contract := SetCodeOptionalHash (NewContract caller address value gas) (Some address) code hash in
      if NoRecursion env && (0 <? depth env) then create_refused address gas None m
      else
        r ← run contract [] false m;
        create_result address snapshot r.

Definition Create (caller : ContractRef) (code : list byte) (gas : uint64) (value : Z) (m : Machine)
    : outcome CreateResult :=
  let contractAddr := CreateAddress (ref_Address caller) (GetNonce (StateDB m) (ref_Address caller)) in
  create caller code 0 gas value contractAddr m.

Definition Create2 (caller : ContractRef) (code : list byte) (gas : uint64) (endowment salt : Z) (m : Machine)
    : outcome CreateResult :=
  let hash := code_hash (of_bytes code) in
  let contractAddr := CreateAddress2 (ref_Address caller) (BigToHash salt) hash in
  create caller code hash gas endowment contractAddr m.

Definition calls_of : Calls := mkCalls Call CallCode DelegateCall StaticCall Create Create2.
End Calls.

(** ** The loop of the interpreter *)

Section Interpreter.
Context `{ThetaTypes} `{TrieHash} `{TxTypes} `{VmLib} `{VmParams} `{VmCrypto}.

Fixpoint loop (fuel : nat) (env : Env) (s : ExecState) {struct fuel} : outcome RunResult :=
  match fuel with
  | O => Err "out of fuel"
  | S fuel' =>
    r ← step env (calls_of (loop fuel') env) s;
    match r with
    | Continue s => loop fuel' env s
    | Stop ret err s => Ok (mkRunResult ret err (contract s) (machine s))
    end
  end.

(** [NewEVM] on a state, and the environment of a call from [Execute]. *)
Definition NewEVM (view : StoreView) : Machine := mkMachine view 0 [] ∅.
Definition top_env (c : EvmContext) : Env := mkEnv c (MapChainID (EvmChainID c)) false 0 false.

(** One more unit of fuel than gas. *)
Definition gas_fuel (gas : uint64) : nat := S (Z.to_nat gas).

Definition error_text (e : VMError) : string :=
  match e with
  | ErrOutOfGas => "out of gas"
  | ErrCodeStoreOutOfGas => "contract creation code storage out of gas"
  | ErrDepth => "max call depth exceeded"
  | ErrInsufficientBalance => "insufficient balance for transfer"
  | ErrContractAddressCollision => "contract address collision"
  | errWriteProtection => "evm: write protection"
  | errReturnDataOutOfBounds => "evm: return data out of bounds"
  | errExecutionReverted => "evm: execution reverted"
  | errMaxCodeSizeExceeded => "evm: max code size exceeded"
  | errGasUintOverflow => "gas uint64 overflow"
  | errInvalidOpcode _ => "invalid opcode"
  | errStackUnderflow => "stack underflow"
  | errStackLimit => "stack limit reached"
  | errInvalidJump _ => "invalid jump destination"
  | errText msg => msg
  end.

(** The calls of [Execute] at depth zero. *)
Definition Execute_Call (c : EvmContext) (caller addr : Address) (input : Bytes) (gas : uint64) (value : Z)
    (view : StoreView) : outcome (Bytes * uint64 * option string * StoreView) :=
  r ← Call (loop (gas_fuel gas)) (top_env c) (AccountRef caller) addr (to_bytes input) gas value (NewEVM view);
  Ok (of_bytes (cr_ret r), cr_gas r, error_text <$> cr_err r, StateDB (cr_machine r)).

Definition Execute_Create (c : EvmContext) (caller : Address) (code : Bytes) (gas : uint64) (value : Z)
    (view : StoreView) : outcome (Bytes * Address * uint64 * option string * StoreView) :=
  r ← Create (loop (gas_fuel gas)) (top_env c) (AccountRef caller) (to_bytes code) gas value (NewEVM view);
  let res := create_res r in
  Ok (of_bytes (cr_ret res), create_addr r, cr_gas res, error_text <$> cr_err res, StateDB (cr_machine res)).
End Interpreter.
