(* ===== verification/VmFrame.v ===== *)
(** * What the virtual machine may change

    Programs of the interpreter are related before and after: the state
    database only evolves through its operations and keeps the validator
    sets, and the running contract keeps its code, its address and, except
    for charges and calls, its gas. *)

From Stdlib Require Import Ascii.
From stdpp Require Import gmap sorting relations.
From stdpp Require Import base list numbers strings.
From S2P Require Import Prelude Vote Validator Block StoreView Execution VmData VmOps Precompiles Vm.
Local Open Scope string_scope.
Local Open Scope list_scope.
Local Open Scope Z_scope.

(** ** Inversion of the monads *)

Lemma outcome_bind_ok {A B} (m : outcome A) (f : A -> outcome B) b :
  (m ≫= f) = Ok b -> exists a, m = Ok a /\ f a = Ok b.
Proof. destruct m; [eauto|done|done]. Qed.

Lemma X_bind_ok {A B} (m : X A) (f : A -> X B) s r s' :
  (m ≫= f) s = Ok (r, s') ->
  (exists a s1, m s = Ok (inr a, s1) /\ f a s1 = Ok (r, s')) \/ (exists e, m s = Ok (inl e, s') /\ r = inl e).
Proof.
  unfold mbind, X_bind. destruct (m s) as [[[e|a] s1]|m'|m'] eqn:Hm; [|eauto|done|done].
  intros [= <- <-]. right. eauto.
Qed.

Lemma X_bind_run {A B} (m : X A) (f : A -> X B) s a s1 :
  m s = Ok (inr a, s1) -> (m ≫= f) s = f a s1.
Proof. unfold mbind, X_bind. by intros ->. Qed.

(** Takes an outcome apart. *)
Tactic Notation "bind_ok" hyp(H) "as" ident(a) ident(Ha) := apply outcome_bind_ok in H as (a & Ha & H).

(** ** Relations kept by programs *)

Definition keeps {A} (R : ExecState -> ExecState -> Prop) (m : X A) : Prop :=
  forall s r s', m s = Ok (r, s') -> R s s'.

Section Keeps.
Context (R : ExecState -> ExecState -> Prop) `{!PreOrder R}.

Lemma xkeeps_bind {A B} (m : X A) (f : A -> X B) :
  keeps R m -> (forall a, keeps R (f a)) -> keeps R (m ≫= f).
Proof.
  intros Hm Hf s r s' Hr. apply X_bind_ok in Hr as [(a & s1 & H1 & H2)|(e & H1 & _)].
  - etrans; [by eapply Hm|by eapply Hf].
  - by eapply Hm.
Qed.

Lemma keeps_done {A} (a : A) : keeps R (done a).
Proof. by intros s r s' [= _ <-]. Qed.
Lemma keeps_fail {A} e : keeps R (fail (A := A) e).
Proof. by intros s r s' [= _ <-]. Qed.
Lemma keeps_get {A} (f : ExecState -> A) : keeps R (get f).
Proof. by intros s r s' [= _ <-]. Qed.
Lemma keeps_run_outcome {A} (f : ExecState -> outcome A) : keeps R (run_outcome f).
Proof. intros s r s'. unfold run_outcome. destruct (f s); [|done|done]. by intros [= _ <-]. Qed.
Lemma keeps_update f : (forall s, R s (f s)) -> keeps R (update f).
Proof. intros Hf s r s' [= _ <-]. apply Hf. Qed.
Lemma keeps_back n : keeps R (back n).
Proof. apply keeps_run_outcome. Qed.
End Keeps.

Create HintDb xkeeps.
#[export] Hint Resolve keeps_done keeps_fail keeps_get keeps_run_outcome keeps_back : xkeeps.

(** ** The state database *)

(** [v'] comes after [v]: through operations of the view, with the same
    validators and token bank. *)
Definition vrel `{ThetaTypes} `{TrieHash} (v v' : StoreView) : Prop :=
  view_inv v -> view_inv v' /\ rtc view_step v v' /\ same_validators v v' /\
    TFuelTokenBank (tree v') = TFuelTokenBank (tree v).

Section Views.
Context `{ThetaTypes} `{TrieHash}.
Implicit Types (v : StoreView).

#[export] Instance vrel_preorder : PreOrder vrel.
Proof.
  split.
  - intros v Hi. done.
  - intros v1 v2 v3 H12 H23 Hi. destruct (H12 Hi) as (Hi2 & ? & (? & ? & ? & ?) & ?).
    destruct (H23 Hi2) as (? & ? & (? & ? & ? & ?) & ?).
    split; [done|]. split; [by etrans|]. split; [|congruence]. split_and!; congruence.
Qed.

(** A step that keeps the validators. *)
Lemma vrel_step v v' : (view_inv v -> view_step v v') -> same_validators v v' ->
  TFuelTokenBank (tree v') = TFuelTokenBank (tree v) -> vrel v v'.
Proof.
  intros Hs Hv Hb Hi. specialize (Hs Hi). split; [by apply (step_extends v)|]. split; [by apply rtc_once|]. by split.
Qed.

Lemma SetAccount_same v addr acc v' : SetAccount v addr acc = Ok v' ->
  same_validators v v' /\ TFuelTokenBank (tree v') = TFuelTokenBank (tree v).
Proof.
  unfold SetAccount, setAccount. cbn [negb]. destruct (_ || _); [by intros [= <-]|].
  destruct (getAccountStorage _ _); [|done]. by intros [= <-].
Qed.

Lemma vrel_create v addr v' : CreateAccountWithPreviousBalance v addr = Ok v' -> vrel v v'.
Proof.
  intros Hc. pose proof (SetAccount_same _ _ _ _ Hc) as [? ?]. apply vrel_step; [|done|done].
  intros _. by eapply step_create_prev.
Qed.

Lemma vrel_sub v addr amount v' : SubBalance v addr amount = Ok v' -> vrel v v'.
Proof.
  intros Hs. assert (Hsame : same_validators v v' /\ TFuelTokenBank (tree v') = TFuelTokenBank (tree v)).
  { unfold SubBalance in Hs. destruct (Z.eqb amount 0); [by injection Hs as <-|].
    destruct (GetAccount v addr); [|done]. bind_ok Hs as v1 Hv. injection Hs as <-. exact (SetAccount_same _ _ _ _ Hv). }
  apply vrel_step; [|apply Hsame..]. intros _. by eapply step_sub.
Qed.

Lemma vrel_add v addr amount v' : AddBalance v addr amount = Ok v' -> vrel v v'.
Proof.
  intros Hs. assert (Hsame : same_validators v v' /\ TFuelTokenBank (tree v') = TFuelTokenBank (tree v)).
  { unfold AddBalance in Hs. destruct (Z.eqb amount 0); [by injection Hs as <-|].
    bind_ok Hs as v1 Hv. injection Hs as <-. exact (SetAccount_same _ _ _ _ Hv). }
  apply vrel_step; [|apply Hsame..]. intros _. by eapply step_add.
Qed.

Lemma vrel_nonce v addr n v' : SetNonce v addr n = Ok v' -> vrel v v'.
Proof.
  intros Hs. pose proof (SetAccount_same _ _ _ _ Hs) as [? ?]. apply vrel_step; [|done|done].
  intros _. by eapply step_nonce.
Qed.

Lemma vrel_code v addr code v' : SetCode v addr code = Ok v' -> vrel v v'.
Proof.
  intros Hs. pose proof (SetAccount_same _ _ _ _ Hs) as [? ?]. apply vrel_step; [|done|done].
  intros _. by eapply step_code.
Qed.

Lemma vrel_state v addr key val v' : SetState v addr key val = Ok v' -> vrel v v'.
Proof.
  intros Hs. apply vrel_step; [intros _; by eapply step_state|..];
    (unfold SetState in Hs; destruct (getAccountStorage _ _); [|done]; by injection Hs as <-).
Qed.

Lemma vrel_suicide v addr b v' : Suicide v addr = Ok (b, v') -> vrel v v'.
Proof.
  intros Hs. assert (Hsame : same_validators v v' /\ TFuelTokenBank (tree v') = TFuelTokenBank (tree v)).
  { unfold Suicide in Hs. destruct (GetAccount v addr); [|by injection Hs as <- <-].
    bind_ok Hs as v1 Hv. injection Hs as <- <-. exact (SetAccount_same _ _ _ _ Hv). }
  apply vrel_step; [|apply Hsame..]. intros _. by eapply step_suicide.
Qed.

Lemma vrel_log v l : vrel v (AddLog v l).
Proof. apply vrel_step; [intros _; apply step_log|done|done]. Qed.
Lemma vrel_add_refund v g : vrel v (AddRefund v g).
Proof. apply vrel_step; [intros _; apply step_add_refund|done|done]. Qed.
Lemma vrel_sub_refund v g v' : SubRefund v g = Ok v' -> vrel v v'.
Proof.
  intros Hs. apply vrel_step; [intros _; by eapply step_sub_refund|..];
    (unfold SubRefund in Hs; destruct (_ <? _); [done|]; by injection Hs as <-).
Qed.
Lemma vrel_snapshot v : vrel v (Snapshot v).2.
Proof. apply vrel_step; [intros _; apply step_snapshot|done|done]. Qed.

(** Going back to a snapshot that was taken before. *)
Lemma vrel_revert v v1 v2 : vrel (Snapshot v).2 v1 -> RevertToSnapshot v1 (Snapshot v).1 = Ok v2 ->
  vrel v v2 /\ (view_inv v -> tree v2 = tree v).
Proof.
  intros H1 H2.
  assert (Htree : view_inv v -> v2 = with_tree v1 (tree v)).
  { intros Hi. destruct (H1 (proj1 (snapshots_insert v Hi))) as (_ & Hs & _).
    destruct (revert_spec v v1 Hi Hs) as (Hr & _). rewrite H2 in Hr. by injection Hr as ->. }
  split; [|intros Hi; by rewrite (Htree Hi)].
  intros Hi. pose proof (Htree Hi) as ->. destruct (vrel_snapshot v Hi) as (Hi' & Hs' & _).
  destruct (H1 Hi') as (Hi1 & Hs1 & (Hh & _ & Hc & Hu) & _).
  assert (Hst : rtc view_step v (with_tree v1 (tree v))).
  { etrans; [exact Hs'|]. etrans; [exact Hs1|]. apply rtc_once. by eapply step_revert. }
  split; [by apply (steps_extend v)|]. split; [done|]. done.
Qed.
End Views.

(** ** Instructions and gas functions *)

(** The part of a contract that no instruction changes. *)
Definition frozen (c : Contract) :=
  (CallerAddress c, caller c, self c, Code c, CodeHash c, CodeAddr c, Input c, value c).

(** The state [s'] comes after [s] in the same contract. *)
Definition frel `{ThetaTypes} `{TrieHash} (s s' : ExecState) : Prop :=
  vrel (StateDB (machine s)) (StateDB (machine s')) /\ frozen (contract s') = frozen (contract s).

(** Without a charge. *)
Definition xrel `{ThetaTypes} `{TrieHash} (s s' : ExecState) : Prop :=
  frel s s' /\ Gas (contract s') = Gas (contract s).

Section Frames.
Context `{ThetaTypes} `{TrieHash}.

#[export] Instance frel_preorder : PreOrder frel.
Proof. split; [by intros s|]. intros s1 s2 s3 [? ?] [? ?]. split; [by etrans|congruence]. Qed.
#[export] Instance xrel_preorder : PreOrder xrel.
Proof. split; [by intros s|]. intros s1 s2 s3 [? ?] [? ?]. split; [by etrans|congruence]. Qed.

Lemma xrel_frame s s' : StateDB (machine s') = StateDB (machine s) -> contract s' = contract s -> xrel s s'.
Proof. intros Hd Hc. unfold xrel, frel. by rewrite Hd, Hc. Qed.

Lemma keeps_pop : keeps xrel pop.
Proof. intros s r s'. unfold pop. destruct (stack s); [done|]. intros [= _ <-]. by apply xrel_frame. Qed.
Lemma keeps_push x : keeps xrel (push x).
Proof. apply keeps_update. intros s. by apply xrel_frame. Qed.
Lemma keeps_frame (f : ExecState -> ExecState) :
  (forall s, StateDB (machine (f s)) = StateDB (machine s) /\ contract (f s) = contract s) -> keeps xrel (update f).
Proof. intros Hf. apply keeps_update. intros s. by apply xrel_frame; apply Hf. Qed.
Lemma keeps_on_memory f : keeps xrel (on_memory f).
Proof. apply xkeeps_bind; [apply _|apply keeps_run_outcome; apply _|]. intros m. by apply keeps_frame. Qed.
Lemma keeps_on_db f : (forall v v', f v = Ok v' -> vrel v v') -> keeps xrel (on_db f).
Proof.
  intros Hf s r s' Hr. unfold on_db, run_outcome, set_db, update, mbind, X_bind in Hr.
  destruct (f (StateDB (machine s))) as [v| |] eqn:Hv; [|done|done]. injection Hr as _ <-.
  split; [|done]. split; [by apply Hf|done].
Qed.
Lemma keeps_db : keeps xrel db.
Proof. apply keeps_get, _. Qed.
Lemma keeps_self : keeps xrel self_address.
Proof. apply keeps_get, _. Qed.
Lemma keeps_read_memory o n : keeps xrel (read_memory o n).
Proof. apply keeps_run_outcome, _. Qed.
End Frames.

#[export] Hint Resolve keeps_pop keeps_push keeps_on_memory keeps_db keeps_self keeps_read_memory : xkeeps.
#[export] Hint Extern 2 (PreOrder _) => apply _ : xkeeps.

(** Walks through a program. *)
Ltac keeps_walk :=
  repeat first
    [ progress cbv zeta
    | solve [eauto with xkeeps]
    | match goal with
      | |- keeps _ (_ ≫= _) => apply xkeeps_bind; [apply _| |intro]
      | |- keeps _ (match ?x with _ => _ end) => destruct x
      end ].

Section FrameLemmas.
Context `{ThetaTypes} `{TrieHash} `{VmLib} `{VmParams}.

Lemma keeps_memoryGasCost n : keeps xrel (memoryGasCost n).
Proof. unfold memoryGasCost. keeps_walk. by apply keeps_frame. Qed.
Lemma keeps_safe_add x y : keeps xrel (safe_add x y).
Proof. unfold safe_add. keeps_walk. Qed.
Lemma keeps_safe_mul x y : keeps xrel (safe_mul x y).
Proof. unfold safe_mul. keeps_walk. Qed.
Lemma keeps_back_uint64 n : keeps xrel (back_uint64 n).
Proof. unfold back_uint64. keeps_walk. Qed.
Lemma keeps_call_gas g : keeps xrel (call_gas g).
Proof.
  unfold call_gas. keeps_walk; [by apply keeps_frame|]. apply keeps_safe_add.
Qed.
Hint Resolve keeps_memoryGasCost keeps_safe_add keeps_safe_mul keeps_back_uint64 keeps_call_gas : xkeeps.

Lemma keeps_add_refund g : keeps xrel (on_db (fun v => Ok (AddRefund v g))).
Proof. apply keeps_on_db. intros v v' [= <-]. apply vrel_add_refund. Qed.
Lemma keeps_sub_refund g : keeps xrel (on_db (fun v => SubRefund v g)).
Proof. apply keeps_on_db. intros v v' Hv. by eapply vrel_sub_refund. Qed.
Hint Resolve keeps_add_refund keeps_sub_refund : xkeeps.

Lemma keeps_gasSStore n : keeps xrel (gasSStore n).
Proof. unfold gasSStore. keeps_walk. Qed.
Lemma keeps_gasSuicide n : keeps xrel (gasSuicide n).
Proof. unfold gasSuicide. keeps_walk. Qed.

Lemma keeps_check_jump pos : keeps xrel (check_jump pos).
Proof.
  intros s r s' Hr. unfold check_jump in Hr. unfold run_outcome, mbind, X_bind in Hr.
  destruct (validJumpdest _ _ _) as [[[ok jd] c]| |] eqn:Hv; [|done|done].
  assert (Hc : frozen c = frozen (contract s) /\ Gas c = Gas (contract s)).
  { unfold validJumpdest in Hv. cbv zeta in Hv.
    repeat match type of Hv with
    | match ?x with _ => _ end = _ => destruct x
    | (_ ≫= _) = Ok _ => let q := fresh in let Hq := fresh in bind_ok Hv as q Hq
    end; by injection Hv as <- <- <-. }
  destruct ok; injection Hr as _ <-; (split; [split; [reflexivity|]|]; apply Hc).
Qed.
Hint Resolve keeps_check_jump : xkeeps.

Lemma keeps_topics n : keeps xrel (pop_topics n).
Proof. induction n; simpl; keeps_walk. Qed.
Hint Resolve keeps_topics : xkeeps.

Lemma keeps_log n : keeps xrel (makeLog n).
Proof. unfold makeLog, nil_nil. keeps_walk. apply keeps_on_db. intros v v' [= <-]. apply vrel_log. Qed.
Lemma keeps_sstore : keeps xrel opSstore.
Proof. unfold opSstore, nil_nil. keeps_walk. apply keeps_on_db. intros v v' Hv. by eapply vrel_state. Qed.
Lemma keeps_suicide : keeps xrel opSuicide.
Proof.
  unfold opSuicide, nil_nil. keeps_walk; apply keeps_on_db; intros v v' Hv; [by eapply vrel_add|].
  bind_ok Hv as p Hp. destruct p as [b v1]. injection Hv as <-. by eapply vrel_suicide.
Qed.
End FrameLemmas.

#[export] Hint Resolve keeps_memoryGasCost keeps_safe_add keeps_safe_mul keeps_back_uint64 keeps_call_gas
  keeps_gasSStore keeps_gasSuicide keeps_check_jump keeps_topics keeps_log keeps_sstore keeps_suicide : xkeeps.
