(* ===== verification/VmGas.v ===== *)
(** * Gas of the virtual machine

    Every instruction that does not end the execution costs gas, a call costs
    more than the gas it hands to the callee, and so a contract never has more
    gas than at its start. *)

From Stdlib Require Import Ascii.
From stdpp Require Import gmap sorting relations.
From stdpp Require Import base list numbers strings.
From S2P Require Import Prelude Vote Validator Block StoreView Execution VmData VmOps Precompiles Vm VmFrame.
Local Open Scope string_scope.
Local Open Scope list_scope.
Local Open Scope Z_scope.

Lemma div64_range x y : 0 <= x -> 0 <= y -> 0 <= x / y <= x.
Proof.
  intros Hx Hy. destruct (decide (y = 0)) as [->|]; [rewrite Z.div_0_r; lia|].
  split; [by apply Z.div_pos; lia|]. apply Z.div_le_upper_bound; nia.
Qed.

(** A gas function returns a 64-bit cost of at least [k]. *)
Definition costs (k : Z) (g : gasFunc) : Prop :=
  forall size s cost s', is_u64 size -> g size s = Ok (inr cost, s') -> is_u64 cost /\ k <= cost.

Section Costs.
Context `{ThetaTypes} `{TrieHash} `{VmLib} `{VmParams}.

Lemma big_Uint64_range x : is_u64 (big_Uint64 x).
Proof. apply wrap64_range. Qed.

Lemma toWordSize_range n : is_u64 n -> is_u64 (toWordSize n).
Proof.
  unfold toWordSize, is_u64, two64. intros Hn. destruct (_ <? n) eqn:Hl; bool_to_prop; [done|].
  pose proof (u64_add_range n 31) as Hr. unfold is_u64, two64 in Hr.
  pose proof (div64_range (u64_add n 31) 32). lia.
Qed.

Lemma safe_add_ok x y s r s' : is_u64 x -> is_u64 y -> safe_add x y s = Ok (inr r, s') ->
  r = x + y /\ is_u64 r /\ s' = s.
Proof.
  intros Hx Hy. unfold safe_add. rewrite SafeAdd_spec by done.
  destruct (two64 <=? x + y) eqn:Ho; [done|]. intros [= <- <-]. bool_to_prop.
  assert (Hs : is_u64 (x + y)) by (unfold is_u64 in *; lia). by rewrite u64_add_small.
Qed.

Lemma safe_mul_ok x y s r s' : is_u64 x -> is_u64 y -> safe_mul x y s = Ok (inr r, s') -> is_u64 r /\ s' = s.
Proof.
  intros Hx Hy. unfold safe_mul. rewrite SafeMul_spec by done.
  destruct (two64 <=? x * y); [done|]. intros [= <- <-]. split; [apply wrap64_range|done].
Qed.

Lemma back_uint64_ok n s r s' : back_uint64 n s = Ok (inr r, s') -> is_u64 r /\ s' = s.
Proof.
  unfold back_uint64, back, run_outcome, mbind, X_bind. destruct (Back (stack s) n) as [v| |]; [|done|done].
  unfold bigUint64. destruct (64 <? BitLen v); [done|]. intros [= <- <-]. split; [apply big_Uint64_range|done].
Qed.

Lemma memoryGasCost_ok n s r s' : memoryGasCost n s = Ok (inr r, s') ->
  is_u64 r /\ (n = 0 \/ n <= 0xffffffffe0) /\ stack s' = stack s /\ contract s' = contract s /\ machine s' = machine s /\
  pc s' = pc s /\ store (memory s') = store (memory s).
Proof.
  unfold memoryGasCost. destruct (Z.eqb_spec n 0) as [->|]; [intros [= <- <-]; split_and!; try done; by left|].
  destruct (_ <? n) eqn:Hn; [done|]. bool_to_prop. unfold get, mbind, X_bind. cbv zeta.
  destruct (_ <? _); intros [= <- <-]; (split_and!; [|right; lia|done..]); [apply wrap64_range|done].
Qed.

Tactic Notation "gas_bind" hyp(H) "as" ident(a) ident(s) ident(Ha) :=
  apply X_bind_ok in H as [(a & s & Ha & H)|(? & _ & [=])].

(** The price of copying or hashing words, added to a cost. *)
Lemma word_price_ok n p g s cost s' : is_u64 p -> is_u64 g ->
  (w ← back_uint64 n; w ← safe_mul (toWordSize w) p; safe_add g w) s = Ok (inr cost, s') ->
  is_u64 cost /\ g <= cost /\ s' = s.
Proof.
  intros Hp Hg Hr. gas_bind Hr as w s1 Hw. apply back_uint64_ok in Hw as [Hw ->].
  gas_bind Hr as w' s1 Hw'. apply safe_mul_ok in Hw' as [Hw' ->]; [|by apply toWordSize_range|done].
  apply safe_add_ok in Hr as (-> & ? & ->); [|done|done]. unfold is_u64 in *. split_and!; [lia|lia|lia|done].
Qed.

(** The shape of the gas functions of instructions that copy or hash words. *)
Lemma costs_words base n p : is_u64 base -> is_u64 p ->
  costs base (fun size => g ← memoryGasCost size; g ← safe_add g base;
                          w ← back_uint64 n; w ← safe_mul (toWordSize w) p; safe_add g w).
Proof.
  intros Hb Hp size s cost s' Hs Hr. gas_bind Hr as g s1 Hg. apply memoryGasCost_ok in Hg as (Hg & _).
  gas_bind Hr as g' s2 Hg'. apply safe_add_ok in Hg' as (-> & Hg' & ->); [|done|done].
  apply word_price_ok in Hr as (? & ? & _); [|done|done]. unfold is_u64 in *. lia.
Qed.

Lemma costs_memory base : is_u64 base -> costs base (fun size => g ← memoryGasCost size; safe_add g base).
Proof.
  intros Hb size s cost s' Hs Hr. gas_bind Hr as g s1 Hg. apply memoryGasCost_ok in Hg as (Hg & _).
  apply safe_add_ok in Hr as (-> & ? & _); [|done|done]. unfold is_u64 in *. lia.
Qed.

Lemma costs_const k g : is_u64 g -> k <= g -> costs k (constGasFunc g).
Proof. by intros Hg Hk size s cost s' Hs [= <- <-]. Qed.

Lemma costs_weaken k k' g : k <= k' -> costs k' g -> costs k g.
Proof. intros Hk Hg size s cost s' Hs Hr. destruct (Hg size s cost s' Hs Hr). split; [done|lia]. Qed.

Lemma costs_exp : costs 1 gasExp.
Proof.
  intros size s cost s' Hs Hr. unfold gasExp in Hr. gas_bind Hr as e s1 He.
  apply safe_add_ok in Hr as (-> & ? & _); [|apply wrap64_range|done].
  pose proof (wrap64_range ((BitLen e + 7) / 8 * gt_ExpByte)) as Hw. unfold is_u64, u64_mul, GasSlowStep in *. lia.
Qed.

Lemma costs_log n : costs 1 (makeGasLog n).
Proof.
  intros size s cost s' Hs Hr. unfold makeGasLog in Hr. pose proof params_u64. pose proof params_pos.
  gas_bind Hr as r s1 Hq. apply back_uint64_ok in Hq as [Hq ->].
  gas_bind Hr as g s2 Hg. apply memoryGasCost_ok in Hg as (Hg & _).
  gas_bind Hr as g2 s3 Hg2. apply safe_add_ok in Hg2 as (-> & Hg2 & ->); [|done|tauto].
  gas_bind Hr as g3 s4 Hg3. apply safe_add_ok in Hg3 as (-> & Hg3 & ->); [|done|apply wrap64_range].
  gas_bind Hr as g4 s5 Hg4. apply safe_mul_ok in Hg4 as (Hg4 & ->); [|done|tauto].
  apply safe_add_ok in Hr as (-> & ? & _); [|done|done].
  pose proof (wrap64_range (n * LogTopicGas)) as Hw. unfold is_u64, u64_mul in *. lia.
Qed.

Lemma costs_sstore : costs 1 gasSStore.
Proof.
  intros size s cost s' Hs Hr. unfold gasSStore in Hr. cbv zeta in Hr. pose proof params_u64. pose proof params_pos.
  gas_bind Hr as y s1 Hy. gas_bind Hr as x s2 Hx. gas_bind Hr as a s3 Ha. gas_bind Hr as c s4 Hc.
  destruct (Z.eqb c _); [injection Hr as <- _; split; [tauto|lia]|].
  gas_bind Hr as o s5 Ho. destruct (Z.eqb o c).
  - destruct (Z.eqb o 0); [injection Hr as <- _; split; [tauto|lia]|].
    gas_bind Hr as u s6 Hu. injection Hr as <- _. split; [tauto|lia].
  - gas_bind Hr as u s6 Hu. gas_bind Hr as w s7 Hw. injection Hr as <- _. split; [tauto|lia].
Qed.

Lemma costs_suicide : costs 0 gasSuicide.
Proof.
  intros size s cost s' Hs Hr. unfold gasSuicide in Hr. cbv zeta in Hr. pose proof params_u64.
  gas_bind Hr as a s1 Ha. gas_bind Hr as me s2 Hme. gas_bind Hr as v s3 Hv. gas_bind Hr as u s4 Hu.
  injection Hr as <- _. destruct (_ && _); [pose proof (u64_add_range gt_Suicide gt_CreateBySuicide)|];
    unfold is_u64 in *; lia.
Qed.

Lemma costs_memory0 : costs 0 memoryGasCost.
Proof. intros size s cost s' _ Hr. apply memoryGasCost_ok in Hr as (Hr & _). unfold is_u64 in *. lia. Qed.

(** *** Calls *)

Lemma callGas_range available base cost g : callGas available base cost = inr g -> is_u64 g.
Proof.
  unfold callGas. cbv zeta. destruct (_ && _); [intros [= <-]; apply wrap64_range|].
  destruct (64 <? BitLen cost); [done|]. intros [= <-]. apply wrap64_range.
Qed.

Lemma call_gas_ok base s cost s' : is_u64 base -> call_gas base s = Ok (inr cost, s') ->
  is_u64 cost /\ is_u64 (callGasTemp (machine s')) /\ cost = base + callGasTemp (machine s') /\
  stack s' = stack s /\ contract s' = contract s.
Proof.
  intros Hb Hr. unfold call_gas in Hr. gas_bind Hr as av s1 Hav. injection Hav as <- <-.
  gas_bind Hr as rq s1 Hrq. unfold back, run_outcome in Hrq. destruct (Back _ _); [|done|done]. injection Hrq as -> <-.
  destruct (callGas _ _ _) as [e|temp] eqn:Hc; [done|]. apply callGas_range in Hc.
  gas_bind Hr as u s1 Hw. injection Hw as _ <-. apply safe_add_ok in Hr as (-> & Hu & ->); [|done|done].
  split; [exact Hu|]. split; [exact Hc|]. done.
Qed.

(** A call costs more than the gas of the callee. *)
Definition call_costs (transfers : Stack -> bool) (g : gasFunc) : Prop :=
  forall size s cost s', is_u64 size -> g size s = Ok (inr cost, s') ->
    is_u64 cost /\ is_u64 (callGasTemp (machine s')) /\ stack s' = stack s /\ contract s' = contract s /\
    1 + callGasTemp (machine s') + (if transfers (stack s) then CallStipend else 0) <= cost.

Definition sends_value (st : Stack) : bool := match st !! 2%nat with Some v => negb (Z.eqb v 0) | None => false end.

Lemma back_ok n s x s' : back n s = Ok (inr x, s') -> stack s !! n = Some x /\ s' = s.
Proof.
  unfold back, run_outcome, Back. destruct (stack s !! n); [|done]. by intros [= -> ->].
Qed.

(** The end of the four gas functions of calls. *)
Lemma call_costs_end base size s cost s' : is_u64 base ->
  (m ← memoryGasCost size; g ← safe_add base m; call_gas g) s = Ok (inr cost, s') ->
  is_u64 cost /\ is_u64 (callGasTemp (machine s')) /\ stack s' = stack s /\ contract s' = contract s /\
  base + callGasTemp (machine s') <= cost.
Proof.
  intros Hb Hr. gas_bind Hr as mg s1 Hm. apply memoryGasCost_ok in Hm as (Hm & _ & Hst & Hc & _).
  gas_bind Hr as g s2 Hg. apply safe_add_ok in Hg as (-> & Hg & ->); [|done|done].
  apply call_gas_ok in Hr as (? & ? & -> & -> & ->); [|done]. unfold is_u64 in *. split_and!; [lia..|congruence|congruence|lia].
Qed.

Lemma call_base_price (new value : bool) :
  let gas := gt_Calls in
  let gas := if new then u64_add gas CallNewAccountGas else gas in
  let gas := if value then u64_add gas CallValueTransferGas else gas in
  is_u64 gas /\ 1 + (if value then CallStipend else 0) <= gas.
Proof.
  pose proof params_u64. pose proof params_call. pose proof params_pos. cbv zeta. unfold is_u64 in *.
  destruct new, value; rewrite ?u64_add_small; unfold is_u64; rewrite ?u64_add_small; unfold is_u64; lia.
Qed.

Lemma costs_call : call_costs sends_value gasCall.
Proof.
  intros size s cost s' Hs Hr. unfold gasCall in Hr. gas_bind Hr as v s1 Hv. apply back_ok in Hv as [Hv ->].
  gas_bind Hr as a s1 Ha. apply back_ok in Ha as [Ha ->]. gas_bind Hr as view s1 Hview. injection Hview as <- <-.
  cbv zeta in Hr. unfold sends_value. rewrite Hv.
  destruct (call_base_price (negb (Z.eqb v 0) && Empty (StateDB (machine s)) (BigToAddress a)) (negb (Z.eqb v 0))) as [Hu Hp].
  apply call_costs_end in Hr as (? & ? & ? & ? & ?); [|exact Hu].
  do 4 (split; [done|]). cbv zeta in Hp. lia.
Qed.

Lemma costs_callcode : call_costs sends_value gasCallCode.
Proof.
  intros size s cost s' Hs Hr. unfold gasCallCode in Hr. gas_bind Hr as v s1 Hv. apply back_ok in Hv as [Hv ->].
  cbv zeta in Hr. unfold sends_value. rewrite Hv. destruct (call_base_price false (negb (Z.eqb v 0))) as [Hu Hp].
  apply call_costs_end in Hr as (? & ? & ? & ? & ?); [|exact Hu].
  do 4 (split; [done|]). cbv zeta in Hp. lia.
Qed.

Lemma costs_delegate : call_costs (fun _ => false) gasDelegateCall.
Proof.
  intros size s cost s' Hs Hr. unfold gasDelegateCall in Hr. pose proof params_u64. pose proof params_pos.
  gas_bind Hr as mg s1 Hm. apply memoryGasCost_ok in Hm as (Hm & _ & Hst & Hc & _).
  gas_bind Hr as g s2 Hg. apply safe_add_ok in Hg as (-> & Hg & ->); [|done|tauto].
  apply call_gas_ok in Hr as (? & ? & -> & -> & ->); [|done]. unfold is_u64 in *. split_and!; [lia..|congruence|congruence|lia].
Qed.

Lemma costs_static : call_costs (fun _ => false) gasStaticCall.
Proof. exact costs_delegate. Qed.
End Costs.

(** ** Operations *)

(** The contract and the gas after a message call. *)
Definition call_frame `{ThetaTypes} `{TrieHash} (m : Machine) (gas : Z) (r : CallResult) : Prop :=
  vrel (StateDB m) (StateDB (cr_machine r)) /\ 0 <= cr_gas r <= gas.

Record calls_frame `{ThetaTypes} `{TrieHash} (calls : Calls) : Prop := {
  Call_frame c a i g v m r : is_u64 g -> evm_Call calls c a i g v m = Ok r -> call_frame m g r;
  CallCode_frame c a i g v m r : is_u64 g -> evm_CallCode calls c a i g v m = Ok r -> call_frame m g r;
  DelegateCall_frame c a i g m r : is_u64 g -> evm_DelegateCall calls c a i g m = Ok r -> call_frame m g r;
  StaticCall_frame c a i g m r : is_u64 g -> evm_StaticCall calls c a i g m = Ok r -> call_frame m g r;
  Create_frame c i g v m r : is_u64 g -> evm_Create calls c i g v m = Ok r -> call_frame m g (create_res r);
  Create2_frame c i g v t m r : is_u64 g -> evm_Create2 calls c i g v t m = Ok r -> call_frame m g (create_res r)
}.

(** What an operation does to the frame and the gas, from before its charge. *)
Definition op_frame `{ThetaTypes} `{TrieHash} `{VmLib} (o : operation) : Prop :=
  forall size s, is_u64 size -> is_u64 (Gas (contract s)) ->
    (forall e s', charge o size s = Ok (inl e, s') -> xrel s s') /\
    (forall s1 r s', charge o size s = Ok (inr tt, s1) -> execute o s1 = Ok (r, s') ->
       frel s s' /\ 0 <= Gas (contract s') <= Gas (contract s) /\
       (Gas (contract s') < Gas (contract s) \/ halts o || reverts o = true)).

Section Operations.
Context `{ThetaTypes} `{TrieHash} `{VmLib} `{VmParams}.

(** The state after a charge. *)
Lemma charge_ok o size s r s' : charge o size s = Ok (r, s') ->
  exists q s1, gasCost o size s = Ok (q, s1) /\
    match q, r with
    | inl _, inl _ => s' = s1
    | inr cost, inl _ => s' = s1 /\ Gas (contract s1) < cost
    | inr cost, inr _ => cost <= Gas (contract s1) /\
        s' = let s2 := set_contract (with_gas (contract s1) (u64_sub (Gas (contract s1)) cost)) s1 in
             if 0 <? size then set_memory (Resize (memory s2) size) s2 else s2
    | inl _, inr _ => False
    end.
Proof.
  unfold charge. destruct (gasCost o size s) as [[[e|cost] s1]| |]; [| |done|done].
  - intros [= <- <-]. by eexists _, _.
  - unfold UseGas. destruct (Gas (contract s1) <? cost) eqn:Hlt; bool_to_prop; intros [= <- <-]; eexists _, _; split; done.
Qed.

(** The frame and the gas after a paid charge. *)
Lemma charge_paid o size s s1 cost s2 : gasCost o size s = Ok (inr cost, s1) -> xrel s s1 -> is_u64 cost ->
  is_u64 (Gas (contract s)) -> charge o size s = Ok (inr tt, s2) ->
  frel s s2 /\ Gas (contract s2) = Gas (contract s) - cost /\ cost <= Gas (contract s) /\
  stack s2 = stack s1 /\ machine s2 = machine s1.
Proof.
  intros Hg [Hf Hgas] Hc Hu Hch. apply charge_ok in Hch as (q & s1' & Hg' & Hq). rewrite Hg in Hg'.
  injection Hg' as <- <-. destruct Hq as [Hle ->]. rewrite Hgas in Hle.
  cbv zeta. unfold is_u64 in *.
  assert (Hsub : u64_sub (Gas (contract s1)) cost = Gas (contract s) - cost)
    by (rewrite Hgas; apply u64_sub_small; unfold is_u64; lia).
  destruct Hf as [Hv Hf].
  destruct (0 <? size); cbn; rewrite Hsub; (split; [split; [exact Hv|exact Hf]|]; done).
Qed.

Lemma charge_failed o size s e s' : (forall n, keeps xrel (gasCost o n)) ->
  charge o size s = Ok (inl e, s') -> xrel s s'.
Proof.
  intros Hk Hch. apply charge_ok in Hch as (q & s1 & Hg & Hq). apply (Hk size) in Hg.
  by destruct q; [subst|destruct Hq as [-> _]].
Qed.

(** An operation that makes no call. *)
Lemma op_frame_simple o k : (forall n, keeps xrel (gasCost o n)) -> costs k (gasCost o) ->
  keeps xrel (execute o) -> 0 <= k -> halts o || reverts o = true \/ 1 <= k -> op_frame o.
Proof.
  intros Hg Hc He Hk0 Hk size s Hs Hu. split; [intros e s'; by apply charge_failed|].
  intros s1 r s' Hch Hex. pose proof Hch as Hch'. apply charge_ok in Hch' as (q & s0 & Hgas & Hq).
  destruct q as [e|cost]; [done|]. destruct (Hc size s cost s0 Hs Hgas) as [Hcu Hck].
  destruct (charge_paid o size s s0 cost s1 Hgas (Hg size _ _ _ Hgas) Hcu Hu Hch) as (Hf & Hgs & Hle & _).
  destruct (He s1 r s' Hex) as [Hf' Hgs']. split; [by etrans|]. rewrite Hgs', Hgs. unfold is_u64 in *.
  split; [lia|]. destruct Hk; [by right|left; lia].
Qed.

(** An operation that makes a call: its execution may give back at most the
    gas of the callee. *)
Lemma op_frame_call o t : (forall n, keeps xrel (gasCost o n)) -> call_costs t (gasCost o) ->
  (forall s r s', is_u64 (Gas (contract s)) -> is_u64 (callGasTemp (machine s)) -> execute o s = Ok (r, s') ->
     is_u64 (Gas (contract s) + (callGasTemp (machine s) + (if t (stack s) then CallStipend else 0))) ->
     frel s s' /\ 0 <= Gas (contract s') <=
       Gas (contract s) + (callGasTemp (machine s) + (if t (stack s) then CallStipend else 0))) ->
  op_frame o.
Proof.
  intros Hg Hc He size s Hs Hu. split; [intros e s'; by apply charge_failed|].
  intros s1 r s' Hch Hex. pose proof Hch as Hch'. apply charge_ok in Hch' as (q & s0 & Hgas & Hq).
  destruct q as [e|cost]; [done|].
  destruct (Hc size s cost s0 Hs Hgas) as (Hcu & Htemp & Hst & _ & Hcost).
  destruct (charge_paid o size s s0 cost s1 Hgas (Hg size _ _ _ Hgas) Hcu Hu Hch) as (Hf & Hgs & Hle & Hst1 & Hm1).
  pose proof params_u64. assert (Hstip : is_u64 CallStipend) by tauto.
  rewrite <- Hst in Hcost. rewrite <- Hst1, <- Hm1 in Hcost. rewrite <- Hm1 in Htemp.
  destruct (He s1 r s') as [Hf' Hg'].
  - unfold is_u64 in *. lia.
  - done.
  - done.
  - unfold is_u64 in *. destruct (t (stack s1)); lia.
  - split; [by etrans|]. split; [lia|left; lia].
Qed.

(** An operation that creates a contract: what is given back was reserved
    from its own gas. *)
Lemma op_frame_create o : (forall n, keeps xrel (gasCost o n)) -> costs 1 (gasCost o) ->
  (forall s r s', is_u64 (Gas (contract s)) -> execute o s = Ok (r, s') ->
     frel s s' /\ 0 <= Gas (contract s') <= Gas (contract s)) ->
  op_frame o.
Proof.
  intros Hg Hc He size s Hs Hu. split; [intros e s'; by apply charge_failed|].
  intros s1 r s' Hch Hex. pose proof Hch as Hch'. apply charge_ok in Hch' as (q & s0 & Hgas & Hq).
  destruct q as [e|cost]; [done|]. destruct (Hc size s cost s0 Hs Hgas) as [Hcu Hck].
  destruct (charge_paid o size s s0 cost s1 Hgas (Hg size _ _ _ Hgas) Hcu Hu Hch) as (Hf & Hgs & Hle & _).
  destruct (He s1 r s') as [Hf' Hg']; [unfold is_u64 in *; lia|done|].
  split; [by etrans|]. split; [lia|left; lia].
Qed.
End Operations.

(** ** Calls of instructions *)

Section CallOperations.
Context `{ThetaTypes} `{TrieHash} `{VmLib} `{VmParams} (calls : Calls).

Lemma pop_bind {B} (f : Z -> X B) s r s' : (pop ≫= f) s = Ok (r, s') ->
  exists x st, stack s = x :: st /\ f x (set_stack st s) = Ok (r, s').
Proof. unfold mbind, X_bind, pop. destruct (stack s) as [|x st]; [done|]. eauto. Qed.

Lemma get_bind {A B} (g : ExecState -> A) (f : A -> X B) s : (get g ≫= f) s = f (g s) s.
Proof. reflexivity. Qed.

Lemma read_bind {B} o n (f : list byte -> X B) s r s' : (read_memory o n ≫= f) s = Ok (r, s') ->
  exists d, memory_Get (memory s) o n = Ok d /\ f d s = Ok (r, s').
Proof. unfold mbind, X_bind, read_memory, run_outcome. destruct (memory_Get _ _ _); [eauto|done|done]. Qed.

Lemma machine_bind {A B} (g : Contract -> Machine -> outcome A) post (f : A -> X B) s r s' :
  (with_machine g post ≫= f) s = Ok (r, s') ->
  exists a, g (contract s) (machine s) = Ok a /\ f a (set_machine (post a) s) = Ok (r, s').
Proof.
  unfold with_machine, mbind, X_bind, run_outcome, update. destruct (g _ _); [eauto|done|done].
Qed.

(** Takes an argument off the stack; [Es] describes the stack popped so far. *)
Tactic Notation "pop_arg" hyp(H) "as" ident(x) :=
  let st := fresh "st" in let E := fresh "Es" in
  apply pop_bind in H as (x & st & E & H); cbn [set_stack stack] in E; try subst.

(** The gas handed back is added to the contract. *)
Lemma call_end_ok ro rs cr s r s' : call_end ro rs cr s = Ok (r, s') ->
  machine s' = machine s /\ contract s' = with_gas (contract s) (u64_add (Gas (contract s)) (cr_gas cr)).
Proof.
  intros Hr. unfold call_end in Hr. apply X_bind_ok in Hr as [(u & s1 & Hp & Hr)|(e & [=] & _)].
  injection Hp as _ <-. apply X_bind_ok in Hr as [(u' & s2 & Hm & Hr)|(e & Hm & ->)].
  - injection Hr as _ <-.
    assert (Hs : machine s2 = machine s /\ contract s2 = contract s); [|by destruct Hs as [<- <-]].
    destruct (cr_err cr) as [[]|]; try (by injection Hm as _ <-);
      unfold on_memory, run_outcome, update, mbind, X_bind in Hm;
      (destruct (memory_Set _ _ _ _); [|done|done]); by injection Hm as _ <-.
  - destruct (cr_err cr) as [[]|]; try done; unfold on_memory, run_outcome, update, mbind, X_bind in Hm;
      (destruct (memory_Set _ _ _ _); done).
Qed.

(** The end of a call instruction. *)
Lemma call_finish s g cr ro rs q s' : call_frame (machine s) g cr -> is_u64 g ->
  is_u64 (Gas (contract s)) -> is_u64 (Gas (contract s) + g) ->
  call_end ro rs cr (set_machine (cr_machine cr) s) = Ok (q, s') ->
  frel s s' /\ 0 <= Gas (contract s') <= Gas (contract s) + g.
Proof.
  intros [Hv Hg] Hu Hc Hsum He. apply call_end_ok in He as [Hm Hc'].
  cbn in Hm, Hc'. rewrite Hc'. cbn. unfold frel. rewrite Hm, Hc'. cbn.
  rewrite u64_add_small by (unfold is_u64 in *; lia). unfold is_u64 in *. split; [done|lia].
Qed.

(** The stipend is given only with a value on the stack. *)
Lemma stipend_u64 temp v st : is_u64 temp -> st !! 2%nat = Some v ->
  is_u64 (temp + (if sends_value st then CallStipend else 0)) ->
  let g := if negb (Z.eqb (U256 v) 0) then u64_add temp CallStipend else temp in
  is_u64 g /\ g <= temp + (if sends_value st then CallStipend else 0).
Proof.
  intros Ht Hv Hsum. unfold sends_value in *. rewrite Hv in *. pose proof params_u64.
  assert (Hstip : is_u64 CallStipend) by tauto.
  destruct (Z.eqb_spec v 0) as [->|Hv0]; cbn [negb] in *; [rewrite U256_spec, Z.mod_0_l by done; cbn [negb Z.eqb]; unfold is_u64 in *; lia|].
  destruct (Z.eqb (U256 v) 0); cbn [negb]; [unfold is_u64 in *; lia|].
  rewrite u64_add_small by done. unfold is_u64 in *. lia.
Qed.

Definition frames5 (f : ContractRef -> Address -> list byte -> uint64 -> Z -> Machine -> outcome CallResult) : Prop :=
  forall c a i g v m r, is_u64 g -> f c a i g v m = Ok r -> call_frame m g r.
Definition frames4 (f : ContractRef -> Address -> list byte -> uint64 -> Machine -> outcome CallResult) : Prop :=
  forall c a i g m r, is_u64 g -> f c a i g m = Ok r -> call_frame m g r.

Lemma opCall_frame s r s' : frames5 (evm_Call calls) ->
  is_u64 (Gas (contract s)) -> is_u64 (callGasTemp (machine s)) -> opCall calls s = Ok (r, s') ->
  is_u64 (Gas (contract s) + (callGasTemp (machine s) + (if sends_value (stack s) then CallStipend else 0))) ->
  frel s s' /\ 0 <= Gas (contract s') <=
    Gas (contract s) + (callGasTemp (machine s) + (if sends_value (stack s) then CallStipend else 0)).
Proof.
  intros Hcalls Hu Ht Hr Hsum. unfold opCall in Hr. pop_arg Hr as g0. rewrite get_bind in Hr.
  pop_arg Hr as a. pop_arg Hr as v. pop_arg Hr as io. pop_arg Hr as sz. pop_arg Hr as ro. pop_arg Hr as rs.
  apply read_bind in Hr as (args & _ & Hr). cbv zeta in Hr. apply machine_bind in Hr as (cr & Hcr & Hr).
  pose proof params_u64. assert (Hstip : is_u64 CallStipend) by tauto.
  destruct (stipend_u64 (callGasTemp (machine s)) v (stack s)) as [Hgu Hgle];
    [done|by rewrite Es|unfold is_u64 in *; destruct (sends_value _); lia|].
  cbn [set_stack machine contract] in Hcr, Hr. cbv zeta in Hgu, Hgle. apply Hcalls in Hcr; [|exact Hgu].
  eapply call_finish in Hr; [|exact Hcr|exact Hgu|done|unfold is_u64 in *; cbn; lia]. cbn in Hr.
  destruct Hr as [Hf Hg]. split; [exact Hf|]. lia.
Qed.

Lemma opDelegateCall_frame s r s' : frames4 (evm_DelegateCall calls) ->
  is_u64 (Gas (contract s)) -> is_u64 (callGasTemp (machine s)) -> opDelegateCall calls s = Ok (r, s') ->
  is_u64 (Gas (contract s) + (callGasTemp (machine s) + 0)) ->
  frel s s' /\ 0 <= Gas (contract s') <= Gas (contract s) + (callGasTemp (machine s) + 0).
Proof.
  intros Hcalls Hu Ht Hr Hsum. unfold opDelegateCall in Hr. pop_arg Hr as g0. rewrite get_bind in Hr.
  pop_arg Hr as a. pop_arg Hr as io. pop_arg Hr as sz. pop_arg Hr as ro. pop_arg Hr as rs.
  apply read_bind in Hr as (args & _ & Hr). cbv zeta in Hr. apply machine_bind in Hr as (cr & Hcr & Hr).
  apply Hcalls in Hcr; [|done]. cbn [set_stack machine contract] in Hcr, Hr. rewrite Z.add_0_r in *.
  by eapply call_finish in Hr; [|exact Hcr|..].
Qed.

(** What is reserved for a creation. *)
Lemma reserve_bind {B} (f : Z -> X B) s r s' : is_u64 (Gas (contract s)) -> (reserve_gas ≫= f) s = Ok (r, s') ->
  exists g, 0 <= g <= Gas (contract s) /\
    f g (set_contract (with_gas (contract s) (Gas (contract s) - g)) s) = Ok (r, s').
Proof.
  intros Hu Hr. set (G := Gas (contract s)) in *.
  pose proof (div64_range G 64) as Hd. unfold is_u64 in Hu.
  assert (Hg : u64_sub G (G / 64) = G - G / 64) by (apply u64_sub_small; unfold is_u64; lia).
  exists (G - G / 64). split; [lia|].
  assert (Hd2 : u64_sub G (G - G / 64) = G - (G - G / 64)) by (apply u64_sub_small; unfold is_u64; lia).
  rewrite <- Hr. unfold reserve_gas, mbind, X_bind, get, update, done, UseGas. cbv zeta. fold G.
  rewrite Hg. destruct (Z.ltb_spec G (G - G / 64)); [lia|]. cbn. by rewrite Hd2.
Qed.

Lemma create_finish s G g cr q s' : call_frame (machine s) g (create_res cr) -> is_u64 G -> 0 <= g <= G ->
  Gas (contract s) = G - g ->
  create_end cr (set_machine (cr_machine (create_res cr)) s) = Ok (q, s') ->
  frel s s' /\ 0 <= Gas (contract s') <= G.
Proof.
  intros [Hv Hg] Hu Hle Hgas He.
  injection He as _ <-. cbn. split; [done|].
  rewrite Hgas, u64_add_small; unfold is_u64 in *; lia.
Qed.

Lemma opCreate_frame s r s' :
  (forall c i g v m r, is_u64 g -> evm_Create calls c i g v m = Ok r -> call_frame m g (create_res r)) ->
  is_u64 (Gas (contract s)) -> opCreate calls s = Ok (r, s') ->
  frel s s' /\ 0 <= Gas (contract s') <= Gas (contract s).
Proof.
  intros Hcalls Hu Hr. unfold opCreate in Hr. pop_arg Hr as v. pop_arg Hr as o. pop_arg Hr as n.
  apply read_bind in Hr as (args & _ & Hr). apply reserve_bind in Hr as (g & Hg & Hr); [|done].
  apply machine_bind in Hr as (cr & Hcr & Hr). cbn [set_stack contract] in Hg. apply Hcalls in Hcr; [|unfold is_u64 in *; lia].
  eapply (create_finish _ (Gas (contract s))) in Hr as [Hf ?]; [|exact Hcr|done|exact Hg|reflexivity]. done.
Qed.

Lemma opCreate2_frame s r s' :
  (forall c i g v t m r, is_u64 g -> evm_Create2 calls c i g v t m = Ok r -> call_frame m g (create_res r)) ->
  is_u64 (Gas (contract s)) -> opCreate2 calls s = Ok (r, s') ->
  frel s s' /\ 0 <= Gas (contract s') <= Gas (contract s).
Proof.
  intros Hcalls Hu Hr. unfold opCreate2 in Hr. pop_arg Hr as v. pop_arg Hr as o. pop_arg Hr as n. pop_arg Hr as salt.
  apply read_bind in Hr as (args & _ & Hr). apply reserve_bind in Hr as (g & Hg & Hr); [|done].
  apply machine_bind in Hr as (cr & Hcr & Hr). cbn [set_stack contract] in Hg. apply Hcalls in Hcr; [|unfold is_u64 in *; lia].
  eapply (create_finish _ (Gas (contract s))) in Hr as [Hf ?]; [|exact Hcr|done|exact Hg|reflexivity]. done.
Qed.
End CallOperations.

(** ** The jump table *)

Create HintDb vmcosts.

Section TableFrame.
Context `{ThetaTypes} `{TrieHash} `{VmLib} `{VmParams} (env : Env) (calls : Calls).

Lemma costs_quick : costs 1 (constGasFunc GasQuickStep).
Proof. by apply costs_const. Qed.
Lemma costs_fastest : costs 1 (constGasFunc GasFastestStep).
Proof. by apply costs_const. Qed.
Lemma costs_fast : costs 1 (constGasFunc GasFastStep).
Proof. by apply costs_const. Qed.
Lemma costs_mid : costs 1 (constGasFunc GasMidStep).
Proof. by apply costs_const. Qed.
Lemma costs_slow : costs 1 (constGasFunc GasSlowStep).
Proof. by apply costs_const. Qed.
Lemma costs_ext : costs 1 (constGasFunc GasExtStep).
Proof. by apply costs_const. Qed.
Lemma costs_jumpdest : costs 1 (constGasFunc JumpdestGas).
Proof. pose proof params_u64. pose proof params_pos. apply costs_const; [tauto|lia]. Qed.
Lemma costs_copy : costs 1 gasCallDataCopy.
Proof. pose proof params_u64. apply (costs_weaken _ GasFastestStep); [done|]. apply costs_words; (done || tauto). Qed.
Lemma costs_extcopy : costs 1 gasExtCodeCopy.
Proof.
  pose proof params_u64. pose proof params_pos. apply (costs_weaken _ gt_ExtcodeCopy); [lia|]. apply costs_words; (done || tauto).
Qed.
Lemma costs_sha3 : costs 1 gasSha3.
Proof. pose proof params_u64. pose proof params_pos. apply (costs_weaken _ Sha3Gas); [lia|]. apply costs_words; (done || tauto). Qed.
Lemma costs_create2 : costs 1 gasCreate2.
Proof. pose proof params_u64. pose proof params_pos. apply (costs_weaken _ Create2Gas); [lia|]. apply costs_words; (done || tauto). Qed.
Lemma costs_mload : costs 1 gasMLoad.
Proof. apply (costs_weaken _ GasFastestStep); [done|]. by apply costs_memory. Qed.
Lemma costs_create : costs 1 gasCreate.
Proof. pose proof params_u64. pose proof params_pos. apply (costs_weaken _ CreateGas); [lia|]. apply costs_memory; tauto. Qed.
Lemma costs_balance : costs 1 gasBalance.
Proof. pose proof params_u64. pose proof params_pos. apply costs_const; [tauto|lia]. Qed.
Lemma costs_extsize : costs 1 gasExtCodeSize.
Proof. pose proof params_u64. pose proof params_pos. apply costs_const; [tauto|lia]. Qed.
Lemma costs_exthash : costs 1 gasExtCodeHash.
Proof. pose proof params_u64. pose proof params_pos. apply costs_const; [tauto|lia]. Qed.
Lemma costs_sload : costs 1 gasSLoad.
Proof. pose proof params_u64. pose proof params_pos. apply costs_const; [tauto|lia]. Qed.

Hint Resolve costs_quick costs_fastest costs_fast costs_mid costs_slow costs_ext costs_jumpdest costs_copy
  costs_extcopy costs_sha3 costs_create2 costs_mload costs_create costs_balance costs_extsize costs_exthash
  costs_sload costs_exp costs_log costs_sstore : vmcosts.

(** A gas function or an instruction, whatever its name, keeps the frame. *)
Ltac head t := lazymatch t with ?f _ => head f | _ => t end.
Ltac keeps_op :=
  solve [ eauto with xkeeps
        | match goal with
          | |- keeps _ ?m => let f := head m in unfold f, nil_nil; keeps_walk; by apply keeps_frame
          end ].
Ltac table_cbn :=
  cbn [snd push_operation dup_operation swap_operation log_operation plain with_memory set_writes set_jumps set_halts
       set_returns set_reverts gasCost execute].
Ltac simple_op :=
  table_cbn; apply (op_frame_simple _ 1);
  [ intro; table_cbn; keeps_op
  | table_cbn; solve [eauto with vmcosts | exact costs_copy | exact costs_mload | exact costs_fastest]
  | table_cbn; keeps_op
  | lia | right; lia ].

Lemma push_frame n : op_frame (push_operation n).2.
Proof. simple_op. Qed.
Lemma dup_frame n : op_frame (dup_operation n).2.
Proof. simple_op. Qed.
Lemma swap_frame n : op_frame (swap_operation n).2.
Proof. simple_op. Qed.
Lemma log_frame n : op_frame (log_operation n).2.
Proof. simple_op. Qed.

Lemma arithmetic_frame : Forall (fun p => op_frame p.2) arithmetic_operations.
Proof.
  repeat (apply Forall_cons; split; [cbn [snd]|]); [|simple_op..|apply Forall_nil_2].
  apply (op_frame_simple _ 0); [intro; table_cbn; keeps_op|by apply costs_const|table_cbn; keeps_op|lia|by left].
Qed.

Lemma environment_frame : Forall (fun p => op_frame p.2) (environment_operations env).
Proof. repeat (apply Forall_cons; split; [simple_op|]). apply Forall_nil_2. Qed.

Lemma storage_frame : Forall (fun p => op_frame p.2) storage_operations.
Proof. repeat (apply Forall_cons; split; [simple_op|]). apply Forall_nil_2. Qed.

Lemma stack_frame : Forall (fun p => op_frame p.2) stack_operations.
Proof.
  unfold stack_operations. rewrite !Forall_app. split_and!; apply Forall_fmap, Forall_true; intros n;
    [apply push_frame|apply dup_frame|apply swap_frame|apply log_frame].
Qed.

Context (Hcalls : calls_frame calls).

Lemma calls_table_frame : Forall (fun p => op_frame p.2) (call_operations calls).
Proof.
  unfold call_operations. repeat (apply Forall_cons; split); [..|apply Forall_nil_2]; table_cbn.
  - apply op_frame_create; [intro; table_cbn; keeps_op|exact costs_create|]. intros s r s'.
    exact (opCreate_frame calls s r s' (Create_frame calls Hcalls)).
  - apply (op_frame_call _ sends_value); [intro; table_cbn; keeps_op|exact costs_call|]. intros s r s'.
    exact (opCall_frame calls s r s' (Call_frame calls Hcalls)).
  - apply (op_frame_call _ sends_value); [intro; table_cbn; keeps_op|exact costs_callcode|]. intros s r s'.
    exact (opCall_frame (mkCalls (evm_CallCode calls) (evm_CallCode calls) (evm_DelegateCall calls)
      (evm_StaticCall calls) (evm_Create calls) (evm_Create2 calls)) s r s' (CallCode_frame calls Hcalls)).
  - apply (op_frame_simple _ 0); [intro; table_cbn; keeps_op|exact costs_memory0|table_cbn; keeps_op|lia|by left].
  - apply (op_frame_simple _ 0); [intro; table_cbn; keeps_op|exact costs_suicide|table_cbn; keeps_op|lia|by left].
Qed.

Lemma homestead_frame : Forall (fun p => op_frame p.2) (newHomesteadInstructionSet env calls).
Proof.
  apply Forall_cons. split.
  - apply (op_frame_call _ (fun _ => false)); [intro; table_cbn; keeps_op|exact costs_delegate|]. intros s r s'.
    exact (opDelegateCall_frame calls s r s' (DelegateCall_frame calls Hcalls)).
  - unfold newFrontierInstructionSet. rewrite !Forall_app.
    split_and!; [apply arithmetic_frame|apply environment_frame|apply storage_frame|apply stack_frame|
                 apply calls_table_frame].
Qed.

Lemma byzantium_frame : Forall (fun p => op_frame p.2) (newByzantiumInstructionSet env calls).
Proof.
  unfold newByzantiumInstructionSet. cbn [app]. apply Forall_cons; split.
  { apply (op_frame_call _ (fun _ => false)); [intro; table_cbn; keeps_op|exact costs_static|]. intros s r s'.
    exact (opDelegateCall_frame (mkCalls (evm_Call calls) (evm_CallCode calls) (evm_StaticCall calls)
      (evm_StaticCall calls) (evm_Create calls) (evm_Create2 calls)) s r s' (StaticCall_frame calls Hcalls)). }
  do 2 (apply Forall_cons; split; [simple_op|]). apply Forall_cons; split; [|apply homestead_frame].
  apply (op_frame_simple _ 0); [intro; table_cbn; keeps_op|exact costs_memory0|table_cbn; keeps_op|lia|by left].
Qed.

Lemma table_frame op o : JumpTable env calls op = Some o -> op_frame o.
Proof.
  assert (Hall : Forall (fun p => op_frame p.2) (newConstantinopleInstructionSet env calls)).
  { unfold newConstantinopleInstructionSet. cbn [app].
    do 4 (apply Forall_cons; split; [simple_op|]). apply Forall_cons; split; [|apply byzantium_frame].
    apply op_frame_create; [intro; table_cbn; keeps_op|exact costs_create2|]. intros s r s'.
    exact (opCreate2_frame calls s r s' (Create2_frame calls Hcalls)). }
  unfold JumpTable. induction Hall as [|[k o'] l Ho _ IH]; cbn; [done|].
  destruct (Z.eqb k op); [by intros [= <-]|done].
Qed.
End TableFrame.

(** ** Steps, contracts and message calls *)

Section Runs.
Context `{ThetaTypes} `{TrieHash} `{TxTypes} `{VmLib} `{VmParams} `{VmCrypto}.

Lemma memory_size_range o st size : memory_size o st = Ok (inr size) -> is_u64 size.
Proof.
  unfold memory_size. destruct (memorySize o) as [f|]; [|intros [= <-]; done]. intros Hr. bind_ok Hr as v Hv.
  unfold bigUint64 in Hr. destruct (64 <? BitLen v); [done|].
  rewrite SafeMul_spec in Hr by (apply toWordSize_range, big_Uint64_range || done).
  destruct (two64 <=? _); [done|]. injection Hr as <-. apply wrap64_range.
Qed.

(** What one iteration of the loop does to the frame and the gas. *)
Definition step_gas (s : ExecState) (r : StepResult) : Prop :=
  match r with
  | Continue s' => frel s s' /\ 0 <= Gas (contract s') < Gas (contract s)
  | Stop _ _ s' => frel s s' /\ 0 <= Gas (contract s') <= Gas (contract s)
  end.

Lemma step_frame env calls s r : calls_frame calls -> is_u64 (Gas (contract s)) -> step env calls s = Ok r -> step_gas s r.
Proof.
  intros Hcalls Hu. unfold step. cbv zeta.
  assert (Hhere : frel s s /\ 0 <= Gas (contract s) <= Gas (contract s)) by (unfold is_u64 in Hu; split; [reflexivity|lia]).
  destruct (JumpTable env calls _) as [o|] eqn:Ho; [|by intros [= <-]].
  apply (table_frame env calls Hcalls) in Ho.
  destruct (validateStack o (stack s)); [by intros [= <-]|]. intros Hr. bind_ok Hr as q Hq.
  destruct q; [by injection Hr as <-|]. bind_ok Hr as size Hsize. destruct size as [e|size]; [by injection Hr as <-|].
  apply memory_size_range in Hsize. destruct (Ho size s Hsize Hu) as [Hfail Hpaid].
  bind_ok Hr as c Hc. destruct c as [[e|[]] s1].
  - injection Hr as <-. destruct (Hfail e s1 Hc) as [Hf Hg]. cbn. rewrite Hg. unfold is_u64 in Hu. split; [done|lia].
  - unfold perform in Hr. bind_ok Hr as p Hp. destruct p as [q s2].
    destruct (Hpaid s1 q s2 Hc Hp) as (Hf & Hg & Hlt).
    assert (Hret : forall l, frel s (set_return o l s2) /\ Gas (contract (set_return o l s2)) = Gas (contract s2)).
    { intros l. unfold set_return. by destruct (returns o). }
    destruct q as [e|res].
    + injection Hr as <-. cbn. destruct (Hret []) as [? ->]. done.
    + destruct (Hret res) as [Hf2 Hg2].
      destruct (reverts o); [injection Hr as <-; cbn; by rewrite Hg2|].
      destruct (halts o); [injection Hr as <-; cbn; by rewrite Hg2|]. destruct Hlt as [Hlt|]; [|done].
      destruct (jumps o); injection Hr as <-; cbn; rewrite Hg2; (split; [done|lia]).
Qed.

(** A loop that only ends in states it may reach. *)
Definition loop_frame (f : Env -> ExecState -> outcome RunResult) : Prop :=
  forall env s r, f env s = Ok r -> is_u64 (Gas (contract s)) ->
    vrel (StateDB (machine s)) (StateDB (run_machine r)) /\ 0 <= Gas (run_contract r) <= Gas (contract s).

Section Given.
Context (f : Env -> ExecState -> outcome RunResult) (Hf : loop_frame f) (env : Env).

(** *** Precompiled contracts *)

Lemma precompile_vrel p view input c ret err view' : precompile_Run p view input c = Ok (ret, err, view') -> vrel view view'.
Proof.
  intros Hr. destruct p; cbn in Hr; unfold pure_result, point_result in Hr;
    try (bind_ok Hr as q Hq; try destruct q; by injection Hr as _ _ <-);
    try (by injection Hr as _ _ <-).
  - unfold mintTFuel_Run in Hr. bind_ok Hr as q Hq. destruct (negb q); [by injection Hr as _ _ <-|].
    bind_ok Hr as w Hw. bind_ok Hr as amount Ha. destruct (amount <? 0); [by injection Hr as _ _ <-|].
    bind_ok Hr as v Hv. injection Hr as _ _ <-. by eapply vrel_add.
  - unfold burnTFuel_Run in Hr. bind_ok Hr as amount Ha. destruct (amount <? 0); [by injection Hr as _ _ <-|].
    destruct (negb _); [by injection Hr as _ _ <-|]. bind_ok Hr as v Hv. injection Hr as _ _ <-. by eapply vrel_sub.
Qed.

Lemma UseGas_range c g : is_u64 (Gas c) -> 0 <= g -> 0 <= Gas (UseGas c g).2 <= Gas c.
Proof.
  intros Hu Hg. unfold UseGas. destruct (Gas c <? g) eqn:Hl; bool_to_prop; cbn; [unfold is_u64 in *; lia|].
  rewrite u64_sub_small; unfold is_u64 in *; lia.
Qed.

Lemma RequiredGas_range p input h g : RequiredGas p input h = Ok g -> is_u64 g.
Proof.
  pose proof params_u64. intros Hr. destruct p; cbn in Hr; try (injection Hr as <-); try tauto; try apply wrap64_range; try done.
  - unfold modexp_RequiredGas in Hr. bind_ok Hr as b Hb. bind_ok Hr as e He. bind_ok Hr as m Hm. bind_ok Hr as h' Hh.
    injection Hr as <-. unfold modexp_gas. cbv zeta. destruct (64 <? _); [done|apply big_Uint64_range].
  - destruct (_ <? _); tauto.
  - destruct (_ <? _); tauto.
  - destruct (_ <? _); apply wrap64_range.
Qed.

Lemma run_frame c input ro m r : is_u64 (Gas c) -> run f env c input ro m = Ok r ->
  vrel (StateDB m) (StateDB (run_machine r)) /\ 0 <= Gas (run_contract r) <= Gas c.
Proof.
  intros Hu Hr. unfold run in Hr. destruct (CodeAddr c ≫= PrecompiledContracts) as [p|].
  - bind_ok Hr as q Hq. destruct q as [[[ret err] c'] view]. injection Hr as <-. cbn.
    unfold RunPrecompiledContract in Hq. bind_ok Hq as g Hg. apply RequiredGas_range in Hg.
    pose proof (UseGas_range c g Hu (proj1 Hg)) as Hgas. destruct (UseGas c g) as [ok c1]. cbn in Hgas.
    destruct ok; [|injection Hq as _ _ <- <-; split; [done|lia]].
    bind_ok Hq as w Hw. destruct w as [[ret1 err1] view1]. injection Hq as _ _ <- <-.
    split; [by eapply precompile_vrel|lia].
  - unfold Run in Hr. cbv zeta in Hr. destruct (_ =? 0)%nat.
    + injection Hr as <-. cbn. unfold is_u64 in Hu. split; [done|lia].
    + exact (Hf _ _ _ Hr Hu).
Qed.

(** *** Message calls *)

Lemma call_result_frame v m1 r cr gas : vrel (Snapshot v).2 (StateDB (run_machine r)) ->
  0 <= Gas (run_contract r) <= gas -> call_result (Snapshot v).1 r = Ok cr -> StateDB m1 = v ->
  is_u64 gas -> call_frame m1 gas cr /\ (cr_err cr <> None -> view_inv v -> tree (StateDB (cr_machine cr)) = tree v) /\
  (cr_err cr <> None -> cr_err cr <> Some errExecutionReverted -> cr_gas cr = 0).
Proof.
  intros Hv Hg Hr <- Hu. unfold call_result in Hr. destruct (run_err r) as [e|].
  - bind_ok Hr as view Hview. injection Hr as <-. destruct (vrel_revert _ _ _ Hv Hview) as [Hv' Ht].
    unfold call_frame. cbn.
    assert (Hzero : Gas (UseGas (run_contract r) (Gas (run_contract r))).2 = 0).
    { unfold UseGas. destruct (Z.ltb_spec (Gas (run_contract r)) (Gas (run_contract r))); [lia|]. cbn.
      by rewrite u64_sub_small, Z.sub_diag by (unfold is_u64 in *; rewrite Z.sub_diag; done). }
    split; [split; [exact Hv'|]; case_decide; [lia|rewrite Hzero; unfold is_u64 in Hu; lia]|].
    split; [intros _; exact Ht|]. intros _ Hne. case_decide as He; [by destruct Hne; f_equal|done].
  - injection Hr as <-. unfold call_frame. cbn. split; [|done]. split; [|lia].
    etrans; [apply vrel_snapshot|done].
Qed.

(** After an error the state tree is the one before the call, and the gas is
    used up unless the call was refused or the contract reverted. *)
Definition call_undone (m : Machine) (gas : Z) (r : CallResult) : Prop :=
  cr_err r <> None -> (view_inv (StateDB m) -> tree (StateDB (cr_machine r)) = tree (StateDB m)) /\
    (cr_gas r = 0 \/ cr_gas r = gas \/ cr_err r = Some errExecutionReverted).

Lemma refused_frame m gas e r : is_u64 gas -> refused gas e m = Ok r -> call_frame m gas r /\ call_undone m gas r.
Proof.
  intros [? ?] [= <-]. split; [split; [done|]; cbn; lia|]. intros _. cbn. split; [done|]. by right; left.
Qed.

(** A contract run between a snapshot and the end of the call. *)
Lemma bracket_frame m gas c input ro view r cr : vrel (Snapshot (StateDB m)).2 view -> is_u64 gas -> Gas c = gas ->
  run f env c input ro (with_db m view) = Ok r -> call_result (Snapshot (StateDB m)).1 r = Ok cr ->
  call_frame m gas cr /\ call_undone m gas cr.
Proof.
  intros Hv Hu Hgas Hr Hcr. apply run_frame in Hr as [Hv' Hg]; [|by rewrite Hgas]. rewrite Hgas in Hg.
  assert (Hvr : vrel (Snapshot (StateDB m)).2 (StateDB (run_machine r))) by (etrans; [exact Hv|exact Hv']).
  destruct (call_result_frame (StateDB m) m r cr gas Hvr Hg Hcr eq_refl Hu) as (Hf' & Ht & Hz).
  split; [done|]. intros He. split; [by apply Ht|].
  destruct (decide (cr_err cr = Some errExecutionReverted)); [by right; right|]. left. by apply Hz.
Qed.

Lemma Transfer_vrel view a b n view' : Transfer view a b n = Ok view' -> vrel view view'.
Proof. intros Ht. unfold Transfer in Ht. bind_ok Ht as v Hv. etrans; [by eapply vrel_sub|by eapply vrel_add]. Qed.

Lemma Call_spec caller addr input gas value m r : is_u64 gas ->
  Call f env caller addr input gas value m = Ok r -> call_frame m gas r /\ call_undone m gas r.
Proof.
  intros Hu. unfold Call. destruct (_ && _); [by apply refused_frame|]. destruct (_ <? _); [by apply refused_frame|].
  destruct (negb _); [by apply refused_frame|]. unfold take_snapshot. cbn [Snapshot].
  set (m1 := with_db m _). destruct (_ && _ && _).
  - intros [= <-]. split; [|done]. split; [apply vrel_snapshot|]. cbn. unfold is_u64 in Hu. lia.
  - intros Hr. bind_ok Hr as v1 Hv1. bind_ok Hr as v2 Hv2. cbv zeta in Hr. bind_ok Hr as q Hq.
    eapply (bracket_frame m gas); [|done| |exact Hq|exact Hr]; [|done].
    etrans; [|by eapply Transfer_vrel].
    destruct (Exist _ _); [by injection Hv1 as <-|by eapply vrel_create].
Qed.

Lemma CallCode_spec caller addr input gas value m r : is_u64 gas ->
  CallCode f env caller addr input gas value m = Ok r -> call_frame m gas r /\ call_undone m gas r.
Proof.
  intros Hu. unfold CallCode. destruct (_ && _); [by apply refused_frame|]. destruct (_ <? _); [by apply refused_frame|].
  destruct (negb _); [by apply refused_frame|]. unfold take_snapshot. cbn [Snapshot]. cbv zeta.
  intros Hr. bind_ok Hr as q Hq. by eapply (bracket_frame m gas); [|done| |exact Hq|exact Hr].
Qed.

Lemma DelegateCall_spec caller addr input gas m r : is_u64 gas ->
  DelegateCall f env caller addr input gas m = Ok r -> call_frame m gas r /\ call_undone m gas r.
Proof.
  intros Hu. unfold DelegateCall. destruct (_ && _); [by apply refused_frame|]. destruct (_ <? _); [by apply refused_frame|].
  unfold take_snapshot. cbn [Snapshot]. intros Hr. bind_ok Hr as c Hc. cbv zeta in Hr. bind_ok Hr as q Hq.
  eapply (bracket_frame m gas); [|done| |exact Hq|exact Hr]; [done|].
  unfold AsDelegate in Hc. cbn in Hc. destruct caller; [done|]. by injection Hc as <-.
Qed.

Lemma StaticCall_spec caller addr input gas m r : is_u64 gas ->
  StaticCall f env caller addr input gas m = Ok r -> call_frame m gas r /\ call_undone m gas r.
Proof.
  intros Hu. unfold StaticCall. destruct (_ && _); [by apply refused_frame|]. destruct (_ <? _); [by apply refused_frame|].
  unfold take_snapshot. cbn [Snapshot]. cbv zeta. intros Hr. bind_ok Hr as q Hq.
  by eapply (bracket_frame m gas); [|done| |exact Hq|exact Hr].
Qed.

Lemma store_code_frame address r r' gas : 0 <= Gas (run_contract r) <= gas -> is_u64 gas ->
  store_code address r = Ok r' ->
  vrel (StateDB (run_machine r)) (StateDB (run_machine r')) /\ 0 <= Gas (run_contract r') <= gas.
Proof.
  intros Hg Hu. unfold store_code. destruct (_ && _); [|intros [= <-]; done].
  pose proof (UseGas_range (run_contract r) (u64_mul (lenZ (run_ret r)) CreateDataGas)) as Hr.
  destruct (UseGas _ _) as [ok c]. cbn in Hr. unfold is_u64 in *.
  pose proof (wrap64_range (lenZ (run_ret r) * CreateDataGas)) as Hw. unfold is_u64, u64_mul in *.
  destruct ok; [|intros [= <-]; cbn; split; [done|lia]].
  intros Hs. bind_ok Hs as v Hv. injection Hs as <-. cbn. split; [by eapply vrel_code|lia].
Qed.

(** The nonce of the creator moves even if the creation fails. *)
Lemma create_spec caller code hash gas value address m r : is_u64 gas ->
  create f env caller code hash gas value address m = Ok r -> call_frame m gas (create_res r).
Proof.
  intros Hu. assert (Hrefused : forall a e m', vrel (StateDB m) (StateDB m') ->
    create_refused a gas e m' = Ok r -> call_frame m gas (create_res r)).
  { intros a e m' Hv [= <-]. split; [done|]. cbn. unfold is_u64 in Hu. lia. }
  unfold create. destruct (_ <? _); [by apply Hrefused|]. destruct (negb _); [by apply Hrefused|].
  intros Hr. bind_ok Hr as v1 Hv1. apply vrel_nonce in Hv1. cbv zeta in Hr. destruct (_ || _).
  { injection Hr as <-. split; [done|]. cbn. unfold is_u64 in Hu. lia. }
  unfold take_snapshot in Hr. cbn [Snapshot] in Hr. bind_ok Hr as v2 Hv2. bind_ok Hr as v3 Hv3.
  assert (Hv : vrel (Snapshot v1).2 v3) by (etrans; [by eapply vrel_create|by eapply Transfer_vrel]).
  assert (Hm : vrel (StateDB m) v3) by (etrans; [exact Hv1|]; etrans; [apply vrel_snapshot|exact Hv]).
  destruct (_ && _); [by eapply Hrefused; [|exact Hr]|].
  bind_ok Hr as q Hq. apply run_frame in Hq as [Hq Hg]; [|done]. cbn in Hg.
  unfold create_result in Hr. bind_ok Hr as q2 Hq2.
  destruct (store_code_frame _ _ _ gas Hg Hu Hq2) as [Hvq Hgq]. bind_ok Hr as cr Hcr. injection Hr as <-. cbn.
  assert (Hall : vrel (Snapshot v1).2 (StateDB (run_machine q2))) by (etrans; [exact Hv|]; etrans; [exact Hq|exact Hvq]).
  eapply (call_result_frame v1 (with_db m v1)) in Hcr as ([Hf1 Hf2] & _); [|by destruct (_ && _)|by destruct (_ && _)|done|done].
  split; [|done]. etrans; [exact Hv1|exact Hf1].
Qed.


Lemma calls_of_frame : calls_frame (calls_of f env).
Proof.
  split; cbn.
  - intros c a i g v m r Hu Hr. by eapply Call_spec in Hr as [? _].
  - intros c a i g v m r Hu Hr. by eapply CallCode_spec in Hr as [? _].
  - intros c a i g m r Hu Hr. by eapply DelegateCall_spec in Hr as [? _].
  - intros c a i g m r Hu Hr. by eapply StaticCall_spec in Hr as [? _].
  - intros c i g v m r Hu Hr. by eapply create_spec in Hr.
  - intros c i g v t m r Hu Hr. by eapply create_spec in Hr.
Qed.
End Given.

Lemma loop_frames fuel : loop_frame (loop fuel).
Proof.
  induction fuel as [|fuel IH]; intros env s r Hr Hu; [done|]. cbn in Hr. bind_ok Hr as q Hq.
  apply step_frame in Hq; [|by apply calls_of_frame|done]. destruct q as [s'|ret err s'].
  - destruct Hq as [[Hv _] Hg]. assert (Hu' : is_u64 (Gas (contract s'))) by (unfold is_u64 in *; lia).
    destruct (IH env s' r Hr Hu') as [Hv' Hg']. split; [by etrans|lia].
  - injection Hr as <-. cbn. by destruct Hq as [[Hv _] Hg].
Qed.

(** *** The machine behind the interface of the executors *)

Lemma vrel_exec view view' : view_inv view -> vrel view view' -> rtc view_step view view' /\ same_validators view view'.
Proof. intros Hi Hv. by destruct (Hv Hi) as (_ & ? & ? & _). Qed.

Lemma Execute_Call_ok c caller addr input gas value view ret left err view' : view_inv view -> is_u64 gas ->
  Execute_Call c caller addr input gas value view = Ok (ret, left, err, view') ->
  rtc view_step view view' /\ same_validators view view' /\ 0 <= left <= gas.
Proof.
  intros Hi Hu Hr. unfold Execute_Call in Hr. bind_ok Hr as r Hc. injection Hr as <- <- <- <-.
  eapply Call_spec in Hc as [[Hv Hg] _]; [|apply loop_frames|done].
  destruct (vrel_exec _ _ Hi Hv) as [? ?]. done.
Qed.

Lemma Execute_Create_ok c caller code gas value view ret addr left err view' : view_inv view -> is_u64 gas ->
  Execute_Create c caller code gas value view = Ok (ret, addr, left, err, view') ->
  rtc view_step view view' /\ same_validators view view' /\ 0 <= left <= gas.
Proof.
  intros Hi Hu Hr. unfold Execute_Create in Hr. bind_ok Hr as r Hc. injection Hr as <- <- <- <- <-.
  eapply create_spec in Hc as [Hv Hg]; [|apply loop_frames|done].
  destruct (vrel_exec _ _ Hi Hv) as [? ?]. done.
Qed.

(** The virtual machine of the repository satisfies the interface. *)
#[export] Instance subchain_evm : EVM := {|
  exec_Call := Execute_Call;
  exec_Create := Execute_Create;
  exec_Call_ok := Execute_Call_ok;
  exec_Create_ok := Execute_Create_ok
|}.
End Runs.
