(* ===== verification/VmAnalysis.v ===== *)
(** * Jump destinations

    The analysis of a code marks the bytes that belong to the argument of a
    PUSH in a bit vector, eight at a time where it can.  It is compared with
    the positions a walk over the instructions visits. *)

From Stdlib Require Import Ascii.
From stdpp Require Import gmap sorting relations.
From stdpp Require Import base list numbers strings.
From S2P Require Import Prelude Vote Validator Block StoreView VmData.
Local Open Scope string_scope.
Local Open Scope list_scope.
Local Open Scope Z_scope.

(** ** The reference: walking over the instructions *)

(** The number of bytes of an instruction. *)
Definition width (op : Z) : Z := if IsPush op then op - PUSH1 + 2 else 1.

Definition next_pc (code : list byte) (p : Z) : Z :=
  match code !! Z.to_nat p with Some b => p + width (byte_val b) | None => p + 1 end.

(** The position of the [n]-th instruction. *)
Definition nth_pc (code : list byte) (n : nat) : Z := Nat.iter n (next_pc code) 0.

Definition instruction_at (code : list byte) (p : Z) : Prop := exists n, nth_pc code n = p.

Lemma byte_val_range b : 0 <= byte_val b < 256.
Proof. unfold byte_val. pose proof (N_ascii_bounded b). lia. Qed.

Lemma IsPush_spec op : IsPush op = true <-> PUSH1 <= op <= PUSH32.
Proof. unfold IsPush. rewrite andb_true_iff, !Z.leb_le. done. Qed.

Lemma width_pos op : 1 <= width op <= 33.
Proof.
  unfold width. destruct (IsPush op) eqn:Hp; [|lia]. apply IsPush_spec in Hp. unfold PUSH1, PUSH32 in *. lia.
Qed.

Lemma next_pc_lt code p : p < next_pc code p.
Proof. unfold next_pc. destruct (code !! _) as [b|]; [pose proof (width_pos (byte_val b))|]; lia. Qed.

Lemma nth_pc_S code n : nth_pc code (S n) = next_pc code (nth_pc code n).
Proof. reflexivity. Qed.

Lemma nth_pc_mono code n m : (n < m)%nat -> nth_pc code (S n) <= nth_pc code m.
Proof.
  intros Hlt. induction m as [|m IH]; [lia|]. destruct (decide (n = m)) as [->|]; [lia|].
  rewrite (nth_pc_S code m). pose proof (next_pc_lt code (nth_pc code m)). lia.
Qed.

Lemma nth_pc_ge code n : Z.of_nat n <= nth_pc code n.
Proof.
  induction n as [|n IH]; [done|]. rewrite nth_pc_S. pose proof (next_pc_lt code (nth_pc code n)). lia.
Qed.

(** No instruction starts inside another. *)
Lemma inside_no_instruction code n p :
  nth_pc code n < p < nth_pc code (S n) -> ~ instruction_at code p.
Proof.
  intros Hp [m <-]. destruct (decide (n < m)%nat) as [Hlt|Hge].
  - pose proof (nth_pc_mono code n m Hlt). lia.
  - destruct (decide (m = n)) as [->|]; [lia|]. pose proof (nth_pc_mono code m n ltac:(lia)) as Hm.
    rewrite nth_pc_S in Hm. pose proof (next_pc_lt code (nth_pc code m)). lia.
Qed.

(** ** Bits *)

Definition bit (bits : bitvec) (p : Z) : bool :=
  match bits !! Z.to_nat (p / 8) with Some b => Z.testbit b (7 - p mod 8) | None => false end.

(** Statements on the eight positions of a byte are checked one by one. *)
Lemma mod8_cases (P : Z -> Prop) p :
  P 0 -> P 1 -> P 2 -> P 3 -> P 4 -> P 5 -> P 6 -> P 7 -> P (p mod 8).
Proof.
  intros. pose proof (Z.mod_pos_bound p 8 ltac:(lia)).
  assert (Hc : p mod 8 = 0 \/ p mod 8 = 1 \/ p mod 8 = 2 \/ p mod 8 = 3 \/ p mod 8 = 4 \/ p mod 8 = 5 \/
               p mod 8 = 6 \/ p mod 8 = 7) by lia.
  destruct Hc as [->|[->|[->|[->|[->|[->|[->| ->]]]]]]]; done.
Qed.

Lemma mask1_bit k j : Z.testbit (Z.shiftr 0x80 (k mod 8)) (7 - j mod 8) = (k mod 8 =? j mod 8).
Proof. pattern (k mod 8). apply mod8_cases; pattern (j mod 8); apply mod8_cases; reflexivity. Qed.
Lemma mask8_bit k j : Z.testbit (Z.shiftr 0xff (k mod 8)) (7 - j mod 8) = (k mod 8 <=? j mod 8).
Proof. pattern (k mod 8). apply mod8_cases; pattern (j mod 8); apply mod8_cases; reflexivity. Qed.
Lemma mask8_rest k j :
  Z.testbit (Z.lxor 0xff (Z.shiftr 0xff (k mod 8))) (7 - j mod 8) = (j mod 8 <? k mod 8).
Proof. pattern (k mod 8). apply mod8_cases; pattern (j mod 8); apply mod8_cases; reflexivity. Qed.

Lemma or_byte_ok bits i mask : 0 <= i < lenZ bits ->
  exists bits', or_byte bits i mask = Ok bits' /\ length bits' = length bits /\
    forall p, 0 <= p -> bit bits' p = bit bits p || (Z.eqb (p / 8) i && Z.testbit mask (7 - p mod 8)).
Proof.
  intros Hi. unfold or_byte, lenZ in *. destruct (lookup_lt_is_Some_2 bits (Z.to_nat i)) as [b Hb]; [lia|].
  rewrite Hb. eexists. split; [reflexivity|]. split; [apply length_insert|]. intros p Hp. unfold bit.
  pose proof (Z.div_pos p 8 Hp ltac:(lia)). destruct (Z.eqb_spec (p / 8) i) as [<-|Hne]; cbn [andb].
  - rewrite list_lookup_insert_eq by (by eapply lookup_lt_Some). rewrite Hb. apply Z.lor_spec.
  - rewrite list_lookup_insert_ne by lia. by rewrite orb_false_r.
Qed.

Lemma bits_set_ok bits pos : 0 <= pos -> pos / 8 < lenZ bits ->
  exists bits', bits_set bits pos = Ok bits' /\ length bits' = length bits /\
    forall p, 0 <= p -> bit bits' p = bit bits p || Z.eqb p pos.
Proof.
  intros Hpos Hl. unfold bits_set. pose proof (Z.div_pos pos 8 Hpos ltac:(lia)).
  destruct (or_byte_ok bits (pos / 8) (Z.shiftr 0x80 (pos mod 8))) as (bits' & -> & Hlen & Hb); [done|].
  eexists. split; [reflexivity|]. split; [done|]. intros p Hp. rewrite Hb, mask1_bit by done. f_equal.
  apply eq_bool_prop_intro. rewrite andb_True, !Is_true_true, !Z.eqb_eq.
  pose proof (Z.div_mod p 8 ltac:(lia)). pose proof (Z.div_mod pos 8 ltac:(lia)).
  split; [lia|by intros ->].
Qed.

Lemma bits_set8_ok bits pos : 0 <= pos -> pos / 8 + 1 < lenZ bits ->
  exists bits', bits_set8 bits pos = Ok bits' /\ length bits' = length bits /\
    forall p, 0 <= p -> bit bits' p = bit bits p || ((pos <=? p) && (p <? pos + 8)).
Proof.
  intros Hpos Hl. unfold bits_set8. pose proof (Z.div_pos pos 8 Hpos ltac:(lia)).
  destruct (or_byte_ok bits (pos / 8) (Z.shiftr 0xff (pos mod 8))) as (b1 & -> & Hlen1 & Hb1); [lia|].
  cbn [mbind outcome_bind].
  destruct (or_byte_ok b1 (pos / 8 + 1) (Z.lxor 0xff (Z.shiftr 0xff (pos mod 8)))) as (b2 & -> & Hlen2 & Hb2);
    [unfold lenZ in *; lia|].
  eexists. split; [reflexivity|]. split; [congruence|]. intros p Hp. rewrite Hb2, Hb1, mask8_bit, mask8_rest by done.
  rewrite <- orb_assoc. f_equal. apply eq_bool_prop_intro.
  rewrite orb_True, !andb_True, !Is_true_true, !Z.eqb_eq, !Z.leb_le, !Z.ltb_lt.
  pose proof (Z.div_mod p 8 ltac:(lia)). pose proof (Z.div_mod pos 8 ltac:(lia)).
  pose proof (Z.mod_pos_bound p 8 ltac:(lia)). pose proof (Z.mod_pos_bound pos 8 ltac:(lia)). lia.
Qed.

Lemma set_eights_ok k bits pc : 0 <= pc -> (pc + 8 * Z.of_nat k) / 8 < lenZ bits ->
  exists bits', set_eights k bits pc = Ok (bits', pc + 8 * Z.of_nat k) /\ length bits' = length bits /\
    forall p, 0 <= p -> bit bits' p = bit bits p || ((pc <=? p) && (p <? pc + 8 * Z.of_nat k)).
Proof.
  revert bits pc. induction k as [|k IH]; intros bits pc Hpc Hl; cbn [set_eights].
  - exists bits. rewrite Z.add_0_r. split; [done|]. split; [done|]. intros p _.
    destruct (Z.leb_spec pc p), (Z.ltb_spec p pc); cbn; rewrite ?orb_false_r; done || lia.
  - assert (Hq : (pc + 8 * Z.of_nat (S k)) / 8 = pc / 8 + Z.of_nat (S k)) by (rewrite Z.mul_comm; by apply Z.div_add).
    assert (Hq' : (pc + 8 + 8 * Z.of_nat k) / 8 = pc / 8 + Z.of_nat (S k)) by (rewrite <- Hq; f_equal; lia).
    destruct (bits_set8_ok bits pc) as (b1 & -> & Hlen1 & Hb1); [done|lia|]. cbn [mbind outcome_bind].
    destruct (IH b1 (pc + 8)) as (b2 & Hr & Hlen2 & Hb2); [lia|unfold lenZ in *; lia|].
    exists b2. rewrite Hr. split; [do 2 f_equal; lia|]. split; [congruence|]. intros p Hp. rewrite Hb2, Hb1 by done.
    rewrite <- orb_assoc. f_equal. apply eq_bool_prop_intro.
    rewrite orb_True, !andb_True, !Is_true_true, !Z.leb_le, !Z.ltb_lt. lia.
Qed.

Lemma set_ones_ok k bits pc : 0 <= pc -> (pc + Z.of_nat k) / 8 < lenZ bits ->
  exists bits', set_ones k bits pc = Ok (bits', pc + Z.of_nat k) /\ length bits' = length bits /\
    forall p, 0 <= p -> bit bits' p = bit bits p || ((pc <=? p) && (p <? pc + Z.of_nat k)).
Proof.
  revert bits pc. induction k as [|k IH]; intros bits pc Hpc Hl; cbn [set_ones].
  - exists bits. rewrite Z.add_0_r. split; [done|]. split; [done|]. intros p _.
    destruct (Z.leb_spec pc p), (Z.ltb_spec p pc); cbn; rewrite ?orb_false_r; done || lia.
  - assert (Hq : pc / 8 <= (pc + Z.of_nat (S k)) / 8) by (apply Z.div_le_mono; lia).
    assert (Hq' : (pc + 1 + Z.of_nat k) / 8 = (pc + Z.of_nat (S k)) / 8) by (f_equal; lia).
    destruct (bits_set_ok bits pc) as (b1 & -> & Hlen1 & Hb1); [done|lia|]. cbn [mbind outcome_bind].
    destruct (IH b1 (pc + 1)) as (b2 & Hr & Hlen2 & Hb2); [lia|unfold lenZ in *; lia|].
    exists b2. rewrite Hr. split; [do 2 f_equal; lia|]. split; [congruence|]. intros p Hp. rewrite Hb2, Hb1 by done.
    rewrite <- orb_assoc. f_equal. apply eq_bool_prop_intro.
    rewrite orb_True, !andb_True, !Is_true_true, !Z.leb_le, !Z.ltb_lt, Z.eqb_eq. lia.
Qed.

(** ** The analysis *)

(** [bits] marks the bytes below the [n]-th instruction that are no
    instructions, and none above. *)
Definition marks (code : list byte) (bits : bitvec) (n : nat) : Prop :=
  length bits = (length code / 8 + 5)%nat /\
  (forall p, 0 <= p < nth_pc code n -> bit bits p = false <-> instruction_at code p) /\
  (forall p, nth_pc code n <= p -> bit bits p = false).

Lemma nth_pc_push code n b : code !! Z.to_nat (nth_pc code n) = Some b ->
  nth_pc code (S n) = nth_pc code n + width (byte_val b).
Proof. intros Hb. rewrite nth_pc_S. unfold next_pc. by rewrite Hb. Qed.

(** One instruction more: its argument is marked. *)
Lemma marks_next code bits bits' n b : marks code bits n -> code !! Z.to_nat (nth_pc code n) = Some b ->
  length bits' = length bits ->
  (forall p, 0 <= p -> bit bits' p = bit bits p || ((nth_pc code n + 1 <=? p) && (p <? nth_pc code (S n)))) ->
  marks code bits' (S n).
Proof.
  intros (Hlen & Hlow & Hhigh) Hb Hlen' Hbit.
  pose proof (nth_pc_ge code n) as Hge. pose proof (next_pc_lt code (nth_pc code n)) as Hlt. rewrite <- nth_pc_S in Hlt.
  split; [congruence|]. split.
  - intros p Hp. rewrite Hbit by lia. destruct (Z.leb_spec (nth_pc code n + 1) p) as [Hin|Hout]; cbn [andb].
    + destruct (Z.ltb_spec p (nth_pc code (S n))) as [_|]; [|lia]. rewrite orb_true_r. split; [done|].
      intros Hi. destruct (inside_no_instruction code n p); [lia|done].
    + rewrite orb_false_r. destruct (decide (p = nth_pc code n)) as [->|].
      * rewrite Hhigh by lia. split; [by exists n|done].
      * apply Hlow. lia.
  - intros p Hp. rewrite Hbit by lia. rewrite Hhigh by lia. destruct (Z.ltb_spec p (nth_pc code (S n))); [lia|].
    by rewrite andb_false_r.
Qed.

Lemma bitmap_size (code : list byte) : lenZ code / 8 + 4 < Z.of_nat (length code / 8 + 5).
Proof. unfold lenZ. rewrite Nat2Z.inj_add, Nat2Z.inj_div. lia. Qed.

Lemma bitmap_loop_ok code fuel bits n : marks code bits n -> lenZ code <= nth_pc code n + Z.of_nat fuel ->
  exists bits', bitmap_loop fuel code bits (nth_pc code n) = Ok bits' /\
    length bits' = (length code / 8 + 5)%nat /\
    forall p, 0 <= p < lenZ code -> bit bits' p = false <-> instruction_at code p.
Proof.
  revert bits n. induction fuel as [|fuel IH]; intros bits n Hm Hf; cbn [bitmap_loop];
    pose proof (nth_pc_ge code n) as Hge; pose proof Hm as (Hlen & Hlow & Hhigh).
  { destruct (code !! _) as [b|] eqn:Hb; [apply lookup_lt_Some in Hb; unfold lenZ in *; lia|].
    exists bits. split; [done|]. split; [done|]. intros p Hp. apply Hlow. lia. }
  destruct (code !! Z.to_nat (nth_pc code n)) as [b|] eqn:Hb.
  2:{ exists bits. split; [done|]. split; [done|]. intros p Hp. apply Hlow. apply lookup_ge_None in Hb.
      unfold lenZ in *. lia. }
  pose proof (nth_pc_push code n b Hb) as Hnext. pose proof (lookup_lt_Some _ _ _ Hb) as Hin.
  pose proof (next_pc_lt code (nth_pc code n)) as Hlt. rewrite <- nth_pc_S in Hlt. pose proof (bitmap_size code) as Hsize.
  unfold width in Hnext. destruct (IsPush (byte_val b)) eqn:Hp.
  - apply IsPush_spec in Hp. unfold PUSH1, PUSH32 in *. set (nb := byte_val b - 0x60 + 1) in *.
    pose proof (Z.div_mod nb 8 ltac:(lia)) as Hd. pose proof (Z.mod_pos_bound nb 8 ltac:(lia)) as Hr.
    pose proof (Z.div_pos nb 8 ltac:(lia) ltac:(lia)) as Hq.
    assert (Hbound : (nth_pc code n + 1 + nb) / 8 <= lenZ code / 8 + 4).
    { transitivity ((lenZ code + 4 * 8) / 8); [apply Z.div_le_mono; unfold lenZ; lia|].
      rewrite Z.div_add by lia. lia. }
    assert (Hbound1 : (nth_pc code n + 1 + 8 * (nb / 8)) / 8 <= lenZ code / 8 + 4)
      by (etrans; [|exact Hbound]; apply Z.div_le_mono; lia).
    destruct (set_eights_ok (Z.to_nat (nb / 8)) bits (nth_pc code n + 1)) as (b1 & -> & Hl1 & Hb1);
      [lia|rewrite Z2Nat.id by lia; unfold lenZ at 1; rewrite Hlen; lia|].
    cbn [mbind outcome_bind]. rewrite Z2Nat.id by lia.
    destruct (set_ones_ok (Z.to_nat (nb mod 8)) b1 (nth_pc code n + 1 + 8 * (nb / 8))) as (b2 & -> & Hl2 & Hb2);
      [lia| |].
    { rewrite Z2Nat.id by lia. replace (nth_pc code n + 1 + 8 * (nb / 8) + nb mod 8) with (nth_pc code n + 1 + nb) by lia.
      unfold lenZ at 1. rewrite Hl1, Hlen. lia. }
    cbn [mbind outcome_bind]. rewrite Z2Nat.id by lia.
    replace (nth_pc code n + 1 + 8 * (nb / 8) + nb mod 8) with (nth_pc code (S n)) by lia.
    apply IH; [|lia]. apply (marks_next code bits b2 n b Hm Hb); [congruence|]. intros p Hp0.
    rewrite Hb2, Hb1 by done. rewrite <- orb_assoc. f_equal. apply eq_bool_prop_intro.
    rewrite orb_True, !andb_True, !Is_true_true, !Z.leb_le, !Z.ltb_lt. rewrite !Z2Nat.id by lia. lia.
  - replace (nth_pc code n + 1) with (nth_pc code (S n)) by lia.
    apply IH; [|lia]. apply (marks_next code bits bits n b Hm Hb); [done|]. intros p Hp0.
    destruct (Z.leb_spec (nth_pc code n + 1) p), (Z.ltb_spec p (nth_pc code (S n))); cbn; rewrite ?orb_false_r; done || lia.
Qed.

(** The marked positions of a code are those inside instructions. *)
Lemma codeBitmap_ok code :
  exists bits, codeBitmap code = Ok bits /\ length bits = (length code / 8 + 5)%nat /\
    forall p, 0 <= p < lenZ code -> bit bits p = false <-> instruction_at code p.
Proof.
  unfold codeBitmap. replace (length code / 8 + 1 + 4)%nat with (length code / 8 + 5)%nat by lia.
  change 0 with (nth_pc code 0) at 2. apply bitmap_loop_ok; [|unfold lenZ; cbn; lia].
  split; [apply length_replicate|]. split; [cbn; lia|]. intros p Hp. unfold bit.
  destruct (_ !! _) as [b|] eqn:Hb; [|done]. apply lookup_replicate in Hb as [-> _]. apply Z.testbit_0_l.
Qed.

Lemma codeSegment_ok bits p : 0 <= p -> p / 8 < lenZ bits -> codeSegment bits p = Ok (negb (bit bits p)).
Proof.
  intros Hp Hl. unfold codeSegment, bit, lenZ in *. pose proof (Z.div_pos p 8 Hp ltac:(lia)).
  destruct (lookup_lt_is_Some_2 bits (Z.to_nat (p / 8))) as [b Hb]; [lia|]. rewrite Hb. f_equal.
  assert (Hmask : Z.shiftr 0x80 (p mod 8) = 2 ^ (7 - p mod 8)) by (pattern (p mod 8); by apply mod8_cases).
  pose proof (Z.mod_pos_bound p 8 ltac:(lia)). rewrite Hmask.
  destruct (Z.testbit b (7 - p mod 8)) eqn:Ht; cbn [negb].
  - apply Z.eqb_neq. intros Hz. apply (f_equal (fun z => Z.testbit z (7 - p mod 8))) in Hz.
    rewrite Z.land_spec, Ht, Z.pow2_bits_true, Z.testbit_0_l in Hz by lia. done.
  - apply Z.eqb_eq. apply Z.bits_inj'. intros i Hi. rewrite Z.land_spec, Z.testbit_0_l.
    destruct (decide (i = 7 - p mod 8)) as [->|]; [by rewrite Ht|].
    rewrite (Z.pow2_bits_false (7 - p mod 8) i) by lia. apply andb_false_r.
Qed.

(** ** Valid destinations *)

(** The analysis cached for a code. *)
Definition analysis_of (code : list byte) (bits : bitvec) : Prop := codeBitmap code = Ok bits.

(** Every cached analysis belongs to the code of its hash. *)
Definition cache_ok `{TrieHash} (jd : gmap Hash bitvec) : Prop :=
  map_Forall (fun h bits => forall code, code_hash (of_bytes code) = h -> analysis_of code bits) jd.

(** The code hash of a contract identifies its code, if it has any. *)
Definition code_known `{TrieHash} (c : Contract) : Prop :=
  (CodeHash c = 0 \/ CodeHash c = code_hash (of_bytes (Code c)) \/ Code c = []) /\
  (forall bits, analysis c = Some bits -> analysis_of (Code c) bits).

(** A position that may be jumped to. *)
Definition jump_target (code : list byte) (dest : Z) : Prop :=
  0 <= dest < lenZ code /\ (byte_val <$> code !! Z.to_nat dest) = Some JUMPDEST /\ instruction_at code dest.

Lemma BitLen_le x n : 0 <= x -> 0 <= n -> BitLen x <= n <-> x < 2 ^ n.
Proof.
  intros Hx Hn. unfold BitLen. destruct (Z.eqb_spec x 0) as [->|].
  - split; [intros _; by apply Z.pow_pos_nonneg|done].
  - rewrite Z.abs_eq by done. pose proof (Z.log2_lt_pow2 x n). lia.
Qed.

Lemma BitLen_nonneg x : 0 <= BitLen x.
Proof. unfold BitLen. destruct (Z.eqb_spec x 0); [done|]. pose proof (Z.log2_nonneg (Z.abs x)). lia. Qed.

Lemma big_Uint64_small x : is_u64 x -> big_Uint64 x = x.
Proof. intros [? ?]. unfold big_Uint64. rewrite Z.abs_eq by done. by apply wrap64_small. Qed.

Section Destinations.
Context `{TrieHash}.

Lemma of_bytes_inj l l' : of_bytes l = of_bytes l' -> l = l'.
Proof.
  intros He. apply (f_equal String.list_ascii_of_string) in He. unfold of_bytes in He.
  by rewrite !String.list_ascii_of_string_of_list_ascii in He.
Qed.

Lemma cache_insert jd code bits : cache_ok jd -> analysis_of code bits ->
  cache_ok (<[code_hash (of_bytes code) := bits]> jd).
Proof.
  intros Hjd Ha. apply map_Forall_insert_2; [|done]. intros code' Hc.
  by apply code_hash_inj, of_bytes_inj in Hc as ->.
Qed.

(** A cached analysis answers the question for its code. *)
Lemma analysis_segment code bits dest : analysis_of code bits -> 0 <= dest < lenZ code ->
  exists ok, codeSegment bits dest = Ok ok /\ (ok = true <-> instruction_at code dest).
Proof.
  intros Ha Hd. destruct (codeBitmap_ok code) as (bits' & Hb & Hlen & Hp). unfold analysis_of in Ha.
  rewrite Ha in Hb. injection Hb as <-. pose proof (bitmap_size code).
  assert (dest / 8 <= lenZ code / 8) by (apply Z.div_le_mono; lia).
  rewrite codeSegment_ok; [|lia|unfold lenZ at 1; rewrite Hlen; lia]. eexists. split; [reflexivity|].
  rewrite negb_true_iff. by apply Hp.
Qed.

Lemma validJumpdest_ok jd c dest : cache_ok jd -> code_known c -> lenZ (Code c) < 2 ^ 62 -> 0 <= dest ->
  exists ok jd' c', validJumpdest jd c dest = Ok (ok, jd', c') /\
    (ok = true <-> jump_target (Code c) dest) /\ cache_ok jd' /\ code_known c' /\
    (c' = c \/ exists bits, c' = with_analysis c bits).
Proof.
  intros Hjd [Hhash Han] Hlen Hdest. unfold validJumpdest. cbv zeta.
  destruct (_ || _) eqn:Hout.
  { exists false, jd, c. split; [done|]. split; [|by split_and!; [..|left]]. split; [done|]. intros ([_ Hd] & _).
    apply orb_true_iff in Hout as [Hb|Hl].
    - apply Z.leb_le in Hb. assert (Hlt : dest < 2 ^ 62) by lia. apply BitLen_le in Hlt; lia.
    - apply Z.leb_le in Hl. rewrite big_Uint64_small in Hl by (split; [done|]; unfold two64; lia). lia. }
  bool_to_prop. assert (Hsmall : dest < 2 ^ 62) by (apply BitLen_le; lia).
  assert (Hu : big_Uint64 dest = dest) by (apply big_Uint64_small; split; [done|]; unfold two64; lia).
  rewrite Hu in *. destruct (lookup_lt_is_Some_2 (Code c) (Z.to_nat dest)) as [b Hb]; [unfold lenZ in *; lia|].
  unfold GetOp, GetByte. rewrite Hb. destruct (Z.eqb_spec (byte_val b) JUMPDEST) as [Hj|Hj]; cbn [negb].
  2:{ exists false, jd, c. split; [done|]. split; [|by split_and!; [..|left]]. split; [done|]. intros (_ & Hd & _).
      rewrite Hb in Hd. cbn in Hd. congruence. }
  assert (Htarget : forall ok : bool, (ok = true <-> instruction_at (Code c) dest) -> (ok = true <-> jump_target (Code c) dest)).
  { intros ok ->. unfold jump_target. rewrite Hb. cbn. rewrite Hj. split; [done|tauto]. }
  assert (Hin : 0 <= dest < lenZ (Code c)) by lia.
  destruct (Z.eqb_spec (CodeHash c) 0) as [Hz|Hz]; cbn [negb].
  - destruct (analysis c) as [bits|] eqn:Hc.
    + destruct (analysis_segment (Code c) bits dest (Han _ eq_refl) Hin) as (ok & -> & Hok).
      exists ok, jd, c. split; [done|]. split; [by apply Htarget|]. split; [done|]. split; [|by left]. split; [done|].
      intros bits' Hb'. rewrite Hc in Hb'. by apply Han.
    + destruct (codeBitmap_ok (Code c)) as (bits & Hbits & _). rewrite Hbits. cbn [mbind outcome_bind].
      destruct (analysis_segment (Code c) bits dest Hbits Hin) as (ok & -> & Hok).
      exists ok, jd, (with_analysis c bits). split; [done|]. split; [by apply Htarget|]. split; [done|].
      split; [|right; by eexists]. split; [done|]. by intros bits' [= <-].
  - destruct Hhash as [|[Hhash|Hnil]]; [done| |rewrite Hnil in Hin; unfold lenZ in Hin; cbn in Hin; lia].
    destruct (jd !! CodeHash c) as [bits|] eqn:Hc.
    + assert (Ha : analysis_of (Code c) bits) by (apply (Hjd _ _ Hc); done).
      destruct (analysis_segment (Code c) bits dest Ha Hin) as (ok & -> & Hok).
      exists ok, jd, c. split; [done|]. split; [by apply Htarget|]. split; [done|]. split; [|by left]. split; [by right; left|done].
    + destruct (codeBitmap_ok (Code c)) as (bits & Hbits & _). rewrite Hbits. cbn [mbind outcome_bind].
      destruct (analysis_segment (Code c) bits dest Hbits Hin) as (ok & -> & Hok).
      exists ok, (<[CodeHash c := bits]> jd), c. split; [done|]. split; [by apply Htarget|].
      split; [rewrite Hhash; by apply cache_insert|]. split; [|by left]. split; [by right; left|done].
Qed.
End Destinations.
