(* ===== verification/VmTyping.v ===== *)
(** * Typing of the states of the virtual machine

    The invariant of the interpreter is a typing of its state: nonnegative
    words, a memory within the size gas can pay for, analyses that belong to
    their codes, and a state database with nonnegative balances, codes stored
    under their hashes, a validator set and a token bank.  The operations of
    the database, the word instructions and the accesses to memory keep it and
    do not panic. *)

From Stdlib Require Import Ascii.
From stdpp Require Import gmap sorting relations.
From stdpp Require Import base list numbers strings.
From S2P Require Import Prelude Vote Validator Block StoreView Execution VmData VmOps Precompiles Vm VmFrame VmGas VmAnalysis.
Local Open Scope string_scope.
Local Open Scope list_scope.
Local Open Scope Z_scope.

(** ** The state database *)

(** Nonnegative balances, and codes stored under their hashes. *)
Definition coins_nonneg (c : Coins) : Prop := 0 <= ThetaWei c /\ 0 <= TFuelWei c.
Definition tree_ok `{TrieHash} (t : Tree) : Prop :=
  map_Forall (fun _ acc => coins_nonneg (AccBalance acc)) (accounts t) /\
  map_Forall (fun h c => code_hash c = h /\ Z.of_nat (String.length c) < 2 ^ 62) (codes t).

Definition good `{ThetaTypes} `{TrieHash} (v : StoreView) : Prop :=
  view_inv v /\ tree_ok (tree v) /\ is_Some (currentValidatorSet (tree v)) /\ is_Some (TFuelTokenBank (tree v)).

Section GoodViews.
Context `{ThetaTypes} `{TrieHash}.
Implicit Types (v : StoreView).

(** The invariant after an operation whose tree is fine. *)
Lemma good_vrel v v' : good v -> vrel v v' -> tree_ok (tree v') -> good v'.
Proof.
  intros (Hi & Ht & Hs & Hb) Hv Ht'. destruct (Hv Hi) as (Hi' & _ & (_ & Hcs & _) & Hbank).
  unfold good. by rewrite Hcs, Hbank.
Qed.

Lemma tree_ok_put t addr acc : tree_ok t -> coins_nonneg (AccBalance acc) ->
  tree_ok (with_accounts t (<[addr := acc]> (accounts t))).
Proof. intros [Ha Hc] Hb. split; [by apply map_Forall_insert_2|done]. Qed.

Lemma SetAccount_tree v addr acc : view_inv v -> root_known (storages v) (AccRoot acc) ->
  exists v', SetAccount v addr acc = Ok v' /\
    tree v' = with_accounts (tree v) (<[addr := acc]> (accounts (tree v))).
Proof.
  intros Hi Hr. destruct (SetAccount_spec v addr acc Hi Hr) as (v' & Hs & _ & ->). by eexists.
Qed.

Lemma account_nonneg v addr : tree_ok (tree v) -> coins_nonneg (AccBalance (GetOrCreateAccount v addr)).
Proof.
  intros [Ha _]. unfold GetOrCreateAccount. destruct (GetAccount v addr) as [acc|] eqn:Hacc; [by apply (Ha addr)|].
  by rewrite NewAccount_balance.
Qed.

Lemma balance_nonneg v addr : good v -> 0 <= GetBalance v addr.
Proof. intros (_ & Ht & _). apply (account_nonneg v addr Ht). Qed.

Lemma AddBalance_good v addr amount : good v -> 0 <= amount -> exists v', AddBalance v addr amount = Ok v' /\ good v'.
Proof.
  intros Hg Ha. pose proof Hg as (Hi & Ht & _). unfold AddBalance at 1. destruct (Z.eqb amount 0) eqn:Hz; [by eexists|].
  destruct (SetAccount_tree v addr (set_balance (GetOrCreateAccount v addr)
    (mkCoins (ThetaWei (AccBalance (GetOrCreateAccount v addr)))
             (TFuelWei (AccBalance (GetOrCreateAccount v addr)) + amount)))) as (v1 & Hs & Htr); [done|by apply known_or_new|].
  rewrite Hs. eexists. split; [reflexivity|]. eapply good_vrel; [exact Hg| |].
  - apply (vrel_add v addr amount). unfold AddBalance. by rewrite Hz, Hs.
  - cbn. rewrite Htr. apply tree_ok_put; [done|]. destruct (account_nonneg v addr Ht). split; cbn; lia.
Qed.

Lemma SubBalance_good v addr amount : good v -> 0 <= amount <= GetBalance v addr ->
  exists v', SubBalance v addr amount = Ok v' /\ good v'.
Proof.
  intros Hg Ha. pose proof Hg as (Hi & Ht & _). unfold SubBalance at 1. destruct (Z.eqb_spec amount 0) as [->|Hz]; [by eexists|].
  destruct (GetAccount v addr) as [acc|] eqn:Hacc.
  - destruct (SetAccount_tree v addr (set_balance acc
      (mkCoins (ThetaWei (AccBalance acc)) (TFuelWei (AccBalance acc) - amount)))) as (v1 & Hs & Htr);
      [done|by apply (known_account v addr acc)|].
    rewrite Hs. eexists. split; [reflexivity|]. eapply good_vrel; [exact Hg| |].
    + apply (vrel_sub v addr amount). unfold SubBalance. rewrite Hacc, Hs. destruct (Z.eqb_spec amount 0); done.
    + cbn. rewrite Htr. apply tree_ok_put; [done|]. pose proof (account_nonneg v addr Ht) as [? ?].
      unfold GetBalance, GetOrCreateAccount in *. rewrite Hacc in *. split; cbn; lia.
  - unfold GetBalance, GetOrCreateAccount in Ha. rewrite Hacc, NewAccount_balance in Ha. cbn in Ha. lia.
Qed.

Lemma Transfer_good v a b amount : good v -> 0 <= amount <= GetBalance v a ->
  exists v', Transfer v a b amount = Ok v' /\ good v'.
Proof.
  intros Hg Ha. unfold Transfer. destruct (SubBalance_good v a amount Hg Ha) as (v1 & -> & Hg1).
  apply AddBalance_good; [done|lia].
Qed.

Lemma create_good v addr : good v -> exists v', CreateAccountWithPreviousBalance v addr = Ok v' /\ good v' /\
  (forall a, GetBalance v' a = GetBalance v a).
Proof.
  intros Hg. pose proof Hg as (Hi & Ht & _). unfold CreateAccountWithPreviousBalance at 1.
  set (acc := match GetAccount v addr with Some e => set_balance (NewAccount addr) (AccBalance e) | None => NewAccount addr end).
  assert (Hroot : root_known (storages v) (AccRoot acc)) by (subst acc; destruct (GetAccount v addr); apply known_new).
  assert (Hbal : AccBalance acc = AccBalance (GetOrCreateAccount v addr))
    by (subst acc; unfold GetOrCreateAccount; by destruct (GetAccount v addr)).
  destruct (SetAccount_tree v addr acc Hi Hroot) as (v1 & Hs & Htr). exists v1. split; [exact Hs|]. split.
  - eapply good_vrel; [exact Hg|exact (vrel_create v addr v1 Hs)|]. rewrite Htr. apply tree_ok_put; [done|].
    rewrite Hbal. by apply account_nonneg.
  - intros a. unfold GetBalance. unfold GetOrCreateAccount at 1. unfold GetAccount. rewrite Htr. cbn.
    destruct (decide (a = addr)) as [->|]; [rewrite lookup_insert_eq; by rewrite Hbal|].
    by rewrite lookup_insert_ne by done.
Qed.

Lemma SetNonce_good v addr n : good v -> exists v', SetNonce v addr n = Ok v' /\ good v' /\
  (forall a, GetBalance v' a = GetBalance v a).
Proof.
  intros Hg. pose proof Hg as (Hi & Ht & _). unfold SetNonce at 1.
  destruct (SetAccount_tree v addr (set_sequence (GetOrCreateAccount v addr) n) Hi) as (v1 & Hs & Htr); [by apply known_or_new|].
  exists v1. split; [exact Hs|]. split.
  - eapply good_vrel; [exact Hg|exact (vrel_nonce v addr n v1 Hs)|]. rewrite Htr. apply tree_ok_put; [done|]. by apply account_nonneg.
  - intros a. unfold GetBalance. unfold GetOrCreateAccount at 1. unfold GetAccount. rewrite Htr. cbn.
    destruct (decide (a = addr)) as [->|]; [by rewrite lookup_insert_eq|]. by rewrite lookup_insert_ne by done.
Qed.

Lemma SetCode_good v addr code : good v -> Z.of_nat (String.length code) < 2 ^ 62 ->
  exists v', SetCode v addr code = Ok v' /\ good v'.
Proof.
  intros Hg Hl. pose proof Hg as (Hi & Ht & _). unfold SetCode at 1. cbv zeta.
  set (v0 := put_code v (code_hash code) code).
  assert (Hi0 : view_inv v0) by (apply (extends_tree v); [done|apply Hi]).
  destruct (SetAccount_tree v0 addr (set_code_hash (GetOrCreateAccount v addr) (code_hash code)) Hi0) as (v1 & Hs & Htr);
    [by apply (known_or_new v)|].
  exists v1. split; [exact Hs|]. eapply good_vrel; [exact Hg|exact (vrel_code v addr code v1 Hs)|].
  rewrite Htr. apply tree_ok_put; [|by apply account_nonneg]. destruct Ht as [Ha Hc]. split; [done|]. cbn.
  destruct (String.eqb code ""); [by apply map_Forall_delete|by apply map_Forall_insert_2].
Qed.

Lemma GetState_good v addr key : good v -> exists h, GetState v addr key = Ok h.
Proof.
  intros (Hi & _). unfold GetState. destruct (GetAccount v addr) as [acc|] eqn:Ha; [|by eexists].
  pose proof (known_account v addr acc Hi Ha) as Hk. apply getAccountStorage_known in Hk as [s ->]. by eexists.
Qed.

Lemma SetState_good v addr key val : good v -> exists v', SetState v addr key val = Ok v' /\ good v'.
Proof.
  intros Hg. pose proof Hg as (Hi & Ht & _). unfold SetState at 1.
  pose proof (known_or_new v addr Hi) as Hk. apply getAccountStorage_known in Hk as [s Hs]. rewrite Hs.
  eexists. split; [reflexivity|]. eapply good_vrel; [exact Hg| |].
  - apply (vrel_state v addr key val). unfold SetState. by rewrite Hs.
  - apply tree_ok_put; [exact Ht|]. by apply account_nonneg.
Qed.

Lemma Suicide_good v addr : good v -> exists b v', Suicide v addr = Ok (b, v') /\ good v'.
Proof.
  intros Hg. pose proof Hg as (Hi & Ht & _). unfold Suicide at 1. destruct (GetAccount v addr) as [acc|] eqn:Ha; [|by eexists _, _].
  set (v0 := addBalanceChange v _). assert (Hi0 : view_inv v0) by (by apply extends_scratch).
  destruct (SetAccount_tree v0 addr (set_balance (set_code_hash acc SuicidedCodeHash)
    (mkCoins (ThetaWei (AccBalance acc)) 0)) Hi0) as (v1 & Hs & Htr); [by apply (known_account v addr acc)|].
  rewrite Hs. eexists _, _. split; [reflexivity|]. eapply good_vrel; [exact Hg| |].
  - apply (vrel_suicide v addr true). unfold Suicide. rewrite Ha. fold v0. by rewrite Hs.
  - rewrite Htr. apply tree_ok_put; [done|]. pose proof (account_nonneg v addr Ht) as [? _].
    unfold GetOrCreateAccount in *. rewrite Ha in *. by split.
Qed.

Lemma snapshot_good v : good v -> good (Snapshot v).2.
Proof. intros Hg. eapply good_vrel; [exact Hg|apply vrel_snapshot|apply Hg]. Qed.

(** Going back to a snapshot of a good state. *)
Lemma revert_good v v1 : good v -> vrel (Snapshot v).2 v1 ->
  exists v2, RevertToSnapshot v1 (Snapshot v).1 = Ok v2 /\ good v2.
Proof.
  intros Hg Hv. pose proof Hg as (Hi & Ht & _). destruct (vrel_snapshot v Hi) as (Hi' & _).
  destruct (Hv Hi') as (_ & Hs & _). destruct (revert_spec v v1 Hi Hs) as [Hr _].
  exists (with_tree v1 (tree v)). split; [done|]. eapply good_vrel; [exact Hg|by apply (vrel_revert v v1)|done].
Qed.

Lemma GetCode_small v addr : good v -> lenZ (to_bytes (GetCode v addr)) < 2 ^ 62.
Proof.
  intros (_ & [_ Hc] & _). assert (Hlen : forall s, lenZ (to_bytes s) = Z.of_nat (String.length s)).
  { intros s. unfold lenZ, to_bytes. f_equal. induction s as [|b s IH]; [done|]. cbn. by rewrite IH. }
  rewrite Hlen. unfold GetCode. destruct (GetAccount v addr) as [acc|]; [|done]. destruct (_ || _); [done|].
  unfold GetCodeByHash. destruct (Z.eqb _ _); [done|].
  destruct (codes (tree v) !! AccCodeHash acc) as [code|] eqn:Hl; [|done]. by apply (Hc _ _ Hl).
Qed.

(** The code of an account has the hash of the account, unless it is empty. *)
Lemma GetCode_hash v addr : good v ->
  GetCodeHash v addr = code_hash (of_bytes (to_bytes (GetCode v addr))) \/ to_bytes (GetCode v addr) = [].
Proof.
  intros (_ & [_ Hc] & _). unfold of_bytes, to_bytes. rewrite String.string_of_list_ascii_of_string.
  unfold GetCode, GetCodeHash. destruct (GetAccount v addr) as [acc|]; [|by right]. destruct (_ || _); [by right|].
  unfold GetCodeByHash. destruct (Z.eqb _ _); [by right|].
  destruct (codes (tree v) !! AccCodeHash acc) as [code|] eqn:Hl; [|by right]. left. symmetry. by apply (Hc _ _ Hl).
Qed.
End GoodViews.

(** ** The invariant of the interpreter *)

Definition machine_ok `{ThetaTypes} `{TrieHash} (m : Machine) : Prop :=
  good (StateDB m) /\ cache_ok (jumpdests m) /\ is_u64 (callGasTemp m).

Definition contract_ok `{TrieHash} (c : Contract) : Prop :=
  code_known c /\ lenZ (Code c) < 2 ^ 62 /\ lenZ (Input c) < 2 ^ 62 /\ 0 <= value c /\ is_u64 (Gas c).

(** The largest memory the gas function pays for. *)
Definition max_memory : Z := 0xffffffffe0.

Definition exec_inv `{ThetaTypes} `{TrieHash} (s : ExecState) : Prop :=
  machine_ok (machine s) /\ contract_ok (contract s) /\ is_u64 (pc s) /\
  lenZ (store (memory s)) <= max_memory /\ Forall (fun x => 0 <= x) (stack s).

(** The result of an instruction: from a stack of at least [pops] elements it
    leads to a state with [pushes] elements in their place and a memory of the
    same size, or to an error. *)
Definition exec_post `{ThetaTypes} `{TrieHash} (pops pushes : nat) (s s' : ExecState) : Prop :=
  exec_inv s' /\ (length (stack s') + pops = length (stack s) + pushes)%nat /\
  length (store (memory s')) = length (store (memory s)).

Definition exec_ok `{ThetaTypes} `{TrieHash} (pre : ExecState -> Prop) (pops pushes : nat) (e : executionFunc) : Prop :=
  forall s, exec_inv s -> (pops <= length (stack s))%nat -> pre s ->
    match e s with
    | Ok (inr _, s') => exec_post pops pushes s s'
    | Ok (inl _, s') => machine_ok (machine s')
    | _ => False
    end.

Create HintDb vmwords.

Definition no_pre (s : ExecState) : Prop := True.

Section Instructions.
Context `{ThetaTypes} `{TrieHash} `{VmLib} `{VmParams}.

(** *** Words *)

Lemma exec_stack s st : exec_inv s -> Forall (fun x => 0 <= x) st -> exec_inv (set_stack st s).
Proof. intros (? & ? & ? & ? & _) Hst. by split_and!. Qed.

(** Instructions that replace one, two or three words by one. *)
Lemma exec_word1 e (v : Z -> Z) :
  (forall m c p mem x st, e (mkExec m c p mem (x :: st)) = Ok (inr [], mkExec m c p mem (v x :: st))) ->
  (forall x, 0 <= x -> 0 <= v x) -> exec_ok no_pre 1 1 e.
Proof.
  intros He Hv [m c p mem st] Hi Hl _. destruct st as [|x st]; [cbn in Hl; lia|]. rewrite He.
  split; [|done]. eapply exec_stack in Hi; [exact Hi|]. destruct Hi as (_ & _ & _ & _ & Hst). cbn in Hst.
  inversion Hst; subst. constructor; auto.
Qed.

Lemma exec_word2 e (v : Z -> Z -> Z) :
  (forall m c p mem x y st, e (mkExec m c p mem (x :: y :: st)) = Ok (inr [], mkExec m c p mem (v x y :: st))) ->
  (forall x y, 0 <= x -> 0 <= y -> 0 <= v x y) -> exec_ok no_pre 2 1 e.
Proof.
  intros He Hv [m c p mem st] Hi Hl _. destruct st as [|x [|y st]]; [cbn in Hl; lia..|]. rewrite He.
  split; [|cbn; lia]. destruct Hi as (? & ? & ? & ? & Hst). cbn in Hst.
  inversion Hst as [|? ? ? Hst']; subst. inversion Hst'; subst. split_and!; try done. constructor; auto.
Qed.

Lemma exec_word3 e (v : Z -> Z -> Z -> Z) :
  (forall m c p mem x y z st, e (mkExec m c p mem (x :: y :: z :: st)) = Ok (inr [], mkExec m c p mem (v x y z :: st))) ->
  (forall x y z, 0 <= x -> 0 <= y -> 0 <= z -> 0 <= v x y z) -> exec_ok no_pre 3 1 e.
Proof.
  intros He Hv [m c p mem st] Hi Hl _. destruct st as [|x [|y [|z st]]]; [cbn in Hl; lia..|]. rewrite He.
  split; [|cbn; lia]. destruct Hi as (? & ? & ? & ? & Hst). cbn in Hst.
  inversion Hst as [|? ? ? Hst1]; subst. inversion Hst1 as [|? ? ? Hst2]; subst. inversion Hst2; subst.
  split_and!; try done. constructor; auto.
Qed.

(** Instructions that push a word of the state. *)
Lemma exec_push e (v : ExecState -> Z) :
  (forall s, e s = Ok (inr [], set_stack (v s :: stack s) s)) -> (forall s, exec_inv s -> 0 <= v s) -> exec_ok no_pre 0 1 e.
Proof.
  intros He Hv s Hi _ _. rewrite He. split; [|cbn; lia]. apply exec_stack; [done|]. constructor; [by apply Hv|apply Hi].
Qed.

(** Instructions that replace a word by one of the state. *)
Lemma exec_read e (v : Machine -> Contract -> Z -> Z) :
  (forall m c p mem x st, e (mkExec m c p mem (x :: st)) = Ok (inr [], mkExec m c p mem (v m c x :: st))) ->
  (forall m c x, machine_ok m -> contract_ok c -> 0 <= x -> 0 <= v m c x) -> exec_ok no_pre 1 1 e.
Proof.
  intros He Hv [m c p mem st] Hi Hl _. destruct st as [|x st]; [cbn in Hl; lia|]. rewrite He.
  split; [|done]. destruct Hi as (? & ? & ? & ? & Hst). cbn in Hst. inversion Hst; subst. split_and!; try done.
  constructor; auto.
Qed.

Lemma U256_nonneg x : 0 <= U256 x.
Proof. rewrite U256_spec. by apply Z.mod_pos_bound. Qed.
Lemma word_nonneg b : 0 <= word b.
Proof. by destruct b. Qed.
Lemma SetBytes_nonneg l : 0 <= SetBytes l.
Proof.
  unfold SetBytes. induction l as [|b l IH] using rev_ind; [done|]. rewrite fmap_app. cbn. rewrite be_value_snoc.
  pose proof (byte_val_range b). lia.
Qed.
Lemma lenZ_nonneg {A} (l : list A) : 0 <= lenZ l.
Proof. unfold lenZ. lia. Qed.
Lemma big_Int64_small x : 0 <= x < 2 ^ 63 -> big_Int64 x = x.
Proof.
  intros Hx. unfold big_Int64. assert (Hu : is_u64 x) by (split; unfold two64; lia).
  rewrite (big_Uint64_small x Hu). destruct (decide (x = 0)) as [->|]; [done|].
  rewrite Z.sgn_pos by lia. rewrite Z.mul_1_l, wrap64_small by done. unfold to_int64.
  destruct (Z.ltb_spec x 9223372036854775808); lia.
Qed.

Hint Resolve U256_nonneg word_nonneg SetBytes_nonneg lenZ_nonneg : vmwords.

(** Runs an instruction that is a constant on a given stack. *)
Ltac run_op :=
  intros; match goal with |- ?e _ = _ => let f := get_head e in unfold f end;
  cbv beta iota zeta delta [mbind X_bind pop push update get db self_address nil_nil done set_stack machine contract pc memory stack];
  reflexivity.
Ltac words := intros; cbv beta zeta; repeat case_match; first [solve [eauto with vmwords] | lia].

Lemma opAdd_total : exec_ok no_pre 2 1 opAdd.
Proof. eapply exec_word2; [run_op|words]. Qed.
Lemma opSub_total : exec_ok no_pre 2 1 opSub.
Proof. eapply exec_word2; [run_op|words]. Qed.
Lemma opMul_total : exec_ok no_pre 2 1 opMul.
Proof. eapply exec_word2; [run_op|words]. Qed.
Lemma opDiv_total : exec_ok no_pre 2 1 opDiv.
Proof. eapply exec_word2; [run_op|words]. Qed.
Lemma opSdiv_total : exec_ok no_pre 2 1 opSdiv.
Proof. eapply exec_word2; [run_op|words]. Qed.
Lemma opMod_total : exec_ok no_pre 2 1 opMod.
Proof. eapply exec_word2; [run_op|words]. Qed.
Lemma opSmod_total : exec_ok no_pre 2 1 opSmod.
Proof. eapply exec_word2; [run_op|words]. Qed.
Lemma opExp_total : exec_ok no_pre 2 1 opExp.
Proof. eapply exec_word2; [run_op|]. intros x y _ Hy. cbn. rewrite Exp_spec by done. by apply Z.mod_pos_bound. Qed.
Lemma opNot_total : exec_ok no_pre 1 1 opNot.
Proof. eapply exec_word1; [run_op|words]. Qed.
Lemma opLt_total : exec_ok no_pre 2 1 opLt.
Proof. eapply exec_word2; [run_op|words]. Qed.
Lemma opGt_total : exec_ok no_pre 2 1 opGt.
Proof. eapply exec_word2; [run_op|words]. Qed.
Lemma opSlt_total : exec_ok no_pre 2 1 opSlt.
Proof. eapply exec_word2; [run_op|words]. Qed.
Lemma opSgt_total : exec_ok no_pre 2 1 opSgt.
Proof. eapply exec_word2; [run_op|words]. Qed.
Lemma opEq_total : exec_ok no_pre 2 1 opEq.
Proof. eapply exec_word2; [run_op|words]. Qed.
Lemma opIszero_total : exec_ok no_pre 1 1 opIszero.
Proof. eapply exec_word1; [run_op|words]. Qed.
Lemma opAnd_total : exec_ok no_pre 2 1 opAnd.
Proof. eapply exec_word2; [run_op|]. intros x y Hx _. cbn. apply Z.land_nonneg. by left. Qed.
Lemma opOr_total : exec_ok no_pre 2 1 opOr.
Proof. eapply exec_word2; [run_op|]. intros x y Hx Hy. cbn. by apply Z.lor_nonneg. Qed.
Lemma opXor_total : exec_ok no_pre 2 1 opXor.
Proof. eapply exec_word2; [run_op|]. intros x y Hx Hy. cbn. by apply Z.lxor_nonneg. Qed.
Lemma opByte_total : exec_ok no_pre 2 1 opByte.
Proof.
  eapply exec_word2; [run_op|]. intros x y Hx Hy. cbn. destruct (Z.ltb_spec x 32); [|done].
  rewrite big_Int64_small by lia. rewrite Byte_spec by lia. apply Z.land_nonneg. by right.
Qed.
Lemma opAddmod_total : exec_ok no_pre 3 1 opAddmod.
Proof. eapply exec_word3; [run_op|words]. Qed.
Lemma opMulmod_total : exec_ok no_pre 3 1 opMulmod.
Proof. eapply exec_word3; [run_op|words]. Qed.
Lemma opSHL_total : exec_ok no_pre 2 1 opSHL.
Proof. eapply exec_word2; [run_op|words]. Qed.
Lemma opSHR_total : exec_ok no_pre 2 1 opSHR.
Proof. eapply exec_word2; [run_op|words]. Qed.
Lemma opSAR_total : exec_ok no_pre 2 1 opSAR.
Proof. eapply exec_word2; [run_op|words]. Qed.
Lemma opSignExtend_total : exec_ok no_pre 2 1 opSignExtend.
Proof.
  intros [m c p mem st] Hi Hl _. destruct st as [|x [|y st]]; [cbn in Hl; lia..|].
  destruct Hi as (? & ? & ? & ? & Hst). cbn in Hst. inversion Hst as [|? ? ? Hst']; subst. inversion Hst'; subst.
  unfold opSignExtend, mbind, X_bind, pop. cbn [stack set_stack machine contract pc memory].
  destruct (x <? 31); cbn; (split; [|cbn; lia]); split_and!; try done; constructor; eauto with vmwords.
Qed.
Lemma opPop_total : exec_ok no_pre 1 0 opPop.
Proof.
  intros [m c p mem st] Hi Hl _. destruct st as [|x st]; [cbn in Hl; lia|]. cbn. split; [|cbn; lia].
  destruct Hi as (? & ? & ? & ? & Hst). cbn in Hst. inversion Hst; subst. by split_and!.
Qed.

(** *** Memory *)

Lemma calcMemSize_bound off size n : 0 <= off -> 0 <= size -> calcMemSize off size <= n ->
  size = 0 \/ (0 < size /\ off + size <= n).
Proof. intros ? ?. unfold calcMemSize. destruct (Z.eqb_spec size 0); [by left|]. right. lia. Qed.

Lemma slice_ok {A} (l : list A) lo hi : 0 <= lo <= hi -> hi <= lenZ l ->
  exists d, slice l lo hi = Ok d /\ lenZ d = hi - lo.
Proof.
  intros Hlo Hhi. unfold slice. destruct (Z.leb_spec 0 lo); [|lia]. destruct (Z.leb_spec lo hi); [|lia].
  destruct (Z.leb_spec hi (lenZ l)); [|lia]. eexists. split; [done|]. unfold lenZ in *.
  rewrite length_take, length_drop. lia.
Qed.

Definition area_ok (m : Memory) (off size : Z) : Prop :=
  0 <= off /\ 0 <= size /\ calcMemSize off size <= lenZ (store m) /\ lenZ (store m) <= max_memory.

Lemma area_cases m off size : area_ok m off size ->
  size = 0 \/ (0 < size /\ off + size <= lenZ (store m) /\ big_Int64 off = off /\ big_Int64 size = size /\
              big_Uint64 off = off /\ big_Uint64 size = size /\ u64_add off size = off + size).
Proof.
  intros (Ho & Hs & Hc & Hm). destruct (calcMemSize_bound _ _ _ Ho Hs Hc) as [|[Hp Hle]]; [by left|right].
  unfold max_memory in Hm. rewrite !big_Int64_small by lia. rewrite !big_Uint64_small by (split; unfold two64; lia).
  rewrite u64_add_small by (split; unfold two64; lia). done.
Qed.

Lemma memory_Get_ok m off size : area_ok m off size ->
  exists d, memory_Get m (big_Int64 off) (big_Int64 size) = Ok d /\ lenZ d <= max_memory.
Proof.
  intros Ha. pose proof Ha as (_ & _ & _ & Hm). unfold memory_Get.
  destruct (area_cases _ _ _ Ha) as [->|(Hp & Hle & -> & -> & _)]; [by exists []|]. destruct Ha as (Ho & _).
  destruct (Z.eqb_spec size 0); [lia|]. destruct (Z.ltb_spec off (lenZ (store m))); [|lia].
  destruct (Z.ltb_spec size 0); [lia|]. destruct (slice_ok (store m) off (off + size)) as (d & Hd & Hl); [lia..|].
  exists d. split; [done|]. lia.
Qed.

Lemma memory_GetPtr_ok m off size : area_ok m off size ->
  exists d, memory_GetPtr m (big_Int64 off) (big_Int64 size) = Ok d /\ lenZ d <= max_memory.
Proof.
  intros Ha. destruct (memory_Get_ok m off size Ha) as (d & Hd & Hl). exists d. split; [|done]. revert Hd.
  unfold memory_Get, memory_GetPtr. destruct (_ =? 0); [done|]. destruct (_ <? _); [|done].
  by destruct (_ <? 0).
Qed.

Lemma copy_at_length {A} (dst : list A) off src : 0 <= off -> off + lenZ src <= lenZ dst ->
  length (copy_at dst off src) = length dst.
Proof.
  intros Ho Hl. unfold copy_at, lenZ in *. rewrite !length_app, length_take, length_drop. lia.
Qed.

Lemma memory_Set_ok m off size d : area_ok m off size ->
  exists m', memory_Set m (big_Uint64 off) (big_Uint64 size) d = Ok m' /\ length (store m') = length (store m).
Proof.
  intros Ha. unfold memory_Set. destruct (area_cases _ _ _ Ha) as [->|(Hp & Hle & _ & _ & -> & -> & ->)]; [by exists m|].
  destruct Ha as (Ho & _). destruct (Z.ltb_spec 0 size); [|lia]. destruct (Z.ltb_spec (lenZ (store m)) (off + size)); [lia|].
  destruct (slice_ok (store m) off (off + size)) as (a & -> & _); [lia..|]. eexists. split; [reflexivity|]. cbn.
  apply copy_at_length; [done|]. unfold lenZ. rewrite length_take. unfold lenZ in *. lia.
Qed.

Lemma memory_Set32_ok m off val : area_ok m off 32 ->
  exists m', memory_Set32 m (big_Uint64 off) val = Ok m' /\ length (store m') = length (store m).
Proof.
  intros Ha. unfold memory_Set32. destruct (area_cases _ _ _ Ha) as [|(Hp & Hle & _ & _ & -> & _ & ->)]; [done|].
  destruct Ha as (Ho & _). destruct (Z.ltb_spec (lenZ (store m)) (off + 32)); [lia|].
  destruct (slice_ok (store m) off (off + 32)) as (a & -> & Hl); [lia..|]. eexists. split; [reflexivity|]. cbn.
  apply copy_at_length; [done|]. rewrite ReadBits_spec. unfold lenZ, array in *.
  rewrite length_fmap, be_bytes_length. lia.
Qed.

Lemma getDataBig_ok data start size : 0 <= start -> 0 <= size -> lenZ data < 2 ^ 62 ->
  exists d, getDataBig data start size = Ok d.
Proof.
  intros Hs Hz Hl. unfold getDataBig. cbv zeta. rewrite !BigMin_spec. pose proof (lenZ_nonneg data).
  rewrite (big_Uint64_small (Z.min start _)), (big_Uint64_small (Z.min (_ + _) _)) by (split; unfold two64; lia).
  destruct (slice_ok data (Z.min start (lenZ data)) (Z.min (Z.min start (lenZ data) + size) (lenZ data))) as (d & -> & _); [lia..|].
  by eexists.
Qed.

Lemma getData_ok data start size : is_u64 start -> 0 <= size < 2 ^ 63 -> lenZ data < 2 ^ 62 ->
  exists d, getData data start size = Ok d.
Proof.
  intros [Hs Hs'] Hz Hl. unfold getData. cbv zeta. pose proof (lenZ_nonneg data).
  set (st := if _ <? start then _ else _). assert (Hst : 0 <= st <= lenZ data) by (subst st; destruct (Z.ltb_spec (lenZ data) start); lia).
  rewrite u64_add_small by (split; unfold two64; lia).
  set (e := if _ <? _ + size then _ else _).
  assert (He : st <= e <= lenZ data) by (subst e; destruct (Z.ltb_spec (lenZ data) (st + size)); lia).
  destruct (slice_ok data st e) as (d & -> & _); [lia..|]. by eexists.
Qed.
End Instructions.
