(* ===== verification/VmTotal.v ===== *)
(** * Instructions and gas functions do not panic

    Every instruction whose stack has been validated and whose memory has been
    resized returns in a typed state, and every gas function returns. *)

From Stdlib Require Import Ascii.
From stdpp Require Import gmap sorting relations.
From stdpp Require Import base list numbers strings.
From S2P Require Import Prelude Vote Validator Block StoreView Execution VmData VmOps Precompiles Vm VmFrame VmGas VmAnalysis VmTyping.
Local Open Scope string_scope.
Local Open Scope list_scope.
Local Open Scope Z_scope.

(** ** Weakest preconditions

    [wp m Q s]: the program [m] does not panic from [s]; it returns a value
    and a state with [Q], or an error and a machine in order. *)
Definition wp `{ThetaTypes} `{TrieHash} {A} (m : X A) (Q : A -> ExecState -> Prop) (s : ExecState) : Prop :=
  match m s with
  | Ok (inr a, s') => Q a s'
  | Ok (inl _, s') => machine_ok (machine s')
  | _ => False
  end.

Section Wp.
Context `{ThetaTypes} `{TrieHash}.

Lemma wp_bind {A B} (m : X A) (f : A -> X B) Q s : wp m (fun a => wp (f a) Q) s -> wp (m ≫= f) Q s.
Proof. unfold wp, mbind, X_bind. by destruct (m s) as [[[e|a] s']| |]. Qed.
Lemma wp_mono {A} (m : X A) (Q Q' : A -> ExecState -> Prop) s : wp m Q s -> (forall a s', Q a s' -> Q' a s') -> wp m Q' s.
Proof. unfold wp. destruct (m s) as [[[e|a] s']| |]; auto. Qed.
Lemma wp_done {A} (a : A) Q s : Q a s -> wp (done a) Q s.
Proof. done. Qed.
Lemma wp_fail {A} e (Q : A -> ExecState -> Prop) s : machine_ok (machine s) -> wp (fail e) Q s.
Proof. done. Qed.
Lemma wp_get {A} (f : ExecState -> A) Q s : Q (f s) s -> wp (get f) Q s.
Proof. done. Qed.
Lemma wp_update f Q s : Q tt (f s) -> wp (update f) Q s.
Proof. done. Qed.
Lemma wp_pop m c p mem x st Q : Q x (mkExec m c p mem st) -> wp pop Q (mkExec m c p mem (x :: st)).
Proof. done. Qed.
Lemma wp_push m c p mem x st Q : Q tt (mkExec m c p mem (x :: st)) -> wp (push x) Q (mkExec m c p mem st).
Proof. done. Qed.
Lemma wp_run_outcome {A} (f : ExecState -> outcome A) Q s : (exists a, f s = Ok a /\ Q a s) -> wp (run_outcome f) Q s.
Proof. intros (a & Hf & HQ). unfold wp, run_outcome. by rewrite Hf. Qed.
Lemma wp_on_db f Q s :
  (exists v, f (StateDB (machine s)) = Ok v /\ Q tt (set_machine (with_db (machine s) v) s)) -> wp (on_db f) Q s.
Proof. intros (v & Hf & HQ). apply wp_bind, wp_run_outcome. exists v. by split. Qed.
Lemma wp_on_memory f Q s :
  (exists m, f (memory s) = Ok m /\ Q tt (set_memory m s)) -> wp (on_memory f) Q s.
Proof. intros (v & Hf & HQ). apply wp_bind, wp_run_outcome. exists v. by split. Qed.

Lemma exec_ok_wp pre pops pushes e :
  (forall s, exec_inv s -> (pops <= length (stack s))%nat -> pre s -> wp e (fun _ s' => exec_post pops pushes s s') s) ->
  exec_ok pre pops pushes e.
Proof. done. Qed.
End Wp.

Ltac exec_cbn := cbn [machine contract pc memory stack StateDB set_machine set_contract set_pc set_memory set_stack with_db].
(** Runs a program up to the next outcome that has to be shown. *)
Ltac wp_step :=
  lazymatch goal with
  | |- wp (_ ≫= _) _ _ => apply wp_bind
  | |- wp pop _ _ => apply wp_pop
  | |- wp (push _) _ _ => apply wp_push
  | |- wp (get _) _ _ => apply wp_get
  | |- wp (update _) _ _ => apply wp_update
  | |- wp (done _) _ _ => apply wp_done
  end; exec_cbn.
Ltac wp_run := repeat first [ wp_step | progress cbv beta zeta delta [nil_nil self_address db read_memory] ].

(** Starts the proof of an instruction that pops [n] words. *)
Ltac take_words n st Hst Hl :=
  lazymatch n with
  | O => idtac
  | S ?k =>
    let x := fresh "x" in let Hx := fresh "Hx" in
    destruct st as [|x st]; [cbn in Hl; lia|]; apply Forall_cons in Hst as [Hx Hst]; take_words k st Hst Hl
  end.
Tactic Notation "exec_start" constr(n) :=
  let m := fresh "m" in let c := fresh "c" in let p := fresh "p" in let mem := fresh "mem" in let st := fresh "st" in
  let Hm := fresh "Hm" in let Hc := fresh "Hc" in let Hp := fresh "Hp" in let Hmem := fresh "Hmem" in
  let Hst := fresh "Hst" in let Hl := fresh "Hl" in let Hpre := fresh "Hpre" in
  apply exec_ok_wp; intros [m c p mem st] (Hm & Hc & Hp & Hmem & Hst) Hl Hpre;
  cbn [machine contract pc memory stack] in Hm, Hc, Hp, Hmem, Hst, Hl; take_words n st Hst Hl;
  lazymatch goal with |- wp ?e _ _ => let f := get_head e in unfold f end.
(** Ends it. *)
Ltac exec_done :=
  split; [split; [|split; [|split; [|split]]]; exec_cbn; try assumption; try (unfold lenZ in *; lia); repeat apply Forall_cons_2; eauto with vmwords
         |split; exec_cbn; [cbn in *; try lia|try assumption; try reflexivity]].

(** The memory covers the accesses of an instruction. *)
Definition covers (f : Stack -> outcome Z) (s : ExecState) : Prop :=
  forall v, f (stack s) = Ok v -> v <= lenZ (store (memory s)).

Section Instructions.
Context `{ThetaTypes} `{TrieHash} `{VmLib} `{VmParams}.
Hint Resolve U256_nonneg word_nonneg SetBytes_nonneg lenZ_nonneg : vmwords.

Lemma hash_Big_nonneg h : 0 <= hash_Big h.
Proof. apply SetBytes_nonneg. Qed.
Lemma address_Big_nonneg h : 0 <= address_Big h.
Proof. apply SetBytes_nonneg. Qed.
Hint Resolve hash_Big_nonneg address_Big_nonneg : vmwords.

(** The area an instruction accesses. *)
Ltac area :=
  match goal with Hpre : covers _ _ |- area_ok _ _ _ => split_and!; [done|done|by apply (Hpre _ eq_refl)|done] end.

Lemma opSha3_total : exec_ok (covers memorySha3) 2 1 opSha3.
Proof.
  exec_start 2%nat. wp_run. apply wp_run_outcome. destruct (memory_Get_ok mem x x0) as (d & Hd & _); [area|].
  exists d. split; [done|]. wp_run. exec_done.
Qed.

(** *** The environment *)

Lemma opAddress_total : exec_ok no_pre 0 1 opAddress.
Proof. exec_start 0%nat. wp_run. exec_done. Qed.
Lemma opBalance_total : exec_ok no_pre 1 1 opBalance.
Proof. exec_start 1%nat. wp_run. pose proof (balance_nonneg (StateDB m) (BigToAddress x) (proj1 Hm)). exec_done. Qed.
Lemma opCaller_total : exec_ok no_pre 0 1 opCaller.
Proof. exec_start 0%nat. wp_run. exec_done. Qed.
Lemma opCallValue_total : exec_ok no_pre 0 1 opCallValue.
Proof. exec_start 0%nat. wp_run. destruct Hc as (Hk & Hl1 & Hl2 & Hv & Hg). exec_done. by split_and!; try apply Hk. Qed.
Lemma opCallDataLoad_total : exec_ok no_pre 1 1 opCallDataLoad.
Proof.
  exec_start 1%nat. wp_run. apply wp_run_outcome. destruct (getDataBig_ok (Input c) x 32) as (d & Hd); [done..|apply Hc|].
  exists d. split; [done|]. wp_run. exec_done.
Qed.
Lemma opCallDataSize_total : exec_ok no_pre 0 1 opCallDataSize.
Proof. exec_start 0%nat. wp_run. exec_done. Qed.
Lemma opCallDataCopy_total : exec_ok (covers memoryCallDataCopy) 3 0 opCallDataCopy.
Proof.
  exec_start 3%nat. wp_run. apply wp_run_outcome. destruct (getDataBig_ok (Input c) x0 x1) as (d & Hd); [done..|apply Hc|].
  exists d. split; [done|]. wp_run. apply wp_on_memory. destruct (memory_Set_ok mem x x1 d) as (mem' & Hs & Hlen); [area|].
  exists mem'. split; [done|]. wp_run. exec_done.
Qed.
Lemma opCodeCopy_total : exec_ok (covers memoryCodeCopy) 3 0 opCodeCopy.
Proof.
  exec_start 3%nat. wp_run. apply wp_run_outcome. destruct (getDataBig_ok (Code c) x0 x1) as (d & Hd); [done..|apply Hc|].
  exists d. split; [done|]. wp_run. apply wp_on_memory. destruct (memory_Set_ok mem x x1 d) as (mem' & Hs & Hlen); [area|].
  exists mem'. split; [done|]. wp_run. exec_done.
Qed.

Lemma opReturnDataSize_total : exec_ok no_pre 0 1 opReturnDataSize.
Proof. exec_start 0%nat. wp_run. exec_done. Qed.
Lemma opReturnDataCopy_total : exec_ok (covers memoryReturnDataCopy) 3 0 opReturnDataCopy.
Proof.
  exec_start 3%nat. wp_run. destruct (_ || _) eqn:Ho; [by apply wp_fail|]. bool_to_prop.
  assert (Hend : is_u64 (x0 + x1)). { split; [lia|]. change two64 with (2 ^ 64). apply BitLen_le; lia. }
  rewrite big_Uint64_small in * by done.
  assert (Hoff : is_u64 x0) by (unfold is_u64 in *; lia). rewrite (big_Uint64_small x0) by done.
  wp_run. apply wp_run_outcome. destruct (slice_ok (returnData m) x0 (x0 + x1)) as (d & Hd & _); [lia..|].
  exists d. split; [by rewrite (big_Uint64_small (x0 + x1))|]. wp_run. apply wp_on_memory. destruct (memory_Set_ok mem x x1 d) as (mem' & Hs & Hlen); [area|].
  exists mem'. split; [done|]. wp_run. exec_done.
Qed.
Lemma opExtCodeSize_total : exec_ok no_pre 1 1 opExtCodeSize.
Proof. exec_start 1%nat. wp_run. exec_done. lia. Qed.
Lemma opCodeSize_total : exec_ok no_pre 0 1 opCodeSize.
Proof. exec_start 0%nat. wp_run. exec_done. Qed.
Lemma opExtCodeCopy_total : exec_ok (covers memoryExtCodeCopy) 4 0 opExtCodeCopy.
Proof.
  exec_start 4%nat. wp_run. apply wp_run_outcome. destruct (getDataBig_ok (to_bytes (GetCode (StateDB m) (BigToAddress x))) x1 x2) as (d & Hd); [done..|apply GetCode_small, Hm|].
  exists d. split; [done|]. wp_run. apply wp_on_memory. destruct (memory_Set_ok mem x0 x2 d) as (mem' & Hs & Hlen); [area|].
  exists mem'. split; [done|]. wp_run. exec_done.
Qed.

Lemma opExtCodeHash_total : exec_ok no_pre 1 1 opExtCodeHash.
Proof. exec_start 1%nat. wp_run. exec_done. Qed.
Lemma fail_total pops pushes e : exec_ok no_pre pops pushes (fail e).
Proof. intros s Hi _ _. apply Hi. Qed.
Lemma opSelfBalance_total : exec_ok no_pre 0 1 opSelfBalance.
Proof. exec_start 0%nat. wp_run. pose proof (balance_nonneg (StateDB m) (self c) (proj1 Hm)). exec_done. Qed.

(** *** Memory and storage *)

Lemma opMload_total : exec_ok (covers memoryMLoad) 1 1 opMload.
Proof.
  exec_start 1%nat. wp_run. apply wp_run_outcome. destruct (memory_Get_ok mem x 32) as (d & Hd & _); [area|].
  exists d. split; [done|]. wp_run. exec_done.
Qed.
Lemma opMstore_total : exec_ok (covers memoryMStore) 2 0 opMstore.
Proof.
  exec_start 2%nat. wp_run. apply wp_on_memory. destruct (memory_Set32_ok mem x x0) as (mem' & Hs & Hlen); [area|].
  exists mem'. split; [done|]. wp_run. exec_done.
Qed.
Lemma opMstore8_total : exec_ok (covers memoryMStore8) 2 0 opMstore8.
Proof.
  exec_start 2%nat. wp_run. apply wp_on_memory. assert (Ha : area_ok mem x 1) by area.
  destruct (area_cases _ _ _ Ha) as [|(_ & Hle & Hoff & _)]; [done|]. exec_cbn. rewrite Hoff.
  destruct (Z.leb_spec 0 x); [|lia]. destruct (Z.ltb_spec x (lenZ (store mem))); [|lia]. cbn [andb].
  eexists. split; [reflexivity|]. wp_run. exec_done; cbn [with_store store]; unfold lenZ; by rewrite length_insert.
Qed.
Lemma opSload_total : exec_ok no_pre 1 1 opSload.
Proof.
  exec_start 1%nat. wp_run. apply wp_run_outcome.
  destruct (GetState_good (StateDB m) (self c) (BigToHash x) (proj1 Hm)) as (h & Hh).
  exists h. split; [done|]. wp_run. exec_done.
Qed.

Lemma machine_db m v : machine_ok m -> good v -> machine_ok (with_db m v).
Proof. intros (_ & Hj & Ht) Hg. split; [done|]. by split. Qed.

Lemma opSstore_total : exec_ok no_pre 2 0 opSstore.
Proof.
  exec_start 2%nat. wp_run. apply wp_on_db.
  destruct (SetState_good (StateDB m) (self c) (BigToHash x) (BigToHash x0) (proj1 Hm)) as (v & Hv & Hg).
  exists v. split; [done|]. wp_run. pose proof (machine_db m v Hm Hg). exec_done.
Qed.
Lemma opMsize_total : exec_ok no_pre 0 1 opMsize.
Proof. exec_start 0%nat. wp_run. exec_done. Qed.
Lemma opPc_total : exec_ok no_pre 0 1 opPc.
Proof. exec_start 0%nat. wp_run. exec_done. apply Hp. Qed.
Lemma opGas_total : exec_ok no_pre 0 1 opGas.
Proof. exec_start 0%nat. wp_run. exec_done. destruct Hc as (_ & _ & _ & _ & Hg). apply Hg. Qed.
Lemma opReturn_total : exec_ok (covers memoryReturn) 2 0 opReturn.
Proof.
  exec_start 2%nat. wp_run. apply wp_run_outcome. destruct (memory_GetPtr_ok mem x x0) as (d & Hd & _); [area|].
  exists d. split; [done|]. exec_done.
Qed.
Lemma opSuicide_total : exec_ok no_pre 1 0 opSuicide.
Proof.
  exec_start 1%nat. wp_run. apply wp_on_db.
  destruct (AddBalance_good (StateDB m) (BigToAddress x) (GetBalance (StateDB m) (self c)) (proj1 Hm)) as (v & Hv & Hg);
    [by apply balance_nonneg, Hm|].
  exists v. split; [done|]. wp_run. apply wp_on_db. exec_cbn.
  destruct (Suicide_good v (self c) Hg) as (b & v' & Hs & Hg'). exists v'. rewrite Hs. split; [done|]. wp_run.
  pose proof (machine_db (with_db m v) v' (machine_db m v Hm Hg) Hg'). exec_done.
Qed.

(** *** Jumps *)

Lemma nop_total : exec_ok no_pre 0 0 nil_nil.
Proof. exec_start 0%nat. wp_run. exec_done. Qed.

Lemma check_jump_wp m c p mem st pos Q : machine_ok m -> contract_ok c -> 0 <= pos ->
  (forall m' c', machine_ok m' -> contract_ok c' -> Q tt (mkExec m' c' p mem st)) ->
  wp (check_jump pos) Q (mkExec m c p mem st).
Proof.
  intros Hm Hc Hpos HQ. unfold check_jump. apply wp_bind, wp_run_outcome. exec_cbn.
  pose proof Hm as (Hg & Hj & Ht). pose proof Hc as (Hk & Hlen & Hin & Hv & Hgas).
  destruct (validJumpdest_ok (jumpdests m) c pos Hj Hk Hlen Hpos) as (ok & jd & c' & Hd & _ & Hj' & Hk' & Hc').
  eexists. split; [exact Hd|]. cbv beta iota. wp_run.
  assert (Hm' : machine_ok (with_jumpdests m jd)) by (split; [done|]; by split).
  assert (Hc2 : contract_ok c').
  { destruct Hc' as [->|[bits ->]]; [done|]. split; [done|]. split; [done|]. split; [done|]. by split. }
  destruct ok; [apply wp_done; by apply HQ|by apply wp_fail].
Qed.

Lemma opJump_total : exec_ok no_pre 1 0 opJump.
Proof.
  exec_start 1%nat. wp_run. apply check_jump_wp; [done..|]. intros m' c' Hm' Hc'. wp_run.
  pose proof (big_Uint64_range x). exec_done.
Qed.
Lemma opJumpi_total : exec_ok no_pre 2 0 opJumpi.
Proof.
  exec_start 2%nat. wp_run. destruct (negb _).
  - wp_run. apply check_jump_wp; [done..|]. intros m' c' Hm' Hc'. wp_run. pose proof (big_Uint64_range x). exec_done.
  - wp_run. pose proof (u64_add_range p 1). exec_done.
Qed.

(** *** PUSH, DUP, SWAP and LOG *)

(** The instruction is inside the code. *)
Definition in_code (s : ExecState) : Prop := pc s < lenZ (Code (contract s)).

Lemma makePush_total n : (n <= 32)%nat -> exec_ok in_code 0 1 (makePush (Z.of_nat n) (Z.of_nat n)).
Proof.
  intros Hn. exec_start 0%nat. wp_run. unfold in_code in Hpre. cbn in Hpre. pose proof Hc as (_ & Hlen & _).
  assert (Hnext : to_int64 (u64_add p 1) = p + 1).
  { destruct Hp as [Hp0 _]. rewrite u64_add_small by (split; unfold two64; lia). unfold to_int64.
    destruct (Z.ltb_spec (p + 1) 9223372036854775808); lia. }
  rewrite Hnext. apply wp_run_outcome. destruct Hp as [Hp0 Hp1].
  set (a := if p + 1 <? _ then _ else _). assert (Ha : 0 <= a <= lenZ (Code c)) by (subst a; destruct (Z.ltb_spec (p + 1) (lenZ (Code c))); lia).
  set (b := if a + _ <? _ then _ else _).
  assert (Hb : a <= b <= lenZ (Code c)) by (subst b; destruct (Z.ltb_spec (a + Z.of_nat n) (lenZ (Code c))); lia).
  destruct (slice_ok (Code c) a b) as (d & Hd & _); [lia..|]. exists d. split; [done|]. wp_run.
  pose proof (u64_add_range p (Z.of_nat n)). exec_done.
Qed.

Lemma makeDup_total n : (1 <= n)%nat -> exec_ok no_pre n (n + 1) (makeDup n).
Proof.
  intros Hn. exec_start 0%nat. wp_run. apply wp_run_outcome. exec_cbn. unfold Back.
  destruct (lookup_lt_is_Some_2 st (n - 1)) as [x Hx]; [lia|]. exists x. rewrite Hx. split; [done|]. wp_run.
  pose proof (Forall_lookup_1 _ _ _ _ Hst Hx). exec_done.
Qed.

Lemma makeSwap_total n : exec_ok no_pre (n + 1) (n + 1) (makeSwap n).
Proof.
  exec_start 0%nat. wp_run. apply wp_run_outcome. exec_cbn. unfold stack_swap.
  destruct (lookup_lt_is_Some_2 st 0) as [x Hx]; [lia|]. destruct (lookup_lt_is_Some_2 st (n + 1 - 1)) as [y Hy]; [lia|].
  rewrite Hx, Hy. eexists. split; [reflexivity|]. wp_run.
  pose proof (Forall_lookup_1 _ _ _ _ Hst Hx). pose proof (Forall_lookup_1 _ _ _ _ Hst Hy).
  exec_done; [by repeat apply Forall_insert|]. rewrite !length_insert. lia.
Qed.

Lemma wp_topics n m c p mem st Q : (n <= length st)%nat -> (forall l, Q l (mkExec m c p mem (drop n st))) ->
  wp (pop_topics n) Q (mkExec m c p mem st).
Proof.
  revert st Q. induction n as [|n IH]; intros st Q Hl HQ; [apply wp_done, HQ|].
  destruct st as [|x st]; [cbn in Hl; lia|]. cbn [pop_topics]. wp_run. apply IH; [cbn in Hl; lia|]. intros l. wp_run. apply HQ.
Qed.

Lemma makeLog_total n : exec_ok (covers memoryLog) (n + 2) 0 (makeLog n).
Proof.
  exec_start 2%nat. wp_run. apply wp_topics; [cbn in Hl; lia|]. intros l. wp_run. apply wp_run_outcome.
  destruct (memory_Get_ok mem x x0) as (d & Hd & _); [area|]. exists d. split; [done|]. wp_run. apply wp_on_db.
  eexists. split; [reflexivity|]. wp_run.
  assert (Hm' : machine_ok (with_db m (AddLog (StateDB m) (mkLog (self c) l (of_bytes d))))).
  { apply machine_db; [done|]. destruct Hm as (Hg & _). eapply good_vrel; [exact Hg|apply vrel_log|apply Hg]. }
  exec_done; [by apply Forall_drop|]. rewrite length_drop. cbn in Hl. lia.
Qed.

(** *** The context of the call *)

Definition env_ok (env : Env) : Prop := 0 <= EvmGasPrice (context env) /\ 0 <= evm_chainID env.

Lemma push_total x : 0 <= x -> exec_ok no_pre 0 1 (push x ≫= fun _ => nil_nil).
Proof. intros Hx. apply (exec_push _ (fun _ => x)); done. Qed.
End Instructions.

(** ** Call instructions *)

(** The message calls return, for less than [n] units of gas. *)
Definition returns5 `{ThetaTypes} `{TrieHash} (n : Z)
    (f : ContractRef -> Address -> list byte -> uint64 -> Z -> Machine -> outcome CallResult) : Prop :=
  forall c a i g v m, machine_ok m -> lenZ i < 2 ^ 62 -> is_u64 g -> g < n -> 0 <= v ->
    exists r, f c a i g v m = Ok r /\ machine_ok (cr_machine r).
Definition returns4 `{ThetaTypes} `{TrieHash} (n : Z)
    (f : ContractRef -> Address -> list byte -> uint64 -> Machine -> outcome CallResult) : Prop :=
  forall a b v addr i g m, machine_ok m -> lenZ i < 2 ^ 62 -> is_u64 g -> g < n -> 0 <= v ->
    exists r, f (ContractOf a b v) addr i g m = Ok r /\ machine_ok (cr_machine r).

Record calls_total `{ThetaTypes} `{TrieHash} (n : Z) (calls : Calls) : Prop := {
  Call_total : returns5 n (evm_Call calls);
  CallCode_total : returns5 n (evm_CallCode calls);
  DelegateCall_total : returns4 n (evm_DelegateCall calls);
  StaticCall_total : returns4 n (evm_StaticCall calls);
  Create_total c i g v m : machine_ok m -> lenZ i < 2 ^ 62 -> is_u64 g -> g < n -> 0 <= v ->
    exists r, evm_Create calls c i g v m = Ok r /\ machine_ok (cr_machine (create_res r));
  Create2_total c i g v t m : machine_ok m -> lenZ i < 2 ^ 62 -> is_u64 g -> g < n -> 0 <= v ->
    exists r, evm_Create2 calls c i g v t m = Ok r /\ machine_ok (cr_machine (create_res r))
}.

(** The gas of the callee is paid for, and below [n]. *)
Definition call_paid `{VmParams} (n : Z) (transfers : Stack -> bool) (s : ExecState) : Prop :=
  let g := callGasTemp (machine s) + (if transfers (stack s) then CallStipend else 0) in is_u64 g /\ g < n.
Definition create_paid (n : Z) (s : ExecState) : Prop := Gas (contract s) < n.

Section CallInstructions.
Context `{ThetaTypes} `{TrieHash} `{VmLib} `{VmParams} (n : Z) (calls : Calls).

Lemma contract_gas c g : contract_ok c -> is_u64 g -> contract_ok (with_gas c g).
Proof. intros (Hk & Hl & Hi & Hv & _) Hg. split; [done|]. split; [done|]. split; [done|]. by split. Qed.

Lemma wp_with_machine {A} (f : Contract -> Machine -> outcome A) post m c p mem st Q :
  (exists a, f c m = Ok a /\ Q a (mkExec (post a) c p mem st)) -> wp (with_machine f post) Q (mkExec m c p mem st).
Proof. intros (a & Hf & HQ). apply wp_bind, wp_run_outcome. by exists a. Qed.

Lemma wp_call_end ro rs r m c p mem st (Q : list byte -> ExecState -> Prop) : area_ok mem ro rs -> contract_ok c ->
  (forall x ret c' mem', 0 <= x -> contract_ok c' -> length (store mem') = length (store mem) ->
     Q ret (mkExec m c' p mem' (x :: st))) ->
  wp (call_end ro rs r) Q (mkExec m c p mem st).
Proof.
  intros Ha Hc HQ. unfold call_end. wp_run.
  assert (Hend : forall mem', length (store mem') = length (store mem) ->
    wp (add_gas (cr_gas r) ≫= fun _ => done (cr_ret r)) Q
       (mkExec m c p mem' (match cr_err r with Some _ => 0 | None => 1 end :: st))).
  { intros mem' Hl. unfold add_gas. wp_run. apply HQ; [by destruct (cr_err r)|apply contract_gas; [done|apply wrap64_range]|done]. }
  destruct (memory_Set_ok mem ro rs (cr_ret r) Ha) as (mem' & Hs & Hl).
  destruct (cr_err r) as [[]|]; wp_run; try (by apply Hend); apply wp_on_memory; exists mem'; (split; [done|by apply Hend]).
Qed.

(** The two areas of a call are covered. *)
Lemma call_areas mem io il ro rl : 0 <= io -> 0 <= il -> 0 <= ro -> 0 <= rl -> lenZ (store mem) <= max_memory ->
  BigMax (calcMemSize ro rl) (calcMemSize io il) <= lenZ (store mem) -> area_ok mem io il /\ area_ok mem ro rl.
Proof. intros ? ? ? ? ? Hmax. rewrite BigMax_spec in Hmax. split; split_and!; (done || lia). Qed.

Lemma small_memory (d : list byte) : lenZ d <= max_memory -> lenZ d < 2 ^ 62.
Proof. unfold max_memory. lia. Qed.

Lemma opCall_total : returns5 n (evm_Call calls) ->
  exec_ok (fun s => covers memoryCall s /\ call_paid n sends_value s) 7 1 (opCall calls).
Proof.
  intros Hcalls. exec_start 7%nat. destruct Hpre as [Hcov Hpaid]. wp_run. apply wp_run_outcome.
  destruct (call_areas mem x2 x3 x4 x5) as [Hin Hout]; [done..|by apply (Hcov _ eq_refl)|].
  destruct (memory_Get_ok mem x2 x3 Hin) as (d & Hd & Hl'). exists d. split; [done|]. wp_run. apply wp_with_machine.
  destruct Hpaid as [Hu Hlt]. pose proof Hm as (_ & _ & Ht).
  destruct (stipend_u64 (callGasTemp m) x1 (x :: x0 :: x1 :: x2 :: x3 :: x4 :: x5 :: st)) as [Hgu Hgle]; [done..|].
  cbv zeta in Hgu, Hgle. cbn [machine stack] in Hu, Hlt.
  edestruct (Hcalls (contract_ref c) (BigToAddress x0) d _ (U256 x1) m Hm (small_memory d Hl') Hgu) as (r & Hr & Hmr);
    [lia|apply U256_nonneg|].
  exists r. split; [exact Hr|]. apply wp_call_end; [done..|]. intros y ret c' mem' Hy Hc' Hl2. exec_done.
Qed.

Lemma opDelegateCall_total : returns4 n (evm_DelegateCall calls) ->
  exec_ok (fun s => covers memoryDelegateCall s /\ call_paid n (fun _ => false) s) 6 1 (opDelegateCall calls).
Proof.
  intros Hcalls. exec_start 6%nat. destruct Hpre as [Hcov Hpaid]. wp_run. apply wp_run_outcome.
  destruct (call_areas mem x1 x2 x3 x4) as [Hin Hout]; [done..|by apply (Hcov _ eq_refl)|].
  destruct (memory_Get_ok mem x1 x2 Hin) as (d & Hd & Hl'). exists d. split; [done|]. wp_run. apply wp_with_machine.
  unfold call_paid in Hpaid. cbv zeta in Hpaid. rewrite Z.add_0_r in Hpaid. destruct Hpaid as [Hu Hlt].
  pose proof Hc as (_ & _ & _ & Hv & _).
  destruct (Hcalls (self c) (CallerAddress c) (value c) (BigToAddress x0) d (callGasTemp m) m Hm (small_memory d Hl') Hu Hlt Hv)
    as (r & Hr & Hmr).
  exists r. split; [exact Hr|]. apply wp_call_end; [done..|]. intros y ret c' mem' Hy Hc' Hl2. exec_done.
Qed.

Lemma wp_reserve m c p mem st Q : contract_ok c ->
  (forall g c', 0 <= g <= Gas c -> contract_ok c' -> Q g (mkExec m c' p mem st)) -> wp reserve_gas Q (mkExec m c p mem st).
Proof.
  intros Hc HQ. unfold reserve_gas. wp_run. pose proof Hc as (_ & _ & _ & _ & Hu).
  pose proof (div64_range (Gas c) 64) as Hd. unfold is_u64 in Hu.
  assert (Hg : u64_sub (Gas c) (Gas c / 64) = Gas c - Gas c / 64) by (apply u64_sub_small; unfold is_u64; lia).
  rewrite Hg. apply HQ; [lia|]. unfold UseGas. destruct (_ <? _); [done|]. apply contract_gas; [done|apply wrap64_range].
Qed.

Lemma wp_create_end r m c p mem st (Q : list byte -> ExecState -> Prop) : contract_ok c ->
  (forall x ret c', 0 <= x -> contract_ok c' -> Q ret (mkExec m c' p mem (x :: st))) ->
  wp (create_end r) Q (mkExec m c p mem st).
Proof.
  intros Hc HQ. unfold create_end, add_gas. wp_run. apply HQ; [|apply contract_gas; [done|apply wrap64_range]].
  destruct (cr_err _); [done|apply SetBytes_nonneg].
Qed.

Lemma opCreate_total : calls_total n calls ->
  exec_ok (fun s => covers memoryCreate s /\ create_paid n s) 3 1 (opCreate calls).
Proof.
  intros Hcalls. exec_start 3%nat. destruct Hpre as [Hpre Hpaid]. wp_run. apply wp_run_outcome.
  destruct (memory_Get_ok mem x0 x1) as (d & Hd & Hl'); [split_and!; [done|done|by apply (Hpre _ eq_refl)|done]|].
  exists d. split; [done|]. wp_run. apply wp_reserve; [done|]. intros g c' Hg Hc'. wp_run. apply wp_with_machine.
  unfold create_paid in Hpaid. cbn in Hpaid. pose proof Hc as (_ & _ & _ & _ & Hu).
  destruct (Create_total n calls Hcalls (contract_ref c') d g x m) as (r & Hr & Hmr);
    [done|by apply small_memory|unfold is_u64 in *; lia|lia|done|].
  exists r. split; [done|]. apply wp_create_end; [done|]. intros y ret c2 Hy Hc2. exec_done.
Qed.

Lemma opCreate2_total : calls_total n calls ->
  exec_ok (fun s => covers memoryCreate2 s /\ create_paid n s) 4 1 (opCreate2 calls).
Proof.
  intros Hcalls. exec_start 4%nat. destruct Hpre as [Hpre Hpaid]. wp_run. apply wp_run_outcome.
  destruct (memory_Get_ok mem x0 x1) as (d & Hd & Hl'); [split_and!; [done|done|by apply (Hpre _ eq_refl)|done]|].
  exists d. split; [done|]. wp_run. apply wp_reserve; [done|]. intros g c' Hg Hc'. wp_run. apply wp_with_machine.
  unfold create_paid in Hpaid. cbn in Hpaid. pose proof Hc as (_ & _ & _ & _ & Hu).
  destruct (Create2_total n calls Hcalls (contract_ref c') d g x x2 m) as (r & Hr & Hmr);
    [done|by apply small_memory|unfold is_u64 in *; lia|lia|done|].
  exists r. split; [done|]. apply wp_create_end; [done|]. intros y ret c2 Hy Hc2. exec_done.
Qed.
End CallInstructions.

(** ** Gas functions *)

(** A gas function changes neither the stack, the bytes of the memory, the
    contract nor the program counter. *)
Definition gas_post `{ThetaTypes} `{TrieHash} (s s' : ExecState) : Prop :=
  exec_inv s' /\ stack s' = stack s /\ store (memory s') = store (memory s) /\ contract s' = contract s /\ pc s' = pc s.

Definition gas_total `{ThetaTypes} `{TrieHash} (pops : nat) (pays : bool) (g : gasFunc) : Prop :=
  forall size s, exec_inv s -> (pops <= length (stack s))%nat ->
    wp (g size) (fun _ s' => gas_post s s' /\ (pays = true -> size <= max_memory)) s.

Section GasFunctions.
Context `{ThetaTypes} `{TrieHash} `{VmLib} `{VmParams}.

Lemma gas_post_refl s : exec_inv s -> gas_post s s.
Proof. by intros Hi. Qed.

Lemma wp_memory_cost size s Q : exec_inv s ->
  (forall cost s', gas_post s s' -> size <= max_memory -> is_u64 cost -> Q cost s') -> wp (memoryGasCost size) Q s.
Proof.
  intros Hi HQ. pose proof Hi as (Hm & Hc & Hp & Hmem & Hst). unfold memoryGasCost.
  destruct (Z.eqb_spec size 0) as [->|]; [apply wp_done, HQ; [by apply gas_post_refl|done|done]|].
  destruct (Z.ltb_spec 0xffffffffe0 size); [by apply wp_fail|].
  wp_run. destruct (_ <? _); wp_run; (apply HQ; [|unfold max_memory; lia|]); [|apply wrap64_range|by apply gas_post_refl|done].
  split; [|done]. by split_and!; try apply Hm; try apply Hc; try apply Hp.
Qed.

Lemma wp_safe_add x y s Q : exec_inv s -> is_u64 x -> is_u64 y -> (is_u64 (x + y) -> Q (x + y) s) -> wp (safe_add x y) Q s.
Proof.
  intros Hi Hx Hy HQ. unfold safe_add. rewrite SafeAdd_spec by done.
  destruct (two64 <=? x + y) eqn:Ho; [apply wp_fail, Hi|]. bool_to_prop.
  assert (Hs : is_u64 (x + y)) by (unfold is_u64 in *; lia). rewrite u64_add_small by done. apply wp_done. by apply HQ.
Qed.

Lemma wp_safe_mul x y s Q : exec_inv s -> is_u64 x -> is_u64 y -> (forall r, is_u64 r -> Q r s) -> wp (safe_mul x y) Q s.
Proof.
  intros Hi Hx Hy HQ. unfold safe_mul. rewrite SafeMul_spec by done.
  destruct (two64 <=? x * y); [apply wp_fail, Hi|]. apply wp_done, HQ, wrap64_range.
Qed.

Lemma wp_back n s Q : exec_inv s -> (n < length (stack s))%nat -> (forall x, 0 <= x -> stack s !! n = Some x -> Q x s) -> wp (back n) Q s.
Proof.
  intros Hi Hn HQ. apply wp_run_outcome. destruct (lookup_lt_is_Some_2 _ _ Hn) as [x Hx]. exists x. unfold Back. rewrite Hx.
  split; [done|]. apply HQ; [|done]. destruct Hi as (_ & _ & _ & _ & Hst). by apply (Forall_lookup_1 _ _ _ _ Hst Hx).
Qed.

Lemma wp_back_uint64 n s Q : exec_inv s -> (n < length (stack s))%nat -> (forall r, is_u64 r -> Q r s) -> wp (back_uint64 n) Q s.
Proof.
  intros Hi Hn HQ. unfold back_uint64. wp_run. apply wp_back; [done|done|]. intros x _ _. unfold bigUint64.
  destruct (64 <? BitLen x); [apply wp_fail, Hi|apply wp_done, HQ, wrap64_range].
Qed.

(** The state after the cost of memory, in a form the next steps use. *)
Ltac memory_cost :=
  let cost := fresh "cost" in let s' := fresh "s" in let Hpost := fresh "Hpost" in let Hmax := fresh "Hmax" in
  let Hi' := fresh "Hi" in let Hst := fresh "Hst" in
  apply wp_memory_cost; [assumption|]; intros cost s' Hpost Hmax ?; pose proof Hpost as (Hi' & Hst & _).

Lemma gas_const pops g : gas_total pops false (constGasFunc g).
Proof. intros size s Hi Hl. apply wp_done. split; [by apply gas_post_refl|done]. Qed.

Lemma gas_memory base : is_u64 base -> gas_total 0 true (fun size => g ← memoryGasCost size; safe_add g base).
Proof. intros Hb size s Hi Hl. apply wp_bind. memory_cost. apply wp_safe_add; [done..|]. intros _. done. Qed.

Lemma gas_words base n p : is_u64 base -> is_u64 p ->
  gas_total (S n) true (fun size => g ← memoryGasCost size; g ← safe_add g base;
                          w ← back_uint64 n; w ← safe_mul (toWordSize w) p; safe_add g w).
Proof.
  intros Hb Hp size s Hi Hl. apply wp_bind. memory_cost. apply wp_bind, wp_safe_add; [done..|]. intros Hsum.
  apply wp_bind, wp_back_uint64; [done|rewrite Hst; lia|]. intros w Hw.
  apply wp_bind, wp_safe_mul; [done|by apply toWordSize_range|done|]. intros r Hr. apply wp_safe_add; [done..|]. done.
Qed.

Lemma gas_memory0 : gas_total 0 true memoryGasCost.
Proof. intros size s Hi Hl. memory_cost. done. Qed.

Lemma gas_exp : gas_total 2 false gasExp.
Proof.
  intros size s Hi Hl. unfold gasExp. apply wp_bind, wp_back; [done|lia|]. intros e _ _. cbv zeta.
  apply wp_safe_add; [done|apply wrap64_range|done|]. intros _. split; [by apply gas_post_refl|done].
Qed.

Lemma gas_log n : gas_total 2 true (makeGasLog n).
Proof.
  pose proof params_u64. intros size s Hi Hl. unfold makeGasLog. apply wp_bind, wp_back_uint64; [done|lia|]. intros r Hr.
  apply wp_bind. memory_cost. apply wp_bind, wp_safe_add; [done|done|tauto|]. intros Hs1.
  apply wp_bind, wp_safe_add; [done|done|apply wrap64_range|]. intros Hs2.
  apply wp_bind, wp_safe_mul; [done|done|tauto|]. intros q Hq. apply wp_safe_add; done.
Qed.

(** A refund keeps the state in order. *)
Lemma wp_refund g s Q : exec_inv s -> (forall s', gas_post s s' -> Q tt s') ->
  wp (on_db (fun v => Ok (AddRefund v g))) Q s.
Proof.
  intros Hi HQ. apply wp_on_db. eexists. split; [reflexivity|]. apply HQ. destruct Hi as (Hm & Hc & Hp & Hmem & Hst).
  split; [|done]. split; [|done]. apply machine_db; [done|]. destruct Hm as (Hg & _).
  eapply good_vrel; [exact Hg|apply vrel_add_refund|apply Hg].
Qed.

(** The committed state is the current one: the cost of a write is one of
    three constants. *)
Lemma gas_sstore : gas_total 2 false gasSStore.
Proof.
  intros size s Hi Hl. unfold gasSStore. apply wp_bind, wp_back; [done|lia|]. intros y _ _.
  apply wp_bind, wp_back; [done|lia|]. intros x _ _. wp_run. apply wp_run_outcome.
  destruct (GetState_good (StateDB (machine s)) (self (contract s)) (BigToHash x)) as (h & Hh); [apply Hi|].
  exists h. split; [done|]. assert (Hdone : forall g, wp (done g) (fun (_ : uint64) s' => gas_post s s' /\ (false = true -> size <= max_memory)) s).
  { intros g. apply wp_done. split; [by apply gas_post_refl|done]. }
  destruct (Z.eqb h _); [apply Hdone|]. wp_run. apply wp_run_outcome. exists h. split; [exact Hh|].
  rewrite Z.eqb_refl. destruct (Z.eqb h 0); [apply Hdone|]. apply wp_bind.
  destruct (Z.eqb _ 0); [|by apply wp_done, Hdone]. apply wp_refund; [done|]. intros s' Hs'. by apply wp_done.
Qed.

Lemma gas_suicide : gas_total 1 false gasSuicide.
Proof.
  intros size s Hi Hl. unfold gasSuicide. apply wp_bind, wp_back; [done|lia|]. intros a _ _. wp_run.
  destruct (negb _).
  - apply wp_refund; [done|]. intros s' Hs'. by apply wp_done.
  - apply wp_done, wp_done. split; [by apply gas_post_refl|done].
Qed.

(** *** Calls *)

Lemma wp_call_gas base s Q : is_u64 base -> exec_inv s -> (0 < length (stack s))%nat ->
  (forall cost s', gas_post s s' -> Q cost s') -> wp (call_gas base) Q s.
Proof.
  intros Hb Hi Hl HQ. unfold call_gas. wp_run. apply wp_back; [done|done|]. intros x _ _.
  destruct (callGas _ _ _) as [e|temp] eqn:Hc; [apply wp_fail, Hi|]. apply callGas_range in Hc. wp_run.
  destruct Hi as ((Hg & Hj & _) & Hct & Hp & Hmem & Hst).
  assert (Hpost : gas_post s (set_machine (with_callGasTemp (machine s) temp) s)).
  { split; [|done]. split; [split; [done|by split]|]. split; [done|]. split; [done|]. by split. }
  apply wp_safe_add; [apply Hpost|done|done|]. intros _. by apply HQ.
Qed.

Lemma gas_post_trans s s1 s2 : gas_post s s1 -> gas_post s1 s2 -> gas_post s s2.
Proof. intros (? & ? & ? & ? & ?) (? & ? & ? & ? & ?). split; [done|]. split_and!; congruence. Qed.

(** The end of the gas functions of CALL and CALLCODE. *)
Lemma wp_call_costs base size s : is_u64 base -> exec_inv s -> (0 < length (stack s))%nat ->
  wp (m ← memoryGasCost size; g ← safe_add base m; call_gas g)
     (fun _ s' => gas_post s s' /\ (true = true -> size <= max_memory)) s.
Proof.
  intros Hb Hi Hl. apply wp_bind. memory_cost. apply wp_bind, wp_safe_add; [done..|]. intros Hsum.
  apply wp_call_gas; [done|done|by rewrite Hst|]. intros cost' s2 Hs2. split; [by eapply gas_post_trans|done].
Qed.

Lemma gas_call : gas_total 7 true gasCall.
Proof.
  intros size s Hi Hl. unfold gasCall. apply wp_bind, wp_back; [done|lia|]. intros v _ _.
  apply wp_bind, wp_back; [done|lia|]. intros a _ _. apply wp_bind, wp_get. cbv zeta.
  apply wp_call_costs; [|done|lia].
  exact (proj1 (call_base_price (negb (Z.eqb v 0) && Empty (StateDB (machine s)) (BigToAddress a)) (negb (Z.eqb v 0)))).
Qed.

Lemma gas_callcode : gas_total 7 true gasCallCode.
Proof.
  intros size s Hi Hl. unfold gasCallCode. apply wp_bind, wp_back; [done|lia|]. intros v _ _. cbv zeta.
  apply wp_call_costs; [|done|lia]. exact (proj1 (call_base_price false (negb (Z.eqb v 0)))).
Qed.

Lemma gas_delegate : gas_total 6 true gasDelegateCall.
Proof.
  pose proof params_u64. intros size s Hi Hl. unfold gasDelegateCall. apply wp_bind. memory_cost.
  apply wp_bind, wp_safe_add; [done|done|tauto|]. intros Hsum.
  apply wp_call_gas; [done|done|rewrite Hst; lia|]. intros cost' s2 Hs2. split; [by eapply gas_post_trans|done].
Qed.
End GasFunctions.
