(* ===== verification/VmRun.v ===== *)
(** * The virtual machine neither panics nor runs forever

    Every entry of the jump table returns, and so does an iteration of the
    interpreter; with one unit of fuel more than its gas a message call
    returns a result. *)

From Stdlib Require Import Ascii.
From stdpp Require Import gmap sorting relations.
From stdpp Require Import base list numbers strings.
From S2P Require Import Prelude Vote Validator Block StoreView Execution VmData VmOps Precompiles Vm VmFrame VmGas VmAnalysis VmTyping VmTotal.
Local Open Scope string_scope.
Local Open Scope list_scope.
Local Open Scope Z_scope.

(** ** Operations *)

(** The function that gives the memory size of an instruction returns. *)
Definition mem_total (pops : nat) (f : Stack -> outcome Z) : Prop :=
  forall st, Forall (fun x => 0 <= x) st -> (pops <= length st)%nat -> exists v, f st = Ok v /\ 0 <= v.

(** What holds of an operation [o] with key [k] whose charge is paid from at
    most [n] units of gas: [paid] holds after the charge. *)
Record op_safe `{ThetaTypes} `{TrieHash} `{VmLib} `{VmParams} (n k : Z) (o : operation) (pops pushes : nat)
    (paid : ExecState -> Prop) : Prop := {
  safe_stack : validateStack o = makeStackFunc pops pushes;
  safe_gas : gas_total pops (bool_decide (is_Some (memorySize o))) (gasCost o);
  safe_memory f : memorySize o = Some f -> mem_total pops f;
  safe_exec : exec_ok (fun s => (forall f, memorySize o = Some f -> covers f s) /\ (k <> 0 -> in_code s) /\ paid s)
                pops pushes (execute o);
  safe_paid size s s1 : is_u64 size -> exec_inv s -> Gas (contract s) <= n -> charge o size s = Ok (inr tt, s1) -> paid s1;
  safe_call : k = CALL -> (3 <= pops)%nat
}.
Definition op_total `{ThetaTypes} `{TrieHash} `{VmLib} `{VmParams} (n k : Z) (o : operation) : Prop :=
  exists pops pushes paid, op_safe n k o pops pushes paid.

Section OpTotal.
Context `{ThetaTypes} `{TrieHash} `{VmLib} `{VmParams}.

Lemma exec_ok_pre (pre pre' : ExecState -> Prop) pops pushes e : (forall s, pre' s -> pre s) -> exec_ok pre pops pushes e -> exec_ok pre' pops pushes e.
Proof. intros Hp He s Hi Hl Hpre. apply He; auto. Qed.

Lemma gas_total_weaken pops pops' b g : (pops <= pops')%nat -> gas_total pops b g -> gas_total pops' b g.
Proof. intros Hp Hg size s Hi Hl. apply Hg; [done|lia]. Qed.

Lemma op_plain n k o pops pushes : validateStack o = makeStackFunc pops pushes -> memorySize o = None -> k <> CALL ->
  gas_total pops false (gasCost o) -> exec_ok no_pre pops pushes (execute o) -> op_total n k o.
Proof.
  intros Hv Hm Hk Hg He. exists pops, pushes, no_pre.
  constructor; [done|by rewrite Hm|by rewrite Hm|by eapply exec_ok_pre; [|exact He]|done|done].
Qed.

Lemma op_in_code n k o pops pushes : validateStack o = makeStackFunc pops pushes -> memorySize o = None -> k <> CALL ->
  k <> 0 -> gas_total pops false (gasCost o) -> exec_ok in_code pops pushes (execute o) -> op_total n k o.
Proof.
  intros Hv Hm Hk Hk0 Hg He. exists pops, pushes, no_pre.
  constructor; [done|by rewrite Hm|by rewrite Hm|eapply exec_ok_pre; [|exact He]|done|done]. intros s (_ & Hin & _). by apply Hin.
Qed.

(** An operation that accesses the memory, with its payment. *)
Lemma op_paid n k o f pops pushes (paid : ExecState -> Prop) : validateStack o = makeStackFunc pops pushes ->
  memorySize o = Some f -> mem_total pops f -> gas_total pops true (gasCost o) ->
  exec_ok (fun s => covers f s /\ paid s) pops pushes (execute o) ->
  (forall size s s1, is_u64 size -> exec_inv s -> Gas (contract s) <= n -> charge o size s = Ok (inr tt, s1) -> paid s1) ->
  (k = CALL -> (3 <= pops)%nat) -> op_total n k o.
Proof.
  intros Hv Hm Hf Hg He Hp Hk. exists pops, pushes, paid.
  constructor; [done| |rewrite Hm; by intros f' [= <-]|eapply exec_ok_pre; [|exact He]|done|done].
  - rewrite Hm. rewrite bool_decide_eq_true_2; [done|by eexists].
  - intros s (Hc & _ & Hpaid). split; [by apply Hc|done].
Qed.

Lemma op_memory n k o f pops pushes : validateStack o = makeStackFunc pops pushes ->
  memorySize o = Some f -> mem_total pops f -> gas_total pops true (gasCost o) ->
  exec_ok (covers f) pops pushes (execute o) -> k <> CALL -> op_total n k o.
Proof.
  intros Hv Hm Hf Hg He Hk. eapply (op_paid n k o f pops pushes no_pre); [done..| |done|done].
  eapply exec_ok_pre; [|exact He]. by intros s [? _].
Qed.

(** A charge that was paid. *)
Lemma charge_cost o size s s1 : charge o size s = Ok (inr tt, s1) ->
  exists cost s0, gasCost o size s = Ok (inr cost, s0).
Proof. intros Hc. apply charge_ok in Hc as (q & s0 & Hg & Hq). destruct q as [e|cost]; [done|]. by exists cost, s0. Qed.

Lemma exec_gas_u64 s : exec_inv s -> is_u64 (Gas (contract s)).
Proof. by intros (_ & (_ & _ & _ & _ & Hg) & _). Qed.

Lemma call_paid_ok n o t size s s1 : (forall k, keeps xrel (gasCost o k)) -> call_costs t (gasCost o) ->
  is_u64 size -> exec_inv s -> Gas (contract s) <= n -> charge o size s = Ok (inr tt, s1) -> call_paid n t s1.
Proof.
  intros Hk Hc Hs Hi Hn Hch. pose proof (exec_gas_u64 s Hi) as Hu. destruct (charge_cost _ _ _ _ Hch) as (cost & s0 & Hg).
  destruct (Hc size s cost s0 Hs Hg) as (Hcu & Ht & Hst & _ & Hle).
  destruct (charge_paid o size s s0 cost s1 Hg (Hk _ _ _ _ Hg) Hcu Hu Hch) as (_ & _ & Hle' & Hst' & Hm').
  unfold call_paid. cbv zeta. rewrite Hm', Hst', Hst. pose proof params_u64. assert (is_u64 CallStipend) by tauto.
  unfold is_u64 in *. destruct (t (stack s)); lia.
Qed.

Lemma create_paid_ok n o size s s1 : (forall k, keeps xrel (gasCost o k)) -> costs 1 (gasCost o) ->
  is_u64 size -> exec_inv s -> Gas (contract s) <= n -> charge o size s = Ok (inr tt, s1) -> create_paid n s1.
Proof.
  intros Hk Hc Hs Hi Hn Hch. pose proof (exec_gas_u64 s Hi) as Hu. destruct (charge_cost _ _ _ _ Hch) as (cost & s0 & Hg).
  destruct (Hc size s cost s0 Hs Hg) as (Hcu & Hle).
  destruct (charge_paid o size s s0 cost s1 Hg (Hk _ _ _ _ Hg) Hcu Hu Hch) as (_ & Hgs & Hle' & _).
  unfold create_paid. lia.
Qed.

(** *** Sizes *)

Lemma calcMemSize_nonneg off l : 0 <= off -> 0 <= l -> 0 <= calcMemSize off l.
Proof. intros ? ?. unfold calcMemSize. destruct (Z.eqb l 0); lia. Qed.
Lemma BigMax_nonneg x y : 0 <= x -> 0 <= BigMax x y.
Proof. rewrite BigMax_spec. lia. Qed.

Ltac mem_start n :=
  let st := fresh "st" in let Hst := fresh "Hst" in let Hl := fresh "Hl" in
  intros st Hst Hl; take_words n st Hst Hl; eexists; split; [reflexivity|];
  try apply BigMax_nonneg; by apply calcMemSize_nonneg.

Lemma memorySha3_total : mem_total 2 memorySha3.
Proof. mem_start 2%nat. Qed.
Lemma memoryCallDataCopy_total : mem_total 3 memoryCallDataCopy.
Proof. mem_start 3%nat. Qed.
Lemma memoryExtCodeCopy_total : mem_total 4 memoryExtCodeCopy.
Proof. mem_start 4%nat. Qed.
Lemma memoryMLoad_total : mem_total 1 memoryMLoad.
Proof. mem_start 1%nat. Qed.
Lemma memoryMStore_total : mem_total 2 memoryMStore.
Proof. mem_start 2%nat. Qed.
Lemma memoryMStore8_total : mem_total 2 memoryMStore8.
Proof. mem_start 2%nat. Qed.
Lemma memoryCreate_total : mem_total 3 memoryCreate.
Proof. mem_start 3%nat. Qed.
Lemma memoryCreate2_total : mem_total 4 memoryCreate2.
Proof. mem_start 4%nat. Qed.
Lemma memoryCall_total : mem_total 7 memoryCall.
Proof. mem_start 7%nat. Qed.
Lemma memoryDelegateCall_total : mem_total 6 memoryDelegateCall.
Proof. mem_start 6%nat. Qed.
Lemma memoryLog_total n : mem_total (n + 2) memoryLog.
Proof.
  intros st Hst Hl. destruct st as [|x [|y st]]; [cbn in Hl; lia..|]. apply Forall_cons in Hst as [? Hst].
  apply Forall_cons in Hst as [? _]. eexists. split; [reflexivity|]. by apply calcMemSize_nonneg.
Qed.
End OpTotal.

(** ** The jump table *)

Create HintDb vmtotal.

Section TableTotal.
Context `{ThetaTypes} `{TrieHash} `{VmLib} `{VmParams} (env : Env) (calls : Calls) (n : Z).
Context (Henv : env_ok env) (Hcalls : calls_total n calls).

Lemma gas_copy : gas_total 3 true gasCallDataCopy.
Proof. pose proof params_u64. apply gas_words; (done || tauto). Qed.
Lemma gas_extcopy : gas_total 4 true gasExtCodeCopy.
Proof. pose proof params_u64. apply gas_words; (done || tauto). Qed.
Lemma gas_sha3 : gas_total 2 true gasSha3.
Proof. pose proof params_u64. apply gas_words; (done || tauto). Qed.
Lemma gas_create2 : gas_total 4 true gasCreate2.
Proof. pose proof params_u64. apply (gas_total_weaken 3); [lia|]. apply gas_words; (done || tauto). Qed.
Lemma gas_create : gas_total 3 true gasCreate.
Proof. pose proof params_u64. apply (gas_total_weaken 0); [lia|]. apply gas_memory; tauto. Qed.
Lemma gas_mload pops : gas_total pops true gasMLoad.
Proof. apply (gas_total_weaken 0); [lia|]. by apply gas_memory. Qed.
Lemma gas_return pops : gas_total pops true gasReturn.
Proof. apply (gas_total_weaken 0); [lia|]. apply gas_memory0. Qed.
Lemma gas_log_n k : gas_total (k + 2) true (makeGasLog (Z.of_nat k)).
Proof. apply (gas_total_weaken 2); [lia|]. apply gas_log. Qed.

Hint Resolve opAdd_total opSub_total opMul_total opDiv_total opSdiv_total opMod_total opSmod_total opExp_total opNot_total
  opLt_total opGt_total opSlt_total opSgt_total opEq_total opIszero_total opAnd_total opOr_total opXor_total opByte_total
  opAddmod_total opMulmod_total opSHL_total opSHR_total opSAR_total opSignExtend_total opPop_total opSha3_total
  opAddress_total opBalance_total opCaller_total opCallValue_total opCallDataLoad_total opCallDataSize_total
  opCallDataCopy_total opCodeCopy_total opReturnDataSize_total opReturnDataCopy_total opExtCodeSize_total
  opCodeSize_total opExtCodeCopy_total opExtCodeHash_total fail_total opSelfBalance_total opMload_total opMstore_total
  opMstore8_total opSload_total opSstore_total opMsize_total opPc_total opGas_total opReturn_total opSuicide_total
  nop_total opJump_total opJumpi_total makeSwap_total makeLog_total : vmtotal.
Hint Resolve gas_const gas_copy gas_extcopy gas_sha3 gas_create2 gas_create gas_mload gas_return gas_log_n gas_exp gas_sstore gas_suicide
  gas_call gas_callcode gas_delegate : vmtotal.
Hint Resolve memorySha3_total memoryCallDataCopy_total memoryExtCodeCopy_total memoryMLoad_total memoryMStore_total
  memoryMStore8_total memoryCreate_total memoryCreate2_total memoryCall_total memoryDelegateCall_total
  memoryLog_total : vmtotal.

Ltac table_cbn :=
  cbn [fst snd push_operation dup_operation swap_operation log_operation plain with_memory set_writes set_jumps set_halts
       set_returns set_reverts gasCost execute].
Ltac op_gas := solve [ eauto with vmtotal | exact (gas_const _ _) | exact (gas_mload _) | exact (gas_return _) | exact gas_copy ].
Ltac op_exec :=
  solve [ eauto with vmtotal | apply fail_total | apply nop_total
        | apply push_total; first [apply U256_nonneg | apply SetBytes_nonneg | apply Henv] | exact opReturn_total ].
Ltac simple_op :=
  table_cbn; eapply op_plain; [reflexivity|reflexivity|done|table_cbn; op_gas|table_cbn; op_exec].
Ltac memory_op :=
  table_cbn; eapply op_memory;
  [reflexivity|reflexivity|solve [eauto with vmtotal | exact memoryCallDataCopy_total | exact memorySha3_total]
  |table_cbn; op_gas|table_cbn; op_exec|done].

Lemma arithmetic_total : Forall (fun p => op_total n p.1 p.2) arithmetic_operations.
Proof. repeat (apply Forall_cons; split; [simple_op|]). apply Forall_nil_2. Qed.

Lemma environment_total : Forall (fun p => op_total n p.1 p.2) (environment_operations env).
Proof. repeat (apply Forall_cons; split; [first [simple_op|memory_op]|]). apply Forall_nil_2. Qed.

Lemma storage_total : Forall (fun p => op_total n p.1 p.2) storage_operations.
Proof. repeat (apply Forall_cons; split; [first [simple_op|memory_op]|]). apply Forall_nil_2. Qed.

Lemma stack_total : Forall (fun p => op_total n p.1 p.2) stack_operations.
Proof.
  unfold stack_operations. rewrite !Forall_app. split_and!; apply Forall_fmap, Forall_forall; intros k Hk;
    apply elem_of_seq in Hk; unfold compose; table_cbn.
  - eapply op_in_code; [reflexivity|reflexivity|unfold PUSH1, CALL; lia|unfold PUSH1; lia|table_cbn; op_gas|]. apply makePush_total. lia.
  - eapply op_plain; [reflexivity|reflexivity|unfold DUP1, CALL; lia|table_cbn; op_gas|]. apply makeDup_total. lia.
  - eapply op_plain; [reflexivity|reflexivity|unfold SWAP1, CALL; lia|table_cbn; op_gas|]. apply makeSwap_total.
  - eapply op_memory; [reflexivity|reflexivity|eauto with vmtotal|table_cbn; op_gas|apply makeLog_total|unfold LOG0, CALL; lia].
Qed.

(** CALL and CALLCODE, and DELEGATECALL and STATICCALL, have one shape. *)
Definition same_calls (f : ContractRef -> Address -> list byte -> uint64 -> Z -> Machine -> outcome CallResult)
    (g : ContractRef -> Address -> list byte -> uint64 -> Machine -> outcome CallResult) : Calls :=
  mkCalls f f g g (evm_Create calls) (evm_Create2 calls).

Lemma calls_table_total : Forall (fun p => op_total n p.1 p.2) (call_operations calls).
Proof.
  unfold call_operations. repeat (apply Forall_cons; split); [..|apply Forall_nil_2]; table_cbn.
  - eapply (op_paid _ _ _ _ _ _ (create_paid n)); [reflexivity|reflexivity|apply memoryCreate_total|apply gas_create|by apply opCreate_total| |done].
    intros size s s1. apply create_paid_ok; [|exact costs_create]. intros k. table_cbn. unfold gasCreate. keeps_walk.
  - eapply (op_paid _ _ _ _ _ _ (call_paid n sends_value)); [reflexivity|reflexivity|apply memoryCall_total|apply gas_call|apply opCall_total, Hcalls| |lia].
    intros size s s1. apply call_paid_ok; [|exact costs_call]. intros k. table_cbn. unfold gasCall. keeps_walk.
  - eapply (op_paid _ _ _ _ _ _ (call_paid n sends_value)); [reflexivity|reflexivity|apply memoryCall_total|apply gas_callcode| | |done].
    + exact (opCall_total n (same_calls (evm_CallCode calls) (evm_DelegateCall calls)) (CallCode_total n calls Hcalls)).
    + intros size s s1. apply call_paid_ok; [|exact costs_callcode]. intros k. table_cbn. unfold gasCallCode. keeps_walk.
  - memory_op.
  - simple_op.
Qed.

Lemma homestead_total : Forall (fun p => op_total n p.1 p.2) (newHomesteadInstructionSet env calls).
Proof.
  apply Forall_cons. split.
  - table_cbn. eapply (op_paid _ _ _ _ _ _ (call_paid n (fun _ => false)));
      [reflexivity|reflexivity|apply memoryDelegateCall_total|apply gas_delegate|apply opDelegateCall_total, Hcalls| |done].
    intros size s s1. apply call_paid_ok; [|exact costs_delegate]. intros k. table_cbn. unfold gasDelegateCall. keeps_walk.
  - unfold newFrontierInstructionSet. rewrite !Forall_app.
    split_and!; [apply arithmetic_total|apply environment_total|apply storage_total|apply stack_total|apply calls_table_total].
Qed.

Lemma byzantium_total : Forall (fun p => op_total n p.1 p.2) (newByzantiumInstructionSet env calls).
Proof.
  unfold newByzantiumInstructionSet. cbn [app]. apply Forall_cons; split.
  { table_cbn. eapply (op_paid _ _ _ _ _ _ (call_paid n (fun _ => false)));
      [reflexivity|reflexivity|exact memoryDelegateCall_total|exact gas_delegate| | |done].
    - exact (opDelegateCall_total n (same_calls (evm_Call calls) (evm_StaticCall calls)) (StaticCall_total n calls Hcalls)).
    - intros size s s1. apply call_paid_ok; [|exact costs_static]. intros k. table_cbn. unfold gasStaticCall. keeps_walk. }
  do 3 (apply Forall_cons; split; [first [simple_op|memory_op]|]). apply homestead_total.
Qed.

Lemma table_total op o : JumpTable env calls op = Some o -> op_total n op o.
Proof.
  assert (Hall : Forall (fun p => op_total n p.1 p.2) (newConstantinopleInstructionSet env calls)).
  { unfold newConstantinopleInstructionSet. cbn [app].
    do 4 (apply Forall_cons; split; [simple_op|]). apply Forall_cons; split; [|apply byzantium_total]. table_cbn.
    eapply (op_paid _ _ _ _ _ _ (create_paid n)); [reflexivity|reflexivity|apply memoryCreate2_total|apply gas_create2|by apply opCreate2_total| |done].
    intros size s s1. apply create_paid_ok; [|exact costs_create2]. intros k. table_cbn. unfold gasCreate2. keeps_walk. }
  unfold JumpTable. induction Hall as [|[k o'] l Ho _ IH]; cbn; [done|].
  destruct (Z.eqb_spec k op) as [->|]; [by intros [= <-]|done].
Qed.
End TableTotal.

(** ** One iteration of the loop *)

Definition step_ok `{ThetaTypes} `{TrieHash} `{VmParams} (r : StepResult) : Prop :=
  match r with
  | Continue s => exec_inv s /\ lenZ (stack s) <= StackLimit
  | Stop _ _ s => machine_ok (machine s)
  end.

Section Steps.
Context `{ThetaTypes} `{TrieHash} `{VmLib} `{VmParams}.

Lemma makeStackFunc_ok pops pushes st : makeStackFunc pops pushes st = None ->
  (pops <= length st)%nat /\ lenZ st + Z.of_nat pushes - Z.of_nat pops <= StackLimit.
Proof.
  unfold makeStackFunc, require. destruct (Nat.ltb_spec (length st) pops); [done|].
  destruct (Z.ltb_spec StackLimit (lenZ st + Z.of_nat pushes - Z.of_nat pops)); [done|]. done.
Qed.

(** The memory of an instruction, rounded up to words. *)
Lemma memory_size_ok o f st v : memorySize o = Some f -> f st = Ok v -> 0 <= v ->
  exists r, memory_size o st = Ok r /\ match r with inl _ => True | inr size => v <= size end.
Proof.
  intros Hm Hf Hv. unfold memory_size. rewrite Hm, Hf. cbn [mbind outcome_bind]. unfold bigUint64.
  destruct (64 <? BitLen v) eqn:Hb; [by eexists|]. bool_to_prop.
  assert (Hu : is_u64 v) by (split; [done|]; change two64 with (2 ^ 64); apply BitLen_le; lia).
  rewrite big_Uint64_small by done. rewrite SafeMul_spec by (apply toWordSize_range || done; done).
  destruct (two64 <=? toWordSize v * 32) eqn:Ho; [by eexists|]. eexists. split; [reflexivity|]. cbn. bool_to_prop.
  pose proof (toWordSize_range v Hu) as Hw. unfold u64_mul. rewrite wrap64_small by (unfold is_u64 in *; lia).
  revert Ho Hw. unfold toWordSize. destruct (Z.ltb_spec (18446744073709551615 - 31) v); [intros Ho; by vm_compute in Ho|]. intros _ _.
  rewrite u64_add_small by (unfold is_u64, two64 in *; lia).
  pose proof (Z.div_mod (v + 31) 32). pose proof (Z.mod_pos_bound (v + 31) 32). lia.
Qed.

Lemma Resize_ok m size : is_u64 size -> is_u64 (lenZ (store m)) ->
  lenZ (store (Resize m size)) = Z.max (lenZ (store m)) size.
Proof.
  intros Hs Hl. unfold Resize, memory_Len. destruct (Z.ltb_spec (lenZ (store m)) size); [|lia]. cbn. unfold lenZ in *.
  rewrite length_app, length_replicate. rewrite u64_sub_small by (unfold is_u64 in *; lia). lia.
Qed.

(** The state after a charge. *)
Lemma charge_total n k o pops pushes paid size s : op_safe n k o pops pushes paid -> exec_inv s ->
  (pops <= length (stack s))%nat -> is_u64 size -> (memorySize o = None -> size = 0) ->
  wp (charge o size) (fun _ s' => exec_inv s' /\ stack s' = stack s /\ pc s' = pc s /\
    Code (contract s') = Code (contract s) /\ size <= lenZ (store (memory s'))) s.
Proof.
  intros Hsafe Hi Hl Hs Hnone. pose proof (safe_gas _ _ _ _ _ _ Hsafe size s Hi Hl) as Hgas. revert Hgas.
  unfold wp, charge. destruct (gasCost o size s) as [[[e|cost] s1]| |]; [done| |done|done].
  intros [(Hi1 & Hst & Hmem & Hc & Hpc) Hpays]. pose proof Hi1 as (Hm1 & Hc1 & Hp1 & Hmem1 & Hst1).
  unfold UseGas. destruct (Z.ltb_spec (Gas (contract s1)) cost); [done|].
  assert (Hc2 : contract_ok (with_gas (contract s1) (u64_sub (Gas (contract s1)) cost)))
    by (apply contract_gas; [done|apply wrap64_range]).
  destruct (Z.ltb_spec 0 size); cbn [set_contract set_memory machine contract pc memory stack].
  - assert (Hlen : lenZ (store (Resize (memory s1) size)) = Z.max (lenZ (store (memory s1))) size).
    { apply Resize_ok; [done|]. pose proof (lenZ_nonneg (store (memory s1))). unfold max_memory in *. split; unfold two64; lia. }
    assert (Hmax : size <= max_memory).
    { apply Hpays. apply bool_decide_eq_true. destruct (memorySize o); [by eexists|]. rewrite Hnone in *; done. }
    split; [|rewrite <- Hc, Hst, Hpc; cbn; split_and!; [done..|lia]].
    split; [done|]. split; [done|]. split; [done|]. split; [cbn; lia|done].
  - split; [|rewrite <- Hc, Hst, Hpc; cbn; split_and!; [done..|]; pose proof (lenZ_nonneg (store (memory s1))); lia].
    split; [done|]. split; [done|]. by split.
Qed.

Lemma set_return_ok o res s : machine_ok (machine s) -> machine_ok (machine (set_return o res s)).
Proof. intros Hm. unfold set_return. by destruct (returns o). Qed.
Lemma set_return_inv o res s : exec_inv s -> exec_inv (set_return o res s).
Proof. intros Hi. unfold set_return. by destruct (returns o). Qed.

(** The execution of an operation that was paid for. *)
Lemma perform_total n k o pops pushes paid s : op_safe n k o pops pushes paid -> exec_inv s ->
  (pops <= length (stack s))%nat -> lenZ (stack s) + Z.of_nat pushes - Z.of_nat pops <= StackLimit ->
  (forall f, memorySize o = Some f -> covers f s) -> (k <> 0 -> in_code s) -> paid s ->
  exists r, perform o s = Ok r /\ step_ok r.
Proof.
  intros Hsafe Hi Hl Hlim Hcov Hin Hpaid. pose proof (safe_exec _ _ _ _ _ _ Hsafe s Hi Hl (conj Hcov (conj Hin Hpaid))) as He.
  unfold perform. destruct (execute o s) as [[[e|res] s']| |]; [| |done|done]; cbn [mbind outcome_bind].
  - eexists. split; [reflexivity|]. by apply set_return_ok.
  - destruct He as (Hi' & Hlen & _). pose proof (set_return_inv o res s' Hi') as Hr.
    assert (Hst : stack (set_return o res s') = stack s') by (unfold set_return; by destruct (returns o)).
    assert (Hlim' : lenZ (stack (set_return o res s')) <= StackLimit) by (rewrite Hst; unfold lenZ in *; lia).
    destruct (reverts o); [eexists; split; [reflexivity|apply Hr]|].
    destruct (halts o); [eexists; split; [reflexivity|apply Hr]|].
    destruct (jumps o); [eexists; split; [reflexivity|done]|]. eexists. split; [reflexivity|]. split; [|done].
    destruct Hr as (? & ? & _ & ? & ?). split; [done|]. split; [done|]. split; [apply wrap64_range|done].
Qed.

Lemma op_in_range s k : GetOp (contract s) (pc s) = k -> 0 <= pc s -> k <> 0 -> in_code s.
Proof.
  unfold GetOp, GetByte, in_code. destruct (Code (contract s) !! Z.to_nat (pc s)) as [b|] eqn:Hb; [|by intros <-].
  intros _ Hp _. apply lookup_lt_Some in Hb. unfold lenZ. lia.
Qed.

(** An iteration returns: it does not panic, and keeps the state typed and
    the stack within its limit. *)
Lemma step_total env calls s : env_ok env -> calls_total (Gas (contract s)) calls -> exec_inv s ->
  exists r, step env calls s = Ok r /\ step_ok r.
Proof.
  intros Henv Hcalls Hi. unfold step. cbv zeta. pose proof Hi as (Hm & Hc & Hp & Hmem & Hst).
  assert (Hstop : forall e, exists r, Ok (Stop [] (Some e) s) = Ok r /\ step_ok r) by (intros e; by eexists).
  set (op := GetOp (contract s) (pc s)). destruct (JumpTable env calls op) as [o|] eqn:Ho; [|apply Hstop].
  apply (table_total env calls _ Henv Hcalls) in Ho as (pops & pushes & paid & Hsafe).
  rewrite (safe_stack _ _ _ _ _ _ Hsafe). destruct (makeStackFunc _ _ _) eqn:Hv; [apply Hstop|].
  apply makeStackFunc_ok in Hv as [Hl Hlim].
  assert (Hres : exists r, enforceRestrictions env op o (stack s) = Ok r).
  { unfold enforceRestrictions. destruct (readOnly env); [|by eexists]. destruct (writes o); [by eexists|].
    destruct (Z.eqb_spec op CALL) as [Hop|]; [|by eexists]. pose proof (safe_call _ _ _ _ _ _ Hsafe Hop).
    unfold Back. destruct (lookup_lt_is_Some_2 (stack s) 2) as [x Hx]; [lia|]. rewrite Hx. by eexists. }
  destruct Hres as [[e|] ->]; cbn [mbind outcome_bind]; [apply Hstop|].
  assert (Hsize : exists r, memory_size o (stack s) = Ok r /\
    match r with inl _ => True | inr size => is_u64 size /\ (memorySize o = None -> size = 0) /\
      (forall f v, memorySize o = Some f -> f (stack s) = Ok v -> v <= size) end).
  { destruct (memorySize o) as [f|] eqn:Hf.
    - destruct (safe_memory _ _ _ _ _ _ Hsafe f Hf (stack s) Hst Hl) as (v & Hv & Hv0).
      destruct (memory_size_ok o f (stack s) v Hf Hv Hv0) as (r & Hr & Hok). exists r. split; [done|].
      destruct r as [|size]; [done|]. split; [by eapply memory_size_range|]. split; [done|].
      intros f' v' [= <-] Hv'. rewrite Hv in Hv'. by injection Hv' as <-.
    - unfold memory_size. rewrite Hf. eexists. split; [reflexivity|]. split; [done|]. by split. }
  destruct Hsize as ([e|size] & -> & Hsize); cbn [mbind outcome_bind]; [apply Hstop|]. destruct Hsize as (Hsu & Hnone & Hcov).
  pose proof (charge_total _ _ _ _ _ _ size s Hsafe Hi Hl Hsu Hnone) as Hch. unfold wp in Hch.
  destruct (charge o size s) as [[[e|[]] s1]| |] eqn:Hcharge; [by eexists| |done|done]. cbn [mbind outcome_bind].
  destruct Hch as (Hi1 & Hst1 & Hpc1 & Hcode1 & Hlen1).
  eapply perform_total; [exact Hsafe|done|by rewrite Hst1|by rewrite Hst1| | |].
  - intros f Hf v Hv. rewrite Hst1 in Hv. pose proof (Hcov f v Hf Hv). lia.
  - intros Hk. unfold in_code. rewrite Hpc1, Hcode1. by apply (op_in_range s op); [|apply Hp|].
  - by eapply (safe_paid _ _ _ _ _ _ Hsafe size s s1).
Qed.
End Steps.
