(* ===== verification/VmCalls.v ===== *)
(** * Message calls return

    Precompiled contracts, message calls and creations return in a typed state,
    given an interpreter that does; by induction on the gas the interpreter
    does, with one unit of fuel more than the gas. *)

From Stdlib Require Import Ascii Zpow_facts.
From stdpp Require Import gmap sorting relations.
From stdpp Require Import base list numbers strings.
From S2P Require Import Prelude Vote Validator Block StoreView Execution VmData VmOps Precompiles Vm VmFrame VmGas VmAnalysis VmTyping VmTotal VmRun.
Local Open Scope string_scope.
Local Open Scope list_scope.
Local Open Scope Z_scope.

(** Far above the gas of any transaction, and small enough for the prices of
    the precompiled contracts to bound the sizes they handle. *)
Definition gas_limit : Z := 2 ^ 58.

Section PrecompileTotal.
Context `{ThetaTypes} `{TrieHash} `{TxTypes} `{VmLib} `{VmParams} `{VmCrypto}.
Implicit Types (input : list byte).

Lemma data_int_ok input start size : is_u64 start -> 0 <= size < 2 ^ 63 -> lenZ input < 2 ^ 62 ->
  exists x, data_int input start size = Ok x /\ 0 <= x.
Proof.
  intros Hs Hz Hl. unfold data_int. destruct (getData_ok input start size Hs Hz Hl) as (d & ->).
  eexists. split; [reflexivity|]. apply SetBytes_nonneg.
Qed.

Lemma tail_from_small input n : lenZ input < 2 ^ 62 -> lenZ (tail_from input n) < 2 ^ 62.
Proof. intros Hl. unfold tail_from. destruct (_ <? _)%nat; [|done]. unfold lenZ in *. rewrite length_drop. lia. Qed.

Lemma mul_div4 x : 0 <= x -> 0 <= x * x / 4.
Proof. intros Hx. apply Z.div_pos; nia. Qed.
Lemma mul_div16 x : 0 <= x -> 0 <= x * x / 16.
Proof. intros Hx. apply Z.div_pos; nia. Qed.

(** A price below the limit bounds the lengths. *)
Lemma modexp_gas_bound b e m h : 0 <= b -> 0 <= e -> 0 <= m -> modexp_gas b e m h < gas_limit ->
  (b = 0 /\ m = 0) \/ (b < 2 ^ 63 /\ e < 2 ^ 63 /\ m < 2 ^ 63).
Proof.
  intros Hb He Hm. unfold modexp_gas. cbv zeta. rewrite !BigMax_spec. destruct params_sizes as (_ & _ & ->).
  set (x := Z.max m b). set (msb := if 0 <? BitLen h then _ else _).
  assert (Hmsb : 0 <= msb) by (subst msb; destruct (Z.ltb_spec 0 (BitLen h)); lia).
  set (adj := _ + msb). set (fx := if x <=? 64 then _ else _).
  assert (Hfx : x <= fx).
  { pose proof (mul_div4 x). pose proof (mul_div16 x). subst fx.
    destruct (Z.leb_spec x 64); [subst x; nia|]. destruct (Z.leb_spec x 1024); lia. }
  assert (Hadj : e <= adj + 32) by (subst adj; destruct (Z.ltb_spec 32 e); lia).
  destruct (decide (x = 0)) as [Hx|Hx]; [intros _; left; subst x; lia|].
  assert (Hx1 : 1 <= x) by (subst x; lia). set (M := Z.max adj 1).
  assert (HM : 1 <= M /\ adj <= M) by (subst M; lia).
  assert (Hprod : x <= fx * M /\ M <= fx * M) by nia. set (q := fx * M) in *.
  pose proof (Z.div_mod q 20) as Hdm. pose proof (Z.mod_pos_bound q 20) as Hmb. assert (Hq0 : 0 <= q / 20) by (apply Z.div_pos; lia).
  destruct (64 <? BitLen (q / 20)) eqn:Hbl; [unfold gas_limit; lia|]. bool_to_prop.
  assert (Hu : is_u64 (q / 20)) by (split; [done|]; change two64 with (2 ^ 64); apply BitLen_le; lia).
  rewrite big_Uint64_small by done. unfold gas_limit. intros Hlt. right. subst x. lia.
Qed.

Lemma modexp_required input : lenZ input < 2 ^ 62 -> exists g, modexp_RequiredGas input = Ok g.
Proof.
  intros Hl. unfold modexp_RequiredGas.
  destruct (data_int_ok input 0 32) as (b & -> & Hb); [done..|]. cbn [mbind outcome_bind].
  destruct (data_int_ok input 32 32) as (e & -> & He); [done..|]. cbn [mbind outcome_bind].
  destruct (data_int_ok input 64 32) as (m & -> & Hm); [done..|]. cbn [mbind outcome_bind]. cbv zeta.
  pose proof (tail_from_small input 96 Hl) as Ht.
  assert (Hhead : forall n, 0 <= n <= 32 -> exists h, data_int (tail_from input 96) (big_Uint64 b) n = Ok h).
  { intros n Hn. destruct (data_int_ok (tail_from input 96) (big_Uint64 b) n) as (h & -> & _); [apply wrap64_range|lia|done|]. by eexists. }
  destruct (_ <=? b); [by eexists|]. destruct (Z.ltb_spec 32 e).
  - destruct (Hhead 32) as [h ->]; [lia|]. by eexists.
  - rewrite (big_Uint64_small e) by (split; unfold two64; lia). destruct (Hhead e) as [h ->]; [lia|]. by eexists.
Qed.

(** The run sees the lengths the price was computed from. *)
Lemma modexp_run input g : lenZ input < 2 ^ 62 -> modexp_RequiredGas input = Ok g -> g < gas_limit ->
  exists ret, modexp_Run input = Ok ret.
Proof.
  intros Hl. unfold modexp_RequiredGas, modexp_Run.
  destruct (data_int_ok input 0 32) as (b & -> & Hb); [done..|]. cbn [mbind outcome_bind].
  destruct (data_int_ok input 32 32) as (e & -> & He); [done..|]. cbn [mbind outcome_bind].
  destruct (data_int_ok input 64 32) as (m & -> & Hm); [done..|]. cbn [mbind outcome_bind]. cbv zeta.
  intros Hg Hlt. bind_ok Hg as h Hh. injection Hg as <-. pose proof (tail_from_small input 96 Hl) as Ht.
  destruct (modexp_gas_bound b e m h Hb He Hm Hlt) as [[-> ->]|(Hb' & He' & Hm')]; [by eexists|].
  assert (Hsmall : forall x, 0 <= x < 2 ^ 63 -> big_Uint64 x = x) by (intros x Hx; apply big_Uint64_small; split; unfold two64; lia).
  rewrite !Hsmall by lia. destruct (_ && _); [by eexists|].
  destruct (data_int_ok (tail_from input 96) 0 b) as (base & -> & _); [done|lia|done|]. cbn [mbind outcome_bind].
  destruct (data_int_ok (tail_from input 96) b e) as (exp & -> & _); [split; unfold two64; lia|lia|done|]. cbn [mbind outcome_bind].
  destruct (data_int_ok (tail_from input 96) (u64_add b e) m) as (md & -> & _); [apply wrap64_range|lia|done|]. cbn [mbind outcome_bind].
  destruct (Z.eqb _ _); by eexists.
Qed.

Lemma RequiredGas_total p input h : lenZ input < 2 ^ 62 -> exists g, RequiredGas p input h = Ok g.
Proof. intros Hl. destruct p; try by eexists. by apply modexp_required. Qed.

Lemma array_length n x : length (array n x) = n.
Proof. unfold array. by rewrite length_fmap, be_bytes_length. Qed.

Lemma ecrecover_total input : exists ret, ecrecover_Run input = Ok ret.
Proof.
  unfold ecrecover_Run. cbv zeta. rewrite RightPadBytes_spec. set (l := input ++ _).
  assert (Hl : 128 <= lenZ l) by (subst l; unfold lenZ; rewrite length_app, length_replicate; lia).
  destruct (slice_ok l 64 96) as (rb & -> & _); [lia..|]. destruct (slice_ok l 96 128) as (sb & -> & _); [lia..|].
  cbn [mbind outcome_bind]. destruct (lookup_lt_is_Some_2 l 63) as [vb ->]; [unfold lenZ in Hl; lia|].
  destruct (slice_ok l 32 63) as (pad & -> & _); [lia..|]. cbn [mbind outcome_bind]. destruct (_ || _); [by eexists|].
  destruct (slice_ok l 0 32) as (hash & -> & _); [lia..|]. destruct (slice_ok l 64 128) as (sig & -> & _); [lia..|].
  cbn [mbind outcome_bind]. destruct (Ecrecover _ _) as [key|] eqn:Hk; [|by eexists]. apply Ecrecover_nonempty in Hk.
  destruct (slice_ok key 1 (lenZ key)) as (k & -> & _); [unfold lenZ; lia..|]. cbn [mbind outcome_bind].
  destruct (slice_ok (array 32 (code_hash (of_bytes k))) 12 32) as (low & -> & _); [lia|unfold lenZ; by rewrite array_length|].
  by eexists.
Qed.

Lemma pairing_total n input i : 0 <= i -> i + 192 * Z.of_nat n <= lenZ input -> exists r, pairing_points n input i = Ok r.
Proof.
  revert i. induction n as [|n IH]; intros i Hi Hl; [by eexists|]. cbn [pairing_points].
  destruct (slice_ok input i (i + 64)) as (cb & -> & _); [lia..|]. cbn [mbind outcome_bind].
  destruct (newCurvePoint cb); [by eexists|]. destruct (slice_ok input (i + 64) (i + 192)) as (tb & -> & _); [lia..|].
  cbn [mbind outcome_bind]. destruct (newTwistPoint tb); [by eexists|].
  destruct (IH (i + 192)) as [r ->]; [lia..|]. by eexists.
Qed.

Lemma precompile_total p view input caller g h : good view -> lenZ input < 2 ^ 62 ->
  RequiredGas p input h = Ok g -> g < gas_limit ->
  exists ret err view', precompile_Run p view input caller = Ok (ret, err, view') /\ good view'.
Proof.
  intros Hg Hl Hgas Hlt. destruct p; cbn [precompile_Run]; unfold pure_result, point_result;
    try (by eexists _, _, _).
  - destruct (ecrecover_total input) as [r ->]. by eexists _, _, _.
  - destruct (modexp_run input g Hl Hgas Hlt) as [r ->]. by eexists _, _, _.
  - unfold bn256Add_Run. destruct (getData_ok input 0 64) as (a & ->); [done..|]. cbn [mbind outcome_bind].
    destruct (newCurvePoint a); [by eexists _, _, _|]. destruct (getData_ok input 64 64) as (b & ->); [done..|].
    cbn [mbind outcome_bind]. destruct (newCurvePoint b); by eexists _, _, _.
  - unfold bn256ScalarMul_Run. destruct (getData_ok input 0 64) as (a & ->); [done..|]. cbn [mbind outcome_bind].
    destruct (newCurvePoint a); [by eexists _, _, _|]. destruct (data_int_ok input 64 32) as (b & -> & _); [done..|]. by eexists _, _, _.
  - unfold bn256Pairing_Run. destruct (Z.ltb_spec 0 (lenZ input mod 192)); [by eexists _, _, _|].
    destruct (pairing_total (length input / 192) input 0) as [r ->]; [done| |destruct r as [|[? ?]]; by eexists _, _, _].
    unfold lenZ. pose proof (Nat.div_mod (length input) 192). lia.
  - destruct Hg as (Hi & Ht & Hs & Hb). unfold dynasty_Run, GetDynasty. destruct Hs as [vs Hs]. rewrite Hs. cbn.
    eexists _, _, _. split; [reflexivity|]. split; [done|]. by split_and!; [apply Ht..|rewrite Hs; by eexists|].
  - unfold validatorSet_Run. destruct (data_int_ok input 0 32) as (a & -> & _); [done..|].
    destruct (data_int_ok input 32 32) as (b & -> & _); [done..|]. cbn [mbind outcome_bind].
    destruct (GetValidatorSetForChainDuringDynasty _ _ _); by eexists _, _, _.
  - unfold mintTFuel_Run, HasPreviledgedAccess. pose proof Hg as (_ & _ & _ & [bank ->]). cbn [mbind outcome_bind].
    destruct (negb _); [by eexists _, _, _|]. destruct (getData_ok input 0 20) as (a & ->); [done..|].
    destruct (data_int_ok input 20 32) as (b & -> & Hb); [done..|]. cbn [mbind outcome_bind].
    destruct (b <? 0); [by eexists _, _, _|]. destruct (AddBalance_good view (BytesToAddress a) b Hg Hb) as (v & -> & Hv).
    by eexists _, _, _.
  - unfold burnTFuel_Run. destruct (data_int_ok input 0 32) as (b & -> & Hb); [done..|]. cbn [mbind outcome_bind].
    destruct (b <? 0); [by eexists _, _, _|]. unfold CanTransfer. destruct (Z.leb_spec b (GetBalance view caller)); [|by eexists _, _, _].
    cbn [negb]. destruct (SubBalance_good view caller b Hg) as (v & -> & Hv); [lia|]. by eexists _, _, _.
Qed.

Lemma RunPrecompiled_total view p input c : good view -> lenZ input < 2 ^ 62 -> Gas c < gas_limit ->
  exists ret err c' view', RunPrecompiledContract view p input c = Ok (ret, err, c', view') /\ good view'.
Proof.
  intros Hg Hl Hc. unfold RunPrecompiledContract. destruct (RequiredGas_total p input (GetBlockHeight view) Hl) as (g & Hgas).
  rewrite Hgas. cbn [mbind outcome_bind]. unfold UseGas. destruct (Z.ltb_spec (Gas c) g); [by eexists _, _, _, _|].
  destruct (precompile_total p view input (CallerAddress (with_gas c (u64_sub (Gas c) g))) g (GetBlockHeight view)) as
    (ret & err & view' & -> & Hv); [done..|lia|]. by eexists _, _, _, _.
Qed.
End PrecompileTotal.

(** ** Message calls *)

(** A loop that returns from typed states with less than [n] units of gas. *)
Definition loop_total `{ThetaTypes} `{TrieHash} (n : Z) (f : Env -> ExecState -> outcome RunResult) : Prop :=
  forall env s, env_ok env -> exec_inv s -> Gas (contract s) < n -> exists r, f env s = Ok r /\ machine_ok (run_machine r).

Section CallsTotal.
Context `{ThetaTypes} `{TrieHash} `{TxTypes} `{VmLib} `{VmParams} `{VmCrypto}.
Context (n : Z) (f : Env -> ExecState -> outcome RunResult) (env : Env).
Context (Hn : n <= gas_limit) (Hf : loop_frame f) (Ht : loop_total n f) (Henv : env_ok env).

Lemma run_total c input ro m : machine_ok m -> contract_ok c -> Gas c < n -> lenZ input < 2 ^ 62 ->
  exists r, run f env c input ro m = Ok r /\ machine_ok (run_machine r).
Proof.
  intros Hm Hc Hg Hl. unfold run. destruct (CodeAddr c ≫= PrecompiledContracts) as [p|].
  - destruct (RunPrecompiled_total (StateDB m) p input c) as (ret & err & c' & view & -> & Hv); [apply Hm|done|lia|].
    eexists. split; [reflexivity|]. by apply machine_db.
  - unfold Run. cbv zeta. destruct (_ =? 0)%nat; [by eexists|]. apply Ht; [done| |done].
    destruct Hc as (Hk & Hlc & _ & Hv & Hgas). split; [done|]. split; [split; [done|]; by split|]. done.
Qed.

Lemma call_result_total m r : machine_ok m -> machine_ok (run_machine r) ->
  vrel (Snapshot (StateDB m)).2 (StateDB (run_machine r)) ->
  exists cr, call_result (Snapshot (StateDB m)).1 r = Ok cr /\ machine_ok (cr_machine cr).
Proof.
  intros Hm Hr Hv. unfold call_result. destruct (run_err r) as [e|]; [|by eexists].
  destruct (revert_good (StateDB m) (StateDB (run_machine r))) as (v2 & -> & Hg); [apply Hm|done|].
  eexists. split; [reflexivity|]. by apply machine_db.
Qed.

(** A contract run between a snapshot and the end of the call. *)
Lemma bracket_total m c input ro view : machine_ok m -> good view -> vrel (Snapshot (StateDB m)).2 view ->
  contract_ok c -> Gas c < n -> lenZ input < 2 ^ 62 ->
  exists cr, (r ← run f env c input ro (with_db m view); call_result (Snapshot (StateDB m)).1 r) = Ok cr /\
    machine_ok (cr_machine cr).
Proof.
  intros Hm Hg Hv Hc Hgas Hl.
  destruct (run_total c input ro (with_db m view)) as (r & Hr & Hmr); [by apply machine_db|done..|]. rewrite Hr.
  apply call_result_total; [done|done|]. apply run_frame in Hr as [Hv' _]; [|done|apply Hc]. etrans; [exact Hv|exact Hv'].
Qed.

(** The contract of a call is typed. *)
Lemma call_code_ok view c addr : good view -> analysis c = None -> lenZ (Input c) < 2 ^ 62 -> 0 <= value c -> is_u64 (Gas c) ->
  contract_ok (call_code view c addr).
Proof.
  intros Hg Ha Hi Hv Hu. split; [split; [right; by apply GetCode_hash|cbn; by rewrite Ha]|].
  split; [by apply GetCode_small|]. done.
Qed.

Lemma new_contract_small caller addr v g : lenZ (Input (NewContract caller addr v g)) < 2 ^ 62.
Proof. done. Qed.

Lemma balance_tree v v' addr : tree v' = tree v -> GetBalance v' addr = GetBalance v addr.
Proof. intros Htr. unfold GetBalance, GetOrCreateAccount, GetAccount. by rewrite Htr. Qed.

Lemma take_snapshot_eq m : take_snapshot m = ((Snapshot (StateDB m)).1, with_db m (Snapshot (StateDB m)).2).
Proof. reflexivity. Qed.

Lemma Call_returns : returns5 n (Call f env).
Proof.
  intros c a i g v m Hm Hl Hu Hlt Hv. unfold Call. destruct (_ && _); [by eexists|]. destruct (_ <? _); [by eexists|].
  destruct (negb _) eqn:Hcan; [by eexists|]. rewrite take_snapshot_eq. cbv iota. cbn [with_db StateDB].
  pose proof (snapshot_good (StateDB m) (proj1 Hm)) as Hs.
  destruct (_ && _ && _); [eexists; split; [reflexivity|]; by apply machine_db|].
  assert (Hcreate : exists v1, (if Exist (Snapshot (StateDB m)).2 a then Ok (Snapshot (StateDB m)).2
      else CreateAccountWithPreviousBalance (Snapshot (StateDB m)).2 a) = Ok v1 /\
    good v1 /\ vrel (Snapshot (StateDB m)).2 v1 /\ (forall x, GetBalance v1 x = GetBalance (StateDB m) x)).
  { destruct (Exist _ _); [eexists; split; [reflexivity|]; split; [exact Hs|]; split; [reflexivity|]; intros x; by apply balance_tree|].
    destruct (create_good (Snapshot (StateDB m)).2 a Hs) as (v1 & Hc1 & Hg1 & Hb1). exists v1. split; [exact Hc1|]. split; [done|].
    split; [by eapply vrel_create|]. intros x. rewrite Hb1. by apply balance_tree. }
  destruct Hcreate as (v1 & Hv1 & Hg1 & Hr1 & Hb1). rewrite Hv1. cbn [mbind outcome_bind].
  unfold CanTransfer in Hcan. bool_to_prop.
  destruct (Transfer_good v1 (ref_Address c) a v Hg1) as (v2 & Hv2 & Hg2); [rewrite Hb1; lia|]. rewrite Hv2. cbn [mbind outcome_bind].
  apply (bracket_total m); [done|done| | |done|done].
  - etrans; [exact Hr1|by eapply Transfer_vrel].
  - by apply call_code_ok.
Qed.

Lemma CallCode_returns : returns5 n (CallCode f env).
Proof.
  intros c a i g v m Hm Hl Hu Hlt Hv. unfold CallCode. destruct (_ && _); [by eexists|]. destruct (_ <? _); [by eexists|].
  destruct (negb _); [by eexists|]. rewrite take_snapshot_eq. cbv iota. cbn [with_db StateDB]. cbv zeta.
  pose proof (snapshot_good (StateDB m) (proj1 Hm)) as Hs.
  apply (bracket_total m); [done|exact Hs|reflexivity| |done|done]. by apply call_code_ok.
Qed.

Lemma DelegateCall_returns : returns4 n (DelegateCall f env).
Proof.
  intros a b v addr i g m Hm Hl Hu Hlt Hv. unfold DelegateCall. destruct (_ && _); [by eexists|].
  destruct (_ <? _); [by eexists|]. rewrite take_snapshot_eq. cbv iota. cbn [with_db StateDB].
  cbn [AsDelegate NewContract caller mbind outcome_bind]. cbv zeta.
  pose proof (snapshot_good (StateDB m) (proj1 Hm)) as Hs.
  apply (bracket_total m); [done|exact Hs|reflexivity| |done|done]. by apply call_code_ok.
Qed.

Lemma StaticCall_returns : returns4 n (StaticCall f env).
Proof.
  intros a b v addr i g m Hm Hl Hu Hlt Hv. unfold StaticCall. destruct (_ && _); [by eexists|].
  destruct (_ <? _); [by eexists|]. rewrite take_snapshot_eq. cbv iota. cbn [with_db StateDB]. cbv zeta.
  pose proof (snapshot_good (StateDB m) (proj1 Hm)) as Hs.
  apply (bracket_total m); [done|exact Hs|reflexivity| |done|done]. by apply call_code_ok.
Qed.

(** *** Creations *)

Lemma of_bytes_length l : String.length (of_bytes l) = length l.
Proof. induction l as [|b l IH]; [done|]. cbn. f_equal. exact IH. Qed.

Lemma store_code_total address r : machine_ok (run_machine r) ->
  exists r', store_code address r = Ok r' /\ machine_ok (run_machine r') /\
    vrel (StateDB (run_machine r)) (StateDB (run_machine r')).
Proof.
  intros Hm. unfold store_code. destruct (_ && _) eqn:Hfits; [|by eexists]. apply andb_true_iff in Hfits as [_ Hfits].
  bool_to_prop. destruct params_sizes as ([_ Hmax] & _). destruct (UseGas _ _) as [ok c]. destruct ok; [|by eexists].
  destruct (SetCode_good (StateDB (run_machine r)) address (of_bytes (run_ret r))) as (v & Hv & Hg);
    [apply Hm|rewrite of_bytes_length; unfold lenZ in *; lia|]. rewrite Hv.
  eexists. split; [reflexivity|]. split; [by apply machine_db|]. by eapply vrel_code.
Qed.

Lemma create_result_total address m r : machine_ok m -> machine_ok (run_machine r) ->
  vrel (Snapshot (StateDB m)).2 (StateDB (run_machine r)) ->
  exists cr, create_result address (Snapshot (StateDB m)).1 r = Ok cr /\ machine_ok (cr_machine (create_res cr)).
Proof.
  intros Hm Hr Hv. unfold create_result. cbv zeta. destruct (store_code_total address r Hr) as (r' & -> & Hr' & Hv').
  cbn [mbind outcome_bind]. set (r2 := if _ && _ then _ else _).
  assert (Hm2 : run_machine r2 = run_machine r') by (subst r2; by destruct (_ && _)).
  destruct (call_result_total m r2) as (cr & -> & Hcr); [done|by rewrite Hm2|rewrite Hm2; by etrans|].
  eexists. split; [reflexivity|]. exact Hcr.
Qed.

Lemma create_returns c code hash g v address m : machine_ok m -> lenZ code < 2 ^ 62 ->
  hash = 0 \/ hash = code_hash (of_bytes code) -> is_u64 g -> g < n -> 0 <= v ->
  exists r, create f env c code hash g v address m = Ok r /\ machine_ok (cr_machine (create_res r)).
Proof.
  intros Hm Hl Hh Hu Hlt Hv. unfold create. destruct (_ <? _); [by eexists|]. destruct (negb _) eqn:Hcan; [by eexists|].
  unfold CanTransfer in Hcan. bool_to_prop. cbv zeta.
  destruct (SetNonce_good (StateDB m) (ref_Address c) (u64_add (GetNonce (StateDB m) (ref_Address c)) 1) (proj1 Hm))
    as (v1 & Hv1 & Hg1 & Hb1). rewrite Hv1. cbn [mbind outcome_bind].
  destruct (_ || _); [eexists; split; [reflexivity|]; by apply machine_db|].
  rewrite take_snapshot_eq. cbv iota. cbn [with_db StateDB]. pose proof (snapshot_good v1 Hg1) as Hs.
  destruct (create_good (Snapshot v1).2 address Hs) as (v2 & Hv2 & Hg2 & Hb2). rewrite Hv2. cbn [mbind outcome_bind].
  destruct (Transfer_good v2 (ref_Address c) address v Hg2) as (v3 & Hv3 & Hg3);
    [rewrite Hb2; change (GetBalance _ _) with (GetBalance v1 (ref_Address c)); rewrite Hb1; lia|].
  rewrite Hv3. cbn [mbind outcome_bind].
  assert (Hr3 : vrel (Snapshot v1).2 v3) by (etrans; [by eapply vrel_create|by eapply Transfer_vrel]).
  assert (Hm1 : machine_ok (with_db m v1)) by (by apply machine_db).
  assert (Hm3 : machine_ok (with_db m v3)) by (by apply machine_db).
  destruct (_ && _); [eexists; split; [reflexivity|]; exact Hm3|].
  edestruct (run_total (SetCodeOptionalHash (NewContract c address v g) (Some address) code hash) [] false (with_db m v3))
    as (r & Hr & Hmr); [done| |done|done|].
  { split; [split; [destruct Hh; [by left|by right; left]|done]|]. split; [done|]. done. }
  pose proof Hr as Hr'. apply run_frame in Hr' as [Hvr _]; [|done|done].
  destruct (create_result_total address (with_db m v1) r) as (cr & Hcr & Hmcr); [done|done|by etrans|].
  exists cr. split; [|done]. rewrite <- Hcr. change (with_db (with_db (with_db m v1) (Snapshot v1).2) v3) with (with_db m v3). by rewrite Hr.
Qed.

Lemma calls_of_total : calls_total n (calls_of f env).
Proof.
  split; cbn; [apply Call_returns|apply CallCode_returns|apply DelegateCall_returns|apply StaticCall_returns|..].
  - intros c i g v m Hm Hl Hu Hlt Hv. apply create_returns; try done. by left.
  - intros c i g v t m Hm Hl Hu Hlt Hv. apply create_returns; try done. by right.
Qed.
End CallsTotal.

(** ** The loop *)

Section LoopTotal.
Context `{ThetaTypes} `{TrieHash} `{TxTypes} `{VmLib} `{VmParams} `{VmCrypto}.

(** One unit of fuel more than the gas is enough. *)
Lemma loop_returns fuel : loop_total (Z.min (Z.of_nat fuel) gas_limit) (loop fuel).
Proof.
  induction fuel as [|fuel IH]; intros env s Henv Hi Hg.
  - pose proof (exec_gas_u64 s Hi) as [? _]. unfold gas_limit in *. lia.
  - cbn [loop]. pose proof (exec_gas_u64 s Hi) as Hu.
    assert (Hcalls : calls_total (Gas (contract s)) (calls_of (loop fuel) env)).
    { apply calls_of_total; [lia|apply loop_frames| |done]. intros env' s' He' Hi' Hg'. apply IH; [done|done|lia]. }
    destruct (step_total env _ s Henv Hcalls Hi) as (r & Hr & Hok). pose proof Hr as Hr'.
    apply step_frame in Hr'; [|apply calls_of_frame, loop_frames|done]. rewrite Hr. cbn [mbind outcome_bind].
    destruct r as [s'|ret err s']; [|by eexists]. destruct Hok as [Hi' _]. destruct Hr' as [_ Hlt].
    apply IH; [done|done|lia].
Qed.
End LoopTotal.
