(* ===== verification/VmStatic.v ===== *)
(** * Write protection

    A contract called with STATICCALL runs in read-only mode, and so do the
    contracts it calls.  In that mode nothing but TFuel balances can change:
    instructions that write are refused, calls transfer no value, and only the
    precompiled contracts that mint and burn TFuel reach the state. *)

From Stdlib Require Import Ascii.
From stdpp Require Import gmap sorting relations.
From stdpp Require Import base list numbers strings.
From S2P Require Import Prelude Vote Validator Block StoreView Execution VmData VmOps Precompiles Vm VmFrame VmGas.
Local Open Scope string_scope.
Local Open Scope list_scope.
Local Open Scope Z_scope.

(** ** What stays *)

(** The sequence number, storage, code and Theta of an account. *)
Definition fixed_part (acc : Account) : uint64 * Hash * Hash * Z :=
  (AccSequence acc, AccRoot acc, AccCodeHash acc, ThetaWei (AccBalance acc)).

Definition static_rel `{ThetaTypes} (v v' : StoreView) : Prop :=
  (forall a, fixed_part (GetOrCreateAccount v' a) = fixed_part (GetOrCreateAccount v a)) /\
  codes (tree v') = codes (tree v) /\ storages v' = storages v /\ logs v' = logs v /\ refund v' = refund v.

Definition srel `{ThetaTypes} `{TrieHash} (v v' : StoreView) : Prop := vrel v v' /\ (view_inv v -> static_rel v v').

(** The state database is not touched, or only as above. *)
Definition same_db (s s' : ExecState) : Prop := StateDB (machine s') = StateDB (machine s).

Section Views.
Context `{ThetaTypes} `{TrieHash}.
Implicit Types (v : StoreView).

#[export] Instance same_db_preorder : PreOrder same_db.
Proof. split; [by intros s|]. intros s1 s2 s3 H1 H2. unfold same_db in *. congruence. Qed.

#[export] Instance static_preorder : PreOrder static_rel.
Proof.
  split; [by intros v|]. intros v1 v2 v3 (Ha & ? & ? & ? & ?) (Hb & ? & ? & ? & ?).
  split; [intros a; by rewrite Hb, Ha|]. split_and!; congruence.
Qed.
#[export] Instance srel_preorder : PreOrder srel.
Proof.
  split; [by intros v|]. intros v1 v2 v3 [Hv1 Hs1] [Hv2 Hs2]. split; [by etrans|]. intros Hi.
  etrans; [by apply Hs1|]. apply Hs2. by destruct (Hv1 Hi).
Qed.

(** Writing an account that keeps its fixed part. *)
Lemma static_put v addr acc v' : view_inv v -> root_known (storages v) (AccRoot acc) -> SetAccount v addr acc = Ok v' ->
  fixed_part acc = fixed_part (GetOrCreateAccount v addr) -> static_rel v v'.
Proof.
  intros Hi Hr Hs Hf. destruct (SetAccount_spec v addr acc Hi Hr) as (v2 & Hs2 & _ & ->). rewrite Hs in Hs2. injection Hs2 as ->.
  split; [|done]. intros a. unfold GetOrCreateAccount at 1, GetAccount. cbn.
  destruct (decide (a = addr)) as [->|]; [by rewrite lookup_insert_eq|]. by rewrite lookup_insert_ne by done.
Qed.

Lemma static_add v addr amount v' : AddBalance v addr amount = Ok v' -> srel v v'.
Proof.
  intros Hs. split; [by eapply vrel_add|]. intros Hi. unfold AddBalance in Hs. destruct (Z.eqb amount 0); [by injection Hs as <-|].
  bind_ok Hs as v1 Hv. injection Hs as <-. eapply static_put in Hv; [exact Hv|done| |done]. by apply known_or_new.
Qed.

Lemma static_sub v addr amount v' : SubBalance v addr amount = Ok v' -> srel v v'.
Proof.
  intros Hs. split; [by eapply vrel_sub|]. intros Hi. unfold SubBalance in Hs. destruct (Z.eqb amount 0); [by injection Hs as <-|].
  destruct (GetAccount v addr) as [acc|] eqn:Ha; [|done]. bind_ok Hs as v1 Hv. injection Hs as <-.
  eapply static_put in Hv; [exact Hv|done|by apply (known_account v addr acc)|]. unfold GetOrCreateAccount. by rewrite Ha.
Qed.

(** A new account is written as it is read before. *)
Lemma static_create v addr v' : Exist v addr = false -> CreateAccountWithPreviousBalance v addr = Ok v' -> srel v v'.
Proof.
  intros He Hc. split; [by eapply vrel_create|]. intros Hi. unfold CreateAccountWithPreviousBalance in Hc.
  unfold Exist in He. destruct (GetAccount v addr) as [acc|] eqn:Ha; [done|].
  eapply static_put; [done| |exact Hc|unfold GetOrCreateAccount; by rewrite Ha]. apply known_new.
Qed.

Lemma srel_snapshot v : srel v (Snapshot v).2.
Proof. split; [apply vrel_snapshot|]. by intros _. Qed.

(** Going back to a snapshot. *)
Lemma srel_revert v v1 v2 : srel (Snapshot v).2 v1 -> RevertToSnapshot v1 (Snapshot v).1 = Ok v2 -> srel v v2.
Proof.
  intros [Hv Hs] Hr. split; [by eapply vrel_revert|]. intros Hi.
  destruct (vrel_snapshot v Hi) as (Hi' & _). destruct (Hs Hi') as (_ & _ & Hst & Hl & Hrf).
  destruct (Hv Hi') as (_ & Hsteps & _). destruct (revert_spec v v1 Hi Hsteps) as [Hr' _]. rewrite Hr in Hr'. injection Hr' as ->.
  split; [done|]. by split_and!.
Qed.
End Views.

(** ** Instructions that do not touch the state *)

Section SameDb.
Lemma same_pop : keeps same_db pop.
Proof. intros s r s'. unfold pop. destruct (stack s); [done|]. by intros [= _ <-]. Qed.
Lemma same_push x : keeps same_db (push x).
Proof. by apply keeps_update. Qed.
Lemma same_frame f : (forall s, StateDB (machine (f s)) = StateDB (machine s)) -> keeps same_db (update f).
Proof. intros Hf. apply keeps_update. intros s. apply Hf. Qed.
Lemma same_on_memory f : keeps same_db (on_memory f).
Proof. apply xkeeps_bind; [apply _|apply keeps_run_outcome; apply _|]. intros m. by apply same_frame. Qed.
Lemma same_db_get : keeps same_db db.
Proof. apply keeps_get, _. Qed.
Lemma same_self : keeps same_db self_address.
Proof. apply keeps_get, _. Qed.
Lemma same_read_memory o n : keeps same_db (read_memory o n).
Proof. apply keeps_run_outcome, _. Qed.
End SameDb.

#[export] Hint Resolve same_pop same_push same_on_memory same_db_get same_self same_read_memory : xkeeps.

Section SameGas.
Context `{ThetaTypes} `{TrieHash} `{VmLib} `{VmParams}.

Lemma same_memoryGasCost n : keeps same_db (memoryGasCost n).
Proof. unfold memoryGasCost. keeps_walk. by apply same_frame. Qed.
Lemma same_safe_add x y : keeps same_db (safe_add x y).
Proof. unfold safe_add. keeps_walk. Qed.
Lemma same_safe_mul x y : keeps same_db (safe_mul x y).
Proof. unfold safe_mul. keeps_walk. Qed.
Lemma same_back_uint64 n : keeps same_db (back_uint64 n).
Proof. unfold back_uint64. keeps_walk. Qed.
Lemma same_call_gas g : keeps same_db (call_gas g).
Proof. unfold call_gas. keeps_walk; [by apply same_frame|]. apply same_safe_add. Qed.
Lemma same_check_jump pos : keeps same_db (check_jump pos).
Proof. unfold check_jump. keeps_walk. by apply same_frame. Qed.
End SameGas.

#[export] Hint Resolve same_memoryGasCost same_safe_add same_safe_mul same_back_uint64 same_call_gas same_check_jump : xkeeps.

(** ** Operations *)

(** What the calls of a read-only contract change. *)
Record calls_static `{ThetaTypes} `{TrieHash} (calls : Calls) : Prop := {
  Call_static c a i g m r : evm_Call calls c a i g 0 m = Ok r -> srel (StateDB m) (StateDB (cr_machine r));
  CallCode_static c a i g v m r : evm_CallCode calls c a i g v m = Ok r -> srel (StateDB m) (StateDB (cr_machine r));
  DelegateCall_static c a i g m r : evm_DelegateCall calls c a i g m = Ok r -> srel (StateDB m) (StateDB (cr_machine r));
  StaticCall_static c a i g m r : evm_StaticCall calls c a i g m = Ok r -> srel (StateDB m) (StateDB (cr_machine r))
}.

(** An operation that is allowed in read-only mode; a CALL has no value. *)
Definition op_static `{ThetaTypes} `{TrieHash} (k : Z) (o : operation) : Prop :=
  writes o = true \/
  ((forall n, keeps same_db (gasCost o n)) /\
   (k = CALL -> forall size s cost s', is_u64 size -> gasCost o size s = Ok (inr cost, s') -> stack s' = stack s) /\
   (forall s r s', (k = CALL -> stack s !! 2%nat = Some 0) -> execute o s = Ok (r, s') ->
      srel (StateDB (machine s)) (StateDB (machine s')))).

Section StaticTable.
Context `{ThetaTypes} `{TrieHash} `{VmLib} `{VmParams} (env : Env) (calls : Calls) (Hcalls : calls_static calls).

Lemma op_same k o : k <> CALL -> (forall n, keeps same_db (gasCost o n)) -> keeps same_db (execute o) -> op_static k o.
Proof.
  intros Hk Hg He. right. split; [done|]. split; [done|]. intros s r s' _ Hr. pose proof (He s r s' Hr) as Hs. unfold same_db in Hs. by rewrite Hs.
Qed.

Tactic Notation "pop_arg" hyp(H) "as" ident(x) :=
  let st := fresh "st" in let E := fresh "Es" in
  apply pop_bind in H as (x & st & E & H); cbn [set_stack stack] in E; try subst.

Lemma opCall_static s r s' : stack s !! 2%nat = Some 0 -> opCall calls s = Ok (r, s') ->
  srel (StateDB (machine s)) (StateDB (machine s')).
Proof.
  intros Hv Hr. unfold opCall in Hr. pop_arg Hr as g0. rewrite get_bind in Hr.
  pop_arg Hr as a. pop_arg Hr as v. pop_arg Hr as io. pop_arg Hr as sz. pop_arg Hr as ro. pop_arg Hr as rs.
  apply read_bind in Hr as (args & _ & Hr). cbv zeta in Hr. apply machine_bind in Hr as (cr & Hcr & Hr).
  rewrite Es in Hv. injection Hv as ->. rewrite U256_spec in Hcr. change (0 mod 2 ^ 256) with 0 in Hcr.
  apply call_end_ok in Hr as [Hm _]. rewrite Hm. exact (Call_static calls Hcalls _ _ _ _ _ _ Hcr).
Qed.

Lemma opCallCode_static s r s' : opCallCode calls s = Ok (r, s') -> srel (StateDB (machine s)) (StateDB (machine s')).
Proof.
  intros Hr. unfold opCallCode in Hr. pop_arg Hr as g0. rewrite get_bind in Hr.
  pop_arg Hr as a. pop_arg Hr as v. pop_arg Hr as io. pop_arg Hr as sz. pop_arg Hr as ro. pop_arg Hr as rs.
  apply read_bind in Hr as (args & _ & Hr). cbv zeta in Hr. apply machine_bind in Hr as (cr & Hcr & Hr).
  apply call_end_ok in Hr as [Hm _]. rewrite Hm. exact (CallCode_static calls Hcalls _ _ _ _ _ _ _ Hcr).
Qed.

Lemma opDelegateCall_static s r s' : opDelegateCall calls s = Ok (r, s') -> srel (StateDB (machine s)) (StateDB (machine s')).
Proof.
  intros Hr. unfold opDelegateCall in Hr. pop_arg Hr as g0. rewrite get_bind in Hr.
  pop_arg Hr as a. pop_arg Hr as io. pop_arg Hr as sz. pop_arg Hr as ro. pop_arg Hr as rs.
  apply read_bind in Hr as (args & _ & Hr). cbv zeta in Hr. apply machine_bind in Hr as (cr & Hcr & Hr).
  apply call_end_ok in Hr as [Hm _]. rewrite Hm. exact (DelegateCall_static calls Hcalls _ _ _ _ _ _ Hcr).
Qed.

Lemma opStaticCall_static s r s' : opStaticCall calls s = Ok (r, s') -> srel (StateDB (machine s)) (StateDB (machine s')).
Proof.
  intros Hr. unfold opStaticCall in Hr. pop_arg Hr as g0. rewrite get_bind in Hr.
  pop_arg Hr as a. pop_arg Hr as io. pop_arg Hr as sz. pop_arg Hr as ro. pop_arg Hr as rs.
  apply read_bind in Hr as (args & _ & Hr). cbv zeta in Hr. apply machine_bind in Hr as (cr & Hcr & Hr).
  apply call_end_ok in Hr as [Hm _]. rewrite Hm. exact (StaticCall_static calls Hcalls _ _ _ _ _ _ Hcr).
Qed.

Ltac table_cbn :=
  cbn [fst snd push_operation dup_operation swap_operation log_operation plain with_memory set_writes set_jumps set_halts
       set_returns set_reverts gasCost execute].
Ltac same_op :=
  solve [ eauto with xkeeps
        | match goal with |- keeps _ ?m => let f := get_head m in unfold f, nil_nil; keeps_walk; by apply same_frame end ].
Ltac quiet_op := table_cbn; first [ by left | apply op_same; [done|intro; table_cbn; same_op|table_cbn; same_op] ].

Lemma arithmetic_static : Forall (fun p => op_static p.1 p.2) arithmetic_operations.
Proof. repeat (apply Forall_cons; split; [quiet_op|]). apply Forall_nil_2. Qed.
Lemma environment_static : Forall (fun p => op_static p.1 p.2) (environment_operations env).
Proof. repeat (apply Forall_cons; split; [quiet_op|]). apply Forall_nil_2. Qed.
Lemma storage_static : Forall (fun p => op_static p.1 p.2) storage_operations.
Proof. repeat (apply Forall_cons; split; [quiet_op|]). apply Forall_nil_2. Qed.
Lemma stack_static : Forall (fun p => op_static p.1 p.2) stack_operations.
Proof.
  unfold stack_operations. rewrite !Forall_app. split_and!; apply Forall_fmap, Forall_forall; intros k Hk;
    apply elem_of_seq in Hk; unfold compose; table_cbn.
  4: by left.
  all: apply op_same; [unfold PUSH1, DUP1, SWAP1, CALL; lia|intro; table_cbn; same_op|table_cbn; same_op].
Qed.

(** A call operation other than CALL. *)
Lemma op_call_static k o : k <> CALL -> (forall n, keeps same_db (gasCost o n)) ->
  (forall s r s', execute o s = Ok (r, s') -> srel (StateDB (machine s)) (StateDB (machine s'))) -> op_static k o.
Proof. intros Hk Hg He. right. split; [done|]. split; [done|]. intros s r s' _. apply He. Qed.

Lemma calls_table_static : Forall (fun p => op_static p.1 p.2) (call_operations calls).
Proof.
  unfold call_operations. repeat (apply Forall_cons; split); [..|apply Forall_nil_2]; table_cbn; [by left| | |quiet_op|by left].
  - right. split; [intros n; table_cbn; same_op|]. split.
    + intros _ size s cost s' Hs Hg. by destruct (costs_call size s cost s' Hs Hg) as (_ & _ & ? & _).
    + intros s r s' Hv. apply opCall_static. by apply Hv.
  - apply op_call_static; [done|intros n; table_cbn; same_op|]. exact opCallCode_static.
Qed.

Lemma table_static op o : JumpTable env calls op = Some o -> op_static op o.
Proof.
  assert (Hall : Forall (fun p => op_static p.1 p.2) (newConstantinopleInstructionSet env calls)).
  { unfold newConstantinopleInstructionSet, newByzantiumInstructionSet, newHomesteadInstructionSet. cbn [app].
    do 5 (apply Forall_cons; split; [quiet_op|]). apply Forall_cons; split.
    { table_cbn. apply op_call_static; [done|intros n; table_cbn; same_op|]. exact opStaticCall_static. }
    do 3 (apply Forall_cons; split; [quiet_op|]). apply Forall_cons; split.
    { table_cbn. apply op_call_static; [done|intros n; table_cbn; same_op|]. exact opDelegateCall_static. }
    unfold newFrontierInstructionSet. rewrite !Forall_app.
    split_and!; [apply arithmetic_static|apply environment_static|apply storage_static|apply stack_static|apply calls_table_static]. }
  unfold JumpTable. induction Hall as [|[k o'] l Ho _ IH]; cbn; [done|].
  destruct (Z.eqb_spec k op) as [->|]; [by intros [= <-]|done].
Qed.
End StaticTable.

(** ** Steps and calls in read-only mode *)

Definition step_state (r : StepResult) : ExecState := match r with Continue s => s | Stop _ _ s => s end.

Definition loop_static `{ThetaTypes} `{TrieHash} (f : Env -> ExecState -> outcome RunResult) : Prop :=
  forall env s r, readOnly env = true -> f env s = Ok r -> srel (StateDB (machine s)) (StateDB (run_machine r)).

Section StaticRuns.
Context `{ThetaTypes} `{TrieHash} `{TxTypes} `{VmLib} `{VmParams} `{VmCrypto}.

(** What the restrictions leave. *)
Lemma restricted_none env op o st : readOnly env = true -> enforceRestrictions env op o st = Ok None ->
  writes o = false /\ (op = CALL -> st !! 2%nat = Some 0).
Proof.
  intros Hro. unfold enforceRestrictions. rewrite Hro. destruct (writes o); [done|].
  destruct (Z.eqb_spec op CALL) as [_|]; [|done]. unfold Back. destruct (st !! 2%nat) as [v|]; [|done]. cbn [mbind outcome_bind].
  destruct (Z.ltb_spec 0 (BitLen v)) as [|Hb]; [done|]. intros _. split; [done|]. intros _.
  unfold BitLen in Hb. destruct (Z.eqb_spec v 0) as [Hv|]; [by rewrite Hv|]. pose proof (Z.log2_nonneg (Z.abs v)). lia.
Qed.

Lemma step_static env calls s r : readOnly env = true -> calls_static calls -> step env calls s = Ok r ->
  srel (StateDB (machine s)) (StateDB (machine (step_state r))).
Proof.
  intros Hro Hcalls. unfold step. cbv zeta. destruct (JumpTable env calls _) as [o|] eqn:Ho; [|by intros [= <-]].
  apply (table_static env calls Hcalls) in Ho. destruct (validateStack o (stack s)); [by intros [= <-]|].
  intros Hr. bind_ok Hr as q Hq. destruct q; [by injection Hr as <-|].
  apply restricted_none in Hq as [Hw Hcall]; [|done]. destruct Ho as [Ho|(Hg & Hst & He)]; [congruence|].
  bind_ok Hr as size Hsize. destruct size as [e|size]; [by injection Hr as <-|]. apply memory_size_range in Hsize.
  bind_ok Hr as c Hc. destruct c as [u s1]. pose proof Hc as Hch. apply charge_ok in Hch as (w & s0 & Hgas & Hw2).
  pose proof (Hg size _ _ _ Hgas) as Hsame. unfold same_db in Hsame.
  destruct u as [e|[]].
  - injection Hr as <-. cbn. destruct w; [subst s1|destruct Hw2 as [-> _]]; by rewrite Hsame.
  - destruct w as [|cost]; [done|]. destruct Hw2 as [_ Hs1].
    assert (Hdb1 : StateDB (machine s1) = StateDB (machine s)) by (rewrite Hs1; cbv zeta; destruct (0 <? size); exact Hsame).
    assert (Hst1 : GetOp (contract s) (pc s) = CALL -> stack s1 !! 2%nat = Some 0).
    { intros Hk. rewrite Hs1. cbv zeta. assert (Hss : stack s0 = stack s) by (by eapply (Hst Hk size s cost s0)).
      destruct (0 <? size); cbn; rewrite Hss; by apply Hcall. }
    unfold perform in Hr. bind_ok Hr as p Hp. destruct p as [x s2].
    pose proof (He s1 x s2 Hst1 Hp) as Hrel. rewrite Hdb1 in Hrel.
    assert (Hret : forall l, StateDB (machine (set_return o l s2)) = StateDB (machine s2)) by (intros l; unfold set_return; by destruct (returns o)).
    destruct x as [e|res]; [injection Hr as <-; cbn; by rewrite Hret|].
    destruct (reverts o); [injection Hr as <-; cbn; by rewrite Hret|].
    destruct (halts o); [injection Hr as <-; cbn; by rewrite Hret|].
    destruct (jumps o); injection Hr as <-; cbn; by rewrite Hret.
Qed.

Lemma precompile_static p view input c ret err view' : precompile_Run p view input c = Ok (ret, err, view') -> srel view view'.
Proof.
  intros Hr. destruct p; cbn in Hr; unfold pure_result, point_result in Hr;
    try (bind_ok Hr as q Hq; try destruct q; by injection Hr as _ _ <-);
    try (by injection Hr as _ _ <-).
  - unfold mintTFuel_Run in Hr. bind_ok Hr as q Hq. destruct (negb q); [by injection Hr as _ _ <-|].
    bind_ok Hr as w Hw. bind_ok Hr as amount Ha. destruct (amount <? 0); [by injection Hr as _ _ <-|].
    bind_ok Hr as v Hv. injection Hr as _ _ <-. by eapply static_add.
  - unfold burnTFuel_Run in Hr. bind_ok Hr as amount Ha. destruct (amount <? 0); [by injection Hr as _ _ <-|].
    destruct (negb _); [by injection Hr as _ _ <-|]. bind_ok Hr as v Hv. injection Hr as _ _ <-. by eapply static_sub.
Qed.

Section Given.
Context (f : Env -> ExecState -> outcome RunResult) (Hf : loop_static f) (env : Env).

Lemma run_static c input ro m r : readOnly env || ro = true -> run f env c input ro m = Ok r ->
  srel (StateDB m) (StateDB (run_machine r)).
Proof.
  intros Hro Hr. unfold run in Hr. destruct (CodeAddr c ≫= PrecompiledContracts) as [p|].
  - bind_ok Hr as q Hq. destruct q as [[[ret err] c'] view]. injection Hr as <-. cbn.
    unfold RunPrecompiledContract in Hq. bind_ok Hq as g Hg. destruct (UseGas c g) as [ok c1].
    destruct ok; [|by injection Hq as _ _ _ <-]. bind_ok Hq as w Hw. destruct w as [[ret1 err1] view1].
    injection Hq as _ _ _ <-. by eapply precompile_static.
  - unfold Run in Hr. cbv zeta in Hr. destruct (_ =? 0)%nat; [by injection Hr as <-|]. by apply Hf in Hr.
Qed.

(** A contract run between a snapshot and the end of the call. *)
Lemma bracket_static m c input ro view r cr : srel (Snapshot (StateDB m)).2 view -> readOnly env || ro = true ->
  run f env c input ro (with_db m view) = Ok r -> call_result (Snapshot (StateDB m)).1 r = Ok cr ->
  srel (StateDB m) (StateDB (cr_machine cr)).
Proof.
  intros Hv Hro Hr Hcr. apply run_static in Hr; [|done]. assert (Hall : srel (Snapshot (StateDB m)).2 (StateDB (run_machine r))) by (etrans; [exact Hv|exact Hr]).
  unfold call_result in Hcr. destruct (run_err r).
  - bind_ok Hcr as v2 Hv2. injection Hcr as <-. by eapply srel_revert.
  - injection Hcr as <-. etrans; [apply srel_snapshot|exact Hall].
Qed.

Lemma Call_stays c a i g m r : readOnly env = true -> Call f env c a i g 0 m = Ok r -> srel (StateDB m) (StateDB (cr_machine r)).
Proof.
  intros Hro. unfold Call. destruct (_ && _); [by intros [= <-]|]. destruct (_ <? _); [by intros [= <-]|].
  destruct (negb _); [by intros [= <-]|]. unfold take_snapshot. cbn [Snapshot]. fold (Snapshot (StateDB m)).
  destruct (_ && _ && _); [intros [= <-]; apply srel_snapshot|].
  intros Hr. bind_ok Hr as v1 Hv1. bind_ok Hr as v2 Hv2. cbv zeta in Hr. bind_ok Hr as q Hq.
  assert (Ht : v2 = v1) by (cbn in Hv2; by injection Hv2 as ->). subst v2.
  eapply (bracket_static m); [|by rewrite Hro|exact Hq|exact Hr].
  destruct (Exist _ _) eqn:He; [by injection Hv1 as <-|by eapply static_create].
Qed.

Lemma CallCode_stays c a i g v m r : readOnly env = true -> CallCode f env c a i g v m = Ok r -> srel (StateDB m) (StateDB (cr_machine r)).
Proof.
  intros Hro. unfold CallCode. destruct (_ && _); [by intros [= <-]|]. destruct (_ <? _); [by intros [= <-]|].
  destruct (negb _); [by intros [= <-]|]. unfold take_snapshot. cbn [Snapshot]. cbv zeta.
  intros Hr. bind_ok Hr as q Hq. by eapply (bracket_static m); [|by rewrite Hro|exact Hq|exact Hr].
Qed.

Lemma DelegateCall_stays c a i g m r : readOnly env = true -> DelegateCall f env c a i g m = Ok r -> srel (StateDB m) (StateDB (cr_machine r)).
Proof.
  intros Hro. unfold DelegateCall. destruct (_ && _); [by intros [= <-]|]. destruct (_ <? _); [by intros [= <-]|].
  unfold take_snapshot. cbn [Snapshot]. intros Hr. bind_ok Hr as c' Hc. cbv zeta in Hr. bind_ok Hr as q Hq.
  by eapply (bracket_static m); [|by rewrite Hro|exact Hq|exact Hr].
Qed.

(** A static call, from any mode. *)
Lemma StaticCall_stays c a i g m r : StaticCall f env c a i g m = Ok r -> srel (StateDB m) (StateDB (cr_machine r)).
Proof.
  unfold StaticCall. destruct (_ && _); [by intros [= <-]|]. destruct (_ <? _); [by intros [= <-]|].
  unfold take_snapshot. cbn [Snapshot]. cbv zeta. intros Hr. bind_ok Hr as q Hq.
  by eapply (bracket_static m); [|apply orb_true_r|exact Hq|exact Hr].
Qed.

Lemma calls_of_static : readOnly env = true -> calls_static (calls_of f env).
Proof.
  intros Hro. split; cbn; intros.
  - by eapply Call_stays.
  - by eapply CallCode_stays.
  - by eapply DelegateCall_stays.
  - by eapply StaticCall_stays.
Qed.
End Given.

Lemma loops_static fuel : loop_static (loop fuel).
Proof.
  induction fuel as [|fuel IH]; intros env s r Hro Hr; [done|]. cbn in Hr. bind_ok Hr as q Hq.
  apply step_static in Hq; [|done|by apply calls_of_static]. destruct q as [s'|ret err s']; cbn in Hq.
  - etrans; [exact Hq|]. by eapply IH.
  - by injection Hr as <-.
Qed.
End StaticRuns.

(** ** What the readers see *)

Section Readers.
Context `{ThetaTypes} `{TrieHash}.

(** Nonce, code and storage are functions of the fixed part. *)
Lemma GetCode_fixed v a : GetCode v a =
  let h := AccCodeHash (GetOrCreateAccount v a) in
  if Z.eqb h EmptyCodeHash || Z.eqb h SuicidedCodeHash then "" else GetCodeByHash v h.
Proof.
  unfold GetCode, GetOrCreateAccount. destruct (GetAccount v a); [done|]. cbv zeta. by rewrite NewAccount_code, Z.eqb_refl.
Qed.

Lemma GetState_fixed v a k : GetState v a k =
  match getAccountStorage v (GetOrCreateAccount v a) with None => Panic "nil tree store" | Some s => Ok (default 0 (s !! k)) end.
Proof.
  unfold GetState, GetOrCreateAccount. destruct (GetAccount v a); [done|]. unfold getAccountStorage. rewrite NewAccount_root. done.
Qed.

Lemma static_readers v v' : static_rel v v' ->
  (forall a, GetNonce v' a = GetNonce v a /\ GetCode v' a = GetCode v a /\
     (forall k, GetState v' a k = GetState v a k) /\ ThetaWei (coins_of v' a) = ThetaWei (coins_of v a)) /\
  logs v' = logs v /\ refund v' = refund v.
Proof.
  intros (Ha & Hc & Hs & Hl & Hr). split; [|done]. intros a. specialize (Ha a). unfold fixed_part in Ha. injection Ha as Hn Hroot Hcode Ht.
  split_and!.
  - unfold GetNonce in *. done.
  - rewrite !GetCode_fixed. cbv zeta. rewrite Hcode. unfold GetCodeByHash. by rewrite Hc.
  - intros k. rewrite !GetState_fixed. unfold getAccountStorage. by rewrite Hroot, Hs.
  - exact Ht.
Qed.
End Readers.
