(* ===== verification/VmSpec.v ===== *)
(** * Properties of the virtual machine

    What the executors of transactions rely on: message calls return, spend
    no more than their gas and undo the state on an error; the interpreter
    keeps its state typed; jumps go to instructions only; and what the
    precompiled contracts of the subchain do through each kind of call. *)

From Stdlib Require Import Ascii Zpow_facts.
From stdpp Require Import gmap sorting relations.
From stdpp Require Import base list numbers strings.
From S2P Require Import Prelude Vote Validator Block StoreView Execution VmData VmOps Precompiles Vm VmFrame VmGas VmAnalysis VmTyping VmTotal VmRun VmCalls VmStatic.
Local Open Scope string_scope.
Local Open Scope list_scope.
Local Open Scope Z_scope.

(** ** Concrete libraries *)

#[export] Instance plain_lib : VmLib.
Proof.
  refine {|
    U256 x := x mod 2 ^ 256;
    S256 x := if x <? 2 ^ 255 then x else x - 2 ^ 256;
    math_Exp b e := b ^ e mod 2 ^ 256;
    math_Byte x n i := Z.land (Z.shiftr x (8 * (n - 1 - i))) 255;
    BigMax := Z.max;
    BigMin := Z.min;
    SafeAdd x y := (u64_add x y, two64 <=? x + y);
    SafeMul x y := (u64_mul x y, two64 <=? x * y);
    ReadBits x buf := array (length buf) (Z.abs x);
    BigToAddress x := Z.abs x mod 2 ^ 160;
    BigToHash x := Z.abs x mod 2 ^ 256;
    BytesToAddress l := SetBytes l mod 2 ^ 160;
    RightPadBytes l n := l ++ replicate (Z.to_nat n - length l) zero_byte;
    LeftPadBytes l n := replicate (Z.to_nat n - length l) zero_byte ++ l
  |}; done.
Defined.

#[export] Instance plain_params : VmParams.
Proof.
  refine {|
    StackLimit := 1024; CallCreateDepth := 1024; MaxCodeSizeForMetachain := 24576;
    MemoryGas := 3; QuadCoeffDiv := 512; CopyGas := 3; LogGas := 375; LogTopicGas := 375; LogDataGas := 8;
    Sha3Gas := 30; Sha3WordGas := 6; JumpdestGas := 1; CreateGas := 32000; Create2Gas := 32000; CreateDataGas := 200;
    CallNewAccountGas := 25000; CallValueTransferGas := 9000; CallStipend := 2300; SuicideRefundGas := 24000;
    NetSstoreNoopGas := 200; NetSstoreInitGas := 20000; NetSstoreCleanGas := 5000; NetSstoreDirtyGas := 200;
    NetSstoreClearRefund := 15000; NetSstoreResetRefund := 4800; NetSstoreResetClearRefund := 19800;
    gt_ExtcodeSize := 700; gt_ExtcodeCopy := 700; gt_ExtcodeHash := 400; gt_Balance := 400; gt_SLoad := 200;
    gt_Calls := 700; gt_Suicide := 5000; gt_ExpByte := 50; gt_CreateBySuicide := 25000;
    EcrecoverGas := 3000; Sha256BaseGas := 60; Sha256PerWordGas := 12; Ripemd160BaseGas := 600;
    Ripemd160PerWordGas := 120; IdentityBaseGas := 15; IdentityPerWordGas := 3; ModExpQuadCoeffDiv := 20;
    Bn256AddGas := 500; Bn256AddGasIstanbul := 150; Bn256ScalarMulGas := 40000; Bn256ScalarMulGasIstanbul := 6000;
    Bn256PairingBaseGas := 100000; Bn256PairingPerPointGas := 80000; Bn256PairingBaseGasIstanbul := 45000;
    Bn256PairingPerPointGasIstanbul := 34000
  |}; done.
Defined.

#[export] Instance plain_crypto : VmCrypto.
Proof.
  refine {|
    CreateAddress a n := (a * 2 ^ 64 + n) mod 2 ^ 160;
    CreateAddress2 a salt h := (a + salt + h) mod 2 ^ 160;
    ValidateSignatureValues v r s b := false;
    Ecrecover hash sig := None;
    sha256_Sum256 l := array 32 (SetBytes l);
    ripemd160_Sum l := array 20 (SetBytes l);
    G1 := Z; G2 := Z;
    G1_Unmarshal l := Some (SetBytes l);
    G2_Unmarshal l := Some (SetBytes l);
    G1_Marshal x := array 64 x;
    G1_Add := Z.add;
    G1_ScalarMult := Z.mul;
    PairingCheck l l' := true
  |}; done.
Defined.

(** ** Message calls return *)

Section Total.
Context `{ThetaTypes} `{TrieHash} `{TxTypes} `{VmLib} `{VmParams} `{VmCrypto}.

Lemma to_bytes_small s : Z.of_nat (String.length s) < 2 ^ 62 -> lenZ (to_bytes s) < 2 ^ 62.
Proof.
  intros Hs. assert (Hlen : length (to_bytes s) = String.length s); [|unfold lenZ; lia].
  clear Hs. unfold to_bytes. induction s as [|a s IH]; [done|]. cbn. by rewrite IH.
Qed.

Lemma NewEVM_ok view : good view -> machine_ok (NewEVM view).
Proof. intros Hg. split; [done|]. split; [apply map_Forall_empty|done]. Qed.

Lemma top_loop gas : 0 <= gas < gas_limit -> loop_total (Z.min (gas + 1) gas_limit) (loop (gas_fuel gas)).
Proof.
  intros Hg. pose proof (loop_returns (gas_fuel gas)) as Hl. unfold gas_fuel in *.
  by replace (Z.of_nat (S (Z.to_nat gas))) with (gas + 1) in Hl by lia.
Qed.

(** The context of a transaction: nonnegative gas price and chain id. *)
Definition context_ok (c : EvmContext) : Prop := 0 <= EvmGasPrice c /\ 0 <= MapChainID (EvmChainID c).

Lemma Execute_Call_total c caller addr input gas value view : context_ok c -> good view ->
  0 <= gas < gas_limit -> 0 <= value -> Z.of_nat (String.length input) < 2 ^ 62 ->
  exists ret left err view', Execute_Call c caller addr input gas value view = Ok (ret, left, err, view') /\
    good view' /\ 0 <= left <= gas.
Proof.
  intros Hc Hg Hgas Hv Hl. assert (Hu : is_u64 gas) by (unfold gas_limit in *; split; unfold two64; lia).
  destruct (Call_returns (Z.min (gas + 1) gas_limit) (loop (gas_fuel gas)) (top_env c) ltac:(lia) (loop_frames _)
    (top_loop gas Hgas) Hc (AccountRef caller) addr (to_bytes input) gas value (NewEVM view)) as (r & Hr & Hm);
    [by apply NewEVM_ok|by apply to_bytes_small|done|lia|done|].
  unfold Execute_Call. rewrite Hr. eexists _, _, _, _. split; [reflexivity|]. split; [apply Hm|].
  eapply Call_spec in Hr as [[_ ?] _]; [done|apply loop_frames|done].
Qed.

Lemma Execute_Create_total c caller code gas value view : context_ok c -> good view ->
  0 <= gas < gas_limit -> 0 <= value -> Z.of_nat (String.length code) < 2 ^ 62 ->
  exists ret addr left err view', Execute_Create c caller code gas value view = Ok (ret, addr, left, err, view') /\
    good view' /\ 0 <= left <= gas.
Proof.
  intros Hc Hg Hgas Hv Hl. assert (Hu : is_u64 gas) by (unfold gas_limit in *; split; unfold two64; lia).
  unfold Execute_Create, Create. cbv zeta.
  edestruct (create_returns (Z.min (gas + 1) gas_limit) (loop (gas_fuel gas)) (top_env c) ltac:(lia) (loop_frames _)
    (top_loop gas Hgas) Hc (AccountRef caller) (to_bytes code) 0 gas value) as (r & Hr & Hm);
    [by apply NewEVM_ok|by apply to_bytes_small|by left|done|lia|done|].
  rewrite Hr. eexists _, _, _, _, _. split; [reflexivity|]. split; [apply Hm|].
  eapply create_spec in Hr as [_ ?]; [done|apply loop_frames|done].
Qed.

(** What the sanity check of a contract transaction establishes. *)
Lemma contract_check_ok view ctx tx : contract_sanityCheck view ctx tx = Ok tt ->
  0 <= TFuelWei (InCoins (From tx)) /\ 0 <= GasPrice tx.
Proof.
  intros Hs. unfold contract_sanityCheck in Hs. cbv zeta in Hs. apply check_bind in Hs as [_ Hs].
  bind_ok Hs as u Hu. bind_ok Hs as acc Hacc. do 2 apply check_bind in Hs as [_ Hs]. apply check_bind in Hs as [Hnn Hs].
  bind_ok Hs as price Hprice. apply check_bind in Hs as [Hp _]. apply IsNonnegative_spec in Hnn. split; [apply Hnn|].
  unfold sanityCheckForGasPrice in Hprice. bind_ok Hprice as w Hw. destruct (_ && _) eqn:Hz.
  - apply andb_true_iff in Hz as [_ Hz]. bool_to_prop. lia.
  - injection Hprice as <-. bool_to_prop. unfold GetMinimumGasPrice, MinimumGasPrice in *. lia.
Qed.

(** The execution of a contract transaction. *)
Lemma Execute_total info tx view : good view -> 0 <= TFuelWei (InCoins (From tx)) -> 0 <= GasPrice tx ->
  0 <= MapChainID (BIChainID info) -> is_u64 (GasLimit tx) -> (forall h, GetMaxGasLimit h < gas_limit) ->
  is_u64 TxGas -> is_u64 TxGasContractCreation -> Z.of_nat (String.length (Data tx)) < 2 ^ 62 ->
  exists ret addr gasUsed err view', @Execute _ _ _ subchain_evm info tx view = Ok (ret, addr, gasUsed, err, view') /\ good view'.
Proof.
  intros Hg Hv Hp Hc Hu Hmax Hb1 Hb2 Hl. unfold Execute. cbv zeta.
  destruct (Z.ltb_spec (GetMaxGasLimit (GetBlockHeight view)) (GasLimit tx)) as [|Hle]; [by eexists _, _, _, _, _|].
  assert (Hlu : is_u64 (Z.of_nat (String.length (Data tx)))) by (split; unfold two64; lia).
  destruct (CalculateIntrinsicGas _ _) as [ig|] eqn:Hig; [|by eexists _, _, _, _, _].
  destruct (Z.ltb_spec (GasLimit tx) ig) as [|Hge]; [by eexists _, _, _, _, _|].
  assert (Hpos : 0 <= ig).
  { rewrite intrinsic_gas in Hig by done. destruct (_ <? _); [|done]. injection Hig as <-.
    pose proof (nonzero_bytes_le (Data tx)). destruct data_gas_pos. unfold is_u64 in *. destruct (Z.eqb _ 0); nia. }
  specialize (Hmax (GetBlockHeight view)). rewrite u64_sub_small by (unfold is_u64 in *; lia).
  destruct (Z.eqb _ 0).
  - edestruct (Execute_Create_total (mkEvmContext (InAddress (From tx)) (GasPrice tx) (GasLimit tx) (u64_add (BIHeight info) 1)
      (BITimestamp info) (BIChainID info)) (InAddress (From tx)) (Data tx) (GasLimit tx - ig) (TFuelWei (InCoins (From tx))) view)
      as (ret & addr & left & err & v' & Hr & Hg' & _); [done|done|lia|done|done|].
    cbn [exec_Create subchain_evm]. rewrite Hr. by eexists _, _, _, _, _.
  - edestruct (Execute_Call_total (mkEvmContext (InAddress (From tx)) (GasPrice tx) (GasLimit tx) (u64_add (BIHeight info) 1)
      (BITimestamp info) (BIChainID info)) (InAddress (From tx)) (OutAddress (To tx)) (Data tx) (GasLimit tx - ig)
      (TFuelWei (InCoins (From tx))) view) as (ret & left & err & v' & Hr & Hg' & _); [done|done|lia|done|done|].
    cbn [exec_Call subchain_evm]. rewrite Hr. by eexists _, _, _, _, _.
Qed.

Lemma good_scratch v r l b : good v -> good (with_scratch v r l b).
Proof. intros (Hi & Ht & Hr). split; [by apply extends_scratch|]. by split. Qed.
End Total.

(** C8 (contracts terminate).  A contract transaction that passed its sanity
    check is processed to a result: the virtual machine, called with one unit
    of fuel more than its gas, neither runs out of fuel nor panics, whatever
    the code does, and leaves a state in order. *)
Theorem contract_total `{ThetaTypes} `{TrieHash} `{TxTypes} `{VmLib} `{VmParams} `{VmCrypto} view ctx sel tx :
  good view -> contract_sanityCheck view ctx tx = Ok tt -> is_u64 (GasLimit tx) ->
  (forall h, GetMaxGasLimit h < gas_limit) -> is_u64 TxGas -> is_u64 TxGasContractCreation ->
  Z.of_nat (String.length (Data tx)) < 2 ^ 62 -> 0 <= MapChainID (parentChainID ctx) ->
  exists p, @contract_process _ _ _ subchain_evm view ctx sel tx = Ok p /\ good (PView p).
Proof.
  intros Hg Hs Hu Hmax Hb1 Hb2 Hl Hc. apply contract_check_ok in Hs as [Hv Hp]. unfold contract_process. cbv zeta.
  destruct (Execute_total (mkBlockInfo (parentHeight ctx) (parentTimestamp ctx) (parentChainID ctx)) tx
    (ResetBalanceChanges (ResetLogs view))) as (ret & addr & used & err & v1 & Hr & Hg1); [by do 2 apply good_scratch|done..|].
  rewrite Hr. cbn [mbind outcome_bind]. destruct (getInput v1 (From tx)) as [acc|msg|msg] eqn:Hin; [|by eexists|by apply getInput_panic in Hin].
  apply getInput_ok in Hin as [_ ->]. unfold chargeFee. destruct (IsGTE _ _) eqn:Hge; cbn [negb]; [|by eexists].
  apply IsGTE_spec in Hge. pose proof Hg1 as (Hi1 & Ht1 & Hs1 & Hbank).
  destruct (loaded_spec v1 (InAddress (From tx)) Hi1) as (_ & Hbal & _ & Hroot). rewrite Hbal in Hge |- *.
  set (acc := if Z.eqb _ 0 then _ else _).
  assert (Hracc : root_known (storages v1) (AccRoot acc)) by (unfold acc; by destruct (Z.eqb _ 0)).
  destruct (SetAccount_tree v1 (InAddress (From tx)) acc Hi1 Hracc) as (v2 & Hset & Htree).
  assert (Hi2 : view_inv v2) by (destruct (SetAccount_spec v1 (InAddress (From tx)) acc Hi1 Hracc) as (v2' & Hset' & [Hi2 _] & _); congruence).
  rewrite Hset. cbn [mbind outcome_bind PopLogs PopBalanceChanges].
  assert (Hg2 : good v2).
  { split; [done|]. rewrite Htree. split; [|done]. apply tree_ok_put; [done|].
    assert (Hcoins : AccBalance acc = Minus (coins_of v1 (InAddress (From tx))) (mkCoins 0 (GasPrice tx * used))) by (unfold acc; by destruct (Z.eqb _ 0)).
    rewrite Hcoins, Minus_spec. destruct Hge. split; cbn in *; lia. }
  destruct err; (eexists; split; [reflexivity|]); by do 2 apply good_scratch.
Qed.

(** ** A state with contracts *)

(** JUMPDEST; PUSH1 0; JUMP: a code that never stops by itself. *)
Definition spin_code : Bytes := of_bytes (byte_of <$> [0x5b; 0x60; 0x00; 0x56]).
(** PUSH1 7; PUSH1 0; SSTORE; PUSH1 0; DUP1; REVERT. *)
Definition revert_code : Bytes := of_bytes (byte_of <$> [0x60; 0x07; 0x60; 0x00; 0x55; 0x60; 0x00; 0x80; 0xfd]).

Definition vm_account (a : Address) (n : Z) (code : Bytes) : Account := mkAccount a 3 (mkCoins 0 n) 0 0 (code_hash code).
Definition vm_view : StoreView :=
  mkStoreView 5
    (mkTree {[1 := demo_account 1 (10 ^ 15); 20 := vm_account 20 50 spin_code; 21 := vm_account 21 60 revert_code]}
       {[code_hash spin_code := spin_code; code_hash revert_code := revert_code]}
       (Some demo_set) ∅ None (Some 11) (Some 12) (Some 13) (Some 14)) ∅ ∅ false false 0 [] [].

Lemma vm_view_good : good vm_view.
Proof.
  split; [|split; [|by split; eexists]].
  - split_and!; [apply map_Forall_empty..|]. unfold tree_known. cbn.
    do 2 (apply map_Forall_insert_2; [by left|]). apply map_Forall_singleton. by left.
  - split; cbn [vm_view tree accounts codes].
    + do 2 (apply map_Forall_insert_2; [done|]). by apply map_Forall_singleton.
    + apply map_Forall_insert_2; [done|]. by apply map_Forall_singleton.
Qed.

Definition vm_context : EvmContext := mkEvmContext 1 100000000 22000 6 1000 "tsub".
Definition vm_env : Env := top_env vm_context.

(** A transaction that calls the endless code. *)
Definition spin_call : SmartContractTx :=
  mkSmartContractTx (mkTxInput 1 (mkCoins 0 0) 4 "signed") (mkTxOutput 20 (mkCoins 0 0)) 22000 100000000 "".

Lemma contract_total_witness :
  exists p, @contract_process _ _ _ subchain_evm vm_view demo_ctx DeliveredView spin_call = Ok p /\ good (PView p).
Proof.
  apply contract_total; [exact vm_view_good|reflexivity|done|done|done|done|done|done].
Defined.

(** C9 (message calls). A message call spends at most its gas.  If it ends
    with an error, the state tree is the one before the call, and its gas is
    used up unless the call was refused or the callee reverted. *)
Theorem call_reverts `{ThetaTypes} `{TrieHash} `{TxTypes} `{VmLib} `{VmParams} `{VmCrypto}
    fuel env caller addr input gas value m : is_u64 gas -> view_inv (StateDB m) ->
  let undone (r : CallResult) := 0 <= cr_gas r <= gas /\
    (cr_err r <> None -> tree (StateDB (cr_machine r)) = tree (StateDB m) /\
       (cr_gas r = 0 \/ cr_gas r = gas \/ cr_err r = Some errExecutionReverted)) in
  (forall r, Call (loop fuel) env caller addr input gas value m = Ok r -> undone r) /\
  (forall r, CallCode (loop fuel) env caller addr input gas value m = Ok r -> undone r) /\
  (forall r, DelegateCall (loop fuel) env caller addr input gas m = Ok r -> undone r) /\
  (forall r, StaticCall (loop fuel) env caller addr input gas m = Ok r -> undone r).
Proof.
  intros Hu Hi undone.
  assert (Hspec : forall r, call_frame m gas r /\ call_undone m gas r -> undone r).
  { intros r [[_ Hg] Hr]. split; [done|]. intros He. destruct (Hr He) as [Ht Hz]. split; [by apply Ht|done]. }
  split_and!; intros r Hr; apply Hspec.
  - exact (Call_spec _ (loop_frames fuel) _ _ _ _ _ _ _ _ Hu Hr).
  - exact (CallCode_spec _ (loop_frames fuel) _ _ _ _ _ _ _ _ Hu Hr).
  - exact (DelegateCall_spec _ (loop_frames fuel) _ _ _ _ _ _ _ Hu Hr).
  - exact (StaticCall_spec _ (loop_frames fuel) _ _ _ _ _ _ _ Hu Hr).
Qed.

(** An outcome that was computed. *)
Lemma outcome_ok {A} (P : A -> bool) (o : outcome A) :
  match o with Ok r => P r | _ => false end = true -> exists r, o = Ok r /\ P r = true.
Proof. destruct o; [eauto|done|done]. Qed.
Definition has_error (e : VMError) (r : CallResult) : bool := bool_decide (cr_err r = Some e).

Lemma call_reverts_witness :
  exists r, Call (loop 50) vm_env (AccountRef 1) 21 [] 30000 5 (NewEVM vm_view) = Ok r /\
    cr_err r = Some errExecutionReverted /\ tree (StateDB (cr_machine r)) = tree vm_view /\ 0 <= cr_gas r <= 30000.
Proof.
  assert (Hu : is_u64 30000) by done.
  destruct (call_reverts 50 vm_env (AccountRef 1) 21 [] 30000 5 (NewEVM vm_view) Hu (proj1 vm_view_good)) as [Hc _].
  destruct (outcome_ok (has_error errExecutionReverted) (Call (loop 50) vm_env (AccountRef 1) 21 [] 30000 5 (NewEVM vm_view)))
    as (r & Hr & He); [vm_compute; reflexivity|]. apply bool_decide_eq_true in He.
  exists r. split; [exact Hr|]. split; [exact He|]. destruct (Hc r Hr) as [Hg Hundo]. split; [|exact Hg].
  apply Hundo. rewrite He. discriminate.
Defined.

(** C33 (typed interpreter). With a fuel that covers its gas, an iteration of the
    interpreter from a typed state does not panic, stays typed with a stack
    within its limit, and uses gas unless it ends the execution. *)
Theorem interpreter_typed `{ThetaTypes} `{TrieHash} `{TxTypes} `{VmLib} `{VmParams} `{VmCrypto} fuel env s :
  env_ok env -> exec_inv s -> Gas (contract s) <= Z.of_nat fuel -> Gas (contract s) < gas_limit ->
  exists r, step env (calls_of (loop fuel) env) s = Ok r /\
    match r with
    | Continue s' => exec_inv s' /\ lenZ (stack s') <= StackLimit /\ 0 <= Gas (contract s') < Gas (contract s) /\
        frozen (contract s') = frozen (contract s)
    | Stop _ _ s' => machine_ok (machine s') /\ 0 <= Gas (contract s') <= Gas (contract s)
    end.
Proof.
  intros Henv Hi Hf Hg. assert (Hcalls : calls_total (Gas (contract s)) (calls_of (loop fuel) env)).
  { apply calls_of_total; [lia|apply loop_frames| |done]. intros env' s' He' Hi' Hg'. apply (loop_returns fuel); [done|done|lia]. }
  destruct (step_total env _ s Henv Hcalls Hi) as (r & Hr & Hok). exists r. split; [done|].
  apply step_frame in Hr; [|apply calls_of_frame, loop_frames|by apply exec_gas_u64].
  destruct r as [s'|ret err s']; destruct Hr as [[_ Hz] Hgas]; [|done]. by destruct Hok.
Qed.

Definition spin_contract : Contract := call_code vm_view (NewContract (AccountRef 1) 20 0 1000) 20.
Definition spin_start : ExecState := mkExec (NewEVM vm_view) (with_input spin_contract []) 0 NewMemory [].

Lemma spin_typed : exec_inv spin_start.
Proof.
  split; [exact (NewEVM_ok _ vm_view_good)|]. split; [|done]. exact (call_code_ok vm_view (NewContract (AccountRef 1) 20 0 1000) 20 vm_view_good
    eq_refl eq_refl ltac:(done) ltac:(done)).
Qed.

Lemma interpreter_typed_witness :
  exists r, step vm_env (calls_of (loop (gas_fuel 1000)) vm_env) spin_start = Ok r /\
    match r with Continue s' => Gas (contract s') < 1000 | Stop _ _ _ => False end.
Proof.
  destruct (interpreter_typed (gas_fuel 1000) vm_env spin_start) as (r & Hr & Hok); [done|exact spin_typed|done|done|].
  exists r. split; [exact Hr|]. destruct r as [s'|ret err s']; [apply Hok|]. vm_compute in Hr. discriminate.
Defined.

(** C35 (jump destinations). The bit-vector analysis, cached by code hash or in
    the contract, accepts exactly the destinations that a walk over the
    instructions from the start of the code visits and where a JUMPDEST
    stands; it never panics, and the caches stay in order. *)
Theorem jump_analysis `{TrieHash} jd c dest : cache_ok jd -> code_known c -> lenZ (Code c) < 2 ^ 62 -> 0 <= dest ->
  exists ok jd' c', validJumpdest jd c dest = Ok (ok, jd', c') /\ cache_ok jd' /\ code_known c' /\
    (ok = true <-> dest < lenZ (Code c) /\ (byte_val <$> Code c !! Z.to_nat dest) = Some JUMPDEST /\
       exists n, Nat.iter n (next_pc (Code c)) 0 = dest).
Proof.
  intros Hj Hk Hl Hd. destruct (validJumpdest_ok jd c dest Hj Hk Hl Hd) as (ok & jd' & c' & Hv & Hok & Hj' & Hk' & _).
  exists ok, jd', c'. split; [done|]. split; [done|]. split; [done|]. rewrite Hok. unfold jump_target, instruction_at, nth_pc.
  split; [by intros [[_ ?] ?]|]. intros (? & ?). split; [lia|done].
Qed.

(** PUSH1 0x5b; JUMPDEST: the byte at 1 is data, the one at 2 a destination. *)
Definition jump_contract : Contract :=
  SetCallCode (NewContract (AccountRef 1) 20 0 1000) None 0 (byte_of <$> [0x60; 0x5b; 0x5b]).
Lemma jump_analysis_witness : exists jd c, validJumpdest ∅ jump_contract 1 = Ok (false, jd, c).
Proof.
  destruct (jump_analysis ∅ jump_contract 1) as (ok & jd & c & Hv & _ & _ & Hok);
    [apply map_Forall_empty|by split; [left|]|done|done|].
  exists jd, c. rewrite Hv. destruct ok; [|reflexivity]. exfalso. vm_compute in Hv. discriminate.
Defined.

(** C34 (write protection). A static call, at any depth and whatever code runs,
    leaves every nonce, code, storage slot and Theta balance, the logs and the
    refund as they were; only TFuel balances may move. *)
Theorem static_protection `{ThetaTypes} `{TrieHash} `{TxTypes} `{VmLib} `{VmParams} `{VmCrypto}
    fuel env caller addr input gas m r : view_inv (StateDB m) ->
  StaticCall (loop fuel) env caller addr input gas m = Ok r ->
  let v := StateDB m in
  let v' := StateDB (cr_machine r) in
  (forall a, GetNonce v' a = GetNonce v a /\ GetCode v' a = GetCode v a /\
     (forall k, GetState v' a k = GetState v a k) /\ ThetaWei (coins_of v' a) = ThetaWei (coins_of v a)) /\
  logs v' = logs v /\ refund v' = refund v.
Proof.
  intros Hi Hr. apply StaticCall_stays in Hr as [_ Hs]; [|apply loops_static]. by apply static_readers, Hs.
Qed.

Lemma static_protection_witness :
  exists r, StaticCall (loop 50) vm_env (AccountRef 1) 21 [] 30000 (NewEVM vm_view) = Ok r /\
    cr_err r = Some errWriteProtection /\ GetNonce (StateDB (cr_machine r)) 21 = 3.
Proof.
  destruct (outcome_ok (has_error errWriteProtection) (StaticCall (loop 50) vm_env (AccountRef 1) 21 [] 30000 (NewEVM vm_view)))
    as (r & Hr & He); [vm_compute; reflexivity|]. apply bool_decide_eq_true in He.
  exists r. split; [exact Hr|]. split; [exact He|].
  destruct (static_protection 50 vm_env (AccountRef 1) 21 [] 30000 (NewEVM vm_view) r (proj1 vm_view_good) Hr) as [Ha _].
  destruct (Ha 21) as [Hn _]. rewrite Hn. reflexivity.
Defined.

(** ** The contract that burns TFuel *)

Section Burn.
Context `{ThetaTypes} `{TrieHash} `{TxTypes} `{VmLib} `{VmParams} `{VmCrypto}.

Lemma byte_of_val z : 0 <= z < 256 -> byte_val (byte_of z) = z.
Proof.
  intros Hz. unfold byte_val, byte_of. rewrite Z.mod_small by done. rewrite N_ascii_embedding by lia. lia.
Qed.

Lemma SetBytes_array n x : 0 <= x < 256 ^ Z.of_nat n -> SetBytes (array n x) = x.
Proof.
  intros Hx. unfold SetBytes, array. rewrite <- list_fmap_compose.
  assert (Hid : (byte_val ∘ byte_of) <$> be_bytes n x = be_bytes n x).
  { pose proof (be_bytes_byte n x) as Hb. induction Hb as [|b l Hb1 _ IH]; [done|]. cbn. rewrite IH. f_equal. by apply byte_of_val. }
  rewrite Hid, be_value_bytes. by apply Z.mod_small.
Qed.

Lemma data_int_word b : 0 <= b < 2 ^ 256 -> data_int (abi_word b) 0 32 = Ok b.
Proof.
  intros Hb. unfold data_int, abi_word. rewrite Z.mod_small by done.
  assert (Hl : lenZ (array 32 b) = 32) by (unfold lenZ; by rewrite array_length).
  unfold getData. rewrite Hl. cbn [Z.ltb Z.compare]. change (u64_add 0 32) with 32. cbn [Z.ltb Z.compare Pos.compare Pos.compare_cont].
  unfold slice. rewrite Hl. cbn [Z.leb Z.compare andb Pos.compare Pos.compare_cont]. rewrite drop_0, take_ge by (rewrite array_length; lia).
  cbn [mbind outcome_bind]. rewrite RightPadBytes_spec, array_length. cbn [Z.to_nat]. rewrite app_nil_r. cbn [mbind outcome_bind].
  by rewrite SetBytes_array.
Qed.

(** The balance after a subtraction. *)
Lemma SubBalance_read v a n v' : view_inv v -> 0 <= n <= GetBalance v a -> SubBalance v a n = Ok v' -> GetBalance v' a = GetBalance v a - n.
Proof.
  intros Hi Hn Hs. unfold SubBalance in Hs. destruct (Z.eqb_spec n 0) as [->|]; [injection Hs as <-; lia|].
  destruct (GetAccount v a) as [acc|] eqn:Ha; [|done]. bind_ok Hs as v1 Hv. injection Hs as <-.
  destruct (SetAccount_tree v a _ Hi (known_account v a acc Hi Ha : root_known _ (AccRoot (set_balance acc
    (mkCoins (ThetaWei (AccBalance acc)) (TFuelWei (AccBalance acc) - n)))))) as (v2 & Hv2 & Ht).
  rewrite Hv in Hv2. injection Hv2 as <-. unfold GetBalance, GetOrCreateAccount. rewrite Ha. unfold GetAccount. cbn.
  rewrite Ht. cbn. by rewrite lookup_insert_eq.
Qed.

(** A call of the contract from an account with enough TFuel. *)
Lemma burn_run view c b : good view -> is_u64 (Gas c) -> 200 <= Gas c -> 0 <= b < 2 ^ 256 -> b <= GetBalance view (CallerAddress c) ->
  exists view', RunPrecompiledContract view burnTFuel (abi_word b) c =
    Ok ([], None, with_gas c (Gas c - 200), view') /\ good view' /\
    GetBalance view' (CallerAddress c) = GetBalance view (CallerAddress c) - b.
Proof.
  intros Hg Hu Hgas Hb Hle. destruct (SubBalance_good view (CallerAddress c) b Hg) as (v' & Hv' & Hg'); [lia|].
  exists v'. split; [|split; [done|]; apply (SubBalance_read view _ b v'); [apply Hg|lia|done]].
  unfold RunPrecompiledContract. cbn [RequiredGas mbind outcome_bind]. unfold UseGas. destruct (Z.ltb_spec (Gas c) 200); [lia|].
  rewrite u64_sub_small by (unfold is_u64 in *; lia). cbn [precompile_Run]. unfold burnTFuel_Run. rewrite data_int_word by done.
  cbn [mbind outcome_bind]. destruct (Z.ltb_spec b 0); [lia|]. unfold CanTransfer. cbn [with_gas CallerAddress].
  destruct (Z.leb_spec b (GetBalance view (CallerAddress c))); [|lia]. cbn [negb]. by rewrite Hv'.
Qed.

Lemma run_burn f env c ro m b : CodeAddr c = Some 183 -> good (StateDB m) -> is_u64 (Gas c) -> 200 <= Gas c -> 0 <= b < 2 ^ 256 ->
  b <= GetBalance (StateDB m) (CallerAddress c) ->
  exists r, run f env c (abi_word b) ro m = Ok r /\ run_err r = None /\
    GetBalance (StateDB (run_machine r)) (CallerAddress c) = GetBalance (StateDB m) (CallerAddress c) - b.
Proof.
  intros Ha Hg Hu Hgas Hb Hle. destruct (burn_run (StateDB m) c b Hg Hu Hgas Hb Hle) as (v' & Hr & _ & Hbal).
  unfold run. rewrite Ha. cbn [mbind option_bind PrecompiledContracts]. rewrite Hr. eexists. split; [reflexivity|]. done.
Qed.
End Burn.

(** (burning through calls). The contract that burns TFuel takes it from the
    recorded caller of the running contract: a static call burns the balance
    of the contract that makes it, although nothing else can change, and a
    delegate call burns the balance of the caller of that contract. *)
Theorem burn_through_calls `{ThetaTypes} `{TrieHash} `{TxTypes} `{VmLib} `{VmParams} `{VmCrypto}
    f env a parent v gas b m : good (StateDB m) -> is_u64 gas -> 200 <= gas -> 0 <= b < 2 ^ 256 ->
  NoRecursion env = false -> depth env <= CallCreateDepth ->
  (b <= GetBalance (StateDB m) a -> exists r,
     StaticCall f env (ContractOf a parent v) 183 (abi_word b) gas m = Ok r /\ cr_err r = None /\
     GetBalance (StateDB (cr_machine r)) a = GetBalance (StateDB m) a - b) /\
  (b <= GetBalance (StateDB m) parent -> exists r,
     DelegateCall f env (ContractOf a parent v) 183 (abi_word b) gas m = Ok r /\ cr_err r = None /\
     GetBalance (StateDB (cr_machine r)) parent = GetBalance (StateDB m) parent - b).
Proof.
  intros Hg Hu Hgas Hb Hn Hd. pose proof (snapshot_good (StateDB m) Hg) as Hs.
  split; intros Hle; unfold StaticCall, DelegateCall; rewrite Hn; (destruct (Z.ltb_spec CallCreateDepth (depth env)); [lia|]);
    cbn [andb]; rewrite take_snapshot_eq; cbv iota zeta; cbn [AsDelegate NewContract caller mbind outcome_bind];
    (match goal with |- context [run f env ?c _ ?ro ?m'] =>
       destruct (run_burn f env c ro m' b) as (r & Hr & He & Hbal); [done|exact Hs|done|done|done|exact Hle|] end);
    rewrite Hr; cbn [mbind outcome_bind]; unfold call_result; rewrite He; (eexists; split; [reflexivity|]; split; [done|]);
    exact Hbal.
Qed.

Lemma burn_through_calls_witness :
  exists r, DelegateCall (loop 0) vm_env (ContractOf 20 1 0) 183 (abi_word 1000) 5000 (NewEVM vm_view) = Ok r /\
    GetBalance (StateDB (cr_machine r)) 1 = 10 ^ 15 - 1000.
Proof.
  destruct (burn_through_calls (loop 0) vm_env 20 1 0 5000 1000 (NewEVM vm_view)) as [_ Hd];
    [exact vm_view_good|done|done|done|done|done|].
  destruct Hd as (r & Hr & _ & Hb); [vm_compute; discriminate|]. exists r. split; [exact Hr|]. rewrite Hb. reflexivity.
Defined.

(** ** Memory and storage prices *)

(** (memory price). Below 2^32 words the price of a memory of [w] words is
    the linear term plus the quadratic term, without overflow, and the fee is
    its difference with the price paid so far; at 2^32 words, still below the
    bound the code checks, the 64-bit square wraps to zero and the quadratic
    term disappears. *)
Theorem memory_price `{VmParams} size s : 0 < size <= 0xffffffffe0 -> lenZ (store (memory s)) < 32 * ((size + 31) / 32) ->
  0 <= MemoryGas < 2 ^ 24 -> 2 <= QuadCoeffDiv -> 0 <= lastGasCost (memory s) ->
  let w := (size + 31) / 32 in
  let price := w * MemoryGas + (if decide (w < 2 ^ 32) then w * w / QuadCoeffDiv
                               else (w * w mod 2 ^ 64) / QuadCoeffDiv) in
  lastGasCost (memory s) <= price ->
  memoryGasCost size s = Ok (inr (price - lastGasCost (memory s)), set_memory (mkMemory (store (memory s)) price) s) /\
  (size = 2 ^ 37 -> price = 2 ^ 32 * MemoryGas).
Proof.
  intros Hs Hlen Hmg Hq Hlast w price Hprice.
  assert (Hw : 0 < w <= 2 ^ 35) by (subst w; pose proof (Z.div_mod (size + 31) 32); pose proof (Z.mod_pos_bound (size + 31) 32); lia).
  assert (Hquad : u64_mul w w / QuadCoeffDiv = if decide (w < 2 ^ 32) then w * w / QuadCoeffDiv else (w * w mod 2 ^ 64) / QuadCoeffDiv).
  { unfold u64_mul, wrap64, two64. case_decide; [|done]. f_equal. apply Z.mod_small. nia. }
  assert (Hqr : 0 <= u64_mul w w / QuadCoeffDiv < 2 ^ 63).
  { pose proof (wrap64_range (w * w)) as [? ?]. unfold u64_mul. split; [apply Z.div_pos; lia|].
    apply Z.div_lt_upper_bound; [lia|]. unfold two64 in *. nia. }
  assert (Hlin : 0 <= w * MemoryGas < 2 ^ 60) by nia.
  assert (Hp : price = w * MemoryGas + u64_mul w w / QuadCoeffDiv) by (subst price; by rewrite Hquad).
  split.
  2:{ intros Hsz. assert (Hw32 : w = 2 ^ 32) by (subst w; by rewrite Hsz).
      rewrite Hp, Hw32. change (u64_mul (2 ^ 32) (2 ^ 32)) with 0. rewrite Z.div_0_l; lia. }
  assert (Htw : toWordSize size = w).
  { unfold toWordSize. destruct (Z.ltb_spec (18446744073709551615 - 31) size); [lia|]. by rewrite u64_add_small by (split; unfold two64; lia). }
  unfold memoryGasCost. destruct (Z.eqb_spec size 0); [lia|]. destruct (Z.ltb_spec 0xffffffffe0 size); [lia|]. rewrite Htw. cbv zeta.
  unfold mbind, X_bind, get. unfold memory_Len. rewrite (u64_mul_small w 32) by (split; unfold two64; lia).
  destruct (Z.ltb_spec (lenZ (store (memory s))) (w * 32)); [|lia].
  rewrite (u64_mul_small w MemoryGas) by (split; unfold two64; lia). rewrite u64_add_small by (split; unfold two64; lia).
  rewrite <- Hp, u64_sub_small by (split; unfold two64; lia). done.
Qed.

Lemma memory_price_witness :
  memoryGasCost (2 ^ 37) spin_start =
    Ok (inr (2 ^ 32 * 3), set_memory (mkMemory [] (2 ^ 32 * 3)) spin_start).
Proof. destruct (memory_price (2 ^ 37) spin_start) as [Hc _]; [done..|]. exact Hc. Defined.

(** (storage price). A write to storage costs the price of a no-op when the
    value stays, of a new slot when the slot was zero, and of a clean slot
    otherwise, with a refund when a slot is cleared: the committed value is
    the current one, so the price of a dirty slot is never used. *)
Theorem sstore_price `{ThetaTypes} `{TrieHash} `{VmLib} `{VmParams} size s key val st current :
  stack s = key :: val :: st -> GetState (StateDB (machine s)) (self (contract s)) (BigToHash key) = Ok current ->
  gasSStore size s =
    let new := BigToHash val in
    if Z.eqb current new then Ok (inr NetSstoreNoopGas, s)
    else if Z.eqb current 0 then Ok (inr NetSstoreInitGas, s)
    else Ok (inr NetSstoreCleanGas,
             if Z.eqb new 0 then set_machine (with_db (machine s) (AddRefund (StateDB (machine s)) NetSstoreClearRefund)) s else s).
Proof.
  intros Hst Hs. assert (Hval : back 1 s = Ok (inr val, s)) by (unfold back, run_outcome, Back; by rewrite Hst).
  assert (Hkey : back 0 s = Ok (inr key, s)) by (unfold back, run_outcome, Back; by rewrite Hst).
  unfold gasSStore, GetCommittedState. rewrite (X_bind_run _ _ _ _ _ Hval), (X_bind_run _ _ _ _ _ Hkey).
  rewrite (X_bind_run self_address _ s (self (contract s)) s eq_refl). cbv zeta.
  assert (Hget' : run_outcome (fun s' => GetState (StateDB (machine s')) (self (contract s)) (BigToHash key)) s = Ok (inr current, s))
    by (unfold run_outcome; by rewrite Hs).
  rewrite (X_bind_run _ _ _ _ _ Hget'). destruct (Z.eqb current _); [done|]. rewrite (X_bind_run _ _ _ _ _ Hget'), Z.eqb_refl.
  destruct (Z.eqb current 0); [done|]. by destruct (Z.eqb (BigToHash val) 0).
Qed.

Lemma sstore_price_witness :
  gasSStore 0 (set_stack [0; 7] spin_start) = Ok (inr 20000, set_stack [0; 7] spin_start).
Proof. rewrite (sstore_price 0 _ 0 7 [] 0); reflexivity. Defined.
