(* ===== verification/Heap.v ===== *)
(** * Go's [container/heap]

    The binary heap of the Go standard library that the request manager of
    src/netsync/request.go keeps its block headers in: [up], [down], [Push] and
    [Pop] on a slice, for a comparison that may look at the positions as well
    as at the elements.  When the comparison is that of a key, [Push] and [Pop]
    keep the heap order, [Pop] returns an element of least key, and no element
    is lost or duplicated. *)

From stdpp Require Import base list numbers.
From S2P Require Import Prelude.
Local Open Scope list_scope.

Section Operations.
Context {A : Type} (less : nat -> A -> nat -> A -> bool).
Implicit Types (l : list A).

(** [h.Less(i, j)] and [h.Swap(i, j)] on the slice. *)
Definition heap_less l (i j : nat) : bool :=
  match l !! i, l !! j with Some x, Some y => less i x j y | _, _ => false end.

Definition heap_swap l (i j : nat) : list A :=
  match l !! i, l !! j with Some x, Some y => <[i := y]> (<[j := x]> l) | _, _ => l end.

(** Each round of [up] at least halves [j], each round of [down] increases
    [i]. *)
Fixpoint up (fuel : nat) l (j : nat) : list A :=
  match fuel with
  | O => l
  | S fuel' =>
      let i := ((j - 1) / 2)%nat in
      if Nat.eqb i j || negb (heap_less l j i) then l else up fuel' (heap_swap l i j) i
  end.

Fixpoint down (fuel : nat) l (i n : nat) : list A :=
  match fuel with
  | O => l
  | S fuel' =>
      let j1 := (2 * i + 1)%nat in
      if (n <=? j1)%nat then l
      else
        let j := if (S j1 <? n)%nat && heap_less l (S j1) j1 then S j1 else j1 in
        if negb (heap_less l j i) then l else down fuel' (heap_swap l i j) j n
  end.

Definition heap_Push l (x : A) : list A := up (S (length l)) (l ++ [x]) (length l).

(** [heap.Pop]; on an empty slice it panics with an index out of range. *)
Definition heap_Pop l : option (A * list A) :=
  match length l with
  | O => None
  | S n => let l' := down (S n) (heap_swap l 0 n) 0 n in
           x ← l' !! n; Some (x, take n l')
  end.

End Operations.

(** ** The elements of the heap *)

Section Elements.
Context {A : Type}.
Implicit Types (l : list A).

Lemma heap_swap_length l i j : length (heap_swap l i j) = length l.
Proof. unfold heap_swap. repeat case_match; by rewrite ?length_insert. Qed.

Lemma heap_swap_perm l i j : heap_swap l i j ≡ₚ l.
Proof.
  unfold heap_swap. destruct (l !! i) as [x|] eqn:Hi; [|done].
  destruct (l !! j) as [y|] eqn:Hj; [|done].
  destruct (decide (i = j)) as [->|Hne].
  { simplify_eq. by rewrite list_insert_insert_eq, list_insert_id. }
  apply Permutation_inj. split; [by rewrite !length_insert|].
  exists (fun k => if decide (k = i) then j else if decide (k = j) then i else k). split.
  - intros a b. repeat case_decide; naive_solver.
  - assert (i < length l /\ j < length l)%nat as [? ?] by (split; by eapply lookup_lt_Some).
    intros k. destruct (decide (k = i)) as [->|]; [|destruct (decide (k = j)) as [->|]].
    + rewrite list_lookup_insert_eq by (rewrite length_insert; lia). by rewrite Hj.
    + rewrite list_lookup_insert_ne by done. rewrite list_lookup_insert_eq by lia. by rewrite Hi.
    + by rewrite !list_lookup_insert_ne.
Qed.

Context (less : nat -> A -> nat -> A -> bool).

Lemma up_perm fuel l j : up less fuel l j ≡ₚ l.
Proof.
  revert l j. induction fuel as [|fuel IH]; intros l j; cbn [up]; [done|].
  case_match; [done|]. by rewrite IH, heap_swap_perm.
Qed.

Lemma down_perm fuel l i n : down less fuel l i n ≡ₚ l.
Proof.
  revert l i. induction fuel as [|fuel IH]; intros l i; cbn [down]; [done|].
  repeat case_match; try done. all: by rewrite IH, heap_swap_perm.
Qed.

Lemma heap_Push_perm l x : heap_Push less l x ≡ₚ x :: l.
Proof. unfold heap_Push. by rewrite up_perm, Permutation_app_comm. Qed.

Lemma heap_Pop_perm l x l' : heap_Pop less l = Some (x, l') -> x :: l' ≡ₚ l.
Proof.
  unfold heap_Pop. destruct (length l) as [|n] eqn:Hn; [done|].
  set (d := down less _ _ _ _). destruct (d !! n) as [y|] eqn:Hy; cbn; [|done]. intros [= <- <-].
  assert (Hd : d ≡ₚ l) by (unfold d; by rewrite down_perm, heap_swap_perm).
  assert (length d = S n) as Hlen by (by rewrite Hd).
  assert (d = take n d ++ [y]) as Heq.
  { rewrite <- (take_drop n d) at 1. by rewrite (drop_S d y n Hy), (drop_ge d (S n)) by lia. }
  transitivity (take n d ++ [y]); [apply Permutation_cons_append|]. by rewrite <- Heq.
Qed.

Lemma heap_Pop_some l : l <> [] -> is_Some (heap_Pop less l).
Proof.
  intros Hl. unfold heap_Pop. destruct (length l) as [|n] eqn:Hn; [by destruct l|].
  set (d := down less _ _ _ _).
  assert (length d = length l) as Hd.
  { apply Permutation_length. unfold d. by rewrite down_perm, heap_swap_perm. }
  destruct (lookup_lt_is_Some_2 d n) as [y ->]; [lia|]. cbn. eauto.
Qed.
End Elements.

(** ** The heap order *)

Section Order.
Context {A : Type} (less : nat -> A -> nat -> A -> bool) (key : A -> Z).
Implicit Types (l : list A).

(** The comparison is that of the keys, on the elements of the list. *)
Definition keyed_less l : Prop :=
  forall i x j y, x ∈ l -> y ∈ l -> less i x j y = Z.ltb (key x) (key y).

(** The first [n] elements are in heap order, except that the element at
    [hole] may be below its parent (for [up]) or above its children (for
    [down]). *)
Definition ordered_at l (i j : nat) : Prop :=
  forall x y, l !! i = Some x -> l !! j = Some y -> (key x <= key y)%Z.

Definition is_heap (n : nat) l : Prop :=
  forall j, (0 < j < n)%nat -> ordered_at l ((j - 1) / 2) j.

Definition up_heap (hole : nat) l : Prop :=
  (forall j, (0 < j < length l)%nat -> j <> hole -> ordered_at l ((j - 1) / 2) j) /\
  (forall j, (0 < j < length l)%nat -> ((j - 1) / 2 = hole)%nat -> (0 < hole)%nat ->
     ordered_at l ((hole - 1) / 2) j).

Definition down_heap (n hole : nat) l : Prop :=
  (forall j, (0 < j < n)%nat -> ((j - 1) / 2 <> hole)%nat -> ordered_at l ((j - 1) / 2) j) /\
  (forall j, (0 < j < n)%nat -> ((j - 1) / 2 = hole)%nat -> (0 < hole)%nat ->
     ordered_at l ((hole - 1) / 2) j).

Lemma keyed_less_perm l l' : l ≡ₚ l' -> keyed_less l -> keyed_less l'.
Proof. intros Hp Hl i x j y Hx Hy. apply Hl; by rewrite Hp. Qed.

Lemma heap_less_spec l i j x y :
  keyed_less l -> l !! i = Some x -> l !! j = Some y -> heap_less less l i j = Z.ltb (key x) (key y).
Proof.
  intros Hl Hi Hj. unfold heap_less. rewrite Hi, Hj. apply Hl; by eapply list_elem_of_lookup_2.
Qed.

Lemma heap_swap_lookup l i j x y k : l !! i = Some x -> l !! j = Some y ->
  heap_swap l i j !! k = if decide (k = i) then Some y else if decide (k = j) then Some x else l !! k.
Proof.
  intros Hi Hj. unfold heap_swap. rewrite Hi, Hj.
  assert (i < length l /\ j < length l)%nat as [? ?] by (split; by eapply lookup_lt_Some).
  destruct (decide (k = i)) as [->|].
  { apply list_lookup_insert_eq. rewrite length_insert. lia. }
  rewrite list_lookup_insert_ne by done. destruct (decide (k = j)) as [->|].
  - by apply list_lookup_insert_eq.
  - by apply list_lookup_insert_ne.
Qed.

Lemma parent_lt j : (0 < j -> (j - 1) / 2 < j)%nat.
Proof. intros Hj. apply Nat.Div0.div_lt_upper_bound. lia. Qed.

Lemma parent_children j i : (0 < j)%nat -> ((j - 1) / 2 = i)%nat -> (j = 2 * i + 1 \/ j = 2 * i + 2)%nat.
Proof.
  intros Hj <-. pose proof (Nat.div_mod_eq (j - 1) 2). pose proof (Nat.mod_upper_bound (j - 1) 2). lia.
Qed.
Lemma child_parent i : ((2 * i + 1 - 1) / 2 = i /\ (S (2 * i + 1) - 1) / 2 = i)%nat.
Proof.
  split.
  - replace (2 * i + 1 - 1)%nat with (i * 2)%nat by lia. by apply Nat.div_mul.
  - replace (S (2 * i + 1) - 1)%nat with (1 + i * 2)%nat by lia. by rewrite Nat.div_add.
Qed.

Lemma up_heap_swap l i j x y : j <> 0%nat -> i = ((j - 1) / 2)%nat ->
  l !! i = Some x -> l !! j = Some y -> (key y < key x)%Z ->
  up_heap j l -> up_heap i (heap_swap l i j).
Proof.
  intros Hj0 Hi Hx Hy Hlt [H1 H2]. pose proof (parent_lt j ltac:(lia)) as Hij.
  assert (j < length l)%nat as Hjl by (by eapply lookup_lt_Some).
  assert (Hsib : forall k z, (0 < k < length l)%nat -> k <> j -> ((k - 1) / 2 = i)%nat ->
            l !! k = Some z -> (key x <= key z)%Z).
  { intros k z Hk Hkj Hki Hz. apply (H1 k Hk Hkj x z); [by rewrite Hki|done]. }
  split; intros k; rewrite heap_swap_length; intros Hk.
  - intros Hki a b. pose proof (parent_lt k ltac:(lia)).
    rewrite !(heap_swap_lookup l i j x y _ Hx Hy).
    destruct (decide (k = i)) as [|_]; [done|]. destruct (decide (k = j)) as [->|Hkj].
    { rewrite decide_True by done. intros [= <-] [= <-]. lia. }
    destruct (decide ((k - 1) / 2 = i)%nat) as [Hp|Hp].
    { intros [= <-] Hb. pose proof (Hsib k b Hk Hkj Hp Hb). lia. }
    destruct (decide ((k - 1) / 2 = j)%nat) as [Hq|Hq].
    + intros [= <-] Hb. apply (H2 k Hk Hq ltac:(lia) x b); [by rewrite <- Hi|done].
    + intros Ha Hb. by apply (H1 k Hk Hkj).
  - intros Hki Hi0 a b. pose proof (parent_lt i Hi0).
    rewrite !(heap_swap_lookup l i j x y _ Hx Hy).
    rewrite (decide_False (P := ((i - 1) / 2)%nat = i)) by lia.
    rewrite (decide_False (P := ((i - 1) / 2)%nat = j)) by lia.
    intros Ha. assert (key a <= key x)%Z by (apply (H1 i ltac:(lia) ltac:(lia) a x); done).
    rewrite decide_False by (pose proof (parent_lt k ltac:(lia)); lia).
    destruct (decide (k = j)) as [->|Hkj]; [by intros [= <-]|].
    intros Hb. pose proof (Hsib k b Hk Hkj Hki Hb). lia.
Qed.

Lemma up_is_heap fuel l j : (j < fuel)%nat -> (j < length l)%nat ->
  keyed_less l -> up_heap j l -> is_heap (length l) (up less fuel l j).
Proof.
  revert l j. induction fuel as [|fuel IH]; intros l j Hf Hj Hl Hh; [lia|]. cbn [up].
  set (i := ((j - 1) / 2)%nat). destruct (Nat.eqb_spec i j) as [Heq|Hne]; cbn [orb].
  { intros k Hk. apply (proj1 Hh); [done|]. unfold i in Heq.
    destruct (decide (j = 0)%nat); [lia|]. pose proof (parent_lt j). lia. }
  assert (j <> 0%nat) as Hj0 by (intros ->; by apply Hne).
  pose proof (parent_lt j ltac:(lia)) as Hij. fold i in Hij.
  destruct (lookup_lt_is_Some_2 l i) as [x Hx]; [lia|].
  destruct (lookup_lt_is_Some_2 l j Hj) as [y Hy].
  rewrite (heap_less_spec l j i y x Hl Hy Hx).
  destruct (Z.ltb_spec (key y) (key x)) as [Hlt|Hge]; cbn [negb].
  - rewrite <- (heap_swap_length l i j). apply IH; [lia|rewrite heap_swap_length; lia| |].
    + eapply keyed_less_perm; [symmetry; apply heap_swap_perm|done].
    + by eapply up_heap_swap.
  - intros k Hk. destruct (decide (k = j)) as [->|]; [|by apply (proj1 Hh)].
    fold i. intros a b Ha Hb. simplify_eq. lia.
Qed.

Lemma heap_Push_heap l x : keyed_less (x :: l) -> is_heap (length l) l ->
  is_heap (S (length l)) (heap_Push less l x).
Proof.
  intros Hk Hl. unfold heap_Push.
  replace (S (length l)) with (length (l ++ [x])) by (rewrite length_app; cbn; lia).
  apply up_is_heap; rewrite ?length_app; cbn; try lia.
  { eapply keyed_less_perm; [|exact Hk]. apply Permutation_cons_append. }
  split; intros j; rewrite length_app; cbn [length]; intros Hj.
  - intros Hne a b. pose proof (parent_lt j ltac:(lia)). rewrite !lookup_app_l by lia. apply (Hl j). lia.
  - intros Hp Hpos. pose proof (parent_lt j ltac:(lia)). lia.
Qed.

Lemma down_heap_swap n l i j x y : (i < j < n)%nat -> (n <= length l)%nat -> ((j - 1) / 2 = i)%nat ->
  l !! i = Some x -> l !! j = Some y -> (key y < key x)%Z ->
  (forall k z, (0 < k < n)%nat -> ((k - 1) / 2 = i)%nat -> l !! k = Some z -> (key y <= key z)%Z) ->
  down_heap n i l -> down_heap n j (heap_swap l i j).
Proof.
  intros Hij Hn Hp Hx Hy Hlt Hmin [H1 H2].
  split; intros k Hk; pose proof (parent_lt k ltac:(lia)) as Hpk.
  - intros Hkj a b. rewrite !(heap_swap_lookup l i j x y _ Hx Hy).
    rewrite (decide_False (P := ((k - 1) / 2)%nat = j)) by done.
    destruct (decide (k = i)) as [->|Hki].
    { rewrite decide_False by lia. intros Ha [= <-]. by apply (H2 j ltac:(lia) Hp ltac:(lia)). }
    destruct (decide (k = j)) as [->|Hkj'].
    { rewrite decide_True by done. intros [= <-] [= <-]. lia. }
    destruct (decide ((k - 1) / 2 = i)%nat) as [Hki'|Hki'].
    + intros [= <-] Hb. by apply (Hmin k b).
    + by apply (H1 k).
  - intros Hkj _ a b. rewrite !(heap_swap_lookup l i j x y _ Hx Hy). rewrite Hp.
    rewrite (decide_True (P := i = i)) by done.
    rewrite !decide_False by lia. intros [= <-] Hb.
    apply (H1 k Hk ltac:(lia) y b); [by rewrite Hkj|done].
Qed.

Lemma down_is_heap fuel l i n : (n <= fuel + i)%nat -> (n <= length l)%nat ->
  keyed_less l -> down_heap n i l -> is_heap n (down less fuel l i n).
Proof.
  revert l i. induction fuel as [|fuel IH]; intros l i Hf Hn Hl Hh; cbn [down].
  { intros k Hk. apply (proj1 Hh); [done|]. pose proof (parent_lt k). lia. }
  destruct (child_parent i) as [Hc1 Hc2]. destruct (Nat.leb_spec n (2 * i + 1)) as [Hle|Hgt].
  { intros k Hk. apply (proj1 Hh); [done|]. intros Hki. apply parent_children in Hki; lia. }
  set (j1 := (2 * i + 1)%nat) in *.
  destruct (lookup_lt_is_Some_2 l i) as [x Hx]; [lia|].
  destruct (lookup_lt_is_Some_2 l j1) as [y1 Hy1]; [lia|].
  set (j := if ((S j1 <? n)%nat && heap_less less l (S j1) j1) then S j1 else j1).
  assert (exists y, l !! j = Some y /\ (i < j < n)%nat /\ ((j - 1) / 2 = i)%nat /\
    forall k z, (0 < k < n)%nat -> ((k - 1) / 2 = i)%nat -> l !! k = Some z -> (key y <= key z)%Z)
    as (y & Hy & Hj & Hp & Hmin).
  { unfold j. destruct (Nat.ltb_spec (S j1) n) as [H2|H2]; cbn [andb].
    - destruct (lookup_lt_is_Some_2 l (S j1)) as [y2 Hy2]; [lia|].
      rewrite (heap_less_spec l (S j1) j1 y2 y1 Hl Hy2 Hy1).
      destruct (Z.ltb_spec (key y2) (key y1)); [exists y2|exists y1];
        (split_and!; [done|unfold j1 in *; lia|unfold j1 in *; lia|done|]);
        intros k z Hk Hki Hz; apply parent_children in Hki; try lia;
        replace (2 * i + 2)%nat with (S j1) in Hki by (unfold j1; lia); fold j1 in Hki;
        destruct Hki as [->| ->]; simplify_eq; lia.
    - exists y1. split_and!; [done|unfold j1 in *; lia|unfold j1 in *; lia|done|].
      intros k z Hk Hki Hz. apply parent_children in Hki; [|lia].
      assert (k = j1) as -> by (unfold j1 in *; lia). simplify_eq. lia. }
  rewrite (heap_less_spec l j i y x Hl Hy Hx).
  destruct (Z.ltb_spec (key y) (key x)) as [Hlt|Hge]; cbn [negb].
  - apply IH; [lia|by rewrite heap_swap_length| |by eapply down_heap_swap].
    eapply keyed_less_perm; [symmetry; apply heap_swap_perm|done].
  - intros k Hk a b Ha Hb. destruct (decide ((k - 1) / 2 = i)%nat) as [Hki|Hki].
    + pose proof (Hmin k b Hk Hki Hb). rewrite Hki in Ha. simplify_eq. lia.
    + by apply (proj1 Hh k Hk Hki).
Qed.

Lemma down_beyond fuel l i n k : (i < n)%nat -> (n <= k)%nat -> down less fuel l i n !! k = l !! k.
Proof.
  revert l i. induction fuel as [|fuel IH]; intros l i Hi Hk; cbn [down]; [done|].
  destruct (Nat.leb_spec n (2 * i + 1)) as [|Hgt]; [done|].
  set (j := if ((S (2 * i + 1) <? n)%nat && heap_less less l (S (2 * i + 1)) (2 * i + 1)) then S (2 * i + 1) else (2 * i + 1)%nat).
  assert (j < n)%nat as Hj.
  { unfold j. destruct (Nat.ltb_spec (S (2 * i + 1)) n); cbn [andb]; [case_match; lia|lia]. }
  case_match; [done|]. rewrite IH by done. unfold heap_swap.
  repeat case_match; rewrite ?list_lookup_insert_ne by lia; done.
Qed.

Lemma is_heap_root n l x : is_heap n l -> l !! 0%nat = Some x ->
  forall j y, (j < n)%nat -> l !! j = Some y -> (key x <= key y)%Z.
Proof.
  intros Hl Hx j. induction (lt_wf j) as [j _ IH]. intros y Hj Hy.
  destruct (decide (j = 0)%nat) as [->|Hj0]; [simplify_eq; lia|].
  pose proof (parent_lt j ltac:(lia)) as Hp.
  destruct (lookup_lt_is_Some_2 l ((j - 1) / 2)) as [z Hz].
  { apply lookup_lt_Some in Hy. lia. }
  pose proof (IH _ Hp z ltac:(lia) Hz). pose proof (Hl j ltac:(lia) z y Hz Hy). lia.
Qed.

(** [Pop] returns an element of least key and leaves a heap. *)
Lemma heap_Pop_heap l x l' : keyed_less l -> is_heap (length l) l ->
  heap_Pop less l = Some (x, l') ->
  is_heap (length l') l' /\ forall y, y ∈ l -> (key x <= key y)%Z.
Proof.
  intros Hk Hl. unfold heap_Pop. destruct (length l) as [|n] eqn:Hn; [done|].
  destruct (lookup_lt_is_Some_2 l 0) as [r Hr]; [lia|].
  destruct (lookup_lt_is_Some_2 l n) as [z Hz]; [lia|].
  set (s := heap_swap l 0 n).
  assert (Hs : forall k, s !! k = if decide (k = 0)%nat then Some z
                          else if decide (k = n) then Some r else l !! k).
  { intros k. by apply heap_swap_lookup. }
  assert (length s = S n) as Hlen by (unfold s; by rewrite heap_swap_length).
  assert (keyed_less s) as Hks.
  { eapply keyed_less_perm; [symmetry; apply heap_swap_perm|done]. }
  assert (down_heap n 0 s) as Hd.
  { split; [|intros; lia]. intros j Hj Hp a b. pose proof (parent_lt j ltac:(lia)).
    rewrite !Hs, !decide_False by lia. apply (Hl j). lia. }
  pose proof (down_is_heap (S n) s 0 n ltac:(lia) ltac:(lia) Hks Hd) as Hheap.
  assert (down less (S n) s 0 n !! n = Some r) as ->.
  { destruct (decide (n = 0)%nat) as [->|].
    - cbn. rewrite Hs, decide_True by done. by simplify_eq.
    - rewrite down_beyond by lia. rewrite Hs, decide_False by done. by rewrite decide_True. }
  cbn. intros [= <- <-]. split.
  - intros j Hj a b. rewrite length_take in Hj. rewrite !lookup_take_lt; [apply (Hheap j); lia|lia|].
    pose proof (parent_lt j ltac:(lia)). lia.
  - intros y [j Hy]%list_elem_of_lookup. eapply is_heap_root; [exact Hl|exact Hr| |exact Hy].
    apply lookup_lt_Some in Hy. lia.
Qed.
End Order.
