(* ===== verification/Requests.v ===== *)
(** * The request manager of block synchronisation (src/netsync/request.go)

    The request manager keeps the blocks the node has heard of but not
    downloaded: a list of pending blocks, a map from their hashes to the
    elements of the list, and a heap of those whose header is known, ordered by
    height.  The three share the pending blocks by pointer, so the model keeps
    a store of pending blocks and the containers hold their addresses.

    Every second [tryToDownload] asks some peers for their inventory and
    requests blocks, within a quota, first by header and then by hash;
    [passReadyBlocks] hands the downloaded blocks to the consensus engine,
    parents first.  The clock, the random choices, the peers known to the
    dispatcher and the iteration order of Go maps are the world; the messages
    sent through the dispatcher and those passed to the consumer are recorded
    in the state.  The methods run under one mutex, and are modelled as atomic;
    [passReadyBlocks], which takes no lock, is one step per height. *)

From stdpp Require Import gmap sorting relations.
From stdpp Require Import base list numbers strings.
From S2P Require Import Prelude Vote Validator Block Chain ConsensusState Heap.
Local Open Scope string_scope.
Local Open Scope list_scope.
Local Open Scope Z_scope.

(** ** Constants; a duration is in nanoseconds. *)

Definition Second : Z := 1000000000.
Definition DumpBlockCacheLimit : nat := 32.
Definition RequestTimeout : Z := 10 * Second.
Definition Expiration : Z := 300 * Second.
Definition MinInventoryRequestInterval : Z := 6 * Second.
Definition MaxInventoryRequestInterval : Z := 6 * Second.
Definition FastsyncRequestQuota : Z := 8.
Definition GossipRequestQuotaPerSecond : Z := 10.
Definition MaxNumPeersToSendRequests : nat := 4.
Definition RefreshCounterLimit : Z := 4.
Definition MaxBlocksPerRequest : nat := 4.
Definition MaxPeerActiveScore : Z := 16.

(** ** Messages of theta/dispatcher *)

Inductive ChannelID :=
| ChannelIDHeader
| ChannelIDBlock
| ChannelIDProposal
| ChannelIDCC
| ChannelIDVote
| ChannelIDOther (n : Z).

#[export] Instance ChannelID_eq_dec : EqDecision ChannelID.
Proof. solve_decision. Defined.

(** A field the sources leave unset is the empty string. *)
Record InventoryRequest := mkInventoryRequest {
  InvChannel : ChannelID;
  Starts : list string;
  End_ : string
}.
Record InventoryResponse := mkInventoryResponse {
  RespChannel : ChannelID;
  InvEntries : list string
}.
Record DataRequest := mkDataRequest {
  ReqChannel : ChannelID;
  ReqEntries : list string
}.
Record DataResponse := mkDataResponse {
  DataChannel : ChannelID;
  Payload : Bytes
}.

(** The calls of the dispatcher: the receiving peers (none stands for a
    broadcast) and the message. *)
Inductive Packet :=
| GetInventory (peers : list string) (req : InventoryRequest)
| GetData (peers : list string) (req : DataRequest)
| SendInventory (peers : list string) (resp : InventoryResponse)
| SendData (peers : list string) (resp : DataResponse).

(** What is passed to the consumer, the consensus engine. *)
Inductive Passed :=
| PassBlock (b : Block.Block)
| PassVote (v : Vote).

(** ** Interfaces *)

(** [Hex] and [HexToHash] of theta's [common.Hash]. *)
Class HashText := {
  HashHex : Hash -> string;
  HexToHash : string -> Hash;
  HexToHash_Hex h : HexToHash (HashHex h) = h
}.

(** hashicorp's [lru.Cache] of a positive size, used as a set of hashes. *)
Class LRU (L : Type) := {
  lru_New : nat -> L;
  lru_Contains : L -> Hash -> bool;
  lru_Add : L -> Hash -> L;
  lru_New_empty n h : lru_Contains (lru_New n) h = false;
  lru_Add_same l h : lru_Contains (lru_Add l h) h = true;
  lru_Add_other l h h' : lru_Contains (lru_Add l h) h' = true -> h' = h \/ lru_Contains l h' = true
}.

(** The clock, [rand.Intn], [util.Shuffle] and [util.Sample] of theta, the
    peers of the dispatcher, and [for ... range] over Go maps. *)
Class World (W : Type) := {
  Now : W -> Z * W;
  Intn : W -> nat -> nat * W;
  Shuffle : W -> list string -> list string * W;
  Sample : W -> list string -> nat -> list string * W;
  PeerExists : W -> string -> bool * W;
  Peers : W -> bool -> list string * W;
  range_map : forall {A}, W -> gmap string A -> list (string * A) * W;
  range_set : W -> VoteSet -> list Vote * W;
  Intn_lt w n : (0 < n)%nat -> ((Intn w n).1 < n)%nat;
  Shuffle_perm w l : (Shuffle w l).1 ≡ₚ l;
  Sample_sub w l n : (Sample w l n).1 ⊆+ l;
  range_map_perm {A} w (m : gmap string A) : (range_map w m).1 ≡ₚ map_to_list m;
  range_set_perm w s : iterates s (range_set w s).1
}.

(** What synchronisation sees of the consensus engine: the chain they share,
    the tip and the last finalized block.  Both are stored blocks, and the last
    finalized block stays available when blocks are added to the chain. *)
Class Consensus `{BlockCrypto} (S : Type) `{!Store S} (C : Type) := {
  ChainOf : C -> Chain S;
  set_chain : C -> Chain S -> C;
  GetTip : C -> bool -> outcome ExtendedBlock;
  GetLastFinalizedBlock : C -> outcome ExtendedBlock;
  ChainOf_set c ch : ChainOf (set_chain c ch) = ch;
  tip_stored c leaf b : GetTip c leaf = Ok b -> exists h, findBlock (ChainOf c) h = Some b;
  lfb_stored c b : GetLastFinalizedBlock c = Ok b -> exists h, findBlock (ChainOf c) h = Some b;
  lfb_kept c b ch : GetLastFinalizedBlock c = Ok b -> keeps_blocks (ChainOf c) ch ->
    exists b', GetLastFinalizedBlock (set_chain c ch) = Ok b' /\ EBlock b' = EBlock b
}.

(** The configuration: [dispatcher.MaxInventorySize], the hardcoded block
    hashes, the whitelist, whether libp2p gossips for the node, and the
    download modes. *)
Record SyncConfig := mkSyncConfig {
  MaxInventorySize : Z;
  HardcodeBlockHashes : list (uint64 * string);
  whitelist : list string;
  P2POptLibp2p : bool;
  ifDownloadByHash : bool;
  ifDownloadByHeader : bool;
  SyncEthTxHash : ExtendedBlock -> Bytes -> outcome Hash
}.

(** ** State *)

Inductive RequestState :=
| RequestToSendDataReq
| RequestWaitingDataResp
| RequestToSendBodyReq
| RequestWaitingBodyResp.

#[export] Instance RequestState_eq_dec : EqDecision RequestState.
Proof. solve_decision. Defined.

Record PendingBlock := mkPendingBlock {
  phash : Hash;
  pblock : option Block.Block;
  pheader : option BlockHeader;
  peers : list string;
  lastUpdate : Z;
  createdAt : Z;
  pstatus : RequestState;
  fromGossip : bool
}.

Definition nil_block : PendingBlock := mkPendingBlock 0 None None [] 0 0 RequestToSendDataReq false.

Record RequestManager (L : Type) := mkRequestManager {
  objects : gmap nat PendingBlock;
  next : nat;
  pendingBlocks : list nat;
  pendingBlocksByHash : gmap Hash nat;
  pendingBlocksWithHeader : list nat;
  gossipQuota : Z;
  fastsyncQuota : Z;
  lastInventoryRequest : Z;
  fastSyncTip : option ExtendedBlock;
  blockNotify : option ExtendedBlock;
  dumpBlockCache : L;
  activePeers : gmap string Z;
  refreshCounter : Z
}.
Arguments mkRequestManager {L}.
Arguments objects {L}.
Arguments next {L}.
Arguments pendingBlocks {L}.
Arguments pendingBlocksByHash {L}.
Arguments pendingBlocksWithHeader {L}.
Arguments gossipQuota {L}.
Arguments fastsyncQuota {L}.
Arguments lastInventoryRequest {L}.
Arguments fastSyncTip {L}.
Arguments blockNotify {L}.
Arguments dumpBlockCache {L}.
Arguments activePeers {L}.
Arguments refreshCounter {L}.

(** The synchronisation manager with its request manager. *)
Record Node (C W L : Type) := mkNode {
  requestMgr : RequestManager L;
  consensus : C;
  world : W;
  voteCache : L;
  outbox : list Packet;
  consumed : list Passed
}.
Arguments mkNode {C W L}.
Arguments requestMgr {C W L}.
Arguments consensus {C W L}.
Arguments world {C W L}.
Arguments voteCache {C W L}.
Arguments outbox {C W L}.
Arguments consumed {C W L}.

(** ** A state and error monad over the node *)

Definition T (C W L A : Type) : Type := Node C W L -> outcome (A * Node C W L).

#[export] Instance T_ret C W L : MRet (T C W L) := fun A a n => Ok (a, n).
#[export] Instance T_bind C W L : MBind (T C W L) := fun A B f m n =>
  match m n with
  | Ok (a, n') => f a n'
  | Err e => Err e
  | Panic e => Panic e
  end.

Section Monad.
Context {C W L : Type}.

Definition ret {A} (a : A) : T C W L A := fun n => Ok (a, n).
Definition gets {A} (f : Node C W L -> A) : T C W L A := fun n => Ok (f n, n).
Definition modify (f : Node C W L -> Node C W L) : T C W L unit := fun n => Ok (tt, f n).
Definition lift {A} (o : outcome A) : T C W L A := fun n =>
  match o with Ok a => Ok (a, n) | Err e => Err e | Panic e => Panic e end.

Fixpoint for_each {A} (f : A -> T C W L unit) (l : list A) : T C W L unit :=
  match l with
  | [] => ret tt
  | x :: l' => _ ← f x; for_each f l'
  end.

Definition on_rm (f : RequestManager L -> RequestManager L) : T C W L unit := modify (fun n =>
  mkNode (f (requestMgr n)) (consensus n) (world n) (voteCache n) (outbox n) (consumed n)).
Definition get_rm {A} (f : RequestManager L -> A) : T C W L A := gets (fun n => f (requestMgr n)).
Definition on_world {A} (f : W -> A * W) : T C W L A := fun n =>
  let (a, w) := f (world n) in
  Ok (a, mkNode (requestMgr n) (consensus n) w (voteCache n) (outbox n) (consumed n)).
Definition with_consensus (c : C) (n : Node C W L) : Node C W L :=
  mkNode (requestMgr n) c (world n) (voteCache n) (outbox n) (consumed n).

(** A call of the dispatcher. *)
Definition send (p : Packet) : T C W L unit := modify (fun n =>
  mkNode (requestMgr n) (consensus n) (world n) (voteCache n) (outbox n ++ [p]) (consumed n)).

(** [PassdownMessage]: [AddMessage] of the consumer. *)
Definition PassdownMessage (m : Passed) : T C W L unit := modify (fun n =>
  mkNode (requestMgr n) (consensus n) (world n) (voteCache n) (outbox n) (consumed n ++ [m])).
End Monad.

(** ** Setters and the pending blocks *)

Section PendingBlocks.
Context {L : Type}.
Implicit Types (r : RequestManager L) (pb : PendingBlock).

Definition with_pending r (o : gmap nat PendingBlock) (k : nat) (l : list nat) (m : gmap Hash nat) :=
  mkRequestManager o k l m (pendingBlocksWithHeader r) (gossipQuota r) (fastsyncQuota r)
    (lastInventoryRequest r) (fastSyncTip r) (blockNotify r) (dumpBlockCache r) (activePeers r)
    (refreshCounter r).
Definition with_heap r (h : list nat) :=
  mkRequestManager (objects r) (next r) (pendingBlocks r) (pendingBlocksByHash r) h (gossipQuota r)
    (fastsyncQuota r) (lastInventoryRequest r) (fastSyncTip r) (blockNotify r) (dumpBlockCache r)
    (activePeers r) (refreshCounter r).
Definition with_quotas r (gossip fastsync : Z) :=
  mkRequestManager (objects r) (next r) (pendingBlocks r) (pendingBlocksByHash r)
    (pendingBlocksWithHeader r) gossip fastsync (lastInventoryRequest r) (fastSyncTip r)
    (blockNotify r) (dumpBlockCache r) (activePeers r) (refreshCounter r).
Definition with_last_request r (t : Z) :=
  mkRequestManager (objects r) (next r) (pendingBlocks r) (pendingBlocksByHash r)
    (pendingBlocksWithHeader r) (gossipQuota r) (fastsyncQuota r) t (fastSyncTip r)
    (blockNotify r) (dumpBlockCache r) (activePeers r) (refreshCounter r).
Definition with_tip r (b : ExtendedBlock) :=
  mkRequestManager (objects r) (next r) (pendingBlocks r) (pendingBlocksByHash r)
    (pendingBlocksWithHeader r) (gossipQuota r) (fastsyncQuota r) (lastInventoryRequest r) (Some b)
    (blockNotify r) (dumpBlockCache r) (activePeers r) (refreshCounter r).
Definition with_notify r (b : option ExtendedBlock) :=
  mkRequestManager (objects r) (next r) (pendingBlocks r) (pendingBlocksByHash r)
    (pendingBlocksWithHeader r) (gossipQuota r) (fastsyncQuota r) (lastInventoryRequest r)
    (fastSyncTip r) b (dumpBlockCache r) (activePeers r) (refreshCounter r).
Definition with_dump r (c : L) :=
  mkRequestManager (objects r) (next r) (pendingBlocks r) (pendingBlocksByHash r)
    (pendingBlocksWithHeader r) (gossipQuota r) (fastsyncQuota r) (lastInventoryRequest r)
    (fastSyncTip r) (blockNotify r) c (activePeers r) (refreshCounter r).
Definition with_active r (m : gmap string Z) (k : Z) :=
  mkRequestManager (objects r) (next r) (pendingBlocks r) (pendingBlocksByHash r)
    (pendingBlocksWithHeader r) (gossipQuota r) (fastsyncQuota r) (lastInventoryRequest r)
    (fastSyncTip r) (blockNotify r) (dumpBlockCache r) m k.

(** Following a pointer to a pending block, and writing through it. *)
Definition obj r (id : nat) : PendingBlock := default nil_block (objects r !! id).
Definition set_obj r (id : nat) pb : RequestManager L :=
  with_pending r (<[id := pb]> (objects r)) (next r) (pendingBlocks r) (pendingBlocksByHash r).

Definition NewPendingBlock (x : Hash) (peerIds : list string) (gossip : bool) (t1 t2 : Z) : PendingBlock :=
  mkPendingBlock x None None peerIds t1 t2 RequestToSendDataReq gossip.

Definition set_peers pb (l : list string) : PendingBlock :=
  mkPendingBlock (phash pb) (pblock pb) (pheader pb) l (lastUpdate pb) (createdAt pb) (pstatus pb)
    (fromGossip pb).
Definition set_header pb (h : BlockHeader) : PendingBlock :=
  mkPendingBlock (phash pb) (pblock pb) (Some h) (peers pb) (lastUpdate pb) (createdAt pb)
    RequestToSendBodyReq (fromGossip pb).

(** [UpdateTimestamp] and the new status of a request that has been sent. *)
Definition set_waiting pb (t : Z) (st : RequestState) : PendingBlock :=
  mkPendingBlock (phash pb) (pblock pb) (pheader pb) (peers pb) t (createdAt pb) st (fromGossip pb).

(** Adding the peers that are not listed yet. *)
Definition add_peers (l ids : list string) : list string :=
  foldl (fun acc x => if bool_decide (x ∈ acc) then acc else acc ++ [x]) l ids.

(** [HeaderHeap.Less]. *)
Definition header_less r (i x j y : nat) : bool :=
  match pheader (obj r x), pheader (obj r y) with
  | Some a, Some b => BHeight a <? BHeight b
  | _, _ => (i <? j)%nat
  end.

Definition push_header r (id : nat) : RequestManager L :=
  with_heap r (heap_Push (header_less r) (pendingBlocksWithHeader r) id).

(** [list.Remove] of an element, and [removeEl]. *)
Definition list_Remove (l : list nat) (el : nat) : list nat := filter (fun x => x <> el) l.

Definition removeEl r (el : nat) : RequestManager L :=
  with_pending r (objects r) (next r) (list_Remove (pendingBlocks r) el)
    (delete (phash (obj r el)) (pendingBlocksByHash r)).

(** A new pending block at the end of the list. *)
Definition push_pending r (pb : PendingBlock) : RequestManager L :=
  with_pending r (<[next r := pb]> (objects r)) (Datatypes.S (next r)) (pendingBlocks r ++ [next r])
    (<[phash pb := next r]> (pendingBlocksByHash r)).
End PendingBlocks.

Definition HeaderHash `{BlockCrypto} (h : BlockHeader) : Hash := fst (Hash_ h).

(** ** Operations *)

Section Operations.
Context `{BlockCrypto} {S : Type} `{!Store S} {C : Type} `{!Consensus S C}.
Context {W : Type} `{!World W} {L : Type} `{!LRU L} `{!HashText}.
Context (cfg : SyncConfig).
Notation T := (T C W L).

Definition NewRequestManager : RequestManager L :=
  mkRequestManager ∅ 0 [] ∅ [] 0 0 0 None None (lru_New DumpBlockCacheLimit) ∅ 0.

Definition time_now : T Z := on_world Now.
Definition FindBlock (h : Hash) : T (option ExtendedBlock) :=
  gets (fun n => findBlock (ChainOf (consensus n)) h).
Definition FindBlocksByHeight (h : uint64) : T (list ExtendedBlock) :=
  gets (fun n => findBlocksByHeight (ChainOf (consensus n)) h).
Definition tip : T ExtendedBlock := fun n => lift (GetTip (consensus n) true) n.
Definition last_finalized : T ExtendedBlock := fun n => lift (GetLastFinalizedBlock (consensus n)) n.

Definition HasTimedOut (id : nat) : T bool :=
  t ← time_now; get_rm (fun r => RequestTimeout <? t - lastUpdate (obj r id)).
Definition HasExpired (id : nat) : T bool :=
  t ← time_now; get_rm (fun r => Expiration <? t - createdAt (obj r id)).

(** *** Active peers *)

(** The peer of least score, the last one met in the iteration. *)
Definition min_peer (l : list (string * Z)) : string :=
  (foldl (fun acc p => if snd p <=? fst acc then (snd p, fst p) else acc) (MaxPeerActiveScore, "") l).2.

Definition AddActivePeer (activePeerID : string) : T unit :=
  active ← get_rm activePeers;
  match active !! activePeerID with
  | Some score =>
      if score <? MaxPeerActiveScore
      then on_rm (fun r => with_active r (<[activePeerID := MaxPeerActiveScore]> active) (refreshCounter r))
      else ret tt
  | None =>
      kept ← (if (MaxNumPeersToSendRequests <=? size active)%nat
              then l ← on_world (fun w => range_map w active); ret (delete (min_peer l) active)
              else ret active);
      on_rm (fun r => with_active r (<[activePeerID := MaxPeerActiveScore]> kept) (refreshCounter r))
  end.

(** *** Inventory requests *)

(** The exponential backoff from the tip down to the last finalized block;
    [step] is an [int]. *)
Fixpoint starts_loop (fuel : nat) (ch : Chain S) (top index low : uint64) (step : Z)
    : outcome (list string) :=
  if index <=? low then Ok []
  else match fuel with
  | O => Err "out of fuel"
  | Datatypes.S fuel' =>
      let step := if 10 <=? u64_sub top index then to_int64 (wrap64 (step * 2)) else step in
      if (index <? wrap64 step) || (step <=? 0) then Ok []
      else
        let blocks := filter (fun b => Status b <> BlockStatusPending /\ Status b <> BlockStatusInvalid)
                        (findBlocksByHeight ch index) in
        rest ← starts_loop fuel' ch top (u64_sub index (wrap64 step)) low step;
        Ok ((HashHex ∘ EBHash <$> blocks) ++ rest)
  end.

(** The backoff takes at most 73 rounds: ten of one block each, then at most
    63 doublings of a 63-bit step. *)
Definition backoff_fuel : nat := 74.

Definition buildInventoryRequest : T InventoryRequest :=
  cached ← get_rm fastSyncTip;
  t ← (match cached with Some b => ret b | None => tip end);
  lfb ← last_finalized;
  ch ← gets (fun n => ChainOf (consensus n));
  starts ← lift (starts_loop backoff_fuel ch (EBHeight t) (EBHeight t) (EBHeight lfb) 1);
  ret (mkInventoryRequest ChannelIDBlock (starts ++ [HashHex (EBHash lfb)]) "").

(** A disconnected peer is dropped, the score of the others decreases. *)
Fixpoint refresh_peers (l : list (string * Z)) (active : gmap string Z) : T (gmap string Z) :=
  match l with
  | [] => ret active
  | (pid, _) :: l' =>
      e ← on_world (fun w => PeerExists w pid);
      refresh_peers l' (if (e : bool) then <[pid := default 0 (active !! pid) - 1]> active
                        else delete pid active)
  end.

(** Sampled peers are appended up to the target size, without duplicates. *)
Fixpoint resample (target : nat) (samples acc : list string) : list string :=
  match samples with
  | [] => acc
  | s :: samples' =>
      let acc := if bool_decide (s ∈ acc) then acc else acc ++ [s] in
      if (target <=? length acc)%nat then acc else resample target samples' acc
  end.

Definition getInventory (req : InventoryRequest) : T unit :=
  active ← get_rm activePeers;
  counter ← get_rm refreshCounter;
  l ← on_world (fun w => range_map w active);
  active' ← refresh_peers l active;
  let counter := if RefreshCounterLimit <=? counter + 1 then 0 else counter + 1 in
  _ ← on_rm (fun r => with_active r active' counter);
  l' ← on_world (fun w => range_map w active');
  let peersToRequest := fst <$> filter (fun p => 0 < snd p) l' in
  let targetSize := if counter =? 0 then (MaxNumPeersToSendRequests + 2)%nat
                    else MaxNumPeersToSendRequests in
  peersToRequest' ← (if (length peersToRequest <? targetSize)%nat then
      allPeers ← on_world (fun w => Peers w true);
      samples ← on_world (fun w => Sample w allPeers targetSize);
      ret (resample targetSize samples peersToRequest)
    else ret peersToRequest);
  send (GetInventory peersToRequest' req).

(** *** Downloading *)

Definition sendBlocksRequest (peerID : string) (entries : list string) : T unit :=
  send (GetData [peerID] (mkDataRequest ChannelIDBlock entries)).

Definition use_quota (gossip : bool) : T unit := on_rm (fun r =>
  if gossip then with_quotas r (u64_sub (gossipQuota r) 1) (fastsyncQuota r)
  else with_quotas r (gossipQuota r) (u64_sub (fastsyncQuota r) 1)).

Definition mark_waiting (id : nat) (st : RequestState) : T unit :=
  t ← time_now; on_rm (fun r => set_obj r id (set_waiting (obj r id) t st)).

(** The data request of one pending block. *)
Definition request_hash (id : nat) : T unit :=
  pb ← get_rm (fun r => obj r id);
  i ← on_world (fun w => Intn w (length (peers pb)));
  let randomPeerID := default "" (peers pb !! i) in
  _ ← send (GetData [randomPeerID] (mkDataRequest ChannelIDBlock [HashHex (phash pb)]));
  _ ← mark_waiting id RequestWaitingDataResp;
  use_quota (fromGossip pb).

(** Whether a pending block is requested by hash now: it has a peer, quota is
    left for its kind, and no request is under way. *)
Definition requestable (r : RequestManager L) (id : nat) : bool :=
  let pb := obj r id in
  negb (bool_decide (is_Some (pblock pb))) && negb (bool_decide (peers pb = []))
  && negb (fromGossip pb && (gossipQuota r <=? 0))
  && negb (negb (fromGossip pb) && (fastsyncQuota r <=? 0))
  && (bool_decide (pstatus pb = RequestToSendDataReq)
      || (negb (ifDownloadByHeader cfg) && bool_decide (pstatus pb = RequestToSendBodyReq))).

(** The loop over the list of pending blocks; it returns the elements to
    remove. *)
Fixpoint hash_loop (ids : list nat) : T (list nat) :=
  match ids with
  | [] => ret []
  | id :: ids' =>
      r ← get_rm (fun r => r);
      if (gossipQuota r <=? 0) && (fastsyncQuota r <=? 0) then ret []
      else
        expired ← HasExpired id;
        outdated ← (if (expired : bool) then ret true else HasTimedOut id);
        if (outdated : bool) then rest ← hash_loop ids'; ret (id :: rest)
        else
          _ ← (if requestable r id then request_hash id else ret tt);
          hash_loop ids'
  end.

Definition downloadBlockFromHash : T unit :=
  ids ← get_rm pendingBlocks;
  elToRemove ← hash_loop ids;
  on_rm (fun r => foldl removeEl r elToRemove).

(** The first peer that is still connected; "" if there is none. *)
Fixpoint first_connected (l : list string) : T string :=
  match l with
  | [] => ret ""
  | p :: l' => e ← on_world (fun w => PeerExists w p);
               if (e : bool) then ret p else first_connected l'
  end.

Definition is_downloaded (h : Hash) : T bool :=
  inCache ← get_rm (fun r => lru_Contains (dumpBlockCache r) h);
  if (inCache : bool) then ret true
  else b ← FindBlock h; ret (bool_decide (is_Some b)).

(** Buffering a request for a peer; a full buffer is sent. *)
Definition buffer_request (peerMap : gmap string (list string)) (peerID : string) (h : Hash)
    : T (gmap string (list string)) :=
  let blockBuffer := default [] (peerMap !! peerID) ++ [HashHex h] in
  if (length blockBuffer =? MaxBlocksPerRequest)%nat
  then _ ← sendBlocksRequest peerID blockBuffer; ret (<[peerID := []]> peerMap)
  else ret (<[peerID := blockBuffer]> peerMap).

(** Asking one of the connected peers of a pending block for its body. *)
Definition ask_for_body (id : nat) (peerMap : gmap string (list string))
    : T (gmap string (list string)) :=
  pb ← get_rm (fun r => obj r id);
  peersWithBlock ← on_world (fun w => Shuffle w (peers pb));
  randomPeerID ← first_connected peersWithBlock;
  if (String.length randomPeerID =? 0)%nat then ret peerMap
  else
    peerMap' ← buffer_request peerMap randomPeerID (phash pb);
    _ ← mark_waiting id RequestWaitingBodyResp;
    _ ← use_quota false;
    ret peerMap'.

(** A request is sent when none was, or when the last one timed out. *)
Definition body_due (id : nat) : T bool :=
  st ← get_rm (fun r => pstatus (obj r id));
  if bool_decide (st = RequestToSendBodyReq) then ret true
  else if bool_decide (st = RequestWaitingBodyResp) then HasTimedOut id
  else ret false.

Definition body_awaited (id : nat) : T bool :=
  st ← get_rm (fun r => pstatus (obj r id));
  if bool_decide (st = RequestWaitingBodyResp)
  then timedOut ← HasTimedOut id; ret (negb timedOut)
  else ret false.

(** What is done for a pending block whose header is known; a request under
    way counts against the quota. *)
Definition request_header (id : nat) (peerMap : gmap string (list string))
    : T (gmap string (list string)) :=
  l ← get_rm (fun r => peers (obj r id));
  if bool_decide (l = []) then ret peerMap
  else
    awaited ← body_awaited id;
    if (awaited : bool) then _ ← use_quota false; ret peerMap
    else due ← body_due id;
         if (due : bool) then ask_for_body id peerMap else ret peerMap.

(** The loop over the heap: each round pops an entry, so as many rounds as
    there are entries are enough.  It returns the entries to add back, the
    elements to remove and the buffered requests. *)
Fixpoint header_loop (fuel : nat) (addBack elToRemove : list nat) (peerMap : gmap string (list string))
    : T (list nat * list nat * gmap string (list string)) :=
  r ← get_rm (fun r => r);
  if fastsyncQuota r <=? 0 then ret (addBack, elToRemove, peerMap)
  else match heap_Pop (header_less r) (pendingBlocksWithHeader r), fuel with
  | None, _ => ret (addBack, elToRemove, peerMap)
  | Some _, O => lift (Err "out of fuel")
  | Some (id, rest), Datatypes.S fuel' =>
      _ ← on_rm (fun r => with_heap r rest);
      let h := phash (obj r id) in
      let elToRemove' := match pendingBlocksByHash r !! h with
                         | Some el => elToRemove ++ [el] | None => elToRemove end in
      expired ← HasExpired id;
      drop ← (if (expired : bool) then ret true else is_downloaded h);
      if (drop : bool) then header_loop fuel' addBack elToRemove' peerMap
      else peerMap' ← request_header id peerMap;
           header_loop fuel' (addBack ++ [id]) elToRemove peerMap'
  end.

Definition downloadBlockFromHeader : T unit :=
  size ← get_rm (fun r => length (pendingBlocksWithHeader r));
  '(addBack, elToRemove, peerMap) ← header_loop size [] [] ∅;
  l ← on_world (fun w => range_map w peerMap);
  _ ← for_each (fun p => if bool_decide (snd p = []) then ret tt
                         else sendBlocksRequest (fst p) (snd p)) l;
  _ ← on_rm (fun r => foldl push_header r addBack);
  on_rm (fun r => foldl removeEl r elToRemove).

(** "Remove downloaded blocks from header queue". *)
Definition clean_headers {L} (r : RequestManager L) : RequestManager L :=
  with_heap r (foldl (fun q id =>
    if bool_decide (is_Some (pendingBlocksByHash r !! phash (obj r id)))
    then heap_Push (header_less r) q id else q) [] (pendingBlocksWithHeader r)).

Definition tryToDownload : T unit :=
  _ ← on_rm (fun r => with_quotas r GossipRequestQuotaPerSecond FastsyncRequestQuota);
  r ← get_rm (fun r => r);
  let hasUndownloadedBlocks := (0 <? length (pendingBlocks r))%nat
    || (0 <? size (pendingBlocksByHash r))%nat || (0 <? length (pendingBlocksWithHeader r))%nat in
  t1 ← time_now;
  let minIntervalPassed := MinInventoryRequestInterval <=? t1 - lastInventoryRequest r in
  t2 ← time_now;
  let maxIntervalPassed := MaxInventoryRequestInterval <=? t2 - lastInventoryRequest r in
  _ ← (if maxIntervalPassed || (hasUndownloadedBlocks && minIntervalPassed) then
         _ ← (if hasUndownloadedBlocks && (1 <? length (pendingBlocks r))%nat
              then _ ← tip; ret tt else ret tt);
         t3 ← time_now;
         _ ← on_rm (fun r => with_last_request r t3);
         req ← buildInventoryRequest;
         getInventory req
       else ret tt);
  _ ← (if ifDownloadByHeader cfg then downloadBlockFromHeader else ret tt);
  _ ← (if ifDownloadByHash cfg then downloadBlockFromHash else ret tt);
  on_rm clean_headers.

(** *** Hashes, headers and blocks received *)

Definition addHash (x : Hash) (peerIDs : list string) (gossip : bool) : T unit :=
  b ← FindBlock x;
  match b with
  | Some _ => ret tt
  | None =>
      found ← get_rm (fun r => pendingBlocksByHash r !! x);
      id ← (match found with
            | Some id => ret id
            | None =>
                t1 ← time_now;
                t2 ← time_now;
                id ← get_rm next;
                _ ← on_rm (fun r => push_pending r (NewPendingBlock x peerIDs gossip t1 t2));
                ret id
            end);
      on_rm (fun r => let pb := obj r id in
        if bool_decide (is_Some (pblock pb)) then r
        else set_obj r id (set_peers pb (add_peers (peers pb) peerIDs)))
  end.

Definition AddHash := addHash.

Definition IsGossipBlock (h : Hash) : T bool := get_rm (fun r =>
  match pendingBlocksByHash r !! h with
  | None => true
  | Some id => fromGossip (obj r id)
  end).

(** The header of a pending block is recorded once, when it is queued. *)
Definition record_header {L} (header : BlockHeader) (id : nat) (r : RequestManager L) : RequestManager L :=
  match pheader (obj r id) with
  | Some _ => r
  | None => push_header (set_obj r id (set_header (obj r id) header)) id
  end.

Definition AddHeader (header : BlockHeader) (peerIDs : list string) : T unit :=
  let h := HeaderHash header in
  b ← FindBlock h;
  match b with
  | Some _ => ret tt
  | None =>
      known ← get_rm (fun r => bool_decide (is_Some (pendingBlocksByHash r !! h)));
      _ ← (if (known : bool) then ret tt else addHash h peerIDs true);
      found ← get_rm (fun r => pendingBlocksByHash r !! h);
      match found with
      | None => ret tt
      | Some id =>
          _ ← on_rm (record_header header id);
          on_rm (fun r => set_obj r id (set_peers (obj r id) (add_peers (peers (obj r id)) peerIDs)))
      end
  end.

(** [AddBlock]: the block joins the chain and is no longer pending; the
    notification is dropped when one is waiting already. *)
Definition AddBlock (block : Block.Block) : T unit :=
  c ← gets consensus;
  match Chain.AddBlock (SyncEthTxHash cfg) (ChainOf c) block with
  | Err _ => ret tt
  | Panic e => lift (Panic e)
  | Ok (eb, ch) =>
      _ ← modify (with_consensus (set_chain c ch));
      let h := BlockHash block in
      _ ← on_rm (fun r =>
        match pendingBlocksByHash r !! h with
        | None => r
        | Some el => with_pending r (objects r) (next r) (list_Remove (pendingBlocks r) el)
                       (delete h (pendingBlocksByHash r))
        end);
      on_rm (fun r => match blockNotify r with Some _ => r | None => with_notify r (Some eb) end)
  end.

(** *** Passing the downloaded blocks to consensus *)

Definition has_valid_parent (parents : list ExtendedBlock) (block : ExtendedBlock) : bool :=
  existsb (fun p => (EBHash p =? EBParent block) && IsValid (Status p)) parents.

Definition pass_block (parents : list ExtendedBlock) (block : ExtendedBlock) : T unit :=
  seen ← get_rm (fun r => lru_Contains (dumpBlockCache r) (EBHash block));
  if (seen : bool) || negb (has_valid_parent parents block) then ret tt
  else
    _ ← on_rm (fun r => with_dump r (lru_Add (dumpBlockCache r) (EBHash block)));
    if IsPending (Status block) then
      _ ← PassdownMessage (PassBlock (EBlock block));
      on_rm (fun r => with_tip r block)
    else ret tt.

(** The start of a round, and one height of it; a round ends at the first
    height without blocks. *)
Definition pass_start : T (uint64 * list ExtendedBlock) :=
  lfb ← last_finalized; ret (u64_add (EBHeight lfb) 1, [lfb]).

Definition pass_level (height : uint64) (parents : list ExtendedBlock)
    : T (option (uint64 * list ExtendedBlock)) :=
  blocks ← FindBlocksByHeight height;
  if bool_decide (blocks = []) then ret None
  else _ ← for_each (pass_block parents) blocks; ret (Some (u64_add height 1, blocks)).

Fixpoint pass_loop (fuel : nat) (height : uint64) (parents : list ExtendedBlock) : T unit :=
  next ← pass_level height parents;
  match next, fuel with
  | None, _ => ret tt
  | Some _, O => lift (Err "out of fuel")
  | Some (height', parents'), Datatypes.S fuel' => pass_loop fuel' height' parents'
  end.

(** A round of [passReadyBlocks]. *)
Definition passReadyBlocks (fuel : nat) : T unit :=
  '(height, parents) ← pass_start; pass_loop fuel height parents.

End Operations.
