(* ===== verification/RequestsInv.v ===== *)
(** * The invariant of the request manager

    The list of pending blocks, the map from hashes and the heap of headers
    agree, the heap is in the order of the heights, every pending block whose
    header is known is in the heap, and at most four peers are active.  Each
    operation of Requests.v on the containers keeps the invariant; the rules of
    a weakest precondition lift this to the methods. *)

From stdpp Require Import gmap sorting relations.
From stdpp Require Import base list numbers strings.
From S2P Require Import Prelude Vote Validator Block Chain ConsensusState Heap Requests.
Local Open Scope string_scope.
Local Open Scope list_scope.
Local Open Scope Z_scope.

(** ** The invariant *)

Section Invariant.
Context `{BlockCrypto} {L : Type}.
Implicit Types (r : RequestManager L) (held : list nat).

Definition header_key r (id : nat) : Z :=
  match pheader (obj r id) with Some h => BHeight h | None => 0 end.

(** The entries of the heap, with those [downloadBlockFromHeader] holds while
    it runs. *)
Definition queued r held : list nat := pendingBlocksWithHeader r ++ held.

(** [id] points to a pending block with a header of the same hash, and no
    other block is pending for that hash. *)
Definition queue_entry r (id : nat) : Prop :=
  exists pb hd, objects r !! id = Some pb /\ pheader pb = Some hd /\ HeaderHash hd = phash pb /\
    (pendingBlocksByHash r !! phash pb = Some id \/ pendingBlocksByHash r !! phash pb = None).

Record rm_inv held r : Prop := {
  inv_fresh : forall id, is_Some (objects r !! id) -> (id < next r)%nat;
  inv_nodup : NoDup (pendingBlocks r);
  inv_list : forall id, id ∈ pendingBlocks r -> exists pb,
    objects r !! id = Some pb /\ pendingBlocksByHash r !! phash pb = Some id;
  inv_map : forall h id, pendingBlocksByHash r !! h = Some id ->
    id ∈ pendingBlocks r /\ phash (obj r id) = h;
  inv_queue_nodup : NoDup (queued r held);
  inv_queue : forall id, id ∈ queued r held -> queue_entry r id;
  inv_heap : is_heap (header_key r) (length (pendingBlocksWithHeader r)) (pendingBlocksWithHeader r);
  inv_queued : forall id, id ∈ pendingBlocks r -> is_Some (pheader (obj r id)) -> id ∈ queued r held;
  inv_active : (size (activePeers r) <= MaxNumPeersToSendRequests)%nat;
  inv_scores : forall p s, activePeers r !! p = Some s -> s <= MaxPeerActiveScore
}.

(** An entry of the heap is pending, or its block is in the chain. *)
Definition heap_known {S} `{!Store S} (ch : Chain S) r : Prop :=
  forall id, id ∈ pendingBlocksWithHeader r ->
    id ∈ pendingBlocks r \/ is_Some (findBlock ch (phash (obj r id))).

(** *** Lemmas *)

Lemma obj_lookup r id pb : objects r !! id = Some pb -> obj r id = pb.
Proof. intros Ho. unfold obj. by rewrite Ho. Qed.

Lemma obj_set r id pb id' : obj (set_obj r id pb) id' = if decide (id' = id) then pb else obj r id'.
Proof.
  unfold obj, set_obj; cbn. case_decide as Hd; subst.
  - by rewrite lookup_insert_eq.
  - by rewrite lookup_insert_ne.
Qed.

Lemma inv_pending held r id : rm_inv held r -> id ∈ pendingBlocks r ->
  objects r !! id = Some (obj r id) /\ pendingBlocksByHash r !! phash (obj r id) = Some id.
Proof. intros Hi (pb & Ho & Hm)%(inv_list _ _ Hi). by rewrite (obj_lookup _ _ _ Ho). Qed.

Lemma queue_entry_obj r id : queue_entry r id -> exists hd,
  objects r !! id = Some (obj r id) /\ pheader (obj r id) = Some hd /\ HeaderHash hd = phash (obj r id) /\
  (pendingBlocksByHash r !! phash (obj r id) = Some id \/
   pendingBlocksByHash r !! phash (obj r id) = None).
Proof. intros (pb & hd & Ho & ?). rewrite (obj_lookup _ _ _ Ho). eauto. Qed.

(** On entries of the queue the comparison of the heap is that of heights. *)
Lemma queue_keyed r l : (forall id, id ∈ l -> queue_entry r id) ->
  keyed_less (header_less r) (header_key r) l.
Proof.
  intros Hq i x j y (hx & _ & Hx & _)%Hq%queue_entry_obj (hy & _ & Hy & _)%Hq%queue_entry_obj.
  unfold header_less, header_key. by rewrite Hx, Hy.
Qed.

Lemma is_heap_key {A} (k k' : A -> Z) n l : (forall x, x ∈ l -> k x = k' x) ->
  is_heap k n l -> is_heap k' n l.
Proof.
  intros Hk Hl j Hj x y Hx Hy. rewrite <- !Hk by (by eapply list_elem_of_lookup_2). by apply (Hl j).
Qed.

(** *** Fields the invariant does not mention *)

(** Managers that differ only in quotas, times, tips and caches. *)
Definition same_pending r r' : Prop :=
  objects r' = objects r /\ next r' = next r /\ pendingBlocks r' = pendingBlocks r /\
  pendingBlocksByHash r' = pendingBlocksByHash r /\
  pendingBlocksWithHeader r' = pendingBlocksWithHeader r /\ activePeers r' = activePeers r.

Lemma rm_inv_same held r r' : same_pending r r' -> rm_inv held r -> rm_inv held r'.
Proof.
  destruct r, r'. unfold same_pending; cbn. intros (-> & -> & -> & -> & -> & ->) [].
  split; auto.
Qed.

Lemma rm_inv_active held r m k : (size m <= MaxNumPeersToSendRequests)%nat ->
  (forall p s, m !! p = Some s -> s <= MaxPeerActiveScore) ->
  rm_inv held r -> rm_inv held (with_active r m k).
Proof. intros Hs Hm []. split; auto. Qed.

Lemma NewRequestManager_inv `{!LRU L} : rm_inv [] NewRequestManager.
Proof.
  split; cbn; try apply NoDup_nil_2; try set_solver; try lia.
  - intros id [? Hx]. by rewrite lookup_empty in Hx.
  - intros j Hj. lia.
  - rewrite map_size_empty. lia.
Qed.

(** *** Updating a pending block *)

Lemma rm_inv_update held r id pb : is_Some (objects r !! id) ->
  phash pb = phash (obj r id) -> pheader pb = pheader (obj r id) ->
  rm_inv held r -> rm_inv held (set_obj r id pb).
Proof.
  intros [pb0 Ho] Hh Hd []. rewrite (obj_lookup _ _ _ Ho) in Hh, Hd.
  assert (Hlook : forall id' x, objects r !! id' = Some x -> exists x',
    <[id := pb]> (objects r) !! id' = Some x' /\ phash x' = phash x /\ pheader x' = pheader x).
  { intros id' x Hx. destruct (decide (id' = id)) as [->|].
    - exists pb. rewrite lookup_insert_eq. by simplify_eq.
    - exists x. by rewrite lookup_insert_ne. }
  assert (Hobj : forall id', phash (obj (set_obj r id pb) id') = phash (obj r id') /\
                             pheader (obj (set_obj r id pb) id') = pheader (obj r id')).
  { intros id'. rewrite obj_set. case_decide; subst; [|done]. by rewrite (obj_lookup _ _ _ Ho). }
  split; cbn; auto.
  - intros id' Hs. apply inv_fresh0. destruct (decide (id' = id)) as [->|]; [eauto|].
    by rewrite lookup_insert_ne in Hs.
  - intros id' (x & Hx & Hm)%inv_list0. destruct (Hlook _ _ Hx) as (x' & ? & Heq & _).
    exists x'. by rewrite Heq.
  - intros h id' [? <-]%inv_map0. by rewrite (proj1 (Hobj id')).
  - intros id' (x & hd & Hx & ? & ? & ?)%inv_queue0.
    destruct (Hlook _ _ Hx) as (x' & Hx' & Heq & Heq').
    exists x', hd. rewrite Heq, Heq'. eauto.
  - eapply is_heap_key; [|exact inv_heap0]. intros x _. unfold header_key. by rewrite (proj2 (Hobj x)).
  - intros id' Hin. rewrite (proj2 (Hobj id')). by apply inv_queued0.
Qed.

(** A new pending block has no header, and its hash is not in use. *)
Lemma rm_inv_push_pending held r pb :
  pheader pb = None -> pendingBlocksByHash r !! phash pb = None ->
  (forall id, id ∈ queued r held -> phash (obj r id) <> phash pb) ->
  rm_inv held r -> rm_inv held (push_pending r pb).
Proof.
  intros Hd Hnew Hstale [].
  assert (Hne : forall id, is_Some (objects r !! id) -> id <> next r).
  { intros id Hs%inv_fresh0. lia. }
  assert (Hobj : forall id, id <> next r -> obj (push_pending r pb) id = obj r id).
  { intros id Hid. unfold obj; cbn. by rewrite lookup_insert_ne. }
  assert (Hself : obj (push_pending r pb) (next r) = pb).
  { unfold obj; cbn. by rewrite lookup_insert_eq. }
  assert (Hpend : forall id, id ∈ pendingBlocks r -> id <> next r).
  { intros id (x & Hx & _)%inv_list0. apply Hne. eauto. }
  assert (Hq : forall id, id ∈ queued r held -> id <> next r).
  { intros id (x & hd & Hx & _)%inv_queue0. apply Hne. eauto. }
  split; cbn -[queued]; auto.
  - intros id Hs. destruct (decide (id = next r)) as [->|Hid]; [lia|].
    rewrite lookup_insert_ne in Hs by done. apply inv_fresh0 in Hs. lia.
  - apply NoDup_app. split_and!; [done| |apply NoDup_singleton].
    intros id Hid ->%list_elem_of_singleton. by apply (Hpend _ Hid).
  - intros id [Hid| ->%list_elem_of_singleton]%elem_of_app.
    + destruct (inv_list0 _ Hid) as (x & Hx & Hm). exists x.
      rewrite lookup_insert_ne by (symmetry; by apply Hpend). split; [done|].
      rewrite lookup_insert_ne; [done|congruence].
    + exists pb. by rewrite !lookup_insert_eq.
  - intros h id. destruct (decide (h = phash pb)) as [->|Hh].
    + rewrite lookup_insert_eq. intros [= <-]. rewrite Hself. set_solver.
    + rewrite lookup_insert_ne by done. intros [Hin <-]%inv_map0.
      rewrite Hobj by (by apply Hpend). set_solver.
  - intros id Hid. destruct (inv_queue0 id Hid) as (x & hd & Hx & Hh & Heq & Hm). exists x, hd. cbn.
    rewrite lookup_insert_ne by (symmetry; by apply Hq). split_and!; [done..|].
    rewrite lookup_insert_ne; [done|]. specialize (Hstale id Hid).
    rewrite (obj_lookup _ _ _ Hx) in Hstale. done.
  - eapply is_heap_key; [|exact inv_heap0]. intros x Hx. unfold header_key. rewrite Hobj; [done|].
    apply Hq. unfold queued. set_solver.
  - intros id [Hid| ->%list_elem_of_singleton]%elem_of_app.
    + rewrite Hobj by (by apply Hpend). by apply inv_queued0.
    + rewrite Hself, Hd. by intros [? ?].
Qed.

(** *** The heap *)

Lemma rm_inv_requeue held held' r heap :
  heap ++ held' ≡ₚ queued r held -> is_heap (header_key r) (length heap) heap ->
  rm_inv held r -> rm_inv held' (with_heap r heap).
Proof.
  intros Hp Hh []. split; cbn; auto; unfold queued; cbn.
  - by rewrite Hp.
  - intros id. rewrite Hp. apply inv_queue0.
  - intros id. rewrite Hp. apply inv_queued0.
Qed.

(** The entry popped from the heap has the least height. *)
Lemma rm_inv_pop held r id rest :
  heap_Pop (header_less r) (pendingBlocksWithHeader r) = Some (id, rest) ->
  rm_inv held r -> rm_inv (held ++ [id]) (with_heap r rest) /\
  forall id', id' ∈ pendingBlocksWithHeader r -> header_key r id <= header_key r id'.
Proof.
  intros Hpop Hi. pose proof (heap_Pop_perm _ _ _ _ Hpop) as Hp.
  assert (keyed_less (header_less r) (header_key r) (pendingBlocksWithHeader r)) as Hk.
  { apply queue_keyed. intros x Hx. apply (inv_queue _ _ Hi). unfold queued. set_solver. }
  destruct (heap_Pop_heap _ _ _ _ _ Hk (inv_heap _ _ Hi) Hpop) as [Hh Hmin]. split; [|done].
  eapply rm_inv_requeue; [|exact Hh|exact Hi]. unfold queued. rewrite <- Hp. solve_Permutation.
Qed.

Lemma rm_inv_push id held r : rm_inv (id :: held) r -> rm_inv held (push_header r id).
Proof.
  intros Hi. unfold push_header.
  assert (keyed_less (header_less r) (header_key r) (id :: pendingBlocksWithHeader r)) as Hk.
  { apply queue_keyed. intros x Hx. apply (inv_queue _ _ Hi). unfold queued. set_solver. }
  pose proof (heap_Push_perm (header_less r) (pendingBlocksWithHeader r) id) as Hp.
  eapply rm_inv_requeue; [| |exact Hi].
  - rewrite Hp. unfold queued. solve_Permutation.
  - rewrite (Permutation_length Hp). apply heap_Push_heap; [exact Hk|exact (inv_heap _ _ Hi)].
Qed.

Lemma rm_inv_header held r id header :
  id ∈ pendingBlocks r -> pheader (obj r id) = None -> HeaderHash header = phash (obj r id) ->
  rm_inv held r -> rm_inv held (push_header (set_obj r id (set_header (obj r id) header)) id).
Proof.
  intros Hin Hd Hh Hi. apply rm_inv_push.
  destruct (inv_pending _ _ _ Hi Hin) as [Ho Hm]. set (pb := obj r id) in *.
  assert (Hnew : id ∉ queued r held).
  { intros (hd & _ & Heq & _)%(inv_queue _ _ Hi)%queue_entry_obj. fold pb in Heq. congruence. }
  assert (Hobj : forall id', phash (obj (set_obj r id (set_header pb header)) id') = phash (obj r id')).
  { intros id'. rewrite obj_set. by case_decide; subst. }
  assert (Hkeep : forall id', id' <> id -> obj (set_obj r id (set_header pb header)) id' = obj r id').
  { intros id' Hne. by rewrite obj_set, decide_False. }
  destruct Hi. split; cbn; auto.
  - intros id' Hs. destruct (decide (id' = id)) as [->|]; [apply inv_fresh0; eauto|].
    rewrite lookup_insert_ne in Hs by done. auto.
  - intros id' Hid'. destruct (decide (id' = id)) as [->|Hne].
    + exists (set_header pb header). by rewrite lookup_insert_eq.
    + rewrite lookup_insert_ne by done. auto.
  - intros h id' [? <-]%inv_map0. by rewrite Hobj.
  - unfold queued in *; cbn. rewrite <- Permutation_middle. by constructor.
  - intros id' Hid'. destruct (decide (id' = id)) as [->|Hne].
    + exists (set_header pb header), header. cbn. rewrite lookup_insert_eq. auto.
    + destruct (inv_queue0 id') as (x & hd & ?); [unfold queued in *; cbn in *; set_solver|].
      exists x, hd. cbn. by rewrite lookup_insert_ne.
  - eapply is_heap_key; [|exact inv_heap0]. intros x Hx. unfold header_key. rewrite Hkeep; [done|].
    intros ->. apply Hnew. unfold queued. set_solver.
  - intros id' Hid'. unfold queued; cbn. destruct (decide (id' = id)) as [->|Hne]; [set_solver|].
    rewrite Hkeep by done. intros Hs. pose proof (inv_queued0 id' Hid' Hs) as Hq.
    unfold queued in Hq. set_solver.
Qed.

(** *** Removing *)

Lemma elem_of_list_Remove l el x : x ∈ list_Remove l el <-> x ∈ l /\ x <> el.
Proof. unfold list_Remove. rewrite list_elem_of_filter. tauto. Qed.

Lemma list_Remove_nodup l el : NoDup l -> NoDup (list_Remove l el).
Proof. apply NoDup_filter. Qed.

Lemma rm_inv_remove held r el : el ∈ pendingBlocks r ->
  rm_inv held r -> rm_inv (list_Remove held el) (removeEl r el).
Proof.
  intros Hel Hi. destruct (inv_pending _ _ _ Hi Hel) as [Ho Hm]. set (h := phash (obj r el)) in *.
  assert (Hother : forall id x, objects r !! id = Some x -> id <> el ->
            pendingBlocksByHash r !! phash x = Some id -> phash x <> h) by congruence.
  destruct Hi. split; cbn; auto.
  - by apply list_Remove_nodup.
  - intros id [Hid Hne]%elem_of_list_Remove. destruct (inv_list0 _ Hid) as (x & Hx & Hmx).
    exists x. split; [done|]. rewrite lookup_delete_ne; [done|]. intros Heq.
    by apply (Hother id x Hx Hne Hmx).
  - intros h' id [Hne Hid]%lookup_delete_Some. destruct (inv_map0 _ _ Hid) as [Hin Hh].
    split; [|done]. apply elem_of_list_Remove. split; [done|]. intros ->. by apply Hne.
  - unfold queued in *; cbn. apply NoDup_app in inv_queue_nodup0 as (Hn1 & Hn2 & Hn3).
    apply NoDup_app. split_and!; [done| |by apply list_Remove_nodup].
    intros x Hx [Hx' _]%elem_of_list_Remove. by apply (Hn2 x).
  - intros id Hid. destruct (inv_queue0 id) as (x & hd & Hx & Hd & Hh & Hmx).
    { unfold queued in *; cbn in *. apply elem_of_app in Hid as [?|[? _]%elem_of_list_Remove]; set_solver. }
    exists x, hd. split_and!; [done..|]. cbn. destruct (decide (phash x = h)) as [->|Hne].
    + right. apply lookup_delete_eq.
    + by rewrite lookup_delete_ne.
  - intros id [Hid Hne]%elem_of_list_Remove Hs. pose proof (inv_queued0 id Hid Hs) as Hq.
    unfold queued in *; cbn. apply elem_of_app in Hq as [Hq|Hq]; apply elem_of_app; [by left|right].
    by apply elem_of_list_Remove.
Qed.

Lemma rm_inv_removes l held r : NoDup l -> (forall el, el ∈ l -> el ∈ pendingBlocks r) ->
  rm_inv held r -> rm_inv (foldl list_Remove held l) (foldl removeEl r l).
Proof.
  revert held r. induction l as [|el l IH]; intros held r Hl Hin Hi; cbn [foldl]; [done|].
  apply NoDup_cons in Hl as [Hnot Hl]. apply IH; [done| |].
  - intros x Hx. apply elem_of_list_Remove. split; [set_solver|]. by intros ->.
  - apply rm_inv_remove; [set_solver|done].
Qed.

Lemma list_Remove_all l : foldl list_Remove l l = [].
Proof.
  assert (forall k x, x ∈ foldl list_Remove k l <-> x ∈ k /\ x ∉ l) as Hk.
  { induction l as [|y l IH]; intros k x; cbn [foldl]; [set_solver|].
    rewrite IH, elem_of_list_Remove. set_solver. }
  apply elem_of_nil_inv. intros x. rewrite Hk. tauto.
Qed.

(** *** Cleaning the heap *)

Lemma clean_fold r (P : nat -> Prop) `{!forall x, Decision (P x)} l q :
  (forall id, id ∈ q ++ l -> queue_entry r id) -> is_heap (header_key r) (length q) q ->
  let q' := foldl (fun q id => if bool_decide (P id) then heap_Push (header_less r) q id else q) q l in
  q' ≡ₚ q ++ filter P l /\ is_heap (header_key r) (length q') q'.
Proof.
  revert q. induction l as [|id l IH]; intros q Hq Hh; cbn [foldl].
  { by rewrite filter_nil, app_nil_r. }
  case_bool_decide as Hp.
  - pose proof (heap_Push_perm (header_less r) q id) as Hperm.
    destruct (IH (heap_Push (header_less r) q id)) as [H1 H2].
    + intros x. rewrite Hperm. set_solver.
    + rewrite (Permutation_length Hperm). apply heap_Push_heap; [|done].
      apply queue_keyed. set_solver.
    + split; [|done]. rewrite H1, Hperm, filter_cons_True by done. solve_Permutation.
  - rewrite filter_cons_False by done. apply IH; [set_solver|done].
Qed.

(** After cleaning, the heap holds the pending blocks whose header is known. *)
Lemma rm_inv_clean r : rm_inv [] r -> rm_inv [] (clean_headers r) /\
  forall id, id ∈ pendingBlocksWithHeader (clean_headers r) <->
    id ∈ pendingBlocks r /\ is_Some (pheader (obj r id)).
Proof.
  intros Hi. unfold clean_headers.
  set (P := fun id => is_Some (pendingBlocksByHash r !! phash (obj r id))).
  destruct (clean_fold r P (pendingBlocksWithHeader r) []) as [Hp Hh].
  { intros id Hid. apply (inv_queue _ _ Hi). unfold queued. set_solver. }
  { intros j Hj. cbn in Hj. lia. }
  set (q := foldl _ _ _) in *. cbn [app] in Hp.
  assert (Hq : forall id, id ∈ q <-> id ∈ pendingBlocks r /\ is_Some (pheader (obj r id))).
  { intros id. rewrite Hp, list_elem_of_filter. unfold P. split.
    - intros [[el Hel] Hid]. pose proof (inv_queue _ _ Hi id) as Hent. unfold queued in Hent.
      rewrite app_nil_r in Hent. destruct (queue_entry_obj _ _ (Hent Hid)) as (hd & _ & -> & _ & [Hm|Hm]);
        [|congruence]. split; [by apply (inv_map _ _ Hi) in Hm as [? _]|eauto].
    - intros [Hid Hs]. split; [by destruct (inv_pending _ _ _ Hi Hid) as [_ ->]|].
      pose proof (inv_queued _ _ Hi id Hid Hs) as Hin. unfold queued in Hin. by rewrite app_nil_r in Hin. }
  split; [|exact Hq]. destruct Hi. split; cbn; auto; unfold queued in *; cbn; rewrite ?app_nil_r in *.
  - rewrite Hp. by apply NoDup_filter.
  - intros id Hid. apply inv_queue0. rewrite Hp, list_elem_of_filter in Hid. tauto.
  - intros id Hid Hs. by apply Hq.
Qed.
End Invariant.

(** ** Weakest preconditions *)

Section WeakestPre.
Context {C W L : Type}.
Implicit Types (n : Node C W L).

(** [m] returns from [n], with a result and a node that satisfy [Q]. *)
Definition wp {A} (m : T C W L A) (Q : A -> Node C W L -> Prop) n : Prop :=
  match m n with Ok (a, n') => Q a n' | _ => False end.

Lemma wp_seq {A B} (m : T C W L A) (f : A -> T C W L B) Q n :
  wp m (fun a n' => wp (f a) Q n') n -> wp (m ≫= f) Q n.
Proof. unfold wp, mbind, T_bind. by destruct (m n) as [[a n']| |]. Qed.

Lemma wp_weaken {A} (m : T C W L A) (P Q : A -> Node C W L -> Prop) n :
  wp m P n -> (forall a n', P a n' -> Q a n') -> wp m Q n.
Proof. unfold wp. destruct (m n) as [[a n']| |]; auto. Qed.

Lemma wp_world {A} (f : W -> A * W) Q n :
  (forall a w, Q a (mkNode (requestMgr n) (consensus n) w (voteCache n) (outbox n) (consumed n))) ->
  wp (on_world f) Q n.
Proof. unfold wp, on_world. intros HQ. destruct (f (world n)). apply HQ. Qed.

(** As [wp_world], keeping a property of the value that holds in any world. *)
Lemma wp_world_with {A} (P : A -> Prop) (f : W -> A * W) Q n : (forall w, P (f w).1) ->
  (forall a w, P a -> Q a (mkNode (requestMgr n) (consensus n) w (voteCache n) (outbox n) (consumed n))) ->
  wp (on_world f) Q n.
Proof.
  unfold wp, on_world. intros HP HQ. specialize (HP (world n)). destruct (f (world n)). by apply HQ.
Qed.

Lemma wp_ok {A} (m : T C W L A) Q n : wp m Q n -> exists a n', m n = Ok (a, n') /\ Q a n'.
Proof. unfold wp. destruct (m n) as [[a n']| |]; [eauto|done|done]. Qed.
End WeakestPre.

(** ** The methods *)

(** The entries of the block requests in a list of packets. *)
Definition entries (ps : list Packet) : Z := sumZ (fun p =>
  match p with GetData _ req => Z.of_nat (length (ReqEntries req)) | _ => 0 end) ps.

Section Methods.
Context `{BlockCrypto} {S : Type} `{!Store S} {C : Type} `{!Consensus S C}.
Context {W : Type} `{!World W} {L : Type} `{!LRU L} `{!HashText}.
Implicit Types (n : Node C W L) (r : RequestManager L) (held : list nat) (gossip : bool).

(** A request for pending blocks: one peer, one to four hashes. *)
Definition request_ok r (p : Packet) : Prop :=
  match p with
  | GetData [peer] req => ReqChannel req = ChannelIDBlock /\
      (1 <= length (ReqEntries req) <= MaxBlocksPerRequest)%nat /\
      Forall (fun e => exists h, e = HashHex h /\ is_Some (pendingBlocksByHash r !! h)) (ReqEntries req)
  | _ => False
  end.

Definition quota r : Z := gossipQuota r + fastsyncQuota r.
Definition quotas_ok r : Prop :=
  0 <= gossipQuota r <= GossipRequestQuotaPerSecond /\ 0 <= fastsyncQuota r <= FastsyncRequestQuota.

(** What the download loops do to the node: only requests are sent, each entry
    is paid from the quota (up to [k] buffered entries), and the list and the
    map of pending blocks stay. *)
Record spends (k : Z) n n' : Prop := {
  sp_consensus : consensus n' = consensus n;
  sp_votes : voteCache n' = voteCache n;
  sp_consumed : consumed n' = consumed n;
  sp_tip : fastSyncTip (requestMgr n') = fastSyncTip (requestMgr n);
  sp_list : pendingBlocks (requestMgr n') = pendingBlocks (requestMgr n);
  sp_map : pendingBlocksByHash (requestMgr n') = pendingBlocksByHash (requestMgr n);
  sp_hash : forall id, phash (obj (requestMgr n') id) = phash (obj (requestMgr n) id);
  sp_sent : exists ps, outbox n' = outbox n ++ ps /\ Forall (request_ok (requestMgr n)) ps /\
    entries ps + quota (requestMgr n') <= quota (requestMgr n) + k
}.

Lemma entries_app ps qs : entries (ps ++ qs) = entries ps + entries qs.
Proof. apply sumZ_app. Qed.

Lemma request_ok_map r r' p : pendingBlocksByHash r' = pendingBlocksByHash r ->
  request_ok r' p -> request_ok r p.
Proof. unfold request_ok. by intros ->. Qed.

Lemma spends_refl n : spends 0 n n.
Proof.
  split; try done. exists []. rewrite app_nil_r. split_and!; [done|constructor|]. cbn. unfold entries, sumZ. cbn. lia.
Qed.

Lemma spends_trans k1 k2 n1 n2 n3 : spends k1 n1 n2 -> spends k2 n2 n3 -> spends (k1 + k2) n1 n3.
Proof.
  intros [] []. destruct sp_sent0 as (ps & Hps & Fps & Eps), sp_sent1 as (qs & Hqs & Fqs & Eqs).
  split; try congruence.
  exists (ps ++ qs). split_and!.
  - by rewrite Hqs, Hps, app_assoc.
  - apply Forall_app. split; [done|]. eapply Forall_impl; [exact Fqs|].
    intros p. by apply request_ok_map.
  - rewrite entries_app. lia.
Qed.

Lemma spends_le k k' n n' : k <= k' -> spends k n n' -> spends k' n n'.
Proof.
  intros Hk []. split; try done. destruct sp_sent0 as (ps & ? & ? & ?). exists ps. split_and!; [done..|lia].
Qed.

(** The invariant of the loops. *)
Definition loop_inv held n : Prop := rm_inv held (requestMgr n) /\ quotas_ok (requestMgr n).

(** Reading the clock and other parts of the world costs nothing. *)
Lemma spends_world n w :
  spends 0 n (mkNode (requestMgr n) (consensus n) w (voteCache n) (outbox n) (consumed n)).
Proof. destruct (spends_refl n). by split. Qed.

Lemma wp_time (Q : Z -> Node C W L -> Prop) n :
  (forall t w, Q t (mkNode (requestMgr n) (consensus n) w (voteCache n) (outbox n) (consumed n))) ->
  wp time_now Q n.
Proof. apply wp_world. Qed.

Lemma wp_use_quota (gossip : bool) held n :
  loop_inv held n -> 0 < (if gossip then gossipQuota (requestMgr n) else fastsyncQuota (requestMgr n)) ->
  wp (use_quota gossip) (fun _ n' => loop_inv held n' /\ spends (-1) n n' /\
    pendingBlocksWithHeader (requestMgr n') = pendingBlocksWithHeader (requestMgr n)) n.
Proof.
  intros [Hi [Hg Hf]] Hpos. unfold wp, use_quota, on_rm, modify.
  assert (forall q, 0 < q <= 10 -> u64_sub q 1 = q - 1) as Hsub.
  { intros q Hq. unfold u64_sub, wrap64. apply Z.mod_small. unfold two64. lia. }
  assert (FastsyncRequestQuota = 8 /\ GossipRequestQuotaPerSecond = 10) as [Ef Eg] by done.
  rewrite Ef, Eg in *.
  assert (Hsp : forall g f, g + f = quota (requestMgr n) - 1 -> spends (-1) n
    (mkNode (with_quotas (requestMgr n) g f) (consensus n) (world n) (voteCache n) (outbox n) (consumed n))).
  { intros g f Hgf. split; cbn; try done. exists []. rewrite app_nil_r.
    split_and!; [done|constructor|]. unfold entries, sumZ, quota in *; cbn. lia. }
  destruct gossip; rewrite Hsub by lia; (split; [split; [eapply rm_inv_same; [|exact Hi]; repeat split|]|split; [|done]]);
    try (apply Hsp; unfold quota; lia); unfold quotas_ok; cbn; rewrite Ef, Eg; lia.
Qed.

Lemma wp_mark_waiting id st held n : is_Some (objects (requestMgr n) !! id) ->
  loop_inv held n -> wp (mark_waiting id st) (fun _ n' => loop_inv held n' /\ spends 0 n n' /\
    gossipQuota (requestMgr n') = gossipQuota (requestMgr n) /\
    fastsyncQuota (requestMgr n') = fastsyncQuota (requestMgr n) /\
    pendingBlocksWithHeader (requestMgr n') = pendingBlocksWithHeader (requestMgr n)) n.
Proof.
  intros Ho [Hi Hq]. apply wp_seq, wp_time. intros t w. unfold wp, on_rm, modify; cbn.
  split_and!; try done.
  - split; [by apply rm_inv_update|exact Hq].
  - destruct (spends_refl n) as [? ? ? ? ? ? ? Hs]. split; cbn; try done.
    intros id'. rewrite obj_set. by case_decide; subst.
Qed.

Lemma wp_send p held n : request_ok (requestMgr n) p -> loop_inv held n ->
  wp (send p) (fun _ n' => loop_inv held n' /\ spends (entries [p]) n n' /\
    requestMgr n' = requestMgr n) n.
Proof.
  intros Hp Hi. unfold wp, send, modify. split_and!; [exact Hi| |done]. split; cbn; try done.
  exists [p]. split_and!; [done|by constructor|lia].
Qed.

Lemma request_one r peer h : is_Some (pendingBlocksByHash r !! h) ->
  request_ok r (GetData [peer] (mkDataRequest ChannelIDBlock [HashHex h])).
Proof.
  intros Hh. split; [done|split; [cbn; unfold MaxBlocksPerRequest; lia|]].
  constructor; [by exists h|constructor].
Qed.

Lemma wp_request_hash id n : id ∈ pendingBlocks (requestMgr n) -> loop_inv [] n ->
  0 < (if fromGossip (obj (requestMgr n) id) then gossipQuota (requestMgr n)
       else fastsyncQuota (requestMgr n)) ->
  wp (request_hash id) (fun _ n' => loop_inv [] n' /\ spends 0 n n') n.
Proof.
  intros Hid Hi Hpos. destruct (inv_pending _ _ _ (proj1 Hi) Hid) as [Ho Hm].
  unfold request_hash. apply wp_seq. unfold wp at 1, get_rm, gets.
  apply wp_seq, wp_world. intros i w. set (n1 := mkNode _ _ w _ _ _).
  pose proof (spends_world n w) as Hs1. fold n1 in Hs1.
  apply wp_seq. eapply wp_weaken; [apply (wp_send _ []); [apply request_one; eauto|exact Hi]|].
  intros _ n2 (Hi2 & Hs2 & Hr2). cbn in Hr2.
  apply wp_seq. eapply wp_weaken; [apply (wp_mark_waiting id _ []); [rewrite Hr2; eauto|exact Hi2]|].
  intros _ n3 (Hi3 & Hs3 & Hg & Hf & _). rewrite Hr2 in Hg, Hf.
  eapply wp_weaken; [apply (wp_use_quota _ []); [exact Hi3|]|].
  { by rewrite Hg, Hf. }
  intros _ n4 (Hi4 & Hs4 & _). split; [done|].
  eapply spends_le; [|eapply spends_trans; [exact Hs1|eapply spends_trans; [exact Hs2|
    eapply spends_trans; [exact Hs3|exact Hs4]]]]. unfold entries, sumZ; cbn. lia.
Qed.

(** Reading the age of a request. *)
Lemma wp_HasExpired id n Q :
  (forall b w, Q b (mkNode (requestMgr n) (consensus n) w (voteCache n) (outbox n) (consumed n))) ->
  wp (HasExpired id) Q n.
Proof. intros HQ. apply wp_seq, wp_time. intros t w. apply HQ. Qed.

Lemma wp_HasTimedOut id n Q :
  (forall b w, Q b (mkNode (requestMgr n) (consensus n) w (voteCache n) (outbox n) (consumed n))) ->
  wp (HasTimedOut id) Q n.
Proof. intros HQ. apply wp_seq, wp_time. intros t w. apply HQ. Qed.

Context (cfg : SyncConfig).

Lemma requestable_quota r id : requestable cfg r id = true ->
  0 < (if fromGossip (obj r id) then gossipQuota r else fastsyncQuota r).
Proof. unfold requestable. destruct (fromGossip (obj r id)); cbn; intros; bool_to_prop; lia. Qed.

Lemma wp_hash_loop ids n : NoDup ids -> (forall id, id ∈ ids -> id ∈ pendingBlocks (requestMgr n)) ->
  loop_inv [] n ->
  wp (hash_loop cfg ids) (fun rem n' => loop_inv [] n' /\ spends 0 n n' /\ NoDup rem /\
    forall id, id ∈ rem -> id ∈ ids) n.
Proof.
  revert n. induction ids as [|id ids IH]; intros n Hnd Hin Hi; cbn [hash_loop].
  { unfold wp, ret. split_and!; [done|apply spends_refl|constructor|done]. }
  apply NoDup_cons in Hnd as [Hnot Hnd].
  apply wp_seq. unfold wp at 1, get_rm, gets. set (r := requestMgr n).
  destruct (_ && _) eqn:Hquota.
  { unfold wp, ret. split_and!; [done|apply spends_refl|constructor|set_solver]. }
  apply wp_seq, wp_HasExpired. intros expired w1. set (n1 := mkNode _ _ w1 _ _ _).
  pose proof (spends_world n w1 : spends 0 n n1) as Hs1.
  apply wp_seq.
  assert (forall (b : bool) w2, wp (if b then rest ← hash_loop cfg ids; ret (id :: rest)
    else _ ← (if requestable cfg r id then request_hash id else ret tt); hash_loop cfg ids)
    (fun rem n' => loop_inv [] n' /\ spends 0 n n' /\ NoDup rem /\ forall x, x ∈ rem -> x ∈ id :: ids)
    (mkNode r (consensus n) w2 (voteCache n) (outbox n) (consumed n))) as Hrest.
  { intros b w2. set (n2 := mkNode r _ w2 _ _ _). pose proof (spends_world n w2 : spends 0 n n2) as Hs2.
    assert (Hcont : forall n3, loop_inv [] n3 -> spends 0 n2 n3 ->
      wp (hash_loop cfg ids) (fun rem n' => loop_inv [] n' /\ spends 0 n n' /\ NoDup rem /\
        forall x, x ∈ rem -> x ∈ ids) n3).
    { intros n3 Hi3 Hs3. eapply wp_weaken; [apply IH; [done| |done]|].
      - intros x Hx. rewrite (sp_list _ _ _ Hs3). cbn. apply Hin. set_solver.
      - intros rem n4 (Hi4 & Hs4 & Hn4 & Hsub). split_and!; [done| |done|done].
        eapply (spends_trans 0 0); [exact Hs2|]. by eapply (spends_trans 0 0). }
    destruct b.
    - apply wp_seq. eapply wp_weaken; [apply (Hcont n2); [exact Hi|apply spends_refl]|].
      intros rem n4 (Hi4 & Hs4 & Hn4 & Hsub). unfold wp, ret.
      split_and!; [done|done| |set_solver]. constructor; [|done]. by intros ?%Hsub.
    - apply wp_seq. eapply (wp_weaken _ (fun _ n3 => loop_inv [] n3 /\ spends 0 n2 n3)).
      + destruct (requestable cfg r id) eqn:Hreq; [|split; [exact Hi|apply spends_refl]].
        apply wp_request_hash; [cbn; set_solver|exact Hi|]. by apply requestable_quota in Hreq.
      + intros _ n3 [Hi3 Hs3]. eapply wp_weaken; [by apply (Hcont n3)|].
        intros rem n4 (? & ? & ? & ?). split_and!; [done..|set_solver]. }
  destruct expired; [exact (Hrest true w1)|].
  apply wp_HasTimedOut. intros timedOut w2. exact (Hrest timedOut w2).
Qed.

(** *** Downloading by header *)

(** The entries buffered for the peers. *)
Definition buffered (pm : gmap string (list string)) : Z :=
  sumZ (fun p => Z.of_nat (length p.2)) (map_to_list pm).

Definition entry_ok r (e : string) : Prop :=
  exists h, e = HashHex h /\ is_Some (pendingBlocksByHash r !! h).

Definition buffers_ok r (pm : gmap string (list string)) : Prop :=
  forall peer es, pm !! peer = Some es ->
    (length es < MaxBlocksPerRequest)%nat /\ Forall (entry_ok r) es.

Lemma buffered_insert pm p es :
  buffered (<[p := es]> pm) = buffered pm - Z.of_nat (length (default [] (pm !! p))) + Z.of_nat (length es).
Proof.
  unfold buffered. destruct (pm !! p) as [old|] eqn:Hp; cbn [default from_option].
  - rewrite <- (insert_delete_id pm p old Hp) at 2. rewrite <- (insert_delete_eq pm p es).
    rewrite !map_to_list_insert by apply lookup_delete_eq. rewrite !sumZ_cons. cbn. lia.
  - rewrite map_to_list_insert by done. rewrite sumZ_cons. cbn. lia.
Qed.

Lemma buffers_ok_insert r pm p es : (length es < MaxBlocksPerRequest)%nat -> Forall (entry_ok r) es ->
  buffers_ok r pm -> buffers_ok r (<[p := es]> pm).
Proof.
  intros Hl He Hpm q qs [[-> ->]|[_ Hq]]%lookup_insert_Some; [done|by apply (Hpm q)].
Qed.

Lemma wp_buffer_request pm peer h held n : buffers_ok (requestMgr n) pm ->
  is_Some (pendingBlocksByHash (requestMgr n) !! h) -> loop_inv held n ->
  wp (buffer_request pm peer h) (fun pm' n' => loop_inv held n' /\ requestMgr n' = requestMgr n /\
    buffers_ok (requestMgr n) pm' /\ spends (buffered pm + 1 - buffered pm') n n') n.
Proof.
  intros Hpm Hh Hi. unfold buffer_request. set (old := default [] (pm !! peer)).
  assert ((length old < MaxBlocksPerRequest)%nat /\ Forall (entry_ok (requestMgr n)) old) as [Hl Ho].
  { unfold old. destruct (pm !! peer) eqn:Hp; cbn; [by apply (Hpm peer)|].
    split; [unfold MaxBlocksPerRequest; lia|constructor]. }
  assert (Forall (entry_ok (requestMgr n)) (old ++ [HashHex h])) as Hnew.
  { apply Forall_app. split; [done|]. constructor; [by exists h|constructor]. }
  assert (length (old ++ [HashHex h]) = Datatypes.S (length old)) as Hlen by (rewrite length_app; cbn; lia).
  destruct (Nat.eqb_spec (length (old ++ [HashHex h])) MaxBlocksPerRequest) as [Hfull|Hfull].
  - apply wp_seq. eapply wp_weaken; [apply (wp_send _ held); [|done]|].
    { split; [done|split; [cbn -[app]; unfold MaxBlocksPerRequest in *; lia|exact Hnew]]. }
    intros _ n' (Hi' & Hs & Hr). unfold wp, ret. split_and!; [done..| |].
    + apply buffers_ok_insert; [unfold MaxBlocksPerRequest; cbn; lia|constructor|done].
    + eapply spends_le; [|exact Hs]. rewrite buffered_insert. fold old.
      unfold entries, sumZ; cbn -[app]. rewrite Hlen. cbn. lia.
  - unfold wp, ret. split_and!; [done..| |].
    + apply buffers_ok_insert; [lia|done..].
    + eapply spends_le; [|apply spends_refl]. rewrite buffered_insert. fold old. rewrite Hlen. lia.
Qed.

Lemma wp_first_connected l n Q :
  (forall p w, Q p (mkNode (requestMgr n) (consensus n) w (voteCache n) (outbox n) (consumed n))) ->
  wp (first_connected l) Q n.
Proof.
  revert n. induction l as [|p l IH]; intros n HQ; cbn [first_connected].
  { destruct n. apply HQ. }
  apply wp_seq, wp_world. intros e w. destruct e; [apply HQ|]. apply IH. intros. apply HQ.
Qed.

(** Requesting the body of a pending block keeps the loop invariant and pays
    for what is sent or buffered; the heap is not touched. *)
Definition body_post held n pm (pm' : gmap string (list string)) n' : Prop :=
  loop_inv held n' /\ buffers_ok (requestMgr n) pm' /\ spends (buffered pm - buffered pm') n n' /\
  pendingBlocksWithHeader (requestMgr n') = pendingBlocksWithHeader (requestMgr n).

Lemma body_post_world held n pm pm' w n' :
  body_post held (mkNode (requestMgr n) (consensus n) w (voteCache n) (outbox n) (consumed n)) pm pm' n' ->
  body_post held n pm pm' n'.
Proof.
  intros (Hi & Hb & Hs & Hh). split_and!; try done.
  eapply (spends_trans 0); [apply spends_world|exact Hs].
Qed.

Lemma body_post_skip held n pm : buffers_ok (requestMgr n) pm -> loop_inv held n -> body_post held n pm pm n.
Proof. intros Hpm Hi. split_and!; try done. rewrite Z.sub_diag. apply spends_refl. Qed.

Section Body.
Context (id : nat) (pm : gmap string (list string)) (held : list nat).

(** A pending block, and quota left to request it. *)
Definition body_pre n : Prop := buffers_ok (requestMgr n) pm /\
  is_Some (objects (requestMgr n) !! id) /\
  is_Some (pendingBlocksByHash (requestMgr n) !! phash (obj (requestMgr n) id)) /\
  0 < fastsyncQuota (requestMgr n) /\ loop_inv held n.

Lemma wp_ask_for_body n : body_pre n -> wp (ask_for_body id pm) (body_post held n pm) n.
Proof.
  intros (Hpm & Ho & Hm & Hq & Hi). unfold ask_for_body. apply wp_seq. unfold wp at 1, get_rm, gets.
  apply wp_seq, wp_world. intros l w1. apply wp_seq, wp_first_connected. intros p w2; cbn.
  apply (wp_weaken _ (body_post held (mkNode (requestMgr n) (consensus n) w2 (voteCache n) (outbox n) (consumed n)) pm));
    [|intros pm' n'; apply body_post_world].
  set (n1 := mkNode _ _ w2 _ _ _). destruct (_ =? 0)%nat; [by apply body_post_skip|].
  apply wp_seq. eapply wp_weaken; [by apply (wp_buffer_request pm p (phash (obj (requestMgr n) id)) held)|].
  intros pm' n2 (Hi2 & Hr2 & Hpm' & Hs2). cbn in Hr2.
  apply wp_seq. eapply wp_weaken; [apply (wp_mark_waiting id _ held); [by rewrite Hr2|done]|].
  intros _ n3 (Hi3 & Hs3 & _ & Hf & Hh3). rewrite Hr2 in Hf, Hh3.
  apply wp_seq. eapply wp_weaken; [apply (wp_use_quota false held); [done|by rewrite Hf]|].
  intros _ n4 (Hi4 & Hs4 & Hh4). split_and!; [exact Hi4|done| |].
  - eapply spends_le; [|eapply spends_trans; [exact Hs2|eapply spends_trans; [exact Hs3|exact Hs4]]]. lia.
  - by rewrite Hh4, Hh3.
Qed.

Lemma wp_body_due n Q :
  (forall b w, Q b (mkNode (requestMgr n) (consensus n) w (voteCache n) (outbox n) (consumed n))) ->
  wp (body_due id) Q n.
Proof.
  intros HQ. apply wp_seq. unfold wp at 1, get_rm, gets. repeat case_bool_decide.
  - destruct n. apply HQ.
  - apply wp_HasTimedOut. intros. apply HQ.
  - destruct n. apply HQ.
Qed.

Lemma wp_body_awaited n Q :
  (forall b w, Q b (mkNode (requestMgr n) (consensus n) w (voteCache n) (outbox n) (consumed n))) ->
  wp (body_awaited id) Q n.
Proof.
  intros HQ. apply wp_seq. unfold wp at 1, get_rm, gets. case_bool_decide.
  - apply wp_seq, wp_HasTimedOut. intros. apply HQ.
  - destruct n. apply HQ.
Qed.

Lemma wp_request_header n : body_pre n -> wp (request_header id pm) (body_post held n pm) n.
Proof.
  intros Hpre. pose proof Hpre as (Hpm & Ho & Hm & Hq & Hi). unfold request_header.
  apply wp_seq. unfold wp at 1, get_rm, gets. case_bool_decide; [by apply body_post_skip|].
  apply wp_seq, wp_body_awaited. intros [] w1.
  - apply wp_seq. eapply wp_weaken; [apply (wp_use_quota false held); [exact Hi|exact Hq]|].
    intros _ n2 (Hi2 & Hs2 & Hh2). apply (body_post_world _ _ _ _ w1).
    split_and!; [exact Hi2|exact Hpm| |exact Hh2]. eapply spends_le; [|exact Hs2]. lia.
  - apply wp_seq, wp_body_due. intros due w2.
    apply (wp_weaken _ (body_post held (mkNode (requestMgr n) (consensus n) w2 (voteCache n) (outbox n) (consumed n)) pm));
      [|intros pm' n'; apply body_post_world].
    destruct due; [by apply wp_ask_for_body|by apply body_post_skip].
Qed.
End Body.

Lemma rm_inv_perm held held' r : held ≡ₚ held' -> rm_inv held r -> rm_inv held' r.
Proof.
  intros Hp Hi. assert (queued r held ≡ₚ queued r held') as Hq by (unfold queued; by rewrite Hp).
  destruct Hi. split; auto.
  - by rewrite <- Hq.
  - intros id. rewrite <- Hq. auto.
  - intros id. rewrite <- Hq. auto.
Qed.

(** A held entry that is not pending can be dropped. *)
Lemma rm_inv_forget id held r : id ∉ pendingBlocks r -> rm_inv (id :: held) r -> rm_inv held r.
Proof.
  intros Hid Hi. assert (queued r (id :: held) ≡ₚ id :: queued r held) as Hq.
  { unfold queued. symmetry. apply Permutation_middle. }
  destruct Hi. split; auto.
  - rewrite Hq in inv_queue_nodup0. by apply NoDup_cons in inv_queue_nodup0 as [_ ?].
  - intros x Hx. apply inv_queue0. rewrite Hq. set_solver.
  - intros x Hx Hs. pose proof (inv_queued0 x Hx Hs) as Hin. rewrite Hq in Hin.
    apply elem_of_cons in Hin as [->|?]; [done|done].
Qed.

Lemma wp_is_downloaded h n Q : (forall b : bool, (b = false -> findBlock (ChainOf (consensus n)) h = None) -> Q b n) ->
  wp (is_downloaded h) Q n.
Proof.
  intros HQ. apply wp_seq. unfold wp at 1, get_rm, gets. destruct (lru_Contains _ _); [by apply HQ|].
  apply wp_seq. unfold wp at 1, FindBlock, gets. apply HQ. case_bool_decide as Hs; [done|].
  intros _. by apply eq_None_not_Some.
Qed.

(** The state of the loop over the heap: what it holds, and that an entry of
    the heap is pending or downloaded. *)
Definition heap_loop addBack elToRemove pm n : Prop :=
  loop_inv (addBack ++ elToRemove) n /\ buffers_ok (requestMgr n) pm /\
  heap_known (ChainOf (consensus n)) (requestMgr n) /\
  (forall id, id ∈ elToRemove -> id ∈ pendingBlocks (requestMgr n)).

(** A popped entry that is dropped: removed later if it is pending. *)
Lemma drop_entry id held r : rm_inv (id :: held) r ->
  match pendingBlocksByHash r !! phash (obj r id) with
  | Some el => el = id /\ id ∈ pendingBlocks r
  | None => rm_inv held r
  end.
Proof.
  intros Hi. destruct (queue_entry_obj r id) as (hd & _ & _ & _ & Hm).
  { apply (inv_queue _ _ Hi). unfold queued. set_solver. }
  destruct (_ !! _) as [el|] eqn:Hel.
  - destruct Hm as [[= ->]|[=]]. split; [done|]. by apply (inv_map _ _ Hi) in Hel as [? _].
  - eapply rm_inv_forget; [|exact Hi]. intros Hin. destruct (inv_pending _ _ _ Hi Hin). congruence.
Qed.

Lemma wp_header_loop fuel addBack elToRemove pm n :
  (length (pendingBlocksWithHeader (requestMgr n)) <= fuel)%nat -> heap_loop addBack elToRemove pm n ->
  wp (header_loop fuel addBack elToRemove pm) (fun '(addBack', elToRemove', pm') n' =>
    heap_loop addBack' elToRemove' pm' n' /\ spends (buffered pm - buffered pm') n n') n.
Proof.
  revert addBack elToRemove pm n.
  induction fuel as [|fuel IH]; intros addBack elToRemove pm n Hf Hl; cbn [header_loop];
    apply wp_seq; unfold wp at 1, get_rm, gets; set (r := requestMgr n) in *;
    (destruct (Z.leb_spec (fastsyncQuota r) 0) as [Hq|Hq];
      [split; [done|rewrite Z.sub_diag; apply spends_refl]|]);
    (destruct (heap_Pop (header_less r) (pendingBlocksWithHeader r)) as [[id rest]|] eqn:Hpop;
      [|split; [done|rewrite Z.sub_diag; apply spends_refl]]).
  { apply heap_Pop_perm, Permutation_length in Hpop. cbn in Hpop. lia. }
  destruct Hl as ([Hi Hqs] & Hpm & Hk & Hel).
  pose proof (heap_Pop_perm _ _ _ _ Hpop) as Hperm.
  apply (rm_inv_pop _ _ _ _ Hpop) in Hi as [Hi _]. fold r in Hi.
  apply wp_seq. unfold wp at 1, on_rm, modify. fold r.
  assert (Hid : id ∈ pendingBlocksWithHeader r) by (rewrite <- Hperm; set_solver).
  assert (Hlen : (length rest <= fuel)%nat).
  { apply Permutation_length in Hperm. cbn in Hperm. lia. }
  apply wp_seq, wp_HasExpired. intros expired w1; cbn.
  set (n1 := mkNode (with_heap r rest) _ w1 _ _ _).
  assert (Hs1 : spends 0 n n1) by (destruct (spends_refl n); by split).
  assert (Hk1 : heap_known (ChainOf (consensus n1)) (requestMgr n1)).
  { intros x Hx. apply Hk. fold r. rewrite <- Hperm. set_solver. }
  assert (Hwith : rm_inv (id :: addBack ++ elToRemove) (with_heap r rest)).
  { eapply rm_inv_perm; [|exact Hi]. symmetry. apply Permutation_cons_append. }
  apply wp_seq.
  eapply (wp_weaken _ (fun (drop : bool) n2 => n2 = n1 /\ (drop = false ->
    findBlock (ChainOf (consensus n)) (phash (obj r id)) = None))).
  { destruct expired; [done|]. apply wp_is_downloaded. by intros b Hb. }
  intros drop n2 [-> Hdrop]. destruct drop.
  - set (el' := match _ !! _ with Some _ => _ | None => _ end).
    eapply wp_weaken; [apply (IH addBack el' pm n1); [exact Hlen|]|].
    + pose proof (drop_entry _ _ _ Hwith) as Hd. cbn in Hd.
      change (obj (with_heap r rest) id) with (obj r id) in Hd.
      unfold el'. destruct (pendingBlocksByHash r !! phash (obj r id)) as [x|].
      * destruct Hd as [-> Hin]. split_and!; [split; [|exact Hqs]|exact Hpm|exact Hk1|set_solver].
        eapply rm_inv_perm; [|exact Hwith]. solve_Permutation.
      * split_and!; [split; [exact Hd|exact Hqs]|exact Hpm|exact Hk1|exact Hel].
    + intros [[a e] pm'] n' [Hl' Hs']. split; [done|]. by eapply (spends_trans 0).
  - specialize (Hdrop eq_refl).
    assert (Hin : id ∈ pendingBlocks r).
    { destruct (Hk id Hid) as [|[b Hb]]; [done|]. fold r in Hb. congruence. }
    destruct (inv_pending _ _ _ Hwith Hin) as [Ho Hm].
    apply wp_seq. eapply wp_weaken; [apply (wp_request_header id pm (id :: addBack ++ elToRemove) n1)|].
    { split_and!; [exact Hpm|eauto|eauto|done|split; [exact Hwith|exact Hqs]]. }
    intros pm1 n2 ([Hi2 Hq2] & Hpm1 & Hs2 & Hh2).
    eapply wp_weaken; [apply (IH (addBack ++ [id]) elToRemove pm1 n2)|].
    + rewrite Hh2. exact Hlen.
    + split_and!; [split; [|exact Hq2]| | |].
      * eapply rm_inv_perm; [|exact Hi2]. solve_Permutation.
      * intros q es Hes. destruct (Hpm1 q es Hes) as [? He]. split; [done|].
        eapply Forall_impl; [exact He|]. intros e (h & -> & Hh). exists h.
        by rewrite (sp_map _ _ _ Hs2).
      * intros x. rewrite Hh2, (sp_list _ _ _ Hs2), (sp_consensus _ _ _ Hs2), (sp_hash _ _ _ Hs2).
        apply Hk1.
      * intros x Hx. rewrite (sp_list _ _ _ Hs2). by apply Hel.
    + intros [[a e] pm'] n' [Hl' Hs']. split; [done|].
      eapply spends_le; [|eapply spends_trans; [exact Hs1|eapply spends_trans; [exact Hs2|exact Hs']]]. lia.
Qed.

(** *** A tick *)

(** The effect of downloading: requests for pending blocks within the quota,
    and pending blocks removed. *)
Record requests n n' : Prop := {
  rq_consensus : consensus n' = consensus n;
  rq_votes : voteCache n' = voteCache n;
  rq_consumed : consumed n' = consumed n;
  rq_tip : fastSyncTip (requestMgr n') = fastSyncTip (requestMgr n);
  rq_map : pendingBlocksByHash (requestMgr n') ⊆ pendingBlocksByHash (requestMgr n);
  rq_hash : forall id, phash (obj (requestMgr n') id) = phash (obj (requestMgr n) id);
  rq_sent : exists ps, outbox n' = outbox n ++ ps /\ Forall (request_ok (requestMgr n)) ps /\
    entries ps + quota (requestMgr n') <= quota (requestMgr n)
}.

Lemma request_ok_mono r r' p : pendingBlocksByHash r' ⊆ pendingBlocksByHash r ->
  request_ok r' p -> request_ok r p.
Proof.
  intros Hsub. destruct p as [|[|peer []] req| |]; cbn; try done. intros (? & ? & He). split_and!; try done; try lia.
  eapply Forall_impl; [exact He|]. intros e (h & -> & [id Hid]). exists h. split; [done|].
  exists id. by eapply lookup_weaken.
Qed.

Lemma requests_refl n : requests n n.
Proof.
  split; try done. exists []. rewrite app_nil_r. split_and!; [done|constructor|].
  unfold entries, sumZ; cbn. lia.
Qed.

Lemma requests_trans n1 n2 n3 : requests n1 n2 -> requests n2 n3 -> requests n1 n3.
Proof.
  intros [] []. destruct rq_sent0 as (ps & Hps & Fps & Eps), rq_sent1 as (qs & Hqs & Fqs & Eqs).
  split; try congruence; [by etrans|].
  exists (ps ++ qs). split_and!.
  - by rewrite Hqs, Hps, app_assoc.
  - apply Forall_app. split; [done|]. eapply Forall_impl; [exact Fqs|].
    intros p. by apply request_ok_mono.
  - rewrite entries_app. lia.
Qed.

#[export] Instance requests_preorder : PreOrder requests.
Proof. split; [exact requests_refl|exact requests_trans]. Qed.

Lemma spends_requests n n' : spends 0 n n' -> requests n n'.
Proof.
  intros []. destruct sp_sent0 as (ps & ? & ? & ?). split; try done.
  - by rewrite sp_map0.
  - exists ps. split_and!; [done..|lia].
Qed.

(** Removing pending blocks. *)
Lemma removes_frame l r : let r' := foldl removeEl r l in
  pendingBlocksByHash r' ⊆ pendingBlocksByHash r /\ objects r' = objects r /\
  gossipQuota r' = gossipQuota r /\ fastsyncQuota r' = fastsyncQuota r /\
  pendingBlocksWithHeader r' = pendingBlocksWithHeader r /\ fastSyncTip r' = fastSyncTip r.
Proof.
  revert r. induction l as [|el l IH]; intros r; cbn [foldl]; [done|].
  destruct (IH (removeEl r el)) as (H1 & -> & -> & -> & -> & ->). split_and!; try done.
  etrans; [exact H1|]. cbn. apply delete_subseteq.
Qed.

Lemma wp_removes l held n : NoDup l -> (forall el, el ∈ l -> el ∈ pendingBlocks (requestMgr n)) ->
  loop_inv held n -> wp (on_rm (fun r => foldl removeEl r l)) (fun _ n' =>
    loop_inv (foldl list_Remove held l) n' /\ requests n n') n.
Proof.
  intros Hnd Hin [Hi Hq]. unfold wp, on_rm, modify.
  destruct (removes_frame l (requestMgr n)) as (Hm & Ho & Hg & Hf & _ & Ht).
  split; [split; cbn|].
  - by apply rm_inv_removes.
  - unfold quotas_ok. by rewrite Hg, Hf.
  - split; cbn; try done.
    + intros id. unfold obj. by rewrite Ho.
    + exists []. rewrite app_nil_r. split_and!; [done|constructor|]. unfold quota. rewrite Hg, Hf.
      unfold entries, sumZ; cbn. lia.
Qed.

Lemma wp_downloadBlockFromHash n : loop_inv [] n ->
  wp (downloadBlockFromHash cfg) (fun _ n' => loop_inv [] n' /\ requests n n') n.
Proof.
  intros Hi. apply wp_seq. unfold wp at 1, get_rm, gets.
  apply wp_seq. eapply wp_weaken; [apply wp_hash_loop; [apply (inv_nodup _ _ (proj1 Hi))|done|done]|].
  intros rem n1 (Hi1 & Hs1 & Hnd & Hsub). eapply wp_weaken; [apply (wp_removes rem [] n1); [done| |done]|].
  - intros el Hel. rewrite (sp_list _ _ _ Hs1). auto.
  - intros _ n2 [Hi2 Hr2]. split; [|etrans; [by apply spends_requests|done]].
    clear -Hi2. assert (forall l, foldl list_Remove [] l = []) as Hnil.
    { induction l as [|x l IH]; [done|exact IH]. }
    by rewrite Hnil in Hi2.
Qed.

(** The buffered requests are sent. *)
Lemma wp_flush l held n : Forall (fun p => (length p.2 < MaxBlocksPerRequest)%nat /\
    Forall (entry_ok (requestMgr n)) p.2) l -> loop_inv held n ->
  wp (for_each (fun p => if bool_decide (snd p = []) then ret tt
                         else sendBlocksRequest (fst p) (snd p)) l)
    (fun _ n' => loop_inv held n' /\ spends (sumZ (fun p => Z.of_nat (length p.2)) l) n n' /\
       requestMgr n' = requestMgr n) n.
Proof.
  revert n. induction l as [|[p es] l IH]; intros n Hl Hi; cbn [for_each].
  { split_and!; [done|apply spends_refl|done]. }
  apply Forall_cons in Hl as [[Hlen He] Hl]. cbn in Hlen, He. rewrite sumZ_cons. cbn [fst snd].
  apply wp_seq. eapply (wp_weaken _ (fun _ n1 => loop_inv held n1 /\ spends (Z.of_nat (length es)) n n1 /\
    requestMgr n1 = requestMgr n)).
  - case_bool_decide as Hes; [subst es; split_and!; [done|apply spends_refl|done]|].
    eapply wp_weaken; [apply (wp_send _ held); [|done]|].
    + split; [done|split; [|exact He]]. cbn. destruct es; [done|]. cbn in *. lia.
    + intros _ n1 (Hi1 & Hs1 & Hr1). split_and!; [done| |done].
      eapply spends_le; [|exact Hs1]. unfold entries, sumZ; cbn. lia.
  - intros _ n1 (Hi1 & Hs1 & Hr1). eapply wp_weaken; [apply IH; [by rewrite Hr1|done]|].
    intros _ n2 (Hi2 & Hs2 & Hr2). split_and!; [done| |congruence].
    by eapply spends_trans.
Qed.

(** The entries held are pushed back. *)
Lemma pushes_inv l held r : rm_inv (l ++ held) r -> rm_inv held (foldl push_header r l).
Proof.
  revert r. induction l as [|id l IH]; intros r Hi; cbn [foldl]; [done|]. apply IH. by apply rm_inv_push.
Qed.

Lemma pushes_frame l r : exists h, foldl push_header r l = with_heap r h.
Proof.
  revert r. induction l as [|id l IH]; intros r; cbn [foldl].
  - exists (pendingBlocksWithHeader r). by destruct r.
  - destruct (IH (push_header r id)) as [h ->]. by exists h.
Qed.

Lemma wp_downloadBlockFromHeader n : loop_inv [] n ->
  heap_known (ChainOf (consensus n)) (requestMgr n) ->
  wp downloadBlockFromHeader (fun _ n' => loop_inv [] n' /\ requests n n') n.
Proof.
  intros Hi Hk. apply wp_seq. unfold wp at 1, get_rm, gets. apply wp_seq.
  eapply wp_weaken; [apply (wp_header_loop _ [] [] ∅); [done|]|].
  { split_and!; [done| |done|set_solver]. intros q es Hes. by rewrite lookup_empty in Hes. }
  intros [[addBack el] pm] n1 ((Hi1 & Hpm & _ & Hel) & Hs1).
  apply wp_seq. apply (wp_world_with (fun l => l ≡ₚ map_to_list pm)); [intros w; apply range_map_perm|].
  intros l w Hl. set (n2 := mkNode _ _ w _ _ _).
  apply wp_seq. eapply wp_weaken; [apply (wp_flush l (addBack ++ el) n2); [|exact Hi1]|].
  { apply Forall_forall. intros [p es] Hin. rewrite Hl in Hin. apply elem_of_map_to_list in Hin.
    exact (Hpm p es Hin). }
  intros _ n3 (Hi3 & Hs3 & Hr3). cbn in Hr3.
  assert (requests n n3) as Hreq.
  { apply spends_requests. eapply spends_le; [|eapply spends_trans; [exact Hs1|
      eapply spends_trans; [apply (spends_world n1 w)|exact Hs3]]].
    rewrite Hl. unfold buffered. rewrite map_to_list_empty. unfold sumZ at 1; cbn. lia. }
  apply wp_seq. unfold wp at 1, on_rm at 1, modify.
  destruct (pushes_frame addBack (requestMgr n3)) as [h Hh]. set (n4 := mkNode _ _ _ _ _ _).
  assert (loop_inv el n4) as Hi4.
  { split; cbn; [by apply pushes_inv, Hi3|]. rewrite Hh. apply Hi3. }
  assert (requests n3 n4) as Hreq4.
  { destruct (requests_refl n3). split; cbn; try done; by rewrite Hh. }
  eapply wp_weaken; [apply (wp_removes el el n4); [| |done]|].
  - pose proof (inv_queue_nodup _ _ (proj1 Hi4)) as Hnd. unfold queued in Hnd.
    by apply NoDup_app in Hnd as (_ & _ & ?).
  - intros x Hx. cbn. rewrite Hh. cbn. rewrite Hr3. by apply Hel.
  - intros _ n5 [Hi5 Hr5]. rewrite list_Remove_all in Hi5. split; [done|].
    etrans; [exact Hreq|]. by etrans.
Qed.

(** *** The inventory request *)

(** At most four active peers, with scores up to sixteen. *)
Definition active_ok (m : gmap string Z) : Prop :=
  (size m <= MaxNumPeersToSendRequests)%nat /\ forall p s, m !! p = Some s -> s <= MaxPeerActiveScore.

Lemma wp_refresh_peers l active n Q : NoDup l.*1 -> (forall p, p ∈ l.*1 -> is_Some (active !! p)) ->
  active_ok active ->
  (forall active' w, active_ok active' ->
     Q active' (mkNode (requestMgr n) (consensus n) w (voteCache n) (outbox n) (consumed n))) ->
  wp (refresh_peers l active) Q n.
Proof.
  revert active n. induction l as [|[pid x] l IH]; intros active n Hnd Hin Hok HQ; cbn [refresh_peers].
  { destruct n. by apply HQ. }
  apply NoDup_cons in Hnd as [Hnot Hnd]. destruct (Hin pid) as [s Hs]; [set_solver|].
  apply wp_seq, wp_world. intros e w. apply IH; [done| | |intros; by apply HQ].
  - intros p Hp. assert (p <> pid) by (intros ->; by apply Hnot). destruct e.
    + rewrite lookup_insert_ne by done. apply Hin. set_solver.
    + rewrite lookup_delete_ne by done. apply Hin. set_solver.
  - destruct Hok as [Hsize Hsc]. destruct e; split.
    + by rewrite map_size_insert_Some by eauto.
    + intros p y [[<- <-]|[_ Hy]]%lookup_insert_Some; [|eauto]. rewrite Hs. cbn.
      pose proof (Hsc _ _ Hs). lia.
    + rewrite map_size_delete_Some by eauto. lia.
    + intros p y [_ Hy]%lookup_delete_Some. eauto.
Qed.

Lemma resample_spec target samples acc : NoDup acc -> (length acc < target)%nat ->
  NoDup (resample target samples acc) /\ (length (resample target samples acc) <= target)%nat.
Proof.
  revert acc. induction samples as [|s samples IH]; intros acc Hnd Hlt; cbn [resample]; [split; [done|lia]|].
  set (acc' := if bool_decide (s ∈ acc) then acc else acc ++ [s]).
  assert (NoDup acc' /\ (length acc' <= Datatypes.S (length acc))%nat) as [Hnd' Hlen].
  { unfold acc'. case_bool_decide; [split; [done|lia]|]. rewrite length_app; cbn. split; [|lia].
    apply NoDup_app. split_and!; [done|set_solver|apply NoDup_singleton]. }
  destruct (Nat.leb_spec target (length acc')) as [Hle|Hgt]; [split; [done|lia]|].
  by apply IH.
Qed.

(** Parts of the node that the inventory request leaves as they are. *)
Record asks_inventory req n n' : Prop := {
  ai_consensus : consensus n' = consensus n;
  ai_votes : voteCache n' = voteCache n;
  ai_consumed : consumed n' = consumed n;
  ai_tip : fastSyncTip (requestMgr n') = fastSyncTip (requestMgr n);
  ai_objects : objects (requestMgr n') = objects (requestMgr n);
  ai_list : pendingBlocks (requestMgr n') = pendingBlocks (requestMgr n);
  ai_map : pendingBlocksByHash (requestMgr n') = pendingBlocksByHash (requestMgr n);
  ai_heap : pendingBlocksWithHeader (requestMgr n') = pendingBlocksWithHeader (requestMgr n);
  ai_gossip : gossipQuota (requestMgr n') = gossipQuota (requestMgr n);
  ai_fastsync : fastsyncQuota (requestMgr n') = fastsyncQuota (requestMgr n);
  ai_sent : exists ps, outbox n' = outbox n ++ [GetInventory ps req] /\ NoDup ps /\
    (length ps <= MaxNumPeersToSendRequests + 2)%nat
}.

Lemma nodup_fst_filter {A B} (P : A * B -> Prop) `{!forall x, Decision (P x)} (l : list (A * B)) :
  NoDup l.*1 -> NoDup (filter P l).*1.
Proof.
  induction l as [|[a b] l IH]; [done|]. rewrite fmap_cons. intros [Hnot Hnd]%NoDup_cons.
  destruct (decide (P (a, b))); [rewrite filter_cons_True by done|rewrite filter_cons_False by done; auto].
  rewrite fmap_cons. constructor; [|auto].
  intros (x & Ha & [_ Hx]%list_elem_of_filter)%list_elem_of_fmap. apply Hnot. cbn in Ha |- *. subst a.
  apply list_elem_of_fmap. eauto.
Qed.

Lemma wp_getInventory req held n : rm_inv held (requestMgr n) ->
  wp (getInventory req) (fun _ n' => rm_inv held (requestMgr n') /\ asks_inventory req n n') n.
Proof.
  intros Hi. unfold getInventory.
  apply wp_seq. unfold wp at 1, get_rm, gets. apply wp_seq. unfold wp at 1.
  set (active := activePeers (requestMgr n)).
  apply wp_seq. apply (wp_world_with (fun l => l ≡ₚ map_to_list active)); [intros; apply range_map_perm|].
  intros l w1 Hl. apply wp_seq, wp_refresh_peers.
  { rewrite Hl. apply NoDup_fst_map_to_list. }
  { intros p (x & -> & Hx)%list_elem_of_fmap. rewrite Hl in Hx. destruct x as [p s].
    apply elem_of_map_to_list in Hx. eauto. }
  { split; [apply (inv_active _ _ Hi)|apply (inv_scores _ _ Hi)]. }
  intros active' w2 Hok. cbn -[Nat.ltb Nat.add].
  set (counter := if RefreshCounterLimit <=? _ then _ else _).
  apply wp_seq. unfold wp at 1, on_rm, modify; cbn -[Nat.ltb Nat.add].
  apply wp_seq. apply (wp_world_with (fun l => l ≡ₚ map_to_list active')); [intros; apply range_map_perm|].
  intros l' w3 Hl'. cbn -[Nat.ltb Nat.add]. set (ps := fst <$> filter _ l').
  assert (NoDup ps /\ (length ps <= MaxNumPeersToSendRequests)%nat) as [Hnd Hlen].
  { split.
    - apply nodup_fst_filter. rewrite Hl'. apply NoDup_fst_map_to_list.
    - unfold ps. rewrite length_fmap. etrans; [apply length_filter|].
      rewrite Hl', length_map_to_list. apply Hok. }
  set (target := if counter =? 0 then _ else _).
  assert (target <= MaxNumPeersToSendRequests + 2)%nat by (unfold target; case_match; lia).
  apply wp_seq.
  eapply (wp_weaken _ (fun ps' n1 => (NoDup ps' /\ (length ps' <= MaxNumPeersToSendRequests + 2)%nat) /\
    exists w, n1 = mkNode (with_active (requestMgr n) active' counter) (consensus n) w (voteCache n)
                (outbox n) (consumed n))).
  { destruct (Nat.ltb_spec (length ps) target) as [Hlt|_].
    - apply wp_seq, wp_world. intros all w4. apply wp_seq, wp_world. intros samples w5.
      unfold wp, ret. destruct (resample_spec target samples ps Hnd Hlt). split; [split; [done|lia]|]. eauto.
    - unfold wp, ret. split; [split; [done|lia]|]. eauto. }
  intros ps' n1 ([Hnd' Hlen'] & w & ->). unfold wp, send, modify; cbn. split.
  - apply rm_inv_active; [apply Hok|apply Hok|exact Hi].
  - split; cbn; try done. eauto.
Qed.

(** *** The backoff *)

Lemma to_int64_small z : 0 <= z < 9223372036854775808 -> to_int64 (wrap64 z) = z.
Proof.
  intros Hz. unfold wrap64. rewrite Z.mod_small by (unfold two64; lia). unfold to_int64.
  destruct (Z.ltb_spec z 9223372036854775808); [done|lia].
Qed.

Lemma starts_loop_double fuel ch top index low s :
  is_u64 top -> is_u64 index -> is_u64 low -> index <= top -> 10 <= top - index ->
  0 <= s < 63 -> (64 <= Z.of_nat fuel + s) -> is_ok (starts_loop fuel ch top index low (2 ^ s)) = true.
Proof.
  revert index s. induction fuel as [|fuel IH]; intros index s Ht Hi Hlow Hle Hten Hs Hf; [lia|].
  cbn [starts_loop]. destruct (Z.leb_spec index low) as [|Hgt]; [done|].
  assert (u64_sub top index = top - index) as -> by (apply wrap64_small; unfold is_u64 in *; lia).
  rewrite (proj2 (Z.leb_le 10 (top - index)) Hten).
  destruct (decide (s = 62)) as [->|Hne].
  { replace (to_int64 (wrap64 (2 ^ 62 * 2))) with (-9223372036854775808) by reflexivity.
    change (-9223372036854775808 <=? 0) with true. by rewrite orb_true_r. }
  assert (0 < 2 ^ (s + 1) < 9223372036854775808) as Hpow.
  { change 9223372036854775808 with (2 ^ 63). split; [apply Z.pow_pos_nonneg; lia|apply Z.pow_lt_mono_r; lia]. }
  replace (2 ^ s * 2) with (2 ^ (s + 1)) by (rewrite Z.pow_add_r by lia; lia).
  rewrite to_int64_small by lia. rewrite (wrap64_small (2 ^ (s + 1))) by (unfold is_u64, two64; lia).
  destruct (Z.ltb_spec index (2 ^ (s + 1))) as [|Hidx]; [done|].
  rewrite (proj2 (Z.leb_gt (2 ^ (s + 1)) 0)) by lia. cbn [orb].
  unfold u64_sub. rewrite (wrap64_small (index - _)) by (unfold is_u64 in *; lia).
  specialize (IH (index - 2 ^ (s + 1)) (s + 1) Ht ltac:(unfold is_u64 in *; lia) Hlow ltac:(lia) ltac:(lia)
    ltac:(lia) ltac:(lia)).
  by destruct (starts_loop fuel _ _ (index - _) _ _).
Qed.

(** The first ten rounds step by one, the later ones double. *)
Lemma starts_loop_ok fuel ch top index low :
  is_u64 top -> is_u64 index -> is_u64 low -> index <= top ->
  (74 <= Z.of_nat fuel + (top - index)) -> (64 <= fuel)%nat ->
  is_ok (starts_loop fuel ch top index low 1) = true.
Proof.
  revert index. induction fuel as [|fuel IH]; intros index Ht Hi Hlow Hle Hf1 Hf2; [lia|].
  destruct (Z.leb_spec 10 (top - index)) as [Hten|Hten].
  { apply (starts_loop_double (Datatypes.S fuel) ch top index low 0); try done; lia. }
  cbn [starts_loop]. destruct (Z.leb_spec index low) as [|Hgt]; [done|].
  assert (u64_sub top index = top - index) as -> by (apply wrap64_small; unfold is_u64 in *; lia).
  rewrite (proj2 (Z.leb_gt 10 (top - index)) Hten).
  change (wrap64 1) with 1. destruct (Z.ltb_spec index 1) as [|_]; [done|]. cbn [orb Z.leb Z.compare].
  unfold u64_sub. rewrite (wrap64_small (index - 1)) by (unfold is_u64 in *; lia).
  specialize (IH (index - 1) Ht ltac:(unfold is_u64 in *; lia) Hlow ltac:(lia) ltac:(lia) ltac:(lia)).
  by destruct (starts_loop fuel _ _ (index - 1) _ _).
Qed.

(** What the backoff collects: hashes of blocks above the last finalized
    block, up to the tip, that are neither pending nor invalid. *)
Definition start_ok (ch : Chain S) (top low : uint64) (e : string) : Prop :=
  exists height b, low < height <= top /\ b ∈ findBlocksByHeight ch height /\ e = HashHex (EBHash b) /\
    Status b <> BlockStatusPending /\ Status b <> BlockStatusInvalid.

Lemma starts_loop_entries fuel ch top index low step l :
  is_u64 index -> 0 <= low -> index <= top -> starts_loop fuel ch top index low step = Ok l ->
  Forall (start_ok ch top low) l.
Proof.
  revert index step l. induction fuel as [|fuel IH]; intros index step l Hi Hlow Hle; cbn [starts_loop].
  { destruct (_ <=? _); [intros [= <-]; constructor|done]. }
  destruct (Z.leb_spec index low) as [|Hgt]; [intros [= <-]; constructor|].
  set (step' := if 10 <=? _ then _ else _). destruct (_ || _) eqn:Hbreak; [intros [= <-]; constructor|].
  bool_to_prop. assert (0 <= wrap64 step') as Hw by (apply Z.mod_pos_bound; done).
  unfold u64_sub. rewrite (wrap64_small (index - _)) by (unfold is_u64 in *; lia).
  destruct (starts_loop fuel _ _ (index - wrap64 step') _ _) as [rest| |] eqn:Hrest; cbn; [|done|done].
  intros [= <-]. apply Forall_app. split.
  - apply Forall_forall. intros e (b & -> & [[? ?] Hb]%list_elem_of_filter)%list_elem_of_fmap.
    exists index, b. split_and!; done || lia.
  - eapply IH; [..|exact Hrest]; unfold is_u64 in *; lia.
Qed.
End Methods.
