(* ===== verification/NetSync.v ===== *)
(** * Block synchronisation (src/netsync/sync.go and encode.go)

    The synchronisation manager sits between the network and the consensus
    engine: it answers inventory and data requests of peers from the chain,
    hands what they announce to the request manager, adds the blocks they send
    to the chain, passes votes through, and gossips what is new.  The handlers
    are functions of the monad of Requests.v; the RLP encodings of theta are an
    interface.  The consensus engine of Engine.v implements the interface the
    managers use it through. *)

From Stdlib Require Import Ascii.
From stdpp Require Import gmap sorting relations.
From stdpp Require Import base list numbers strings.
From S2P Require Import Prelude Vote Validator Block Chain ConsensusState Engine EngineSafety Heap Requests.
Local Open Scope string_scope.
Local Open Scope list_scope.
Local Open Scope Z_scope.

Definition voteCacheLimit : nat := 512.

(** [Message.Content]: one of the four messages, or anything else. *)
Inductive Content :=
| CInventoryRequest (req : InventoryRequest)
| CInventoryResponse (resp : InventoryResponse)
| CDataRequest (req : DataRequest)
| CDataResponse (resp : DataResponse)
| CUnknown.

Record PeerMessage := mkPeerMessage {
  PeerID : string;
  MsgChannel : ChannelID;
  MsgContent : Content
}.

(** A block as it comes out of the decoder. *)
Definition decoded (b : Block.Block) : Prop := is_u64 (BHeight (Header b)) /\ hash (Header b) = 0.

(** The RLP encodings of theta/rlp used here: payloads, messages and the
    one-byte message identifiers of theta's common package.  An encoded message
    decodes to the same value, and so does a block or header that came out of the
    decoder (the encoder leaves the cached hash out and takes nil pointers for
    empty values, so for others only these are lost); a decoded block has a
    64-bit height and no cached hash, a list of blocks does not decode as a
    block, an identifier takes one byte and a message at least one. *)
Class SyncCodec := {
  EncodeBlock : Block.Block -> outcome Bytes;
  DecodeBlock : Bytes -> outcome Block.Block;
  EncodeBlocks : list Block.Block -> outcome Bytes;
  DecodeBlocks : Bytes -> outcome (list Block.Block);
  EncodeHeaders : list BlockHeader -> outcome Bytes;
  DecodeHeaders : Bytes -> outcome (list BlockHeader);
  VoteToBytes : Vote -> outcome Bytes;
  DecodeVote : Bytes -> outcome Vote;
  DecodeProposal : Bytes -> outcome Proposal;
  MessageIDInvRequest : Z;
  MessageIDInvResponse : Z;
  MessageIDDataRequest : Z;
  MessageIDDataResponse : Z;
  EncodeID : Z -> outcome Bytes;
  DecodeID : Bytes -> outcome Z;
  EncodeInvRequest : InventoryRequest -> outcome Bytes;
  DecodeInvRequest : Bytes -> outcome InventoryRequest;
  EncodeInvResponse : InventoryResponse -> outcome Bytes;
  DecodeInvResponse : Bytes -> outcome InventoryResponse;
  EncodeDataRequest : DataRequest -> outcome Bytes;
  DecodeDataRequest : Bytes -> outcome DataRequest;
  EncodeDataResponse : DataResponse -> outcome Bytes;
  DecodeDataResponse : Bytes -> outcome DataResponse;
  block_roundtrip p0 b p : DecodeBlock p0 = Ok b -> EncodeBlock b = Ok p -> DecodeBlock p = Ok b;
  blocks_roundtrip p0 bs p : DecodeBlocks p0 = Ok bs -> EncodeBlocks bs = Ok p -> DecodeBlocks p = Ok bs;
  blocks_not_block bs p : EncodeBlocks bs = Ok p -> exists e, DecodeBlock p = Err e;
  decoded_block p b : DecodeBlock p = Ok b -> decoded b;
  decoded_blocks p bs : DecodeBlocks p = Ok bs -> Forall decoded bs;
  decoded_proposal p x b : DecodeProposal p = Ok x -> PBlock x = Some b -> decoded b;
  headers_roundtrip p0 hs p : DecodeHeaders p0 = Ok hs -> EncodeHeaders hs = Ok p -> DecodeHeaders p = Ok hs;
  inv_request_roundtrip m p : EncodeInvRequest m = Ok p -> p <> "" /\ DecodeInvRequest p = Ok m;
  inv_response_roundtrip m p : EncodeInvResponse m = Ok p -> p <> "" /\ DecodeInvResponse p = Ok m;
  data_request_roundtrip m p : EncodeDataRequest m = Ok p -> p <> "" /\ DecodeDataRequest p = Ok m;
  data_response_roundtrip m p : EncodeDataResponse m = Ok p -> p <> "" /\ DecodeDataResponse p = Ok m;
  id_roundtrip i p : EncodeID i = Ok p ->
    i ∈ [MessageIDInvRequest; MessageIDInvResponse; MessageIDDataRequest; MessageIDDataResponse] ->
    String.length p = 1%nat /\ DecodeID p = Ok i;
  ids_distinct : NoDup [MessageIDInvRequest; MessageIDInvResponse; MessageIDDataRequest; MessageIDDataResponse]
}.

(** ** encode.go *)

Section Encoding.
Context `{!SyncCodec}.

Definition encodeMessage (message : Content) : outcome Bytes :=
  match message with
  | CInventoryRequest m =>
      id ← EncodeID MessageIDInvRequest; body ← EncodeInvRequest m; Ok (id +:+ body)
  | CInventoryResponse m =>
      id ← EncodeID MessageIDInvResponse; body ← EncodeInvResponse m; Ok (id +:+ body)
  | CDataRequest m =>
      id ← EncodeID MessageIDDataRequest; body ← EncodeDataRequest m; Ok (id +:+ body)
  | CDataResponse m =>
      id ← EncodeID MessageIDDataResponse; body ← EncodeDataResponse m; Ok (id +:+ body)
  | CUnknown => Err "Unsupported message type"
  end.

Definition decodeMessage (raw : Bytes) : outcome Content :=
  match raw with
  | EmptyString | String _ EmptyString => Err "Invalid message size"
  | String c rest =>
      msgID ← DecodeID (String c "");
      if Z.eqb msgID MessageIDInvRequest then data ← DecodeInvRequest rest; Ok (CInventoryRequest data)
      else if Z.eqb msgID MessageIDInvResponse then data ← DecodeInvResponse rest; Ok (CInventoryResponse data)
      else if Z.eqb msgID MessageIDDataRequest then data ← DecodeDataRequest rest; Ok (CDataRequest data)
      else if Z.eqb msgID MessageIDDataResponse then data ← DecodeDataResponse rest; Ok (CDataResponse data)
      else Err "Unknown message ID"
  end.

(** [ParseMessage] and [EncodeMessage] of the message handler. *)
Definition ParseMessage (peerID : string) (channelID : ChannelID) (raw : Bytes) : outcome PeerMessage :=
  data ← decodeMessage raw; Ok (mkPeerMessage peerID channelID data).
Definition EncodeMessage (message : Content) : outcome Bytes := encodeMessage message.
End Encoding.

(** [strings.ToLower] on the ASCII letters peer identifiers are made of. *)
Definition lower_ascii (c : ascii) : ascii :=
  let n := nat_of_ascii c in
  if ((65 <=? n) && (n <=? 90))%nat then ascii_of_nat (n + 32) else c.
Fixpoint ToLower (s : string) : string :=
  match s with EmptyString => "" | String c s' => String (lower_ascii c) (ToLower s') end.

(** The hardcoded hash of a height, in hexadecimal. *)
Fixpoint hardcoded_hash (l : list (uint64 * string)) (height : uint64) : option string :=
  match l with
  | [] => None
  | (h, s) :: l' => if Z.eqb h height then Some s else hardcoded_hash l' height
  end.

(** ** The handlers *)

Section Handlers.
Context `{BlockCrypto} `{VoteCrypto} {S : Type} `{!Store S} {C : Type} `{!Consensus S C}.
Context {W : Type} `{!World W} {L : Type} `{!LRU L} `{!HashText} `{!SyncCodec}.
Context (cfg : SyncConfig).
Notation T := (T C W L).

(** The node after [NewSyncManager]. *)
Definition NewSyncManager (c : C) (w : W) : Node C W L :=
  mkNode NewRequestManager c w (lru_New voteCacheLimit) [] [].

Definition GetChannelIDs : list ChannelID :=
  [ChannelIDHeader; ChannelIDBlock; ChannelIDProposal; ChannelIDCC; ChannelIDVote].

(** *** Inventory requests of peers *)

Definition served (b : ExtendedBlock) : bool :=
  negb (bool_decide (Status b = BlockStatusPending)) && negb (bool_decide (Status b = BlockStatusInvalid)).

(** [locateStart]: the first start hash in the local chain, or the empty hash. *)
Fixpoint locateStart (ch : Chain S) (starts : list string) : Hash :=
  match starts with
  | [] => 0
  | s :: starts' =>
      let curr := HexToHash s in
      match findBlock ch curr with
      | Some b => if served b then curr else locateStart ch starts'
      | None => locateStart ch starts'
      end
  end.

(** "Enqueue finalized child": [None] when a child cannot be loaded. *)
Fixpoint finalized_child (ch : Chain S) (children : list Hash) : option (list Hash) :=
  match children with
  | [] => Some []
  | c :: children' =>
      match findBlock ch c with
      | None => None
      | Some b => if IsFinalized (Status b) then Some [EBHash b] else finalized_child ch children'
      end
  end.

(** The breadth-first search shared by [collectBlocks] and [collectHeaders],
    which differ in what they keep of a block.  Every round keeps one, so
    [MaxInventorySize] rounds are enough.  The flag is [false] when the search
    was cut short by a missing block. *)
Fixpoint collect_loop {A} (keep : Hash -> ExtendedBlock -> A) (fuel : nat) (ch : Chain S)
    (end_ : Hash) (lfbHeight : uint64) (q : list Hash) (ret : list A) : list A * bool :=
  match q, fuel with
  | [], _ => (ret, true)
  | _ :: _, O => (ret, true)
  | curr :: q', Datatypes.S fuel' =>
      match findBlock ch curr with
      | None => (ret, false)
      | Some block =>
          let ret' := ret ++ [keep curr block] in
          if Z.eqb curr end_ then (ret', true)
          else if EBHeight block <? lfbHeight then
            match finalized_child ch (Children block) with
            | None => (ret', false)
            | Some next => collect_loop keep fuel' ch end_ lfbHeight (q' ++ next) ret'
            end
          else collect_loop keep fuel' ch end_ lfbHeight (q' ++ Children block) ret'
      end
  end.

(** The loop runs while [len(ret) < MaxInventorySize-1]. *)
Definition inventory_rounds : nat := Z.to_nat (MaxInventorySize cfg - 1).

(** "Make sure response is in size limit". *)
Definition limit_size {A} (ret : list A) : list A :=
  if MaxInventorySize cfg <? Z.of_nat (length ret) then take (Z.to_nat (MaxInventorySize cfg - 1)) ret
  else ret.

Definition collect {A} (keep : Hash -> ExtendedBlock -> A) (last : ExtendedBlock -> A)
    (start end_ : Hash) : T (list A) :=
  lfb ← last_finalized;
  ch ← gets (fun n => ChainOf (consensus n));
  let '(l, complete) := collect_loop keep inventory_rounds ch end_ (EBHeight lfb) [start] [] in
  if (complete : bool)
  then lfb' ← last_finalized; ret (limit_size l ++ [last lfb'])
  else ret l.

Definition collectBlocks (start end_ : Hash) : T (list string) :=
  collect (fun curr _ => HashHex curr) (fun lfb => HashHex (EBHash lfb)) start end_.

Definition collectHeaders (start end_ : Hash) : T (list BlockHeader) :=
  collect (fun _ b => Header (EBlock b)) (fun lfb => Header (EBlock lfb)) start end_.

Definition handleInvRequest (peerID : string) (req : InventoryRequest) : T unit :=
  match InvChannel req with
  | ChannelIDBlock =>
      ch ← gets (fun n => ChainOf (consensus n));
      let start := locateStart ch (Starts req) in
      if IsEmpty start then ret tt
      else
        let end_ := HexToHash (End_ req) in
        blocks ← collectBlocks start end_;
        headers ← collectHeaders start end_;
        _ ← (match EncodeHeaders headers with
             | Ok payload => send (SendData [peerID] (mkDataResponse ChannelIDHeader payload))
             | _ => ret tt
             end);
        send (SendInventory [peerID] (mkInventoryResponse ChannelIDBlock blocks))
  | _ => ret tt
  end.

(** *** Inventory responses *)

(** The loop stops after [MaxInventorySize] entries. *)
Definition handleInvResponse (peerID : string) (resp : InventoryResponse) : T unit :=
  match RespChannel resp with
  | ChannelIDBlock =>
      let gossip := (length (InvEntries resp) =? 1)%nat in
      _ ← for_each (fun s => AddHash (HexToHash s) [peerID] gossip)
            (take (Z.to_nat (MaxInventorySize cfg)) (InvEntries resp));
      if gossip then ret tt else AddActivePeer peerID
  | _ => ret tt
  end.

(** *** Data requests *)

Definition sendSingleBlock (peerID hashStr : string) : T unit :=
  block ← FindBlock (HexToHash hashStr);
  match block with
  | None => ret tt
  | Some b =>
      match EncodeBlock (EBlock b) with
      | Ok payload => send (SendData [peerID] (mkDataResponse ChannelIDBlock payload))
      | _ => ret tt
      end
  end.

(** All the requested blocks, if all of them are in the chain. *)
Fixpoint load_blocks (ch : Chain S) (hashes : list string) : option (list Block.Block) :=
  match hashes with
  | [] => Some []
  | s :: hashes' =>
      match findBlock ch (HexToHash s) with
      | None => None
      | Some b => bs ← load_blocks ch hashes'; Some (EBlock b :: bs)
      end
  end.

(** The log message after encoding reads the first block, which panics for a
    request without entries. *)
Definition handleDataRequest (peerID : string) (data : DataRequest) : T unit :=
  match ReqChannel data with
  | ChannelIDBlock =>
      match ReqEntries data with
      | [hashStr] => sendSingleBlock peerID hashStr
      | hashes =>
          ch ← gets (fun n => ChainOf (consensus n));
          match load_blocks ch hashes with
          | None => ret tt
          | Some blocks =>
              match EncodeBlocks blocks with
              | Ok payload =>
                  match blocks with
                  | [] => lift (Panic "index out of range")
                  | _ => send (SendData [peerID] (mkDataResponse ChannelIDBlock payload))
                  end
              | _ => ret tt
              end
          end
      end
  | _ => ret tt
  end.

(** *** Headers, blocks and votes received *)

Definition handleHeader (header : BlockHeader) (peerID : list string) : T unit :=
  eb ← FindBlock (HeaderHash header);
  if match eb with Some b => negb (IsPending (Status b)) | None => false end then ret tt
  else
    if match hardcoded_hash (HardcodeBlockHashes cfg) (BHeight header) with
       | Some s => negb (String.eqb s (HashHex (HeaderHash header))) | None => false end then ret tt
    else
      lfb ← last_finalized;
      t ← tip;
      if (EBHeight lfb <? BHeight header)
         && (BHeight header <=? u64_add (u64_add (EBHeight t) (wrap64 (MaxInventorySize cfg))) 1)
      then AddHeader header peerID
      else ret tt.

(** Whether a received block is let in: a hardcoded height admits the
    hardcoded hash only, any other height a valid block. *)
Definition admissible (block : Block.Block) (chainID : string) : bool :=
  match hardcoded_hash (HardcodeBlockHashes cfg) (BHeight (Header block)) with
  | Some s => String.eqb s (HashHex (BlockHash block))
  | None => is_ok (Block_Validate block chainID)
  end.

(** Gossip of a block by its hash and by its header. *)
Definition gossip_block (block : Block.Block) : T unit :=
  _ ← send (SendInventory [] (mkInventoryResponse ChannelIDBlock [HashHex (BlockHash block)]));
  match EncodeHeaders [Header block] with
  | Ok payload => send (SendData [] (mkDataResponse ChannelIDHeader payload))
  | _ => ret tt
  end.

Definition handleBlock (block : Block.Block) : T unit :=
  eb ← FindBlock (BlockHash block);
  if match eb with Some b => negb (IsPending (Status b)) | None => false end then ret tt
  else
    ch ← gets (fun n => ChainOf (consensus n));
    if negb (admissible block (CChainID ch)) then ret tt
    else
      _ ← AddBlock cfg block;
      g ← IsGossipBlock (BlockHash block);
      if (g : bool) && negb (P2POptLibp2p cfg) then gossip_block block else ret tt.

Definition VoteHash (v : Vote) : Hash := Keccak256Hash (EncodeVote v).

(** Gossip of a vote that was not gossiped recently. *)
Definition gossip_vote (v : Vote) : T unit :=
  seen ← gets (fun n => lru_Contains (voteCache n) (VoteHash v));
  if (seen : bool) then ret tt
  else
    _ ← modify (fun n => mkNode (requestMgr n) (consensus n) (world n)
                           (lru_Add (voteCache n) (VoteHash v)) (outbox n) (consumed n));
    match VoteToBytes v with
    | Ok payload => send (SendData [] (mkDataResponse ChannelIDVote payload))
    | _ => ret tt
    end.

Definition same_vote (v w : Vote) : bool :=
  (Vote.Block w =? Vote.Block v) && (Epoch w =? Epoch v) && (Height w =? Height v) && (ID w =? ID v).

Definition handleVote (v : Vote) : T unit :=
  ch ← gets (fun n => ChainOf (consensus n));
  order ← on_world (fun w => range_set w (FindVotesByHash ch (Vote.Block v)));
  if existsb (same_vote v) (Votes order) then ret tt
  else if match findBlock ch (Vote.Block v) with
          | Some b => bool_decide (Status b = BlockStatusDisposed) | None => false end then ret tt
  else
    _ ← PassdownMessage (PassVote v);
    if P2POptLibp2p cfg then ret tt else gossip_vote v.

(** A proposal without a block makes [handleBlock] follow a nil pointer. *)
Definition handleProposal (p : Proposal) : T unit :=
  _ ← (match PVotes p with
       | None => ret tt
       | Some votes => order ← on_world (fun w => range_set w votes); for_each handleVote (Votes order)
       end);
  match PBlock p with
  | None => lift (Panic "nil pointer dereference")
  | Some b => handleBlock b
  end.

Definition handleDataResponse (peerID : string) (data : DataResponse) : T unit :=
  match DataChannel data with
  | ChannelIDBlock =>
      match DecodeBlock (Payload data) with
      | Ok block => handleBlock block
      | _ =>
          match DecodeBlocks (Payload data) with
          | Ok blocks => for_each handleBlock blocks
          | _ => ret tt
          end
      end
  | ChannelIDVote =>
      match DecodeVote (Payload data) with Ok v => handleVote v | _ => ret tt end
  | ChannelIDProposal =>
      match DecodeProposal (Payload data) with Ok p => handleProposal p | _ => ret tt end
  | ChannelIDHeader =>
      match DecodeHeaders (Payload data) with
      | Ok headers => for_each (fun h => handleHeader h [peerID]) headers
      | _ => ret tt
      end
  | _ => ret tt
  end.

(** *** Messages *)

Definition inboundAllowed (peerID : string) : bool :=
  bool_decide (whitelist cfg = []) ||
  existsb (fun p => String.eqb (ToLower p) (ToLower peerID)) (whitelist cfg).

Definition processMessage (message : PeerMessage) : T unit :=
  let peer := PeerID message in
  match MsgContent message with
  | CInventoryRequest req => handleInvRequest peer req
  | CInventoryResponse resp =>
      if inboundAllowed peer then handleInvResponse peer resp else ret tt
  | CDataRequest req => handleDataRequest peer req
  | CDataResponse resp =>
      if inboundAllowed peer then handleDataResponse peer resp else ret tt
  | CUnknown => ret tt
  end.

End Handlers.

(** ** The consensus engine behind the interface *)

Section EngineConsensus.
Context `{BlockCrypto} `{VoteCrypto} {S : Type} `{!Store S} {E : Type} `{!Environment S E}.
Context (cfg : Config).

(** The tip and the last finalized block as the engine of Engine.v computes
    them; both only read the engine. *)
Definition engine_tip (e : Engine S E) (leaf : bool) : outcome ExtendedBlock :=
  r ← Engine.GetTip cfg leaf e; Ok r.1.

Lemma engine_tip_stored (e : Engine S E) leaf b :
  engine_tip e leaf = Ok b -> exists h, findBlock (chain (state e)) h = Some b.
Proof.
  unfold engine_tip. destruct (Engine.GetTip cfg leaf e) as [[t e']| |] eqn:Ht; cbn; [|done|done].
  intros [= <-]. apply GetTip_inv in Ht as (_ & hcc & Hh & Ht).
  eapply tip_loop_stored; [..|exact Ht]; [repeat constructor|]; by eexists.
Qed.

Lemma engine_lfb_stored (e : Engine S E) b :
  ConsensusState.GetLastFinalizedBlock (state e) = Ok b -> exists h, findBlock (chain (state e)) h = Some b.
Proof.
  unfold ConsensusState.GetLastFinalizedBlock. destruct (findBlock _ _) eqn:Hb; [|done].
  intros [= <-]. eauto.
Qed.

Lemma engine_lfb_kept (e : Engine S E) b ch :
  ConsensusState.GetLastFinalizedBlock (state e) = Ok b -> keeps_blocks (chain (state e)) ch ->
  exists b', ConsensusState.GetLastFinalizedBlock (state (with_state (with_chain (state e) ch) e)) = Ok b' /\
    EBlock b' = EBlock b.
Proof.
  unfold ConsensusState.GetLastFinalizedBlock. cbn.
  destruct (findBlock (chain (state e)) _) as [b0|] eqn:Hb; [|done]. intros [= <-] Hk.
  destruct (Hk _ _ Hb) as (b' & -> & Heq). eauto.
Qed.

#[export] Instance engine_consensus : Consensus S (Engine S E) := {|
  ChainOf e := chain (state e);
  set_chain e ch := with_state (with_chain (state e) ch) e;
  GetTip := engine_tip;
  GetLastFinalizedBlock e := ConsensusState.GetLastFinalizedBlock (state e);
  ChainOf_set _ _ := eq_refl;
  tip_stored := engine_tip_stored;
  lfb_stored := engine_lfb_stored;
  lfb_kept := engine_lfb_kept
|}.
End EngineConsensus.
