(* ===== verification/SyncInv.v ===== *)
(** * Block synchronisation keeps its invariants

    The methods of the request manager and the handlers of the synchronisation
    manager, on a node whose chain and request manager are in order: they
    return, except on two malformed messages, keep the node in order, and
    change the chain only by the steps of Chain.v. *)

From stdpp Require Import gmap sorting relations.
From stdpp Require Import base list numbers strings.
From S2P Require Import Prelude Vote Validator Block Chain ConsensusState Heap Requests RequestsInv NetSync.
Local Open Scope string_scope.
Local Open Scope list_scope.
Local Open Scope Z_scope.

Section Sync.
Context `{BlockCrypto} `{VoteCrypto} {S : Type} `{!Store S} {C : Type} `{!Consensus S C}.
Context {W : Type} `{!World W} {L : Type} `{!LRU L} `{!HashText} `{!SyncCodec}.
Context (cfg : SyncConfig).
Implicit Types (n : Node C W L) (r : RequestManager L).

Notation chain_of n := (ChainOf (consensus n)).

Record sync_inv n : Prop := {
  si_chain : chain_inv (chain_of n);
  si_heights : heights_ok (chain_of n);
  si_rm : rm_inv [] (requestMgr n);
  si_heap : heap_known (chain_of n) (requestMgr n);
  si_tip : forall b, fastSyncTip (requestMgr n) = Some b -> is_u64 (EBHeight b)
}.

(** The consensus engine answers. *)
Definition live n : Prop :=
  is_ok (GetLastFinalizedBlock (consensus n)) = true /\ is_ok (GetTip (consensus n) true) = true.

(** A hash is in the chain or pending. *)
Definition known n (x : Hash) : Prop :=
  is_Some (findBlock (chain_of n) x) \/ is_Some (pendingBlocksByHash (requestMgr n) !! x).

(** Changes of the request manager that keep the chain and the tip. *)
Lemma sync_inv_rm n r : sync_inv n -> rm_inv [] r -> heap_known (chain_of n) r ->
  fastSyncTip r = fastSyncTip (requestMgr n) ->
  forall w vc ob cs, sync_inv (mkNode r (consensus n) w vc ob cs).
Proof. intros [] Hr Hk Ht w vc ob cs. split; cbn; try done. by rewrite Ht. Qed.

Lemma sync_inv_frame n : sync_inv n -> forall w vc ob cs,
  sync_inv (mkNode (requestMgr n) (consensus n) w vc ob cs).
Proof. intros []. by split. Qed.

(** ** Hashes *)

(** [r'] is [r] with more pending blocks. *)
Definition grows r r' : Prop :=
  pendingBlocksByHash r ⊆ pendingBlocksByHash r' /\ fastSyncTip r' = fastSyncTip r.

#[export] Instance grows_preorder : PreOrder grows.
Proof.
  split; [done|]. intros r1 r2 r3 [Ha Hb] [Hc Hd]. split; [by etrans|congruence].
Qed.

(** The part of the node a method of the request manager may change. *)
Definition learns n n' : Prop := sync_inv n' /\ consensus n' = consensus n /\
  grows (requestMgr n) (requestMgr n').

Lemma heap_known_update {S'} `{!Store S'} (ch : Chain S') r id pb : phash pb = phash (obj r id) ->
  heap_known ch r -> heap_known ch (set_obj r id pb).
Proof.
  intros Hh Hk x Hx. destruct (Hk x Hx) as [?|Hc]; [by left|right].
  rewrite obj_set. case_decide; subst; by rewrite ?Hh.
Qed.

Lemma sync_inv_update n id pb : is_Some (objects (requestMgr n) !! id) ->
  phash pb = phash (obj (requestMgr n) id) -> pheader pb = pheader (obj (requestMgr n) id) ->
  sync_inv n -> forall w vc ob cs, sync_inv (mkNode (set_obj (requestMgr n) id pb) (consensus n) w vc ob cs).
Proof.
  intros Ho Hh Hd Hi w vc ob cs. apply sync_inv_rm; try done.
  - apply rm_inv_update; try done. apply Hi.
  - apply heap_known_update; [done|apply Hi].
Qed.

Lemma pending_not_stale n x : sync_inv n -> findBlock (chain_of n) x = None ->
  pendingBlocksByHash (requestMgr n) !! x = None ->
  forall id, id ∈ queued (requestMgr n) [] -> phash (obj (requestMgr n) id) <> x.
Proof.
  intros Hi Hc Hm id Hid <-. unfold queued in Hid. rewrite app_nil_r in Hid.
  destruct (si_heap _ Hi id Hid) as [Hin|[b Hb]]; [|congruence].
  destruct (inv_pending _ _ _ (si_rm _ Hi) Hin). congruence.
Qed.

Lemma wp_addHash x ps gossip n : sync_inv n ->
  wp (addHash x ps gossip) (fun _ n' => learns n n' /\ known n' x) n.
Proof.
  intros Hi. apply wp_seq. unfold wp at 1, FindBlock, gets.
  destruct (findBlock (chain_of n) x) as [b|] eqn:Hb.
  { split; [|left; rewrite Hb; eauto]. split_and!; done. }
  apply wp_seq. unfold wp at 1, get_rm, gets. apply wp_seq.
  eapply (wp_weaken _ (fun id n1 => learns n n1 /\ pendingBlocksByHash (requestMgr n1) !! x = Some id)).
  - destruct (pendingBlocksByHash (requestMgr n) !! x) as [id|] eqn:Hid; [by split|].
    apply wp_seq, wp_time. intros t1 w1. apply wp_seq, wp_time. intros t2 w2. cbn.
    apply wp_seq. unfold wp at 1, get_rm, gets. apply wp_seq. unfold wp at 1, on_rm, modify; cbn.
    split; [split_and!|].
    + apply sync_inv_rm; [done| |intros y Hy|done].
      * apply rm_inv_push_pending; [done|done|by apply pending_not_stale|apply Hi].
      * cbn in Hy. destruct (si_heap _ Hi y Hy) as [Hin|Hc]; [left; cbn; set_solver|right].
        cbn. unfold obj; cbn. rewrite lookup_insert_ne; [exact Hc|].
        destruct (inv_queue _ _ (si_rm _ Hi) y) as (pb & hd & Ho & _).
        { unfold queued. rewrite app_nil_r. exact Hy. }
        assert (y < next (requestMgr n))%nat by (apply (inv_fresh _ _ (si_rm _ Hi)); eauto). lia.
    + done.
    + split; [|done]. by apply insert_subseteq.
    + cbn. by rewrite lookup_insert_eq.
  - intros id n1 [(Hi1 & Hc1 & Hg1) Hid]. unfold wp, on_rm, modify. cbn zeta.
    destruct (inv_map _ _ (si_rm _ Hi1) _ _ Hid) as [Hin Hx].
    destruct (inv_pending _ _ _ (si_rm _ Hi1) Hin) as [Ho _].
    case_bool_decide as Hbl; (split; [|right; cbn; rewrite Hid; eauto]).
    + split_and!; [by apply sync_inv_frame|done|done].
    + split_and!; [by apply sync_inv_update; eauto|done|done].
Qed.

(** ** Headers *)

Lemma wp_AddHeader header ps n : sync_inv n ->
  wp (AddHeader header ps) (fun _ n' => learns n n' /\ known n' (HeaderHash header)) n.
Proof.
  intros Hi. unfold AddHeader. apply wp_seq. unfold wp at 1, FindBlock, gets.
  destruct (findBlock (chain_of n) (HeaderHash header)) as [b|] eqn:Hb.
  { split; [|left; rewrite Hb; eauto]. by split_and!. }
  apply wp_seq. unfold wp at 1, get_rm, gets. apply wp_seq.
  eapply (wp_weaken _ (fun _ n1 => learns n n1 /\ known n1 (HeaderHash header))).
  { case_bool_decide as Hs; [split; [by split_and!|by right]|by apply wp_addHash]. }
  intros ? n1 [(Hi1 & Hc1 & Hg1) Hk]. apply wp_seq. unfold wp at 1, get_rm, gets.
  destruct Hk as [Hk|Hk]; [rewrite Hc1, Hb in Hk; by destruct Hk|]. destruct Hk as [id Hid]. rewrite Hid.
  destruct (inv_map _ _ (si_rm _ Hi1) _ _ Hid) as [Hin Hx].
  destruct (inv_pending _ _ _ (si_rm _ Hi1) Hin) as [Ho _].
  apply wp_seq.
  eapply (wp_weaken _ (fun _ n2 => learns n1 n2 /\ pendingBlocksByHash (requestMgr n2) !! HeaderHash header = Some id)).
  { unfold wp, on_rm, modify, record_header.
    destruct (pheader (obj (requestMgr n1) id)) as [h0|] eqn:Hh; [split; [|done]; by split_and!; try apply sync_inv_frame|].
    split; [|done]. split_and!; [|done|done]. apply sync_inv_rm; [done| | |done].
    - apply rm_inv_header; [done|done|by rewrite Hx|apply Hi1].
    - intros y Hy. unfold push_header in Hy. cbn [pendingBlocksWithHeader with_heap] in Hy.
      rewrite heap_Push_perm in Hy. apply elem_of_cons in Hy as [->|Hy]; [by left|].
      destruct (si_heap _ Hi1 y Hy) as [?|Hc]; [by left|right].
      unfold push_header, obj at 1. cbn [objects with_heap]. fold (obj (set_obj (requestMgr n1) id (set_header (obj (requestMgr n1) id) header)) y).
      rewrite obj_set. by case_decide; subst. }
  intros ? n2 [(Hi2 & Hc2 & Hg2) Hid2]. unfold wp, on_rm, modify.
  destruct (inv_map _ _ (si_rm _ Hi2) _ _ Hid2) as [Hin2 Hx2].
  destruct (inv_pending _ _ _ (si_rm _ Hi2) Hin2) as [Ho2 _].
  split; [split_and!|right; cbn; rewrite Hid2; eauto].
  - by apply sync_inv_update; eauto.
  - cbn. congruence.
  - etrans; [exact Hg1|]. exact Hg2.
Qed.

(** ** Active peers *)

Lemma min_peer_in l : l <> [] -> Forall (fun p => snd p <= MaxPeerActiveScore) l -> min_peer l ∈ l.*1.
Proof.
  intros Hl Hs. unfold min_peer.
  set (f := fun (acc : Z * string) (p : string * Z) => if snd p <=? fst acc then (snd p, fst p) else acc).
  assert (forall l0 acc, acc.2 ∈ l.*1 -> (forall p, p ∈ l0 -> p ∈ l) -> (foldl f acc l0).2 ∈ l.*1) as Hfold.
  { induction l0 as [|p l0 IH]; intros acc Hacc Hin; cbn [foldl]; [done|].
    apply IH; [|set_solver]. unfold f. destruct (_ <=? _); [|done]. cbn.
    apply list_elem_of_fmap. exists p. set_solver. }
  destruct l as [|p l]; [done|]. cbn [foldl]. apply Forall_inv in Hs as Hp.
  unfold f at 2. cbn [fst snd]. rewrite (proj2 (Z.leb_le _ _) Hp).
  apply Hfold; [cbn; set_solver|set_solver].
Qed.

Lemma wp_AddActivePeer p n : sync_inv n -> wp (AddActivePeer p) (fun _ n' => learns n n') n.
Proof.
  intros Hi. pose proof (si_rm _ Hi) as Hr.
  assert (Hset : forall m, active_ok m -> forall w vc ob cs,
    learns n (mkNode (with_active (requestMgr n) m (refreshCounter (requestMgr n))) (consensus n) w vc ob cs)).
  { intros m [Hm1 Hm2] w vc ob cs. split_and!; [|done|done].
    apply sync_inv_rm; [done|by apply rm_inv_active|apply Hi|done]. }
  unfold AddActivePeer. apply wp_seq. unfold wp at 1, get_rm, gets.
  set (active := activePeers (requestMgr n)).
  assert (active_ok active) as [Hsize Hsc] by (split; apply Hr).
  assert (Hins : forall m, (size m < MaxNumPeersToSendRequests)%nat ->
    (forall q s, m !! q = Some s -> s <= MaxPeerActiveScore) -> active_ok (<[p := MaxPeerActiveScore]> m)).
  { intros m Hm Hq. split.
    - rewrite map_size_insert. case_match; unfold id; lia.
    - intros q s [[_ <-]|[_ Hs]]%lookup_insert_Some; [lia|eauto]. }
  destruct (active !! p) as [score|] eqn:Hp.
  - destruct (score <? MaxPeerActiveScore); [|by split_and!].
    unfold wp, on_rm, modify. apply Hset. split.
    + by rewrite map_size_insert_Some by eauto.
    + intros q s [[_ <-]|[_ Hs]]%lookup_insert_Some; [lia|eauto].
  - apply wp_seq.
    eapply (wp_weaken _ (fun kept n1 => ((size kept < MaxNumPeersToSendRequests)%nat /\
      forall q s, kept !! q = Some s -> s <= MaxPeerActiveScore) /\
      exists w, n1 = mkNode (requestMgr n) (consensus n) w (voteCache n) (outbox n) (consumed n))).
    + destruct (Nat.leb_spec MaxNumPeersToSendRequests (size active)) as [Hfull|Hroom];
        [|unfold wp, ret; split; [done|exists (world n); by destruct n]].
      apply wp_seq. apply (wp_world_with (fun l => l ≡ₚ map_to_list active)); [intros; apply range_map_perm|].
      intros l w Hl. unfold wp, ret. split; [|eauto].
      assert (Hin : min_peer l ∈ l.*1).
      { apply min_peer_in.
        - intros ->. apply Permutation_nil_l in Hl. symmetry in Hl. apply map_to_list_empty_iff in Hl.
          rewrite Hl, map_size_empty in Hfull. unfold MaxNumPeersToSendRequests in Hfull. lia.
        - apply Forall_forall. intros [q s] Hq. rewrite Hl in Hq. apply elem_of_map_to_list in Hq. by apply (Hsc q). }
      apply list_elem_of_fmap in Hin as ([q s] & -> & Hq). rewrite Hl in Hq. apply elem_of_map_to_list in Hq.
      cbn. split.
      * rewrite map_size_delete_Some by eauto. unfold MaxNumPeersToSendRequests in *. lia.
      * intros q' s' [_ Hs']%lookup_delete_Some. eauto.
    + intros kept n1 ([Hk1 Hk2] & w & ->). unfold wp, on_rm, modify; cbn. apply Hset. by apply Hins.
Qed.

(** ** Blocks *)

Definition eth := SyncEthTxHash cfg.

(** The chain changes by its own steps, and consensus keeps its last finalized
    block. *)
Definition evolves n n' : Prop := sync_inv n' /\ rtc (chain_step eth) (chain_of n) (chain_of n') /\
  (is_ok (GetLastFinalizedBlock (consensus n)) = true -> is_ok (GetLastFinalizedBlock (consensus n')) = true).

Lemma evolves_trans n1 n2 n3 : evolves n1 n2 -> evolves n2 n3 -> evolves n1 n3.
Proof. intros (_ & Ha & Hb) (Hc & Hd & He). split_and!; [done|by etrans|auto]. Qed.

Lemma learns_evolves n n' : learns n n' -> evolves n n'.
Proof. intros (Hi & Hc & _). split_and!; [done|by rewrite Hc|by rewrite Hc]. Qed.

Lemma learns_refl n : sync_inv n -> learns n n.
Proof. by intros Hi; split_and!. Qed.

(** A block of the chain is no longer pending. *)
Lemma sync_inv_drop n ch h : sync_inv n -> chain_inv ch -> heights_ok ch ->
  keeps_blocks (chain_of n) ch -> is_Some (findBlock ch h) ->
  let r := requestMgr n in
  let r' := match pendingBlocksByHash r !! h with
            | None => r
            | Some el => with_pending r (objects r) (next r) (list_Remove (pendingBlocks r) el)
                           (delete h (pendingBlocksByHash r))
            end in
  forall w vc ob cs, sync_inv (mkNode r' (set_chain (consensus n) ch) w vc ob cs).
Proof.
  intros Hi Hch Hh Hk Hin r r' w vc ob cs.
  assert (Hkn : forall id, id ∈ pendingBlocksWithHeader r -> id ∈ pendingBlocks r \/
    is_Some (findBlock ch (phash (obj r id)))).
  { intros id [?|[b Hb]]%(si_heap _ Hi); [by left|right]. destruct (Hk _ _ Hb) as (b' & Hb' & _). exists b'. exact Hb'. }
  assert (rm_inv [] r' /\ heap_known ch r') as [Hr' Hk'].
  { unfold r'. destruct (pendingBlocksByHash r !! h) as [el|] eqn:Hel; [|split; [apply Hi|exact Hkn]].
    destruct (inv_map _ _ (si_rm _ Hi) _ _ Hel) as [Hel' Hph]. rewrite <- Hph. split.
    - apply (rm_inv_remove [] r el Hel' (si_rm _ Hi)).
    - intros id Hid. destruct (Hkn id Hid) as [Hp|Hc]; [|by right].
      destruct (decide (id = el)) as [->|Hne]; [right|].
      { change (is_Some (findBlock ch (phash (obj (requestMgr n) el)))). by rewrite Hph. }
      left. by apply elem_of_list_Remove. }
  split; cbn; rewrite ?ChainOf_set; try done.
  unfold r'. intros b. destruct (_ !! _); apply (si_tip _ Hi).
Qed.

Lemma wp_AddBlock block n : sync_inv n -> decoded block ->
  wp (AddBlock cfg block) (fun _ n' => evolves n n' /\ voteCache n' = voteCache n /\
    outbox n' = outbox n /\ consumed n' = consumed n /\
    match Chain.AddBlock eth (chain_of n) block with
    | Ok (eb, ch) => chain_of n' = ch /\ pendingBlocksByHash (requestMgr n') !! BlockHash block = None
    | _ => n' = n
    end) n.
Proof.
  intros Hi [Hu Hc]. unfold AddBlock. apply wp_seq. unfold wp at 1, gets. unfold eth in *.
  destruct (Chain.AddBlock (SyncEthTxHash cfg) (chain_of n) block) as [[eb ch]| |] eqn:Hadd.
  - assert (chain_step (SyncEthTxHash cfg) (chain_of n) ch) as Hstep by (eapply step_add; [by left|done|done]).
    pose proof (si_chain _ Hi) as Hinv. pose proof (step_chain_inv _ _ _ Hinv Hstep) as Hinv'.
    destruct (step_evolves _ _ _ (proj1 Hinv) (si_heights _ Hi) Hstep) as (_ & Hh' & Hk').
    apply addBlock_inv in Hadd as (_ & _ & -> & _ & Hfind & _); [|apply Hinv|by left].
    apply wp_seq. unfold wp at 1, modify. apply wp_seq. unfold wp at 1, on_rm at 1, modify.
    pose proof (sync_inv_drop n ch (BlockHash block) Hi Hinv' Hh' Hk') as Hdrop.
    unfold wp, on_rm, modify; cbn. rewrite ChainOf_set.
    split; [|split_and!; [done..|]].
    + split_and!.
      * specialize (Hdrop ltac:(rewrite Hfind, decide_True by done; eauto)). cbn in Hdrop.
        match goal with |- sync_inv (mkNode (match blockNotify ?r with _ => _ end) _ _ _ _ _) =>
          destruct (blockNotify r); [apply Hdrop|] end.
        specialize (Hdrop (world n) (voteCache n) (outbox n) (consumed n)).
        destruct Hdrop as [? ? Hr ? ?]. split; try done. eapply rm_inv_same; [|exact Hr]. done.
      * cbn. rewrite ChainOf_set. by apply rtc_once.
      * cbn. intros Hl. destruct (GetLastFinalizedBlock (consensus n)) as [b| |] eqn:Hb; [|done|done].
        destruct (lfb_kept _ _ _ Hb Hk') as (b' & -> & _). done.
    + match goal with |- context [match blockNotify ?r with _ => _ end] =>
        assert (pendingBlocksByHash r !! BlockHash block = None) as Hnone end.
      { destruct (pendingBlocksByHash (requestMgr n) !! BlockHash block) eqn:Hel; cbn; [apply lookup_delete_eq|done]. }
      by destruct (blockNotify _).
  - unfold wp, ret. split; [|done]. by apply learns_evolves, learns_refl.
  - exfalso. unfold Chain.AddBlock, addBlock in Hadd. by repeat case_match.
Qed.

(** ** Inventory requests *)

Lemma stored_height n b : sync_inv n -> (exists h, findBlock (chain_of n) h = Some b) -> is_u64 (EBHeight b).
Proof. intros Hi [h Hb]. by apply (si_heights _ Hi h). Qed.

(** The starting points: blocks between the last finalized block and the tip
    that are neither pending nor invalid, and the last finalized block last. *)
Definition starts_ok n (req : InventoryRequest) : Prop :=
  exists top lfb l, is_u64 top /\ GetLastFinalizedBlock (consensus n) = Ok lfb /\
    req = mkInventoryRequest ChannelIDBlock (l ++ [HashHex (EBHash lfb)]) "" /\
    Forall (start_ok (chain_of n) top (EBHeight lfb)) l.

Lemma wp_buildInventoryRequest n : sync_inv n -> live n ->
  wp buildInventoryRequest (fun req n' => n' = n /\ starts_ok n req) n.
Proof.
  intros Hi [Hl Ht]. unfold buildInventoryRequest. apply wp_seq. unfold wp at 1, get_rm, gets.
  apply wp_seq. eapply (wp_weaken _ (fun t n1 => n1 = n /\ is_u64 (EBHeight t))).
  { destruct (fastSyncTip (requestMgr n)) as [t|] eqn:Htip; [split; [done|by apply (si_tip _ Hi)]|].
    unfold wp, tip, lift. destruct (GetTip (consensus n) true) as [t| |] eqn:Hgt; [|done|done].
    split; [done|]. eapply stored_height; [done|by eapply tip_stored]. }
  intros t n1 [-> Htu]. apply wp_seq. unfold wp at 1, last_finalized, lift.
  destruct (GetLastFinalizedBlock (consensus n)) as [lfb| |] eqn:Hlfb; [|done|done].
  assert (is_u64 (EBHeight lfb)) as Hlu by (eapply stored_height; [done|by eapply lfb_stored]).
  apply wp_seq. unfold wp at 1, gets. apply wp_seq. unfold wp at 1, lift.
  pose proof (starts_loop_ok backoff_fuel (chain_of n) (EBHeight t) (EBHeight t) (EBHeight lfb) Htu Htu Hlu
    ltac:(lia) ltac:(unfold backoff_fuel; lia) ltac:(unfold backoff_fuel; lia)) as Hok.
  destruct (starts_loop _ _ _ _ _ _) as [l| |] eqn:Hl'; [|done|done].
  unfold wp, ret. split; [done|]. exists (EBHeight t), lfb, l. split_and!; try done.
  eapply starts_loop_entries; [exact Htu|apply Hlu| |exact Hl']. lia.
Qed.

(** ** A tick *)

(** What a tick sends: at most one inventory request, to at most six distinct
    peers, then block requests for pending blocks, each with one to four
    hashes, with at most eighteen hashes in all. *)
Definition tick_sends n (ps : list Packet) : Prop :=
  exists inv reqs, ps = inv ++ reqs /\
    (inv = [] \/ exists peers req, inv = [GetInventory peers req] /\ NoDup peers /\
       (length peers <= 6)%nat /\ starts_ok n req) /\
    Forall (request_ok (requestMgr n)) reqs /\
    entries reqs <= GossipRequestQuotaPerSecond + FastsyncRequestQuota.

(** The pending blocks with a header are those in the heap. *)
Definition heap_exact r : Prop := forall id,
  id ∈ pendingBlocksWithHeader r <-> id ∈ pendingBlocks r /\ is_Some (pheader (obj r id)).

(** The node after the inventory request, if one was due. *)
Definition asked n n1 : Prop := rm_inv [] (requestMgr n1) /\ quotas_ok (requestMgr n1) /\
  quota (requestMgr n1) = GossipRequestQuotaPerSecond + FastsyncRequestQuota /\
  heap_known (chain_of n1) (requestMgr n1) /\
  consensus n1 = consensus n /\ voteCache n1 = voteCache n /\ consumed n1 = consumed n /\
  fastSyncTip (requestMgr n1) = fastSyncTip (requestMgr n) /\
  pendingBlocksByHash (requestMgr n1) = pendingBlocksByHash (requestMgr n) /\
  (outbox n1 = outbox n \/ exists peers req, outbox n1 = outbox n ++ [GetInventory peers req] /\ NoDup peers /\
     (length peers <= 6)%nat /\ starts_ok n req).

Lemma wp_inventory_round n log : sync_inv n -> live n ->
  let r := with_quotas (requestMgr n) GossipRequestQuotaPerSecond FastsyncRequestQuota in
  forall w, wp (_ ← (if (log : bool) then _ ← tip; ret tt else ret tt);
      t3 ← time_now;
      _ ← on_rm (fun r => with_last_request r t3);
      req ← buildInventoryRequest;
      getInventory req) (fun _ n1 => asked n n1)
    (mkNode r (consensus n) w (voteCache n) (outbox n) (consumed n)).
Proof.
  intros Hi Hl r w. set (n0 := mkNode r _ w _ _ _).
  apply wp_seq. eapply (wp_weaken _ (fun _ n1 => n1 = n0)).
  { destruct log; [|done]. apply wp_seq. unfold wp at 1, tip, lift.
    change (consensus n0) with (consensus n). destruct Hl as [_ Hl]. by destruct (GetTip (consensus n) true). }
  intros ? n1 ->. apply wp_seq, wp_time. intros t w1. apply wp_seq. unfold wp at 1, on_rm, modify; cbn.
  set (n1 := mkNode (with_last_request r t) _ w1 _ _ _).
  assert (sync_inv n1) as Hi1.
  { apply sync_inv_rm; [done| |apply Hi|done]. eapply rm_inv_same; [|apply Hi]. done. }
  apply wp_seq. eapply wp_weaken; [by apply (wp_buildInventoryRequest n1)|]. intros req n2 [-> Hs].
  eapply wp_weaken; [apply (wp_getInventory req [] n1), Hi1|]. intros ? n2 [Hr2 Ha].
  destruct Ha as [Hc Hv Hcs Ht Ho Hp Hm Hh Hg Hf Hsent]. unfold asked, quotas_ok, quota.
  rewrite Hc, Hg, Hf. split; [done|]. split; [done|]. split; [done|].
  split; [|split_and!; try done].
  - intros id. rewrite Hh, Hp. unfold obj. rewrite Ho. apply (si_heap _ Hi1).
  - right. destruct Hsent as (ps & Hs1 & Hs2 & Hs3). exists ps, req. by split_and!.
Qed.

Lemma wp_tryToDownload n : sync_inv n -> live n ->
  wp (tryToDownload cfg) (fun _ n' => sync_inv n' /\ consensus n' = consensus n /\
    voteCache n' = voteCache n /\ consumed n' = consumed n /\ heap_exact (requestMgr n') /\
    exists ps, outbox n' = outbox n ++ ps /\ tick_sends n ps) n.
Proof.
  intros Hi Hl. unfold tryToDownload.
  apply wp_seq. unfold wp at 1, on_rm at 1, modify. apply wp_seq. unfold wp at 1, get_rm, gets.
  apply wp_seq, wp_time. intros t1 w1. apply wp_seq, wp_time. intros t2 w2.
  cbn [requestMgr consensus world voteCache outbox consumed].
  set (r := with_quotas (requestMgr n) _ _). set (n0 := mkNode r _ w2 _ _ _).
  apply wp_seq. eapply (wp_weaken _ (fun _ n1 => asked n n1)).
  { match goal with |- context [if ?b then _ else ret tt] => destruct b end; [by apply wp_inventory_round|].
    unfold wp, ret, asked. cbn. split_and!; try done; [|apply Hi|by left].
    eapply rm_inv_same; [|apply Hi]. done. }
  intros ? n1 (Hr1 & Hq1 & Hquota & Hk1 & Hc1 & Hv1 & Hcs1 & Ht1 & Hm1 & Hsent).
  apply wp_seq. eapply (wp_weaken _ (fun _ n2 => loop_inv [] n2 /\ requests n1 n2)).
  { destruct (ifDownloadByHeader cfg); [by apply wp_downloadBlockFromHeader|].
    split; [done|apply requests_refl]. }
  intros ? n2 [Hi2 Hrq2]. apply wp_seq. eapply (wp_weaken _ (fun _ n3 => loop_inv [] n3 /\ requests n2 n3)).
  { destruct (ifDownloadByHash cfg); [by apply wp_downloadBlockFromHash|].
    split; [done|apply requests_refl]. }
  intros ? n3 [Hi3 Hrq3]. assert (requests n1 n3) as [Hc3 Hv3 Hcs3 Ht3 Hm3 Hh3 (reqs & Hps & Fps & Eps)] by (by etrans).
  destruct (rm_inv_clean _ (proj1 Hi3)) as [Hclean Hexact].
  unfold wp, on_rm, modify; cbn -[clean_headers]. split_and!; try congruence; [| |].
  - destruct Hi as [? ? _ _ Htip]. split; cbn -[clean_headers]; rewrite ?Hc3, ?Hc1; try done.
    + intros id Hid. left. by apply Hexact.
    + intros b Hb. apply Htip. rewrite <- Ht1, <- Ht3. exact Hb.
  - exact Hexact.
  - assert (Hfin : exists inv, outbox n1 = outbox n ++ inv /\ (inv = [] \/ exists peers req,
      inv = [GetInventory peers req] /\ NoDup peers /\ (length peers <= 6)%nat /\ starts_ok n req)).
    { destruct Hsent as [->|(peers & req & -> & ?)]; [exists []; rewrite app_nil_r; auto|].
      exists [GetInventory peers req]. split; [done|]. right. eauto. }
    destruct Hfin as (inv & Hinv & Hcase). exists (inv ++ reqs). split; [by rewrite Hps, Hinv, app_assoc|].
    exists inv, reqs. split_and!; [done|done| |].
    + eapply Forall_impl; [exact Fps|]. intros p. by apply request_ok_map.
    + rewrite Hquota in Eps. destruct (proj2 Hi3) as [[? _] [? _]]. unfold quota in Eps. lia.
Qed.

(** ** Passing blocks to consensus *)

(** A downloaded block that consensus can process: it waits, and its parent is
    one of the given blocks and valid. *)
Definition ready (parents : list ExtendedBlock) (b : ExtendedBlock) : Prop :=
  Status b = BlockStatusPending /\
  exists p, p ∈ parents /\ EBHash p = EBParent b /\ IsValid (Status p) = true.

Definition in_dump n (h : Hash) : bool := lru_Contains (dumpBlockCache (requestMgr n)) h.

Record passes parents (l : list ExtendedBlock) n n' : Prop := {
  pa_inv : sync_inv n';
  pa_consensus : consensus n' = consensus n;
  pa_votes : voteCache n' = voteCache n;
  pa_outbox : outbox n' = outbox n;
  pa_dump : forall h, in_dump n' h = true -> in_dump n h = true \/ exists b, b ∈ l /\ EBHash b = h;
  pa_passed : exists bs, consumed n' = consumed n ++ (PassBlock ∘ EBlock <$> bs) /\
    (forall b, b ∈ bs -> b ∈ l /\ ready parents b) /\
    (forall b, b ∈ l -> ready parents b -> in_dump n (EBHash b) = false -> b ∈ bs)
}.

Lemma has_valid_parent_spec parents b : has_valid_parent parents b = true <->
  exists p, p ∈ parents /\ EBHash p = EBParent b /\ IsValid (Status p) = true.
Proof.
  unfold has_valid_parent. rewrite existsb_exists. split.
  - intros (p & Hp & Hb). apply list_elem_of_In in Hp. bool_to_prop. eauto.
  - intros (p & Hp & Hh & Hv). exists p. apply list_elem_of_In in Hp. split; [done|].
    by rewrite (proj2 (Z.eqb_eq _ _) Hh), Hv.
Qed.

Lemma IsPending_spec st : IsPending st = true <-> st = BlockStatusPending.
Proof. unfold IsPending. apply bool_decide_eq_true. Qed.

Lemma wp_pass_block parents b n : sync_inv n -> is_u64 (EBHeight b) ->
  wp (pass_block parents b) (fun _ n' => passes parents [b] n n') n.
Proof.
  intros Hi Hu. unfold pass_block. apply wp_seq. unfold wp at 1, get_rm, gets. fold (in_dump n (EBHash b)).
  destruct (in_dump n (EBHash b)) eqn:Hd; cbn [orb].
  { split; try done; [by left|]. exists []. rewrite app_nil_r. split_and!; [done|set_solver|].
    intros x ->%list_elem_of_singleton. congruence. }
  destruct (has_valid_parent parents b) eqn:Hv; cbn [negb].
  - apply wp_seq. unfold wp at 1, on_rm at 1, modify.
    assert (Hdump : forall h, lru_Contains (lru_Add (dumpBlockCache (requestMgr n)) (EBHash b)) h = true ->
      in_dump n h = true \/ exists x, x ∈ [b] /\ EBHash x = h).
    { intros h [->|?]%lru_Add_other; [right; exists b; set_solver|by left]. }
    assert (Hr : rm_inv [] (with_dump (requestMgr n) (lru_Add (dumpBlockCache (requestMgr n)) (EBHash b)))).
    { eapply rm_inv_same; [|apply Hi]. done. }
    destruct (IsPending (Status b)) eqn:Hp.
    + apply wp_seq. unfold wp, PassdownMessage, on_rm, modify; cbn.
      split; cbn; try done.
      * destruct Hi as [? ? _ ? _]. split; cbn; try done; [eapply rm_inv_same; [|exact Hr]; done|].
        by intros x [= <-].
      * exists [b]. split_and!; [done| |set_solver]. intros x ->%list_elem_of_singleton.
        split; [set_solver|]. split; [by apply IsPending_spec|by apply has_valid_parent_spec].
    + unfold wp, ret. split; cbn; try done.
      * apply sync_inv_rm; [done|done|apply Hi|done].
      * exists []. rewrite app_nil_r. split_and!; [done|set_solver|].
        intros x ->%list_elem_of_singleton [Hpend _]. apply IsPending_spec in Hpend. congruence.
  - unfold wp, ret. split; try done; [by left|]. exists []. rewrite app_nil_r. split_and!; [done|set_solver|].
    intros x ->%list_elem_of_singleton [_ Hpar%has_valid_parent_spec]. congruence.
Qed.

Lemma wp_pass_blocks parents l n : sync_inv n -> Forall (fun b => is_u64 (EBHeight b)) l ->
  (forall x y, x ∈ l -> y ∈ l -> EBHash x = EBHash y -> x = y) ->
  wp (for_each (pass_block parents) l) (fun _ n' => passes parents l n n') n.
Proof.
  revert n. induction l as [|x l IH]; intros n Hi Hu Hinj; cbn [for_each].
  { split; try done; [by left|]. exists []. rewrite app_nil_r. split_and!; [done|set_solver|set_solver]. }
  apply Forall_cons in Hu as [Hx Hu]. apply wp_seq.
  eapply wp_weaken; [by apply wp_pass_block|]. intros ? n1 [Hi1 Hc1 Hv1 Ho1 Hd1 (bs1 & Hbs1 & Hs1 & Hk1)].
  eapply wp_weaken; [apply IH; [done|done|set_solver]|].
  intros ? n2 [Hi2 Hc2 Hv2 Ho2 Hd2 (bs2 & Hbs2 & Hs2 & Hk2)]. split; try congruence.
  - intros h [[?|(b & ? & ?)]%Hd1|(b & ? & ?)]%Hd2; [by left|right|right]; exists b; set_solver.
  - exists (bs1 ++ bs2). split_and!.
    + by rewrite Hbs2, Hbs1, fmap_app, app_assoc.
    + intros b [[? ?]%Hs1|[? ?]%Hs2]%elem_of_app; split; set_solver.
    + intros b [->|Hb]%elem_of_cons Hr Hn; [apply elem_of_app; left; apply Hk1; set_solver|].
      destruct (decide (EBHash b = EBHash x)) as [Heq|Hne].
      { assert (b = x) as -> by (apply Hinj; set_solver). apply elem_of_app. left. apply Hk1; set_solver. }
      apply elem_of_app. right. apply Hk2; [done|done|].
      destruct (in_dump n1 (EBHash b)) eqn:Hdb; [|done].
      apply Hd1 in Hdb as [?|(y & ->%list_elem_of_singleton & Hy)]; congruence.
Qed.

Lemma blocks_at_height n height b : sync_inv n -> b ∈ findBlocksByHeight (chain_of n) height ->
  findBlock (chain_of n) (EBHash b) = Some b /\ is_u64 (EBHeight b).
Proof.
  intros Hi (h & _ & Hb)%elem_of_blocks_by_height. split; [|by apply (si_heights _ Hi h)].
  by rewrite (blocks_ok_hash _ _ _ (proj1 (si_chain _ Hi)) Hb).
Qed.

(** One height: exactly the ready blocks of that height that were not passed
    recently are passed, and the next height has them as parents. *)
Lemma wp_pass_level height parents n : sync_inv n ->
  wp (pass_level height parents) (fun next n' => passes parents (findBlocksByHeight (chain_of n) height) n n' /\
    next = match findBlocksByHeight (chain_of n) height with
           | [] => None | bs => Some (u64_add height 1, bs) end) n.
Proof.
  intros Hi. unfold pass_level. apply wp_seq. unfold wp at 1, FindBlocksByHeight, gets.
  set (l := findBlocksByHeight (chain_of n) height). case_bool_decide as Hl.
  { unfold wp, ret. rewrite Hl. split; [|done]. split; try done; [by left|].
    exists []. rewrite app_nil_r. split_and!; [done|set_solver|set_solver]. }
  apply wp_seq. eapply wp_weaken; [apply (wp_pass_blocks parents l); [done| |]|].
  - apply Forall_forall. intros b Hb. by eapply blocks_at_height.
  - intros x y Hx Hy Heq. apply (blocks_at_height _ _ _ Hi) in Hx as [Hx _], Hy as [Hy _]. congruence.
  - intros a n' Hp. unfold wp, ret. split; [done|]. by case_match.
Qed.

(** A round: every block passed waits in the chain, and its parent is in the
    chain and valid. *)
Definition round_passes n n' : Prop := sync_inv n' /\ consensus n' = consensus n /\
  outbox n' = outbox n /\ voteCache n' = voteCache n /\
  exists bs, consumed n' = consumed n ++ (PassBlock ∘ EBlock <$> bs) /\
    forall b, b ∈ bs -> findBlock (chain_of n) (EBHash b) = Some b /\ Status b = BlockStatusPending /\
      exists p, findBlock (chain_of n) (EBParent b) = Some p /\ IsValid (Status p) = true.

Lemma wp_pass_loop fuel height parents n top : sync_inv n ->
  Forall (fun p => findBlock (chain_of n) (EBHash p) = Some p) parents ->
  0 <= height <= top -> is_u64 top -> findBlocksByHeight (chain_of n) top = [] ->
  (top - height <= Z.of_nat fuel) ->
  wp (pass_loop fuel height parents) (fun _ n' => round_passes n n') n.
Proof.
  revert height parents n. induction fuel as [|fuel IH]; intros height parents n Hi Hpar Hh Htu Htop Hf;
    cbn [pass_loop]; apply wp_seq; (eapply wp_weaken; [by apply (wp_pass_level height parents n)|]);
    intros next n1 [[Hi1 Hc1 Hv1 Ho1 Hd1 (bs & Hbs & Hs & _)] ->];
    (assert (round_passes n n1) as Hround;
      [split_and!; try done; exists bs; split; [done|]; intros b ((Hb & _)%(blocks_at_height _ _ _ Hi) & Hp & p & Hin & Hpp & Hpv)%Hs;
       split_and!; [done|done|]; exists p; rewrite <- Hpp; split; [by eapply Forall_forall in Hpar|done]|]).
  - replace height with top by lia. by rewrite Htop.
  - destruct (findBlocksByHeight (chain_of n) height) as [|b0 bl] eqn:Hl; [done|].
    assert (height <> top) by congruence.
    assert (u64_add height 1 = height + 1) as -> by (apply wrap64_small; unfold is_u64 in *; lia).
    eapply wp_weaken; [apply (IH (height + 1) (b0 :: bl) n1); rewrite ?Hc1; try done; try lia|].
    + apply Forall_forall. intros b Hb. rewrite <- Hl in Hb. by eapply blocks_at_height.
    + intros ? n2 (Hi2 & Hc2 & Ho2 & Hv2 & bs2 & Hbs2 & Hs2).
      destruct Hround as (_ & _ & _ & _ & bs' & Hbs' & Hs'). split_and!; try congruence.
      exists (bs' ++ bs2). split; [by rewrite Hbs2, Hbs', fmap_app, app_assoc|].
      intros b [?%Hs'|Hb%Hs2]%elem_of_app; [done|]. by rewrite Hc1 in Hb.
Qed.

(** ** The handlers *)

Lemma wp_for_each {A} (P : Node C W L -> Prop) (R : Node C W L -> Node C W L -> Prop) `{!PreOrder R}
    (f : A -> T C W L unit) l n :
  (forall x n, x ∈ l -> P n -> wp (f x) (fun _ n' => P n' /\ R n n') n) -> P n ->
  wp (for_each f l) (fun _ n' => P n' /\ R n n') n.
Proof.
  revert n. induction l as [|x l IH]; intros n Hf Hp; cbn [for_each]; [by split|].
  apply wp_seq. eapply wp_weaken; [apply Hf; [set_solver|done]|]. intros ? n1 [Hp1 HR1].
  eapply wp_weaken; [apply IH; [|done]; intros y m Hy; apply Hf; set_solver|].
  intros ? n2 [Hp2 HR2]. split; [done|by etrans].
Qed.

(** Only the chain and the request manager matter to the invariant. *)
Lemma evolves_frame n w vc ob cs : sync_inv n -> evolves n (mkNode (requestMgr n) (consensus n) w vc ob cs).
Proof. intros Hi. split_and!; [by apply sync_inv_frame|done|done]. Qed.

Lemma evolves_refl n : sync_inv n -> evolves n n.
Proof. intros Hi. by apply learns_evolves, learns_refl. Qed.

(** [evolves] without the invariant, as a preorder for loops. *)
Definition chain_moves n n' : Prop := rtc (chain_step eth) (chain_of n) (chain_of n') /\
  (is_ok (GetLastFinalizedBlock (consensus n)) = true -> is_ok (GetLastFinalizedBlock (consensus n')) = true).

#[export] Instance chain_moves_preorder : PreOrder chain_moves.
Proof.
  split; [by split|]. intros n1 n2 n3 [Ha Hb] [Hc Hd]. split; [by etrans|auto].
Qed.

Lemma wp_send_evolves p n : sync_inv n -> wp (send p) (fun _ n' => evolves n n') n.
Proof. apply evolves_frame. Qed.

Lemma wp_gossip_block b n : sync_inv n -> wp (gossip_block b) (fun _ n' => evolves n n') n.
Proof.
  intros Hi. apply wp_seq. eapply wp_weaken; [by apply wp_send_evolves|]. intros ? n1 Hn1.
  destruct (EncodeHeaders _); try exact Hn1.
  eapply wp_weaken; [apply wp_send_evolves; apply Hn1|]. intros ? n2. by apply evolves_trans.
Qed.

Lemma wp_handleBlock b n : sync_inv n -> decoded b -> wp (handleBlock cfg b) (fun _ n' => evolves n n') n.
Proof.
  intros Hi Hb. apply wp_seq. unfold wp at 1, FindBlock, gets.
  match goal with |- context [if ?c then _ else _] => destruct c end; [by apply evolves_refl|].
  apply wp_seq. unfold wp at 1. destruct (negb _); [by apply evolves_refl|].
  apply wp_seq. eapply wp_weaken; [by apply wp_AddBlock|]. intros ? n1 (Hn1 & _).
  apply wp_seq. unfold wp at 1, IsGossipBlock, get_rm, gets.
  match goal with |- context [if ?c then _ else _] => destruct c end; [|exact Hn1].
  eapply wp_weaken; [apply wp_gossip_block; apply Hn1|]. intros ? n2. by apply evolves_trans.
Qed.

Lemma wp_handleVote v n : sync_inv n -> wp (handleVote cfg v) (fun _ n' => evolves n n') n.
Proof.
  intros Hi. apply wp_seq. unfold wp at 1, gets. apply wp_seq, wp_world. intros order w.
  destruct (existsb _ _); [by apply evolves_frame|].
  match goal with |- context [if ?c then _ else _] => destruct c end; [by apply evolves_frame|].
  apply wp_seq. unfold wp at 1, PassdownMessage, modify; cbn.
  destruct (P2POptLibp2p cfg); [by apply evolves_frame|].
  apply wp_seq. unfold wp at 1, gets. match goal with |- context [if ?c then _ else _] => destruct c end;
    [by apply evolves_frame|].
  apply wp_seq. unfold wp at 1, modify; cbn.
  destruct (VoteToBytes v); unfold wp, send, ret, modify; cbn; by apply evolves_frame.
Qed.

Lemma wp_handleVotes l n : sync_inv n -> wp (for_each (handleVote cfg) l) (fun _ n' => evolves n n') n.
Proof.
  intros Hi. eapply wp_weaken; [apply (wp_for_each sync_inv chain_moves); [|done]|].
  - intros v m _ Hm. eapply wp_weaken; [by apply wp_handleVote|]. intros ? m' (? & ? & ?). by split.
  - intros ? n' [? [? ?]]. by split_and!.
Qed.

Lemma wp_handleHeader h ps n : sync_inv n -> live n ->
  wp (handleHeader cfg h ps) (fun _ n' => learns n n') n.
Proof.
  intros Hi [Hl Ht]. apply wp_seq. unfold wp at 1, FindBlock, gets.
  match goal with |- context [if ?c then _ else _] => destruct c end; [by apply learns_refl|].
  match goal with |- context [if ?c then _ else _] => destruct c end; [by apply learns_refl|].
  apply wp_seq. unfold wp at 1, last_finalized, lift.
  destruct (GetLastFinalizedBlock (consensus n)) as [lfb| |]; [|done|done].
  apply wp_seq. unfold wp at 1, tip, lift. destruct (GetTip (consensus n) true) as [t| |]; [|done|done].
  match goal with |- context [if ?c then _ else _] => destruct c end; [|by apply learns_refl].
  eapply wp_weaken; [by apply wp_AddHeader|]. by intros ? n' [? _].
Qed.

#[export] Instance learning_preorder : PreOrder (fun n n' => consensus n' = consensus n /\
  grows (requestMgr n) (requestMgr n')).
Proof. split; [done|]. intros n1 n2 n3 [Ha Hb] [Hc Hd]. split; [congruence|by etrans]. Qed.

Lemma wp_handleHeaders l ps n : sync_inv n -> live n ->
  wp (for_each (fun h => handleHeader cfg h ps) l) (fun _ n' => learns n n') n.
Proof.
  intros Hi Hl. eapply wp_weaken; [apply (wp_for_each (fun m => sync_inv m /\ live m)
    (fun n n' => consensus n' = consensus n /\ grows (requestMgr n) (requestMgr n'))); [|done]|].
  - intros h m _ [Hm Hlm]. eapply wp_weaken; [by apply wp_handleHeader|]. intros ? m' (? & Hc & ?).
    split; [|done]. split; [done|]. unfold live. by rewrite Hc.
  - intros ? n' [[? _] [? ?]]. by split_and!.
Qed.

Lemma wp_AddHashes peer gossip l n : sync_inv n ->
  wp (for_each (fun s => AddHash (HexToHash s) [peer] gossip) l) (fun _ n' => learns n n' /\
    Forall (fun s => known n' (HexToHash s)) l) n.
Proof.
  revert n. induction l as [|s l IH]; intros n Hi; cbn [for_each]; [split; [by apply learns_refl|constructor]|].
  apply wp_seq. eapply wp_weaken; [by apply wp_addHash|]. intros ? n1 [(Hi1 & Hc1 & Hg1) Hk1].
  eapply wp_weaken; [by apply IH|]. intros ? n2 [(Hi2 & Hc2 & Hg2) Hk2]. split.
  - split_and!; [done|congruence|by etrans].
  - constructor; [|done]. destruct Hk1 as [Hk|[id Hid]]; [left; by rewrite Hc2|right].
    exists id. eapply lookup_weaken; [exact Hid|apply Hg2].
Qed.

Lemma wp_handleInvResponse peer resp n : sync_inv n ->
  wp (handleInvResponse cfg peer resp) (fun _ n' => learns n n') n.
Proof.
  intros Hi. unfold handleInvResponse. destruct (RespChannel resp); try by apply learns_refl.
  apply wp_seq. eapply wp_weaken; [by apply wp_AddHashes|]. intros ? n1 [(Hi1 & Hc1 & Hg1) _].
  destruct (_ =? 1)%nat; [by split_and!|].
  eapply wp_weaken; [by apply wp_AddActivePeer|]. intros ? n2 (Hi2 & Hc2 & Hg2).
  split_and!; [done|congruence|by etrans].
Qed.

(** What [collect] returns. *)
Definition collected {A} (keep : Hash -> ExtendedBlock -> A) (last : ExtendedBlock -> A) n
    (lfb : ExtendedBlock) (start end_ : Hash) : list A :=
  let '(l, complete) := collect_loop keep (inventory_rounds cfg) (chain_of n) end_ (EBHeight lfb) [start] [] in
  if (complete : bool) then limit_size cfg l ++ [last lfb] else l.

Lemma wp_collect {A} (keep : Hash -> ExtendedBlock -> A) last start end_ n lfb :
  GetLastFinalizedBlock (consensus n) = Ok lfb ->
  wp (collect cfg keep last start end_) (fun l n' => n' = n /\ l = collected keep last n lfb start end_) n.
Proof.
  intros Hl. unfold collect, collected. apply wp_seq. unfold wp at 1, last_finalized, lift. rewrite Hl.
  apply wp_seq. unfold wp at 1, gets. destruct (collect_loop _ _ _ _ _ _ _) as [l []]; [|done].
  apply wp_seq. unfold wp at 1. by rewrite Hl.
Qed.

Lemma wp_handleInvRequest peer req n : sync_inv n -> live n ->
  wp (handleInvRequest cfg peer req) (fun _ n' => evolves n n') n.
Proof.
  intros Hi [Hl _]. destruct (GetLastFinalizedBlock (consensus n)) as [lfb| |] eqn:Hlfb; [|done|done].
  unfold handleInvRequest. destruct (InvChannel req); try by apply evolves_refl.
  apply wp_seq. unfold wp at 1, gets. cbn zeta. destruct (IsEmpty _); [by apply evolves_refl|].
  apply wp_seq. eapply wp_weaken; [by apply wp_collect|]. intros blocks n1 [-> _].
  apply wp_seq. eapply wp_weaken; [by apply wp_collect|]. intros headers n1 [-> _].
  apply wp_seq. eapply (wp_weaken _ (fun _ n1 => evolves n n1)).
  { destruct (EncodeHeaders headers); [by apply wp_send_evolves|by apply evolves_refl..]. }
  intros ? n1 Hn1. eapply wp_weaken; [apply wp_send_evolves, Hn1|]. intros ? n2. by apply evolves_trans.
Qed.

(** *** Messages *)

(** The two messages that crash the node: a request for no blocks, and a
    proposal without a block from a peer that may send one. *)
Definition crashes (m : PeerMessage) : bool :=
  match MsgContent m with
  | CDataRequest req =>
      bool_decide (ReqChannel req = ChannelIDBlock) && bool_decide (ReqEntries req = []) && is_ok (EncodeBlocks [])
  | CDataResponse resp =>
      inboundAllowed cfg (PeerID m) && bool_decide (DataChannel resp = ChannelIDProposal) &&
      match DecodeProposal (Payload resp) with Ok p => bool_decide (PBlock p = None) | _ => false end
  | _ => false
  end.

Lemma load_blocks_length (ch : Chain S) l bs : load_blocks ch l = Some bs -> length bs = length l.
Proof.
  revert bs. induction l as [|s l IH]; intros bs; cbn [load_blocks]; [by intros [= <-]|].
  destruct (findBlock ch _) as [b|]; [|done]. destruct (load_blocks ch l) as [bs'|]; [|done].
  intros [= <-]. cbn. by rewrite (IH bs').
Qed.

Lemma handleDataRequest_spec peer req n : sync_inv n ->
  if bool_decide (ReqChannel req = ChannelIDBlock) && bool_decide (ReqEntries req = []) && is_ok (EncodeBlocks [])
  then is_panic (handleDataRequest peer req n) = true
  else wp (handleDataRequest peer req) (fun _ n' => evolves n n') n.
Proof.
  intros Hi. unfold handleDataRequest.
  destruct (ReqChannel req); cbn [bool_decide decide]; try (by apply evolves_refl).
  rewrite bool_decide_true by done. cbn [andb].
  destruct (ReqEntries req) as [|s1 [|s2 l]] eqn:He.
  - rewrite bool_decide_true by done. cbn. unfold mbind, T_bind, gets. cbn.
    destruct (EncodeBlocks []); cbn; [done|by apply evolves_refl..].
  - rewrite bool_decide_false by done. cbn [andb]. apply wp_seq. unfold wp at 1, FindBlock, gets.
    destruct (findBlock _ _) as [b|]; [|by apply evolves_refl].
    destruct (EncodeBlock (EBlock b)); [by apply wp_send_evolves|by apply evolves_refl..].
  - rewrite bool_decide_false by done. cbn [andb]. apply wp_seq. unfold wp at 1, gets.
    destruct (load_blocks _ (s1 :: s2 :: l)) as [bs|] eqn:Hbs; [|by apply evolves_refl].
    destruct (EncodeBlocks bs); try by apply evolves_refl.
    destruct bs as [|b bs]; [|by apply wp_send_evolves].
    by apply load_blocks_length in Hbs.
Qed.

Lemma panic_bind {A B} (m : T C W L A) (f : A -> T C W L B) n a n1 :
  m n = Ok (a, n1) -> is_panic (f a n1) = true -> is_panic ((m ≫= f) n) = true.
Proof. unfold mbind, T_bind. by intros ->. Qed.

Lemma handleDataResponse_spec peer resp n : sync_inv n -> live n ->
  if bool_decide (DataChannel resp = ChannelIDProposal) &&
     match DecodeProposal (Payload resp) with Ok p => bool_decide (PBlock p = None) | _ => false end
  then is_panic (handleDataResponse cfg peer resp n) = true
  else wp (handleDataResponse cfg peer resp) (fun _ n' => evolves n n') n.
Proof.
  intros Hi Hl. unfold handleDataResponse. destruct (DataChannel resp); cbn [bool_decide decide];
    try (by apply evolves_refl); try (rewrite bool_decide_false by done; cbn [andb]).
  - destruct (DecodeHeaders _) as [hs| |]; [|by apply evolves_refl..].
    eapply wp_weaken; [by apply wp_handleHeaders|]. intros ? n'. apply learns_evolves.
  - destruct (DecodeBlock _) as [b| |] eqn:Hb; [apply wp_handleBlock; [done|by eapply decoded_block]|..];
      (destruct (DecodeBlocks _) as [bs| |] eqn:Hbs; [|by apply evolves_refl..];
       apply decoded_blocks in Hbs; eapply wp_weaken;
       [apply (wp_for_each sync_inv chain_moves); [|done]; intros b m Hin Hm;
        eapply wp_weaken; [apply wp_handleBlock; [done|by eapply Forall_forall in Hbs]|];
        intros ? m' (? & ? & ?); by split
       |intros ? n' [? [? ?]]; by split_and!]).
  - rewrite bool_decide_true by done. cbn [andb].
    destruct (DecodeProposal _) as [p| |] eqn:Hp; [|by apply evolves_refl..].
    assert (Hvotes : wp (match PVotes p with
       | None => ret tt
       | Some votes => order ← on_world (fun w => range_set w votes); for_each (handleVote cfg) (Votes order)
       end) (fun _ n1 => evolves n n1) n).
    { destruct (PVotes p) as [votes|]; [|by apply evolves_refl]. apply wp_seq, wp_world. intros order w.
      eapply wp_weaken; [apply wp_handleVotes; by apply sync_inv_frame|]. intros ? n'.
      apply evolves_trans. by apply evolves_frame. }
    unfold handleProposal. case_bool_decide as Hnone.
    + apply wp_ok in Hvotes as (a & n1 & Hv & _). eapply panic_bind; [exact Hv|]. by rewrite Hnone.
    + apply wp_seq. eapply wp_weaken; [exact Hvotes|]. intros ? n1 Hn1.
      destruct (PBlock p) as [b|] eqn:Hb; [|done].
      eapply wp_weaken; [apply wp_handleBlock; [apply Hn1|by eapply decoded_proposal]|].
      intros ? n2. by apply evolves_trans.
  - destruct (DecodeVote _) as [v| |]; [by apply wp_handleVote|by apply evolves_refl..].
Qed.

(** A message is processed, and keeps the node in order, unless it is one of
    the two that crash it. *)
Lemma processMessage_cases m n : sync_inv n -> live n ->
  if crashes m then is_panic (processMessage cfg m n) = true
  else wp (processMessage cfg m) (fun _ n' => evolves n n') n.
Proof.
  intros Hi Hl. unfold crashes, processMessage. destruct (MsgContent m) as [req|resp|req|resp|].
  - by apply wp_handleInvRequest.
  - destruct (inboundAllowed _ _); [|by apply evolves_refl].
    eapply wp_weaken; [by apply wp_handleInvResponse|]. intros ? n'. apply learns_evolves.
  - by apply handleDataRequest_spec.
  - destruct (inboundAllowed _ _); cbn [andb]; [by apply handleDataResponse_spec|by apply evolves_refl].
  - by apply evolves_refl.
Qed.

(** ** Runs *)

(** A step of the node: a message is processed or the request manager ticks,
    while consensus answers; the request manager passes the blocks of one height
    to consensus; or consensus moves on, changing the chain by its own steps. *)
Inductive sync_step : Node C W L -> Node C W L -> Prop :=
| sync_message m n n' : live n -> processMessage cfg m n = Ok (tt, n') -> sync_step n n'
| sync_tick n n' : live n -> tryToDownload cfg n = Ok (tt, n') -> sync_step n n'
| sync_pass height parents next n n' : pass_level height parents n = Ok (next, n') -> sync_step n n'
| sync_consensus n c : rtc (chain_step eth) (chain_of n) (ChainOf c) -> sync_step n (with_consensus c n).

Lemma sync_step_inv n n' : sync_inv n -> sync_step n n' ->
  sync_inv n' /\ rtc (chain_step eth) (chain_of n) (chain_of n').
Proof.
  intros Hi Hs. revert Hi. destruct Hs as [m n0 n1 Hl Hm|n0 n1 Hl Ht|height parents next n0 n1 Hp|n0 c Hc]; intros Hi.
  - pose proof (processMessage_cases m n0 Hi Hl) as Hcases. unfold wp in Hcases. rewrite Hm in Hcases.
    destruct (crashes m); [done|]. destruct Hcases as (? & ? & _). done.
  - pose proof (wp_tryToDownload n0 Hi Hl) as Hw. unfold wp in Hw. rewrite Ht in Hw.
    destruct Hw as (? & Hc & _). by rewrite Hc.
  - pose proof (wp_pass_level height parents n0 Hi) as Hw. unfold wp in Hw. rewrite Hp in Hw.
    destruct Hw as [[? Hc _ _ _ _] _]. by rewrite Hc.
  - split; [|done]. pose proof (si_chain _ Hi) as Hinv.
    destruct (steps_evolve _ _ _ (proj1 Hinv) (si_heights _ Hi) Hc) as (_ & Hh & Hk & _).
    destruct Hi as [_ _ ? Hkn ?]. split; cbn; try done; [by eapply steps_chain_inv|].
    intros id [?|[b Hb]]%Hkn; [by left|right]. destruct (Hk _ _ Hb) as (b' & ? & _). eauto.
Qed.

Lemma sync_steps_inv n n' : sync_inv n -> rtc sync_step n n' ->
  sync_inv n' /\ rtc (chain_step eth) (chain_of n) (chain_of n').
Proof.
  intros Hi Hs. induction Hs as [n|n1 n2 n3 H12 _ IH]; [done|].
  destruct (sync_step_inv _ _ Hi H12) as [Hi2 Hc2]. destruct (IH Hi2) as [? ?]. split; [done|by etrans].
Qed.

Lemma NewSyncManager_inv c w : chain_inv (ChainOf c) -> heights_ok (ChainOf c) ->
  sync_inv (NewSyncManager c w : Node C W L).
Proof.
  intros Hc Hh. split; try done; [apply NewRequestManager_inv|].
  intros id Hid. by apply elem_of_nil in Hid.
Qed.
End Sync.
