(* ===== verification/SyncSpec.v ===== *)
(** * What block synchronisation guarantees

    The properties of the request manager and of the synchronisation manager:
    the run of a node on any messages, the size of what a tick sends, the
    inventory a peer is served, the exchange between two nodes, the transfer of
    a block, the blocks passed to consensus and the encoding of messages; and a
    small concrete network on which they apply. *)

From Stdlib Require Import Ascii.
From stdpp Require Import gmap sorting relations.
From stdpp Require Import base list numbers strings.
From S2P Require Import Prelude Vote Validator Block Chain ConsensusState Heap Requests RequestsInv NetSync SyncInv.
Local Open Scope string_scope.
Local Open Scope list_scope.
Local Open Scope Z_scope.

(** ** The inventory *)

Section Inventory.
Context `{BlockCrypto} `{VoteCrypto} {S : Type} `{!Store S}.
Context `{!HashText}.
Implicit Types (ch : Chain S).

(** [c] is announced after [h]: a child of [h], and a finalized one when [h]
    is below the last finalized block. *)
Definition offers ch (lfbHeight : uint64) (h c : Hash) : Prop :=
  exists b cb, findBlock ch h = Some b /\ c ∈ Children b /\ findBlock ch c = Some cb /\
    (EBHeight b < lfbHeight -> IsFinalized (Status cb) = true).

(** The search keeps what it is asked to keep of the blocks it meets. *)
Definition kept {A} (keep : Hash -> ExtendedBlock -> A) (p : Hash * ExtendedBlock) : A := keep p.1 p.2.

Lemma collect_loop_kept {A} (keep : Hash -> ExtendedBlock -> A) fuel ch end_ low q l :
  collect_loop keep fuel ch end_ low q (kept keep <$> l) =
  let '(l', complete) := collect_loop pair fuel ch end_ low q l in (kept keep <$> l', complete).
Proof.
  revert q l. induction fuel as [|fuel IH]; intros [|h q] l; cbn [collect_loop]; try done.
  destruct (findBlock ch h) as [b|]; [|done].
  replace ((kept keep <$> l) ++ [keep h b]) with (kept keep <$> (l ++ [(h, b)])) by (by rewrite fmap_app).
  destruct (Z.eqb h end_); [done|]. destruct (_ <? _); [|by rewrite IH].
  destruct (finalized_child ch _); [|done]. by rewrite IH.
Qed.

Lemma finalized_child_spec ch l next : blocks_ok ch -> finalized_child ch l = Some next ->
  forall c, c ∈ next -> c ∈ l /\ exists cb, findBlock ch c = Some cb /\ IsFinalized (Status cb) = true.
Proof.
  intros Hok. induction l as [|x l IH]; cbn [finalized_child]; [intros [= <-]; set_solver|].
  destruct (findBlock ch x) as [xb|] eqn:Hx; [|done].
  destruct (IsFinalized (Status xb)) eqn:Hf.
  - intros [= <-] c ->%list_elem_of_singleton. rewrite (blocks_ok_hash _ _ _ Hok Hx). set_solver.
  - intros Hn c Hc. destruct (IH Hn c Hc). set_solver.
Qed.

Lemma finalized_child_some ch l : (forall c, c ∈ l -> is_Some (findBlock ch c)) ->
  is_Some (finalized_child ch l).
Proof.
  induction l as [|x l IH]; intros Hl; cbn [finalized_child]; [eauto|].
  destruct (Hl x) as [xb ->]; [set_solver|]. destruct (IsFinalized _); [eauto|]. apply IH. set_solver.
Qed.

(** Every block the search keeps is reached from the blocks it starts with. *)
Lemma collect_loop_spec fuel ch end_ low q l : chain_inv ch ->
  (forall h, h ∈ q -> is_Some (findBlock ch h)) ->
  exists l', collect_loop pair fuel ch end_ low q l = (l ++ l', true) /\ (length l' <= fuel)%nat /\
    (forall h b, (h, b) ∈ l' -> findBlock ch h = Some b /\ exists s, s ∈ q /\ rtc (offers ch low) s h) /\
    (fuel <> 0%nat -> head q = fst <$> head l').
Proof.
  intros Hinv. revert q l. induction fuel as [|fuel IH]; intros [|h q] l Hq; cbn [collect_loop];
    try (exists []; rewrite app_nil_r; split_and!; [done|cbn; lia|set_solver|done]).
  destruct (Hq h) as [b Hb]; [set_solver|]. rewrite Hb.
  assert (Hstop : exists l', (l ++ [(h, b)], true) = (l ++ l', true) /\ (length l' <= Datatypes.S fuel)%nat /\
    (forall h0 b0, (h0, b0) ∈ l' -> findBlock ch h0 = Some b0 /\ exists s, s ∈ h :: q /\ rtc (offers ch low) s h0) /\
    (Datatypes.S fuel <> 0%nat -> head (h :: q) = fst <$> head l')).
  { exists [(h, b)]. split_and!; [done|cbn; lia| |done].
    intros h0 b0 [= -> ->]%list_elem_of_singleton. split; [done|]. exists h. set_solver. }
  destruct (Z.eqb h end_); [exact Hstop|].
  assert (Hkids : forall c, c ∈ Children b -> exists cb, findBlock ch c = Some cb).
  { intros c Hc. destruct (proj2 (proj2 (proj2 Hinv)) _ _ _ Hb Hc) as (cb & ? & _). eauto. }
  assert (Hgo : forall next, (forall c, c ∈ next -> offers ch low h c) ->
    exists l', collect_loop pair fuel ch end_ low (q ++ next) (l ++ [(h, b)]) = (l ++ l', true) /\
    (length l' <= Datatypes.S fuel)%nat /\
    (forall h0 b0, (h0, b0) ∈ l' -> findBlock ch h0 = Some b0 /\ exists s, s ∈ h :: q /\ rtc (offers ch low) s h0) /\
    (Datatypes.S fuel <> 0%nat -> head (h :: q) = fst <$> head l')).
  { intros next Hnext. destruct (IH (q ++ next) (l ++ [(h, b)])) as (l' & -> & Hlen & Hreach & _).
    { intros x [Hx|Hx]%elem_of_app; [apply Hq; set_solver|]. destruct (Hnext x Hx) as (? & cb & _ & _ & ? & _). eauto. }
    exists ((h, b) :: l'). split_and!; [by rewrite <- app_assoc|cbn; lia| |done].
    intros h0 b0 [[= -> ->]|Hin]%elem_of_cons; [split; [done|]; exists h; set_solver|].
    destruct (Hreach h0 b0 Hin) as [Hf0 (s & Hs & Hr)]. split; [done|].
    apply elem_of_app in Hs as [Hs|Hs]; [exists s; set_solver|].
    exists h. split; [set_solver|]. eapply rtc_l; [by apply Hnext|done]. }
  destruct (Z.ltb_spec (EBHeight b) low) as [Hlow|Hhigh].
  - destruct (finalized_child_some ch (Children b)) as [next Hn]; [intros c Hc; destruct (Hkids c Hc); eauto|].
    rewrite Hn. apply Hgo. intros c Hc.
    destruct (finalized_child_spec _ _ _ (proj1 Hinv) Hn c Hc) as (Hin & cb & Hcb & Hf).
    exists b, cb. by split_and!.
  - apply Hgo. intros c Hc. destruct (Hkids c Hc) as [cb Hcb]. exists b, cb. split_and!; try done. lia.
Qed.
End Inventory.

(** ** Lemmas *)

Section Lemmas.
Context `{BlockCrypto} `{VoteCrypto} {S : Type} `{!Store S} {C : Type} `{!Consensus S C}.
Context {W : Type} `{!World W} {L : Type} `{!LRU L} `{!HashText} `{!SyncCodec}.
Implicit Types (n : Node C W L).

Lemma collect_spec {A} (keep : Hash -> ExtendedBlock -> A) last cfg n start end_ lfb b0 :
  sync_inv n -> GetLastFinalizedBlock (consensus n) = Ok lfb ->
  findBlock (ChainOf (consensus n)) start = Some b0 -> 2 <= MaxInventorySize cfg ->
  let l := (collect_loop pair (inventory_rounds cfg) (ChainOf (consensus n)) end_ (EBHeight lfb) [start] []).1 in
  collect cfg keep last start end_ n = Ok ((kept keep <$> l) ++ [last lfb], n) /\
  fst <$> head l = Some start /\ Z.of_nat (length l) + 1 <= MaxInventorySize cfg /\
  forall h b, (h, b) ∈ l -> findBlock (ChainOf (consensus n)) h = Some b /\
    rtc (offers (ChainOf (consensus n)) (EBHeight lfb)) start h.
Proof.
  intros Hi Hlfb Hstart Hmax.
  destruct (collect_loop_spec (inventory_rounds cfg) (ChainOf (consensus n)) end_ (EBHeight lfb) [start] []
    (si_chain _ Hi)) as (l & Hl & Hlen & Hreach & Hhead); [set_solver|]. rewrite Hl. cbn [fst app].
  assert (Z.of_nat (length l) + 1 <= MaxInventorySize cfg) as Hsize by (unfold inventory_rounds in Hlen; lia).
  assert (Hcol := wp_collect cfg keep last start end_ n lfb Hlfb).
  apply wp_ok in Hcol as (l' & n' & Hcol & Hn' & Hl'). rewrite Hcol, Hn', Hl'. unfold collected.
  pose proof (collect_loop_kept keep (inventory_rounds cfg) (ChainOf (consensus n)) end_ (EBHeight lfb) [start] []) as Hk.
  cbn [fmap list_fmap] in Hk. rewrite Hk, Hl. cbn [app]. split_and!.
  - unfold limit_size. rewrite length_fmap. by rewrite (proj2 (Z.ltb_ge _ _)) by lia.
  - symmetry. apply Hhead. unfold inventory_rounds. lia.
  - done.
  - intros h b Hin. destruct (Hreach h b Hin) as [Hf (s & ->%list_elem_of_singleton & Hr)]. done.
Qed.

(** [locateStart] finds a start if one of them is served. *)
Lemma locateStart_found (ch : Chain S) starts s b :
  s ∈ starts -> findBlock ch (HexToHash s) = Some b -> served b = true ->
  exists s' b', s' ∈ starts /\ locateStart ch starts = HexToHash s' /\
    findBlock ch (HexToHash s') = Some b' /\ served b' = true.
Proof.
  intros Hin Hb Hs. induction starts as [|x starts IH]; [set_solver|]. cbn [locateStart].
  destruct (findBlock ch (HexToHash x)) as [xb|] eqn:Hx; [destruct (served xb) eqn:Hsx|].
  - exists x, xb. set_solver.
  - apply elem_of_cons in Hin as [->|Hin]; [congruence|]. destruct (IH Hin) as (s' & b' & ? & ?). exists s', b'. set_solver.
  - apply elem_of_cons in Hin as [->|Hin]; [congruence|]. destruct (IH Hin) as (s' & b' & ? & ?). exists s', b'. set_solver.
Qed.

(** The starts of a request are hashes in hexadecimal. *)
Lemma starts_hex n req s : starts_ok n req -> s ∈ Starts req -> HashHex (HexToHash s) = s.
Proof.
  intros (top & lfb & l & _ & _ & -> & Hl) Hs. cbn in Hs.
  apply elem_of_app in Hs as [Hs| ->%list_elem_of_singleton]; [|by rewrite HexToHash_Hex].
  rewrite Forall_forall in Hl. destruct (Hl _ Hs) as (? & b & _ & _ & -> & _). by rewrite HexToHash_Hex.
Qed.

Lemma handleInvRequest_reply cfg n peer req s b : sync_inv n -> live n -> 2 <= MaxInventorySize cfg ->
  InvChannel req = ChannelIDBlock -> s ∈ Starts req ->
  findBlock (ChainOf (consensus n)) (HexToHash s) = Some b -> served b = true ->
  findBlock (ChainOf (consensus n)) 0 = None ->
  exists n' s' rest, handleInvRequest cfg peer req n = Ok (tt, n') /\ s' ∈ Starts req /\
    SendInventory [peer] (mkInventoryResponse ChannelIDBlock (HashHex (HexToHash s') :: rest)) ∈ outbox n'.
Proof.
  intros Hi [Hl _] Hmax Hch Hin Hb Hs Hzero.
  destruct (GetLastFinalizedBlock (consensus n)) as [lfb| |] eqn:Hlfb; [|done|done].
  destruct (locateStart_found _ _ _ _ Hin Hb Hs) as (s' & b' & Hin' & Hloc & Hb' & Hs').
  assert (Hcol := fun A keep last => @collect_spec A keep last cfg n (HexToHash s') (HexToHash (End_ req)) lfb b' Hi Hlfb Hb' Hmax).
  destruct (Hcol _ (fun curr _ => HashHex curr) (fun lfb => HashHex (EBHash lfb))) as (Hblocks & Hhead & _).
  destruct (Hcol _ (fun _ b => Header (EBlock b)) (fun lfb => Header (EBlock lfb))) as (Hheaders & _).
  unfold handleInvRequest. rewrite Hch. unfold mbind at 1, T_bind at 1, gets at 1. rewrite Hloc.
  assert (IsEmpty (HexToHash s') = false) as ->.
  { apply bool_decide_eq_false. intros Hz. rewrite Hz, Hzero in Hb'. done. }
  unfold mbind at 1, T_bind at 1. unfold collectBlocks. rewrite Hblocks.
  unfold mbind at 1, T_bind at 1. unfold collectHeaders. rewrite Hheaders.
  destruct (collect_loop _ _ _ _ _ _ _) as [l c]. cbn [fst] in *.
  destruct l as [|[h0 b0] l]; [done|]. injection Hhead as ->.
  unfold mbind, T_bind, send, modify, ret. rewrite fmap_cons. cbn [kept fst].
  destruct (EncodeHeaders _); (eexists _, s', _; split; [reflexivity|]; split; [done|]; cbn; apply elem_of_app; right; by left).
Qed.

(** A block that is new to the chain and admissible is added, no longer
    pending, and gossiped. *)
Lemma handleBlock_new cfg block n eb ch : sync_inv n -> decoded block ->
  admissible cfg block (CChainID (ChainOf (consensus n))) = true ->
  Chain.AddBlock (eth cfg) (ChainOf (consensus n)) block = Ok (eb, ch) ->
  exists n', handleBlock cfg block n = Ok (tt, n') /\ sync_inv n' /\ ChainOf (consensus n') = ch /\
    pendingBlocksByHash (requestMgr n') !! BlockHash block = None /\
    (P2POptLibp2p cfg = false ->
       SendInventory [] (mkInventoryResponse ChannelIDBlock [HashHex (BlockHash block)]) ∈ outbox n').
Proof.
  intros Hi Hd Hadm Hadd.
  assert (findBlock (ChainOf (consensus n)) (BlockHash block) = None) as Hnone.
  { apply addBlock_inv in Hadd as (_ & ? & _); [done|apply (si_chain _ Hi)|left; apply Hd]. }
  destruct (wp_ok _ _ _ (wp_AddBlock cfg block n Hi Hd)) as ([] & n1 & Hab & Hev & _ & Hob & _ & Hpost).
  rewrite Hadd in Hpost. destruct Hpost as [Hch Hmap].
  unfold handleBlock. unfold mbind at 1, T_bind at 1, FindBlock at 1, gets at 1. rewrite Hnone.
  unfold mbind at 1, T_bind at 1, gets at 1. rewrite Hadm. cbn [negb].
  unfold mbind at 1, T_bind at 1. rewrite Hab.
  unfold mbind at 1, T_bind at 1, IsGossipBlock at 1, get_rm at 1, gets at 1. rewrite Hmap. cbn [andb].
  destruct (P2POptLibp2p cfg); cbn [negb].
  { exists n1. split_and!; [done|apply Hev|done|done|done]. }
  destruct (wp_ok _ _ _ (wp_gossip_block cfg block n1 (proj1 Hev))) as ([] & n2 & Hg & Hev2).
  assert (consensus n2 = consensus n1 /\ requestMgr n2 = requestMgr n1 /\
    SendInventory [] (mkInventoryResponse ChannelIDBlock [HashHex (BlockHash block)]) ∈ outbox n2) as (Hc2 & Hr2 & Hin).
  { unfold gossip_block, mbind, T_bind, send, modify, ret in Hg.
    destruct (EncodeHeaders _); injection Hg as <-; cbn; (split_and!; [done|done|]);
      rewrite !elem_of_app; [left|..]; right; by left. }
  exists n2. split_and!; [exact Hg|apply Hev2|by rewrite Hc2|by rewrite Hr2|done].
Qed.

(** What was stored for a block decodes to the block it was read from. *)
Lemma stored_decoded (ch : Chain S) h b : chain_inv ch -> heights_ok ch -> findBlock ch h = Some b ->
  decoded (EBlock b) /\ BlockHash (EBlock b) = h.
Proof.
  intros Hi Hh Hb. destruct (proj1 Hi h b Hb) as [Hc Hz]. split; [split; [by apply (Hh h)|done]|].
  apply (blocks_ok_hash _ _ _ (proj1 Hi) Hb).
Qed.

Lemma stored_same (b : Block.Block) : hash (Header b) = 0 -> mkBlock (uncached (Header b)) (Txs b) = b.
Proof. destruct b as [[] txs]. cbn. by intros ->. Qed.

(** The first height of a round. *)
Lemma pass_loop_first fuel height parents n top : sync_inv n ->
  Forall (fun p => findBlock (ChainOf (consensus n)) (EBHash p) = Some p) parents ->
  0 <= height <= top -> is_u64 top -> findBlocksByHeight (ChainOf (consensus n)) top = [] ->
  (top - height <= Z.of_nat fuel) ->
  wp (pass_loop fuel height parents) (fun _ n' => forall b,
    b ∈ findBlocksByHeight (ChainOf (consensus n)) height -> ready parents b ->
    in_dump n (EBHash b) = false -> PassBlock (EBlock b) ∈ consumed n') n.
Proof.
  intros Hi Hpar Hh Htu Htop Hf.
  destruct fuel as [|fuel]; cbn [pass_loop]; apply wp_seq;
    (eapply wp_weaken; [by apply (wp_pass_level height parents n)|]);
    intros next n1 [[Hi1 Hc1 Hv1 Ho1 Hd1 (bs & Hbs & Hs & Hall)] ->].
  { replace height with top by lia. rewrite Htop. unfold wp, ret. set_solver. }
  assert (Hin : forall b, b ∈ findBlocksByHeight (ChainOf (consensus n)) height -> ready parents b ->
    in_dump n (EBHash b) = false -> PassBlock (EBlock b) ∈ consumed n1).
  { intros b Hb Hr Hn. rewrite Hbs. apply elem_of_app. right. apply list_elem_of_fmap.
    exists b. split; [done|by apply Hall]. }
  destruct (findBlocksByHeight (ChainOf (consensus n)) height) as [|b0 bl] eqn:Hl; [exact Hin|].
  assert (height <> top) by congruence.
  assert (u64_add height 1 = height + 1) as -> by (apply wrap64_small; unfold is_u64 in *; lia).
  eapply wp_weaken; [apply (wp_pass_loop fuel (height + 1) (b0 :: bl) n1 top); rewrite ?Hc1; try done; try lia|].
  - apply Forall_forall. intros b Hb. rewrite <- Hl in Hb. by eapply blocks_at_height.
  - intros ? n2 (_ & _ & _ & _ & bs2 & Hbs2 & _) b Hb Hr Hn. rewrite Hbs2. apply elem_of_app. left. auto.
Qed.
End Lemmas.

(** ** A concrete network for the witnesses *)

#[export] Instance CC_eq_dec : EqDecision CommitCertificate.
Proof. solve_decision. Defined.
#[export] Instance BlockHeader_eq_dec : EqDecision BlockHeader.
Proof. solve_decision. Defined.
#[export] Instance Block_eq_dec : EqDecision Block.Block.
Proof. solve_decision. Defined.
#[export] Instance InventoryRequest_eq_dec : EqDecision InventoryRequest.
Proof. solve_decision. Defined.
#[export] Instance InventoryResponse_eq_dec : EqDecision InventoryResponse.
Proof. solve_decision. Defined.
#[export] Instance DataRequest_eq_dec : EqDecision DataRequest.
Proof. solve_decision. Defined.
#[export] Instance DataResponse_eq_dec : EqDecision DataResponse.
Proof. solve_decision. Defined.

(** Hashes as binary numerals. *)
Fixpoint pos_text (p : positive) : string :=
  match p with xH => "" | xO p' => String "0"%char (pos_text p') | xI p' => String "1"%char (pos_text p') end.
Fixpoint text_pos (s : string) : positive :=
  match s with
  | EmptyString => xH
  | String c s' => if Ascii.eqb c "0"%char then xO (text_pos s') else xI (text_pos s')
  end.
Definition hash_text (h : Z) : string :=
  match h with Z0 => "z" | Zpos p => String "+"%char (pos_text p) | Zneg p => String "-"%char (pos_text p) end.
Definition text_hash (s : string) : Z :=
  match s with
  | EmptyString => 0
  | String c s' => if Ascii.eqb c "+"%char then Zpos (text_pos s') else if Ascii.eqb c "-"%char then Zneg (text_pos s') else 0
  end.

Lemma text_pos_text p : text_pos (pos_text p) = p.
Proof. induction p as [p IH|p IH|]; cbn; by rewrite ?IH. Qed.

#[export] Instance plain_hashes : HashText.
Proof.
  refine {| HashHex := hash_text; HexToHash := text_hash |}.
  intros [|p|p]; cbn; by rewrite ?text_pos_text.
Defined.

#[export] Instance list_lru : LRU (list Hash).
Proof.
  refine {| lru_New _ := []; lru_Contains l h := bool_decide (h ∈ l); lru_Add l h := h :: take 31 l |}.
  - intros _ h. by apply bool_decide_eq_false, not_elem_of_nil.
  - intros l h. apply bool_decide_eq_true. set_solver.
  - intros l h h' [->|Hin]%bool_decide_eq_true%elem_of_cons; [by left|right].
    apply bool_decide_eq_true. by eapply elem_of_take in Hin as (i & Hi & _); eapply list_elem_of_lookup_2.
Defined.

(** A clock that advances, and one connected peer. *)
#[export] Instance clock_world : World Z.
Proof.
  refine {| Now t := (t, t + 1); Intn w _ := (0%nat, w); Shuffle w l := (l, w);
            Sample w l k := (take k l, w); PeerExists w _ := (true, w); Peers w _ := (["peer"], w);
            range_map A w m := (map_to_list m, w); range_set w s := (range s, w) |}; try done.
  - intros w l k. cbn. apply sublist_submseteq, sublist_take.
  - intros w s. unfold iterates. done.
Defined.

(** Consensus that finalizes one block and never moves. *)
#[export] Instance still_consensus `{BlockCrypto} {S} `{!Store S} : Consensus S (Chain S * Hash).
Proof.
  refine {| ChainOf c := c.1; set_chain c ch := (ch, c.2);
    GetTip c _ := match findBlock c.1 c.2 with Some b => Ok b | None => Panic "no tip" end;
    GetLastFinalizedBlock c := match findBlock c.1 c.2 with Some b => Ok b | None => Panic "no block" end |}; try done.
  - intros [ch h] _ b. cbn. destruct (findBlock ch h) eqn:Hb; [|done]. intros [= <-]. eauto.
  - intros [ch h] b. cbn. destruct (findBlock ch h) eqn:Hb; [|done]. intros [= <-]. eauto.
  - intros [ch h] b ch'. cbn. destruct (findBlock ch h) eqn:Hb; [|done]. intros [= <-] Hk.
    destruct (Hk _ _ Hb) as (b' & -> & ?). eauto.
Defined.

(** A signed block on top of the root, and an encoding of a few values. *)
Definition sync_block : Block.Block :=
  mkBlock (mkHeader "tsub360777" 1 1 (demo_hash 0) (mkCC None (demo_hash 0)) 2 0 0 0 (Some 1)
             42 (Some "s1/1") 0) ["tx1"; "tx2"].
Definition sync_request : DataRequest := mkDataRequest ChannelIDBlock [hash_text (demo_hash 1)].
Definition empty_proposal : Proposal := mkProposal None 42 None.

Definition enc1 {A} `{!EqDecision A} (a0 : A) (s0 : string) (a : A) : outcome Bytes :=
  if decide (a = a0) then Ok s0 else Err "unsupported".
Definition dec1 {A} (a0 : A) (s0 : string) (p : Bytes) : outcome A :=
  if decide (p = s0) then Ok a0 else Err "malformed".

Lemma enc1_dec1 {A} `{!EqDecision A} (a0 a : A) s0 p : enc1 a0 s0 a = Ok p -> p = s0 /\ dec1 a0 s0 p = Ok a.
Proof. unfold enc1, dec1. case_decide; [|done]. intros [= <-]. rewrite decide_True by done. by subst. Qed.

Lemma dec1_value {A} (a0 a : A) s0 p : dec1 a0 s0 p = Ok a -> a = a0.
Proof. unfold dec1. case_decide; [|done]. by intros [= <-]. Qed.

#[export] Instance few_codec : SyncCodec.
Proof.
  refine {|
    EncodeBlock := enc1 sync_block "b"; DecodeBlock := dec1 sync_block "b";
    EncodeBlocks := enc1 [] "e"; DecodeBlocks := dec1 [] "e";
    EncodeHeaders _ := Err "unsupported"; DecodeHeaders _ := Err "malformed";
    VoteToBytes _ := Err "unsupported"; DecodeVote _ := Err "malformed";
    DecodeProposal := dec1 empty_proposal "p";
    MessageIDInvRequest := 0; MessageIDInvResponse := 1; MessageIDDataRequest := 2; MessageIDDataResponse := 3;
    EncodeID i := Ok (String (Ascii.ascii_of_nat (Z.to_nat i)) "");
    DecodeID p := match p with String c "" => Ok (Z.of_nat (Ascii.nat_of_ascii c)) | _ => Err "malformed" end;
    EncodeInvRequest := enc1 (mkInventoryRequest ChannelIDBlock [] "") "i";
    DecodeInvRequest := dec1 (mkInventoryRequest ChannelIDBlock [] "") "i";
    EncodeInvResponse := enc1 (mkInventoryResponse ChannelIDBlock []) "j";
    DecodeInvResponse := dec1 (mkInventoryResponse ChannelIDBlock []) "j";
    EncodeDataRequest := enc1 sync_request "q"; DecodeDataRequest := dec1 sync_request "q";
    EncodeDataResponse := enc1 (mkDataResponse ChannelIDBlock "b") "r";
    DecodeDataResponse := dec1 (mkDataResponse ChannelIDBlock "b") "r" |}.
  - intros p0 b p _ Hb. by apply enc1_dec1 in Hb as [_ ?].
  - intros p0 bs p _ Hb. by apply enc1_dec1 in Hb as [_ ?].
  - intros bs p [-> _]%enc1_dec1. by eexists.
  - intros p b ->%dec1_value. split; [|done]. unfold is_u64, two64. cbn. lia.
  - intros p bs ->%dec1_value. constructor.
  - by intros p x b ->%dec1_value.
  - done.
  - by intros m p [-> ?]%enc1_dec1.
  - by intros m p [-> ?]%enc1_dec1.
  - by intros m p [-> ?]%enc1_dec1.
  - by intros m p [-> ?]%enc1_dec1.
  - intros i p [= <-] Hi. split; [done|].
    repeat (apply elem_of_cons in Hi as [->|Hi]; [done|]). by apply elem_of_nil in Hi.
  - repeat constructor; set_solver.
Defined.

Definition sync_config : SyncConfig := mkSyncConfig 32 [] [] false true true no_eth.

(** A node that has the block and one that has the root only. *)
Definition rich_chain : Chain (gmap Key Value) :=
  added (@Chain.AddBlock demo_crypto _ _ no_eth demo0 sync_block).

Section Demo.
#[local] Existing Instance demo_crypto.
#[local] Existing Instance toy_crypto.

Definition rich_node : Node (Chain (gmap Key Value) * Hash) Z (list Hash) :=
  NewSyncManager (rich_chain, demo_hash 0) 10000000000.
Definition poor_node : Node (Chain (gmap Key Value) * Hash) Z (list Hash) :=
  NewSyncManager (demo0, demo_hash 0) 10000000000.

Lemma demo0_heights : heights_ok demo0.
Proof. apply check_heights. vm_compute. reflexivity. Qed.

Lemma rich_chain_ok : chain_inv rich_chain /\ heights_ok rich_chain.
Proof.
  split; [|apply check_heights; vm_compute; reflexivity].
  eapply (step_chain_inv no_eth demo0); [apply demo0_inv|].
  eapply (step_add no_eth demo0 sync_block); [by left|by vm_compute|apply added_ok; vm_compute; reflexivity].
Qed.

Lemma poor_node_inv : sync_inv poor_node.
Proof. apply NewSyncManager_inv; [apply demo0_inv|apply demo0_heights]. Qed.

Lemma rich_node_inv : sync_inv rich_node.
Proof. apply NewSyncManager_inv; apply rich_chain_ok. Qed.

Lemma demo_live : live poor_node /\ live rich_node.
Proof. split; split; vm_compute; reflexivity. Qed.
End Demo.

(** ** Properties *)

(** C17 (invariant): a node that starts with a chain in order stays in order,
    whatever its peers send and however the ticks, the passing of blocks and
    the steps of consensus interleave: the list, the map and the heap of pending
    blocks agree, every entry of the heap is pending or in the chain, at most
    four peers are active, and the chain changes only by its own operations, so
    that it keeps the invariant of the block store and loses no block. *)
Theorem sync_invariant `{BlockCrypto} `{VoteCrypto} {S} `{!Store S} {C} `{!Consensus S C} {W} `{!World W}
    {L} `{!LRU L} `{!HashText} `{!SyncCodec} cfg (c : C) (w : W) (n : Node C W L) :
  chain_inv (ChainOf c) -> heights_ok (ChainOf c) ->
  rtc (sync_step cfg) (NewSyncManager c w) n ->
  rm_inv [] (requestMgr n) /\ heap_known (ChainOf (consensus n)) (requestMgr n) /\
  chain_inv (ChainOf (consensus n)) /\ rtc (chain_step (eth cfg)) (ChainOf c) (ChainOf (consensus n)) /\
  keeps_blocks (ChainOf c) (ChainOf (consensus n)).
Proof.
  intros Hc Hh Hrun. pose proof (NewSyncManager_inv (W := W) (L := L) c w Hc Hh) as Hi.
  destruct (sync_steps_inv cfg _ _ Hi Hrun) as [[? ? ? ? _] Hsteps]. split_and!; try done.
  by eapply (steps_evolve (eth cfg)) in Hsteps as (_ & _ & ? & _); [|apply Hc|].
Qed.

(** C25 (bounds): a tick of the request manager, with consensus answering,
    always ends; it sends at most one inventory request, to at most six
    distinct peers and starting from blocks of the chain down to the last
    finalized one, and block requests for pending blocks only, each to one peer
    and for one to four hashes, at most eighteen hashes in all; afterwards the
    heap holds exactly the pending blocks whose header is known. *)
Theorem tick_bounds `{BlockCrypto} `{VoteCrypto} {S} `{!Store S} {C} `{!Consensus S C} {W} `{!World W}
    {L} `{!LRU L} `{!HashText} `{!SyncCodec} cfg (n : Node C W L) :
  sync_inv n -> live n ->
  exists n' ps, tryToDownload cfg n = Ok (tt, n') /\ sync_inv n' /\ consensus n' = consensus n /\
    outbox n' = outbox n ++ ps /\ tick_sends n ps /\ heap_exact (requestMgr n').
Proof.
  intros Hi Hl. destruct (wp_ok _ _ _ (wp_tryToDownload cfg n Hi Hl))
    as ([] & n' & Hn' & Hi' & Hc & _ & _ & Hh & ps & Hps & Hsends). exists n', ps. by split_and!.
Qed.

(** C18 (error): with consensus answering, a message is processed without
    failure and leaves the node in order, except for two messages, which crash
    it: a request on the block channel without entries, whose log message reads
    the first block, and a proposal without a block from a peer that may send
    one. *)
Theorem message_crashes `{BlockCrypto} `{VoteCrypto} {S} `{!Store S} {C} `{!Consensus S C} {W} `{!World W}
    {L} `{!LRU L} `{!HashText} `{!SyncCodec} cfg m (n : Node C W L) :
  sync_inv n -> live n ->
  if crashes cfg m then is_panic (processMessage cfg m n) = true
  else exists n', processMessage cfg m n = Ok (tt, n') /\ sync_inv n'.
Proof.
  intros Hi Hl. pose proof (processMessage_cases cfg m n Hi Hl) as Hc. destruct (crashes cfg m); [done|].
  apply wp_ok in Hc as ([] & n' & ? & ? & _). eauto.
Qed.

(** (equivalence): for a start in the chain the node serves the same blocks
    by hash and by header, at most [MaxInventorySize] with the last finalized
    block, which comes last; the first is the start, and each of the others is
    reached from it through children, finalized ones below the last finalized
    block.  No block is missing from the chain. *)
Theorem inventory_served `{BlockCrypto} `{VoteCrypto} {S} `{!Store S} {C} `{!Consensus S C} {W} `{!World W}
    {L} `{!LRU L} `{!HashText} `{!SyncCodec} cfg (n : Node C W L) start end_ lfb b0 :
  sync_inv n -> GetLastFinalizedBlock (consensus n) = Ok lfb ->
  findBlock (ChainOf (consensus n)) start = Some b0 -> 2 <= MaxInventorySize cfg ->
  exists l : list (Hash * ExtendedBlock),
    collectBlocks cfg start end_ n = Ok ((HashHex ∘ fst <$> l) ++ [HashHex (EBHash lfb)], n) /\
    collectHeaders cfg start end_ n = Ok ((Header ∘ EBlock ∘ snd <$> l) ++ [Header (EBlock lfb)], n) /\
    fst <$> head l = Some start /\ Z.of_nat (length l) + 1 <= MaxInventorySize cfg /\
    forall h b, (h, b) ∈ l -> findBlock (ChainOf (consensus n)) h = Some b /\
      rtc (offers (ChainOf (consensus n)) (EBHeight lfb)) start h.
Proof.
  intros Hi Hlfb Hb Hmax.
  destruct (collect_spec (fun curr _ => HashHex curr) (fun lfb => HashHex (EBHash lfb)) cfg n start end_ lfb b0
    Hi Hlfb Hb Hmax) as (H3 & H4 & H5 & H6).
  destruct (collect_spec (fun _ b => Header (EBlock b)) (fun lfb => Header (EBlock lfb)) cfg n start end_ lfb b0
    Hi Hlfb Hb Hmax) as (H7 & _). eexists. split_and!; [exact H3|exact H7|done..].
Qed.

(** C24 (liveness): when a peer has the last finalized block of a node, an
    exchange of inventories makes progress: the node builds its request, the
    peer answers with hashes that start at one of the requested starting
    points, and the node then has every announced hash in its chain or among
    its pending blocks. *)
Theorem inventory_exchange `{BlockCrypto} `{VoteCrypto} {S} `{!Store S} {C} `{!Consensus S C} {W} `{!World W}
    {L} `{!LRU L} `{!HashText} `{!SyncCodec} cfgA cfgB (nA nB : Node C W L) peerA peerB lfb b :
  sync_inv nA -> live nA -> sync_inv nB -> live nB ->
  GetLastFinalizedBlock (consensus nB) = Ok lfb ->
  findBlock (ChainOf (consensus nA)) (EBHash lfb) = Some b -> served b = true ->
  findBlock (ChainOf (consensus nA)) 0 = None -> 2 <= MaxInventorySize cfgA ->
  exists req nA' s rest nB',
    buildInventoryRequest nB = Ok (req, nB) /\
    handleInvRequest cfgA peerB req nA = Ok (tt, nA') /\ s ∈ Starts req /\
    let resp := mkInventoryResponse ChannelIDBlock (s :: rest) in
    SendInventory [peerB] resp ∈ outbox nA' /\
    handleInvResponse cfgB peerA resp nB = Ok (tt, nB') /\ sync_inv nB' /\
    Forall (fun e => known nB' (HexToHash e)) (take (Z.to_nat (MaxInventorySize cfgB)) (s :: rest)).
Proof.
  intros HiA HlA HiB HlB Hlfb Hb Hs Hzero Hmax.
  destruct (wp_ok _ _ _ (wp_buildInventoryRequest nB HiB HlB)) as (req & n' & Hreq & -> & Hstarts).
  pose proof Hstarts as (top & lfb' & l & _ & Hlfb' & Hreq' & _).
  assert (lfb' = lfb) as -> by congruence.
  destruct (handleInvRequest_reply cfgA nA peerB req (HashHex (EBHash lfb)) b HiA HlA Hmax)
    as (nA' & s & rest & HA & Hin & Hout); rewrite ?HexToHash_Hex; try done.
  { by rewrite Hreq'. }
  { rewrite Hreq'. cbn. set_solver. }
  rewrite (starts_hex _ _ _ Hstarts Hin) in Hout.
  set (resp := mkInventoryResponse ChannelIDBlock (s :: rest)) in *.
  assert (wp (handleInvResponse cfgB peerA resp) (fun _ nB' => sync_inv nB' /\
    Forall (fun e => known nB' (HexToHash e)) (take (Z.to_nat (MaxInventorySize cfgB)) (s :: rest))) nB) as HB.
  { apply wp_seq. eapply wp_weaken; [by apply wp_AddHashes|]. intros ? n1 [(Hi1 & Hc1 & Hg1) Hk1].
    destruct (_ =? 1)%nat; [done|]. eapply wp_weaken; [by apply wp_AddActivePeer|].
    intros ? n2 (Hi2 & Hc2 & Hg2). split; [done|]. eapply Forall_impl; [exact Hk1|].
    intros e [?|[id Hid]]; [left; by rewrite Hc2|right]. exists id. eapply lookup_weaken; [exact Hid|apply Hg2]. }
  apply wp_ok in HB as ([] & nB' & HB & HiB' & Hk). exists req, nA', s, rest, nB'. by split_and!.
Qed.

(** (functional): a block that one node received and stores and another lacks is
    transferred by a request and its response: the first node answers the
    request with the block, and the second one, when it finds the block
    admissible, has it in its chain, waiting for consensus, and no longer among
    its pending blocks. *)
Theorem block_transfer `{BlockCrypto} `{VoteCrypto} {S} `{!Store S} {C} `{!Consensus S C} {W} `{!World W}
    {L} `{!LRU L} `{!HashText} `{!SyncCodec} cfg (nA nB : Node C W L) peerA peerB h b p0 payload :
  sync_inv nA -> sync_inv nB ->
  findBlock (ChainOf (consensus nA)) h = Some b -> DecodeBlock p0 = Ok (EBlock b) -> EncodeBlock (EBlock b) = Ok payload ->
  findBlock (ChainOf (consensus nB)) h = None ->
  ChainID (Header (EBlock b)) = CChainID (ChainOf (consensus nB)) ->
  admissible cfg (EBlock b) (CChainID (ChainOf (consensus nB))) = true ->
  exists nA' nB' b', let resp := mkDataResponse ChannelIDBlock payload in
    handleDataRequest peerB (mkDataRequest ChannelIDBlock [HashHex h]) nA = Ok (tt, nA') /\
    outbox nA' = outbox nA ++ [SendData [peerB] resp] /\
    handleDataResponse cfg peerA resp nB = Ok (tt, nB') /\ sync_inv nB' /\
    findBlock (ChainOf (consensus nB')) h = Some b' /\ EBlock b' = EBlock b /\
    Status b' = BlockStatusPending /\ pendingBlocksByHash (requestMgr nB') !! h = None.
Proof.
  intros HiA HiB Hb Hp0 Henc Hnone Hid Hadm.
  destruct (stored_decoded _ _ _ (si_chain _ HiA) (si_heights _ HiA) Hb) as [Hdec Hh].
  assert (exists eb ch, Chain.AddBlock (eth cfg) (ChainOf (consensus nB)) (EBlock b) = Ok (eb, ch)) as (eb & ch & Hadd).
  { unfold Chain.AddBlock, addBlock. rewrite Hid, String.eqb_refl, Hh, Hnone. cbn [negb]. eauto. }
  destruct (handleBlock_new cfg _ nB eb ch HiB Hdec Hadm Hadd) as (nB' & HB & HiB' & Hch & Hmap & _).
  apply addBlock_inv in Hadd as (_ & _ & -> & _ & Hfind & _); [|apply (si_chain _ HiB)|left; apply Hdec].
  rewrite Hh in Hmap.
  eexists _, nB', (stored (new_block (ChainOf (consensus nB)) (EBlock b) false)). cbn zeta. split_and!.
  - unfold handleDataRequest, sendSingleBlock. cbn [ReqChannel ReqEntries].
    unfold mbind, T_bind, FindBlock, gets. rewrite HexToHash_Hex, Hb, Henc. reflexivity.
  - reflexivity.
  - unfold handleDataResponse. cbn [DataChannel Payload]. by rewrite (block_roundtrip _ _ _ Hp0 Henc).
  - exact HiB'.
  - by rewrite Hch, Hfind, decide_True by done.
  - cbn. apply stored_same, Hdec.
  - reflexivity.
  - exact Hmap.
Qed.

(** (functional): a new block that is admitted is gossiped to every peer,
    also when it was requested while catching up and was not heard of by
    gossip: [AddBlock] removes the pending block before [IsGossipBlock] looks
    at it, and a block that is not pending counts as gossiped. *)
Theorem new_block_gossiped `{BlockCrypto} `{VoteCrypto} {S} `{!Store S} {C} `{!Consensus S C} {W} `{!World W}
    {L} `{!LRU L} `{!HashText} `{!SyncCodec} cfg block (n : Node C W L) eb ch :
  sync_inv n -> decoded block ->
  admissible cfg block (CChainID (ChainOf (consensus n))) = true ->
  Chain.AddBlock (eth cfg) (ChainOf (consensus n)) block = Ok (eb, ch) ->
  P2POptLibp2p cfg = false ->
  exists n', handleBlock cfg block n = Ok (tt, n') /\
    SendInventory [] (mkInventoryResponse ChannelIDBlock [HashHex (BlockHash block)]) ∈ outbox n'.
Proof.
  intros Hi Hd Hadm Hadd Hp.
  destruct (handleBlock_new cfg block n eb ch Hi Hd Hadm Hadd) as (n' & Hn & _ & _ & _ & Hg). eauto.
Qed.

(** (termination): a round of [passReadyBlocks] ends when some height above
    the last finalized block has no block; it passes to consensus only blocks
    that wait in the chain and whose parent is in the chain and valid, and it
    passes every waiting child of a valid last finalized block that was not
    passed recently. *)
Theorem round_ends `{BlockCrypto} `{VoteCrypto} {S} `{!Store S} {C} `{!Consensus S C} {W} `{!World W}
    {L} `{!LRU L} `{!HashText} `{!SyncCodec} fuel (n : Node C W L) lfb top :
  sync_inv n -> GetLastFinalizedBlock (consensus n) = Ok lfb ->
  EBHeight lfb < top -> is_u64 top -> findBlocksByHeight (ChainOf (consensus n)) top = [] ->
  top <= EBHeight lfb + 1 + Z.of_nat fuel ->
  exists n', passReadyBlocks fuel n = Ok (tt, n') /\ round_passes n n' /\
    (IsValid (Status lfb) = true -> forall b,
       b ∈ findBlocksByHeight (ChainOf (consensus n)) (EBHeight lfb + 1) ->
       Status b = BlockStatusPending -> EBParent b = EBHash lfb -> in_dump n (EBHash b) = false ->
       PassBlock (EBlock b) ∈ consumed n').
Proof.
  intros Hi Hlfb Htop Hu Hempty Hf.
  destruct (lfb_stored _ _ Hlfb) as [h Hh]. pose proof (si_heights _ Hi h lfb Hh) as Hhu.
  pose proof (blocks_ok_hash _ _ _ (proj1 (si_chain _ Hi)) Hh) as Heq. rewrite <- Heq in Hh.
  assert (u64_add (EBHeight lfb) 1 = EBHeight lfb + 1) as Hadd by (apply wrap64_small; unfold is_u64 in *; lia).
  unfold passReadyBlocks, pass_start. unfold mbind, T_bind, last_finalized, lift, ret. rewrite Hlfb, Hadd.
  assert (Forall (fun p => findBlock (ChainOf (consensus n)) (EBHash p) = Some p) [lfb]) as Hpar by (by constructor).
  assert (0 <= EBHeight lfb + 1 <= top) as Hrange by (unfold is_u64 in *; lia).
  destruct (wp_ok _ _ _ (wp_pass_loop fuel (EBHeight lfb + 1) [lfb] n top Hi Hpar Hrange Hu Hempty ltac:(lia)))
    as ([] & n' & Hn' & Hround).
  pose proof (pass_loop_first fuel (EBHeight lfb + 1) [lfb] n top Hi Hpar Hrange Hu Hempty ltac:(lia)) as Hfirst.
  unfold wp in Hfirst. rewrite Hn' in Hfirst. exists n'. split_and!; [done|done|].
  intros Hv b Hb Hp Hparent Hd. apply Hfirst; [done| |done]. split; [done|]. exists lfb. set_solver.
Qed.

(** (roundtrip): what [encodeMessage] writes, [decodeMessage] reads back. *)
Theorem message_roundtrip `{!SyncCodec} m raw : encodeMessage m = Ok raw -> decodeMessage raw = Ok m.
Proof.
  pose proof ids_distinct as Hd.
  assert (Hgen : forall i p body, EncodeID i = Ok p ->
    i ∈ [MessageIDInvRequest; MessageIDInvResponse; MessageIDDataRequest; MessageIDDataResponse] -> body <> "" ->
    exists c, p = String c "" /\ DecodeID (String c "") = Ok i /\ p +:+ body = String c body).
  { intros i p body Hp Hi Hb. destruct (id_roundtrip i p Hp Hi) as [Hl Hdec].
    destruct p as [|c [|c' p]]; try done. eauto. }
  assert (MessageIDInvRequest <> MessageIDInvResponse /\ MessageIDInvRequest <> MessageIDDataRequest /\
    MessageIDInvRequest <> MessageIDDataResponse /\ MessageIDInvResponse <> MessageIDDataRequest /\
    MessageIDInvResponse <> MessageIDDataResponse /\ MessageIDDataRequest <> MessageIDDataResponse)
    as (? & ? & ? & ? & ? & ?).
  { rewrite !NoDup_cons in Hd. destruct Hd as (Hd1 & Hd2 & Hd3 & _). set_solver. }
  destruct m as [x|x|x|x|]; cbn [encodeMessage]; [..|done];
    (destruct (EncodeID _) as [p| |] eqn:Hp; cbn; [|done|done]).
  1: destruct (EncodeInvRequest x) as [body| |] eqn:Hb; cbn; [|done|done];
       apply inv_request_roundtrip in Hb as [Hne Hx].
  2: destruct (EncodeInvResponse x) as [body| |] eqn:Hb; cbn; [|done|done];
       apply inv_response_roundtrip in Hb as [Hne Hx].
  3: destruct (EncodeDataRequest x) as [body| |] eqn:Hb; cbn; [|done|done];
       apply data_request_roundtrip in Hb as [Hne Hx].
  4: destruct (EncodeDataResponse x) as [body| |] eqn:Hb; cbn; [|done|done];
       apply data_response_roundtrip in Hb as [Hne Hx].
  all: intros [= <-]; destruct (Hgen _ _ body Hp ltac:(set_solver) Hne) as (c & _ & Hid & ->).
  all: destruct body as [|c' body]; [done|]; unfold decodeMessage; rewrite Hid; cbn [mbind outcome_bind].
  all: repeat match goal with |- context [Z.eqb ?a ?b] =>
         destruct (Z.eqb_spec a b); [by rewrite Hx || congruence|] end; congruence.
Qed.

(** ** Witnesses *)

Section Witnesses.
#[local] Existing Instance demo_crypto.
#[local] Existing Instance toy_crypto.

Definition result (m : T (Chain (gmap Key Value) * Hash) Z (list Hash) unit)
    (n : Node (Chain (gmap Key Value) * Hash) Z (list Hash)) :=
  match m n with Ok (_, n') => n' | _ => n end.

Lemma result_ok m n : is_ok (m n) = true -> m n = Ok (tt, result m n).
Proof. unfold result. by destruct (m n) as [[[] n']| |]. Qed.

(** The announcement of the block, and the block itself. *)
Definition announcement : PeerMessage := mkPeerMessage "peer" ChannelIDBlock
  (CInventoryResponse (mkInventoryResponse ChannelIDBlock [hash_text (demo_hash 1); hash_text (demo_hash 0)])).
Definition delivery : PeerMessage :=
  mkPeerMessage "peer" ChannelIDBlock (CDataResponse (mkDataResponse ChannelIDBlock "b")).

Definition busy_node := result (processMessage sync_config announcement) poor_node.
Definition synced_node := result (processMessage sync_config delivery) busy_node.

Lemma busy_run : rtc (sync_step sync_config) poor_node busy_node.
Proof.
  apply rtc_once. eapply (sync_message _ announcement); [apply demo_live|].
  apply result_ok. vm_compute. reflexivity.
Qed.

Lemma busy_inv : sync_inv busy_node /\ live busy_node.
Proof.
  split; [apply (sync_steps_inv sync_config poor_node), busy_run; apply poor_node_inv|].
  split; vm_compute; reflexivity.
Qed.

Lemma sync_invariant_witness : pendingBlocks (requestMgr busy_node) = [0%nat] /\
  rm_inv [] (requestMgr synced_node) /\ heap_known (ChainOf (consensus synced_node)) (requestMgr synced_node) /\
  chain_inv (ChainOf (consensus synced_node)) /\
  rtc (chain_step (eth sync_config)) demo0 (ChainOf (consensus synced_node)) /\
  keeps_blocks demo0 (ChainOf (consensus synced_node)).
Proof.
  split; [vm_compute; reflexivity|].
  refine (sync_invariant sync_config (demo0, demo_hash 0) 10000000000 synced_node _ _ _);
    [exact demo0_inv|exact demo0_heights|].
  eapply rtc_r; [apply busy_run|]. eapply (sync_message _ delivery); [apply busy_inv|].
  apply result_ok. vm_compute. reflexivity.
Defined.

(** The busy node asks one peer for the announced block. *)
Lemma tick_bounds_witness :
  (exists req, outbox (result (tryToDownload sync_config) busy_node) =
    [GetInventory ["peer"] req; GetData ["peer"] sync_request]) /\
  exists n' ps, tryToDownload sync_config busy_node = Ok (tt, n') /\ sync_inv n' /\
    consensus n' = consensus busy_node /\ outbox n' = outbox busy_node ++ ps /\
    tick_sends busy_node ps /\ heap_exact (requestMgr n').
Proof.
  split; [eexists; vm_compute; reflexivity|].
  apply (tick_bounds sync_config busy_node); [apply busy_inv|apply busy_inv].
Defined.

Definition empty_request : PeerMessage :=
  mkPeerMessage "peer" ChannelIDBlock (CDataRequest (mkDataRequest ChannelIDBlock [])).

Lemma message_crashes_witness : is_panic (processMessage sync_config empty_request poor_node) = true /\
  exists n', processMessage sync_config announcement poor_node = Ok (tt, n') /\ sync_inv n'.
Proof.
  split.
  - exact (message_crashes sync_config empty_request poor_node poor_node_inv (proj1 demo_live)).
  - exact (message_crashes sync_config announcement poor_node poor_node_inv (proj1 demo_live)).
Defined.

Definition rich_root : ExtendedBlock :=
  match findBlock rich_chain (demo_hash 0) with Some b => b | None => mkExtendedBlock demo_root [] BlockStatusPending false end.
Definition poor_root : ExtendedBlock :=
  match findBlock demo0 (demo_hash 0) with Some b => b | None => mkExtendedBlock demo_root [] BlockStatusPending false end.

Lemma inventory_served_witness : exists l : list (Hash * ExtendedBlock),
  collectBlocks sync_config (demo_hash 0) 0 rich_node =
    Ok ((HashHex ∘ fst <$> l) ++ [HashHex (EBHash rich_root)], rich_node) /\
  collectHeaders sync_config (demo_hash 0) 0 rich_node =
    Ok ((Header ∘ EBlock ∘ snd <$> l) ++ [Header (EBlock rich_root)], rich_node) /\
  fst <$> head l = Some (demo_hash 0) /\ Z.of_nat (length l) + 1 <= 32 /\
  forall h b, (h, b) ∈ l -> findBlock rich_chain h = Some b /\
    rtc (offers rich_chain (EBHeight rich_root)) (demo_hash 0) h.
Proof.
  apply (inventory_served sync_config rich_node (demo_hash 0) 0 rich_root rich_root rich_node_inv);
    [vm_compute; reflexivity|vm_compute; reflexivity|cbn; lia].
Defined.

Lemma inventory_exchange_witness : exists req nA' s rest nB',
    buildInventoryRequest poor_node = Ok (req, poor_node) /\
    handleInvRequest sync_config "poor" req rich_node = Ok (tt, nA') /\ s ∈ Starts req /\
    let resp := mkInventoryResponse ChannelIDBlock (s :: rest) in
    SendInventory ["poor"] resp ∈ outbox nA' /\
    handleInvResponse sync_config "rich" resp poor_node = Ok (tt, nB') /\ sync_inv nB' /\
    Forall (fun e => known nB' (HexToHash e)) (take (Z.to_nat 32) (s :: rest)).
Proof.
  apply (inventory_exchange sync_config sync_config rich_node poor_node "rich" "poor" poor_root rich_root
    rich_node_inv (proj2 demo_live) poor_node_inv (proj1 demo_live));
    [vm_compute; reflexivity|vm_compute; reflexivity|vm_compute; reflexivity|vm_compute; reflexivity|cbn; lia].
Defined.

Definition rich_block : ExtendedBlock :=
  match findBlock rich_chain (demo_hash 1) with Some b => b | None => rich_root end.

Lemma block_transfer_witness : exists nA' nB' b', let resp := mkDataResponse ChannelIDBlock "b" in
    handleDataRequest "poor" (mkDataRequest ChannelIDBlock [HashHex (demo_hash 1)]) rich_node = Ok (tt, nA') /\
    outbox nA' = outbox rich_node ++ [SendData ["poor"] resp] /\
    handleDataResponse sync_config "rich" resp poor_node = Ok (tt, nB') /\ sync_inv nB' /\
    findBlock (ChainOf (consensus nB')) (demo_hash 1) = Some b' /\ EBlock b' = EBlock rich_block /\
    Status b' = BlockStatusPending /\ pendingBlocksByHash (requestMgr nB') !! demo_hash 1 = None.
Proof.
  apply (block_transfer sync_config rich_node poor_node "rich" "poor" (demo_hash 1) rich_block "b" "b"
    rich_node_inv poor_node_inv); vm_compute; reflexivity.
Defined.

(** The announced block was not heard of by gossip, and is gossiped all the
    same. *)
Lemma new_block_gossiped_witness : fromGossip (obj (requestMgr busy_node) 0) = false /\
  exists n', handleBlock sync_config sync_block busy_node = Ok (tt, n') /\
    SendInventory [] (mkInventoryResponse ChannelIDBlock [HashHex (BlockHash sync_block)]) ∈ outbox n'.
Proof.
  split; [vm_compute; reflexivity|].
  apply (new_block_gossiped sync_config sync_block busy_node
    (added_block (Chain.AddBlock no_eth demo0 sync_block)) (added (Chain.AddBlock no_eth demo0 sync_block))
    (proj1 busy_inv)).
  - split; [unfold is_u64, two64; cbn; lia|reflexivity].
  - vm_compute. reflexivity.
  - apply (added_ok (Chain.AddBlock no_eth demo0 sync_block)). vm_compute. reflexivity.
  - reflexivity.
Defined.

Lemma round_ends_witness : exists n', passReadyBlocks 2 rich_node = Ok (tt, n') /\
  round_passes rich_node n' /\ PassBlock (EBlock rich_block) ∈ consumed n'.
Proof.
  destruct (round_ends 2 rich_node rich_root 2 rich_node_inv) as (n' & Hn & Hr & Hall);
    [vm_compute; reflexivity|vm_compute; reflexivity|unfold is_u64, two64; lia|vm_compute; reflexivity|vm_compute; discriminate|].
  exists n'. split; [exact Hn|]. split; [exact Hr|].
  apply Hall; [vm_compute; reflexivity| |vm_compute; reflexivity..].
  assert (findBlocksByHeight (ChainOf (consensus rich_node)) (EBHeight rich_root + 1) = [rich_block]) as ->
    by (vm_compute; reflexivity). by left.
Defined.
End Witnesses.
