(* ===== verification/Text.v ===== *)
(** * Text: Go strings, decimal numbers and slices of bytes

    What the inter-chain part and the contract ABI use of Go's [strings],
    [strconv], [math/big] and slice expressions: splitting and joining at a
    separator, case folding, decimal printing and parsing, and slices [s[a:b]]
    that panic outside their bounds.  A Go string is a [string] whose characters
    are its bytes. *)

From Stdlib Require Import Ascii DecimalString DecimalZ.
From stdpp Require Import gmap sorting.
From stdpp Require Import base list numbers strings.
From S2P Require Import Prelude.
Open Scope string_scope.
Open Scope list_scope.
Open Scope Z_scope.

(** ** Bytes of a string *)

Definition byte_of (c : ascii) : Z := Z.of_N (N_of_ascii c).
Definition char_of (b : Z) : ascii := ascii_of_N (Z.to_N b).

Definition string_bytes (s : string) : list Z := List.map byte_of (String.list_ascii_of_string s).
Definition bytes_string (l : list Z) : string := String.string_of_list_ascii (List.map char_of l).

Definition is_byte (b : Z) : bool := (0 <=? b) && (b <? 256).

(** ** Splitting and joining *)

(** [strings.Split(s, sep)] for a one-byte separator. *)
Fixpoint Split (s : string) (sep : ascii) : list string :=
  match s with
  | EmptyString => [""]
  | String c s' =>
      if Ascii.eqb c sep then "" :: Split s' sep
      else match Split s' sep with
           | [] => [String c ""]
           | p :: ps => String c p :: ps
           end
  end.

(** [strings.Join(parts, "")]. *)
Definition Concat (parts : list string) : string := foldr String.append "" parts.

(** ** Letter case *)

Definition is_ascii (c : ascii) : bool := byte_of c <? 128.

Definition lower_char (c : ascii) : ascii :=
  if (65 <=? byte_of c) && (byte_of c <=? 90) then char_of (byte_of c + 32) else c.

Definition upper_char (c : ascii) : ascii :=
  if (97 <=? byte_of c) && (byte_of c <=? 122) then char_of (byte_of c - 32) else c.

Fixpoint map_string (f : ascii -> ascii) (s : string) : string :=
  match s with EmptyString => "" | String c s' => String (f c) (map_string f s') end.

Fixpoint all_chars (f : ascii -> bool) (s : string) : bool :=
  match s with EmptyString => true | String c s' => f c && all_chars f s' end.

(** Unicode case folding of strings that are not ASCII. *)
Class Unicode := { unicode_ToLower : string -> string }.

(** [strings.ToLower]: bytewise on ASCII strings, runewise on the others. *)
Definition ToLower `{Unicode} (s : string) : string :=
  if all_chars is_ascii s then map_string lower_char s else unicode_ToLower s.

(** ** Decimal numbers *)

(** [x.String()] of a [*big.Int], [strconv.Itoa], [strconv.FormatUint(x, 10)]. *)
Definition decimal (z : Z) : string := NilZero.string_of_int (Z.to_int z).

(** [new(big.Int).SetString(s, 10)]: an optional sign and at least one digit. *)
Definition SetString10 (s : string) : option Z :=
  match s with
  | String "+" s' => Z.of_uint <$> NilZero.uint_of_string s'
  | _ => Z.of_int <$> NilZero.int_of_string s
  end.

(** [strconv.Atoi]: the same, in the range of a 64-bit [int]. *)
Definition Atoi (s : string) : option Z :=
  match SetString10 s with
  | Some z => if (-9223372036854775808 <=? z) && (z <? 9223372036854775808) then Some z else None
  | None => None
  end.

(** ** Hexadecimal *)

Definition hex_digit (n : Z) : ascii := if n <? 10 then char_of (48 + n) else char_of (87 + n).

Definition hex_value (c : ascii) : option Z :=
  let b := byte_of c in
  if (48 <=? b) && (b <=? 57) then Some (b - 48)
  else if (97 <=? b) && (b <=? 102) then Some (b - 87)
  else if (65 <=? b) && (b <=? 70) then Some (b - 55)
  else None.

(** [hex.EncodeToString], and the bytes that [hex.DecodeString] returns: those
    before the first character that is not a digit. *)
Fixpoint hex_encode (l : list Z) : string :=
  match l with
  | [] => ""
  | b :: l => String (hex_digit (b / 16)) (String (hex_digit (b mod 16)) (hex_encode l))
  end.

Fixpoint hex_decode (s : string) : list Z :=
  match s with
  | String a (String b s') =>
      match hex_value a, hex_value b with
      | Some x, Some y => x * 16 + y :: hex_decode s'
      | _, _ => []
      end
  | _ => []
  end.

Fixpoint hex_digits (s : string) (acc : Z) : option Z :=
  match s with
  | "" => Some acc
  | String c s' => d ← hex_value c; hex_digits s' (acc * 16 + d)
  end.

(** [new(big.Int).SetString(s, 16)] *)
Definition SetString16 (s : string) : option Z :=
  match s with
  | "" | String "+" "" | String "-" "" => None
  | String "+" s' => hex_digits s' 0
  | String "-" s' => Z.opp <$> hex_digits s' 0
  | _ => hex_digits s 0
  end.

(** [s[n:]] of a string. *)
Fixpoint string_from (s : string) (n : nat) : outcome string :=
  match n, s with
  | O, _ => Ok s
  | S n, String _ s' => string_from s' n
  | S _, "" => Panic "slice bounds out of range"
  end.

(** ** Slices *)

Definition len {A} (l : list A) : Z := Z.of_nat (length l).

(** [s[a:b]], [s[a:]] *)
Definition slice {A} (l : list A) (a b : Z) : outcome (list A) :=
  if (0 <=? a) && (a <=? b) && (b <=? len l)
  then Ok (take (Z.to_nat (b - a)) (drop (Z.to_nat a) l))
  else Panic "slice bounds out of range".

Definition slice_from {A} (l : list A) (a : Z) : outcome (list A) := slice l a (len l).

(** [common.LeftPadBytes] and [common.RightPadBytes]. *)
Definition LeftPadBytes (l : list Z) (n : Z) : list Z := replicate (Z.to_nat n - length l) 0 ++ l.
Definition RightPadBytes (l : list Z) (n : Z) : list Z := l ++ replicate (Z.to_nat n - length l) 0.

Arguments len : simpl never.
Arguments slice : simpl never.
Arguments slice_from : simpl never.
Arguments decimal : simpl never.
Arguments LeftPadBytes : simpl never.
Arguments RightPadBytes : simpl never.

(** ** Lemmas on bytes and strings *)

Lemma is_byte_spec b : is_byte b = true <-> 0 <= b < 256.
Proof. unfold is_byte. rewrite andb_true_iff, Z.leb_le, Z.ltb_lt. done. Qed.

Lemma byte_of_range c : 0 <= byte_of c < 256.
Proof.
  unfold byte_of. pose proof (N_ascii_bounded c). lia.
Qed.

Lemma char_byte c : char_of (byte_of c) = c.
Proof. unfold char_of, byte_of. by rewrite N2Z.id, ascii_N_embedding. Qed.

Lemma byte_char b : 0 <= b < 256 -> byte_of (char_of b) = b.
Proof. intros Hb. unfold byte_of, char_of. rewrite N_ascii_embedding by lia. lia. Qed.

Lemma bytes_string_bytes s : bytes_string (string_bytes s) = s.
Proof.
  unfold bytes_string, string_bytes. rewrite List.map_map.
  rewrite (List.map_ext _ id) by apply char_byte.
  rewrite List.map_id. apply String.string_of_list_ascii_of_string.
Qed.

Lemma string_bytes_string l : Forall (fun b => 0 <= b < 256) l -> string_bytes (bytes_string l) = l.
Proof.
  intros Hl. unfold bytes_string, string_bytes.
  rewrite String.list_ascii_of_string_of_list_ascii, List.map_map.
  induction Hl as [|b l Hb _ IH]; simpl; [done|]. by rewrite byte_char, IH.
Qed.

Lemma string_bytes_range s : Forall (fun b => 0 <= b < 256) (string_bytes s).
Proof.
  unfold string_bytes. apply Forall_forall. intros b (c & <- & _)%list_elem_of_In%in_map_iff.
  apply byte_of_range.
Qed.

Lemma string_cons_app c s t : (String c s ++ t)%string = String c (s ++ t)%string.
Proof. reflexivity. Qed.

Lemma string_nil_app t : ("" ++ t)%string = t.
Proof. reflexivity. Qed.

(** Splitting undoes joining with a separator that no part holds. *)
Definition lacks (sep : ascii) (s : string) : bool := all_chars (fun c => negb (Ascii.eqb c sep)) s.

Lemma Split_lacks s sep : lacks sep s = true -> Split s sep = [s].
Proof.
  induction s as [|c s IH]; [done|]. unfold lacks in *. simpl.
  intros [Hc Hs]%andb_true_iff. apply negb_true_iff in Hc.
  by rewrite Hc, IH.
Qed.

Lemma Split_app p sep s :
  lacks sep p = true -> Split (p ++ String sep s)%string sep = p :: Split s sep.
Proof.
  induction p as [|c p IH]; unfold lacks; rewrite ?string_nil_app, ?string_cons_app; simpl.
  - intros _. by rewrite Ascii.eqb_refl.
  - intros [Hc Hp]%andb_true_iff. apply negb_true_iff in Hc. rewrite Hc, IH by done. done.
Qed.

Lemma all_chars_app f s1 s2 : all_chars f (s1 ++ s2)%string = all_chars f s1 && all_chars f s2.
Proof. induction s1 as [|c s1 IH]; [done|]. rewrite string_cons_app. simpl. by rewrite IH, andb_assoc. Qed.

Lemma map_string_app f s1 s2 : map_string f (s1 ++ s2)%string = (map_string f s1 ++ map_string f s2)%string.
Proof. induction s1 as [|c s1 IH]; [done|]. rewrite string_cons_app. simpl. by rewrite IH, string_cons_app. Qed.

Lemma all_chars_impl (f g : ascii -> bool) s :
  (forall c, f c = true -> g c = true) -> all_chars f s = true -> all_chars g s = true.
Proof.
  intros Hfg. induction s as [|c s IH]; simpl; [done|].
  intros [Hc Hs]%andb_true_iff. by rewrite Hfg, IH.
Qed.

Lemma map_string_id (f : ascii -> ascii) (g : ascii -> bool) s :
  (forall c, g c = true -> f c = c) -> all_chars g s = true -> map_string f s = s.
Proof.
  intros Hfg. induction s as [|c s IH]; simpl; [done|].
  intros [Hc Hs]%andb_true_iff. by rewrite Hfg, IH.
Qed.

(** ** Lemmas on decimal numbers *)

Lemma to_int_nonnil z : Z.to_int z <> Decimal.Pos Decimal.Nil /\ Z.to_int z <> Decimal.Neg Decimal.Nil.
Proof.
  assert (Hu : forall p, Pos.to_uint p <> Decimal.Nil).
  { intros p Hp. assert (Hof := DecimalPos.Unsigned.of_to p). rewrite Hp in Hof. done. }
  destruct z as [|p|p]; simpl; split; try done; intros [=Heq]; by apply (Hu p).
Qed.

Definition is_digit (c : ascii) : bool := (48 <=? byte_of c) && (byte_of c <=? 57).
Definition is_numeral (c : ascii) : bool := is_digit c || Ascii.eqb c "-".

Lemma string_of_uint_digits d : all_chars is_digit (NilEmpty.string_of_uint d) = true.
Proof. by induction d. Qed.

Lemma decimal_numeral z : all_chars is_numeral (decimal z) = true.
Proof.
  assert (Hd : forall d, all_chars is_numeral (NilZero.string_of_uint d) = true).
  { intros d. assert (Hd := string_of_uint_digits d).
    destruct d; [done|..]; (eapply all_chars_impl; [|exact Hd]); intros c Hc; unfold is_numeral; by rewrite Hc. }
  unfold decimal. destruct (Z.to_int z); simpl; by rewrite ?Hd.
Qed.

(** [SetString] reads back what [String] prints. *)
Lemma SetString10_decimal z : SetString10 (decimal z) = Some z.
Proof.
  destruct (to_int_nonnil z) as [Hp Hn].
  assert (Hisi : NilZero.int_of_string (decimal z) = Some (Z.to_int z)) by (by apply NilZero.isi).
  assert (Hplus : forall s, decimal z <> String "+" s).
  { intros s Hs. assert (Hnum := decimal_numeral z). rewrite Hs in Hnum. done. }
  unfold SetString10. destruct (decimal z) as [|[[] [] [] [] [] [] [] []] s]; try (by destruct (Hplus s));
    rewrite Hisi; simpl; by rewrite DecimalZ.of_to.
Qed.

Lemma decimal_nonempty z : decimal z <> "".
Proof. intros He. pose proof (SetString10_decimal z) as Hs. by rewrite He in Hs. Qed.

(** Numbers that are not negative are written with digits. *)
Lemma decimal_digits z : 0 <= z -> all_chars is_digit (decimal z) = true.
Proof.
  intros Hz. assert (Hd : forall d, all_chars is_digit (NilZero.string_of_uint d) = true).
  { intros d. pose proof (string_of_uint_digits d). by destruct d. }
  unfold decimal. destruct z as [|p|p]; [done|apply Hd|lia].
Qed.

Lemma Atoi_decimal z : -9223372036854775808 <= z < 9223372036854775808 -> Atoi (decimal z) = Some z.
Proof.
  intros Hz. unfold Atoi. rewrite SetString10_decimal. by rewrite (proj2 (Z.leb_le _ _)), (proj2 (Z.ltb_lt _ _)) by lia.
Qed.

#[global] Instance decimal_inj : Inj (=) (=) decimal.
Proof.
  intros x y Hxy. apply (f_equal SetString10) in Hxy.
  rewrite !SetString10_decimal in Hxy. by injection Hxy.
Qed.

Lemma decimal_lacks z sep : is_numeral sep = false -> lacks sep (decimal z) = true.
Proof.
  intros Hsep. eapply all_chars_impl; [|apply (decimal_numeral z)].
  intros c Hc. apply negb_true_iff. destruct (Ascii.eqb_spec c sep) as [->|]; [congruence|done].
Qed.

Lemma decimal_lower z : map_string lower_char (decimal z) = decimal z.
Proof.
  eapply map_string_id; [|apply (decimal_numeral z)].
  intros [[] [] [] [] [] [] [] []]; by vm_compute.
Qed.

Lemma decimal_ascii z : all_chars is_ascii (decimal z) = true.
Proof.
  eapply all_chars_impl; [|apply (decimal_numeral z)].
  intros [[] [] [] [] [] [] [] []]; by vm_compute.
Qed.

(** ** Lemmas on hexadecimal *)

Lemma hex_value_digit n : 0 <= n < 16 -> hex_value (hex_digit n) = Some n.
Proof.
  intros Hn. unfold hex_digit, hex_value. destruct (Z.ltb_spec n 10); rewrite byte_char by lia.
  - rewrite (proj2 (Z.leb_le 48 _)), (proj2 (Z.leb_le _ 57)) by lia. simpl. f_equal. lia.
  - rewrite (proj2 (Z.leb_gt (87 + n) 57)), andb_false_r by lia.
    rewrite (proj2 (Z.leb_le 97 _)), (proj2 (Z.leb_le _ 102)) by lia. simpl. f_equal. lia.
Qed.

Lemma hex_decode_encode l : Forall (fun b => 0 <= b < 256) l -> hex_decode (hex_encode l) = l.
Proof.
  induction 1 as [|b l Hb _ IH]; [done|]. cbn [hex_encode hex_decode].
  pose proof (Z.div_mod b 16 ltac:(lia)). pose proof (Z.mod_pos_bound b 16 ltac:(lia)).
  assert (0 <= b / 16 < 16) by (split; [apply Z.div_pos; lia|apply Z.div_lt_upper_bound; lia]).
  rewrite !hex_value_digit by lia. rewrite IH. f_equal. lia.
Qed.

(** ** Lemmas on slices *)

Section Slices.
Context {A : Type}.
Implicit Types l : list A.

Lemma len_nonneg l : 0 <= len l.
Proof. unfold len. lia. Qed.

Lemma len_app l1 l2 : len (l1 ++ l2) = len l1 + len l2.
Proof. unfold len. rewrite length_app. lia. Qed.

Lemma len_cons x l : len (x :: l) = 1 + len l.
Proof. unfold len. simpl. lia. Qed.

Lemma slice_app l1 l2 l3 a b :
  a = len l1 -> b = len l1 + len l2 -> slice (l1 ++ l2 ++ l3) a b = Ok l2.
Proof.
  intros -> ->. unfold slice. rewrite !len_app.
  pose proof (len_nonneg l1). pose proof (len_nonneg l2). pose proof (len_nonneg l3).
  destruct (_ && _) eqn:Hb; [|exfalso; rewrite !andb_false_iff, !Z.leb_gt in Hb; lia].
  f_equal. unfold len. rewrite Nat2Z.id, drop_app_length.
  replace (Z.to_nat _) with (length l2) by lia. by rewrite take_app_length.
Qed.

Lemma slice_from_app l1 l2 a : a = len l1 -> slice_from (l1 ++ l2) a = Ok l2.
Proof.
  intros ->. unfold slice_from. rewrite <- (app_nil_r l2) at 1.
  apply slice_app; [done|]. by rewrite len_app.
Qed.

Lemma slice_total l a b :
  0 <= a <= b -> b <= len l -> exists l', slice l a b = Ok l' /\ len l' = b - a.
Proof.
  intros Hab Hb. unfold slice, len in *.
  destruct (_ && _) eqn:Hc; [|exfalso; rewrite !andb_false_iff, !Z.leb_gt in Hc; lia].
  eexists; split; [done|]. rewrite length_take, length_drop. lia.
Qed.

Lemma slice_from_ok l a :
  0 <= a <= len l -> exists l', slice_from l a = Ok l' /\ len l' = len l - a.
Proof. intros Ha. apply slice_total; lia. Qed.

End Slices.

Lemma be_value_bound l : Forall (fun b => 0 <= b < 256) l -> 0 <= be_value l < 256 ^ len l.
Proof.
  induction l as [|b l IH] using rev_ind; [done|]. intros [Hl Hb]%Forall_app. specialize (IH Hl).
  rewrite be_value_snoc, len_app. change (len [b]) with 1. rewrite Z.pow_add_r by (pose proof (len_nonneg l); lia).
  apply Forall_inv in Hb. nia.
Qed.

Lemma LeftPadBytes_length l n : 0 <= n -> len l <= n -> len (LeftPadBytes l n) = n.
Proof. unfold len, LeftPadBytes. rewrite length_app, length_replicate. lia. Qed.

Lemma RightPadBytes_length l n : 0 <= n -> len l <= n -> len (RightPadBytes l n) = n.
Proof. unfold len, RightPadBytes. rewrite length_app, length_replicate. lia. Qed.
