(* ===== verification/Abi.v ===== *)
(** * Abi: the contract ABI codec (src/eth/abi)

    Go values as [reflect] sees them, the ABI types of type.go, packing
    ([Type.pack], pack.go, [Arguments.Pack]), unpacking (unpack.go,
    [Arguments.UnpackValues]) and copying unpacked values into a struct
    (argument.go, reflect.go).  Values of kinds the codec never builds
    (channels, maps, functions, interfaces) are left out; a type name and its
    underlying type are the same type here.  The theorems are in AbiSpec.v. *)

From Stdlib Require Import Ascii.
From stdpp Require Import gmap sorting.
From stdpp Require Import base list numbers strings.
From S2P Require Import Prelude Text.
Open Scope string_scope.
Open Scope list_scope.
Open Scope Z_scope.

(** ** Go types and values *)

(** A field of a struct type: its name and its [abi] tag. *)
Record StructField := mkStructField { FieldName : string; AbiTag : option string }.

#[global] Instance StructField_eq_dec : EqDecision StructField.
Proof. solve_decision. Defined.

Inductive GoType :=
| TBool
| TInt (bits : Z)
| TUint (bits : Z)
| TBig                       (* *big.Int *)
| TString
| TSlice (elem : GoType)
| TArray (n : Z) (elem : GoType)
| TStruct (fields : list StructField) (types : list GoType)
| TPtr (elem : GoType).

Inductive GoVal :=
| GBool (b : bool)
| GInt (bits z : Z)
| GUint (bits z : Z)
| GBig (z : option Z)        (* None is a nil pointer *)
| GString (s : string)
| GSlice (elem : GoType) (l : list GoVal)
| GArray (elem : GoType) (l : list GoVal)
| GStruct (fields : list StructField) (l : list GoVal)
| GPtr (v : GoVal).

Inductive Kind :=
| KBool | KInt (bits : Z) | KUint (bits : Z) | KPtr | KString | KSlice | KArray | KStruct.

#[global] Instance Kind_eq_dec : EqDecision Kind.
Proof. solve_decision. Defined.

Definition KindOf (t : GoType) : Kind :=
  match t with
  | TBool => KBool
  | TInt b => KInt b
  | TUint b => KUint b
  | TBig | TPtr _ => KPtr
  | TString => KString
  | TSlice _ => KSlice
  | TArray _ _ => KArray
  | TStruct _ _ => KStruct
  end.

Fixpoint TypeOf (v : GoVal) : GoType :=
  match v with
  | GBool _ => TBool
  | GInt b _ => TInt b
  | GUint b _ => TUint b
  | GBig _ => TBig
  | GString _ => TString
  | GSlice e _ => TSlice e
  | GArray e l => TArray (len l) e
  | GStruct fs l => TStruct fs (List.map TypeOf l)
  | GPtr v => TPtr (TypeOf v)
  end.

Definition eqb_list {A} (eqb : A -> A -> bool) : list A -> list A -> bool :=
  fix go l1 l2 :=
    match l1, l2 with
    | [], [] => true
    | x :: l1, y :: l2 => eqb x y && go l1 l2
    | _, _ => false
    end.

(** Identity of types. *)
Fixpoint type_eqb (t u : GoType) : bool :=
  match t, u with
  | TBool, TBool | TBig, TBig | TString, TString => true
  | TInt b, TInt b' | TUint b, TUint b' => b =? b'
  | TSlice t, TSlice u | TPtr t, TPtr u => type_eqb t u
  | TArray n t, TArray m u => (n =? m) && type_eqb t u
  | TStruct fs ts, TStruct gs us => bool_decide (fs = gs) && eqb_list type_eqb ts us
  | _, _ => false
  end.

(** The zero value of a type, [reflect.New(t).Elem()]; nil pointers other than
    nil big integers are not represented. *)
Fixpoint zero_value (t : GoType) : GoVal :=
  match t with
  | TBool => GBool false
  | TInt b => GInt b 0
  | TUint b => GUint b 0
  | TBig => GBig None
  | TString => GString ""
  | TSlice e => GSlice e []
  | TArray n e => GArray e (replicate (Z.to_nat n) (zero_value e))
  | TStruct fs ts => GStruct fs (List.map zero_value ts)
  | TPtr e => GPtr (zero_value e)
  end.

(** ** ABI types (type.go) *)

Inductive AType :=
| IntTy (Size : Z)
| UintTy (Size : Z)
| BoolTy
| StringTy
| SliceTy (Elem : AType)
| ArrayTy (Elem : AType) (Size : Z)
| TupleTy (TupleElems : list AType) (TupleRawNames : list string) (TupleType : list string)
| AddressTy
| FixedBytesTy (Size : Z)
| BytesTy
| HashTy
| FixedPointTy
| FunctionTy.

(** [ToCamelCase]: the parts between underscores, each with a capital. *)
Definition capitalise (s : string) : string :=
  match s with String c s' => String (upper_char c) s' | "" => "" end.

Definition ToCamelCase (input : string) : string := Concat (List.map capitalise (Split input "_")).

(** The widths for which [reflectIntType] has a machine integer. *)
Definition machine_width (size : Z) : bool :=
  (size =? 8) || (size =? 16) || (size =? 32) || (size =? 64).

Definition reflectIntType (unsigned : bool) (size : Z) : GoType :=
  if machine_width size then (if unsigned then TUint size else TInt size) else TBig.

Definition untagged (name : string) : StructField := mkStructField name None.

(** [GetType] *)
Fixpoint GetType (t : AType) : GoType :=
  match t with
  | IntTy size => reflectIntType false size
  | UintTy size => reflectIntType true size
  | BoolTy => TBool
  | StringTy => TString
  | SliceTy e => TSlice (GetType e)
  | ArrayTy e size => TArray size (GetType e)
  | TupleTy es _ names => TStruct (List.map untagged names) (List.map GetType es)
  | AddressTy => TArray 20 (TUint 8)
  | FixedBytesTy size => TArray size (TUint 8)
  | BytesTy => TSlice (TUint 8)
  | HashTy | FixedPointTy => TArray 32 (TUint 8)
  | FunctionTy => TArray 24 (TUint 8)
  end.

Definition requiresLengthPrefix (t : AType) : bool :=
  match t with StringTy | BytesTy | SliceTy _ => true | _ => false end.

Fixpoint isDynamicType (t : AType) : bool :=
  match t with
  | TupleTy es _ _ => existsb isDynamicType es
  | StringTy | BytesTy | SliceTy _ => true
  | ArrayTy e _ => isDynamicType e
  | _ => false
  end.

Fixpoint getTypeSize (t : AType) : Z :=
  match t with
  | ArrayTy e size =>
      if negb (isDynamicType e) then
        match e with
        | ArrayTy _ _ | TupleTy _ _ _ => size * getTypeSize e
        | _ => size * 32
        end
      else 32
  | TupleTy es _ _ =>
      if negb (existsb isDynamicType es)
      then List.fold_left (fun total e => total + getTypeSize e) es 0
      else 32
  | _ => 32
  end.

(** ** Packing (pack.go, error_handling.go) *)

Definition two256 : Z := 2 ^ 256.

(** [U256Bytes]: the 32 bytes of a number in two's complement. *)
Definition U256Bytes (n : Z) : list Z := be_bytes 32 (n mod two256).

(** [packNum] *)
Definition packNum (v : GoVal) : outcome (list Z) :=
  match v with
  | GUint _ z | GInt _ z => Ok (U256Bytes z)
  | GBig (Some z) => Ok (U256Bytes z)
  | GBig None => Panic "nil pointer dereference"
  | _ => Panic "abi: fatal error"
  end.

(** [packBytesSlice] *)
Definition packBytesSlice (bytes : list Z) (l : Z) : list Z :=
  U256Bytes l ++ RightPadBytes bytes ((l + 31) / 32 * 32).

(** [indirect]: pointers are followed, big integers excepted. *)
Fixpoint indirect (v : GoVal) : outcome GoVal :=
  match v with
  | GPtr v => indirect v
  | GBig None => Panic "reflect: call of reflect.Value.Type on zero Value"
  | v => Ok v
  end.

Definition byte_val (v : GoVal) : Z := match v with GUint _ z => z | _ => 0 end.
Definition val_byte (b : Z) : GoVal := GUint 8 b.

(** [mustArrayToByteSlice]: the bytes of a byte array. *)
Definition mustArrayToByteSlice (e : GoType) (l : list GoVal) : outcome (list Z) :=
  if type_eqb e (TUint 8) then Ok (List.map byte_val l)
  else Panic "reflect.Copy: different element types".

(** [packElement] *)
Definition packElement (t : AType) (v : GoVal) : outcome (list Z) :=
  match t with
  | IntTy _ | UintTy _ => packNum v
  | StringTy =>
      match v with
      | GString s => Ok (packBytesSlice (string_bytes s) (len (string_bytes s)))
      | _ => Panic "reflect: not a string"
      end
  | AddressTy =>
      match v with
      | GArray e l => bytes ← mustArrayToByteSlice e l; Ok (LeftPadBytes bytes 32)
      | _ => Panic "reflect: not bytes"
      end
  | BoolTy =>
      match v with
      | GBool b => Ok (be_bytes 32 (if b then 1 else 0))
      | _ => Panic "reflect: not a bool"
      end
  | BytesTy =>
      match v with
      | GArray e l => bytes ← mustArrayToByteSlice e l; Ok (packBytesSlice bytes (len bytes))
      | GSlice e l =>
          if type_eqb e (TUint 8)
          then Ok (packBytesSlice (List.map byte_val l) (len (List.map byte_val l)))
          else Err "Bytes type is neither slice nor array"
      | _ => Err "Bytes type is neither slice nor array"
      end
  | FixedBytesTy _ | FunctionTy =>
      match v with
      | GArray e l => bytes ← mustArrayToByteSlice e l; Ok (RightPadBytes bytes 32)
      | _ => Panic "reflect: not bytes"
      end
  | _ => Err "Could not pack element, unknown type"
  end.

(** The elements and the element type of a slice or array value. *)
Definition elements (v : GoVal) : option (GoType * list GoVal) :=
  match v with
  | GSlice e l | GArray e l => Some (e, l)
  | _ => None
  end.

(** [sliceTypeCheck]; [size] is the size of an array type. *)
Fixpoint sliceTypeCheck (t : AType) (v : GoVal) : outcome unit :=
  match t with
  | SliceTy e | ArrayTy e _ =>
      match elements v with
      | None => Err "abi: cannot use argument"
      | Some (ve, l) =>
          if match t with ArrayTy _ size => negb (len l =? size) | _ => false end
          then Err "abi: cannot use argument"
          else
            match e, l with
            | SliceTy _, v0 :: _ | ArrayTy _ _, v0 :: _ => sliceTypeCheck e v0
            | _, _ =>
                if bool_decide (KindOf ve = KindOf (GetType e)) then Ok tt
                else Err "abi: cannot use argument"
            end
      end
  | _ => Err "abi: cannot use argument"
  end.

(** [typeCheck] *)
Definition typeCheck (t : AType) (v : GoVal) : outcome unit :=
  match t with
  | SliceTy _ | ArrayTy _ _ => sliceTypeCheck t v
  | _ =>
      if negb (bool_decide (KindOf (GetType t) = KindOf (TypeOf v)))
      then Err "abi: cannot use argument"
      else match t, v with
           | FixedBytesTy size, GArray _ l =>
               if negb (size =? len l) then Err "abi: cannot use argument" else Ok tt
           | _, _ => Ok tt
           end
  end.

(** ** Argument names and struct fields (reflect.go) *)

Definition get_name (m : gmap string string) (k : string) : string := default "" (m !! k).

Abbreviation NameMaps := (gmap string string * gmap string string)%type (only parsing).

(** The inner loop of the first round: the arguments that carry the tag of the
    field. *)
Fixpoint pair_tag (tag field : string) (argNames : list string) (m : NameMaps) (found : bool)
    : outcome (NameMaps * bool) :=
  match argNames with
  | [] => Ok (m, found)
  | arg :: args =>
      if bool_decide (arg = tag) then
        if bool_decide (get_name m.1 arg = "")
        then pair_tag tag field args (<[arg := field]> m.1, <[field := arg]> m.2) true
        else Err "struct: abi tag already mapped"
      else pair_tag tag field args m found
  end.

Definition exported (name : string) : bool := bool_decide (capitalise name = name).

(** First round: fields with a tag. *)
Fixpoint pair_tags (fields : list StructField) (argNames : list string) (m : NameMaps) : outcome NameMaps :=
  match fields with
  | [] => Ok m
  | f :: fs =>
      if negb (exported (FieldName f)) then pair_tags fs argNames m
      else match AbiTag f with
           | None => pair_tags fs argNames m
           | Some tag =>
               if bool_decide (tag = "") then Err "struct: abi tag is empty"
               else '(m', found) ← pair_tag tag (FieldName f) argNames m false;
                    if (found : bool) then pair_tags fs argNames m'
                    else Err "struct: abi tag defined but not found in abi"
           end
  end.

Definition has_field (fields : list StructField) (name : string) : bool :=
  existsb (fun f => bool_decide (FieldName f = name)) fields.

(** Second round: the other arguments, by their camel-case name. *)
Fixpoint pair_names (fields : list StructField) (argNames : list string) (m : NameMaps) : outcome NameMaps :=
  match argNames with
  | [] => Ok m
  | arg :: args =>
      let field := ToCamelCase arg in
      if bool_decide (field = "") then Err "abi: purely underscored output cannot unpack to struct"
      else if negb (bool_decide (get_name m.1 arg = "")) then
        if negb (bool_decide (get_name m.1 arg = field)) && bool_decide (get_name m.2 field = "")
           && has_field fields field
        then Err "abi: multiple variables maps to the same abi field"
        else pair_names fields args m
      else if negb (bool_decide (get_name m.2 field = ""))
      then Err "abi: multiple outputs mapping to the same struct field"
      else if has_field fields field
      then pair_names fields args (<[arg := field]> m.1, <[field := arg]> m.2)
      else pair_names fields args (m.1, <[field := arg]> m.2)
  end.

(** [mapArgNamesToStructFields] *)
Definition mapArgNamesToStructFields (argNames : list string) (fields : list StructField)
    : outcome (gmap string string) :=
  m ← pair_tags fields argNames (∅, ∅);
  '(abi2struct, _) ← pair_names fields argNames m;
  Ok abi2struct.

(** [FieldByName]: the first field of the name. *)
Fixpoint FieldByName (fields : list StructField) (vals : list GoVal) (name : string) : option GoVal :=
  match fields, vals with
  | f :: fs, v :: vs => if bool_decide (FieldName f = name) then Some v else FieldByName fs vs name
  | _, _ => None
  end.

(** ** [Type.pack] *)

(** The loop that [pack] runs over the elements of a slice, an array or a tuple
    and [Arguments.Pack] over its arguments: [ret] is the head written so far,
    [tail] the values of dynamic types, [offset] where the next of them goes. *)
Fixpoint pack_loop (parts : list (bool * outcome (list Z))) (offset : Z) (ret tail : list Z)
    : outcome (list Z) :=
  match parts with
  | [] => Ok (ret ++ tail)
  | (dynamic, packed) :: parts =>
      val ← packed;
      if dynamic : bool
      then pack_loop parts (offset + len val) (ret ++ U256Bytes offset) (tail ++ val)
      else pack_loop parts offset (ret ++ val) tail
  end.

Definition sum_sizes (ts : list AType) : Z := List.fold_left (fun total e => total + getTypeSize e) ts 0.

(** The fields of a tuple, packed by [packf] under the struct fields that
    [fieldmap] gives their names. *)
Definition tuple_parts (packf : AType -> GoVal -> outcome (list Z)) (fieldmap : gmap string string)
    (fields : list StructField) (vals : list GoVal) : list AType -> list string -> list (bool * outcome (list Z)) :=
  fix parts es names :=
    match es with
    | [] => []
    | e :: es =>
        match names with
        | [] => [(false, Panic "index out of range")]
        | n :: names =>
            (isDynamicType e,
              match FieldByName fields vals (get_name fieldmap n) with
              | Some f => packf e f
              | None => Err "field for tuple not found in the given struct"
              end) :: parts es names
        end
    end.

Fixpoint pack (t : AType) (v : GoVal) : outcome (list Z) :=
  v ← indirect v;
  _ ← typeCheck t v;
  match t with
  | SliceTy e | ArrayTy e _ =>
      match elements v with
      | None => Panic "reflect: call of Len on a value without a length"
      | Some (_, vs) =>
          pack_loop (List.map (fun x => (isDynamicType e, pack e x)) vs)
            (if isDynamicType e then getTypeSize e * len vs else 0)
            (if requiresLengthPrefix t then U256Bytes (len vs) else []) []
      end
  | TupleTy es rawNames _ =>
      match v with
      | GStruct fields vals =>
          fieldmap ← mapArgNamesToStructFields rawNames fields;
          pack_loop
            (tuple_parts pack fieldmap fields vals es rawNames)
            (sum_sizes es) [] []
      | _ => Panic "reflect: not a struct"
      end
  | _ => packElement t v
  end.

(** ** Unpacking (unpack.go) *)

(** [intN(uintN)]: the value of [size] bits read as a signed number. *)
Definition signed (size z : Z) : Z := if z <? 2 ^ (size - 1) then z else z - 2 ^ size.

(** The number in the last [size] bits of a word. *)
Definition low_bits (size : Z) (b : list Z) : Z := be_value (drop (length b - Z.to_nat (size / 8)) b).

(** [ReadInteger] *)
Definition ReadInteger (unsigned : bool) (size : Z) (b : list Z) : GoVal :=
  if machine_width size then
    if unsigned then GUint size (low_bits size b) else GInt size (signed size (low_bits size b))
  else if unsigned then GBig (Some (be_value b))
  else let ret := be_value b in
       GBig (Some (if Z.testbit ret 255 then - ((two256 - 1) + - ret + 1) else ret)).

(** [readBool] *)
Definition readBool (word : list Z) : outcome GoVal :=
  if negb (forallb (Z.eqb 0) (take 31 word)) then Err "abi: improperly encoded boolean value"
  else match drop 31 word with
       | [0] => Ok (GBool false)
       | [1] => Ok (GBool true)
       | _ => Err "abi: improperly encoded boolean value"
       end.

Definition byte_array (l : list Z) : GoVal := GArray (TUint 8) (List.map val_byte l).

(** [readFunctionType] *)
Definition readFunctionType (word : list Z) : outcome GoVal :=
  if be_value (drop 24 word) =? 0 then Ok (byte_array (take 24 word))
  else Err "abi: got improperly encoded function type".

(** [ReadFixedBytes] *)
Definition ReadFixedBytes (size : Z) (word : list Z) : outcome GoVal :=
  bytes ← slice word 0 size; Ok (byte_array bytes).

(** [lengthPrefixPointsTo] *)
Definition lengthPrefixPointsTo (index : Z) (output : list Z) : outcome (Z * Z) :=
  word ← slice output index (index + 32);
  let bigOffsetEnd := be_value word + 32 in
  let outputLength := len output in
  if outputLength <? bigOffsetEnd then Err "abi: cannot marshal in to go slice"
  else if 2 ^ 63 <=? bigOffsetEnd then Err "abi offset larger than int64"
  else
    lengthWord ← slice output (bigOffsetEnd - 32) bigOffsetEnd;
    let lengthBig := be_value lengthWord in
    let totalSize := bigOffsetEnd + lengthBig in
    if 2 ^ 63 <=? totalSize then Err "abi: length larger than int64"
    else if outputLength <? totalSize then Err "abi: cannot marshal in to go type: length insufficient"
    else Ok (bigOffsetEnd, lengthBig).

(** [tuplePointsTo] *)
Definition tuplePointsTo (index : Z) (output : list Z) : outcome Z :=
  word ← slice output index (index + 32);
  let offset := be_value word in
  if len output <? offset then Err "abi: cannot marshal in to go slice"
  else if 2 ^ 63 <=? offset then Err "abi offset larger than int64"
  else Ok offset.

(** The loop of [forEachUnpack]: [n] elements, the first at [i]. *)
Fixpoint unpack_each (elem : Z -> outcome GoVal) (elemSize : Z) (n : nat) (i : Z) : outcome (list GoVal) :=
  match n with
  | O => Ok []
  | S n => v ← elem i; vs ← unpack_each elem elemSize n (i + elemSize); Ok (v :: vs)
  end.

(** [forEachUnpack] from the start of [output]; [elem] unpacks one element.  The
    product with [size] is that of the int below 2^58 elements, which is beyond
    what [reflect] can allocate. *)
Definition forEachUnpack (elem : Z -> outcome GoVal) (e : AType) (output : list Z) (size : Z)
    : outcome (list GoVal) :=
  if size <? 0 then Err "cannot marshal input to array, size is negative"
  else if len output <? 32 * size then Err "abi: cannot marshal in to go array"
  else unpack_each elem (getTypeSize e) (Z.to_nat size) 0.

(** Static arrays and tuples take the place of several arguments. *)
Definition virtual_args (t : AType) : Z :=
  match t with
  | ArrayTy _ _ | TupleTy _ _ _ => if isDynamicType t then 0 else getTypeSize t / 32 - 1
  | _ => 0
  end.

(** The loop of [forTupleUnpack] and of [UnpackValues]. *)
Fixpoint unpack_loop (elems : list (AType * (Z -> outcome GoVal))) (index virtualArgs : Z)
    : outcome (list GoVal) :=
  match elems with
  | [] => Ok []
  | (t, elem) :: elems =>
      v ← elem ((index + virtualArgs) * 32);
      vs ← unpack_loop elems (index + 1) (virtualArgs + virtual_args t);
      Ok (v :: vs)
  end.

(** [toGoType]; [forTupleUnpack] is the case of tuples. *)
Fixpoint toGoType (index : Z) (t : AType) (output : list Z) : outcome GoVal :=
  if len output <? index + 32 then Err "abi: cannot marshal in to go type: length insufficient"
  else
    match t with
    | SliceTy e =>
        '(begin, length) ← lengthPrefixPointsTo index output;
        out ← slice_from output begin;
        GSlice (GetType e) <$> forEachUnpack (fun i => toGoType i e out) e out length
    | StringTy =>
        '(begin, length) ← lengthPrefixPointsTo index output;
        bytes ← slice output begin (begin + length);
        Ok (GString (bytes_string bytes))
    | BytesTy =>
        '(begin, length) ← lengthPrefixPointsTo index output;
        bytes ← slice output begin (begin + length);
        Ok (GSlice (TUint 8) (List.map val_byte bytes))
    | TupleTy es _ names =>
        start ← (if isDynamicType t then tuplePointsTo index output else Ok index);
        out ← slice_from output start;
        GStruct (List.map untagged names) <$>
          unpack_loop (List.map (fun e => (e, fun i => toGoType i e out)) es) 0 0
    | ArrayTy e size =>
        returnOutput ← slice output index (index + 32);
        if isDynamicType e then
          let offset := be_value (drop 24 returnOutput) in
          if len output <? offset then Err "abi: toGoType offset greater than output length"
          else out ← slice_from output offset;
               GArray (GetType e) <$> forEachUnpack (fun i => toGoType i e out) e out size
        else out ← slice_from output index;
             GArray (GetType e) <$> forEachUnpack (fun i => toGoType i e out) e out size
    | IntTy size =>
        returnOutput ← slice output index (index + 32); Ok (ReadInteger false size returnOutput)
    | UintTy size =>
        returnOutput ← slice output index (index + 32); Ok (ReadInteger true size returnOutput)
    | BoolTy => returnOutput ← slice output index (index + 32); readBool returnOutput
    | AddressTy =>
        returnOutput ← slice output index (index + 32); Ok (byte_array (drop 12 returnOutput))
    | HashTy => returnOutput ← slice output index (index + 32); Ok (byte_array returnOutput)
    | FixedBytesTy size =>
        returnOutput ← slice output index (index + 32); ReadFixedBytes size returnOutput
    | FunctionTy =>
        returnOutput ← slice output index (index + 32); readFunctionType returnOutput
    | FixedPointTy => Err "abi: unknown type"
    end.

(** ** Arguments (argument.go) *)

Record Argument := mkArgument { ArgName : string; ArgType : AType; Indexed : bool }.
Abbreviation Arguments := (list Argument) (only parsing).

Definition NonIndexed (args : Arguments) : Arguments := List.filter (fun a => negb (Indexed a)) args.

Definition isTuple (args : Arguments) : bool := 1 <? len args.

(** [UnpackValues] *)
Definition UnpackValues (args : Arguments) (data : list Z) : outcome (list GoVal) :=
  unpack_loop (List.map (fun a => (ArgType a, fun i => toGoType i (ArgType a) data)) (NonIndexed args)) 0 0.

(** [Unpack] *)
Definition Unpack (args : Arguments) (data : list Z) : outcome (list GoVal) :=
  if len data =? 0 then
    if negb (len args =? 0)
    then Err "abi: attempting to unmarshall an empty string while arguments are expected"
    else Ok []
  else UnpackValues args data.

(** [Pack] *)
Definition Pack (args : Arguments) (vals : list GoVal) : outcome (list Z) :=
  if negb (len vals =? len args) then Err "argument count mismatch"
  else pack_loop (zip_with (fun a v => (isDynamicType (ArgType a), pack (ArgType a) v)) args vals)
         (sum_sizes (List.map ArgType args)) [] [].

(** ** Copying into a struct *)

(** [set(dst, src)]: the new value of the destination, with [setSlice],
    [setArray] and [setStruct]. *)
Fixpoint set (src : GoVal) : GoVal -> outcome GoVal :=
  fix to (dst : GoVal) : outcome GoVal :=
    match dst with
    | GPtr d => GPtr <$> to d
    | _ =>
        if type_eqb (TypeOf src) (TypeOf dst) then Ok src
        else match dst with
             | GArray e l =>
                 match src with
                 | GPtr s => set s dst
                 | GSlice _ ss | GArray _ ss =>
                     (fun l' => GArray e (l' ++ drop (length l') (replicate (length l) (zero_value e)))) <$>
                       (fix go (n : nat) (ss : list GoVal) {struct ss} : outcome (list GoVal) :=
                          match n, ss with
                          | S n, s :: ss =>
                              v ← set s (zero_value e); vs ← go n ss; Ok (v :: vs)
                          | _, _ => Ok []
                          end) (length l) ss
                 | _ => Panic "reflect: call of Len"
                 end
             | GSlice e _ =>
                 match src with
                 | GSlice _ ss =>
                     GSlice e <$>
                       (fix go (ss : list GoVal) : outcome (list GoVal) :=
                          match ss with
                          | s :: ss => v ← set s (zero_value e); vs ← go ss; Ok (v :: vs)
                          | [] => Ok []
                          end) ss
                 | _ => Err "abi: cannot unmarshal"
                 end
             | GStruct fs ds =>
                 match src with
                 | GStruct _ ss =>
                     GStruct fs <$>
                       (fix go (ss ds : list GoVal) {struct ss} : outcome (list GoVal) :=
                          match ss, ds with
                          | s :: ss, d :: ds => v ← set s d; vs ← go ss ds; Ok (v :: vs)
                          | [], ds => Ok ds
                          | _ :: _, [] => Panic "reflect: Field index out of range"
                          end) ss ds
                 | _ => Panic "reflect: call of NumField"
                 end
             | _ => Err "abi: cannot unmarshal"
             end
    end.

(** Assignment to the first field of a name. *)
Fixpoint set_field (fields : list StructField) (vals : list GoVal) (name : string) (v : GoVal) : list GoVal :=
  match fields, vals with
  | f :: fs, d :: ds => if bool_decide (FieldName f = name) then v :: ds else d :: set_field fs ds name v
  | _, _ => vals
  end.

(** The struct case of [copyTuple]. *)
Fixpoint copy_fields (abi2struct : gmap string string) (fields : list StructField) (dst : list GoVal)
    (args : Arguments) (vals : list GoVal) : outcome (list GoVal) :=
  match args, vals with
  | a :: args, v :: vals =>
      match FieldByName fields dst (get_name abi2struct (ArgName a)) with
      | None => Err "abi: field can't be found in the given value"
      | Some d =>
          d' ← set v d;
          copy_fields abi2struct fields (set_field fields dst (get_name abi2struct (ArgName a)) d') args vals
      end
  | [], _ => Ok dst
  | _ :: _, [] => Panic "index out of range"
  end.

(** [Copy] into the struct the pointer argument points to, with [copyTuple] and
    [copyAtomic]. *)
Definition Copy (args : Arguments) (fields : list StructField) (dst : list GoVal) (vals : list GoVal)
    : outcome (list GoVal) :=
  match vals with
  | [] =>
      if negb (len args =? 0) then Err "abi: attempting to copy no values while arguments are expected"
      else Ok dst
  | v0 :: _ =>
      if isTuple args then
        abi2struct ← mapArgNamesToStructFields (List.map ArgName (NonIndexed args)) fields;
        copy_fields abi2struct fields dst (NonIndexed args) vals
      else match dst with
           | d :: dst => d' ← set v0 d; Ok (d' :: dst)
           | [] => Panic "reflect: Field index out of range"
           end
  end.

(** ** Contract ABIs (abi.go) *)

Record Method := mkMethod { Sig : string; Inputs : Arguments; Outputs : Arguments }.

(** The methods of a contract and the inputs of its events, by name. *)
Record ABI := mkABI { Methods : gmap string Method; Events : gmap string Arguments }.

(** [getArguments] *)
Definition getArguments (abi : ABI) (name : string) (data : list Z) : outcome Arguments :=
  match Methods abi !! name, Events abi !! name with
  | Some method, event =>
      if negb (len data mod 32 =? 0) then Err "abi: improperly formatted output"
      else Ok (default (Outputs method) event)
  | None, Some inputs => Ok inputs
  | None, None => Err "abi: could not locate named method or event"
  end.

(** [UnpackIntoInterface] into a struct. *)
Definition UnpackIntoInterface (abi : ABI) (fields : list StructField) (dst : list GoVal) (name : string)
    (data : list Z) : outcome (list GoVal) :=
  args ← getArguments abi name data;
  unpacked ← Unpack args data;
  Copy args fields dst unpacked.

(** [ABI.Pack] of a method call: the method's identifier, the first four bytes
    of the Keccak digest of its signature, and the arguments. *)
Definition ABI_Pack (Keccak256 : list Z -> list Z) (abi : ABI) (name : string) (vals : list GoVal)
    : outcome (list Z) :=
  match Methods abi !! name with
  | None => Err "method not found"
  | Some method =>
      arguments ← Pack (Inputs method) vals;
      Ok (take 4 (Keccak256 (string_bytes (Sig method))) ++ arguments)
  end.

Arguments two256 : simpl never.
Arguments U256Bytes : simpl never.
