(* ===== verification/AbiSpec.v ===== *)
(** * AbiSpec: correctness of the contract ABI codec

    Well-formed ABI types and the Go values of a type; packing such values
    succeeds and unpacking reads them back ([pack_roundtrip]); unpacking never
    panics, whatever bytes it is given. *)

From Stdlib Require Import Ascii.
From stdpp Require Import gmap sorting.
From stdpp Require Import base list numbers strings.
From S2P Require Import Prelude Text Abi.
Open Scope string_scope.
Open Scope list_scope.
Open Scope Z_scope.

(** ** Induction over ABI types *)

Section AType_induction.
Variable P : AType -> Prop.
Hypothesis HInt : forall n, P (IntTy n).
Hypothesis HUint : forall n, P (UintTy n).
Hypothesis HBool : P BoolTy.
Hypothesis HString : P StringTy.
Hypothesis HSlice : forall e, P e -> P (SliceTy e).
Hypothesis HArray : forall e n, P e -> P (ArrayTy e n).
Hypothesis HTuple : forall es raws names, Forall P es -> P (TupleTy es raws names).
Hypothesis HAddress : P AddressTy.
Hypothesis HFixedBytes : forall n, P (FixedBytesTy n).
Hypothesis HBytes : P BytesTy.
Hypothesis HHash : P HashTy.
Hypothesis HFixedPoint : P FixedPointTy.
Hypothesis HFunction : P FunctionTy.

Fixpoint AType_nested_ind (t : AType) : P t :=
  match t with
  | IntTy n => HInt n
  | UintTy n => HUint n
  | BoolTy => HBool
  | StringTy => HString
  | SliceTy e => HSlice e (AType_nested_ind e)
  | ArrayTy e n => HArray e n (AType_nested_ind e)
  | TupleTy es raws names =>
      HTuple es raws names
        ((fix go es : Forall P es :=
            match es with
            | [] => Forall_nil_2 P
            | e :: es => Forall_cons_2 P e es (AType_nested_ind e) (go es)
            end) es)
  | AddressTy => HAddress
  | FixedBytesTy n => HFixedBytes n
  | BytesTy => HBytes
  | HashTy => HHash
  | FixedPointTy => HFixedPoint
  | FunctionTy => HFunction
  end.
End AType_induction.

(** ** Well-formed types and typed values *)

Definition forallb2 {A B} (f : A -> B -> bool) : list A -> list B -> bool :=
  fix go l1 l2 :=
    match l1, l2 with
    | [], [] => true
    | x :: l1, y :: l2 => f x y && go l1 l2
    | _, _ => false
    end.

Definition nonempty (s : string) : bool := negb (bool_decide (s = "")).

(** Types that have an encoding that can be read back: static arrays and tuples
    take room, the fields of a tuple have distinct names. *)
Fixpoint wf_type (t : AType) : bool :=
  match t with
  | SliceTy e => wf_type e
  | ArrayTy e n => wf_type e && (if isDynamicType e then 0 <=? n else 1 <=? n)
  | TupleTy es raws names =>
      forallb wf_type es && negb (len es =? 0) && (length raws =? length es)%nat &&
      bool_decide (names = List.map ToCamelCase raws) && bool_decide (NoDup names) &&
      forallb nonempty names
  | FixedBytesTy n => (0 <=? n) && (n <=? 32)
  | HashTy | FixedPointTy => false
  | _ => true
  end.

Definition is_bytes (l : list GoVal) : bool :=
  forallb (fun v => match v with GUint b z => (b =? 8) && is_byte z | _ => false end) l.

Definition byte_vals (n : Z) (v : GoVal) : bool :=
  match v with GArray e l => type_eqb e (TUint 8) && (len l =? n) && is_bytes l | _ => false end.

(** The values of the Go type of an ABI type, numbers in their range. *)
Fixpoint has_type (t : AType) (v : GoVal) : bool :=
  match t, v with
  | IntTy size, GInt b z =>
      machine_width size && (b =? size) && (- 2 ^ (size - 1) <=? z) && (z <? 2 ^ (size - 1))
  | IntTy size, GBig (Some z) => negb (machine_width size) && (- 2 ^ 255 <=? z) && (z <? 2 ^ 255)
  | UintTy size, GUint b z => machine_width size && (b =? size) && (0 <=? z) && (z <? 2 ^ size)
  | UintTy size, GBig (Some z) => negb (machine_width size) && (0 <=? z) && (z <? 2 ^ 256)
  | BoolTy, GBool _ | StringTy, GString _ => true
  | SliceTy e, GSlice ty l => type_eqb ty (GetType e) && forallb (has_type e) l
  | ArrayTy e n, GArray ty l => type_eqb ty (GetType e) && (len l =? n) && forallb (has_type e) l
  | TupleTy es _ names, GStruct fields l =>
      bool_decide (fields = List.map untagged names) && forallb2 has_type es l
  | AddressTy, v => byte_vals 20 v
  | FixedBytesTy n, v => byte_vals n v
  | FunctionTy, v => byte_vals 24 v
  | BytesTy, GSlice ty l => type_eqb ty (TUint 8) && is_bytes l
  | _, _ => false
  end.

(** ** Lists *)

Lemma forallb2_Forall2 {A B} (f : A -> B -> bool) l1 l2 :
  forallb2 f l1 l2 = true <-> Forall2 (fun x y => f x y = true) l1 l2.
Proof.
  revert l2; induction l1 as [|x l1 IH]; intros [|y l2]; simpl; split; intros Hf;
    try done; try (by inversion Hf); try constructor.
  - by apply andb_true_iff in Hf as [? _].
  - apply IH. by apply andb_true_iff in Hf as [_ ?].
  - inversion Hf; subst. apply andb_true_iff. split; [done|]. by apply IH.
Qed.

Lemma forallb_Forall {A} (f : A -> bool) l : forallb f l = true <-> Forall (fun x => f x = true) l.
Proof. rewrite forallb_forall, Forall_forall. by setoid_rewrite list_elem_of_In. Qed.

(** ** Types *)

Lemma type_eqb_eq t u : type_eqb t u = true -> t = u.
Proof.
  revert t u. fix IH 1. intros t u.
  destruct t, u; simpl; intros Hb; try discriminate; try done;
    try (apply Z.eqb_eq in Hb; by subst); try (f_equal; by apply IH).
  - apply andb_true_iff in Hb as [Hn Ht]. apply Z.eqb_eq in Hn as ->. f_equal. by apply IH.
  - apply andb_true_iff in Hb as [Hf Ht]. apply bool_decide_eq_true in Hf as ->. f_equal.
    revert types0 Ht. induction types as [|t ts IHts]; intros [|u us] Ht; try discriminate; [done|].
    apply andb_true_iff in Ht as [H1 H2]. f_equal; [by apply IH|by apply IHts].
Qed.

Lemma type_eqb_refl t : type_eqb t t = true.
Proof.
  revert t. fix IH 1. intros t. destruct t; simpl; try done; try apply Z.eqb_refl; try apply IH.
  - by rewrite Z.eqb_refl, IH.
  - rewrite bool_decide_eq_true_2 by done. simpl.
    induction types as [|t ts IHts]; [done|]. simpl. by rewrite IH, IHts.
Qed.

Lemma sum_sizes_acc ts acc :
  List.fold_left (fun total e => total + getTypeSize e) ts acc = acc + sumZ getTypeSize ts.
Proof.
  revert acc; induction ts as [|t ts IH]; intros acc; simpl; [rewrite sumZ_nil; lia|].
  rewrite IH, sumZ_cons. lia.
Qed.

Lemma sum_sizes_eq ts : sum_sizes ts = sumZ getTypeSize ts.
Proof. unfold sum_sizes. rewrite sum_sizes_acc. lia. Qed.

Lemma array_size e n :
  getTypeSize (ArrayTy e n) = if isDynamicType e then 32 else n * getTypeSize e.
Proof.
  cbn [getTypeSize]. destruct (isDynamicType e) eqn:He; simpl; [done|].
  by destruct e.
Qed.

Lemma tuple_size es raws names :
  getTypeSize (TupleTy es raws names) =
  if isDynamicType (TupleTy es raws names) then 32 else sumZ getTypeSize es.
Proof.
  cbn [getTypeSize isDynamicType]. destruct (existsb _ es); simpl; [done|].
  rewrite sum_sizes_acc. lia.
Qed.

Lemma dynamic_size t : isDynamicType t = true -> getTypeSize t = 32.
Proof.
  destruct t; intros Hd; try done; [rewrite array_size; simpl in Hd|rewrite tuple_size]; by rewrite Hd.
Qed.

(** Sizes are multiples of a word; the sizes of well-formed types are positive. *)
Lemma size_words t : exists k, getTypeSize t = 32 * k /\ (wf_type t = true -> 1 <= k).
Proof.
  induction t as [| | | |e [k [Hk Hk1]]|e n [k [Hk Hk1]]|es raws names IH| | | | | |]
    using AType_nested_ind; try (exists 1; split; [done|lia]).
  - rewrite array_size. destruct (isDynamicType e) eqn:He; [exists 1; split; [done|lia]|].
    exists (n * k). split; [lia|]. simpl. rewrite He.
    intros [He' Hn]%andb_true_iff. apply Z.leb_le in Hn. specialize (Hk1 He'). nia.
  - rewrite tuple_size. destruct (isDynamicType _) eqn:Hd; [exists 1; split; [done|lia]|].
    clear Hd. assert (exists k, sumZ getTypeSize es = 32 * k /\
      (forallb wf_type es = true -> len es <= k)) as (k & Hk & Hk1).
    { clear raws names. induction IH as [|e es (k & Hk & Hk1) _ (j & Hj & Hj1)].
      - exists 0. split; [done|]. intros _. by rewrite (eq_refl : len [] = 0).
      - exists (k + j). rewrite sumZ_cons, len_cons. split; [lia|]. simpl.
        intros [? ?]%andb_true_iff. specialize (Hk1 ltac:(done)). specialize (Hj1 ltac:(done)). lia. }
    exists k. split; [done|]. simpl. rewrite !andb_true_iff. intros [[[[[He Hl] _] _] _] _].
    specialize (Hk1 He). apply negb_true_iff, Z.eqb_neq in Hl.
    pose proof (len_nonneg es). lia.
Qed.

Lemma virtual_args_eq t : virtual_args t = getTypeSize t / 32 - 1.
Proof.
  destruct t as [| | | | |e n|es raws names| | | | | |]; try done; unfold virtual_args;
    destruct (isDynamicType _) eqn:Hd; try done; by rewrite (dynamic_size _ Hd).
Qed.

(** ** Words *)

Lemma two256_pow : two256 = 256 ^ Z.of_nat 32.
Proof. reflexivity. Qed.

Lemma U256Bytes_len z : len (U256Bytes z) = 32.
Proof. unfold len, U256Bytes. by rewrite be_bytes_length. Qed.

Lemma U256Bytes_value z : be_value (U256Bytes z) = z mod two256.
Proof.
  unfold U256Bytes. rewrite be_value_bytes, <- two256_pow.
  by rewrite Z.mod_mod by (rewrite two256_pow; lia).
Qed.

Lemma U256Bytes_small z : 0 <= z < 2 ^ 63 -> be_value (U256Bytes z) = z.
Proof.
  intros Hz. rewrite U256Bytes_value. apply Z.mod_small.
  assert (2 ^ 63 < two256) by reflexivity. lia.
Qed.

Lemma drop_be_bytes n k z : (k <= n)%nat -> drop (n - k) (be_bytes n z) = be_bytes k z.
Proof.
  revert n z; induction k as [|k IH]; intros n z Hk.
  - rewrite Nat.sub_0_r. apply drop_ge. by rewrite be_bytes_length.
  - destruct n as [|n]; [lia|]. cbn [be_bytes]. rewrite drop_app_le by (rewrite be_bytes_length; lia).
    f_equal. apply IH. lia.
Qed.

(** ** Heads and tails *)

(** A value with its type and its encoding. *)
Record Part := mkPart { PType : AType; PVal : GoVal; PEnc : list Z }.

Definition part_packed (p : Part) : bool * outcome (list Z) := (isDynamicType (PType p), Ok (PEnc p)).

Fixpoint heads (off : Z) (ps : list Part) : list Z :=
  match ps with
  | [] => []
  | p :: ps =>
      if isDynamicType (PType p) then U256Bytes off ++ heads (off + len (PEnc p)) ps
      else PEnc p ++ heads off ps
  end.

Fixpoint tails (ps : list Part) : list Z :=
  match ps with
  | [] => []
  | p :: ps => (if isDynamicType (PType p) then PEnc p else []) ++ tails ps
  end.

Definition part_size (p : Part) : Z := getTypeSize (PType p).

Lemma pack_loop_eq ps off ret tail :
  pack_loop (List.map part_packed ps) off ret tail = Ok (ret ++ heads off ps ++ tail ++ tails ps).
Proof.
  revert off ret tail; induction ps as [|p ps IH]; intros off ret tail; cbn [heads tails].
  - simpl. by rewrite app_nil_r.
  - cbn [List.map pack_loop part_packed]. unfold part_packed at 1.
    cbn [mbind outcome_bind]. destruct (isDynamicType _); rewrite IH; by rewrite <- !app_assoc.
Qed.

(** The bytes [enc] read back as [v]: a static value where it stands, a dynamic
    one where a word holds its offset. *)
Definition decodes (t : AType) (v : GoVal) (enc : list Z) : Prop :=
  if isDynamicType t then
    forall index pre post,
      slice (pre ++ enc ++ post) index (index + 32) = Ok (U256Bytes (len pre)) ->
      len (pre ++ enc ++ post) < 2 ^ 63 ->
      toGoType index t (pre ++ enc ++ post) = Ok v
  else
    len enc = getTypeSize t /\
    forall pre post,
      len (pre ++ enc ++ post) < 2 ^ 63 -> toGoType (len pre) t (pre ++ enc ++ post) = Ok v.

Definition part_ok (p : Part) : Prop := decodes (PType p) (PVal p) (PEnc p).

(** The parts are read one after the other from position [i]. *)
Fixpoint reads (out : list Z) (i : Z) (ps : list Part) : Prop :=
  match ps with
  | [] => True
  | p :: ps => toGoType i (PType p) out = Ok (PVal p) /\ reads out (i + part_size p) ps
  end.

Lemma heads_len off ps : Forall part_ok ps -> len (heads off ps) = sumZ part_size ps.
Proof.
  intros Hps. revert off; induction Hps as [|p ps Hp _ IH]; intros off; [done|].
  cbn [heads]. rewrite sumZ_cons. unfold part_ok, decodes in Hp.
  destruct (isDynamicType _) eqn:Hd; rewrite len_app, IH.
  - rewrite U256Bytes_len. unfold part_size at 2. rewrite dynamic_size by done. lia.
  - destruct Hp as [-> _]. unfold part_size at 2. lia.
Qed.

Lemma parts_read ps off ret tail post :
  Forall part_ok ps ->
  off = len ret + sumZ part_size ps + len tail ->
  len (ret ++ heads off ps ++ tail ++ tails ps ++ post) < 2 ^ 63 ->
  reads (ret ++ heads off ps ++ tail ++ tails ps ++ post) (len ret) ps.
Proof.
  intros Hps. revert off ret tail; induction Hps as [|p ps Hp Hps IH]; intros off ret tail Hoff Hlen; [done|].
  rewrite sumZ_cons in Hoff. assert (Hp' := Hp). unfold part_ok, decodes in Hp'. cbn [reads heads tails] in *.
  destruct (isDynamicType (PType p)) eqn:Hd.
  - assert (Hsz : part_size p = 32) by (by apply dynamic_size). split.
    + assert (Hsplit : ret ++ (U256Bytes off ++ heads (off + len (PEnc p)) ps) ++ tail ++ (PEnc p ++ tails ps) ++ post =
        (ret ++ U256Bytes off ++ heads (off + len (PEnc p)) ps ++ tail) ++ PEnc p ++ (tails ps ++ post))
        by (by rewrite <- !app_assoc).
      rewrite Hsplit in Hlen |- *. apply Hp'; [|done].
      assert (Hpre : len (ret ++ U256Bytes off ++ heads (off + len (PEnc p)) ps ++ tail) = off)
        by (rewrite !len_app, U256Bytes_len, heads_len by done; lia).
      rewrite Hpre, <- !app_assoc. apply slice_app; [done|]. by rewrite U256Bytes_len.
    + assert (Hsplit : ret ++ (U256Bytes off ++ heads (off + len (PEnc p)) ps) ++ tail ++ (PEnc p ++ tails ps) ++ post =
        (ret ++ U256Bytes off) ++ heads (off + len (PEnc p)) ps ++ (tail ++ PEnc p) ++ tails ps ++ post)
        by (by rewrite <- !app_assoc).
      rewrite Hsplit in Hlen |- *. rewrite Hsz.
      replace (len ret + 32) with (len (ret ++ U256Bytes off)) by (rewrite len_app, U256Bytes_len; lia).
      apply IH; [|done]. rewrite !len_app, U256Bytes_len. lia.
  - destruct Hp' as [Hl Hp']. split.
    + rewrite <- app_assoc in Hlen |- *. apply Hp', Hlen.
    + assert (Hsplit : ret ++ (PEnc p ++ heads off ps) ++ tail ++ ([] ++ tails ps) ++ post =
        (ret ++ PEnc p) ++ heads off ps ++ tail ++ tails ps ++ post) by (by rewrite <- !app_assoc).
      rewrite Hsplit in Hlen |- *.
      replace (len ret + part_size p) with (len (ret ++ PEnc p)) by (rewrite len_app, Hl; done).
      apply IH; [|done]. rewrite len_app, Hl. unfold part_size in Hoff at 1. lia.
Qed.

(** What a sequence of parts packs to is read back from its start. *)
Lemma packed_read ps off post :
  Forall part_ok ps -> off = sumZ part_size ps -> len ((heads off ps ++ tails ps) ++ post) < 2 ^ 63 ->
  reads ((heads off ps ++ tails ps) ++ post) 0 ps.
Proof.
  intros Hps Hoff Hlen. rewrite <- app_assoc in Hlen |- *.
  apply (parts_read ps off [] [] post); [done|unfold len; simpl; lia|done].
Qed.

(** Offsets do not matter when no part is dynamic. *)
Lemma heads_static off off' ps :
  Forall (fun p => isDynamicType (PType p) = false) ps -> heads off ps = heads off' ps.
Proof. induction 1 as [|p ps Hp _ IH]; simpl; [done|]. by rewrite Hp, IH. Qed.

Lemma tails_static ps : Forall (fun p => isDynamicType (PType p) = false) ps -> tails ps = [].
Proof. induction 1 as [|p ps Hp _ IH]; simpl; [done|]. by rewrite Hp, IH. Qed.

Lemma unpack_loop_reads out ps i index va :
  reads out i ps -> i = (index + va) * 32 ->
  unpack_loop (List.map (fun p => (PType p, fun i => toGoType i (PType p) out)) ps) index va =
  Ok (List.map PVal ps).
Proof.
  revert i index va; induction ps as [|p ps IH]; intros i index va; simpl; [done|].
  intros [Hp Hps] ->. rewrite Hp. simpl.
  rewrite (IH _ (index + 1) (va + virtual_args (PType p)) Hps); [done|].
  rewrite virtual_args_eq. unfold part_size. destruct (size_words (PType p)) as (k & -> & _).
  rewrite (Z.mul_comm 32 k), Z.div_mul by lia. lia.
Qed.

Lemma unpack_each_reads out e ps i :
  reads out i ps -> Forall (fun p => PType p = e) ps ->
  unpack_each (fun i => toGoType i e out) (getTypeSize e) (length ps) i = Ok (List.map PVal ps).
Proof.
  intros Hr He. revert i Hr; induction He as [|p ps He _ IH]; intros i; simpl; [done|].
  intros [Hp Hps]. rewrite He in Hp. rewrite Hp. simpl.
  unfold part_size in Hps. rewrite He in Hps. by rewrite IH.
Qed.

(** ** Elementary types *)

(** The types whose encoding is one word, read by [read_word]. *)
Definition read_word (t : AType) (w : list Z) : outcome GoVal :=
  match t with
  | IntTy size => Ok (ReadInteger false size w)
  | UintTy size => Ok (ReadInteger true size w)
  | BoolTy => readBool w
  | AddressTy => Ok (byte_array (drop 12 w))
  | FixedBytesTy size => ReadFixedBytes size w
  | FunctionTy => readFunctionType w
  | _ => Err ""
  end.

Definition is_word (t : AType) : bool :=
  match t with
  | IntTy _ | UintTy _ | BoolTy | AddressTy | FixedBytesTy _ | FunctionTy => true
  | _ => false
  end.

Lemma word_decodes t v w :
  is_word t = true -> len w = 32 -> read_word t w = Ok v -> decodes t v w.
Proof.
  intros Ht Hw Hr. unfold decodes.
  replace (isDynamicType t) with false by (by destruct t). split; [by destruct t|].
  intros pre post _.
  assert (Hs : slice (pre ++ w ++ post) (len pre) (len pre + 32) = Ok w)
    by (apply slice_app; [done|by rewrite Hw]).
  assert (Hl : (len (pre ++ w ++ post) <? len pre + 32) = false).
  { apply Z.ltb_ge. rewrite !len_app, Hw. pose proof (len_nonneg post). lia. }
  destruct t; try discriminate; cbn [toGoType]; rewrite Hl, Hs; exact Hr.
Qed.

Lemma mod_mod_pow z a b : 0 <= a <= b -> (z mod 2 ^ b) mod 2 ^ a = z mod 2 ^ a.
Proof.
  intros Hab. apply Z.mod_mod_divide.
  exists (2 ^ (b - a)). rewrite <- Z.pow_add_r by lia. f_equal. lia.
Qed.

Lemma machine_widths size : machine_width size = true -> size = 8 \/ size = 16 \/ size = 32 \/ size = 64.
Proof. unfold machine_width. rewrite !orb_true_iff, !Z.eqb_eq. tauto. Qed.

Lemma low_bits_word size z : machine_width size = true -> low_bits size (U256Bytes z) = z mod 2 ^ size.
Proof.
  intros Hs%machine_widths. unfold low_bits, U256Bytes. rewrite be_bytes_length.
  rewrite drop_be_bytes by (destruct Hs as [->|[->|[->| ->]]]; vm_compute; lia).
  rewrite be_value_bytes.
  replace (256 ^ Z.of_nat (Z.to_nat (size / 8))) with (2 ^ size) by (by destruct Hs as [->|[->|[->| ->]]]).
  apply mod_mod_pow. lia.
Qed.

Lemma signed_mod size z :
  0 < size -> - 2 ^ (size - 1) <= z < 2 ^ (size - 1) -> signed size (z mod 2 ^ size) = z.
Proof.
  intros Hs Hz. assert (Hp : 2 ^ size = 2 * 2 ^ (size - 1)).
  { rewrite <- Z.pow_succ_r by lia. f_equal. lia. }
  unfold signed. destruct (Z.le_gt_cases 0 z) as [Hz0|Hz0].
  - rewrite Z.mod_small by lia. by rewrite (proj2 (Z.ltb_lt _ _)) by lia.
  - replace (z mod 2 ^ size) with (z + 2 ^ size)
      by (rewrite <- (Z.mod_small (z + 2 ^ size) (2 ^ size)) by lia;
          by rewrite <- (Z.mul_1_l (2 ^ size)) at 1; rewrite Z.mod_add by lia).
    rewrite (proj2 (Z.ltb_ge _ _)) by lia. lia.
Qed.

(** [ReadInteger] on 256 bits: bit 255 is the sign. *)
Lemma read_int256 z :
  - 2 ^ 255 <= z < 2 ^ 255 ->
  (if Z.testbit (z mod 2 ^ 256) 255 then - ((two256 - 1) + - (z mod 2 ^ 256) + 1) else z mod 2 ^ 256) = z.
Proof.
  intros Hz. rewrite <- (signed_mod 256 z) at 4 by lia. unfold signed, two256.
  assert (0 <= z mod 2 ^ 256 < 2 ^ 256) by (apply Z.mod_pos_bound; lia).
  set (x := z mod 2 ^ 256) in *.
  rewrite Z.testbit_odd, Z.shiftr_div_pow2 by lia. change (256 - 1) with 255.
  destruct (Z.ltb_spec x (2 ^ 255)).
  - rewrite Z.div_small by lia. done.
  - replace (x / 2 ^ 255) with 1; [simpl Z.odd; cbn iota; lia|].
    apply (Z.div_unique _ _ _ (x - 2 ^ 255)); lia.
Qed.

Lemma is_bytes_val l : is_bytes l = true -> List.map val_byte (List.map byte_val l) = l.
Proof.
  induction l as [|v l IH]; [done|]. simpl. intros [Hv Hl]%andb_true_iff. rewrite (IH Hl).
  destruct v; try discriminate. apply andb_true_iff in Hv as [->%Z.eqb_eq _]. done.
Qed.

Lemma len_map {A B} (f : A -> B) l : len (List.map f l) = len l.
Proof. unfold len. by rewrite List.length_map. Qed.

Lemma byte_vals_inv n v :
  byte_vals n v = true -> exists l, v = GArray (TUint 8) l /\ len l = n /\ is_bytes l = true.
Proof.
  destruct v as [| | | | | |e l| |]; try discriminate. simpl. rewrite !andb_true_iff.
  intros [[->%type_eqb_eq Hl%Z.eqb_eq] Hb]. eauto.
Qed.

Lemma has_type_indirect t v : has_type t v = true -> indirect v = Ok v.
Proof. destruct t, v as [| | |[]| | | | |]; done. Qed.

Lemma num_decodes t v z :
  match t with IntTy _ | UintTy _ => True | _ => False end ->
  indirect v = Ok v -> typeCheck t v = Ok tt -> packNum v = Ok (U256Bytes z) ->
  read_word t (U256Bytes z) = Ok v ->
  exists enc, pack t v = Ok enc /\ decodes t v enc.
Proof.
  intros Ht Hi Hc Hn Hr. exists (U256Bytes z). split.
  - destruct t; try done; cbn [pack]; rewrite Hi; cbn [mbind outcome_bind]; by rewrite Hc.
  - apply word_decodes; [by destruct t|apply U256Bytes_len|done].
Qed.

Lemma int_check (unsigned : bool) size v :
  (machine_width size = true -> KindOf (TypeOf v) = if unsigned then KUint size else KInt size) ->
  (machine_width size = false -> KindOf (TypeOf v) = KPtr) ->
  typeCheck (if unsigned then UintTy size else IntTy size) v = Ok tt.
Proof.
  intros Hm Hb. unfold typeCheck.
  replace (KindOf (GetType (if unsigned then UintTy size else IntTy size))) with (KindOf (TypeOf v));
    [by destruct unsigned; rewrite bool_decide_eq_true_2|].
  destruct unsigned; simpl; unfold reflectIntType; destruct (machine_width size);
    rewrite ?Hm, ?Hb by done; done.
Qed.

Lemma int_decodes size v :
  has_type (IntTy size) v = true -> exists enc, pack (IntTy size) v = Ok enc /\ decodes (IntTy size) v enc.
Proof.
  intros Hv. assert (Hi := has_type_indirect _ _ Hv).
  destruct v as [|b z| |[z|]| | | | |]; simpl in Hv; try discriminate; repeat rewrite andb_true_iff in Hv;
    apply (num_decodes (IntTy size) _ z); try done.
  - destruct Hv as [[[Hw ->%Z.eqb_eq] _] _]. apply (int_check false); [done|congruence].
  - destruct Hv as [[[Hw ->%Z.eqb_eq] H1%Z.leb_le] H2%Z.ltb_lt]. simpl. unfold ReadInteger.
    rewrite Hw, low_bits_word by done. rewrite signed_mod; [done| |done].
    destruct (machine_widths _ Hw) as [->|[->|[->| ->]]]; lia.
  - destruct Hv as [[Hw%negb_true_iff _] _]. apply (int_check false); [congruence|done].
  - destruct Hv as [[Hw%negb_true_iff H1%Z.leb_le] H2%Z.ltb_lt]. simpl. unfold ReadInteger.
    rewrite Hw, U256Bytes_value. change two256 with (2 ^ 256) at 1 3 4. by rewrite read_int256.
Qed.

Lemma uint_decodes size v :
  has_type (UintTy size) v = true -> exists enc, pack (UintTy size) v = Ok enc /\ decodes (UintTy size) v enc.
Proof.
  intros Hv. assert (Hi := has_type_indirect _ _ Hv).
  destruct v as [| |b z|[z|]| | | | |]; simpl in Hv; try discriminate; repeat rewrite andb_true_iff in Hv;
    apply (num_decodes (UintTy size) _ z); try done.
  - destruct Hv as [[[Hw ->%Z.eqb_eq] _] _]. apply (int_check true); [done|congruence].
  - destruct Hv as [[[Hw ->%Z.eqb_eq] H1%Z.leb_le] H2%Z.ltb_lt]. simpl. unfold ReadInteger.
    by rewrite Hw, low_bits_word, Z.mod_small.
  - destruct Hv as [[Hw%negb_true_iff _] _]. apply (int_check true); [congruence|done].
  - destruct Hv as [[Hw%negb_true_iff H1%Z.leb_le] H2%Z.ltb_lt]. simpl. unfold ReadInteger.
    by rewrite Hw, U256Bytes_value, Z.mod_small.
Qed.

Lemma word_packs t v w :
  is_word t = true -> indirect v = Ok v -> typeCheck t v = Ok tt -> packElement t v = Ok w ->
  len w = 32 -> read_word t w = Ok v ->
  exists enc, pack t v = Ok enc /\ decodes t v enc.
Proof.
  intros Ht Hi Hc Hp Hw Hr. exists w. split; [|by apply word_decodes].
  destruct t; try discriminate; cbn [pack]; rewrite Hi; cbn [mbind outcome_bind]; by rewrite Hc.
Qed.

Lemma bool_decodes v :
  has_type BoolTy v = true -> exists enc, pack BoolTy v = Ok enc /\ decodes BoolTy v enc.
Proof. intros Hv. destruct v as [[]| | | | | | | |]; try discriminate; by eapply word_packs. Qed.

(** Byte arrays: addresses, fixed bytes, functions. *)
Lemma byte_array_map l : is_bytes l = true -> byte_array (List.map byte_val l) = GArray (TUint 8) l.
Proof. intros Hl. unfold byte_array. by rewrite is_bytes_val. Qed.

Lemma drop_pad n l : len l = 32 - n -> 0 <= n <= 32 -> drop (Z.to_nat n) (LeftPadBytes l 32) = l.
Proof.
  unfold LeftPadBytes, len. intros Hl Hn.
  replace (Z.to_nat n) with (length (replicate (Z.to_nat 32 - length l) 0)) by (rewrite length_replicate; lia).
  apply drop_app_length.
Qed.

Lemma take_pad l n : len l = n -> take (Z.to_nat n) (RightPadBytes l 32) = l.
Proof. intros <-. unfold RightPadBytes, len. rewrite Nat2Z.id. apply take_app_length. Qed.

Lemma be_value_zeros n : be_value (replicate n 0) = 0.
Proof.
  induction n as [|n IH]; [done|].
  replace (S n) with (n + 1)%nat by lia. rewrite replicate_add. simpl. by rewrite be_value_snoc, IH.
Qed.

Lemma address_decodes v :
  has_type AddressTy v = true -> exists enc, pack AddressTy v = Ok enc /\ decodes AddressTy v enc.
Proof.
  intros Hv. assert (Hi := has_type_indirect _ _ Hv). apply byte_vals_inv in Hv as (l & -> & Hl & Hb).
  apply (word_packs _ _ (LeftPadBytes (List.map byte_val l) 32)); try done.
  - apply LeftPadBytes_length; rewrite ?len_map; lia.
  - simpl. change 12%nat with (Z.to_nat 12). by rewrite drop_pad, byte_array_map by (rewrite ?len_map; lia || done).
Qed.

Lemma fixed_decodes n v :
  0 <= n <= 32 -> has_type (FixedBytesTy n) v = true ->
  exists enc, pack (FixedBytesTy n) v = Ok enc /\ decodes (FixedBytesTy n) v enc.
Proof.
  intros Hn Hv. assert (Hi := has_type_indirect _ _ Hv). apply byte_vals_inv in Hv as (l & -> & Hl & Hb).
  assert (Hw : len (RightPadBytes (List.map byte_val l) 32) = 32)
    by (apply RightPadBytes_length; rewrite ?len_map; lia).
  apply (word_packs _ _ (RightPadBytes (List.map byte_val l) 32)); try done.
  - simpl. by rewrite Hl, Z.eqb_refl.
  - cbn [read_word]. unfold ReadFixedBytes, slice. rewrite Hw.
    rewrite (proj2 (Z.leb_le 0 n)), (proj2 (Z.leb_le n 32)) by lia.
    change (0 <=? 0) with true. cbn [andb mbind outcome_bind]. rewrite drop_0, Z.sub_0_r, take_pad, byte_array_map by (rewrite ?len_map; done). done.
Qed.

Lemma function_decodes v :
  has_type FunctionTy v = true -> exists enc, pack FunctionTy v = Ok enc /\ decodes FunctionTy v enc.
Proof.
  intros Hv. assert (Hi := has_type_indirect _ _ Hv). apply byte_vals_inv in Hv as (l & -> & Hl & Hb).
  assert (Hm : length (List.map byte_val l) = 24%nat) by (unfold len in Hl; rewrite List.length_map; lia).
  apply (word_packs _ _ (RightPadBytes (List.map byte_val l) 32)); try done.
  - apply RightPadBytes_length; rewrite ?len_map; lia.
  - cbn [read_word]. unfold readFunctionType.
    replace (drop 24 (RightPadBytes (List.map byte_val l) 32)) with (replicate 8 0)
      by (unfold RightPadBytes; by rewrite drop_app_length', Hm).
    rewrite be_value_zeros. change 24%nat with (Z.to_nat 24).
    by rewrite take_pad, byte_array_map by (rewrite ?len_map; done).
Qed.

(** ** Strings and bytes *)

(** A length word at offset [len pre] with that many bytes after it. *)
Lemma length_prefix index pre n body post :
  slice (pre ++ (U256Bytes n ++ body) ++ post) index (index + 32) = Ok (U256Bytes (len pre)) ->
  len (pre ++ (U256Bytes n ++ body) ++ post) < 2 ^ 63 -> 0 <= n <= len body ->
  lengthPrefixPointsTo index (pre ++ (U256Bytes n ++ body) ++ post) = Ok (len pre + 32, n).
Proof.
  intros Hs Hlen Hn. pose proof (len_nonneg pre). pose proof (len_nonneg post).
  assert (Hl : len (pre ++ (U256Bytes n ++ body) ++ post) = len pre + (32 + len body) + len post)
    by (rewrite !len_app, U256Bytes_len; lia).
  unfold lengthPrefixPointsTo. rewrite Hs. cbn [mbind outcome_bind].
  rewrite U256Bytes_small by lia. rewrite Hl in Hlen |- *.
  rewrite (proj2 (Z.ltb_ge _ _)), (proj2 (Z.leb_gt _ _)) by lia.
  rewrite <- app_assoc, slice_app with (l2 := U256Bytes n) by (rewrite ?U256Bytes_len; lia).
  cbn [mbind outcome_bind]. rewrite U256Bytes_small by lia.
  rewrite (proj2 (Z.leb_gt _ _)), (proj2 (Z.ltb_ge _ _)) by lia. done.
Qed.

(** The word test of [toGoType] passes when the word can be read. *)
Lemma slice_room {A} (l w : list A) a b : slice l a b = Ok w -> 0 <= a <= b /\ b <= len l.
Proof. unfold slice. destruct (_ && _) eqn:Hc; [|done]. rewrite !andb_true_iff, !Z.leb_le in Hc. lia. Qed.

Lemma padded_bytes bytes index pre post :
  let enc := packBytesSlice bytes (len bytes) in
  slice (pre ++ enc ++ post) index (index + 32) = Ok (U256Bytes (len pre)) ->
  len (pre ++ enc ++ post) < 2 ^ 63 ->
  lengthPrefixPointsTo index (pre ++ enc ++ post) = Ok (len pre + 32, len bytes) /\
  slice (pre ++ enc ++ post) (len pre + 32) (len pre + 32 + len bytes) = Ok bytes.
Proof.
  intros enc Hs Hlen. pose proof (len_nonneg bytes).
  unfold packBytesSlice in enc. subst enc. unfold RightPadBytes in *. split.
  - apply length_prefix; [done|done|]. rewrite len_app. pose proof (len_nonneg (replicate
      (Z.to_nat ((len bytes + 31) / 32 * 32) - length bytes) 0)). lia.
  - rewrite <- !app_assoc, (app_assoc pre).
    apply slice_app; rewrite ?len_app, ?U256Bytes_len; lia.
Qed.

Lemma string_decodes v :
  has_type StringTy v = true -> exists enc, pack StringTy v = Ok enc /\ decodes StringTy v enc.
Proof.
  destruct v as [| | | |s| | | |]; try discriminate. intros _. eexists. split; [reflexivity|].
  intros index pre post Hs Hlen. assert (Hr := slice_room _ _ _ _ Hs).
  destruct (padded_bytes _ _ _ _ Hs Hlen) as [H1 H2]. cbn [toGoType].
  rewrite (proj2 (Z.ltb_ge _ _)), H1 by lia. cbn [mbind outcome_bind]. rewrite H2.
  cbn [mbind outcome_bind]. by rewrite bytes_string_bytes.
Qed.

Lemma bytes_decodes v :
  has_type BytesTy v = true -> exists enc, pack BytesTy v = Ok enc /\ decodes BytesTy v enc.
Proof.
  destruct v as [| | | | |e l| | |]; try discriminate. simpl.
  intros [->%type_eqb_eq Hl]%andb_true_iff. eexists. split; [reflexivity|].
  intros index pre post Hs Hlen. assert (Hr := slice_room _ _ _ _ Hs).
  destruct (padded_bytes _ _ _ _ Hs Hlen) as [H1 H2]. cbn [toGoType].
  rewrite (proj2 (Z.ltb_ge _ _)), H1 by lia. cbn [mbind outcome_bind]. rewrite H2.
  cbn [mbind outcome_bind]. by rewrite is_bytes_val.
Qed.

(** ** Slices and arrays *)

Definition packs (t : AType) : Prop :=
  forall v, has_type t v = true -> exists enc, pack t v = Ok enc /\ decodes t v enc.

Lemma sliceTypeCheck_ok t v :
  match t with SliceTy _ | ArrayTy _ _ => True | _ => False end ->
  has_type t v = true -> sliceTypeCheck t v = Ok tt.
Proof.
  revert v; induction t as [| | | |e IH|e n IH| | | | | | |] using AType_nested_ind; intros v Ht Hv; try done;
    (destruct v as [| | | | |ty l|ty l| |]; try discriminate); simpl in Hv; repeat rewrite andb_true_iff in Hv.
  - destruct Hv as [->%type_eqb_eq Hl]. cbn [sliceTypeCheck elements].
    rewrite bool_decide_eq_true_2 by done. destruct l as [|v0 l]; [by destruct e|].
    simpl in Hl. apply andb_true_iff in Hl as [H0 _]. destruct e; try done; by apply IH.
  - destruct Hv as [[->%type_eqb_eq Hn] Hl]. cbn [sliceTypeCheck elements]. rewrite Hn. cbn [negb].
    rewrite bool_decide_eq_true_2 by done. destruct l as [|v0 l]; [by destruct e|].
    simpl in Hl. apply andb_true_iff in Hl as [H0 _]. destruct e; try done; by apply IH.
Qed.

Lemma typed_parts e l :
  packs e -> forallb (has_type e) l = true ->
  exists ps, List.map PVal ps = l /\ Forall (fun p => PType p = e) ps /\ Forall part_ok ps /\
    List.map (fun x => (isDynamicType e, pack e x)) l = List.map part_packed ps.
Proof.
  intros He. induction l as [|v l IH]; simpl; [by exists []|].
  intros [Hv Hl]%andb_true_iff. destruct (IH Hl) as (ps & <- & Ht & Hok & Hp).
  destruct (He v Hv) as (enc & Hpack & Hdec).
  exists (mkPart e v enc :: ps). simpl. rewrite Hpack, Hp. by repeat constructor.
Qed.

Lemma same_sizes e ps :
  Forall (fun p => PType p = e) ps -> sumZ part_size ps = getTypeSize e * len ps.
Proof.
  induction 1 as [|p ps Hp _ IH]; [unfold len; simpl; rewrite sumZ_nil; lia|].
  rewrite sumZ_cons, len_cons, IH. unfold part_size. rewrite Hp. lia.
Qed.

Lemma forEachUnpack_parts e ps post :
  wf_type e = true -> Forall (fun p => PType p = e) ps -> Forall part_ok ps ->
  let off := if isDynamicType e then getTypeSize e * len ps else 0 in
  let out := (heads off ps ++ tails ps) ++ post in
  len out < 2 ^ 63 ->
  forEachUnpack (fun i => toGoType i e out) e out (len ps) = Ok (List.map PVal ps).
Proof.
  intros Hwf Ht Hok off out Hlen. assert (Hsum := same_sizes e ps Ht).
  assert (Hheads : heads off ps = heads (sumZ part_size ps) ps).
  { subst off. destruct (isDynamicType e) eqn:Hd; [by rewrite Hsum|].
    apply heads_static. eapply Forall_impl; [exact Ht|]. by intros p ->. }
  assert (Hout : out = (heads (sumZ part_size ps) ps ++ tails ps) ++ post) by (subst out; by rewrite Hheads).
  clearbody out off. clear Hheads. subst out.
  destruct (size_words e) as (k & Hk & Hk1). specialize (Hk1 Hwf).
  pose proof (len_nonneg ps). unfold forEachUnpack.
  assert (Hroom : 32 * len ps <= len ((heads (sumZ part_size ps) ps ++ tails ps) ++ post)).
  { rewrite !len_app, heads_len, Hsum, Hk by done.
    pose proof (len_nonneg (tails ps)). pose proof (len_nonneg post). nia. }
  rewrite (proj2 (Z.ltb_ge _ _)), (proj2 (Z.ltb_ge _ _)) by lia.
  replace (Z.to_nat (len ps)) with (length ps) by (unfold len; lia).
  apply unpack_each_reads; [|done]. by apply packed_read.
Qed.

Lemma pack_elements t v ty l e :
  match t with SliceTy e' | ArrayTy e' _ => e' = e | _ => False end ->
  has_type t v = true -> elements v = Some (ty, l) ->
  pack t v = pack_loop (List.map (fun x => (isDynamicType e, pack e x)) l)
               (if isDynamicType e then getTypeSize e * len l else 0)
               (if requiresLengthPrefix t then U256Bytes (len l) else []) [].
Proof.
  intros Ht Hv Hl. destruct t; try done; subst; cbn [pack];
    rewrite (has_type_indirect _ _ Hv); cbn [mbind outcome_bind typeCheck];
    rewrite sliceTypeCheck_ok by done; cbn [mbind outcome_bind]; by rewrite Hl.
Qed.

Lemma slice_decodes e : wf_type e = true -> packs e -> packs (SliceTy e).
Proof.
  intros Hwf He v Hv. assert (Hv' := Hv).
  destruct v as [| | | | |ty l| | |]; try discriminate. simpl in Hv'.
  apply andb_true_iff in Hv' as [->%type_eqb_eq Hl].
  destruct (typed_parts e l He Hl) as (ps & <- & Ht & Hok & Hp).
  rewrite (pack_elements _ _ (GetType e) (List.map PVal ps) e) by done.
  rewrite Hp, pack_loop_eq, len_map. eexists. split; [reflexivity|].
  cbn [app requiresLengthPrefix].
  intros index pre post Hs Hlen. assert (Hr := slice_room _ _ _ _ Hs).
  cbn [toGoType]. rewrite (proj2 (Z.ltb_ge _ _)) by lia.
  assert (Hbody : len ps <= len (heads (if isDynamicType e then getTypeSize e * len ps else 0) ps ++ tails ps)).
  { rewrite len_app, heads_len, (same_sizes e) by done.
    destruct (size_words e) as (k & -> & Hk). specialize (Hk Hwf).
    pose proof (len_nonneg (tails ps)). pose proof (len_nonneg ps). nia. }
  rewrite length_prefix; [|done|done|pose proof (len_nonneg ps); lia].
  cbn [mbind outcome_bind].
  rewrite <- app_assoc, app_assoc, slice_from_app by (rewrite len_app, U256Bytes_len; lia).
  cbn [mbind outcome_bind]. rewrite forEachUnpack_parts; [done|done|done|done|].
  rewrite !len_app, U256Bytes_len in Hlen. rewrite !len_app. pose proof (len_nonneg pre). lia.
Qed.

Lemma array_decodes e n : wf_type (ArrayTy e n) = true -> packs e -> packs (ArrayTy e n).
Proof.
  simpl. intros [Hwf Hn]%andb_true_iff He v Hv. assert (Hv' := Hv).
  destruct v as [| | | | | |ty l| |]; try discriminate. simpl in Hv'. rewrite !andb_true_iff in Hv'.
  destruct Hv' as [[->%type_eqb_eq <-%Z.eqb_eq] Hl].
  destruct (typed_parts e l He Hl) as (ps & <- & Ht & Hok & Hp).
  rewrite (pack_elements _ _ (GetType e) (List.map PVal ps) e) by done.
  rewrite Hp, pack_loop_eq, len_map. eexists. split; [reflexivity|].
  cbn [app requiresLengthPrefix]. unfold decodes. rewrite array_size. cbn [isDynamicType].
  assert (Hin : forall pre post, len (pre ++ (heads (if isDynamicType e then getTypeSize e * len ps else 0) ps
      ++ tails ps) ++ post) < 2 ^ 63 ->
    len ((heads (if isDynamicType e then getTypeSize e * len ps else 0) ps ++ tails ps) ++ post) < 2 ^ 63).
  { intros pre post Hlen. rewrite len_app in Hlen. pose proof (len_nonneg pre). lia. }
  assert (Heach := fun post => forEachUnpack_parts e ps post Hwf Ht Hok). cbn zeta in Heach.
  destruct (isDynamicType e) eqn:Hd.
  - intros index pre post Hs Hlen. assert (Hr := slice_room _ _ _ _ Hs).
    cbn [toGoType]. rewrite (proj2 (Z.ltb_ge _ _)), Hs by lia. cbn [mbind outcome_bind]. rewrite Hd.
    replace (be_value (drop 24 (U256Bytes (len pre)))) with (len pre).
    2: { unfold U256Bytes. change 24%nat with (32 - 8)%nat. rewrite drop_be_bytes, be_value_bytes by lia.
         pose proof (len_nonneg pre). rewrite !len_app in Hlen.
         pose proof (len_nonneg (heads (getTypeSize e * len ps) ps)). pose proof (len_nonneg (tails ps)).
         pose proof (len_nonneg post). change two256 with (2 ^ 256). change (256 ^ Z.of_nat 8) with (2 ^ 64).
         rewrite mod_mod_pow by lia. rewrite Z.mod_small; lia. }
    rewrite (proj2 (Z.ltb_ge _ _)) by (rewrite len_app; pose proof (len_nonneg ((heads (getTypeSize e * len ps) ps ++ tails ps) ++ post)); lia).
    rewrite slice_from_app by done. cbn [mbind outcome_bind]. by rewrite Heach by (by eapply Hin).
  - split.
    + rewrite len_app, heads_len, (same_sizes e), tails_static by (done || (eapply Forall_impl; [exact Ht|]; by intros p ->)).
      unfold len; simpl. lia.
    + intros pre post Hlen. cbn [toGoType].
      destruct (size_words e) as (k & Hk & Hk1). specialize (Hk1 Hwf). apply Z.leb_le in Hn.
      rewrite len_map in Hn.
      assert (Hroom : 32 <= len (heads 0 ps)) by (rewrite heads_len, (same_sizes e), Hk by done; nia).
      assert (Htot : len (pre ++ (heads 0 ps ++ tails ps) ++ post) =
        len pre + (len (heads 0 ps) + len (tails ps)) + len post) by (rewrite !len_app; lia).
      pose proof (len_nonneg pre). pose proof (len_nonneg post). pose proof (len_nonneg (tails ps)).
      rewrite (proj2 (Z.ltb_ge _ _)) by lia.
      destruct (slice_total (pre ++ (heads 0 ps ++ tails ps) ++ post) (len pre) (len pre + 32)) as (w & -> & _); [lia|lia|].
      cbn [mbind outcome_bind]. rewrite Hd, slice_from_app by done. cbn [mbind outcome_bind].
      by rewrite Heach by (by eapply Hin).
Qed.

(** ** Tuples *)

Lemma pair_tags_untagged fields args m :
  Forall (fun f => AbiTag f = None) fields -> pair_tags fields args m = Ok m.
Proof.
  induction 1 as [|f fs Hf _ IH]; simpl; [done|]. rewrite Hf, IH. by destruct (negb _).
Qed.

Lemma pair_names_ok fields args m1 m2 :
  NoDup (List.map ToCamelCase args) ->
  Forall (fun a => nonempty (ToCamelCase a) = true /\ has_field fields (ToCamelCase a) = true) args ->
  (forall a, a ∈ args -> m1 !! a = None /\ m2 !! ToCamelCase a = None) ->
  exists m1' m2', pair_names fields args (m1, m2) = Ok (m1', m2') /\
    (forall a, a ∈ args -> m1' !! a = Some (ToCamelCase a)) /\
    (forall a, a ∉ args -> m1' !! a = m1 !! a).
Proof.
  revert m1 m2; induction args as [|a args IH]; intros m1 m2 Hnd Hargs Hfree.
  { exists m1, m2. split; [done|]. split; [|done]. intros a Ha. by apply elem_of_nil in Ha. }
  apply NoDup_cons in Hnd as [Ha Hnd]. apply Forall_cons in Hargs as [[Hne Hf] Hargs].
  destruct (Hfree a ltac:(left)) as [H1 H2].
  assert (Hnot : a ∉ args).
  { intros Hin. apply Ha, list_elem_of_In, in_map_iff. exists a. by rewrite <- list_elem_of_In. }
  destruct (IH (<[a := ToCamelCase a]> m1) (<[ToCamelCase a := a]> m2)) as (m1' & m2' & Heq & Hin & Hout).
  - done.
  - done.
  - intros b Hb. destruct (Hfree b ltac:(by right)) as [Hb1 Hb2].
    rewrite !lookup_insert_ne; [done| |congruence].
    intros Heq. apply Ha, list_elem_of_In, in_map_iff. exists b. by rewrite <- list_elem_of_In.
  - exists m1', m2'. split; [|split].
    + cbn [pair_names]. unfold nonempty in Hne. apply negb_true_iff in Hne. rewrite Hne. unfold get_name.
      cbn [fst snd]. rewrite H1, H2. simpl. by rewrite Hf.
    + intros b [->|Hb]%elem_of_cons; [|by apply Hin]. rewrite Hout by done. apply lookup_insert_eq.
    + intros b [Hne' Hb]%not_elem_of_cons. rewrite Hout by done. by rewrite lookup_insert_ne.
Qed.

(** Every argument is paired with the field of its camel-case name. *)
Lemma mapArgNames_ok args fields :
  NoDup (List.map ToCamelCase args) ->
  Forall (fun a => nonempty (ToCamelCase a) = true /\ has_field fields (ToCamelCase a) = true) args ->
  Forall (fun f => AbiTag f = None) fields ->
  exists m, mapArgNamesToStructFields args fields = Ok m /\
    forall a, a ∈ args -> get_name m a = ToCamelCase a.
Proof.
  intros Hnd Hargs Htags.
  destruct (pair_names_ok fields args ∅ ∅ Hnd Hargs) as (m1 & m2 & Heq & Hin & _).
  { intros a _. by rewrite !lookup_empty. }
  exists m1. unfold mapArgNamesToStructFields. rewrite pair_tags_untagged by done.
  cbn [mbind outcome_bind]. rewrite Heq. split; [done|]. intros a Ha. unfold get_name. by rewrite (Hin a Ha).
Qed.

Lemma has_field_untagged names n : n ∈ names -> has_field (List.map untagged names) n = true.
Proof.
  intros Hn. unfold has_field. apply existsb_exists. exists (untagged n). split.
  - apply in_map. by apply list_elem_of_In.
  - by apply bool_decide_eq_true_2.
Qed.

Lemma FieldByName_untagged names vals i n v :
  NoDup names -> names !! i = Some n -> vals !! i = Some v ->
  FieldByName (List.map untagged names) vals n = Some v.
Proof.
  revert vals i; induction names as [|m names IH]; intros vals i Hnd Hn Hv; [done|].
  apply NoDup_cons in Hnd as [Hm Hnd]. destruct vals as [|w vals]; [done|].
  destruct i as [|i]; simpl in *; simplify_eq.
  - by rewrite bool_decide_eq_true_2.
  - rewrite bool_decide_eq_false_2; [by apply (IH _ i)|].
    intros ->. by apply Hm, (list_elem_of_lookup_2 _ i).
Qed.

Lemma tuple_parts_ok fm fields vals es raws vs :
  Forall packs es -> forallb2 has_type es vs = true -> length raws = length es ->
  (forall i n v, raws !! i = Some n -> vs !! i = Some v ->
     FieldByName fields vals (get_name fm n) = Some v) ->
  exists ps, List.map PVal ps = vs /\ List.map PType ps = es /\ Forall part_ok ps /\
    tuple_parts pack fm fields vals es raws = List.map part_packed ps.
Proof.
  intros Hes. revert raws vs; induction Hes as [|e es He _ IH]; intros [|n raws] [|v vs] Hv Hlen Hf;
    try discriminate; [by exists []|].
  simpl in Hv. apply andb_true_iff in Hv as [Hv Hvs].
  destruct (IH raws vs Hvs) as (ps & <- & <- & Hok & Hp); [simpl in Hlen; lia|intros i; apply (Hf (S i))|].
  destruct (He v Hv) as (enc & Hpack & Hdec).
  exists (mkPart e v enc :: ps). cbn [List.map tuple_parts PVal PType]. split; [done|]. split; [done|].
  split; [by constructor|]. rewrite (Hf O n v) by done. rewrite Hpack. f_equal. exact Hp.
Qed.

Lemma parts_static ps :
  existsb isDynamicType (List.map PType ps) = false -> Forall (fun p => isDynamicType (PType p) = false) ps.
Proof.
  induction ps as [|p ps IH]; [constructor|]. simpl. intros [Hp Hps]%orb_false_iff. constructor; auto.
Qed.

Lemma part_sizes ps : sumZ part_size ps = sumZ getTypeSize (List.map PType ps).
Proof. induction ps as [|p ps IH]; [done|]. simpl. by rewrite !sumZ_cons, IH. Qed.

(** The bytes of a tuple, read from their start. *)
Lemma unpack_tuple ps post :
  Forall part_ok ps ->
  let out := (heads (sumZ part_size ps) ps ++ tails ps) ++ post in
  len out < 2 ^ 63 ->
  unpack_loop (List.map (fun e => (e, fun i => toGoType i e out)) (List.map PType ps)) 0 0 =
  Ok (List.map PVal ps).
Proof.
  intros Hok out Hlen. rewrite List.map_map.
  apply (unpack_loop_reads out ps 0); [by apply packed_read|done].
Qed.

Lemma tuple_packs es raws names v :
  wf_type (TupleTy es raws names) = true -> Forall packs es -> has_type (TupleTy es raws names) v = true ->
  exists ps, List.map PType ps = es /\ Forall part_ok ps /\
    v = GStruct (List.map untagged names) (List.map PVal ps) /\
    pack (TupleTy es raws names) v = Ok (heads (sumZ part_size ps) ps ++ tails ps).
Proof.
  intros Hwf He Hv. assert (Hi := has_type_indirect _ _ Hv).
  cbn [wf_type] in Hwf. rewrite !andb_true_iff in Hwf.
  destruct Hwf as [[[[[_ _] Hlen%Nat.eqb_eq] Hnames%bool_decide_eq_true] Hnd%bool_decide_eq_true] Hne].
  destruct v as [| | | | | | |fields vals|]; try discriminate. cbn [has_type] in Hv.
  apply andb_true_iff in Hv as [->%bool_decide_eq_true Hvals].
  destruct (mapArgNames_ok raws (List.map untagged names)) as (fm & Hfm & Hget).
  { by rewrite <- Hnames. }
  { apply Forall_forall. intros a Ha. assert (Hin : ToCamelCase a ∈ names).
    { rewrite Hnames. apply list_elem_of_In, in_map. by apply list_elem_of_In. }
    split; [|by apply has_field_untagged].
    rewrite forallb_Forall in Hne. rewrite Forall_forall in Hne. by apply Hne. }
  { apply Forall_forall. intros f (n & <- & _)%list_elem_of_In%in_map_iff. done. }
  destruct (tuple_parts_ok fm (List.map untagged names) vals es raws vals) as (ps & Hpv & Hpt & Hok & Hp);
    [done|done|done| |].
  { intros i n w Hn Hw. rewrite Hget by (by eapply list_elem_of_lookup_2).
    apply (FieldByName_untagged names vals i); [done| |done].
    rewrite Hnames. rewrite list_lookup_fmap. by rewrite Hn. }
  exists ps. rewrite Hpv. split; [done|]. split; [done|]. split; [done|].
  cbn [pack]. rewrite Hi. cbn [mbind outcome_bind]. unfold typeCheck. rewrite bool_decide_eq_true_2 by done.
  cbn [negb mbind outcome_bind]. rewrite Hfm. cbn [mbind outcome_bind].
  rewrite Hp, pack_loop_eq, sum_sizes_eq, <- Hpt, <- part_sizes. done.
Qed.

Lemma tuple_decodes es raws names :
  wf_type (TupleTy es raws names) = true -> Forall packs es -> packs (TupleTy es raws names).
Proof.
  intros Hwf He v Hv. destruct (size_words (TupleTy es raws names)) as (k & Hk & Hk1). specialize (Hk1 Hwf).
  destruct (tuple_packs es raws names v Hwf He Hv) as (ps & Hpt & Hok & -> & Hpack).
  eexists. split; [exact Hpack|].
  unfold decodes. rewrite tuple_size in Hk |- *. destruct (isDynamicType (TupleTy es raws names)) eqn:Hd.
  - intros index pre post Hs Hl. assert (Hr := slice_room _ _ _ _ Hs).
    cbn [toGoType]. rewrite (proj2 (Z.ltb_ge _ _)), Hd by lia. unfold tuplePointsTo. rewrite Hs.
    cbn [mbind outcome_bind]. assert (Hpre : len pre <= len (pre ++ (heads (sumZ part_size ps) ps ++ tails ps) ++ post)).
    { rewrite len_app. pose proof (len_nonneg ((heads (sumZ part_size ps) ps ++ tails ps) ++ post)). lia. }
    rewrite U256Bytes_small by (pose proof (len_nonneg pre); lia).
    rewrite (proj2 (Z.ltb_ge _ _)), (proj2 (Z.leb_gt _ _)) by lia. cbn [mbind outcome_bind].
    rewrite slice_from_app by done. cbn [mbind outcome_bind].
    rewrite <- Hpt, unpack_tuple; [done|done|].
    rewrite len_app in Hl. pose proof (len_nonneg pre). lia.
  - assert (Hst : Forall (fun p => isDynamicType (PType p) = false) ps) by (apply parts_static; by rewrite Hpt).
    split; [by rewrite tails_static, app_nil_r, heads_len, part_sizes, Hpt|].
    intros pre post Hl. cbn [toGoType]. rewrite Hd. cbn [mbind outcome_bind].
    rewrite slice_from_app by done. cbn [mbind outcome_bind].
    rewrite (proj2 (Z.ltb_ge _ _)).
    + rewrite <- Hpt, unpack_tuple; [done|done|]. rewrite len_app in Hl. pose proof (len_nonneg pre). lia.
    + rewrite !len_app, heads_len, part_sizes, Hpt, Hk by done.
      pose proof (len_nonneg (tails ps)). pose proof (len_nonneg post). lia.
Qed.

(** ** The round trip *)

Lemma pack_decodes t : wf_type t = true -> packs t.
Proof.
  induction t as [size|size| | |e IH|e n IH|es raws names IH| |n| | | |] using AType_nested_ind; intros Hwf;
    try discriminate.
  - intros v. apply int_decodes.
  - intros v. apply uint_decodes.
  - intros v. apply bool_decodes.
  - intros v. apply string_decodes.
  - apply slice_decodes; auto.
  - apply array_decodes; [done|]. apply IH. simpl in Hwf. by apply andb_true_iff in Hwf as [? _].
  - apply tuple_decodes; [done|]. simpl in Hwf. rewrite !andb_true_iff in Hwf.
    destruct Hwf as [[[[[Hes _] _] _] _] _]. rewrite forallb_Forall in Hes.
    apply Forall_forall. intros e He. rewrite Forall_forall in IH, Hes. by apply IH, Hes.
  - intros v. apply address_decodes.
  - intros v. apply fixed_decodes. simpl in Hwf. rewrite andb_true_iff, !Z.leb_le in Hwf. lia.
  - intros v. apply bytes_decodes.
  - intros v. apply function_decodes.
Qed.

Definition wf_args (args : list Argument) : bool :=
  forallb (fun a => wf_type (ArgType a) && negb (Indexed a)) args.

Lemma NonIndexed_wf args : wf_args args = true -> NonIndexed args = args.
Proof.
  unfold wf_args, NonIndexed. induction args as [|a args IH]; [done|]. simpl.
  rewrite !andb_true_iff. intros [[_ ->] Hargs]. by rewrite IH.
Qed.

Lemma args_parts args vals :
  wf_args args = true -> forallb2 (fun a v => has_type (ArgType a) v) args vals = true ->
  exists ps, List.map PVal ps = vals /\ List.map PType ps = List.map ArgType args /\ Forall part_ok ps /\
    zip_with (fun a v => (isDynamicType (ArgType a), pack (ArgType a) v)) args vals = List.map part_packed ps.
Proof.
  revert vals; induction args as [|a args IH]; intros [|v vals]; try discriminate; [by exists []|].
  cbn [wf_args forallb forallb2]. rewrite !andb_true_iff. intros [[Ha _] Hargs] [Hv Hvals].
  destruct (IH vals Hargs Hvals) as (ps & <- & Hpt & Hok & Hp).
  destruct (pack_decodes _ Ha v Hv) as (enc & Hpack & Hdec).
  exists (mkPart (ArgType a) v enc :: ps). cbn [List.map zip_with PVal PType]. rewrite Hpt, Hp, Hpack.
  split; [done|]. split; [done|]. split; [by constructor|done].
Qed.

(** Well-typed values of well-formed arguments have an encoding, and it
    unpacks to the values (bytes may follow). *)
Lemma pack_unpack args vals :
  wf_args args = true -> forallb2 (fun a v => has_type (ArgType a) v) args vals = true ->
  exists data, Pack args vals = Ok data /\
    forall post, len (data ++ post) < 2 ^ 63 -> UnpackValues args (data ++ post) = Ok vals.
Proof.
  intros Hargs Hvals. destruct (args_parts args vals Hargs Hvals) as (ps & Hpv & Hpt & Hok & Hp).
  exists (heads (sumZ part_size ps) ps ++ tails ps). split.
  - unfold Pack. replace (len vals =? len args) with true.
    2: { symmetry. apply Z.eqb_eq. apply (f_equal (@length _)) in Hpt.
         rewrite !List.length_map in Hpt. rewrite <- Hpv, len_map. unfold len. lia. }
    cbn [negb]. rewrite Hp, pack_loop_eq, sum_sizes_eq, <- Hpt, <- part_sizes. done.
  - intros post Hlen. unfold UnpackValues. rewrite NonIndexed_wf by done.
    rewrite <- (List.map_map ArgType (fun t => (t, fun i => toGoType i t _))), <- Hpt.
    rewrite unpack_tuple; [by rewrite Hpv|done|done].
Qed.

(** ** Unpacking never panics *)

(** Sizes that a Solidity type can have. *)
Fixpoint sane_type (t : AType) : bool :=
  match t with
  | SliceTy e => sane_type e
  | ArrayTy e n => sane_type e && (0 <=? n)
  | TupleTy es _ _ => forallb sane_type es
  | FixedBytesTy n => (0 <=? n) && (n <=? 32)
  | _ => true
  end.

Definition bytes_ok (l : list Z) : Prop := Forall (fun b => 0 <= b < 256) l.

Lemma sane_size t : sane_type t = true -> 0 <= getTypeSize t.
Proof.
  induction t as [| | | |e IH|e n IH|es raws names IH| | | | | |] using AType_nested_ind; intros Hs; try done.
  - rewrite array_size. simpl in Hs. apply andb_true_iff in Hs as [He Hn%Z.leb_le].
    specialize (IH He). destruct (isDynamicType e); nia.
  - rewrite tuple_size. destruct (isDynamicType _); [done|]. apply sumZ_nonneg.
    simpl in Hs. rewrite forallb_Forall, Forall_forall in Hs. rewrite Forall_forall in IH. auto.
Qed.

Lemma bind_safe {A B} (m : outcome A) (f : A -> outcome B) :
  is_panic m = false -> (forall a, m = Ok a -> is_panic (f a) = false) -> is_panic (m ≫= f) = false.
Proof. destruct m; simpl; auto. Qed.

Lemma fmap_safe {A B} (m : outcome A) (f : A -> B) : is_panic m = false -> is_panic (f <$> m) = false.
Proof. by destruct m. Qed.

Lemma be_value_nonneg l : bytes_ok l -> 0 <= be_value l.
Proof.
  induction l as [|b l IH] using rev_ind; [done|]. rewrite be_value_snoc.
  intros [Hl Hb]%Forall_app. apply Forall_cons in Hb as [Hb _]. specialize (IH Hl). lia.
Qed.

Lemma slice_bytes l w a b : slice l a b = Ok w -> bytes_ok l -> bytes_ok w /\ len w = b - a.
Proof.
  intros Hs Hl. assert (Hr := slice_room _ _ _ _ Hs). unfold slice in Hs. destruct (_ && _); [|done].
  injection Hs as <-. split; [by apply Forall_take, Forall_drop|].
  unfold len in *. rewrite length_take, length_drop. lia.
Qed.

Lemma slice_safe l a b : 0 <= a <= b -> b <= len l -> is_panic (slice (A:=Z) l a b) = false.
Proof. intros Hab Hb. by destruct (slice_total l a b Hab Hb) as (w & -> & _). Qed.

Lemma length_prefix_safe index out :
  bytes_ok out -> 0 <= index -> index + 32 <= len out ->
  is_panic (lengthPrefixPointsTo index out) = false /\
  forall start length, lengthPrefixPointsTo index out = Ok (start, length) ->
    0 <= start /\ 0 <= length /\ start + length <= len out.
Proof.
  intros Hout Hi Hroom. unfold lengthPrefixPointsTo.
  destruct (slice_total out index (index + 32)) as (w & Hw & _); [lia..|].
  assert (Hv := be_value_nonneg w (proj1 (slice_bytes _ _ _ _ Hw Hout))).
  rewrite Hw. cbn [mbind outcome_bind].
  destruct (Z.ltb_spec (len out) (be_value w + 32)); [done|].
  destruct (2 ^ 63 <=? be_value w + 32); [done|].
  destruct (slice_total out (be_value w + 32 - 32) (be_value w + 32)) as (u & Hu & _); [lia..|].
  assert (Hl := be_value_nonneg u (proj1 (slice_bytes _ _ _ _ Hu Hout))).
  rewrite Hu. cbn [mbind outcome_bind]. destruct (2 ^ 63 <=? be_value w + 32 + be_value u); [done|].
  destruct (Z.ltb_spec (len out) (be_value w + 32 + be_value u)); [done|].
  split; [done|]. intros start length [= <- <-]. lia.
Qed.

Lemma unpack_each_safe elem size n i :
  (forall i, 0 <= i -> is_panic (elem i) = false) -> 0 <= size -> 0 <= i ->
  is_panic (unpack_each elem size n i) = false.
Proof.
  intros He Hs. revert i; induction n as [|n IH]; intros i Hi; [done|]. cbn [unpack_each].
  apply bind_safe; [by apply He|]. intros v _. apply bind_safe; [apply IH; lia|done].
Qed.

Lemma unpack_loop_safe elems index va :
  Forall (fun e => sane_type e.1 = true /\ forall i, 0 <= i -> is_panic (e.2 i) = false) elems ->
  0 <= index + va -> is_panic (unpack_loop elems index va) = false.
Proof.
  intros He. revert index va; induction He as [|[t elem] elems [Ht He] _ IH]; intros index va Hi; [done|].
  cbn [unpack_loop]. apply bind_safe; [apply He; lia|]. intros v _.
  apply bind_safe; [|done]. apply IH. rewrite virtual_args_eq.
  assert (0 <= getTypeSize t / 32) by (apply Z.div_pos; [by apply sane_size|lia]). lia.
Qed.

Lemma forEachUnpack_safe elem e out size :
  (forall i, 0 <= i -> is_panic (elem i) = false) -> sane_type e = true ->
  is_panic (forEachUnpack elem e out size) = false.
Proof.
  intros He Hs. unfold forEachUnpack. repeat case_match; try done.
  apply unpack_each_safe; [done|by apply sane_size|done].
Qed.

Lemma toGoType_safe t index out :
  sane_type t = true -> bytes_ok out -> 0 <= index -> is_panic (toGoType index t out) = false.
Proof.
  revert index out; induction t as [size|size| | |e IH|e n IH|es raws names IH| |n| | | |]
    using AType_nested_ind; intros index out Hs Hout Hi; cbn [toGoType];
    (destruct (Z.ltb_spec (len out) (index + 32)); [done|]);
    (destruct (slice_total out index (index + 32)) as (w & Hw & Hwl); [lia..|]);
    try (rewrite Hw; cbn [mbind outcome_bind]);
    (destruct (length_prefix_safe index out) as [Hp Hpr]; [done|done|lia|]); try done.
  - unfold readBool. repeat case_match; done.
  - apply bind_safe; [done|]. intros [start length] Heq. destruct (Hpr _ _ Heq) as (? & ? & ?).
    apply bind_safe; [|done]. apply slice_safe; lia.
  - apply bind_safe; [done|]. intros [start length] Heq. destruct (Hpr _ _ Heq) as (? & ? & ?).
    apply bind_safe; [apply slice_safe; lia|]. intros out' Hout'.
    apply fmap_safe, forEachUnpack_safe; [|done]. intros i Hi'. apply IH; [done| |done].
    by eapply slice_bytes.
  - simpl in Hs. apply andb_true_iff in Hs as [He _]. destruct (isDynamicType e).
    + destruct (Z.ltb_spec (len out) (be_value (drop 24 w))); [done|].
      assert (0 <= be_value (drop 24 w)).
      { apply be_value_nonneg, Forall_drop. by eapply slice_bytes. }
      apply bind_safe; [apply slice_safe; lia|]. intros out' Hout'.
      apply fmap_safe, forEachUnpack_safe; [|done]. intros i Hi'. apply IH; [done| |done]. by eapply slice_bytes.
    + apply bind_safe; [apply slice_safe; lia|]. intros out' Hout'.
      apply fmap_safe, forEachUnpack_safe; [|done]. intros i Hi'. apply IH; [done| |done]. by eapply slice_bytes.
  - apply bind_safe.
    { destruct (isDynamicType _); [|done]. unfold tuplePointsTo. rewrite Hw. cbn [mbind outcome_bind].
      by repeat case_match. }
    intros start Hstart. assert (0 <= start <= len out).
    { destruct (isDynamicType _); [|injection Hstart as <-; lia]. unfold tuplePointsTo in Hstart.
      rewrite Hw in Hstart. cbn [mbind outcome_bind] in Hstart.
      assert (Hv := be_value_nonneg w (proj1 (slice_bytes _ _ _ _ Hw Hout))).
      destruct (Z.ltb_spec (len out) (be_value w)); [done|]. destruct (_ <=? _); [done|].
      injection Hstart as <-. lia. }
    apply bind_safe; [apply slice_safe; lia|]. intros out' Hout'. apply fmap_safe, unpack_loop_safe; [|done].
    simpl in Hs. rewrite forallb_Forall, Forall_forall in Hs. rewrite Forall_forall in IH.
    apply Forall_forall. intros p (e & <- & He%list_elem_of_In)%list_elem_of_In%in_map_iff.
    split; [by apply Hs|]. intros i Hi'. apply IH; [done|by apply Hs| |done]. by eapply slice_bytes.
  - apply andb_true_iff in Hs as [H0%Z.leb_le H32%Z.leb_le]. unfold ReadFixedBytes.
    apply bind_safe; [apply slice_safe; lia|done].
  - apply bind_safe; [done|]. intros [start length] Heq. destruct (Hpr _ _ Heq) as (? & ? & ?).
    apply bind_safe; [|done]. apply slice_safe; lia.
  - unfold readFunctionType. by case_match.
Qed.

Definition sane_args (args : list Argument) : bool := forallb (fun a => sane_type (ArgType a)) args.

Lemma UnpackValues_safe args data :
  sane_args args = true -> bytes_ok data -> is_panic (UnpackValues args data) = false.
Proof.
  intros Hargs Hdata. apply unpack_loop_safe; [|done].
  unfold sane_args in Hargs. rewrite forallb_Forall, Forall_forall in Hargs. apply Forall_forall.
  intros p (a & <- & [Ha _]%filter_In)%list_elem_of_In%in_map_iff.
  assert (Hs : sane_type (ArgType a) = true) by (by apply Hargs, list_elem_of_In).
  split; [done|]. intros i Hi. by apply toGoType_safe.
Qed.

(** ** Types of unpacked values *)

Lemma obind_ok {A B} (m : outcome A) (f : A -> outcome B) b :
  m ≫= f = Ok b -> exists a, m = Ok a /\ f a = Ok b.
Proof. destruct m; [eauto|done|done]. Qed.

Lemma fmap_ok {A B} (m : outcome A) (f : A -> B) b : f <$> m = Ok b -> exists a, m = Ok a /\ b = f a.
Proof. destruct m; [|done|done]. intros [= <-]. eauto. Qed.

Lemma unpack_each_typed elem ty size n i vs :
  (forall i v, elem i = Ok v -> TypeOf v = ty) -> unpack_each elem size n i = Ok vs -> length vs = n.
Proof.
  intros He. revert i vs; induction n as [|n IH]; intros i vs; cbn [unpack_each]; [by intros [= <-]|].
  intros (v & Hv & (vs' & Hvs & [= <-])%obind_ok)%obind_ok. simpl. f_equal. by eapply IH.
Qed.

Lemma forEachUnpack_typed elem e out size vs :
  (forall i v, elem i = Ok v -> TypeOf v = GetType e) -> forEachUnpack elem e out size = Ok vs -> len vs = size.
Proof.
  intros He. unfold forEachUnpack. destruct (Z.ltb_spec size 0); [done|]. destruct (_ <? _); [done|].
  intros Hvs. apply (unpack_each_typed _ (GetType e)) in Hvs; [|done]. unfold len. lia.
Qed.

Lemma unpack_loop_typed elems index va vs :
  Forall (fun p => forall i v, p.2 i = Ok v -> TypeOf v = GetType p.1) elems ->
  unpack_loop elems index va = Ok vs -> List.map TypeOf vs = List.map (fun p => GetType p.1) elems.
Proof.
  intros He. revert index va vs; induction He as [|[t elem] elems He _ IH]; intros index va vs;
    cbn [unpack_loop]; [by intros [= <-]|].
  intros (v & Hv & (vs' & Hvs & [= <-])%obind_ok)%obind_ok. simpl. f_equal; [by eapply He|by eapply IH].
Qed.

Lemma byte_array_type l n : len l = n -> TypeOf (byte_array l) = TArray n (TUint 8).
Proof. intros <-. unfold byte_array. simpl. by rewrite len_map. Qed.

(** What [toGoType] returns has the Go type of the ABI type. *)
Lemma toGoType_typed t i out v :
  toGoType i t out = Ok v -> TypeOf v = GetType t.
Proof.
  revert i out v; induction t as [size|size| | |e IH|e n IH|es raws names IH| |n| | | |]
    using AType_nested_ind; intros i out v; cbn [toGoType]; (destruct (_ <? _); [done|]).
  - intros (w & _ & [= <-])%obind_ok. unfold ReadInteger. simpl. unfold reflectIntType. by destruct (machine_width _).
  - intros (w & _ & [= <-])%obind_ok. unfold ReadInteger. simpl. unfold reflectIntType. by destruct (machine_width _).
  - intros (w & _ & Hv)%obind_ok. unfold readBool in Hv. repeat case_match; try done; by injection Hv as <-.
  - intros ([st ln] & _ & (w & _ & [= <-])%obind_ok)%obind_ok. done.
  - intros ([st ln] & _ & (w & _ & (vs & _ & ->)%fmap_ok)%obind_ok)%obind_ok. done.
  - intros (w & _ & Hv)%obind_ok. destruct (isDynamicType e); [destruct (_ <? _); [done|]|];
      apply obind_ok in Hv as (out' & _ & (vs & Hvs & ->)%fmap_ok);
      apply forEachUnpack_typed in Hvs as <-; try done; intros j u; apply IH.
  - intros (st & _ & (out' & _ & (vs & Hvs & ->)%fmap_ok)%obind_ok)%obind_ok. simpl. f_equal.
    apply unpack_loop_typed in Hvs; [by rewrite Hvs, List.map_map|].
    rewrite Forall_forall in IH. apply Forall_forall.
    intros p (e & <- & He%list_elem_of_In)%list_elem_of_In%in_map_iff j u. by apply IH.
  - intros (w & Hw & [= <-])%obind_ok. assert (Hr := slice_room _ _ _ _ Hw).
    destruct (slice_total out i (i + 32)) as (w' & Hw' & Hl); [lia..|].
    rewrite Hw in Hw'. injection Hw' as <-. apply byte_array_type. unfold len in *. rewrite length_drop. lia.
  - intros (w & _ & (bs & Hbs & [= <-])%obind_ok)%obind_ok. assert (Hr := slice_room _ _ _ _ Hbs).
    destruct (slice_total w 0 n) as (w' & Hw' & Hl); [lia..|]. rewrite Hbs in Hw'. injection Hw' as <-.
    apply byte_array_type. lia.
  - intros ([st ln] & _ & (w & _ & [= <-])%obind_ok)%obind_ok. done.
  - intros (w & Hw & [= <-])%obind_ok. assert (Hr := slice_room _ _ _ _ Hw).
    destruct (slice_total out i (i + 32)) as (w' & Hw' & Hl); [lia..|].
    rewrite Hw in Hw'. injection Hw' as <-. apply byte_array_type. lia.
  - done.
  - intros (w & Hw & Hv)%obind_ok. assert (Hr := slice_room _ _ _ _ Hw).
    destruct (slice_total out i (i + 32)) as (w' & Hw' & Hl); [lia..|].
    rewrite Hw in Hw'. injection Hw' as <-. unfold readFunctionType in Hv. destruct (_ =? 0); [|done].
    injection Hv as <-. apply byte_array_type. unfold len in *. rewrite length_take. lia.
Qed.

Lemma UnpackValues_typed args data vals :
  UnpackValues args data = Ok vals ->
  List.map TypeOf vals = List.map (fun a => GetType (ArgType a)) (NonIndexed args).
Proof.
  intros Hv. apply unpack_loop_typed in Hv; [by rewrite Hv, List.map_map|].
  apply Forall_forall. intros p (a & <- & _)%list_elem_of_In%in_map_iff i v. apply toGoType_typed.
Qed.

(** ** Copying into a struct *)

Definition no_ptr (t : GoType) : bool := match t with TPtr _ => false | _ => true end.

Lemma GetType_no_ptr t : no_ptr (GetType t) = true.
Proof. destruct t; try done; simpl; unfold reflectIntType; by destruct (machine_width _). Qed.

Lemma set_same src dst : TypeOf src = TypeOf dst -> no_ptr (TypeOf dst) = true -> set src dst = Ok src.
Proof.
  intros Ht Hp. destruct src, dst; simpl in Hp; try discriminate; cbn [set]; rewrite Ht, type_eqb_refl; done.
Qed.

Lemma FieldByName_app fs1 f fs2 d1 d d2 :
  length fs1 = length d1 -> FieldName f ∉ List.map FieldName fs1 ->
  FieldByName (fs1 ++ f :: fs2) (d1 ++ d :: d2) (FieldName f) = Some d.
Proof.
  revert d1; induction fs1 as [|g fs1 IH]; intros [|e d1] Hl Hf; try discriminate; simpl.
  - by rewrite bool_decide_eq_true_2.
  - simpl in Hf. apply not_elem_of_cons in Hf as [Hg Hf].
    rewrite bool_decide_eq_false_2 by congruence. apply IH; [|done]. simpl in Hl. lia.
Qed.

Lemma set_field_app fs1 f fs2 d1 d d2 v :
  length fs1 = length d1 -> FieldName f ∉ List.map FieldName fs1 ->
  set_field (fs1 ++ f :: fs2) (d1 ++ d :: d2) (FieldName f) v = d1 ++ v :: d2.
Proof.
  revert d1; induction fs1 as [|g fs1 IH]; intros [|e d1] Hl Hf; try discriminate; simpl.
  - by rewrite bool_decide_eq_true_2.
  - simpl in Hf. apply not_elem_of_cons in Hf as [Hg Hf].
    rewrite bool_decide_eq_false_2 by congruence. rewrite IH; [done| |done]. simpl in Hl. lia.
Qed.

Lemma copy_fields_ok fm fs1 fs2 d1 d2 args vals :
  length fs1 = length d1 -> NoDup (List.map FieldName (fs1 ++ fs2)) ->
  List.map FieldName fs2 = List.map (fun a => get_name fm (ArgName a)) args ->
  List.map TypeOf d2 = List.map TypeOf vals -> length vals = length args ->
  Forall (fun d => no_ptr (TypeOf d) = true) d2 ->
  copy_fields fm (fs1 ++ fs2) (d1 ++ d2) args vals = Ok (d1 ++ vals).
Proof.
  revert fs1 fs2 d1 d2 vals. induction args as [|a args IH]; intros fs1 fs2 d1 d2 vals Hl Hnd Hn Ht Hv Hp;
    destruct vals as [|v vals]; try discriminate; destruct d2 as [|d d2]; try discriminate;
    destruct fs2 as [|f fs2]; try discriminate; [done|].
  simpl in Hn, Ht, Hv. injection Hn as Hf Hn. injection Ht as Htd Ht.
  apply Forall_cons in Hp as [Hpd Hp]. rewrite List.map_app in Hnd. simpl in Hnd.
  assert (Hnot : FieldName f ∉ List.map FieldName fs1).
  { apply NoDup_app in Hnd as (_ & Hnd & _). intros Hin. by apply (Hnd _ Hin), elem_of_cons; left. }
  cbn [copy_fields]. rewrite <- Hf, FieldByName_app by done.
  rewrite set_same by done. cbn [mbind outcome_bind]. rewrite set_field_app by done.
  assert (Hassoc : forall {A} (l1 l2 : list A) x, l1 ++ x :: l2 = (l1 ++ [x]) ++ l2)
    by (intros; by rewrite <- app_assoc).
  rewrite (Hassoc _ fs1), (Hassoc _ d1 d2), (Hassoc _ d1 vals). apply IH; try done.
  - rewrite !length_app. simpl. lia.
  - rewrite <- app_assoc, List.map_app. done.
  - lia.
Qed.

(** Values of the struct's field types, in the order of its fields. *)
Lemma Copy_ok args fields dst vals :
  NonIndexed args = args -> isTuple args = true ->
  List.map FieldName fields = List.map (fun a => ToCamelCase (ArgName a)) args ->
  NoDup (List.map FieldName fields) -> forallb nonempty (List.map FieldName fields) = true ->
  Forall (fun f => AbiTag f = None) fields ->
  List.map TypeOf dst = List.map TypeOf vals -> List.map TypeOf vals = List.map (fun a => GetType (ArgType a)) args ->
  Copy args fields dst vals = Ok vals.
Proof.
  intros Hni Htup Hn Hnd Hne Htag Ht Hv.
  assert (Hlen : length vals = length args) by (apply (f_equal (@length _)) in Hv; by rewrite !List.length_map in Hv).
  destruct vals as [|v0 vals0] eqn:Hvals.
  { destruct args; [done|discriminate]. }
  rewrite <- Hvals in *. unfold Copy. rewrite Hvals at 1. rewrite Htup, Hni.
  destruct (mapArgNames_ok (List.map ArgName args) fields) as (fm & Hfm & Hget).
  { rewrite List.map_map, <- Hn. done. }
  { apply Forall_forall. intros n (a & <- & Ha%list_elem_of_In)%list_elem_of_In%in_map_iff.
    assert (Hin : ToCamelCase (ArgName a) ∈ List.map FieldName fields).
    { rewrite Hn. apply list_elem_of_In, in_map_iff. exists a. split; [done|]. by apply list_elem_of_In. }
    rewrite forallb_Forall, Forall_forall in Hne. split; [by apply Hne|].
    apply list_elem_of_In, in_map_iff in Hin as (f & Hf & Hin). apply existsb_exists. exists f.
    split; [done|]. by apply bool_decide_eq_true_2. }
  { done. }
  rewrite Hfm. cbn [mbind outcome_bind]. apply (copy_fields_ok fm [] fields [] dst); try done.
  - rewrite Hn. apply List.map_ext_in. intros a Ha. symmetry. apply Hget, list_elem_of_In, in_map. done.
  - apply Forall_forall. intros d Hd.
    assert (Hin : TypeOf d ∈ List.map TypeOf dst) by (apply list_elem_of_In, in_map; by apply list_elem_of_In).
    rewrite Ht, Hv in Hin. apply list_elem_of_In, in_map_iff in Hin as (a & <- & _). apply GetType_no_ptr.
Qed.

(** ** Theorems *)

Lemma Pack_nonempty args vals data :
  wf_args args = true -> forallb2 (fun a v => has_type (ArgType a) v) args vals = true ->
  Pack args vals = Ok data -> len data = 0 -> args = [].
Proof.
  intros Hargs Hvals. destruct (args_parts args vals Hargs Hvals) as (ps & _ & Hpt & Hok & Hp).
  unfold Pack. destruct (negb _); [done|].
  rewrite Hp, pack_loop_eq, sum_sizes_eq, <- Hpt, <- part_sizes. intros [= <-].
  destruct args as [|a args]; [done|]. destruct ps as [|p ps]; [discriminate|].
  simpl in Hpt. injection Hpt as Hpa Hpt. cbn [app]. rewrite len_app, heads_len by done.
  rewrite part_sizes. cbn [List.map]. rewrite sumZ_cons, Hpa, Hpt.
  cbn [wf_args forallb] in Hargs. rewrite !andb_true_iff in Hargs. destruct Hargs as [[Ha _] Hargs].
  destruct (size_words (ArgType a)) as (k & -> & Hk). specialize (Hk Ha).
  assert (0 <= sumZ getTypeSize (List.map ArgType args)).
  { apply sumZ_nonneg. intros t (b & <- & Hb)%list_elem_of_In%in_map_iff.
    apply forallb_forall with (x := b) in Hargs; [|done]. apply andb_true_iff in Hargs as [Hb' _].
    destruct (size_words (ArgType b)) as (j & -> & Hj). specialize (Hj Hb'). lia. }
  pose proof (len_nonneg (tails (p :: ps))). cbn [app]. lia.
Qed.

(** C27 (roundtrip): packing Go values of the types of the arguments succeeds, and
    unpacking the bytes gives the values back: for every nesting of slices,
    arrays, tuples, strings, bytes and numbers whose static parts take room and
    whose tuple fields have distinct names. *)
Theorem abi_roundtrip (args : list Argument) (vals : list GoVal) :
  wf_args args = true -> forallb2 (fun a v => has_type (ArgType a) v) args vals = true ->
  exists data, Pack args vals = Ok data /\ (len data < 2 ^ 63 -> Unpack args data = Ok vals).
Proof.
  intros Hargs Hvals. destruct (pack_unpack args vals Hargs Hvals) as (data & Hpack & Hun).
  exists data. split; [done|]. intros Hlen. specialize (Hun []). rewrite app_nil_r in Hun.
  unfold Unpack. destruct (Z.eqb_spec (len data) 0) as [Hz|]; [|by apply Hun].
  assert (args = []) as -> by (by eapply Pack_nonempty). destruct vals; [done|discriminate].
Qed.


(** *** Witnesses *)

Definition sample_args : list Argument :=
  [mkArgument "names" (SliceTy StringTy) false;
   mkArgument "pair" (TupleTy [AddressTy; ArrayTy (IntTy 64) 2] ["owner_addr"; "limits"] ["OwnerAddr"; "Limits"]) false;
   mkArgument "amount" (UintTy 256) false].

Definition sample_vals : list GoVal :=
  [GSlice TString [GString "ab"; GString ""];
   GStruct [untagged "OwnerAddr"; untagged "Limits"]
     [byte_array (be_bytes 20 51966); GArray (TInt 64) [GInt 64 (-3); GInt 64 7]];
   GBig (Some 1000)].

Lemma abi_roundtrip_witness :
  exists data, Pack sample_args sample_vals = Ok data /\ Unpack sample_args data = Ok sample_vals.
Proof.
  destruct (abi_roundtrip sample_args sample_vals) as (data & Hp & Hu); [vm_compute; reflexivity..|].
  exists data. split; [exact Hp|]. apply Hu, Z.ltb_lt.
  assert (Hc : match Pack sample_args sample_vals with Ok d => len d <? 2 ^ 63 | _ => false end = true)
    by (vm_compute; reflexivity).
  rewrite Hp in Hc. exact Hc.
Defined.

