(* ===== verification/Bind.v ===== *)
(** * Bind: contract calls and transactions (src/eth/abi/bind)

    [BoundContract.Call] and [Transact] with the transactions they build, over
    a backend that answers requests: the Ethereum RPC clients of the main chain
    and of the subchain are its two endpoints. *)

From Stdlib Require Import Ascii.
From stdpp Require Import gmap sorting.
From stdpp Require Import base list numbers strings.
From S2P Require Import Prelude Text Abi.
Open Scope string_scope.
Open Scope list_scope.
Open Scope Z_scope.

(** ** Effects

    A computation over the world [W] returns a result and the world after the
    requests it made. *)
Definition IO (W A : Type) : Type := W -> outcome A * W.

#[export] Instance IO_ret W : MRet (IO W) := fun A a w => (Ok a, w).
#[export] Instance IO_bind W : MBind (IO W) := fun A B f m w =>
  match m w with
  | (Ok a, w') => f a w'
  | (Err e, w') => (Err e, w')
  | (Panic e, w') => (Panic e, w')
  end.

Definition lift {W A} (r : outcome A) : IO W A := fun w => (r, w).

(** A call whose error the caller looks at. *)
Definition attempt {W A} (m : IO W A) : IO W (outcome A) := fun w =>
  match m w with
  | (Panic e, w') => (Panic e, w')
  | (r, w') => (Ok r, w')
  end.

(** ** Transactions *)

Inductive TxData :=
| LegacyTx (To : option Address) (Nonce GasPrice Gas Value : Z) (Data : list Z)
| DynamicFeeTx (To : option Address) (Nonce GasFeeCap GasTipCap Gas Value : Z) (Data : list Z).

Record Transaction := mkTransaction { TxInner : TxData; TxSignature : list Z }.

Record CallMsg := mkCallMsg {
  MsgFrom : Address;
  MsgTo : option Address;
  MsgGasPrice : option Z;
  MsgGasTipCap : option Z;
  MsgGasFeeCap : option Z;
  MsgValue : option Z;
  MsgData : list Z
}.

Record CallOpts := mkCallOpts { Pending : bool; CallFrom : Address; AtBlock : option Z }.
Definition no_call_opts : CallOpts := mkCallOpts false 0 None.

Record TransactOpts := mkTransactOpts {
  OptFrom : Address;
  OptNonce : option Z;
  Signer : option (Address -> TxData -> outcome Transaction);
  OptValue : option Z;
  OptGasPrice : option Z;
  OptGasFeeCap : option Z;
  OptGasTipCap : option Z;
  OptGasLimit : uint64;
  NoSend : bool
}.

(** ** The backend *)

(** The two chains a node is connected to. *)
Inductive Client := MainchainClient | SubchainClient.

#[global] Instance Client_eq_dec : EqDecision Client.
Proof. solve_decision. Defined.

Class Backend (W : Type) := {
  CallContract : Client -> CallMsg -> option Z -> IO W (list Z);
  CodeAt : Client -> Address -> option Z -> IO W (list Z);
  PendingCallContract : Client -> CallMsg -> IO W (list Z);
  PendingCodeAt : Client -> Address -> IO W (list Z);
  PendingNonceAt : Client -> Address -> IO W uint64;
  SuggestGasPrice : Client -> IO W Z;
  SuggestGasTipCap : Client -> IO W Z;
  HeadBaseFee : Client -> IO W (option Z);
  EstimateGas : Client -> CallMsg -> IO W uint64;
  SendTransaction : Client -> Transaction -> IO W unit;
  Keccak256 : list Z -> list Z
}.

(** ** Bound contracts (base.go) *)

Record BoundContract := mkBoundContract { address : Address; abi : ABI; client : Client }.

Section Bound.
Context {W : Type} `{!Backend W}.
Implicit Types (c : BoundContract) (opts : TransactOpts).

(** [abi.Unpack] *)
Definition ABI_Unpack (abi : ABI) (name : string) (data : list Z) : outcome (list GoVal) :=
  args ← getArguments abi name data; Unpack args data.

(** [Call] with an empty list of results: the values the method returns. *)
Definition Call c (opts : CallOpts) (method : string) (params : list GoVal) : IO W (list GoVal) :=
  input ← lift (ABI_Pack Keccak256 (abi c) method params);
  let msg := mkCallMsg (CallFrom opts) (Some (address c)) None None None None input in
  output ←
    (if Pending opts then
       output ← PendingCallContract (client c) msg;
       if len output =? 0 then
         code ← PendingCodeAt (client c) (address c);
         if len code =? 0 then lift (Err "no contract code at given address") else mret output
       else mret output
     else
       output ← CallContract (client c) msg (AtBlock opts);
       if len output =? 0 then
         code ← CodeAt (client c) (address c) (AtBlock opts);
         if len code =? 0 then lift (Err "no contract code at given address") else mret output
       else mret output);
  lift (ABI_Unpack (abi c) method output).

(** [estimateGasLimit] *)
Definition estimateGasLimit c opts (contract : option Address) (input : list Z)
    (gasPrice gasTipCap gasFeeCap : option Z) (value : Z) : IO W uint64 :=
  _ ← match contract with
      | Some _ =>
          code ← PendingCodeAt (client c) (address c);
          if len code =? 0 then lift (Err "no contract code at given address") else mret tt
      | None => mret tt
      end;
  EstimateGas (client c) (mkCallMsg (OptFrom opts) contract gasPrice gasTipCap gasFeeCap (Some value) input).

(** [getNonce] *)
Definition getNonce c opts : IO W uint64 :=
  match OptNonce opts with
  | None => PendingNonceAt (client c) (OptFrom opts)
  | Some nonce => mret (wrap64 nonce)
  end.

(** [createLegacyTx] *)
Definition createLegacyTx c opts (contract : option Address) (input : list Z) : IO W TxData :=
  if bool_decide (is_Some (OptGasFeeCap opts)) || bool_decide (is_Some (OptGasTipCap opts))
  then lift (Err "maxFeePerGas or maxPriorityFeePerGas specified but london is not active yet")
  else
    let value := default 0 (OptValue opts) in
    gasPrice ← match OptGasPrice opts with Some p => mret p | None => SuggestGasPrice (client c) end;
    gasLimit ← (if OptGasLimit opts =? 0
                then estimateGasLimit c opts contract input (Some gasPrice) None None value
                else mret (OptGasLimit opts));
    nonce ← getNonce c opts;
    mret (LegacyTx contract nonce gasPrice gasLimit value input).

(** [createDynamicTx] *)
Definition createDynamicTx c opts (contract : option Address) (input : list Z) (baseFee : Z) : IO W TxData :=
  let value := default 0 (OptValue opts) in
  gasTipCap ← match OptGasTipCap opts with Some t => mret t | None => SuggestGasTipCap (client c) end;
  let gasFeeCap := default (gasTipCap + baseFee * 2) (OptGasFeeCap opts) in
  if gasFeeCap <? gasTipCap then lift (Err "maxFeePerGas < maxPriorityFeePerGas")
  else
    gasLimit ← (if OptGasLimit opts =? 0
                then estimateGasLimit c opts contract input None (Some gasTipCap) (Some gasFeeCap) value
                else mret (OptGasLimit opts));
    nonce ← getNonce c opts;
    mret (DynamicFeeTx contract nonce gasFeeCap gasTipCap gasLimit value input).

(** [transact] *)
Definition transact c opts (contract : option Address) (input : list Z) : IO W Transaction :=
  if bool_decide (is_Some (OptGasPrice opts)) &&
     (bool_decide (is_Some (OptGasFeeCap opts)) || bool_decide (is_Some (OptGasTipCap opts)))
  then lift (Err "both gasPrice and (maxFeePerGas or maxPriorityFeePerGas) specified")
  else
    rawTx ←
      match OptGasPrice opts with
      | Some _ => createLegacyTx c opts contract input
      | None =>
          head ← HeadBaseFee (client c);
          match head with
          | Some baseFee => createDynamicTx c opts contract input baseFee
          | None => createLegacyTx c opts contract input
          end
      end;
    match Signer opts with
    | None => lift (Err "no signer to authorize the transaction with")
    | Some signer =>
        signedTx ← lift (signer (OptFrom opts) rawTx);
        if NoSend opts then mret signedTx
        else _ ← SendTransaction (client c) signedTx; mret signedTx
    end.

(** [Transact] *)
Definition Transact c opts (method : string) (params : list GoVal) : IO W Transaction :=
  input ← lift (ABI_Pack Keccak256 (abi c) method params);
  transact c opts (Some (address c)) input.

End Bound.
