(* ===== verification/TokenBanks.v ===== *)
(** * TokenBanks: the token bank contracts as the node sees them
    (src/interchain/contracts/accessors)

    The ABIs of the four token bank contracts (TFuel, TNT20, TNT721, TNT1155),
    their methods and events as the accessor files list them, and the accessors
    that the witness and the orchestrator call: reads of nonces and heights, and
    the transactions that mint vouchers and unlock tokens. *)

From Stdlib Require Import Ascii.
From stdpp Require Import gmap sorting.
From stdpp Require Import base list numbers strings.
From S2P Require Import Prelude Text Abi Bind.
Open Scope string_scope.
Open Scope list_scope.
Open Scope Z_scope.

(** ** Contract ABIs *)

Definition TFuelTokenBankABI : ABI := mkABI
  (list_to_map [
    ("allDenoms", mkMethod "allDenoms(uint256)"
      [mkArgument "" (UintTy 256) false]
      [mkArgument "" StringTy false]);
    ("allVouchers", mkMethod "allVouchers(uint256)"
      [mkArgument "" (UintTy 256) false]
      [mkArgument "" AddressTy false]);
    ("denomToVoucherLookup", mkMethod "denomToVoucherLookup(string)"
      [mkArgument "" StringTy false]
      [mkArgument "contractAddress" AddressTy false; mkArgument "exists" BoolTy false]);
    ("exists", mkMethod "exists(string)"
      [mkArgument "denom" StringTy false]
      [mkArgument "" BoolTy false]);
    ("exists0", mkMethod "exists(address)"
      [mkArgument "voucherAddress" AddressTy false]
      [mkArgument "" BoolTy false]);
    ("getAdjustedValidatorSet", mkMethod "getAdjustedValidatorSet(uint256,uint256)"
      [mkArgument "subchainID" (UintTy 256) false; mkArgument "dynasty" (UintTy 256) false]
      [mkArgument "validators" (SliceTy AddressTy) false; mkArgument "shareAmounts" (SliceTy (UintTy 256)) false]);
    ("getDenom", mkMethod "getDenom(address)"
      [mkArgument "voucherContractAddr" AddressTy false]
      [mkArgument "" StringTy false]);
    ("getMaxProcessedTokenLockNonce", mkMethod "getMaxProcessedTokenLockNonce(uint256)"
      [mkArgument "chainID" (UintTy 256) false]
      [mkArgument "" (UintTy 256) false]);
    ("getMaxProcessedVoucherBurnNonce", mkMethod "getMaxProcessedVoucherBurnNonce(uint256)"
      [mkArgument "chainID" (UintTy 256) false]
      [mkArgument "" (UintTy 256) false]);
    ("getTokenLockEventHeight", mkMethod "getTokenLockEventHeight(uint256,uint256)"
      [mkArgument "chainID" (UintTy 256) false; mkArgument "eventNonce" (UintTy 256) false]
      [mkArgument "" (UintTy 256) false]);
    ("getVoucher", mkMethod "getVoucher(string)"
      [mkArgument "denom" StringTy false]
      [mkArgument "" AddressTy false]);
    ("getVoucherBurnEventHeight", mkMethod "getVoucherBurnEventHeight(uint256,uint256)"
      [mkArgument "chainID" (UintTy 256) false; mkArgument "eventNonce" (UintTy 256) false]
      [mkArgument "" (UintTy 256) false]);
    ("isOnMainchain", mkMethod "isOnMainchain()"
      []
      [mkArgument "" BoolTy false]);
    ("mainchainID", mkMethod "mainchainID()"
      []
      [mkArgument "" (UintTy 256) false]);
    ("tokenLockNonceMap", mkMethod "tokenLockNonceMap(uint256)"
      [mkArgument "" (UintTy 256) false]
      [mkArgument "" (UintTy 256) false]);
    ("tokenLockVotingRecords", mkMethod "tokenLockVotingRecords(uint256,bytes32)"
      [mkArgument "" (UintTy 256) false; mkArgument "" (FixedBytesTy 32) false]
      [mkArgument "dynasty" (UintTy 256) false; mkArgument "accumlatedShares" (UintTy 256) false]);
    ("tokenUnlockNonceMap", mkMethod "tokenUnlockNonceMap(uint256)"
      [mkArgument "" (UintTy 256) false]
      [mkArgument "" (UintTy 256) false]);
    ("totalLockedAmounts", mkMethod "totalLockedAmounts(uint256)"
      [mkArgument "" (UintTy 256) false]
      [mkArgument "" (UintTy 256) false]);
    ("voucherAddressToDenomLookup", mkMethod "voucherAddressToDenomLookup(address)"
      [mkArgument "" AddressTy false]
      [mkArgument "denom" StringTy false; mkArgument "exists" BoolTy false]);
    ("voucherBurnNonceMap", mkMethod "voucherBurnNonceMap(uint256)"
      [mkArgument "" (UintTy 256) false]
      [mkArgument "" (UintTy 256) false]);
    ("voucherBurnVotingRecords", mkMethod "voucherBurnVotingRecords(uint256,bytes32)"
      [mkArgument "" (UintTy 256) false; mkArgument "" (FixedBytesTy 32) false]
      [mkArgument "dynasty" (UintTy 256) false; mkArgument "accumlatedShares" (UintTy 256) false]);
    ("voucherMintNonceMap", mkMethod "voucherMintNonceMap(uint256)"
      [mkArgument "" (UintTy 256) false]
      [mkArgument "" (UintTy 256) false]);
    ("lockTokens", mkMethod "lockTokens(uint256,address)"
      [mkArgument "targetChainID" (UintTy 256) false; mkArgument "targetChainVoucherReceiver" AddressTy false]
      []);
    ("mintVouchers", mkMethod "mintVouchers(string,address,uint256,uint256,uint256)"
      [mkArgument "denom" StringTy false; mkArgument "targetChainVoucherReceiver" AddressTy false; mkArgument "mintedAmount" (UintTy 256) false; mkArgument "dynasty" (UintTy 256) false; mkArgument "sourceChainTokenLockNonce" (UintTy 256) false]
      []);
    ("burnVouchers", mkMethod "burnVouchers(address)"
      [mkArgument "targetChainTokenReceiver" AddressTy false]
      []);
    ("unlockTokens", mkMethod "unlockTokens(uint256,address,uint256,uint256,uint256)"
      [mkArgument "sourceChainID" (UintTy 256) false; mkArgument "targetChainTokenReceiver" AddressTy false; mkArgument "unlockAmount" (UintTy 256) false; mkArgument "dynasty" (UintTy 256) false; mkArgument "sourceChainVoucherBurnNonce" (UintTy 256) false]
      [])])
  (list_to_map [
    ("FailedToSendTFuel",
      [mkArgument "receiver" AddressTy true; mkArgument "amount" (UintTy 256) false]);
    ("MintVouchersToFallbackReceiver",
      [mkArgument "fallbackReceiver" AddressTy false; mkArgument "amount" (UintTy 256) false]);
    ("TFuelTokenLocked",
      [mkArgument "denom" StringTy false; mkArgument "sourceChainTokenSender" AddressTy false; mkArgument "targetChainID" (UintTy 256) false; mkArgument "targetChainVoucherReceiver" AddressTy false; mkArgument "lockedAmount" (UintTy 256) false; mkArgument "tokenLockNonce" (UintTy 256) false]);
    ("TFuelTokenUnlocked",
      [mkArgument "denom" StringTy false; mkArgument "targetChainTokenReceiver" AddressTy false; mkArgument "unlockedAmount" (UintTy 256) false; mkArgument "sourceChainVoucherBurnNonce" (UintTy 256) false; mkArgument "tokenUnlockNonce" (UintTy 256) false]);
    ("TFuelVoucherBurned",
      [mkArgument "denom" StringTy false; mkArgument "sourceChainVoucherOwner" AddressTy false; mkArgument "targetChainTokenReceiver" AddressTy false; mkArgument "burnedAmount" (UintTy 256) false; mkArgument "voucherBurnNonce" (UintTy 256) false]);
    ("TFuelVoucherMinted",
      [mkArgument "denom" StringTy false; mkArgument "targetChainVoucherReceiver" AddressTy false; mkArgument "mintedAmount" (UintTy 256) false; mkArgument "sourceChainTokenLockNonce" (UintTy 256) false; mkArgument "voucherMintNonce" (UintTy 256) false]);
    ("UnlockTokensToFallbackReceiver",
      [mkArgument "fallbackReceiver" AddressTy false; mkArgument "amount" (UintTy 256) false])]).

Definition TNT20TokenBankABI : ABI := mkABI
  (list_to_map [
    ("allDenoms", mkMethod "allDenoms(uint256)"
      [mkArgument "" (UintTy 256) false]
      [mkArgument "" StringTy false]);
    ("allVouchers", mkMethod "allVouchers(uint256)"
      [mkArgument "" (UintTy 256) false]
      [mkArgument "" AddressTy false]);
    ("denomToVoucherLookup", mkMethod "denomToVoucherLookup(string)"
      [mkArgument "" StringTy false]
      [mkArgument "contractAddress" AddressTy false; mkArgument "exists" BoolTy false]);
    ("exists", mkMethod "exists(string)"
      [mkArgument "denom" StringTy false]
      [mkArgument "" BoolTy false]);
    ("exists0", mkMethod "exists(address)"
      [mkArgument "voucherAddress" AddressTy false]
      [mkArgument "" BoolTy false]);
    ("getAdjustedValidatorSet", mkMethod "getAdjustedValidatorSet(uint256,uint256)"
      [mkArgument "subchainID" (UintTy 256) false; mkArgument "dynasty" (UintTy 256) false]
      [mkArgument "validators" (SliceTy AddressTy) false; mkArgument "shareAmounts" (SliceTy (UintTy 256)) false]);
    ("getDenom", mkMethod "getDenom(address)"
      [mkArgument "voucherContractAddr" AddressTy false]
      [mkArgument "" StringTy false]);
    ("getMaxProcessedTokenLockNonce", mkMethod "getMaxProcessedTokenLockNonce(uint256)"
      [mkArgument "chainID" (UintTy 256) false]
      [mkArgument "" (UintTy 256) false]);
    ("getMaxProcessedVoucherBurnNonce", mkMethod "getMaxProcessedVoucherBurnNonce(uint256)"
      [mkArgument "chainID" (UintTy 256) false]
      [mkArgument "" (UintTy 256) false]);
    ("getTokenLockEventHeight", mkMethod "getTokenLockEventHeight(uint256,uint256)"
      [mkArgument "chainID" (UintTy 256) false; mkArgument "eventNonce" (UintTy 256) false]
      [mkArgument "" (UintTy 256) false]);
    ("getVoucher", mkMethod "getVoucher(string)"
      [mkArgument "denom" StringTy false]
      [mkArgument "" AddressTy false]);
    ("getVoucherBurnEventHeight", mkMethod "getVoucherBurnEventHeight(uint256,uint256)"
      [mkArgument "chainID" (UintTy 256) false; mkArgument "eventNonce" (UintTy 256) false]
      [mkArgument "" (UintTy 256) false]);
    ("mainchainID", mkMethod "mainchainID()"
      []
      [mkArgument "" (UintTy 256) false]);
    ("tokenLockNonceMap", mkMethod "tokenLockNonceMap(uint256)"
      [mkArgument "" (UintTy 256) false]
      [mkArgument "" (UintTy 256) false]);
    ("tokenLockVotingRecords", mkMethod "tokenLockVotingRecords(uint256,bytes32)"
      [mkArgument "" (UintTy 256) false; mkArgument "" (FixedBytesTy 32) false]
      [mkArgument "dynasty" (UintTy 256) false; mkArgument "accumlatedShares" (UintTy 256) false]);
    ("tokenUnlockNonceMap", mkMethod "tokenUnlockNonceMap(uint256)"
      [mkArgument "" (UintTy 256) false]
      [mkArgument "" (UintTy 256) false]);
    ("totalLockedAmounts", mkMethod "totalLockedAmounts(uint256,address)"
      [mkArgument "" (UintTy 256) false; mkArgument "" AddressTy false]
      [mkArgument "" (UintTy 256) false]);
    ("voucherAddressToDenomLookup", mkMethod "voucherAddressToDenomLookup(address)"
      [mkArgument "" AddressTy false]
      [mkArgument "denom" StringTy false; mkArgument "exists" BoolTy false]);
    ("voucherBurnNonceMap", mkMethod "voucherBurnNonceMap(uint256)"
      [mkArgument "" (UintTy 256) false]
      [mkArgument "" (UintTy 256) false]);
    ("voucherBurnVotingRecords", mkMethod "voucherBurnVotingRecords(uint256,bytes32)"
      [mkArgument "" (UintTy 256) false; mkArgument "" (FixedBytesTy 32) false]
      [mkArgument "dynasty" (UintTy 256) false; mkArgument "accumlatedShares" (UintTy 256) false]);
    ("voucherMintNonceMap", mkMethod "voucherMintNonceMap(uint256)"
      [mkArgument "" (UintTy 256) false]
      [mkArgument "" (UintTy 256) false]);
    ("lockTokens", mkMethod "lockTokens(uint256,address,address,uint256)"
      [mkArgument "targetChainID" (UintTy 256) false; mkArgument "sourceChainTNT20Contract" AddressTy false; mkArgument "targetChainVoucherReceiver" AddressTy false; mkArgument "lockAmount" (UintTy 256) false]
      []);
    ("mintVouchers", mkMethod "mintVouchers(string,string,string,uint8,address,uint256,uint256,uint256)"
      [mkArgument "denom" StringTy false; mkArgument "name" StringTy false; mkArgument "symbol" StringTy false; mkArgument "decimals" (UintTy 8) false; mkArgument "targetChainVoucherReceiver" AddressTy false; mkArgument "mintedAmount" (UintTy 256) false; mkArgument "dynasty" (UintTy 256) false; mkArgument "sourceChainTokenLockNonce" (UintTy 256) false]
      []);
    ("burnVouchers", mkMethod "burnVouchers(address,address,uint256)"
      [mkArgument "sourceChainVoucherContractAddr" AddressTy false; mkArgument "targetChainTokenReceiver" AddressTy false; mkArgument "burnedAmount" (UintTy 256) false]
      []);
    ("unlockTokens", mkMethod "unlockTokens(uint256,string,address,uint256,uint256,uint256)"
      [mkArgument "sourceChainID" (UintTy 256) false; mkArgument "denom" StringTy false; mkArgument "targetChainTokenReceiver" AddressTy false; mkArgument "unlockAmount" (UintTy 256) false; mkArgument "dynasty" (UintTy 256) false; mkArgument "sourceChainVoucherBurnNonce" (UintTy 256) false]
      [])])
  (list_to_map [
    ("FailedToSendTFuel",
      [mkArgument "receiver" AddressTy true; mkArgument "amount" (UintTy 256) false]);
    ("MintVouchersToFallbackReceiver",
      [mkArgument "fallbackReceiver" AddressTy false; mkArgument "voucherContractAddress" AddressTy false; mkArgument "amount" (UintTy 256) false]);
    ("TNT20TokenLocked",
      [mkArgument "denom" StringTy false; mkArgument "sourceChainTokenSender" AddressTy false; mkArgument "targetChainID" (UintTy 256) false; mkArgument "targetChainVoucherReceiver" AddressTy false; mkArgument "lockedAmount" (UintTy 256) false; mkArgument "name" StringTy false; mkArgument "symbol" StringTy false; mkArgument "decimals" (UintTy 8) false; mkArgument "tokenLockNonce" (UintTy 256) false]);
    ("TNT20TokenUnlocked",
      [mkArgument "denom" StringTy false; mkArgument "targetChainTokenReceiver" AddressTy false; mkArgument "unlockedAmount" (UintTy 256) false; mkArgument "sourceChainVoucherBurnNonce" (UintTy 256) false; mkArgument "tokenUnlockNonce" (UintTy 256) false]);
    ("TNT20VoucherBurned",
      [mkArgument "denom" StringTy false; mkArgument "sourceChainVoucherOwner" AddressTy false; mkArgument "targetChainTokenReceiver" AddressTy false; mkArgument "burnedAmount" (UintTy 256) false; mkArgument "voucherBurnNonce" (UintTy 256) false]);
    ("TNT20VoucherMinted",
      [mkArgument "denom" StringTy false; mkArgument "targetChainVoucherReceiver" AddressTy false; mkArgument "voucherContract" AddressTy false; mkArgument "mintedAmount" (UintTy 256) false; mkArgument "sourceChainTokenLockNonce" (UintTy 256) false; mkArgument "voucherMintNonce" (UintTy 256) false]);
    ("UnlockTokensToFallbackReceiver",
      [mkArgument "fallbackReceiver" AddressTy false; mkArgument "tokenContractAddress" AddressTy false; mkArgument "amount" (UintTy 256) false])]).

Definition TNT721TokenBankABI : ABI := mkABI
  (list_to_map [
    ("allDenoms", mkMethod "allDenoms(uint256)"
      [mkArgument "" (UintTy 256) false]
      [mkArgument "" StringTy false]);
    ("allVouchers", mkMethod "allVouchers(uint256)"
      [mkArgument "" (UintTy 256) false]
      [mkArgument "" AddressTy false]);
    ("denomToVoucherLookup", mkMethod "denomToVoucherLookup(string)"
      [mkArgument "" StringTy false]
      [mkArgument "contractAddress" AddressTy false; mkArgument "exists" BoolTy false]);
    ("exists", mkMethod "exists(string)"
      [mkArgument "denom" StringTy false]
      [mkArgument "" BoolTy false]);
    ("exists0", mkMethod "exists(address)"
      [mkArgument "voucherAddress" AddressTy false]
      [mkArgument "" BoolTy false]);
    ("getAdjustedValidatorSet", mkMethod "getAdjustedValidatorSet(uint256,uint256)"
      [mkArgument "subchainID" (UintTy 256) false; mkArgument "dynasty" (UintTy 256) false]
      [mkArgument "validators" (SliceTy AddressTy) false; mkArgument "shareAmounts" (SliceTy (UintTy 256)) false]);
    ("getDenom", mkMethod "getDenom(address)"
      [mkArgument "voucherContractAddr" AddressTy false]
      [mkArgument "" StringTy false]);
    ("getMaxProcessedTokenLockNonce", mkMethod "getMaxProcessedTokenLockNonce(uint256)"
      [mkArgument "chainID" (UintTy 256) false]
      [mkArgument "" (UintTy 256) false]);
    ("getMaxProcessedVoucherBurnNonce", mkMethod "getMaxProcessedVoucherBurnNonce(uint256)"
      [mkArgument "chainID" (UintTy 256) false]
      [mkArgument "" (UintTy 256) false]);
    ("getTokenLockEventHeight", mkMethod "getTokenLockEventHeight(uint256,uint256)"
      [mkArgument "chainID" (UintTy 256) false; mkArgument "eventNonce" (UintTy 256) false]
      [mkArgument "" (UintTy 256) false]);
    ("getVoucher", mkMethod "getVoucher(string)"
      [mkArgument "denom" StringTy false]
      [mkArgument "" AddressTy false]);
    ("getVoucherBurnEventHeight", mkMethod "getVoucherBurnEventHeight(uint256,uint256)"
      [mkArgument "chainID" (UintTy 256) false; mkArgument "eventNonce" (UintTy 256) false]
      [mkArgument "" (UintTy 256) false]);
    ("mainchainID", mkMethod "mainchainID()"
      []
      [mkArgument "" (UintTy 256) false]);
    ("tokenLockNonceMap", mkMethod "tokenLockNonceMap(uint256)"
      [mkArgument "" (UintTy 256) false]
      [mkArgument "" (UintTy 256) false]);
    ("tokenLockVotingRecords", mkMethod "tokenLockVotingRecords(uint256,bytes32)"
      [mkArgument "" (UintTy 256) false; mkArgument "" (FixedBytesTy 32) false]
      [mkArgument "dynasty" (UintTy 256) false; mkArgument "accumlatedShares" (UintTy 256) false]);
    ("tokenUnlockNonceMap", mkMethod "tokenUnlockNonceMap(uint256)"
      [mkArgument "" (UintTy 256) false]
      [mkArgument "" (UintTy 256) false]);
    ("totalLockedAmounts", mkMethod "totalLockedAmounts(uint256,address,uint256)"
      [mkArgument "" (UintTy 256) false; mkArgument "" AddressTy false; mkArgument "" (UintTy 256) false]
      [mkArgument "" (UintTy 256) false]);
    ("voucherAddressToDenomLookup", mkMethod "voucherAddressToDenomLookup(address)"
      [mkArgument "" AddressTy false]
      [mkArgument "denom" StringTy false; mkArgument "exists" BoolTy false]);
    ("voucherBurnNonceMap", mkMethod "voucherBurnNonceMap(uint256)"
      [mkArgument "" (UintTy 256) false]
      [mkArgument "" (UintTy 256) false]);
    ("voucherBurnVotingRecords", mkMethod "voucherBurnVotingRecords(uint256,bytes32)"
      [mkArgument "" (UintTy 256) false; mkArgument "" (FixedBytesTy 32) false]
      [mkArgument "dynasty" (UintTy 256) false; mkArgument "accumlatedShares" (UintTy 256) false]);
    ("voucherMintNonceMap", mkMethod "voucherMintNonceMap(uint256)"
      [mkArgument "" (UintTy 256) false]
      [mkArgument "" (UintTy 256) false]);
    ("lockTokens", mkMethod "lockTokens(uint256,address,address,uint256)"
      [mkArgument "targetChainID" (UintTy 256) false; mkArgument "sourceChainTNT721Contract" AddressTy false; mkArgument "targetChainVoucherReceiver" AddressTy false; mkArgument "tokenID" (UintTy 256) false]
      []);
    ("mintVouchers", mkMethod "mintVouchers(string,string,string,address,uint256,string,uint256,uint256)"
      [mkArgument "denom" StringTy false; mkArgument "name" StringTy false; mkArgument "symbol" StringTy false; mkArgument "targetChainVoucherReceiver" AddressTy false; mkArgument "tokenID" (UintTy 256) false; mkArgument "tokenUri" StringTy false; mkArgument "dynasty" (UintTy 256) false; mkArgument "sourceChainTokenLockNonce" (UintTy 256) false]
      []);
    ("burnVouchers", mkMethod "burnVouchers(address,address,uint256)"
      [mkArgument "sourceChainVoucherContractAddr" AddressTy false; mkArgument "targetChainTokenReceiver" AddressTy false; mkArgument "tokenID" (UintTy 256) false]
      []);
    ("unlockTokens", mkMethod "unlockTokens(uint256,string,address,uint256,uint256,uint256)"
      [mkArgument "sourceChainID" (UintTy 256) false; mkArgument "denom" StringTy false; mkArgument "targetChainTokenReceiver" AddressTy false; mkArgument "tokenID" (UintTy 256) false; mkArgument "dynasty" (UintTy 256) false; mkArgument "sourceChainVoucherBurnNonce" (UintTy 256) false]
      [])])
  (list_to_map [
    ("FailedToSendTFuel",
      [mkArgument "receiver" AddressTy true; mkArgument "amount" (UintTy 256) false]);
    ("MintVouchersToFallbackReceiver",
      [mkArgument "fallbackReceiver" AddressTy false; mkArgument "voucherContractAddress" AddressTy false; mkArgument "tokenID" (UintTy 256) false]);
    ("TNT721TokenLocked",
      [mkArgument "denom" StringTy false; mkArgument "sourceChainTokenSender" AddressTy false; mkArgument "targetChainID" (UintTy 256) false; mkArgument "targetChainVoucherReceiver" AddressTy false; mkArgument "tokenID" (UintTy 256) false; mkArgument "name" StringTy false; mkArgument "symbol" StringTy false; mkArgument "tokenURI" StringTy false; mkArgument "tokenLockNonce" (UintTy 256) false]);
    ("TNT721TokenUnlocked",
      [mkArgument "denom" StringTy false; mkArgument "targetChainTokenReceiver" AddressTy false; mkArgument "tokenID" (UintTy 256) false; mkArgument "sourceChainVoucherBurnNonce" (UintTy 256) false; mkArgument "tokenUnlockNonce" (UintTy 256) false]);
    ("TNT721VoucherBurned",
      [mkArgument "denom" StringTy false; mkArgument "sourceChainVoucherOwner" AddressTy false; mkArgument "targetChainTokenReceiver" AddressTy false; mkArgument "tokenID" (UintTy 256) false; mkArgument "voucherBurnNonce" (UintTy 256) false]);
    ("TNT721VoucherMinted",
      [mkArgument "denom" StringTy false; mkArgument "targetChainVoucherReceiver" AddressTy false; mkArgument "voucherContract" AddressTy false; mkArgument "tokenID" (UintTy 256) false; mkArgument "sourceChainTokenLockNonce" (UintTy 256) false; mkArgument "voucherMintNonce" (UintTy 256) false]);
    ("UnlockTokensToFallbackReceiver",
      [mkArgument "fallbackReceiver" AddressTy false; mkArgument "tokenContractAddress" AddressTy false; mkArgument "tokenID" (UintTy 256) false])]).

Definition TNT1155TokenBankABI : ABI := mkABI
  (list_to_map [
    ("allDenoms", mkMethod "allDenoms(uint256)"
      [mkArgument "" (UintTy 256) false]
      [mkArgument "" StringTy false]);
    ("allVouchers", mkMethod "allVouchers(uint256)"
      [mkArgument "" (UintTy 256) false]
      [mkArgument "" AddressTy false]);
    ("denomToVoucherLookup", mkMethod "denomToVoucherLookup(string)"
      [mkArgument "" StringTy false]
      [mkArgument "contractAddress" AddressTy false; mkArgument "exists" BoolTy false]);
    ("exists", mkMethod "exists(string)"
      [mkArgument "denom" StringTy false]
      [mkArgument "" BoolTy false]);
    ("exists0", mkMethod "exists(address)"
      [mkArgument "voucherAddress" AddressTy false]
      [mkArgument "" BoolTy false]);
    ("getAdjustedValidatorSet", mkMethod "getAdjustedValidatorSet(uint256,uint256)"
      [mkArgument "subchainID" (UintTy 256) false; mkArgument "dynasty" (UintTy 256) false]
      [mkArgument "validators" (SliceTy AddressTy) false; mkArgument "shareAmounts" (SliceTy (UintTy 256)) false]);
    ("getDenom", mkMethod "getDenom(address)"
      [mkArgument "voucherContractAddr" AddressTy false]
      [mkArgument "" StringTy false]);
    ("getMaxProcessedTokenLockNonce", mkMethod "getMaxProcessedTokenLockNonce(uint256)"
      [mkArgument "chainID" (UintTy 256) false]
      [mkArgument "" (UintTy 256) false]);
    ("getMaxProcessedVoucherBurnNonce", mkMethod "getMaxProcessedVoucherBurnNonce(uint256)"
      [mkArgument "chainID" (UintTy 256) false]
      [mkArgument "" (UintTy 256) false]);
    ("getTokenLockEventHeight", mkMethod "getTokenLockEventHeight(uint256,uint256)"
      [mkArgument "chainID" (UintTy 256) false; mkArgument "eventNonce" (UintTy 256) false]
      [mkArgument "" (UintTy 256) false]);
    ("getVoucher", mkMethod "getVoucher(string)"
      [mkArgument "denom" StringTy false]
      [mkArgument "" AddressTy false]);
    ("getVoucherBurnEventHeight", mkMethod "getVoucherBurnEventHeight(uint256,uint256)"
      [mkArgument "chainID" (UintTy 256) false; mkArgument "eventNonce" (UintTy 256) false]
      [mkArgument "" (UintTy 256) false]);
    ("mainchainID", mkMethod "mainchainID()"
      []
      [mkArgument "" (UintTy 256) false]);
    ("onERC1155BatchReceived", mkMethod "onERC1155BatchReceived(address,address,uint256[],uint256[],bytes)"
      [mkArgument "" AddressTy false; mkArgument "" AddressTy false; mkArgument "" (SliceTy (UintTy 256)) false; mkArgument "" (SliceTy (UintTy 256)) false; mkArgument "" BytesTy false]
      [mkArgument "" (FixedBytesTy 4) false]);
    ("onERC1155Received", mkMethod "onERC1155Received(address,address,uint256,uint256,bytes)"
      [mkArgument "" AddressTy false; mkArgument "" AddressTy false; mkArgument "" (UintTy 256) false; mkArgument "" (UintTy 256) false; mkArgument "" BytesTy false]
      [mkArgument "" (FixedBytesTy 4) false]);
    ("supportsInterface", mkMethod "supportsInterface(bytes4)"
      [mkArgument "interfaceId" (FixedBytesTy 4) false]
      [mkArgument "" BoolTy false]);
    ("tokenLockNonceMap", mkMethod "tokenLockNonceMap(uint256)"
      [mkArgument "" (UintTy 256) false]
      [mkArgument "" (UintTy 256) false]);
    ("tokenLockVotingRecords", mkMethod "tokenLockVotingRecords(uint256,bytes32)"
      [mkArgument "" (UintTy 256) false; mkArgument "" (FixedBytesTy 32) false]
      [mkArgument "dynasty" (UintTy 256) false; mkArgument "accumlatedShares" (UintTy 256) false]);
    ("tokenUnlockNonceMap", mkMethod "tokenUnlockNonceMap(uint256)"
      [mkArgument "" (UintTy 256) false]
      [mkArgument "" (UintTy 256) false]);
    ("totalLockedAmounts", mkMethod "totalLockedAmounts(uint256,address,uint256)"
      [mkArgument "" (UintTy 256) false; mkArgument "" AddressTy false; mkArgument "" (UintTy 256) false]
      [mkArgument "" (UintTy 256) false]);
    ("voucherAddressToDenomLookup", mkMethod "voucherAddressToDenomLookup(address)"
      [mkArgument "" AddressTy false]
      [mkArgument "denom" StringTy false; mkArgument "exists" BoolTy false]);
    ("voucherBurnNonceMap", mkMethod "voucherBurnNonceMap(uint256)"
      [mkArgument "" (UintTy 256) false]
      [mkArgument "" (UintTy 256) false]);
    ("voucherBurnVotingRecords", mkMethod "voucherBurnVotingRecords(uint256,bytes32)"
      [mkArgument "" (UintTy 256) false; mkArgument "" (FixedBytesTy 32) false]
      [mkArgument "dynasty" (UintTy 256) false; mkArgument "accumlatedShares" (UintTy 256) false]);
    ("voucherMintNonceMap", mkMethod "voucherMintNonceMap(uint256)"
      [mkArgument "" (UintTy 256) false]
      [mkArgument "" (UintTy 256) false]);
    ("lockTokens", mkMethod "lockTokens(uint256,address,address,uint256,uint256)"
      [mkArgument "targetChainID" (UintTy 256) false; mkArgument "sourceChainTNT1155Contract" AddressTy false; mkArgument "targetChainVoucherReceiver" AddressTy false; mkArgument "tokenID" (UintTy 256) false; mkArgument "lockAmount" (UintTy 256) false]
      []);
    ("mintVouchers", mkMethod "mintVouchers(string,address,uint256,uint256,string,uint256,uint256)"
      [mkArgument "denom" StringTy false; mkArgument "targetChainVoucherReceiver" AddressTy false; mkArgument "tokenID" (UintTy 256) false; mkArgument "mintAmount" (UintTy 256) false; mkArgument "tokenUri" StringTy false; mkArgument "dynasty" (UintTy 256) false; mkArgument "sourceChainTokenLockNonce" (UintTy 256) false]
      []);
    ("burnVouchers", mkMethod "burnVouchers(address,address,uint256,uint256)"
      [mkArgument "sourceChainVoucherContractAddr" AddressTy false; mkArgument "targetChainTokenReceiver" AddressTy false; mkArgument "tokenID" (UintTy 256) false; mkArgument "burnAmount" (UintTy 256) false]
      []);
    ("unlockTokens", mkMethod "unlockTokens(uint256,string,address,uint256,uint256,uint256,uint256)"
      [mkArgument "sourceChainID" (UintTy 256) false; mkArgument "denom" StringTy false; mkArgument "targetChainTokenReceiver" AddressTy false; mkArgument "tokenID" (UintTy 256) false; mkArgument "unlockAmount" (UintTy 256) false; mkArgument "dynasty" (UintTy 256) false; mkArgument "sourceChainVoucherBurnNonce" (UintTy 256) false]
      [])])
  (list_to_map [
    ("FailedToSendTFuel",
      [mkArgument "receiver" AddressTy true; mkArgument "amount" (UintTy 256) false]);
    ("MintVouchersToFallbackReceiver",
      [mkArgument "fallbackReceiver" AddressTy false; mkArgument "voucherContractAddress" AddressTy false; mkArgument "tokenID" (UintTy 256) false; mkArgument "mintAmount" (UintTy 256) false]);
    ("TNT1155TokenLocked",
      [mkArgument "denom" StringTy false; mkArgument "sourceChainTokenSender" AddressTy false; mkArgument "targetChainID" (UintTy 256) false; mkArgument "targetChainVoucherReceiver" AddressTy false; mkArgument "tokenID" (UintTy 256) false; mkArgument "lockedAmount" (UintTy 256) false; mkArgument "tokenURI" StringTy false; mkArgument "tokenLockNonce" (UintTy 256) false]);
    ("TNT1155TokenUnlocked",
      [mkArgument "denom" StringTy false; mkArgument "targetChainTokenReceiver" AddressTy false; mkArgument "tokenID" (UintTy 256) false; mkArgument "unlockedAmount" (UintTy 256) false; mkArgument "sourceChainVoucherBurnNonce" (UintTy 256) false; mkArgument "tokenUnlockNonce" (UintTy 256) false]);
    ("TNT1155VoucherBurned",
      [mkArgument "denom" StringTy false; mkArgument "sourceChainVoucherOwner" AddressTy false; mkArgument "targetChainTokenReceiver" AddressTy false; mkArgument "tokenID" (UintTy 256) false; mkArgument "burnedAmount" (UintTy 256) false; mkArgument "voucherBurnNonce" (UintTy 256) false]);
    ("TNT1155VoucherMinted",
      [mkArgument "denom" StringTy false; mkArgument "targetChainVoucherReceiver" AddressTy false; mkArgument "voucherContract" AddressTy false; mkArgument "tokenID" (UintTy 256) false; mkArgument "mintedAmount" (UintTy 256) false; mkArgument "sourceChainTokenLockNonce" (UintTy 256) false; mkArgument "voucherMintNonce" (UintTy 256) false]);
    ("UnlockTokensToFallbackReceiver",
      [mkArgument "fallbackReceiver" AddressTy false; mkArgument "tokenContractAddress" AddressTy false; mkArgument "tokenID" (UintTy 256) false; mkArgument "unlockAmount" (UintTy 256) false])]).

Definition ChainRegistrarOnMainchainABI : ABI := mkABI
  (list_to_map [
    ("admin", mkMethod "admin()"
      []
      [mkArgument "" AddressTy false]);
    ("crossChainFee", mkMethod "crossChainFee()"
      []
      [mkArgument "" (UintTy 256) false]);
    ("fallbackReceiver", mkMethod "fallbackReceiver()"
      []
      [mkArgument "" AddressTy false]);
    ("governor", mkMethod "governor()"
      []
      [mkArgument "" AddressTy false]);
    ("initialFeeRequired", mkMethod "initialFeeRequired()"
      []
      [mkArgument "" (UintTy 256) false]);
    ("minChainCollateralAmount", mkMethod "minChainCollateralAmount()"
      []
      [mkArgument "" (UintTy 256) false]);
    ("numBlocksPerDynasty", mkMethod "numBlocksPerDynasty()"
      []
      [mkArgument "" (UintTy 256) false]);
    ("subchainIDs", mkMethod "subchainIDs(uint256)"
      [mkArgument "" (UintTy 256) false]
      [mkArgument "" (UintTy 256) false]);
    ("subchainMetadataMap", mkMethod "subchainMetadataMap(uint256)"
      [mkArgument "" (UintTy 256) false]
      [mkArgument "guarantor" AddressTy false; mkArgument "collateralAmount" (UintTy 256) false; mkArgument "governanceToken" AddressTy false; mkArgument "genesisHash" StringTy false; mkArgument "registrationHeight" (UintTy 256) false; mkArgument "exists" BoolTy false]);
    ("superAdmin", mkMethod "superAdmin()"
      []
      [mkArgument "" AddressTy false]);
    ("vcm", mkMethod "vcm()"
      []
      [mkArgument "" AddressTy false]);
    ("vsm", mkMethod "vsm()"
      []
      [mkArgument "" AddressTy false]);
    ("wTheta", mkMethod "wTheta()"
      []
      [mkArgument "" AddressTy false]);
    ("withdrawalPendingPeriodInBlocks", mkMethod "withdrawalPendingPeriodInBlocks()"
      []
      [mkArgument "" (UintTy 256) false]);
    ("registerSubchain", mkMethod "registerSubchain(uint256,address,uint256,string)"
      [mkArgument "subchainID" (UintTy 256) false; mkArgument "governanceToken" AddressTy false; mkArgument "collateralAmount" (UintTy 256) false; mkArgument "genesisHash" StringTy false]
      []);
    ("addSubchainCollateral", mkMethod "addSubchainCollateral(uint256,uint256)"
      [mkArgument "subchainID" (UintTy 256) false; mkArgument "additionalCollateral" (UintTy 256) false]
      []);
    ("deregisterSubchain", mkMethod "deregisterSubchain(uint256)"
      [mkArgument "subchainID" (UintTy 256) false]
      []);
    ("depositCollateral", mkMethod "depositCollateral(uint256,address,uint256)"
      [mkArgument "subchainID" (UintTy 256) false; mkArgument "validatorCandidate" AddressTy false; mkArgument "collateralAmount" (UintTy 256) false]
      []);
    ("withdrawCollateral", mkMethod "withdrawCollateral(uint256,address,uint256)"
      [mkArgument "subchainID" (UintTy 256) false; mkArgument "validatorCandidate" AddressTy false; mkArgument "collateralAmount" (UintTy 256) false]
      []);
    ("claimCollateral", mkMethod "claimCollateral(uint256)"
      [mkArgument "subchainID" (UintTy 256) false]
      []);
    ("depositStake", mkMethod "depositStake(uint256,address,uint256)"
      [mkArgument "subchainID" (UintTy 256) false; mkArgument "validator" AddressTy false; mkArgument "govTokenAmount" (UintTy 256) false]
      []);
    ("withdrawStake", mkMethod "withdrawStake(uint256,address,uint256)"
      [mkArgument "subchainID" (UintTy 256) false; mkArgument "validator" AddressTy false; mkArgument "shareAmount" (UintTy 256) false]
      []);
    ("claimStake", mkMethod "claimStake(uint256)"
      [mkArgument "subchainID" (UintTy 256) false]
      []);
    ("slashChainCollateral", mkMethod "slashChainCollateral(uint256,uint256)"
      [mkArgument "subchainID" (UintTy 256) false; mkArgument "slashAmount" (UintTy 256) false]
      []);
    ("slashValidatorCollateral", mkMethod "slashValidatorCollateral(uint256,address,address,uint256)"
      [mkArgument "subchainID" (UintTy 256) false; mkArgument "validator" AddressTy false; mkArgument "guarantor" AddressTy false; mkArgument "slashAmount" (UintTy 256) false]
      []);
    ("updateSuperAdmin", mkMethod "updateSuperAdmin(address)"
      [mkArgument "newSuperAdmin" AddressTy false]
      []);
    ("updateAdmin", mkMethod "updateAdmin(address)"
      [mkArgument "newAdmin" AddressTy false]
      []);
    ("updateGovernor", mkMethod "updateGovernor(address)"
      [mkArgument "newGovernor" AddressTy false]
      []);
    ("updateMinChainCollateralAmount", mkMethod "updateMinChainCollateralAmount(uint256)"
      [mkArgument "amount" (UintTy 256) false]
      []);
    ("updateMinValidatorCollateralAmount", mkMethod "updateMinValidatorCollateralAmount(uint256)"
      [mkArgument "amount" (UintTy 256) false]
      []);
    ("updateVCMOwner", mkMethod "updateVCMOwner(address)"
      [mkArgument "newOwner" AddressTy false]
      []);
    ("updateVSMOwner", mkMethod "updateVSMOwner(address)"
      [mkArgument "newOwner" AddressTy false]
      []);
    ("updateCrossChainFee", mkMethod "updateCrossChainFee(uint256)"
      [mkArgument "newCrossChainFee" (UintTy 256) false]
      []);
    ("updateFallbackReceiver", mkMethod "updateFallbackReceiver(address)"
      [mkArgument "newFallbackReceiver" AddressTy false]
      []);
    ("getDynasty", mkMethod "getDynasty()"
      []
      [mkArgument "dynasty" (UintTy 256) false; mkArgument "success" BoolTy false]);
    ("getCrossChainFee", mkMethod "getCrossChainFee()"
      []
      [mkArgument "" (UintTy 256) false]);
    ("getFallbackReceiver", mkMethod "getFallbackReceiver()"
      []
      [mkArgument "" AddressTy false]);
    ("getAllSubchainIDs", mkMethod "getAllSubchainIDs()"
      []
      [mkArgument "" (SliceTy (UintTy 256)) false]);
    ("isARegisteredSubchain", mkMethod "isARegisteredSubchain(uint256)"
      [mkArgument "subchainID" (UintTy 256) false]
      [mkArgument "" BoolTy false]);
    ("getSubchainMetadata", mkMethod "getSubchainMetadata(uint256)"
      [mkArgument "subchainID" (UintTy 256) false]
      [mkArgument "" (TupleTy [AddressTy; (UintTy 256); AddressTy; StringTy; (UintTy 256); BoolTy] ["guarantor"; "collateralAmount"; "governanceToken"; "genesisHash"; "registrationHeight"; "exists"] ["Guarantor"; "CollateralAmount"; "GovernanceToken"; "GenesisHash"; "RegistrationHeight"; "Exists"]) false]);
    ("getSubchainRegistrationHeight", mkMethod "getSubchainRegistrationHeight(uint256)"
      [mkArgument "subchainID" (UintTy 256) false]
      [mkArgument "" (UintTy 256) false; mkArgument "" BoolTy false]);
    ("getStakeSnapshotHeights", mkMethod "getStakeSnapshotHeights(uint256)"
      [mkArgument "subchainID" (UintTy 256) false]
      [mkArgument "" (SliceTy (UintTy 256)) false]);
    ("getNumBlocksPerDynasty", mkMethod "getNumBlocksPerDynasty()"
      []
      [mkArgument "" (UintTy 256) false]);
    ("getStakeSnapshot", mkMethod "getStakeSnapshot(uint256,uint256)"
      [mkArgument "subchainID" (UintTy 256) false; mkArgument "blockHeight" (UintTy 256) false]
      [mkArgument "exists" BoolTy false; mkArgument "targetSnapshotHeight" (UintTy 256) false; mkArgument "targetStakeSnapshot" (TupleTy [(UintTy 256); (SliceTy (TupleTy [AddressTy; (UintTy 256)] ["validator"; "shareAmount"] ["Validator"; "ShareAmount"]))] ["height"; "stakes"] ["Height"; "Stakes"]) false]);
    ("getValidatorSet", mkMethod "getValidatorSet(uint256,uint256)"
      [mkArgument "subchainID" (UintTy 256) false; mkArgument "dynasty" (UintTy 256) false]
      [mkArgument "validators" (SliceTy AddressTy) false; mkArgument "shareAmounts" (SliceTy (UintTy 256)) false]);
    ("getTotalValidatorShares", mkMethod "getTotalValidatorShares(uint256,uint256)"
      [mkArgument "subchainID" (UintTy 256) false; mkArgument "dynasty" (UintTy 256) false]
      [mkArgument "" (UintTy 256) false]);
    ("getValidatorShares", mkMethod "getValidatorShares(uint256,uint256,address)"
      [mkArgument "subchainID" (UintTy 256) false; mkArgument "blockHeight" (UintTy 256) false; mkArgument "validator" AddressTy false]
      [mkArgument "isAValidator" BoolTy false; mkArgument "shareAmount" (UintTy 256) false]);
    ("getValidatorGuarantorsWithPendingWithdrawals", mkMethod "getValidatorGuarantorsWithPendingWithdrawals(uint256)"
      [mkArgument "subchainID" (UintTy 256) false]
      [mkArgument "" (SliceTy AddressTy) false]);
    ("getPendingValidatorCollateralWithdrawals", mkMethod "getPendingValidatorCollateralWithdrawals(uint256,address)"
      [mkArgument "subchainID" (UintTy 256) false; mkArgument "guarantor" AddressTy false]
      [mkArgument "" (SliceTy (TupleTy [AddressTy; (UintTy 256); (UintTy 256)] ["receiver"; "amount"; "returnHeight"] ["Receiver"; "Amount"; "ReturnHeight"])) false]);
    ("getStakersWithPendingWithdrawals", mkMethod "getStakersWithPendingWithdrawals(uint256)"
      [mkArgument "subchainID" (UintTy 256) false]
      [mkArgument "" (SliceTy AddressTy) false]);
    ("getPendingStakeWithdrawals", mkMethod "getPendingStakeWithdrawals(uint256,address)"
      [mkArgument "subchainID" (UintTy 256) false; mkArgument "staker" AddressTy false]
      [mkArgument "" (SliceTy (TupleTy [AddressTy; (UintTy 256); (UintTy 256)] ["receiver"; "amount"; "returnHeight"] ["Receiver"; "Amount"; "ReturnHeight"])) false])])
  (list_to_map [
    ("SlashChainCollateral",
      [mkArgument "subchainID" (UintTy 256) false; mkArgument "slashAmount" (UintTy 256) false]);
    ("SlashValidatorCollateral",
      [mkArgument "subchainID" (UintTy 256) false; mkArgument "validator" AddressTy false; mkArgument "slashAmount" (UintTy 256) false])]).

(** ** Accessors *)

Definition big (z : Z) : GoVal := GBig (Some z).
Definition address_val (a : Address) : GoVal := byte_array (be_bytes 20 a).

Section Accessors.
Context {W : Type} `{!Backend W}.

(** A method that returns one number. *)
Definition call_big (c : BoundContract) (method : string) (params : list GoVal) : IO W Z :=
  out ← Call c no_call_opts method params;
  match out with
  | GBig (Some z) :: _ => mret z
  | _ => lift (Panic "interface conversion")
  end.

(** tfuel_token_bank.go *)

Definition TFuelTokenBank_GetMaxProcessedTokenLockNonce (c : BoundContract) (chainID : Z) : IO W Z :=
  call_big c "getMaxProcessedTokenLockNonce" [big chainID].

Definition TFuelTokenBank_GetMaxProcessedVoucherBurnNonce (c : BoundContract) (chainID : Z) : IO W Z :=
  call_big c "getMaxProcessedVoucherBurnNonce" [big chainID].

Definition TFuelTokenBank_GetTokenLockEventHeight (c : BoundContract) (chainID eventNonce : Z) : IO W Z :=
  call_big c "getTokenLockEventHeight" [big chainID; big eventNonce].

Definition TFuelTokenBank_GetVoucherBurnEventHeight (c : BoundContract) (chainID eventNonce : Z) : IO W Z :=
  call_big c "getVoucherBurnEventHeight" [big chainID; big eventNonce].

Definition TFuelTokenBank_MintVouchers (c : BoundContract) (opts : TransactOpts)
    (denom : string) (targetChainVoucherReceiver : Address) (mintedAmount : option Z) (dynasty : option Z) (sourceChainTokenLockNonce : option Z) : IO W Transaction :=
  Transact c opts "mintVouchers"
    [GString denom; address_val targetChainVoucherReceiver; GBig mintedAmount; GBig dynasty; GBig sourceChainTokenLockNonce].

Definition TFuelTokenBank_UnlockTokens (c : BoundContract) (opts : TransactOpts)
    (sourceChainID : option Z) (targetChainTokenReceiver : Address) (unlockAmount : option Z) (dynasty : option Z) (sourceChainVoucherBurnNonce : option Z) : IO W Transaction :=
  Transact c opts "unlockTokens"
    [GBig sourceChainID; address_val targetChainTokenReceiver; GBig unlockAmount; GBig dynasty; GBig sourceChainVoucherBurnNonce].

(** tnt20_token_bank.go *)

Definition TNT20TokenBank_GetMaxProcessedTokenLockNonce (c : BoundContract) (chainID : Z) : IO W Z :=
  call_big c "getMaxProcessedTokenLockNonce" [big chainID].

Definition TNT20TokenBank_GetMaxProcessedVoucherBurnNonce (c : BoundContract) (chainID : Z) : IO W Z :=
  call_big c "getMaxProcessedVoucherBurnNonce" [big chainID].

Definition TNT20TokenBank_GetTokenLockEventHeight (c : BoundContract) (chainID eventNonce : Z) : IO W Z :=
  call_big c "getTokenLockEventHeight" [big chainID; big eventNonce].

Definition TNT20TokenBank_GetVoucherBurnEventHeight (c : BoundContract) (chainID eventNonce : Z) : IO W Z :=
  call_big c "getVoucherBurnEventHeight" [big chainID; big eventNonce].

Definition TNT20TokenBank_MintVouchers (c : BoundContract) (opts : TransactOpts)
    (denom : string) (name : string) (symbol : string) (decimals : Z) (targetChainVoucherReceiver : Address) (mintedAmount : option Z) (dynasty : option Z) (sourceChainTokenLockNonce : option Z) : IO W Transaction :=
  Transact c opts "mintVouchers"
    [GString denom; GString name; GString symbol; GUint 8 decimals; address_val targetChainVoucherReceiver; GBig mintedAmount; GBig dynasty; GBig sourceChainTokenLockNonce].

Definition TNT20TokenBank_UnlockTokens (c : BoundContract) (opts : TransactOpts)
    (sourceChainID : option Z) (denom : string) (targetChainTokenReceiver : Address) (unlockAmount : option Z) (dynasty : option Z) (sourceChainVoucherBurnNonce : option Z) : IO W Transaction :=
  Transact c opts "unlockTokens"
    [GBig sourceChainID; GString denom; address_val targetChainTokenReceiver; GBig unlockAmount; GBig dynasty; GBig sourceChainVoucherBurnNonce].

(** tnt721_tokenbank.go *)

Definition TNT721TokenBank_GetMaxProcessedTokenLockNonce (c : BoundContract) (chainID : Z) : IO W Z :=
  call_big c "getMaxProcessedTokenLockNonce" [big chainID].

Definition TNT721TokenBank_GetMaxProcessedVoucherBurnNonce (c : BoundContract) (chainID : Z) : IO W Z :=
  call_big c "getMaxProcessedVoucherBurnNonce" [big chainID].

Definition TNT721TokenBank_GetTokenLockEventHeight (c : BoundContract) (chainID eventNonce : Z) : IO W Z :=
  call_big c "getTokenLockEventHeight" [big chainID; big eventNonce].

Definition TNT721TokenBank_GetVoucherBurnEventHeight (c : BoundContract) (chainID eventNonce : Z) : IO W Z :=
  call_big c "getVoucherBurnEventHeight" [big chainID; big eventNonce].

Definition TNT721TokenBank_MintVouchers (c : BoundContract) (opts : TransactOpts)
    (denom : string) (name : string) (symbol : string) (targetChainVoucherReceiver : Address) (tokenID : option Z) (tokenUri : string) (dynasty : option Z) (sourceChainTokenLockNonce : option Z) : IO W Transaction :=
  Transact c opts "mintVouchers"
    [GString denom; GString name; GString symbol; address_val targetChainVoucherReceiver; GBig tokenID; GString tokenUri; GBig dynasty; GBig sourceChainTokenLockNonce].

Definition TNT721TokenBank_UnlockTokens (c : BoundContract) (opts : TransactOpts)
    (sourceChainID : option Z) (denom : string) (targetChainTokenReceiver : Address) (tokenID : option Z) (dynasty : option Z) (sourceChainVoucherBurnNonce : option Z) : IO W Transaction :=
  Transact c opts "unlockTokens"
    [GBig sourceChainID; GString denom; address_val targetChainTokenReceiver; GBig tokenID; GBig dynasty; GBig sourceChainVoucherBurnNonce].

(** tnt1155_tokenbank.go *)

Definition TNT1155TokenBank_GetMaxProcessedTokenLockNonce (c : BoundContract) (chainID : Z) : IO W Z :=
  call_big c "getMaxProcessedTokenLockNonce" [big chainID].

Definition TNT1155TokenBank_GetMaxProcessedVoucherBurnNonce (c : BoundContract) (chainID : Z) : IO W Z :=
  call_big c "getMaxProcessedVoucherBurnNonce" [big chainID].

Definition TNT1155TokenBank_GetTokenLockEventHeight (c : BoundContract) (chainID eventNonce : Z) : IO W Z :=
  call_big c "getTokenLockEventHeight" [big chainID; big eventNonce].

Definition TNT1155TokenBank_GetVoucherBurnEventHeight (c : BoundContract) (chainID eventNonce : Z) : IO W Z :=
  call_big c "getVoucherBurnEventHeight" [big chainID; big eventNonce].

Definition TNT1155TokenBank_MintVouchers (c : BoundContract) (opts : TransactOpts)
    (denom : string) (targetChainVoucherReceiver : Address) (tokenID : option Z) (mintAmount : option Z) (tokenUri : string) (dynasty : option Z) (sourceChainTokenLockNonce : option Z) : IO W Transaction :=
  Transact c opts "mintVouchers"
    [GString denom; address_val targetChainVoucherReceiver; GBig tokenID; GBig mintAmount; GString tokenUri; GBig dynasty; GBig sourceChainTokenLockNonce].

Definition TNT1155TokenBank_UnlockTokens (c : BoundContract) (opts : TransactOpts)
    (sourceChainID : option Z) (denom : string) (targetChainTokenReceiver : Address) (tokenID : option Z) (unlockAmount : option Z) (dynasty : option Z) (sourceChainVoucherBurnNonce : option Z) : IO W Transaction :=
  Transact c opts "unlockTokens"
    [GBig sourceChainID; GString denom; address_val targetChainTokenReceiver; GBig tokenID; GBig unlockAmount; GBig dynasty; GBig sourceChainVoucherBurnNonce].

(** A method that returns addresses and amounts. *)
Definition call_sets (c : BoundContract) (method : string) (params : list GoVal) : IO W (list Address * list Z) :=
  out ← Call c no_call_opts method params;
  match out with
  | GSlice _ addrs :: GSlice _ amounts :: _ =>
      mret (List.map (fun v => match v with GArray _ l => be_value (List.map byte_val l) | _ => 0 end) addrs,
            List.map (fun v => match v with GBig (Some z) => z | _ => 0 end) amounts)
  | _ => lift (Panic "interface conversion")
  end.

Definition TFuelTokenBank_GetAdjustedValidatorSet (c : BoundContract) (subchainID dynasty : Z) : IO W (list Address * list Z) :=
  call_sets c "getAdjustedValidatorSet" [big subchainID; big dynasty].

Definition TNT20TokenBank_GetAdjustedValidatorSet (c : BoundContract) (subchainID dynasty : Z) : IO W (list Address * list Z) :=
  call_sets c "getAdjustedValidatorSet" [big subchainID; big dynasty].

Definition ChainRegistrarOnMainchain_GetValidatorSet (c : BoundContract) (subchainID dynasty : Z) : IO W (list Address * list Z) :=
  call_sets c "getValidatorSet" [big subchainID; big dynasty].

End Accessors.
