(* ===== verification/InterChain.v ===== *)
(** * InterChain: inter-chain message events (src/core/inter_chain_message_event.go)

    The events that token banks emit on one chain and nodes relay to another:
    the event record with its RLP encoding, the sixteen kinds of token bank
    events with their parsers, and the denominations of tokens. *)

From Stdlib Require Import Ascii.
From stdpp Require Import gmap sorting.
From stdpp Require Import base list numbers strings.
From S2P Require Import Prelude Text Abi AbiSpec Bind TokenBanks.
Open Scope string_scope.
Open Scope list_scope.
Open Scope Z_scope.

(** ** Event types *)

Definition IMCEventTypeUnknown : Z := 0.
Definition IMCEventTypeCrossChainTokenLockTFuel : Z := 10001.
Definition IMCEventTypeCrossChainTokenLockTNT20 : Z := 10002.
Definition IMCEventTypeCrossChainTokenLockTNT721 : Z := 10003.
Definition IMCEventTypeCrossChainTokenLockTNT1155 : Z := 10004.
Definition IMCEventTypeCrossChainVoucherMintTFuel : Z := 20001.
Definition IMCEventTypeCrossChainVoucherMintTNT20 : Z := 20002.
Definition IMCEventTypeCrossChainVoucherMintTNT721 : Z := 20003.
Definition IMCEventTypeCrossChainVoucherMintTNT1155 : Z := 20004.
Definition IMCEventTypeCrossChainTokenUnlockTFuel : Z := 30001.
Definition IMCEventTypeCrossChainTokenUnlockTNT20 : Z := 30002.
Definition IMCEventTypeCrossChainTokenUnlockTNT721 : Z := 30003.
Definition IMCEventTypeCrossChainTokenUnlockTNT1155 : Z := 30004.
Definition IMCEventTypeCrossChainVoucherBurnTFuel : Z := 40001.
Definition IMCEventTypeCrossChainVoucherBurnTNT20 : Z := 40002.
Definition IMCEventTypeCrossChainVoucherBurnTNT721 : Z := 40003.
Definition IMCEventTypeCrossChainVoucherBurnTNT1155 : Z := 40004.

(** ** Events *)

(** A [*big.Int] field is [None] when the pointer is nil. *)
Record InterChainMessageEvent := mkICME {
  IType : Z;
  SourceChainID : option Z;
  TargetChainID : option Z;
  Sender : Address;
  Receiver : Address;
  IData : list Z;
  INonce : option Z;
  BlockHeight : option Z
}.

Definition zero_event : InterChainMessageEvent := mkICME 0 None None 0 0 [] None None.

(** [x.String()] of a [*big.Int], nil included. *)
Definition big_string (x : option Z) : string :=
  match x with Some z => decimal z | None => "<nil>" end.

(** The text that [ID] hashes. *)
Definition event_text (c : InterChainMessageEvent) : string :=
  (decimal (IType c) ++ "/" ++ big_string (SourceChainID c) ++ "/" ++ big_string (INonce c))%string.

(** [ID] *)
Definition ID (keccak : list Z -> list Z) (c : InterChainMessageEvent) : string :=
  hex_encode (keccak (string_bytes (event_text c))).

(** [x.Cmp(y)] of two [*big.Int] *)
Definition big_cmp (x y : option Z) : outcome comparison :=
  match x, y with
  | Some x, Some y => Ok (x ?= y)
  | None, None => Ok Eq
  | _, _ => Panic "nil pointer dereference"
  end.

(** [Equals]: the chain identifiers are compared as pointers; [same_source] and
    [same_target] say whether the two events share them. *)
Definition Equals (same_source same_target : bool) (c x : InterChainMessageEvent) : outcome bool :=
  if negb (IType c =? IType x) then Ok false
  else if negb same_source then Ok false
  else if negb same_target then Ok false
  else
    nonces ← big_cmp (INonce c) (INonce x);
    if negb (bool_decide (nonces = Eq)) then Ok false
    else if negb (Sender c =? Sender x) then Ok false
    else if negb (Receiver c =? Receiver x) then Ok false
    else if negb (bool_decide (IData c = IData x)) then Ok false
    else
      heights ← big_cmp (BlockHeight c) (BlockHeight x);
      Ok (bool_decide (heights = Eq)).

(** [ICMEByID.Less] *)
Definition ICMEByID_Less (b : list InterChainMessageEvent) (i j : nat) : outcome bool :=
  match b !! i, b !! j with
  | Some x, Some y => c ← big_cmp (INonce x) (INonce y); Ok (bool_decide (c = Lt))
  | _, _ => Panic "index out of range"
  end.

(** ** RLP

    An RLP item is a string of bytes or a list of items.  An unsigned number is
    the string of its big-endian bytes without leading zeros; theta's rlp refuses
    negative numbers and, on reading, leading zeros. *)
Inductive RlpItem :=
| RStr (bytes : list Z)
| RList (items : list RlpItem).

Definition min_bytes (z : Z) : list Z := if z =? 0 then [] else be_bytes (Z.to_nat (Z.log2 z / 8 + 1)) z.

Definition rlp_big (x : option Z) : outcome RlpItem :=
  match x with
  | None => Ok (RStr [])
  | Some z => if z <? 0 then Err "rlp: cannot encode negative *big.Int" else Ok (RStr (min_bytes z))
  end.

Definition read_big (i : RlpItem) : outcome Z :=
  match i with
  | RList _ => Err "rlp: expected input string or byte"
  | RStr l =>
      match l with
      | 0 :: _ => Err "rlp: leading zero bytes"
      | _ => Ok (be_value l)
      end
  end.

Definition read_uint64 (i : RlpItem) : outcome Z :=
  z ← read_big i; if z <? two64 then Ok z else Err "rlp: input string too long".

Definition read_address (i : RlpItem) : outcome Address :=
  match i with
  | RStr l => if (length l =? 20)%nat then Ok (be_value l) else Err "rlp: input string of the wrong size"
  | RList _ => Err "rlp: expected input string or byte"
  end.

Definition read_bytes (i : RlpItem) : outcome (list Z) :=
  match i with RStr l => Ok l | RList _ => Err "rlp: expected input string or byte" end.

(** [EncodeRLP] *)
Definition EncodeRLP (c : InterChainMessageEvent) : outcome RlpItem :=
  source ← rlp_big (SourceChainID c);
  target ← rlp_big (TargetChainID c);
  nonce ← rlp_big (INonce c);
  height ← rlp_big (BlockHeight c);
  Ok (RList [RStr (min_bytes (IType c)); source; target; RStr (be_bytes 20 (Sender c));
             RStr (be_bytes 20 (Receiver c)); RStr (IData c); nonce; height]).

(** Assignments to the fields of an event. *)
Definition set_type (c : InterChainMessageEvent) (t : Z) : InterChainMessageEvent :=
  mkICME t (SourceChainID c) (TargetChainID c) (Sender c) (Receiver c) (IData c) (INonce c) (BlockHeight c).
Definition set_source (c : InterChainMessageEvent) (z : Z) : InterChainMessageEvent :=
  mkICME (IType c) (Some z) (TargetChainID c) (Sender c) (Receiver c) (IData c) (INonce c) (BlockHeight c).
Definition set_target (c : InterChainMessageEvent) (z : Z) : InterChainMessageEvent :=
  mkICME (IType c) (SourceChainID c) (Some z) (Sender c) (Receiver c) (IData c) (INonce c) (BlockHeight c).
Definition set_sender (c : InterChainMessageEvent) (a : Address) : InterChainMessageEvent :=
  mkICME (IType c) (SourceChainID c) (TargetChainID c) a (Receiver c) (IData c) (INonce c) (BlockHeight c).
Definition set_receiver (c : InterChainMessageEvent) (a : Address) : InterChainMessageEvent :=
  mkICME (IType c) (SourceChainID c) (TargetChainID c) (Sender c) a (IData c) (INonce c) (BlockHeight c).
Definition set_data (c : InterChainMessageEvent) (d : list Z) : InterChainMessageEvent :=
  mkICME (IType c) (SourceChainID c) (TargetChainID c) (Sender c) (Receiver c) d (INonce c) (BlockHeight c).
Definition set_nonce (c : InterChainMessageEvent) (z : Z) : InterChainMessageEvent :=
  mkICME (IType c) (SourceChainID c) (TargetChainID c) (Sender c) (Receiver c) (IData c) (Some z) (BlockHeight c).
Definition set_height (c : InterChainMessageEvent) (z : Z) : InterChainMessageEvent :=
  mkICME (IType c) (SourceChainID c) (TargetChainID c) (Sender c) (Receiver c) (IData c) (INonce c) (Some z).

(** The steps of [DecodeRLP], one per field. *)
Definition field_readers : list (RlpItem -> InterChainMessageEvent -> outcome InterChainMessageEvent) :=
  [fun i c => set_type c <$> read_uint64 i;
   fun i c => set_source c <$> read_big i;
   fun i c => set_target c <$> read_big i;
   fun i c => set_sender c <$> read_address i;
   fun i c => set_receiver c <$> read_address i;
   fun i c => set_data c <$> read_bytes i;
   fun i c => set_nonce c <$> read_big i;
   fun i c => set_height c <$> read_big i].

Fixpoint read_fields (readers : list (RlpItem -> InterChainMessageEvent -> outcome InterChainMessageEvent))
    (items : list RlpItem) (c : InterChainMessageEvent) : InterChainMessageEvent * outcome unit :=
  match readers, items with
  | [], [] => (c, Ok tt)
  | [], _ => (c, Err "rlp: call of ListEnd not positioned at EOL")
  | _ :: _, [] => (c, Err "rlp: end of list")
  | read :: readers, i :: items =>
      match read i c with
      | Ok c' => read_fields readers items c'
      | Err e => (c, Err e)
      | Panic e => (c, Panic e)
      end
  end.

(** [DecodeRLP] into an event [c]: the event as far as it was read, and the
    error. *)
Definition DecodeRLP (i : RlpItem) (c : InterChainMessageEvent) : InterChainMessageEvent * outcome unit :=
  match i with
  | RStr _ => (c, Err "rlp: expected List")
  | RList items => read_fields field_readers items c
  end.

(** ** Denominations *)

(** [Hex] and [IsHexAddress] of theta's [common.Address]: the text of an address
    is ASCII without a slash, its lower-case form is recognised and determines
    the address. *)
Class AddressText := {
  Hex : Address -> string;
  IsHexAddress : string -> bool;
  Hex_ascii a : all_chars is_ascii (Hex a) = true;
  Hex_lacks a : lacks "/" (map_string lower_char (Hex a)) = true;
  Hex_IsHexAddress a : IsHexAddress (map_string lower_char (Hex a)) = true;
  Hex_inj a b : 0 <= a < 256 ^ 20 -> 0 <= b < 256 ^ 20 ->
    map_string lower_char (Hex a) = map_string lower_char (Hex b) -> a = b
}.

Definition CrossChainTokenTypeInvalid : Z := -1.
Definition CrossChainTokenTypeTFuel : Z := 0.
Definition CrossChainTokenTypeTNT20 : Z := 20.
Definition CrossChainTokenTypeTNT721 : Z := 721.
Definition CrossChainTokenTypeTNT1155 : Z := 1155.

Definition tfuelAddressPlaceholder : string := "0x0000000000000000000000000000000000000000".

Section Denoms.
Context `{Unicode} `{AddressText}.

Definition denom_text (originatedChainID tokenType : Z) (addressText : string) : string :=
  ToLower (decimal originatedChainID ++ "/" ++ decimal tokenType ++ "/" ++ addressText)%string.

Definition TFuelDenom (originatedChainID : Z) : string :=
  denom_text originatedChainID CrossChainTokenTypeTFuel tfuelAddressPlaceholder.
Definition TNT20Denom (originatedChainID : Z) (contractAddress : Address) : string :=
  denom_text originatedChainID CrossChainTokenTypeTNT20 (Hex contractAddress).
Definition TNT721Denom (originatedChainID : Z) (contractAddress : Address) : string :=
  denom_text originatedChainID CrossChainTokenTypeTNT721 (Hex contractAddress).
Definition TNT1155Denom (originatedChainID : Z) (contractAddress : Address) : string :=
  denom_text originatedChainID CrossChainTokenTypeTNT1155 (Hex contractAddress).

Definition isLowerCase (str : string) : bool := bool_decide (str = ToLower str).

(** [ValidateDenom] *)
Definition ValidateDenom (denom : string) : outcome unit :=
  if negb (isLowerCase denom) then Err "invalid denom (must be lower case)"
  else match Split denom "/" with
       | [_; p1; p2] =>
           match Atoi p1 with
           | None => Err "invalid denom (failed to parse token type)"
           | Some tokenType =>
               if tokenType =? CrossChainTokenTypeTFuel then
                 if negb (bool_decide (p2 = tfuelAddressPlaceholder)) then Err "invalid TFuel denom" else Ok tt
               else if tokenType =? CrossChainTokenTypeTNT20 then
                 if negb (IsHexAddress p2) then Err "invalid TNT20 denom" else Ok tt
               else if tokenType =? CrossChainTokenTypeTNT721 then
                 if negb (IsHexAddress p2) then Err "invalid TNT20 denom" else Ok tt
               else if tokenType =? CrossChainTokenTypeTNT1155 then
                 if negb (IsHexAddress p2) then Err "invalid TNT1155 denom" else Ok tt
               else Err "invalid denom (unknown token type)"
           end
       | _ => Err "invalid denom (incorrect format)"
       end.

End Denoms.

(** [ExtractOriginatedChainIDFromDenom]; the number returned with an error is
    zero. *)
Definition ExtractOriginatedChainIDFromDenom (denom : string) : outcome Z :=
  match Split denom "/" with
  | [p0; _; _] => match SetString10 p0 with Some chainID => Ok chainID | None => Err "invalid denom" end
  | _ => Err "invalid denom"
  end.

(** [ExtractCrossChainTokenTypeFromDenom] *)
Definition ExtractCrossChainTokenTypeFromDenom (denom : string) : outcome Z :=
  match Split denom "/" with
  | [_; p1; _] =>
      match Atoi p1 with
      | None => Err "invalid denom"
      | Some tokenType =>
          if negb (tokenType =? CrossChainTokenTypeTFuel) && negb (tokenType =? CrossChainTokenTypeTNT20) &&
             negb (tokenType =? CrossChainTokenTypeTNT721)
          then Err "invalid denom" else Ok tokenType
      end
  | _ => Err "invalid denom"
  end.

(** ** Token bank events *)

(** An event of a token bank: its type, the contract ABI and the name it has
    there, and the Go struct it is unpacked into. *)
Record EventInfo := mkEventInfo {
  EvType : Z;
  EvABI : ABI;
  EvName : string;
  EvFields : list string;
  EvTypes : list GoType
}.

Definition zero_struct (ev : EventInfo) : list GoVal := List.map zero_value (EvTypes ev).

(** [contractAbi.UnpackIntoInterface(&event, name, data)] on a zero struct; the
    callers ignore the error. *)
Definition unpack_event (ev : EventInfo) (data : list Z) : list GoVal :=
  match UnpackIntoInterface (EvABI ev) (List.map untagged (EvFields ev)) (zero_struct ev) (EvName ev) data with
  | Ok vals => vals
  | _ => zero_struct ev
  end.

(** Fields of an unpacked struct. *)
Definition str_at (l : list GoVal) (i : nat) : string :=
  match l !! i with Some (GString s) => s | _ => "" end.
Definition addr_at (l : list GoVal) (i : nat) : Address :=
  match l !! i with Some (GArray _ bytes) => be_value (List.map byte_val bytes) | _ => 0 end.
Definition big_at (l : list GoVal) (i : nat) : option Z :=
  match l !! i with Some (GBig z) => z | _ => None end.
Definition uint_at (l : list GoVal) (i : nat) : Z :=
  match l !! i with Some (GUint _ z) => z | _ => 0 end.

(** What the sixteen parsers have in common: the type is checked, the data are
    unpacked, the denomination (made lower case by some of them) is validated and
    its chain compared with the source or the target chain of the event. *)
Definition parse_event `{Unicode} `{AddressText} (ev : EventInfo) (lower : bool)
    (chain : InterChainMessageEvent -> option Z) (icme : InterChainMessageEvent) : outcome (list GoVal) :=
  if negb (IType icme =? EvType ev) then Err "invalid inter-chain message event type"
  else
    let event := unpack_event ev (IData icme) in
    let denom := if lower then ToLower (str_at event 0) else str_at event 0 in
    _ ← ValidateDenom denom;
    originatedChainID ← ExtractOriginatedChainIDFromDenom denom;
    c ← big_cmp (chain icme) (Some originatedChainID);
    if negb (bool_decide (c = Eq)) then Err "chain ID mismatch"
    else Ok (GString denom :: drop 1 event).

(** *** TFuelTokenLocked *)

Module TFuelTokenLocked.
Record CrossChainTFuelTokenLockedEvent := mkEvent {
  Denom : string;
  SourceChainTokenSender : Address;
  TargetChainID : option Z;
  TargetChainVoucherReceiver : Address;
  LockedAmount : option Z;
  TokenLockNonce : option Z
}.
End TFuelTokenLocked.

Definition TFuelTokenLocked_info : EventInfo := mkEventInfo IMCEventTypeCrossChainTokenLockTFuel TFuelTokenBankABI "TFuelTokenLocked"
  ["Denom"; "SourceChainTokenSender"; "TargetChainID"; "TargetChainVoucherReceiver"; "LockedAmount"; "TokenLockNonce"]
  [TString; TArray 20 (TUint 8); TBig; TArray 20 (TUint 8); TBig; TBig].

Definition TFuelTokenLocked_of (l : list GoVal) : TFuelTokenLocked.CrossChainTFuelTokenLockedEvent :=
  TFuelTokenLocked.mkEvent (str_at l 0) (addr_at l 1) (big_at l 2) (addr_at l 3) (big_at l 4) (big_at l 5).

Definition ParseToCrossChainTFuelTokenLockedEvent `{Unicode} `{AddressText} (icme : InterChainMessageEvent)
    : outcome TFuelTokenLocked.CrossChainTFuelTokenLockedEvent :=
  TFuelTokenLocked_of <$> parse_event TFuelTokenLocked_info false SourceChainID icme.

(** *** TNT20TokenLocked *)

Module TNT20TokenLocked.
Record CrossChainTNT20TokenLockedEvent := mkEvent {
  Denom : string;
  SourceChainTokenSender : Address;
  TargetChainID : option Z;
  TargetChainVoucherReceiver : Address;
  LockedAmount : option Z;
  Name : string;
  Symbol : string;
  Decimals : Z;
  TokenLockNonce : option Z
}.
End TNT20TokenLocked.

Definition TNT20TokenLocked_info : EventInfo := mkEventInfo IMCEventTypeCrossChainTokenLockTNT20 TNT20TokenBankABI "TNT20TokenLocked"
  ["Denom"; "SourceChainTokenSender"; "TargetChainID"; "TargetChainVoucherReceiver"; "LockedAmount"; "Name"; "Symbol"; "Decimals"; "TokenLockNonce"]
  [TString; TArray 20 (TUint 8); TBig; TArray 20 (TUint 8); TBig; TString; TString; TUint 8; TBig].

Definition TNT20TokenLocked_of (l : list GoVal) : TNT20TokenLocked.CrossChainTNT20TokenLockedEvent :=
  TNT20TokenLocked.mkEvent (str_at l 0) (addr_at l 1) (big_at l 2) (addr_at l 3) (big_at l 4) (str_at l 5) (str_at l 6) (uint_at l 7) (big_at l 8).

Definition ParseToCrossChainTNT20TokenLockedEvent `{Unicode} `{AddressText} (icme : InterChainMessageEvent)
    : outcome TNT20TokenLocked.CrossChainTNT20TokenLockedEvent :=
  TNT20TokenLocked_of <$> parse_event TNT20TokenLocked_info true SourceChainID icme.

(** *** TNT721TokenLocked *)

Module TNT721TokenLocked.
Record CrossChainTNT721TokenLockedEvent := mkEvent {
  Denom : string;
  SourceChainTokenSender : Address;
  TargetChainID : option Z;
  TargetChainVoucherReceiver : Address;
  TokenID : option Z;
  Name : string;
  Symbol : string;
  TokenURI : string;
  TokenLockNonce : option Z
}.
End TNT721TokenLocked.

Definition TNT721TokenLocked_info : EventInfo := mkEventInfo IMCEventTypeCrossChainTokenLockTNT721 TNT721TokenBankABI "TNT721TokenLocked"
  ["Denom"; "SourceChainTokenSender"; "TargetChainID"; "TargetChainVoucherReceiver"; "TokenID"; "Name"; "Symbol"; "TokenURI"; "TokenLockNonce"]
  [TString; TArray 20 (TUint 8); TBig; TArray 20 (TUint 8); TBig; TString; TString; TString; TBig].

Definition TNT721TokenLocked_of (l : list GoVal) : TNT721TokenLocked.CrossChainTNT721TokenLockedEvent :=
  TNT721TokenLocked.mkEvent (str_at l 0) (addr_at l 1) (big_at l 2) (addr_at l 3) (big_at l 4) (str_at l 5) (str_at l 6) (str_at l 7) (big_at l 8).

Definition ParseToCrossChainTNT721TokenLockedEvent `{Unicode} `{AddressText} (icme : InterChainMessageEvent)
    : outcome TNT721TokenLocked.CrossChainTNT721TokenLockedEvent :=
  TNT721TokenLocked_of <$> parse_event TNT721TokenLocked_info true SourceChainID icme.

(** *** TNT1155TokenLocked *)

Module TNT1155TokenLocked.
Record CrossChainTNT1155TokenLockedEvent := mkEvent {
  Denom : string;
  SourceChainTokenSender : Address;
  TargetChainID : option Z;
  TargetChainVoucherReceiver : Address;
  TokenID : option Z;
  LockedAmount : option Z;
  TokenURI : string;
  TokenLockNonce : option Z
}.
End TNT1155TokenLocked.

Definition TNT1155TokenLocked_info : EventInfo := mkEventInfo IMCEventTypeCrossChainTokenLockTNT1155 TNT1155TokenBankABI "TNT1155TokenLocked"
  ["Denom"; "SourceChainTokenSender"; "TargetChainID"; "TargetChainVoucherReceiver"; "TokenID"; "LockedAmount"; "TokenURI"; "TokenLockNonce"]
  [TString; TArray 20 (TUint 8); TBig; TArray 20 (TUint 8); TBig; TBig; TString; TBig].

Definition TNT1155TokenLocked_of (l : list GoVal) : TNT1155TokenLocked.CrossChainTNT1155TokenLockedEvent :=
  TNT1155TokenLocked.mkEvent (str_at l 0) (addr_at l 1) (big_at l 2) (addr_at l 3) (big_at l 4) (big_at l 5) (str_at l 6) (big_at l 7).

Definition ParseToCrossChainTNT1155TokenLockedEvent `{Unicode} `{AddressText} (icme : InterChainMessageEvent)
    : outcome TNT1155TokenLocked.CrossChainTNT1155TokenLockedEvent :=
  TNT1155TokenLocked_of <$> parse_event TNT1155TokenLocked_info true SourceChainID icme.

(** *** TFuelVoucherMinted *)

Module TFuelVoucherMinted.
Record CrossChainTFuelVoucherMintedEvent := mkEvent {
  Denom : string;
  TargetChainVoucherReceiver : Address;
  MintedAmount : option Z;
  SourceChainTokenLockNonce : option Z;
  VoucherMintNonce : option Z
}.
End TFuelVoucherMinted.

Definition TFuelVoucherMinted_info : EventInfo := mkEventInfo IMCEventTypeCrossChainVoucherMintTFuel TFuelTokenBankABI "TFuelVoucherMinted"
  ["Denom"; "TargetChainVoucherReceiver"; "MintedAmount"; "SourceChainTokenLockNonce"; "VoucherMintNonce"]
  [TString; TArray 20 (TUint 8); TBig; TBig; TBig].

Definition TFuelVoucherMinted_of (l : list GoVal) : TFuelVoucherMinted.CrossChainTFuelVoucherMintedEvent :=
  TFuelVoucherMinted.mkEvent (str_at l 0) (addr_at l 1) (big_at l 2) (big_at l 3) (big_at l 4).

Definition ParseToCrossChainTFuelVoucherMintedEvent `{Unicode} `{AddressText} (icme : InterChainMessageEvent)
    : outcome TFuelVoucherMinted.CrossChainTFuelVoucherMintedEvent :=
  TFuelVoucherMinted_of <$> parse_event TFuelVoucherMinted_info false SourceChainID icme.

(** *** TNT20VoucherMinted *)

Module TNT20VoucherMinted.
Record CrossChainTNT20VoucherMintedEvent := mkEvent {
  Denom : string;
  TargetChainVoucherReceiver : Address;
  VoucherContract : Address;
  MintedAmount : option Z;
  SourceChainTokenLockNonce : option Z;
  VoucherMintNonce : option Z
}.
End TNT20VoucherMinted.

Definition TNT20VoucherMinted_info : EventInfo := mkEventInfo IMCEventTypeCrossChainVoucherMintTNT20 TNT20TokenBankABI "TNT20VoucherMinted"
  ["Denom"; "TargetChainVoucherReceiver"; "VoucherContract"; "MintedAmount"; "SourceChainTokenLockNonce"; "VoucherMintNonce"]
  [TString; TArray 20 (TUint 8); TArray 20 (TUint 8); TBig; TBig; TBig].

Definition TNT20VoucherMinted_of (l : list GoVal) : TNT20VoucherMinted.CrossChainTNT20VoucherMintedEvent :=
  TNT20VoucherMinted.mkEvent (str_at l 0) (addr_at l 1) (addr_at l 2) (big_at l 3) (big_at l 4) (big_at l 5).

Definition ParseToCrossChainTNT20VoucherMintedEvent `{Unicode} `{AddressText} (icme : InterChainMessageEvent)
    : outcome TNT20VoucherMinted.CrossChainTNT20VoucherMintedEvent :=
  TNT20VoucherMinted_of <$> parse_event TNT20VoucherMinted_info false SourceChainID icme.

(** *** TNT721VoucherMinted *)

Module TNT721VoucherMinted.
Record CrossChainTNT721VoucherMintedEvent := mkEvent {
  Denom : string;
  TargetChainVoucherReceiver : Address;
  VoucherContract : Address;
  TokenID : option Z;
  SourceChainTokenLockNonce : option Z;
  VoucherMintNonce : option Z
}.
End TNT721VoucherMinted.

Definition TNT721VoucherMinted_info : EventInfo := mkEventInfo IMCEventTypeCrossChainVoucherMintTNT721 TNT721TokenBankABI "TNT721VoucherMinted"
  ["Denom"; "TargetChainVoucherReceiver"; "VoucherContract"; "TokenID"; "SourceChainTokenLockNonce"; "VoucherMintNonce"]
  [TString; TArray 20 (TUint 8); TArray 20 (TUint 8); TBig; TBig; TBig].

Definition TNT721VoucherMinted_of (l : list GoVal) : TNT721VoucherMinted.CrossChainTNT721VoucherMintedEvent :=
  TNT721VoucherMinted.mkEvent (str_at l 0) (addr_at l 1) (addr_at l 2) (big_at l 3) (big_at l 4) (big_at l 5).

Definition ParseToCrossChainTNT721VoucherMintedEvent `{Unicode} `{AddressText} (icme : InterChainMessageEvent)
    : outcome TNT721VoucherMinted.CrossChainTNT721VoucherMintedEvent :=
  TNT721VoucherMinted_of <$> parse_event TNT721VoucherMinted_info false SourceChainID icme.

(** *** TNT1155VoucherMinted *)

Module TNT1155VoucherMinted.
Record CrossChainTNT1155VoucherMintedEvent := mkEvent {
  Denom : string;
  TargetChainVoucherReceiver : Address;
  VoucherContract : Address;
  TokenID : option Z;
  MintedAmount : option Z;
  SourceChainTokenLockNonce : option Z;
  VoucherMintNonce : option Z
}.
End TNT1155VoucherMinted.

Definition TNT1155VoucherMinted_info : EventInfo := mkEventInfo IMCEventTypeCrossChainVoucherMintTNT1155 TNT1155TokenBankABI "TNT1155VoucherMinted"
  ["Denom"; "TargetChainVoucherReceiver"; "VoucherContract"; "TokenID"; "MintedAmount"; "SourceChainTokenLockNonce"; "VoucherMintNonce"]
  [TString; TArray 20 (TUint 8); TArray 20 (TUint 8); TBig; TBig; TBig; TBig].

Definition TNT1155VoucherMinted_of (l : list GoVal) : TNT1155VoucherMinted.CrossChainTNT1155VoucherMintedEvent :=
  TNT1155VoucherMinted.mkEvent (str_at l 0) (addr_at l 1) (addr_at l 2) (big_at l 3) (big_at l 4) (big_at l 5) (big_at l 6).

Definition ParseToCrossChainTNT1155VoucherMintedEvent `{Unicode} `{AddressText} (icme : InterChainMessageEvent)
    : outcome TNT1155VoucherMinted.CrossChainTNT1155VoucherMintedEvent :=
  TNT1155VoucherMinted_of <$> parse_event TNT1155VoucherMinted_info false SourceChainID icme.

(** *** TFuelVoucherBurned *)

Module TFuelVoucherBurned.
Record CrossChainTFuelVoucherBurnedEvent := mkEvent {
  Denom : string;
  SourceChainVoucherOwner : Address;
  TargetChainTokenReceiver : Address;
  BurnedAmount : option Z;
  VoucherBurnNonce : option Z
}.
End TFuelVoucherBurned.

Definition TFuelVoucherBurned_info : EventInfo := mkEventInfo IMCEventTypeCrossChainVoucherBurnTFuel TFuelTokenBankABI "TFuelVoucherBurned"
  ["Denom"; "SourceChainVoucherOwner"; "TargetChainTokenReceiver"; "BurnedAmount"; "VoucherBurnNonce"]
  [TString; TArray 20 (TUint 8); TArray 20 (TUint 8); TBig; TBig].

Definition TFuelVoucherBurned_of (l : list GoVal) : TFuelVoucherBurned.CrossChainTFuelVoucherBurnedEvent :=
  TFuelVoucherBurned.mkEvent (str_at l 0) (addr_at l 1) (addr_at l 2) (big_at l 3) (big_at l 4).

Definition ParseToCrossChainTFuelVoucherBurnedEvent `{Unicode} `{AddressText} (icme : InterChainMessageEvent)
    : outcome TFuelVoucherBurned.CrossChainTFuelVoucherBurnedEvent :=
  TFuelVoucherBurned_of <$> parse_event TFuelVoucherBurned_info false TargetChainID icme.

(** *** TNT20VoucherBurned *)

Module TNT20VoucherBurned.
Record CrossChainTNT20VoucherBurnedEvent := mkEvent {
  Denom : string;
  SourceChainVoucherOwner : Address;
  TargetChainTokenReceiver : Address;
  BurnedAmount : option Z;
  VoucherBurnNonce : option Z
}.
End TNT20VoucherBurned.

Definition TNT20VoucherBurned_info : EventInfo := mkEventInfo IMCEventTypeCrossChainVoucherBurnTNT20 TNT20TokenBankABI "TNT20VoucherBurned"
  ["Denom"; "SourceChainVoucherOwner"; "TargetChainTokenReceiver"; "BurnedAmount"; "VoucherBurnNonce"]
  [TString; TArray 20 (TUint 8); TArray 20 (TUint 8); TBig; TBig].

Definition TNT20VoucherBurned_of (l : list GoVal) : TNT20VoucherBurned.CrossChainTNT20VoucherBurnedEvent :=
  TNT20VoucherBurned.mkEvent (str_at l 0) (addr_at l 1) (addr_at l 2) (big_at l 3) (big_at l 4).

Definition ParseToCrossChainTNT20VoucherBurnedEvent `{Unicode} `{AddressText} (icme : InterChainMessageEvent)
    : outcome TNT20VoucherBurned.CrossChainTNT20VoucherBurnedEvent :=
  TNT20VoucherBurned_of <$> parse_event TNT20VoucherBurned_info false TargetChainID icme.

(** *** TNT721VoucherBurned *)

Module TNT721VoucherBurned.
Record CrossChainTNT721VoucherBurnedEvent := mkEvent {
  Denom : string;
  SourceChainVoucherOwner : Address;
  TargetChainTokenReceiver : Address;
  TokenID : option Z;
  VoucherBurnNonce : option Z
}.
End TNT721VoucherBurned.

Definition TNT721VoucherBurned_info : EventInfo := mkEventInfo IMCEventTypeCrossChainVoucherBurnTNT721 TNT721TokenBankABI "TNT721VoucherBurned"
  ["Denom"; "SourceChainVoucherOwner"; "TargetChainTokenReceiver"; "TokenID"; "VoucherBurnNonce"]
  [TString; TArray 20 (TUint 8); TArray 20 (TUint 8); TBig; TBig].

Definition TNT721VoucherBurned_of (l : list GoVal) : TNT721VoucherBurned.CrossChainTNT721VoucherBurnedEvent :=
  TNT721VoucherBurned.mkEvent (str_at l 0) (addr_at l 1) (addr_at l 2) (big_at l 3) (big_at l 4).

Definition ParseToCrossChainTNT721VoucherBurnedEvent `{Unicode} `{AddressText} (icme : InterChainMessageEvent)
    : outcome TNT721VoucherBurned.CrossChainTNT721VoucherBurnedEvent :=
  TNT721VoucherBurned_of <$> parse_event TNT721VoucherBurned_info false TargetChainID icme.

(** *** TNT1155VoucherBurned *)

Module TNT1155VoucherBurned.
Record CrossChainTNT1155VoucherBurnedEvent := mkEvent {
  Denom : string;
  SourceChainVoucherOwner : Address;
  TargetChainTokenReceiver : Address;
  TokenID : option Z;
  BurnedAmount : option Z;
  VoucherBurnNonce : option Z
}.
End TNT1155VoucherBurned.

Definition TNT1155VoucherBurned_info : EventInfo := mkEventInfo IMCEventTypeCrossChainVoucherBurnTNT1155 TNT1155TokenBankABI "TNT1155VoucherBurned"
  ["Denom"; "SourceChainVoucherOwner"; "TargetChainTokenReceiver"; "TokenID"; "BurnedAmount"; "VoucherBurnNonce"]
  [TString; TArray 20 (TUint 8); TArray 20 (TUint 8); TBig; TBig; TBig].

Definition TNT1155VoucherBurned_of (l : list GoVal) : TNT1155VoucherBurned.CrossChainTNT1155VoucherBurnedEvent :=
  TNT1155VoucherBurned.mkEvent (str_at l 0) (addr_at l 1) (addr_at l 2) (big_at l 3) (big_at l 4) (big_at l 5).

Definition ParseToCrossChainTNT1155VoucherBurnedEvent `{Unicode} `{AddressText} (icme : InterChainMessageEvent)
    : outcome TNT1155VoucherBurned.CrossChainTNT1155VoucherBurnedEvent :=
  TNT1155VoucherBurned_of <$> parse_event TNT1155VoucherBurned_info false TargetChainID icme.

(** *** TFuelTokenUnlocked *)

Module TFuelTokenUnlocked.
Record CrossChainTFuelTokenUnlockedEvent := mkEvent {
  Denom : string;
  TargetChainTokenReceiver : Address;
  UnlockedAmount : option Z;
  SourceChainVoucherBurnNonce : option Z;
  TokenUnlockNonce : option Z
}.
End TFuelTokenUnlocked.

Definition TFuelTokenUnlocked_info : EventInfo := mkEventInfo IMCEventTypeCrossChainTokenUnlockTFuel TFuelTokenBankABI "TFuelTokenUnlocked"
  ["Denom"; "TargetChainTokenReceiver"; "UnlockedAmount"; "SourceChainVoucherBurnNonce"; "TokenUnlockNonce"]
  [TString; TArray 20 (TUint 8); TBig; TBig; TBig].

Definition TFuelTokenUnlocked_of (l : list GoVal) : TFuelTokenUnlocked.CrossChainTFuelTokenUnlockedEvent :=
  TFuelTokenUnlocked.mkEvent (str_at l 0) (addr_at l 1) (big_at l 2) (big_at l 3) (big_at l 4).

Definition ParseToCrossChainTFuelTokenUnlockedEvent `{Unicode} `{AddressText} (icme : InterChainMessageEvent)
    : outcome TFuelTokenUnlocked.CrossChainTFuelTokenUnlockedEvent :=
  TFuelTokenUnlocked_of <$> parse_event TFuelTokenUnlocked_info false TargetChainID icme.

(** *** TNT20TokenUnlocked *)

Module TNT20TokenUnlocked.
Record CrossChainTNT20TokenUnlockedEvent := mkEvent {
  Denom : string;
  TargetChainTokenReceiver : Address;
  UnlockedAmount : option Z;
  SourceChainVoucherBurnNonce : option Z;
  TokenUnlockNonce : option Z
}.
End TNT20TokenUnlocked.

Definition TNT20TokenUnlocked_info : EventInfo := mkEventInfo IMCEventTypeCrossChainTokenUnlockTNT20 TNT20TokenBankABI "TNT20TokenUnlocked"
  ["Denom"; "TargetChainTokenReceiver"; "UnlockedAmount"; "SourceChainVoucherBurnNonce"; "TokenUnlockNonce"]
  [TString; TArray 20 (TUint 8); TBig; TBig; TBig].

Definition TNT20TokenUnlocked_of (l : list GoVal) : TNT20TokenUnlocked.CrossChainTNT20TokenUnlockedEvent :=
  TNT20TokenUnlocked.mkEvent (str_at l 0) (addr_at l 1) (big_at l 2) (big_at l 3) (big_at l 4).

Definition ParseToCrossChainTNT20TokenUnlockedEvent `{Unicode} `{AddressText} (icme : InterChainMessageEvent)
    : outcome TNT20TokenUnlocked.CrossChainTNT20TokenUnlockedEvent :=
  TNT20TokenUnlocked_of <$> parse_event TNT20TokenUnlocked_info true TargetChainID icme.

(** *** TNT721TokenUnlocked *)

Module TNT721TokenUnlocked.
Record CrossChainTNT721TokenUnlockedEvent := mkEvent {
  Denom : string;
  TargetChainTokenReceiver : Address;
  TokenID : option Z;
  SourceChainVoucherBurnNonce : option Z;
  TokenUnlockNonce : option Z
}.
End TNT721TokenUnlocked.

Definition TNT721TokenUnlocked_info : EventInfo := mkEventInfo IMCEventTypeCrossChainTokenUnlockTNT721 TNT721TokenBankABI "TNT721TokenUnlocked"
  ["Denom"; "TargetChainTokenReceiver"; "TokenID"; "SourceChainVoucherBurnNonce"; "TokenUnlockNonce"]
  [TString; TArray 20 (TUint 8); TBig; TBig; TBig].

Definition TNT721TokenUnlocked_of (l : list GoVal) : TNT721TokenUnlocked.CrossChainTNT721TokenUnlockedEvent :=
  TNT721TokenUnlocked.mkEvent (str_at l 0) (addr_at l 1) (big_at l 2) (big_at l 3) (big_at l 4).

Definition ParseToCrossChainTNT721TokenUnlockedEvent `{Unicode} `{AddressText} (icme : InterChainMessageEvent)
    : outcome TNT721TokenUnlocked.CrossChainTNT721TokenUnlockedEvent :=
  TNT721TokenUnlocked_of <$> parse_event TNT721TokenUnlocked_info true TargetChainID icme.

(** *** TNT1155TokenUnlocked *)

Module TNT1155TokenUnlocked.
Record CrossChainTNT1155TokenUnlockedEvent := mkEvent {
  Denom : string;
  TargetChainTokenReceiver : Address;
  TokenID : option Z;
  UnlockedAmount : option Z;
  SourceChainVoucherBurnNonce : option Z;
  TokenUnlockNonce : option Z
}.
End TNT1155TokenUnlocked.

Definition TNT1155TokenUnlocked_info : EventInfo := mkEventInfo IMCEventTypeCrossChainTokenUnlockTNT1155 TNT1155TokenBankABI "TNT1155TokenUnlocked"
  ["Denom"; "TargetChainTokenReceiver"; "TokenID"; "UnlockedAmount"; "SourceChainVoucherBurnNonce"; "TokenUnlockNonce"]
  [TString; TArray 20 (TUint 8); TBig; TBig; TBig; TBig].

Definition TNT1155TokenUnlocked_of (l : list GoVal) : TNT1155TokenUnlocked.CrossChainTNT1155TokenUnlockedEvent :=
  TNT1155TokenUnlocked.mkEvent (str_at l 0) (addr_at l 1) (big_at l 2) (big_at l 3) (big_at l 4) (big_at l 5).

Definition ParseToCrossChainTNT1155TokenUnlockedEvent `{Unicode} `{AddressText} (icme : InterChainMessageEvent)
    : outcome TNT1155TokenUnlocked.CrossChainTNT1155TokenUnlockedEvent :=
  TNT1155TokenUnlocked_of <$> parse_event TNT1155TokenUnlocked_info true TargetChainID icme.
