(* ===== verification/EventCache.v ===== *)
(** * EventCache: the cache of inter-chain events
    (src/interchain/utils/inter_chain_event_cache.go,
    src/interchain/witness/metachain_witness_state.go)

    Events are kept in the database of the node under a key made of the source
    chain, the event type and the nonce; the height up to which the witness has
    scanned a chain is kept there too. *)

From Stdlib Require Import Ascii.
From stdpp Require Import gmap sorting.
From stdpp Require Import base list numbers strings.
From S2P Require Import Prelude Text Abi AbiSpec Bind TokenBanks InterChain.
Open Scope string_scope.
Open Scope list_scope.
Open Scope Z_scope.

(** ** The database *)

Definition ErrKeyNotFound : string := "KeyNotFound".

(** theta's key-value database: operations may fail; after one that succeeded,
    a read sees what was written, and other keys are as before.  Values are RLP
    items: [kvstore] encodes what it puts and decodes what it gets. *)
Class Database (D : Type) := {
  db_Get : D -> string -> outcome RlpItem;
  db_Put : D -> string -> RlpItem -> outcome D;
  db_Delete : D -> string -> outcome D;
  db_Get_Put d k v d' k' : db_Put d k v = Ok d' ->
    db_Get d' k' = if decide (k = k') then Ok v else db_Get d k';
  db_Get_Delete d k d' k' : db_Delete d k = Ok d' ->
    db_Get d' k' = if decide (k = k') then Err ErrKeyNotFound else db_Get d k'
}.

(** An in-memory database that meets it. *)
#[export] Instance gmap_database : Database (gmap string RlpItem).
Proof.
  refine {| db_Get m k := match m !! k with Some v => Ok v | None => Err ErrKeyNotFound end;
            db_Put m k v := Ok (<[k := v]> m);
            db_Delete m k := Ok (delete k m) |}.
  - intros m k v m' k' [= <-]. destruct (decide (k = k')) as [->|Hne].
    + by rewrite lookup_insert_eq.
    + by rewrite lookup_insert_ne.
  - intros m k m' k' [= <-]. destruct (decide (k = k')) as [->|Hne].
    + by rewrite lookup_delete_eq.
    + by rewrite lookup_delete_ne.
Defined.

(** ** Keys *)

(** [InterChainEventIndexKey] *)
Definition InterChainEventIndexKey (sourceChainID : option Z) (icmeType : Z) (nonce : option Z) : string :=
  ("ice/" ++ big_string sourceChainID ++ "/" ++ decimal icmeType ++ "/" ++ big_string nonce)%string.

Definition event_key (e : InterChainMessageEvent) : string :=
  InterChainEventIndexKey (SourceChainID e) (IType e) (INonce e).

(** [lastWitnessQueryedHeightKey] *)
Definition lastWitnessQueryedHeightKey (sourceChainID : Z) : string := ("mw/lwqh/" ++ decimal sourceChainID)%string.

(** ** Operations

    An operation returns the database after it and its result. *)

Section Cache.
Context {D : Type} `{!Database D}.
Implicit Types db : D.

Definition put_item db (key : string) (item : outcome RlpItem) : D * outcome unit :=
  match item with
  | Ok i =>
      match db_Put db key i with
      | Ok db' => (db', Ok tt)
      | Err e => (db, Err e)
      | Panic e => (db, Panic e)
      end
  | Err e => (db, Err e)
  | Panic e => (db, Panic e)
  end.

(** [Insert] *)
Definition Insert db (event : InterChainMessageEvent) : D * outcome unit :=
  put_item db (event_key event) (EncodeRLP event).

(** [InsertList] *)
Fixpoint InsertList db (events : list InterChainMessageEvent) : D * outcome unit :=
  match events with
  | [] => (db, Ok tt)
  | event :: events =>
      match Insert db event with
      | (db', Ok _) => InsertList db' events
      | r => r
      end
  end.

(** [Delete] *)
Definition Delete db (sourceChainID : Z) (imceType nonce : Z) : D * outcome unit :=
  match db_Delete db (InterChainEventIndexKey (Some sourceChainID) imceType (Some nonce)) with
  | Ok db' => (db', Ok tt)
  | Err e => (db, Err e)
  | Panic e => (db, Panic e)
  end.

(** [Get]: the event, as far as it could be read, with the error. *)
Definition Get db (sourceChainID imceType nonce : Z) : InterChainMessageEvent * outcome unit :=
  match db_Get db (InterChainEventIndexKey (Some sourceChainID) imceType (Some nonce)) with
  | Ok item => DecodeRLP item zero_event
  | Err e => (zero_event, Err e)
  | Panic e => (zero_event, Panic e)
  end.

(** [Exists] *)
Definition Exists db (sourceChainID imceType nonce : Z) : outcome bool :=
  match (Get db sourceChainID imceType nonce).2 with
  | Ok _ => Ok true
  | Err e => if bool_decide (e = ErrKeyNotFound) then Ok false else Err e
  | Panic e => Panic e
  end.

(** [getLastQueryedHeightForType]: the height, zero with an error. *)
Definition getLastQueryedHeightForType db (sourceChainID : Z) : Z * outcome unit :=
  match db_Get db (lastWitnessQueryedHeightKey sourceChainID) with
  | Ok item =>
      match read_big item with
      | Ok h => (h, Ok tt)
      | Err e => (0, Err e)
      | Panic e => (0, Panic e)
      end
  | Err e => (0, Err e)
  | Panic e => (0, Panic e)
  end.

(** [setLastQueryedHeightForType] *)
Definition setLastQueryedHeightForType db (sourceChainID height : Z) : D * outcome unit :=
  put_item db (lastWitnessQueryedHeightKey sourceChainID) (rlp_big (Some height)).

End Cache.

(** ** Keys determine what they name *)

Lemma big_string_lacks x : lacks "/" (big_string x) = true.
Proof. destruct x as [z|]; [by apply decimal_lacks|done]. Qed.

#[global] Instance big_string_inj : Inj (=) (=) big_string.
Proof.
  intros [x|] [y|]; simpl; try done; [by intros ->%(inj decimal)|..]; intros Heq;
    [assert (Hn := decimal_numeral x); rewrite Heq in Hn|assert (Hn := decimal_numeral y); rewrite <- Heq in Hn];
    done.
Qed.

Lemma event_key_parts s t n :
  Split (InterChainEventIndexKey s t n) "/" = ["ice"; big_string s; decimal t; big_string n].
Proof.
  transitivity (Split ("ice" ++ String "/" (big_string s ++ String "/" (decimal t ++
    String "/" (big_string n))))%string "/"); [reflexivity|].
  rewrite !Split_app by (done || apply big_string_lacks || by apply decimal_lacks).
  by rewrite Split_lacks by apply big_string_lacks.
Qed.

(** Distinct source chains, types or nonces have distinct keys. *)
Lemma event_key_inj s t n s' t' n' :
  InterChainEventIndexKey s t n = InterChainEventIndexKey s' t' n' -> s = s' /\ t = t' /\ n = n'.
Proof.
  intros Heq. apply (f_equal (fun k => Split k "/")) in Heq. rewrite !event_key_parts in Heq.
  injection Heq as Hs Ht Hn. apply (inj big_string) in Hs, Hn. by apply (inj decimal) in Ht.
Qed.

Lemma scan_key_inj c c' : lastWitnessQueryedHeightKey c = lastWitnessQueryedHeightKey c' -> c = c'.
Proof.
  unfold lastWitnessQueryedHeightKey. intros Heq. apply (inj decimal).
  by apply (inj (String.append "mw/lwqh/")) in Heq.
Qed.

Lemma event_height_keys s t n c : InterChainEventIndexKey s t n <> lastWitnessQueryedHeightKey c.
Proof. done. Qed.
