(* ===== verification/InterChainSpec.v ===== *)
(** * InterChainSpec: properties of inter-chain events

    The RLP encoding of an event is read back; denominations are valid, determine
    the chain, the kind and the contract of a token; the data a token bank packs
    into an event are what the parsers unpack. *)

From Stdlib Require Import Ascii.
From stdpp Require Import gmap sorting.
From stdpp Require Import base list numbers strings.
From S2P Require Import Prelude Text Abi AbiSpec Bind TokenBanks InterChain EventCache.
Open Scope string_scope.
Open Scope list_scope.
Open Scope Z_scope.

(** ** RLP of numbers *)

Lemma be_bytes_cons n z : be_bytes (S n) z = (z / 256 ^ Z.of_nat n) mod 256 :: be_bytes n z.
Proof.
  revert z; induction n as [|n IH]; intros z.
  - cbn [be_bytes app]. by rewrite land_255, Z.div_1_r.
  - cbn [be_bytes]. cbn [be_bytes] in IH. rewrite IH. cbn [app]. do 2 f_equal.
    rewrite shiftr_8, Nat2Z.inj_succ, Z.pow_succ_r, Z.div_div by lia. done.
Qed.

Lemma log2_bytes z : 0 < z -> z < 256 ^ (Z.log2 z / 8 + 1) /\ 256 ^ (Z.log2 z / 8) <= z.
Proof.
  intros Hz. destruct (Z.log2_spec z Hz) as [Hlo Hhi]. pose proof (Z.log2_nonneg z).
  pose proof (Z.div_mod (Z.log2 z) 8 ltac:(lia)). pose proof (Z.mod_pos_bound (Z.log2 z) 8 ltac:(lia)).
  assert (0 <= Z.log2 z / 8) by (apply Z.div_pos; lia).
  change 256 with (2 ^ 8). rewrite <- !Z.pow_mul_r by lia. split.
  - eapply Z.lt_le_trans; [exact Hhi|]. apply Z.pow_le_mono_r; lia.
  - etrans; [|exact Hlo]. apply Z.pow_le_mono_r; lia.
Qed.

Lemma read_big_min_bytes z : 0 <= z -> read_big (RStr (min_bytes z)) = Ok z.
Proof.
  intros Hz. unfold min_bytes. destruct (Z.eqb_spec z 0) as [->|Hne]; [done|].
  destruct (log2_bytes z) as [Hhi Hlo]; [lia|].
  assert (H8 : 0 <= Z.log2 z / 8) by (apply Z.div_pos; [apply Z.log2_nonneg|lia]).
  assert (Hval : be_value (be_bytes (Z.to_nat (Z.log2 z / 8 + 1)) z) = z).
  { rewrite be_value_bytes, Z2Nat.id by lia. apply Z.mod_small. lia. }
  replace (Z.to_nat (Z.log2 z / 8 + 1)) with (S (Z.to_nat (Z.log2 z / 8))) in * by lia.
  rewrite be_bytes_cons in *. rewrite Z2Nat.id in * by lia.
  set (b := (z / 256 ^ (Z.log2 z / 8)) mod 256) in *.
  assert (Hb : b <> 0).
  { assert (0 < 256 ^ (Z.log2 z / 8)) by lia. subst b. rewrite Z.pow_add_r in Hhi by lia. rewrite Z.mod_small.
    - assert (1 <= z / 256 ^ (Z.log2 z / 8)) by (apply Z.div_le_lower_bound; lia). lia.
    - split; [apply Z.div_pos; lia|]. apply Z.div_lt_upper_bound; lia. }
  unfold read_big. destruct b; [done|by rewrite Hval..].
Qed.

(** ** RLP of events *)

(** An event as its encoding keeps it: a nil number is zero. *)
Definition kept (e : InterChainMessageEvent) : InterChainMessageEvent :=
  mkICME (IType e) (Some (default 0 (SourceChainID e))) (Some (default 0 (TargetChainID e)))
    (Sender e) (Receiver e) (IData e) (Some (default 0 (INonce e))) (Some (default 0 (BlockHeight e))).

Definition is_address (a : Z) : bool := (0 <=? a) && (a <? 256 ^ 20).

Definition event_ok (e : InterChainMessageEvent) : bool :=
  (0 <=? IType e) && (IType e <? two64) && is_address (Sender e) && is_address (Receiver e).

(** No number of the event is negative. *)
Definition encodable (e : InterChainMessageEvent) : bool :=
  forallb (fun x => 0 <=? default 0 x) [SourceChainID e; TargetChainID e; INonce e; BlockHeight e].

Lemma rlp_big_ok x i : rlp_big x = Ok i -> read_big i = Ok (default 0 x) /\ 0 <= default 0 x.
Proof.
  destruct x as [z|]; simpl; [|by intros [= <-]].
  destruct (Z.ltb_spec z 0); [done|]. intros [= <-]. split; [by apply read_big_min_bytes|done].
Qed.

Lemma rlp_big_total x : 0 <= default 0 x -> exists i, rlp_big x = Ok i.
Proof. destruct x as [z|]; simpl; [|eauto]. intros Hz. rewrite (proj2 (Z.ltb_ge z 0)) by lia. eauto. Qed.

Lemma encodable_spec e : encodable e = true <-> exists i, EncodeRLP e = Ok i.
Proof.
  unfold encodable. cbn [forallb]. rewrite !andb_true_iff, !Z.leb_le. split.
  - intros (H1 & H2 & H3 & H4 & _). unfold EncodeRLP.
    destruct (rlp_big_total _ H1) as [i1 ->], (rlp_big_total _ H2) as [i2 ->],
      (rlp_big_total _ H3) as [i3 ->], (rlp_big_total _ H4) as [i4 ->]. simpl. eauto.
  - intros [i Hi]. unfold EncodeRLP in Hi.
    apply obind_ok in Hi as (i1 & H1 & (i2 & H2 & (i3 & H3 & (i4 & H4 & _)%obind_ok)%obind_ok)%obind_ok).
    apply rlp_big_ok in H1 as [_ ?], H2 as [_ ?], H3 as [_ ?], H4 as [_ ?]. done.
Qed.

Lemma read_address_bytes a : is_address a = true -> read_address (RStr (be_bytes 20 a)) = Ok a.
Proof.
  unfold is_address. rewrite andb_true_iff, Z.leb_le, Z.ltb_lt. intros Ha. unfold read_address.
  rewrite be_bytes_length, Nat.eqb_refl. f_equal. rewrite be_value_bytes. apply Z.mod_small, Ha.
Qed.

Lemma ok_eq {A} (x y : A) : Ok x = Ok y -> y = x.
Proof. by injection 1. Qed.

Lemma read_fields_cons {A} (r : RlpItem -> outcome A) set readers i items c a :
  r i = Ok a ->
  read_fields ((fun i c => set c <$> r i) :: readers) (i :: items) c = read_fields readers items (set c a).
Proof. cbn [read_fields]. by intros ->. Qed.

Lemma DecodeRLP_EncodeRLP e i c :
  event_ok e = true -> EncodeRLP e = Ok i -> DecodeRLP i c = (kept e, Ok tt).
Proof.
  unfold event_ok. rewrite !andb_true_iff. intros [[[H0%Z.leb_le H64%Z.ltb_lt] Hs] Hr] Hi. unfold EncodeRLP in Hi.
  apply obind_ok in Hi as (i1 & H1 & (i2 & H2 & (i3 & H3 & (i4 & H4 & ->%ok_eq)%obind_ok)%obind_ok)%obind_ok).
  apply rlp_big_ok in H1 as [H1 _], H2 as [H2 _], H3 as [H3 _], H4 as [H4 _].
  assert (Ht : read_uint64 (RStr (min_bytes (IType e))) = Ok (IType e)).
  { unfold read_uint64. rewrite read_big_min_bytes by done. simpl. by rewrite (proj2 (Z.ltb_lt _ _)). }
  unfold DecodeRLP, field_readers.
  rewrite (read_fields_cons _ set_type _ _ _ _ _ Ht), (read_fields_cons _ set_source _ _ _ _ _ H1),
    (read_fields_cons _ set_target _ _ _ _ _ H2), (read_fields_cons _ set_sender _ _ _ _ _ (read_address_bytes _ Hs)),
    (read_fields_cons _ set_receiver _ _ _ _ _ (read_address_bytes _ Hr)),
    (read_fields_cons read_bytes set_data _ (RStr (IData e)) _ _ (IData e) eq_refl),
    (read_fields_cons _ set_nonce _ _ _ _ _ H3), (read_fields_cons _ set_height _ _ _ _ _ H4). reflexivity.
Qed.

(** ** Denominations *)

Section Denoms.
Context `{!Unicode} `{!AddressText}.

(** The kinds of tokens. *)
Inductive TokenKind := TFuelToken | TNT20Token | TNT721Token | TNT1155Token.

Definition token_type (k : TokenKind) : Z :=
  match k with
  | TFuelToken => CrossChainTokenTypeTFuel
  | TNT20Token => CrossChainTokenTypeTNT20
  | TNT721Token => CrossChainTokenTypeTNT721
  | TNT1155Token => CrossChainTokenTypeTNT1155
  end.

(** The denomination of a token; TFuel has no contract. *)
Definition denom_of (k : TokenKind) (chain : Z) (contract : Address) : string :=
  match k with
  | TFuelToken => TFuelDenom chain
  | TNT20Token => TNT20Denom chain contract
  | TNT721Token => TNT721Denom chain contract
  | TNT1155Token => TNT1155Denom chain contract
  end.

Definition address_text (k : TokenKind) (contract : Address) : string :=
  match k with TFuelToken => tfuelAddressPlaceholder | _ => map_string lower_char (Hex contract) end.

Lemma lower_char_idem c : lower_char (lower_char c) = lower_char c.
Proof. destruct c as [[] [] [] [] [] [] [] []]; reflexivity. Qed.

Lemma lower_char_ascii c : is_ascii c = true -> is_ascii (lower_char c) = true.
Proof. destruct c as [[] [] [] [] [] [] [] []]; by vm_compute. Qed.

Lemma map_lower_idem s : map_string lower_char (map_string lower_char s) = map_string lower_char s.
Proof. induction s as [|c s IH]; simpl; [done|]. by rewrite lower_char_idem, IH. Qed.

Lemma map_lower_ascii s : all_chars is_ascii s = true -> all_chars is_ascii (map_string lower_char s) = true.
Proof.
  induction s as [|c s IH]; simpl; [done|]. intros [Hc Hs]%andb_true_iff.
  by rewrite (lower_char_ascii c Hc), (IH Hs).
Qed.

Lemma ToLower_idem s : all_chars is_ascii s = true -> ToLower (ToLower s) = ToLower s.
Proof.
  intros Hs. unfold ToLower. rewrite Hs, map_lower_ascii by done. by rewrite map_lower_idem.
Qed.

Lemma denom_text_eq chain t s :
  all_chars is_ascii s = true ->
  denom_text chain t s = (decimal chain ++ String "/" (decimal t ++ String "/" (map_string lower_char s)))%string
  /\ all_chars is_ascii (denom_text chain t s) = true /\ ToLower (denom_text chain t s) = denom_text chain t s.
Proof.
  intros Hs. unfold denom_text.
  assert (Ha : all_chars is_ascii (decimal chain ++ "/" ++ decimal t ++ "/" ++ s)%string = true).
  { by rewrite !all_chars_app, !decimal_ascii, Hs. }
  assert (Heq : ToLower (decimal chain ++ "/" ++ decimal t ++ "/" ++ s)%string =
    map_string lower_char (decimal chain ++ "/" ++ decimal t ++ "/" ++ s)%string) by (unfold ToLower; by rewrite Ha).
  split; [|split].
  - rewrite Heq, !map_string_app, !decimal_lower. reflexivity.
  - rewrite Heq. by apply map_lower_ascii.
  - by apply ToLower_idem.
Qed.

Lemma denom_of_eq k chain contract :
  denom_of k chain contract =
    (decimal chain ++ String "/" (decimal (token_type k) ++ String "/" (address_text k contract)))%string /\
  ToLower (denom_of k chain contract) = denom_of k chain contract.
Proof.
  destruct k; simpl; unfold TFuelDenom, TNT20Denom, TNT721Denom, TNT1155Denom;
    edestruct denom_text_eq as (Heq & _ & Hl); try exact (conj Heq Hl); try apply Hex_ascii; done.
Qed.

Lemma address_text_lacks k contract : lacks "/" (address_text k contract) = true.
Proof. destruct k; [done|apply Hex_lacks..]. Qed.

Lemma Split_denom k chain contract :
  Split (denom_of k chain contract) "/" = [decimal chain; decimal (token_type k); address_text k contract].
Proof.
  destruct (denom_of_eq k chain contract) as [-> _].
  rewrite !Split_app by (by apply decimal_lacks). by rewrite Split_lacks by apply address_text_lacks.
Qed.

Lemma Atoi_token_type k : Atoi (decimal (token_type k)) = Some (token_type k).
Proof. unfold Atoi. rewrite SetString10_decimal. by destruct k. Qed.

Lemma denom_valid k chain contract : ValidateDenom (denom_of k chain contract) = Ok tt.
Proof.
  unfold ValidateDenom, isLowerCase. destruct (denom_of_eq k chain contract) as [_ Hl].
  rewrite Hl, bool_decide_eq_true_2 by done. cbn [negb]. rewrite Split_denom, Atoi_token_type.
  destruct k; simpl; rewrite ?Hex_IsHexAddress; try done; by rewrite bool_decide_eq_true_2.
Qed.

Lemma denom_chain k chain contract :
  ExtractOriginatedChainIDFromDenom (denom_of k chain contract) = Ok chain.
Proof. unfold ExtractOriginatedChainIDFromDenom. by rewrite Split_denom, SetString10_decimal. Qed.

Lemma token_type_inj k k' : token_type k = token_type k' -> k = k'.
Proof. by destruct k, k'. Qed.

(** (roundtrip): a denomination built for a token of a chain is valid, gives
    back the chain and, except for TNT1155 tokens, the kind of the token, and
    determines chain, kind and contract address. *)
Theorem denom_spec (k : TokenKind) (chain : Z) (contract : Address) :
  ValidateDenom (denom_of k chain contract) = Ok tt /\
  ExtractOriginatedChainIDFromDenom (denom_of k chain contract) = Ok chain /\
  ExtractCrossChainTokenTypeFromDenom (denom_of k chain contract) =
    (match k with TNT1155Token => Err "invalid denom" | _ => Ok (token_type k) end) /\
  (forall k' chain' contract', is_address contract = true -> is_address contract' = true ->
     denom_of k chain contract = denom_of k' chain' contract' ->
     k = k' /\ chain = chain' /\ (k <> TFuelToken -> contract = contract')).
Proof.
  split; [apply denom_valid|]. split; [apply denom_chain|]. split.
  - unfold ExtractCrossChainTokenTypeFromDenom. rewrite Split_denom, Atoi_token_type. by destruct k.
  - unfold is_address. intros k' chain' contract' Ha Hb Heq. apply (f_equal (fun d => Split d "/")) in Heq.
    rewrite !Split_denom in Heq. injection Heq as Hc Ht Hx.
    apply (inj decimal) in Hc, Ht. apply token_type_inj in Ht as <-. split; [done|]. split; [done|].
    intros Hk. rewrite !andb_true_iff, !Z.leb_le, !Z.ltb_lt in *.
    destruct k; [done|..]; (apply Hex_inj; [lia|lia|exact Hx]).
Qed.

End Denoms.

(** A text of addresses that the laws hold of: lower-case hexadecimal digits after
    a prefix. *)
Definition plain_hex (a : Address) : string := ("0x" ++ hex_encode (be_bytes 20 a))%string.

Definition is_hex (c : ascii) : bool := match hex_value c with Some _ => true | None => false end.

Definition is_plain_hex (s : string) : bool :=
  match s with
  | String "0" (String "x" t) => (String.length t =? 40)%nat && all_chars is_hex t
  | _ => false
  end.

Definition plain_digit (c : ascii) : bool :=
  is_ascii c && Ascii.eqb (lower_char c) c && is_hex c && negb (Ascii.eqb c "/").

Lemma hex_digit_plain n : 0 <= n < 16 -> plain_digit (hex_digit n) = true.
Proof.
  intros Hn. assert (Hf : forallb (fun n => plain_digit (hex_digit n)) (seqZ 0 16) = true) by (vm_compute; reflexivity).
  rewrite forallb_Forall, Forall_forall in Hf. apply Hf, elem_of_seqZ. lia.
Qed.

Lemma hex_encode_plain l : bytes_ok l ->
  all_chars plain_digit (hex_encode l) = true /\ String.length (hex_encode l) = (2 * length l)%nat.
Proof.
  induction 1 as [|b l Hb _ [IH1 IH2]]; [done|]. cbn [hex_encode all_chars String.length length].
  rewrite IH1, IH2, !hex_digit_plain; [split; [done|lia]| |].
  - apply Z.mod_pos_bound. lia.
  - split; [apply Z.div_pos; lia|apply Z.div_lt_upper_bound; lia].
Qed.

Lemma be_bytes_ok n z : bytes_ok (be_bytes n z).
Proof.
  revert z; induction n as [|n IH]; intros z; cbn [be_bytes]; [constructor|].
  apply Forall_app. split; [apply IH|]. constructor; [|constructor]. rewrite land_255. apply Z.mod_pos_bound. lia.
Qed.

Lemma plain_hex_lower a : map_string lower_char (plain_hex a) = plain_hex a.
Proof.
  unfold plain_hex. rewrite map_string_app. f_equal. apply (map_string_id _ plain_digit).
  - intros c. unfold plain_digit. rewrite !andb_true_iff. by intros [[[_ ?%Ascii.eqb_eq] _] _].
  - apply hex_encode_plain, be_bytes_ok.
Qed.

Definition plain_AddressText : AddressText.
Proof.
  refine {| Hex := plain_hex; IsHexAddress := is_plain_hex |}; intros a; rewrite ?plain_hex_lower.
  all: destruct (hex_encode_plain (be_bytes 20 a) (be_bytes_ok 20 a)) as [Hp Hl]; rewrite be_bytes_length in Hl.
  - unfold plain_hex. rewrite all_chars_app. apply andb_true_iff. split; [done|].
    revert Hp. apply all_chars_impl. intros c. unfold plain_digit. rewrite !andb_true_iff. tauto.
  - unfold plain_hex, lacks. rewrite all_chars_app. apply andb_true_iff. split; [done|].
    revert Hp. apply all_chars_impl. intros c. unfold plain_digit. rewrite !andb_true_iff. tauto.
  - unfold plain_hex. rewrite !string_cons_app, string_nil_app. cbn [is_plain_hex]. rewrite Hl.
    apply andb_true_iff. split; [done|].
    revert Hp. apply all_chars_impl. intros c. unfold plain_digit. rewrite !andb_true_iff. tauto.
  - intros b Ha Hb. rewrite plain_hex_lower. intros Heq. apply (inj (String.append "0x")) in Heq.
    apply (f_equal hex_decode) in Heq. rewrite !hex_decode_encode in Heq by apply be_bytes_ok.
    apply (f_equal be_value) in Heq. rewrite !be_value_bytes in Heq. change (Z.of_nat 20) with 20 in Heq.
    by rewrite !Z.mod_small in Heq by done.
Defined.

(** Lower-case text outside ASCII, left as it is. *)
Definition plain_Unicode : Unicode := {| unicode_ToLower s := s |}.

(** ** Event data *)

Definition token_bank_events : list EventInfo :=
  [TFuelTokenLocked_info; TNT20TokenLocked_info; TNT721TokenLocked_info; TNT1155TokenLocked_info;
   TFuelVoucherMinted_info; TNT20VoucherMinted_info; TNT721VoucherMinted_info; TNT1155VoucherMinted_info;
   TFuelVoucherBurned_info; TNT20VoucherBurned_info; TNT721VoucherBurned_info; TNT1155VoucherBurned_info;
   TFuelTokenUnlocked_info; TNT20TokenUnlocked_info; TNT721TokenUnlocked_info; TNT1155TokenUnlocked_info].

(** The arguments of an event in the contract's ABI. *)
Definition event_args (ev : EventInfo) : list Argument := default [] (Events (EvABI ev) !! EvName ev).

(** The types the events have. *)
Definition simple_type (t : AType) : bool :=
  match t with StringTy | AddressTy => true | UintTy size => (size =? 8) || (size =? 256) | _ => false end.

(** The struct of an event agrees with the ABI: the fields are the arguments in
    their order, under their camel-case names and with their Go types. *)
Definition info_ok (ev : EventInfo) : bool :=
  match Methods (EvABI ev) !! EvName ev, Events (EvABI ev) !! EvName ev with
  | None, Some args =>
      wf_args args && sane_args args && forallb (fun a => simple_type (ArgType a)) args && isTuple args &&
      bool_decide (EvFields ev = List.map (fun a => ToCamelCase (ArgName a)) args) &&
      bool_decide (NoDup (EvFields ev)) && forallb nonempty (EvFields ev) &&
      eqb_list type_eqb (EvTypes ev) (List.map (fun a => GetType (ArgType a)) args) &&
      eqb_list type_eqb (List.map TypeOf (zero_struct ev)) (EvTypes ev)
  | _, _ => false
  end.

Lemma token_bank_events_ok : Forall (fun ev => info_ok ev = true) token_bank_events.
Proof. apply forallb_Forall. vm_compute. reflexivity. Qed.

Lemma eqb_list_eq (l1 l2 : list GoType) : eqb_list type_eqb l1 l2 = true -> l1 = l2.
Proof.
  revert l2; induction l1 as [|t l1 IH]; intros [|u l2]; try done. simpl.
  intros [H1%type_eqb_eq H2%IH]%andb_true_iff. by subst.
Qed.

Lemma info_ok_inv ev : info_ok ev = true ->
  Methods (EvABI ev) !! EvName ev = None /\ Events (EvABI ev) !! EvName ev = Some (event_args ev) /\
  wf_args (event_args ev) = true /\ sane_args (event_args ev) = true /\
  forallb (fun a => simple_type (ArgType a)) (event_args ev) = true /\ isTuple (event_args ev) = true /\
  EvFields ev = List.map (fun a => ToCamelCase (ArgName a)) (event_args ev) /\
  NoDup (EvFields ev) /\ forallb nonempty (EvFields ev) = true /\
  EvTypes ev = List.map (fun a => GetType (ArgType a)) (event_args ev) /\
  List.map TypeOf (zero_struct ev) = EvTypes ev.
Proof.
  unfold info_ok, event_args. destruct (Methods _ !! _); [done|]. destruct (Events _ !! _) as [args|]; [|done].
  simpl. rewrite !andb_true_iff. intros [[[[[[[[? ?] ?] ?] ?%bool_decide_eq_true] ?%bool_decide_eq_true] ?] ?%eqb_list_eq] ?%eqb_list_eq].
  done.
Qed.

(** What unpacking an event amounts to: the values of the data, or a zero struct
    when they cannot be unpacked. *)
Lemma UnpackIntoInterface_event ev data :
  info_ok ev = true ->
  UnpackIntoInterface (EvABI ev) (List.map untagged (EvFields ev)) (zero_struct ev) (EvName ev) data =
    Unpack (event_args ev) data.
Proof.
  intros Hev. destruct (info_ok_inv ev Hev) as (Hm & He & Hwf & _ & _ & Htup & Hn & Hnd & Hne & Ht & Hz).
  unfold UnpackIntoInterface, getArguments. rewrite Hm, He. cbn [mbind outcome_bind].
  assert (Hlen : 1 < len (event_args ev)) by (by apply Z.ltb_lt in Htup).
  unfold Unpack. destruct (len data =? 0).
  - replace (len (event_args ev) =? 0) with false; [done|].
    symmetry. apply Z.eqb_neq. lia.
  - destruct (UnpackValues _ _) as [vals| |] eqn:Hv; [|done|done]. cbn [mbind outcome_bind].
    apply UnpackValues_typed in Hv. rewrite NonIndexed_wf in Hv by done.
    assert (Hf : List.map FieldName (List.map untagged (EvFields ev)) = EvFields ev)
      by (rewrite List.map_map; apply List.map_id).
    apply Copy_ok; rewrite ?Hf; try done; [by apply NonIndexed_wf| |congruence].
    apply Forall_forall. intros f (n & <- & _)%list_elem_of_In%in_map_iff. done.
Qed.

Lemma unpack_event_eq ev data :
  info_ok ev = true ->
  unpack_event ev data = match Unpack (event_args ev) data with Ok vals => vals | _ => zero_struct ev end.
Proof. intros Hev. unfold unpack_event. by rewrite UnpackIntoInterface_event. Qed.

Lemma unpack_event_typed ev data :
  info_ok ev = true -> List.map TypeOf (unpack_event ev data) = EvTypes ev.
Proof.
  intros Hev. destruct (info_ok_inv ev Hev) as (_ & _ & Hwf & _ & _ & Htup & _ & _ & _ & Ht & Hz).
  rewrite unpack_event_eq by done. destruct (Unpack _ _) as [vals| |] eqn:Hv; [|done|done].
  unfold Unpack in Hv. assert (1 < len (event_args ev)) by (by apply Z.ltb_lt in Htup).
  destruct (len data =? 0).
  - rewrite (proj2 (Z.eqb_neq (len (event_args ev)) 0)) in Hv by lia. done.
  - apply UnpackValues_typed in Hv. rewrite NonIndexed_wf in Hv by done. congruence.
Qed.

(** *** Values read from the data

    The events have strings, addresses and unsigned numbers only; whatever bytes
    they are read from, the values are in range. *)

Lemma be_bytes_value l : bytes_ok l -> be_bytes (length l) (be_value l) = l.
Proof.
  induction l as [|b l IH] using rev_ind; [done|]. intros [Hl Hb]%Forall_app. specialize (IH Hl).
  apply Forall_inv in Hb. rewrite be_value_snoc, length_app, Nat.add_1_r. cbn [be_bytes].
  rewrite shiftr_8, land_255, Z.div_add_l, Z.div_small, Z.add_0_r, IH, Z.add_comm, Z.mod_add, Z.mod_small by lia. done.
Qed.

Lemma val_bytes l : bytes_ok l -> is_bytes (List.map val_byte l) = true.
Proof.
  unfold is_bytes. induction 1 as [|b l Hb _ IH]; [done|]. simpl. rewrite IH.
  by rewrite (proj2 (is_byte_spec b)).
Qed.

Lemma toGoType_has_type t i out v :
  simple_type t = true -> bytes_ok out -> toGoType i t out = Ok v -> has_type t v = true.
Proof.
  intros Ht Hout. destruct t; try discriminate; cbn [toGoType]; (destruct (_ <? _); [done|]).
  - intros (w & Hw & [= <-])%obind_ok. apply slice_bytes in Hw as [Hb Hl]; [|done].
    unfold ReadInteger. simpl in Ht. apply orb_true_iff in Ht as [->%Z.eqb_eq| ->%Z.eqb_eq].
    + change (machine_width 8) with true. cbv iota. unfold low_bits.
      assert (Hd : bytes_ok (drop (length w - Z.to_nat (8 / 8)) w)) by (by apply Forall_drop).
      apply be_value_bound in Hd. unfold len in *. rewrite length_drop in Hd.
      replace (Z.of_nat (length w - (length w - Z.to_nat (8 / 8)))) with 1 in Hd by (change (8 / 8) with 1; lia).
      cbn [has_type]. change (machine_width 8) with true. rewrite (proj2 (Z.leb_le _ _)), (proj2 (Z.ltb_lt _ _)); lia.
    + change (machine_width 256) with false. cbv iota. apply be_value_bound in Hb.
      replace (len w) with 32 in Hb by lia. change (256 ^ 32) with (2 ^ 256) in Hb.
      cbn [has_type]. change (machine_width 256) with false.
      rewrite (proj2 (Z.leb_le _ _)), (proj2 (Z.ltb_lt _ _)) by lia. reflexivity.
  - intros ([st ln] & _ & (w & _ & [= <-])%obind_ok)%obind_ok. done.
  - intros (w & Hw & [= <-])%obind_ok. apply slice_bytes in Hw as [Hb Hl]; [|done].
    unfold byte_array. cbn [has_type byte_vals]. rewrite len_map.
    replace (len (drop 12 w)) with 20 by (unfold len in *; rewrite length_drop; lia).
    rewrite val_bytes by (by apply Forall_drop). reflexivity.
Qed.

Lemma unpack_loop_has_type args data index va vals :
  forallb (fun a => simple_type (ArgType a)) args = true -> bytes_ok data ->
  unpack_loop (List.map (fun a => (ArgType a, fun i => toGoType i (ArgType a) data)) args) index va = Ok vals ->
  forallb2 (fun a v => has_type (ArgType a) v) args vals = true.
Proof.
  intros Hs Hd. revert index va vals; induction args as [|a args IH]; intros index va vals;
    cbn [List.map unpack_loop]; [by intros [= <-]|].
  cbn [forallb] in Hs. apply andb_true_iff in Hs as [Ha Hs].
  intros (v & Hv & (vs & Hvs & [= <-])%obind_ok)%obind_ok. cbn [forallb2].
  rewrite (toGoType_has_type _ _ _ _ Ha Hd Hv). by eapply IH.
Qed.

(** The values packed by a bank. *)
Definition event_typed (ev : EventInfo) (vals : list GoVal) : bool :=
  forallb2 (fun a v => has_type (ArgType a) v) (event_args ev) vals.

Lemma Unpack_packed ev vals data :
  info_ok ev = true -> event_typed ev vals = true -> Pack (event_args ev) vals = Ok data -> len data < 2 ^ 63 ->
  unpack_event ev data = vals.
Proof.
  intros Hev Hvals Hp Hlen. rewrite unpack_event_eq by done.
  destruct (info_ok_inv ev Hev) as (_ & _ & Hwf & _ & _ & Htup & _). assert (1 < len (event_args ev)) by (by apply Z.ltb_lt in Htup).
  destruct (pack_unpack (event_args ev) vals Hwf Hvals) as (data' & Hp' & Hun). rewrite Hp in Hp'. injection Hp' as <-.
  specialize (Hun []). rewrite app_nil_r in Hun. unfold Unpack. destruct (Z.eqb_spec (len data) 0) as [Hz|]; [|by rewrite Hun].
  assert (Hnil : event_args ev = []) by (by eapply Pack_nonempty). rewrite Hnil in *. unfold len in *. simpl in *. lia.
Qed.

(** The data of an event that can be read give values in range. *)
Lemma unpack_event_values ev data :
  info_ok ev = true -> bytes_ok data ->
  unpack_event ev data = zero_struct ev \/ event_typed ev (unpack_event ev data) = true.
Proof.
  intros Hev Hd. rewrite unpack_event_eq by done. destruct (info_ok_inv ev Hev) as (_ & _ & Hwf & _ & Hs & Htup & _).
  destruct (Unpack _ _) as [vals| |] eqn:Hv; [right|by left..]. unfold Unpack in Hv.
  destruct (len data =? 0).
  - assert (1 < len (event_args ev)) by (by apply Z.ltb_lt in Htup).
    rewrite (proj2 (Z.eqb_neq (len (event_args ev)) 0)) in Hv by lia. done.
  - unfold UnpackValues in Hv. rewrite NonIndexed_wf in Hv by done. by eapply unpack_loop_has_type.
Qed.

Lemma has_type_address v :
  has_type AddressTy v = true ->
  exists l, v = GArray (TUint 8) l /\ is_address (be_value (List.map byte_val l)) = true /\
    address_val (be_value (List.map byte_val l)) = v.
Proof.
  cbn [has_type]. intros (l & -> & Hl & Hb)%byte_vals_inv.
  assert (Hok : bytes_ok (List.map byte_val l)).
  { unfold is_bytes in Hb. rewrite forallb_Forall in Hb. unfold bytes_ok. apply Forall_map.
    eapply Forall_impl; [exact Hb|]. intros []; try done. simpl. by intros [_ ?%is_byte_spec]%andb_true_iff. }
  exists l. split; [done|]. assert (Hr := be_value_bound _ Hok). rewrite len_map, Hl in Hr. split.
  - unfold is_address. rewrite andb_true_iff, Z.leb_le, Z.ltb_lt. exact Hr.
  - unfold address_val. replace 20%nat with (length (List.map byte_val l)) by (unfold len in Hl; rewrite List.length_map; lia).
    rewrite be_bytes_value by done. by apply byte_array_map.
Qed.

Lemma lookup_map {A B} (f : A -> B) l i : List.map f l !! i = f <$> (l !! i).
Proof. exact (list_lookup_fmap f l i). Qed.

(** Addresses in the struct are addresses. *)
Lemma addr_at_ok ev data i :
  info_ok ev = true -> bytes_ok data -> is_address (addr_at (unpack_event ev data) i) = true.
Proof.
  intros Hev Hd. destruct (info_ok_inv ev Hev) as (_ & _ & _ & _ & Hs & _ & _ & _ & _ & Ht & _).
  unfold addr_at. destruct (unpack_event ev data !! i) as [v|] eqn:Hv; [|reflexivity].
  rewrite forallb_Forall in Hs. destruct (unpack_event_values ev data Hev Hd) as [Hz|Htyped].
  - rewrite Hz in Hv. unfold zero_struct in Hv. rewrite lookup_map in Hv.
    rewrite Ht, lookup_map in Hv. destruct (event_args ev !! i) as [a|] eqn:Ha; [|done]. injection Hv as <-.
    assert (Hsa := Forall_lookup_1 _ _ _ _ Hs Ha). simpl in Hsa. destruct (ArgType a); try discriminate; [|done|done].
    simpl. unfold reflectIntType. by destruct (machine_width _).
  - apply forallb2_Forall2 in Htyped.
    destruct (Forall2_lookup_r _ _ _ _ _ Htyped Hv) as (a & Ha & Hav).
    assert (Hsa := Forall_lookup_1 _ _ _ _ Hs Ha). simpl in Hsa, Hav.
    destruct (ArgType a); try discriminate; [by destruct v..|].
    apply has_type_address in Hav as (l & -> & Hl & _). done.
Qed.

(** (functional): for each of the sixteen token bank events, what the bank packs
    is what the parsers and the log extraction read; whatever other bytes they
    are given, reading does not panic and yields a struct of the event's types. *)
Theorem event_data_spec (ev : EventInfo) :
  ev ∈ token_bank_events ->
  (forall vals, event_typed ev vals = true ->
     exists data, Pack (event_args ev) vals = Ok data /\ (len data < 2 ^ 63 -> unpack_event ev data = vals)) /\
  (forall data, List.map TypeOf (unpack_event ev data) = EvTypes ev) /\
  (forall data, bytes_ok data ->
     is_panic (UnpackIntoInterface (EvABI ev) (List.map untagged (EvFields ev)) (zero_struct ev) (EvName ev) data) = false).
Proof.
  intros Hin. assert (Hev : info_ok ev = true) by (pose proof token_bank_events_ok as Ho; rewrite Forall_forall in Ho; by apply Ho).
  destruct (info_ok_inv ev Hev) as (_ & _ & Hwf & Hsane & _). split; [|split].
  - intros vals Hvals. destruct (pack_unpack (event_args ev) vals Hwf Hvals) as (data & Hp & _).
    exists data. split; [done|]. intros Hlen. by apply Unpack_packed.
  - intros data. by apply unpack_event_typed.
  - intros data Hdata. rewrite UnpackIntoInterface_event by done. unfold Unpack.
    destruct (len data =? 0); [by destruct (negb _)|]. by apply UnpackValues_safe.
Qed.

Definition sample_lock : list GoVal :=
  [GString "366/20/0x0000000000000000000000000000000000000007"; address_val 11; big 360777; address_val 12; big 5000;
   GString "Gold"; GString "GLD"; GUint 8 18; big 1].

Lemma event_data_spec_witness :
  TNT20TokenLocked_info ∈ token_bank_events /\ event_typed TNT20TokenLocked_info sample_lock = true /\
  (exists data, Pack (event_args TNT20TokenLocked_info) sample_lock = Ok data /\
     (len data < 2 ^ 63 -> unpack_event TNT20TokenLocked_info data = sample_lock)).
Proof.
  assert (Hin : TNT20TokenLocked_info ∈ token_bank_events) by (right; left).
  assert (Ht : event_typed TNT20TokenLocked_info sample_lock = true) by (vm_compute; reflexivity).
  split; [exact Hin|]. split; [exact Ht|]. exact (proj1 (event_data_spec TNT20TokenLocked_info Hin) sample_lock Ht).
Defined.
