(* ===== verification/CacheSpec.v ===== *)
(** * CacheSpec: the event cache refines a finite map

    The abstract cache is a map from source chain, event type and nonce to
    events.  Insertion, deletion, lookup and the test for existence implement the
    operations of the map, and the scanned heights are kept apart from the
    events. *)

From Stdlib Require Import Ascii.
From stdpp Require Import gmap sorting.
From stdpp Require Import base list numbers strings.
From S2P Require Import Prelude Text Abi AbiSpec Bind TokenBanks InterChain EventCache InterChainSpec.
Open Scope string_scope.
Open Scope list_scope.
Open Scope Z_scope.

(** ** The abstract cache *)

Notation Cache := (gmap (Z * Z * Z) InterChainMessageEvent).

(** The key of an event; events without a source chain or a nonce cannot be
    looked up. *)
Definition cache_key (e : InterChainMessageEvent) : option (Z * Z * Z) :=
  match SourceChainID e, INonce e with Some s, Some n => Some (s, IType e, n) | _, _ => None end.

Definition cache_insert (m : Cache) (e : InterChainMessageEvent) : Cache :=
  match cache_key e with Some k => <[k := kept e]> m | None => m end.

Section Refinement.
Context {D : Type} `{!Database D}.
Implicit Types (db : D) (m : Cache).

(** A database represents a cache: it holds exactly the events of the map. *)
Definition represents db m : Prop := forall s t n,
  Get db s t n = match m !! (s, t, n) with
                 | Some e => (e, Ok tt)
                 | None => (zero_event, Err ErrKeyNotFound)
                 end.

Lemma put_item_ok db k item db' :
  put_item db k item = (db', Ok tt) -> exists i, item = Ok i /\ db_Put db k i = Ok db'.
Proof.
  unfold put_item. destruct item as [i| |]; [|done|done]. destruct (db_Put db k i) eqn:Hp; [|done|done].
  intros [= ->]. by exists i.
Qed.

Lemma Insert_represents db db' m e :
  event_ok e = true -> represents db m -> Insert db e = (db', Ok tt) -> represents db' (cache_insert m e).
Proof.
  intros He Hm (i & Henc & Hput)%put_item_ok s t n. unfold Get. rewrite (db_Get_Put _ _ _ _ _ Hput).
  unfold cache_insert, event_key, cache_key. destruct (decide _) as [(Hs & Ht & Hn)%event_key_inj|Hne].
  - rewrite Hs, Hn, Ht. cbv beta iota. rewrite lookup_insert_eq. by apply DecodeRLP_EncodeRLP.
  - specialize (Hm s t n). unfold Get in Hm. rewrite Hm.
    destruct (SourceChainID e) as [s'|], (INonce e) as [n'|]; try done.
    rewrite lookup_insert_ne; [done|]. intros [= <- <- <-]. done.
Qed.

Lemma InsertList_represents events db db' m :
  forallb event_ok events = true -> represents db m -> InsertList db events = (db', Ok tt) ->
  represents db' (foldl cache_insert m events).
Proof.
  revert db m; induction events as [|e events IH]; intros db m He Hm; simpl.
  - by intros [= ->].
  - simpl in He. apply andb_true_iff in He as [He Hes].
    destruct (Insert db e) as [db1 [[]| |]] eqn:Hi; [|done|done].
    intros Hl. eapply IH; [done| |exact Hl]. by eapply Insert_represents.
Qed.

Lemma Delete_represents db db' m s t n :
  represents db m -> Delete db s t n = (db', Ok tt) -> represents db' (delete (s, t, n) m).
Proof.
  unfold Delete. intros Hm. destruct (db_Delete _ _) as [db1| |] eqn:Hd; [|done|done]. intros [= ->] s' t' n'.
  unfold Get. rewrite (db_Get_Delete _ _ _ _ Hd). destruct (decide _) as [([= ->] & -> & [= ->])%event_key_inj|Hne].
  - by rewrite lookup_delete_eq.
  - specialize (Hm s' t' n'). unfold Get in Hm. rewrite Hm, lookup_delete_ne; [done|].
    intros [= -> -> ->]. done.
Qed.

Lemma Exists_represents db m s t n :
  represents db m -> Exists db s t n = Ok (bool_decide (is_Some (m !! (s, t, n)))).
Proof.
  intros Hm. unfold Exists. rewrite (Hm s t n). by destruct (m !! (s, t, n)).
Qed.

(** What a lookup finds after insertions, whatever the database held: an inserted
    event with the key, or what was there. *)
Lemma InsertList_Get events db db' s t n :
  forallb event_ok events = true -> InsertList db events = (db', Ok tt) ->
  (exists e, e ∈ events /\ cache_key e = Some (s, t, n) /\ Get db' s t n = (kept e, Ok tt)) \/
  ((forall e, e ∈ events -> cache_key e <> Some (s, t, n)) /\ Get db' s t n = Get db s t n).
Proof.
  revert db; induction events as [|e events IH]; intros db He; cbn [InsertList].
  - intros [= ->]. right. split; [|done]. intros e He'. by apply not_elem_of_nil in He'.
  - cbn [forallb] in He. apply andb_true_iff in He as [He Hes].
    destruct (Insert db e) as [db1 [[]| |]] eqn:Hi; [|done|done]. intros Hl.
    destruct (IH db1 Hes Hl) as [(e' & Hin & Hk & Hg)|[Hno Hg]].
    { left. exists e'. split; [by right|done]. }
    apply put_item_ok in Hi as (i & Henc & Hput). unfold Get in Hg at 2. rewrite (db_Get_Put _ _ _ _ _ Hput) in Hg.
    destruct (decide _) as [(Hs & Ht & Hn)%event_key_inj|Hne].
    + left. exists e. split; [by left|]. unfold cache_key. rewrite Hs, Hn, Ht. split; [done|].
      rewrite Hg. by apply DecodeRLP_EncodeRLP.
    + right. split; [|exact Hg]. intros e' [->|Hin]%elem_of_cons; [|by apply Hno].
      unfold cache_key. intros Hk. apply Hne. unfold event_key.
      destruct (SourceChainID e), (INonce e); try done. by injection Hk as -> -> ->.
Qed.

(** A database that takes every write. *)
Definition writable : Prop := forall db k v, exists db', db_Put db k v = Ok db'.

Lemma InsertList_total events db :
  writable -> forallb encodable events = true -> exists db', InsertList db events = (db', Ok tt).
Proof.
  intros Hw. revert db; induction events as [|e events IH]; intros db; cbn [forallb InsertList]; [by exists db|].
  intros [[i Hi]%encodable_spec Hes]%andb_true_iff. unfold Insert, put_item. rewrite Hi.
  destruct (Hw db (event_key e) i) as [db1 ->]. by apply IH.
Qed.

(** Heights and events do not interfere. *)
Lemma height_represents db db' m c h :
  represents db m -> setLastQueryedHeightForType db c h = (db', Ok tt) -> represents db' m.
Proof.
  intros Hm (i & _ & Hput)%put_item_ok s t n. rewrite <- (Hm s t n). unfold Get.
  rewrite (db_Get_Put _ _ _ _ _ Hput), decide_False; [done|]. by intros ?%eq_sym%event_height_keys.
Qed.

Lemma height_stored db db' c h c' :
  setLastQueryedHeightForType db c h = (db', Ok tt) ->
  getLastQueryedHeightForType db' c' =
    if decide (c = c') then (h, Ok tt) else getLastQueryedHeightForType db c'.
Proof.
  intros (i & Hi & Hput)%put_item_ok. unfold getLastQueryedHeightForType. rewrite (db_Get_Put _ _ _ _ _ Hput).
  destruct (decide (c = c')) as [->|Hne].
  - rewrite decide_True by done. apply rlp_big_ok in Hi as [-> _]. done.
  - rewrite decide_False; [done|]. by intros ?%scan_key_inj.
Qed.

Lemma height_insert events db db' c :
  InsertList db events = (db', Ok tt) -> getLastQueryedHeightForType db' c = getLastQueryedHeightForType db c.
Proof.
  revert db; induction events as [|e events IH]; intros db; simpl; [by intros [= ->]|].
  destruct (Insert db e) as [db1 [[]| |]] eqn:Hi; [|done|done]. intros ->%IH.
  apply put_item_ok in Hi as (i & _ & Hput). unfold getLastQueryedHeightForType.
  rewrite (db_Get_Put _ _ _ _ _ Hput), decide_False; [done|]. apply event_height_keys.
Qed.

Lemma height_delete db db' s t n c :
  Delete db s t n = (db', Ok tt) -> getLastQueryedHeightForType db' c = getLastQueryedHeightForType db c.
Proof.
  unfold Delete. destruct (db_Delete _ _) as [db1| |] eqn:Hd; [|done|done]. intros [= ->].
  unfold getLastQueryedHeightForType. rewrite (db_Get_Delete _ _ _ _ Hd), decide_False; [done|]. apply event_height_keys.
Qed.

(** C26 (refinement): a database that represents a map of events goes on to
    represent it: after a list of events was inserted it represents the map with
    the events inserted in order, each as its encoding keeps it; after a deletion
    the map without the key; writing a scanned height changes no event.  Lookup
    and existence are those of the map, and no operation on events changes the
    scanned heights. *)
Theorem cache_refines_map (db : D) (m : Cache) :
  represents db m ->
  (forall events db', forallb event_ok events = true -> InsertList db events = (db', Ok tt) ->
     represents db' (foldl cache_insert m events) /\
     forall c, getLastQueryedHeightForType db' c = getLastQueryedHeightForType db c) /\
  (forall s t n db', Delete db s t n = (db', Ok tt) ->
     represents db' (delete (s, t, n) m) /\
     forall c, getLastQueryedHeightForType db' c = getLastQueryedHeightForType db c) /\
  (forall s t n, Exists db s t n = Ok (bool_decide (is_Some (m !! (s, t, n))))) /\
  (forall c h db', setLastQueryedHeightForType db c h = (db', Ok tt) ->
     represents db' m /\ getLastQueryedHeightForType db' c = (h, Ok tt)).
Proof.
  intros Hm. split; [|split; [|split]].
  - intros events db' He Hi. split; [by eapply InsertList_represents|]. intros c. by eapply height_insert.
  - intros s t n db' Hd. split; [by eapply Delete_represents|]. intros c. by eapply height_delete.
  - intros s t n. by apply Exists_represents.
  - intros c h db' Hs. split; [by eapply height_represents|]. rewrite (height_stored _ _ _ _ _ Hs). by rewrite decide_True.
Qed.

End Refinement.

(** Two events of one kind and nonce, sent to different chains, and a third. *)
Definition sample_event (target nonce : Z) : InterChainMessageEvent :=
  mkICME IMCEventTypeCrossChainTokenLockTNT20 (Some 366) (Some target) 11 12 [1; 2; 3] (Some nonce) (Some 90).

(** The second event takes the place of the first: the key leaves the target
    chain out. *)
Lemma cache_refines_map_witness :
  let db : gmap string RlpItem := ∅ in
  let events := [sample_event 360001 1; sample_event 360002 1; sample_event 360001 2] in
  let db' := (InsertList db events).1 in
  represents db ∅ /\ InsertList db events = (db', Ok tt) /\
  represents db' (foldl cache_insert ∅ events) /\
  (Get db' 366 IMCEventTypeCrossChainTokenLockTNT20 1).1 = sample_event 360002 1.
Proof.
  intros db events db'. assert (Hr : represents db ∅) by (intros s t n; reflexivity).
  assert (Hi : InsertList db events = (db', Ok tt)) by (vm_compute; reflexivity).
  split; [exact Hr|]. split; [exact Hi|]. split; [|vm_compute; reflexivity].
  apply (proj1 (cache_refines_map db ∅ Hr) events db'); [vm_compute; reflexivity|exact Hi].
Defined.
