(* ===== verification/EventLog.v ===== *)
(** * EventLog: inter-chain events read from the logs of a chain
    (src/interchain/utils/eth_rpc_utils.go)

    [QueryInterChainEventLog] asks a chain for the logs of the token banks in a
    range of blocks and extracts one event from every log of a known kind. *)

From Stdlib Require Import Ascii.
From stdpp Require Import gmap sorting.
From stdpp Require Import base list numbers strings.
From S2P Require Import Prelude Text Abi AbiSpec Bind TokenBanks InterChain.
Open Scope string_scope.
Open Scope list_scope.
Open Scope Z_scope.

Record LogData := mkLogData {
  LogIndex : string;
  TransactionIndex : string;
  TransactionHash : string;
  BlockHash : string;
  BlockNumberText : string;
  LogAddress : string;
  LogBytes : string;
  Topics : list string;
  LogType : string
}.

(** What the witness and the orchestrator ask of the world: the height of a
    chain, the logs of contracts in a range of blocks with one of some topics,
    the clock in nanoseconds, and the dynasty the ledger is in. *)
Class Remote (W : Type) := {
  remote_backend :: Backend W;
  BlockNumber : Client -> IO W uint64;
  GetLogs : Client -> Z -> Z -> list Address -> list string -> IO W (list LogData);
  Now : IO W Z;
  LedgerDynasty : IO W (option Z)
}.

(** ** Extraction *)

(** The data, the unpacked struct and the height of a log. *)
Definition read_log (ev : EventInfo) (logData : LogData) : outcome (list Z * list GoVal * option Z) :=
  text ← string_from (LogBytes logData) 2;
  let data := hex_decode text in
  number ← string_from (BlockNumberText logData) 2;
  Ok (data, unpack_event ev data, SetString16 number).

(** The chain of a denomination; zero when it cannot be read. *)
Definition originated (denom : string) : Z :=
  match ExtractOriginatedChainIDFromDenom denom with Ok c => c | _ => 0 end.

Definition extractTFuelTokenLockedEvent (sourceChainID : Z) (logData : LogData) : outcome InterChainMessageEvent :=
  '(data, vals, blockHeight) ← read_log TFuelTokenLocked_info logData;
  let tma := TFuelTokenLocked_of vals in
  Ok (mkICME IMCEventTypeCrossChainTokenLockTFuel (Some sourceChainID) (TFuelTokenLocked.TargetChainID tma)
        (TFuelTokenLocked.SourceChainTokenSender tma) (TFuelTokenLocked.TargetChainVoucherReceiver tma) data (TFuelTokenLocked.TokenLockNonce tma) blockHeight).

Definition extractTNT20TokenLockedEvent (sourceChainID : Z) (logData : LogData) : outcome InterChainMessageEvent :=
  '(data, vals, blockHeight) ← read_log TNT20TokenLocked_info logData;
  let tma := TNT20TokenLocked_of vals in
  Ok (mkICME IMCEventTypeCrossChainTokenLockTNT20 (Some sourceChainID) (TNT20TokenLocked.TargetChainID tma)
        (TNT20TokenLocked.SourceChainTokenSender tma) (TNT20TokenLocked.TargetChainVoucherReceiver tma) data (TNT20TokenLocked.TokenLockNonce tma) blockHeight).

Definition extractTNT721TokenLockedEvent (sourceChainID : Z) (logData : LogData) : outcome InterChainMessageEvent :=
  '(data, vals, blockHeight) ← read_log TNT721TokenLocked_info logData;
  let tma := TNT721TokenLocked_of vals in
  Ok (mkICME IMCEventTypeCrossChainTokenLockTNT721 (Some sourceChainID) (TNT721TokenLocked.TargetChainID tma)
        (TNT721TokenLocked.SourceChainTokenSender tma) (TNT721TokenLocked.TargetChainVoucherReceiver tma) data (TNT721TokenLocked.TokenLockNonce tma) blockHeight).

Definition extractTNT1155TokenLockedEvent (sourceChainID : Z) (logData : LogData) : outcome InterChainMessageEvent :=
  '(data, vals, blockHeight) ← read_log TNT1155TokenLocked_info logData;
  let tma := TNT1155TokenLocked_of vals in
  Ok (mkICME IMCEventTypeCrossChainTokenLockTNT1155 (Some sourceChainID) (TNT1155TokenLocked.TargetChainID tma)
        (TNT1155TokenLocked.SourceChainTokenSender tma) (TNT1155TokenLocked.TargetChainVoucherReceiver tma) data (TNT1155TokenLocked.TokenLockNonce tma) blockHeight).

Definition extractTFuelVoucherMintedEvent (targetChainID : Z) (logData : LogData) : outcome InterChainMessageEvent :=
  '(data, vals, blockHeight) ← read_log TFuelVoucherMinted_info logData;
  let tma := TFuelVoucherMinted_of vals in
  let originatedChainID := originated (TFuelVoucherMinted.Denom tma) in
  Ok (mkICME IMCEventTypeCrossChainVoucherMintTFuel (Some originatedChainID) (Some targetChainID)
        0 (TFuelVoucherMinted.TargetChainVoucherReceiver tma) data (TFuelVoucherMinted.VoucherMintNonce tma) blockHeight).

Definition extractTNT20VoucherMintedEvent (targetChainID : Z) (logData : LogData) : outcome InterChainMessageEvent :=
  '(data, vals, blockHeight) ← read_log TNT20VoucherMinted_info logData;
  let tma := TNT20VoucherMinted_of vals in
  let originatedChainID := originated (TNT20VoucherMinted.Denom tma) in
  Ok (mkICME IMCEventTypeCrossChainVoucherMintTNT20 (Some originatedChainID) (Some targetChainID)
        0 (TNT20VoucherMinted.TargetChainVoucherReceiver tma) data (TNT20VoucherMinted.VoucherMintNonce tma) blockHeight).

Definition extractTNT721VoucherMintedEvent (targetChainID : Z) (logData : LogData) : outcome InterChainMessageEvent :=
  '(data, vals, blockHeight) ← read_log TNT721VoucherMinted_info logData;
  let tma := TNT721VoucherMinted_of vals in
  let originatedChainID := originated (TNT721VoucherMinted.Denom tma) in
  Ok (mkICME IMCEventTypeCrossChainVoucherMintTNT721 (Some originatedChainID) (Some targetChainID)
        0 (TNT721VoucherMinted.TargetChainVoucherReceiver tma) data (TNT721VoucherMinted.VoucherMintNonce tma) blockHeight).

Definition extractTNT1155VoucherMintedEvent (targetChainID : Z) (logData : LogData) : outcome InterChainMessageEvent :=
  '(data, vals, blockHeight) ← read_log TNT1155VoucherMinted_info logData;
  let tma := TNT1155VoucherMinted_of vals in
  let originatedChainID := originated (TNT1155VoucherMinted.Denom tma) in
  Ok (mkICME IMCEventTypeCrossChainVoucherMintTNT1155 (Some originatedChainID) (Some targetChainID)
        0 (TNT1155VoucherMinted.TargetChainVoucherReceiver tma) data (TNT1155VoucherMinted.VoucherMintNonce tma) blockHeight).

Definition extractTFuelVoucherBurnedEvent (sourceChainID : Z) (logData : LogData) : outcome InterChainMessageEvent :=
  '(data, vals, blockHeight) ← read_log TFuelVoucherBurned_info logData;
  let tma := TFuelVoucherBurned_of vals in
  let originatedChainID := originated (TFuelVoucherBurned.Denom tma) in
  Ok (mkICME IMCEventTypeCrossChainVoucherBurnTFuel (Some sourceChainID) (Some originatedChainID)
        (TFuelVoucherBurned.SourceChainVoucherOwner tma) (TFuelVoucherBurned.TargetChainTokenReceiver tma) data (TFuelVoucherBurned.VoucherBurnNonce tma) blockHeight).

Definition extractTNT20VoucherBurnedEvent (sourceChainID : Z) (logData : LogData) : outcome InterChainMessageEvent :=
  '(data, vals, blockHeight) ← read_log TNT20VoucherBurned_info logData;
  let tma := TNT20VoucherBurned_of vals in
  let originatedChainID := originated (TNT20VoucherBurned.Denom tma) in
  Ok (mkICME IMCEventTypeCrossChainVoucherBurnTNT20 (Some sourceChainID) (Some originatedChainID)
        (TNT20VoucherBurned.SourceChainVoucherOwner tma) (TNT20VoucherBurned.TargetChainTokenReceiver tma) data (TNT20VoucherBurned.VoucherBurnNonce tma) blockHeight).

Definition extractTNT721VoucherBurnedEvent (sourceChainID : Z) (logData : LogData) : outcome InterChainMessageEvent :=
  '(data, vals, blockHeight) ← read_log TNT721VoucherBurned_info logData;
  let tma := TNT721VoucherBurned_of vals in
  let originatedChainID := originated (TNT721VoucherBurned.Denom tma) in
  Ok (mkICME IMCEventTypeCrossChainVoucherBurnTNT721 (Some sourceChainID) (Some originatedChainID)
        (TNT721VoucherBurned.SourceChainVoucherOwner tma) (TNT721VoucherBurned.TargetChainTokenReceiver tma) data (TNT721VoucherBurned.VoucherBurnNonce tma) blockHeight).

Definition extractTNT1155VoucherBurnedEvent (sourceChainID : Z) (logData : LogData) : outcome InterChainMessageEvent :=
  '(data, vals, blockHeight) ← read_log TNT1155VoucherBurned_info logData;
  let tma := TNT1155VoucherBurned_of vals in
  let originatedChainID := originated (TNT1155VoucherBurned.Denom tma) in
  Ok (mkICME IMCEventTypeCrossChainVoucherBurnTNT1155 (Some sourceChainID) (Some originatedChainID)
        (TNT1155VoucherBurned.SourceChainVoucherOwner tma) (TNT1155VoucherBurned.TargetChainTokenReceiver tma) data (TNT1155VoucherBurned.VoucherBurnNonce tma) blockHeight).

Definition extractTFuelTokenUnlockedEvent (targetChainID : Z) (logData : LogData) : outcome InterChainMessageEvent :=
  '(data, vals, blockHeight) ← read_log TFuelTokenUnlocked_info logData;
  let tma := TFuelTokenUnlocked_of vals in
  Ok (mkICME IMCEventTypeCrossChainTokenUnlockTFuel None (Some targetChainID)
        0 (TFuelTokenUnlocked.TargetChainTokenReceiver tma) data (TFuelTokenUnlocked.TokenUnlockNonce tma) blockHeight).

Definition extractTNT20TokenUnlockedEvent (targetChainID : Z) (logData : LogData) : outcome InterChainMessageEvent :=
  '(data, vals, blockHeight) ← read_log TNT20TokenUnlocked_info logData;
  let tma := TNT20TokenUnlocked_of vals in
  Ok (mkICME IMCEventTypeCrossChainTokenUnlockTNT20 None (Some targetChainID)
        0 (TNT20TokenUnlocked.TargetChainTokenReceiver tma) data (TNT20TokenUnlocked.TokenUnlockNonce tma) blockHeight).

Definition extractTNT721TokenUnlockedEvent (targetChainID : Z) (logData : LogData) : outcome InterChainMessageEvent :=
  '(data, vals, blockHeight) ← read_log TNT721TokenUnlocked_info logData;
  let tma := TNT721TokenUnlocked_of vals in
  Ok (mkICME IMCEventTypeCrossChainTokenUnlockTNT721 None (Some targetChainID)
        0 (TNT721TokenUnlocked.TargetChainTokenReceiver tma) data (TNT721TokenUnlocked.TokenUnlockNonce tma) blockHeight).

Definition extractTNT1155TokenUnlockedEvent (targetChainID : Z) (logData : LogData) : outcome InterChainMessageEvent :=
  '(data, vals, blockHeight) ← read_log TNT1155TokenUnlocked_info logData;
  let tma := TNT1155TokenUnlocked_of vals in
  Ok (mkICME IMCEventTypeCrossChainTokenUnlockTNT1155 None (Some targetChainID)
        0 (TNT1155TokenUnlocked.TargetChainTokenReceiver tma) data (TNT1155TokenUnlocked.TokenUnlockNonce tma) blockHeight).

(** ** Queries *)

Definition event_signature (eventType : Z) : option string :=
  if eventType =? IMCEventTypeCrossChainTokenLockTFuel then Some "TFuelTokenLocked(string,address,uint256,address,uint256,uint256)" else
  if eventType =? IMCEventTypeCrossChainTokenLockTNT20 then Some "TNT20TokenLocked(string,address,uint256,address,uint256,string,string,uint8,uint256)" else
  if eventType =? IMCEventTypeCrossChainTokenLockTNT721 then Some "TNT721TokenLocked(string,address,uint256,address,uint256,string,string,string,uint256)" else
  if eventType =? IMCEventTypeCrossChainVoucherMintTFuel then Some "TFuelVoucherMinted(string,address,uint256,uint256,uint256)" else
  if eventType =? IMCEventTypeCrossChainVoucherMintTNT20 then Some "TNT20VoucherMinted(string,address,address,uint256,uint256,uint256)" else
  if eventType =? IMCEventTypeCrossChainVoucherMintTNT721 then Some "TNT721VoucherMinted(string,address,address,uint256,uint256,uint256)" else
  if eventType =? IMCEventTypeCrossChainVoucherBurnTFuel then Some "TFuelVoucherBurned(string,address,address,uint256,uint256)" else
  if eventType =? IMCEventTypeCrossChainVoucherBurnTNT20 then Some "TNT20VoucherBurned(string,address,address,uint256,uint256)" else
  if eventType =? IMCEventTypeCrossChainVoucherBurnTNT721 then Some "TNT721VoucherBurned(string,address,address,uint256,uint256)" else
  if eventType =? IMCEventTypeCrossChainTokenUnlockTFuel then Some "TFuelTokenUnlocked(string,address,uint256,uint256,uint256)" else
  if eventType =? IMCEventTypeCrossChainTokenUnlockTNT20 then Some "TNT20TokenUnlocked(string,address,uint256,uint256,uint256)" else
  if eventType =? IMCEventTypeCrossChainTokenUnlockTNT721 then Some "TNT721TokenUnlocked(string,address,uint256,uint256,uint256)" else
  if eventType =? IMCEventTypeCrossChainTokenLockTNT1155 then Some "TNT1155TokenLocked(string,address,uint256,address,uint256,uint256,string,uint256)" else
  if eventType =? IMCEventTypeCrossChainVoucherMintTNT1155 then Some "TNT1155VoucherMinted(string,address,address,uint256,uint256,uint256,uint256)" else
  if eventType =? IMCEventTypeCrossChainVoucherBurnTNT1155 then Some "TNT1155VoucherBurned(string,address,address,uint256,uint256,uint256)" else
  if eventType =? IMCEventTypeCrossChainTokenUnlockTNT1155 then Some "TNT1155TokenUnlocked(string,address,uint256,uint256,uint256,uint256)" else
  None.

Section Query.
Context {W : Type} `{!Remote W}.

(** [EventSelectors] *)
Definition EventSelectors (eventType : Z) : string :=
  match event_signature eventType with
  | Some sig => ("0x" ++ hex_encode (Keccak256 (string_bytes sig)))%string
  | None => ""
  end.

(** The cases of the switch, in order. *)
Definition extractors : list (Z * (Z -> LogData -> outcome InterChainMessageEvent)) :=
  [(IMCEventTypeCrossChainTokenLockTFuel, extractTFuelTokenLockedEvent);
   (IMCEventTypeCrossChainTokenLockTNT20, extractTNT20TokenLockedEvent);
   (IMCEventTypeCrossChainTokenLockTNT721, extractTNT721TokenLockedEvent);
   (IMCEventTypeCrossChainTokenLockTNT1155, extractTNT1155TokenLockedEvent);
   (IMCEventTypeCrossChainVoucherMintTFuel, extractTFuelVoucherMintedEvent);
   (IMCEventTypeCrossChainVoucherMintTNT20, extractTNT20VoucherMintedEvent);
   (IMCEventTypeCrossChainVoucherMintTNT721, extractTNT721VoucherMintedEvent);
   (IMCEventTypeCrossChainVoucherMintTNT1155, extractTNT1155VoucherMintedEvent);
   (IMCEventTypeCrossChainVoucherBurnTFuel, extractTFuelVoucherBurnedEvent);
   (IMCEventTypeCrossChainVoucherBurnTNT20, extractTNT20VoucherBurnedEvent);
   (IMCEventTypeCrossChainVoucherBurnTNT721, extractTNT721VoucherBurnedEvent);
   (IMCEventTypeCrossChainVoucherBurnTNT1155, extractTNT1155VoucherBurnedEvent);
   (IMCEventTypeCrossChainTokenUnlockTFuel, extractTFuelTokenUnlockedEvent);
   (IMCEventTypeCrossChainTokenUnlockTNT20, extractTNT20TokenUnlockedEvent);
   (IMCEventTypeCrossChainTokenUnlockTNT721, extractTNT721TokenUnlockedEvent);
   (IMCEventTypeCrossChainTokenUnlockTNT1155, extractTNT1155TokenUnlockedEvent)].

(** One turn of the loop: the event of a log, if its first topic is known. *)
Definition extract_log (queriedChainID : Z) (logData : LogData) : outcome (option InterChainMessageEvent) :=
  match Topics logData with
  | [] => Panic "index out of range"
  | topic :: _ =>
      match List.find (fun p => bool_decide (topic = EventSelectors p.1)) extractors with
      | Some (_, extract) => Some <$> extract queriedChainID logData
      | None => Ok None
      end
  end.

Fixpoint extract_logs (queriedChainID : Z) (logs : list LogData) : outcome (list InterChainMessageEvent) :=
  match logs with
  | [] => Ok []
  | logData :: logs =>
      e ← extract_log queriedChainID logData;
      events ← extract_logs queriedChainID logs;
      Ok (match e with Some e => e :: events | None => events end)
  end.

(** [QueryInterChainEventLog]: a request that fails yields no events.  The logs
    of an answer are those that were decoded, also when decoding it failed
    half-way. *)
Definition QueryInterChainEventLog (c : Client) (queriedChainID fromBlock toBlock : Z)
    (tokenBanks : list Address) : IO W (list InterChainMessageEvent) :=
  r ← attempt (GetLogs c fromBlock toBlock tokenBanks (List.map (fun p => EventSelectors p.1) extractors));
  match r with
  | Ok logs => lift (extract_logs queriedChainID logs)
  | _ => mret []
  end.

End Query.
