(* ===== verification/Witness.v ===== *)
(** * Witness: the witness of the two chains (src/interchain/witness)

    [MetachainWitness] follows the heights of the main chain and of the subchain,
    scans the blocks of both for inter-chain events, which it puts into the event
    cache, and caches the validator sets that the main chain registers for the
    dynasties.  Its state is [MetachainWitness] and the database it shares with
    the orchestrator. *)

From Stdlib Require Import Ascii.
From stdpp Require Import gmap sorting.
From stdpp Require Import base list numbers strings.
From S2P Require Import Prelude Vote Validator Text Abi AbiSpec Bind TokenBanks InterChain EventCache EventLog.
Open Scope string_scope.
Open Scope list_scope.
Open Scope Z_scope.

(** ** State *)

(** The token banks of a chain. *)
Record TokenBankSet := mkTokenBankSet {
  TFuelTokenBank : BoundContract;
  TNT20TokenBank : BoundContract;
  TNT721TokenBank : BoundContract;
  TNT1155TokenBank : BoundContract
}.

(** A [*big.Int]: the address of the object and its value. *)
Record BigRef := mkBigRef { ref : nat; val : Z }.

(** A validator set with the pointer its dynasty was given by. *)
Record CachedSet := mkCachedSet { DynastyRef : nat; CachedValidators : Validator.ValidatorSet }.

Record MetachainWitness := mkMetachainWitness {
  mainchainID : Z;
  subchainID : Z;
  mainchainBanks : TokenBankSet;
  subchainBanks : TokenBankSet;
  chainRegistrarOnMainchain : BoundContract;
  mainchainBlockHeight : option Z;
  subchainBlockHeight : option Z;
  witnessedDynasty : option Z;
  validatorSetCache : gmap string CachedSet
}.

Definition with_heights (mw : MetachainWitness) (m s : option Z) : MetachainWitness :=
  mkMetachainWitness (mainchainID mw) (subchainID mw) (mainchainBanks mw) (subchainBanks mw)
    (chainRegistrarOnMainchain mw) m s (witnessedDynasty mw) (validatorSetCache mw).

Definition with_sets (mw : MetachainWitness) (d : option Z) (c : gmap string CachedSet) : MetachainWitness :=
  mkMetachainWitness (mainchainID mw) (subchainID mw) (mainchainBanks mw) (subchainBanks mw)
    (chainRegistrarOnMainchain mw) (mainchainBlockHeight mw) (subchainBlockHeight mw) d c.

(** The chain of a client, its token banks. *)
Definition chain_of (mw : MetachainWitness) (c : Client) : Z :=
  match c with MainchainClient => mainchainID mw | SubchainClient => subchainID mw end.

Definition banks_of (mw : MetachainWitness) (c : Client) : TokenBankSet :=
  match c with MainchainClient => mainchainBanks mw | SubchainClient => subchainBanks mw end.

Definition bank_addresses (b : TokenBankSet) : list Address :=
  [address (TFuelTokenBank b); address (TNT20TokenBank b); address (TNT721TokenBank b);
   address (TNT1155TokenBank b)].

(** ** Heights *)

(** [GetMainchainBlockHeight] and [GetSubchainBlockHeight] *)
Definition GetMainchainBlockHeight (mw : MetachainWitness) : outcome Z :=
  match mainchainBlockHeight mw with
  | None => Err "mainchain block height not been updated yet"
  | Some h => Ok h
  end.

Definition GetSubchainBlockHeight (mw : MetachainWitness) : outcome Z :=
  match subchainBlockHeight mw with
  | None => Err "mainchain block height not been updated yet"
  | Some h => Ok h
  end.

Definition maxBlockRange : Z := 300.
Definition minBlockGap : Z := 2.

(** [calculateToBlock]; the queried chain is compared with the main chain as a
    pointer, which the two callers make a comparison of clients. *)
Definition calculateToBlock (mw : MetachainWitness) (fromBlock : Z) (c : Client) : Z :=
  match match c with
        | MainchainClient => GetMainchainBlockHeight mw
        | SubchainClient => GetSubchainBlockHeight mw
        end with
  | Ok toBlock =>
      if maxBlockRange <? toBlock - fromBlock then fromBlock + maxBlockRange
      else toBlock - minBlockGap
  | _ => fromBlock
  end.

Section Witness.
Context {W : Type} `{!Remote W} {D : Type} `{!Database D}.
Context (Hex : Address -> string) (HexToAddress : string -> Address).
Implicit Types (mw : MetachainWitness) (db : D).

(** [h, _ := client.BlockNumber()] as a signed number. *)
Definition block_number_or_zero (c : Client) : IO W Z :=
  r ← attempt (BlockNumber c);
  mret (match r with Ok h => to_int64 h | _ => 0 end).

(** [updateMainchainBlockHeight], [updateSubchainBlockHeight] *)
Definition updateMainchainBlockHeight mw : IO W MetachainWitness :=
  r ← attempt (BlockNumber MainchainClient);
  mret (match r with
        | Ok h => with_heights mw (Some (to_int64 h)) (subchainBlockHeight mw)
        | _ => mw
        end).

Definition updateSubchainBlockHeight mw : IO W MetachainWitness :=
  r ← attempt (BlockNumber SubchainClient);
  mret (match r with
        | Ok h => with_heights mw (mainchainBlockHeight mw) (Some (to_int64 h))
        | _ => mw
        end).

(** ** The height to start scanning from *)

(** The maximum nonce that one chain has processed, and the height at which the
    other chain recorded the event of that nonce; the height is not asked for
    when the first request fails. *)
Definition nonce_and_height (getNonce : IO W Z) (getHeight : Z -> IO W Z) : IO W (option Z * option Z) :=
  n ← attempt getNonce;
  match n with
  | Ok maxProcessedNonce =>
      h ← attempt (getHeight maxProcessedNonce);
      mret (Some maxProcessedNonce, match h with Ok h => Some h | _ => None end)
  | _ => mret (None, None)
  end.

(** The end of [getMainchainMaxProcessedNonceEventHeight] and of its twin. *)
Definition nonce_event_height (c : Client) (p : option Z * option Z) : IO W Z :=
  match p with
  | (Some maxProcessedNonce, Some eventHeight) =>
      if maxProcessedNonce =? 0 then block_number_or_zero c else mret eventHeight
  | _ => mret 0
  end.

(** [getMainchainMaxProcessedNonceEventHeight] *)
Definition getMainchainMaxProcessedNonceEventHeight mw (icmeType : Z) : IO W Z :=
  let main := mainchainBanks mw in
  let sub := subchainBanks mw in
  let mainID := mainchainID mw in
  let subID := subchainID mw in
  p ←
    (if icmeType =? IMCEventTypeCrossChainTokenLockTFuel then
       nonce_and_height (TFuelTokenBank_GetMaxProcessedTokenLockNonce (TFuelTokenBank sub) mainID)
                        (TFuelTokenBank_GetTokenLockEventHeight (TFuelTokenBank main) subID)
     else if icmeType =? IMCEventTypeCrossChainTokenLockTNT20 then
       nonce_and_height (TNT20TokenBank_GetMaxProcessedTokenLockNonce (TNT20TokenBank sub) mainID)
                        (TNT20TokenBank_GetTokenLockEventHeight (TNT20TokenBank main) subID)
     else if icmeType =? IMCEventTypeCrossChainTokenLockTNT721 then
       nonce_and_height (TNT721TokenBank_GetMaxProcessedTokenLockNonce (TNT721TokenBank sub) mainID)
                        (TNT721TokenBank_GetTokenLockEventHeight (TNT721TokenBank main) subID)
     else if icmeType =? IMCEventTypeCrossChainTokenLockTNT1155 then
       nonce_and_height (TNT1155TokenBank_GetMaxProcessedTokenLockNonce (TNT1155TokenBank sub) mainID)
                        (TNT721TokenBank_GetTokenLockEventHeight (TNT721TokenBank main) subID)
     else if icmeType =? IMCEventTypeCrossChainVoucherBurnTFuel then
       h ← block_number_or_zero MainchainClient; mret (Some 0, Some h)
     else if icmeType =? IMCEventTypeCrossChainVoucherBurnTNT20 then
       nonce_and_height (TNT20TokenBank_GetMaxProcessedVoucherBurnNonce (TNT20TokenBank sub) mainID)
                        (TNT20TokenBank_GetVoucherBurnEventHeight (TNT20TokenBank main) subID)
     else if icmeType =? IMCEventTypeCrossChainVoucherBurnTNT721 then
       nonce_and_height (TNT721TokenBank_GetMaxProcessedVoucherBurnNonce (TNT721TokenBank sub) mainID)
                        (TNT721TokenBank_GetVoucherBurnEventHeight (TNT721TokenBank main) subID)
     else if icmeType =? IMCEventTypeCrossChainVoucherBurnTNT1155 then
       nonce_and_height (TNT1155TokenBank_GetMaxProcessedVoucherBurnNonce (TNT1155TokenBank sub) mainID)
                        (TNT1155TokenBank_GetVoucherBurnEventHeight (TNT1155TokenBank main) subID)
     else lift (Panic "invalid event type"));
  nonce_event_height MainchainClient p.

(** [getSubchainMaxProcessedNonceEventHeight] *)
Definition getSubchainMaxProcessedNonceEventHeight mw (icmeType : Z) : IO W Z :=
  let main := mainchainBanks mw in
  let sub := subchainBanks mw in
  let mainID := mainchainID mw in
  let subID := subchainID mw in
  p ←
    (if icmeType =? IMCEventTypeCrossChainTokenLockTFuel then
       h ← block_number_or_zero SubchainClient; mret (Some 0, Some h)
     else if icmeType =? IMCEventTypeCrossChainTokenLockTNT20 then
       nonce_and_height (TNT20TokenBank_GetMaxProcessedTokenLockNonce (TNT20TokenBank main) subID)
                        (TNT20TokenBank_GetTokenLockEventHeight (TNT20TokenBank sub) mainID)
     else if icmeType =? IMCEventTypeCrossChainTokenLockTNT721 then
       nonce_and_height (TNT721TokenBank_GetMaxProcessedTokenLockNonce (TNT721TokenBank main) subID)
                        (TNT721TokenBank_GetTokenLockEventHeight (TNT721TokenBank sub) mainID)
     else if icmeType =? IMCEventTypeCrossChainTokenLockTNT1155 then
       nonce_and_height (TNT1155TokenBank_GetMaxProcessedTokenLockNonce (TNT1155TokenBank main) subID)
                        (TNT1155TokenBank_GetTokenLockEventHeight (TNT1155TokenBank sub) mainID)
     else if icmeType =? IMCEventTypeCrossChainVoucherBurnTFuel then
       nonce_and_height (TFuelTokenBank_GetMaxProcessedVoucherBurnNonce (TFuelTokenBank main) subID)
                        (TFuelTokenBank_GetVoucherBurnEventHeight (TFuelTokenBank sub) mainID)
     else if icmeType =? IMCEventTypeCrossChainVoucherBurnTNT20 then
       nonce_and_height (TNT20TokenBank_GetMaxProcessedVoucherBurnNonce (TNT20TokenBank main) subID)
                        (TNT20TokenBank_GetVoucherBurnEventHeight (TNT20TokenBank sub) mainID)
     else if icmeType =? IMCEventTypeCrossChainVoucherBurnTNT721 then
       nonce_and_height (TNT721TokenBank_GetMaxProcessedVoucherBurnNonce (TNT721TokenBank main) subID)
                        (TNT721TokenBank_GetVoucherBurnEventHeight (TNT721TokenBank sub) mainID)
     else if icmeType =? IMCEventTypeCrossChainVoucherBurnTNT1155 then
       nonce_and_height (TNT1155TokenBank_GetMaxProcessedVoucherBurnNonce (TNT1155TokenBank main) subID)
                        (TNT1155TokenBank_GetVoucherBurnEventHeight (TNT1155TokenBank sub) mainID)
     else lift (Panic "invalid event type"));
  nonce_event_height SubchainClient p.

Definition scan_event_types : list Z :=
  [IMCEventTypeCrossChainTokenLockTFuel; IMCEventTypeCrossChainTokenLockTNT20;
   IMCEventTypeCrossChainTokenLockTNT721; IMCEventTypeCrossChainVoucherBurnTFuel;
   IMCEventTypeCrossChainVoucherBurnTNT20; IMCEventTypeCrossChainVoucherBurnTNT721;
   IMCEventTypeCrossChainVoucherBurnTNT1155].

Definition BigMaxUint64 : Z := 18446744073709551615.
Definition scanMargin : Z := 5.

(** The loop of [getBlockScanStartingHeight]. *)
Fixpoint min_event_height mw (queriedChainID : Z) (types : list Z) (updateHeight : Z) : IO W Z :=
  match types with
  | [] => mret updateHeight
  | eventType :: types =>
      height ←
        (if queriedChainID =? mainchainID mw then getMainchainMaxProcessedNonceEventHeight mw eventType
         else if queriedChainID =? subchainID mw then getSubchainMaxProcessedNonceEventHeight mw eventType
         else lift (Panic "invalid queriedChainID"));
      min_event_height mw queriedChainID types (if height <? updateHeight then height else updateHeight)
  end.

(** [getBlockScanStartingHeight] *)
Definition getBlockScanStartingHeight mw (queriedChainID : Z) : IO W Z :=
  updateHeight ← min_event_height mw queriedChainID scan_event_types BigMaxUint64;
  mret (if scanMargin <? updateHeight then updateHeight - scanMargin else 0).

(** ** Collecting events *)

(** [collectInterChainMessageEventsOnChain] *)
Definition collectInterChainMessageEventsOnChain mw db (c : Client) : IO W D :=
  let queriedChainID := chain_of mw c in
  let '(height, err) := getLastQueryedHeightForType db queriedChainID in
  start ←
    match err with
    | Ok _ => mret (height, db)
    | Err e =>
        if bool_decide (e = ErrKeyNotFound) then
          fromBlock ← getBlockScanStartingHeight mw queriedChainID;
          mret (fromBlock, (setLastQueryedHeightForType db queriedChainID fromBlock).1)
        else mret (height, db)
    | Panic e => lift (Panic e)
    end;
  let '(fromBlock, db) := start in
  let toBlock := calculateToBlock mw fromBlock c in
  events ← QueryInterChainEventLog c queriedChainID fromBlock toBlock (bank_addresses (banks_of mw c));
  match InsertList db events with
  | (db, Ok _) => mret (setLastQueryedHeightForType db queriedChainID toBlock).1
  | _ => lift (Panic "failed to insert events into cache")
  end.

(** ** Validator sets *)

(** [updateValidatorSetCache] *)
Definition updateValidatorSetCache mw (dynasty : BigRef) : IO W (MetachainWitness * Validator.ValidatorSet) :=
  let queryBlockHeight := val dynasty * 10000 + 1 in
  vs ← ChainRegistrarOnMainchain_GetValidatorSet (chainRegistrarOnMainchain mw) (subchainID mw) queryBlockHeight;
  let '(validatorAddrs, validatorStakes) := vs in
  if negb (len validatorAddrs =? len validatorStakes)
  then lift (Err "the length of validatorAddrs and validatorStakes are not equal")
  else
    let validatorSet :=
      foldl (fun s p => Validator.AddValidator s (Validator.NewValidator HexToAddress (Hex p.1) p.2))
        (Validator.NewValidatorSet (val dynasty)) (zip validatorAddrs validatorStakes) in
    mret (with_sets mw (witnessedDynasty mw)
            (<[decimal (val dynasty) := mkCachedSet (ref dynasty) validatorSet]> (validatorSetCache mw)),
          validatorSet).

(** [GetValidatorSetByDynasty]: the cached set serves only the pointer it was
    made with. *)
Definition GetValidatorSetByDynasty mw (dynasty : BigRef) : IO W (MetachainWitness * Validator.ValidatorSet) :=
  match validatorSetCache mw !! decimal (val dynasty) with
  | Some s =>
      if (DynastyRef s =? ref dynasty)%nat then mret (mw, CachedValidators s)
      else updateValidatorSetCache mw dynasty
  | None => updateValidatorSetCache mw dynasty
  end.

(** ** One tick *)

(** [update]; [fresh] is the new object that holds the dynasty. *)
Definition update mw db (fresh : nat) : IO W (MetachainWitness * D) :=
  mw ← updateMainchainBlockHeight mw;
  match mainchainBlockHeight mw with
  | None => lift (Panic "nil pointer dereference")
  | Some height =>
      let dynasty := height / 10000 in
      mw ←
        (if match witnessedDynasty mw with None => true | Some d => d <? dynasty end then
           r ← attempt (updateValidatorSetCache mw (mkBigRef fresh dynasty));
           let mw := match r with Ok (mw', _) => mw' | _ => mw end in
           mret (with_sets mw (Some dynasty) (validatorSetCache mw))
         else mret mw);
      db ← collectInterChainMessageEventsOnChain mw db MainchainClient;
      db ← collectInterChainMessageEventsOnChain mw db SubchainClient;
      mw ← updateSubchainBlockHeight mw;
      mret (mw, db)
  end.

End Witness.
