(* ===== verification/WitnessSpec.v ===== *)
(** * WitnessSpec: what the witness scans and keeps

    The range of blocks of a query, the events extracted from logs, and that no
    event of a scanned block is missed while queries are answered. *)

From Stdlib Require Import Ascii.
From stdpp Require Import gmap sorting.
From stdpp Require Import base list numbers strings.
From S2P Require Import Prelude Vote Validator Text Abi AbiSpec Bind TokenBanks InterChain EventCache InterChainSpec.
From S2P Require Import CacheSpec EventLog Witness.
Open Scope string_scope.
Open Scope list_scope.
Open Scope Z_scope.

(** ** Ranges *)

Definition head_of (mw : MetachainWitness) (c : Client) : option Z :=
  match c with MainchainClient => mainchainBlockHeight mw | SubchainClient => subchainBlockHeight mw end.

Lemma calculateToBlock_eq mw from c :
  calculateToBlock mw from c =
    match head_of mw c with
    | Some head => if maxBlockRange <? head - from then from + maxBlockRange else head - minBlockGap
    | None => from
    end.
Proof.
  unfold calculateToBlock, GetMainchainBlockHeight, GetSubchainBlockHeight, head_of.
  destruct c; [destruct (mainchainBlockHeight mw)|destruct (subchainBlockHeight mw)]; done.
Qed.

Lemma iterate_catches_up mw c head k from :
  head_of mw c = Some head -> head - from <= maxBlockRange * (Z.of_nat k + 1) ->
  Nat.iter (S k) (fun b => calculateToBlock mw b c) from = head - minBlockGap.
Proof.
  intros Hh. unfold maxBlockRange, minBlockGap. revert from; induction k as [|k IH]; intros from Hk.
  - simpl. rewrite calculateToBlock_eq, Hh. unfold maxBlockRange, minBlockGap. destruct (Z.ltb_spec 300 (head - from)); lia.
  - rewrite Nat.iter_succ_r, calculateToBlock_eq, Hh. unfold maxBlockRange, minBlockGap.
    destruct (Z.ltb_spec 300 (head - from)); apply IH; lia.
Qed.

(** (bounds): the witness queries at most 301 blocks at a time and never the
    head of the chain it knows; it stays two blocks behind the head except while
    catching up, where the last block queried may be the one before the head.
    Repeated queries reach the block two below the head after one query for
    every 300 blocks; while no head is known the scan does not move. *)
Theorem scan_range (mw : MetachainWitness) (from : Z) (c : Client) :
  match head_of mw c with
  | None => calculateToBlock mw from c = from
  | Some head =>
      let to := calculateToBlock mw from c in
      to - from <= maxBlockRange /\ to < head /\
      (to <= head - minBlockGap \/ (to = head - 1 /\ head - from = maxBlockRange + 1)) /\
      (from <= head - minBlockGap -> from <= to) /\
      (forall k, head - from <= maxBlockRange * (Z.of_nat k + 1) ->
         Nat.iter (S k) (fun b => calculateToBlock mw b c) from = head - minBlockGap)
  end.
Proof.
  destruct (head_of mw c) as [head|] eqn:Hh; [|by rewrite calculateToBlock_eq, Hh].
  intros to. subst to. rewrite calculateToBlock_eq, Hh.
  assert (Hk : forall k, head - from <= maxBlockRange * (Z.of_nat k + 1) ->
         Nat.iter (S k) (fun b => calculateToBlock mw b c) from = head - minBlockGap).
  { intros k. by apply iterate_catches_up. }
  unfold maxBlockRange, minBlockGap in *. destruct (Z.ltb_spec 300 (head - from)); repeat split; try lia; exact Hk.
Qed.

(** ** Extraction *)

Lemma hex_value_range c x : hex_value c = Some x -> 0 <= x < 16.
Proof.
  unfold hex_value. repeat case_match; try done; rewrite ?andb_true_iff, ?Z.leb_le in *; intros [= <-]; lia.
Qed.

Lemma hex_decode_bytes s : bytes_ok (hex_decode s).
Proof.
  enough (Hn : forall n s, (String.length s <= n)%nat -> bytes_ok (hex_decode s)) by (by eapply Hn).
  clear s. intros n; induction n as [|n IH]; intros [|a [|b s]]; simpl; try lia; try constructor. intros Hl.
  destruct (hex_value a) as [x|] eqn:Ha, (hex_value b) as [y|] eqn:Hb; try constructor.
  - apply hex_value_range in Ha, Hb. lia.
  - apply IH. lia.
Qed.

Lemma read_log_ok ev log data vals h :
  read_log ev log = Ok (data, vals, h) -> bytes_ok data /\ vals = unpack_event ev data.
Proof.
  unfold read_log. intros (text & _ & (number & _ & [= <- <- <-])%obind_ok)%obind_ok.
  split; [apply hex_decode_bytes|done].
Qed.

Lemma event_ok_intro t source target sender receiver data nonce height :
  0 <= t < two64 -> is_address sender = true -> is_address receiver = true ->
  event_ok (mkICME t source target sender receiver data nonce height) = true.
Proof.
  intros Ht Hs Hr. unfold event_ok. simpl. rewrite Hs, Hr, (proj2 (Z.leb_le _ _)), (proj2 (Z.ltb_lt _ _)) by lia. done.
Qed.

(** An extracted event is of the extractor's type and well formed. *)
Lemma extractors_ok :
  Forall (fun p => forall q log e, p.2 q log = Ok e -> IType e = p.1 /\ event_ok e = true) extractors.
Proof.
  unfold extractors. repeat first [apply List.Forall_nil|apply List.Forall_cons]; intros q log e; cbn [fst snd];
    match goal with |- ?f _ _ = _ -> _ => unfold f end;
    intros ([[data vals] h] & [Hd ->]%read_log_ok & ->%ok_eq)%obind_ok; (split; [reflexivity|]);
    (apply event_ok_intro; [by vm_compute|first [reflexivity|by apply addr_at_ok]..]).
Qed.

Section Scan.
Context {W : Type} `{!Remote W} {D : Type} `{!Database D}.

Lemma extract_log_ok q log e : extract_log q log = Ok (Some e) -> event_ok e = true.
Proof.
  unfold extract_log. destruct (Topics log) as [|topic ts]; [done|].
  destruct (List.find _ _) as [[t f]|] eqn:Hf; [|done]. intros (e' & He & [= <-])%fmap_ok.
  apply List.find_some in Hf as [Hin%list_elem_of_In _]. pose proof extractors_ok as Ho. rewrite Forall_forall in Ho.
  by apply (Ho _ Hin q log).
Qed.

Lemma extract_logs_spec q logs events :
  extract_logs q logs = Ok events ->
  forall e, e ∈ events <-> exists log, log ∈ logs /\ extract_log q log = Ok (Some e).
Proof.
  revert events; induction logs as [|log logs IH]; intros events; cbn [extract_logs].
  - intros [= <-] e. split; [by intros ?%not_elem_of_nil|]. by intros (log & ?%not_elem_of_nil & _).
  - intros (o & Ho & (es & Hes & [= <-])%obind_ok)%obind_ok e. specialize (IH es Hes e). split.
    + intros He. destruct o as [e'|]; [apply elem_of_cons in He as [->|He]|].
      * exists log. split; [by left|done].
      * apply IH in He as (l & Hl & Hx). exists l. split; [by right|done].
      * apply IH in He as (l & Hl & Hx). exists l. split; [by right|done].
    + intros (l & [->|Hl]%elem_of_cons & Hx).
      * rewrite Ho in Hx. injection Hx as ->. by left.
      * assert (He : e ∈ es) by (apply IH; by exists l). destruct o; [by right|done].
Qed.

Lemma extract_logs_events q logs events : extract_logs q logs = Ok events -> forallb event_ok events = true.
Proof.
  intros He. apply forallb_Forall, Forall_forall. intros e (log & _ & Hx)%(extract_logs_spec _ _ _ He).
  by eapply extract_log_ok.
Qed.

(** ** A scan of one chain *)

Definition topics : list string := List.map (fun p => EventSelectors p.1) extractors.

(** The query of a chain whose scanned height is known. *)
Definition query (mw : MetachainWitness) (c : Client) (from : Z) : IO W (list LogData) :=
  GetLogs c from (calculateToBlock mw from c) (bank_addresses (banks_of mw c)) topics.

(** The database after events were put and the height moved; [None] when the
    events could not be put. *)
Definition kept_events (mw : MetachainWitness) (db : D) (c : Client) (from : Z)
    (events : list InterChainMessageEvent) : option D :=
  match InsertList db events with
  | (db', Ok _) => Some (setLastQueryedHeightForType db' (chain_of mw c) (calculateToBlock mw from c)).1
  | _ => None
  end.

Lemma collect_known mw db c from w :
  getLastQueryedHeightForType db (chain_of mw c) = (from, Ok tt) ->
  collectInterChainMessageEventsOnChain mw db c w =
    match query mw c from w with
    | (Panic e, w') => (Panic e, w')
    | (r, w') =>
        (events ← match r with Ok logs => extract_logs (chain_of mw c) logs | _ => Ok [] end;
         match kept_events mw db c from events with
         | Some db' => Ok db'
         | None => Panic "failed to insert events into cache"
         end, w')
    end.
Proof.
  intros Hl. unfold collectInterChainMessageEventsOnChain, QueryInterChainEventLog, query, topics, kept_events.
  rewrite Hl. cbv [mbind IO_bind mret IO_ret attempt lift outcome_bind].
  destruct (GetLogs _ _ _ _ _ w) as [[logs|e|e] w'].
  - destruct (extract_logs _ logs) as [events|e|e]; [|done|done].
    destruct (InsertList db events) as [db' [[]| |]]; done.
  - reflexivity.
  - reflexivity.
Qed.

Lemma set_height_cases (db : D) c h :
  (exists db', setLastQueryedHeightForType db c h = (db', Ok tt)) \/ (setLastQueryedHeightForType db c h).1 = db.
Proof.
  unfold setLastQueryedHeightForType, put_item. destruct (rlp_big _); [|by right..].
  destruct (db_Put _ _ _); [left; eauto|by right..].
Qed.

Lemma set_height_Get (db : D) c h s t n : Get (setLastQueryedHeightForType db c h).1 s t n = Get db s t n.
Proof.
  destruct (set_height_cases db c h) as [[db' Hs]| ->]; [|done]. rewrite Hs. cbn [fst].
  apply put_item_ok in Hs as (i & _ & Hput). unfold Get.
  rewrite (db_Get_Put _ _ _ _ _ Hput), decide_False; [done|]. by intros ?%eq_sym%event_height_keys.
Qed.

Lemma set_height_total (db : D) c h :
  writable -> 0 <= h -> exists db', setLastQueryedHeightForType db c h = (db', Ok tt).
Proof.
  intros Hw Hh. unfold setLastQueryedHeightForType, put_item. simpl. rewrite (proj2 (Z.ltb_ge h 0)) by lia.
  destruct (Hw db (lastWitnessQueryedHeightKey c) (RStr (min_bytes h))) as [db' ->]. eauto.
Qed.

Lemma InsertList_encodable events (db db' : D) :
  InsertList db events = (db', Ok tt) -> forallb encodable events = true.
Proof.
  revert db; induction events as [|e events IH]; intros db; cbn [InsertList forallb]; [done|].
  destruct (Insert db e) as [db1 [[]| |]] eqn:Hi; [|done|done]. intros ->%IH.
  apply put_item_ok in Hi as (i & Hi & _). by rewrite (proj2 (encodable_spec e)) by eauto.
Qed.

(** ** No event is missed *)

Section Coverage.
Variables (c : Client) (chain : Z) (banks : list Address) (logs_at : Z -> list LogData) (start : Z).

(** The logs of a range of blocks, both ends included. *)
Definition logs_in (from to : Z) : list LogData := concat (List.map logs_at (seqZ from (to - from + 1))).

Definition logged (e : InterChainMessageEvent) : Prop :=
  exists h log, log ∈ logs_at h /\ extract_log chain log = Ok (Some e).

(** Databases that scanning the chain from height [start] leads to, while every
    query is answered with the logs of the range: the scan starts, a query is
    made, or something else writes the database, which does not touch the scanned
    height of the chain nor events whose keys are not in [gone]. *)
Inductive scanned : D -> gset (Z * Z * Z) -> Prop :=
| scan_start db : getLastQueryedHeightForType db chain = (start, Ok tt) -> scanned db ∅
| scan_query mw db gone from w db' w' :
    scanned db gone -> chain_of mw c = chain -> bank_addresses (banks_of mw c) = banks ->
    getLastQueryedHeightForType db chain = (from, Ok tt) ->
    query mw c from w = (Ok (logs_in from (calculateToBlock mw from c)), w') ->
    collectInterChainMessageEventsOnChain mw db c w = (Ok db', w') ->
    scanned db' gone
| scan_other db gone db' gone' :
    scanned db gone -> getLastQueryedHeightForType db' chain = getLastQueryedHeightForType db chain ->
    gone ⊆ gone' -> (forall s t n, (s, t, n) ∉ gone' -> Get db' s t n = Get db s t n) ->
    scanned db' gone'.

(** Under the key there is an event of the chain with that key. *)
Definition found (db : D) (s t n : Z) : Prop :=
  exists e', logged e' /\ cache_key e' = Some (s, t, n) /\ Get db s t n = (kept e', Ok tt).

Lemma elem_of_logs_in log from to : log ∈ logs_in from to <-> exists h, from <= h <= to /\ log ∈ logs_at h.
Proof.
  unfold logs_in. rewrite list_elem_of_In, in_concat. split.
  - intros (l & (h & <- & Hh)%in_map_iff & Hl). exists h.
    apply list_elem_of_In, elem_of_seqZ in Hh. split; [lia|]. by apply list_elem_of_In.
  - intros (h & Hh & Hl). exists (logs_at h). split; [|by apply list_elem_of_In].
    apply in_map_iff. exists h. split; [done|]. apply list_elem_of_In, elem_of_seqZ. lia.
Qed.

(** One query: events found stay found, and the events of its range are found. *)
Lemma query_finds mw db from w db' w' s t n :
  chain_of mw c = chain -> getLastQueryedHeightForType db chain = (from, Ok tt) ->
  query mw c from w = (Ok (logs_in from (calculateToBlock mw from c)), w') ->
  collectInterChainMessageEventsOnChain mw db c w = (Ok db', w') ->
  (getLastQueryedHeightForType db' chain = (from, Ok tt) \/
   getLastQueryedHeightForType db' chain = (calculateToBlock mw from c, Ok tt)) /\
  (found db s t n -> found db' s t n) /\
  (forall h log e, from <= h <= calculateToBlock mw from c -> log ∈ logs_at h ->
     extract_log chain log = Ok (Some e) -> cache_key e = Some (s, t, n) -> found db' s t n).
Proof.
  intros Hc Hl Hq. rewrite (collect_known mw db c from w) by (by rewrite Hc). rewrite Hq, Hc.
  set (to := calculateToBlock mw from c). set (logs := logs_in from to). intros [= Hb].
  apply obind_ok in Hb as (events & He & Hk). unfold kept_events in Hk.
  destruct (InsertList db events) as [db1 [[]| |]] eqn:Hi; [|done|done]. injection Hk as <-. fold to. rewrite Hc.
  assert (Hok := extract_logs_events _ _ _ He). assert (Hspec := extract_logs_spec _ _ _ He).
  assert (Hlog : forall e, e ∈ events -> logged e).
  { intros e (log & (h & _ & Hh)%elem_of_logs_in & Hx)%Hspec. by exists h, log. }
  split; [|split].
  - rewrite <- (height_insert _ _ _ chain Hi) in Hl.
    destruct (set_height_cases db1 chain to) as [[db2 Hs]| ->]; [right|by left].
    rewrite Hs. cbn [fst]. rewrite (height_stored _ _ _ _ chain Hs). by rewrite decide_True.
  - intros (e' & He' & Hk' & Hg). destruct (InsertList_Get events db db1 s t n Hok Hi) as [(e2 & Hin & Hk2 & Hg2)|[_ Hg2]].
    + exists e2. rewrite set_height_Get. eauto.
    + exists e'. rewrite set_height_Get, Hg2. eauto.
  - intros h log e Hh Hlog' Hx Hke. destruct (InsertList_Get events db db1 s t n Hok Hi) as [(e2 & Hin & Hk2 & Hg2)|[Hno _]].
    + exists e2. rewrite set_height_Get. eauto.
    + exfalso. apply (Hno e); [|done]. apply Hspec. exists log. split; [|done]. apply elem_of_logs_in. by exists h.
Qed.

(** C23 (invariant): while queries are answered, no event is missed: at every
    scanned height from the start of the scan, every event logged there is in the
    event cache under its key, unless another event of the chain with the same
    source chain, type and nonce took its place or the key was deleted. *)
Theorem scan_complete (db : D) (gone : gset (Z * Z * Z)) (last : Z) :
  scanned db gone -> getLastQueryedHeightForType db chain = (last, Ok tt) ->
  forall h log e s t n,
    start <= h < last -> log ∈ logs_at h -> extract_log chain log = Ok (Some e) ->
    cache_key e = Some (s, t, n) -> (s, t, n) ∉ gone ->
    exists e', logged e' /\ cache_key e' = Some (s, t, n) /\ Get db s t n = (kept e', Ok tt).
Proof.
  intros Hs. revert last. induction Hs as [db Hst|mw db gone from w db' w' Hs IH Hc Hb Hl Hq Hcol|db gone db' gone' Hs IH Hh Hsub Hget];
    intros last Hlast h log e s t n Hrange Hlog Hx Hk Hgone.
  - rewrite Hst in Hlast. injection Hlast as <-. lia.
  - destruct (query_finds mw db from w db' w' s t n Hc Hl Hq Hcol) as (Hlast' & Hkeep & Hnew).
    destruct (decide (h < from)).
    + apply Hkeep. apply (IH from Hl h log e); [lia|done..].
    + apply (Hnew h log e); [|done..]. destruct Hlast' as [Hl'|Hl']; rewrite Hl' in Hlast; injection Hlast as <-; lia.
  - rewrite Hh in Hlast. rewrite Hget by done. apply (IH last Hlast h log e); try done. by intros ?%Hsub.
Qed.

End Coverage.

(** (error): a step of the scan whose height is known, on a database that
    takes every write.  When the query is answered with logs whose events can be
    encoded, the step returns, has moved the height to the end of the range and
    put the events in order.  When the query fails, the step returns too and moves
    the height past the range without any event of it.  An event with a negative
    chain identifier or nonce stops the witness with a panic. *)
Theorem scan_step (mw : MetachainWitness) (db : D) (c : Client) (from : Z) (w w' : W) :
  writable (D := D) -> getLastQueryedHeightForType db (chain_of mw c) = (from, Ok tt) ->
  let to := calculateToBlock mw from c in
  0 <= to ->
  (forall logs events m, query mw c from w = (Ok logs, w') -> extract_logs (chain_of mw c) logs = Ok events ->
     represents db m ->
     if forallb encodable events
     then exists db', collectInterChainMessageEventsOnChain mw db c w = (Ok db', w') /\
            getLastQueryedHeightForType db' (chain_of mw c) = (to, Ok tt) /\
            represents db' (foldl cache_insert m events)
     else exists e, collectInterChainMessageEventsOnChain mw db c w = (Panic e, w')) /\
  (forall e m, query mw c from w = (Err e, w') -> represents db m ->
     exists db', collectInterChainMessageEventsOnChain mw db c w = (Ok db', w') /\
       getLastQueryedHeightForType db' (chain_of mw c) = (to, Ok tt) /\ represents db' m).
Proof.
  intros Hw Hl to Hto. rewrite (collect_known mw db c from w Hl). split.
  - intros logs events m Hq He Hm. rewrite Hq, He. cbn [mbind outcome_bind]. unfold kept_events. fold to.
    assert (Hok := extract_logs_events _ _ _ He). destruct (forallb encodable events) eqn:Henc.
    + destruct (InsertList_total events db Hw Henc) as [db1 Hi]. rewrite Hi.
      destruct (set_height_total db1 (chain_of mw c) to Hw Hto) as [db2 Hs]. exists db2. rewrite Hs.
      split; [done|]. rewrite (height_stored _ _ _ _ _ Hs), decide_True by done. split; [done|].
      eapply height_represents; [|exact Hs]. by eapply InsertList_represents.
    + destruct (InsertList db events) as [db1 [[]| |]] eqn:Hi; [|eauto..].
      apply InsertList_encodable in Hi. congruence.
  - intros e m Hq Hm. rewrite Hq. cbn [mbind outcome_bind]. unfold kept_events. cbn [InsertList]. fold to.
    destruct (set_height_total db (chain_of mw c) to Hw Hto) as [db2 Hs]. exists db2. rewrite Hs.
    split; [done|]. rewrite (height_stored _ _ _ _ _ Hs), decide_True by done. split; [done|].
    by eapply height_represents.
Qed.

End Scan.

(** ** Two chains to scan

    A world with one lock of TNT20 tokens, at height 90 of the main chain. *)

Record Demo := mkDemo { demo_sent : list (Client * Transaction); demo_now : Z }.

Definition demo_data : list Z :=
  match Pack (event_args TNT20TokenLocked_info) sample_lock with Ok data => data | _ => [] end.

Definition demo_log : LogData :=
  mkLogData "0x0" "0x0" "0x1" "0x2" "0x5a" "0x15" ("0x" ++ hex_encode demo_data)%string
    [("0x" ++ hex_encode (string_bytes "TNT20TokenLocked(string,address,uint256,address,uint256,string,string,uint8,uint256)"))%string]
    "".

Definition demo_logs_at (h : Z) : list LogData := if h =? 90 then [demo_log] else [].

(** Calls answer zero; the main chain is at height 100; logs of the subchain
    cannot be queried.  The digest is the identity. *)
#[local] Instance demo_backend : Backend Demo := {|
  CallContract _ _ _ := mret (U256Bytes 0);
  CodeAt _ _ _ := mret [1];
  PendingCallContract _ _ := mret (U256Bytes 0);
  PendingCodeAt _ _ := mret [1];
  PendingNonceAt _ _ := mret 7;
  SuggestGasPrice _ := mret 4000;
  SuggestGasTipCap _ := mret 1;
  HeadBaseFee _ := mret None;
  EstimateGas _ _ := mret 21000;
  SendTransaction c tx w := (Ok tt, mkDemo (demo_sent w ++ [(c, tx)]) (demo_now w));
  Keccak256 l := l
|}.

#[local] Instance demo_remote : Remote Demo := {|
  BlockNumber c := mret (match c with MainchainClient => 100 | SubchainClient => 40 end);
  GetLogs c from to _ _ :=
    match c with MainchainClient => mret (logs_in demo_logs_at from to) | SubchainClient => lift (Err "timeout") end;
  Now w := (Ok (demo_now w), w);
  LedgerDynasty := mret (Some 5)
|}.

Definition demo_banks (c : Client) (a : Address) : TokenBankSet :=
  mkTokenBankSet (mkBoundContract a TFuelTokenBankABI c) (mkBoundContract (a + 1) TNT20TokenBankABI c)
    (mkBoundContract (a + 2) TNT721TokenBankABI c) (mkBoundContract (a + 3) TNT1155TokenBankABI c).

Definition demo_witness : MetachainWitness :=
  mkMetachainWitness 366 360777 (demo_banks MainchainClient 20) (demo_banks SubchainClient 40)
    (mkBoundContract 60 ChainRegistrarOnMainchainABI MainchainClient) (Some 100) (Some 40) None ∅.

(** The scan of the main chain starts at height 80. *)
Definition demo_db : gmap string RlpItem := (setLastQueryedHeightForType ∅ 366 80).1.
Definition demo_world : Demo := mkDemo [] 1000.

Definition demo_scanned : gmap string RlpItem :=
  match (collectInterChainMessageEventsOnChain demo_witness demo_db MainchainClient demo_world).1 with
  | Ok db => db
  | _ => ∅
  end.

Lemma demo_scan :
  scanned MainchainClient 366 (bank_addresses (demo_banks MainchainClient 20)) demo_logs_at 80 demo_scanned ∅.
Proof.
  eapply (scan_query _ _ _ _ _ demo_witness demo_db ∅ 80 demo_world demo_scanned demo_world); [apply scan_start|..];
    (vm_compute; reflexivity).
Qed.

Lemma scan_complete_witness :
  getLastQueryedHeightForType demo_scanned 366 = (98, Ok tt) /\
  exists e', logged 366 demo_logs_at e' /\
    cache_key e' = Some (366, IMCEventTypeCrossChainTokenLockTNT20, 1) /\
    Get demo_scanned 366 IMCEventTypeCrossChainTokenLockTNT20 1 = (kept e', Ok tt).
Proof.
  assert (Hl : getLastQueryedHeightForType demo_scanned 366 = (98, Ok tt)) by (vm_compute; reflexivity).
  split; [exact Hl|].
  eapply (scan_complete MainchainClient 366 _ demo_logs_at 80 demo_scanned ∅ 98 demo_scan Hl 90 demo_log).
  - lia.
  - left.
  - vm_compute. reflexivity.
  - reflexivity.
  - apply not_elem_of_empty.
Defined.

(** The failed query of the subchain moves the scanned height. *)
Lemma scan_step_witness :
  let db := (setLastQueryedHeightForType (∅ : gmap string RlpItem) 360777 30).1 in
  exists db', collectInterChainMessageEventsOnChain demo_witness db SubchainClient demo_world = (Ok db', demo_world) /\
    getLastQueryedHeightForType db' 360777 = (38, Ok tt) /\ represents db' ∅.
Proof.
  intros db.
  assert (Hw : writable (D := gmap string RlpItem)) by (intros d k v; eexists; reflexivity).
  assert (Hl : getLastQueryedHeightForType db 360777 = (30, Ok tt)) by (vm_compute; reflexivity).
  destruct (scan_step demo_witness db SubchainClient 30 demo_world demo_world Hw Hl) as [_ Herr].
  - vm_compute. discriminate.
  - apply (Herr "timeout" ∅); [reflexivity|]. apply (height_represents ∅ db ∅ 360777 30); [intros s t n; reflexivity|reflexivity].
Defined.

