(* ===== verification/Orchestrator.v ===== *)
(** * Orchestrator: relaying events between the chains
    (src/interchain/orchestrator/orchestrator.go)

    On every tick the orchestrator asks each chain, for every kind of token, which
    lock or burn event of the other chain it processed last, takes the next one
    from the event cache and calls the token bank of the target chain: vouchers are
    minted for locked tokens, tokens unlocked for burned vouchers.  An event whose
    transaction was sent is not sent again before a retry threshold. *)

From Stdlib Require Import Ascii.
From stdpp Require Import gmap sorting.
From stdpp Require Import base list numbers strings.
From S2P Require Import Prelude Vote Validator Text Abi AbiSpec Bind TokenBanks InterChain EventCache EventLog Witness.
Open Scope string_scope.
Open Scope list_scope.
Open Scope Z_scope.

Definition ErrDynastyIsNil : string := "nil dynasty".
Definition ErrTargetChainMismatch : string := "target chain mismatch".

(** ** State *)

Record Orchestrator := mkOrchestrator {
  oc_mainchainID : Z;
  oc_subchainID : Z;
  oc_mainchainBanks : TokenBankSet;
  oc_subchainBanks : TokenBankSet;
  keyAddress : Address;
  mainchainBlockInterval : Z;
  minBlockInterval : Z;
  eventProcessedTime : gmap string Z
}.

Definition with_processed (oc : Orchestrator) (m : gmap string Z) : Orchestrator :=
  mkOrchestrator (oc_mainchainID oc) (oc_subchainID oc) (oc_mainchainBanks oc) (oc_subchainBanks oc)
    (keyAddress oc) (mainchainBlockInterval oc) (minBlockInterval oc) m.

(** [getEthRpcClient] *)
Definition getEthRpcClient (oc : Orchestrator) (chainID : Z) : Client :=
  if chainID =? oc_mainchainID oc then MainchainClient else SubchainClient.

(** [getTFuelTokenBank], [getTNT20TokenBank], [getTNT721TokenBank], [getTNT1155TokenBank] *)
Definition getTFuelTokenBank (oc : Orchestrator) (chainID : Z) : BoundContract :=
  if chainID =? oc_mainchainID oc then TFuelTokenBank (oc_mainchainBanks oc) else TFuelTokenBank (oc_subchainBanks oc).
Definition getTNT20TokenBank (oc : Orchestrator) (chainID : Z) : BoundContract :=
  if chainID =? oc_mainchainID oc then TNT20TokenBank (oc_mainchainBanks oc) else TNT20TokenBank (oc_subchainBanks oc).
Definition getTNT721TokenBank (oc : Orchestrator) (chainID : Z) : BoundContract :=
  if chainID =? oc_mainchainID oc then TNT721TokenBank (oc_mainchainBanks oc) else TNT721TokenBank (oc_subchainBanks oc).
Definition getTNT1155TokenBank (oc : Orchestrator) (chainID : Z) : BoundContract :=
  if chainID =? oc_mainchainID oc then TNT1155TokenBank (oc_mainchainBanks oc) else TNT1155TokenBank (oc_subchainBanks oc).

(** [getRetryThreshold], in nanoseconds *)
Definition getRetryThreshold (oc : Orchestrator) (chainID : Z) : Z :=
  let blockIntervalInSeconds := if chainID =? oc_mainchainID oc then mainchainBlockInterval oc else minBlockInterval oc in
  4 * blockIntervalInSeconds * 1000000000.

(** [getTargetChainCorrespondingEventType] *)
Definition getTargetChainCorrespondingEventType (eventType : Z) : outcome Z :=
  if eventType =? IMCEventTypeCrossChainTokenLockTFuel then Ok IMCEventTypeCrossChainVoucherMintTFuel else
  if eventType =? IMCEventTypeCrossChainTokenLockTNT20 then Ok IMCEventTypeCrossChainVoucherMintTNT20 else
  if eventType =? IMCEventTypeCrossChainTokenLockTNT721 then Ok IMCEventTypeCrossChainVoucherMintTNT721 else
  if eventType =? IMCEventTypeCrossChainTokenLockTNT1155 then Ok IMCEventTypeCrossChainVoucherMintTNT1155 else
  if eventType =? IMCEventTypeCrossChainVoucherBurnTFuel then Ok IMCEventTypeCrossChainTokenUnlockTFuel else
  if eventType =? IMCEventTypeCrossChainVoucherBurnTNT20 then Ok IMCEventTypeCrossChainTokenUnlockTNT20 else
  if eventType =? IMCEventTypeCrossChainVoucherBurnTNT721 then Ok IMCEventTypeCrossChainTokenUnlockTNT721 else
  if eventType =? IMCEventTypeCrossChainVoucherBurnTNT1155 then Ok IMCEventTypeCrossChainTokenUnlockTNT1155 else
  Panic "Cannot get the counter event for type".

(** The largest duration, which [time.Since] of the zero time returns. *)
Definition maxDuration : Z := 9223372036854775807.

Section Orchestrator.
Context {W : Type} `{!Remote W} {D : Type} `{!Database D} `{!Unicode} `{!AddressText}.
(** The signature of a transaction for a chain by the key of the node. *)
Context (sign : Z -> TxData -> outcome Transaction).
Implicit Types (oc : Orchestrator) (db : D).

(** [timeElapsedSinceEventProcessed] *)
Definition timeElapsedSinceEventProcessed oc (event : InterChainMessageEvent) : IO W Z :=
  match eventProcessedTime oc !! ID Keccak256 event with
  | Some processedTime => now ← Now; mret (now - processedTime)
  | None => mret maxDuration
  end.

(** [updateEventProcessedTime] *)
Definition updateEventProcessedTime oc (event : InterChainMessageEvent) : IO W Orchestrator :=
  now ← Now; mret (with_processed oc (<[ID Keccak256 event := now]> (eventProcessedTime oc))).

(** [bind.NewKeyedTransactorWithChainID] (src/eth/abi/bind/auth.go) *)
Definition NewKeyedTransactorWithChainID oc (chainID : Z) : TransactOpts :=
  mkTransactOpts (keyAddress oc) None
    (Some (fun address tx => if negb (address =? keyAddress oc) then Err "not authorized to sign this account"
                             else sign chainID tx))
    None None None None 0 false.

(** [buildTxOpts] *)
Definition buildTxOpts oc (chainID : Z) (ecClient : Client) : IO W TransactOpts :=
  gasPrice ← (if chainID =? oc_mainchainID oc then SuggestGasPrice ecClient else mret 0);
  nonce ← PendingNonceAt ecClient (keyAddress oc);
  let txOpts := NewKeyedTransactorWithChainID oc chainID in
  mret (mkTransactOpts (OptFrom txOpts) (Some (to_int64 nonce)) (Signer txOpts) (Some 0) (Some gasPrice)
          (OptGasFeeCap txOpts) (OptGasTipCap txOpts) 10000000 (NoSend txOpts)).

(** ** Calls of the target chain *)

Definition mintTFuelVouchers oc (txOpts : TransactOpts) (targetChainID : Z) (sourceEvent : InterChainMessageEvent)
    : IO W Transaction :=
  se ← lift (ParseToCrossChainTFuelTokenLockedEvent sourceEvent);
  c ← lift (big_cmp (Some targetChainID) (TFuelTokenLocked.TargetChainID se));
  if negb (bool_decide (c = Eq)) then lift (Err ErrTargetChainMismatch)
  else
    dynasty ← LedgerDynasty;
    match dynasty with
    | None => lift (Err ErrDynastyIsNil)
    | Some dynasty =>
        TFuelTokenBank_MintVouchers (getTFuelTokenBank oc targetChainID) txOpts
          (TFuelTokenLocked.Denom se) (TFuelTokenLocked.TargetChainVoucherReceiver se) (TFuelTokenLocked.LockedAmount se) (Some dynasty) (TFuelTokenLocked.TokenLockNonce se)
    end.

Definition mintTNT20Vouchers oc (txOpts : TransactOpts) (targetChainID : Z) (sourceEvent : InterChainMessageEvent)
    : IO W Transaction :=
  se ← lift (ParseToCrossChainTNT20TokenLockedEvent sourceEvent);
  c ← lift (big_cmp (Some targetChainID) (TNT20TokenLocked.TargetChainID se));
  if negb (bool_decide (c = Eq)) then lift (Err ErrTargetChainMismatch)
  else
    dynasty ← LedgerDynasty;
    match dynasty with
    | None => lift (Err ErrDynastyIsNil)
    | Some dynasty =>
        TNT20TokenBank_MintVouchers (getTNT20TokenBank oc targetChainID) txOpts
          (TNT20TokenLocked.Denom se) (TNT20TokenLocked.Name se) (TNT20TokenLocked.Symbol se) (TNT20TokenLocked.Decimals se) (TNT20TokenLocked.TargetChainVoucherReceiver se) (TNT20TokenLocked.LockedAmount se) (Some dynasty) (TNT20TokenLocked.TokenLockNonce se)
    end.

Definition mintTN721Vouchers oc (txOpts : TransactOpts) (targetChainID : Z) (sourceEvent : InterChainMessageEvent)
    : IO W Transaction :=
  se ← lift (ParseToCrossChainTNT721TokenLockedEvent sourceEvent);
  c ← lift (big_cmp (Some targetChainID) (TNT721TokenLocked.TargetChainID se));
  if negb (bool_decide (c = Eq)) then lift (Err ErrTargetChainMismatch)
  else
    dynasty ← LedgerDynasty;
    match dynasty with
    | None => lift (Err ErrDynastyIsNil)
    | Some dynasty =>
        TNT721TokenBank_MintVouchers (getTNT721TokenBank oc targetChainID) txOpts
          (TNT721TokenLocked.Denom se) (TNT721TokenLocked.Name se) (TNT721TokenLocked.Symbol se) (TNT721TokenLocked.TargetChainVoucherReceiver se) (TNT721TokenLocked.TokenID se) (TNT721TokenLocked.TokenURI se) (Some dynasty) (TNT721TokenLocked.TokenLockNonce se)
    end.

Definition mintTN1155Vouchers oc (txOpts : TransactOpts) (targetChainID : Z) (sourceEvent : InterChainMessageEvent)
    : IO W Transaction :=
  se ← lift (ParseToCrossChainTNT1155TokenLockedEvent sourceEvent);
  c ← lift (big_cmp (Some targetChainID) (TNT1155TokenLocked.TargetChainID se));
  if negb (bool_decide (c = Eq)) then lift (Err ErrTargetChainMismatch)
  else
    dynasty ← LedgerDynasty;
    match dynasty with
    | None => lift (Err ErrDynastyIsNil)
    | Some dynasty =>
        TNT1155TokenBank_MintVouchers (getTNT1155TokenBank oc targetChainID) txOpts
          (TNT1155TokenLocked.Denom se) (TNT1155TokenLocked.TargetChainVoucherReceiver se) (TNT1155TokenLocked.TokenID se) (TNT1155TokenLocked.LockedAmount se) (TNT1155TokenLocked.TokenURI se) (Some dynasty) (TNT1155TokenLocked.TokenLockNonce se)
    end.

Definition unlockTFuelTokens oc (txOpts : TransactOpts) (targetChainID : Z) (sourceEvent : InterChainMessageEvent)
    : IO W Transaction :=
  se ← lift (ParseToCrossChainTFuelVoucherBurnedEvent sourceEvent);
  dynasty ← LedgerDynasty;
  match dynasty with
  | None => lift (Err ErrDynastyIsNil)
  | Some dynasty =>
      TFuelTokenBank_UnlockTokens (getTFuelTokenBank oc targetChainID) txOpts
        (SourceChainID sourceEvent) (TFuelVoucherBurned.TargetChainTokenReceiver se) (TFuelVoucherBurned.BurnedAmount se) (Some dynasty) (TFuelVoucherBurned.VoucherBurnNonce se)
  end.

Definition unlockTNT20Tokens oc (txOpts : TransactOpts) (targetChainID : Z) (sourceEvent : InterChainMessageEvent)
    : IO W Transaction :=
  se ← lift (ParseToCrossChainTNT20VoucherBurnedEvent sourceEvent);
  dynasty ← LedgerDynasty;
  match dynasty with
  | None => lift (Err ErrDynastyIsNil)
  | Some dynasty =>
      TNT20TokenBank_UnlockTokens (getTNT20TokenBank oc targetChainID) txOpts
        (SourceChainID sourceEvent) (TNT20VoucherBurned.Denom se) (TNT20VoucherBurned.TargetChainTokenReceiver se) (TNT20VoucherBurned.BurnedAmount se) (Some dynasty) (TNT20VoucherBurned.VoucherBurnNonce se)
  end.

Definition unlockTNT721Tokens oc (txOpts : TransactOpts) (targetChainID : Z) (sourceEvent : InterChainMessageEvent)
    : IO W Transaction :=
  se ← lift (ParseToCrossChainTNT721VoucherBurnedEvent sourceEvent);
  dynasty ← LedgerDynasty;
  match dynasty with
  | None => lift (Err ErrDynastyIsNil)
  | Some dynasty =>
      TNT721TokenBank_UnlockTokens (getTNT721TokenBank oc targetChainID) txOpts
        (SourceChainID sourceEvent) (TNT721VoucherBurned.Denom se) (TNT721VoucherBurned.TargetChainTokenReceiver se) (TNT721VoucherBurned.TokenID se) (Some dynasty) (TNT721VoucherBurned.VoucherBurnNonce se)
  end.

Definition unlockTNT1155Tokens oc (txOpts : TransactOpts) (targetChainID : Z) (sourceEvent : InterChainMessageEvent)
    : IO W Transaction :=
  se ← lift (ParseToCrossChainTNT1155VoucherBurnedEvent sourceEvent);
  dynasty ← LedgerDynasty;
  match dynasty with
  | None => lift (Err ErrDynastyIsNil)
  | Some dynasty =>
      TNT1155TokenBank_UnlockTokens (getTNT1155TokenBank oc targetChainID) txOpts
        (SourceChainID sourceEvent) (TNT1155VoucherBurned.Denom se) (TNT1155VoucherBurned.TargetChainTokenReceiver se) (TNT1155VoucherBurned.TokenID se) (TNT1155VoucherBurned.BurnedAmount se) (Some dynasty) (TNT1155VoucherBurned.VoucherBurnNonce se)
  end.

(** The switch of [callTargetContract]; [None] is its default case. *)
Definition target_call oc (txOpts : TransactOpts) (targetChainID targetEventType : Z)
    (sourceEvent : InterChainMessageEvent) : option (IO W Transaction) :=
  if targetEventType =? IMCEventTypeCrossChainVoucherMintTFuel then Some (mintTFuelVouchers oc txOpts targetChainID sourceEvent) else
  if targetEventType =? IMCEventTypeCrossChainVoucherMintTNT20 then Some (mintTNT20Vouchers oc txOpts targetChainID sourceEvent) else
  if targetEventType =? IMCEventTypeCrossChainVoucherMintTNT721 then Some (mintTN721Vouchers oc txOpts targetChainID sourceEvent) else
  if targetEventType =? IMCEventTypeCrossChainVoucherMintTNT1155 then Some (mintTN1155Vouchers oc txOpts targetChainID sourceEvent) else
  if targetEventType =? IMCEventTypeCrossChainTokenUnlockTFuel then Some (unlockTFuelTokens oc txOpts targetChainID sourceEvent) else
  if targetEventType =? IMCEventTypeCrossChainTokenUnlockTNT20 then Some (unlockTNT20Tokens oc txOpts targetChainID sourceEvent) else
  if targetEventType =? IMCEventTypeCrossChainTokenUnlockTNT721 then Some (unlockTNT721Tokens oc txOpts targetChainID sourceEvent) else
  if targetEventType =? IMCEventTypeCrossChainTokenUnlockTNT1155 then Some (unlockTNT1155Tokens oc txOpts targetChainID sourceEvent) else
  None.

(** The validator sets that are queried to be logged. *)
Definition log_validator_sets oc (dynasty : option Z) : IO W unit :=
  match dynasty with
  | Some dynasty =>
      _ ← attempt (TFuelTokenBank_GetAdjustedValidatorSet (TFuelTokenBank (oc_mainchainBanks oc)) (oc_subchainID oc) dynasty);
      _ ← attempt (TNT20TokenBank_GetAdjustedValidatorSet (TNT20TokenBank (oc_subchainBanks oc)) (oc_subchainID oc) dynasty);
      mret tt
  | None => mret tt
  end.

(** [callTargetContract] *)
Definition callTargetContract oc (targetChainID targetEventType : Z) (sourceEvent : InterChainMessageEvent)
    : IO W unit :=
  dynasty ← LedgerDynasty;
  _ ← log_validator_sets oc dynasty;
  txOpts ← buildTxOpts oc targetChainID (getEthRpcClient oc targetChainID);
  match target_call oc txOpts targetChainID targetEventType sourceEvent with
  | None => mret tt
  | Some call =>
      r ← attempt call;
      match r with
      | Ok _ => mret tt
      | Err e => if bool_decide (e = ErrTargetChainMismatch) then mret tt else lift (Err e)
      | Panic e => lift (Panic e)
      end
  end.

(** ** Processing events *)

(** [cleanUpInterChainEventCache] *)
Definition cleanUpInterChainEventCache db (sourceChainID eventType maxProcessedNonce : Z) : D :=
  match Exists db sourceChainID eventType maxProcessedNonce with
  | Ok true => (Delete db sourceChainID eventType maxProcessedNonce).1
  | _ => db
  end.

(** [err == ts.ErrKeyNotFound] *)
Definition is_not_found (err : outcome unit) : bool :=
  match err with Err e => bool_decide (e = ErrKeyNotFound) | _ => false end.

(** [processNextEvent] *)
Definition processNextEvent oc db (sourceChainID targetChainID sourceChainEventType maxProcessedNonce : Z)
    : IO W (Orchestrator * D) :=
  let db := cleanUpInterChainEventCache db sourceChainID sourceChainEventType maxProcessedNonce in
  let nextNonce := maxProcessedNonce + 1 in
  let '(sourceEvent, err) := Get db sourceChainID sourceChainEventType nextNonce in
  if is_not_found err then mret (oc, db)
  else
    targetEventType ← lift (getTargetChainCorrespondingEventType sourceChainEventType);
    elapsed ← timeElapsedSinceEventProcessed oc sourceEvent;
    if getRetryThreshold oc targetChainID <? elapsed then
      r ← attempt (callTargetContract oc targetChainID targetEventType sourceEvent);
      match r with
      | Ok _ => oc ← updateEventProcessedTime oc sourceEvent; mret (oc, db)
      | _ => mret (oc, db)
      end
    else mret (oc, db).

(** A request for the last nonce the target chain processed, then the event. *)
Definition process_next oc db (getNonce : IO W Z) (sourceChainID targetChainID eventType : Z)
    : IO W (Orchestrator * D) :=
  r ← attempt getNonce;
  match r with
  | Ok maxProcessedNonce => processNextEvent oc db sourceChainID targetChainID eventType maxProcessedNonce
  | _ => mret (oc, db)
  end.

Definition processNextTFuelTokenLockEvent oc db (sourceChainID targetChainID : Z) : IO W (Orchestrator * D) :=
  process_next oc db (TFuelTokenBank_GetMaxProcessedTokenLockNonce (getTFuelTokenBank oc targetChainID) sourceChainID)
    sourceChainID targetChainID IMCEventTypeCrossChainTokenLockTFuel.

Definition processNextTNT20TokenLockEvent oc db (sourceChainID targetChainID : Z) : IO W (Orchestrator * D) :=
  process_next oc db (TNT20TokenBank_GetMaxProcessedTokenLockNonce (getTNT20TokenBank oc targetChainID) sourceChainID)
    sourceChainID targetChainID IMCEventTypeCrossChainTokenLockTNT20.

Definition processNextTNT721TokenLockEvent oc db (sourceChainID targetChainID : Z) : IO W (Orchestrator * D) :=
  process_next oc db (TNT721TokenBank_GetMaxProcessedTokenLockNonce (getTNT721TokenBank oc targetChainID) sourceChainID)
    sourceChainID targetChainID IMCEventTypeCrossChainTokenLockTNT721.

Definition processNextTNT1155TokenLockEvent oc db (sourceChainID targetChainID : Z) : IO W (Orchestrator * D) :=
  process_next oc db (TNT1155TokenBank_GetMaxProcessedTokenLockNonce (getTNT1155TokenBank oc targetChainID) sourceChainID)
    sourceChainID targetChainID IMCEventTypeCrossChainTokenLockTNT1155.

Definition processNextTFuelVoucherBurnEvent oc db (sourceChainID targetChainID : Z) : IO W (Orchestrator * D) :=
  process_next oc db (TFuelTokenBank_GetMaxProcessedVoucherBurnNonce (getTFuelTokenBank oc targetChainID) sourceChainID)
    sourceChainID targetChainID IMCEventTypeCrossChainVoucherBurnTFuel.

Definition processNextTNT20VoucherBurnEvent oc db (sourceChainID targetChainID : Z) : IO W (Orchestrator * D) :=
  process_next oc db (TNT20TokenBank_GetMaxProcessedVoucherBurnNonce (getTNT20TokenBank oc targetChainID) sourceChainID)
    sourceChainID targetChainID IMCEventTypeCrossChainVoucherBurnTNT20.

Definition processNextTNT721VoucherBurnEvent oc db (sourceChainID targetChainID : Z) : IO W (Orchestrator * D) :=
  process_next oc db (TNT721TokenBank_GetMaxProcessedVoucherBurnNonce (getTNT721TokenBank oc targetChainID) sourceChainID)
    sourceChainID targetChainID IMCEventTypeCrossChainVoucherBurnTNT721.

Definition processNextTNT1155VoucherBurnEvent oc db (sourceChainID targetChainID : Z) : IO W (Orchestrator * D) :=
  process_next oc db (TNT1155TokenBank_GetMaxProcessedVoucherBurnNonce (getTNT1155TokenBank oc targetChainID) sourceChainID)
    sourceChainID targetChainID IMCEventTypeCrossChainVoucherBurnTNT1155.

(** [processNextTokenLockEvent] *)
Definition processNextTokenLockEvent oc db (sourceChainID targetChainID : Z) : IO W (Orchestrator * D) :=
  '(oc, db) ← processNextTFuelTokenLockEvent oc db sourceChainID targetChainID;
  '(oc, db) ← processNextTNT20TokenLockEvent oc db sourceChainID targetChainID;
  '(oc, db) ← processNextTNT721TokenLockEvent oc db sourceChainID targetChainID;
  processNextTNT1155TokenLockEvent oc db sourceChainID targetChainID.

(** [processNextVoucherBurnEvent] *)
Definition processNextVoucherBurnEvent oc db (sourceChainID targetChainID : Z) : IO W (Orchestrator * D) :=
  '(oc, db) ← processNextTFuelVoucherBurnEvent oc db sourceChainID targetChainID;
  '(oc, db) ← processNextTNT20VoucherBurnEvent oc db sourceChainID targetChainID;
  '(oc, db) ← processNextTNT721VoucherBurnEvent oc db sourceChainID targetChainID;
  processNextTNT1155VoucherBurnEvent oc db sourceChainID targetChainID.

(** One tick of [mainloop]. *)
Definition tick oc db : IO W (Orchestrator * D) :=
  let main := oc_mainchainID oc in
  let sub := oc_subchainID oc in
  '(oc, db) ← processNextTokenLockEvent oc db main sub;
  '(oc, db) ← processNextTokenLockEvent oc db sub main;
  '(oc, db) ← processNextVoucherBurnEvent oc db main sub;
  processNextVoucherBurnEvent oc db sub main.

End Orchestrator.
