(* ===== verification/RelaySpec.v ===== *)
(** * RelaySpec: what the orchestrator sends

    An abstract table of the eight kinds of transfers says which fields of the
    source event become which parameters of the call on the target chain.  The
    mint and unlock functions implement the table; every transaction of a tick
    relays an event of the cache; and the data a bank packed into a log arrive
    unchanged in the call. *)

From Stdlib Require Import Ascii.
From stdpp Require Import gmap sorting.
From stdpp Require Import base list numbers strings.
From S2P Require Import Prelude Vote Validator Text Abi AbiSpec Bind TokenBanks InterChain EventCache InterChainSpec.
From S2P Require Import CacheSpec EventLog Witness WitnessSpec Orchestrator.
Open Scope string_scope.
Open Scope list_scope.
Open Scope Z_scope.

(** ** The table of transfers *)

(** Tokens are locked and vouchers minted for them, or vouchers burned and tokens
    unlocked. *)
Inductive Transfer := Lock (k : TokenKind) | Burn (k : TokenKind).

Definition all_transfers : list Transfer :=
  [Lock TFuelToken; Lock TNT20Token; Lock TNT721Token; Lock TNT1155Token;
   Burn TFuelToken; Burn TNT20Token; Burn TNT721Token; Burn TNT1155Token].

Definition info_of (t : Transfer) : EventInfo :=
  match t with
  | Lock TFuelToken => TFuelTokenLocked_info
  | Lock TNT20Token => TNT20TokenLocked_info
  | Lock TNT721Token => TNT721TokenLocked_info
  | Lock TNT1155Token => TNT1155TokenLocked_info
  | Burn TFuelToken => TFuelVoucherBurned_info
  | Burn TNT20Token => TNT20VoucherBurned_info
  | Burn TNT721Token => TNT721VoucherBurned_info
  | Burn TNT1155Token => TNT1155VoucherBurned_info
  end.

Definition extract_of (t : Transfer) : Z -> LogData -> outcome InterChainMessageEvent :=
  match t with
  | Lock TFuelToken => extractTFuelTokenLockedEvent
  | Lock TNT20Token => extractTNT20TokenLockedEvent
  | Lock TNT721Token => extractTNT721TokenLockedEvent
  | Lock TNT1155Token => extractTNT1155TokenLockedEvent
  | Burn TFuelToken => extractTFuelVoucherBurnedEvent
  | Burn TNT20Token => extractTNT20VoucherBurnedEvent
  | Burn TNT721Token => extractTNT721VoucherBurnedEvent
  | Burn TNT1155Token => extractTNT1155VoucherBurnedEvent
  end.

Definition kind_of (t : Transfer) : TokenKind := match t with Lock k | Burn k => k end.

Definition bank_of (oc : Orchestrator) (t : Transfer) (chain : Z) : BoundContract :=
  match kind_of t with
  | TFuelToken => getTFuelTokenBank oc chain
  | TNT20Token => getTNT20TokenBank oc chain
  | TNT721Token => getTNT721TokenBank oc chain
  | TNT1155Token => getTNT1155TokenBank oc chain
  end.

Definition method_of (t : Transfer) : string := match t with Lock _ => "mintVouchers" | Burn _ => "unlockTokens" end.

(** A parameter of the call: a field of the event, the source chain or the dynasty. *)
Inductive Param := Field (i : nat) | Source | Dynasty.

Definition param_table (t : Transfer) : list Param :=
  match t with
  | Lock TFuelToken => [Field 0; Field 3; Field 4; Dynasty; Field 5]
  | Lock TNT20Token => [Field 0; Field 5; Field 6; Field 7; Field 3; Field 4; Dynasty; Field 8]
  | Lock TNT721Token => [Field 0; Field 5; Field 6; Field 3; Field 4; Field 7; Dynasty; Field 8]
  | Lock TNT1155Token => [Field 0; Field 3; Field 4; Field 5; Field 6; Dynasty; Field 7]
  | Burn TFuelToken => [Source; Field 2; Field 3; Dynasty; Field 4]
  | Burn TNT20Token | Burn TNT721Token => [Source; Field 0; Field 2; Field 3; Dynasty; Field 4]
  | Burn TNT1155Token => [Source; Field 0; Field 2; Field 3; Field 4; Dynasty; Field 5]
  end.

Definition param_value (source : option Z) (dynasty : Z) (vals : list GoVal) (p : Param) : GoVal :=
  match p with
  | Field i => default (GBool false) (vals !! i)
  | Source => GBig source
  | Dynasty => big dynasty
  end.

Definition params_of (t : Transfer) (source : option Z) (dynasty : Z) (vals : list GoVal) : list GoVal :=
  List.map (param_value source dynasty vals) (param_table t).

(** The chain that the denomination must name: the source of a lock, the target
    of a burn.  Some parsers make the denomination lower case. *)
Definition chain_field (t : Transfer) : InterChainMessageEvent -> option Z :=
  match t with Lock _ => SourceChainID | Burn _ => TargetChainID end.

Definition lowers (t : Transfer) : bool := match t with Lock TFuelToken | Burn _ => false | Lock _ => true end.

(** A lock names its target chain, which must be the chain that is called. *)
Definition target_ok (t : Transfer) (target : Z) (vals : list GoVal) : bool :=
  match t with Lock _ => bool_decide (big_at vals 2 = Some target) | Burn _ => true end.

Lemma info_of_ok t : info_ok (info_of t) = true.
Proof. destruct t as [[]|[]]; vm_compute; reflexivity. Qed.

(** ** Shapes of typed values *)

Lemma has_type_string v : has_type StringTy v = true -> exists s, v = GString s.
Proof. destruct v; try done. eauto. Qed.

Lemma has_type_u256 v : has_type (UintTy 256) v = true -> exists z, v = big z /\ 0 <= z < 2 ^ 256.
Proof.
  destruct v as [| |b z|[z|]| | | | |]; try done. cbn [has_type].
  rewrite !andb_true_iff, Z.leb_le, Z.ltb_lt. intros [[_ ?] ?]. by exists z.
Qed.

Lemma has_type_u8 v : has_type (UintTy 8) v = true -> exists z, v = GUint 8 z.
Proof.
  destruct v as [| |b z|[z|]| | | | |]; try done. cbn [has_type].
  rewrite !andb_true_iff. intros [[[_ ->%Z.eqb_eq] _] _]. eauto.
Qed.

(** The types of the fields of the events. *)
Definition field_types (t : Transfer) : list AType :=
  match t with
  | Lock TFuelToken => [StringTy; AddressTy; UintTy 256; AddressTy; UintTy 256; UintTy 256]
  | Lock TNT20Token =>
      [StringTy; AddressTy; UintTy 256; AddressTy; UintTy 256; StringTy; StringTy; UintTy 8; UintTy 256]
  | Lock TNT721Token =>
      [StringTy; AddressTy; UintTy 256; AddressTy; UintTy 256; StringTy; StringTy; StringTy; UintTy 256]
  | Lock TNT1155Token =>
      [StringTy; AddressTy; UintTy 256; AddressTy; UintTy 256; UintTy 256; StringTy; UintTy 256]
  | Burn TNT1155Token => [StringTy; AddressTy; AddressTy; UintTy 256; UintTy 256; UintTy 256]
  | Burn _ => [StringTy; AddressTy; AddressTy; UintTy 256; UintTy 256]
  end.

Lemma field_types_eq t : List.map ArgType (event_args (info_of t)) = field_types t.
Proof. destruct t as [[]|[]]; vm_compute; reflexivity. Qed.

Lemma forallb2_map {A B C} (f : A -> B) (g : B -> C -> bool) l1 l2 :
  forallb2 (fun x y => g (f x) y) l1 l2 = forallb2 g (List.map f l1) l2.
Proof. revert l2; induction l1 as [|x l1 IH]; intros [|y l2]; simpl; try done. by rewrite IH. Qed.

Lemma event_typed_fields t vals : event_typed (info_of t) vals = forallb2 has_type (field_types t) vals.
Proof. unfold event_typed. by rewrite (forallb2_map ArgType has_type), field_types_eq. Qed.

Lemma typed_cons t ts vals :
  forallb2 has_type (t :: ts) vals = true ->
  exists v vs, vals = v :: vs /\ has_type t v = true /\ forallb2 has_type ts vs = true.
Proof. destruct vals as [|v vs]; [done|]. intros [Hv Hvs]%andb_true_iff. eauto. Qed.

Lemma typed_nil vals : forallb2 has_type [] vals = true -> vals = [].
Proof. by destruct vals. Qed.

(** Takes a typed list of values apart. *)
Ltac typed_values H :=
  rewrite event_typed_fields in H; cbn [field_types] in H;
  repeat (let v := fresh "v" in let vs := fresh "vs" in let Hv := fresh "Hv" in
          apply typed_cons in H; destruct H as (v & vs & -> & Hv & H));
  apply typed_nil in H as ->;
  repeat match goal with
         | Hv : has_type StringTy _ = true |- _ => apply has_type_string in Hv as [? ->]
         | Hv : has_type (UintTy 256) _ = true |- _ => apply has_type_u256 in Hv as (? & -> & ?)
         | Hv : has_type (UintTy 8) _ = true |- _ => apply has_type_u8 in Hv as [? ->]
         | Hv : has_type AddressTy _ = true |- _ => apply has_type_address in Hv as (? & -> & ? & ?)
         end.

(** ** Parsing *)

Section Relay.
Context {W : Type} `{!Remote W} {D : Type} `{!Database D} `{!Unicode} `{!AddressText}.
Context (sign : Z -> TxData -> outcome Transaction).

(** What a parser returns: the values of the data, whose denomination is valid
    and names the chain it must. *)
Lemma parse_event_ok t e vals :
  bytes_ok (IData e) -> parse_event (info_of t) (lowers t) (chain_field t) e = Ok vals ->
  IType e = EvType (info_of t) /\ event_typed (info_of t) vals = true /\
  exists c, ValidateDenom (str_at vals 0) = Ok tt /\ ExtractOriginatedChainIDFromDenom (str_at vals 0) = Ok c /\
    chain_field t e = Some c.
Proof.
  intros Hb. unfold parse_event. destruct (Z.eqb_spec (IType e) (EvType (info_of t))) as [Ht|]; [|done]. cbn [negb].
  set (denom := if lowers t then _ else _).
  intros ([] & Hval & (c & Hc & (cmp & Hcmp & Hif)%obind_ok)%obind_ok)%obind_ok.
  destruct (negb _) eqn:Heq; [done|]. injection Hif as <-. split; [done|].
  assert (Hchain : chain_field t e = Some c).
  { apply negb_false_iff, bool_decide_eq_true in Heq as ->. destruct (chain_field t e) as [x|]; [|done].
    injection Hcmp as Hcmp%Z.compare_eq. by subst. }
  assert (Hd : denom = str_at (GString denom :: drop 1 (unpack_event (info_of t) (IData e))) 0) by done.
  split; [|exists c; by rewrite <- Hd].
  destruct (unpack_event_values (info_of t) (IData e) (info_of_ok t) Hb) as [Hz|Hty].
  - exfalso. revert Hval. subst denom. rewrite Hz. clear. by destruct t as [[]|[]]; vm_compute.
  - rewrite event_typed_fields in *. destruct (unpack_event (info_of t) (IData e)) as [|v vs]; [by destruct t as [[]|[]]|].
    change (drop 1 (v :: vs)) with vs.
    destruct t as [[]|[]]; cbn [field_types forallb2] in *; apply andb_true_iff in Hty as [_ Hty]; exact Hty.
Qed.

(** ** The calls implement the table *)

#[local] Arguments address_val : simpl never.
#[local] Arguments Transact : simpl never.
#[local] Arguments Z.compare : simpl never.

Definition call_of (t : Transfer) (oc : Orchestrator) (txOpts : TransactOpts) (target : Z)
    (e : InterChainMessageEvent) : IO W Transaction :=
  match t with
  | Lock TFuelToken => mintTFuelVouchers oc txOpts target e
  | Lock TNT20Token => mintTNT20Vouchers oc txOpts target e
  | Lock TNT721Token => mintTN721Vouchers oc txOpts target e
  | Lock TNT1155Token => mintTN1155Vouchers oc txOpts target e
  | Burn TFuelToken => unlockTFuelTokens oc txOpts target e
  | Burn TNT20Token => unlockTNT20Tokens oc txOpts target e
  | Burn TNT721Token => unlockTNT721Tokens oc txOpts target e
  | Burn TNT1155Token => unlockTNT1155Tokens oc txOpts target e
  end.

(** The call of the table. *)
Definition table_call (t : Transfer) (oc : Orchestrator) (txOpts : TransactOpts) (target : Z)
    (e : InterChainMessageEvent) : IO W Transaction :=
  vals ← lift (parse_event (info_of t) (lowers t) (chain_field t) e);
  if negb (target_ok t target vals) then lift (Err ErrTargetChainMismatch)
  else
    dynasty ← LedgerDynasty;
    match dynasty with
    | None => lift (Err ErrDynastyIsNil)
    | Some dynasty =>
        Transact (bank_of oc t target) txOpts (method_of t) (params_of t (SourceChainID e) dynasty vals)
    end.

Lemma lock_call target z vals (f g : Z -> IO W Transaction) w :
  big_at vals 2 = Some z -> (forall d w, f d w = g d w) ->
  (c ← lift (big_cmp (Some target) (Some z));
   if negb (bool_decide (c = Eq)) then lift (Err ErrTargetChainMismatch)
   else dynasty ← LedgerDynasty;
        match dynasty with None => lift (Err ErrDynastyIsNil) | Some d => f d end) w =
  (if negb (bool_decide (big_at vals 2 = Some target)) then lift (Err ErrTargetChainMismatch)
   else dynasty ← LedgerDynasty;
        match dynasty with None => lift (Err ErrDynastyIsNil) | Some d => g d end) w.
Proof.
  intros -> Hfg. cbv [mbind IO_bind lift big_cmp].
  rewrite (bool_decide_ext ((target ?= z) = Eq) (Some z = Some target)).
  2: { rewrite Z.compare_eq_iff. split; [by intros ->|by intros [= ->]]. }
  destruct (negb _); [done|]. destruct (LedgerDynasty w) as [[[d|]| |] w']; [apply Hfg|done..].
Qed.

Lemma burn_call (f g : Z -> IO W Transaction) w :
  (forall d w, f d w = g d w) ->
  (dynasty ← LedgerDynasty; match dynasty with None => lift (Err ErrDynastyIsNil) | Some d => f d end) w =
  (dynasty ← LedgerDynasty; match dynasty with None => lift (Err ErrDynastyIsNil) | Some d => g d end) w.
Proof.
  intros Hfg. cbv [mbind IO_bind lift]. destruct (LedgerDynasty w) as [[[d|]| |] w']; [apply Hfg|done..].
Qed.

(** The parameters of an accessor are those of the table. *)
Ltac same_params :=
  intros d w'; simpl; unfold params_of, str_at, addr_at, big_at, uint_at; simpl;
  repeat match goal with Hx : address_val _ = _ |- _ => rewrite ?Hx; clear Hx end; reflexivity.

Ltac open_call :=
  cbv beta delta [mintTFuelVouchers mintTNT20Vouchers mintTN721Vouchers mintTN1155Vouchers
    unlockTFuelTokens unlockTNT20Tokens unlockTNT721Tokens unlockTNT1155Tokens call_of
    ParseToCrossChainTFuelTokenLockedEvent ParseToCrossChainTNT20TokenLockedEvent
    ParseToCrossChainTNT721TokenLockedEvent ParseToCrossChainTNT1155TokenLockedEvent
    ParseToCrossChainTFuelVoucherBurnedEvent ParseToCrossChainTNT20VoucherBurnedEvent
    ParseToCrossChainTNT721VoucherBurnedEvent ParseToCrossChainTNT1155VoucherBurnedEvent
    TFuelTokenBank_MintVouchers TNT20TokenBank_MintVouchers TNT721TokenBank_MintVouchers
    TNT1155TokenBank_MintVouchers TFuelTokenBank_UnlockTokens TNT20TokenBank_UnlockTokens
    TNT721TokenBank_UnlockTokens TNT1155TokenBank_UnlockTokens]; cbv iota.

Lemma call_of_eq t oc txOpts target e w :
  bytes_ok (IData e) -> call_of t oc txOpts target e w = table_call t oc txOpts target e w.
Proof.
  intros Hb. unfold table_call.
  destruct (parse_event (info_of t) (lowers t) (chain_field t) e) as [vals|m|m] eqn:Hp.
  - apply parse_event_ok in Hp as Hty; [|done]. destruct Hty as (_ & Hty & _).
    destruct t as [[]|[]]; typed_values Hty; cbn [info_of lowers chain_field] in Hp.
    all: open_call.
    all: rewrite Hp.
    1-4: (eapply lock_call; [reflexivity|same_params]).
    all: eapply burn_call; same_params.
  - destruct t as [[]|[]]; cbn [info_of lowers chain_field] in Hp; open_call; rewrite Hp; reflexivity.
  - destruct t as [[]|[]]; cbn [info_of lowers chain_field] in Hp; open_call; rewrite Hp; reflexivity.
Qed.

(** ** The calls carry the packed values *)

Definition target_method (t : Transfer) : option Method := Methods (EvABI (info_of t)) !! method_of t.
Definition method_inputs (t : Transfer) : list Argument :=
  match target_method t with Some m => Inputs m | None => [] end.
Definition selector (t : Transfer) : list Z :=
  match target_method t with Some m => take 4 (Keccak256 (string_bytes (Sig m))) | None => [] end.

(** A parameter's type in the ABI of the method is that of its field. *)
Definition param_typed (t : Transfer) (a : Argument) (p : Param) : Prop :=
  match p with Field i => field_types t !! i = Some (ArgType a) | _ => ArgType a = UintTy 256 end.

Lemma table_typed t :
  is_Some (target_method t) /\ wf_args (method_inputs t) = true /\ Forall2 (param_typed t) (method_inputs t) (param_table t).
Proof.
  destruct t as [[]|[]]; (split; [vm_compute; eauto|split; [vm_compute; reflexivity|]]);
    vm_compute; repeat constructor.
Qed.

Lemma u256_typed z : 0 <= z < 2 ^ 256 -> has_type (UintTy 256) (big z) = true.
Proof.
  intros Hz. unfold big. cbn [has_type]. change (machine_width 256) with false.
  rewrite (proj2 (Z.leb_le _ _)), (proj2 (Z.ltb_lt _ _)) by lia. reflexivity.
Qed.

Lemma params_typed t source dynasty vals :
  event_typed (info_of t) vals = true -> 0 <= source < 2 ^ 256 -> 0 <= dynasty < 2 ^ 256 ->
  forallb2 (fun a v => has_type (ArgType a) v) (method_inputs t) (params_of t (Some source) dynasty vals) = true.
Proof.
  rewrite event_typed_fields. intros Hty%forallb2_Forall2 Hs Hd. apply forallb2_Forall2.
  destruct (table_typed t) as (_ & _ & Htab). unfold params_of. apply Forall2_fmap_r.
  eapply Forall2_impl; [exact Htab|]. intros a [i| |] Hp; simpl in *.
  - destruct (Forall2_lookup_l _ _ _ _ _ Hty Hp) as (v & -> & Hv). exact Hv.
  - rewrite Hp. by apply u256_typed.
  - rewrite Hp. by apply u256_typed.
Qed.

(** The data of the call decode to the parameters. *)
Lemma calldata t source dynasty vals :
  event_typed (info_of t) vals = true -> 0 <= source < 2 ^ 256 -> 0 <= dynasty < 2 ^ 256 ->
  let params := params_of t (Some source) dynasty vals in
  exists args, Pack (method_inputs t) params = Ok args /\
    (len args < 2 ^ 63 -> UnpackValues (method_inputs t) args = Ok params) /\
    ABI_Pack Keccak256 (EvABI (info_of t)) (method_of t) params = Ok (selector t ++ args).
Proof.
  intros Hty Hs Hd params. assert (Hp := params_typed t source dynasty vals Hty Hs Hd).
  destruct (table_typed t) as ([m Hm] & Hwf & _).
  destruct (pack_unpack _ _ Hwf Hp) as (args & Hpack & Hun). fold params in Hpack, Hun. exists args.
  specialize (Hun []). rewrite app_nil_r in Hun. split; [done|]. split; [done|].
  unfold ABI_Pack, selector, method_inputs in *. unfold target_method in *. rewrite Hm in *. by rewrite Hpack.
Qed.

(** An event of a log: what the orchestrator will parse. *)
Lemma parse_event_denom t e vals chain contract :
  IType e = EvType (info_of t) -> unpack_event (info_of t) (IData e) = vals -> event_typed (info_of t) vals = true ->
  str_at vals 0 = denom_of (kind_of t) chain contract -> chain_field t e = Some chain ->
  parse_event (info_of t) (lowers t) (chain_field t) e = Ok vals.
Proof.
  intros Ht Hu Hty Hden Hch. unfold parse_event. rewrite Ht, Z.eqb_refl, Hu. cbn [negb]. cbv zeta.
  destruct (denom_of_eq (kind_of t) chain contract) as [_ Hlow].
  assert (Hd : (if lowers t then ToLower (str_at vals 0) else str_at vals 0) = str_at vals 0).
  { rewrite Hden. by destruct (lowers t). }
  rewrite Hd, Hden, denom_valid, denom_chain, Hch. cbn [mbind outcome_bind big_cmp].
  rewrite Z.compare_refl. cbn [mbind outcome_bind]. rewrite bool_decide_eq_true_2 by done. cbn [negb]. do 2 f_equal.
  rewrite event_typed_fields in Hty. destruct vals as [|v vs]; [by destruct t as [[]|[]]|].
  change (drop 1 (v :: vs)) with vs. f_equal. rewrite <- Hden.
  destruct t as [[]|[]]; cbn [field_types forallb2] in Hty; apply andb_true_iff in Hty as [[? ->]%has_type_string _]; done.
Qed.

Definition nonce_field (t : Transfer) : nat := length (field_types t) - 1.

(** A log written by the bank of a chain: its data are packed values of the
    event, its number is a height. *)
Record log_of (t : Transfer) (vals : list GoVal) (height : Z) (log : LogData) : Prop := {
  log_text : exists text, string_from (LogBytes log) 2 = Ok text /\
    Pack (event_args (info_of t)) vals = Ok (hex_decode text) /\ len (hex_decode text) < 2 ^ 63;
  log_height : exists number, string_from (BlockNumberText log) 2 = Ok number /\ SetString16 number = Some height
}.

Lemma read_log_of t vals height log :
  event_typed (info_of t) vals = true -> log_of t vals height log ->
  exists data, bytes_ok data /\ unpack_event (info_of t) data = vals /\
    read_log (info_of t) log = Ok (data, vals, Some height).
Proof.
  intros Hty [(text & Ht & Hp & Hl) (number & Hn & Hh)]. exists (hex_decode text).
  assert (Hu : unpack_event (info_of t) (hex_decode text) = vals).
  { by apply Unpack_packed; [apply info_of_ok|..]. }
  split; [apply hex_decode_bytes|]. split; [exact Hu|].
  unfold read_log. rewrite Ht. cbn [mbind outcome_bind]. rewrite Hn. cbn [mbind outcome_bind]. by rewrite Hh, Hu.
Qed.

Lemma extract_of_eq t source target contract vals data height log :
  event_typed (info_of t) vals = true -> target_ok t target vals = true ->
  str_at vals 0 = denom_of (kind_of t) (match t with Lock _ => source | Burn _ => target end) contract ->
  read_log (info_of t) log = Ok (data, vals, Some height) ->
  exists sender receiver nonce, big_at vals (nonce_field t) = Some nonce /\ 0 <= nonce /\
    is_address sender = true /\ is_address receiver = true /\
    extract_of t source log =
      Ok (mkICME (EvType (info_of t)) (Some source) (Some target) sender receiver data (Some nonce) (Some height)).
Proof.
  intros Hty Htgt Hden Hread.
  assert (Horig : match t with Burn _ => originated (str_at vals 0) = target | _ => True end).
  { destruct t as [k|k]; [done|]. unfold originated. by rewrite Hden, denom_chain. }
  destruct t as [[]|[]]; typed_values Hty; cbn [info_of] in Hread; cbn [target_ok] in Htgt;
    try apply bool_decide_eq_true in Htgt;
    do 3 eexists; (split; [reflexivity|]); (split; [lia|]); (split; [|split; [|
      cbn [extract_of];
      cbv beta delta [extractTFuelTokenLockedEvent extractTNT20TokenLockedEvent extractTNT721TokenLockedEvent
        extractTNT1155TokenLockedEvent extractTFuelVoucherBurnedEvent extractTNT20VoucherBurnedEvent
        extractTNT721VoucherBurnedEvent extractTNT1155VoucherBurnedEvent]; rewrite Hread;
      cbn [mbind outcome_bind]; cbv zeta; try (cbn in Horig |- *; rewrite Horig); try rewrite <- Htgt; reflexivity]]);
    assumption.
Qed.

Lemma table_call_sent t oc txOpts target e vals dynasty w w' :
  parse_event (info_of t) (lowers t) (chain_field t) e = Ok vals -> target_ok t target vals = true ->
  LedgerDynasty w = (Ok (Some dynasty), w') ->
  table_call t oc txOpts target e w =
    Transact (bank_of oc t target) txOpts (method_of t) (params_of t (SourceChainID e) dynasty vals) w'.
Proof.
  intros Hp Ht Hd. unfold table_call. rewrite Hp. unfold mbind, IO_bind, lift. rewrite Ht. cbn [negb]. by rewrite Hd.
Qed.

Lemma table_call_mismatch t oc txOpts target e vals w :
  parse_event (info_of t) (lowers t) (chain_field t) e = Ok vals -> target_ok t target vals = false ->
  table_call t oc txOpts target e w = (Err ErrTargetChainMismatch, w).
Proof. intros Hp Ht. unfold table_call. rewrite Hp. unfold mbind, IO_bind, lift. by rewrite Ht. Qed.

Lemma Transact_packed c txOpts method params input w :
  ABI_Pack Keccak256 (abi c) method params = Ok input ->
  Transact c txOpts method params w = transact c txOpts (Some (address c)) input w.
Proof. intros Hp. unfold Transact. by rewrite Hp. Qed.

Lemma single_insert_Get e s t n (db db' : D) :
  event_ok e = true -> cache_key e = Some (s, t, n) -> Insert db e = (db', Ok tt) -> Get db' s t n = (kept e, Ok tt).
Proof.
  intros Hok Hk Hi. assert (Hl : InsertList db [e] = (db', Ok tt)) by (cbn [InsertList]; by rewrite Hi).
  destruct (InsertList_Get [e] db db' s t n) as [(e' & He' & _ & Hg)|[Hno _]]; [by cbn [forallb]; rewrite Hok|done|..].
  - apply list_elem_of_singleton in He' as ->. exact Hg.
  - exfalso. by apply (Hno e); [left|].
Qed.

Lemma EvType_range t : 0 <= EvType (info_of t) < two64.
Proof. destruct t as [[]|[]]; by vm_compute. Qed.

(** C11 (functional): end to end.  A log by which the bank of a source chain
    reports a lock of tokens, or a burn of vouchers, that names the target chain
    is extracted as an event; the event comes back unchanged from the cache, under
    the source chain, its type and the nonce the bank gave it; and the call made
    for it on the target chain goes to the bank of the token's kind, its data
    being the selector of the method and parameters that decode to the values
    that the source bank packed, with the source chain and the dynasty, in the
    order of the table.  A lock that names another chain is not sent. *)
Theorem relay_transfer (t : Transfer) (source target : Z) (contract : Address) (vals : list GoVal) (height : Z)
    (log : LogData) :
  event_typed (info_of t) vals = true -> log_of t vals height log ->
  str_at vals 0 = denom_of (kind_of t) (match t with Lock _ => source | Burn _ => target end) contract ->
  target_ok t target vals = true -> 0 <= source < 2 ^ 256 ->
  exists e nonce, extract_of t source log = Ok e /\ big_at vals (nonce_field t) = Some nonce /\
    (forall (db db' : D), Insert db e = (db', Ok tt) ->
       Get db' source (EvType (info_of t)) nonce = (e, Ok tt)) /\
    (forall oc txOpts dynasty w w',
       LedgerDynasty w = (Ok (Some dynasty), w') -> 0 <= dynasty < 2 ^ 256 ->
       abi (bank_of oc t target) = EvABI (info_of t) ->
       let params := params_of t (Some source) dynasty vals in
       exists args, Pack (method_inputs t) params = Ok args /\
         (len args < 2 ^ 63 -> UnpackValues (method_inputs t) args = Ok params) /\
         call_of t oc txOpts target e w =
           transact (bank_of oc t target) txOpts (Some (address (bank_of oc t target))) (selector t ++ args) w') /\
    (forall oc txOpts target' w, target_ok t target' vals = false ->
       call_of t oc txOpts target' e w = (Err ErrTargetChainMismatch, w)).
Proof.
  intros Hty Hlog Hden Htgt Hs. destruct (read_log_of t vals height log Hty Hlog) as (data & Hb & Hu & Hread).
  destruct (extract_of_eq t source target contract vals data height log Hty Htgt Hden Hread)
    as (sender & receiver & nonce & Hn & Hn0 & Hsender & Hreceiver & Hex).
  set (e := mkICME _ _ _ _ _ _ _ _) in Hex. exists e, nonce. split; [exact Hex|]. split; [exact Hn|].
  assert (Hparse : parse_event (info_of t) (lowers t) (chain_field t) e = Ok vals).
  { eapply parse_event_denom; [done|exact Hu|done|exact Hden|by destruct t]. }
  split; [|split].
  - intros db db' Hi. apply (single_insert_Get e source (EvType (info_of t)) nonce db db'); [|reflexivity|exact Hi].
    apply event_ok_intro; [apply EvType_range|done|done].
  - intros oc txOpts dynasty w w' Hdy Hd Habi params.
    destruct (calldata t source dynasty vals Hty Hs Hd) as (args & Hp & Hun & Hpack). exists args.
    split; [exact Hp|]. split; [exact Hun|]. rewrite call_of_eq by exact Hb.
    rewrite (table_call_sent t oc txOpts target e vals dynasty w w' Hparse Htgt Hdy). apply Transact_packed.
    rewrite Habi. exact Hpack.
  - intros oc txOpts target' w Hno. rewrite call_of_eq by exact Hb. by apply (table_call_mismatch t oc txOpts target' e vals).
Qed.

End Relay.

(** ** A lock of TNT20 tokens *)

#[local] Existing Instance demo_remote.
#[local] Existing Instance plain_Unicode.
#[local] Existing Instance plain_AddressText.

Lemma demo_log_of : log_of (Lock TNT20Token) sample_lock 90 demo_log.
Proof.
  split.
  - exists (hex_encode demo_data). split; [reflexivity|]. split; [vm_compute; reflexivity|].
    apply Z.ltb_lt. vm_compute. reflexivity.
  - exists "5a". split; reflexivity.
Qed.

Lemma relay_transfer_witness :
  let oc := mkOrchestrator 366 360777 (demo_banks MainchainClient 20) (demo_banks SubchainClient 40) 99 6 1 ∅ in
  let params := params_of (Lock TNT20Token) (Some 366) 5 sample_lock in
  params = [GString "366/20/0x0000000000000000000000000000000000000007"; GString "Gold"; GString "GLD"; GUint 8 18;
            address_val 12; big 5000; big 5; big 1] /\
  exists e args, extract_of (Lock TNT20Token) 366 demo_log = Ok e /\
    Pack (method_inputs (Lock TNT20Token)) params = Ok args /\
    forall txOpts, call_of (Lock TNT20Token) oc txOpts 360777 e demo_world =
      transact (bank_of oc (Lock TNT20Token) 360777) txOpts (Some 41) (selector (Lock TNT20Token) ++ args) demo_world.
Proof.
  intros oc params. split; [reflexivity|].
  destruct (relay_transfer (D := gmap string RlpItem) (Lock TNT20Token) 366 360777 7 sample_lock 90 demo_log
    ltac:(vm_compute; reflexivity) demo_log_of ltac:(vm_compute; reflexivity) ltac:(vm_compute; reflexivity)
    ltac:(lia)) as (e & nonce & He & Hn & _ & Hcall & _).
  destruct (Hcall oc (mkTransactOpts 99 None None None None None None 0 false) 5 demo_world demo_world eq_refl ltac:(lia) eq_refl)
    as (args & Hp & _ & _).
  exists e, args. split; [exact He|]. split; [exact Hp|]. intros txOpts.
  destruct (Hcall oc txOpts 5 demo_world demo_world eq_refl ltac:(lia) eq_refl) as (args' & Hp' & _ & Hc).
  assert (Heq : Ok args = Ok args') by (transitivity (Pack (method_inputs (Lock TNT20Token)) params); [symmetry; exact Hp|exact Hp']).
  injection Heq as ->. exact Hc.
Defined.
