(* ===== verification/RelaySafety.v ===== *)
(** * RelaySafety: what a tick of the orchestrator may send

    In a world that remembers the transactions sent, every transaction of a tick
    relays an event of the cache: the one after the last that the target chain
    has processed, with its values as parameters, signed for the target chain. *)

From Stdlib Require Import Ascii.
From stdpp Require Import gmap sorting.
From stdpp Require Import base list numbers strings.
From S2P Require Import Prelude Vote Validator Text Abi AbiSpec Bind TokenBanks InterChain EventCache InterChainSpec.
From S2P Require Import CacheSpec EventLog Witness WitnessSpec Orchestrator RelaySpec.
Open Scope string_scope.
Open Scope list_scope.
Open Scope Z_scope.

Section Safety.
Context {W : Type} `{!Remote W} {D : Type} `{!Database D} `{!Unicode} `{!AddressText}.
Context (sign : Z -> TxData -> outcome Transaction).

(** ** What a computation sends *)

(** A world that remembers the transactions sent: requests that read do not send,
    and sending sends at most the one transaction. *)
Class Traced := {
  sent : W -> list (Client * Transaction);
  sent_CallContract c msg b w : sent (CallContract c msg b w).2 = sent w;
  sent_CodeAt c a b w : sent (CodeAt c a b w).2 = sent w;
  sent_PendingNonceAt c a w : sent (PendingNonceAt c a w).2 = sent w;
  sent_SuggestGasPrice c w : sent (SuggestGasPrice c w).2 = sent w;
  sent_Now w : sent (Now w).2 = sent w;
  sent_LedgerDynasty w : sent (LedgerDynasty w).2 = sent w;
  sent_SendTransaction c tx w :
    sent (SendTransaction c tx w).2 = sent w ++ [(c, tx)] \/ sent (SendTransaction c tx w).2 = sent w
}.

Context `{!Traced}.

(** The computation sends at most [n] transactions, each of them as [P] says, and
    returns what [R] says. *)
Definition sends {A} (n : nat) (P : Client * Transaction -> Prop) (R : A -> Prop) (m : IO W A) : Prop :=
  forall w, exists l, sent (m w).2 = sent w ++ l /\ (length l <= n)%nat /\ Forall P l /\
    forall a, (m w).1 = Ok a -> R a.

Definition anything {A} (_ : A) : Prop := True.

Lemma sends_ext {A} n P R (m m' : IO W A) : (forall w, m w = m' w) -> sends n P R m' -> sends n P R m.
Proof. intros Heq Hm w. rewrite Heq. apply Hm. Qed.

Lemma sends_weaken {A} n n' (P P' : _ -> Prop) (R R' : A -> Prop) m :
  sends n P R m -> (n <= n')%nat -> (forall x, P x -> P' x) -> (forall a, R a -> R' a) -> sends n' P' R' m.
Proof.
  intros Hm Hn HP HR w. destruct (Hm w) as (l & Hs & Hl & Hp & Hr). exists l.
  split; [done|]. split; [lia|]. split; [by eapply Forall_impl|]. intros a Ha. by apply HR, Hr.
Qed.

Lemma sends_lift {A} P (R : A -> Prop) r : (forall a, r = Ok a -> R a) -> sends 0 P R (lift r).
Proof. intros Hr w. exists []. simpl. rewrite app_nil_r. split; [done|]. split; [lia|]. split; [constructor|done]. Qed.

Lemma sends_ret {A} P (R : A -> Prop) a : R a -> sends 0 P R (mret a).
Proof. intros Ha. apply (sends_lift P R (Ok a)). by intros ? [= <-]. Qed.

Lemma sends_none {A} n P (R : A -> Prop) a : R a -> sends n P R (mret a).
Proof. intros Ha. eapply sends_weaken; [by apply (sends_ret P R)|lia|done|done]. Qed.

Lemma sends_bind {A B} n1 n2 P R1 (R2 : B -> Prop) (m : IO W A) (f : A -> IO W B) :
  sends n1 P R1 m -> (forall a w w', m w = (Ok a, w') -> R1 a -> sends n2 P R2 (f a)) ->
  sends (n1 + n2) P R2 (m ≫= f).
Proof.
  intros Hm Hf w. destruct (Hm w) as (l & Hs & Hl & Hp & Hr). unfold mbind, IO_bind.
  destruct (m w) as [[a|e|e] w'] eqn:Hmw; cbn [fst snd] in *.
  - destruct (Hf a w w' Hmw (Hr a eq_refl) w') as (l' & Hs' & Hl' & Hp' & Hr'). exists (l ++ l').
    rewrite Hs', Hs, app_assoc. split; [done|]. rewrite length_app. split; [lia|]. split; [by apply Forall_app|done].
  - exists l. split; [done|]. split; [lia|]. done.
  - exists l. split; [done|]. split; [lia|]. done.
Qed.

Lemma sends_attempt {A} n P (R : A -> Prop) m : sends n P R m -> sends n P anything (attempt m).
Proof.
  intros Hm w. destruct (Hm w) as (l & Hs & Hl & Hp & _). unfold attempt.
  exists l. by destruct (m w) as [[a|e|e] w'].
Qed.

Lemma sends_read {A} P (m : IO W A) : (forall w, sent (m w).2 = sent w) -> sends 0 P anything m.
Proof. intros Hm w. exists []. rewrite Hm, app_nil_r. split; [done|]. split; [simpl; lia|]. split; [constructor|done]. Qed.

(** Sequencing with a computation that sends nothing. *)
Lemma sends_after {A B} n P R1 (R2 : B -> Prop) (m : IO W A) (f : A -> IO W B) :
  sends 0 P R1 m -> (forall a w w', m w = (Ok a, w') -> R1 a -> sends n P R2 (f a)) -> sends n P R2 (m ≫= f).
Proof. apply (sends_bind 0 n). Qed.

(** ** Requests and transactions *)

Lemma Call_silent P c method params : sends 0 P anything (Call c no_call_opts method params).
Proof.
  unfold Call. eapply sends_after; [by apply sends_lift with (R := anything)|]. intros input _ _ _ _.
  eapply sends_after with (R1 := anything).
  - cbn [Pending no_call_opts]. eapply sends_after; [apply sends_read; intros; apply sent_CallContract|].
    intros out _ _ _ _. destruct (len out =? 0); [|by apply sends_ret].
    eapply sends_after; [apply sends_read; intros; apply sent_CodeAt|]. intros code _ _ _ _.
    destruct (len code =? 0); [by apply sends_lift|by apply sends_ret].
  - intros out _ _ _ _. by apply sends_lift.
Qed.

Lemma call_big_silent P c method params : sends 0 P anything (call_big c method params).
Proof.
  unfold call_big. eapply sends_after; [apply Call_silent|]. intros out _ _ _ _.
  destruct out as [|[| | |[z|]| | | | |] out]; first [by apply sends_ret|by apply sends_lift].
Qed.

Lemma call_sets_silent P c method params : sends 0 P anything (call_sets c method params).
Proof.
  unfold call_sets. eapply sends_after; [apply Call_silent|]. intros out _ _ _ _.
  repeat case_match; first [by apply sends_ret|by apply sends_lift].
Qed.

(** The options of a transaction for a chain. *)
Definition relay_opts (oc : Orchestrator) (chain : Z) (opts : TransactOpts) : Prop :=
  exists nonce gasPrice, opts =
    mkTransactOpts (keyAddress oc) (Some nonce)
      (Signer (NewKeyedTransactorWithChainID sign oc chain)) (Some 0) (Some gasPrice) None None 10000000 false.

Lemma buildTxOpts_opts P oc chain client : sends 0 P (relay_opts oc chain) (buildTxOpts sign oc chain client).
Proof.
  unfold buildTxOpts. eapply sends_after with (R1 := anything).
  - destruct (_ =? _); [apply sends_read; intros; apply sent_SuggestGasPrice|by apply sends_ret].
  - intros gasPrice _ _ _ _. eapply sends_after; [apply sends_read; intros; apply sent_PendingNonceAt|].
    intros nonce _ _ _ _. apply sends_ret. by exists (to_int64 nonce), gasPrice.
Qed.

(** The transaction of a call of a contract, signed for a chain. *)
Definition signed_call (c : BoundContract) (chain : Z) (input : list Z) (p : Client * Transaction) : Prop :=
  p.1 = client c /\ exists nonce gasPrice, sign chain (LegacyTx (Some (address c)) nonce gasPrice 10000000 0 input) = Ok p.2.

Lemma sends_send P c tx : P (c, tx) -> sends 1 P anything (SendTransaction c tx).
Proof.
  intros HP w. destruct (sent_SendTransaction c tx w) as [Hs|Hs]; rewrite Hs.
  - exists [(c, tx)]. split; [done|]. split; [simpl; lia|]. split; [by constructor|done].
  - exists []. rewrite app_nil_r. split; [done|]. split; [simpl; lia|]. split; [constructor|done].
Qed.

Lemma transact_sends oc chain opts c input :
  relay_opts oc chain opts ->
  sends 1 (signed_call c chain input) anything (transact c opts (Some (address c)) input).
Proof.
  intros (nonce & gasPrice & ->). unfold transact. cbn -[SendTransaction Z.eqb]. rewrite Z.eqb_refl. cbn -[SendTransaction].
  eapply sends_after with (R1 := fun tx => exists nonce, tx = LegacyTx (Some (address c)) nonce gasPrice 10000000 0 input).
  - apply (sends_ret _ _ (LegacyTx (Some (address c)) (wrap64 nonce) gasPrice 10000000 0 input)). eauto.
  - intros tx _ _ _ [n ->]. eapply sends_after; [by apply sends_lift with (R := fun signed => sign chain (LegacyTx (Some (address c)) n gasPrice 10000000 0 input) = Ok signed)|].
    intros signed _ _ _ Hsign. apply (sends_bind 1 0 _ anything); [|intros; by apply sends_ret].
    apply sends_send. split; [done|]. by exists n, gasPrice.
Qed.

(** ** Relaying *)

(** The last event of the source chain that the bank of the target has processed. *)
Definition last_processed (t : Transfer) (oc : Orchestrator) (source target : Z) : IO W Z :=
  call_big (bank_of oc t target)
    (match t with Lock _ => "getMaxProcessedTokenLockNonce" | Burn _ => "getMaxProcessedVoucherBurnNonce" end)
    [big source].

(** A transaction relays event [nonce] of the source chain: the target chain's bank
    answered that it has processed the events before it; the cache holds it; it is
    a transfer to the target chain; the transaction calls the bank with the
    values of the event as parameters, is signed for the target chain and sent to
    the client of the bank. *)
Definition relays (oc : Orchestrator) (db : D) (p : Client * Transaction) : Prop :=
  exists t source target nonce e err vals dynasty input,
    ((source, target) = (oc_mainchainID oc, oc_subchainID oc) \/ (source, target) = (oc_subchainID oc, oc_mainchainID oc)) /\
    (exists w w', last_processed t oc source target w = (Ok (nonce - 1), w')) /\
    Get db source (EvType (info_of t)) nonce = (e, err) /\ is_not_found err = false /\
    parse_event (info_of t) (lowers t) (chain_field t) e = Ok vals /\ target_ok t target vals = true /\
    ABI_Pack Keccak256 (abi (bank_of oc t target)) (method_of t) (params_of t (SourceChainID e) dynasty vals) = Ok input /\
    signed_call (bank_of oc t target) target input p.

(** What a call for an event sends. *)
Definition carries (t : Transfer) (oc : Orchestrator) (target : Z) (e : InterChainMessageEvent)
    (p : Client * Transaction) : Prop :=
  exists vals dynasty input,
    parse_event (info_of t) (lowers t) (chain_field t) e = Ok vals /\ target_ok t target vals = true /\
    ABI_Pack Keccak256 (abi (bank_of oc t target)) (method_of t) (params_of t (SourceChainID e) dynasty vals) = Ok input /\
    signed_call (bank_of oc t target) target input p.

Lemma call_of_sends t oc opts target e :
  bytes_ok (IData e) -> relay_opts oc target opts ->
  sends 1 (carries t oc target e) anything (call_of t oc opts target e).
Proof.
  intros Hb Hopts. apply (sends_ext _ _ _ _ (table_call t oc opts target e)); [intros w; by apply call_of_eq|].
  unfold table_call. eapply sends_after.
  { apply sends_lift with (R := fun vals => parse_event (info_of t) (lowers t) (chain_field t) e = Ok vals). done. }
  intros vals _ _ _ Hp. destruct (target_ok t target vals) eqn:Ht; cbn [negb].
  2: { eapply sends_weaken; [by apply sends_lift with (R := anything)|lia|done|done]. }
  eapply sends_after; [apply sends_read; intros; apply sent_LedgerDynasty|]. intros [d|] _ _ _ _.
  2: { eapply sends_weaken; [by apply sends_lift with (R := anything)|lia|done|done]. }
  unfold Transact. eapply sends_after.
  { apply sends_lift with (R := fun input => ABI_Pack Keccak256 (abi (bank_of oc t target)) (method_of t)
      (params_of t (SourceChainID e) d vals) = Ok input). done. }
  intros input _ _ _ Hpack. eapply sends_weaken; [by eapply transact_sends|lia| |done].
  intros p Hs. by exists vals, d, input.
Qed.

Lemma target_call_of t oc opts target e :
  exists ty, getTargetChainCorrespondingEventType (EvType (info_of t)) = Ok ty /\
    target_call oc opts target ty e = Some (call_of t oc opts target e).
Proof. destruct t as [[]|[]]; eexists; (split; [reflexivity|reflexivity]). Qed.

Lemma log_validator_sets_silent P oc dynasty : sends 0 P anything (log_validator_sets oc dynasty).
Proof.
  unfold log_validator_sets. destruct dynasty as [d|]; [|by apply sends_ret].
  do 2 (eapply sends_after; [eapply sends_attempt; apply call_sets_silent|]; intros _ _ _ _ _).
  by apply sends_ret.
Qed.

Lemma callTargetContract_sends t oc target ty e :
  bytes_ok (IData e) -> getTargetChainCorrespondingEventType (EvType (info_of t)) = Ok ty ->
  sends 1 (carries t oc target e) anything (callTargetContract sign oc target ty e).
Proof.
  intros Hb Hty. unfold callTargetContract.
  eapply sends_after; [apply sends_read; intros; apply sent_LedgerDynasty|]. intros dynasty _ _ _ _.
  eapply sends_after; [apply log_validator_sets_silent|]. intros _ _ _ _ _.
  eapply sends_after; [apply buildTxOpts_opts|]. intros opts _ _ _ Hopts.
  destruct (target_call_of t oc opts target e) as (ty' & Hty' & Hcall). rewrite Hty in Hty'. injection Hty' as <-.
  rewrite Hcall. apply (sends_bind 1 0 _ anything); [eapply sends_attempt; by apply call_of_sends|].
  intros [x|m|m] _ _ _ _; [by apply sends_ret| |by apply sends_lift].
  destruct (bool_decide _); [by apply sends_ret|by apply sends_lift].
Qed.

(** Databases that a clean-up leaves: events are as before or gone. *)
Definition cleaned (db db' : D) : Prop :=
  forall s t n, Get db' s t n = Get db s t n \/ Get db' s t n = (zero_event, Err ErrKeyNotFound).

Lemma cleaned_refl db : cleaned db db.
Proof. by left. Qed.

Lemma cleaned_trans db1 db2 db3 : cleaned db1 db2 -> cleaned db2 db3 -> cleaned db1 db3.
Proof. intros H12 H23 s t n. destruct (H23 s t n) as [->|]; [apply H12|by right]. Qed.

Lemma cleanUp_cleaned db s t n : cleaned db (cleanUpInterChainEventCache db s t n).
Proof.
  unfold cleanUpInterChainEventCache. destruct (Exists db s t n) as [[]| |]; try apply cleaned_refl.
  unfold Delete. destruct (db_Delete _ _) as [db'| |] eqn:Hd; try apply cleaned_refl.
  intros s' t' n'. unfold Get. rewrite (db_Get_Delete _ _ _ _ Hd). destruct (decide _); [by right|by left].
Qed.

Definition cache_bytes (db : D) : Prop := forall s t n, bytes_ok (IData (Get db s t n).1).

Lemma cleaned_bytes db db' : cleaned db db' -> cache_bytes db -> cache_bytes db'.
Proof. intros Hc Hb s t n. destruct (Hc s t n) as [-> | ->]; [apply Hb|constructor]. Qed.

(** The state of the orchestrator after a step: only the times at which events
    were processed have changed. *)
Definition same_relay (oc : Orchestrator) (db : D) (r : Orchestrator * D) : Prop :=
  (exists m, r.1 = with_processed oc m) /\ cleaned db r.2.

Definition directed (oc : Orchestrator) (source target : Z) : Prop :=
  (source, target) = (oc_mainchainID oc, oc_subchainID oc) \/ (source, target) = (oc_subchainID oc, oc_mainchainID oc).

Lemma with_processed_self oc : with_processed oc (eventProcessedTime oc) = oc.
Proof. by destruct oc. Qed.

Lemma processNextEvent_sends t oc db source target last w0 w1 :
  cache_bytes db -> directed oc source target -> last_processed t oc source target w0 = (Ok last, w1) ->
  sends 1 (relays oc db) (same_relay oc db) (processNextEvent sign oc db source target (EvType (info_of t)) last).
Proof.
  intros Hb Hdir Hlast. unfold processNextEvent. set (db1 := cleanUpInterChainEventCache _ _ _ _).
  assert (Hclean : cleaned db db1) by apply cleanUp_cleaned.
  assert (Hsame : forall m, same_relay oc db (with_processed oc m, db1)) by (intros m; split; [by exists m|done]).
  assert (Hself := Hsame (eventProcessedTime oc)). rewrite with_processed_self in Hself.
  destruct (Get db1 source (EvType (info_of t)) (last + 1)) as [e err] eqn:Hg.
  destruct (is_not_found err) eqn:Hnf; [by apply sends_none|].
  assert (He : Get db source (EvType (info_of t)) (last + 1) = (e, err)).
  { destruct (Hclean source (EvType (info_of t)) (last + 1)) as [Hc|Hc]; rewrite Hg in Hc; [done|].
    injection Hc as -> ->. done. }
  assert (Hbe : bytes_ok (IData e)) by (pose proof (Hb source (EvType (info_of t)) (last + 1)) as Hx; by rewrite He in Hx).
  eapply sends_after.
  { apply sends_lift with (R := fun ty => getTargetChainCorrespondingEventType (EvType (info_of t)) = Ok ty). done. }
  intros ty _ _ _ Hty. eapply sends_after with (R1 := anything).
  { unfold timeElapsedSinceEventProcessed. destruct (_ !! _); [|by apply sends_ret].
    eapply sends_after; [apply sends_read; intros; apply sent_Now|]. intros now _ _ _ _. by apply sends_ret. }
  intros elapsed _ _ _ _. destruct (_ <? _); [|by apply sends_none].
  apply (sends_bind 1 0 _ anything).
  - eapply sends_weaken; [exact (sends_attempt 1 _ _ _ (callTargetContract_sends t oc target ty e Hbe Hty))|lia| |done].
    intros p (vals & d & input & Hp & Ht & Hpack & Hs).
    exists t, source, target, (last + 1), e, err, vals, d, input.
    split; [done|]. split; [|done]. exists w0, w1. by replace (last + 1 - 1) with last by lia.
  - intros [x|m|m] _ _ _ _; [|by apply sends_ret..]. unfold updateEventProcessedTime.
    eapply sends_after with (R1 := fun oc' => exists m, oc' = with_processed oc m).
    + eapply sends_after; [apply sends_read; intros; apply sent_Now|]. intros now _ _ _ _. apply sends_ret. eauto.
    + intros oc' _ _ _ [m ->]. by apply sends_ret.
Qed.

(** One turn for a kind of transfer. *)
Definition turn (t : Transfer) (oc : Orchestrator) (db : D) (source target : Z) : IO W (Orchestrator * D) :=
  process_next sign oc db (last_processed t oc source target) source target (EvType (info_of t)).

Lemma relays_mono oc m db db' p : cleaned db db' -> relays (with_processed oc m) db' p -> relays oc db p.
Proof.
  intros Hc (t & source & target & nonce & e & err & vals & d & input & Hdir & Hl & Hg & Hnf & Hrest).
  exists t, source, target, nonce, e, err, vals, d, input. split; [exact Hdir|]. split; [exact Hl|].
  split; [|split; [exact Hnf|exact Hrest]].
  destruct (Hc source (EvType (info_of t)) nonce) as [Heq|Heq]; rewrite Hg in Heq; [done|]. injection Heq as -> ->. done.
Qed.

(** A state reached from [oc] and [db] within a tick. *)
Definition within (oc : Orchestrator) (db : D) (r : Orchestrator * D) : Prop := same_relay oc db r.

Lemma turn_sends t oc db r source target :
  within oc db r -> cache_bytes db -> directed oc source target ->
  sends 1 (relays oc db) (within oc db) (turn t r.1 r.2 source target).
Proof.
  destruct r as [oc' db']. intros [[m Hoc] Hc] Hb Hdir. cbn [fst snd] in *. subst oc'.
  unfold turn, process_next. eapply sends_after; [eapply sends_attempt, call_big_silent|].
  intros [last|e|e] w w' Hatt _.
  - assert (Hlast : exists w1, last_processed t (with_processed oc m) source target w = (Ok last, w1)).
    { unfold attempt in Hatt. destruct (last_processed t (with_processed oc m) source target w) as [[x|x|x] w1]; try done.
      injection Hatt as -> ->. eauto. }
    destruct Hlast as [w1 Hlast]. eapply sends_weaken.
    + eapply processNextEvent_sends; [by eapply cleaned_bytes|exact Hdir|exact Hlast].
    + done.
    + intros p. by apply relays_mono.
    + intros [oc2 db2] [[m2 Hm2] Hc2]. cbn [fst snd] in *. subst oc2. split; [by exists m2|]. by eapply cleaned_trans.
  - apply sends_none. split; [by exists m|exact Hc].
  - apply sends_none. split; [by exists m|exact Hc].
Qed.

(** Turns one after the other. *)
Fixpoint turns (l : list (Transfer * Z * Z)) (r : Orchestrator * D) : IO W (Orchestrator * D) :=
  match l with
  | [] => mret r
  | (t, source, target) :: l => turn t r.1 r.2 source target ≫= turns l
  end.

Lemma turns_send l oc db r :
  within oc db r -> cache_bytes db -> Forall (fun x => directed oc x.1.2 x.2) l ->
  sends (length l) (relays oc db) (within oc db) (turns l r).
Proof.
  intros Hr Hb Hl. revert r Hr; induction Hl as [|[[t source] target] l Hd _ IH]; intros r Hr; cbn [turns length].
  - by apply sends_ret.
  - apply (sends_bind 1 (length l) _ (within oc db)); [by apply turn_sends|]. intros r' _ _ _ Hr'. by apply IH.
Qed.

(** The turns of a tick. *)
Definition kinds : list TokenKind := [TFuelToken; TNT20Token; TNT721Token; TNT1155Token].
Definition tick_turns (main sub : Z) : list (Transfer * Z * Z) :=
  List.map (fun k => (Lock k, main, sub)) kinds ++ List.map (fun k => (Lock k, sub, main)) kinds ++
  List.map (fun k => (Burn k, main, sub)) kinds ++ List.map (fun k => (Burn k, sub, main)) kinds.

Lemma bind_ext {A B} (m m' : IO W A) (f f' : A -> IO W B) w :
  m w = m' w -> (forall a w, f a w = f' a w) -> (m ≫= f) w = (m' ≫= f') w.
Proof. intros Hm Hf. unfold mbind, IO_bind. rewrite Hm. by destruct (m' w) as [[]]. Qed.

Lemma turns_app l1 l2 r w : turns (l1 ++ l2) r w = (turns l1 r ≫= turns l2) w.
Proof.
  revert r w; induction l1 as [|[[t source] target] l1 IH]; intros r w; cbn [app turns]; [done|].
  transitivity ((turn t r.1 r.2 source target ≫= fun a => turns l1 a ≫= turns l2) w).
  - by apply bind_ext.
  - unfold mbind, IO_bind. by destruct (turn t r.1 r.2 source target w) as [[]].
Qed.

Lemma bind_ret_r {A} (m : IO W A) w : (m ≫= mret) w = m w.
Proof. unfold mbind, IO_bind, mret, IO_ret. by destruct (m w) as [[]]. Qed.

Lemma locks_eq oc db source target w :
  processNextTokenLockEvent sign oc db source target w = turns (List.map (fun k => (Lock k, source, target)) kinds) (oc, db) w.
Proof.
  unfold processNextTokenLockEvent, kinds. cbn [List.map turns].
  do 3 (apply bind_ext; [reflexivity|]; intros [? ?] ?). symmetry. apply bind_ret_r.
Qed.

Lemma burns_eq oc db source target w :
  processNextVoucherBurnEvent sign oc db source target w = turns (List.map (fun k => (Burn k, source, target)) kinds) (oc, db) w.
Proof.
  unfold processNextVoucherBurnEvent, kinds. cbn [List.map turns].
  do 3 (apply bind_ext; [reflexivity|]; intros [? ?] ?). symmetry. apply bind_ret_r.
Qed.

Lemma tick_eq oc db w : tick sign oc db w = turns (tick_turns (oc_mainchainID oc) (oc_subchainID oc)) (oc, db) w.
Proof.
  unfold tick, tick_turns. rewrite turns_app. apply bind_ext; [apply locks_eq|]. intros [oc1 db1] w1.
  rewrite turns_app. apply bind_ext; [apply locks_eq|]. intros [oc2 db2] w2.
  rewrite turns_app. apply bind_ext; [apply burns_eq|]. intros [oc3 db3] w3. apply burns_eq.
Qed.

(** C10 (safety): whatever the chains answer, in a tick the orchestrator sends at
    most sixteen transactions, and every one relays an event of the cache: it is
    a lock or a burn between the two chains whose nonce is one more than the bank
    of the target chain has answered to have processed; the transaction calls
    that bank, with the event's values, and is signed for the target chain.
    Otherwise a tick changes only the times at which events were processed, and
    only deletes events from the cache. *)
Theorem tick_safe (oc : Orchestrator) (db : D) (w : W) :
  cache_bytes db ->
  exists txs, sent (tick sign oc db w).2 = sent w ++ txs /\ (length txs <= 16)%nat /\ Forall (relays oc db) txs /\
    forall oc' db', (tick sign oc db w).1 = Ok (oc', db') -> (exists m, oc' = with_processed oc m) /\ cleaned db db'.
Proof.
  intros Hb. rewrite tick_eq.
  destruct (turns_send (tick_turns (oc_mainchainID oc) (oc_subchainID oc)) oc db (oc, db)) with (w := w)
    as (txs & Hs & Hl & Hp & Hr); [|done| |].
  - split; [exists (eventProcessedTime oc); by rewrite with_processed_self|apply cleaned_refl].
  - unfold tick_turns, kinds. cbn [List.map app].
    repeat (apply List.Forall_cons; [first [by left|by right]|]). apply List.Forall_nil.
  - exists txs. split; [done|]. split; [exact Hl|]. split; [done|]. intros oc' db' Heq. apply (Hr _ Heq).
Qed.

(** ** Retries *)

Lemma cleanUp_next db source ty last :
  Get (cleanUpInterChainEventCache db source ty last) source ty (last + 1) = Get db source ty (last + 1).
Proof.
  unfold cleanUpInterChainEventCache. destruct (Exists db source ty last) as [[]| |]; try done.
  unfold Delete. destruct (db_Delete _ _) as [db'| |] eqn:Hd; try done. unfold Get. cbn [fst].
  rewrite (db_Get_Delete _ _ _ _ Hd), decide_False; [done|]. intros (_ & _ & [= Hn])%event_key_inj. lia.
Qed.

(** A turn whose event is in the cache. *)
Lemma processNextEvent_found t oc db source target last ty e err w :
  getTargetChainCorrespondingEventType (EvType (info_of t)) = Ok ty ->
  Get db source (EvType (info_of t)) (last + 1) = (e, err) -> is_not_found err = false ->
  let db1 := cleanUpInterChainEventCache db source (EvType (info_of t)) last in
  processNextEvent sign oc db source target (EvType (info_of t)) last w =
  (elapsed ← timeElapsedSinceEventProcessed oc e;
   if getRetryThreshold oc target <? elapsed then
     r ← attempt (callTargetContract sign oc target ty e);
     match r with
     | Ok _ => oc ← updateEventProcessedTime oc e; mret (oc, db1)
     | _ => mret (oc, db1)
     end
   else mret (oc, db1)) w.
Proof.
  intros Hty Hg Hnf db1. unfold processNextEvent. fold db1. unfold db1 at 1. rewrite cleanUp_next, Hg, Hnf, Hty. reflexivity.
Qed.

(** (functional): when the call for the next event succeeds, the time after it
    is recorded, and until more than the retry threshold of the target chain has
    passed since then, the event is left alone: the next turn for it only reads
    the clock.  When the call fails, nothing is recorded, and the next turn calls
    again. *)
Theorem retry_spacing (t : Transfer) (oc : Orchestrator) (db : D) (source target last ty : Z)
    (e : InterChainMessageEvent) (err : outcome unit) (w w1 w2 : W) (r : outcome unit) :
  getTargetChainCorrespondingEventType (EvType (info_of t)) = Ok ty ->
  Get db source (EvType (info_of t)) (last + 1) = (e, err) -> is_not_found err = false ->
  eventProcessedTime oc !! ID Keccak256 e = None -> getRetryThreshold oc target < maxDuration ->
  callTargetContract sign oc target ty e w = (r, w1) ->
  let db1 := cleanUpInterChainEventCache db source (EvType (info_of t)) last in
  let step := fun oc db => processNextEvent sign oc db source target (EvType (info_of t)) last in
  match r with
  | Ok _ => forall time, Now w1 = (Ok time, w2) ->
      let oc1 := with_processed oc (<[ID Keccak256 e := time]> (eventProcessedTime oc)) in
      step oc db w = (Ok (oc1, db1), w2) /\
      forall now w3 w4, Now w3 = (Ok now, w4) -> now - time <= getRetryThreshold oc target ->
        exists db2, step oc1 db1 w3 = (Ok (oc1, db2), w4)
  | Err _ => step oc db w = (Ok (oc, db1), w1)
  | Panic m => step oc db w = (Panic m, w1)
  end.
Proof.
  intros Hty Hg Hnf Hnone Hthr Hcall db1 step.
  assert (Hfirst : timeElapsedSinceEventProcessed oc e w = (Ok maxDuration, w))
    by (unfold timeElapsedSinceEventProcessed; by rewrite Hnone).
  assert (Hstep : step oc db w =
    (r ← attempt (callTargetContract sign oc target ty e);
     match r with
     | Ok _ => oc ← updateEventProcessedTime oc e; mret (oc, db1)
     | _ => mret (oc, db1)
     end) w).
  { unfold step. rewrite (processNextEvent_found t oc db source target last ty e err w Hty Hg Hnf). unfold mbind at 1, IO_bind at 1.
    rewrite Hfirst. by rewrite (proj2 (Z.ltb_lt _ _) Hthr). }
  rewrite Hstep. unfold attempt, mbind, IO_bind. rewrite Hcall. destruct r as [[]|m|m]; [|done|done].
  intros time Hnow. unfold updateEventProcessedTime, mbind, IO_bind. rewrite Hnow. split; [done|].
  set (oc1 := with_processed oc _).
  intros now w3 w4 Hnow' Hle. exists (cleanUpInterChainEventCache db1 source (EvType (info_of t)) last).
  unfold step. assert (Hg1 : Get db1 source (EvType (info_of t)) (last + 1) = (e, err)) by (unfold db1; by rewrite cleanUp_next).
  rewrite (processNextEvent_found t oc1 db1 source target last ty e err w3 Hty Hg1 Hnf).
  unfold mbind, IO_bind, timeElapsedSinceEventProcessed. unfold oc1 at 1. cbn [eventProcessedTime with_processed].
  rewrite lookup_insert_eq. unfold mbind, IO_bind. rewrite Hnow'.
  change (getRetryThreshold oc1 target) with (getRetryThreshold oc target). unfold mret, IO_ret.
  rewrite (proj2 (Z.ltb_ge _ _) Hle). reflexivity.
Qed.

End Safety.

(** ** A tick over the scanned database *)

#[local] Existing Instance demo_remote.
#[local] Existing Instance plain_Unicode.
#[local] Existing Instance plain_AddressText.

#[local] Instance demo_traced : Traced (W := Demo).
Proof. refine {| sent := demo_sent |}; intros; try reflexivity. by left. Defined.

Definition demo_orchestrator : Orchestrator :=
  mkOrchestrator 366 360777 (demo_banks MainchainClient 20) (demo_banks SubchainClient 40) 99 6 1 ∅.

Definition demo_sign (chain : Z) (tx : TxData) : outcome Transaction := Ok (mkTransaction tx [chain]).

Definition data_bytes (i : RlpItem) : bool := forallb is_byte (IData (DecodeRLP i zero_event).1).

Lemma items_bytes (db : gmap string RlpItem) :
  bool_decide (map_Forall (fun _ i => data_bytes i = true) db) = true -> cache_bytes db.
Proof.
  intros Hd%bool_decide_eq_true s t n. unfold Get. simpl. destruct (db !! _) as [i|] eqn:Hi; [|constructor].
  apply (map_Forall_lookup_1 _ _ _ _ Hd) in Hi. unfold data_bytes in Hi. rewrite forallb_Forall in Hi.
  eapply Forall_impl; [exact Hi|]. intros b. apply is_byte_spec.
Qed.


(** The lock scanned from the main chain is relayed to the subchain: one
    transaction, to the TNT20 bank there. *)
Lemma tick_safe_witness :
  let r := tick demo_sign demo_orchestrator demo_scanned demo_world in
  cache_bytes demo_scanned /\
  match demo_sent r.2 with
  | [(SubchainClient, tx)] => match TxInner tx with LegacyTx (Some 41) 7 0 10000000 0 _ => true | _ => false end
  | _ => false
  end = true /\
  exists txs, demo_sent r.2 = demo_sent demo_world ++ txs /\ (length txs <= 16)%nat /\
    Forall (relays demo_sign demo_orchestrator demo_scanned) txs.
Proof.
  intros r. assert (Hb : cache_bytes demo_scanned) by (apply items_bytes; vm_compute; reflexivity).
  split; [exact Hb|]. split; [vm_compute; reflexivity|].
  destruct (tick_safe demo_sign demo_orchestrator demo_scanned demo_world Hb) as (txs & Hs & Hl & Hp & _).
  exists txs. split; [exact Hs|]. split; [exact Hl|exact Hp].
Defined.

Definition demo_event : InterChainMessageEvent :=
  (Get demo_scanned 366 IMCEventTypeCrossChainTokenLockTNT20 1).1.

(** The call succeeds at time 1000; at time 4000 of the clock it is not repeated,
    the threshold being four seconds. *)
Lemma retry_spacing_witness :
  let oc1 := with_processed demo_orchestrator {[ ID Keccak256 demo_event := 1000 ]} in
  exists w1 db1 db2,
    processNextEvent demo_sign demo_orchestrator demo_scanned 366 360777 IMCEventTypeCrossChainTokenLockTNT20 0 demo_world
      = (Ok (oc1, db1), w1) /\
    processNextEvent demo_sign oc1 db1 366 360777 IMCEventTypeCrossChainTokenLockTNT20 0 (mkDemo [] 4000)
      = (Ok (oc1, db2), mkDemo [] 4000).
Proof.
  intros oc1.
  set (w1 := (callTargetContract demo_sign demo_orchestrator 360777 IMCEventTypeCrossChainVoucherMintTNT20 demo_event demo_world).2).
  assert (Hg : Get demo_scanned 366 IMCEventTypeCrossChainTokenLockTNT20 (0 + 1) = (demo_event, Ok tt)) by (vm_compute; reflexivity).
  assert (Hc : callTargetContract demo_sign demo_orchestrator 360777 IMCEventTypeCrossChainVoucherMintTNT20 demo_event demo_world
    = (Ok tt, w1)) by (vm_compute; reflexivity).
  assert (Hn : Now w1 = (Ok 1000, w1)) by (vm_compute; reflexivity).
  assert (Hno : eventProcessedTime demo_orchestrator !! ID Keccak256 demo_event = None) by (vm_compute; reflexivity).
  destruct (retry_spacing demo_sign (Lock TNT20Token) demo_orchestrator demo_scanned 366 360777 0
    IMCEventTypeCrossChainVoucherMintTNT20 demo_event (Ok tt) demo_world w1 w1 (Ok tt) eq_refl Hg eq_refl Hno
    ltac:(reflexivity) Hc 1000 Hn) as [H1 H2].
  destruct (H2 4000 (mkDemo [] 4000) (mkDemo [] 4000) eq_refl ltac:(vm_compute; discriminate)) as [db2 H3].
  exists w1, (cleanUpInterChainEventCache demo_scanned 366 IMCEventTypeCrossChainTokenLockTNT20 0), db2.
  split; [exact H1|exact H3].
Defined.
