(* ===== verification/RollingDB.v ===== *)
(** * The rolling database (src/store/rollingdb/rollingdb.go, layer.go,
    rawdb.go, copy_trie.go)

    The ledger state is kept in a stack of LevelDB databases, the layers.  New
    data goes to the active layer; every rolling interval the active layer is
    sealed and a new one is opened; compaction copies one finalized state to
    the active layer and removes the old ones.  A layer object is identified by
    the directory of its database, so that the batches, the compaction and the
    layer list share the databases as the Go pointers do.  LevelDB, the RLP
    encoding of a tag, the node iterator of theta/store/trie and the decoder of
    an account are parameters.  The disk does not fail: the only errors of a
    database are a missing key and an operation on a closed database. *)

From Stdlib Require Import Ascii.
From stdpp Require Import gmap sorting.
From stdpp Require Import base list numbers strings.
From S2P Require Import Prelude Vote Validator Block Chain Text.
Local Open Scope string_scope.
Local Open Scope list_scope.
Local Open Scope Z_scope.

(** ** The interfaces of the libraries *)

Inductive BatchOp :=
| BPut (key value : Bytes)
| BDelete (key : Bytes).

(** A LevelDB database; a batch is replayed in order. *)
Class LevelDB (D : Type) := {
  ld_new : D;
  ld_get : D -> Bytes -> option Bytes;
  ld_put : D -> Bytes -> Bytes -> D;
  ld_delete : D -> Bytes -> D;
  ld_has : D -> Bytes -> bool;
  ld_write : D -> list BatchOp -> D;
  ld_get_new k : ld_get ld_new k = None;
  ld_get_put d k v k' : ld_get (ld_put d k v) k' = if decide (k = k') then Some v else ld_get d k';
  ld_get_delete d k k' : ld_get (ld_delete d k) k' = if decide (k = k') then None else ld_get d k';
  ld_has_get d k : ld_has d k = bool_decide (is_Some (ld_get d k));
  ld_write_nil d k : ld_get (ld_write d []) k = ld_get d k;
  ld_write_put d key value ops k :
    ld_get (ld_write d (BPut key value :: ops)) k = ld_get (ld_write (ld_put d key value) ops) k;
  ld_write_delete d key ops k :
    ld_get (ld_write d (BDelete key :: ops)) k = ld_get (ld_write (ld_delete d key) ops) k
}.

Record layerTag := mkTag { TagHeight : uint64; StateRoots : list Hash }.

(** The RLP encoding of a tag. *)
Class TagCodec := {
  tag_encode : layerTag -> Bytes;
  tag_decode : Bytes -> option layerTag;
  tag_decode_encode t : tag_decode (tag_encode t) = Some t
}.

(** [hash.Bytes()], as a key of the database. *)
Definition hash_key (h : Hash) : Bytes := bytes_string (be_bytes 32 h).
Arguments hash_key : simpl never.

(** What a node iterator stands on: a node with a hash of its own, a node that
    is embedded in its parent, or a value. *)
Inductive Visited :=
| VNode (h : Hash)
| VEmbedded
| VLeaf (key value : Bytes).

Definition is_node (v : Visited) : bool := match v with VNode _ => true | _ => false end.

(** [it.Hash()]. *)
Definition visited_hash (v : Visited) : Hash := match v with VNode h => h | _ => 0 end.

(** The node iterator of theta/store/trie over the database that [get] reads:
    [trie_open] is [trie.New] followed by [NodeIterator(nil)] and fails when
    the root node is missing; [node_next] is [Next(true)], false ([None]) at
    the end of the walk and when a node cannot be read.  The laws say that the
    walk is in pre-order: [todo] is what is still to be met, and
    [node_parts b] what the encoding [b] of a node holds. *)
Class TrieIterator := {
  NodeIt : Type;
  emptyRoot : Hash;
  trie_open : (Bytes -> option Bytes) -> Hash -> option NodeIt;
  node_next : (Bytes -> option Bytes) -> NodeIt -> option (Visited * NodeIt);
  node_parts : Bytes -> list Visited;
  todo : NodeIt -> list Visited;
  node_parts_hash b h : VNode h ∈ node_parts b -> h <> 0;
  trie_open_empty get r : r = 0 \/ r = emptyRoot -> exists it, trie_open get r = Some it /\ todo it = [];
  trie_open_missing get r :
    r <> 0 -> r <> emptyRoot -> get (hash_key r) = None -> trie_open get r = None;
  trie_open_node get r b :
    r <> 0 -> r <> emptyRoot -> get (hash_key r) = Some b ->
    exists it, trie_open get r = Some it /\ todo it = [VNode r];
  node_next_end get it : todo it = [] -> node_next get it = None;
  node_next_missing get it h t :
    todo it = VNode h :: t -> get (hash_key h) = None -> node_next get it = None;
  node_next_node get it h t b :
    todo it = VNode h :: t -> get (hash_key h) = Some b ->
    exists it', node_next get it = Some (VNode h, it') /\ todo it' = node_parts b ++ t;
  node_next_other get it v t :
    todo it = v :: t -> is_node v = false ->
    exists it', node_next get it = Some (v, it') /\ todo it' = t
}.

(** The settings of the storage, and [database.IdealBatchSize]. *)
Record StorageConfig := mkStorageConfig {
  RollingEnabled : bool;
  RollingInterval : Z;
  StatePruningEnabled : bool;
  RetainedBlocks : Z;
  IdealBatchSize : Z
}.

(** ** Layers *)

(** The database of a layer: the root database, or the directory
    [db/rolling/<name>]. *)
Inductive DBName :=
| RootDB
| LayerDB (name : Z).

#[export] Instance DBName_eq_dec : EqDecision DBName.
Proof. solve_decision. Defined.
#[export] Instance DBName_countable : Countable DBName.
Proof.
  refine (inj_countable' (fun n => match n with RootDB => None | LayerDB z => Some z end)
                         (fun o => match o with None => RootDB | Some z => LayerDB z end) _).
  by intros [].
Defined.

(** [layer.name]: the root layer has the number 0. *)
Definition layer_name (n : DBName) : Z := match n with RootDB => 0 | LayerDB z => z end.

Definition layerTagKey : Bytes := "/layertag".

Definition ErrKeyNotFound : string := "KeyNotFound".
Definition ErrClosed : string := "leveldb: closed".

(** [opened] are the open databases, [stored] the directories under
    [db/rolling] whose database is closed, [tags] the [tag] fields of the layer
    objects (the root layer starts without one), [layers] the sealed layers
    from old to new, [compactC] the occupation of the channel. *)
Record RollingDB (D : Type) := mkRDB {
  opened : gmap DBName D;
  stored : gmap Z D;
  tags : gmap DBName layerTag;
  layers : list DBName;
  activeLayer : DBName;
  compactC : bool
}.
Arguments mkRDB {D}.
Arguments opened {D}.
Arguments stored {D}.
Arguments tags {D}.
Arguments layers {D}.
Arguments activeLayer {D}.
Arguments compactC {D}.

Record Batch := mkBatch { b_db : DBName; b_ops : list BatchOp; b_size : Z }.

Section Rolling.
Context {D : Type} `{!LevelDB D} `{!TagCodec}.
Implicit Types (rdb : RollingDB D) (n : DBName).

Definition set_opened rdb o := mkRDB o (stored rdb) (tags rdb) (layers rdb) (activeLayer rdb) (compactC rdb).
Definition set_tags rdb t := mkRDB (opened rdb) (stored rdb) t (layers rdb) (activeLayer rdb) (compactC rdb).
Definition set_layers rdb l a := mkRDB (opened rdb) (stored rdb) (tags rdb) l a (compactC rdb).
Definition set_compactC rdb b :=
  mkRDB (opened rdb) (stored rdb) (tags rdb) (layers rdb) (activeLayer rdb) b.

(** *** A raw database *)

Definition raw_get rdb n (key : Bytes) : outcome Bytes :=
  match opened rdb !! n with
  | None => Err ErrClosed
  | Some d => match ld_get d key with Some v => Ok v | None => Err ErrKeyNotFound end
  end.

Definition raw_has rdb n (key : Bytes) : outcome bool :=
  match opened rdb !! n with
  | None => Err ErrClosed
  | Some d => Ok (ld_has d key)
  end.

Definition raw_put rdb n (key value : Bytes) : outcome (RollingDB D) :=
  match opened rdb !! n with
  | None => Err ErrClosed
  | Some d => Ok (set_opened rdb (<[n := ld_put d key value]> (opened rdb)))
  end.

(** LevelDB's [Delete] does not report a missing key. *)
Definition raw_delete rdb n (key : Bytes) : outcome (RollingDB D) :=
  match opened rdb !! n with
  | None => Err ErrClosed
  | Some d => Ok (set_opened rdb (<[n := ld_delete d key]> (opened rdb)))
  end.

(** *** Batches of a raw database *)

Definition raw_newBatch n : Batch := mkBatch n [] 0.
Definition batch_put (b : Batch) (key value : Bytes) : Batch :=
  mkBatch (b_db b) (b_ops b ++ [BPut key value]) (b_size b + Z.of_nat (String.length value)).
Definition batch_delete (b : Batch) (key : Bytes) : Batch :=
  mkBatch (b_db b) (b_ops b ++ [BDelete key]) (b_size b + 1).
Definition batch_reset (b : Batch) : Batch := mkBatch (b_db b) [] 0.
Definition batch_write rdb (b : Batch) : outcome (RollingDB D * Batch) :=
  match opened rdb !! b_db b with
  | None => Err ErrClosed
  | Some d => Ok (set_opened rdb (<[b_db b := ld_write d (b_ops b)]> (opened rdb)), batch_reset b)
  end.

(** *** Tags *)

(** [loadTag]: the tag in the database, or an empty one; the field of the layer
    is updated. *)
Definition loadTag rdb n : outcome (RollingDB D * layerTag) :=
  match raw_get rdb n layerTagKey with
  | Ok raw =>
      match tag_decode raw with
      | None => Panic "Failed to decode layer tag"
      | Some t => Ok (set_tags rdb (<[n := t]> (tags rdb)), t)
      end
  | _ => Ok (set_tags rdb (<[n := mkTag 0 []]> (tags rdb)), mkTag 0 [])
  end.

Definition saveTag rdb n (t : layerTag) : outcome (RollingDB D) :=
  match raw_put (set_tags rdb (<[n := t]> (tags rdb))) n layerTagKey (tag_encode t) with
  | Ok rdb' => Ok rdb'
  | _ => Panic "Failed to save layer tag"
  end.

Definition addTag rdb n (height : uint64) (stateRoot : Hash) : outcome (RollingDB D) :=
  '(rdb, t) ← loadTag rdb n;
  if height <? TagHeight t then Ok rdb
  else if height =? TagHeight t then
    if bool_decide (stateRoot ∈ StateRoots t) then Ok rdb
    else saveTag rdb n (mkTag (TagHeight t) (StateRoots t ++ [stateRoot]))
  else saveTag rdb n (mkTag height [stateRoot]).

(** *** Opening and removing layers *)

(** LevelDB locks the directory of an open database. *)
Definition NewDBLayer rdb (name : Z) : outcome (RollingDB D * DBName) :=
  match opened rdb !! LayerDB name with
  | Some _ => Panic "Failed to create roll db layer, resource temporarily unavailable"
  | None =>
      let d := default ld_new (stored rdb !! name) in
      let rdb := mkRDB (<[LayerDB name := d]> (opened rdb)) (delete name (stored rdb)) (tags rdb)
                       (layers rdb) (activeLayer rdb) (compactC rdb) in
      '(rdb, _) ← loadTag rdb (LayerDB name);
      Ok (rdb, LayerDB name)
  end.

Definition destroy rdb n : RollingDB D :=
  mkRDB (delete n (opened rdb))
        (match n with RootDB => stored rdb | LayerDB z => delete z (stored rdb) end)
        (tags rdb) (layers rdb) (activeLayer rdb) (compactC rdb).

(** *** Loading *)

(** The numbers among the directories of [db/rolling]; a file is its name and
    whether it is a directory. *)
Definition layer_names (files : list (string * bool)) : list Z :=
  omap (fun f : string * bool => if snd f then Atoi (fst f) else None) files.

Fixpoint open_layers rdb (names : list Z) : outcome (RollingDB D * list DBName) :=
  match names with
  | [] => Ok (rdb, [])
  | name :: rest =>
      '(rdb, l) ← NewDBLayer rdb name;
      '(rdb, ls) ← open_layers rdb rest;
      Ok (rdb, l :: ls)
  end.

(** [loadLayers]: the layer with the largest number is the active one. *)
Definition loadLayers (cfg : StorageConfig) rdb (files : list (string * bool))
    : outcome (RollingDB D * (DBName * list DBName)) :=
  let names := layer_names files in
  match last (merge_sort Z.le names) with
  | None =>
      if negb (RollingEnabled cfg) then Ok (rdb, (RootDB, []))
      else '(rdb, l) ← NewDBLayer rdb 1; Ok (rdb, (l, []))
  | Some name =>
      '(rdb, active) ← NewDBLayer rdb name;
      '(rdb, ls) ← open_layers rdb (take (length names - 1) (merge_sort Z.le names));
      Ok (rdb, (active, ls))
  end.

Definition NewRollingDB (cfg : StorageConfig) (root : D) (disk : gmap Z D)
    (files : list (string * bool)) : outcome (RollingDB D) :=
  let rdb := mkRDB {[RootDB := root]} disk ∅ [] RootDB false in
  '(rdb, (active, ls)) ← loadLayers cfg rdb files;
  Ok (set_layers rdb ls active).

(** *** The database interface *)

Definition allLayers rdb : list DBName := activeLayer rdb :: reverse (layers rdb) ++ [RootDB].

(** The loop of [Get]: the first answer, or the last error. *)
Fixpoint get_from rdb (ls : list DBName) (key : Bytes) : outcome Bytes :=
  match ls with
  | [] => Err ErrKeyNotFound
  | [n] => raw_get rdb n key
  | n :: rest => match raw_get rdb n key with Ok v => Ok v | _ => get_from rdb rest key end
  end.

Definition rdb_Get rdb (key : Bytes) : outcome Bytes := get_from rdb (allLayers rdb) key.

Fixpoint has_from rdb (ls : list DBName) (key : Bytes) : outcome bool :=
  match ls with
  | [] => Ok false
  | [n] => raw_has rdb n key
  | n :: rest => match raw_has rdb n key with Ok b => Ok b | _ => has_from rdb rest key end
  end.

Definition rdb_Has rdb (key : Bytes) : outcome bool := has_from rdb (allLayers rdb) key.

Definition rdb_Put rdb (key value : Bytes) : outcome (RollingDB D) := raw_put rdb (activeLayer rdb) key value.

(** The errors of the layers are ignored. *)
Definition delete_in (key : Bytes) rdb n : RollingDB D :=
  match raw_delete rdb n key with Ok rdb' => rdb' | _ => rdb end.
Definition rdb_Delete rdb (key : Bytes) : RollingDB D := foldl (delete_in key) rdb (allLayers rdb).

(** A batch belongs to the layer that is active when it is made. *)
Definition rdb_NewBatch rdb : Batch := raw_newBatch (activeLayer rdb).
Definition rdb_BatchWrite rdb (b : Batch) : outcome (RollingDB D * Batch) := batch_write rdb b.

Definition close_layer rdb n : RollingDB D :=
  match n, opened rdb !! n with
  | LayerDB z, Some d =>
      mkRDB (delete n (opened rdb)) (<[z := d]> (stored rdb)) (tags rdb) (layers rdb) (activeLayer rdb)
            (compactC rdb)
  | _, _ => set_opened rdb (delete n (opened rdb))
  end.
Definition rdb_Close rdb : RollingDB D :=
  close_layer (foldl close_layer rdb (layers rdb)) (activeLayer rdb).

(** ** Rolling *)

(** [int(height) % interval], with the sign of the dividend. *)
Definition height_rem (cfg : StorageConfig) (height : uint64) : outcome Z :=
  if RollingInterval cfg =? 0 then Panic "runtime error: integer divide by zero"
  else Ok (Z.rem (to_int64 height) (RollingInterval cfg)).
Definition isRollingHeight cfg height : outcome bool := r ← height_rem cfg height; Ok (r =? 50).
Definition isCompactionHeight cfg height : outcome bool := r ← height_rem cfg height; Ok (r =? 70).

Definition addLayer rdb : outcome (RollingDB D) :=
  let sealed := layers rdb ++ [activeLayer rdb] in
  '(rdb, l) ← NewDBLayer (set_layers rdb sealed (activeLayer rdb)) (layer_name (activeLayer rdb) + 1);
  Ok (set_layers rdb sealed l).

(** [Tag]; the result holds the heights for which a compaction is started with
    [go]. *)
Definition Tag (cfg : StorageConfig) rdb (height : uint64) (stateRoot : Hash)
    : outcome (RollingDB D * list uint64) :=
  if negb (RollingEnabled cfg) then Ok (rdb, []) else
  rdb ← addTag rdb (activeLayer rdb) height stateRoot;
  rolling ← isRollingHeight cfg height;
  rdb ← (if rolling : bool then addLayer rdb else Ok rdb);
  compacting ← isCompactionHeight cfg height;
  Ok (rdb, if compacting : bool then [height] else []).

End Rolling.

(** ** Compaction *)

(** What a compaction has found to do: copy the state [p_root] to [p_target]
    and cut the layers off up to [p_source]. *)
Record Plan := mkPlan { p_source : DBName; p_target : DBName; p_root : Hash }.

Section Compaction.
Context {D : Type} `{!LevelDB D} `{!TagCodec} `{!TrieIterator} `{!BlockCrypto} {S : Type} `{!Store S}.
(** [AccountRoot] is the storage root of the account that [types.FromBytes]
    decodes. *)
Context (cfg : StorageConfig) (AccountRoot : Bytes -> option Hash).
Implicit Types (rdb : RollingDB D).

(** The newest of the layers (given from new to old) that is old enough; the
    subtraction of the heights is unsigned. *)
Fixpoint find_cut rdb (height : uint64) (ls : list DBName) : outcome (option (DBName * layerTag)) :=
  match ls with
  | [] => Ok None
  | n :: rest =>
      match tags rdb !! n with
      | None => Panic "runtime error: invalid memory address or nil pointer dereference"
      | Some t =>
          if u64_add (wrap64 (RetainedBlocks cfg)) 10 <? u64_sub height (TagHeight t)
          then Ok (Some (n, t)) else find_cut rdb height rest
      end
  end.

(** The state root of the first finalized block, if the tag has it. *)
Fixpoint find_root (blocks : list ExtendedBlock) (roots : list Hash) : option Hash :=
  match blocks with
  | [] => None
  | eb :: rest =>
      if IsFinalized (Status eb) then
        let r := StateHash (Header (EBlock eb)) in
        if bool_decide (r ∈ roots) then Some r else None
      else find_root rest roots
  end.

(** [compact] up to the copying of the state. *)
Definition compact_plan rdb (ch : Chain S) (height : uint64) : outcome (option Plan) :=
  match layers rdb with
  | [] => Ok None
  | _ =>
      cut ← find_cut rdb height (reverse (layers rdb));
      match cut with
      | None => Ok None
      | Some (source, t) =>
          clean ← isRollingHeight cfg (TagHeight t);
          if negb clean then Ok None
          else match find_root (findBlocksByHeight ch (TagHeight t)) (StateRoots t) with
               | None => Ok None
               | Some r => Ok (Some (mkPlan source (activeLayer rdb) r))
               end
      end
  end.

(** *** Copying

    A compaction runs beside the rest of the program: [job_step] is what it
    does between two of its calls to the iterators. *)
Inductive Pc :=
| CopyTree (it : NodeIt)                      (** [copyTrie] of the state *)
| Traverse (lit : NodeIt)                     (** the loop over the accounts *)
| CopyStorage (it lit : NodeIt)               (** [copyTrie] of an account *)
| Cut.                                        (** the removal of the layers *)

Record Job := mkJob { j_plan : Plan; j_batch : Batch; j_pc : Pc }.

Definition getter rdb (key : Bytes) : option Bytes :=
  match rdb_Get rdb key with Ok v => Some v | _ => None end.

(** [trie.New] and [NodeIterator] of [copyTrie] and of the state view. *)
Definition open_trie rdb (root : Hash) : outcome NodeIt :=
  match trie_open (getter rdb) root with
  | None => Panic "missing trie node"
  | Some it => Ok it
  end.

Definition flush rdb (b : Batch) : outcome (RollingDB D * Batch) :=
  match batch_write rdb b with
  | Ok r => Ok r
  | _ => Panic "Failed to copy trie"
  end.

(** The body of the loop of [copyTrie]. *)
Definition copy_node rdb (b : Batch) (v : Visited) : outcome (RollingDB D * Batch) :=
  if visited_hash v =? 0 then Ok (rdb, b) else
  match rdb_Get rdb (hash_key (visited_hash v)) with
  | Ok val =>
      let b := batch_put b (hash_key (visited_hash v)) val in
      if IdealBatchSize cfg <? b_size b
      then '(rdb, b) ← flush rdb b; Ok (rdb, batch_reset b)
      else Ok (rdb, b)
  | _ => Panic "KeyNotFound"
  end.

(** A step of [copyTrie]: the next node, or the end of the loop and the last
    write ([None]). *)
Definition copy_step rdb (b : Batch) (it : NodeIt) : outcome (RollingDB D * Batch * option NodeIt) :=
  match node_next (getter rdb) it with
  | Some (v, it') => '(rdb, b) ← copy_node rdb b v; Ok (rdb, b, Some it')
  | None => '(rdb, b) ← flush rdb b; Ok (rdb, b, None)
  end.

Definition cut_layers rdb (source : DBName) : RollingDB D :=
  let old := filter (fun n => layer_name n <= layer_name source) (layers rdb) in
  let remaining := filter (fun n => ~ layer_name n <= layer_name source) (layers rdb) in
  let rdb := foldl destroy rdb old in
  set_layers rdb remaining (activeLayer rdb).

Definition account_prefix : string := "ls/a".

Definition job_step rdb (j : Job) : outcome (RollingDB D * option Job) :=
  let p := j_plan j in
  match j_pc j with
  | CopyTree it =>
      '(rdb, b, next) ← copy_step rdb (j_batch j) it;
      match next with
      | Some it' => Ok (rdb, Some (mkJob p b (CopyTree it')))
      | None => lit ← open_trie rdb (p_root p); Ok (rdb, Some (mkJob p b (Traverse lit)))
      end
  | Traverse lit =>
      match node_next (getter rdb) lit with
      | None => Ok (rdb, Some (mkJob p (j_batch j) Cut))
      | Some (VLeaf k v, lit') =>
          if String.prefix account_prefix k then
            match AccountRoot v with
            | None => Panic "Failed to parse account"
            | Some r =>
                if r =? 0 then Ok (rdb, Some (mkJob p (j_batch j) (Traverse lit')))
                else it ← open_trie rdb r; Ok (rdb, Some (mkJob p (j_batch j) (CopyStorage it lit')))
            end
          else Ok (rdb, Some (mkJob p (j_batch j) (Traverse lit')))
      | Some (_, lit') => Ok (rdb, Some (mkJob p (j_batch j) (Traverse lit')))
      end
  | CopyStorage it lit =>
      '(rdb, b, next) ← copy_step rdb (j_batch j) it;
      match next with
      | Some it' => Ok (rdb, Some (mkJob p b (CopyStorage it' lit)))
      | None => Ok (rdb, Some (mkJob p b (Traverse lit)))
      end
  | Cut => Ok (set_compactC (cut_layers rdb (p_source p)) false, None)
  end.

(** The start of [compact]: nothing while another compaction runs, else the
    plan and the iterator of the state. *)
Definition compact_start rdb (ch : Chain S) (height : uint64) : outcome (RollingDB D * option Job) :=
  if negb (StatePruningEnabled cfg) then Ok (rdb, None) else
  if compactC rdb then Ok (rdb, None) else
  plan ← compact_plan rdb ch height;
  match plan with
  | None => Ok (rdb, None)
  | Some p =>
      it ← open_trie rdb (p_root p);
      Ok (set_compactC rdb true, Some (mkJob p (raw_newBatch (p_target p)) (CopyTree it)))
  end.

(** *** A compaction that nothing interrupts *)

Fixpoint job_run (fuel : nat) rdb (j : Job) : option (outcome (RollingDB D)) :=
  match fuel with
  | O => None
  | Datatypes.S fuel =>
      match job_step rdb j with
      | Ok (rdb', None) => Some (Ok rdb')
      | Ok (rdb', Some j') => job_run fuel rdb' j'
      | Err e => Some (Err e)
      | Panic e => Some (Panic e)
      end
  end.

End Compaction.
