(* ===== verification/RollingSpec.v ===== *)
(** * Correctness of the rolling database

    [rdb_ok] is the invariant of a running database.  Under it, and
    without pruning, the stack of layers refines one map: [simulates] relates a
    running database with its open batches to the map, and every operation
    keeps it.  A database that is closed and loaded again is the same stack.
    RollingCompact.v has the compactions, which run with pruning only. *)

From Stdlib Require Import Ascii.
From stdpp Require Import gmap sorting.
From stdpp Require Import base list numbers strings.
From S2P Require Import Prelude Vote Validator Block Chain Text RollingDB.
Local Open Scope string_scope.
Local Open Scope list_scope.
Local Open Scope Z_scope.

Section Refinement.
Context {D : Type} `{!LevelDB D} `{!TagCodec}.
Implicit Types (rdb : RollingDB D) (n : DBName) (k : Bytes).

(** ** The map a stack of layers stands for *)

Fixpoint lookup_in (dbs : gmap DBName D) (ls : list DBName) k : option Bytes :=
  match ls with
  | [] => None
  | n :: rest =>
      match (d ← dbs !! n; ld_get d k) with
      | Some v => Some v
      | None => lookup_in dbs rest k
      end
  end.

Definition view rdb k : option Bytes := lookup_in (opened rdb) (allLayers rdb) k.

(** The layers in use, from old to new. *)
Definition rolled rdb : list DBName := layers rdb ++ [activeLayer rdb].

(** The tag a database holds. *)
Definition stored_tag (d : D) : option layerTag :=
  match ld_get d layerTagKey with
  | None => Some (mkTag 0 [])
  | Some raw => tag_decode raw
  end.

(** The numbers of the layers grow and leave out the root's. *)
Definition rolling_ok rdb : Prop :=
  StronglySorted Z.lt (layer_name <$> rolled rdb) /\
  Forall (fun n => n <> RootDB) (rolled rdb) /\
  (forall n d, n ∈ rolled rdb -> opened rdb !! n = Some d ->
     is_Some (stored_tag d) /\ tags rdb !! n = stored_tag d).

Definition rdb_ok (cfg : StorageConfig) rdb : Prop :=
  (forall n, is_Some (opened rdb !! n) <-> n ∈ allLayers rdb) /\
  stored rdb = ∅ /\
  (if RollingEnabled cfg then rolling_ok rdb /\ RollingInterval cfg <> 0
   else activeLayer rdb = RootDB /\ layers rdb = [] \/ rolling_ok rdb).

(** What a batch makes of the value under [k]. *)
Fixpoint replay (ops : list BatchOp) k (o : option Bytes) : option Bytes :=
  match ops with
  | [] => o
  | BPut key v :: rest => replay rest k (if decide (key = k) then Some v else o)
  | BDelete key :: rest => replay rest k (if decide (key = k) then None else o)
  end.

Lemma ld_get_write ops : forall (d : D) k, ld_get (ld_write d ops) k = replay ops k (ld_get d k).
Proof.
  induction ops as [|[key v|key] ops IH]; intros d k; cbn.
  - apply ld_write_nil.
  - by rewrite ld_write_put, IH, ld_get_put.
  - by rewrite ld_write_delete, IH, ld_get_delete.
Qed.

Lemma lookup_in_ext dbs dbs' ls k :
  (forall n, n ∈ ls -> (d ← dbs !! n; ld_get d k) = (d ← dbs' !! n; ld_get d k)) ->
  lookup_in dbs ls k = lookup_in dbs' ls k.
Proof.
  induction ls as [|n ls IH]; intros Hext; cbn; [done|].
  rewrite (Hext n) by (constructor). rewrite IH; [done|].
  intros m Hm. apply Hext. by constructor.
Qed.

Lemma lookup_in_app dbs l1 l2 k :
  lookup_in dbs (l1 ++ l2) k =
  match lookup_in dbs l1 k with Some v => Some v | None => lookup_in dbs l2 k end.
Proof. induction l1 as [|n l1 IH]; cbn; [done|]. rewrite IH. by repeat case_match. Qed.

Lemma lookup_in_none dbs ls k :
  (forall n d, n ∈ ls -> dbs !! n = Some d -> ld_get d k = None) -> lookup_in dbs ls k = None.
Proof.
  induction ls as [|n ls IH]; intros Hn; cbn; [done|].
  destruct (dbs !! n) as [d|] eqn:Hd; cbn.
  - rewrite (Hn n d) by (done || constructor). apply IH. intros m e Hm. apply Hn. by constructor.
  - apply IH. intros m e Hm. apply Hn. by constructor.
Qed.

Lemma lookup_in_some dbs ls k v :
  lookup_in dbs ls k = Some v -> exists n d, n ∈ ls /\ dbs !! n = Some d /\ ld_get d k = Some v.
Proof.
  induction ls as [|n ls IH]; cbn; [done|].
  destruct (dbs !! n) as [d|] eqn:Hd; cbn.
  - destruct (ld_get d k) as [w|] eqn:Hw; [intros [= ->]|].
    + exists n, d. split; [constructor|done].
    + intros (m & e & Hm & ?)%IH. exists m, e. split; [by constructor|done].
  - intros (m & e & Hm & ?)%IH. exists m, e. split; [by constructor|done].
Qed.

Lemma lookup_in_is_some dbs ls k n d :
  n ∈ ls -> dbs !! n = Some d -> is_Some (ld_get d k) -> is_Some (lookup_in dbs ls k).
Proof.
  intros Hn Hd [v Hv].
  destruct (lookup_in dbs ls k) as [w|] eqn:Hw; [by eexists|].
  exfalso. induction ls as [|m ls IH]; [by apply not_elem_of_nil in Hn|].
  cbn in Hw. destruct (d0 ← dbs !! m; ld_get d0 k) eqn:Hm; [done|].
  apply elem_of_cons in Hn as [->|Hn]; [by rewrite Hd in Hm; cbn in Hm; congruence|].
  by apply IH.
Qed.

(** ** Reading *)

Lemma get_from_view rdb ls k :
  (forall n, n ∈ ls -> is_Some (opened rdb !! n)) ->
  get_from rdb ls k =
  match lookup_in (opened rdb) ls k with Some v => Ok v | None => Err ErrKeyNotFound end.
Proof.
  induction ls as [|n ls IH]; intros Ho; [done|].
  destruct (Ho n) as [d Hd]; [constructor|].
  assert (Hr : raw_get rdb n k = match ld_get d k with Some v => Ok v | None => Err ErrKeyNotFound end)
    by (unfold raw_get; by rewrite Hd).
  cbn [lookup_in get_from]. rewrite Hd. cbn.
  destruct ls as [|m ls].
  - rewrite Hr. by destruct (ld_get d k).
  - rewrite Hr. destruct (ld_get d k); [done|]. apply IH. intros m' Hm. apply Ho. by constructor.
Qed.

Lemma Get_view cfg rdb k :
  rdb_ok cfg rdb ->
  rdb_Get rdb k = match view rdb k with Some v => Ok v | None => Err ErrKeyNotFound end.
Proof. intros [Ho _]. apply get_from_view. intros n Hn. by apply Ho. Qed.

Lemma getter_view cfg rdb k : rdb_ok cfg rdb -> getter rdb k = view rdb k.
Proof. intros Hok. unfold getter. rewrite (Get_view cfg) by done. by destruct (view rdb k). Qed.

Lemma active_open cfg rdb : rdb_ok cfg rdb -> is_Some (opened rdb !! activeLayer rdb).
Proof. intros [Ho _]. apply Ho. constructor. Qed.

(** [Has] asks only the active layer, since LevelDB answers for a missing key
    without an error. *)
Lemma Has_active cfg rdb k d :
  rdb_ok cfg rdb -> opened rdb !! activeLayer rdb = Some d -> rdb_Has rdb k = Ok (ld_has d k).
Proof.
  intros _ Hd. unfold rdb_Has, allLayers, has_from. fold (has_from (D:=D) rdb).
  assert (Hr : raw_has rdb (activeLayer rdb) k = Ok (ld_has d k)) by (unfold raw_has; by rewrite Hd).
  rewrite Hr. by destruct (reverse (layers rdb) ++ [RootDB]).
Qed.

(** ** Writing *)

(** Databases replaced by others, the layers as they were. *)
Lemma ok_replace cfg rdb (o : gmap DBName D) :
  rdb_ok cfg rdb ->
  (forall n, is_Some (o !! n) <-> is_Some (opened rdb !! n)) ->
  (forall n d d', opened rdb !! n = Some d -> o !! n = Some d' ->
     ld_get d' layerTagKey = ld_get d layerTagKey) ->
  rdb_ok cfg (set_opened rdb o).
Proof.
  intros (Ho & Hst & Hroll) Hdom Htag.
  assert (Hk : rolling_ok rdb -> rolling_ok (set_opened rdb o)).
  { intros (Hs & Hr & Ht). split_and!; [done|done|].
    intros n d' Hn Hd'. cbn in *.
    destruct (proj1 (Hdom n)) as [d Hd]; [by eexists|].
    destruct (Ht n d Hn Hd) as [Hsome Heq].
    assert (stored_tag d' = stored_tag d) as -> by (unfold stored_tag; by rewrite (Htag n d d')).
    done. }
  split_and!; [|done|].
  - intros n. cbn. rewrite Hdom. apply Ho.
  - destruct (RollingEnabled cfg); [by destruct Hroll; split; [apply Hk|]|].
    destruct Hroll as [?|?]; [by left|right; by apply Hk].
Qed.

Lemma insert_dom (o : gmap DBName D) n d d' m :
  o !! n = Some d -> is_Some (<[n := d']> o !! m) <-> is_Some (o !! m).
Proof.
  intros Hd. destruct (decide (n = m)) as [->|Hne].
  - rewrite lookup_insert_eq, Hd. by split.
  - by rewrite lookup_insert_ne.
Qed.

Lemma ok_insert cfg rdb n d d' :
  rdb_ok cfg rdb -> opened rdb !! n = Some d -> ld_get d' layerTagKey = ld_get d layerTagKey ->
  rdb_ok cfg (set_opened rdb (<[n := d']> (opened rdb))).
Proof.
  intros Hok Hd Ht. apply ok_replace; [done|intros m; by apply insert_dom with d|].
  intros m e e' He He'. destruct (decide (n = m)) as [->|Hne].
  - rewrite lookup_insert_eq in He'. by simplify_eq.
  - rewrite lookup_insert_ne in He' by done. by simplify_eq.
Qed.

(** A write of [f] to the active layer is seen by every reader. *)
Lemma view_insert_active rdb d d' k :
  opened rdb !! activeLayer rdb = Some d ->
  view (set_opened rdb (<[activeLayer rdb := d']> (opened rdb))) k =
  match ld_get d' k with
  | Some v => Some v
  | None => lookup_in (<[activeLayer rdb := d']> (opened rdb)) (reverse (layers rdb) ++ [RootDB]) k
  end.
Proof. intros Hd. unfold view, allLayers. cbn. by rewrite lookup_insert_eq. Qed.

Lemma Put_spec cfg rdb key v :
  rdb_ok cfg rdb -> key <> layerTagKey ->
  exists rdb', rdb_Put rdb key v = Ok rdb' /\ rdb_ok cfg rdb' /\
    (forall k, view rdb' k = if decide (key = k) then Some v else view rdb k) /\
    layers rdb' = layers rdb /\ activeLayer rdb' = activeLayer rdb.
Proof.
  intros Hok Hne. destruct (active_open cfg rdb Hok) as [d Hd].
  unfold rdb_Put, raw_put. rewrite Hd. eexists; split; [done|split_and!; [| |done|done]].
  - apply ok_insert with d; [done|done|]. rewrite ld_get_put. by rewrite decide_False.
  - intros k. rewrite view_insert_active with (d := d) by done. rewrite ld_get_put.
    case_decide as Hk; [done|].
    unfold view, allLayers. cbn. rewrite Hd. cbn.
    destruct (ld_get d k) eqn:Hg; [done|].
    apply lookup_in_ext. intros n _. destruct (decide (activeLayer rdb = n)) as [<-|Hn].
    + rewrite lookup_insert_eq, Hd. cbn. rewrite ld_get_put. by rewrite decide_False.
    + by rewrite lookup_insert_ne.
Qed.

(** The database of a layer after [Delete]. *)
Lemma delete_in_spec cfg rdb key n :
  rdb_ok cfg rdb -> key <> layerTagKey ->
  rdb_ok cfg (delete_in key rdb n) /\ layers (delete_in key rdb n) = layers rdb /\
  activeLayer (delete_in key rdb n) = activeLayer rdb /\
  forall m k, (d ← opened (delete_in key rdb n) !! m; ld_get d k) =
    if decide (m = n /\ k = key) then None else (d ← opened rdb !! m; ld_get d k).
Proof.
  intros Hok Hne. unfold delete_in, raw_delete. destruct (opened rdb !! n) as [d|] eqn:Hd.
  - split_and!; [|done|done|].
    + apply ok_insert with d; [done|done|]. rewrite ld_get_delete. by rewrite decide_False.
    + intros m k. cbn. destruct (decide (n = m)) as [<-|Hm].
      * rewrite lookup_insert_eq, Hd. cbn. rewrite ld_get_delete.
        destruct (decide (key = k)) as [->|?]; [by rewrite decide_True|].
        rewrite decide_False; [done|]. naive_solver.
      * rewrite lookup_insert_ne by done. rewrite decide_False; [done|]. naive_solver.
  - split_and!; [done|done|done|]. intros m k. destruct (decide _) as [[-> ->]|]; [|done].
    by rewrite Hd.
Qed.

Lemma delete_all cfg key ls : forall rdb,
  rdb_ok cfg rdb -> key <> layerTagKey ->
  let rdb' := foldl (delete_in key) rdb ls in
  rdb_ok cfg rdb' /\ layers rdb' = layers rdb /\ activeLayer rdb' = activeLayer rdb /\
  forall m k, (d ← opened rdb' !! m; ld_get d k) =
    if decide (m ∈ ls /\ k = key) then None else (d ← opened rdb !! m; ld_get d k).
Proof.
  induction ls as [|n ls IH]; intros rdb Hok Hne; cbn.
  - split_and!; [done|done|done|]. intros m k. rewrite decide_False; [done|].
    intros [Hm _]. by apply not_elem_of_nil in Hm.
  - destruct (delete_in_spec cfg rdb key n Hok Hne) as (Hok1 & Hl1 & Ha1 & Hv1).
    destruct (IH (delete_in key rdb n) Hok1 Hne) as (Hok2 & Hl2 & Ha2 & Hv2).
    split_and!; [done|by rewrite Hl2|by rewrite Ha2|].
    intros m k. rewrite Hv2, Hv1.
    repeat case_decide; rewrite ?elem_of_cons in *; naive_solver.
Qed.

Lemma Delete_spec cfg rdb key :
  rdb_ok cfg rdb -> key <> layerTagKey ->
  rdb_ok cfg (rdb_Delete rdb key) /\
  (forall k, view (rdb_Delete rdb key) k = if decide (key = k) then None else view rdb k) /\
  layers (rdb_Delete rdb key) = layers rdb /\ activeLayer (rdb_Delete rdb key) = activeLayer rdb.
Proof.
  intros Hok Hne. destruct (delete_all cfg key (allLayers rdb) rdb Hok Hne) as (Hok' & Hl & Ha & Hv).
  split_and!; [done| |done|done]. intros k. unfold view.
  assert (allLayers (rdb_Delete rdb key) = allLayers rdb) as ->
    by (unfold allLayers, rdb_Delete; by rewrite Hl, Ha).
  case_decide as Hk.
  - subst k. apply lookup_in_none. intros n d Hn Hd. specialize (Hv n key).
    rewrite decide_True in Hv by done. unfold rdb_Delete in Hd. by rewrite Hd in Hv.
  - apply lookup_in_ext. intros n Hn. unfold rdb_Delete. rewrite Hv. rewrite decide_False; [done|].
    naive_solver.
Qed.

(** ** Batches *)

Definition batch_of (ops : list BatchOp) (b : Batch) : Batch :=
  foldl (fun b op => match op with BPut k v => batch_put b k v | BDelete k => batch_delete b k end) b ops.

Lemma batch_of_ops ops : forall b, b_db (batch_of ops b) = b_db b /\ b_ops (batch_of ops b) = b_ops b ++ ops.
Proof.
  induction ops as [|[k v|k] ops IH]; intros b; [by rewrite app_nil_r| |].
  - destruct (IH (batch_put b k v)) as [H1 H2]. split; [exact H1|].
    etransitivity; [exact H2|]. cbn. by rewrite <- app_assoc.
  - destruct (IH (batch_delete b k)) as [H1 H2]. split; [exact H1|].
    etransitivity; [exact H2|]. cbn. by rewrite <- app_assoc.
Qed.

Definition op_key (op : BatchOp) : Bytes := match op with BPut k _ | BDelete k => k end.
Definition is_put (op : BatchOp) : Prop := match op with BPut _ _ => True | BDelete _ => False end.

Lemma replay_other ops k o : Forall (fun op => op_key op <> k) ops -> replay ops k o = o.
Proof.
  intros Hf. revert o. induction Hf as [|[key v|key] ops Hk Hf IH]; intros o; cbn in *; [done| |];
    rewrite decide_False by done; apply IH.
Qed.

(** Puts only add. *)
Lemma replay_puts ops k o :
  Forall is_put ops -> replay ops k o = match replay ops k None with Some v => Some v | None => o end.
Proof.
  intros Hf. revert o. induction Hf as [|[key v|key] ops Hk Hf IH]; intros o; cbn; [done| |done].
  case_decide; [|apply IH].
  rewrite (IH (Some v)). by destruct (replay ops k None).
Qed.

Lemma replay_in ops k v : Forall is_put ops -> replay ops k None = Some v -> BPut k v ∈ ops.
Proof.
  intros Hf. assert (Hg : forall o, replay ops k o = Some v -> o = Some v \/ BPut k v ∈ ops).
  { induction Hf as [|[key w|key] ops Hop Hf IH]; intros o Hr; [by left| |done].
    apply IH in Hr as [Hr|Hr]; [|right; by constructor]. case_decide; [|by left]. simplify_eq. right. constructor. }
  intros Hr. by destruct (Hg None Hr).
Qed.

(** A value in any of the layers, when no other value is there. *)
Lemma lookup_in_put dbs ls n d k v :
  n ∈ ls -> ld_get d k = Some v -> lookup_in dbs ls k = None \/ lookup_in dbs ls k = Some v ->
  lookup_in (<[n := d]> dbs) ls k = Some v.
Proof.
  intros Hn Hd. induction ls as [|m ls IH]; [by apply not_elem_of_nil in Hn|]. cbn.
  destruct (decide (n = m)) as [->|Hne]; [rewrite lookup_insert_eq; cbn; by rewrite Hd|].
  rewrite lookup_insert_ne by done. apply elem_of_cons in Hn as [->|Hn]; [done|].
  destruct (d0 ← dbs !! m; ld_get d0 k); [naive_solver|by apply IH].
Qed.

(** A put that changes no value. *)
Definition keeps_value (f : Bytes -> option Bytes) (op : BatchOp) : Prop :=
  match op with BPut k v => f k = None \/ f k = Some v | BDelete _ => False end.

(** A batch of puts is seen by every reader when it is written to the active
    layer, and also when its layer has been sealed since, if it changes no
    value. *)
Lemma batch_spec cfg rdb b :
  rdb_ok cfg rdb -> b_db b ∈ allLayers rdb ->
  Forall is_put (b_ops b) -> Forall (fun op => op_key op <> layerTagKey) (b_ops b) ->
  b_db b = activeLayer rdb \/ Forall (keeps_value (view rdb)) (b_ops b) ->
  exists rdb', rdb_BatchWrite rdb b = Ok (rdb', batch_reset b) /\ rdb_ok cfg rdb' /\
    (forall k, view rdb' k = replay (b_ops b) k (view rdb k)) /\
    layers rdb' = layers rdb /\ activeLayer rdb' = activeLayer rdb.
Proof.
  intros Hok Hin Hput Hkeys Hval. destruct (proj2 (proj1 Hok (b_db b)) Hin) as [d Hd].
  unfold rdb_BatchWrite, batch_write. rewrite Hd. eexists; split; [done|split_and!; [| |done|done]].
  - apply ok_insert with d; [done|done|]. rewrite ld_get_write. by apply replay_other.
  - intros k. rewrite (replay_puts (b_ops b) k (view rdb k)) by done.
    assert (Hget : ld_get (ld_write d (b_ops b)) k =
              match replay (b_ops b) k None with Some v => Some v | None => ld_get d k end).
    { rewrite ld_get_write. by apply replay_puts. }
    unfold view. change (allLayers (set_opened _ _)) with (allLayers rdb). cbn [opened set_opened].
    destruct (replay (b_ops b) k None) as [v|] eqn:Hr.
    + destruct Hval as [Ha|Hval].
      * rewrite Ha. unfold allLayers. cbn. by rewrite lookup_insert_eq; cbn; rewrite Hget.
      * apply lookup_in_put; [done|done|]. rewrite Forall_forall in Hval.
        exact (Hval _ (replay_in _ _ _ Hput Hr)).
    + apply lookup_in_ext. intros n _. destruct (decide (b_db b = n)) as [<-|Hn].
      * by rewrite lookup_insert_eq, Hd.
      * by rewrite lookup_insert_ne.
Qed.

(** ** Tags and new layers *)

(** The keys of the program. *)
Definition same_view rdb rdb' : Prop := forall k, k <> layerTagKey -> view rdb' k = view rdb k.

Lemma loadTag_ok rdb n d t :
  opened rdb !! n = Some d -> stored_tag d = Some t ->
  loadTag rdb n = Ok (set_tags rdb (<[n := t]> (tags rdb)), t).
Proof.
  intros Hd Ht. unfold loadTag, raw_get, stored_tag in *. rewrite Hd.
  destruct (ld_get d layerTagKey); [by rewrite Ht|by simplify_eq].
Qed.

Lemma set_tags_same rdb n t : tags rdb !! n = Some t -> set_tags rdb (<[n := t]> (tags rdb)) = rdb.
Proof. intros Ht. unfold set_tags. rewrite insert_id by done. by destruct rdb. Qed.

Lemma rolled_open cfg rdb n : rdb_ok cfg rdb -> n ∈ rolled rdb -> is_Some (opened rdb !! n).
Proof.
  intros [Ho _] Hn. apply Ho. unfold allLayers, rolled in *.
  rewrite elem_of_cons, elem_of_app, elem_of_reverse.
  rewrite elem_of_app, list_elem_of_singleton in Hn. naive_solver.
Qed.

(** A tag saved in a layer. *)
Lemma saveTag_ok cfg rdb n t :
  rdb_ok cfg rdb -> rolling_ok rdb -> n ∈ rolled rdb ->
  exists rdb', saveTag rdb n t = Ok rdb' /\ rdb_ok cfg rdb' /\ rolling_ok rdb' /\
    rolled rdb' = rolled rdb /\ activeLayer rdb' = activeLayer rdb /\ layers rdb' = layers rdb /\
    same_view rdb rdb' /\ compactC rdb' = compactC rdb.
Proof.
  intros Hok Hroll Hn. destruct (rolled_open cfg rdb n Hok Hn) as [d Hd].
  unfold saveTag, raw_put. cbn. rewrite Hd. eexists; split; [done|].
  match goal with |- rdb_ok _ ?r /\ _ => set (rdb' := r) end.
  assert (Hroll' : rolling_ok rdb').
  { destruct Hroll as (Hs & Hr & Ht). split_and!; [done|done|].
    intros m e Hm He. cbn in *. destruct (decide (n = m)) as [<-|Hne].
    - rewrite lookup_insert_eq in He. simplify_eq.
      unfold stored_tag. rewrite ld_get_put, decide_True by done.
      rewrite tag_decode_encode, lookup_insert_eq. split; [by eexists|done].
    - rewrite lookup_insert_ne in He by done. rewrite lookup_insert_ne by done. by apply Ht. }
  split_and!; try done.
  - destruct Hok as (Ho & Hst & Hr). split_and!; [|done|].
    + intros m. cbn. rewrite insert_dom by done. apply Ho.
    + destruct (RollingEnabled cfg); [by destruct Hr|by right].
  - intros k Hk. apply lookup_in_ext. intros m _. cbn. destruct (decide (n = m)) as [<-|Hne].
    + rewrite lookup_insert_eq, Hd. cbn. rewrite ld_get_put. by rewrite decide_False.
    + by rewrite lookup_insert_ne.
Qed.

Lemma active_rolled rdb : activeLayer rdb ∈ rolled rdb.
Proof. unfold rolled. apply elem_of_app. right. by apply list_elem_of_singleton. Qed.

Lemma addTag_ok cfg rdb height stateRoot :
  rdb_ok cfg rdb -> rolling_ok rdb ->
  exists rdb', addTag rdb (activeLayer rdb) height stateRoot = Ok rdb' /\ rdb_ok cfg rdb' /\ rolling_ok rdb' /\
    rolled rdb' = rolled rdb /\ activeLayer rdb' = activeLayer rdb /\ layers rdb' = layers rdb /\
    same_view rdb rdb' /\ compactC rdb' = compactC rdb.
Proof.
  intros Hok Hroll. pose proof (active_rolled rdb) as Ha.
  destruct (rolled_open cfg rdb _ Hok Ha) as [d Hd].
  pose proof Hroll as (_ & _ & Ht). destruct (Ht _ d Ha Hd) as [[t Hs] Htag].
  unfold addTag. rewrite (loadTag_ok rdb _ d t Hd Hs). cbn.
  rewrite set_tags_same by by rewrite Htag.
  repeat case_match; try (by apply saveTag_ok);
    exists rdb; split_and!; done.
Qed.

Lemma rolled_lt rdb n : rolling_ok rdb -> n ∈ layers rdb -> layer_name n < layer_name (activeLayer rdb).
Proof.
  intros (Hs & _) Hn. unfold rolled in Hs. rewrite fmap_app in Hs.
  apply StronglySorted_app in Hs as (Hlt & _ & _). apply Hlt; [by apply list_elem_of_fmap_2|].
  by apply list_elem_of_singleton.
Qed.

Lemma rolled_le rdb n : rolling_ok rdb -> n ∈ rolled rdb -> layer_name n <= layer_name (activeLayer rdb).
Proof.
  intros Hr [Hn|Hn%list_elem_of_singleton]%elem_of_app; [|by subst].
  apply Z.lt_le_incl. by apply rolled_lt.
Qed.

Lemma StronglySorted_snoc_lt l z :
  StronglySorted Z.lt l -> (forall x, x ∈ l -> x < z) -> StronglySorted Z.lt (l ++ [z]).
Proof.
  intros Hs. induction Hs as [|x l Hs IH Hx]; intros Hz; cbn.
  - repeat constructor.
  - constructor.
    + apply IH. intros y Hy. apply Hz. by constructor.
    + apply Forall_app. split; [done|]. constructor; [|done]. apply Hz. constructor.
Qed.

Lemma allLayers_rolled rdb : allLayers rdb = reverse (rolled rdb) ++ [RootDB].
Proof. unfold allLayers, rolled. by rewrite reverse_snoc. Qed.

Lemma addLayer_ok cfg rdb :
  rdb_ok cfg rdb -> rolling_ok rdb ->
  exists rdb', addLayer rdb = Ok rdb' /\ rdb_ok cfg rdb' /\ rolling_ok rdb' /\
    layers rdb' = rolled rdb /\ activeLayer rdb' = LayerDB (layer_name (activeLayer rdb) + 1) /\
    opened rdb' = <[activeLayer rdb' := ld_new]> (opened rdb) /\
    (forall k, view rdb' k = view rdb k) /\ compactC rdb' = compactC rdb.
Proof.
  intros Hok Hroll. pose proof Hok as (Ho & Hst & Hen). pose proof Hroll as (Hs & Hr & Ht).
  set (a := LayerDB (layer_name (activeLayer rdb) + 1)).
  assert (Hfresh : a ∉ rolled rdb).
  { intros Ha%rolled_le; [|done]. cbn in Ha. lia. }
  assert (Hnone : opened rdb !! a = None).
  { apply eq_None_not_Some. rewrite Ho, allLayers_rolled, elem_of_app, elem_of_reverse, list_elem_of_singleton.
    by intros [?|?]. }
  unfold addLayer, NewDBLayer. cbn [opened set_layers stored]. fold a. rewrite Hnone, Hst. cbn [lookup default].
  rewrite lookup_empty. cbn [default].
  rewrite (loadTag_ok _ a ld_new (mkTag 0 []));
    [|by cbn; rewrite lookup_insert_eq|unfold stored_tag; by rewrite ld_get_new].
  cbn. eexists; split; [done|].
  match goal with |- rdb_ok _ ?r /\ _ => set (rdb' := r) end.
  assert (Hrolled : rolled rdb' = rolled rdb ++ [a]) by done.
  assert (Hroll' : rolling_ok rdb').
  { split_and!.
    - rewrite Hrolled, fmap_app. apply StronglySorted_snoc_lt; [done|].
      intros x (n & -> & Hn)%list_elem_of_fmap. cbn. apply rolled_le in Hn; [lia|done].
    - rewrite Hrolled. apply Forall_app. split; [done|]. by constructor.
    - intros n d Hn Hd. rewrite Hrolled in Hn. cbn in *.
      apply elem_of_app in Hn as [Hn|Hn%list_elem_of_singleton].
      + assert (n <> a) by naive_solver. rewrite lookup_insert_ne in Hd by done.
        rewrite lookup_insert_ne by done. by apply Ht.
      + subst n. rewrite lookup_insert_eq in Hd. simplify_eq. rewrite lookup_insert_eq.
        unfold stored_tag. rewrite ld_get_new. split; [by eexists|done]. }
  split_and!; try done.
  - split_and!; [|by cbn; rewrite ?Hst, delete_empty|].
    + intros n. cbn. rewrite allLayers_rolled, Hrolled, reverse_snoc. cbn [app].
      destruct (decide (a = n)) as [<-|Hne].
      * rewrite lookup_insert_eq. split; [intros _; constructor|by eexists].
      * rewrite lookup_insert_ne, Ho, allLayers_rolled, elem_of_cons by done. naive_solver.
    + destruct (RollingEnabled cfg); [by destruct Hen|by right].
  - intros k. change (lookup_in (opened rdb') (allLayers rdb') k = lookup_in (opened rdb) (allLayers rdb) k).
    rewrite !allLayers_rolled, Hrolled, reverse_snoc. cbn. rewrite lookup_insert_eq. cbn. rewrite ld_get_new.
    apply lookup_in_ext. intros n Hn. rewrite lookup_insert_ne; [done|].
    intros <-. apply elem_of_app in Hn as [Hn|Hn%list_elem_of_singleton]; [|done].
    by rewrite elem_of_reverse in Hn.
Qed.

Lemma Tag_ok cfg rdb height stateRoot :
  rdb_ok cfg rdb ->
  exists rdb' spawned, Tag cfg rdb height stateRoot = Ok (rdb', spawned) /\ rdb_ok cfg rdb' /\
    same_view rdb rdb' /\ compactC rdb' = compactC rdb /\ allLayers rdb ⊆ allLayers rdb'.
Proof.
  intros Hok. unfold Tag. destruct (RollingEnabled cfg) eqn:He; cbn; [|by eexists _, _].
  pose proof Hok as (_ & _ & Hen). rewrite He in Hen. destruct Hen as [Hroll Hint].
  destruct (addTag_ok cfg rdb height stateRoot Hok Hroll) as (r1 & Hadd & Hok1 & Hroll1 & Hr1 & _ & _ & Hv1 & Hc1).
  rewrite Hadd. cbn. unfold isRollingHeight, isCompactionHeight, height_rem.
  destruct (RollingInterval cfg =? 0) eqn:H0; [apply Z.eqb_eq in H0; done|]. cbn.
  destruct (Z.rem (to_int64 height) (RollingInterval cfg) =? 50); cbn.
  - destruct (addLayer_ok cfg r1 Hok1 Hroll1) as (r2 & Hal & Hok2 & _ & Hl2 & _ & _ & Hv2 & Hc2).
    rewrite Hal. cbn. eexists _, _. split_and!; [reflexivity|done| |congruence|].
    + intros k Hk. rewrite Hv2. by apply Hv1.
    + rewrite !allLayers_rolled. unfold rolled at 2. rewrite Hl2, Hr1, reverse_snoc. set_solver.
  - eexists _, _. split_and!; [reflexivity|done..|]. by rewrite !allLayers_rolled, Hr1.
Qed.

(** The stack of layers stands for [m]. *)
Definition represents rdb (m : gmap Bytes Bytes) : Prop := forall k, k <> layerTagKey -> view rdb k = m !! k.

(** ** Closing and loading *)

Lemma NewDBLayer_ok rdb z d t :
  opened rdb !! LayerDB z = None -> stored rdb !! z = Some d -> stored_tag d = Some t ->
  NewDBLayer rdb z =
  Ok (mkRDB (<[LayerDB z := d]> (opened rdb)) (delete z (stored rdb)) (<[LayerDB z := t]> (tags rdb))
            (layers rdb) (activeLayer rdb) (compactC rdb), LayerDB z).
Proof.
  intros Ho Hs Ht. unfold NewDBLayer. rewrite Ho, Hs. cbn.
  by rewrite (loadTag_ok _ _ d t) by (cbn; rewrite ?lookup_insert_eq; done).
Qed.

(** The databases of the directories [names] are opened, the rest is kept. *)
Record loads rdb rdb' (names : list Z) : Prop := {
  loads_opened n : opened rdb' !! n =
    match n with
    | LayerDB z => if decide (z ∈ names) then stored rdb !! z else opened rdb !! n
    | RootDB => opened rdb !! n
    end;
  loads_stored z : stored rdb' !! z = if decide (z ∈ names) then None else stored rdb !! z;
  loads_tags z d : z ∈ names -> stored rdb !! z = Some d -> tags rdb' !! LayerDB z = stored_tag d;
  loads_tags_other n : (forall z, z ∈ names -> n <> LayerDB z) -> tags rdb' !! n = tags rdb !! n;
  loads_rest : layers rdb' = layers rdb /\ activeLayer rdb' = activeLayer rdb /\ compactC rdb' = compactC rdb
}.

Definition loadable rdb (names : list Z) : Prop :=
  NoDup names /\
  forall z, z ∈ names -> opened rdb !! LayerDB z = None /\ exists d, stored rdb !! z = Some d /\ is_Some (stored_tag d).

Lemma open_layers_ok names : forall rdb, loadable rdb names ->
  exists rdb', open_layers rdb names = Ok (rdb', LayerDB <$> names) /\ loads rdb rdb' names.
Proof.
  induction names as [|z names IH]; intros rdb [Hnd Hall]; cbn.
  - exists rdb. split; [done|]. split; try done; try (by intros []); intros z d Hz; by apply not_elem_of_nil in Hz.
  - apply NoDup_cons in Hnd as [Hz Hnd].
    destruct (Hall z) as (Ho & d & Hd & t & Ht); [constructor|].
    rewrite (NewDBLayer_ok rdb z d t Ho Hd Ht). cbn.
    match goal with |- context [open_layers ?r names] => set (r1 := r) end.
    assert (Hother : forall y, y ∈ names -> y <> z) by (intros y Hy ->; done).
    destruct (IH r1) as (r2 & -> & HL).
    { split; [done|]. intros y Hy. destruct (Hall y) as (Hy1 & e & He & Hte); [by constructor|].
      pose proof (Hother y Hy). cbn. rewrite lookup_insert_ne by congruence. split; [done|].
      exists e. by rewrite lookup_delete_ne by congruence. }
    cbn. eexists; split; [done|]. destruct HL as [L1 L2 L3 L4 L5]. split.
    + intros [|y]; rewrite L1; cbn; [by rewrite lookup_insert_ne|].
      destruct (decide (y ∈ names)) as [Hy|Hy].
      * rewrite decide_True by (by constructor). rewrite lookup_delete_ne by (pose proof (Hother y Hy); congruence). done.
      * destruct (decide (y = z)) as [->|Hyz].
        -- rewrite decide_True by constructor. by rewrite lookup_insert_eq.
        -- rewrite decide_False by (rewrite elem_of_cons; naive_solver). rewrite lookup_insert_ne; [done|congruence].
    + intros y. rewrite L2. cbn. destruct (decide (y = z)) as [->|Hyz].
      * rewrite decide_False by done. rewrite decide_True by constructor. by rewrite lookup_delete_eq.
      * rewrite lookup_delete_ne by done. repeat case_decide; rewrite ?elem_of_cons in *; naive_solver.
    + intros y e Hy He. apply elem_of_cons in Hy as [->|Hy].
      * rewrite L4 by (intros w Hw [= ->]; done). cbn. rewrite lookup_insert_eq. congruence.
      * apply L3; [done|]. cbn. by rewrite lookup_delete_ne by (intros ->; done).
    + intros n Hn. rewrite L4 by (intros w Hw; apply Hn; by constructor). cbn.
      rewrite lookup_insert_ne; [done|]. apply not_eq_sym, Hn. constructor.
    + done.
Qed.

Lemma sorted_names rdb (names : list Z) :
  rolling_ok rdb -> names ≡ₚ (layer_name <$> rolled rdb) -> merge_sort Z.le names = layer_name <$> rolled rdb.
Proof.
  intros (Hs & _) Hp. apply (StronglySorted_unique Z.le).
  - apply (StronglySorted_merge_sort _).
  - clear Hp. induction Hs as [|x l Hs IH Hx]; constructor; [done|].
    eapply Forall_impl; [exact Hx|]. intros y. apply Z.lt_le_incl.
  - by rewrite merge_sort_Permutation.
Qed.

Lemma rolled_names rdb : rolling_ok rdb -> LayerDB <$> (layer_name <$> rolled rdb) = rolled rdb.
Proof.
  intros (_ & Hr & _). induction Hr as [|[|z] l Hn Hr IH]; cbn in *; [done|done|]. by rewrite IH.
Qed.

Lemma rolled_nodup rdb : rolling_ok rdb -> NoDup (layer_name <$> rolled rdb).
Proof.
  intros (Hs & _). induction Hs as [|x l Hs IH Hx]; constructor; [|done].
  intros Hin. rewrite Forall_forall in Hx. specialize (Hx x Hin). lia.
Qed.

(** The layers of [rdb], closed, are loaded as they were. *)
Lemma load_rolled cfg rdb (root : D) (disk : gmap Z D) files :
  rolling_ok rdb ->
  (forall z, disk !! z = opened rdb !! LayerDB z) ->
  (forall n, n ∈ rolled rdb -> is_Some (opened rdb !! n)) ->
  layer_names files ≡ₚ (layer_name <$> rolled rdb) ->
  exists rdb', NewRollingDB cfg root disk files = Ok rdb' /\
    layers rdb' = layers rdb /\ activeLayer rdb' = activeLayer rdb /\ compactC rdb' = false /\
    opened rdb' !! RootDB = Some root /\
    (forall n, n ∈ rolled rdb -> opened rdb' !! n = opened rdb !! n /\ tags rdb' !! n = tags rdb !! n) /\
    (forall z, LayerDB z ∉ rolled rdb -> opened rdb' !! LayerDB z = None /\ stored rdb' !! z = disk !! z) /\
    (forall z, LayerDB z ∈ rolled rdb -> stored rdb' !! z = None).
Proof.
  intros Hroll Hdisk Hopen Hfiles. unfold NewRollingDB, loadLayers.
  rewrite (sorted_names rdb) by done.
  assert (length (layer_names files) = length (layers rdb) + 1)%nat as ->.
  { rewrite Hfiles. unfold rolled. by rewrite length_fmap, length_app. }
  assert (Hlast : last (layer_name <$> rolled rdb) = Some (layer_name (activeLayer rdb))).
  { unfold rolled. rewrite fmap_app. apply last_snoc. }
  rewrite Hlast.
  assert (Htake : take (length (layers rdb) + 1 - 1) (layer_name <$> rolled rdb) = layer_name <$> layers rdb).
  { unfold rolled. rewrite fmap_app, Nat.add_sub. apply take_app_length'. by rewrite length_fmap. }
  rewrite Htake.
  pose proof (rolled_names rdb Hroll) as Hn. pose proof (rolled_nodup rdb Hroll) as Hnd.
  pose proof Hroll as (_ & _ & Htags).
  assert (Hdb : forall z, z ∈ layer_name <$> rolled rdb -> LayerDB z ∈ rolled rdb).
  { intros z Hz. rewrite <- Hn. by apply list_elem_of_fmap_2. }
  assert (Hgood : forall z, z ∈ layer_name <$> rolled rdb ->
            exists d, disk !! z = Some d /\ opened rdb !! LayerDB z = Some d /\
              is_Some (stored_tag d) /\ tags rdb !! LayerDB z = stored_tag d).
  { intros z Hz%Hdb. destruct (Hopen _ Hz) as [d Hd]. exists d. rewrite Hdisk.
    destruct (Htags _ d Hz Hd). done. }
  set (active := layer_name (activeLayer rdb)) in *.
  assert (Hact : LayerDB active = activeLayer rdb).
  { assert (Hin : activeLayer rdb ∈ rolled rdb) by apply active_rolled.
    pose proof Hroll as (_ & Hr & _). rewrite Forall_forall in Hr. specialize (Hr _ Hin).
    unfold active. by destruct (activeLayer rdb). }
  assert (Hain : active ∈ layer_name <$> rolled rdb) by (apply list_elem_of_fmap_2, active_rolled).
  destruct (Hgood active Hain) as (d & Hd & Hod & (t & Ht) & Htt).
  rewrite (NewDBLayer_ok _ active d t); [|by apply lookup_singleton_ne|done|done]. cbn.
  assert (Hsplit : layer_name <$> rolled rdb = (layer_name <$> layers rdb) ++ [active]).
  { unfold rolled. by rewrite fmap_app. }
  rewrite Hsplit in Hnd. apply NoDup_app in Hnd as (Hnd & Hdis & _).
  assert (Hold : forall z, z ∈ layer_name <$> layers rdb -> z <> active /\ z ∈ layer_name <$> rolled rdb).
  { intros z Hz. split; [|rewrite Hsplit; apply elem_of_app; by left].
    intros ->. apply (Hdis active Hz). by apply list_elem_of_singleton. }
  match goal with |- context [open_layers ?r _] => set (r1 := r) end.
  destruct (open_layers_ok (layer_name <$> layers rdb) r1) as (r2 & -> & [L1 L2 L3 L4 (L5 & L6 & L7)]).
  { split; [done|]. intros z Hz. destruct (Hold z Hz) as [Hza Hzr].
    destruct (Hgood z Hzr) as (e & He & _ & Hte & _). cbn.
    rewrite lookup_insert_ne by congruence. split; [by apply lookup_singleton_ne|].
    exists e. by rewrite lookup_delete_ne by congruence. }
  cbn. eexists; split; [done|]. cbn.
  assert (Hlayers : LayerDB <$> (layer_name <$> layers rdb) = layers rdb).
  { unfold rolled in Hn. rewrite !fmap_app in Hn. cbn in Hn. fold active in Hn. rewrite Hact in Hn.
    by apply app_inj_tail in Hn as [Hn _]. }
  split_and!; [done|done|done|by rewrite L1; cbn; simplify_map_eq| | |].
  - intros n Hin. rewrite <- Hn in Hin. apply list_elem_of_fmap in Hin as (z & -> & Hz).
    destruct (Hgood z Hz) as (e & He & Hoe & _ & Hte). rewrite L1, Hoe, Hte. cbn.
    destruct (decide (z ∈ layer_name <$> layers rdb)) as [Hl|Hl].
    + destruct (Hold z Hl) as [Hza _]. rewrite lookup_delete_ne by congruence. split; [done|].
      apply L3; [done|]. cbn. by rewrite lookup_delete_ne by congruence.
    + assert (z = active) as ->.
      { rewrite Hsplit in Hz. apply elem_of_app in Hz as [Hz|Hz%list_elem_of_singleton]; done. }
      rewrite lookup_insert_eq. split; [congruence|]. rewrite L4.
      * cbn. rewrite lookup_insert_eq. congruence.
      * intros y Hy [= <-]. done.
  - intros z Hz. assert (z ∉ layer_name <$> rolled rdb) as Hz' by (by intros ?%Hdb).
    rewrite Hsplit, not_elem_of_app, not_elem_of_cons in Hz'. destruct Hz' as (Hz1 & Hz2 & _).
    rewrite L1, L2. cbn. rewrite !decide_False by done.
    rewrite lookup_insert_ne, lookup_delete_ne, lookup_singleton_ne by congruence. done.
  - intros z Hz. rewrite L2. case_decide as Hl; [done|]. cbn.
    assert (z = active) as ->; [|by rewrite lookup_delete_eq].
    unfold rolled in Hz. apply elem_of_app in Hz as [Hz|Hz%list_elem_of_singleton].
    + exfalso. apply Hl. apply list_elem_of_fmap. by exists (LayerDB z).
    + unfold active. by rewrite <- Hz.
Qed.

(** [Close] leaves the databases of the layers on the disk. *)
Lemma close_layers ls : forall rdb,
  NoDup ls -> Forall (fun n => n <> RootDB) ls -> (forall n, n ∈ ls -> is_Some (opened rdb !! n)) ->
  forall z, stored (foldl close_layer rdb ls) !! z = if decide (LayerDB z ∈ ls) then opened rdb !! LayerDB z else stored rdb !! z.
Proof.
  induction ls as [|n ls IH]; intros rdb Hnd Hr Ho; cbn [foldl].
  - intros z. rewrite decide_False; [done|]. apply not_elem_of_nil.
  - apply NoDup_cons in Hnd as [Hn Hnd]. apply Forall_cons in Hr as [Hroot Hr].
    destruct (Ho n) as [d Hd]; [constructor|]. destruct n as [|y]; [done|].
    assert (close_layer rdb (LayerDB y) =
            mkRDB (delete (LayerDB y) (opened rdb)) (<[y := d]> (stored rdb)) (tags rdb) (layers rdb)
                  (activeLayer rdb) (compactC rdb)) as -> by (unfold close_layer; by rewrite Hd).
    intros z. rewrite IH; [|done|done|].
    + cbn. destruct (decide (y = z)) as [<-|Hne].
      * rewrite decide_False by done. rewrite decide_True by constructor. by rewrite lookup_insert_eq.
      * rewrite lookup_delete_ne, lookup_insert_ne by congruence.
        repeat case_decide; rewrite ?elem_of_cons in *; naive_solver.
    + intros m Hm. cbn. rewrite lookup_delete_ne by (intros <-; done). apply Ho. by constructor.
Qed.

Lemma Close_rolled rdb : rdb_Close rdb = foldl close_layer rdb (rolled rdb).
Proof. unfold rdb_Close, rolled. by rewrite foldl_snoc. Qed.

(** The directories of the layers. *)
Definition listing rdb : list (string * bool) := (fun n => (decimal (layer_name n), true)) <$> rolled rdb.

Definition is_int (z : Z) : Prop := -9223372036854775808 <= z < 9223372036854775808.

Lemma layer_names_app f1 f2 : layer_names (f1 ++ f2) = layer_names f1 ++ layer_names f2.
Proof. apply omap_app. Qed.

Lemma layer_names_listing rdb :
  (forall n, n ∈ rolled rdb -> is_int (layer_name n)) -> layer_names (listing rdb) = layer_name <$> rolled rdb.
Proof.
  unfold listing, layer_names. induction (rolled rdb) as [|n l IH]; intros Hint; [done|].
  cbn. rewrite Atoi_decimal by (apply Hint; constructor). f_equal.
  apply IH. intros m Hm. apply Hint. by constructor.
Qed.

Lemma reload_ok cfg rdb root files junk :
  rdb_ok cfg rdb -> rolling_ok rdb -> opened rdb !! RootDB = Some root ->
  (forall n, n ∈ rolled rdb -> is_int (layer_name n)) ->
  layer_names junk = [] -> files ≡ₚ listing rdb ++ junk ->
  exists rdb', NewRollingDB cfg root (stored (rdb_Close rdb)) files = Ok rdb' /\ rdb_ok cfg rdb' /\
    layers rdb' = layers rdb /\ activeLayer rdb' = activeLayer rdb /\
    (forall n, n ∈ rolled rdb -> tags rdb' !! n = tags rdb !! n) /\
    (forall k, view rdb' k = view rdb k).
Proof.
  intros Hok Hroll Hroot Hint Hjunk Hfiles. pose proof Hok as (Ho & Hst & Hen).
  assert (Hopen : forall n, n ∈ rolled rdb -> is_Some (opened rdb !! n)) by (intros n; by apply rolled_open with cfg).
  assert (Hnr : forall n, is_Some (opened rdb !! n) <-> n ∈ rolled rdb \/ n = RootDB).
  { intros n. rewrite Ho, allLayers_rolled, elem_of_app, elem_of_reverse, list_elem_of_singleton. done. }
  assert (Hdisk : forall z, stored (rdb_Close rdb) !! z = opened rdb !! LayerDB z).
  { intros z. rewrite Close_rolled, close_layers; [|by apply NoDup_fmap_1 with layer_name, rolled_nodup|apply Hroll|done].
    case_decide as Hz; [done|]. rewrite Hst, lookup_empty. symmetry. apply eq_None_not_Some.
    rewrite Hnr. by intros [?|?]. }
  destruct (load_rolled cfg rdb root _ files Hroll Hdisk Hopen) as (r & Hr & Hl & Ha & _ & Hroot' & Hsame & Hout & Hst').
  { rewrite <- layer_names_listing by done. unfold layer_names. rewrite Hfiles, omap_app.
    unfold layer_names in Hjunk. by rewrite Hjunk, app_nil_r. }
  assert (Hrl : rolled r = rolled rdb) by (unfold rolled; by rewrite Hl, Ha).
  assert (Hop : forall n, opened r !! n = opened rdb !! n).
  { intros [|z]; [by rewrite Hroot, Hroot'|]. destruct (decide (LayerDB z ∈ rolled rdb)) as [Hz|Hz].
    - by apply Hsame.
    - destruct (Hout z Hz) as [-> _]. symmetry. apply eq_None_not_Some. rewrite Hnr. by intros [?|?]. }
  assert (Hroll' : rolling_ok r).
  { destruct Hroll as (H1 & H2 & H3). split_and!; rewrite ?Hrl; [done|done|].
    intros n d Hn Hd. rewrite Hop in Hd. destruct (Hsame n Hn) as [_ ->]. by apply H3. }
  exists r. split_and!; [done| |done|done|by intros n Hn; apply Hsame|].
  - split_and!.
    + intros n. rewrite Hop, Ho, !allLayers_rolled, Hrl. done.
    + apply map_eq. intros z. rewrite lookup_empty. destruct (decide (LayerDB z ∈ rolled rdb)) as [Hz|Hz]; [by apply Hst'|].
      destruct (Hout z Hz) as [_ ->]. rewrite Hdisk. apply eq_None_not_Some. rewrite Hnr. by intros [?|?].
    + destruct (RollingEnabled cfg); [by destruct Hen|by right].
  - intros k. unfold view. rewrite !allLayers_rolled, Hrl. apply lookup_in_ext. intros n _. by rewrite Hop.
Qed.

(** A first start without directories. *)
Lemma fresh_ok cfg root disk files :
  layer_names files = [] -> (RollingEnabled cfg = true -> RollingInterval cfg <> 0) -> disk = ∅ ->
  exists rdb', NewRollingDB cfg root disk files = Ok rdb' /\ rdb_ok cfg rdb' /\
    (RollingEnabled cfg = true -> rolling_ok rdb') /\ forall k, view rdb' k = ld_get root k.
Proof.
  intros Hn Hint ->. unfold NewRollingDB, loadLayers. rewrite Hn. cbn.
  destruct (RollingEnabled cfg) eqn:He; cbn.
  - unfold NewDBLayer. cbn. rewrite lookup_singleton_ne by done. rewrite lookup_empty. cbn.
    rewrite (loadTag_ok _ _ ld_new (mkTag 0 []));
      [|by cbn; rewrite lookup_insert_eq|unfold stored_tag; by rewrite ld_get_new].
    cbn. eexists; split; [done|].
    match goal with |- rdb_ok _ ?r /\ _ => set (rdb' := r) end.
    assert (Hroll : rolling_ok rdb').
    { split_and!; [by repeat constructor|by repeat constructor|].
      intros n d Hin%list_elem_of_singleton Hd. subst n. cbn in *. rewrite lookup_insert_eq in Hd. simplify_eq.
      unfold stored_tag. rewrite ld_get_new, lookup_insert_eq. split; [by eexists|done]. }
    split_and!; [|done|].
    + split_and!; [|by cbn; rewrite delete_empty|rewrite He; by split; [|apply Hint]].
      intros n. unfold allLayers. cbn. rewrite !elem_of_cons. destruct n as [|z].
      * rewrite lookup_insert_ne, lookup_singleton_eq by done. split; [naive_solver|by eexists].
      * destruct (decide (z = 1)) as [->|Hz].
        -- rewrite lookup_insert_eq. split; [naive_solver|by eexists].
        -- rewrite lookup_insert_ne, lookup_singleton_ne by congruence. split; [by intros []|].
           intros [?|[?|?%elem_of_nil]]; [congruence|done|done].
    + intros k. unfold view. cbn. rewrite lookup_insert_eq. cbn. rewrite ld_get_new.
      rewrite lookup_insert_ne, lookup_singleton_eq by done. cbn. by destruct (ld_get root k).
  - eexists; split; [done|]. split_and!; [|done|].
    + split_and!; [|done|rewrite He; by left]. intros n. unfold allLayers. cbn. rewrite !elem_of_cons.
      destruct n as [|z].
      * rewrite lookup_singleton_eq. split; [naive_solver|by eexists].
      * rewrite lookup_singleton_ne by done. split; [by intros []|]. intros [?|[?|?%elem_of_nil]]; done.
    + intros k. unfold view. cbn. rewrite lookup_singleton_eq. cbn. by destruct (ld_get root k).
Qed.

End Refinement.

(** ** Sequences of operations *)

Section Operations.
Context {D : Type} `{!LevelDB D} `{!TagCodec} `{!TrieIterator} `{!BlockCrypto} {S : Type} `{!Store S}.
Context (cfg : StorageConfig) (AccountRoot : Bytes -> option Hash).

(** A running database: its state, the open batches of the program, the heights
    for which [Tag] has started a compaction that has not run yet, and the
    compactions that run. *)
Record Running := mkRunning {
  r_db : RollingDB D;
  r_batches : list Batch;
  r_heights : list uint64;
  r_jobs : list Job
}.

(** A step of the program, or of a compaction; [ch] is the chain the compaction
    finds. *)
Inductive Op :=
| OPut (key value : Bytes)
| ODelete (key : Bytes)
| ONewBatch
| OBatchPut (i : nat) (key value : Bytes)
| OBatchDelete (i : nat) (key : Bytes)
| OBatchWrite (i : nat)
| OTag (height : uint64) (stateRoot : Hash)
| OCompact (i : nat) (ch : Chain S)
| OJob (i : nat).

Definition with_db (s : Running) (rdb : RollingDB D) : Running := mkRunning rdb (r_batches s) (r_heights s) (r_jobs s).
Definition with_batches (s : Running) (l : list Batch) : Running := mkRunning (r_db s) l (r_heights s) (r_jobs s).

(** An operation on a batch or compaction that does not exist has no effect. *)
Definition op_step (s : Running) (op : Op) : outcome Running :=
  match op with
  | OPut k v => rdb ← rdb_Put (r_db s) k v; Ok (with_db s rdb)
  | ODelete k => Ok (with_db s (rdb_Delete (r_db s) k))
  | ONewBatch => Ok (with_batches s (r_batches s ++ [rdb_NewBatch (r_db s)]))
  | OBatchPut i k v => Ok (with_batches s (alter (fun b => batch_put b k v) i (r_batches s)))
  | OBatchDelete i k => Ok (with_batches s (alter (fun b => batch_delete b k) i (r_batches s)))
  | OBatchWrite i =>
      match r_batches s !! i with
      | None => Ok s
      | Some b => '(rdb, b) ← rdb_BatchWrite (r_db s) b; Ok (with_batches (with_db s rdb) (<[i := b]> (r_batches s)))
      end
  | OTag height r =>
      '(rdb, heights) ← Tag cfg (r_db s) height r;
      Ok (mkRunning rdb (r_batches s) (r_heights s ++ heights) (r_jobs s))
  | OCompact i ch =>
      match r_heights s !! i with
      | None => Ok s
      | Some height =>
          '(rdb, job) ← compact_start cfg (r_db s) ch height;
          Ok (mkRunning rdb (r_batches s) (delete i (r_heights s)) (r_jobs s ++ option_list job))
      end
  | OJob i =>
      match r_jobs s !! i with
      | None => Ok s
      | Some j =>
          '(rdb, job) ← job_step cfg AccountRoot (r_db s) j;
          Ok (mkRunning rdb (r_batches s) (r_heights s)
                (match job with Some j => <[i := j]> (r_jobs s) | None => delete i (r_jobs s) end))
      end
  end.

Fixpoint op_run (s : Running) (ops : list Op) : outcome Running :=
  match ops with
  | [] => Ok s
  | op :: rest => s ← op_step s op; op_run s rest
  end.

(** The specification: one map, and the open batches with whether no tag was
    set since they were made. *)
Record Spec := mkSpec { sp_map : gmap Bytes Bytes; sp_batches : list (list BatchOp * bool) }.

Definition map_batch (m : gmap Bytes Bytes) (ops : list BatchOp) : gmap Bytes Bytes :=
  foldl (fun m op => match op with BPut k v => <[k := v]> m | BDelete k => delete k m end) m ops.

Definition spec_step (sp : Spec) (op : Op) : Spec :=
  let (m, bs) := sp in
  match op with
  | OPut k v => mkSpec (<[k := v]> m) bs
  | ODelete k => mkSpec (delete k m) bs
  | ONewBatch => mkSpec m (bs ++ [([], true)])
  | OBatchPut i k v => mkSpec m (alter (fun b : list BatchOp * bool => (b.1 ++ [BPut k v], b.2)) i bs)
  | OBatchDelete i k => mkSpec m (alter (fun b : list BatchOp * bool => (b.1 ++ [BDelete k], b.2)) i bs)
  | OBatchWrite i =>
      match bs !! i with
      | Some (ops, fresh) => mkSpec (map_batch m ops) (<[i := ([], fresh)]> bs)
      | None => sp
      end
  | OTag _ _ => mkSpec m ((fun b : list BatchOp * bool => (b.1, false)) <$> bs)
  | OCompact _ _ | OJob _ => sp
  end.

(** What the program may do: it leaves the key of the tags alone, its batches
    only put, and a batch that is written after a tag (its layer may be sealed)
    changes no value that is there, as it is with nodes under their hash. *)
Definition op_ok (sp : Spec) (op : Op) : Prop :=
  match op with
  | OPut k _ | ODelete k | OBatchPut _ k _ => k <> layerTagKey
  | OBatchDelete _ _ => False
  | OBatchWrite i =>
      forall ops, sp_batches sp !! i = Some (ops, false) -> Forall (keeps_value (fun k => sp_map sp !! k)) ops
  | ONewBatch | OTag _ _ | OCompact _ _ | OJob _ => True
  end.

Fixpoint ops_ok (sp : Spec) (ops : list Op) : Prop :=
  match ops with
  | [] => True
  | op :: rest => op_ok sp op /\ ops_ok (spec_step sp op) rest
  end.

Lemma map_batch_lookup ops : forall m k, map_batch m ops !! k = replay ops k (m !! k).
Proof.
  induction ops as [|[key v|key] ops IH]; intros m k; cbn; [done| |]; unfold map_batch in IH; rewrite IH.
  - by rewrite lookup_insert.
  - by rewrite lookup_delete.
Qed.

(** *** The simulation *)

Definition batch_sim (rdb : RollingDB D) (b : Batch) (p : list BatchOp * bool) : Prop :=
  b_ops b = p.1 /\ b_db b ∈ allLayers rdb /\ Forall is_put (b_ops b) /\
  Forall (fun op => op_key op <> layerTagKey) (b_ops b) /\ (p.2 = true -> b_db b = activeLayer rdb).

Definition simulates (s : Running) (sp : Spec) : Prop :=
  rdb_ok cfg (r_db s) /\ represents (r_db s) (sp_map sp) /\ r_jobs s = [] /\
  Forall2 (batch_sim (r_db s)) (r_batches s) (sp_batches sp).

Lemma batch_sim_same rdb rdb' b p :
  layers rdb' = layers rdb -> activeLayer rdb' = activeLayer rdb -> batch_sim rdb b p -> batch_sim rdb' b p.
Proof. intros Hl Ha. unfold batch_sim, allLayers. by rewrite Hl, Ha. Qed.

(** A step that changes the database but not its layers. *)
Lemma simulates_db s sp rdb m :
  simulates s sp -> rdb_ok cfg rdb -> layers rdb = layers (r_db s) -> activeLayer rdb = activeLayer (r_db s) ->
  represents rdb m -> simulates (with_db s rdb) (mkSpec m (sp_batches sp)).
Proof.
  intros (_ & _ & Hj & Hb) Hok Hl Ha Hr. split_and!; [done|done|done|]. cbn.
  eapply Forall2_impl; [exact Hb|]. intros b p. by apply batch_sim_same.
Qed.

Lemma batch_extend s sp i op :
  simulates s sp -> is_put op -> op_key op <> layerTagKey ->
  Forall2 (batch_sim (r_db s))
    (alter (fun b => match op with BPut k v => batch_put b k v | BDelete k => batch_delete b k end) i (r_batches s))
    (alter (fun b : list BatchOp * bool => (b.1 ++ [op], b.2)) i (sp_batches sp)).
Proof.
  intros (_ & _ & _ & Hb) Hp Hk. revert i. induction Hb as [|b p bs ps (Ho & Hin & Hput & Hkey & Hf) Hb IH]; intros [|i]; cbn;
    [constructor|constructor| |constructor; [done|apply IH]].
  constructor; [|done]. destruct op as [k v|]; [|done]. unfold batch_sim. cbn. rewrite Ho in *.
  split_and!; [done|done|apply Forall_app; by rewrite Forall_singleton..|done].
Qed.

Lemma write_sim s sp i :
  simulates s sp -> op_ok sp (OBatchWrite i) ->
  exists s', op_step s (OBatchWrite i) = Ok s' /\ simulates s' (spec_step sp (OBatchWrite i)).
Proof.
  intros Hs Hop. pose proof Hs as (Hok & Hrep & Hj & Hb). destruct sp as [m bs]. cbn in *.
  destruct (r_batches s !! i) as [b|] eqn:Hi.
  - destruct (Forall2_lookup_l _ _ _ _ _ Hb Hi) as ([ops fresh] & Hbs & Ho & Hin & Hput & Hkey & Hf). cbn in Ho, Hf.
    rewrite Hbs. destruct (batch_spec cfg (r_db s) b Hok Hin Hput Hkey) as (r & Hw & Hok' & Hv & Hl & Ha).
    { destruct fresh; [left; by apply Hf|right]. rewrite Ho in *. specialize (Hop _ Hbs).
      clear -Hop Hrep Hkey. induction Hkey as [|[k v|k] ops Hk Hkey IH]; [constructor| |];
        apply Forall_cons in Hop as [Hop1 Hop]; constructor; try (by apply IH); [|done].
      unfold keeps_value in *. by rewrite (Hrep k). }
    rewrite Hw. cbn. eexists; split; [done|].
    assert (Hs' : simulates (with_db s r) (mkSpec (map_batch m ops) bs)).
    { apply (simulates_db s (mkSpec m bs)); [done|done|done|done|]. intros k Hk. by rewrite Hv, Ho, map_batch_lookup, Hrep. }
    destruct Hs' as (Hs1 & Hs2 & Hs3 & Hs4). split_and!; [done|done|done|]. cbn.
    apply Forall2_insert; [done|]. unfold batch_sim. cbn. unfold allLayers. rewrite Hl, Ha. by split_and!.
  - destruct (bs !! i) as [p|] eqn:Hbs; [|by exists s].
    destruct (Forall2_lookup_r _ _ _ _ _ Hb Hbs) as (b & Hb' & _). by rewrite Hi in Hb'.
Qed.

Lemma op_step_ok s sp op :
  StatePruningEnabled cfg = false -> simulates s sp -> op_ok sp op ->
  exists s', op_step s op = Ok s' /\ simulates s' (spec_step sp op).
Proof.
  intros Hprune Hs Hop. pose proof Hs as (Hok & Hrep & Hj & Hb).
  destruct op as [key v|key| |i key v|i key|i|height r|i ch|i]; try (by apply write_sim); destruct sp as [m bs]; cbn in *.
  - destruct (Put_spec cfg (r_db s) key v Hok Hop) as (r' & -> & Hok' & Hv & Hl & Ha). eexists; split; [done|].
    apply (simulates_db s (mkSpec m bs)); [done..|]. intros k Hk. rewrite Hv, lookup_insert. case_decide; [done|by apply Hrep].
  - destruct (Delete_spec cfg (r_db s) key Hok Hop) as (Hok' & Hv & Hl & Ha). eexists; split; [done|].
    apply (simulates_db s (mkSpec m bs)); [done..|]. intros k Hk. rewrite Hv, lookup_delete. case_decide; [done|by apply Hrep].
  - eexists; split; [done|]. split_and!; [done|done|done|]. cbn. apply Forall2_app; [done|]. constructor; [|constructor].
    unfold batch_sim. cbn. split_and!; [done|constructor|constructor|constructor|done].
  - eexists; split; [done|]. split_and!; [done|done|done|]. by apply (batch_extend s (mkSpec m bs) i (BPut key v)).
  - done.
  - destruct (Tag_ok cfg (r_db s) height r Hok) as (r' & sp & -> & Hok' & Hv & _ & Hall). cbn.
    eexists; split; [done|]. split_and!; [done| |done|].
    + intros k Hk. cbn [r_db sp_map]. by rewrite Hv, Hrep.
    + cbn. apply Forall2_fmap_r. eapply Forall2_impl; [exact Hb|]. intros b p (Ho & Hin & Hput & Hkey & _).
      unfold batch_sim. cbn. split_and!; [done|by apply Hall|done|done|done].
  - destruct (r_heights s !! i) as [h|]; [|by exists s]. unfold compact_start. rewrite Hprune. cbn. rewrite Hj.
    eexists; split; [done|]. by split_and!.
  - rewrite Hj. by exists s.
Qed.

Lemma op_run_ok ops : forall s sp,
  StatePruningEnabled cfg = false -> simulates s sp -> ops_ok sp ops ->
  exists s', op_run s ops = Ok s' /\ simulates s' (foldl spec_step sp ops).
Proof.
  induction ops as [|op ops IH]; intros s sp Hprune Hs Hops; cbn; [by exists s|]. destruct Hops as [Hop Hops].
  destruct (op_step_ok s sp op Hprune Hs Hop) as (s1 & -> & Hs1). cbn. by apply IH.
Qed.

End Operations.

(** ** A database to evaluate *)

Definition gmap_put (d : gmap Bytes Bytes) (op : BatchOp) : gmap Bytes Bytes :=
  match op with BPut k v => <[k := v]> d | BDelete k => delete k d end.

Definition demo_level : LevelDB (gmap Bytes Bytes).
Proof.
  refine {| ld_new := ∅; ld_get d k := d !! k; ld_put d k v := <[k := v]> d; ld_delete d k := delete k d;
            ld_has d k := bool_decide (is_Some (d !! k)); ld_write d ops := foldl gmap_put d ops |}; try done.
  - intros d k v k'. apply lookup_insert.
  - intros d k k'. apply lookup_delete.
Defined.

(** A tag as the decimal number of its code. *)
Definition demo_tags : TagCodec.
Proof.
  refine {| tag_encode t := decimal (Zpos (encode (TagHeight t, StateRoots t)));
            tag_decode s := match SetString10 s with
                            | Some (Zpos p) => (fun x : Z * list Z => mkTag (fst x) (snd x)) <$> decode p
                            | _ => None
                            end |}.
  intros [h roots]. rewrite SetString10_decimal. cbn [TagHeight StateRoots]. by rewrite decode_encode.
Defined.

#[local] Existing Instance demo_level.
#[local] Existing Instance demo_tags.

Definition demo_storage : StorageConfig := mkStorageConfig true 100 true 5 4.

Definition demo_fresh : RollingDB (gmap Bytes Bytes) :=
  match NewRollingDB demo_storage ∅ ∅ [("LOCK", false); ("tmp", true)] with
  | Ok rdb => rdb
  | _ => mkRDB ∅ ∅ ∅ [] RootDB false
  end.

(** The same without pruning. *)
Definition demo_unpruned : StorageConfig := mkStorageConfig true 100 false 5 4.

(** Tries whose nodes are named by texts. *)
#[local] Existing Instance demo_crypto.

Definition demo_parts (e : Bytes) : list Visited :=
  if String.eqb e "branch" then [VNode 2; VEmbedded; VLeaf "ls/a/x" "account"]
  else if String.eqb e "node" then [VLeaf "ls/vs" "validators"] else [].

Definition demo_next (get : Bytes -> option Bytes) (it : list Visited) : option (Visited * list Visited) :=
  match it with
  | [] => None
  | VNode h :: t => match get (hash_key h) with Some e => Some (VNode h, demo_parts e ++ t) | None => None end
  | v :: t => Some (v, t)
  end.

Definition demo_open (get : Bytes -> option Bytes) (r : Hash) : option (list Visited) :=
  if decide (r = 0 \/ r = 99) then Some []
  else match get (hash_key r) with Some _ => Some [VNode r] | None => None end.

Definition demo_iterator : TrieIterator.
Proof.
  refine {| NodeIt := list Visited; emptyRoot := 99; trie_open := demo_open; node_next := demo_next;
            node_parts := demo_parts; todo it := it |}.
  - intros e h. unfold demo_parts. repeat case_match; rewrite ?elem_of_cons, ?elem_of_nil; naive_solver.
  - intros get r Hr. exists []. unfold demo_open. by rewrite decide_True.
  - intros get r H0 H1 Hg. unfold demo_open. rewrite decide_False by naive_solver. by rewrite Hg.
  - intros get r b H0 H1 Hg. exists [VNode r]. unfold demo_open. rewrite decide_False by naive_solver. by rewrite Hg.
  - by intros get it ->.
  - intros get it h t -> Hg. cbn. by rewrite Hg.
  - intros get it h t b -> Hg. cbn. rewrite Hg. by eexists.
  - intros get it v t -> Hv. destruct v; [done|by eexists|by eexists].
Defined.
#[local] Existing Instance demo_iterator.

Definition demo_account (v : Bytes) : option Hash := if String.eqb v "account" then Some 3 else None.

(** Two rollings, with a batch, puts and a delete of a sealed key between, a
    batch that is written after its layer was sealed, and a tag that starts a
    compaction. *)
Definition demo_ops : list (Op (S := gmap Key Value)) :=
  [ONewBatch; OBatchPut 0 "a" "1"; OBatchPut 0 "b" "2"; OBatchWrite 0; ONewBatch; OBatchPut 1 "d" "5"; OTag 50 7;
   OPut "a" "3"; ODelete "b"; OBatchWrite 1; OTag 150 8; OPut "c" "4"; OTag 170 9; OCompact 0 no_chain].

Definition demo_start_run : Running (D := gmap Bytes Bytes) := mkRunning demo_fresh [] [] [].

Definition demo_rolled : RollingDB (gmap Bytes Bytes) :=
  match op_run demo_unpruned demo_account demo_start_run demo_ops with Ok s => r_db s | _ => demo_fresh end.

Lemma rolling_fresh_ok : rdb_ok demo_storage demo_fresh /\ represents demo_fresh ∅.
Proof.
  destruct (fresh_ok demo_storage ∅ ∅ [("LOCK", false); ("tmp", true)]) as (r & Hr & Hok & _ & Hv);
    [reflexivity|intros _; discriminate|done|].
  assert (demo_fresh = r) as -> by (unfold demo_fresh; by rewrite Hr).
  split; [done|]. intros k _. by rewrite Hv.
Qed.

Lemma demo_simulates : simulates demo_unpruned demo_start_run (mkSpec ∅ []).
Proof. destruct rolling_fresh_ok as [Hok Hrep]. split_and!; [exact Hok|exact Hrep|done|constructor]. Qed.

Lemma demo_ops_ok : ops_ok (mkSpec ∅ []) demo_ops.
Proof.
  unfold demo_ops. repeat (split; [first [discriminate | exact I | idtac]|]); try exact I. intros ops Hops.
  vm_compute in Hops. injection Hops as <-. constructor; [|constructor]. left. vm_compute. reflexivity.
Qed.

Lemma demo_rolled_ok : rdb_ok demo_storage demo_rolled /\ rolled demo_rolled = [LayerDB 1; LayerDB 2; LayerDB 3].
Proof.
  split; [|vm_compute; reflexivity].
  destruct (op_run_ok demo_unpruned demo_account demo_ops _ _ eq_refl demo_simulates demo_ops_ok) as (r & Hr & Hok & _).
  unfold demo_rolled. by rewrite Hr.
Qed.

(** [Has] denies a key that [Get] finds in a sealed layer. *)
Example has_sealed_key :
  rdb_Get demo_rolled "a" = Ok "3" /\ rdb_Has demo_rolled "a" = Ok false.
Proof. split; vm_compute; reflexivity. Qed.

(** A batch deletes only in the active layer, so the key is still found. *)
Example batch_delete_sealed_key :
  match rdb_BatchWrite demo_rolled (batch_delete (rdb_NewBatch demo_rolled) "a") with
  | Ok (rdb, _) => rdb_Get rdb "a"
  | _ => Err ""
  end = Ok "3".
Proof. vm_compute. reflexivity. Qed.

(** The unsigned difference of a height below the tag of a layer is large: a
    late tag of height 70 would cut off the layer sealed at height 150. *)
Example late_height_wraps :
  find_cut demo_storage demo_rolled 70 (reverse (layers demo_rolled)) = Ok (Some (LayerDB 2, mkTag 150 [8])).
Proof. vm_compute. reflexivity. Qed.

(** ** Main theorems *)

(** C16 (layers as a map). Without pruning, the stack of layers refines one map: from a database
    that represents the map [m], any sequence of puts, deletes, makings, fillings
    and writings of batches, tags (which roll to new layers and start
    compactions) and steps of compactions that the program may do succeeds,
    keeps the invariant, and afterwards [Get] answers for every key what the map
    holds, or that the key is not found.  The program may put and delete any
    key but that of the tags and put into batches; a batch that is written after
    a tag, when its layer may be sealed, must not change a value that is
    there. *)
Theorem rolling_refines {D} `{!LevelDB D} `{!TagCodec} `{!TrieIterator} `{!BlockCrypto} {S} `{!Store S}
    cfg AccountRoot (rdb : RollingDB D) (m : gmap Bytes Bytes) (ops : list (Op (S := S))) :
  StatePruningEnabled cfg = false -> rdb_ok cfg rdb -> represents rdb m -> ops_ok (mkSpec m []) ops ->
  exists s, op_run cfg AccountRoot (mkRunning rdb [] [] []) ops = Ok s /\ rdb_ok cfg (r_db s) /\
    forall k, k <> layerTagKey ->
      rdb_Get (r_db s) k =
      match sp_map (foldl spec_step (mkSpec m []) ops) !! k with Some v => Ok v | None => Err ErrKeyNotFound end.
Proof.
  intros Hprune Hok Hrep Hops.
  destruct (op_run_ok cfg AccountRoot ops (mkRunning rdb [] [] []) (mkSpec m []) Hprune) as (s & Hs & Hok' & Hrep' & _); [|done|].
  { split_and!; [done|done|done|constructor]. }
  exists s. split_and!; [done|done|]. intros k Hk. by rewrite (Get_view cfg), Hrep'.
Qed.

Lemma rolling_refines_witness :
  exists s, op_run demo_unpruned demo_account demo_start_run demo_ops = Ok s /\ length (layers (r_db s)) = 2%nat /\
    rdb_Get (r_db s) "a" = Ok "3" /\ rdb_Get (r_db s) "b" = Err ErrKeyNotFound /\ rdb_Get (r_db s) "d" = Ok "5".
Proof.
  destruct (rolling_refines demo_unpruned demo_account demo_fresh ∅ demo_ops eq_refl (proj1 rolling_fresh_ok)
              (proj2 rolling_fresh_ok) demo_ops_ok) as (r & Hr & _ & Hget).
  exists r. split; [exact Hr|]. split; [|split; [|split]].
  - assert (length (layers demo_rolled) = 2%nat) as Hl by (vm_compute; reflexivity).
    unfold demo_rolled in Hl. change (op_run demo_unpruned demo_account demo_start_run demo_ops = Ok r) in Hr.
    by rewrite Hr in Hl.
  - rewrite Hget by discriminate. vm_compute. reflexivity.
  - rewrite Hget by discriminate. vm_compute. reflexivity.
  - rewrite Hget by discriminate. vm_compute. reflexivity.
Defined.

(** (reloading). A database that is closed and loaded again, in a directory that
    lists the layers in any order among other files, has the same layers, the
    same active layer and the same tags, keeps the invariant, and answers every
    [Get] as before. *)
Theorem rolling_reload {D} `{!LevelDB D} `{!TagCodec} cfg (rdb : RollingDB D) root files junk :
  rdb_ok cfg rdb -> rolling_ok rdb -> opened rdb !! RootDB = Some root ->
  (forall n, n ∈ rolled rdb -> is_int (layer_name n)) ->
  layer_names junk = [] -> files ≡ₚ listing rdb ++ junk ->
  exists rdb', NewRollingDB cfg root (stored (rdb_Close rdb)) files = Ok rdb' /\ rdb_ok cfg rdb' /\
    layers rdb' = layers rdb /\ activeLayer rdb' = activeLayer rdb /\
    (forall n, n ∈ rolled rdb -> tags rdb' !! n = tags rdb !! n) /\
    (forall k, rdb_Get rdb' k = rdb_Get rdb k).
Proof.
  intros Hok Hroll Hroot Hint Hjunk Hfiles.
  destruct (reload_ok cfg rdb root files junk Hok Hroll Hroot Hint Hjunk Hfiles)
    as (r & Hr & Hok' & Hl & Ha & Ht & Hv).
  exists r. split_and!; try done. intros k. rewrite !(Get_view cfg), Hv by done. done.
Qed.

Lemma rolling_reload_witness :
  exists rdb', NewRollingDB demo_storage ∅ (stored (rdb_Close demo_rolled))
      [("2", true); ("LOCK", false); ("3", true); ("1", true)] = Ok rdb' /\
    layers rdb' = [LayerDB 1; LayerDB 2] /\ rdb_Get rdb' "a" = Ok "3".
Proof.
  destruct (rolling_reload demo_storage demo_rolled ∅ [("2", true); ("LOCK", false); ("3", true); ("1", true)]
              [("LOCK", false)]) as (r & Hr & _ & Hl & _ & _ & Hget).
  - apply demo_rolled_ok.
  - destruct (proj1 demo_rolled_ok) as (_ & _ & Hroll). apply Hroll.
  - vm_compute. reflexivity.
  - destruct demo_rolled_ok as [_ ->]. intros n Hn. unfold is_int.
    repeat (apply elem_of_cons in Hn as [->|Hn]; [cbn; lia|]). by apply elem_of_nil in Hn.
  - reflexivity.
  - unfold listing. destruct demo_rolled_ok as [_ ->]. cbn [fmap list_fmap app layer_name].
    change (decimal 1) with "1". change (decimal 2) with "2". change (decimal 3) with "3".
    solve_Permutation.
  - exists r. split; [exact Hr|]. rewrite Hl, Hget. split; vm_compute; reflexivity.
Defined.
