(* ===== verification/RollingCompact.v ===== *)
(** * Compaction of the rolling database

    A compaction runs while the program goes on writing trie nodes and tagging
    states.  The nodes are content addressed: [U] is the map from the hash of
    a node to its encoding, and every database holds a part of it.  The
    compaction keeps every node of the state it copies, of the tries of its
    accounts, and of the layers it does not cut off. *)

From Stdlib Require Import Ascii.
From stdpp Require Import gmap sorting relations.
From stdpp Require Import base list numbers strings.
From S2P Require Import Prelude Vote Validator Block Chain Text RollingDB RollingSpec.
Local Open Scope string_scope.
Local Open Scope list_scope.
Local Open Scope Z_scope.

Section Compact.
Context {D : Type} `{!LevelDB D} `{!TagCodec} `{!TrieIterator} `{!BlockCrypto} {S : Type} `{!Store S}.
Context (cfg : StorageConfig) (AccountRoot : Bytes -> option Hash) (U : gmap Bytes Bytes).
Context (HE : RollingEnabled cfg = true).
Implicit Types (rdb : RollingDB D) (n : DBName) (k : Bytes) (it : NodeIt) (b : Batch).

(** ** The nodes of a trie *)

Inductive meets : list Visited -> Visited -> Prop :=
| meets_here l v : v ∈ l -> meets l v
| meets_in l h e v : VNode h ∈ l -> U !! hash_key h = Some e -> meets (node_parts e) v -> meets l v.

(** The walk of a trie starts at its root node; the empty trie has none. *)
Definition items (r : Hash) : list Visited :=
  if decide (r = 0 \/ r = emptyRoot) then [] else [VNode r].

(** What a node adds to the walk. *)
Definition expand (v : Visited) : list Visited :=
  match v with
  | VNode h => match U !! hash_key h with Some e => node_parts e | None => [] end
  | _ => []
  end.

(** The walk ends. *)
Inductive finite_walk : list Visited -> Prop :=
| walk_nil : finite_walk []
| walk_cons v t : finite_walk (expand v ++ t) -> finite_walk (v :: t).

(** The account tries of the state [r]. *)
Definition account_of (r : Hash) (r' : Hash) : Prop :=
  exists k v, meets (items r) (VLeaf k v) /\ String.prefix account_prefix k = true /\
    AccountRoot v = Some r' /\ r' <> 0.

(** The nodes of the state [r]: those of its trie and of its account tries. *)
Definition needed (r h : Hash) : Prop :=
  meets (items r) (VNode h) \/ exists r', account_of r r' /\ meets (items r') (VNode h).

Lemma meets_app l1 l2 v : meets (l1 ++ l2) v <-> meets l1 v \/ meets l2 v.
Proof.
  split.
  - intros Hm. inversion Hm as [? ? Hv|? h e ? Hv He Hn]; subst; apply elem_of_app in Hv as [Hv|Hv].
    + left. by constructor.
    + right. by constructor.
    + left. by econstructor.
    + right. by econstructor.
  - intros [Hm|Hm]; inversion Hm as [? ? Hv|? h e ? Hv He Hn]; subst.
    + constructor. apply elem_of_app. by left.
    + econstructor; [apply elem_of_app; by left|done|done].
    + constructor. apply elem_of_app. by right.
    + econstructor; [apply elem_of_app; by right|done|done].
Qed.

Lemma meets_nil v : ~ meets [] v.
Proof. intros Hm. inversion Hm; subst; by eapply not_elem_of_nil. Qed.

Lemma meets_expand w t v : meets (w :: t) v <-> v = w \/ meets (expand w ++ t) v.
Proof.
  rewrite meets_app. change (w :: t) with ([w] ++ t). rewrite meets_app. split.
  - intros [Hm|Hm]; [|by auto].
    inversion Hm as [? ? Hv|? h e ? Hv He Hn]; subst; apply list_elem_of_singleton in Hv; subst; [by left|].
    right; left. unfold expand. by rewrite He.
  - intros [->|[Hm|Hm]]; [left|left|by right].
    + constructor. by apply list_elem_of_singleton.
    + destruct w as [h| |]; cbn in Hm; try (by apply meets_nil in Hm).
      destruct (U !! hash_key h) as [e|] eqn:He; [|by apply meets_nil in Hm].
      econstructor; [by apply list_elem_of_singleton|done|done].
Qed.

Lemma meets_hash l h : (forall h', VNode h' ∈ l -> h' <> 0) -> meets l (VNode h) -> h <> 0.
Proof.
  intros Hl Hm. remember (VNode h) as v eqn:Hv. revert Hl.
  induction Hm as [l v Hin|l h' e v Hin He Hm IH]; intros Hl; subst.
  - by apply Hl.
  - apply IH; [done|]. apply node_parts_hash.
Qed.

Lemma items_hash r h : meets (items r) (VNode h) -> h <> 0.
Proof.
  apply meets_hash. intros h'. unfold items. case_decide as Hr; [by intros ?%elem_of_nil|].
  intros [= ->]%list_elem_of_singleton. naive_solver.
Qed.

Lemma hash_key_tag h : hash_key h <> layerTagKey.
Proof.
  intros Heq. assert (Hl : String.length (hash_key h) = 32%nat); [|by rewrite Heq in Hl].
  unfold hash_key, bytes_string. rewrite <- (be_bytes_length 32 h) at 2.
  induction (be_bytes 32 h) as [|x l IH]; cbn in *; [done|]. by rewrite IH.
Qed.

(** ** What steps keep *)

Definition has rdb n k : Prop := exists d, opened rdb !! n = Some d /\ is_Some (ld_get d k).

(** The databases [P] lose no key. *)
Definition keeps (P : DBName -> Prop) rdb rdb' : Prop :=
  forall n k, P n -> k <> layerTagKey -> has rdb n k -> has rdb' n k.

(** Every entry is a node. *)
Definition within rdb : Prop :=
  forall n d k v, opened rdb !! n = Some d -> k <> layerTagKey -> ld_get d k = Some v -> U !! k = Some v.

Definition everywhere (n : DBName) : Prop := True.
Definition above (source n : DBName) : Prop := n = RootDB \/ layer_name source < layer_name n.

Lemma keeps_refl P rdb : keeps P rdb rdb.
Proof. by intros n k. Qed.

Lemma keeps_trans P r1 r2 r3 : keeps P r1 r2 -> keeps P r2 r3 -> keeps P r1 r3.
Proof. intros K12 K23 n k Hn Hk Hh. by apply K23, K12. Qed.

Lemma keeps_weaken (P Q : DBName -> Prop) r1 r2 : (forall n, Q n -> P n) -> keeps P r1 r2 -> keeps Q r1 r2.
Proof. intros Hw Hk n k Hn. by apply Hk, Hw. Qed.

Lemma view_has rdb k : rdb_ok cfg rdb -> is_Some (view rdb k) <-> exists n, has rdb n k.
Proof.
  intros [Ho _]. split.
  - intros [v (n & d & _ & Hd & Hv)%lookup_in_some]. by exists n, d.
  - intros (n & d & Hd & Hs). eapply lookup_in_is_some; [|exact Hd|exact Hs]. apply Ho. by eexists.
Qed.

Lemma view_keeps rdb rdb' k :
  rdb_ok cfg rdb -> rdb_ok cfg rdb' -> keeps everywhere rdb rdb' -> k <> layerTagKey ->
  is_Some (view rdb k) -> is_Some (view rdb' k).
Proof. intros Hok Hok' Hk Hne. rewrite !view_has by done. intros (n & Hn). exists n. by apply Hk. Qed.

Lemma view_within rdb k v : within rdb -> k <> layerTagKey -> view rdb k = Some v -> U !! k = Some v.
Proof. intros Hw Hk (n & d & _ & Hd & Hv)%lookup_in_some. by eapply Hw. Qed.

(** Puts of nodes. *)
Definition op_node (op : BatchOp) : Prop :=
  match op with BPut k v => k <> layerTagKey /\ U !! k = Some v | BDelete _ => False end.

Lemma op_node_put op : op_node op -> is_put op /\ op_key op <> layerTagKey.
Proof. by destruct op; cbn; [intros [? ?]|]. Qed.

Lemma replay_node ops k v : Forall op_node ops -> replay ops k None = Some v -> U !! k = Some v /\ BPut k v ∈ ops.
Proof.
  intros Hf. assert (Hg : forall o, replay ops k o = Some v ->
      o = Some v \/ U !! k = Some v /\ BPut k v ∈ ops).
  { induction Hf as [|[key w|key] ops Hop Hf IH]; intros o Hr; [by left| |done].
    apply IH in Hr as [Hr|[Hr Hin]]; [|right; split; [done|by constructor]].
    case_decide; [|by left]. simplify_eq. right. destruct Hop. split; [done|]. constructor. }
  intros Hr. by destruct (Hg None Hr).
Qed.

Lemma replay_has ops k v : Forall op_node ops -> BPut k v ∈ ops -> is_Some (replay ops k None).
Proof.
  intros Hf Hin. assert (Hs : forall o, BPut k v ∈ ops \/ is_Some o -> is_Some (replay ops k o)); [|apply Hs; by left].
  clear Hin. induction Hf as [|[key w|key] ops Hop Hf IH]; intros o [Hin|Ho]; cbn; try done.
  - by apply elem_of_nil in Hin.
  - apply elem_of_cons in Hin as [[= <- <-]|Hin]; apply IH; [right; by rewrite decide_True|by left].
  - apply IH. right. case_decide; [by eexists|done].
Qed.

(** A batch of nodes written to any open database. *)
Lemma batch_write_ok rdb b :
  rdb_ok cfg rdb -> within rdb -> Forall op_node (b_ops b) -> is_Some (opened rdb !! b_db b) ->
  exists rdb', batch_write rdb b = Ok (rdb', batch_reset b) /\
    rdb_ok cfg rdb' /\ within rdb' /\ keeps everywhere rdb rdb' /\
    layers rdb' = layers rdb /\ activeLayer rdb' = activeLayer rdb /\
    (forall k v, BPut k v ∈ b_ops b -> has rdb' (b_db b) k).
Proof.
  intros Hok Hw Hops [d Hd]. unfold batch_write. rewrite Hd. eexists; split; [done|].
  assert (Hput : Forall is_put (b_ops b)) by (eapply Forall_impl; [exact Hops|]; intros op Hop; by apply op_node_put).
  assert (Hkey : Forall (fun op => op_key op <> layerTagKey) (b_ops b))
    by (eapply Forall_impl; [exact Hops|]; intros op Hop; by apply op_node_put).
  assert (Hget : forall k, ld_get (ld_write d (b_ops b)) k =
                 match replay (b_ops b) k None with Some v => Some v | None => ld_get d k end).
  { intros k. rewrite ld_get_write. by apply replay_puts. }
  split_and!; [| | |done|done|].
  - apply ok_insert with d; [done|done|]. rewrite ld_get_write. by apply replay_other.
  - intros m e k v He Hk Hv. cbn in He. destruct (decide (b_db b = m)) as [<-|Hne].
    + rewrite lookup_insert_eq in He. simplify_eq. rewrite Hget in Hv.
      destruct (replay (b_ops b) k None) eqn:Hr; [|by eapply Hw].
      simplify_eq. by apply replay_node in Hr as [? _].
    + rewrite lookup_insert_ne in He by done. by eapply Hw.
  - intros m k _ Hk (e & He & Hs). unfold has. cbn. destruct (decide (b_db b = m)) as [<-|Hne].
    + rewrite lookup_insert_eq. eexists; split; [done|]. rewrite Hget. case_match; [by eexists|by simplify_eq].
    + rewrite lookup_insert_ne by done. by eexists.
  - intros k v Hin. eexists. cbn. rewrite lookup_insert_eq. split; [done|]. rewrite Hget.
    destruct (replay_has (b_ops b) k v) as [w ->]; [done|done|by eexists].
Qed.

(** ** The program beside the compaction

    It puts nodes, writes batches of nodes (also batches made for a layer that
    has been sealed since) and tags states. *)
Inductive program_step rdb : RollingDB D -> Prop :=
| program_put k v rdb' :
    U !! k = Some v -> k <> layerTagKey -> rdb_Put rdb k v = Ok rdb' -> program_step rdb rdb'
| program_batch b rdb' b' :
    Forall op_node (b_ops b) -> rdb_BatchWrite rdb b = Ok (rdb', b') -> program_step rdb rdb'
| program_tag height r rdb' spawned :
    Tag cfg rdb height r = Ok (rdb', spawned) -> program_step rdb rdb'.

Lemma rolling rdb : rdb_ok cfg rdb -> rolling_ok rdb.
Proof. intros (_ & _ & Hen). rewrite HE in Hen. by destruct Hen. Qed.

(** A tag in a database changes no node. *)
Lemma saveTag_keeps rdb rdb' n t : saveTag rdb n t = Ok rdb' -> within rdb -> within rdb' /\ keeps everywhere rdb rdb'.
Proof.
  unfold saveTag, raw_put. cbn. destruct (opened rdb !! n) as [d|] eqn:Hd; [|done]. intros [= <-] Hw. split.
  - intros m e k v He Hk Hv. cbn in He. destruct (decide (n = m)) as [<-|Hne].
    + rewrite lookup_insert_eq in He. simplify_eq. rewrite ld_get_put, decide_False in Hv by done. by eapply Hw.
    + rewrite lookup_insert_ne in He by done. by eapply Hw.
  - intros m k _ Hk (e & He & Hs). unfold has. cbn. destruct (decide (n = m)) as [<-|Hne].
    + rewrite lookup_insert_eq. eexists; split; [done|]. rewrite ld_get_put, decide_False by done. by simplify_eq.
    + rewrite lookup_insert_ne by done. by eexists.
Qed.

Lemma addTag_keeps rdb rdb' n height r :
  addTag rdb n height r = Ok rdb' -> within rdb -> within rdb' /\ keeps everywhere rdb rdb'.
Proof.
  unfold addTag. destruct (loadTag rdb n) as [[r1 t]| |] eqn:Hl; [|done|done]. cbn. intros Ha Hw.
  assert (Ho : opened r1 = opened rdb) by (unfold loadTag in Hl; repeat case_match; by simplify_eq).
  assert (Hw1 : within r1) by (unfold within; by rewrite Ho).
  assert (Hk1 : keeps everywhere rdb r1) by (unfold keeps, has; by rewrite Ho).
  assert (Hsave : forall t', saveTag r1 n t' = Ok rdb' -> within rdb' /\ keeps everywhere rdb rdb').
  { intros t' Hs. destruct (saveTag_keeps _ _ _ _ Hs Hw1) as [? ?]. split; [done|]. by eapply keeps_trans. }
  destruct (height <? TagHeight t); [by simplify_eq|].
  destruct (height =? TagHeight t); [|by eapply Hsave].
  case_bool_decide; [by simplify_eq|by eapply Hsave].
Qed.

Lemma addLayer_keeps rdb rdb' :
  rdb_ok cfg rdb -> addLayer rdb = Ok rdb' -> within rdb ->
  within rdb' /\ keeps everywhere rdb rdb' /\ rolled rdb' = rolled rdb ++ [activeLayer rdb'].
Proof.
  intros Hok Ha Hw. destruct (addLayer_ok cfg rdb Hok (rolling rdb Hok)) as (r & Hr & _ & Hroll & Hl & Hac & Ho & _).
  rewrite Ha in Hr. simplify_eq.
  assert (Hfresh : opened rdb !! activeLayer r = None).
  { rewrite Hac. destruct (opened rdb !! LayerDB (layer_name (activeLayer rdb) + 1)) eqn:Hf; [|done].
    exfalso. unfold addLayer, NewDBLayer in Ha. cbn in Ha. by rewrite Hf in Ha. }
  split_and!; [| |unfold rolled at 1; by rewrite Hl].
  - intros n d k v Hd Hk Hv. rewrite Ho in Hd. destruct (decide (activeLayer r = n)) as [<-|Hne].
    + rewrite lookup_insert_eq in Hd. simplify_eq. by rewrite ld_get_new in Hv.
    + rewrite lookup_insert_ne in Hd by done. by eapply Hw.
  - intros n k _ Hk (d & Hd & Hs). exists d. rewrite Ho, lookup_insert_ne; [done|]. congruence.
Qed.

Lemma Tag_keeps rdb rdb' height r spawned :
  rdb_ok cfg rdb -> within rdb -> Tag cfg rdb height r = Ok (rdb', spawned) ->
  within rdb' /\ keeps everywhere rdb rdb' /\ exists l, rolled rdb' = rolled rdb ++ l.
Proof.
  intros Hok Hw. unfold Tag. rewrite HE. cbn.
  destruct (addTag_ok cfg rdb height r Hok (rolling rdb Hok)) as (r1 & Hadd & Hok1 & _ & Hr1 & _).
  rewrite Hadd. cbn. destruct (addTag_keeps _ _ _ _ _ Hadd Hw) as [Hw1 Hk1].
  unfold isRollingHeight, isCompactionHeight, height_rem.
  destruct (RollingInterval cfg =? 0); [done|]. cbn.
  destruct (Z.rem (to_int64 height) (RollingInterval cfg) =? 50); cbn.
  - destruct (addLayer r1) as [r2| |] eqn:Hal; [|done|done]. cbn. intros [= <- _].
    destruct (addLayer_keeps r1 r2 Hok1 Hal Hw1) as (Hw2 & Hk2 & Hr2). split_and!; [done| |].
    + by eapply keeps_trans.
    + exists [activeLayer r2]. by rewrite Hr2, Hr1.
  - intros [= <- _]. split_and!; [done|done|]. exists []. by rewrite Hr1, app_nil_r.
Qed.

(** What a step of the program preserves. *)
Definition advances rdb rdb' : Prop :=
  rdb_ok cfg rdb' /\ within rdb' /\ keeps everywhere rdb rdb' /\ exists l, rolled rdb' = rolled rdb ++ l.

Lemma advances_same rdb rdb' :
  rdb_ok cfg rdb' -> within rdb' -> keeps everywhere rdb rdb' ->
  layers rdb' = layers rdb -> activeLayer rdb' = activeLayer rdb -> advances rdb rdb'.
Proof. intros. split_and!; [done..|]. exists []. unfold rolled. rewrite app_nil_r. congruence. Qed.

Lemma program_advances rdb rdb' :
  rdb_ok cfg rdb -> within rdb -> program_step rdb rdb' -> advances rdb rdb'.
Proof.
  intros Hok Hw [k v r Hu Hk Hp|b r b' Hops Hp|height h r sp Hp].
  - set (b := mkBatch (activeLayer rdb) [BPut k v] 0).
    destruct (active_open cfg rdb Hok) as [d Hd].
    unfold rdb_Put, raw_put in Hp. rewrite Hd in Hp. simplify_eq. apply advances_same; [| | |done|done].
    + apply ok_insert with d; [done|done|]. by rewrite ld_get_put, decide_False.
    + intros m e k' v' He Hk' Hv'. cbn in He. destruct (decide (activeLayer rdb = m)) as [<-|Hne].
      * rewrite lookup_insert_eq in He. simplify_eq. rewrite ld_get_put in Hv'.
        case_decide; [by simplify_eq|by eapply Hw].
      * rewrite lookup_insert_ne in He by done. by eapply Hw.
    + intros m k' _ Hk' (e & He & Hs). unfold has. cbn. destruct (decide (activeLayer rdb = m)) as [<-|Hne].
      * rewrite lookup_insert_eq. eexists; split; [done|]. rewrite ld_get_put. case_decide; [by eexists|by simplify_eq].
      * rewrite lookup_insert_ne by done. by eexists.
  - unfold rdb_BatchWrite in Hp.
    assert (Ho : is_Some (opened rdb !! b_db b)).
    { unfold batch_write in Hp. destruct (opened rdb !! b_db b); [by eexists|done]. }
    destruct (batch_write_ok rdb b Hok Hw Hops Ho) as (r' & Hr' & Hok' & Hw' & Hk' & Hl & Ha & _).
    rewrite Hr' in Hp. simplify_eq. by apply advances_same.
  - destruct (Tag_ok cfg rdb height h Hok) as (r' & sp' & Hr' & Hok' & _).
    rewrite Hp in Hr'. simplify_eq. destruct (Tag_keeps _ _ _ _ _ Hok Hw Hp) as (Hw' & Hk' & Hl).
    by split_and!.
Qed.

(** ** Copying a trie *)

(** Every node of the walk can be read. *)
Definition readable rdb (l : list Visited) : Prop :=
  forall h, meets l (VNode h) -> h <> 0 /\ is_Some (view rdb (hash_key h)).

Definition copied rdb b (h : Hash) : Prop :=
  has rdb (b_db b) (hash_key h) \/ exists v, BPut (hash_key h) v ∈ b_ops b.

Lemma next_cases rdb it :
  rdb_ok cfg rdb -> within rdb -> readable rdb (todo it) ->
  (todo it = [] /\ node_next (getter rdb) it = None) \/
  (exists v t it', todo it = v :: t /\ node_next (getter rdb) it = Some (v, it') /\ todo it' = expand v ++ t).
Proof.
  intros Hok Hw Hr. destruct (todo it) as [|v t] eqn:Ht.
  - left. split; [done|]. by apply node_next_end.
  - right. destruct (is_node v) eqn:Hv.
    + destruct v as [h| |]; try done.
      destruct (Hr h) as [_ [e He]]; [rewrite meets_expand; by left|].
      destruct (node_next_node (getter rdb) it h t e Ht) as (it' & Hn & Ht').
      { by rewrite (getter_view cfg). }
      exists (VNode h), t, it'. split_and!; [done|done|]. cbn.
      by rewrite (view_within rdb _ e Hw (hash_key_tag h) He).
    + destruct (node_next_other (getter rdb) it v t Ht Hv) as (it' & Hn & Ht').
      exists v, t, it'. split_and!; [done|done|]. by destruct v.
Qed.

Lemma open_trie_ok rdb r :
  rdb_ok cfg rdb -> readable rdb (items r) -> exists it, open_trie rdb r = Ok it /\ todo it = items r.
Proof.
  intros Hok Hr. unfold open_trie, items in *. case_decide as Hd.
  - destruct (trie_open_empty (getter rdb) r Hd) as (it & -> & Ht). by exists it.
  - destruct (Hr r) as [_ [e He]]; [rewrite meets_expand; by left|].
    destruct (trie_open_node (getter rdb) r e) as (it & -> & Ht); [naive_solver|naive_solver| |by exists it].
    by rewrite (getter_view cfg).
Qed.

(** The batch of a compaction. *)
Definition batch_ok rdb b : Prop := Forall op_node (b_ops b) /\ b_db b ∈ rolled rdb.

Lemma batch_open rdb b : rdb_ok cfg rdb -> batch_ok rdb b -> is_Some (opened rdb !! b_db b).
Proof. intros Hok [_ Hin]. by apply rolled_open with cfg. Qed.

(** What one step of copying does: the databases advance, what was copied stays
    copied. *)
Definition copies rdb b rdb' b' : Prop :=
  advances rdb rdb' /\ batch_ok rdb' b' /\ b_db b' = b_db b /\ forall h, copied rdb b h -> copied rdb' b' h.

Lemma flush_ok rdb b :
  rdb_ok cfg rdb -> within rdb -> batch_ok rdb b ->
  exists rdb', flush rdb b = Ok (rdb', batch_reset b) /\ copies rdb b rdb' (batch_reset b).
Proof.
  intros Hok Hw Hb. destruct (batch_write_ok rdb b Hok Hw (proj1 Hb) (batch_open rdb b Hok Hb))
    as (r & Hr & Hok' & Hw' & Hk' & Hl & Ha & Hin).
  unfold flush. rewrite Hr. exists r. split; [done|]. split_and!; [by apply advances_same| |done|].
  - split; [by constructor|]. unfold rolled. rewrite Hl, Ha. apply Hb.
  - intros h [Hh|[v Hv]]; left; cbn; [apply Hk'; [done|apply hash_key_tag|done]|by eapply Hin].
Qed.

Lemma copies_refl rdb b : rdb_ok cfg rdb -> within rdb -> batch_ok rdb b -> copies rdb b rdb b.
Proof. intros Hok Hw Hb. split_and!; try done. apply advances_same; try done. apply keeps_refl. Qed.

Lemma copy_node_ok rdb b v :
  rdb_ok cfg rdb -> within rdb -> batch_ok rdb b ->
  (forall h, v = VNode h -> h <> 0 /\ is_Some (view rdb (hash_key h))) ->
  exists rdb' b', copy_node cfg rdb b v = Ok (rdb', b') /\ copies rdb b rdb' b' /\
    forall h, v = VNode h -> copied rdb' b' h.
Proof.
  intros Hok Hw Hb Hv. unfold copy_node. destruct (visited_hash v =? 0) eqn:H0v.
  - exists rdb, b. split_and!; [done|by apply copies_refl|].
    intros h ->. destruct (Hv h eq_refl). cbn in H0v. by apply Z.eqb_eq in H0v.
  - destruct v as [h| |]; try done. cbn [visited_hash]. destruct (Hv h eq_refl) as [_ [e He]].
    rewrite (Get_view cfg), He by done.
    set (b1 := batch_put b (hash_key h) e).
    assert (Hb1 : batch_ok rdb b1).
    { split; [|apply Hb]. cbn. apply Forall_app. split; [apply Hb|]. constructor; [|done].
      split; [apply hash_key_tag|]. by eapply view_within; [|apply hash_key_tag|]. }
    assert (Hin : forall h', copied rdb b h' -> copied rdb b1 h').
    { intros h' [Hh|[w Hw']]; [by left|right]. exists w. cbn. apply elem_of_app. by left. }
    assert (Hh : copied rdb b1 h).
    { right. exists e. cbn. apply elem_of_app. right. by apply list_elem_of_singleton. }
    destruct (IdealBatchSize cfg <? b_size b1).
    + destruct (flush_ok rdb b1 Hok Hw Hb1) as (r & -> & Hadv & Hbr & Hdb & Hc). cbn.
      eexists _, _. split; [done|]. split; [split_and!; [done|done|done|]|].
      * intros h' Hh'. by apply Hc, Hin.
      * intros h' [= <-]. by apply Hc.
    + eexists _, _. split; [done|]. split; [|by intros h' [= <-]].
      destruct (copies_refl rdb b1 Hok Hw Hb1) as (Hadv & _). by split_and!.
Qed.

Lemma copy_step_ok rdb b it :
  rdb_ok cfg rdb -> within rdb -> batch_ok rdb b -> readable rdb (todo it) ->
  exists rdb' b' next, copy_step cfg rdb b it = Ok (rdb', b', next) /\ copies rdb b rdb' b' /\
    match next with
    | Some it' => exists v t, todo it = v :: t /\ todo it' = expand v ++ t /\ forall h, v = VNode h -> copied rdb' b' h
    | None => todo it = [] /\ b_ops b' = []
    end.
Proof.
  intros Hok Hw Hb Hr. unfold copy_step.
  destruct (next_cases rdb it Hok Hw Hr) as [[Ht ->]|(v & t & it' & Ht & -> & Ht')].
  - destruct (flush_ok rdb b Hok Hw Hb) as (r & -> & Hc). cbn. by eexists _, _, _.
  - destruct (copy_node_ok rdb b v Hok Hw Hb) as (r & b' & -> & Hc & Hv).
    { intros h ->. apply Hr. rewrite Ht, meets_expand. by left. }
    cbn. eexists _, _, _. split_and!; [done|done|]. by exists v, t.
Qed.

(** ** The invariant of a compaction *)

(** The state can be read and its accounts decode. *)
Definition complete rdb (r : Hash) : Prop :=
  (forall h, needed r h -> is_Some (view rdb (hash_key h))) /\
  (forall k v, meets (items r) (VLeaf k v) -> String.prefix account_prefix k = true -> is_Some (AccountRoot v)).

(** Every node of [l] is copied or still to come in [rest]. *)
Definition covers rdb b (l rest : list Visited) : Prop :=
  forall h, meets l (VNode h) -> copied rdb b h \/ meets rest (VNode h).

(** [rest] is a part of the walk of the trie [r]. *)
Definition part_of (rest : list Visited) (r : Hash) : Prop := forall v, meets rest v -> meets (items r) v.

(** The account tries are copied, but for those that satisfy [open_ r'] and
    those still to come in the traversal. *)
Definition accounts_done rdb b (r : Hash) (rest : list Visited) (open_ : Hash -> Prop) : Prop :=
  forall k v r', meets (items r) (VLeaf k v) -> String.prefix account_prefix k = true ->
    AccountRoot v = Some r' -> r' <> 0 ->
    covers rdb b (items r') [] \/ open_ r' \/ meets rest (VLeaf k v).

Definition pc_ok rdb (r : Hash) b (pc : Pc) : Prop :=
  match pc with
  | CopyTree it => part_of (todo it) r /\ covers rdb b (items r) (todo it)
  | Traverse lit =>
      b_ops b = [] /\ part_of (todo lit) r /\ covers rdb b (items r) [] /\
      accounts_done rdb b r (todo lit) (fun _ => False)
  | CopyStorage it lit =>
      part_of (todo lit) r /\ covers rdb b (items r) [] /\
      exists r0, account_of r r0 /\ part_of (todo it) r0 /\ covers rdb b (items r0) (todo it) /\
        accounts_done rdb b r (todo lit) (fun r' => r' = r0)
  | Cut =>
      b_ops b = [] /\ covers rdb b (items r) [] /\ accounts_done rdb b r [] (fun _ => False)
  end.

Record job_ok rdb (j : Job) : Prop := {
  job_db : rdb_ok cfg rdb /\ within rdb;
  job_batch : batch_ok rdb (j_batch j) /\ b_db (j_batch j) = p_target (j_plan j);
  job_order : layer_name (p_source (j_plan j)) < layer_name (p_target (j_plan j));
  job_complete : complete rdb (p_root (j_plan j));
  job_pc : pc_ok rdb (p_root (j_plan j)) (j_batch j) (j_pc j)
}.

Lemma complete_advances rdb rdb' r : rdb_ok cfg rdb -> advances rdb rdb' -> complete rdb r -> complete rdb' r.
Proof.
  intros Hok (Hok' & _ & Hk & _) [Hn Ha]. split; [|done]. intros h Hh.
  eapply view_keeps; [exact Hok|exact Hok'|exact Hk|apply hash_key_tag|]. by apply Hn.
Qed.

Lemma copied_advances rdb rdb' b h : advances rdb rdb' -> copied rdb b h -> copied rdb' b h.
Proof. intros (_ & _ & Hk & _) [Hh|Hb]; [left|by right]. apply Hk; [done|apply hash_key_tag|done]. Qed.

Lemma batch_advances rdb rdb' b : advances rdb rdb' -> batch_ok rdb b -> batch_ok rdb' b.
Proof. intros (_ & _ & _ & l & Hl) [Hf Hin]. split; [done|]. rewrite Hl. apply elem_of_app. by left. Qed.

Lemma covers_mono rdb b rdb' b' l rest :
  (forall h, copied rdb b h -> copied rdb' b' h) -> covers rdb b l rest -> covers rdb' b' l rest.
Proof. intros Hc Hcov h Hh. destruct (Hcov h Hh); auto. Qed.

Lemma accounts_mono rdb b rdb' b' r rest rest' (P Q : Hash -> Prop) :
  (forall h, copied rdb b h -> copied rdb' b' h) -> accounts_done rdb b r rest P ->
  (forall r', P r' -> covers rdb' b' (items r') [] \/ Q r') ->
  (forall k v r', meets rest (VLeaf k v) -> String.prefix account_prefix k = true -> AccountRoot v = Some r' ->
     r' <> 0 -> Q r' \/ meets rest' (VLeaf k v)) ->
  accounts_done rdb' b' r rest' Q.
Proof.
  intros Hc Hacc HP Hrest k v r' Hm Hp Hr Hne. destruct (Hacc k v r' Hm Hp Hr Hne) as [Hcov|[Ho|Hr']].
  - left. by eapply covers_mono.
  - destruct (HP r' Ho); auto.
  - right. by eapply Hrest.
Qed.

Lemma pc_mono rdb rdb' r b b' pc :
  (forall h, copied rdb b h -> copied rdb' b' h) -> b_ops b' = b_ops b -> pc_ok rdb r b pc -> pc_ok rdb' r b' pc.
Proof.
  intros Hc Hb. destruct pc as [it|lit|it lit|]; cbn.
  - intros [? ?]. split; [done|]. by eapply covers_mono.
  - intros (? & ? & ? & ?). split_and!; [congruence|done|by eapply covers_mono|].
    eapply accounts_mono; [done|done|by intros|by auto].
  - intros (? & ? & r0 & ? & ? & ? & ?). split_and!; [done|by eapply covers_mono|].
    exists r0. split_and!; [done|done|by eapply covers_mono|].
    eapply accounts_mono; [done|done|by auto|by auto].
  - intros (? & ? & ?). split_and!; [congruence|by eapply covers_mono|].
    eapply accounts_mono; [done|done|by intros|by auto].
Qed.

(** The program beside the compaction preserves its invariant. *)
Lemma program_job rdb rdb' j : job_ok rdb j -> program_step rdb rdb' -> job_ok rdb' j /\ advances rdb rdb'.
Proof.
  intros [[Hok Hw] [Hb Hdb] Ho Hc Hpc] Hp.
  assert (Hadv : advances rdb rdb') by (by eapply program_advances).
  split; [|done]. split.
  - destruct Hadv as (? & ? & _). done.
  - split; [by eapply batch_advances|done].
  - done.
  - by eapply complete_advances.
  - eapply pc_mono; [|done|done]. intros h. by apply copied_advances.
Qed.

(** ** Steps of a compaction *)

Lemma readable_part rdb r l : complete rdb r -> part_of l r -> readable rdb l.
Proof.
  intros [Hn _] Hp h Hh%Hp. split; [by eapply items_hash|]. apply Hn. by left.
Qed.

Lemma readable_account rdb r r0 l : complete rdb r -> account_of r r0 -> part_of l r0 -> readable rdb l.
Proof.
  intros [Hn _] Ha Hp h Hh%Hp. split; [by eapply items_hash|]. apply Hn. right. by exists r0.
Qed.

Lemma part_step r it it' v t : part_of (todo it) r -> todo it = v :: t -> todo it' = expand v ++ t -> part_of (todo it') r.
Proof. intros Hp Ht Ht' w Hw. apply Hp. rewrite Ht, meets_expand, <- Ht'. by right. Qed.

Lemma covers_step rdb b rdb' b' l it it' v t :
  covers rdb b l (todo it) -> (forall h, copied rdb b h -> copied rdb' b' h) ->
  todo it = v :: t -> todo it' = expand v ++ t -> (forall h, v = VNode h -> copied rdb' b' h) ->
  covers rdb' b' l (todo it').
Proof.
  intros Hcov Hc Ht Ht' Hv h Hh. destruct (Hcov h Hh) as [Hd|Hm]; [left; by apply Hc|].
  rewrite Ht, meets_expand, <- Ht' in Hm. destruct Hm as [Heq|Hm]; [left; by apply Hv|by right].
Qed.

Lemma part_refl r : part_of (items r) r.
Proof. by intros v. Qed.

(** The job after a step that copied. *)
Lemma job_copies rdb rdb' j b' pc' :
  job_ok rdb j -> copies rdb (j_batch j) rdb' b' -> pc_ok rdb' (p_root (j_plan j)) b' pc' ->
  job_ok rdb' (mkJob (j_plan j) b' pc').
Proof.
  intros [[Hok Hw] [Hb Hdb] Ho Hc Hpc] (Hadv & Hb' & Hdb' & Hcp) Hpc'. split; cbn; [| |done| |done].
  - by destruct Hadv as (? & ? & _).
  - split; [done|congruence].
  - by eapply complete_advances.
Qed.

Lemma copies_self rdb j : job_ok rdb j -> copies rdb (j_batch j) rdb (j_batch j).
Proof. intros [[Hok Hw] [Hb Hdb] _ _ _]. by apply copies_refl. Qed.

Lemma step_tree rdb p b it :
  job_ok rdb (mkJob p b (CopyTree it)) ->
  exists rdb' j', job_step cfg AccountRoot rdb (mkJob p b (CopyTree it)) = Ok (rdb', Some j') /\
    job_ok rdb' j' /\ j_plan j' = p /\ advances rdb rdb' /\
    match j_pc j' with
    | CopyTree it' => exists v t, todo it = v :: t /\ todo it' = expand v ++ t
    | Traverse lit => todo lit = items (p_root p)
    | _ => False
    end.
Proof.
  intros Hj. pose proof Hj as [[Hok Hw] [Hb Hdb] Ho Hc [Hpart Hcov]]. cbn in *.
  destruct (copy_step_ok rdb b it Hok Hw Hb (readable_part _ _ _ Hc Hpart)) as (r & b' & next & Hs & Hcp & Hn).
  unfold job_step. cbn. rewrite Hs. cbn. pose proof Hcp as (Hadv & Hb' & Hdb' & Hcc).
  destruct next as [it'|].
  - destruct Hn as (v & t & Ht & Ht' & Hv). eexists _, _. split; [done|]. split_and!; [|done|done|by exists v, t].
    eapply (job_copies _ _ _ _ _ Hj Hcp). split; [by eapply part_step|by eapply covers_step].
  - destruct Hn as [Ht Hempty].
    assert (Hc' : complete r (p_root p)) by (by eapply complete_advances).
    destruct (open_trie_ok r (p_root p)) as (lit & -> & Hlit); [apply Hadv|by eapply readable_part, part_refl|].
    cbn. eexists _, _. split; [done|]. split_and!; [|done|done|done].
    eapply (job_copies _ _ _ _ _ Hj Hcp). cbn. rewrite Hlit. split_and!; [done|apply part_refl| |].
    + rewrite Ht in Hcov. by eapply covers_mono.
    + intros k v r' Hm _ _ _. auto.
Qed.

Lemma step_storage rdb p b it lit :
  job_ok rdb (mkJob p b (CopyStorage it lit)) ->
  exists rdb' j', job_step cfg AccountRoot rdb (mkJob p b (CopyStorage it lit)) = Ok (rdb', Some j') /\
    job_ok rdb' j' /\ j_plan j' = p /\ advances rdb rdb' /\
    match j_pc j' with
    | CopyStorage it' lit' => lit' = lit /\ exists v t, todo it = v :: t /\ todo it' = expand v ++ t
    | Traverse lit' => lit' = lit
    | _ => False
    end.
Proof.
  intros Hj. pose proof Hj as [[Hok Hw] [Hb Hdb] Ho Hc (Hpart & Hcov & r0 & Hacc & Hp0 & Hc0 & Hdone)]. cbn in *.
  destruct (copy_step_ok rdb b it Hok Hw Hb (readable_account _ _ _ _ Hc Hacc Hp0)) as (r & b' & next & Hs & Hcp & Hn).
  unfold job_step. cbn. rewrite Hs. cbn. pose proof Hcp as (Hadv & Hb' & Hdb' & Hcc).
  destruct next as [it'|].
  - destruct Hn as (v & t & Ht & Ht' & Hv). eexists _, _. split; [done|]. split_and!; [|done|done|split; [done|by exists v, t]].
    eapply (job_copies _ _ _ _ _ Hj Hcp). split_and!; [done|by eapply covers_mono|].
    exists r0. split_and!; [done|by eapply part_step|by eapply covers_step|].
    eapply accounts_mono; [done|done|by auto|by auto].
  - destruct Hn as [Ht Hempty]. eexists _, _. split; [done|]. split_and!; [|done|done|done].
    eapply (job_copies _ _ _ _ _ Hj Hcp). split_and!; [done|done|by eapply covers_mono|].
    eapply accounts_mono; [done|done| |by auto].
    intros r' ->. left. rewrite Ht in Hc0. by eapply covers_mono.
Qed.

Lemma step_traverse rdb p b lit :
  job_ok rdb (mkJob p b (Traverse lit)) ->
  exists j', job_step cfg AccountRoot rdb (mkJob p b (Traverse lit)) = Ok (rdb, Some j') /\
    job_ok rdb j' /\ j_plan j' = p /\
    match j_pc j' with
    | Traverse lit' => exists v t, todo lit = v :: t /\ todo lit' = expand v ++ t
    | CopyStorage it lit' => (exists r0, account_of (p_root p) r0 /\ todo it = items r0) /\
                             exists v t, todo lit = v :: t /\ todo lit' = expand v ++ t
    | Cut => todo lit = []
    | _ => False
    end.
Proof.
  intros Hj. pose proof Hj as [[Hok Hw] [Hb Hdb] Ho Hc (Hempty & Hpart & Hcov & Hdone)]. cbn in *.
  pose proof (copies_self _ _ Hj) as Hcp. cbn in Hcp.
  unfold job_step. cbn. destruct (next_cases rdb lit Hok Hw (readable_part _ _ _ Hc Hpart))
    as [[Ht ->]|(v & t & lit' & Ht & -> & Ht')].
  - eexists. split; [done|]. split_and!; [|done|done].
    eapply (job_copies _ _ _ _ _ Hj Hcp). split_and!; [done|done|]. by rewrite Ht in Hdone.
  - assert (Hpart' : part_of (todo lit') (p_root p)) by (by eapply part_step).
    assert (Hskip : (forall k w r', v = VLeaf k w -> String.prefix account_prefix k = true ->
                       AccountRoot w = Some r' -> r' = 0) ->
              job_ok rdb (mkJob p b (Traverse lit'))).
    { intros Hv. eapply (job_copies _ _ _ _ _ Hj Hcp). split_and!; [done|done|done|].
      eapply accounts_mono; [done|done|by intros|].
      intros k w r' Hm Hp Hr Hne. rewrite Ht, meets_expand, <- Ht' in Hm. destruct Hm as [Heq|Hm]; [|by right].
      exfalso. by eapply Hne, Hv. }
    destruct v as [h| |k w]; try (eexists; split; [done|]; split_and!; [by apply Hskip|done|by eexists _, _]).
    assert (Hin : meets (items (p_root p)) (VLeaf k w)) by (apply Hpart; rewrite Ht, meets_expand; by left).
    destruct (String.prefix account_prefix k) eqn:Hk.
    2: { eexists; split; [done|]. split_and!; [|done|by eexists _, _]. apply Hskip. intros ? ? ? [= <- <-]. congruence. }
    destruct (proj2 Hc k w Hin Hk) as [r' Hr']. rewrite Hr'. destruct (r' =? 0) eqn:H0r.
    { eexists; split; [done|]. split_and!; [|done|by eexists _, _]. apply Hskip. apply Z.eqb_eq in H0r.
      intros ? ? ? [= <- <-] _ Hr2. congruence. }
    apply Z.eqb_neq in H0r. assert (Hacc : account_of (p_root p) r') by (by exists k, w).
    destruct (open_trie_ok rdb r' Hok) as (it & -> & Hit); [by eapply readable_account, part_refl|].
    cbn. eexists; split; [done|]. split_and!; [|done|split; [by exists r'|by eexists _, _]].
    eapply (job_copies _ _ _ _ _ Hj Hcp). split_and!; [done|done|]. exists r'. rewrite Hit.
    split_and!; [done|apply part_refl|intros h Hh; by right|].
    eapply accounts_mono; [done|done|by intros|].
    intros k' w' r2 Hm Hp Hr Hne. rewrite Ht, meets_expand, <- Ht' in Hm. destruct Hm as [[= -> ->]|Hm]; [|by right].
    left. congruence.
Qed.

(** ** The cut *)

Lemma destroy_all ls : forall rdb, stored rdb = ∅ ->
  let rdb' := foldl destroy rdb ls in
  (forall n, opened rdb' !! n = if decide (n ∈ ls) then None else opened rdb !! n) /\
  stored rdb' = ∅ /\ tags rdb' = tags rdb /\ layers rdb' = layers rdb /\ activeLayer rdb' = activeLayer rdb.
Proof.
  induction ls as [|m ls IH]; intros rdb Hst; cbn.
  - by split_and!.
  - destruct (IH (destroy rdb m)) as (Ho & Hs & Ht & Hl & Ha).
    { cbn. rewrite Hst. destruct m; [done|]. by rewrite delete_empty. }
    split_and!; [|done..]. intros n. rewrite Ho. cbn. destruct (decide (m = n)) as [<-|Hne].
    + rewrite lookup_delete_eq. rewrite (decide_True (P := m ∈ m :: ls)) by constructor. by case_decide.
    + rewrite lookup_delete_ne by done. repeat case_decide; rewrite ?elem_of_cons in *; naive_solver.
Qed.

Lemma sorted_filter (P : DBName -> Prop) `{forall n, Decision (P n)} (l : list DBName) :
  StronglySorted Z.lt (layer_name <$> l) -> StronglySorted Z.lt (layer_name <$> filter P l).
Proof.
  induction l as [|n l IH]; intros Hs; [constructor|]. rewrite fmap_cons in Hs.
  inversion Hs as [|? ? Hs' Hx]; subst. rewrite filter_cons. case_decide; [|by apply IH].
  rewrite fmap_cons. constructor; [by apply IH|]. rewrite Forall_forall in *.
  intros z (m & -> & Hm)%list_elem_of_fmap. apply list_elem_of_filter in Hm as [_ Hm].
  apply Hx. by apply list_elem_of_fmap_2.
Qed.

Lemma cut_rolled rdb source :
  rolling_ok rdb -> layer_name source < layer_name (activeLayer rdb) ->
  rolled (cut_layers rdb source) = filter (fun n => ~ layer_name n <= layer_name source) (rolled rdb) /\
  layers (cut_layers rdb source) = filter (fun n => ~ layer_name n <= layer_name source) (layers rdb).
Proof.
  intros Hr Ha. split; [|done].
  assert (Hact : forall ls r, activeLayer (foldl (destroy (D:=D)) r ls) = activeLayer r)
    by (induction ls as [|m ls IH]; intros r; cbn; [done|]; by rewrite IH).
  unfold rolled, cut_layers. cbn. rewrite Hact, filter_app. f_equal.
  rewrite filter_cons, decide_True; [done|lia].
Qed.

Lemma cut_ok rdb source :
  rdb_ok cfg rdb -> within rdb -> layer_name source < layer_name (activeLayer rdb) ->
  let rdb' := set_compactC (cut_layers rdb source) false in
  rdb_ok cfg rdb' /\ within rdb' /\ keeps (above source) rdb rdb' /\
  (forall n, n ∈ layers rdb' <-> n ∈ layers rdb /\ layer_name source < layer_name n).
Proof.
  intros Hok Hw Ha rdb'. pose proof (rolling rdb Hok) as Hr. pose proof Hok as (Ho & Hst & Hen).
  destruct (cut_rolled rdb source Hr Ha) as [Hrolled Hlayers].
  destruct (destroy_all (filter (fun n => layer_name n <= layer_name source) (layers rdb)) rdb Hst)
    as (Hdo & Hds & Hdt & Hdl & Hda).
  assert (Hop : forall n, opened rdb' !! n =
            if decide (n ∈ layers rdb /\ layer_name n <= layer_name source) then None else opened rdb !! n).
  { intros n. unfold rdb', cut_layers. cbn. rewrite Hdo.
    repeat case_decide; rewrite ?list_elem_of_filter in *; naive_solver. }
  assert (Hsub : forall n d, opened rdb' !! n = Some d -> opened rdb !! n = Some d).
  { intros n d. rewrite Hop. by case_decide. }
  assert (Hrl : rolled rdb' = filter (fun n => ~ layer_name n <= layer_name source) (rolled rdb)) by done.
  assert (Hroll' : rolling_ok rdb').
  { destruct Hr as (Hs & Hroot & Ht). split_and!; rewrite ?Hrl.
    - by apply sorted_filter.
    - rewrite Forall_forall in *. intros n [_ Hn]%list_elem_of_filter. by apply Hroot.
    - intros n d [_ Hn]%list_elem_of_filter Hd.
      assert (tags rdb' = tags rdb) as -> by (unfold rdb', cut_layers; cbn; done).
      apply Ht; [done|]. by apply Hsub. }
  split_and!.
  - split_and!; [|unfold rdb', cut_layers; cbn; done|rewrite HE in *; by split; [|apply Hen]].
    intros n. rewrite allLayers_rolled, Hrl, elem_of_app, elem_of_reverse, list_elem_of_filter, list_elem_of_singleton.
    pose proof (Ho n) as Hon. rewrite allLayers_rolled, elem_of_app, elem_of_reverse, list_elem_of_singleton in Hon.
    rewrite Hop. case_decide as Hcut.
    + destruct Hcut as [Hin Hle]. split; [by intros []|]. intros [[Hn _]| ->]; [done|].
      destruct Hr as (_ & Hroot & _). rewrite Forall_forall in Hroot.
      exfalso. apply (Hroot RootDB); [|done]. unfold rolled. apply elem_of_app. by left.
    + rewrite Hon. split; [|naive_solver]. intros [Hn|Hn]; [|by right]. left. split; [|done].
      intros Hle. unfold rolled in Hn. apply elem_of_app in Hn as [Hn|Hn%list_elem_of_singleton]; [naive_solver|].
      subst n. lia.
  - intros n d k v Hd. apply Hw with n. by apply Hsub.
  - intros n k Hab Hk (d & Hd & Hs). exists d. rewrite Hop, decide_False; [done|].
    intros [Hin Hle]. destruct Hab as [->|Hlt]; [|lia].
    destruct Hr as (_ & Hroot & _). rewrite Forall_forall in Hroot.
    apply (Hroot RootDB); [|done]. unfold rolled. apply elem_of_app. by left.
  - intros n. change (layers rdb') with (layers (cut_layers rdb source)).
    rewrite Hlayers, list_elem_of_filter. rewrite <- Z.lt_nge. naive_solver.
Qed.

(** The end of a compaction: the state is there and the old layers are gone. *)
Definition finished (p : Plan) rdb : Prop :=
  rdb_ok cfg rdb /\ within rdb /\
  (forall h, needed (p_root p) h -> is_Some (view rdb (hash_key h))) /\
  (forall n, n ∈ rolled rdb -> layer_name (p_source p) < layer_name n).

Lemma step_cut rdb p b :
  job_ok rdb (mkJob p b Cut) ->
  exists rdb', job_step cfg AccountRoot rdb (mkJob p b Cut) = Ok (rdb', None) /\
    finished p rdb' /\ keeps (above (p_source p)) rdb rdb' /\ compactC rdb' = false.
Proof.
  intros [[Hok Hw] [[Hops Hin] Hdb] Ho Hc (Hempty & Hcov & Hdone)]. cbn in *.
  assert (Ha : layer_name (p_source p) < layer_name (activeLayer rdb)).
  { pose proof (rolled_le rdb _ (rolling rdb Hok) Hin). rewrite Hdb in *. lia. }
  destruct (cut_ok rdb (p_source p) Hok Hw Ha) as (Hok' & Hw' & Hk & Hl).
  eexists; split; [done|]. split_and!; [|done|done]. split_and!; [done|done| |].
  2: { intros n Hn. unfold rolled in Hn. apply elem_of_app in Hn as [Hn|Hn%list_elem_of_singleton].
       - by apply Hl in Hn as [_ ?].
       - subst n. destruct (cut_rolled rdb (p_source p) (rolling rdb Hok) Ha) as [Hr Hll].
         unfold rolled in Hr. rewrite Hll, filter_app, filter_cons, decide_True in Hr by lia.
         apply app_inj_tail in Hr as [_ Hr]. cbn in *. by rewrite Hr. }
  intros h Hh. apply view_has; [done|]. exists (p_target p). apply Hk; [by right|apply hash_key_tag|].
  assert (Hcp : forall l, covers rdb b l [] -> meets l (VNode h) -> has rdb (p_target p) (hash_key h)).
  { intros l Hcl Hm. destruct (Hcl h Hm) as [[Hh'|[v Hv]]|Hm']; [by rewrite <- Hdb| |by apply meets_nil in Hm'].
    rewrite Hempty in Hv. by apply elem_of_nil in Hv. }
  destruct Hh as [Hm|(r' & (k & v & Hm & Hp & Hr & Hne) & Hm')]; [by eapply Hcp|].
  destruct (Hdone k v r' Hm Hp Hr Hne) as [Hcr|[[]|Hnil]]; [by eapply Hcp|by apply meets_nil in Hnil].
Qed.

(** ** A whole compaction *)

Lemma find_cut_in rdb height ls source t : find_cut cfg rdb height ls = Ok (Some (source, t)) -> source ∈ ls.
Proof.
  induction ls as [|n ls IH]; cbn; [done|]. destruct (tags rdb !! n); [|done].
  case_match; [intros [= <- _]; constructor|]. intros Hf%IH. by constructor.
Qed.

Lemma plan_ok rdb (ch : Chain S) height p :
  compact_plan cfg rdb ch height = Ok (Some p) -> p_source p ∈ layers rdb /\ p_target p = activeLayer rdb.
Proof.
  unfold compact_plan. destruct (layers rdb) as [|n ls] eqn:Hl; [done|]. rewrite <- Hl.
  destruct (find_cut cfg rdb height (reverse (layers rdb))) as [[[source t]|]| |] eqn:Hf; cbn; try done.
  destruct (isRollingHeight cfg (TagHeight t)) as [[]| |]; cbn; try done.
  case_match; [|done]. intros [= <-]. cbn. split; [|done]. apply find_cut_in in Hf. by rewrite elem_of_reverse in Hf.
Qed.

Lemma start_ok rdb (ch : Chain S) height rdb1 j :
  rdb_ok cfg rdb -> within rdb -> compact_start cfg rdb ch height = Ok (rdb1, Some j) ->
  complete rdb (p_root (j_plan j)) -> job_ok rdb1 j /\ keeps everywhere rdb rdb1.
Proof.
  intros Hok Hw Hs Hc. unfold compact_start in Hs.
  destruct (StatePruningEnabled cfg); [|done]. destruct (compactC rdb); [done|]. cbn in Hs.
  destruct (compact_plan cfg rdb ch height) as [[p|]| |] eqn:Hp; cbn in Hs; try done.
  destruct (open_trie rdb (p_root p)) as [it| |] eqn:Ho; cbn in Hs; try done. injection Hs as <- <-. cbn in Hc.
  destruct (plan_ok _ _ _ _ Hp) as [Hin Ht].
  destruct (open_trie_ok rdb (p_root p) Hok) as (it' & Ho' & Hit); [by eapply readable_part, part_refl|].
  rewrite Ho in Ho'. injection Ho' as <-. split; [|by intros n k].
  split; cbn; [done| | |done|].
  - split; [|done]. split; [constructor|]. cbn. rewrite Ht. apply active_rolled.
  - rewrite Ht. by apply rolled_lt; [apply rolling|].
  - split; rewrite Hit; [apply part_refl|]. intros h Hh. by right.
Qed.

(** The compaction [j] beside the program. *)
Inductive sys_step : RollingDB D * option Job -> RollingDB D * option Job -> Prop :=
| sys_program rdb rdb' o : program_step rdb rdb' -> sys_step (rdb, o) (rdb', o)
| sys_job rdb j rdb' o : job_step cfg AccountRoot rdb j = Ok (rdb', o) -> sys_step (rdb, Some j) (rdb', o).

Lemma job_progress rdb j :
  job_ok rdb j ->
  exists rdb' o, job_step cfg AccountRoot rdb j = Ok (rdb', o) /\ keeps (above (p_source (j_plan j))) rdb rdb' /\
    match o with
    | Some j' => job_ok rdb' j' /\ j_plan j' = j_plan j
    | None => finished (j_plan j) rdb'
    end.
Proof.
  intros Hj. destruct j as [p b [it|lit|it lit|]].
  - destruct (step_tree rdb p b it Hj) as (r & j' & Hs & Hj' & Hp & (_ & _ & Hk & _) & _).
    exists r, (Some j'). split_and!; [done|by eapply keeps_weaken; [|exact Hk]|done|done].
  - destruct (step_traverse rdb p b lit Hj) as (j' & Hs & Hj' & Hp & _).
    exists rdb, (Some j'). split_and!; [done|apply keeps_refl|done|done].
  - destruct (step_storage rdb p b it lit Hj) as (r & j' & Hs & Hj' & Hp & (_ & _ & Hk & _) & _).
    exists r, (Some j'). split_and!; [done|by eapply keeps_weaken; [|exact Hk]|done|done].
  - destruct (step_cut rdb p b Hj) as (r & Hs & Hf & Hk & _). by exists r, None.
Qed.

Definition sys_inv (p : Plan) rdb0 (s : RollingDB D * option Job) : Prop :=
  keeps (above (p_source p)) rdb0 (fst s) /\
  match snd s with
  | Some j => job_ok (fst s) j /\ j_plan j = p
  | None => finished p (fst s)
  end.

Lemma finished_program p rdb rdb' : finished p rdb -> program_step rdb rdb' -> finished p rdb' /\ advances rdb rdb'.
Proof.
  intros (Hok & Hw & Hn & Hl) Hp. assert (Hadv : advances rdb rdb') by (by eapply program_advances).
  split; [|done]. pose proof Hadv as (Hok' & Hw' & Hk & l & Hr). split_and!; [done|done| |].
  - intros h Hh. eapply view_keeps; [exact Hok|done|done|apply hash_key_tag|by apply Hn].
  - intros n Hin. rewrite Hr in Hin. apply elem_of_app in Hin as [Hin|Hin]; [by apply Hl|].
    destruct (rolling rdb' Hok') as (Hs & _). rewrite Hr, fmap_app in Hs.
    apply StronglySorted_app in Hs as (Hlt & _ & _).
    specialize (Hlt (layer_name (activeLayer rdb)) (layer_name n)).
    specialize (Hl _ (active_rolled rdb)).
    assert (layer_name (activeLayer rdb) < layer_name n); [|lia].
    apply Hlt; apply list_elem_of_fmap_2; [apply active_rolled|done].
Qed.

Lemma sys_step_inv p rdb0 s s' : sys_inv p rdb0 s -> sys_step s s' -> sys_inv p rdb0 s'.
Proof.
  intros [Hk Ho] Hs. destruct Hs as [r r' o Hp|r j r' o Hj]; cbn in *.
  - assert (Hadv : advances r r').
    { destruct o as [j|]; [destruct Ho as [Hj _]; by apply program_job with j|by apply finished_program with p]. }
    split; cbn.
    + eapply keeps_trans; [exact Hk|]. destruct Hadv as (_ & _ & Hk' & _). by eapply keeps_weaken; [|exact Hk'].
    + destruct o as [j|]; [|by eapply finished_program].
      destruct Ho as [Hj ?]. split; [by eapply program_job|done].
  - destruct Ho as [Hok <-]. destruct (job_progress r j Hok) as (r2 & o2 & Hs & Hk' & Hres).
    rewrite Hj in Hs. injection Hs as <- <-. split; cbn; [by eapply keeps_trans|]. by destruct o.
Qed.

Lemma sys_run_inv p rdb0 s s' : sys_inv p rdb0 s -> rtc sys_step s s' -> sys_inv p rdb0 s'.
Proof. intros Hi Hr. induction Hr as [|s1 s2 s3 Hs Hr IH]; [done|]. by eapply IH, sys_step_inv. Qed.

(** *** Termination *)

Definition ends rdb (j : Job) : Prop :=
  exists fuel rdb', job_run cfg AccountRoot fuel rdb j = Some (Ok rdb') /\ finished (j_plan j) rdb'.

Lemma ends_step rdb j rdb' j' :
  job_step cfg AccountRoot rdb j = Ok (rdb', Some j') -> j_plan j' = j_plan j -> ends rdb' j' -> ends rdb j.
Proof.
  intros Hs Hp (fuel & r & Hr & Hf). exists (Datatypes.S fuel), r. cbn. rewrite Hs. by rewrite <- Hp.
Qed.

Lemma ends_cut rdb p b : job_ok rdb (mkJob p b Cut) -> ends rdb (mkJob p b Cut).
Proof.
  intros Hj. destruct (step_cut rdb p b Hj) as (r & Hs & Hf & _).
  exists 1%nat, r. cbn [job_run]. by rewrite Hs.
Qed.

Lemma ends_storage l : finite_walk l -> forall rdb p b it lit,
  todo it = l -> job_ok rdb (mkJob p b (CopyStorage it lit)) ->
  (forall rdb' b', job_ok rdb' (mkJob p b' (Traverse lit)) -> ends rdb' (mkJob p b' (Traverse lit))) ->
  ends rdb (mkJob p b (CopyStorage it lit)).
Proof.
  induction 1 as [|v t Hf IH]; intros rdb p b it lit Hit Hj Htr;
    destruct (step_storage rdb p b it lit Hj) as (r & [p' b' pc'] & Hs & Hj' & Hp & _ & Hpc); cbn in *; subst p';
    (eapply ends_step; [exact Hs|done|]); destruct pc' as [|lit'|it' lit'|]; try done.
  - subst lit'. by apply Htr.
  - destruct Hpc as (_ & v & t & Ht & _). by rewrite Hit in Ht.
  - subst lit'. by apply Htr.
  - destruct Hpc as (-> & v' & t' & Ht & Ht'). rewrite Hit in Ht. injection Ht as <- <-. by eapply IH.
Qed.

(** The tries of the state and of its accounts are finite. *)
Definition finite_state (r : Hash) : Prop :=
  finite_walk (items r) /\ forall r', account_of r r' -> finite_walk (items r').

Lemma ends_traverse l : finite_walk l -> forall rdb p b lit,
  todo lit = l -> finite_state (p_root p) -> job_ok rdb (mkJob p b (Traverse lit)) ->
  ends rdb (mkJob p b (Traverse lit)).
Proof.
  induction 1 as [|v t Hf IH]; intros rdb p b lit Hlit Hfin Hj;
    destruct (step_traverse rdb p b lit Hj) as ([p' b' pc'] & Hs & Hj' & Hp & Hpc); cbn in *; subst p';
    (eapply ends_step; [exact Hs|done|]); destruct pc' as [|lit'|it' lit'|]; try done.
  - destruct Hpc as (v & t & Ht & _). by rewrite Hlit in Ht.
  - destruct Hpc as (_ & v & t & Ht & _). by rewrite Hlit in Ht.
  - by apply ends_cut.
  - destruct Hpc as (v' & t' & Ht & Ht'). rewrite Hlit in Ht. injection Ht as <- <-. by eapply IH.
  - destruct Hpc as ((r0 & Ha & Hit) & v' & t' & Ht & Ht'). rewrite Hlit in Ht. injection Ht as <- <-.
    eapply ends_storage; [by apply Hfin, Ha|done|done|]. intros r' b2 Hj2. by eapply IH.
  - by apply ends_cut.
Qed.

Lemma ends_tree l : finite_walk l -> forall rdb p b it,
  todo it = l -> finite_state (p_root p) -> job_ok rdb (mkJob p b (CopyTree it)) ->
  ends rdb (mkJob p b (CopyTree it)).
Proof.
  induction 1 as [|v t Hf IH]; intros rdb p b it Hit Hfin Hj;
    destruct (step_tree rdb p b it Hj) as (r & [p' b' pc'] & Hs & Hj' & Hp & _ & Hpc); cbn in *; subst p';
    (eapply ends_step; [exact Hs|done|]); destruct pc' as [it'|lit'|it' lit'|]; try done.
  - destruct Hpc as (v & t & Ht & _). by rewrite Hit in Ht.
  - eapply ends_traverse; [exact (proj1 Hfin)|done|done|done].
  - destruct Hpc as (v' & t' & Ht & Ht'). rewrite Hit in Ht. injection Ht as <- <-. by eapply IH.
  - eapply ends_traverse; [exact (proj1 Hfin)|done|done|done].
Qed.

Lemma run_steps fuel : forall rdb j rdb',
  job_run cfg AccountRoot fuel rdb j = Some (Ok rdb') -> rtc sys_step (rdb, Some j) (rdb', None).
Proof.
  induction fuel as [|fuel IH]; intros rdb j rdb' Hr; cbn in Hr; [done|].
  destruct (job_step cfg AccountRoot rdb j) as [[r [j'|]]| |] eqn:Hs; try done.
  - eapply rtc_l; [by apply sys_job|]. by apply IH.
  - injection Hr as <-. eapply rtc_once. by apply sys_job.
Qed.

(** *** What is cut off *)

Lemma find_cut_tag rdb height ls source t :
  find_cut cfg rdb height ls = Ok (Some (source, t)) ->
  tags rdb !! source = Some t /\ u64_add (wrap64 (RetainedBlocks cfg)) 10 < u64_sub height (TagHeight t).
Proof.
  induction ls as [|n ls IH]; cbn; [done|]. destruct (tags rdb !! n) as [t'|] eqn:Ht; [|done].
  case_match eqn:Hc; [|apply IH]. intros [= <- <-]. split; [done|]. by apply Z.ltb_lt in Hc.
Qed.

Lemma find_root_in blocks roots r :
  find_root blocks roots = Some r ->
  r ∈ roots /\ exists eb, eb ∈ blocks /\ IsFinalized (Status eb) = true /\ StateHash (Header (EBlock eb)) = r.
Proof.
  induction blocks as [|eb blocks IH]; cbn; [done|]. destruct (IsFinalized (Status eb)) eqn:Hf.
  - case_bool_decide as Hin; [|done]. intros [= <-]. split; [done|]. exists eb. split; [constructor|done].
  - intros [Hr (eb' & Hin & ?)]%IH. split; [done|]. exists eb'. split; [by constructor|done].
Qed.

(** The tag of the source is that of a clean cut and names the state of a
    finalized block; unless the height is below that of the tag, the layer is
    older than the blocks to retain. *)
Lemma plan_window rdb (ch : Chain S) height p :
  compact_plan cfg rdb ch height = Ok (Some p) -> 0 <= RetainedBlocks cfg < 2 ^ 62 -> is_u64 height ->
  exists t, tags rdb !! p_source p = Some t /\ isRollingHeight cfg (TagHeight t) = Ok true /\
    p_root p ∈ StateRoots t /\
    (exists eb, eb ∈ findBlocksByHeight ch (TagHeight t) /\ IsFinalized (Status eb) = true /\
       StateHash (Header (EBlock eb)) = p_root p) /\
    (0 <= TagHeight t <= height -> TagHeight t + RetainedBlocks cfg + 10 < height).
Proof.
  unfold compact_plan. destruct (layers rdb) as [|n ls] eqn:Hl; [done|]. rewrite <- Hl.
  destruct (find_cut cfg rdb height (reverse (layers rdb))) as [[[source t]|]| |] eqn:Hf; cbn; try done.
  destruct (isRollingHeight cfg (TagHeight t)) as [[]| |] eqn:Hroll; cbn; try done.
  destruct (find_root _ _) as [r|] eqn:Hr; [|done]. intros [= <-] Hret Hh. cbn.
  apply find_cut_tag in Hf as [Ht Hlt]. apply find_root_in in Hr as [Hin Heb].
  exists t. split_and!; try done. intros Hle. unfold is_u64, two64 in Hh. change (2 ^ 62) with 4611686018427387904 in Hret.
  rewrite u64_sub_small in Hlt by (unfold is_u64, two64; lia).
  rewrite wrap64_small in Hlt by (unfold is_u64, two64; lia).
  rewrite u64_add_small in Hlt by (unfold is_u64, two64; lia). lia.
Qed.

End Compact.

(** ** A compaction to evaluate

    A state with a branch, a node and an account with a storage trie, in layer
    1; layer 2 is active when the compaction starts. *)

#[local] Existing Instance demo_level.
#[local] Existing Instance demo_tags.
#[local] Existing Instance demo_crypto.

#[local] Existing Instance demo_iterator.

Definition demo_nodes : gmap Bytes Bytes :=
  {[hash_key 1 := "branch"; hash_key 2 := "node"; hash_key 3 := "storage"; hash_key 4 := "later"]}.

Definition demo_batch : list BatchOp :=
  [BPut (hash_key 1) "branch"; BPut (hash_key 2) "node"; BPut (hash_key 3) "storage"].

Definition demo_before : RollingDB (gmap Bytes Bytes) :=
  match ('(rdb, _) ← rdb_BatchWrite demo_fresh (batch_of demo_batch (rdb_NewBatch demo_fresh)); Tag demo_storage rdb 50 1) with
  | Ok (rdb, _) => rdb
  | _ => demo_fresh
  end.

(** The finalized block of height 50 with the state root 1. *)
Definition demo_final : ExtendedBlock :=
  mkExtendedBlock (mkBlock (mkHeader "tsub" 50 50 0 (mkCC None 0) 0 0 0 1 (Some 0) 0 None 0) []) []
    BlockStatusDirectlyFinalized false.
Definition demo_ledger : Chain (gmap Key Value) :=
  AddBlockByHeightIndex (saveBlock no_chain demo_final) 50 (EBHash demo_final).

Lemma demo_before_ok : rdb_ok demo_storage demo_before /\ within demo_nodes demo_before.
Proof.
  assert (Hb : Forall (op_node demo_nodes) demo_batch).
  { repeat constructor; try apply hash_key_tag; vm_compute; reflexivity. }
  assert (Hw : within demo_nodes demo_fresh).
  { intros n d k v Hd Hk Hv. exfalso. revert Hd Hv.
    assert (opened demo_fresh = {[RootDB := ∅; LayerDB 1 := ∅]}) as -> by (vm_compute; reflexivity).
    intros [[_ <-]|[_ [_ <-]%lookup_singleton_Some]]%lookup_insert_Some; done. }
  assert (Hok : rdb_ok demo_storage demo_fresh) by apply rolling_fresh_ok.
  destruct (batch_of_ops demo_batch (rdb_NewBatch demo_fresh)) as [Hdb Hops].
  destruct (rdb_BatchWrite demo_fresh (batch_of demo_batch (rdb_NewBatch demo_fresh))) as [[r1 b1]| |] eqn:Hw1;
    [|exfalso; revert Hw1; by vm_compute..].
  assert (Hadv : advances demo_storage demo_nodes demo_fresh r1).
  { apply (program_advances demo_storage demo_nodes eq_refl); [exact Hok|exact Hw|]. eapply program_batch; [|exact Hw1].
    rewrite Hops. exact Hb. }
  destruct Hadv as (Hok1 & Hin1 & _).
  destruct (Tag_ok demo_storage r1 50 1 Hok1) as (r2 & sp & Hr2 & Hok2 & _).
  assert (demo_before = r2) as ->.
  { unfold demo_before. rewrite Hw1. cbn [mbind outcome_bind]. by rewrite Hr2. }
  split; [done|].
  eapply (program_advances demo_storage demo_nodes eq_refl r1); [exact Hok1|exact Hin1|]. by eapply program_tag.
Qed.

(** The compaction that starts at height 70. *)
Definition demo_compaction : RollingDB (gmap Bytes Bytes) * Job :=
  match compact_start demo_storage demo_before demo_ledger 70 with
  | Ok (rdb, Some j) => (rdb, j)
  | _ => (demo_before, mkJob (mkPlan RootDB RootDB 0) (raw_newBatch RootDB) Cut)
  end.

Lemma demo_start :
  compact_start demo_storage demo_before demo_ledger 70 = Ok (fst demo_compaction, Some (snd demo_compaction)) /\
  j_plan (snd demo_compaction) = mkPlan (LayerDB 1) (LayerDB 2) 1.
Proof.
  assert (Hp : match compact_start demo_storage demo_before demo_ledger 70 with
               | Ok (_, Some j) => Some (j_plan j) | _ => None end = Some (mkPlan (LayerDB 1) (LayerDB 2) 1))
    by (vm_compute; reflexivity).
  unfold demo_compaction. destruct (compact_start _ _ _ _) as [[r [j|]]| |]; try discriminate Hp.
  injection Hp as Hp. by split.
Qed.

(** The walk of the demo state. *)
Lemma demo_walk v :
  meets demo_nodes (items 1) v -> v ∈ [VNode 1; VNode 2; VLeaf "ls/vs" "validators"; VEmbedded; VLeaf "ls/a/x" "account"].
Proof.
  assert (items 1 = [VNode 1]) as -> by reflexivity.
  rewrite meets_expand. assert (expand demo_nodes (VNode 1) = [VNode 2; VEmbedded; VLeaf "ls/a/x" "account"]) as ->
    by (vm_compute; reflexivity). cbn [app].
  rewrite meets_expand. assert (expand demo_nodes (VNode 2) = [VLeaf "ls/vs" "validators"]) as ->
    by (vm_compute; reflexivity). cbn [app].
  do 3 (rewrite meets_expand; cbn [app expand]). rewrite !elem_of_cons.
  intros Hm. repeat destruct Hm as [->|Hm]; [tauto..|]. by apply meets_nil in Hm.
Qed.

Lemma demo_storage_walk v : meets demo_nodes (items 3) v -> v = VNode 3.
Proof.
  assert (items 3 = [VNode 3]) as -> by reflexivity.
  rewrite meets_expand. assert (expand demo_nodes (VNode 3) = []) as -> by (vm_compute; reflexivity). cbn [app].
  intros [->|Hm]; [done|]. by apply meets_nil in Hm.
Qed.

Lemma demo_accounts r' : account_of demo_account demo_nodes 1 r' -> r' = 3.
Proof.
  intros (k & v & Hm & Hp & Hr & _). unfold demo_account in Hr.
  destruct (String.eqb v "account"); by simplify_eq.
Qed.

Lemma demo_complete : complete demo_account demo_nodes demo_before 1.
Proof.
  assert (Hget : forall h, h = 1 \/ h = 2 \/ h = 3 -> is_Some (view demo_before (hash_key h))).
  { intros h [->|[->| ->]]; vm_compute; by eexists. }
  split.
  - intros h [Hm%demo_walk|(r' & Ha%demo_accounts & Hm)]; apply Hget.
    + rewrite !elem_of_cons, elem_of_nil in Hm. naive_solver.
    + subst r'. apply demo_storage_walk in Hm. injection Hm as ->. auto.
  - intros k v Hm%demo_walk Hp. rewrite !elem_of_cons, elem_of_nil in Hm.
    assert (k = "ls/vs" \/ v = "account") as [->| ->] by naive_solver; [done|by eexists].
Qed.

Lemma demo_finite : finite_state demo_account demo_nodes 1.
Proof.
  split.
  - assert (items 1 = [VNode 1]) as -> by reflexivity. constructor.
    assert (expand demo_nodes (VNode 1) = [VNode 2; VEmbedded; VLeaf "ls/a/x" "account"]) as ->
      by (vm_compute; reflexivity). cbn [app]. constructor.
    assert (expand demo_nodes (VNode 2) = [VLeaf "ls/vs" "validators"]) as -> by (vm_compute; reflexivity).
    cbn [app]. repeat (constructor; cbn [app expand]).
  - intros r' ->%demo_accounts. assert (items 3 = [VNode 3]) as -> by reflexivity. constructor.
    assert (expand demo_nodes (VNode 3) = []) as -> by (vm_compute; reflexivity). constructor.
Qed.

(** The program puts a node and rolls to layer 3 before the compaction takes
    its first step. *)
Definition demo_put : RollingDB (gmap Bytes Bytes) :=
  match rdb_Put (fst demo_compaction) (hash_key 4) "later" with Ok r => r | _ => demo_before end.
Definition demo_tagged : RollingDB (gmap Bytes Bytes) :=
  match Tag demo_storage demo_put 150 5 with Ok (r, _) => r | _ => demo_before end.
Definition demo_after : RollingDB (gmap Bytes Bytes) :=
  match job_run demo_storage demo_account 20 demo_tagged (snd demo_compaction) with
  | Some (Ok r) => r
  | _ => demo_before
  end.

Lemma demo_trace :
  rtc (sys_step demo_storage demo_account demo_nodes) (fst demo_compaction, Some (snd demo_compaction))
      (demo_after, None).
Proof.
  eapply rtc_l.
  { apply sys_program. apply (program_put demo_storage demo_nodes _ (hash_key 4) "later" demo_put);
      [vm_compute; reflexivity|apply hash_key_tag|vm_compute; reflexivity]. }
  eapply rtc_l.
  { apply sys_program. apply (program_tag demo_storage demo_nodes _ 150 5 demo_tagged []). vm_compute; reflexivity. }
  eapply (run_steps demo_storage demo_account demo_nodes 20). vm_compute. reflexivity.
Qed.

(** ** Main theorems *)

(** C15 (compaction under interleaving). A compaction keeps the state it copies, whatever the program does
    beside it.  From a database of content-addressed nodes in which the planned
    state is complete, and for any interleaving of the steps of the compaction
    with puts, batches of nodes and tags of the program: no step of the
    compaction panics; every node of the state trie and of the tries of its
    accounts is still answered by [Get] with its encoding, also after the
    layers are cut off; every entry of the root database and of the layers
    newer than the cut is still there; and when the compaction is over, no
    layer up to the cut is left. *)
Theorem compact_keeps_state {D} `{!LevelDB D} `{!TagCodec} `{!TrieIterator} `{!BlockCrypto} {S} `{!Store S}
    cfg AccountRoot (U : gmap Bytes Bytes) (rdb : RollingDB D) (ch : Chain S) height rdb1 j rdb2 o :
  RollingEnabled cfg = true -> rdb_ok cfg rdb -> within U rdb ->
  compact_start cfg rdb ch height = Ok (rdb1, Some j) ->
  complete AccountRoot U rdb (p_root (j_plan j)) ->
  rtc (sys_step cfg AccountRoot U) (rdb1, Some j) (rdb2, o) ->
  (forall h, needed AccountRoot U (p_root (j_plan j)) h ->
     exists e, rdb_Get rdb2 (hash_key h) = Ok e /\ U !! hash_key h = Some e) /\
  (forall n k, above (p_source (j_plan j)) n -> k <> layerTagKey -> has rdb n k -> is_ok (rdb_Get rdb2 k) = true) /\
  match o with
  | Some j2 => is_ok (job_step cfg AccountRoot rdb2 j2) = true
  | None => forall n, n ∈ rolled rdb2 -> layer_name (p_source (j_plan j)) < layer_name n
  end.
Proof.
  intros HE Hok Hw Hs Hc Hrun.
  destruct (start_ok cfg AccountRoot U HE rdb ch height rdb1 j Hok Hw Hs Hc) as [Hj Hk].
  assert (Hinv : sys_inv cfg AccountRoot U (j_plan j) rdb (rdb1, Some j)).
  { split; [by eapply keeps_weaken; [|exact Hk]|done]. }
  destruct (sys_run_inv cfg AccountRoot U HE (j_plan j) rdb _ _ Hinv Hrun) as [Hk2 Ho].
  cbn in Hk2, Ho.
  assert (Hdb : rdb_ok cfg rdb2 /\ within U rdb2 /\
            forall h, needed AccountRoot U (p_root (j_plan j)) h -> is_Some (view rdb2 (hash_key h))).
  { destruct o as [j2|]; [destruct Ho as [[? _ _ [Hn _] _] Hp]; rewrite Hp in Hn; naive_solver|].
    by destruct Ho as (? & ? & ? & _). }
  destruct Hdb as (Hok2 & Hw2 & Hn2). split_and!.
  - intros h Hh. destruct (Hn2 h Hh) as [e He]. exists e. rewrite (Get_view cfg), He by done. split; [done|].
    by eapply view_within; [|apply hash_key_tag|].
  - intros n k Hab Hne Hh. rewrite (Get_view cfg) by done.
    destruct (proj2 (view_has cfg rdb2 k Hok2)) as [e ->]; [|done]. exists n. by apply Hk2.
  - destruct o as [j2|]; [|apply Ho]. destruct Ho as [Hj2 _].
    by destruct (job_progress cfg AccountRoot U HE rdb2 j2 Hj2) as (r & o' & -> & _).
Qed.

Lemma compact_keeps_state_witness :
  rdb_Get demo_after (hash_key 3) = Ok "storage" /\ rolled demo_after = [LayerDB 2; LayerDB 3].
Proof.
  destruct (compact_keeps_state demo_storage demo_account demo_nodes demo_before demo_ledger 70
              (fst demo_compaction) (snd demo_compaction) demo_after None) as (Hn & _ & _).
  - reflexivity.
  - apply demo_before_ok.
  - apply demo_before_ok.
  - apply demo_start.
  - rewrite (proj2 demo_start). apply demo_complete.
  - apply demo_trace.
  - split; [|vm_compute; reflexivity].
    destruct (Hn 3) as (e & He & Hu).
    + rewrite (proj2 demo_start). right. exists 3. split.
      * exists "ls/a/x", "account". split_and!; [|done|done|done].
        eapply meets_in with (h := 1) (e := "branch"); [constructor|vm_compute; reflexivity|].
        constructor. vm_compute. repeat constructor.
      * constructor. constructor.
    + rewrite He. vm_compute in Hu. congruence.
Defined.

(** (end of a compaction). A compaction that nothing interrupts ends: when the tries of the
    planned state and of its accounts are finite, a bounded number of steps
    leads to a database that holds the whole state and no layer up to the
    cut. *)
Theorem compact_ends {D} `{!LevelDB D} `{!TagCodec} `{!TrieIterator} `{!BlockCrypto} {S} `{!Store S}
    cfg AccountRoot (U : gmap Bytes Bytes) (rdb : RollingDB D) (ch : Chain S) height rdb1 j :
  RollingEnabled cfg = true -> rdb_ok cfg rdb -> within U rdb ->
  compact_start cfg rdb ch height = Ok (rdb1, Some j) ->
  complete AccountRoot U rdb (p_root (j_plan j)) -> finite_state AccountRoot U (p_root (j_plan j)) ->
  exists fuel rdb2, job_run cfg AccountRoot fuel rdb1 j = Some (Ok rdb2) /\
    finished cfg AccountRoot U (j_plan j) rdb2.
Proof.
  intros HE Hok Hw Hs Hc Hfin.
  destruct (start_ok cfg AccountRoot U HE rdb ch height rdb1 j Hok Hw Hs Hc) as [Hj _].
  assert (Htree : exists it, j = mkJob (j_plan j) (j_batch j) (CopyTree it) /\ todo it = items (p_root (j_plan j))).
  { unfold compact_start in Hs. destruct (StatePruningEnabled cfg); [|done]. destruct (compactC rdb); [done|]. cbn in Hs.
    destruct (compact_plan cfg rdb ch height) as [[p|]| |]; cbn in Hs; try done.
    destruct (open_trie rdb (p_root p)) as [it| |] eqn:Ho; cbn in Hs; try done. injection Hs as <- <-. cbn in *.
    exists it. split; [done|].
    destruct (open_trie_ok cfg AccountRoot U rdb (p_root p) Hok) as (it' & Ho' & Hit); [by eapply readable_part, part_refl|].
    rewrite Ho in Ho'. by injection Ho' as <-. }
  destruct Htree as (it & Hje & Hit). rewrite Hje in Hj |- *.
  eapply (ends_tree cfg AccountRoot U HE); [exact (proj1 Hfin)|done|done|done].
Qed.

Lemma compact_ends_witness :
  exists fuel rdb2,
    job_run demo_storage demo_account fuel (fst demo_compaction) (snd demo_compaction) = Some (Ok rdb2) /\
    is_Some (view rdb2 (hash_key 2)).
Proof.
  destruct (compact_ends demo_storage demo_account demo_nodes demo_before demo_ledger 70
              (fst demo_compaction) (snd demo_compaction)) as (fuel & r & Hr & _ & _ & Hn & _).
  - reflexivity.
  - apply demo_before_ok.
  - apply demo_before_ok.
  - apply demo_start.
  - rewrite (proj2 demo_start). apply demo_complete.
  - rewrite (proj2 demo_start). apply demo_finite.
  - exists fuel, r. split; [exact Hr|]. apply Hn. rewrite (proj2 demo_start). left.
    eapply meets_in with (h := 1) (e := "branch"); [constructor|vm_compute; reflexivity|].
    constructor. vm_compute. repeat constructor.
Defined.
