(* ===== verification/Snapshot.v ===== *)
(** * Snapshots (src/core/snapshot.go, src/core/backup.go,
    src/snapshot/snapshot_import.go)

    A snapshot file is a sequence of records, each the RLP encoding of a value
    behind its length: a header, the last checkpoint, the metadata and the
    nodes or entries of the state.  The import reads the records into the
    database, checks the validator sets from the genesis block on, saves the
    tail blocks and may load backups of the blocks before and after the
    snapshot.  The RLP codecs, the proofs of theta/store/trie and the state
    views over a database of trie nodes are parameters; files are byte lists
    and reading does not fail but at their end. *)

From Stdlib Require Import Ascii.
From stdpp Require Import gmap sorting.
From stdpp Require Import base list numbers strings.
From S2P Require Import Prelude Vote Validator Block Chain Text.
Local Open Scope string_scope.
Local Open Scope list_scope.
Local Open Scope Z_scope.

(** ** Data *)

Definition SnapshotHeaderMagic : string := "ThetaToDaMoon".
Definition MainnetChainID : string := "mainnet".
Definition MainnetGenesisBlockHash : string := "0xd8836c6cf3c3ccea0b015b4ed0f9efb0ffe6254db793a515843c9d0f68cbab65".
Definition GenesisBlockHeight : uint64 := 0.

(** The keys of the records that open and close a state view. *)
Definition SVStart : Z := 0.
Definition SVEnd : Z := 1.

Record SnapshotTrieRecord := mkRecord { K : Bytes; V : Bytes }.

Record proofKV := mkProofKV { PKey : Bytes; PVal : Bytes }.
Abbreviation ValidatorSetProof := (list proofKV) (only parsing).

Record SnapshotFirstBlock := mkFirst { FirstHeader : BlockHeader; FirstProof : ValidatorSetProof }.
Record SnapshotSecondBlock := mkSecond { SecondHeader : BlockHeader }.
Record SnapshotThirdBlock := mkThird { ThirdHeader : BlockHeader; ThirdVoteSet : option VoteSet }.
Record SnapshotBlockTrio := mkTrio {
  First : SnapshotFirstBlock;
  Second : SnapshotSecondBlock;
  Third : SnapshotThirdBlock
}.
Record SnapshotHeader := mkSnapshotHeader { Magic : string; Version : Z }.
Record SnapshotMetadata := mkMetadata { ProofTrios : list SnapshotBlockTrio; TailTrio : SnapshotBlockTrio }.
Record LastCheckpoint := mkLastCheckpoint {
  CheckpointHeader : BlockHeader;
  IntermediateHeaders : list BlockHeader
}.
Record BackupBlock := mkBackup { BBlock : ExtendedBlock; BVotes : option VoteSet }.

(** ** Records in a file *)

Definition ErrEOF : string := "EOF".
Definition ErrUnexpectedEOF : string := "unexpected EOF".

(** The largest slice [make] accepts. *)
Definition maxAlloc : Z := 281474976710656.

(** [binary.LittleEndian]. *)
Definition Itobytes (val : uint64) : list Z := reverse (be_bytes 8 val).
Definition Bytestoi (arr : list Z) : outcome uint64 :=
  if Nat.ltb (length arr) 8 then Panic "runtime error: index out of range"
  else Ok (be_value (reverse (take 8 arr))).

Definition writeBytes (raw : list Z) : list Z := Itobytes (wrap64 (len raw)) ++ raw.

(** [io.ReadAtLeast(file, buf, len(buf))]: the bytes and the rest of the file. *)
Definition ReadFull (file : list Z) (n : Z) : outcome (list Z * list Z) :=
  if n =? 0 then Ok ([], file)
  else match file with
       | [] => Err ErrEOF
       | _ => if len file <? n then Err ErrUnexpectedEOF
              else Ok (take (Z.to_nat n) file, drop (Z.to_nat n) file)
       end.

(** The bytes of a record, before they are decoded. *)
Definition read_raw (file : list Z) : outcome (list Z * list Z) :=
  '(sizeBytes, file) ← ReadFull file 8;
  size ← Bytestoi sizeBytes;
  if maxAlloc <? size then Panic "runtime error: makeslice: len out of range"
  else ReadFull file size.

(** [ReadRecord] with the decoder of the object: the object, the size and the
    rest of the file. *)
Definition ReadRecord {A} (decode : list Z -> outcome A) (file : list Z) : outcome (A * Z * list Z) :=
  '(raw, rest) ← read_raw file;
  a ← decode raw;
  Ok (a, len raw, rest).

(** ** Proofs of the validator set *)

Fixpoint VSP_Get (vsp : ValidatorSetProof) (key : Bytes) : outcome Bytes :=
  match vsp with
  | [] => Err "key does not exist"
  | kv :: rest => if String.eqb key (PKey kv) then Ok (PVal kv) else VSP_Get rest key
  end.

(** [Has] answers false with an error for a missing key. *)
Fixpoint VSP_Has (vsp : ValidatorSetProof) (key : Bytes) : bool * option string :=
  match vsp with
  | [] => (false, Some "key does not exist")
  | kv :: rest => if String.eqb key (PKey kv) then (true, None) else VSP_Has rest key
  end.

Fixpoint VSP_Put (vsp : ValidatorSetProof) (key value : Bytes) : ValidatorSetProof :=
  match vsp with
  | [] => [mkProofKV key value]
  | kv :: rest =>
      if String.eqb key (PKey kv) then mkProofKV (PKey kv) value :: rest else kv :: VSP_Put rest key value
  end.

(** ** The state database *)

(** The database of trie nodes and the state views over it: [open_view] is
    [NewStoreView] (nil when the root is missing), [view_save] is [Save], the
    other operations are the methods of a view; [db_put] is the effect of the
    records of a batch on the database. *)
Class StateDB (DB View : Type) := {
  db_put : DB -> Bytes -> Bytes -> DB;
  open_view : DB -> uint64 -> Hash -> option View;
  view_height : View -> uint64;
  view_hash : View -> Hash;
  view_set : View -> Bytes -> Bytes -> View;
  view_save : DB -> View -> DB * Hash;
  view_valset : View -> option ValidatorSet;
  view_heights : View -> option (list uint64);
  open_view_height db h r sv : open_view db h r = Some sv -> view_height sv = h;
  open_view_hash db h r sv : open_view db h r = Some sv -> r <> 0 -> view_hash sv = r;
  view_set_height sv k v : view_height (view_set sv k v) = view_height sv
}.

(** The codecs and libraries: the RLP decoders, [trie.VerifyProof] of the key
    of the validator set, [common.HexToHash], the hexadecimal forms of
    addresses, the decoder of an account, the settings of the genesis hash and
    of the checkpoint interval. *)
Class SnapshotLib := {
  decode_header : list Z -> SnapshotHeader * option string;
  decode_checkpoint : list Z -> outcome LastCheckpoint;
  decode_metadata : list Z -> outcome SnapshotMetadata;
  decode_record : list Z -> outcome SnapshotTrieRecord;
  decode_backup : list Z -> outcome BackupBlock;
  decode_valset : Bytes -> outcome ValidatorSet;
  decode_account_root : Bytes -> outcome Hash;
  VerifyProof : Hash -> ValidatorSetProof -> outcome Bytes;
  HexToHash : string -> Hash;
  Addr_Hex : Address -> string;
  Addr_HexToAddress : string -> Address;
  CfgGenesisHash : string;
  CheckpointInterval : Z
}.

Definition nil_pointer : string := "runtime error: invalid memory address or nil pointer dereference".

Section Checks.
Context `{!BlockCrypto} `{!VoteCrypto} `{!SnapshotLib} {DB View : Type} `{!StateDB DB View}.

(** [h.Hash()] of a header that is not nil. *)
Definition header_hash (h : BlockHeader) : Hash := fst (Hash_ h).

(** ** Validator sets *)

Definition getValidatorSetFromVSProof (stateHash : Hash) (vsp : ValidatorSetProof) : outcome ValidatorSet :=
  serializedVS ← VerifyProof stateHash vsp;
  vs ← decode_valset serializedVS;
  Ok (FilterValidators Addr_Hex Addr_HexToAddress vs).

Definition getValidatorSetFromSV (sv : View) : outcome ValidatorSet :=
  match view_valset sv with
  | None => Panic nil_pointer
  | Some vs => Ok (FilterValidators Addr_Hex Addr_HexToAddress vs)
  end.

(** The loop of [validateVotes] over the votes. *)
Fixpoint validate_each (vs : ValidatorSet) (block : BlockHeader) (votes : list Vote) : outcome unit :=
  match votes with
  | [] => Ok tt
  | vote :: rest =>
      if negb (is_ok (Vote_Validate vote)) then Err "vote is not valid"
      else if negb (Vote.Block vote =? header_hash block) then Err "vote is not for corresponding block"
      else if negb (is_ok (GetValidator vs (ID vote))) then Err "can't find validator for vote"
      else validate_each vs block rest
  end.

(** [validateVotes]; a nil set of validators or of votes is dereferenced. *)
Definition validateVotes (validatorSet : option ValidatorSet) (block : BlockHeader) (voteSet : option VoteSet)
    : outcome unit :=
  match validatorSet, voteSet with
  | Some vs, Some votes =>
      if negb (HasMajority vs (range votes)) then Err "block doesn't have majority votes"
      else validate_each vs block (Votes (range votes))
  | _, _ => Panic nil_pointer
  end.

Definition checkGenesisBlock (block : BlockHeader) (db : DB) : outcome ValidatorSet :=
  if negb (BHeight block =? GenesisBlockHeight) then Err "Invalid genesis block height" else
  let expectedGenesisHash :=
    if String.eqb (ChainID block) MainnetChainID then MainnetGenesisBlockHash else CfgGenesisHash in
  if negb (header_hash block =? HexToHash expectedGenesisHash) then Err "Genesis block hash mismatch" else
  match open_view db (BHeight block) (StateHash block) with
  | None => Panic nil_pointer
  | Some gsv => getValidatorSetFromSV gsv
  end.

(** The check of a trio after the first. *)
Definition checkTrio (provenValSet : option ValidatorSet) (t : SnapshotBlockTrio) : outcome ValidatorSet :=
  let first := FirstHeader (First t) in
  let second := SecondHeader (Second t) in
  let third := ThirdHeader (Third t) in
  if negb ((Parent second =? header_hash first) && (Parent third =? header_hash second))
  then Err "block trio has invalid Parent link"
  else if negb ((CCBlockHash (HCC second) =? header_hash first) && (CCBlockHash (HCC third) =? header_hash second))
  then Err "block trio has invalid HCC link"
  else
    _ ← validateVotes provenValSet second (CCVotes (HCC third));
    getValidatorSetFromVSProof (StateHash first) (FirstProof (First t)).

(** [checkProofTrios] from the trio of index [idx] on. *)
Fixpoint check_trios (idx : nat) (provenValSet : option ValidatorSet) (db : DB) (trios : list SnapshotBlockTrio)
    : outcome (option ValidatorSet) :=
  match trios with
  | [] => Ok provenValSet
  | t :: rest =>
      vs ← (match idx with
            | O => checkGenesisBlock (SecondHeader (Second t)) db
            | _ => checkTrio provenValSet t
            end);
      check_trios (Datatypes.S idx) (Some vs) db rest
  end.

Definition checkProofTrios (proofTrios : list SnapshotBlockTrio) (db : DB) : outcome (option ValidatorSet) :=
  check_trios 0 None db proofTrios.

(** [checkTailTrio]: the error of [validateVotes] is dropped, its panic is
    not. *)
Definition checkTailTrio (sv : View) (db : DB) (provenValSet : option ValidatorSet) (tail : SnapshotBlockTrio)
    : outcome unit :=
  let second := SecondHeader (Second tail) in
  if BHeight second =? GenesisBlockHeight then
    _ ← checkGenesisBlock second db; Ok tt
  else
    match validateVotes provenValSet (ThirdHeader (Third tail)) (ThirdVoteSet (Third tail)) with
    | Panic e => Panic e
    | _ =>
        retrievedValSet ← getValidatorSetFromSV sv;
        match provenValSet with
        | None => Panic nil_pointer
        | Some vs =>
            if ValidatorSet_Equals vs retrievedValSet then Ok tt
            else Err "The latest proven and retrieved validator set does not match"
        end
    end.

(** [checkSnapshot]; [sv] is nil when the state could not be opened. *)
Definition checkSnapshot (sv : option View) (metadata : SnapshotMetadata) (db : DB) : outcome unit :=
  match sv with
  | None => Panic nil_pointer
  | Some sv =>
      let tailTrio := TailTrio metadata in
      let secondBlock := SecondHeader (Second tailTrio) in
      if negb (view_hash sv =? StateHash secondBlock) then Err "StateHash not matching" else
      provenValSet ← (if BHeight secondBlock =? GenesisBlockHeight then Ok None
                      else checkProofTrios (ProofTrios metadata) db);
      checkTailTrio sv db provenValSet tailTrio
  end.

(** [checkSnapshotV4]: the validator set is that of the first block of the
    tail itself. *)
Definition checkSnapshotV4 (sv : option View) (metadata : SnapshotMetadata) (db : DB) : outcome unit :=
  match sv with
  | None => Panic nil_pointer
  | Some sv =>
      let tailTrio := TailTrio metadata in
      let secondBlock := SecondHeader (Second tailTrio) in
      if negb (view_hash sv =? StateHash secondBlock) then Err "StateHash not matching" else
      match getValidatorSetFromVSProof (StateHash (FirstHeader (First tailTrio))) (FirstProof (First tailTrio)) with
      | Ok valSet => checkTailTrio sv db (Some valSet) tailTrio
      | Err _ => Err "Failed to retrieve validator set from VS proof"
      | Panic e => Panic e
      end
  end.

End Checks.
