(* ===== verification/SnapshotImport.v ===== *)
(** * Import of snapshots and of chain backups
    (src/snapshot/snapshot_import.go)

    [loadSnapshot] reads a snapshot file, [loadPrevChain] and
    [loadChainSegment] the backups of the blocks before it,
    [LoadChainCorrection] those after it.  The state threads the database of
    the trie nodes, the block store and the saved proof trios.  A failed import
    is reported by its error only: what it had already written stays in the
    database but is not described. *)

From Stdlib Require Import Ascii.
From stdpp Require Import gmap sorting.
From stdpp Require Import base list numbers strings.
From S2P Require Import Prelude Vote Validator Block Chain Text Snapshot.
Local Open Scope string_scope.
Local Open Scope list_scope.
Local Open Scope Z_scope.

(** ** Reading a file to its end *)

(** The loop of the loaders: a record is read and handled until the end of the
    file.  Every record takes at least eight bytes, so the length of the file
    bounds the number of records. *)
Fixpoint fold_all {A St} (decode : list Z -> outcome A) (step : St -> A -> outcome St) (fuel : nat)
    (st : St) (file : list Z) : outcome St :=
  match fuel with
  | O => Err "out of fuel"
  | Datatypes.S fuel =>
      match ReadRecord decode file with
      | Ok (a, _, rest) => st ← step st a; fold_all decode step fuel st rest
      | Err e => if String.eqb e ErrEOF then Ok st else Err e
      | Panic e => Panic e
      end
  end.

Definition fold_records {A St} (decode : list Z -> outcome A) (step : St -> A -> outcome St) (st : St)
    (file : list Z) : outcome St :=
  fold_all decode step (Datatypes.S (length file)) st file.

(** ** Boundaries in the names of backups *)

Definition is_decimal (s : string) : bool :=
  negb (String.eqb s "") && all_chars is_digit s.

(** The value of [strconv.ParseUint(s, 10, 64)], whose error is ignored: zero
    for a malformed number, the largest value for one out of range. *)
Definition ParseUint (s : string) : uint64 :=
  if is_decimal s then
    match SetString10 s with
    | Some z => if z <? two64 then z else two64 - 1
    | None => 0
    end
  else 0.

(** The text before and after the first dash. *)
Fixpoint cut_dash (s : string) : option (string * string) :=
  match s with
  | EmptyString => None
  | String c rest =>
      if Ascii.eqb c "-" then Some ("", rest)
      else match cut_dash rest with Some (a, b) => Some (String c a, b) | None => None end
  end.

Definition slice_panic : string := "runtime error: slice bounds out of range".

Definition getChainBoundary (filename : string) : outcome (uint64 * uint64) :=
  rest ← string_from filename 12;
  match cut_dash rest with
  | None => Panic slice_panic
  | Some (startStr, rest) =>
      match cut_dash rest with
      | None => Panic slice_panic
      | Some (endStr, _) => Ok (ParseUint startStr, ParseUint endStr)
      end
  end.

(** Files with their boundaries, by decreasing start. *)
Definition start_desc (f g : uint64 * uint64 * list Z) : Prop := fst (fst g) <= fst (fst f).
#[export] Instance start_desc_dec : RelDecision start_desc.
Proof. intros f g. apply Z.le_dec. Defined.

(** ** Execution of corrected blocks *)

(** [ResetState] and [ApplyBlockTxsForChainCorrection] of the ledger, an error
    of their result being an error; the ledger panics on a block whose parent
    is not in its chain, and does not add blocks to it. *)
Class CorrectionLedger (L : Type) := {
  ledger_reset : L -> Block -> outcome L;
  ledger_apply : L -> Block -> outcome (Hash * L);
  ledger_knows : L -> Hash -> bool;
  ledger_apply_missing l b : ledger_knows l (Parent (Header b)) = false -> is_panic (ledger_apply l b) = true;
  ledger_reset_knows l b l' h : ledger_reset l b = Ok l' -> ledger_knows l' h = ledger_knows l h;
  ledger_apply_knows l b x l' h : ledger_apply l b = Ok (x, l') -> ledger_knows l' h = ledger_knows l h
}.

Section Loaders.
Context `{!BlockCrypto} `{!VoteCrypto} `{!SnapshotLib} {DB View : Type} `{!StateDB DB View}.
Context {S : Type} `{!Store S} {L : Type} `{!CorrectionLedger L}.
Context (CalcEthTxHash : ExtendedBlock -> Bytes -> outcome Hash).
Implicit Types (ch : Chain S) (db : DB).

(** [kvstore.Put(hash, block)]. *)
Definition put_block ch (h : Hash) (eb : ExtendedBlock) : Chain S :=
  with_store ch (Put (store ch) (KBlock h) (VBlock (stored eb))).

Definition put_if_missing ch (h : Hash) (eb : ExtendedBlock) : Chain S :=
  match findBlock ch h with
  | Some _ => ch
  | None => put_block ch h eb
  end.

Definition block_of (h : BlockHeader) : Block := mkBlock h [].

(** ** The last checkpoint *)

Definition save_checkpoint ch (cp : LastCheckpoint) : Chain S :=
  let ckb := mkExtendedBlock (block_of (CheckpointHeader cp)) [] BlockStatusTrusted false in
  let ch := put_if_missing ch (header_hash (CheckpointHeader cp)) ckb in
  foldl (fun ch h => put_if_missing ch (header_hash h) (mkExtendedBlock (block_of h) [] BlockStatusPending false))
    ch (IntermediateHeaders cp).

(** The loop of [checkLastCheckpoint]. *)
Fixpoint checkpoint_loop ch (target : Hash) (fuel : nat) (h : Hash) : outcome bool :=
  match fuel with
  | O => Ok false
  | Datatypes.S fuel =>
      if h =? target then Ok true
      else match findBlock ch h with
           | None => Err "Failed to find block when verifying the last checkpoint"
           | Some b => checkpoint_loop ch target fuel (EBParent b)
           end
  end.

Definition checkLastCheckpoint ch (snapshotBlockHeader : BlockHeader) (cp : LastCheckpoint) : outcome unit :=
  isDescendent ← checkpoint_loop ch (header_hash (CheckpointHeader cp)) (Z.to_nat CheckpointInterval)
                   (header_hash snapshotBlockHeader);
  if negb isDescendent then Err "Snapshot block is not a descendant of the last checkpoint" else Ok tt.

(** ** The tail blocks *)

(** [hl.Contains(height)] of a list that may be nil. *)
Definition hl_contains (hl : option (list uint64)) (height : uint64) : outcome bool :=
  match hl with
  | None => Panic nil_pointer
  | Some l => Ok (bool_decide (height ∈ l))
  end.

Definition saveTailBlocks ch (metadata : SnapshotMetadata) (sv : View) : outcome (Chain S * BlockHeader) :=
  let first := FirstHeader (First (TailTrio metadata)) in
  let second := SecondHeader (Second (TailTrio metadata)) in
  let hl := view_heights sv in
  ch ← (if BHeight second =? GenesisBlockHeight then Ok ch
        else
          updates ← hl_contains hl (BHeight first);
          Ok (put_if_missing ch (header_hash first)
                (mkExtendedBlock (block_of first) [header_hash second] BlockStatusTrusted updates)));
  updates ← hl_contains hl (BHeight second);
  Ok (put_if_missing ch (header_hash second)
        (mkExtendedBlock (block_of second) [] BlockStatusTrusted updates), second).

(** ** Loading the state *)

(** [loadStateV3]: the records are nodes of the tries. *)
Definition loadStateV3 db (file : list Z) : outcome DB :=
  fold_records decode_record (fun db r => Ok (db_put db (K r) (V r))) db file.

(** [loadStateV2]: a stack of views, the last one on top. *)
Record LoadV2 := mkLoadV2 {
  v2_db : DB;
  v2_stack : list (option View);
  v2_sv : option View;
  v2_hash : Hash;
  v2_account : option Hash
}.

Definition peek (s : list (option View)) : option View := match s with v :: _ => v | [] => None end.

Definition value_height (v : Bytes) : outcome uint64 := Bytestoi (string_bytes v).

Definition v2_start (st : LoadV2) (r : SnapshotTrieRecord) : outcome LoadV2 :=
  height ← value_height (V r);
  Ok (mkLoadV2 (v2_db st) (open_view (v2_db st) height 0 :: v2_stack st) (v2_sv st) (v2_hash st) (v2_account st)).

Definition v2_end (st : LoadV2) (r : SnapshotTrieRecord) : outcome LoadV2 :=
  match peek (v2_stack st) with
  | None => Err "Missing storeview to handle"
  | Some sv =>
      let stack := tail (v2_stack st) in
      height ← value_height (V r);
      if negb (height =? view_height sv) then Err "Storeview start and end heights don't match" else
      let '(db, hash) := view_save (v2_db st) sv in
      let st' := mkLoadV2 db stack (Some sv) hash None in
      match peek stack with
      | Some outer =>
          if height =? view_height outer then
            match v2_account st with
            | None => Panic nil_pointer
            | Some root => if root =? hash then Ok st' else Err "Account storage root doesn't match"
            end
          else Ok st'
      | None => Ok st'
      end
  end.

Definition v2_entry (st : LoadV2) (r : SnapshotTrieRecord) : outcome LoadV2 :=
  match peek (v2_stack st) with
  | None => Err "Missing storeview to handle"
  | Some sv =>
      let stack := Some (view_set sv (K r) (V r)) :: tail (v2_stack st) in
      account ← (match v2_account st with
                 | Some a => Ok (Some a)
                 | None =>
                     if String.prefix "ls/a" (K r) then
                       match decode_account_root (V r) with
                       | Ok root => Ok (if root =? 0 then None else Some root)
                       | Err _ => Err "Failed to parse account"
                       | Panic e => Panic e
                       end
                     else Ok None
                 end);
      Ok (mkLoadV2 (v2_db st) stack (v2_sv st) (v2_hash st) account)
  end.

Definition v2_step (st : LoadV2) (r : SnapshotTrieRecord) : outcome LoadV2 :=
  if String.eqb (K r) (bytes_string [SVStart]) then v2_start st r
  else if String.eqb (K r) (bytes_string [SVEnd]) then v2_end st r
  else v2_entry st r.

Definition loadStateV2 db (file : list Z) : outcome (DB * option View) :=
  st ← fold_records decode_record v2_step (mkLoadV2 db [] None 0 None) file;
  match peek (v2_stack st) with
  | Some _ => Err "Still some storeview unhandled"
  | None => Ok (v2_db st, v2_sv st)
  end.

(** ** A snapshot *)

Record SnapState := mkSnap { s_db : DB; s_chain : Chain S; s_trios : gmap uint64 SnapshotBlockTrio }.

(** The header: version 1 when the first record is not one. *)
Definition read_header (file : list Z) : outcome (SnapshotHeader * Z * list Z) :=
  match read_raw file with
  | Ok (raw, rest) =>
      match decode_header raw with
      | (h, None) =>
          if String.eqb (Magic h) SnapshotHeaderMagic then Ok (h, Version h, rest) else Ok (h, 1, file)
      | (h, Some _) => Ok (h, 1, file)
      end
  | Err _ => Ok (mkSnapshotHeader "" 0, 1, file)
  | Panic e => Panic e
  end.

Definition read_checkpoint (version : Z) ch (file : list Z) : outcome (option LastCheckpoint * Chain S * list Z) :=
  if 2 <=? version then
    '(cp, _, rest) ← ReadRecord decode_checkpoint file;
    Ok (Some cp, save_checkpoint ch cp, rest)
  else Ok (None, ch, file).

Definition load_state (h : SnapshotHeader) (metadata : SnapshotMetadata) db (file : list Z)
    : outcome (DB * option View) :=
  if 3 <=? Version h then
    db ← loadStateV3 db file;
    let lfb := SecondHeader (Second (TailTrio metadata)) in
    Ok (db, open_view db (BHeight lfb) (StateHash lfb))
  else loadStateV2 db file.

(** The header of the snapshot block, nil after an error. *)
Definition LoadSnapshotCheckpointHeader (file : list Z) : outcome (option BlockHeader) :=
  match '(raw, rest) ← read_raw file;
        _ ← (match decode_header raw with (_, Some e) => Err e | (_, None) => Ok tt end);
        '(_, _, rest) ← ReadRecord decode_checkpoint rest;
        '(metadata, _, _) ← ReadRecord decode_metadata rest;
        Ok (SecondHeader (Second (TailTrio metadata)))
  with
  | Ok h => Ok (Some h)
  | Err _ => Ok None
  | Panic e => Panic e
  end.

Definition loadSnapshot (file : list Z) (st : SnapState) : outcome (SnapState * BlockHeader * SnapshotMetadata) :=
  '(h, version, file) ← read_header file;
  '(cp, ch, file) ← read_checkpoint version (s_chain st) file;
  '(metadata, _, file) ← ReadRecord decode_metadata file;
  '(db, sv) ← load_state h metadata (s_db st) file;
  _ ← (if 4 <=? version then checkSnapshotV4 sv metadata db else checkSnapshot sv metadata db);
  let trios := foldl (fun m t => <[BHeight (FirstHeader (First t)) := t]> m) (s_trios st) (ProofTrios metadata) in
  match sv with
  | None => Panic nil_pointer
  | Some view =>
      '(ch, second) ← saveTailBlocks ch metadata view;
      _ ← (match cp with Some cp => checkLastCheckpoint ch second cp | None => Ok tt end);
      match view_valset view with
      | None => Panic nil_pointer
      | Some _ => Ok (mkSnap db ch trios, second, metadata)
      end
  end.

(** ** Backups of the blocks before the snapshot *)

(** The choice of the proof trio of a block: the last one whose change is in
    force, or the first one; [prev] is the trio dropped last. *)
Fixpoint drop_trios (trios : list SnapshotBlockTrio) (height : uint64) (prev : option SnapshotBlockTrio)
    : outcome (list SnapshotBlockTrio * SnapshotBlockTrio * option SnapshotBlockTrio) :=
  match trios with
  | [] => Panic "runtime error: index out of range [-1]"
  | [t] => Ok ([t], t, prev)
  | t :: rest =>
      if u64_add (BHeight (FirstHeader (First t))) 2 <=? height then Ok (trios, t, prev)
      else drop_trios rest height (Some t)
  end.

(** The state of [loadChainSegment]: [seg_trios] are the proof trios of the
    metadata from the last to the first. *)
Record Segment := mkSegment {
  seg_chain : Chain S;
  seg_trios : list SnapshotBlockTrio;
  seg_prevTrio : option SnapshotBlockTrio;
  seg_prev : option ExtendedBlock;
  seg_count : uint64
}.

(** The validator set that must have voted for a block. *)
Definition segment_valset (validate : option string) db (seg : Segment) (eb : ExtendedBlock)
    : outcome (ValidatorSet * list SnapshotBlockTrio * option SnapshotBlockTrio) :=
  let height := EBHeight eb in
  if height =? GenesisBlockHeight then
    vs ← checkGenesisBlock (Header (EBlock eb)) db; Ok (vs, seg_trios seg, seg_prevTrio seg)
  else
    _ ← (match validate with
         | Some chainID => match Block_Validate (EBlock eb) chainID with
                           | Err _ => Err "Block's header is invalid" | r => r end
         | None => Ok tt
         end);
    '(trios, t, prev) ← drop_trios (seg_trios seg) height (seg_prevTrio seg);
    let first := FirstHeader (First t) in
    match (if BHeight first =? GenesisBlockHeight then checkGenesisBlock (SecondHeader (Second t)) db
           else getValidatorSetFromVSProof (StateHash first) (FirstProof (First t))) with
    | Ok vs => Ok (vs, trios, prev)
    | Err _ => Err "Failed to retrieve validator set from VS proof"
    | Panic e => Panic e
    end.

(** The links of a block to the snapshot and to the block above it. *)
Definition segment_link db (snapshot : BlockHeader) (prev : option ExtendedBlock) (eb : ExtendedBlock) : outcome unit :=
  if EBHeight eb =? BHeight snapshot then
    if negb (EBHash eb =? header_hash snapshot)
    then Err "Chain loading reached snapshot block, but block hash doesn't match" else Ok tt
  else match prev with
       | None => Panic nil_pointer
       | Some above =>
           if negb (EBHeight eb =? u64_sub (EBHeight above) 1) then Err "Block height missing"
           else if negb (EBParent above =? EBHash eb) then Err "Block has invalid parent"
           else if EBHeight eb =? GenesisBlockHeight
                then _ ← checkGenesisBlock (Header (EBlock eb)) db; Ok tt
                else Ok tt
       end.

Definition index_block ch (eb : ExtendedBlock) : Chain S :=
  AddTxsToIndex CalcEthTxHash (AddBlockByHeightIndex ch (EBHeight eb) (EBHash eb)) eb true.

(** The block is stored, or its transactions are added to what the snapshot
    had stored of it. *)
Definition segment_store (chainID : string) ch (snapshot : BlockHeader) (prevTrio : option SnapshotBlockTrio)
    (eb : ExtendedBlock) : outcome (Chain S) :=
  let height := EBHeight eb in
  if negb (String.eqb (ChainID (Header (EBlock eb))) chainID) then Err "ChainID mismatch" else
  match findBlock ch (EBHash eb) with
  | None => Ok (index_block (put_block ch (EBHash eb) eb) eb)
  | Some existing =>
      known ← (if (height =? GenesisBlockHeight + 1) || (height =? BHeight snapshot) ||
                  (height =? u64_sub (BHeight snapshot) 1) then Ok true
               else match prevTrio with
                    | None => Panic nil_pointer
                    | Some t => Ok (height =? BHeight (FirstHeader (First t)))
                    end);
      if known : bool then
        let merged := mkExtendedBlock (mkBlock (Header (EBlock existing)) (Txs (EBlock eb)))
                        (Children existing) (Status existing) true in
        Ok (index_block (put_block ch (EBHash eb) merged) eb)
      else Ok ch
  end.

Definition segment_step (chainID : option string) db (snapshot : BlockHeader) (end_ : uint64)
    (seg : Segment) (b : BackupBlock) : outcome Segment :=
  let eb := BBlock b in
  if (seg_count seg =? 0) && negb (EBHeight eb =? end_) then Err "Last block height doesn't match"
  else if BHeight snapshot <? EBHeight eb
  then Ok (mkSegment (seg_chain seg) (seg_trios seg) (seg_prevTrio seg) (seg_prev seg) (u64_add (seg_count seg) 1))
  else
    '(vs, trios, prevTrio) ← segment_valset chainID db seg eb;
    _ ← validateVotes (Some vs) (Header (EBlock eb)) (BVotes b);
    _ ← segment_link db snapshot (seg_prev seg) eb;
    ch ← (match chainID with
          | Some chainID => segment_store chainID (seg_chain seg) snapshot prevTrio eb
          | None => Ok (seg_chain seg)
          end);
    Ok (mkSegment ch trios prevTrio (Some eb) (u64_add (seg_count seg) 1)).

(** [loadChainSegment]; [chainID] is [None] when the chain is nil.  The blocks
    come from the file, from the highest to the lowest. *)
Definition loadChainSegment (chainID : option string) db (snapshot : BlockHeader) (start end_ : uint64)
    (ch : Chain S) (trios : list SnapshotBlockTrio) (prev : option ExtendedBlock) (file : list Z)
    : outcome (Chain S * list SnapshotBlockTrio * ExtendedBlock) :=
  seg ← fold_records decode_backup (segment_step chainID db snapshot end_) (mkSegment ch trios None prev 0) file;
  match seg_prev seg with
  | None => Err "Empty chain file"
  | Some eb =>
      if negb (EBHeight eb =? start) then Err "Chain file has another first block height"
      else if negb (seg_count seg =? u64_add (u64_sub end_ start) 1) then Err "Another number of blocks"
      else Ok (seg_chain seg, seg_trios seg, eb)
  end.

(** The loop of [loadPrevChain] over the files, from the highest start on. *)
Fixpoint prev_chain_run (chainID : option string) db (snapshot : BlockHeader)
    (files : list (uint64 * uint64 * list Z)) (blockEnd : uint64)
    (ch : Chain S) (trios : list SnapshotBlockTrio) (prev : option ExtendedBlock)
    : outcome (Chain S * option ExtendedBlock) :=
  match files with
  | [] => Ok (ch, prev)
  | (start, end_, file) :: rest =>
      if BHeight snapshot <? start then prev_chain_run chainID db snapshot rest blockEnd ch trios prev
      else if (end_ <? BHeight snapshot) && negb (end_ =? blockEnd) then Err "Missing chain file"
      else
        '(ch, trios, eb) ← loadChainSegment chainID db snapshot start end_ ch trios prev file;
        prev_chain_run chainID db snapshot rest (u64_sub start 1) ch trios (Some eb)
  end.

Fixpoint boundaries (files : list (string * list Z)) : outcome (list (uint64 * uint64 * list Z)) :=
  match files with
  | [] => Ok []
  | (name, content) :: rest =>
      '(start, end_) ← getChainBoundary name;
      l ← boundaries rest;
      Ok ((start, end_, content) :: l)
  end.

(** [loadPrevChain]; [dir] is [None] when there is no directory. *)
Definition loadPrevChain (chainID : option string) db (snapshot : BlockHeader) (metadata : SnapshotMetadata)
    (dir : option (list (string * list Z))) ch : outcome (Chain S) :=
  match dir with
  | None => Ok ch
  | Some files =>
      bs ← boundaries files;
      let sorted := merge_sort start_desc bs in
      '(ch, prev) ← prev_chain_run chainID db snapshot sorted 0 ch (reverse (ProofTrios metadata)) None;
      match last sorted with
      | None => Panic "runtime error: index out of range [-1]"
      | Some (start, _, _) =>
          match prev with
          | None => Panic nil_pointer
          | Some eb => if negb (EBHeight eb =? start) then Err "Chain loading started at another height" else Ok ch
          end
      end
  end.

(** ** Corrections of the blocks after the snapshot *)

Definition correction_link (snapshot : BlockHeader) (prev : option ExtendedBlock) (eb : ExtendedBlock) : outcome unit :=
  if EBHeight eb <=? BHeight snapshot then Err "Block height must be > than snapshot height" else
  match prev with
  | None => Ok tt
  | Some above =>
      if negb (EBHeight eb =? u64_sub (EBHeight above) 1) then Err "Block height"
      else if negb (EBParent above =? EBHash eb) then Err "Block has invalid parent"
      else Ok tt
  end.

Definition correction_store (chainID : string) ch (eb : ExtendedBlock) : outcome (Chain S) :=
  if negb (String.eqb (ChainID (Header (EBlock eb))) chainID) then Err "ChainID mismatch" else
  let merged :=
    match findBlock ch (EBHash eb) with
    | None => mkExtendedBlock (EBlock eb) (Children eb) BlockStatusTrusted (HasValidatorUpdate eb)
    | Some existing => mkExtendedBlock (mkBlock (Header (EBlock existing)) (Txs (EBlock eb)))
                         (Children existing) BlockStatusTrusted (HasValidatorUpdate existing)
    end in
  Ok (index_block (put_block ch (EBHash eb) merged) eb).

(** The loop over the backups: the chain, the block read last, and the stack
    of the blocks, the last one on top. *)
Record Correction := mkCorrection {
  cor_chain : Chain S;
  cor_prev : option ExtendedBlock;
  cor_stack : list ExtendedBlock
}.

Definition correction_step (chainID : option string) (snapshot : BlockHeader) (c : Correction) (b : BackupBlock)
    : outcome Correction :=
  let eb := BBlock b in
  _ ← correction_link snapshot (cor_prev c) eb;
  ch ← (match chainID with Some chainID => correction_store chainID (cor_chain c) eb | None => Ok (cor_chain c) end);
  Ok (mkCorrection ch (Some eb) (eb :: cor_stack c)).

Fixpoint correction_replay ch (ledger : L) (stack : list ExtendedBlock) : outcome L :=
  match stack with
  | [] => Ok ledger
  | eb :: rest =>
      match findBlock ch (EBParent eb) with
      | None => Panic nil_pointer
      | Some parent =>
          ledger ← ledger_reset ledger (EBlock parent);
          '(_, ledger) ← ledger_apply ledger (EBlock eb);
          correction_replay ch ledger rest
      end
  end.

(** [LoadChainCorrection]: the chain, the ledger, the lowest and the highest
    block. *)
Definition LoadChainCorrection (chainID : option string) (snapshot : BlockHeader) ch (ledger : option L) (file : list Z)
    : outcome (Chain S * option L * ExtendedBlock * ExtendedBlock) :=
  c ← fold_records decode_backup (correction_step chainID snapshot) (mkCorrection ch None []) file;
  match cor_prev c, last (cor_stack c) with
  | Some headBlock, Some tailBlock =>
      if negb (EBHeight headBlock =? u64_add (BHeight snapshot) 1) then Err "Chain's head block height" else
      ledger ← (match ledger with
                | Some l => l ← correction_replay (cor_chain c) l (cor_stack c); Ok (Some l)
                | None => Ok None
                end);
      Ok (cor_chain c, ledger, headBlock, tailBlock)
  | _, _ => Panic nil_pointer
  end.

(** ** The import *)

(** The children of the snapshot block, which [saveTailBlocks] has stored, are
    the corrected head. *)
Definition attach_correction ch (snapshot : BlockHeader) (head : ExtendedBlock) : Chain S :=
  match findBlock ch (header_hash snapshot) with
  | Some eb => put_block ch (header_hash snapshot)
                 (mkExtendedBlock (EBlock eb) [EBHash head] (Status eb) (HasValidatorUpdate eb))
  | None => ch
  end.

(** [ImportSnapshot], and [ValidateSnapshot] with no chain and no ledger on an
    empty database. *)
Definition import (chainID : option string) (file : list Z) (dir : option (list (string * list Z)))
    (correction : option (list Z)) (st : SnapState) (ledger : option L)
    : outcome (SnapState * BlockHeader * option L * option ExtendedBlock) :=
  '(st, header, metadata) ← loadSnapshot file st;
  ch ← loadPrevChain chainID (s_db st) header metadata dir (s_chain st);
  match correction with
  | None => Ok (mkSnap (s_db st) ch (s_trios st), header, ledger, None)
  | Some file =>
      '(ch, ledger, head, tail) ← LoadChainCorrection chainID header ch ledger file;
      Ok (mkSnap (s_db st) (attach_correction ch header head) (s_trios st), header, ledger, Some tail)
  end.

Definition ImportSnapshot (chainID : string) file dir correction st (ledger : L) :=
  import (Some chainID) file dir correction st (Some ledger).
Definition ValidateSnapshot file dir correction st := import None file dir correction st None.

End Loaders.
