(* ===== verification/SnapshotSpec.v ===== *)
(** * Correctness of the snapshot import

    What the checks establish: the records of a file are read back as they
    were written; the proof trios form a chain of validator sets from the
    genesis block, each certified by the one before; the records of the
    backups are blocks that are linked by their hashes to the snapshot block and
    certified, and exactly these are stored in the chain; the snapshot block descends from the last checkpoint.  And what they do not:
    votes of one validator in several epochs are counted several times. *)

From Stdlib Require Import Ascii.
From stdpp Require Import gmap sorting.
From stdpp Require Import base list numbers strings.
From S2P Require Import Prelude Vote Validator Block Chain Text Snapshot SnapshotImport.
Local Open Scope string_scope.
Local Open Scope list_scope.
Local Open Scope Z_scope.

(** ** Records *)

Lemma Itobytes_length v : length (Itobytes v) = 8%nat.
Proof. unfold Itobytes. by rewrite length_reverse, be_bytes_length. Qed.

Lemma Bytestoi_Itobytes v rest : is_u64 v -> Bytestoi (Itobytes v ++ rest) = Ok v.
Proof.
  intros Hv. unfold Bytestoi. rewrite length_app, Itobytes_length. cbn [Nat.ltb Nat.leb Nat.add].
  rewrite (take_app_length' (Itobytes v)) by (by rewrite Itobytes_length).
  unfold Itobytes. rewrite reverse_involutive, be_value_bytes. f_equal. apply Z.mod_small.
  unfold is_u64, two64 in Hv. change (256 ^ Z.of_nat 8) with 18446744073709551616. lia.
Qed.

Lemma ReadFull_app l rest n : n = len l -> ReadFull (l ++ rest) n = Ok (l, rest).
Proof.
  intros ->. unfold ReadFull, len. destruct l as [|x l]; [done|].
  rewrite (proj2 (Z.eqb_neq _ 0)) by (cbn; lia). cbn [app].
  change (x :: l ++ rest) with ((x :: l) ++ rest).
  rewrite (proj2 (Z.ltb_ge _ _)) by (rewrite length_app; lia).
  rewrite Nat2Z.id, take_app_length, drop_app_length. done.
Qed.

Lemma len_range (l : list Z) : 0 <= len l <= maxAlloc -> is_u64 (len l).
Proof. unfold maxAlloc, is_u64, two64. lia. Qed.

Lemma read_raw_write (raw rest : list Z) : len raw <= maxAlloc -> read_raw (writeBytes raw ++ rest) = Ok (raw, rest).
Proof.
  intros Hl. pose proof (len_nonneg raw) as Hpos.
  unfold read_raw, writeBytes. rewrite <- app_assoc, wrap64_small by (by apply len_range).
  rewrite (ReadFull_app (Itobytes (len raw))) by (unfold len; by rewrite Itobytes_length).
  cbn [mbind outcome_bind]. rewrite <- (app_nil_r (Itobytes _)), Bytestoi_Itobytes by (by apply len_range).
  cbn [mbind outcome_bind]. rewrite (proj2 (Z.ltb_ge _ _)) by done. by apply ReadFull_app.
Qed.

Lemma ReadRecord_write {A} (decode : list Z -> outcome A) raw rest a :
  len raw <= maxAlloc -> decode raw = Ok a -> ReadRecord decode (writeBytes raw ++ rest) = Ok (a, len raw, rest).
Proof. intros Hl Hd. unfold ReadRecord. rewrite read_raw_write by done. cbn. by rewrite Hd. Qed.

(** The steps on a list. *)
Fixpoint run_list {A St} (step : St -> A -> outcome St) (st : St) (l : list A) : outcome St :=
  match l with
  | [] => Ok st
  | a :: rest => st ← step st a; run_list step st rest
  end.

Lemma run_list_app {A St} (step : St -> A -> outcome St) l1 l2 st :
  run_list step st (l1 ++ l2) = (st ← run_list step st l1; run_list step st l2).
Proof. revert st. induction l1 as [|a l1 IH]; intros st; cbn; [done|]. destruct (step st a); cbn; [apply IH|done|done]. Qed.

(** A file of records, the last one possibly cut off right after its length. *)
Definition ends_file (tail : list Z) : Prop := tail = [] \/ exists n, is_u64 n /\ 0 < n <= maxAlloc /\ tail = Itobytes n.

Lemma read_end {A} (decode : list Z -> outcome A) tail : ends_file tail -> ReadRecord decode tail = Err ErrEOF.
Proof.
  intros [->|(n & Hu & Hn & ->)]; [done|].
  unfold ReadRecord, read_raw. rewrite <- (app_nil_r (Itobytes n)).
  rewrite (ReadFull_app (Itobytes n)) by (unfold len; by rewrite Itobytes_length). cbn [mbind outcome_bind].
  rewrite <- (app_nil_r (Itobytes n)), Bytestoi_Itobytes by done. cbn [mbind outcome_bind].
  rewrite (proj2 (Z.ltb_ge _ _)) by lia. unfold ReadFull. by rewrite (proj2 (Z.eqb_neq _ 0)) by lia.
Qed.

Lemma fold_all_write {A St} (decode : list Z -> outcome A) (step : St -> A -> outcome St) raws as_ tail :
  Forall2 (fun raw a => len raw <= maxAlloc /\ decode raw = Ok a) raws as_ -> ends_file tail ->
  forall fuel st, (length raws < fuel)%nat ->
  fold_all decode step fuel st (concat (writeBytes <$> raws) ++ tail) = run_list step st as_.
Proof.
  intros Hall Htail. induction Hall as [|raw a raws as_ [Hl Hd] Hall IH]; intros [|fuel] st Hf; cbn in Hf; try lia.
  - cbn [fmap list_fmap concat app fold_all run_list]. by rewrite read_end.
  - cbn [fmap list_fmap concat fold_all run_list]. rewrite <- app_assoc, (ReadRecord_write decode raw _ a) by done.
    destruct (step st a); cbn [mbind outcome_bind]; [|done|done]. apply IH. lia.
Qed.

Lemma file_length raws (tail : list Z) : (length raws < Datatypes.S (length (concat (writeBytes <$> raws) ++ tail)))%nat.
Proof.
  induction raws as [|raw raws IH]; [cbn; lia|]. rewrite fmap_cons. cbn [concat length].
  rewrite !length_app in *. assert (8 <= length (writeBytes raw))%nat; [|lia].
  unfold writeBytes. rewrite length_app, Itobytes_length. lia.
Qed.

(** What is left of a file after a record is shorter by at least its length
    field, so the fuel of [fold_records] suffices. *)
Lemma ReadFull_rest file n raw rest :
  0 <= n -> ReadFull file n = Ok (raw, rest) -> file = raw ++ rest /\ len raw = n.
Proof.
  intros H0. unfold ReadFull. destruct (n =? 0) eqn:Hn; [apply Z.eqb_eq in Hn; intros [= <- <-]; by subst n|].
  apply Z.eqb_neq in Hn. destruct file as [|x file]; [done|].
  destruct (len (x :: file) <? n) eqn:Hl; [done|]. apply Z.ltb_ge in Hl. intros [= <- <-].
  split; [by rewrite take_drop|]. unfold len in *. rewrite length_take. lia.
Qed.

Lemma size_value_nonneg l : Forall (fun b => 0 <= b < 256) l -> 0 <= be_value l.
Proof.
  induction l as [|b l IH] using rev_ind; intros Hf; [done|].
  apply Forall_app in Hf as [Hf Hb]. apply Forall_cons in Hb as [Hb _]. rewrite be_value_snoc.
  specialize (IH Hf). lia.
Qed.

Lemma ReadRecord_shorter {A} (decode : list Z -> outcome A) file a n rest :
  Forall (fun b => 0 <= b < 256) file -> ReadRecord decode file = Ok (a, n, rest) ->
  (length rest + 8 <= length file)%nat /\ Forall (fun b => 0 <= b < 256) rest.
Proof.
  intros Hf. unfold ReadRecord, read_raw. destruct (ReadFull file 8) as [[sz f1]| |] eqn:H1; cbn; try done.
  apply ReadFull_rest in H1 as [-> Hsz]; [|done]. apply Forall_app in Hf as [Hfs Hf1].
  destruct (Bytestoi sz) as [size| |] eqn:Hs; cbn; try done.
  destruct (maxAlloc <? size); [done|]. destruct (ReadFull f1 size) as [[raw f2]| |] eqn:H2; cbn; try done.
  destruct (decode raw); cbn; try done. intros [= _ _ <-].
  assert (Hpos : 0 <= size).
  { unfold Bytestoi in Hs. destruct (Nat.ltb (length sz) 8); [done|]. injection Hs as <-.
    apply size_value_nonneg. rewrite Forall_reverse. by apply Forall_take. }
  apply ReadFull_rest in H2 as [-> _]; [|done]. apply Forall_app in Hf1 as [_ Hf2].
  unfold len in Hsz. rewrite !length_app. split; [lia|done].
Qed.

Lemma fold_fuel {A St} (decode : list Z -> outcome A) (step : St -> A -> outcome St) : forall fuel file st,
  Forall (fun b => 0 <= b < 256) file -> (length file < fuel)%nat ->
  fold_all decode step fuel st file = fold_records decode step st file.
Proof.
  assert (Hgen : forall f1 f2 file st, Forall (fun b => 0 <= b < 256) file ->
            (length file < f1)%nat -> (length file < f2)%nat ->
            fold_all decode step f1 st file = fold_all decode step f2 st file).
  { induction f1 as [|f1 IH]; intros [|f2] file st Hb H1 H2; try lia. cbn [fold_all].
    destruct (ReadRecord decode file) as [[[a n] rest]| |] eqn:Hr; try done.
    destruct (ReadRecord_shorter decode file a n rest Hb Hr) as [Hl Hb'].
    destruct (step st a); cbn; [|done|done]. apply IH; [done|lia|lia]. }
  intros fuel file st Hb Hf. apply Hgen; [done|done|lia].
Qed.

(** The records of a file, in its order. *)
Definition read_list {A} (decode : list Z -> outcome A) (file : list Z) : outcome (list A) :=
  fold_records decode (fun l a => Ok (l ++ [a])) [] file.

(** A loop that succeeds has handled the records of the file. *)
Lemma fold_records_list {A St} (decode : list Z -> outcome A) (step : St -> A -> outcome St) st file st' :
  fold_records decode step st file = Ok st' ->
  exists l, read_list decode file = Ok l /\ run_list step st l = Ok st'.
Proof.
  unfold read_list, fold_records. generalize (Datatypes.S (length file)). intros fuel.
  enough (Hgen : forall acc, fold_all decode step fuel st file = Ok st' ->
            exists l, fold_all decode (fun l a => Ok (l ++ [a])) fuel acc file = Ok (acc ++ l) /\ run_list step st l = Ok st')
    by exact (Hgen []).
  revert st file. induction fuel as [|fuel IH]; intros st file acc; cbn [fold_all]; [done|].
  destruct (ReadRecord decode file) as [[[a n] rest]|e|]; [| |done].
  - destruct (step st a) as [st1| |] eqn:Hs; cbn; [|done|done]. intros (l & Hl & Hr)%(IH _ _ (acc ++ [a])).
    exists (a :: l). cbn. rewrite Hs. split; [|done]. by rewrite Hl, <- app_assoc.
  - case_match; [|done]. intros [= <-]. exists []. by rewrite app_nil_r.
Qed.

(** ** Certificates *)

Section Trust.
Context `{!BlockCrypto} `{!VoteCrypto} `{!SnapshotLib} {DB View : Type} `{!StateDB DB View}.

(** Every vote is valid, for the block and of a validator, and the votes weigh
    more than two thirds of the stake. *)
Definition certified (vs : ValidatorSet) (block : BlockHeader) (votes : VoteSet) : Prop :=
  (forall v, v ∈ range votes ->
     Vote_Validate v = Ok tt /\ Vote.Block v = header_hash block /\ is_ok (GetValidator vs (ID v)) = true) /\
  ValidatorSet_TotalStake vs * 2 < sumZ (weight vs) (voters (range votes)) * 3.

Lemma Vote_Validate_ok v : is_ok (Vote_Validate v) = true <-> Vote_Validate v = Ok tt.
Proof. destruct (Vote_Validate v) as [[]| |]; cbn; split; done. Qed.

Lemma validate_each_iff vs block votes :
  validate_each vs block votes = Ok tt <->
  forall v, v ∈ votes -> Vote_Validate v = Ok tt /\ Vote.Block v = header_hash block /\ is_ok (GetValidator vs (ID v)) = true.
Proof.
  induction votes as [|v votes IH]; cbn.
  - split; [|done]. intros _ v Hv. by apply elem_of_nil in Hv.
  - destruct (is_ok (Vote_Validate v)) eqn:E1; cbn;
      [|split; [done|]; intros Hall; destruct (Hall v) as [Hv _]; [constructor|by rewrite Hv in E1]].
    destruct (Vote.Block v =? header_hash block) eqn:E2; cbn;
      [apply Z.eqb_eq in E2|split; [done|]; intros Hall; destruct (Hall v) as (_ & Hv & _); [constructor|];
       by apply Z.eqb_neq in E2].
    destruct (is_ok (GetValidator vs (ID v))) eqn:E3; cbn;
      [|split; [done|]; intros Hall; destruct (Hall v) as (_ & _ & Hv); [constructor|congruence]].
    rewrite IH. apply Vote_Validate_ok in E1. split.
    + intros Hall w [->|Hw]%elem_of_cons; [done|by apply Hall].
    + intros Hall w Hw. apply Hall. by constructor.
Qed.

(** [validateVotes] accepts exactly the certified blocks. *)
Lemma validateVotes_iff vs block votes :
  validateVotes (Some vs) block (Some votes) = Ok tt <-> certified vs block votes.
Proof.
  unfold validateVotes, certified. rewrite HasMajority_order, majority_weight.
  destruct (_ <? _) eqn:Hm; cbn; bool_to_prop.
  - rewrite validate_each_iff. setoid_rewrite (Votes_perm (range votes)). naive_solver.
  - split; [done|]. intros [_ Hlt]. lia.
Qed.

Lemma validateVotes_some vs block votes :
  validateVotes vs block votes = Ok tt <-> exists s v, vs = Some s /\ votes = Some v /\ certified s block v.
Proof.
  destruct vs as [s|], votes as [v|]; [rewrite validateVotes_iff; naive_solver|..]; (split; [done|naive_solver]).
Qed.

(** Distinct voters of a certificate hold more than two thirds of the stake. *)
Lemma certified_majority vs block votes :
  certified vs block votes -> valset_ok vs -> NoDup (voters (range votes)) ->
  ValidatorSet_TotalStake vs * 2 < stake_where vs (fun a => a ∈ voters (range votes)) * 3.
Proof. intros [_ Hw] Hok Hnd. by rewrite <- voters_stake. Qed.

(** ** The chain of validator sets *)

(** The validator set of the genesis block. *)
Definition genesis_set (db : DB) (h : BlockHeader) (vs : ValidatorSet) : Prop :=
  BHeight h = GenesisBlockHeight /\
  header_hash h = HexToHash (if String.eqb (ChainID h) MainnetChainID then MainnetGenesisBlockHash else CfgGenesisHash) /\
  exists sv vs0, open_view db (BHeight h) (StateHash h) = Some sv /\ view_valset sv = Some vs0 /\
    vs = FilterValidators Addr_Hex Addr_HexToAddress vs0.

(** The validator set that a proof recovers from a state root. *)
Definition proven_set (stateHash : Hash) (vsp : ValidatorSetProof) (vs : ValidatorSet) : Prop :=
  exists raw vs0, VerifyProof stateHash vsp = Ok raw /\ decode_valset raw = Ok vs0 /\
    vs = FilterValidators Addr_Hex Addr_HexToAddress vs0.

(** The blocks of a trio follow each other, by parents and by certificates. *)
Definition linked_trio (t : SnapshotBlockTrio) : Prop :=
  let first := FirstHeader (First t) in
  let second := SecondHeader (Second t) in
  let third := ThirdHeader (Third t) in
  Parent second = header_hash first /\ Parent third = header_hash second /\
  CCBlockHash (HCC second) = header_hash first /\ CCBlockHash (HCC third) = header_hash second.

(** [vs] is trusted on the evidence of the trios: the set of the genesis block,
    or the set in the state of a block whose child the trusted set before has
    certified. *)
Inductive trusted (db : DB) : list SnapshotBlockTrio -> ValidatorSet -> Prop :=
| trusted_genesis t vs : genesis_set db (SecondHeader (Second t)) vs -> trusted db [t] vs
| trusted_next ts t votes vs vs' :
    trusted db ts vs -> linked_trio t ->
    CCVotes (HCC (ThirdHeader (Third t))) = Some votes -> certified vs (SecondHeader (Second t)) votes ->
    proven_set (StateHash (FirstHeader (First t))) (FirstProof (First t)) vs' ->
    trusted db (ts ++ [t]) vs'.

Lemma checkGenesisBlock_iff db h vs : checkGenesisBlock h db = Ok vs <-> genesis_set db h vs.
Proof.
  unfold checkGenesisBlock, genesis_set, getValidatorSetFromSV. set (x := HexToHash _).
  destruct (BHeight h =? GenesisBlockHeight) eqn:E1; cbn;
    [apply Z.eqb_eq in E1|apply Z.eqb_neq in E1; split; [done|by intros [? _]]].
  destruct (header_hash h =? x) eqn:E2; cbn;
    [apply Z.eqb_eq in E2|apply Z.eqb_neq in E2; split; [done|by intros (_ & ? & _)]].
  destruct (open_view db (BHeight h) (StateHash h)) as [sv|] eqn:E3;
    [|split; [done|intros (_ & _ & sv & vs0 & ? & _); congruence]].
  destruct (view_valset sv) as [vs0|] eqn:E4; [|split; [done|intros (_ & _ & sv' & vs0 & ? & ? & _); congruence]].
  split; [intros [= <-]; split_and!; [done|done|]; by exists sv, vs0|].
  intros (_ & _ & sv' & vs1 & ? & ? & ->). congruence.
Qed.

Lemma getValidatorSetFromVSProof_iff r vsp vs : getValidatorSetFromVSProof r vsp = Ok vs <-> proven_set r vsp vs.
Proof.
  unfold getValidatorSetFromVSProof, proven_set. destruct (VerifyProof r vsp) as [raw| |] eqn:E1; cbn;
    [|split; [done|naive_solver]..].
  destruct (decode_valset raw) as [vs0| |] eqn:E2; cbn;
    [|split; [done|intros (raw' & vs1 & [= <-] & ? & _); congruence]..].
  split; [intros [= <-]; by exists raw, vs0|]. intros (raw' & vs1 & [= <-] & ? & ->). congruence.
Qed.

Lemma checkTrio_iff o t vs' :
  checkTrio o t = Ok vs' <->
  linked_trio t /\
  (exists vs votes, o = Some vs /\ CCVotes (HCC (ThirdHeader (Third t))) = Some votes /\
     certified vs (SecondHeader (Second t)) votes) /\
  proven_set (StateHash (FirstHeader (First t))) (FirstProof (First t)) vs'.
Proof.
  unfold checkTrio, linked_trio. rewrite <- getValidatorSetFromVSProof_iff.
  set (first := FirstHeader (First t)). set (second := SecondHeader (Second t)). set (third := ThirdHeader (Third t)).
  destruct (Parent second =? header_hash first) eqn:E1; [apply Z.eqb_eq in E1|apply Z.eqb_neq in E1; cbn; naive_solver].
  destruct (Parent third =? header_hash second) eqn:E2; [apply Z.eqb_eq in E2|apply Z.eqb_neq in E2; cbn; naive_solver].
  destruct (CCBlockHash (HCC second) =? header_hash first) eqn:E3;
    [apply Z.eqb_eq in E3|apply Z.eqb_neq in E3; cbn; naive_solver].
  destruct (CCBlockHash (HCC third) =? header_hash second) eqn:E4;
    [apply Z.eqb_eq in E4|apply Z.eqb_neq in E4; cbn; naive_solver].
  cbn. pose proof (validateVotes_some o second (CCVotes (HCC third))) as Hv.
  destruct (validateVotes o second (CCVotes (HCC third))) as [[]| |]; cbn.
  - destruct (proj1 Hv eq_refl) as (vs & votes & -> & -> & Hc). naive_solver.
  - split; [done|]. intros (_ & (vs & votes & -> & Hvv & Hc) & _).
    by assert (Err msg = Ok tt) by (apply Hv; eauto).
  - split; [done|]. intros (_ & (vs & votes & -> & Hvv & Hc) & _).
    by assert (Panic msg = Ok tt) by (apply Hv; eauto).
Qed.

Lemma check_trios_app i o db ts1 ts2 :
  check_trios i o db (ts1 ++ ts2) = (o ← check_trios i o db ts1; check_trios (i + length ts1) o db ts2).
Proof.
  revert i o. induction ts1 as [|t ts1 IH]; intros i o; cbn; [by rewrite Nat.add_0_r|].
  destruct (match i with O => _ | _ => _ end); cbn; [|done|done]. rewrite IH. by rewrite Nat.add_succ_r.
Qed.

Lemma check_trios_trusted ts : forall i db ts0 vs o,
  trusted db ts0 vs -> check_trios (Datatypes.S i) (Some vs) db ts = Ok o -> exists vs', o = Some vs' /\ trusted db (ts0 ++ ts) vs'.
Proof.
  induction ts as [|t ts IH]; intros i db ts0 vs o Ht Hc; cbn in Hc.
  - injection Hc as <-. exists vs. by rewrite app_nil_r.
  - destruct (checkTrio (Some vs) t) as [vs'| |] eqn:Hk; cbn in Hc; try done.
    apply checkTrio_iff in Hk as (Hlink & (vs1 & votes & [= <-] & Hv & Hcert) & Hp).
    eapply (IH _ _ (ts0 ++ [t])) in Hc; [|by eapply trusted_next]. by rewrite <- app_assoc in Hc.
Qed.

Lemma trusted_nonempty db ts vs : trusted db ts vs -> (0 < length ts)%nat.
Proof. intros [|ts' t votes vs1 vs2 _ _ _ _ _]; [cbn; lia|rewrite length_app; cbn; lia]. Qed.

Lemma checkProofTrios_iff ts db vs : checkProofTrios ts db = Ok (Some vs) <-> trusted db ts vs.
Proof.
  unfold checkProofTrios. split.
  - destruct ts as [|t ts]; cbn; [done|]. destruct (checkGenesisBlock _ db) as [vs0| |] eqn:Hg; cbn; try done.
    apply checkGenesisBlock_iff in Hg. intros Hc.
    apply check_trios_trusted with (ts0 := [t]) in Hc as (vs' & [= <-] & Ht); [done|by constructor].
  - induction 1 as [t vs Hg|ts t votes vs vs' Ht IH Hlink Hv Hcert Hp].
    + cbn. apply checkGenesisBlock_iff in Hg. by rewrite Hg.
    + rewrite check_trios_app, IH. cbn. pose proof (trusted_nonempty _ _ _ Ht) as Hl.
      destruct (length ts) as [|k]; [lia|]. cbn.
      assert (checkTrio (Some vs) t = Ok vs') as ->; [|done]. apply checkTrio_iff. eauto 10.
Qed.

(** The result of [checkTailTrio] does not depend on the votes of the tail. *)
Lemma tail_votes_ignored sv db vs first second third third' votes votes' :
  checkTailTrio sv db (Some vs) (mkTrio first second (mkThird third (Some votes))) =
  checkTailTrio sv db (Some vs) (mkTrio first second (mkThird third' (Some votes'))).
Proof.
  unfold checkTailTrio. cbn [Second Third ThirdHeader ThirdVoteSet].
  assert (Hnp : forall h v, is_panic (validateVotes (Some vs) h (Some v)) = false).
  { intros h v. unfold validateVotes. case_match; [done|]. generalize (Votes (range v)).
    induction l as [|w l IH]; cbn; [done|]. repeat case_match; done. }
  pose proof (Hnp third votes). pose proof (Hnp third' votes').
  destruct (BHeight (SecondHeader second) =? GenesisBlockHeight); [done|].
  by destruct (validateVotes (Some vs) third (Some votes)), (validateVotes (Some vs) third' (Some votes')).
Qed.

(** ** Repeated votes *)

(** The votes of one validator in distinct epochs, all kept by the vote set. *)
Lemma votes_of_one (a : Address) (h : Hash) votes :
  Forall (fun v => ID v = a /\ Vote.Block v = h) votes -> NoDup (Epoch <$> votes) ->
  range (AddVotes NewVoteSet votes) ≡ₚ votes.
Proof.
  intros Hall Hnd.
  assert (Hkeys : NoDup (vote_key <$> votes)).
  { clear -Hall Hnd. induction Hall as [|v votes [<- <-] Hall IH]; cbn in *; [constructor|].
    apply NoDup_cons in Hnd as [Hv Hnd]. constructor; [|by apply IH].
    intros (w & Hw & Hin)%list_elem_of_fmap. apply Hv. unfold vote_key in Hw. injection Hw as _ _ ->.
    by apply list_elem_of_fmap_2. }
  unfold range, AddVotes, NewVoteSet.
  enough (Hm : forall l m, NoDup (vote_key <$> l) -> (forall v, v ∈ l -> m !! vote_key v = None) ->
            (map_to_list (foldl AddVote m l)).*2 ≡ₚ (map_to_list m).*2 ++ l).
  { rewrite Hm; [by rewrite map_to_list_empty|done|]. intros v _. apply lookup_empty. }
  clear. induction l as [|v l IH]; intros m Hnd Hm; cbn; [by rewrite app_nil_r|].
  rewrite fmap_cons in Hnd. apply NoDup_cons in Hnd as [Hv Hnd]. rewrite IH; [|done|].
  - unfold AddVote. rewrite map_to_list_insert by (apply Hm; constructor). cbn.
    by rewrite Permutation_middle.
  - intros w Hw. unfold AddVote. rewrite lookup_insert_ne; [apply Hm; by constructor|].
    intros Heq. apply Hv. assert (vote_key v = vote_key w) as -> by exact Heq. by apply list_elem_of_fmap_2.
Qed.

Lemma repeated_certified vs block a votes :
  Forall (fun v => ID v = a /\ Vote.Block v = header_hash block /\ Vote_Validate v = Ok tt) votes ->
  NoDup (Epoch <$> votes) -> is_ok (GetValidator vs a) = true ->
  ValidatorSet_TotalStake vs * 2 < len votes * weight vs a * 3 ->
  certified vs block (AddVotes NewVoteSet votes).
Proof.
  intros Hall Hnd Hval Hw.
  assert (Hp : range (AddVotes NewVoteSet votes) ≡ₚ votes).
  { apply (votes_of_one a (header_hash block)); [|done]. eapply Forall_impl; [exact Hall|]. naive_solver. }
  rewrite Forall_forall in Hall. split.
  - intros v Hv. rewrite Hp in Hv. destruct (Hall v Hv) as (-> & ? & ?). done.
  - unfold voters. rewrite Hp.
    assert (sumZ (weight vs) (ID <$> votes) = len votes * weight vs a) as ->; [|done].
    clear -Hall. induction votes as [|v votes IH]; [done|].
    rewrite fmap_cons, sumZ_cons, IH by (intros w Hw; apply Hall; by constructor).
    destruct (Hall v) as (-> & _); [constructor|]. rewrite len_cons. lia.
Qed.

(** ** Backups *)

(** The blocks of a backup from high to low: each is the snapshot block or the
    parent of the one above it. *)
Fixpoint hash_linked (snapshot : BlockHeader) (prev : option ExtendedBlock) (l : list ExtendedBlock) : Prop :=
  match l with
  | [] => True
  | eb :: rest =>
      (if EBHeight eb =? BHeight snapshot then EBHash eb = header_hash snapshot
       else exists above, prev = Some above /\ EBHeight eb = u64_sub (EBHeight above) 1 /\ EBParent above = EBHash eb) /\
      hash_linked snapshot (Some eb) rest
  end.

(** The validator set of a trio. *)
Definition trio_set (db : DB) (t : SnapshotBlockTrio) (vs : ValidatorSet) : Prop :=
  let first := FirstHeader (First t) in
  if BHeight first =? GenesisBlockHeight then genesis_set db (SecondHeader (Second t)) vs
  else proven_set (StateHash first) (FirstProof (First t)) vs.

(** A block of a backup is certified by the set of the genesis block, if it is
    that block, or by the set of a trio whose change is in force, or of the
    first one; with a chain, the block is well-formed and of that chain. *)
Definition certified_backup (chainID : option string) (db : DB) (trios : list SnapshotBlockTrio) (b : BackupBlock) : Prop :=
  let eb := BBlock b in
  (exists vs votes, BVotes b = Some votes /\ certified vs (Header (EBlock eb)) votes /\
     if EBHeight eb =? GenesisBlockHeight then genesis_set db (Header (EBlock eb)) vs
     else exists t, t ∈ trios /\ (u64_add (BHeight (FirstHeader (First t))) 2 <= EBHeight eb \/ head trios = Some t) /\
            trio_set db t vs) /\
  match chainID with
  | Some id => ChainID (Header (EBlock eb)) = id /\
               (EBHeight eb <> GenesisBlockHeight -> Block_Validate (EBlock eb) id = Ok tt)
  | None => True
  end.

Lemma drop_trios_ok trios h prev trios' t prev' :
  drop_trios trios h prev = Ok (trios', t, prev') ->
  trios' `suffix_of` trios /\ head trios' = Some t /\
  (u64_add (BHeight (FirstHeader (First t))) 2 <= h \/ trios' = [t]).
Proof.
  revert prev. induction trios as [|t0 trios IH]; intros prev; cbn [drop_trios]; [done|].
  destruct trios as [|t1 trios]; [intros [= <- <- <-]; auto|].
  destruct (_ <=? h) eqn:Hh.
  - intros [= <- <- <-]. apply Z.leb_le in Hh. auto.
  - intros (Hs & Hr)%IH. split; [by apply suffix_cons_r|done].
Qed.

(** A trio of what is left of the reversed list is one of the list, and the
    only one left is the first. *)
Lemma suffix_trio (all l : list SnapshotBlockTrio) t :
  l `suffix_of` reverse all -> head l = Some t -> t ∈ all /\ (l = [t] -> head all = Some t).
Proof.
  intros [k Hk] Hh. destruct l as [|t' l]; [done|]. injection Hh as ->.
  assert (Hall : all = reverse l ++ [t] ++ reverse k).
  { rewrite <- (reverse_involutive all), Hk, reverse_app, reverse_cons, <- app_assoc. done. }
  split; [rewrite Hall; set_solver|]. intros [= ->]. by rewrite Hall.
Qed.

End Trust.

Section Backups.
Context `{!BlockCrypto} `{!VoteCrypto} `{!SnapshotLib} {DB View : Type} `{!StateDB DB View}.
Context {S : Type} `{!Store S}.
Context (CalcEthTxHash : ExtendedBlock -> Bytes -> outcome Hash).
Context (chainID : option string) (db : DB) (snapshot : BlockHeader) (trios : list SnapshotBlockTrio).
Implicit Types (seg : Segment (S := S)).

Lemma segment_valset_ok seg eb vs ts prev :
  segment_valset chainID db seg eb = Ok (vs, ts, prev) -> seg_trios seg `suffix_of` reverse trios ->
  ts `suffix_of` reverse trios /\
  (if EBHeight eb =? GenesisBlockHeight then genesis_set db (Header (EBlock eb)) vs
   else exists t, t ∈ trios /\ (u64_add (BHeight (FirstHeader (First t))) 2 <= EBHeight eb \/ head trios = Some t) /\
          trio_set db t vs) /\
  (EBHeight eb <> GenesisBlockHeight -> match chainID with Some id => Block_Validate (EBlock eb) id = Ok tt | None => True end).
Proof.
  unfold segment_valset. intros Hs Hsuf. destruct (EBHeight eb =? GenesisBlockHeight) eqn:Hg.
  - destruct (checkGenesisBlock _ db) as [vs0| |] eqn:Hc; cbn in Hs; try done. injection Hs as <- <- <-.
    apply checkGenesisBlock_iff in Hc. apply Z.eqb_eq in Hg. split_and!; [done|done|]. by intros.
  - assert (Hval : forall T (r : outcome T) x,
              (_ ← match chainID with
                   | Some chainID => match Block_Validate (EBlock eb) chainID with
                                     | Err _ => Err "Block's header is invalid" | r => r end
                   | None => Ok tt end; r) = Ok x ->
              r = Ok x /\ match chainID with Some id => Block_Validate (EBlock eb) id = Ok tt | None => True end).
    { intros T r x. destruct chainID as [id|]; [|done]. by destruct (Block_Validate (EBlock eb) id) as [[]| |]. }
    apply Hval in Hs as [Hs Hv].
    destruct (drop_trios (seg_trios seg) (EBHeight eb) (seg_prevTrio seg)) as [[[ts' t] p']| |] eqn:Hd; cbn in Hs; try done.
    apply drop_trios_ok in Hd as (Hs' & Hh & Hin).
    assert (Hsuf' : ts' `suffix_of` reverse trios) by (by etransitivity).
    destruct (suffix_trio trios ts' t Hsuf' Hh) as [Hel Hfirst].
    assert (Hset : trio_set db t vs /\ ts = ts').
    { unfold trio_set. destruct (BHeight (FirstHeader (First t)) =? GenesisBlockHeight).
      - destruct (checkGenesisBlock _ db) as [vs0| |] eqn:Hc; cbn in Hs; try done. injection Hs as <- <- <-.
        by apply checkGenesisBlock_iff in Hc.
      - destruct (getValidatorSetFromVSProof _ _) as [vs0| |] eqn:Hc; cbn in Hs; try done. injection Hs as <- <- <-.
        by apply getValidatorSetFromVSProof_iff in Hc. }
    destruct Hset as [Hset ->]. split_and!; [done| |done]. exists t. naive_solver.
Qed.

Lemma segment_link_ok prev eb :
  segment_link db snapshot prev eb = Ok tt ->
  if EBHeight eb =? BHeight snapshot then EBHash eb = header_hash snapshot
  else exists above, prev = Some above /\ EBHeight eb = u64_sub (EBHeight above) 1 /\ EBParent above = EBHash eb.
Proof.
  unfold segment_link. destruct (EBHeight eb =? BHeight snapshot).
  - destruct (EBHash eb =? header_hash snapshot) eqn:Hh; cbn; [|done]. intros _. by apply Z.eqb_eq.
  - destruct prev as [above|]; [|done].
    destruct (EBHeight eb =? u64_sub (EBHeight above) 1) eqn:E1; cbn; [|done].
    destruct (EBParent above =? EBHash eb) eqn:E2; cbn; [|done]. intros _.
    apply Z.eqb_eq in E1, E2. eauto.
Qed.

(** The loaded blocks of a file. *)
Definition loaded (l : list BackupBlock) : list BackupBlock :=
  filter (fun b => EBHeight (BBlock b) <= BHeight snapshot) l.

(** The backups of the files whose start is not above the snapshot, without
    the blocks above it. *)
Fixpoint read_backups (files : list (uint64 * uint64 * list Z)) : outcome (list BackupBlock) :=
  match files with
  | [] => Ok []
  | (start, _, file) :: rest =>
      if BHeight snapshot <? start then read_backups rest
      else
        l ← read_list decode_backup file;
        l' ← read_backups rest;
        Ok (loaded l ++ l')
  end.

(** The block that is above the next one. *)
Definition lowest (prev : option ExtendedBlock) (l : list BackupBlock) : option ExtendedBlock :=
  match last l with Some b => Some (BBlock b) | None => prev end.

(** *** What is stored *)

(** A stored block has the transactions, or the rest, of a backup with the hash. *)
Definition has_txs (l : list BackupBlock) (h : Hash) (eb : ExtendedBlock) : Prop :=
  exists b, b ∈ l /\ EBHash (BBlock b) = h /\ Txs (EBlock eb) = Txs (EBlock (BBlock b)).
Definition has_header (l : list BackupBlock) (ch : Chain S) (h : Hash) (eb : ExtendedBlock) : Prop :=
  exists b, b ∈ l /\ EBHash (BBlock b) = h /\ Header (EBlock eb) = uncached (Header (EBlock (BBlock b))) /\
    Children eb = Children (BBlock b) /\ Status eb = Status (BBlock b) /\ h ∈ height_index ch (EBHeight (BBlock b)).

(** The heights of which a snapshot stores blocks without transactions. *)
Definition snapshot_height (height : uint64) : Prop :=
  height = GenesisBlockHeight + 1 \/ height = BHeight snapshot \/ height = u64_sub (BHeight snapshot) 1.

(** The chain [ch'] is [ch] with the blocks of [l]: exactly these are new, with
    their index of heights; a block that was there keeps its header, children
    and status and at most takes the transactions of a backup, which it does at
    the heights of the snapshot. *)
Record imports (l : list BackupBlock) (ch ch' : Chain S) : Prop := {
  imports_index n h : h ∈ height_index ch n -> h ∈ height_index ch' n;
  imports_block h :
    match findBlock ch h, findBlock ch' h with
    | None, None => forall b, b ∈ l -> EBHash (BBlock b) <> h
    | None, Some eb => has_header l ch' h eb /\ has_txs l h eb
    | Some old, Some eb =>
        eb = old \/ (Header (EBlock eb) = uncached (Header (EBlock old)) /\ Children eb = Children old /\
                     Status eb = Status old /\ HasValidatorUpdate eb = true /\ has_txs l h eb)
    | Some _, None => False
    end;
  imports_txs b : b ∈ l -> snapshot_height (EBHeight (BBlock b)) ->
    exists eb, findBlock ch' (EBHash (BBlock b)) = Some eb /\ has_txs l (EBHash (BBlock b)) eb
}.

Lemma imports_refl ch : imports [] ch ch.
Proof.
  split; [done| |by intros b ?%elem_of_nil]. intros h. destruct (findBlock ch h); [by left|].
  by intros b ?%elem_of_nil.
Qed.

Lemma has_txs_mono l l' h eb : l ⊆ l' -> has_txs l h eb -> has_txs l' h eb.
Proof. intros Hs (b & Hb & ?). exists b. split; [by apply Hs|done]. Qed.

Lemma has_header_mono l l' ch ch' h eb :
  l ⊆ l' -> (forall n h, h ∈ height_index ch n -> h ∈ height_index ch' n) -> has_header l ch h eb -> has_header l' ch' h eb.
Proof. intros Hs Hi (b & Hb & ? & ? & ? & ? & Hin). exists b. split; [by apply Hs|]. split_and!; auto. Qed.

Lemma uncached_idem (h : BlockHeader) : uncached (uncached h) = uncached h.
Proof. by destruct h. Qed.

Lemma imports_trans l1 l2 ch ch1 ch2 : imports l1 ch ch1 -> imports l2 ch1 ch2 -> imports (l1 ++ l2) ch ch2.
Proof.
  intros [I1 B1 T1] [I2 B2 T2].
  assert (Hl : l1 ⊆ l1 ++ l2) by set_solver. assert (Hr : l2 ⊆ l1 ++ l2) by set_solver. split.
  - intros n h Hh. by apply I2, I1.
  - intros h. specialize (B1 h). specialize (B2 h).
    destruct (findBlock ch h) as [old|], (findBlock ch1 h) as [eb1|], (findBlock ch2 h) as [eb2|]; try done.
    + destruct B2 as [->|(Hh & Hc & Hs & Hv & Ht)].
      * destruct B1 as [->|(Hh1 & Hc1 & Hs1 & Hv1 & Ht1)]; [by left|right]. split_and!; try done. by eauto using has_txs_mono.
      * right. destruct B1 as [->|(Hh1 & Hc1 & Hs1 & _)]; split_and!; try congruence; try (by eauto using has_txs_mono).
        by rewrite Hh, Hh1, uncached_idem.
    + destruct B1 as [Hh1 Ht1]. destruct B2 as [->|(Hh & Hc & Hs & _ & Ht)].
      * split; [by eauto using has_header_mono|by eauto using has_txs_mono].
      * split; [|by eauto using has_txs_mono]. apply (has_header_mono l1 (l1 ++ l2) ch1); [done|done|].
        destruct Hh1 as (b & Hb & Hbh & Hhd & Hch & Hst & Hin). exists b. split_and!; try congruence.
        by rewrite Hh, Hhd, uncached_idem.
    + destruct B2 as [Hh Ht]. split; [by eauto using has_header_mono|by eauto using has_txs_mono].
    + intros b [Hb|Hb]%elem_of_app; auto.
  - intros b [Hb|Hb]%elem_of_app Hs.
    + destruct (T1 b Hb Hs) as (eb & Hf & Ht). specialize (B2 (EBHash (BBlock b))). rewrite Hf in B2.
      destruct (findBlock ch2 _) as [eb2|]; [|done]. exists eb2. split; [done|].
      destruct B2 as [->|(_ & _ & _ & _ & Ht2)]; by eauto using has_txs_mono.
    + destruct (T2 b Hb Hs) as (eb & Hf & Ht). exists eb. split; [done|]. by eauto using has_txs_mono.
Qed.

Lemma findBlock_put ch h eb h' : findBlock (put_block ch h eb) h' = if decide (h = h') then Some (stored eb) else findBlock ch h'.
Proof.
  unfold findBlock, put_block. cbn [store with_store]. rewrite Get_Put. repeat case_decide; congruence.
Qed.

(** A stored block that is indexed. *)
Lemma index_block_find ch eb h : findBlock (index_block CalcEthTxHash ch eb) h = findBlock ch h.
Proof. unfold index_block. by rewrite same_blocks_txs, same_blocks_height. Qed.

Lemma index_block_index ch eb n h :
  h ∈ height_index (index_block CalcEthTxHash ch eb) n <-> h ∈ height_index ch n \/ (n = EBHeight eb /\ h = EBHash eb).
Proof.
  unfold index_block. rewrite (same_index_txs _ _ _ _ n), height_index_add.
  destruct (decide _) as [[<- Hn]|Hd]; [rewrite elem_of_app, list_elem_of_singleton; naive_solver|].
  split; [by left|]. intros [?|[-> ->]]; [done|]. destruct (decide (EBHash eb ∈ height_index ch (EBHeight eb))); [done|].
  exfalso. by apply Hd.
Qed.

Lemma put_imports b eb ch :
  Txs (EBlock eb) = Txs (EBlock (BBlock b)) ->
  match findBlock ch (EBHash (BBlock b)) with
  | None => eb = BBlock b
  | Some old => Header (EBlock eb) = Header (EBlock old) /\ Children eb = Children old /\ Status eb = Status old /\
                HasValidatorUpdate eb = true
  end ->
  imports [b] ch (index_block CalcEthTxHash (put_block ch (EBHash (BBlock b)) eb) (BBlock b)).
Proof.
  intros Htxs Hold.
  assert (Hi : forall n h, h ∈ height_index (put_block ch (EBHash (BBlock b)) eb) n <-> h ∈ height_index ch n).
  { intros n h. unfold put_block. by rewrite (same_index_put ch (KBlock _) (VBlock _) eq_refl n). }
  assert (Hf : findBlock (index_block CalcEthTxHash (put_block ch (EBHash (BBlock b)) eb) (BBlock b)) (EBHash (BBlock b)) =
               Some (stored eb)) by (by rewrite index_block_find, findBlock_put, decide_True).
  assert (Ht : has_txs [b] (EBHash (BBlock b)) (stored eb)).
  { exists b. by split_and!; [constructor|done|]. }
  split.
  - intros n h Hh. rewrite index_block_index. left. by apply Hi.
  - intros h. destruct (decide (EBHash (BBlock b) = h)) as [<-|Hne].
    + rewrite Hf. destruct (findBlock ch (EBHash (BBlock b))) as [old|].
      * right. destruct Hold as (Hh & Hc & Hs & Hv). cbn. by rewrite Hh.
      * subst eb. split; [|done]. exists b. split_and!; try done; [constructor|].
        rewrite index_block_index. by right.
    + rewrite index_block_find, findBlock_put, decide_False by done. destruct (findBlock ch h); [by left|].
      by intros b' ->%list_elem_of_singleton.
  - intros b' ->%list_elem_of_singleton _. by eexists.
Qed.

Lemma segment_store_imports id ch prevTrio b ch' :
  segment_store CalcEthTxHash id ch snapshot prevTrio (BBlock b) = Ok ch' -> imports [b] ch ch'.
Proof.
  unfold segment_store. intros Hst. destruct (negb _); [done|].
  destruct (findBlock ch (EBHash (BBlock b))) as [old|] eqn:Hold.
  - destruct (_ || _) eqn:Hk in Hst; cbn [mbind outcome_bind] in Hst.
    + injection Hst as <-. apply put_imports; [done|by rewrite Hold].
    + destruct prevTrio as [t|]; cbn [mbind outcome_bind] in Hst; [|done].
      destruct (_ =? _) in Hst; injection Hst as <-; [apply put_imports; [done|by rewrite Hold]|].
      apply orb_false_iff in Hk as [Hk H3]. apply orb_false_iff in Hk as [H1' H2].
      rewrite Z.eqb_neq in H1', H2, H3. split; [done| |].
      * intros h. destruct (findBlock ch h) eqn:Hf; [by left|]. intros b' ->%list_elem_of_singleton Heq. congruence.
      * intros b' ->%list_elem_of_singleton [?|[?|?]]; done.
  - injection Hst as <-. apply put_imports; [done|by rewrite Hold].
Qed.

(** The chain that is given takes the blocks; without one nothing is stored. *)
Definition imports_into (l : list BackupBlock) (ch ch' : Chain S) : Prop :=
  match chainID with Some _ => imports l ch ch' | None => ch' = ch end.

Lemma imports_into_refl ch : imports_into [] ch ch.
Proof. unfold imports_into. destruct chainID; [apply imports_refl|done]. Qed.

Lemma imports_into_trans l1 l2 ch ch1 ch2 : imports_into l1 ch ch1 -> imports_into l2 ch1 ch2 -> imports_into (l1 ++ l2) ch ch2.
Proof. unfold imports_into. destruct chainID; [apply imports_trans|congruence]. Qed.

Lemma segment_step_ok end_ seg b seg' :
  segment_step CalcEthTxHash chainID db snapshot end_ seg b = Ok seg' -> seg_trios seg `suffix_of` reverse trios ->
  seg_trios seg' `suffix_of` reverse trios /\
  if bool_decide (EBHeight (BBlock b) <= BHeight snapshot) then
    seg_prev seg' = Some (BBlock b) /\ certified_backup chainID db trios b /\
    hash_linked snapshot (seg_prev seg) [BBlock b] /\ imports_into [b] (seg_chain seg) (seg_chain seg')
  else seg_prev seg' = seg_prev seg /\ seg_chain seg' = seg_chain seg.
Proof.
  unfold segment_step. intros Hs Hsuf. destruct (_ && _); [done|].
  destruct (BHeight snapshot <? EBHeight (BBlock b)) eqn:Hh.
  - injection Hs as <-. apply Z.ltb_lt in Hh. rewrite bool_decide_false by lia. done.
  - apply Z.ltb_ge in Hh. rewrite bool_decide_true by done.
    destruct (segment_valset _ _ _ _) as [[[vs ts] p']| |] eqn:Hv; cbn [mbind outcome_bind] in Hs; try done.
    apply segment_valset_ok in Hv as (Hts & Hset & Hval); [|done].
    destruct (validateVotes _ _ _) as [[]| |] eqn:Hvotes; cbn [mbind outcome_bind] in Hs; try done.
    apply validateVotes_some in Hvotes as (vs' & votes & [= <-] & Hbv & Hcert).
    destruct (segment_link _ _ _ _) as [[]| |] eqn:Hl; cbn [mbind outcome_bind] in Hs; try done. apply segment_link_ok in Hl.
    assert (Hst : exists ch, match chainID with
              | Some id => segment_store CalcEthTxHash id (seg_chain seg) snapshot p' (BBlock b)
              | None => Ok (seg_chain seg) end = Ok ch /\
              seg' = mkSegment ch ts p' (Some (BBlock b)) (u64_add (seg_count seg) 1)).
    { destruct (match chainID with Some _ => _ | None => _ end) as [ch| |]; cbn [mbind outcome_bind] in Hs; try done. exists ch. split; [done|].
      by injection Hs as <-. }
    destruct Hst as (ch & Hch & ->). cbn. unfold imports_into. split_and!; [done|done| |done|done|].
    2: { destruct chainID as [id|]; [by eapply segment_store_imports|by injection Hch as <-]. }
    split; [by exists vs, votes|]. destruct chainID as [id|]; [|done]. split; [|by intros ?%Hval].
    unfold segment_store in Hch. destruct (String.eqb _ id) eqn:Hid; [|done]. by apply String.eqb_eq.
Qed.

Lemma lowest_cons prev b l : lowest prev (b :: l) = lowest (Some (BBlock b)) l.
Proof. unfold lowest. rewrite last_cons. by destruct (last l). Qed.

Lemma linked_app prev l1 l2 :
  hash_linked snapshot prev (BBlock <$> (l1 ++ l2)) <->
  hash_linked snapshot prev (BBlock <$> l1) /\ hash_linked snapshot (lowest prev l1) (BBlock <$> l2).
Proof.
  revert prev. induction l1 as [|b l1 IH]; intros prev; cbn [app fmap list_fmap hash_linked]; [naive_solver|].
  rewrite IH, lowest_cons. naive_solver.
Qed.

Lemma segment_run_ok end_ l : forall seg seg',
  run_list (segment_step CalcEthTxHash chainID db snapshot end_) seg l = Ok seg' ->
  seg_trios seg `suffix_of` reverse trios ->
  seg_trios seg' `suffix_of` reverse trios /\ seg_prev seg' = lowest (seg_prev seg) (loaded l) /\
  Forall (certified_backup chainID db trios) (loaded l) /\ hash_linked snapshot (seg_prev seg) (BBlock <$> loaded l) /\
  imports_into (loaded l) (seg_chain seg) (seg_chain seg').
Proof.
  induction l as [|b l IH]; intros seg seg' Hr Hsuf; cbn [run_list] in Hr.
  - injection Hr as <-. split_and!; try done. apply imports_into_refl.
  - destruct (segment_step _ _ _ _ _ _ _) as [seg1| |] eqn:Hs; cbn in Hr; try done.
    apply segment_step_ok in Hs as [Hsuf1 Hb]; [|done].
    destruct (IH seg1 seg' Hr Hsuf1) as (Hsuf' & Hp & Hc & Hl & Hi).
    unfold loaded in *. rewrite filter_cons. case_bool_decide as Hh.
    + rewrite decide_True by done. destruct Hb as (Hp1 & Hcb & [Hlb _] & Hib). rewrite Hp1 in *. split_and!; [done| |by constructor| |].
      * by rewrite Hp, lowest_cons.
      * cbn [fmap list_fmap hash_linked]. done.
      * by eapply (imports_into_trans [b]).
    + rewrite decide_False by done. destruct Hb as [Hb1 Hb2]. by rewrite Hb1, Hb2 in *.
Qed.

Lemma loadChainSegment_ok start end_ ch ts prev file ch' ts' eb :
  loadChainSegment CalcEthTxHash chainID db snapshot start end_ ch ts prev file = Ok (ch', ts', eb) ->
  ts `suffix_of` reverse trios ->
  ts' `suffix_of` reverse trios /\ EBHeight eb = start /\
  exists l, read_list decode_backup file = Ok l /\ lowest prev (loaded l) = Some eb /\
    Forall (certified_backup chainID db trios) (loaded l) /\ hash_linked snapshot prev (BBlock <$> loaded l) /\
    imports_into (loaded l) ch ch'.
Proof.
  unfold loadChainSegment. intros Hl Hsuf.
  destruct (fold_records _ _ _ _) as [seg| |] eqn:Hf; cbn in Hl; try done.
  apply fold_records_list in Hf as (l & Hrd & Hr). apply segment_run_ok in Hr as (Hs & Hp & Hc & Hlk & Hi); [|done]. cbn in *.
  destruct (seg_prev seg) as [eb'|] eqn:Hprev; [|done].
  destruct (EBHeight eb' =? start) eqn:Hst; cbn in Hl; [|done].
  destruct (_ =? _) in Hl; cbn in Hl; [|done]. injection Hl as <- <- <-. apply Z.eqb_eq in Hst.
  split_and!; [done|done|]. by exists l.
Qed.

Lemma prev_chain_run_ok files : forall blockEnd ch ts prev ch' prev',
  prev_chain_run CalcEthTxHash chainID db snapshot files blockEnd ch ts prev = Ok (ch', prev') ->
  ts `suffix_of` reverse trios ->
  exists l, read_backups files = Ok l /\ prev' = lowest prev l /\ Forall (certified_backup chainID db trios) l /\
    hash_linked snapshot prev (BBlock <$> l) /\ imports_into l ch ch'.
Proof.
  induction files as [|[[start end_] file] files IH]; intros blockEnd ch ts prev ch' prev' Hr Hsuf; cbn [prev_chain_run read_backups] in Hr |- *.
  - injection Hr as <- <-. exists []. split_and!; try done. apply imports_into_refl.
  - destruct (BHeight snapshot <? start); [by eapply IH|]. destruct (_ && _); [done|].
    destruct (loadChainSegment _ _ _ _ _ _ _ _ _ _) as [[[ch1 ts1] eb]| |] eqn:Hs; cbn [mbind outcome_bind] in Hr; try done.
    apply loadChainSegment_ok in Hs as (Hsuf1 & _ & l1 & Hrd1 & Hl1 & Hc1 & Hk1 & Hi1); [|done].
    destruct (IH _ _ _ _ _ _ Hr Hsuf1) as (l2 & Hrd2 & Hl2 & Hc2 & Hk2 & Hi2).
    exists (loaded l1 ++ l2). rewrite Hrd1. cbn [mbind outcome_bind]. rewrite Hrd2.
    split_and!; [done| |by apply Forall_app|apply linked_app; by rewrite Hl1|by eapply imports_into_trans].
    rewrite Hl2. destruct l2 as [|b l2 _] using rev_ind; [by rewrite app_nil_r|].
    rewrite app_assoc. unfold lowest. by rewrite !last_snoc.
Qed.

Lemma boundaries_in (files : list (string * list Z)) bs name content s e :
  boundaries files = Ok bs -> (name, content) ∈ files -> getChainBoundary name = Ok (s, e) -> (s, e, content) ∈ bs.
Proof.
  revert bs. induction files as [|[n c] files IH]; intros bs Hb Hin Hg; [by apply elem_of_nil in Hin|].
  cbn in Hb. destruct (getChainBoundary n) as [[s0 e0]| |] eqn:Hn; cbn in Hb; try done.
  destruct (boundaries files) as [l| |]; cbn in Hb; try done. injection Hb as <-.
  apply elem_of_cons in Hin as [[= -> ->]|Hin]; [|constructor; by apply IH].
  rewrite Hn in Hg. injection Hg as -> ->. constructor.
Qed.

Lemma last_start (l : list (uint64 * uint64 * list Z)) x y :
  last (merge_sort start_desc l) = Some x -> y ∈ l -> fst (fst x) <= fst (fst y).
Proof.
  intros Hl Hy. rewrite <- (merge_sort_Permutation start_desc l) in Hy.
  assert (Hs : StronglySorted start_desc (merge_sort start_desc l)).
  { apply StronglySorted_merge_sort.
    - intros a b c. unfold start_desc. lia.
    - intros a b. unfold start_desc. lia. }
  apply last_Some in Hl as [l' Hl]. rewrite Hl in Hs, Hy.
  apply StronglySorted_app in Hs as (Hlt & _ & _).
  apply elem_of_app in Hy as [Hy|Hy%list_elem_of_singleton]; [|by subst].
  apply (Hlt y x); [done|]. by apply list_elem_of_singleton.
Qed.

End Backups.

Section Checkpoint.
Context `{!BlockCrypto} `{!SnapshotLib} {S : Type} `{!Store S}.

Lemma checkpoint_loop_iff (ch : Chain S) target n h :
  checkpoint_loop ch target n h = Ok true <-> exists k, (k < n)%nat /\ nth_ancestor ch k h = Some target.
Proof.
  revert h. induction n as [|n IH]; intros h; cbn [checkpoint_loop].
  { split; [done|]. intros (k & ? & _). lia. }
  destruct (Z.eqb_spec h target) as [->|Hne].
  { split; [|done]. intros _. exists 0%nat. split; [lia|done]. }
  destruct (findBlock ch h) as [b|] eqn:Hb.
  - rewrite IH. split.
    + intros (k & Hk & Ha). exists (Datatypes.S k). split; [lia|]. simpl. by rewrite Hb.
    + intros ([|k] & Hk & Ha); simpl in Ha; [congruence|]. rewrite Hb in Ha. exists k. split; [lia|done].
  - split; [done|]. intros ([|k] & Hk & Ha); simpl in Ha; [congruence|]. by rewrite Hb in Ha.
Qed.

End Checkpoint.

(** Without proof trios, as in a snapshot of version 4, no backup loads. *)
Lemma backup_needs_trios `{!BlockCrypto} `{!VoteCrypto} `{!SnapshotLib} {DB View} `{!StateDB DB View} {S} `{!Store S}
    CalcEthTxHash chainID (db : DB) snapshot metadata files (ch ch' : Chain S) :
  ProofTrios metadata = [] -> BHeight snapshot <> GenesisBlockHeight ->
  loadPrevChain CalcEthTxHash chainID db snapshot metadata (Some files) ch <> Ok ch'.
Proof.
  unfold loadPrevChain. intros Ht Hs Hl. destruct (boundaries files) as [bs| |]; cbn [mbind outcome_bind] in Hl; try done.
  destruct (prev_chain_run _ _ _ _ _ _ _ _ _) as [[ch1 prev]| |] eqn:Hr; cbn [mbind outcome_bind] in Hl; try done.
  apply prev_chain_run_ok with (trios := ProofTrios metadata) in Hr as (l & _ & -> & Hc & Hk & _); [|done].
  destruct (last (merge_sort start_desc bs)) as [[[start end_] c]|]; [|done].
  destruct l as [|b l]; [done|]. cbn [fmap list_fmap hash_linked] in Hk. destruct Hk as [Hb _].
  apply Forall_cons in Hc as [((vs & votes & _ & _ & Hset) & _) _].
  destruct (EBHeight (BBlock b) =? BHeight snapshot) eqn:Hh; [|by destruct Hb as (? & ? & _)].
  apply Z.eqb_eq in Hh. rewrite Hh in Hset. rewrite (proj2 (Z.eqb_neq _ _)) in Hset by done.
  destruct Hset as (t & Hin & _). rewrite Ht in Hin. by apply elem_of_nil in Hin.
Qed.

(** ** Snapshots to evaluate *)

#[local] Existing Instance demo_crypto.
#[local] Existing Instance toy_crypto.

Definition demo_set : ValidatorSet := mkValidatorSet 1 [mkValidator 7 5].
Definition demo_header (height parent : Z) : BlockHeader :=
  let h := mkHeader "tsub" height height parent (mkCC None parent) 1 0 0 9 (Some 0) 7 None 0 in
  set_signature h (Some ("s" +:+ Header_SignBytes h)).
Definition demo_genesis : BlockHeader := demo_header 0 0.
Definition demo_first : BlockHeader := demo_header 1 (header_hash demo_genesis).
Definition demo_second : BlockHeader := demo_header 2 (header_hash demo_first).

Definition demo_sign (id block epoch : Z) : Vote := Sign (fun msg => "s" +:+ msg) (mkVote block 1 0 epoch id None).

Definition demo_backup (h : BlockHeader) : BackupBlock :=
  mkBackup (mkExtendedBlock (mkBlock h ["tx"]) [] BlockStatusDirectlyFinalized false)
           (Some (AddVotes NewVoteSet [demo_sign 7 (header_hash h) 3])).

Definition demo_lib : SnapshotLib := {|
  decode_header _ := (mkSnapshotHeader "" 0, Some "no header");
  decode_checkpoint _ := Err "no checkpoint";
  decode_metadata _ := Err "no metadata";
  decode_record raw := Ok (mkRecord (bytes_string raw) "value");
  decode_backup raw := match raw with
                       | [1] => Ok (demo_backup demo_first)
                       | [2] => Ok (demo_backup demo_second)
                       | _ => Err "no backup"
                       end;
  decode_valset _ := Err "no validators";
  decode_account_root _ := Ok 0;
  VerifyProof _ _ := Err "no proof";
  HexToHash _ := header_hash demo_genesis;
  Addr_Hex := toy_hex;
  Addr_HexToAddress := toy_unhex;
  CfgGenesisHash := "genesis";
  CheckpointInterval := 100
|}.
#[local] Existing Instance demo_lib.

Definition demo_state : StateDB unit (Z * Z).
Proof.
  refine {| db_put db _ _ := db; open_view _ h r := Some (h, r); view_height := fst; view_hash := snd;
            view_set sv _ _ := sv; view_save db sv := (db, snd sv); view_valset _ := Some demo_set;
            view_heights _ := Some [] |}.
  - by intros db h r sv [= <-].
  - by intros db h r sv [= <-].
  - done.
Defined.
#[local] Existing Instance demo_state.

(** The trio of the genesis block, as it is exported. *)
Definition demo_trio : SnapshotBlockTrio :=
  mkTrio (mkFirst (demo_header 0 0) []) (mkSecond demo_genesis) (mkThird (demo_header 0 0) None).

(** ** Main theorems *)

(** (files of records). What [writeBytes] writes, [ReadRecord] reads: the loop of every
    loader over a file of records handles exactly the written records in their
    order and then ends, whatever it does with a record; and it ends in the
    same way when the file is cut off right after the length of a further
    record. *)
Theorem record_stream {A St} (decode : list Z -> outcome A) (step : St -> A -> outcome St) st raws as_ tail :
  Forall2 (fun raw a => len raw <= maxAlloc /\ decode raw = Ok a) raws as_ -> ends_file tail ->
  fold_records decode step st (concat (writeBytes <$> raws) ++ tail) = run_list step st as_.
Proof. intros Hall Htail. unfold fold_records. apply fold_all_write; [done|done|apply file_length]. Qed.

Lemma record_stream_witness :
  fold_records decode_record (fun n r => Ok (n + Z.of_nat (String.length (Snapshot.K r)))) 0
    (concat (writeBytes <$> [[97; 98; 99]; []; [100]]) ++ Itobytes 5) = Ok 4.
Proof.
  rewrite (record_stream _ _ _ _ [mkRecord "abc" "value"; mkRecord "" "value"; mkRecord "d" "value"]).
  - reflexivity.
  - repeat constructor; unfold maxAlloc; vm_compute; try discriminate; reflexivity.
  - right. exists 5. split; [|split; [|reflexivity]]; unfold is_u64, two64, maxAlloc; lia.
Defined.

(** C20 (proof trios). [checkProofTrios] returns a validator set exactly when the trios are
    evidence for it from the genesis block on: the first trio holds the block
    with the expected genesis hash, and every further trio is linked by parents
    and certificates, has its second block certified by the set before (valid
    votes of members for that block that weigh more than two thirds of the
    stake), and proves the next set in the state of its first block. *)
Theorem proof_trios_trust `{!BlockCrypto} `{!VoteCrypto} `{!SnapshotLib} {DB View} `{!StateDB DB View}
    (trios : list SnapshotBlockTrio) (db : DB) vs :
  checkProofTrios trios db = Ok (Some vs) <-> trusted db trios vs.
Proof. apply checkProofTrios_iff. Qed.

(** C21 (repeated votes). A majority can be forged by one validator: any number of its votes
    for a block in distinct epochs is counted with its stake each time, so that
    [validateVotes] accepts the block as soon as the sum passes two thirds of
    the total stake, however small its share is. *)
Theorem repeated_votes_accepted `{!BlockCrypto} `{!VoteCrypto} vs block a votes :
  Forall (fun v => ID v = a /\ Vote.Block v = header_hash block /\ Vote_Validate v = Ok tt) votes ->
  NoDup (Epoch <$> votes) -> is_ok (GetValidator vs a) = true ->
  ValidatorSet_TotalStake vs * 2 < len votes * weight vs a * 3 ->
  validateVotes (Some vs) block (Some (AddVotes NewVoteSet votes)) = Ok tt.
Proof. intros. apply validateVotes_iff. by apply repeated_certified with a. Qed.

Lemma repeated_votes_accepted_witness :
  let vs := mkValidatorSet 1 [mkValidator 1 1; mkValidator 2 1; mkValidator 3 1; mkValidator 4 1] in
  let votes := demo_sign 1 (header_hash demo_first) <$> [1; 2; 3] in
  validateVotes (Some vs) demo_first (Some (AddVotes NewVoteSet votes)) = Ok tt /\
  weight vs 1 * 4 = ValidatorSet_TotalStake vs.
Proof.
  split; [|reflexivity].
  apply (repeated_votes_accepted _ demo_first 1).
  - repeat constructor; vm_compute; reflexivity.
  - apply (bool_decide_unpack _). vm_compute. exact I.
  - reflexivity.
  - vm_compute. reflexivity.
Defined.

(** C19 (backups before the snapshot). When the backups of a directory are loaded, the records of the files
    that do not start above the snapshot, from the highest start to the lowest
    and without the blocks above the snapshot, form one chain below it: the
    first is the snapshot block, each further one has the hash its successor
    names as parent and the height below it (or is the snapshot block again),
    and the last has the lowest start named in the directory.  Each is certified
    by the validator set of the genesis block or of a proof trio whose change is
    in force (or of the first trio).  With a chain at hand, each is valid and
    carries its id, and the chain afterwards is the one before with exactly
    these blocks: the new ones under their hash with header, transactions,
    children and status as in the backup and in the index of heights; those
    that were there with their header, children and status, and with the
    transactions of the backup at the heights of the snapshot.  Without a chain
    nothing is stored. *)
Theorem prev_chain_linked `{!BlockCrypto} `{!VoteCrypto} `{!SnapshotLib} {DB View} `{!StateDB DB View} {S} `{!Store S}
    CalcEthTxHash chainID (db : DB) snapshot metadata files (ch ch' : Chain S) :
  loadPrevChain CalcEthTxHash chainID db snapshot metadata (Some files) ch = Ok ch' ->
  exists bs b l eb, boundaries files = Ok bs /\
    read_backups snapshot (merge_sort start_desc bs) = Ok (b :: l) /\
    hash_linked snapshot None (BBlock <$> b :: l) /\
    EBHash (BBlock b) = header_hash snapshot /\
    Forall (certified_backup chainID db (ProofTrios metadata)) (b :: l) /\
    lowest None (b :: l) = Some eb /\
    (forall name content s e, (name, content) ∈ files -> getChainBoundary name = Ok (s, e) -> EBHeight eb <= s) /\
    match chainID with Some _ => imports snapshot (b :: l) ch ch' | None => ch' = ch end.
Proof.
  unfold loadPrevChain. intros Hl. destruct (boundaries files) as [bs| |] eqn:Hb; cbn [mbind outcome_bind] in Hl; try done.
  destruct (prev_chain_run _ _ _ _ _ _ _ _ _) as [[ch1 prev]| |] eqn:Hr; cbn [mbind outcome_bind] in Hl; try done.
  apply prev_chain_run_ok with (trios := ProofTrios metadata) in Hr as (l & Hrd & -> & Hc & Hk & Hi); [|done].
  destruct (last (merge_sort start_desc bs)) as [[[start end_] c]|] eqn:Hlast; [|done].
  destruct (lowest None l) as [eb|] eqn:Hlow; [|done]. destruct l as [|b l]; [done|].
  destruct (EBHeight eb =? start) eqn:Hst; cbn in Hl; [|done]. apply Z.eqb_eq in Hst. injection Hl as <-.
  exists bs, b, l, eb. split_and!; [done|done|done| |done|done| |exact Hi].
  - cbn [fmap list_fmap hash_linked] in Hk. destruct Hk as [Hfirst _].
    destruct (EBHeight (BBlock b) =? BHeight snapshot); [done|]. by destruct Hfirst as (? & ? & _).
  - intros name content s e Hin Hg. rewrite Hst.
    apply (last_start _ _ (s, e, content) Hlast). by eapply boundaries_in.
Qed.

Definition demo_dir : list (string * list Z) := [("theta_chain-1-2-2022-01-01", writeBytes [2] ++ writeBytes [1])].
Definition demo_imported : Chain (gmap Key Value) :=
  match loadPrevChain no_eth (Some "tsub") tt demo_second (mkMetadata [demo_trio] demo_trio) (Some demo_dir) no_chain with
  | Ok ch => ch
  | _ => no_chain
  end.

(** A backup of two blocks, the snapshot block and its parent, is stored in an
    empty chain. *)
Lemma prev_chain_linked_witness :
  exists b l, hash_linked demo_second None (BBlock <$> b :: l) /\ EBHash (BBlock b) = header_hash demo_second /\
    imports demo_second (b :: l) no_chain demo_imported /\ length l = 1%nat /\
    is_Some (findBlock demo_imported (header_hash demo_first)).
Proof.
  destruct (prev_chain_linked no_eth (Some "tsub") tt demo_second (mkMetadata [demo_trio] demo_trio)
              demo_dir no_chain demo_imported) as (bs & b & l & eb & Hb & Hrd & Hk & Hf & _ & _ & _ & Hi).
  - assert (Hok : is_ok (loadPrevChain no_eth (Some "tsub") tt demo_second (mkMetadata [demo_trio] demo_trio)
                           (Some demo_dir) no_chain) = true) by (vm_compute; reflexivity).
    unfold demo_imported. destruct (loadPrevChain _ _ _ _ _ _ _) as [c| |]; [reflexivity|discriminate Hok..].
  - exists b, l. split; [exact Hk|]. split; [exact Hf|]. split; [exact Hi|]. split; [|vm_compute; by eexists].
    vm_compute in Hb. injection Hb as <-. vm_compute in Hrd. by injection Hrd as _ <-.
Defined.

(** (last checkpoint). [checkLastCheckpoint] accepts exactly when fewer than
    [CheckpointInterval] parent links through stored blocks lead from the
    snapshot block to the checkpoint. *)
Theorem checkpoint_descendant `{!BlockCrypto} `{!SnapshotLib} {S} `{!Store S} (ch : Chain S) header cp :
  checkLastCheckpoint ch header cp = Ok tt <->
  exists k, (k < Z.to_nat CheckpointInterval)%nat /\
    nth_ancestor ch k (header_hash header) = Some (header_hash (CheckpointHeader cp)).
Proof.
  rewrite <- checkpoint_loop_iff. unfold checkLastCheckpoint.
  destruct (checkpoint_loop _ _ _ _) as [[]| |]; cbn; done.
Qed.
