(* ===== verification/SnapshotExport.v ===== *)
(** * Export of snapshots, backups and corrections
    (src/snapshot/snapshot_export.go, chain_export.go,
    chain_correction_export.go)

    The three versions of the snapshot share the choice of the block, the last
    checkpoint and the tail; versions 2 and 3 also hold the proof trios of the
    validator set changes.  Files are written as lists of records; the encoders
    of the records, the traversals of the tries, the proofs and the ledger are
    parameters. *)

From Stdlib Require Import Ascii.
From stdpp Require Import gmap sorting.
From stdpp Require Import base list numbers strings.
From S2P Require Import Prelude Vote Validator Block Chain Text Snapshot SnapshotImport.
Local Open Scope string_scope.
Local Open Scope list_scope.
Local Open Scope Z_scope.

(** A header, a checkpoint, a block without the caches of their hashes: what
    the encoder sees. *)
Definition clear_block (eb : ExtendedBlock) : ExtendedBlock := stored eb.
Definition clear_backup (b : BackupBlock) : BackupBlock := mkBackup (clear_block (BBlock b)) (BVotes b).

(** The encoders; a backup within the ranges of its fields ([encodable]) is
    read back, without its caches, and fits into a slice. *)
Class SnapshotEnc `{!SnapshotLib} := {
  encode_header : SnapshotHeader -> list Z;
  encode_checkpoint : LastCheckpoint -> list Z;
  encode_metadata : SnapshotMetadata -> list Z;
  encode_record : SnapshotTrieRecord -> list Z;
  encode_backup : BackupBlock -> list Z;
  encodable : BackupBlock -> Prop;
  encode_backup_len b : encodable b -> len (encode_backup b) <= maxAlloc;
  decode_encode_backup b : encodable b -> decode_backup (encode_backup b) = Ok (clear_backup b)
}.

(** The traversals: the entries of a view, those of the trie of an account
    ([None] when its root is missing), the nodes of a trie without those of the
    trie [base] (none for the empty hash) with a panic when a node is missing,
    and [ProveValidatorSet]. *)
Class StateDump (View : Type) := {
  view_entries : View -> list (Bytes * Bytes);
  prove_valset : View -> outcome ValidatorSetProof
}.
Class TrieDump (DB : Type) := {
  storage_entries : DB -> Hash -> option (list (Bytes * Bytes));
  trie_records : DB -> Hash -> Hash -> outcome (list (Hash * Bytes))
}.

(** [common.LastCheckPointHeight], [Hash.Hex], and what [TxFromBytes] (modelled
    with the ledger) says of a transaction: [None] for one that does not decode,
    else whether it is a coinbase transaction. *)
Class ExportLib := {
  LastCheckPointHeight : uint64 -> uint64;
  tx_is_coinbase : Bytes -> option bool;
  Hash_Hex : Hash -> string
}.

Section Exports.
Context `{!BlockCrypto} `{!VoteCrypto} `{!SnapshotLib} `{!SnapshotEnc} `{!ExportLib}.
Context {DB View : Type} `{!StateDB DB View} `{!StateDump View} `{!TrieDump DB} {S : Type} `{!Store S}.
Implicit Types (ch : Chain S) (db : DB).

Definition find_opt ch (h : Hash) (msg : string) : outcome ExtendedBlock :=
  match findBlock ch h with Some b => Ok b | None => Err msg end.

(** The block of the snapshot: the directly finalized one at a given height,
    or the last finalized block. *)
Definition snapshot_block ch (height : uint64) (lastFinalized : Hash) : outcome ExtendedBlock :=
  if negb (height =? 0) then
    match list_find (fun b => IsDirectlyFinalized (Status b) = true) (findBlocksByHeight ch height) with
    | Some (_, b) => Ok b
    | None => Err "Can't find finalized block at height"
    end
  else find_opt ch lastFinalized "Failed to get block".

(** The blocks from the snapshot block down to the checkpoint height; the fuel
    is the number of heights. *)
Fixpoint checkpoint_walk ch (fuel : nat) (curr : ExtendedBlock) (target : uint64) (headers : list BlockHeader)
    : outcome (ExtendedBlock * list BlockHeader) :=
  if EBHeight curr <=? target then Ok (curr, headers)
  else match fuel with
       | O => Err "out of fuel"
       | Datatypes.S fuel =>
           parent ← find_opt ch (EBParent curr) "Failed to get intermediate block";
           checkpoint_walk ch fuel parent target (headers ++ [Header (EBlock parent)])
       end.

Definition export_checkpoint ch (lfb : ExtendedBlock) : outcome (ExtendedBlock * LastCheckpoint) :=
  '(b, headers) ← checkpoint_walk ch (Z.to_nat (EBHeight lfb)) lfb (LastCheckPointHeight (EBHeight lfb)) [];
  Ok (b, mkLastCheckpoint (Header (EBlock b)) headers).

(** ** Children *)

Fixpoint find_child ch (accept : BlockStatus -> bool) (children : list Hash) : outcome (option ExtendedBlock) :=
  match children with
  | [] => Ok None
  | h :: rest =>
      b ← find_opt ch h "Failed to get block";
      if accept (Status b) then Ok (Some b) else find_child ch accept rest
  end.

Definition getFinalizedChild ch (block : ExtendedBlock) : outcome (option ExtendedBlock) :=
  find_child ch IsFinalized (Children block).
Definition getAtLeastCommittedChild ch (block : ExtendedBlock) : outcome (option ExtendedBlock) :=
  find_child ch (fun s => IsFinalized s || IsCommitted s) (Children block).

Definition proveValidatorSet (block : ExtendedBlock) db : outcome ValidatorSetProof :=
  match open_view db (EBHeight block) (StateHash (Header (EBlock block))) with
  | None => Panic nil_pointer
  | Some sv => match prove_valset sv with
               | Ok p => Ok p | Err _ => Err "failed to get VS Proof" | Panic e => Panic e end
  end.

(** ** Proof trios *)

(** The zero header of an empty trio part, as it is decoded again. *)
Definition zero_header : BlockHeader := mkHeader "" 0 0 0 (mkCC None 0) 0 0 0 0 None 0 None 0.

Definition genesis_trio (h : BlockHeader) : SnapshotBlockTrio :=
  mkTrio (mkFirst zero_header []) (mkSecond h) (mkThird zero_header None).

(** The trio of a directly finalized block with a change of the validators. *)
Definition export_trio ch db (block : ExtendedBlock) : outcome SnapshotBlockTrio :=
  b ← getFinalizedChild ch block;
  match b with
  | None => Err "Can't find finalized child block."
  | Some cb =>
      g ← getFinalizedChild ch cb;
      match g with
      | None => Err "Can't find finalized grandchild block."
      | Some gb =>
          let child := Header (EBlock cb) in
          let grandChild := Header (EBlock gb) in
          if negb ((CCBlockHash (HCC child) =? EBHash block) && (CCBlockHash (HCC grandChild) =? header_hash child))
          then Err "Invalid block HCC link for validator set changes" else
          match CCVotes (HCC grandChild) with
          | None => Panic nil_pointer
          | Some votes =>
              if VoteSet_IsEmpty votes then Err "Missing block HCC votes for validator set changes"
              else if negb (forallb (fun v => Vote.Block v =? header_hash child) (Votes (range votes)))
              then Err "Invalid block HCC votes for validator set changes"
              else
                vsProof ← proveValidatorSet block db;
                Ok (mkTrio (mkFirst (Header (EBlock block)) vsProof) (mkSecond child) (mkThird grandChild None))
          end
      end
  end.

(** The trio of a height: the one saved by an import, or a new one. *)
Definition trio_at (st : SnapState (DB := DB) (S := S)) (height : uint64) : outcome SnapshotBlockTrio :=
  match s_trios st !! height with
  | Some t => Ok t
  | None =>
      if height =? GenesisBlockHeight then
        match findBlocksByHeight (s_chain st) GenesisBlockHeight with
        | [] => Panic "runtime error: index out of range [0] with length 0"
        | b :: _ => Ok (genesis_trio (Header (EBlock b)))
        end
      else
        match list_find (fun b => IsDirectlyFinalized (Status b) = true) (findBlocksByHeight (s_chain st) height) with
        | None => Err "Finalized block not found for height"
        | Some (_, b) => export_trio (s_chain st) (s_db st) b
        end
  end.

Fixpoint export_trios (st : SnapState (DB := DB) (S := S)) (heights : list uint64) : outcome (list SnapshotBlockTrio) :=
  match heights with
  | [] => Ok []
  | height :: rest => t ← trio_at st height; ts ← export_trios st rest; Ok (t :: ts)
  end.

(** The genesis header found on the way: the second block of the trio of
    height zero. *)
Definition genesis_header (heights : list uint64) (trios : list SnapshotBlockTrio) : option BlockHeader :=
  match last (filter (fun p : uint64 * SnapshotBlockTrio => fst p = GenesisBlockHeight) (zip heights trios)) with
  | Some (_, t) => Some (SecondHeader (Second t))
  | None => None
  end.

(** ** The tail *)

(** The parent, the snapshot block and a committed child with its votes. *)
Definition export_tail ch db (lfb : ExtendedBlock) : outcome (ExtendedBlock * SnapshotBlockTrio) :=
  parent ← find_opt ch (EBParent lfb) "Failed to find last finalized block's parent";
  c ← getAtLeastCommittedChild ch lfb;
  if negb (CCBlockHash (HCC (Header (EBlock lfb))) =? EBHash parent) then Err "Parent block hash mismatch" else
  match c with
  | None => Panic nil_pointer
  | Some child =>
      if negb (CCBlockHash (HCC (Header (EBlock child))) =? EBHash lfb) then Err "Finalized block hash mismatch" else
      vsProof ← proveValidatorSet parent db;
      Ok (parent, mkTrio (mkFirst (Header (EBlock parent)) vsProof) (mkSecond (Header (EBlock lfb)))
                    (mkThird (Header (EBlock child)) (Some (FindVotesByHash ch (EBHash child)))))
  end.

(** ** The state section *)

Definition record (k v : Bytes) : SnapshotTrieRecord := mkRecord k v.
Definition bracket (which : Z) (height : uint64) : SnapshotTrieRecord :=
  mkRecord (bytes_string [which]) (bytes_string (Itobytes height)).

Definition account_records db (height : uint64) (v : Bytes) : outcome (list SnapshotTrieRecord) :=
  match decode_account_root v with
  | Ok root =>
      if root =? 0 then Ok [] else
      match storage_entries db root with
      | None => Panic nil_pointer
      | Some entries =>
          Ok (bracket SVStart height :: ((fun e : Bytes * Bytes => record (fst e) (snd e)) <$> entries) ++
              [bracket SVEnd height])
      end
  | _ => Panic "Failed to parse account"
  end.

Fixpoint view_records db (needAccountStorage : bool) (height : uint64) (entries : list (Bytes * Bytes))
    : outcome (list SnapshotTrieRecord) :=
  match entries with
  | [] => Ok []
  | (k, v) :: rest =>
      acc ← (if needAccountStorage && String.prefix "ls/a" k then account_records db height v else Ok []);
      l ← view_records db needAccountStorage height rest;
      Ok (record k v :: acc ++ l)
  end.

Definition writeStoreView (sv : View) (needAccountStorage : bool) db : outcome (list SnapshotTrieRecord) :=
  l ← view_records db needAccountStorage (view_height sv) (view_entries sv);
  Ok (bracket SVStart (view_height sv) :: l ++ [bracket SVEnd (view_height sv)]).

(** A node under its hash. *)
Definition writeTrie (root : Hash) db (base : Hash) : outcome (list SnapshotTrieRecord) :=
  nodes ← trie_records db root base;
  Ok (List.map (fun p : Hash * Bytes => record (bytes_string (be_bytes 32 (fst p))) (snd p)) nodes).

Fixpoint account_tries db (entries : list (Bytes * Bytes)) : outcome (list SnapshotTrieRecord) :=
  match entries with
  | [] => Ok []
  | (k, v) :: rest =>
      acc ← (if String.prefix "ls/a" k then
               match decode_account_root v with
               | Ok root => if root =? 0 then Ok [] else writeTrie root db 0
               | _ => Panic "Failed to parse account"
               end
             else Ok []);
      l ← account_tries db rest;
      Ok (acc ++ l)
  end.

Definition writeStoreViewV3 (sv : View) (needAccountStorage : bool) db (base : Hash) : outcome (list SnapshotTrieRecord) :=
  l ← writeTrie (view_hash sv) db base;
  acc ← (if needAccountStorage then account_tries db (view_entries sv) else Ok []);
  Ok (l ++ acc).

(** The view of a block; a missing one is dereferenced. *)
Definition view_of db (height : uint64) (root : Hash) : outcome View :=
  match open_view db height root with Some sv => Ok sv | None => Panic nil_pointer end.
Definition block_view db (eb : ExtendedBlock) : outcome View :=
  view_of db (EBHeight eb) (StateHash (Header (EBlock eb))).

(** ** The file *)

Definition snapshot_name (sv : View) (date : string) : string :=
  "theta_snapshot-" +:+ decimal (view_height sv) +:+ "-" +:+ Hash_Hex (view_hash sv) +:+ "-" +:+ date.

Definition snapshot_file (version : Z) (cp : LastCheckpoint) (metadata : SnapshotMetadata)
    (records : list SnapshotTrieRecord) : list Z :=
  writeBytes (encode_header (mkSnapshotHeader SnapshotHeaderMagic version)) ++
  writeBytes (encode_checkpoint cp) ++ writeBytes (encode_metadata metadata) ++
  concat ((fun r => writeBytes (encode_record r)) <$> records).

(** The heights of the validator set updates; nil is dereferenced. *)
Definition update_heights (sv : View) : outcome (list uint64) :=
  match view_heights sv with Some l => Ok l | None => Panic nil_pointer end.

Definition ExportSnapshotV2 (st : SnapState (DB := DB) (S := S)) (height : uint64) (lastFinalized : Hash) (date : string)
    : outcome (string * list Z) :=
  let ch := s_chain st in let db := s_db st in
  lfb ← snapshot_block ch height lastFinalized;
  sv ← block_view db lfb;
  '(cpBlock, cp) ← export_checkpoint ch lfb;
  heights ← update_heights sv;
  trios ← export_trios st heights;
  '(parent, tail) ← export_tail ch db lfb;
  match genesis_header heights trios with
  | None => Panic nil_pointer
  | Some genesis =>
      genesisSV ← view_of db (BHeight genesis) (StateHash genesis);
      r1 ← writeStoreView genesisSV false db;
      r2 ← (if EBHeight lfb =? LastCheckPointHeight (EBHeight lfb) then Ok []
            else cpSV ← block_view db cpBlock; writeStoreView cpSV true db);
      parentSV ← block_view db parent;
      r3 ← writeStoreView parentSV true db;
      r4 ← writeStoreView sv true db;
      Ok (snapshot_name sv date, snapshot_file 2 cp (mkMetadata trios tail) (r1 ++ r2 ++ r3 ++ r4))
  end.

Definition ExportSnapshotV3 (st : SnapState (DB := DB) (S := S)) (height : uint64) (lastFinalized : Hash) (date : string)
    : outcome (string * list Z) :=
  let ch := s_chain st in let db := s_db st in
  lfb ← snapshot_block ch height lastFinalized;
  sv ← block_view db lfb;
  '(cpBlock, cp) ← export_checkpoint ch lfb;
  heights ← update_heights sv;
  trios ← export_trios st heights;
  '(parent, tail) ← export_tail ch db lfb;
  match genesis_header heights trios with
  | None => Panic nil_pointer
  | Some genesis =>
      genesisSV ← view_of db (BHeight genesis) (StateHash genesis);
      r1 ← writeStoreViewV3 genesisSV false db 0;
      r2 ← (if EBHeight lfb =? LastCheckPointHeight (EBHeight lfb) then Ok []
            else cpSV ← block_view db cpBlock; writeStoreViewV3 cpSV false db (view_hash genesisSV));
      parentSV ← block_view db parent;
      r3 ← writeStoreViewV3 parentSV false db (view_hash genesisSV);
      r4 ← writeStoreViewV3 sv true db (view_hash parentSV);
      Ok (snapshot_name sv date, snapshot_file 3 cp (mkMetadata trios tail) (r1 ++ r2 ++ r3 ++ r4))
  end.

Definition ExportSnapshotV4 (st : SnapState (DB := DB) (S := S)) (height : uint64) (lastFinalized : Hash) (date : string)
    : outcome (string * list Z) :=
  let ch := s_chain st in let db := s_db st in
  lfb ← snapshot_block ch height lastFinalized;
  sv ← block_view db lfb;
  '(cpBlock, cp) ← export_checkpoint ch lfb;
  '(parent, tail) ← export_tail ch db lfb;
  r2 ← (if EBHeight lfb =? LastCheckPointHeight (EBHeight lfb) then Ok []
        else cpSV ← block_view db cpBlock; writeStoreViewV3 cpSV false db 0);
  parentSV ← block_view db parent;
  r3 ← writeStoreViewV3 parentSV false db 0;
  r4 ← writeStoreViewV3 sv true db (view_hash parentSV);
  Ok (snapshot_name sv date, snapshot_file 4 cp (mkMetadata [] tail) (r2 ++ r3 ++ r4)).

(** ** Backups *)

(** The highest finalized block between the heights; the loop counts down with
    an unsigned counter, so it does not stop at a start height of zero. *)
Fixpoint backup_end ch (fuel : nat) (i start : uint64) : outcome ExtendedBlock :=
  if i <? start then Err "There's no finalized block between the heights"
  else match fuel with
       | O => Err "out of fuel"
       | Datatypes.S fuel =>
           match list_find (fun b => IsFinalized (Status b) = true) (findBlocksByHeight ch i) with
           | Some (_, b) => Ok b
           | None => backup_end ch fuel (u64_sub i 1) start
           end
       end.

(** The backup of a block and of its ancestors down to the start height, or to
    the first one whose parent is missing. *)
Fixpoint backup_blocks ch (fuel : nat) (eb : ExtendedBlock) (start : uint64) : outcome (list BackupBlock * uint64) :=
  let b := mkBackup eb (Some (FindVotesByHash ch (EBHash eb))) in
  if EBHeight eb <=? start then Ok ([b], start)
  else match fuel with
       | O => Err "out of fuel"
       | Datatypes.S fuel =>
           match findBlock ch (EBParent eb) with
           | None => Ok ([b], EBHeight eb)
           | Some parent =>
               '(l, s) ← backup_blocks ch fuel parent start;
               Ok (b :: l, s)
           end
       end.

Definition backup_file (blocks : list BackupBlock) : list Z :=
  concat ((fun b => writeBytes (encode_backup b)) <$> blocks).

Definition backup_name (start end_ : uint64) (date : string) : string :=
  "theta_chain-" +:+ decimal start +:+ "-" +:+ decimal end_ +:+ "-" +:+ date.

(** [ExportChainBackup]: the actual start and end, the name and the content of
    the file. *)
Definition ExportChainBackup ch (fuel : nat) (startHeight endHeight : uint64) (date : string)
    : outcome (uint64 * uint64 * string * list Z) :=
  if endHeight <? startHeight then Err "start height must be <= end height" else
  eb ← backup_end ch fuel endHeight startHeight;
  '(blocks, start) ← backup_blocks ch fuel eb startHeight;
  Ok (start, EBHeight eb, backup_name start (EBHeight eb) date, backup_file blocks).

(** ** Corrections *)

(** [ExcludeTxs]: [TxFromBytes] decodes no stake transactions. *)
Definition ExcludeTxs (txs : list Bytes) (exclusion : list string) : list Bytes :=
  filter (fun tx => tx_is_coinbase tx = Some false /\ Hash_Hex (Keccak256Hash tx) ∉ exclusion) txs.

Definition set_links (h : BlockHeader) (parent hcc : Hash) : BlockHeader :=
  mkHeader (ChainID h) (BEpoch h) (BHeight h) parent (mkCC (CCVotes (HCC h)) hcc) (TxHash h) (ReceiptHash h)
    (Bloom h) (StateHash h) (Timestamp h) (Proposer h) (BSignature h) (hash h).
Definition set_state_hash (h : BlockHeader) (r : Hash) : BlockHeader :=
  mkHeader (ChainID h) (BEpoch h) (BHeight h) (Parent h) (HCC h) (TxHash h) (ReceiptHash h)
    (Bloom h) r (Timestamp h) (Proposer h) (BSignature h) (hash h).
Definition set_children (eb : ExtendedBlock) (l : list Hash) : ExtendedBlock :=
  mkExtendedBlock (EBlock eb) l (Status eb) (HasValidatorUpdate eb).

(** The block without the excluded transactions, its hash calculated anew. *)
Definition exclude_block (exclusion : list string) (eb : ExtendedBlock) : ExtendedBlock :=
  let txs := ExcludeTxs (Txs (EBlock eb)) exclusion in
  let h := set_tx_hashes (Header (EBlock eb)) (CalculateRootHash txs) (ReceiptHash (Header (EBlock eb))) in
  mkExtendedBlock (mkBlock (snd (UpdateHash h)) txs) (Children eb) (Status eb) (HasValidatorUpdate eb).

(** The blocks from the end block down to the one above the snapshot. *)
Fixpoint correction_stack ch (fuel : nat) (exclusion : list string) (snapshotHeight : uint64) (eb : ExtendedBlock)
    : outcome (list ExtendedBlock) :=
  let b := exclude_block exclusion eb in
  if EBHeight eb <=? u64_add snapshotHeight 1 then Ok [b]
  else match fuel with
       | O => Err "out of fuel"
       | Datatypes.S fuel =>
           parent ← find_opt ch (EBParent eb) "Can't find block";
           l ← correction_stack ch fuel exclusion snapshotHeight parent;
           Ok (b :: l)
       end.

Context {L : Type} `{!CorrectionLedger L}.

(** A block linked to its parent and executed, with the new state root. *)
Definition rewrite_block (snapshot parent : ExtendedBlock) (ledger : L) (eb : ExtendedBlock)
    : outcome (ExtendedBlock * L) :=
  let b := mkBlock (set_links (Header (EBlock eb)) (EBHash parent) (EBHash snapshot)) (Txs (EBlock eb)) in
  ledger ← ledger_reset ledger (EBlock parent);
  '(r, ledger) ← ledger_apply ledger b;
  let h := snd (UpdateHash (set_state_hash (Header b) r)) in
  Ok (mkExtendedBlock (mkBlock h (Txs b)) [] (Status eb) (HasValidatorUpdate eb), ledger).

(** The blocks from the lowest on; the children of each are set when its
    successor has its hash. *)
Fixpoint rewrite_chain (snapshot parent : ExtendedBlock) (ledger : L) (blocks : list ExtendedBlock)
    : outcome (list ExtendedBlock) :=
  match blocks with
  | [] => Ok []
  | eb :: rest =>
      '(b, ledger) ← rewrite_block snapshot parent ledger eb;
      l ← rewrite_chain snapshot b ledger rest;
      Ok (set_children b (match l with c :: _ => [EBHash c] | [] => [] end) :: l)
  end.

(** [ExportChainCorrection]: the name, the file and the hashes by height. *)
Definition ExportChainCorrection ch (ledger : L) (fuel : nat) (snapshotHeight : uint64) (endBlockHash : Hash)
    (exclusion : list string) : outcome (string * list Z * list (uint64 * string)) :=
  block ← find_opt ch endBlockHash "Can't find block for hash";
  if negb (IsFinalized (Status block)) then Err "End Block is not finalized yet" else
  if EBHeight block <=? snapshotHeight then Err "Start height must be < end height" else
  stack ← correction_stack ch fuel exclusion snapshotHeight block;
  match list_find (fun b => IsDirectlyFinalized (Status b) = true) (findBlocksByHeight ch snapshotHeight) with
  | None => Panic nil_pointer
  | Some (_, snapshot) =>
      blocks ← rewrite_chain snapshot snapshot ledger (reverse stack);
      let out := reverse blocks in
      Ok ("theta_chain_correction-" +:+ decimal snapshotHeight +:+ "-" +:+ decimal (EBHeight block),
          backup_file ((fun b => mkBackup b None) <$> out),
          (fun b => (EBHeight b, Hash_Hex (EBHash b))) <$> out)
  end.

End Exports.
