(* ===== verification/SnapshotExportSpec.v ===== *)
(** * Correctness of the exports

    A backup is read back by the import as the chain it was written from, under
    the boundaries its name tells.  A correction of more than one block needs
    blocks in the chain that only the correction creates.  The ledger of
    Ledger.v implements the interface of corrections. *)

From Stdlib Require Import Ascii DecimalString.
From stdpp Require Import gmap sorting.
From stdpp Require Import base list numbers strings.
From S2P Require Import Prelude Vote Validator Block Chain Text Snapshot SnapshotImport SnapshotSpec SnapshotExport.
Local Open Scope string_scope.
Local Open Scope list_scope.
Local Open Scope Z_scope.

(** ** Names of backups *)

Lemma ParseUint_decimal z : is_u64 z -> ParseUint (decimal z) = z.
Proof.
  intros Hz. unfold ParseUint, is_decimal. rewrite decimal_digits by (unfold is_u64 in Hz; lia).
  rewrite (proj2 (String.eqb_neq _ _)) by apply decimal_nonempty. cbn [negb andb].
  rewrite SetString10_decimal, (proj2 (Z.ltb_lt _ _)) by apply Hz. done.
Qed.

Lemma cut_dash_digits s rest : all_chars is_digit s = true -> cut_dash (s +:+ "-" +:+ rest) = Some (s, rest).
Proof.
  induction s as [|c s IH]; [done|]. cbn [all_chars]. intros [Hc Hs]%andb_true_iff.
  change (String c s +:+ "-" +:+ rest) with (String c (s +:+ "-" +:+ rest)). cbn [cut_dash]. rewrite IH by done.
  destruct (Ascii.eqb_spec c "-") as [->|]; [done|]. done.
Qed.

Lemma string_from_app p s : string_from (p +:+ s) (String.length p) = Ok s.
Proof. induction p as [|c p IH]; [by destruct s|exact IH]. Qed.

Lemma boundary_name s e date : is_u64 s -> is_u64 e -> getChainBoundary (backup_name s e date) = Ok (s, e).
Proof.
  intros Hs He. unfold getChainBoundary, backup_name. rewrite (string_from_app "theta_chain-").
  cbn [mbind outcome_bind].
  rewrite cut_dash_digits by (apply decimal_digits; apply Hs).
  rewrite cut_dash_digits by (apply decimal_digits; apply He). by rewrite !ParseUint_decimal.
Qed.

(** ** Backups *)

Section Backup.
Context `{!BlockCrypto} `{!VoteCrypto} `{!SnapshotLib} `{!SnapshotEnc} {S : Type} `{!Store S}.
Implicit Types (ch : Chain S).

(** Heights fit into their type, fall by one from a block to its parent, and
    are those of the index. *)
Definition consecutive ch : Prop :=
  heights_ok ch /\
  (forall h b pb, findBlock ch h = Some b -> findBlock ch (EBParent b) = Some pb -> EBHeight b = EBHeight pb + 1) /\
  (forall n b, b ∈ findBlocksByHeight ch n -> EBHeight b = n).

Definition finalized_at ch (n : uint64) (b : ExtendedBlock) : Prop :=
  b ∈ findBlocksByHeight ch n /\ IsFinalized (Status b) = true.

Lemma found_by_height ch n b : blocks_ok ch -> b ∈ findBlocksByHeight ch n -> findBlock ch (EBHash b) = Some b.
Proof.
  intros Hok (h & _ & Hb)%list_elem_of_omap. by rewrite (blocks_ok_hash ch h b Hok Hb).
Qed.

Lemma backup_end_ok ch : forall fuel i start,
  is_u64 i -> 0 <= start <= i -> (Z.to_nat (i - start) < fuel)%nat ->
  (exists n b, start <= n <= i /\ finalized_at ch n b) ->
  exists eb n, backup_end ch fuel i start = Ok eb /\ start <= n <= i /\ finalized_at ch n eb /\
    forall k b, n < k <= i -> ~ finalized_at ch k b.
Proof.
  induction fuel as [|fuel IH]; intros i start Hi Hs Hf (n & b & Hn & Hb); [lia|]. cbn [backup_end].
  rewrite (proj2 (Z.ltb_ge _ _)) by lia.
  destruct (list_find _ (findBlocksByHeight ch i)) as [[j eb]|] eqn:Hl.
  - apply list_find_Some in Hl as (Hj & Hfin & _). exists eb, i. split; [done|]. split; [lia|].
    split; [|intros; lia]. split; [by eapply list_elem_of_lookup_2|done].
  - rewrite list_find_None, Forall_forall in Hl.
    assert (n <> i) by (intros ->; destruct Hb as [Hin Hfin]; by destruct (Hl b Hin)).
    rewrite u64_sub_small by (unfold is_u64 in *; lia).
    destruct (IH (i - 1) start) as (eb & m & Hr & Hm & Hfin & Hmax); [unfold is_u64 in *; lia|lia|lia| |].
    { exists n, b. split; [lia|done]. }
    exists eb, m. split; [done|]. split; [lia|]. split; [done|]. intros k c Hk [Hin Hc].
    destruct (decide (k = i)) as [->|]; [by destruct (Hl c Hin)|]. apply (Hmax k c); [lia|done].
Qed.

(** What a backup of the blocks from [s] on holds below [prev]. *)
Definition link_below (snapshot : BlockHeader) (prev : option ExtendedBlock) (eb : ExtendedBlock) : Prop :=
  if EBHeight eb =? BHeight snapshot then EBHash eb = header_hash snapshot
  else exists above, prev = Some above /\ EBHeight eb = u64_sub (EBHeight above) 1 /\ EBParent above = EBHash eb.

Definition backs_up ch (start s : uint64) (l : list BackupBlock) : Prop :=
  Forall (fun b => findBlock ch (EBHash (BBlock b)) = Some (BBlock b) /\
                   BVotes b = Some (FindVotesByHash ch (EBHash (BBlock b)))) l /\
  exists b, last l = Some b /\ EBHeight (BBlock b) = s /\ (s = start \/ findBlock ch (EBParent (BBlock b)) = None).

Lemma backup_blocks_ok ch snapshot start : blocks_ok ch -> consecutive ch -> forall fuel eb prev,
  findBlock ch (EBHash eb) = Some eb -> start <= EBHeight eb <= BHeight snapshot ->
  (Z.to_nat (EBHeight eb - start) < fuel)%nat -> link_below snapshot prev eb ->
  exists l s, backup_blocks ch fuel eb start = Ok (mkBackup eb (Some (FindVotesByHash ch (EBHash eb))) :: l, s) /\
    start <= s <= EBHeight eb /\ len l = EBHeight eb - s /\
    backs_up ch start s (mkBackup eb (Some (FindVotesByHash ch (EBHash eb))) :: l) /\
    hash_linked snapshot prev (eb :: (BBlock <$> l)).
Proof.
  intros Hok (Hrange & Hpar & Hidx). induction fuel as [|fuel IH]; intros eb prev Hb Hs Hf Hlink; [lia|].
  cbn [backup_blocks]. destruct (EBHeight eb <=? start) eqn:Hle; bool_to_prop.
  { assert (EBHeight eb = start) by lia. exists [], start. split; [done|]. split; [lia|].
    split; [change (len (A := BackupBlock) []) with 0; lia|]. split; [|done]. split; [by repeat constructor|]. eexists. split_and!; [done|done|by left]. }
  destruct (findBlock ch (EBParent eb)) as [parent|] eqn:Hp.
  2:{ exists [], (EBHeight eb). split; [done|]. split; [lia|].
      split; [change (len (A := BackupBlock) []) with 0; lia|]. split; [|done]. split; [by repeat constructor|]. eexists. split_and!; [done|done|by right]. }
  pose proof (Hpar _ _ _ Hb Hp) as Hh. pose proof (Hrange _ _ Hb) as He. pose proof (Hrange _ _ Hp) as He'.
  pose proof (blocks_ok_hash ch _ _ Hok Hp) as Hph.
  destruct (IH parent (Some eb)) as (l & s & Hr & Hse & Hlen & [Hall Hlast] & Hl);
    [by rewrite Hph|lia|lia| |].
  { unfold link_below. rewrite (proj2 (Z.eqb_neq _ _)) by lia. exists eb.
    rewrite u64_sub_small by (unfold is_u64 in *; lia). split_and!; [done|lia|done]. }
  rewrite Hr. cbn [mbind outcome_bind]. eexists (_ :: l), s. split; [done|]. split; [lia|].
  split; [rewrite len_cons; lia|]. split; [|done]. split; [by constructor|]. destruct Hlast as (b & Hb' & Hlast). exists b. split; [|done]. by rewrite last_cons, Hb'.
Qed.

(** The import reads the blocks of a backup as they are stored. *)
Lemma backup_file_read {St} (step : St -> BackupBlock -> outcome St) st ch start s l :
  blocks_ok ch -> backs_up ch start s l -> Forall encodable l ->
  fold_records decode_backup step st (backup_file l) = run_list step st l.
Proof.
  intros Hok [Hall _] Henc. unfold fold_records, backup_file. rewrite <- (app_nil_r (concat _)).
  assert (((fun b => writeBytes (encode_backup b)) <$> l) = writeBytes <$> (encode_backup <$> l)) as -> by (by rewrite <- list_fmap_compose).
  apply fold_all_write; [|by left|apply file_length].
  rewrite Forall2_fmap_l. apply Forall_Forall2_diag. rewrite Forall_forall in *. intros b Hb.
  split; [by apply encode_backup_len, Henc|]. rewrite decode_encode_backup by (by apply Henc).
  destruct (Hall b Hb) as [Hf _]. unfold clear_backup, clear_block.
  rewrite (blocks_ok_stored ch _ _ Hok Hf). by destruct b.
Qed.

End Backup.

(** ** Corrections *)

Section Correction.
Context `{!BlockCrypto} `{!SnapshotLib} {L : Type} `{!CorrectionLedger L}.

Lemma rewrite_block_ok snapshot parent (ledger : L) eb b ledger' :
  rewrite_block snapshot parent ledger eb = Ok (b, ledger') ->
  EBParent b = EBHash parent /\ CCBlockHash (HCC (Header (EBlock b))) = EBHash snapshot /\
  ledger_knows ledger (EBHash parent) = true /\ forall h, ledger_knows ledger' h = ledger_knows ledger h.
Proof.
  unfold rewrite_block. set (nb := mkBlock _ _). intros Hr.
  destruct (ledger_reset ledger (EBlock parent)) as [l1| |] eqn:E1; cbn [mbind outcome_bind] in Hr; try done.
  destruct (ledger_apply l1 nb) as [[r l2]| |] eqn:E2; cbn [mbind outcome_bind] in Hr; try done.
  injection Hr as <- <-. split_and!; [done|done| |].
  - destruct (ledger_knows ledger (EBHash parent)) eqn:Hk; [done|].
    rewrite <- (ledger_reset_knows ledger (EBlock parent) l1 _ E1) in Hk. pose proof (ledger_apply_missing l1 nb Hk) as Hp.
    by rewrite E2 in Hp.
  - intros h. rewrite (ledger_apply_knows l1 nb r l2 h E2). by eapply ledger_reset_knows.
Qed.

Lemma rewrite_chain_ok snapshot blocks : forall parent (ledger : L) l,
  rewrite_chain snapshot parent ledger blocks = Ok l ->
  length l = length blocks /\
  (forall b, b ∈ l -> CCBlockHash (HCC (Header (EBlock b))) = EBHash snapshot) /\
  (forall b, head l = Some b -> EBParent b = EBHash parent /\ ledger_knows ledger (EBHash parent) = true) /\
  (forall i b c, l !! i = Some b -> l !! Datatypes.S i = Some c ->
     EBParent c = EBHash b /\ Children b = [EBHash c] /\ ledger_knows ledger (EBHash b) = true).
Proof.
  induction blocks as [|eb blocks IH]; intros parent ledger l Hr; cbn [rewrite_chain] in Hr.
  { injection Hr as <-. split_and!; [done| |done|done]. intros b Hb. by apply elem_of_nil in Hb. }
  destruct (rewrite_block snapshot parent ledger eb) as [[b l1]| |] eqn:E1; cbn [mbind outcome_bind] in Hr; try done.
  destruct (rewrite_chain snapshot b l1 blocks) as [rest| |] eqn:E2; cbn [mbind outcome_bind] in Hr; try done.
  injection Hr as <-. apply rewrite_block_ok in E1 as (Hp & Hcc & Hk & Hsame).
  apply IH in E2 as (Hlen & Hall & Hhead & Hnext). split_and!.
  - cbn. by rewrite Hlen.
  - intros c [->|Hc]%elem_of_cons; [done|by apply Hall].
  - intros c [= <-]. done.
  - intros [|i] c d Hc Hd.
    + injection Hc as <-. destruct rest as [|c' rest]; [done|]. injection Hd as ->.
      destruct (Hhead d eq_refl) as [Hpd Hkd]. rewrite Hsame in Hkd. done.
    + rewrite <- Hsame. by eapply Hnext.
Qed.

End Correction.

(** ** A chain to evaluate *)

#[local] Existing Instance demo_crypto.
#[local] Existing Instance toy_crypto.

(** Three finalized blocks. *)
Definition final_chain : Chain (gmap Key Value) :=
  match FinalizePreviousBlocks no_eth 4 demo (demo_hash 2) with Some (ch, _) => ch | None => demo end.

Definition final_backup (b : ExtendedBlock) : BackupBlock :=
  mkBackup b (Some (FindVotesByHash final_chain (EBHash b))).

(** A backup is encoded by the height of its block. *)
Definition height_lib : SnapshotLib := {|
  decode_header := @decode_header demo_lib;
  decode_checkpoint := @decode_checkpoint demo_lib;
  decode_metadata := @decode_metadata demo_lib;
  decode_record := @decode_record demo_lib;
  decode_backup raw := match raw with
                       | [n] => match findBlocksByHeight final_chain n with
                                | b :: _ => Ok (final_backup b)
                                | [] => Err "no block"
                                end
                       | _ => Err "no height"
                       end;
  decode_valset := @decode_valset demo_lib;
  decode_account_root := @decode_account_root demo_lib;
  VerifyProof := @VerifyProof demo_lib;
  HexToHash := @HexToHash demo_lib;
  Addr_Hex := toy_hex;
  Addr_HexToAddress := toy_unhex;
  CfgGenesisHash := "genesis";
  CheckpointInterval := 100
|}.
#[local] Existing Instance height_lib.

Definition height_enc : SnapshotEnc.
Proof.
  refine {| encode_header _ := []; encode_checkpoint _ := []; encode_metadata _ := []; encode_record _ := [];
            encode_backup b := [EBHeight (BBlock b)];
            encodable b := decode_backup [EBHeight (BBlock b)] = Ok (clear_backup b) |}.
  - intros b _. unfold maxAlloc, len. cbn. lia.
  - done.
Defined.
#[local] Existing Instance height_enc.

(** A test of the height index of an in-memory chain. *)
Definition check_index (ch : Chain (gmap Key Value)) : bool :=
  forallb (fun kv => match kv with
                     | (KHeight n, VHashes l) => forallb (fun b => EBHeight b =? n) (omap (findBlock ch) l)
                     | _ => true
                     end) (map_to_list (store ch)).

Lemma check_index_sound ch : check_index ch = true -> forall n b, b ∈ findBlocksByHeight ch n -> EBHeight b = n.
Proof.
  unfold check_index, findBlocksByHeight, height_index. intros Hall n b Hb. rewrite forallb_forall in Hall.
  cbn [Get gmap_store] in Hb.
  destruct (store ch !! KHeight n) as [[]|] eqn:Hget; try (by apply elem_of_nil in Hb).
  specialize (Hall (KHeight n, VHashes l)). rewrite forallb_forall in Hall.
  apply Z.eqb_eq, Hall; [|by apply list_elem_of_In]. by apply list_elem_of_In, elem_of_map_to_list.
Qed.

Definition parent_at (ch : Chain (gmap Key Value)) (_ : Hash) (b : ExtendedBlock) : bool :=
  match findBlock ch (EBParent b) with Some pb => EBHeight b =? EBHeight pb + 1 | None => true end.

Lemma check_consecutive ch :
  check_blocks (fun _ b => (0 <=? EBHeight b) && (EBHeight b <? two64)) ch = true ->
  check_blocks (parent_at ch) ch = true -> check_index ch = true -> consecutive ch.
Proof.
  intros Hr Hp Hi. split; [by apply check_heights|]. split; [|by apply check_index_sound].
  intros h b pb Hb Hpb. pose proof (check_blocks_sound _ _ Hp h b Hb) as Hc. unfold parent_at in Hc.
  rewrite Hpb in Hc. by apply Z.eqb_eq.
Qed.

(** A ledger whose chain has every block. *)
Definition knowing_ledger : CorrectionLedger unit.
Proof.
  refine {| ledger_reset l _ := Ok l; ledger_apply l b := Ok (BHeight (Header b), l); ledger_knows _ _ := true |}; done.
Defined.
#[local] Existing Instance knowing_ledger.

Definition plain_lib : ExportLib := {|
  LastCheckPointHeight h := h - h mod 100; tx_is_coinbase _ := Some false; Hash_Hex := decimal
|}.
#[local] Existing Instance plain_lib.

(** ** Main theorems *)

(** C22 (export of a backup). A backup of the blocks between two heights succeeds as soon as one
    of them is finalized; it starts at the highest finalized block [eb] there,
    and the import reads back from it exactly the stored blocks, each with the
    votes for it, from [eb] down to the start height or to the first block
    whose parent is missing: one for every height, linked by their hashes as
    the import requires, under the boundaries that the name of the file
    tells. *)
Theorem backup_export `{!BlockCrypto} `{!VoteCrypto} `{!SnapshotLib} `{!SnapshotEnc} {S} `{!Store S}
    (ch : Chain S) fuel start end_ date :
  blocks_ok ch -> consecutive ch -> 0 <= start -> is_u64 end_ ->
  (forall h b, findBlock ch h = Some b -> encodable (mkBackup b (Some (FindVotesByHash ch (EBHash b))))) ->
  (exists n b, start <= n <= end_ /\ finalized_at ch n b) -> (Z.to_nat end_ < fuel)%nat ->
  exists eb (l : list BackupBlock) s name file,
    ExportChainBackup ch fuel start end_ date = Ok (s, EBHeight eb, name, file) /\
    getChainBoundary name = Ok (s, EBHeight eb) /\
    finalized_at ch (EBHeight eb) eb /\ (forall n b, EBHeight eb < n <= end_ -> ~ finalized_at ch n b) /\
    start <= s <= EBHeight eb /\ EBHeight eb <= end_ /\ len l = EBHeight eb - s + 1 /\
    backs_up ch start s l /\ hash_linked (Header (EBlock eb)) None (BBlock <$> l) /\
    forall St (step : St -> BackupBlock -> outcome St) st, fold_records decode_backup step st file = run_list step st l.
Proof.
  intros Hok Hc Hs He Henc Hex Hf. destruct Hex as (n & b & Hn & Hb).
  unfold ExportChainBackup. rewrite (proj2 (Z.ltb_ge _ _)) by lia.
  destruct (backup_end_ok ch fuel end_ start) as (eb & m & Hr & Hm & Hfin & Hmax); [done|lia|lia|eauto|].
  assert (EBHeight eb = m) as Hh by (apply Hc, Hfin). subst m.
  pose proof (found_by_height ch _ eb Hok (proj1 Hfin)) as Hfind.
  destruct (backup_blocks_ok ch (Header (EBlock eb)) start Hok Hc fuel eb None) as (l & s & Hbl & Hrange & Hlen & Hup & Hlink);
    [done|unfold EBHeight in *; lia|lia|unfold link_below; by rewrite (proj2 (Z.eqb_eq _ _))|].
  rewrite Hr. cbn [mbind outcome_bind]. rewrite Hbl. cbn [mbind outcome_bind].
  eexists eb, (mkBackup eb _ :: l), s, _, _. split; [reflexivity|].
  assert (is_u64 (EBHeight eb)) as Hu by (by eapply (proj1 Hc)).
  split; [apply boundary_name; unfold is_u64 in *; lia|]. split; [done|]. split; [done|]. split; [lia|].
  split; [lia|]. split; [rewrite len_cons; lia|]. split; [done|]. split; [done|].
  intros St step st. eapply backup_file_read; [done|done|].
  destruct Hup as [Hall _]. eapply Forall_impl; [exact Hall|]. intros [eb' votes] [Hfb Hv].
  cbn [BBlock BVotes] in *. subst votes. by eapply Henc.
Qed.

Lemma backup_export_witness :
  exists eb l s name file,
    ExportChainBackup final_chain 6 0 5 "2022-01-01" = Ok (s, EBHeight eb, name, file) /\
    getChainBoundary name = Ok (s, EBHeight eb) /\ hash_linked (Header (EBlock eb)) None (BBlock <$> l) /\
    fold_records decode_backup (fun k _ => Ok (k + 1)) 0 file = run_list (fun k _ => Ok (k + 1)) 0 l.
Proof.
  destruct (backup_export final_chain 6 0 5 "2022-01-01") as (eb & l & s & name & file & Hr & Hn & _ & _ & _ & _ & _ & _ & Hl & Hread).
  - apply check_blocks_ok. vm_compute. reflexivity.
  - apply check_consecutive; vm_compute; reflexivity.
  - lia.
  - unfold is_u64, two64. lia.
  - intros h b Hb. pose proof (find_in_keys final_chain h b Hb) as Hin.
    apply list_elem_of_In in Hin. revert b Hb.
    refine (proj1 (List.Forall_forall (fun h => forall b, findBlock final_chain h = Some b -> encodable (final_backup b)) _) _ h Hin).
    let l := eval vm_compute in (stored_hashes final_chain) in
    assert (stored_hashes final_chain = l) as -> by (vm_compute; reflexivity).
    repeat constructor; intros b Hb; vm_compute in Hb; injection Hb as <-; vm_compute; reflexivity.
  - exists 2, (default (mkExtendedBlock demo_root [] BlockStatusPending false) (findBlock final_chain (demo_hash 2))).
    split; [lia|]. split; [|vm_compute; reflexivity].
    replace (findBlocksByHeight final_chain 2) with [default (mkExtendedBlock demo_root [] BlockStatusPending false) (findBlock final_chain (demo_hash 2))]
      by (vm_compute; reflexivity). constructor.
  - vm_compute. lia.
  - exists eb, l, s, name, file. split; [exact Hr|]. split; [exact Hn|]. split; [exact Hl|]. apply Hread.
Defined.

(** (export of a correction). A correction that is exported rewrites the blocks above the
    snapshot block into a chain on top of it, each certified by the snapshot
    block and listed as the only child of the one below; but the ledger executes
    a block only if its rewritten parent is in the chain already.  So an export
    of several blocks ends, other than in an error or a panic, only when all
    rewritten blocks but the highest were stored before.  ([ledger_correction] in
    Correction.v is the ledger of the node.) *)
Theorem correction_export `{!BlockCrypto} `{!VoteCrypto} `{!SnapshotLib} `{!SnapshotEnc} `{!ExportLib}
    {S} `{!Store S} {L} `{!CorrectionLedger L} (ch : Chain S) (ledger : L) fuel height endHash exclusion name file hashes :
  ExportChainCorrection ch ledger fuel height endHash exclusion = Ok (name, file, hashes) ->
  exists snapshot l,
    file = backup_file ((fun b => mkBackup b None) <$> reverse l) /\
    hashes = (fun b => (EBHeight b, Hash_Hex (EBHash b))) <$> reverse l /\
    (forall b, b ∈ l -> CCBlockHash (HCC (Header (EBlock b))) = EBHash snapshot) /\
    (forall b, head l = Some b -> EBParent b = EBHash snapshot /\ ledger_knows ledger (EBHash snapshot) = true) /\
    (forall i b c, l !! i = Some b -> l !! Datatypes.S i = Some c ->
       EBParent c = EBHash b /\ Children b = [EBHash c] /\ ledger_knows ledger (EBHash b) = true).
Proof.
  unfold ExportChainCorrection. intros Hr.
  destruct (find_opt ch endHash _) as [block| |]; cbn [mbind outcome_bind] in Hr; try done.
  destruct (negb _); [done|]. destruct (_ <=? _); [done|].
  destruct (correction_stack _ _ _ _ _) as [stack| |]; cbn [mbind outcome_bind] in Hr; try done.
  destruct (list_find _ _) as [[j snapshot]|]; [|done].
  destruct (rewrite_chain _ _ _ _) as [l| |] eqn:Hl; cbn [mbind outcome_bind] in Hr; try done.
  injection Hr as <- <- <-. apply rewrite_chain_ok in Hl as (_ & Hall & Hhead & Hnext).
  exists snapshot, l. split_and!; done.
Qed.

Lemma correction_export_witness :
  exists name file hashes snapshot l,
    ExportChainCorrection final_chain tt 3 0 (demo_hash 2) ["tx1"] = Ok (name, file, hashes) /\
    hashes = (fun b => (EBHeight b, Hash_Hex (EBHash b))) <$> reverse l /\ fst <$> hashes = [2; 1] /\
    forall b, head l = Some b -> EBParent b = EBHash snapshot /\ ledger_knows tt (EBHash snapshot) = true.
Proof.
  let r := eval vm_compute in (ExportChainCorrection final_chain tt 3 0 (demo_hash 2) ["tx1"]) in
  match r with Ok (?name, ?file, ?hashes) =>
    destruct (correction_export final_chain tt 3 0 (demo_hash 2) ["tx1"] name file hashes)
      as (snapshot & l & Hf & Hh & _ & Hhd & _);
    [vm_compute; reflexivity|exists name, file, hashes, snapshot, l]
  end.
  split; [vm_compute; reflexivity|]. split; [exact Hh|]. split; [reflexivity|exact Hhd].
Defined.
