(* ===== verification/Correction.v ===== *)
(** * The ledger of the corrections

    [ResetState] and [ApplyBlockTxsForChainCorrection] of Ledger.v implement
    the interface that the import and the export of corrections use: the ledger
    panics on a block whose parent its chain does not have, and executing
    blocks adds receipts to the chain, but no blocks. *)

From Stdlib Require Import Ascii.
From stdpp Require Import gmap sorting.
From stdpp Require Import base list numbers strings.
From S2P Require Import Prelude Vote Validator Block Chain StoreView Execution Ledger SnapshotImport.
Local Open Scope string_scope.
Local Open Scope list_scope.
Local Open Scope Z_scope.

Section Ledger.
Context `{ThetaTypes} `{TrieHash} `{TxTypes} `{!EVM} `{TxCodec} `{BlockCrypto}.
Context {S : Type} `{!Store S} (le : LedgerEnv).
Implicit Types (s : LedgerState) (ch : Chain S).

Lemma same_blocks_receipt ch b rawTx logs changes ret addr gas err ch' :
  AddTxReceipt ch b rawTx logs changes ret addr gas err = Ok ch' -> same_blocks ch ch'.
Proof.
  unfold AddTxReceipt. destruct b as [b|]; [|done]. intros [= <-].
  intros h. unfold findBlock. cbn [store with_store]. by rewrite !Get_Put, !decide_False by done.
Qed.

Lemma same_blocks_receipts l : forall ch block rawTx ch',
  add_receipts le ch block rawTx l = Ok ch' -> same_blocks ch ch'.
Proof.
  induction l as [|r l IH]; intros ch block rawTx ch' Ha; cbn [add_receipts] in Ha; [by injection Ha as <-|].
  destruct (AddTxReceipt _ _ _ _ _ _ _ _ _) as [ch1| |] eqn:E1; cbn [mbind outcome_bind] in Ha; try done.
  eapply same_blocks_trans; [by eapply same_blocks_receipt|by eapply IH].
Qed.

Lemma same_blocks_apply ctx block txs : forall v ch early v' ch',
  apply_loop le ctx v ch block txs = Ok (early, v', ch') -> same_blocks ch ch'.
Proof.
  induction txs as [|rawTx txs IH]; intros v ch early v' ch' Ha; cbn [apply_loop] in Ha.
  { by injection Ha as _ _ <-. }
  destruct (TxFromBytes rawTx) as [tx|]; [|by injection Ha as _ _ <-].
  destruct (processTx _ _ _ _ _) as [p| |]; cbn [mbind outcome_bind] in Ha; try done.
  destruct (add_receipts _ _ _ _ _) as [ch1| |] eqn:E1; cbn [mbind outcome_bind] in Ha; try done.
  apply same_blocks_receipts in E1.
  destruct (PResult p); [eapply same_blocks_trans; [done|by eapply IH]|..]; by injection Ha as _ _ <-.
Qed.

(** The result of a call, an error of it being an error. *)
Definition check_result {A} (r : TxResult) (a : A) : outcome A :=
  match r with TxError msg => Err msg | _ => Ok a end.

#[export] Instance ledger_correction : CorrectionLedger (LedgerState * Chain S).
Proof.
  refine {|
    ledger_reset l block := let (r, s) := ResetState (fst l) block in check_result r (s, snd l);
    ledger_apply l block :=
      '(hash, r, s, ch) ← ApplyBlockTxsForChainCorrection le (fst l) (snd l) block;
      check_result r (hash, (s, ch));
    ledger_knows l h := bool_decide (is_Some (findBlock (snd l) h))
  |}.
  - intros [s ch] b Hk. cbn [fst snd] in *. unfold ApplyBlockTxsForChainCorrection.
    destruct (findBlock ch (Parent (Header b))); [|done].
    apply bool_decide_eq_false in Hk. by destruct Hk.
  - intros [s ch] b l' h. cbn [fst snd]. destruct (ResetState s b) as [r s'].
    destruct r; cbn; by intros [= <-].
  - intros [s ch] b x l' h. cbn [fst snd]. unfold ApplyBlockTxsForChainCorrection.
    destruct (findBlock ch (Parent (Header b))) as [pb|]; [|done].
    destruct (apply_loop _ _ _ _ _ _) as [[[early v] ch1]| |] eqn:E1; cbn [mbind outcome_bind]; try done.
    apply same_blocks_apply in E1.
    assert (Hs : bool_decide (is_Some (findBlock ch1 h)) = bool_decide (is_Some (findBlock ch h))) by (by rewrite E1).
    destruct early as [[]|]; cbn; try done; by intros [= _ <-].
Defined.

End Ledger.
