(* ===== verification/Bloom.v ===== *)
(** * Bloom filters (src/core/bloom.go, src/eth/core/types/bloom9.go)

    Two implementations of the same filter of 2048 bits: the one of the core
    package computes with big integers, the one of the eth package flips bits of
    the array.  They agree, and neither has false negatives. *)

From Stdlib Require Import Ascii.
From stdpp Require Import gmap sorting.
From stdpp Require Import base list numbers strings.
From S2P Require Import Prelude Text AbiSpec InterChain InterChainSpec.
Local Open Scope list_scope.
Local Open Scope Z_scope.

(** The digest of [crypto.Keccak256]: 32 bytes. *)
Class KeccakDigest := {
  Keccak256 : list Z -> list Z;
  Keccak256_length d : length (Keccak256 d) = 32%nat;
  Keccak256_bytes d : bytes_ok (Keccak256 d)
}.

Definition BloomByteLength : nat := 256.

Section Filters.
Context `{!KeccakDigest}.
Implicit Types (b d : list Z).

(** ** The filter on big integers *)

(** The digest has more than six bytes, so the indices are in range. *)
Definition hash_bit (h : list Z) (i : nat) : Z :=
  Z.land (nth (i + 1) h 0 + Z.shiftl (nth i h 0) 8) 2047.

Definition bloom9 d : Z :=
  let h := Keccak256 d in
  foldl (fun r i => Z.lor r (Z.shiftl 1 (hash_bit h i))) 0 [0; 2; 4]%nat.

(** [copy(b[BloomByteLength-len(d):], d)]. *)
Definition SetBytes b d : outcome (list Z) :=
  if Nat.ltb (length b) (length d) then Panic "bloom bytes too big"
  else Ok (take (BloomByteLength - length d) b ++ d).

Definition BytesToBloom d : outcome (list Z) := SetBytes (replicate BloomByteLength 0) d.

Definition Big b : Z := be_value b.

(** [d.Bytes()] of a [big.Int] is its absolute value without leading zeros. *)
Definition Add b (d : Z) : outcome (list Z) :=
  let bin := Z.lor (Big b) (bloom9 (min_bytes (Z.abs d))) in SetBytes b (min_bytes bin).

Definition BloomLookup b (topic : list Z) : bool :=
  let cmp := bloom9 topic in Z.land (Big b) cmp =? cmp.

Definition Test b (test : Z) : bool := BloomLookup b (min_bytes (Z.abs test)).
Definition TestBytes b (test : list Z) : bool := Test b (be_value test).

(** ** The filter on the array *)

(** The pairs of an index and a byte of [bloomValues]; [Read] of the sponge
    gives the first six bytes of the digest. *)
Definition bloom_value (h : list Z) (i : nat) : nat * Z :=
  let bits := Z.land (nth i h 0 * 256 + nth (i + 1) h 0) 2047 in
  (Z.to_nat (Z.of_nat BloomByteLength - Z.shiftr bits 3 - 1), Z.shiftl 1 (Z.land (nth (i + 1) h 0) 7)).
Definition bloomValues d : list (nat * Z) := bloom_value (take 6 (Keccak256 d)) <$> [0; 2; 4]%nat.

Definition or_byte b (p : nat * Z) : list Z := <[fst p := Z.lor (nth (fst p) b 0) (snd p)]> b.
Definition add b d : list Z := foldl or_byte b (bloomValues d).
Definition eth_Test b (topic : list Z) : bool :=
  forallb (fun p => snd p =? Z.land (snd p) (nth (fst p) b 0)) (bloomValues topic).

(** The address and the topics of each log of each receipt. *)
Definition add_log b (log : list Z * list (list Z)) : list Z := foldl add (add b (fst log)) (snd log).
Definition LogsBloom (logs : list (list Z * list (list Z))) : list Z :=
  foldl add_log (replicate BloomByteLength 0) logs.
Definition CreateBloom (receipts : list (list (list Z * list (list Z)))) : list Z :=
  foldl (foldl add_log) (replicate BloomByteLength 0) receipts.

Definition Bloom9 (data : list Z) : outcome (list Z) := BytesToBloom data.

(** ** Bits of big-endian numbers *)

Lemma byte_high_bits x k : 0 <= x < 256 -> 8 <= k -> Z.testbit x k = false.
Proof.
  intros Hx Hk. rewrite <- (Z.mod_small x (2 ^ 8)) by (change (2 ^ 8) with 256; lia).
  apply Z.mod_pow2_bits_high. lia.
Qed.

Lemma lor_byte x v : 0 <= x < 256 -> 0 <= v < 256 -> 0 <= Z.lor x v < 256.
Proof.
  intros Hx Hv. split; [apply Z.lor_nonneg; lia|].
  assert (Hlog : forall z, 0 <= z < 256 -> Z.log2 z < 8).
  { intros z Hz. destruct (decide (z = 0)) as [->|]; [done|]. apply Z.log2_lt_pow2; [lia|]. change (2 ^ 8) with 256. lia. }
  destruct (decide (Z.lor x v = 0)) as [->|Hne]; [done|]. change 256 with (2 ^ 8).
  apply Z.log2_lt_pow2; [pose proof (proj2 (Z.lor_nonneg x v) ltac:(lia)); lia|].
  rewrite Z.log2_lor by lia. pose proof (Hlog x Hx). pose proof (Hlog v Hv). lia.
Qed.

Lemma be_value_snoc_lor l x : 0 <= x < 256 -> be_value (l ++ [x]) = Z.lor (Z.shiftl (be_value l) 8) x.
Proof.
  intros Hx. rewrite be_value_snoc. change 256 with (2 ^ 8). rewrite <- Z.shiftl_mul_pow2 by lia.
  assert (Hand : Z.land (Z.shiftl (be_value l) 8) x = 0).
  { apply Z.bits_inj'. intros k Hk. rewrite Z.land_spec, Z.bits_0. destruct (decide (k < 8)).
    - by rewrite Z.shiftl_spec_low.
    - rewrite (byte_high_bits x) by lia. apply andb_false_r. }
  rewrite <- Z.lxor_lor by done. by apply Z.add_nocarry_lxor.
Qed.

Lemma be_value_or l : forall i x v, bytes_ok l -> l !! i = Some x -> 0 <= v < 256 ->
  be_value (<[i := Z.lor x v]> l) = Z.lor (be_value l) (Z.shiftl v (8 * Z.of_nat (length l - 1 - i))).
Proof.
  induction l as [|y l IH] using rev_ind; intros i x v Hl Hi Hv; [done|].
  apply Forall_app in Hl as [Hl Hy]. apply Forall_inv in Hy.
  rewrite be_value_snoc_lor by done. pose proof (lookup_lt_Some _ _ _ Hi) as Hlt. rewrite length_app in *. cbn [length] in *.
  destruct (decide (i = length l)) as [->|Hne].
  - rewrite lookup_app_r, Nat.sub_diag in Hi by lia. injection Hi as ->.
    rewrite insert_app_r_alt, Nat.sub_diag by lia. cbn [insert list_insert].
    rewrite be_value_snoc_lor by (by apply lor_byte). replace (length l + 1 - 1 - length l)%nat with 0%nat by lia.
    rewrite Z.shiftl_0_r. by rewrite Z.lor_assoc.
  - rewrite lookup_app_l in Hi by lia. rewrite insert_app_l by lia.
    rewrite be_value_snoc_lor, (IH i x v) by done. rewrite Z.shiftl_lor, Z.shiftl_shiftl by lia.
    replace (8 * Z.of_nat (length l + 1 - 1 - i)) with (8 * Z.of_nat (length l - 1 - i) + 8) by lia.
    rewrite <- !Z.lor_assoc. f_equal. apply Z.lor_comm.
Qed.

Lemma testbit_be_value l k : bytes_ok l -> 0 <= k < 8 * Z.of_nat (length l) ->
  Z.testbit (be_value l) k = Z.testbit (nth (length l - 1 - Z.to_nat (k / 8)) l 0) (k mod 8).
Proof.
  revert k. induction l as [|y l IH] using rev_ind; intros k Hl Hk; [cbn in Hk; lia|].
  apply Forall_app in Hl as [Hl Hy]. apply Forall_inv in Hy. rewrite length_app in *. cbn [length] in *.
  rewrite be_value_snoc_lor, Z.lor_spec by done. destruct (decide (k < 8)) as [Hlo|Hhi].
  - rewrite Z.shiftl_spec_low, Z.div_small, Z.mod_small by lia.
    replace (length l + 1 - 1 - Z.to_nat 0)%nat with (length l) by lia. by rewrite nth_middle.
  - rewrite Z.shiftl_spec_high, (byte_high_bits y), orb_false_r, IH by (done || lia).
    assert (Hq : k / 8 = (k - 8) / 8 + 1).
    { replace k with (k - 8 + 1 * 8) at 1 by lia. by rewrite Z.div_add by lia. }
    assert (Hr : k mod 8 = (k - 8) mod 8).
    { replace k with (k - 8 + 1 * 8) at 1 by lia. by rewrite Z.mod_add by lia. }
    rewrite Hq, Hr. assert (0 <= (k - 8) / 8) by (apply Z.div_pos; lia).
    rewrite app_nth1 by lia. do 2 f_equal. lia.
Qed.

(** ** The two filters agree *)

Definition bloom_ok b : Prop := length b = BloomByteLength /\ bytes_ok b.

Lemma hash_bit_range h i : 0 <= hash_bit h i < 2048.
Proof.
  unfold hash_bit. change 2047 with (Z.ones 11). rewrite Z.land_ones by lia.
  change 2048 with (2 ^ 11). by apply Z.mod_pos_bound.
Qed.

(** The index and the byte of [bloomValues] denote the bit of [bloom9]. *)
Lemma bloom_value_bit h i : bytes_ok h -> (i + 1 < length h)%nat ->
  bloom_value h i = (Z.to_nat (255 - hash_bit h i / 8), Z.shiftl 1 (hash_bit h i mod 8)).
Proof.
  intros Hh Hi. unfold bloom_value, hash_bit. change (Z.of_nat BloomByteLength) with 256.
  change 2047 with (Z.ones 11). change 7 with (Z.ones 3). rewrite !Z.land_ones by lia.
  rewrite Z.shiftr_div_pow2, (Z.shiftl_mul_pow2 (nth i h 0) 8) by lia. change (2 ^ 3) with 8. change (2 ^ 8) with 256. change (2 ^ 11) with 2048.
  set (x := nth i h 0). set (y := nth (i + 1) h 0). rewrite (Z.add_comm y). f_equal; [f_equal; lia|].
  f_equal. rewrite Z.mod_mod_divide by (by exists 256).
  replace (x * 256 + y) with (y + x * 32 * 8) by lia. by rewrite Z.mod_add by lia.
Qed.

Lemma digest_prefix d i : (i < 6)%nat -> nth i (take 6 (Keccak256 d)) 0 = nth i (Keccak256 d) 0.
Proof. intros Hi. rewrite !nth_lookup. by rewrite lookup_take_lt. Qed.

Lemma bloomValues_bits d :
  bloomValues d = (fun i => (Z.to_nat (255 - hash_bit (Keccak256 d) i / 8), Z.shiftl 1 (hash_bit (Keccak256 d) i mod 8))) <$> [0; 2; 4]%nat.
Proof.
  unfold bloomValues. cbn [fmap list_fmap].
  assert (Hok : bytes_ok (take 6 (Keccak256 d))) by apply Forall_take, Keccak256_bytes.
  assert (Hlen : length (take 6 (Keccak256 d)) = 6%nat) by (rewrite length_take, Keccak256_length; lia).
  rewrite !bloom_value_bit by (done || lia). unfold hash_bit. by rewrite !digest_prefix by lia.
Qed.

Lemma bit_pair k : 0 <= k < 2048 -> (Z.to_nat (255 - k / 8) < 256)%nat /\ 0 <= k / 8 <= 255 /\ 0 <= Z.shiftl 1 (k mod 8) < 256.
Proof.
  intros Hk. assert (0 <= k / 8 < 256) by (split; [apply Z.div_pos; lia|apply Z.div_lt_upper_bound; lia]).
  pose proof (Z.mod_pos_bound k 8 ltac:(lia)). rewrite Z.shiftl_mul_pow2, Z.mul_1_l by lia.
  split_and!; try lia. change 256 with (2 ^ 8). apply Z.pow_lt_mono_r; lia.
Qed.

Lemma or_byte_bit b k : bloom_ok b -> 0 <= k < 2048 ->
  bloom_ok (or_byte b (Z.to_nat (255 - k / 8), Z.shiftl 1 (k mod 8))) /\
  Big (or_byte b (Z.to_nat (255 - k / 8), Z.shiftl 1 (k mod 8))) = Z.lor (Big b) (Z.shiftl 1 k).
Proof.
  intros [Hlen Hok] Hk. destruct (bit_pair k Hk) as (Hi & Hq & Hv). unfold or_byte, Big. cbn [fst snd].
  unfold BloomByteLength in Hlen.
  destruct (lookup_lt_is_Some_2 b (Z.to_nat (255 - k / 8))) as [x Hx]; [lia|].
  rewrite (nth_lookup_Some _ _ _ _ Hx).
  assert (Hbig : be_value (<[Z.to_nat (255 - k / 8) := Z.lor x (Z.shiftl 1 (k mod 8))]> b) = Z.lor (be_value b) (Z.shiftl 1 k)).
  { rewrite be_value_or by done. f_equal. rewrite Z.shiftl_shiftl by (apply Z.mod_pos_bound; lia). f_equal.
    rewrite Hlen. pose proof (Z.div_mod k 8 ltac:(lia)). lia. }
  split; [|done]. split; [by rewrite length_insert|]. apply Forall_insert; [done|].
  assert (0 <= x < 256) by (by eapply (Forall_lookup_1 _ _ _ _ Hok)).
  by apply lor_byte.
Qed.

Lemma add_big b d : bloom_ok b -> bloom_ok (add b d) /\ Big (add b d) = Z.lor (Big b) (bloom9 d).
Proof.
  intros Hb. unfold add, bloom9. rewrite bloomValues_bits. cbn [fmap list_fmap foldl].
  destruct (or_byte_bit b _ Hb (hash_bit_range (Keccak256 d) 0)) as [H1 E1].
  destruct (or_byte_bit _ _ H1 (hash_bit_range (Keccak256 d) 2)) as [H2 E2].
  destruct (or_byte_bit _ _ H2 (hash_bit_range (Keccak256 d) 4)) as [H3 E3].
  split; [done|]. by rewrite E3, E2, E1, Z.lor_0_l, !Z.lor_assoc.
Qed.

(** What [SetBytes] writes over the filter are all its bytes that are not
    zero. *)
Lemma be_bytes_split m n z : be_bytes (m + n) z = be_bytes m (z / 256 ^ Z.of_nat n) ++ be_bytes n z.
Proof.
  revert z. induction n as [|n IH]; intros z.
  - by rewrite Nat.add_0_r, Z.div_1_r, app_nil_r.
  - rewrite Nat.add_succ_r. cbn [be_bytes]. rewrite IH, shiftr_8, Z.div_div, <- app_assoc by lia.
    by rewrite Nat2Z.inj_succ, Z.pow_succ_r by lia.
Qed.

Lemma min_bytes_length v : 0 <= v < 256 ^ 256 ->
  exists n, (n <= 256)%nat /\ min_bytes v = be_bytes n v /\ forall w u, 0 <= w -> 0 <= u -> v = Z.lor w u -> w < 256 ^ Z.of_nat n.
Proof.
  intros Hv. unfold min_bytes. destruct (Z.eqb_spec v 0) as [->|Hne].
  { exists 0%nat. split_and!; [lia|done|]. intros w u Hw Hu Heq. symmetry in Heq. apply Z.lor_eq_0_iff in Heq as [-> _]. done. }
  assert (Hlog : 0 <= Z.log2 v < 2048).
  { split; [apply Z.log2_nonneg|]. apply Z.log2_lt_pow2; [lia|]. change 2048 with (8 * 256). rewrite Z.pow_mul_r by lia. apply Hv. }
  pose proof (Z.div_mod (Z.log2 v) 8 ltac:(lia)). pose proof (Z.mod_pos_bound (Z.log2 v) 8 ltac:(lia)).
  assert (0 <= Z.log2 v / 8) by (apply Z.div_pos; lia).
  exists (Z.to_nat (Z.log2 v / 8 + 1)). split_and!; [lia|done|]. intros w u Hw Hu Heq.
  rewrite Z2Nat.id by lia. destruct (decide (w = 0)) as [->|Hw0]; [apply Z.pow_pos_nonneg; lia|].
  change 256 with (2 ^ 8). rewrite <- Z.pow_mul_r by lia. apply Z.log2_lt_pow2; [lia|].
  assert (Z.log2 w <= Z.log2 v) by (rewrite Heq, Z.log2_lor by done; lia). lia.
Qed.

Lemma SetBytes_or b u : bloom_ok b -> 0 <= u -> Z.lor (Big b) u < 256 ^ 256 ->
  SetBytes b (min_bytes (Z.lor (Big b) u)) = Ok (be_bytes 256 (Z.lor (Big b) u)).
Proof.
  intros [Hlen Hok] Hu Hv. pose proof (be_value_bound b Hok) as Hb. fold (Big b) in Hb.
  destruct (min_bytes_length (Z.lor (Big b) u)) as (n & Hn & -> & Hlow).
  { split; [apply Z.lor_nonneg; lia|done]. }
  assert (Hv0 : 0 <= Z.lor (Big b) u) by (apply Z.lor_nonneg; lia).
  pose proof (Hlow _ 0 Hv0 ltac:(lia) (eq_sym (Z.lor_0_r _))) as Hall.
  specialize (Hlow (Big b) u ltac:(lia) Hu eq_refl).
  unfold SetBytes. rewrite be_bytes_length, Hlen, (proj2 (Nat.ltb_ge _ _)) by done. f_equal.
  assert (Hsplit : forall z, be_bytes 256 z = be_bytes (256 - n) (z / 256 ^ Z.of_nat n) ++ be_bytes n z).
  { intros z. rewrite <- be_bytes_split. f_equal. lia. }
  rewrite <- (be_bytes_value b Hok) at 1. rewrite Hlen. fold (Big b). unfold BloomByteLength.
  rewrite !Hsplit, take_app_length' by (by rewrite be_bytes_length). by rewrite !Z.div_small by lia.
Qed.

Lemma bloom9_nonneg d : 0 <= bloom9 d.
Proof.
  assert (Hbit : forall i, 0 <= Z.shiftl 1 (hash_bit (Keccak256 d) i)) by (intros i; by apply Z.shiftl_nonneg).
  unfold bloom9. cbn [foldl]. pose proof (Hbit 0%nat). pose proof (Hbit 2%nat). pose proof (Hbit 4%nat).
  repeat (apply Z.lor_nonneg; split); done.
Qed.

Lemma Add_add b z : bloom_ok b -> Add b z = Ok (add b (min_bytes (Z.abs z))).
Proof.
  intros Hb. unfold Add. set (d := min_bytes (Z.abs z)). destruct (add_big b d Hb) as [[Hlen Hok] Hbig].
  pose proof (be_value_bound _ Hok) as Hbound. fold (Big (add b d)) in Hbound. unfold len in Hbound. rewrite Hlen, Hbig in Hbound.
  rewrite SetBytes_or by first [done|apply bloom9_nonneg|exact (proj2 Hbound)]. f_equal. rewrite <- Hbig.
  rewrite <- (be_bytes_value (add b d) Hok) at 2. by rewrite Hlen.
Qed.

(** A sum of bits is contained in a number when each of them is. *)
Lemma land_lor_iff x a c : Z.land x (Z.lor a c) = Z.lor a c <-> Z.land x a = a /\ Z.land x c = c.
Proof.
  split; [|intros [Ha Hc]; by rewrite Z.land_lor_distr_r, Ha, Hc].
  intros Heq. split; apply Z.bits_inj'; intros k Hk; apply (f_equal (fun z => Z.testbit z k)) in Heq;
    rewrite !Z.land_spec, !Z.lor_spec in *; destruct (Z.testbit x k), (Z.testbit a k), (Z.testbit c k); done.
Qed.

Lemma land_bit x k : 0 <= k -> Z.land x (Z.shiftl 1 k) = Z.shiftl 1 k <-> Z.testbit x k = true.
Proof.
  intros Hk. split.
  - intros Heq. apply (f_equal (fun z => Z.testbit z k)) in Heq.
    rewrite Z.land_spec, Z.shiftl_spec, Z.sub_diag in Heq by done. by destruct (Z.testbit x k).
  - intros Hx. apply Z.bits_inj'. intros j Hj. rewrite Z.land_spec. destruct (decide (j = k)) as [->|Hne]; [by rewrite Hx|].
    rewrite Z.shiftl_mul_pow2, Z.mul_1_l, Z.pow2_bits_false by lia. apply andb_false_r.
Qed.

Lemma BloomLookup_bits b d :
  BloomLookup b d = true <-> forall i, i ∈ [0; 2; 4]%nat -> Z.testbit (Big b) (hash_bit (Keccak256 d) i) = true.
Proof.
  unfold BloomLookup, bloom9. cbn [foldl]. rewrite Z.eqb_eq, Z.lor_0_l, !land_lor_iff.
  rewrite !land_bit by apply hash_bit_range. set_solver.
Qed.

Lemma eth_Test_bits b d : bloom_ok b ->
  eth_Test b d = true <-> forall i, i ∈ [0; 2; 4]%nat -> Z.testbit (Big b) (hash_bit (Keccak256 d) i) = true.
Proof.
  intros [Hlen Hok]. unfold eth_Test. rewrite bloomValues_bits, forallb_forall.
  assert (Hbit : forall k, 0 <= k < 2048 ->
    Z.shiftl 1 (k mod 8) =? Z.land (Z.shiftl 1 (k mod 8)) (nth (Z.to_nat (255 - k / 8)) b 0) = true <-> Z.testbit (Big b) k = true).
  { intros k Hk. unfold Big. rewrite testbit_be_value by (rewrite ?Hlen; unfold BloomByteLength; done || lia).
    rewrite Hlen. unfold BloomByteLength. destruct (bit_pair k Hk) as (_ & Hq & _).
    replace (256 - 1 - Z.to_nat (k / 8))%nat with (Z.to_nat (255 - k / 8)) by lia.
    rewrite <- land_bit by (apply Z.mod_pos_bound; lia). rewrite Z.eqb_eq, (Z.land_comm (Z.shiftl _ _)). split; intros E; by symmetry. }
  setoid_rewrite <- list_elem_of_In. split.
  - intros Hall i Hi. apply Hbit; [apply hash_bit_range|]. apply (Hall (_, _)).
    by apply (list_elem_of_fmap_2 (fun i => (_, _)) _ i).
  - intros Hall p (i & -> & Hi)%list_elem_of_fmap. cbn [fst snd]. by apply Hbit; [apply hash_bit_range|apply Hall].
Qed.

(** [CreateBloom] is the union of the bits of all addresses and topics. *)
Definition log_data (log : list Z * list (list Z)) : list (list Z) := fst log :: snd log.

Lemma add_all b l : bloom_ok b -> bloom_ok (foldl add b l) /\ Big (foldl add b l) = foldl (fun r d => Z.lor r (bloom9 d)) (Big b) l.
Proof.
  revert b. induction l as [|d l IH]; intros b Hb; [done|]. cbn [foldl].
  destruct (add_big b d Hb) as [Hok Hbig]. rewrite <- Hbig. by apply IH.
Qed.

Lemma CreateBloom_flat receipts :
  CreateBloom receipts = foldl add (replicate BloomByteLength 0) (concat (log_data <$> concat receipts)).
Proof.
  unfold CreateBloom. generalize (replicate BloomByteLength 0).
  assert (Hlogs : forall logs b, foldl add_log b logs = foldl add b (concat (log_data <$> logs))).
  { induction logs as [|log logs IH]; intros b; [done|]. rewrite fmap_cons. cbn [foldl concat]. rewrite IH, foldl_app. done. }
  induction receipts as [|logs receipts IH]; intros b; [done|].
  cbn [foldl concat]. by rewrite IH, Hlogs, fmap_app, concat_app, foldl_app.
Qed.

Lemma found_after b l d : bloom_ok b -> d ∈ l \/ eth_Test b d = true -> eth_Test (foldl add b l) d = true.
Proof.
  intros Hb Hd. destruct (add_all b l Hb) as [Hok Hbig].
  apply eth_Test_bits; [done|]. apply BloomLookup_bits. unfold BloomLookup. apply Z.eqb_eq. rewrite Hbig.
  assert (Hstart : d ∈ l \/ Z.land (Big b) (bloom9 d) = bloom9 d).
  { destruct Hd as [Hd|Hd]; [by left|right]. rewrite eth_Test_bits, <- BloomLookup_bits in Hd by done.
    unfold BloomLookup in Hd. by apply Z.eqb_eq. }
  clear -Hstart. revert Hstart. generalize (Big b). induction l as [|e l IH]; intros r Hd; cbn [foldl].
  - destruct Hd as [Hd|]; [by apply elem_of_nil in Hd|done].
  - apply IH. rewrite elem_of_cons in Hd.
    assert (Hsub : forall x y c, Z.land x c = c \/ y = c -> Z.land (Z.lor x y) c = c).
    { intros x y c Hc. apply Z.bits_inj'. intros k _. rewrite Z.land_spec, Z.lor_spec.
      destruct Hc as [Hc|<-]; [|by destruct (Z.testbit x k), (Z.testbit y k)].
      apply (f_equal (fun z => Z.testbit z k)) in Hc. rewrite Z.land_spec in Hc.
      by destruct (Z.testbit x k), (Z.testbit y k), (Z.testbit c k). }
    destruct Hd as [[->|Hd]|Hd]; [right; apply Hsub; by right|by left|right; apply Hsub; by left].
Qed.

Lemma bloom_empty_ok : bloom_ok (replicate BloomByteLength 0).
Proof. split; [apply length_replicate|]. apply Forall_replicate. lia. Qed.

(** ** Properties *)

(** (equivalence of the filters). On a filter of 256 bytes, adding a number
    with big integers and flipping the bits of its bytes give the same filter,
    without a panic; both lookups answer the same for all data; what was added
    is found, and what was found before still is. *)
Theorem bloom_equivalence b z d : bloom_ok b ->
  Add b z = Ok (add b (min_bytes (Z.abs z))) /\ bloom_ok (add b d) /\
  BloomLookup b d = eth_Test b d /\ eth_Test (add b d) d = true /\
  forall d', eth_Test b d' = true -> eth_Test (add b d) d' = true.
Proof.
  intros Hb. destruct (add_big b d Hb) as [Hok Hbig]. split; [by apply Add_add|]. split; [done|]. split_and!.
  - apply eq_true_iff_eq. by rewrite BloomLookup_bits, eth_Test_bits.
  - apply eth_Test_bits; [done|]. apply BloomLookup_bits. unfold BloomLookup. rewrite Hbig. apply Z.eqb_eq.
    apply Z.bits_inj'. intros k _. rewrite Z.land_spec, Z.lor_spec.
    by destruct (Z.testbit (Big b) k), (Z.testbit (bloom9 d) k).
  - intros d'. rewrite !eth_Test_bits by done. intros Hall i Hi. rewrite Hbig, Z.lor_spec, Hall by done. done.
Qed.

(** (no false negatives). The filter of the logs of a list of receipts finds
    every address and every topic of them, and is the union of their bits. *)
Theorem create_bloom_complete receipts logs log d :
  logs ∈ receipts -> log ∈ logs -> d ∈ log_data log ->
  BloomLookup (CreateBloom receipts) d = true /\ eth_Test (CreateBloom receipts) d = true /\
  Big (CreateBloom receipts) = foldl (fun r d => Z.lor r (bloom9 d)) 0 (concat (log_data <$> concat receipts)).
Proof.
  intros Hlogs Hlog Hd. rewrite CreateBloom_flat.
  assert (Hin : d ∈ concat (log_data <$> concat receipts)).
  { apply list_elem_of_In, in_concat. exists (log_data log). split; [|by apply list_elem_of_In].
    apply list_elem_of_In, list_elem_of_fmap_2, list_elem_of_In, in_concat. exists logs. by rewrite <- !list_elem_of_In. }
  destruct (add_all _ (concat (log_data <$> concat receipts)) bloom_empty_ok) as [Hok Hbig].
  assert (Hf : eth_Test (foldl add (replicate BloomByteLength 0) (concat (log_data <$> concat receipts))) d = true)
    by (apply found_after; [apply bloom_empty_ok|by left]).
  split_and!; [|done|by rewrite Hbig].
  apply BloomLookup_bits. by apply eth_Test_bits.
Qed.

End Filters.
