(* ===== verification/Rpc.v ===== *)
(** * The RPC service (src/rpc/query.go, tx.go, call.go, backup.go)

    The requests of clients as functions of the parts of the node they read:
    the chain, the ledger, the mempool and the consensus state.  Arguments and
    results are the decoded JSON values; the transport, the peers of the
    dispatcher and the wrapping of numbers in JSON are not modelled.  A request
    that waits for a block is split into the part before and the part after the
    wait. *)

From Stdlib Require Import Ascii.
From stdpp Require Import gmap sorting.
From stdpp Require Import base list numbers strings.
From S2P Require Import InterChain.
From S2P Require Import Prelude Text Vote Validator Block Chain Snapshot SnapshotImport SnapshotExport.
From S2P Require Import ConsensusState Bookkeeper Mempool StoreView Execution Ledger.
Local Open Scope string_scope.
Local Open Scope list_scope.
Local Open Scope Z_scope.

(** ** Library of theta *)

(** [common.HexToHash], [common.HexToAddress], the settings and constants, the
    update of an account to a height, and the translation of an Ethereum
    transaction. *)
Class RpcLib := {
  HexToHash : string -> Hash;
  HexToAddress : string -> Address;
  GenesisHashText : string;
  HeightEnableSmartContract : uint64;
  UpdateToHeight : uint64 -> Account -> Account;
  TranslateEthTx : string -> outcome SmartContractTx
}.

(** [Hash.Hex] and [getTransactionHash] of the bookkeeper. *)
Definition Hash_Hex (h : Hash) : string := "0x" +:+ hex_encode (be_bytes 32 h).
Definition getTransactionHash `{!BlockCrypto} (rawTx : Bytes) : string := hex_encode (be_bytes 32 (Keccak256Hash rawTx)).

(** [hex.DecodeString]. *)
Fixpoint hex_DecodeString (s : string) : outcome (list Z) :=
  match s with
  | "" => Ok []
  | String a (String b s') =>
      match hex_value a, hex_value b with
      | Some x, Some y => l ← hex_DecodeString s'; Ok (x * 16 + y :: l)
      | _, _ => Err "encoding/hex: invalid byte"
      end
  | String a "" => match hex_value a with
                   | Some _ => Err "encoding/hex: odd length hex string"
                   | None => Err "encoding/hex: invalid byte"
                   end
  end.

Definition Has0xPrefix (s : string) : bool := String.prefix "0x" s || String.prefix "0X" s.

(** ** Results *)

Definition TxTypeCoinbase : Z := 0.
Definition TxTypeSlash : Z := 1.
Definition TxTypeSend : Z := 2.
Definition TxTypeSmartContract : Z := 7.
Definition TxTypeDepositStake : Z := 8.
Definition TxTypeWithdrawStake : Z := 9.
Definition TxTypeStakeRewardDistributionTx : Z := 11.

Definition getTxType (tx : Tx) : Z :=
  match tx with
  | TxCoinbase _ => TxTypeCoinbase
  | TxSlash => TxTypeSlash
  | TxSend _ => TxTypeSend
  | TxSmartContract _ => TxTypeSmartContract
  | TxDepositStake _ => TxTypeDepositStake
  | TxWithdrawStake _ => TxTypeWithdrawStake
  | TxStakeRewardDistribution => TxTypeStakeRewardDistributionTx
  | TxValidatorSetUpdate _ => TxSubchainValidatorSetUpdate
  end.

(** [Tx] and, with the Ethereum hash, [TxWithEthHash]. *)
Record RpcTx := mkRpcTx {
  RawTx : Tx;
  TxKind : Z;
  RpcTxHash : Hash;
  EthTxHash : option Hash;
  RpcReceipt : option TxReceiptEntry;
  RpcBalanceChanges : option TxBalanceChangesEntry
}.

Record GetBlockResultInner := mkBlockResult {
  RChainID : string;
  REpoch : uint64;
  RHeight : uint64;
  RParent : Hash;
  RTxRoot : Hash;
  RStateHash : Hash;
  RTimestamp : option Z;
  RProposer : Address;
  RHCC : CommitCertificate;
  RChildren : list Hash;
  RStatus : BlockStatus;
  RHash : Hash;
  RTxs : list RpcTx
}.

Inductive QueryStatus := NotFoundStatus | PendingStatus | FinalizedStatus | AbandonedStatus.

Record GetTransactionResult := mkTxResult {
  QStatus : QueryStatus;
  QBlock : option (Hash * uint64);
  QTx : option (Tx * Z * Hash);
  QReceipt : option TxReceiptEntry;
  QBalanceChanges : option TxBalanceChangesEntry
}.

Record GetStatusResult := mkStatusResult {
  SChainID : string;
  LatestFinalizedBlockHash : Hash;
  LatestFinalized : option (uint64 * uint64 * option Z);   (** epoch, height, time *)
  CurrentEpoch : uint64;
  CurrentHeight : option uint64;
  CurrentTime : Z;
  Syncing : bool;
  GenesisBlockHash : Hash;
  SnapshotBlock : uint64 * Hash
}.

Section Queries.
Context `{ThetaTypes} `{TrieHash} `{TxTypes} `{!EVM} `{TxCodec} `{BlockCrypto} `{!RpcLib}.
Context {S : Type} `{!Store S} (CalcEthTxHash : ExtendedBlock -> Bytes -> outcome Hash).
Implicit Types (ls : LedgerState) (ch : Chain S) (eb : ExtendedBlock).

(** ** Blocks *)

(** [gatherTxs]: the transactions before the first one that does not decode;
    the callers ignore the error. *)
Fixpoint gather ch eb (eth : bool) (txs : list Bytes) : list RpcTx :=
  match txs with
  | [] => []
  | raw :: rest =>
      match TxFromBytes raw with
      | None => []
      | Some tx =>
          let hash := Keccak256Hash raw in
          mkRpcTx tx (getTxType tx) hash
            (if eth then Some (match CalcEthTxHash eb raw with Ok h => h | _ => 0 end) else None)
            (FindTxReceiptByHash ch (EBHash eb) hash) (FindTxBalanceChangesByHash ch (EBHash eb) hash)
          :: gather ch eb eth rest
      end
  end.
Definition gatherTxs ch eb (eth : bool) : list RpcTx := gather ch eb eth (Txs (EBlock eb)).

Definition block_result ch (eth : bool) eb : GetBlockResultInner :=
  let h := Header (EBlock eb) in
  mkBlockResult (ChainID h) (BEpoch h) (BHeight h) (Parent h) (TxHash h) (StateHash h) (Timestamp h) (Proposer h)
    (HCC h) (Children eb) (Status eb) (EBHash eb) (gatherTxs ch eb eth).

Definition GetBlock ch (hash : Hash) (eth : bool) : outcome GetBlockResultInner :=
  if IsEmpty hash then Err "Block hash must be specified" else
  match findBlock ch hash with
  | None => Err "KeyNotFound"
  | Some eb => Ok (block_result ch eth eb)
  end.

Definition first_finalized (blocks : list ExtendedBlock) : option ExtendedBlock :=
  match list_find (fun b => IsFinalized (Status b) = true) blocks with Some (_, b) => Some b | None => None end.

Definition genesis_hash ch : Hash :=
  HexToHash (if String.eqb (CChainID ch) MainnetChainID then MainnetGenesisBlockHash else GenesisHashText).

(** The stand-in for the genesis block of a node that started from a
    snapshot. *)
Definition genesis_result ch : GetBlockResultInner :=
  mkBlockResult (CChainID ch) 0 0 0 0 0 (Some 0) 0 (mkCC None 0) [] BlockStatusDirectlyFinalized (genesis_hash ch) [].

(** [None] is the empty result. *)
Definition GetBlockByHeight ch (height : uint64) (eth : bool) : option GetBlockResultInner :=
  match first_finalized (findBlocksByHeight ch height) with
  | Some eb => Some (block_result ch eth eb)
  | None => if height =? 0 then Some (genesis_result ch) else None
  end.

(** The loop of [GetBlocksByRange]: blocks are prepended while their height is
    not below the start, and the parent of each must be stored. *)
Fixpoint range_loop ch (eth : bool) (fuel : nat) (start : uint64) eb (acc : list GetBlockResultInner)
    : outcome (list GetBlockResultInner) :=
  if EBHeight eb <? start then Ok acc
  else match fuel with
       | O => Err "out of fuel"
       | Datatypes.S fuel =>
           match findBlock ch (EBParent eb) with
           | None => Err "KeyNotFound"
           | Some parent => range_loop ch eth fuel start parent (block_result ch eth eb :: acc)
           end
       end.

Definition maxBlockRange : Z := 5000.

Definition GetBlocksByRange ch (fuel : nat) (start end_ : uint64) (eth : bool) : outcome (list GetBlockResultInner) :=
  if end_ =? 0 then Ok [genesis_result ch]
  else if end_ <? start then Err "Starting block must be less than ending block"
  else if maxBlockRange <? u64_sub end_ start then Err "Can't retrieve more than 100 blocks at a time"
  else match first_finalized (findBlocksByHeight ch end_) with
       | None => Ok []
       | Some eb =>
           l ← range_loop ch eth fuel (if start =? 0 then 1 else start) eb [];
           Ok (if start =? 0 then genesis_result ch :: l else l)
       end.

(** ** State *)

(** A query of the state of the finalized block at a height; [none] is the
    result when there is no block. *)
Definition query_at {A} ls ch (height : uint64) (none : A) (query : StoreView -> outcome A) : outcome A :=
  match findBlocksByHeight ch height with
  | [] => Ok none
  | blocks =>
      match first_finalized blocks with
      | None => Ok none
      | Some eb =>
          match NewStoreView height (StateHash (Header (EBlock eb))) (db_trees ls) (db_storages ls) with
          | None => Err "the details for the height are not available, they might have been pruned"
          | Some sv => query sv
          end
      end
  end.

(** The fresh copies of the views. *)
Definition GetScreenedSnapshot ls : StoreView := (StoreView_Copy (screened ls)).2.
Definition GetDeliveredSnapshot ls : StoreView := (StoreView_Copy (delivered ls)).2.
Definition GetFinalizedSnapshot ls : StoreView := (StoreView_Copy (finalized ls)).2.

Definition find_account (sv : StoreView) (address : Address) : outcome (option Account) :=
  match GetAccount sv address with
  | None => Err "Account is not found"
  | Some acc => Ok (Some acc)
  end.

Definition rpc_GetAccount ls ch (addressText : string) (height : uint64) (preview : bool) : outcome (option Account) :=
  if String.eqb addressText "" then Err "Address must be specified" else
  let address := HexToAddress addressText in
  if height =? 0 then
    let sv := if preview then GetScreenedSnapshot ls else GetFinalizedSnapshot ls in
    acc ← find_account sv address;
    Ok (option_map (UpdateToHeight (StoreView.height sv)) acc)
  else query_at ls ch height None (fun sv => find_account sv address).

Definition rpc_GetCode ls ch (addressText : string) (height : uint64) : outcome string :=
  if String.eqb addressText "" then Err "address must be specified" else
  let code sv := Ok (hex_encode (string_bytes (GetCode sv (HexToAddress addressText)))) in
  if height =? 0 then code (GetFinalizedSnapshot ls) else query_at ls ch height "" code.

Definition GetStorageAt ls ch (addressText position : string) (height : uint64) : outcome string :=
  if String.eqb addressText "" || String.eqb position "" then Err "address and storage_position must be specified" else
  let value sv := v ← GetState sv (HexToAddress addressText) (HexToHash position); Ok (hex_encode (be_bytes 32 v)) in
  if height =? 0 then value (GetFinalizedSnapshot ls) else query_at ls ch height "" value.

(** Every block of the height, with its validator set and the heights of
    updates; a missing set is dereferenced. *)
Fixpoint valset_pairs ls (height : uint64) (blocks : list ExtendedBlock)
    : outcome (list (Hash * (Z * list Validator) * option (list uint64))) :=
  match blocks with
  | [] => Ok []
  | eb :: rest =>
      match NewStoreView height (StateHash (Header (EBlock eb))) (db_trees ls) (db_storages ls) with
      | None => Err "the validator set for the height does not exist, it might have been pruned"
      | Some sv =>
          match StoreView_GetValidatorSet sv with
          | None => Panic "runtime error: invalid memory address or nil pointer dereference"
          | Some vs =>
              l ← valset_pairs ls height rest;
              Ok ((EBHash eb, (dynasty vs, validators vs), GetValidatorSetUpdateTxHeightList sv) :: l)
          end
      end
  end.
Definition GetValidatorSetByHeight ls ch (height : uint64) := valset_pairs ls height (findBlocksByHeight ch height).

(** The address of a token bank, by the number of the token type. *)
Definition GetTokenBankContractAddress ls (tokenType : Z) : outcome Address :=
  let t := tree (GetDeliveredSnapshot ls) in
  contractAddr ← (if tokenType =? CrossChainTokenTypeTFuel then Ok (TFuelTokenBank t)
                  else if tokenType =? CrossChainTokenTypeTNT20 then Ok (TNT20TokenBank t)
                  else if tokenType =? CrossChainTokenTypeTNT721 then Ok (TNT721TokenBank t)
                  else Err "unknown token type");
  match contractAddr with
  | None => Err "token bank contract address is not set"
  | Some a => Ok a
  end.

(** ** Contract calls *)

(** [CallSmartContract]: the dry run on a copy of the delivered view; its trie
    is saved in the database, the views of the ledger stay. *)
Definition CallSmartContract ls (sctxBytes : string) : outcome (string * Address * uint64 * string * LedgerState) :=
  let sv := GetDeliveredSnapshot ls in
  if u64_add (StoreView.height sv) 1 <? HeightEnableSmartContract then Err "Smart contract feature not enabled" else
  raw ← hex_DecodeString sctxBytes;
  match TxFromBytes (bytes_string raw) with
  | None => Err "Failed to parse SmartContractTx"
  | Some (TxSmartContract sctx) =>
      let pb := Header (parentBlock ls) in
      '(vmRet, contractAddr, gasUsed, vmErr, sv) ←
        Execute (mkBlockInfo (BHeight pb) (default 0 (Timestamp pb)) (ChainID pb)) sctx sv;
      let ls := mkLedgerState (<[tree_root (tree sv) := tree sv]> (db_trees ls)) (storages sv ∪ db_storages ls)
                  (parentBlock ls) (finalized ls) (delivered ls) (checked ls) (screened ls) in
      Ok (hex_encode (string_bytes vmRet), contractAddr, gasUsed, default "" vmErr, ls)
  | Some _ => Err "Failed to parse SmartContractTx"
  end.

(** ** Status *)

Definition max_height (votes : list Vote) : uint64 := foldl (fun m v => if m <? Vote.Height v then Vote.Height v else m) 0 votes.

Definition GetStatus (cs : State S) (now : Z) (hasSynced : bool) : outcome GetStatusResult :=
  let ch := chain cs in
  summary ← getSummary cs;
  let hash := SLastFinalizedBlock summary in
  latest ← (if IsEmpty hash then Ok None
            else match findBlock ch hash with
                 | None => Err "KeyNotFound"
                 | Some eb => let h := Header (EBlock eb) in Ok (Some (BEpoch h, BHeight h, Timestamp h))
                 end);
  match GetEpochVotes cs with
  | None => Err "KeyNotFound"
  | Some votes =>
      match Root ch with
      | None => Panic "runtime error: invalid memory address or nil pointer dereference"
      | Some r =>
          Ok (mkStatusResult (CChainID ch) (if IsEmpty hash then 0 else hash) latest (SEpoch summary)
                (Some (u64_sub (max_height (Votes (range votes))) 1)) now (negb hasSynced) (genesis_hash ch)
                (EBHeight r, EBHash r))
      end
  end.

(** ** Peers *)

(** The peers in a random order, at most 256 of them. *)
Definition GetPeerURLs (shuffle : list string -> list string) (peerURLs : list string) : list string :=
  take 256 (shuffle peerURLs).

(** ** Transactions *)

(** [GetTransaction]; the mempool is asked with the text of the argument. *)
Definition GetTransaction ch (mp : Mempool) (now : Z) (hashText : string) : outcome (GetTransactionResult * Mempool) :=
  if String.eqb hashText "" then Err "Transanction hash must be specified" else
  let hash := HexToHash hashText in
  found ← FindTxByHash ch hash;
  match found with
  | None =>
      let '((status, exists_), tb) := getStatus now (txBookeepper mp) hashText in
      let mp := mkMempool (candidateTxs mp) tb (addressToTxGroup mp) (mp_size mp) in
      Ok (mkTxResult (if exists_ : bool then match status with TxStatusAbandoned => AbandonedStatus | _ => PendingStatus end
                      else NotFoundStatus) None None None None, mp)
  | Some (raw, eb) =>
      match TxFromBytes raw with
      | None => Err "Failed to parse transaction"
      | Some tx =>
          let canonical := if getTxType tx =? TxTypeSmartContract then Keccak256Hash raw else hash in
          Ok (mkTxResult (if IsFinalized (Status eb) then FinalizedStatus else PendingStatus)
                (Some (EBHash eb, EBHeight eb)) (Some (tx, getTxType tx, canonical))
                (FindTxReceiptByHash ch (EBHash eb) canonical) (FindTxBalanceChangesByHash ch (EBHash eb) canonical), mp)
      end
  end.

Definition GetPendingTransactions (mp : Mempool) : list string :=
  GetCandidateTransactionHashes getTransactionHash mp.

Definition decodeTxHexBytes (text : string) : outcome Bytes :=
  text ← (if Has0xPrefix text then string_from text 2 else Ok text);
  raw ← hex_DecodeString text; Ok (bytes_string raw).

(** An encoding that fails is logged, and gives the empty transaction. *)
Definition translateEthTx (ethTxStr : string) : outcome string :=
  tx ← TranslateEthTx ethTxStr;
  Ok (hex_encode (string_bytes (default "" (TxToBytes (TxSmartContract tx))))).

End Queries.

(** ** Waiting for transactions (tx.go) *)

(** A callback: the hash, the time of its creation in nanoseconds and the
    request that waits for it. *)
Record Callback := mkCallback { cb_hash : string; created : Z; cb_request : Z }.

Record TxCallbackManager := mkCallbacks {
  txHashToCallback : gmap string Callback;
  callbacks : list Callback
}.

Definition txTimeout : Z := 55 * 10 ^ 9.

Definition NewTxCallbackManager : TxCallbackManager := mkCallbacks ∅ [].

Definition AddCallback (now : Z) (txHash : Hash) (request : Z) (m : TxCallbackManager) : TxCallbackManager :=
  let cb := mkCallback (Hash_Hex txHash) now request in
  mkCallbacks (<[Hash_Hex txHash := cb]> (txHashToCallback m)) (callbacks m ++ [cb]).

Definition RemoveCallback (txHash : Hash) (m : TxCallbackManager) : option Callback * TxCallbackManager :=
  let key := Hash_Hex txHash in
  match txHashToCallback m !! key with
  | Some cb => (Some cb, mkCallbacks (delete key (txHashToCallback m)) (callbacks m))
  | None => (None, m)
  end.

(** The loop of [Trim]: entries from the oldest to the first that has not timed
    out; one that was overwritten is not removed from the map. *)
Fixpoint trim_loop (now : Z) (m : gmap string Callback) (l : list Callback) : gmap string Callback * list Callback :=
  match l with
  | [] => (m, [])
  | cb :: rest =>
      if now - created cb <? txTimeout then (m, l)
      else trim_loop now (match m !! cb_hash cb with
                          | Some cb2 => if created cb2 =? created cb then delete (cb_hash cb) m else m
                          | None => m
                          end) rest
  end.
Definition Trim (now : Z) (m : TxCallbackManager) : TxCallbackManager :=
  let (map, l) := trim_loop now (txHashToCallback m) (callbacks m) in mkCallbacks map l.

(** A finalized block: the callbacks that are run. *)
Definition on_finalized `{!BlockCrypto} (block : Block) (m : TxCallbackManager) : list Callback * TxCallbackManager :=
  foldl (fun '(fired, m) tx =>
           let (cb, m) := RemoveCallback (Keccak256Hash tx) m in
           (fired ++ match cb with Some cb => [cb] | None => [] end, m)) ([], m) (Txs block).

(** ** Submitting transactions (tx.go) *)

Section Submit.
Context `{BlockCrypto} `{!RpcLib} `{TxCodec} `{PQueue}.
Context {L : Type} (ScreenTx : L -> Bytes -> (TxInfo + string) * L).

(** What a request to broadcast leaves: the error, the hash for the client, the
    mempool, the ledger and what was broadcast. *)
Record Submitted := mkSubmitted {
  sub_error : option string;
  sub_hash : string;
  sub_mempool : Mempool;
  sub_ledger : L;
  sub_sent : list Bytes
}.

Definition submit (now : Z) (synced : bool) (led : L) (mp : Mempool) (raw : Bytes) : Submitted :=
  let hash := Hash_Hex (Keccak256Hash raw) in
  let '(err, mp, led) := InsertTransaction getTransactionHash ScreenTx now synced led mp raw in
  match err with
  | None => mkSubmitted None hash mp led [raw]
  | Some e => if String.eqb e FastsyncSkipTxError then mkSubmitted None hash mp led [raw]
              else mkSubmitted (Some e) hash mp led []
  end.

Definition BroadcastRawTransactionAsync (now : Z) (synced : bool) (led : L) (mp : Mempool) (txBytes : string) : Submitted :=
  match decodeTxHexBytes txBytes with
  | Ok raw => submit now synced led mp raw
  | Err e | Panic e => mkSubmitted (Some e) "" mp led []
  end.

(** [BroadcastRawTransaction] up to the wait: the callback is added after the
    broadcast. *)
Definition BroadcastRawTransaction (now : Z) (synced : bool) (led : L) (mp : Mempool) (cm : TxCallbackManager)
    (request : Z) (txBytes : string) : Submitted * TxCallbackManager :=
  match decodeTxHexBytes txBytes with
  | Ok raw =>
      let r := submit now synced led mp raw in
      (r, match sub_error r with None => AddCallback now (Keccak256Hash raw) request cm | Some _ => cm end)
  | Err e | Panic e => (mkSubmitted (Some e) "" mp led [], cm)
  end.

(** After the wait: a block, a nil block or the timeout. *)
Inductive Wait := Notified (block : option Block) | TimedOut.
Definition broadcast_result (w : Wait) : outcome BlockHeader :=
  match w with
  | Notified (Some b) => Ok (Header b)
  | Notified None => Err "Internal server error"
  | TimedOut => Err "Timed out waiting for transaction to be included"
  end.

Definition BroadcastRawEthTransaction now synced led mp cm request (ethTx : string) : Submitted * TxCallbackManager :=
  match translateEthTx ethTx with
  | Ok text => BroadcastRawTransaction now synced led mp cm request text
  | Err e | Panic e => (mkSubmitted (Some e) "" mp led [], cm)
  end.

(** The asynchronous request answers with the hash of the Ethereum
    transaction. *)
Definition BroadcastRawEthTransactionAsync now synced led mp (ethTx : string) : Submitted :=
  match translateEthTx ethTx with
  | Ok text =>
      let r := BroadcastRawTransactionAsync now synced led mp text in
      match sub_error r with
      | Some _ => r
      | None =>
          let eth := if String.prefix "0x" ethTx then string_from ethTx 2 else Ok ethTx in
          match eth ≫= hex_DecodeString with
          | Ok raw => mkSubmitted None (Hash_Hex (Keccak256Hash (bytes_string raw))) (sub_mempool r) (sub_ledger r) (sub_sent r)
          | Err _ | Panic _ => mkSubmitted (Some "cannot decode hex string") (sub_hash r) (sub_mempool r) (sub_ledger r) (sub_sent r)
          end
      end
  | Err e | Panic e => mkSubmitted (Some e) "" mp led []
  end.

End Submit.

(** ** Backups (backup.go) *)

Section Backups.
Context `{!BlockCrypto} `{!VoteCrypto} `{!SnapshotLib} `{!SnapshotEnc} `{!ExportLib}.
Context {DB View : Type} `{!Snapshot.StateDB DB View} `{!StateDump View} `{!TrieDump DB} {S : Type} `{!Store S}.
Context {L : Type} `{!CorrectionLedger L}.

Definition BackupSnapshot (st : SnapState (DB := DB) (S := S)) (height version : uint64) (lastFinalized : Hash) (date : string)
    : outcome (string * list Z) :=
  let version := if version =? 0 then 4 else version in
  if version =? 2 then ExportSnapshotV2 st height lastFinalized date
  else if version =? 3 then ExportSnapshotV3 st height lastFinalized date
  else ExportSnapshotV4 st height lastFinalized date.

Definition BackupChain (ch : Chain S) (fuel : nat) (start end_ : uint64) (date : string) :=
  ExportChainBackup ch fuel start end_ date.

Definition BackupChainCorrection (ch : Chain S) (ledger : L) (fuel : nat) (snapshotHeight : uint64) (endBlockHash : Hash)
    (exclusionTxs : list string) := ExportChainCorrection ch ledger fuel snapshotHeight endBlockHash exclusionTxs.
End Backups.
