(* ===== verification/RpcSpec.v ===== *)
(** * Properties of the RPC service

    A range of blocks is the part of the chain between two heights; a waiting
    request is notified by its block or forgotten after the timeout; and the
    hash of a submitted transaction, as the service hands it out, does not find
    it in the mempool. *)

From Stdlib Require Import Ascii.
From stdpp Require Import gmap sorting.
From stdpp Require Import base list numbers strings.
From S2P Require Import Prelude Text Vote Validator Block Chain Snapshot SnapshotImport SnapshotExport SnapshotExportSpec.
From S2P Require Import ConsensusState Bookkeeper Mempool StoreView Execution Ledger Rpc.
Local Open Scope string_scope.
Local Open Scope list_scope.
Local Open Scope Z_scope.

(** ** Ranges of blocks *)

Section Ranges.
Context `{TxCodec} `{BlockCrypto} `{!RpcLib} {S : Type} `{!Store S}.
Context (CalcEthTxHash : ExtendedBlock -> Bytes -> outcome Hash).
Implicit Types (ch : Chain S) (eb : ExtendedBlock).

(** Stored blocks from high to low, each the parent of the one before. *)
Definition ancestry ch (l : list ExtendedBlock) : Prop :=
  Forall (fun b => findBlock ch (EBHash b) = Some b) l /\
  forall i b p, l !! i = Some b -> l !! Datatypes.S i = Some p -> findBlock ch (EBParent b) = Some p.

Lemma ancestry_cons ch b p l : findBlock ch (EBHash b) = Some b -> findBlock ch (EBParent b) = Some p ->
  ancestry ch (p :: l) -> ancestry ch (b :: p :: l).
Proof.
  intros Hb Hp [Hall Hadj]. split; [by constructor|].
  intros [|i] x y Hx Hy; [|by apply (Hadj i)]. injection Hx as <-. by injection Hy as <-.
Qed.

Lemma range_loop_spec ch eth lo : blocks_ok ch -> consecutive ch -> forall fuel eb acc,
  findBlock ch (EBHash eb) = Some eb -> lo <= EBHeight eb -> (Z.to_nat (EBHeight eb - lo) < fuel)%nat ->
  exists l b, ancestry ch (eb :: l) /\ last (eb :: l) = Some b /\ lo <= EBHeight b /\
    len (eb :: l) = EBHeight eb - EBHeight b + 1 /\
    (findBlock ch (EBParent b) = None /\ range_loop CalcEthTxHash ch eth fuel lo eb acc = Err "KeyNotFound" \/
     EBHeight b = lo /\ is_Some (findBlock ch (EBParent b)) /\
     range_loop CalcEthTxHash ch eth fuel lo eb acc = Ok (reverse (block_result CalcEthTxHash ch eth <$> eb :: l) ++ acc)).
Proof.
  intros Hok (Hrange & Hpar & _). induction fuel as [|fuel IH]; intros eb acc Hb Hlo Hf; [lia|].
  cbn [range_loop]. rewrite (proj2 (Z.ltb_ge _ _)) by lia.
  assert (Hone : ancestry ch [eb]) by (split; [by repeat constructor|intros [|i] x y _ Hy; done]).
  destruct (findBlock ch (EBParent eb)) as [p|] eqn:Hp.
  2:{ exists [], eb. split; [done|]. split; [done|]. split; [done|]. split; [change (len [eb]) with 1; lia|]. by left. }
  pose proof (Hpar _ _ _ Hb Hp) as Hh. pose proof (blocks_ok_hash ch _ _ Hok Hp) as Hph.
  destruct (decide (EBHeight eb = lo)) as [He|He].
  - exists [], eb. split; [done|]. split; [done|]. split; [done|]. split; [change (len [eb]) with 1; lia|]. right.
    split; [done|]. split; [by rewrite Hp|]. destruct fuel; cbn [range_loop]; by rewrite (proj2 (Z.ltb_lt _ _)) by lia.
  - destruct (IH p (block_result CalcEthTxHash ch eth eb :: acc)) as (l & b & Ha & Hl & Hbl & Hlen & Hres);
      [by rewrite Hph|lia|lia|].
    exists (p :: l), b. split; [by apply ancestry_cons|]. split; [by rewrite last_cons, Hl|]. split; [done|].
    split; [rewrite len_cons; lia|]. destruct Hres as [Hres|(Hb' & Hs & Hr)]; [by left|right]. split; [done|]. split; [done|].
    rewrite Hr, (fmap_cons _ eb), (reverse_cons _ (block_result CalcEthTxHash ch eth eb)), <- app_assoc. done.
Qed.

End Ranges.

(** ** Hashes as texts *)

Lemma hex_digit_not_x n : 0 <= n < 16 -> hex_digit n <> "x"%char.
Proof.
  intros Hn. assert (Hall : forallb (fun k => negb (Ascii.eqb (hex_digit (Z.of_nat k)) "x")) (seq 0 16) = true) by reflexivity.
  rewrite forallb_forall in Hall. specialize (Hall (Z.to_nat n)). rewrite Z2Nat.id in Hall by lia.
  assert (Hin : In (Z.to_nat n) (seq 0 16)) by (apply in_seq; lia). apply Hall in Hin.
  by destruct (Ascii.eqb_spec (hex_digit n) "x").
Qed.

Lemma prefixed_not_plain h h' : Hash_Hex h <> hex_encode (be_bytes 32 h').
Proof.
  unfold Hash_Hex. pose proof (be_bytes_length 32 h') as Hlen. pose proof (be_bytes_byte 32 h') as Hb.
  destruct (be_bytes 32 h') as [|x l]; [done|]. apply Forall_inv in Hb.
  change ("0x" +:+ hex_encode (be_bytes 32 h)) with (String "0" (String "x" (hex_encode (be_bytes 32 h)))).
  cbn [hex_encode]. intros [= _ Hx]. symmetry in Hx. revert Hx. apply hex_digit_not_x. apply Z.mod_pos_bound. lia.
Qed.

(** The keys of the bookkeeper are the hashes of transactions. *)
Definition keys_ok `{BlockCrypto} (tb : transactionBookkeeper) : Prop :=
  forall k, is_Some (txMap tb !! k) -> exists raw, k = getTransactionHash raw.

Lemma drop_outdated_subset now l : forall m, (drop_outdated now m l).1 ⊆ m.
Proof.
  induction l as [|r l IH]; intros m; cbn [drop_outdated]; [done|].
  destruct (negb (IsOutdated now r)); [done|]. etrans; [apply IH|]. apply delete_subseteq.
Qed.

Lemma removeOutdated_subset now tb : txMap (removeOutdatedTxsUnsafe now tb) ⊆ txMap tb.
Proof.
  unfold removeOutdatedTxsUnsafe. pose proof (drop_outdated_subset now (txList tb) (txMap tb)) as Hs.
  by destruct (drop_outdated now (txMap tb) (txList tb)).
Qed.

Lemma prefixed_unknown `{BlockCrypto} now tb h : keys_ok tb -> txMap (removeOutdatedTxsUnsafe now tb) !! Hash_Hex h = None.
Proof.
  intros Hk. destruct (txMap (removeOutdatedTxsUnsafe now tb) !! Hash_Hex h) as [r|] eqn:Hr; [|done].
  pose proof (lookup_weaken _ _ _ _ Hr (removeOutdated_subset now tb)) as Hin.
  destruct (Hk (Hash_Hex h)) as [raw Hraw]; [by exists r|]. by apply prefixed_not_plain in Hraw.
Qed.

Lemma hash_text_nonempty `{BlockCrypto} raw : getTransactionHash raw <> "".
Proof.
  unfold getTransactionHash. pose proof (be_bytes_length 32 (Keccak256Hash raw)) as Hlen.
  by destruct (be_bytes 32 (Keccak256Hash raw)).
Qed.

(** A record stays known, as it is, for as long as it is not outdated. *)
Lemma pending_known now now' tb k r : book_ok now tb -> now <= now' -> txMap tb !! k = Some r ->
  now' <= CreatedAt r + maxTxLife -> txMap (removeOutdatedTxsUnsafe now' tb) !! k = Some r.
Proof.
  intros Hok Hle Hr Hlife. pose proof (book_ok_later now now' tb Hle Hok) as Hok'.
  assert (Hs : is_Some (txMap (removeOutdatedTxsUnsafe now' tb) !! k)).
  { apply known_iff; [done|]. destruct Hok as (_ & _ & _ & Hdom & Hc). unfold fresh.
    destruct (decide (k ∈ RecHash <$> txList tb)) as [Hin|Hn]; [|apply Hdom in Hn; congruence].
    apply list_elem_of_fmap in Hin as (x & -> & Hx). exists x. rewrite <- (Hc _ r x Hr Hx eq_refl). split_and!; [done|done|lia]. }
  destruct Hs as [r' Hr']. rewrite Hr'. pose proof (lookup_weaken _ _ _ _ Hr' (removeOutdated_subset now' tb)) as Hw. congruence.
Qed.

Lemma record_keys `{BlockCrypto} now tb raw : keys_ok tb -> keys_ok (record getTransactionHash now tb raw).2.
Proof.
  intros Hk. pose proof (removeOutdated_subset now tb) as Hs. unfold record. case_bool_decide; cbn [snd].
  - intros k [x Hx]. apply Hk. exists x. by eapply lookup_weaken.
  - intros k [x Hx]. cbn [txMap] in Hx. apply lookup_insert_Some in Hx as [[<- _]|[_ Hx]]; [by exists raw|].
    apply Hk. exists x. eapply lookup_weaken; [|exact Hs]. unfold pop_oldest in Hx.
    destruct (Nat.leb _ _); [|done]. destruct (txList _); [done|]. cbn [txMap] in Hx. by apply lookup_delete_Some in Hx as [_ Hx].
Qed.

(** The bookkeeper after an insertion that succeeded. *)
Lemma inserted_book `{BlockCrypto} `{PQueue} {L} ScreenTx now (led : L) mp raw mp1 led1 :
  InsertTransaction getTransactionHash ScreenTx now true led mp raw = (None, mp1, led1) ->
  keys_ok (txBookeepper mp) -> book_ok now (txBookeepper mp) ->
  keys_ok (txBookeepper mp1) /\ book_ok now (txBookeepper mp1) /\
  exists r, txMap (txBookeepper mp1) !! getTransactionHash raw = Some r /\ RecStatus r = TxStatusPending /\ CreatedAt r = now.
Proof.
  unfold InsertTransaction. intros Hi Hk Hok. destruct (hasSeen getTransactionHash now (txBookeepper mp) raw) as [seen tb1] eqn:Hs.
  injection Hs as Hseen <-. destruct seen; [done|]. destruct (ScreenTx led raw) as [[info|msg] led2]; [|done].
  injection Hi as <- <-. cbn [txBookeepper].
  set (tb1 := removeOutdatedTxsUnsafe now (txBookeepper mp)) in *. apply bool_decide_eq_false in Hseen.
  assert (Hk1 : keys_ok tb1) by (intros k [x Hx]; apply Hk; exists x; eapply lookup_weaken; [done|apply removeOutdated_subset]).
  assert (Hok1 : book_ok now tb1) by by apply removeOutdated_ok.
  split; [by apply record_keys|]. split; [by apply record_ok|].
  unfold record. rewrite bool_decide_false by (unfold tb1 in *; by rewrite removeOutdated_idem). cbn [snd txMap].
  eexists. rewrite lookup_insert_eq. done.
Qed.

(** ** Callbacks *)

Definition older (a b : Callback) : Prop := created a <= created b.

(** Every entry of the map is in the list under its key; the list is sorted by
    the time of creation, which is not in the future. *)
Definition callbacks_ok (now : Z) (m : TxCallbackManager) : Prop :=
  (forall k cb, txHashToCallback m !! k = Some cb -> cb_hash cb = k /\ cb ∈ callbacks m) /\
  StronglySorted older (callbacks m) /\ Forall (fun cb => created cb <= now) (callbacks m).

Definition expired (now : Z) (cb : Callback) : Prop := txTimeout <= now - created cb.
#[export] Instance expired_dec now cb : Decision (expired now cb).
Proof. apply Z.le_dec. Defined.

(** The entries that have not timed out. *)
Definition alive (now : Z) (m : gmap string Callback) : gmap string Callback :=
  filter (fun p : string * Callback => ~ expired now (snd p)) m.

Lemma trim_loop_spec now l : forall m,
  StronglySorted older l ->
  (forall k cb, m !! k = Some cb -> cb_hash cb = k) ->
  (forall k cb, m !! k = Some cb -> expired now cb -> cb ∈ l) ->
  (trim_loop now m l).1 = alive now m /\
  exists done, l = done ++ (trim_loop now m l).2 /\ Forall (expired now) done /\
    Forall (fun cb => ~ expired now cb) (trim_loop now m l).2.
Proof.
  induction l as [|cb l IH]; intros m Hs Hk He; cbn [trim_loop].
  - split; [|by exists []]. symmetry. apply map_filter_id. intros k cb Hcb Hexp. by apply (He k), elem_of_nil in Hcb.
  - apply StronglySorted_inv in Hs as [Hs Hold].
    destruct (now - created cb <? txTimeout) eqn:Ht; bool_to_prop.
    + assert (Hall : Forall (fun c => ~ expired now c) (cb :: l)).
      { unfold expired. constructor; [lia|]. eapply Forall_impl; [exact Hold|]. unfold older. intros c Hc. lia. }
      split; [|by exists []]. symmetry. apply map_filter_id. intros k c Hc Hexp. rewrite Forall_forall in Hall.
      by apply (Hall c (He k c Hc Hexp)).
    + set (m' := match m !! cb_hash cb with Some c => _ | None => _ end).
      assert (Hm' : forall k c, m' !! k = Some c -> m !! k = Some c).
      { intros k c. unfold m'. destruct (m !! cb_hash cb) as [c2|]; [|done]. case_match; [|done].
        intros Hl. by apply lookup_delete_Some in Hl as [_ Hl]. }
      destruct (IH m') as (Hf & done_ & Hl & Hd & Hr).
      * done.
      * intros k c Hc. by apply Hk, Hm'.
      * intros k c Hc Hexp. pose proof (He k c (Hm' k c Hc) Hexp) as Hin. apply elem_of_cons in Hin as [->|Hin]; [|done].
        pose proof (Hk k cb (Hm' k cb Hc)) as <-. unfold m' in Hc. rewrite (Hm' _ _ Hc) in Hc.
        rewrite Z.eqb_refl in Hc. by rewrite lookup_delete_eq in Hc.
      * split.
        -- rewrite Hf. unfold alive. apply map_eq. intros k. apply option_eq. intros c. rewrite !map_lookup_filter_Some.
           split; intros [Hc Hexp]; (split; [|done]); [by apply Hm'|].
           unfold m'. destruct (m !! cb_hash cb) as [c2|] eqn:Hc2; [|done].
           destruct (created c2 =? created cb) eqn:Heq; [|done]. apply Z.eqb_eq in Heq.
           rewrite lookup_delete_ne; [done|]. intros <-. rewrite Hc2 in Hc. injection Hc as ->. apply Hexp. unfold expired. cbn. lia.
        -- exists (cb :: done_). split; [cbn; by rewrite <- Hl|]. split; [by constructor|done].
Qed.

Lemma Trim_spec now m : callbacks_ok now m ->
  callbacks_ok now (Trim now m) /\
  txHashToCallback (Trim now m) = alive now (txHashToCallback m) /\
  Forall (fun cb => ~ expired now cb) (callbacks (Trim now m)).
Proof.
  intros (Hk & Hs & Hc). unfold Trim.
  destruct (trim_loop_spec now (callbacks m) (txHashToCallback m)) as (Hf & done_ & Hl & Hd & Hr);
    [done|by intros k cb [? _]%Hk|by intros k cb [_ ?]%Hk _|].
  destruct (trim_loop now (txHashToCallback m) (callbacks m)) as [m' l']. cbn [fst snd] in *. subst m'.
  split_and!; [|done|done]. rewrite Hl in Hs, Hc. split_and!; cbn.
  - intros k cb [Hcb Hexp]%map_lookup_filter_Some. apply Hk in Hcb as [Hh Hin]. split; [done|].
    rewrite Hl in Hin. apply elem_of_app in Hin as [Hin|Hin]; [|done]. rewrite Forall_forall in Hd. by apply Hd in Hin.
  - by apply StronglySorted_app in Hs as (_ & _ & Hs).
  - by apply Forall_app in Hc as [_ Hc].
Qed.

Lemma AddCallback_ok now now' h r m : now <= now' -> callbacks_ok now m -> callbacks_ok now' (AddCallback now' h r m).
Proof.
  intros Hle (Hk & Hs & Hc). unfold AddCallback. split_and!; cbn.
  - intros k cb [[<- <-]|[Hne Hcb]]%lookup_insert_Some; [split; [done|set_solver]|].
    apply Hk in Hcb as [? ?]. split; [done|set_solver].
  - apply StronglySorted_app. split_and!; [|done|repeat constructor].
    intros a b Ha ->%list_elem_of_singleton. rewrite Forall_forall in Hc. apply Hc in Ha. unfold older. cbn. lia.
  - apply Forall_app. split; [|by repeat constructor]. eapply Forall_impl; [exact Hc|]. cbn. lia.
Qed.

Lemma RemoveCallback_spec h m cb m' : RemoveCallback h m = (cb, m') ->
  cb = txHashToCallback m !! Hash_Hex h /\ callbacks m' = callbacks m /\
  txHashToCallback m' = delete (Hash_Hex h) (txHashToCallback m).
Proof.
  unfold RemoveCallback. destruct (txHashToCallback m !! Hash_Hex h) as [c|] eqn:Hc; intros [= <- <-]; [done|].
  split_and!; [done|done|]. by rewrite delete_id.
Qed.

(** What a finalized block fires and leaves. *)
Section Finalized.
Context `{BlockCrypto}.

Lemma on_finalized_spec b m fired m' : on_finalized b m = (fired, m') ->
  (forall cb, cb ∈ fired <-> exists tx, tx ∈ Txs b /\ txHashToCallback m !! Hash_Hex (Keccak256Hash tx) = Some cb) /\
  callbacks m' = callbacks m /\
  forall k cb, txHashToCallback m' !! k = Some cb <->
    txHashToCallback m !! k = Some cb /\ k ∉ (fun tx => Hash_Hex (Keccak256Hash tx)) <$> Txs b.
Proof.
  unfold on_finalized. generalize (Txs b). clear b. intros txs.
  assert (Hgen : forall txs fired0 m0 fired m',
    foldl (fun '(fired, m) tx => let (cb, m) := RemoveCallback (Keccak256Hash tx) m in
             (fired ++ match cb with Some cb => [cb] | None => [] end, m)) (fired0, m0) txs = (fired, m') ->
    (forall cb, cb ∈ fired <-> cb ∈ fired0 \/ exists tx, tx ∈ txs /\ txHashToCallback m0 !! Hash_Hex (Keccak256Hash tx) = Some cb) /\
    callbacks m' = callbacks m0 /\
    forall k cb, txHashToCallback m' !! k = Some cb <->
      txHashToCallback m0 !! k = Some cb /\ k ∉ (fun tx => Hash_Hex (Keccak256Hash tx)) <$> txs).
  { clear. induction txs as [|tx txs IH]; intros fired0 m0 fired m' Hr; cbn [foldl] in Hr.
    - injection Hr as <- <-. set_solver.
    - destruct (RemoveCallback (Keccak256Hash tx) m0) as [o m1] eqn:H1. apply RemoveCallback_spec in H1 as (-> & Hq & Hm).
      apply IH in Hr as (Hf & Hq' & Hl). split_and!; [|congruence|].
      + intros cb. rewrite Hf, Hm, elem_of_app. set_unfold. split.
        * intros [[Hin|Hin]|(tx' & Hin & Hcb)]; [by left| |].
          -- right. exists tx. destruct (txHashToCallback m0 !! _) eqn:Hcb; [|by apply elem_of_nil in Hin].
             apply list_elem_of_singleton in Hin as ->. split; [by left|done].
          -- right. exists tx'. apply lookup_delete_Some in Hcb as [_ Hcb]. split; [by right|done].
        * intros [Hin|(tx' & [->|Hin] & Hcb)]; [by left; left| |].
          -- left. right. rewrite Hcb. by apply list_elem_of_singleton.
          -- destruct (decide (Hash_Hex (Keccak256Hash tx) = Hash_Hex (Keccak256Hash tx'))) as [He|He].
             ++ left. right. rewrite He, Hcb. by apply list_elem_of_singleton.
             ++ right. exists tx'. split; [done|]. by rewrite lookup_delete_ne.
      + intros k cb. rewrite Hl, Hm, lookup_delete_Some, fmap_cons, not_elem_of_cons. naive_solver. }
  intros Hr. apply Hgen in Hr as (Hf & Hq & Hl). split_and!; [|done|done]. intros cb. rewrite Hf, elem_of_nil. naive_solver.
Qed.

(** Runs of the manager: requests, finalized blocks and trims, at times that do
    not decrease. *)
Inductive callback_step : Z * TxCallbackManager -> Z * TxCallbackManager -> Prop :=
| step_request now now' h r m : now <= now' -> callback_step (now, m) (now', AddCallback now' h r m)
| step_finalized now now' b m : now <= now' -> callback_step (now, m) (now', (on_finalized b m).2)
| step_trim now now' m : now <= now' -> callback_step (now, m) (now', Trim now' m).

Lemma callbacks_ok_later now now' m : now <= now' -> callbacks_ok now m -> callbacks_ok now' m.
Proof. intros Hle (Hk & Hs & Hc). split_and!; [done|done|]. eapply Forall_impl; [exact Hc|]. cbn. lia. Qed.

Lemma callback_step_ok x y : callback_step x y -> callbacks_ok x.1 x.2 -> callbacks_ok y.1 y.2.
Proof.
  intros [now now' h r m Hle|now now' b m Hle|now now' m Hle] Hok; cbn [fst snd] in *.
  - by eapply AddCallback_ok.
  - destruct (on_finalized b m) as [fired m'] eqn:Hr. apply on_finalized_spec in Hr as (_ & Hq & Hl).
    destruct (callbacks_ok_later now now' m Hle Hok) as (Hk & Hs & Hc). cbn [snd]. rewrite <- Hq in Hs, Hc.
    split_and!; [|done|done]. intros k cb [Hcb _]%Hl. rewrite Hq. by apply Hk.
  - apply Trim_spec. by eapply callbacks_ok_later.
Qed.

Lemma callbacks_ok_run x y : rtc callback_step x y -> callbacks_ok x.1 x.2 -> callbacks_ok y.1 y.2.
Proof. induction 1; [done|]. intros Hok. eauto using callback_step_ok. Qed.

End Finalized.

(** ** Main theorems *)

(** C39 (ranges of blocks). Asked for the blocks between two heights at most
    5000 apart, the service follows the parents of the finalized block [eb] at
    the end: it answers with the stored blocks from the start (at least height
    one) to the end in increasing order, one for each height, preceded by the
    stand-in for the genesis block when the start is zero; or it fails, exactly
    when a parent on the way is missing, that of the first block of the range
    included. *)
Theorem blocks_by_range `{TxCodec} `{BlockCrypto} `{!RpcLib} {S} `{!Store S} CalcEthTxHash (ch : Chain S) fuel start end_ eth eb :
  blocks_ok ch -> consecutive ch -> is_u64 end_ -> 0 <= start <= end_ -> 0 < end_ -> end_ - start <= maxBlockRange ->
  first_finalized (findBlocksByHeight ch end_) = Some eb -> (Z.to_nat (end_ - start) < fuel)%nat ->
  let lo := Z.max start 1 in
  exists l b, ancestry ch (eb :: l) /\ last (eb :: l) = Some b /\ lo <= EBHeight b /\
    len (eb :: l) = end_ - EBHeight b + 1 /\
    (findBlock ch (EBParent b) = None /\ GetBlocksByRange CalcEthTxHash ch fuel start end_ eth = Err "KeyNotFound" \/
     EBHeight b = lo /\ is_Some (findBlock ch (EBParent b)) /\
     GetBlocksByRange CalcEthTxHash ch fuel start end_ eth =
       Ok ((if start =? 0 then [genesis_result ch] else []) ++ reverse (block_result CalcEthTxHash ch eth <$> eb :: l))).
Proof.
  intros Hok Hc He Hs Hpos Hr Hf Hfuel lo.
  assert (Heb : eb ∈ findBlocksByHeight ch end_).
  { unfold first_finalized in Hf. destruct (list_find _ _) as [[i b]|] eqn:Hl; [|done]. injection Hf as ->.
    apply list_find_Some in Hl as (Hl & _). by eapply list_elem_of_lookup_2. }
  assert (Hh : EBHeight eb = end_) by (by apply Hc).
  pose proof (found_by_height ch end_ eb Hok Heb) as Hfind.
  destruct (range_loop_spec CalcEthTxHash ch eth lo Hok Hc fuel eb []) as (l & b & Ha & Hl & Hlo & Hlen & Hres); [done|lia|lia|].
  exists l, b. split; [done|]. split; [done|]. split; [done|]. split; [lia|].
  unfold GetBlocksByRange. rewrite (proj2 (Z.eqb_neq end_ 0)), (proj2 (Z.ltb_ge end_ start)) by lia.
  rewrite u64_sub_small, (proj2 (Z.ltb_ge maxBlockRange _)), Hf by (unfold is_u64 in *; lia).
  assert ((if start =? 0 then 1 else start) = lo) as -> by (destruct (Z.eqb_spec start 0); lia).
  destruct Hres as [[Hp ->]|(Hb & Hp & ->)]; [by left|right]. split; [done|]. split; [done|].
  cbn [mbind outcome_bind]. rewrite app_nil_r. by destruct (start =? 0).
Qed.

(** C40 (submitted transactions). A transaction that the mempool has accepted
    is reported as not found under the hash that the service answers the client
    with, which has the prefix 0x, as long as it is in no block; under the same
    hash without the prefix, by which the bookkeeper of the mempool knows it, it
    is reported as pending for the whole minute that its record lives. *)
Theorem submitted_not_found `{BlockCrypto} `{!RpcLib} `{TxCodec} `{PQueue} {L} ScreenTx {S} `{!Store S} (ch : Chain S)
    now now' (led : L) mp txBytes raw :
  keys_ok (txBookeepper mp) -> book_ok now (txBookeepper mp) -> now <= now' <= now + maxTxLife ->
  decodeTxHexBytes txBytes = Ok raw ->
  (InsertTransaction getTransactionHash ScreenTx now true led mp raw).1.1 = None ->
  let r := BroadcastRawTransactionAsync ScreenTx now true led mp txBytes in
  FindTxByHash ch (HexToHash (sub_hash r)) = Ok None ->
  FindTxByHash ch (HexToHash (getTransactionHash raw)) = Ok None ->
  sub_error r = None /\ sub_hash r = "0x" +:+ getTransactionHash raw /\
  (exists mp', GetTransaction ch (sub_mempool r) now' (sub_hash r) = Ok (mkTxResult NotFoundStatus None None None None, mp')) /\
  (exists mp', GetTransaction ch (sub_mempool r) now' (getTransactionHash raw) = Ok (mkTxResult PendingStatus None None None None, mp')).
Proof.
  intros Hk Hok Hnow Hraw Hins r Hf Hp. subst r. unfold BroadcastRawTransactionAsync in *. rewrite Hraw in *. unfold submit in *.
  destruct (InsertTransaction getTransactionHash ScreenTx now true led mp raw) as [[err mp1] led1] eqn:Hi.
  cbn [fst] in Hins. subst err. cbn [sub_error sub_hash sub_mempool] in *.
  apply inserted_book in Hi as (Hk1 & Hok1 & r & Hr & Hst & Hc); [|done|done].
  split; [done|]. split; [done|]. unfold GetTransaction. rewrite Hf, Hp. cbn [mbind outcome_bind]. unfold getStatus.
  split.
  - rewrite prefixed_unknown by done. by eexists.
  - rewrite (proj2 (String.eqb_neq _ _)) by apply hash_text_nonempty.
    rewrite (pending_known now now' (txBookeepper mp1) (getTransactionHash raw) r) by (done || lia). rewrite Hst. by eexists.
Qed.

(** (callbacks). Along any run of requests, finalized blocks and trims, at
    times that do not decrease, a registered callback is kept in the list in
    which the trim looks for it: a trim removes exactly the entries of the map
    that have timed out, and a finalized block fires exactly the callbacks that
    are registered for one of its transactions, once, and leaves the others. *)
Theorem callbacks_run `{BlockCrypto} t0 now m :
  rtc callback_step (t0, NewTxCallbackManager) (now, m) ->
  callbacks_ok now m /\
  (forall now', now <= now' -> txHashToCallback (Trim now' m) = alive now' (txHashToCallback m)) /\
  forall b fired m', on_finalized b m = (fired, m') ->
    (forall cb, cb ∈ fired <-> exists tx, tx ∈ Txs b /\ txHashToCallback m !! Hash_Hex (Keccak256Hash tx) = Some cb) /\
    (forall k cb, txHashToCallback m' !! k = Some cb <->
       txHashToCallback m !! k = Some cb /\ k ∉ (fun tx => Hash_Hex (Keccak256Hash tx)) <$> Txs b).
Proof.
  intros Hrun. assert (Hok : callbacks_ok now m).
  { apply (callbacks_ok_run _ (now, m) Hrun). split_and!; [by intros k cb|constructor|constructor]. }
  split; [done|]. split.
  - intros now' Hle. by apply Trim_spec, (callbacks_ok_later now).
  - intros b fired m' Hr. by apply on_finalized_spec in Hr as (Hf & _ & Hl).
Qed.

(** ** Evaluations *)

#[local] Existing Instance demo_crypto.

(** Hashes are read by their length, Ethereum transactions are refused. *)
Definition toy_rpc : RpcLib := {|
  HexToHash s := len (string_bytes s); HexToAddress s := len (string_bytes s); GenesisHashText := "0x0";
  HeightEnableSmartContract := 0; UpdateToHeight _ a := a; TranslateEthTx _ := Err "not an Ethereum transaction" |}.
#[local] Existing Instance toy_rpc.

Definition final_block (n : uint64) : ExtendedBlock :=
  default (mkExtendedBlock demo_root [] BlockStatusPending false) (first_finalized (findBlocksByHeight final_chain n)).

Lemma blocks_by_range_witness :
  exists l, ancestry final_chain (final_block 2 :: l) /\
    GetBlocksByRange no_eth final_chain 3 0 2 false =
      Ok (genesis_result final_chain :: reverse (block_result no_eth final_chain false <$> final_block 2 :: l)).
Proof.
  destruct (blocks_by_range no_eth final_chain 3 0 2 false (final_block 2)) as (l & b & Ha & _ & _ & _ & Hr).
  - apply check_blocks_ok. vm_compute. reflexivity.
  - apply check_consecutive; vm_compute; reflexivity.
  - unfold is_u64, two64. lia.
  - lia.
  - lia.
  - unfold maxBlockRange. lia.
  - vm_compute. reflexivity.
  - vm_compute. lia.
  - exists l. split; [exact Ha|]. destruct Hr as [[_ Hr]|(_ & _ & Hr)]; [|exact Hr].
    exfalso. vm_compute in Hr. discriminate Hr.
Defined.

Lemma submitted_not_found_witness :
  let r := BroadcastRawTransactionAsync toy_screen 0 true tt CreateMempool "0x6131" in
  sub_error r = None /\
  (exists mp', GetTransaction final_chain (sub_mempool r) 1 (sub_hash r) = Ok (mkTxResult NotFoundStatus None None None None, mp')) /\
  (exists mp', GetTransaction final_chain (sub_mempool r) 1 (getTransactionHash "a1") = Ok (mkTxResult PendingStatus None None None None, mp')).
Proof.
  destruct (submitted_not_found toy_screen final_chain 0 1 tt CreateMempool "0x6131" "a1") as (He & _ & Hn & Hp).
  - intros k [x Hx]. discriminate Hx.
  - apply book_ok_empty.
  - unfold maxTxLife. lia.
  - vm_compute. reflexivity.
  - vm_compute. reflexivity.
  - vm_compute. reflexivity.
  - vm_compute. reflexivity.
  - split; [exact He|]. split; [exact Hn|exact Hp].
Defined.

(** Two requests, the first of which has timed out at the trim. *)
Lemma callbacks_run_witness :
  let m := AddCallback (60 * 10 ^ 9) 8 2 (AddCallback 0 7 1 NewTxCallbackManager) in
  callbacks_ok (60 * 10 ^ 9) m /\ txHashToCallback (Trim (60 * 10 ^ 9) m) = alive (60 * 10 ^ 9) (txHashToCallback m) /\
  size (txHashToCallback m) = 2%nat /\ size (txHashToCallback (Trim (60 * 10 ^ 9) m)) = 1%nat.
Proof.
  destruct (callbacks_run 0 (60 * 10 ^ 9) (AddCallback (60 * 10 ^ 9) 8 2 (AddCallback 0 7 1 NewTxCallbackManager))) as (Hok & Ht & _).
  - eapply rtc_l; [apply (step_request 0 0); lia|]. eapply rtc_l; [apply (step_request 0 (60 * 10 ^ 9)); lia|]. apply rtc_refl.
  - split; [exact Hok|]. split; [apply Ht; lia|]. split; vm_compute; reflexivity.
Defined.
