(* ===== verification/AbiParse.v ===== *)
(** * AbiParse: contract interfaces from their descriptions (src/eth/abi)

    How the node builds the interfaces of its contracts: the parser of type
    names ([NewType] of type.go), methods, events and errors with their
    signatures (method.go, event.go, error.go), the interface of a contract from
    the fields of its JSON description ([UnmarshalJSON] of abi.go), and the
    parser of selectors (selector_parser.go).  The decoding of JSON text into
    fields is not modelled, nor the memory limits of [reflect].  The theorems are
    in AbiParseSpec.v. *)

From Stdlib Require Import Ascii.
From stdpp Require Import gmap sorting.
From stdpp Require Import base list numbers strings.
From S2P Require Import Prelude Text Abi.
Local Open Scope string_scope.
Local Open Scope list_scope.
Local Open Scope Z_scope.

(** ** Strings *)

Definition isDigit (c : ascii) : bool := (48 <=? byte_of c) && (byte_of c <=? 57).
Definition isAlpha (c : ascii) : bool :=
  (97 <=? byte_of c) && (byte_of c <=? 122) || (65 <=? byte_of c) && (byte_of c <=? 90).
Definition isIdentifierSymbol (c : ascii) : bool := Ascii.eqb c "$" || Ascii.eqb c "_".

(** The longest prefix of characters with [f], and the rest. *)
Fixpoint span (f : ascii -> bool) (s : string) : string * string :=
  match s with
  | String c s' => if f c then let (a, b) := span f s' in (String c a, b) else ("", s)
  | "" => ("", "")
  end.

(** [strings.Count] of a character. *)
Fixpoint Count (c : ascii) (s : string) : nat :=
  match s with
  | "" => O
  | String a s' => if Ascii.eqb a c then S (Count c s') else Count c s'
  end.

(** [s[:i]] and [s[i:]] for [i := strings.LastIndex(s, c)]. *)
Fixpoint cut_last (c : ascii) (s : string) : option (string * string) :=
  match s with
  | "" => None
  | String a s' =>
      match cut_last c s' with
      | Some (p, q) => Some (String a p, q)
      | None => if Ascii.eqb a c then Some ("", s) else None
      end
  end.

(** [strings.Replace(s, c, "", -1)]. *)
Fixpoint remove_char (c : ascii) (s : string) : string :=
  match s with
  | "" => ""
  | String a s' => if Ascii.eqb a c then remove_char c s' else String a (remove_char c s')
  end.

(** [FindAllString(s, -1)] of the expression [0-9]+, after the digits [cur]. *)
Fixpoint digit_runs (cur s : string) : list string :=
  match s with
  | "" => if String.eqb cur "" then [] else [cur]
  | String c s' =>
      if isDigit c then digit_runs (cur +:+ String c "") s'
      else if String.eqb cur "" then digit_runs "" s' else cur :: digit_runs "" s'
  end.

(** A match of [typeRegex]: the letters, the size with its optional second part,
    and the digits of the first part. *)
Record TypeMatch := mkMatch { letters : string; size_text : string; size_digits : string }.

Definition match_here (s : string) : TypeMatch :=
  let (l, r) := span isAlpha s in
  let (d, r) := span isDigit r in
  if String.eqb d "" then mkMatch l "" ""
  else match r with
       | String "x" r =>
           let (d2, _) := span isDigit r in
           mkMatch l (if String.eqb d2 "" then d else d +:+ "x" +:+ d2) d
       | _ => mkMatch l d d
       end.

(** The first match: from the first letter on. *)
Fixpoint typeRegex (s : string) : option TypeMatch :=
  match s with
  | "" => None
  | String c s' => if isAlpha c then Some (match_here s) else typeRegex s'
  end.

(** ** Type names (type.go) *)

Inductive ArgumentMarshaling :=
  mkArgM (Name Type_ InternalType : string) (Components : list ArgumentMarshaling) (Indexed_ : bool).

Definition M_Name (a : ArgumentMarshaling) : string := let (n, _, _, _, _) := a in n.
Definition M_Indexed (a : ArgumentMarshaling) : bool := let (_, _, _, _, i) := a in i.

(** A type with its string and, for a tuple, the name of the struct. *)
Record Parsed := mkParsed { PT : AType; stringKind : string; TupleRawName : string }.

(** Whether [reflect.StructOf] takes a name that is not ASCII. *)
Class FieldNames := { unicode_field : string -> bool }.

(** A name that [reflect.StructOf] takes without a package path: an exported
    identifier. *)
Definition isValidFieldName `{FieldNames} (s : string) : bool :=
  if all_chars is_ascii s then
    match s with
    | "" => false
    | String c s' => (65 <=? byte_of c) && (byte_of c <=? 90) &&
                     all_chars (fun c => isAlpha c || isDigit c || Ascii.eqb c "_") s'
    end
  else unicode_field s.

(** The loop of [overloadedArgName] and [overloadedName]. *)
Fixpoint overload (fuel : nat) (raw : string) (taken : string -> bool) (idx : Z) (name : string) : string :=
  if taken name then
    match fuel with
    | O => name
    | S fuel => overload fuel raw taken (idx + 1) (raw +:+ decimal idx)
    end
  else name.

Definition overloadedArgName (rawName : string) (names : list string) : outcome string :=
  let fieldName := ToCamelCase rawName in
  if String.eqb fieldName "" then Err "abi: purely anonymous or underscored field is not supported"
  else Ok (overload (length names) fieldName (fun s => bool_decide (s ∈ names)) 0 fieldName).

Section NewType.
Context `{FieldNames}.

(** The components of a tuple: the type, its string, the raw name and the name
    of the field. *)
Fixpoint tuple_loop (parts : list (string * outcome Parsed)) (names : list string)
    : outcome (list (AType * string * string * string)) :=
  match parts with
  | [] => Ok []
  | (name, part) :: rest =>
      cType ← part;
      fieldName ← overloadedArgName name names;
      l ← tuple_loop rest (fieldName :: names);
      Ok ((PT cType, stringKind cType, name, fieldName) :: l)
  end.

Definition structPrefix : string := "struct ".

Definition struct_name (internalType : string) : string :=
  if String.prefix structPrefix internalType then
    match string_from internalType 7 with Ok s => remove_char "." s | _ => "" end
  else "".

Definition tuple_type (internalType : string) (parts : list (string * outcome Parsed)) : outcome Parsed :=
  l ← tuple_loop parts [];
  let fields := (fun x => x.2) <$> l in
  if forallb isValidFieldName fields then
    Ok (mkParsed (TupleTy ((fun x => x.1.1.1) <$> l) ((fun x => x.1.2) <$> l) fields)
          ("(" +:+ String.concat "," ((fun x => x.1.1.2) <$> l) +:+ ")") (struct_name internalType))
  else Panic "reflect.StructOf: field has invalid name".

(** A type without brackets. *)
Definition base_type (t internalType : string) (parts : list (string * outcome Parsed)) : outcome Parsed :=
  match typeRegex t with
  | None => Err "invalid type"
  | Some m =>
      varSize ← (if String.eqb (size_digits m) "" then
                   if String.eqb (letters m) "uint" || String.eqb (letters m) "int" then Err "unsupported arg type" else Ok 0
                 else match Atoi (size_text m) with
                      | Some n => Ok n
                      | None => Err "abi: error parsing variable size"
                      end);
      let v := letters m in
      let simple ty := Ok (mkParsed ty t "") in
      if String.eqb v "int" then simple (IntTy varSize)
      else if String.eqb v "uint" then simple (UintTy varSize)
      else if String.eqb v "bool" then simple BoolTy
      else if String.eqb v "address" then simple AddressTy
      else if String.eqb v "string" then simple StringTy
      else if String.eqb v "bytes" then simple (if varSize =? 0 then BytesTy else FixedBytesTy varSize)
      else if String.eqb v "tuple" then tuple_type internalType parts
      else if String.eqb v "function" then simple FunctionTy
      else Err "unsupported arg type"
  end.

(** [NewType] with the types of the components; a level of recursion for each
    bracket. *)
Fixpoint newType (fuel : nat) (t internalType : string) (parts : list (string * outcome Parsed)) : outcome Parsed :=
  if negb (Nat.eqb (Count "[" t) (Count "]" t)) then Err "invalid arg type in abi"
  else match cut_last "[" t with
       | None => base_type t internalType parts
       | Some (pre, sliced) =>
           match fuel with
           | O => Err "out of fuel"
           | S fuel =>
               let subInternal := match cut_last "[" internalType with Some (p, _) => p | None => internalType end in
               e ← newType fuel pre subInternal parts;
               match digit_runs "" sliced with
               | [] => Ok (mkParsed (SliceTy (PT e)) (stringKind e +:+ sliced) "")
               | [d] =>
                   match Atoi d with
                   | Some n => Ok (mkParsed (ArrayTy (PT e) n) (stringKind e +:+ sliced) "")
                   | None => Err "abi: error parsing variable size"
                   end
               | _ => Err "invalid formatting of array type"
               end
           end
       end.

Fixpoint arg_type (a : ArgumentMarshaling) : outcome Parsed :=
  let (_, t, internalType, components, _) := a in
  newType (Count "[" t) t internalType (List.map (fun c => (M_Name c, arg_type c)) components).

Definition NewType (t internalType : string) (components : list ArgumentMarshaling) : outcome Parsed :=
  newType (Count "[" t) t internalType (List.map (fun c => (M_Name c, arg_type c)) components).

(** ** Arguments, methods, events and errors *)

Record PArg := mkPArg { PName : string; PType : Parsed; PIndexed : bool }.

Definition Argument_UnmarshalJSON (a : ArgumentMarshaling) : outcome PArg :=
  t ← arg_type a; Ok (mkPArg (M_Name a) t (M_Indexed a)).

Definition arg_kind (a : PArg) : string := stringKind (PType a).

End NewType.

Inductive FunctionType := Constructor | Fallback | Receive | Function.

#[global] Instance FunctionType_eq_dec : EqDecision FunctionType.
Proof. solve_decision. Defined.

Record PMethod := mkPMethod {
  Method_Name : string;
  RawName : string;
  Method_Type : FunctionType;
  StateMutability : string;
  Constant : bool;
  Payable : bool;
  MInputs : list PArg;
  MOutputs : list PArg;
  method_str : string;
  Method_Sig : string;
  Method_ID : list Z
}.

Definition signature (rawName : string) (inputs : list PArg) : string :=
  rawName +:+ "(" +:+ String.concat "," (arg_kind <$> inputs) +:+ ")".

Section Contracts.
Context (Keccak256 : list Z -> list Z).

Definition NewMethod (name rawName : string) (funType : FunctionType) (mutability : string) (isConst isPayable : bool)
    (inputs outputs : list PArg) : PMethod :=
  let inputNames := (fun a => arg_kind a +:+ " " +:+ PName a) <$> inputs in
  let outputNames := (fun a => arg_kind a +:+ (if String.eqb (PName a) "" then "" else " " +:+ PName a)) <$> outputs in
  let sig := if decide (funType = Function) then signature rawName inputs else "" in
  let id := if decide (funType = Function) then take 4 (Keccak256 (string_bytes sig)) else [] in
  let state := if String.eqb mutability "nonpayable" then "" else mutability in
  let state := if String.eqb state "" then state else state +:+ " " in
  let identity := match funType with
                  | Fallback => "fallback"
                  | Receive => "receive"
                  | Constructor => "constructor"
                  | Function => "function " +:+ rawName
                  end in
  mkPMethod name rawName funType mutability isConst isPayable inputs outputs
    (identity +:+ "(" +:+ String.concat ", " inputNames +:+ ") " +:+ state +:+ "returns(" +:+ String.concat ", " outputNames +:+ ")")
    sig id.

Definition IsConstant (m : PMethod) : bool :=
  String.eqb (StateMutability m) "view" || String.eqb (StateMutability m) "pure" || Constant m.
Definition IsPayable (m : PMethod) : bool := String.eqb (StateMutability m) "payable" || Payable m.

(** Events and errors. *)
Record PEvent := mkPEvent {
  Event_Name : string;
  Event_RawName : string;
  Anonymous : bool;
  EInputs : list PArg;
  event_str : string;
  Event_Sig : string;
  Event_ID : list Z
}.

(** Inputs without a name are numbered. *)
Definition name_input (i : nat) (a : PArg) : PArg :=
  if String.eqb (PName a) "" then mkPArg ("arg" +:+ decimal (Z.of_nat i)) (PType a) (PIndexed a) else a.

Definition input_text (a : PArg) : string :=
  arg_kind a +:+ (if PIndexed a then " indexed " else " ") +:+ PName a.

Definition NewEvent (name rawName : string) (anonymous : bool) (inputs : list PArg) : PEvent :=
  let inputs := imap name_input inputs in
  let sig := signature rawName inputs in
  mkPEvent name rawName anonymous inputs ("event " +:+ rawName +:+ "(" +:+ String.concat ", " (input_text <$> inputs) +:+ ")")
    sig (Keccak256 (string_bytes sig)).

Definition NewError (name : string) (inputs : list PArg) : PEvent :=
  let inputs := imap name_input inputs in
  let sig := signature name inputs in
  mkPEvent name name false inputs ("error " +:+ name +:+ "(" +:+ String.concat ", " (input_text <$> inputs) +:+ ")")
    sig (Keccak256 (string_bytes sig)).

Definition erase_args (l : list PArg) : Arguments :=
  (fun a => mkArgument (PName a) (PT (PType a)) (PIndexed a)) <$> l.

(** [Error.Unpack]: the first four bytes of the identifier and the values. *)
Definition Error_Unpack (e : PEvent) (data : list Z) : outcome (list GoVal) :=
  if len data <? 4 then Err "invalid data for unpacking"
  else if negb (bool_decide (take 4 data = take 4 (Event_ID e))) then Err "invalid data for unpacking"
  else Unpack (erase_args (EInputs e)) (drop 4 data).

(** ** The interface of a contract (abi.go) *)

Record ContractABI := mkContractABI {
  ABI_Constructor : PMethod;
  ABI_Methods : gmap string PMethod;
  ABI_Events : gmap string PEvent;
  ABI_Errors : gmap string PEvent;
  ABI_Fallback : PMethod;
  ABI_Receive : PMethod
}.

(** The zero method has the type of a constructor. *)
Definition zero_method : PMethod := mkPMethod "" "" Constructor "" false false [] [] "" "" [].
Definition empty_abi : ContractABI := mkContractABI zero_method ∅ ∅ ∅ zero_method zero_method.

Definition HasFallback (abi : ContractABI) : bool := bool_decide (Method_Type (ABI_Fallback abi) = Fallback).
Definition HasReceive (abi : ContractABI) : bool := bool_decide (Method_Type (ABI_Receive abi) = Receive).

Definition overloadedName {A} (rawName : string) (m : gmap string A) : string :=
  overload (size m) rawName (fun s => bool_decide (is_Some (m !! s))) 0 rawName.

(** A field of the description. *)
Record Field := mkField {
  FType : string;
  FName : string;
  FInputs : list ArgumentMarshaling;
  FOutputs : list ArgumentMarshaling;
  FMutability : string;
  FConstant : bool;
  FPayable : bool;
  FAnonymous : bool
}.

Fixpoint map_outcome {A B} (f : A -> outcome B) (l : list A) : outcome (list B) :=
  match l with
  | [] => Ok []
  | x :: l => y ← f x; l' ← map_outcome f l; Ok (y :: l')
  end.

Context `{FieldNames}.

Definition add_field (abi : ContractABI) (f : Field) (inputs outputs : list PArg) : outcome ContractABI :=
  let '(mkContractABI c ms es er fb rc) := abi in
  let t := FType f in
  if String.eqb t "constructor" then
    Ok (mkContractABI (NewMethod "" "" Constructor (FMutability f) (FConstant f) (FPayable f) inputs []) ms es er fb rc)
  else if String.eqb t "function" then
    let name := overloadedName (FName f) ms in
    Ok (mkContractABI c (<[name := NewMethod name (FName f) Function (FMutability f) (FConstant f) (FPayable f) inputs outputs]> ms)
          es er fb rc)
  else if String.eqb t "fallback" then
    if HasFallback abi then Err "only single fallback is allowed"
    else Ok (mkContractABI c ms es er (NewMethod "" "" Fallback (FMutability f) (FConstant f) (FPayable f) [] []) rc)
  else if String.eqb t "receive" then
    if HasReceive abi then Err "only single receive is allowed"
    else if negb (String.eqb (FMutability f) "payable") then Err "the statemutability of receive can only be payable"
    else Ok (mkContractABI c ms es er fb (NewMethod "" "" Receive (FMutability f) (FConstant f) (FPayable f) [] []))
  else if String.eqb t "event" then
    let name := overloadedName (FName f) es in
    Ok (mkContractABI c ms (<[name := NewEvent name (FName f) (FAnonymous f) inputs]> es) er fb rc)
  else if String.eqb t "error" then
    Ok (mkContractABI c ms es (<[FName f := NewError (FName f) inputs]> er) fb rc)
  else Err "abi: could not recognize type of field".

Fixpoint add_fields (abi : ContractABI) (l : list (Field * list PArg * list PArg)) : outcome ContractABI :=
  match l with
  | [] => Ok abi
  | (f, inputs, outputs) :: l => abi ← add_field abi f inputs outputs; add_fields abi l
  end.

Definition decode_field (f : Field) : outcome (Field * list PArg * list PArg) :=
  inputs ← map_outcome Argument_UnmarshalJSON (FInputs f);
  outputs ← map_outcome Argument_UnmarshalJSON (FOutputs f);
  Ok (f, inputs, outputs).

(** [UnmarshalJSON]: all arguments are decoded first. *)
Definition UnmarshalJSON (fields : list Field) : outcome ContractABI :=
  l ← map_outcome decode_field fields; add_fields empty_abi l.

(** The interface as the codec of Abi.v reads it. *)
Definition erase_abi (abi : ContractABI) : ABI :=
  mkABI ((fun m => mkMethod (Method_Sig m) (erase_args (MInputs m)) (erase_args (MOutputs m))) <$> ABI_Methods abi)
        ((fun e => erase_args (EInputs e)) <$> ABI_Events abi).

(** [MethodById] and [EventByID], with the methods and events in the order the
    map is iterated in. *)
Definition MethodById (methods : list PMethod) (sigdata : list Z) : outcome PMethod :=
  if len sigdata <? 4 then Err "data too short for abi method lookup"
  else match List.find (fun m => bool_decide (Method_ID m = take 4 sigdata)) methods with
       | Some m => Ok m
       | None => Err "no method with id"
       end.

Definition EventByID (events : list PEvent) (topic : list Z) : outcome PEvent :=
  match List.find (fun e => bool_decide (Event_ID e = topic)) events with
  | Some e => Ok e
  | None => Err "no event with id"
  end.

(** [UnpackRevert] *)
Definition UnpackRevert (data : list Z) : outcome string :=
  if len data <? 4 then Err "invalid data for unpacking"
  else if negb (bool_decide (take 4 data = take 4 (Keccak256 (string_bytes "Error(string)")))) then Err "invalid data for unpacking"
  else vals ← Unpack [mkArgument "" StringTy false] (drop 4 data);
       match vals with
       | GString s :: _ => Ok s
       | _ :: _ => Panic "interface conversion"
       | [] => Panic "index out of range"
       end.

End Contracts.

(** ** Selectors (selector_parser.go) *)

Inductive SelType := SElem (s : string) | STuple (l : list SelType).

Record SelectorMarshaling := mkSelector { Sel_Name : string; Sel_Type : string; Sel_Inputs : list ArgumentMarshaling }.

Definition parseToken (s : string) (isIdent : bool) : outcome (string * string) :=
  match s with
  | "" => Err "empty token"
  | String c s' =>
      if negb (isAlpha c || isIdent && isIdentifierSymbol c) then Err "invalid token start"
      else let (a, b) := span (fun c => isAlpha c || isDigit c || isIdent && isIdentifierSymbol c) s' in Ok (String c a, b)
  end.

Definition parseIdentifier (s : string) : outcome (string * string) := parseToken s true.

(** The loop over array brackets: their text and the rest. *)
Fixpoint array_suffix (inside : bool) (rest : string) : outcome (string * string) :=
  match inside, rest with
  | false, String c r =>
      if Ascii.eqb c "[" then '(p, q) ← array_suffix true r; Ok (String c p, q) else Ok ("", rest)
  | false, "" => Ok ("", "")
  | true, String c r =>
      if isDigit c then '(p, q) ← array_suffix true r; Ok (String c p, q)
      else if Ascii.eqb c "]" then '(p, q) ← array_suffix false r; Ok (String c p, q)
      else Err "failed to parse array"
  | true, "" => Err "failed to parse array"
  end.

Definition parseElementaryType (s : string) : outcome (string * string) :=
  '(parsedType, rest) ← parseToken s false;
  '(suffix, rest) ← array_suffix false rest;
  Ok (parsedType +:+ suffix, rest).

(** The loop of [parseCompositeType] from the first type on, with the parser of
    types.  Any character separates two types. *)
Fixpoint parse_list (parse : string -> outcome (SelType * string)) (fuel : nat) (s : string) : outcome (list SelType * string) :=
  match fuel with
  | O => Err "out of fuel"
  | S fuel =>
      '(t, rest) ← parse s;
      match rest with
      | "" => Err "expected ')'"
      | String c r =>
          if Ascii.eqb c ")" then Ok ([t], r)
          else '(l, rest) ← parse_list parse fuel r; Ok (t :: l, rest)
      end
  end.

Fixpoint parseType (fuel : nat) (s : string) : outcome (SelType * string) :=
  match fuel with
  | O => Err "out of fuel"
  | S fuel =>
      match s with
      | "" => Err "empty type"
      | String c r =>
          if Ascii.eqb c "(" then '(l, rest) ← parse_list (parseType fuel) fuel r; Ok (STuple l, rest)
          else '(e, rest) ← parseElementaryType s; Ok (SElem e, rest)
      end
  end.

(** The length of the text is enough fuel for the nesting and for the list; the
    message about a text that does not start with a bracket indexes it. *)
Definition parseCompositeType (s : string) : outcome (list SelType * string) :=
  match s with
  | "" => Panic "index out of range [0] with length 0"
  | String c r =>
      if Ascii.eqb c "(" then parse_list (parseType (String.length s)) (String.length s) r else Err "expected '('"
  end.

(** Arguments with dummy names. *)
Fixpoint assembleArg (i : nat) (a : SelType) : ArgumentMarshaling :=
  let name := "name" +:+ decimal (Z.of_nat i) in
  match a with
  | SElem s => mkArgM name s s [] false
  | STuple l => mkArgM name "tuple" "tuple"
      ((fix go (i : nat) (l : list SelType) : list ArgumentMarshaling :=
          match l with
          | [] => []
          | a :: l => assembleArg i a :: go (S i) l
          end) O l) false
  end.

Definition assembleArgs (args : list SelType) : list ArgumentMarshaling := imap assembleArg args.

Definition ParseSelector (s : string) : outcome SelectorMarshaling :=
  '(name, rest) ← parseIdentifier s;
  '(args, rest) ← (if String.prefix "()" rest then r ← string_from rest 2; Ok ([], r)
                   else parseCompositeType rest);
  if String.eqb rest "" then Ok (mkSelector name "function" (assembleArgs args))
  else Err "failed to parse selector: unexpected string".
