(* ===== verification/AbiParseSpec.v ===== *)
(** * AbiParseSpec: parsing contract interfaces

    Type names round trip through [NewType]; the names that overloading makes
    are free, so no method of an interface is lost; the signature of a method is
    parsed by [ParseSelector] into the types it was made of; and the texts on
    which the parsers panic. *)

From Stdlib Require Import Ascii.
From stdpp Require Import gmap sorting.
From stdpp Require Import base list numbers strings.
From S2P Require Import Prelude Text Abi AbiSpec AbiParse.
Local Open Scope string_scope.
Local Open Scope list_scope.
Local Open Scope Z_scope.

(** ** Strings *)

Lemma string_app_assoc s1 s2 s3 : (s1 +:+ s2) +:+ s3 = s1 +:+ s2 +:+ s3.
Proof. induction s1 as [|c s IH]; [done|]. rewrite !string_cons_app. by rewrite IH. Qed.

Lemma string_app_nil s : s +:+ "" = s.
Proof. induction s as [|c s IH]; [done|]. rewrite string_cons_app. by rewrite IH. Qed.

Lemma Count_app c s1 s2 : Count c (s1 +:+ s2) = (Count c s1 + Count c s2)%nat.
Proof. induction s1 as [|a s1 IH]; [done|]. rewrite string_cons_app. cbn [Count]. rewrite IH. by destruct (Ascii.eqb a c). Qed.

Lemma Count_lacks c s : lacks c s = true -> Count c s = 0%nat.
Proof.
  induction s as [|a s IH]; [done|]. unfold lacks in *. cbn. intros [Ha Hs]%andb_true_iff.
  apply negb_true_iff in Ha. rewrite Ha. by apply IH.
Qed.

Lemma cut_last_none c s : lacks c s = true -> cut_last c s = None.
Proof.
  induction s as [|a s IH]; [done|]. unfold lacks in *. cbn. intros [Ha Hs]%andb_true_iff.
  apply negb_true_iff in Ha. by rewrite Ha, IH.
Qed.

Lemma cut_last_app c s x : lacks c x = true -> cut_last c (s +:+ String c x) = Some (s, String c x).
Proof.
  intros Hx. induction s as [|a s IH].
  - rewrite string_nil_app. cbn. by rewrite cut_last_none, Ascii.eqb_refl.
  - rewrite string_cons_app. cbn. by rewrite IH.
Qed.

Lemma span_app f s1 s2 : all_chars f s1 = true -> span f (s1 +:+ s2) = (s1 +:+ (span f s2).1, (span f s2).2).
Proof.
  induction s1 as [|c s1 IH]; [by rewrite !string_nil_app; destruct (span f s2)|].
  cbn [all_chars]. intros [Hc Hs]%andb_true_iff. rewrite string_cons_app. cbn [span]. by rewrite Hc, IH, string_cons_app.
Qed.

Lemma span_all f s : all_chars f s = true -> span f s = (s, "").
Proof. intros Hs. rewrite <- (string_app_nil s) at 1. rewrite span_app by done. cbn. by rewrite string_app_nil. Qed.

Lemma decimal_eqb n : String.eqb (decimal n) "" = false.
Proof. apply String.eqb_neq, decimal_nonempty. Qed.

Lemma digits_lack c s : isDigit c = false -> all_chars isDigit s = true -> lacks c s = true.
Proof.
  intros Hc. apply all_chars_impl. intros a Ha. apply negb_true_iff. destruct (Ascii.eqb_spec a c) as [->|]; [congruence|done].
Qed.

Lemma digit_runs_app cur s r : all_chars isDigit s = true -> digit_runs cur (s +:+ r) = digit_runs (cur +:+ s) r.
Proof.
  revert cur. induction s as [|c s IH]; intros cur; [by rewrite string_nil_app, string_app_nil|].
  cbn [all_chars]. intros [Hc Hs]%andb_true_iff. rewrite string_cons_app. cbn [digit_runs]. rewrite Hc, IH by done.
  by rewrite string_app_assoc.
Qed.

Lemma array_runs n : 0 <= n -> digit_runs "" ("[" +:+ decimal n +:+ "]") = [decimal n].
Proof.
  intros Hn. change ("[" +:+ decimal n +:+ "]") with (String "[" (decimal n +:+ "]")). cbn [digit_runs].
  change (isDigit "[") with false. cbn [String.eqb]. rewrite digit_runs_app by by apply decimal_digits. rewrite string_nil_app. cbn [digit_runs].
  change (isDigit "]") with false. by rewrite decimal_eqb.
Qed.

Definition is_int (n : Z) : Prop := 0 <= n < 2 ^ 63.

Lemma decimal_not_alpha n : 0 <= n -> span isAlpha (decimal n) = ("", decimal n).
Proof.
  intros Hn. pose proof (decimal_digits n Hn) as Hd. destruct (decimal n) as [|d s]; [done|].
  cbn [all_chars] in Hd. apply andb_true_iff in Hd as [Hd _]. cbn [span].
  assert (isAlpha d = false) as ->; [|done]. unfold isAlpha, is_digit in *. bool_to_prop. lia.
Qed.

(** Matches of letters, alone or followed by a number. *)
Lemma typeRegex_letters l : all_chars isAlpha l = true -> l <> "" -> typeRegex l = Some (mkMatch l "" "").
Proof.
  intros Hl Hne. destruct l as [|c l]; [done|]. cbn [typeRegex]. pose proof Hl as Hl'.
  cbn [all_chars] in Hl'. apply andb_true_iff in Hl' as [-> _]. f_equal. unfold match_here. by rewrite span_all.
Qed.

Lemma typeRegex_sized l n : all_chars isAlpha l = true -> l <> "" -> 0 <= n ->
  typeRegex (l +:+ decimal n) = Some (mkMatch l (decimal n) (decimal n)).
Proof.
  intros Hl Hne Hn. assert (Hm : match_here (l +:+ decimal n) = mkMatch l (decimal n) (decimal n)).
  { unfold match_here. rewrite span_app, decimal_not_alpha by done. cbn [fst snd].
    rewrite span_all, decimal_eqb, string_app_nil by by apply decimal_digits. done. }
  rewrite <- Hm. destruct l as [|c l]; [done|]. rewrite string_cons_app in *. cbn [typeRegex].
  cbn [all_chars] in Hl. by apply andb_true_iff in Hl as [-> _].
Qed.

(** ** Types and their names *)

(** The name of a type in a description, and its name in signatures. *)
Fixpoint type_text (t : AType) : string :=
  match t with
  | IntTy n => "int" +:+ decimal n
  | UintTy n => "uint" +:+ decimal n
  | BoolTy => "bool"
  | StringTy => "string"
  | SliceTy e => type_text e +:+ "[]"
  | ArrayTy e n => type_text e +:+ "[" +:+ decimal n +:+ "]"
  | TupleTy _ _ _ => "tuple"
  | AddressTy => "address"
  | FixedBytesTy n => "bytes" +:+ decimal n
  | BytesTy => "bytes"
  | HashTy => "hash"
  | FixedPointTy => "fixed"
  | FunctionTy => "function"
  end.

Fixpoint kind_text (t : AType) : string :=
  match t with
  | SliceTy e => kind_text e +:+ "[]"
  | ArrayTy e n => kind_text e +:+ "[" +:+ decimal n +:+ "]"
  | TupleTy es _ _ => "(" +:+ String.concat "," (List.map kind_text es) +:+ ")"
  | _ => type_text t
  end.

(** The components of the tuple under the brackets, with the internal types that
    [internal] gives. *)
Fixpoint type_components (internal : AType -> string) (t : AType) : list ArgumentMarshaling :=
  match t with
  | SliceTy e | ArrayTy e _ => type_components internal e
  | TupleTy es raws _ =>
      zip_with (fun raw (c : string -> ArgumentMarshaling) => c raw) raws
        (List.map (fun e raw => mkArgM raw (type_text e) (internal e) (type_components internal e) false) es)
  | _ => []
  end.

(** The names of the fields of a tuple. *)
Fixpoint field_names (raws names : list string) : outcome (list string) :=
  match raws with
  | [] => Ok []
  | raw :: raws => f ← overloadedArgName raw names; l ← field_names raws (f :: names); Ok (f :: l)
  end.

Section RoundTrip.
Context `{FieldNames}.

(** Types that have a name: sizes in the range of [int] and tuples with the
    field names that [NewType] makes, which [reflect] takes. *)
Fixpoint nameable (t : AType) : bool :=
  match t with
  | IntTy n | UintTy n => (0 <=? n) && (n <? 2 ^ 63)
  | FixedBytesTy n => (0 <? n) && (n <? 2 ^ 63)
  | SliceTy e => nameable e
  | ArrayTy e n => nameable e && (0 <=? n) && (n <? 2 ^ 63)
  | TupleTy es raws fields =>
      forallb nameable es && Nat.eqb (length raws) (length es) &&
      match field_names raws [] with Ok l => bool_decide (l = fields) | _ => false end && forallb isValidFieldName fields
  | HashTy | FixedPointTy => false
  | _ => true
  end.

Lemma brackets_balanced t : nameable t = true ->
  Count "[" (type_text t) = Count "]" (type_text t).
Proof.
  induction t using AType_nested_ind; cbn [nameable type_text]; intros Hn; try done;
    rewrite ?Count_app, ?(Count_lacks _ (decimal _)) by (by apply decimal_lacks); try done.
  - by rewrite IHt.
  - apply andb_true_iff in Hn as [[Hn _]%andb_true_iff _]. rewrite IHt by done. done.
Qed.

Definition parts_of (cs : list ArgumentMarshaling) : list (string * outcome Parsed) :=
  List.map (fun c => (M_Name c, arg_type c)) cs.

Lemma newType_base fuel t i parts : lacks "[" t = true -> lacks "]" t = true ->
  newType fuel t i parts = base_type t i parts.
Proof.
  intros H1 H2. assert (Hc : Nat.eqb (Count "[" t) (Count "]" t) = true) by by rewrite !Count_lacks.
  destruct fuel; cbn [newType]; by rewrite Hc, cut_last_none.
Qed.

(** Brackets are put around what was read before them. *)
Lemma newType_slice t i parts e : Count "[" t = Count "]" t ->
  (forall i, exists r, newType (Count "[" t) t i parts = Ok (mkParsed (PT e) (stringKind e) r)) ->
  newType (Count "[" (t +:+ "[]")) (t +:+ "[]") i parts = Ok (mkParsed (SliceTy (PT e)) (stringKind e +:+ "[]") "").
Proof.
  intros Hb He. assert (Count "[" (t +:+ "[]") = S (Count "[" t)) as Hc by (rewrite Count_app; cbn; lia).
  rewrite Hc. cbn [newType]. rewrite Hc, (Count_app "]"), Hb. cbn [Count]. cbn [Ascii.eqb Bool.eqb].
  rewrite (proj2 (Nat.eqb_eq _ _)) by lia. cbn [negb]. rewrite cut_last_app by done.
  destruct (He (match cut_last "[" i with Some (p, _) => p | None => i end)) as [r Hr].
  rewrite <- Hb, Hr. cbn [mbind outcome_bind PT stringKind]. done.
Qed.

Lemma newType_array t i parts e n : Count "[" t = Count "]" t -> is_int n ->
  (forall i, exists r, newType (Count "[" t) t i parts = Ok (mkParsed (PT e) (stringKind e) r)) ->
  let b := "[" +:+ decimal n +:+ "]" in
  newType (Count "[" (t +:+ b)) (t +:+ b) i parts = Ok (mkParsed (ArrayTy (PT e) n) (stringKind e +:+ b) "").
Proof.
  intros Hb Hn He b. assert (Hd : forall c, is_numeral c = false -> Count c (decimal n) = O) by (intros; by apply Count_lacks, decimal_lacks).
  assert (Count "[" (t +:+ b) = S (Count "[" t)) as Hc by (unfold b; rewrite !Count_app, Hd by done; cbn; lia).
  assert (Count "]" (t +:+ b) = S (Count "]" t)) as Hc' by (unfold b; rewrite !Count_app, Hd by done; cbn; lia).
  rewrite Hc. cbn [newType]. rewrite Hc, Hc', Hb, Nat.eqb_refl. cbn [negb].
  change b with (String "[" (decimal n +:+ "]")) at 1. rewrite cut_last_app.
  2:{ unfold lacks. rewrite all_chars_app. fold (lacks "[" (decimal n)). by rewrite decimal_lacks. }
  destruct (He (match cut_last "[" i with Some (p, _) => p | None => i end)) as [r Hr].
  rewrite <- Hb, Hr. cbn [mbind outcome_bind PT stringKind]. change (String "[" (decimal n +:+ "]")) with b. unfold b.
  rewrite array_runs by (unfold is_int in Hn; lia). rewrite Atoi_decimal by (unfold is_int in Hn; lia). done.
Qed.

Lemma tuple_loop_ok internal es : forall raws names fields, length raws = length es ->
  Forall (fun e => forall i, exists r, newType (Count "[" (type_text e)) (type_text e) i (parts_of (type_components internal e)) =
                     Ok (mkParsed e (kind_text e) r)) es ->
  field_names raws names = Ok fields ->
  exists l, tuple_loop (parts_of (zip_with (fun raw (c : string -> ArgumentMarshaling) => c raw) raws
        (List.map (fun e raw => mkArgM raw (type_text e) (internal e) (type_components internal e) false) es))) names = Ok l /\
    (fun x => x.1.1.1) <$> l = es /\ (fun x => x.1.1.2) <$> l = List.map kind_text es /\
    (fun x => x.1.2) <$> l = raws /\ (fun x => x.2) <$> l = fields.
Proof.
  induction es as [|e es IH]; intros [|raw raws] names fields Hlen Hes Hf; try done.
  - injection Hf as <-. by exists [].
  - apply Forall_cons in Hes as [He Hes]. cbn [field_names] in Hf.
    destruct (overloadedArgName raw names) as [f| |] eqn:Ho; cbn [mbind outcome_bind] in Hf; try done.
    destruct (field_names raws (f :: names)) as [fs| |] eqn:Hfs; cbn [mbind outcome_bind] in Hf; try done. injection Hf as <-.
    destruct (IH raws (f :: names) fs) as (l & Hl & H1 & H2 & H3 & H4); [by injection Hlen|done|done|].
    destruct (He (internal e)) as [r Hr]. exists ((e, kind_text e, raw, f) :: l).
    cbn [List.map zip_with parts_of tuple_loop M_Name arg_type]. fold (parts_of (type_components internal e)). rewrite Hr.
    cbn [mbind outcome_bind]. rewrite Ho. cbn [mbind outcome_bind]. unfold parts_of in Hl. rewrite Hl.
    cbn [mbind outcome_bind PT stringKind]. split_and!; [done|..]; cbn; congruence.
Qed.

Lemma newType_text internal t : nameable t = true -> forall i, exists r,
  newType (Count "[" (type_text t)) (type_text t) i (parts_of (type_components internal t)) = Ok (mkParsed t (kind_text t) r).
Proof.
  induction t using AType_nested_ind; intros Hn i; pose proof Hn as Hn'; cbn [nameable] in Hn';
    cbn [type_text kind_text type_components]; try done.
  all: try (eexists; rewrite newType_base by done; reflexivity).
  1,2,6: bool_to_prop; eexists; rewrite newType_base by (unfold lacks; rewrite all_chars_app; apply decimal_lacks; done);
    unfold base_type; rewrite typeRegex_sized by (done || lia); cbn [size_digits letters size_text];
    rewrite decimal_eqb, Atoi_decimal by (unfold is_int; lia); try reflexivity.
  - cbn. assert (n =? 0 = false) as -> by lia. reflexivity.
  - eexists. apply (newType_slice _ i _ (mkParsed t (kind_text t) "")); [by apply brackets_balanced|by apply IHt].
  - apply andb_true_iff in Hn' as [[Ht ?%Z.leb_le]%andb_true_iff ?%Z.ltb_lt]. eexists.
    apply (newType_array _ i _ (mkParsed t (kind_text t) "")); [by apply brackets_balanced|done|by apply IHt].
  - apply andb_true_iff in Hn' as [[[Hes Hlen]%andb_true_iff Hf]%andb_true_iff Hv]. destruct (field_names raws []) as [fs| |] eqn:Hfs; try done.
    apply bool_decide_eq_true in Hf as ->. apply Nat.eqb_eq in Hlen.
    destruct (tuple_loop_ok internal es raws [] names Hlen) as (l & Hl & H1 & H2 & H3 & H4); [|done|].
    + rewrite Forall_forall in H0 |- *. intros e He. apply H0; [done|]. apply (forallb_forall nameable es); [done|]. by apply list_elem_of_In.
    + rewrite newType_base by done. eexists. unfold base_type. cbn. unfold tuple_type. rewrite Hl. cbn [mbind outcome_bind].
      rewrite H1, H2, H3, H4, Hv. reflexivity.
Qed.

End RoundTrip.

(** ** Names that are made unique *)

Definition numbered (raw name : string) : Prop := name = raw \/ exists k, 0 <= k /\ name = raw +:+ decimal k.

Lemma overload_spec raw taken fuel : forall idx name, 0 <= idx -> numbered raw name ->
  numbered raw (overload fuel raw taken idx name) /\
  (taken (overload fuel raw taken idx name) = false \/
   taken name = true /\ forall k, idx <= k < idx + Z.of_nat fuel -> taken (raw +:+ decimal k) = true).
Proof.
  induction fuel as [|fuel IH]; intros idx name Hi Hn; cbn [overload]; destruct (taken name) eqn:Ht; try (by split; [|left]).
  - split; [done|]. right. split; [done|]. lia.
  - destruct (IH (idx + 1) (raw +:+ decimal idx)) as [Hnum [Hfree|[Hc Hk]]]; [lia|by right; exists idx|by split; [|left]|].
    split; [done|]. right. split; [done|]. intros k Hki. destruct (decide (k = idx)) as [->|]; [done|]. apply Hk. lia.
Qed.

#[local] Instance append_inj s : Inj (=) (=) (String.append s).
Proof. intros x y. induction s as [|c s IH]; [done|]. rewrite !string_cons_app. intros [= Hxy]. by apply IH. Qed.

Lemma append_longer s t : t <> "" -> s <> s +:+ t.
Proof. intros Ht He. rewrite <- (string_app_nil s) in He at 1. by apply (inj (String.append s)) in He. Qed.

(** One of the candidates is free when there are more of them than names. *)
Lemma overload_free raw taken (T : list string) : (forall s, taken s = true -> s ∈ T) ->
  numbered raw (overload (length T) raw taken 0 raw) /\ taken (overload (length T) raw taken 0 raw) = false.
Proof.
  intros HT. destruct (overload_spec raw taken (length T) 0 raw) as [Hn [Hf|[Hr Hk]]]; [done|by left|done|].
  exfalso. set (cands := raw :: ((fun k => raw +:+ decimal k) <$> seqZ 0 (Z.of_nat (length T)))).
  assert (Hsub : cands ⊆+ T).
  { apply NoDup_submseteq.
    - apply NoDup_cons. split.
      + intros (k & Hk' & _)%list_elem_of_fmap. by apply append_longer in Hk'; [|apply decimal_nonempty].
      + apply NoDup_fmap; [|apply NoDup_seqZ]. intros x y Hxy. by apply (inj (String.append raw)), (inj decimal) in Hxy.
    - intros x [->|(k & -> & Hin)%list_elem_of_fmap]%elem_of_cons; apply HT; [done|]. apply elem_of_seqZ in Hin. apply Hk. lia. }
  apply submseteq_length in Hsub. unfold cands in Hsub. cbn in Hsub. rewrite length_fmap, length_seqZ in Hsub. lia.
Qed.

Lemma overloadedName_free {A} raw (m : gmap string A) :
  numbered raw (overloadedName raw m) /\ m !! overloadedName raw m = None.
Proof.
  unfold overloadedName. destruct (overload_free raw (fun s => bool_decide (is_Some (m !! s))) ((map_to_list m).*1)) as [Hn Hf].
  { intros s [x Hx]%bool_decide_eq_true. apply list_elem_of_fmap. exists (s, x). split; [done|]. by apply elem_of_map_to_list. }
  rewrite length_fmap, length_map_to_list in *. split; [done|].
  apply bool_decide_eq_false in Hf. by apply eq_None_not_Some.
Qed.

(** ** Interfaces *)

Section Interfaces.
Context `{FieldNames} (Keccak256 : list Z -> list Z).

Definition functions (fields : list Field) : list Field := List.filter (fun f => String.eqb (FType f) "function") fields.
Definition events (fields : list Field) : list Field := List.filter (fun f => String.eqb (FType f) "event") fields.

(** A method and an event of an interface, under its name, for a field. *)
Definition method_of (f : Field) (p : string * PMethod) : Prop :=
  exists inputs outputs, decode_field f = Ok (f, inputs, outputs) /\ numbered (FName f) p.1 /\
    p.2 = NewMethod Keccak256 p.1 (FName f) Function (FMutability f) (FConstant f) (FPayable f) inputs outputs.

Definition event_of (f : Field) (p : string * PEvent) : Prop :=
  exists inputs outputs, decode_field f = Ok (f, inputs, outputs) /\ numbered (FName f) p.1 /\
    p.2 = NewEvent Keccak256 p.1 (FName f) (FAnonymous f) inputs.

(** Every field has its own entry in the map, and there is no other. *)
Definition kept {A} (R : Field -> string * A -> Prop) (fields : list Field) (m : gmap string A) : Prop :=
  exists l, Forall2 R fields l /\ NoDup l.*1 /\ m = list_to_map l.

Lemma kept_snoc {A} (R : Field -> string * A -> Prop) fields m f name x :
  kept R fields m -> m !! name = None -> R f (name, x) -> kept R (fields ++ [f]) (<[name := x]> m).
Proof.
  intros (l & HR & Hnd & ->) Hname Hx. apply not_elem_of_list_to_map in Hname. exists (l ++ [(name, x)]). split_and!.
  - by apply Forall2_app; [|repeat constructor].
  - rewrite fmap_app. apply NoDup_app. split_and!; [done|set_solver|apply NoDup_singleton].
  - symmetry. by apply list_to_map_snoc.
Qed.

Lemma add_field_kept abi f inputs outputs abi' done_ :
  decode_field f = Ok (f, inputs, outputs) -> add_field Keccak256 abi f inputs outputs = Ok abi' ->
  kept method_of (functions done_) (ABI_Methods abi) -> kept event_of (events done_) (ABI_Events abi) ->
  kept method_of (functions (done_ ++ [f])) (ABI_Methods abi') /\ kept event_of (events (done_ ++ [f])) (ABI_Events abi').
Proof.
  intros Hd Ha Hm He. destruct abi as [c ms es er fb rc]. unfold functions, events in *. rewrite !List.filter_app.
  unfold add_field in Ha. cbn [List.filter ABI_Methods ABI_Events] in *.
  destruct (String.eqb_spec (FType f) "function") as [Hf|_].
  { rewrite Hf in Ha |- *. cbn in Ha. injection Ha as <-. cbn [ABI_Methods ABI_Events]. rewrite app_nil_r. split; [|done].
    destruct (overloadedName_free (FName f) ms). apply kept_snoc; [done|done|]. exists inputs, outputs. done. }
  destruct (String.eqb_spec (FType f) "event") as [Hf|_].
  { rewrite Hf in Ha. cbn in Ha. injection Ha as <-. cbn [ABI_Methods ABI_Events]. rewrite app_nil_r. split; [done|].
    destruct (overloadedName_free (FName f) es). apply kept_snoc; [done|done|]. exists inputs, outputs. done. }
  rewrite !app_nil_r. repeat case_match; try done; injection Ha as <-; done.
Qed.

Lemma add_fields_kept l : forall abi abi' done_,
  Forall (fun x => decode_field x.1.1 = Ok x) l -> add_fields Keccak256 abi l = Ok abi' ->
  kept method_of (functions done_) (ABI_Methods abi) -> kept event_of (events done_) (ABI_Events abi) ->
  let fields := done_ ++ ((fun x => x.1.1) <$> l) in
  kept method_of (functions fields) (ABI_Methods abi') /\ kept event_of (events fields) (ABI_Events abi').
Proof.
  induction l as [|[[f inputs] outputs] l IH]; intros abi abi' done_ Hl Ha Hm He; cbn [add_fields] in Ha.
  - injection Ha as <-. cbn. by rewrite app_nil_r.
  - apply Forall_cons in Hl as [Hf Hl]. destruct (add_field Keccak256 abi f inputs outputs) as [abi1| |] eqn:E; try done.
    cbn [mbind outcome_bind] in Ha. destruct (add_field_kept _ _ _ _ _ done_ Hf E Hm He) as [Hm1 He1].
    destruct (IH abi1 abi' (done_ ++ [f])) as [Hm2 He2]; [done..|]. cbn. by rewrite <- app_assoc in Hm2, He2.
Qed.

Lemma map_outcome_decoded fields : forall l, map_outcome decode_field fields = Ok l ->
  (fun x => x.1.1) <$> l = fields /\ Forall (fun x => decode_field x.1.1 = Ok x) l.
Proof.
  induction fields as [|f fields IH]; intros l Hl; cbn [map_outcome] in Hl; [by injection Hl as <-|].
  destruct (decode_field f) as [x| |] eqn:Hf; try done. cbn [mbind outcome_bind] in Hl.
  destruct (map_outcome decode_field fields) as [l'| |]; try done. cbn [mbind outcome_bind] in Hl. injection Hl as <-.
  destruct (IH l' eq_refl) as [<- Hall]. assert (Hx : x.1.1 = f).
  { unfold decode_field in Hf. destruct (map_outcome _ (FInputs f)); try done. cbn [mbind outcome_bind] in Hf.
    destruct (map_outcome _ (FOutputs f)); try done. by injection Hf as <-. }
  split; [cbn; by rewrite Hx|]. constructor; [by rewrite Hx|done].
Qed.

End Interfaces.

(** ** Selectors *)

Section SelType_induction.
Variable P : SelType -> Prop.
Hypothesis HElem : forall s, P (SElem s).
Hypothesis HTuple : forall l, Forall P l -> P (STuple l).

Fixpoint SelType_nested_ind (t : SelType) : P t :=
  match t with
  | SElem s => HElem s
  | STuple l => HTuple l
      ((fix go l : Forall P l :=
          match l with
          | [] => Forall_nil_2 P
          | t :: l => Forall_cons_2 P t l (SelType_nested_ind t) (go l)
          end) l)
  end.
End SelType_induction.

Fixpoint sel_text (t : SelType) : string :=
  match t with
  | SElem s => s
  | STuple l => "(" +:+ String.concat "," (List.map sel_text l) +:+ ")"
  end.

(** Types that the grammar of selectors has: elementary types with brackets, and
    tuples that are not empty, without brackets. *)
Fixpoint in_grammar (t : SelType) : bool :=
  match t with
  | SElem s => match parseElementaryType s with Ok (a, b) => String.eqb a s && String.eqb b "" | _ => false end
  | STuple l => forallb in_grammar l && negb (bool_decide (l = []))
  end.

Lemma string_length_app s1 s2 : String.length (s1 +:+ s2) = (String.length s1 + String.length s2)%nat.
Proof. induction s1 as [|c s1 IH]; [done|]. rewrite string_cons_app. cbn. by rewrite IH. Qed.

(** Texts that may follow a type: the end, a comma or a closing bracket. *)
Definition follows (r : string) : bool :=
  match r with "" => true | String c _ => Ascii.eqb c "," || Ascii.eqb c ")" end.

Lemma span_split f s : s = (span f s).1 +:+ (span f s).2.
Proof.
  induction s as [|c s IH]; [done|]. cbn. destruct (f c); [|done]. destruct (span f s) as [a b]. cbn in *.
  rewrite string_cons_app. by f_equal.
Qed.

Lemma span_follows f s r : (forall c, f c = true -> Ascii.eqb c "," || Ascii.eqb c ")" = false) -> follows r = true ->
  span f (s +:+ r) = ((span f s).1, (span f s).2 +:+ r).
Proof.
  intros Hf Hr. induction s as [|c s IH].
  - destruct r as [|c r]; [done|]. cbn [follows] in Hr. rewrite string_nil_app. cbn [span]. destruct (f c) eqn:E; [|done].
    apply Hf in E. congruence.
  - rewrite string_cons_app. cbn [span]. destruct (f c); [|done]. rewrite IH. by destruct (span f s).
Qed.

Lemma array_suffix_follows s r : follows r = true -> forall inside p q,
  array_suffix inside s = Ok (p, q) -> array_suffix inside (s +:+ r) = Ok (p, q +:+ r).
Proof.
  intros Hr. induction s as [|c s IH]; intros inside p q Hs.
  - destruct inside; [done|]. injection Hs as <- <-. rewrite !string_nil_app. destruct r as [|c r]; [done|]. cbn in *.
    destruct (Ascii.eqb_spec c "["); [|done]. by subst.
  - rewrite string_cons_app. cbn [array_suffix] in *. destruct inside.
    + destruct (isDigit c); [|destruct (Ascii.eqb c "]"); [|done]];
      (destruct (array_suffix _ s) as [[p' q']| |] eqn:E; try done; cbn [mbind outcome_bind] in Hs; injection Hs as <- <-;
       by rewrite (IH _ _ _ E)).
    + destruct (Ascii.eqb c "["); [|by injection Hs as <- <-].
      destruct (array_suffix _ s) as [[p' q']| |] eqn:E; try done. cbn [mbind outcome_bind] in Hs. injection Hs as <- <-.
      by rewrite (IH _ _ _ E).
Qed.

Lemma elementary_follows s r : in_grammar (SElem s) = true -> follows r = true ->
  parseElementaryType (s +:+ r) = Ok (s, r).
Proof.
  cbn [in_grammar]. unfold parseElementaryType. intros Hs Hr. destruct s as [|c s]; [done|]. rewrite string_cons_app.
  cbn [parseToken] in *. destruct (negb _); [done|]. rewrite span_follows.
  2:{ intros a Ha. destruct a as [[] [] [] [] [] [] [] []]; vm_compute in Ha |- *; congruence. }
  2:{ done. }
  destruct (span _ s) as [a b]. cbn [mbind outcome_bind fst snd] in *.
  destruct (array_suffix false b) as [[p q]| |] eqn:E; try done. cbn [mbind outcome_bind] in Hs.
  apply andb_true_iff in Hs as [Ha%String.eqb_eq ->%String.eqb_eq]. rewrite (array_suffix_follows _ r Hr _ _ _ E).
  cbn [mbind outcome_bind]. by rewrite Ha.
Qed.

Lemma grammar_start s r : in_grammar (SElem s) = true -> exists c s', s +:+ r = String c s' /\ Ascii.eqb c "(" = false.
Proof.
  cbn [in_grammar]. unfold parseElementaryType. destruct s as [|c s]; [done|]. cbn [parseToken]. intros Hs.
  exists c, (s +:+ r). split; [done|]. destruct (Ascii.eqb_spec c "("); [by subst|done].
Qed.

(** Texts of the grammar are parsed, up to what follows. *)
Definition parses (t : SelType) : Prop := in_grammar t = true -> forall fuel r, follows r = true ->
  (String.length (sel_text t) < fuel)%nat -> parseType fuel (sel_text t +:+ r) = Ok (t, r).

Lemma parse_list_text l : Forall parses l -> forallb in_grammar l = true -> l <> [] -> forall depth fuel r,
  (String.length (String.concat "," (List.map sel_text l)) < fuel)%nat ->
  (String.length (String.concat "," (List.map sel_text l)) < depth)%nat ->
  parse_list (parseType depth) fuel (String.concat "," (List.map sel_text l) +:+ String ")" r) = Ok (l, r).
Proof.
  induction 1 as [|t l Ht Hl IH]; [done|]. cbn [forallb]. intros [Hg Hgs]%andb_true_iff _ depth fuel r Hf Hd.
  destruct fuel as [|fuel]; [lia|]. destruct l as [|t' l].
  - cbn [List.map String.concat] in *. cbn [parse_list]. rewrite (Ht Hg depth (String ")" r) eq_refl) by lia. done.
  - change (String.concat "," (List.map sel_text (t :: t' :: l)))
      with (sel_text t +:+ "," +:+ String.concat "," (List.map sel_text (t' :: l))) in *.
    set (rest := String.concat "," (List.map sel_text (t' :: l))) in *. rewrite !string_length_app in Hf, Hd. clearbody rest. cbn in Hf, Hd.
    rewrite !string_app_assoc. change ("," +:+ rest +:+ String ")" r) with (String "," (rest +:+ String ")" r)).
    cbn [parse_list]. rewrite (Ht Hg) by (done || lia). cbn [mbind outcome_bind]. change (Ascii.eqb "," ")") with false. cbv iota.
    rewrite IH by (done || lia). done.
Qed.

Lemma parse_text t : parses t.
Proof.
  induction t as [s|l IH] using SelType_nested_ind; intros Hg fuel r Hr Hf; destruct fuel as [|fuel]; try lia.
  - cbn [sel_text]. destruct (grammar_start s r Hg) as (c & s' & Hc & Hp). cbn [parseType]. rewrite Hc, Hp, <- Hc.
    by rewrite elementary_follows.
  - cbn [in_grammar] in Hg. apply andb_true_iff in Hg as [Hl Hne]. apply negb_true_iff, bool_decide_eq_false in Hne.
    cbn [sel_text] in *. set (text := String.concat "," (List.map sel_text l)) in *.
    change (("(" +:+ text +:+ ")") +:+ r) with (String "(" ((text +:+ ")") +:+ r)). rewrite string_app_assoc.
    change (")" +:+ r) with (String ")" r). cbn [parseType]. change (Ascii.eqb "(" "(") with true. cbv iota.
    rewrite !string_length_app in Hf. assert (Hlen : (String.length text < fuel)%nat) by (clearbody text; cbn in Hf; lia).
    unfold text in *. by rewrite parse_list_text.
Qed.

(** ** Signatures of methods as selectors *)

(** Types without tuples, and the types that selectors can name: tuples are not
    empty and not under brackets. *)
Fixpoint flat (t : AType) : bool :=
  match t with
  | IntTy n | UintTy n => (0 <=? n) && (n <? 2 ^ 63)
  | FixedBytesTy n => (0 <? n) && (n <? 2 ^ 63)
  | SliceTy e => flat e
  | ArrayTy e n => flat e && (0 <=? n) && (n <? 2 ^ 63)
  | TupleTy _ _ _ | HashTy | FixedPointTy => false
  | _ => true
  end.

Fixpoint selectable (t : AType) : bool :=
  match t with
  | TupleTy es _ _ => forallb selectable es && negb (bool_decide (length es = 0%nat))
  | _ => flat t
  end.

Fixpoint sel_of (t : AType) : SelType :=
  match t with
  | TupleTy es _ _ => STuple (List.map sel_of es)
  | _ => SElem (type_text t)
  end.

(** The type with the names that a selector gives the fields of tuples. *)
Definition dummy_name (i : nat) : string := "name" +:+ decimal (Z.of_nat i).
Definition dummy_field (i : nat) : string := "Name" +:+ decimal (Z.of_nat i).

Fixpoint dummy (t : AType) : AType :=
  match t with
  | TupleTy es _ _ =>
      TupleTy (List.map dummy es) (dummy_name <$> seq 0 (length es)) (dummy_field <$> seq 0 (length es))
  | _ => t
  end.

Lemma array_suffix_app s : forall inside p x, array_suffix inside s = Ok (p, "") -> array_suffix false x = Ok (x, "") ->
  array_suffix inside (s +:+ x) = Ok (p +:+ x, "").
Proof.
  induction s as [|c s IH]; intros inside p x Hs Hx.
  - destruct inside; [done|]. by injection Hs as <-.
  - rewrite string_cons_app. cbn [array_suffix] in *. destruct inside.
    + destruct (isDigit c); [|destruct (Ascii.eqb c "]"); [|done]];
      (destruct (array_suffix _ s) as [[p' q']| |] eqn:E; try done; cbn [mbind outcome_bind] in Hs; injection Hs as <- ->;
       by rewrite (IH _ _ _ E Hx)).
    + destruct (Ascii.eqb c "["); [|done].
      destruct (array_suffix _ s) as [[p' q']| |] eqn:E; try done. cbn [mbind outcome_bind] in Hs. injection Hs as <- ->.
      by rewrite (IH _ _ _ E Hx).
Qed.

Lemma array_suffix_digits d : all_chars isDigit d = true -> array_suffix true (d +:+ "]") = Ok (d +:+ "]", "").
Proof.
  induction d as [|c d IH]; [done|]. cbn [all_chars]. intros [Hc Hd]%andb_true_iff. rewrite string_cons_app.
  cbn [array_suffix]. by rewrite Hc, IH.
Qed.

Lemma array_suffix_open x p q : array_suffix true x = Ok (p, q) -> array_suffix false (String "[" x) = Ok (String "[" p, q).
Proof. intros Hx. cbn [array_suffix]. change (Ascii.eqb "[" "[") with true. cbv iota. by rewrite Hx. Qed.

Definition token_char (c : ascii) : bool := isAlpha c || isDigit c || false && isIdentifierSymbol c.

(** An elementary type is a token followed by brackets. *)
Lemma flat_token t : flat t = true -> exists c a b, type_text t = String c a +:+ b /\ isAlpha c = true /\
  all_chars token_char a = true /\ array_suffix false b = Ok (b, "").
Proof.
  assert (Hd : forall n, 0 <= n -> all_chars token_char (decimal n) = true).
  { intros n Hn. eapply all_chars_impl; [|by apply decimal_digits]. intros c Hc. change (is_digit c) with (isDigit c) in Hc. unfold token_char. by rewrite Hc, orb_true_r. }
  induction t using AType_nested_ind; cbn [flat type_text]; intros Hf; try done.
  1: exists "i"%char, ("nt" +:+ decimal n), "". 2: exists "u"%char, ("int" +:+ decimal n), "".
  3: exists "b"%char, "ool", "". 4: exists "s"%char, "tring", "". 7: exists "a"%char, "ddress", "".
  8: exists "b"%char, ("ytes" +:+ decimal n), "". 9: exists "b"%char, "ytes", "". 10: exists "f"%char, "unction", "".
  1,2,8: bool_to_prop; rewrite string_app_nil; split_and!; [done|done| |done]; rewrite all_chars_app; apply Hd; lia.
  1-2,5-7: done.
  - destruct (IHt Hf) as (c & a & b & -> & Hc & Ha & Hb). exists c, a, (b +:+ "[]"). rewrite string_app_assoc.
    split_and!; [done..|]. by apply array_suffix_app.
  - apply andb_true_iff in Hf as [[Hf Hn%Z.leb_le]%andb_true_iff _]. destruct (IHt Hf) as (c & a & b & -> & Hc & Ha & Hb).
    exists c, a, (b +:+ "[" +:+ decimal n +:+ "]"). rewrite string_app_assoc. split_and!; [done..|].
    apply array_suffix_app; [done|]. by apply (array_suffix_open (decimal n +:+ "]")), array_suffix_digits, decimal_digits.
Qed.

Lemma flat_grammar t : flat t = true -> in_grammar (SElem (type_text t)) = true.
Proof.
  intros Hf. destruct (flat_token t Hf) as (c & a & b & -> & Hc & Ha & Hb). cbn [in_grammar]. unfold parseElementaryType.
  rewrite string_cons_app. cbn [parseToken]. rewrite Hc. cbn [negb orb]. fold token_char. rewrite span_app by done.
  assert (Hs : span token_char b = ("", b)).
  { destruct b as [|d b]; [done|]. cbn [array_suffix] in Hb. destruct (Ascii.eqb_spec d "["); [by subst|]. by injection Hb. }
  rewrite Hs. cbn [mbind outcome_bind fst snd]. rewrite Hb. cbn [mbind outcome_bind].
  by rewrite string_app_nil, string_cons_app, !String.eqb_refl.
Qed.

Lemma flat_kind t : flat t = true -> kind_text t = type_text t.
Proof.
  induction t using AType_nested_ind; cbn [flat kind_text type_text]; intros Hf; try done.
  - by rewrite IHt.
  - apply andb_true_iff in Hf as [[Hf _]%andb_true_iff _]. by rewrite IHt.
Qed.

Lemma sel_of_ok t : selectable t = true -> in_grammar (sel_of t) = true /\ sel_text (sel_of t) = kind_text t.
Proof.
  induction t using AType_nested_ind; intros Hs; cbn [selectable] in Hs;
    try (by split; [apply flat_grammar|symmetry; apply flat_kind]).
  apply andb_true_iff in Hs as [Hs Hne]. cbn [sel_of sel_text in_grammar kind_text].
  assert (Hall : Forall (fun e => in_grammar (sel_of e) = true /\ sel_text (sel_of e) = kind_text e) es).
  { rewrite Forall_forall in H |- *. intros e He. apply H; [done|]. rewrite forallb_forall in Hs. apply Hs. by apply list_elem_of_In. }
  split.
  - apply andb_true_iff. split; [|by destruct es]. apply forallb_forall. intros x (e & <- & He)%in_map_iff.
    rewrite Forall_forall in Hall. apply (Hall e). by apply list_elem_of_In.
  - do 3 f_equal. rewrite map_map. apply map_ext_in. intros e He. rewrite Forall_forall in Hall.
    apply (Hall e). by apply list_elem_of_In.
Qed.

Lemma dummy_kind t : selectable t = true -> kind_text (dummy t) = kind_text t.
Proof.
  induction t using AType_nested_ind; intros Hs; try done. cbn [dummy kind_text selectable] in *.
  apply andb_true_iff in Hs as [Hs _]. do 3 f_equal. rewrite map_map. apply map_ext_in. intros e He.
  rewrite Forall_forall in H. apply H; [by apply list_elem_of_In|]. rewrite forallb_forall in Hs. by apply Hs.
Qed.

(** The names of selectors need no numbers and are exported. *)
Lemma dummy_camel i : ToCamelCase (dummy_name i) = dummy_field i.
Proof.
  unfold ToCamelCase, dummy_name. rewrite Split_lacks.
  - cbn. by rewrite string_app_nil.
  - unfold lacks. rewrite all_chars_app. apply (decimal_lacks _ "_"). done.
Qed.

#[local] Instance dummy_field_inj : Inj (=) (=) dummy_field.
Proof. intros i j Hij. unfold dummy_field in Hij. apply (inj (String.append "Name")), (inj decimal) in Hij. lia. Qed.

Lemma dummy_argName i names : Forall (fun x => exists j, (j < i)%nat /\ x = dummy_field j) names ->
  overloadedArgName (dummy_name i) names = Ok (dummy_field i).
Proof.
  intros Hn. unfold overloadedArgName. rewrite dummy_camel. rewrite (proj2 (String.eqb_neq _ _)) by done. f_equal.
  assert (bool_decide (dummy_field i ∈ names) = false) as Hfree.
  { apply bool_decide_eq_false. intros Hin. rewrite Forall_forall in Hn. apply Hn in Hin as (j & Hj & He%(inj dummy_field)). lia. }
  destruct (length names); cbn [overload]; by rewrite Hfree.
Qed.

Lemma dummy_field_names n : forall i names, Forall (fun x => exists j, (j < i)%nat /\ x = dummy_field j) names ->
  field_names (dummy_name <$> seq i n) names = Ok (dummy_field <$> seq i n).
Proof.
  induction n as [|n IH]; intros i names Hn; [done|]. cbn [seq fmap list_fmap field_names].
  rewrite dummy_argName by done. cbn [mbind outcome_bind]. rewrite IH; [done|].
  constructor; [exists i; split; [lia|done]|]. eapply Forall_impl; [exact Hn|]. intros x (j & ? & ->). exists j. split; [lia|done].
Qed.

Lemma dummy_valid `{FieldNames} i : isValidFieldName (dummy_field i) = true.
Proof.
  unfold isValidFieldName, dummy_field. rewrite all_chars_app, decimal_ascii. cbn -[decimal String.append].
  change ("Name" +:+ decimal (Z.of_nat i)) with (String "N" ("ame" +:+ decimal (Z.of_nat i))).
  cbn -[String.append decimal all_chars]. rewrite all_chars_app. apply andb_true_iff. split; [done|].
  eapply all_chars_impl; [|apply decimal_digits; lia]. intros c Hc. change (is_digit c) with (isDigit c) in Hc. by rewrite Hc, orb_true_r.
Qed.

Lemma flat_nameable `{FieldNames} t : flat t = true -> nameable t = true.
Proof.
  induction t using AType_nested_ind; cbn [flat nameable]; intros Hf; try done.
  - by apply IHt.
  - apply andb_true_iff in Hf as [[Hf Hn]%andb_true_iff Hn']. by rewrite IHt, Hn, Hn'.
Qed.

Lemma dummy_nameable `{FieldNames} t : selectable t = true -> nameable (dummy t) = true.
Proof.
  induction t using AType_nested_ind; intros Hs; try (by apply flat_nameable). cbn [dummy nameable selectable] in *.
  apply andb_true_iff in Hs as [Hs _]. rewrite dummy_field_names by constructor.
  rewrite bool_decide_true by done. rewrite length_fmap, length_map, length_seq, Nat.eqb_refl, !andb_true_r. apply andb_true_iff. split.
  - apply forallb_forall. intros x (e & <- & He)%in_map_iff. rewrite Forall_forall in H0. apply H0; [by apply list_elem_of_In|].
    rewrite forallb_forall in Hs. by apply Hs.
  - apply forallb_forall. intros x Hx. apply list_elem_of_In, list_elem_of_fmap in Hx as (j & -> & _). apply dummy_valid.
Qed.

Lemma flat_components internal t : flat t = true -> [] = type_components internal t.
Proof.
  induction t using AType_nested_ind; cbn [flat type_components]; intros Hf; try done.
  - by apply IHt.
  - apply andb_true_iff in Hf as [[Hf _]%andb_true_iff _]. by apply IHt.
Qed.

(** The arguments of a selector are those of the types with dummy names. *)
Lemma assembleArg_dummy t : selectable t = true -> forall i,
  assembleArg i (sel_of t) = mkArgM (dummy_name i) (type_text (dummy t)) (type_text (dummy t)) (type_components type_text (dummy t)) false.
Proof.
  induction t using AType_nested_ind; intros Hs i; cbn [selectable] in Hs; try done.
  all: try (cbn [sel_of assembleArg dummy]; fold (dummy_name i); f_equal; by apply flat_components).
  cbn [sel_of assembleArg dummy type_components type_text]. fold (dummy_name i). f_equal.
  apply andb_true_iff in Hs as [Hs _]. generalize 0%nat. induction H as [|e es He Hes IH]; intros k; [done|].
  cbn [List.map length seq fmap list_fmap zip_with forallb] in *. apply andb_true_iff in Hs as [Hse Hs].
  rewrite He by done. f_equal. by apply IH.
Qed.

(** ** Totality of the selector parser *)

Definition halts {A} (o : outcome (A * string)) (bound : nat) : Prop :=
  match o with
  | Ok (_, rest) => (String.length rest < bound)%nat
  | Err e => e <> "out of fuel"
  | Panic _ => False
  end.

Lemma array_suffix_halts s : forall inside, halts (array_suffix inside s) (S (String.length s)).
Proof.
  induction s as [|c s IH]; intros inside; [by destruct inside; cbn; [|lia]|]. cbn [array_suffix]. destruct inside.
  - destruct (isDigit c); [|destruct (Ascii.eqb c "]"); [|done]].
    + specialize (IH true). destruct (array_suffix true s) as [[p q]| |]; try done. cbn in *. lia.
    + specialize (IH false). destruct (array_suffix false s) as [[p q]| |]; try done. cbn in *. lia.
  - destruct (Ascii.eqb c "["); [|cbn; lia].
    specialize (IH true). destruct (array_suffix true s) as [[p q]| |]; try done. cbn in *. lia.
Qed.

Lemma span_shorter f s : (String.length (span f s).2 <= String.length s)%nat.
Proof. rewrite (span_split f s) at 2. rewrite string_length_app. lia. Qed.

Lemma parseToken_halts s i : halts (parseToken s i) (String.length s).
Proof.
  destruct s as [|c s]; [done|]. cbn [parseToken]. destruct (negb _); [done|].
  match goal with |- context [span ?f s] => pose proof (span_shorter f s); destruct (span f s) end. cbn in *. lia.
Qed.

Lemma elementary_halts s : halts (parseElementaryType s) (String.length s).
Proof.
  unfold parseElementaryType. pose proof (parseToken_halts s false) as Ht. destruct (parseToken s false) as [[a b]| |]; try done.
  cbn [mbind outcome_bind]. pose proof (array_suffix_halts b false) as Hb. destruct (array_suffix false b) as [[p q]| |]; try done.
  cbn in *. lia.
Qed.

Lemma parse_list_halts parse bound : (forall s, (String.length s < bound)%nat -> halts (parse s) (String.length s)) ->
  forall fuel s, (String.length s < fuel)%nat -> (String.length s < bound)%nat -> halts (parse_list parse fuel s) (String.length s).
Proof.
  intros Hp. induction fuel as [|fuel IH]; intros s Hf Hb; [lia|]. cbn [parse_list]. specialize (Hp s Hb).
  destruct (parse s) as [[t rest]| |]; try done. cbn [mbind outcome_bind halts] in *. destruct rest as [|c r]; [done|].
  cbn [String.length] in Hp. destruct (Ascii.eqb c ")"); [cbn; lia|]. specialize (IH r ltac:(lia) ltac:(lia)).
  destruct (parse_list parse fuel r) as [[l rest]| |]; try done. cbn in *. lia.
Qed.

Lemma parse_halts fuel : forall s, (String.length s < fuel)%nat -> halts (parseType fuel s) (String.length s).
Proof.
  induction fuel as [|fuel IH]; intros s Hf; [lia|]. cbn [parseType]. destruct s as [|c r]; [done|]. cbn [String.length] in *.
  destruct (Ascii.eqb c "(").
  - pose proof (parse_list_halts (parseType fuel) fuel IH fuel r ltac:(lia) ltac:(lia)) as Hl.
    destruct (parse_list _ fuel r) as [[l rest]| |]; try done. cbn in *. lia.
  - pose proof (elementary_halts (String c r)) as He. destruct (parseElementaryType (String c r)) as [[e rest]| |]; try done.
Qed.

Lemma arguments_halt c r :
  halts (if String.prefix "()" (String c r) then r' ← string_from (String c r) 2; Ok ([], r') else parseCompositeType (String c r))
    (S (String.length (String c r))).
Proof.
  destruct (String.prefix "()" (String c r)) eqn:Hp.
  - destruct r as [|d r]; [|destruct r; cbn; lia]. cbn [String.prefix] in Hp. by destruct (ascii_dec "(" c).
  - cbn [parseCompositeType]. destruct (Ascii.eqb c "("); [|done]. cbn [String.length].
    pose proof (parse_list_halts _ (S (String.length r)) (parse_halts (S (String.length r))) (S (String.length r)) r ltac:(lia) ltac:(lia)) as Hl.
    unfold halts in *. destruct (parse_list _ _ r) as [[l rest]| |]; [lia|done|done].
Qed.

Lemma grammar_not_close t : in_grammar t = true -> exists c s, sel_text t = String c s /\ Ascii.eqb c ")" = false.
Proof.
  destruct t as [s|l]; cbn [in_grammar sel_text]; intros Hg.
  - unfold parseElementaryType in Hg. destruct s as [|c s]; [done|]. exists c, s. split; [done|].
    cbn [parseToken] in Hg. destruct (Ascii.eqb_spec c ")"); [by subst|done].
  - by eexists "("%char, _.
Qed.

Lemma span_full f s : (span f s).2 = "" -> all_chars f s = true /\ (span f s).1 = s.
Proof.
  induction s as [|c s IH]; [done|]. cbn [span]. destruct (f c) eqn:Hc; [|done]. destruct (span f s) as [a b]. cbn in *.
  intros Hb. rewrite Hc. destruct (IH Hb) as [-> ->]. done.
Qed.

Lemma identifier_then name r : parseIdentifier name = Ok (name, "") ->
  parseIdentifier (name +:+ String "(" r) = Ok (name, String "(" r).
Proof.
  unfold parseIdentifier. destruct name as [|c s]; [done|]. rewrite string_cons_app. cbn [parseToken]. destruct (negb _); [done|].
  match goal with |- context [span ?f s] => set (g := f) end. intros Hs. pose proof (span_full g s) as Hf.
  destruct (span g s) as [a b] eqn:E. injection Hs as -> ->. destruct (Hf eq_refl) as [Ha _]. by rewrite span_app, string_app_nil.
Qed.

Lemma arg_text `{FieldNames} internal n t i ix : nameable t = true ->
  exists r, Argument_UnmarshalJSON (mkArgM n (type_text t) i (type_components internal t) ix) =
    Ok (mkPArg n (mkParsed t (kind_text t) r) ix).
Proof.
  intros Hn. destruct (newType_text internal t Hn i) as [r Hr]. exists r. unfold Argument_UnmarshalJSON.
  change (arg_type (mkArgM n (type_text t) i (type_components internal t) ix))
    with (newType (Count "[" (type_text t)) (type_text t) i (parts_of (type_components internal t))). by rewrite Hr.
Qed.

Lemma identifier_split s : match parseIdentifier s with Ok (a, b) => s = a +:+ b | _ => True end.
Proof.
  unfold parseIdentifier. destruct s as [|c s]; [done|]. cbn [parseToken]. destruct (negb _); [done|].
  match goal with |- context [span ?f s] => pose proof (span_split f s) as Hs; destruct (span f s) as [a b] end.
  rewrite string_cons_app. by f_equal.
Qed.

(** The arguments of a selector as they are read from its types. *)
Lemma args_dummy `{FieldNames} ts : forallb selectable ts = true -> forall g, (forall i t, exists j, g i t = assembleArg j t) ->
  exists args, map_outcome Argument_UnmarshalJSON (imap g (List.map sel_of ts)) = Ok args /\
    (fun a => PT (PType a)) <$> args = dummy <$> ts /\ arg_kind <$> args = kind_text <$> ts.
Proof.
  induction ts as [|t ts IH]; cbn [forallb]; intros Hs g Hg; [by exists []|]. apply andb_true_iff in Hs as [Ht Hs].
  destruct (IH Hs (g ∘ S)) as (args & Ha & Hp & Hk); [intros i x; apply Hg|]. destruct (Hg O (sel_of t)) as [j Hj].
  destruct (arg_text type_text (dummy_name j) (dummy t) (type_text (dummy t)) false (dummy_nameable t Ht)) as [r Hr].
  exists (mkPArg (dummy_name j) (mkParsed (dummy t) (kind_text (dummy t)) r) false :: args).
  cbn [List.map imap map_outcome]. rewrite Hj, assembleArg_dummy by done. rewrite Hr. cbn [mbind outcome_bind]. rewrite Ha. cbn [mbind outcome_bind].
  split; [done|]. rewrite !fmap_cons, Hp, Hk. cbn [arg_kind PType stringKind PT]. by rewrite dummy_kind.
Qed.

(** The list of arguments of a selector. *)
Lemma selector_args ts : forallb selectable ts = true ->
  let r := String.concat "," (kind_text <$> ts) +:+ ")" in
  (if String.prefix "()" (String "(" r) then r' ← string_from (String "(" r) 2; Ok ([], r') else parseCompositeType (String "(" r)) =
  Ok (List.map sel_of ts, "").
Proof.
  intros Hs. assert (Htext : kind_text <$> ts = List.map sel_text (List.map sel_of ts)).
  { rewrite map_map. apply map_ext_in. intros t Ht. symmetry. apply sel_of_ok. rewrite forallb_forall in Hs. by apply Hs. }
  assert (Hg : forallb in_grammar (List.map sel_of ts) = true).
  { apply forallb_forall. intros x (t & <- & Ht)%in_map_iff. apply sel_of_ok. rewrite forallb_forall in Hs. by apply Hs. }
  rewrite Htext. destruct (List.map sel_of ts) as [|x l] eqn:E; [by destruct ts|]. cbn [forallb] in Hg.
  pose proof Hg as Hg'. apply andb_true_iff in Hg' as [Hx _]. destruct (grammar_not_close x Hx) as (c & s & Hc & Hn).
  intros r. assert (Hr : exists r', r = String c r').
  { unfold r. cbn [List.map String.concat]. rewrite Hc. destruct (List.map sel_text l); by eexists. }
  destruct Hr as [r' Hr]. assert (Hpre : String.prefix "()" (String "(" r) = false).
  { rewrite Hr. cbn [String.prefix]. destruct (ascii_dec "(" "("); [|done]. destruct (ascii_dec ")" c); [by subst|done]. }
  rewrite Hpre. cbn [parseCompositeType]. change (Ascii.eqb "(" "(") with true. cbv iota. unfold r.
  rewrite (parse_list_text (x :: l)); [done| |done|done| |].
  - apply Forall_forall. intros t _. apply parse_text.
  - cbn [String.length]. rewrite string_length_app. lia.
  - cbn [String.length]. rewrite string_length_app. lia.
Qed.

(** ** Main theorems *)

(** (names of types). The name of a type in the description of a contract
    is read back by [NewType] as the type, whatever its internal type is, with
    the name that the type has in signatures: tuples under any brackets and
    within tuples, with the names of their fields. *)
Theorem type_names_roundtrip `{FieldNames} internal t i : nameable t = true ->
  exists r, NewType (type_text t) i (type_components internal t) = Ok (mkParsed t (kind_text t) r).
Proof. intros Hn. unfold NewType. fold (parts_of (type_components internal t)). by apply newType_text. Qed.

(** (interfaces). The interface of a contract that is read from its
    description has its own method for every function and its own event for
    every event, under the name of the description or that name with a number:
    overloading loses none, and there are no others. *)
Theorem interface_kept `{FieldNames} Keccak256 fields abi : UnmarshalJSON Keccak256 fields = Ok abi ->
  kept (method_of Keccak256) (functions fields) (ABI_Methods abi) /\ kept (event_of Keccak256) (events fields) (ABI_Events abi).
Proof.
  unfold UnmarshalJSON. destruct (map_outcome decode_field fields) as [l| |] eqn:Hl; try done. cbn [mbind outcome_bind].
  intros Ha. apply map_outcome_decoded in Hl as [<- Hall].
  apply (add_fields_kept Keccak256 l empty_abi abi []); [done|done|by exists []; repeat constructor..].
Qed.

(** C29 (signatures as selectors). The signature of a method whose types have no
    tuple under brackets is parsed as a selector: the name is that of the method,
    and the arguments of the selector are read as the same types, with dummy
    names for the fields of tuples, which have the signature again. *)
Theorem signature_roundtrip `{FieldNames} name inputs ts :
  parseIdentifier name = Ok (name, "") -> forallb selectable ts = true -> arg_kind <$> inputs = kind_text <$> ts ->
  exists sel args, ParseSelector (signature name inputs) = Ok sel /\ Sel_Name sel = name /\
    map_outcome Argument_UnmarshalJSON (Sel_Inputs sel) = Ok args /\
    (fun a => PT (PType a)) <$> args = dummy <$> ts /\ signature name args = signature name inputs.
Proof.
  intros Hname Hs Hk. destruct (args_dummy ts Hs assembleArg) as (args & Ha & Hp & Hk'); [by intros i t; exists i|].
  exists (mkSelector name "function" (assembleArgs (List.map sel_of ts))), args. split.
  - unfold ParseSelector, signature. rewrite Hk. pose proof (selector_args ts Hs) as Hsel. cbv zeta in Hsel.
    change ("(" +:+ String.concat "," (kind_text <$> ts) +:+ ")") with (String "(" (String.concat "," (kind_text <$> ts) +:+ ")")).
    rewrite identifier_then by done. cbn [mbind outcome_bind]. rewrite Hsel. done.
  - split; [done|]. split; [done|]. split; [done|]. unfold signature. by rewrite Hk, Hk'.
Qed.

(** (texts of selectors that panic). The parser of selectors returns for
    every text, except that it panics, by indexing an empty string for an error
    message, exactly on the texts that are an identifier. *)
Theorem selector_panics s :
  ((exists m, ParseSelector s = Panic m) <-> parseIdentifier s = Ok (s, "")) /\ ParseSelector s <> Err "out of fuel".
Proof.
  unfold ParseSelector. pose proof (parseToken_halts s true) as Hh. pose proof (identifier_split s) as Hsp. unfold parseIdentifier in *.
  destruct (parseToken s true) as [[name rest]|e|]; cbn [mbind outcome_bind halts] in *; [|split; [split; [by intros [m Hm]|done]|congruence]|done].
  destruct rest as [|c r].
  - cbn [parseCompositeType String.prefix mbind outcome_bind]. split; [|done]. split; [|by eexists]. intros _. rewrite Hsp, string_app_nil. done.
  - assert (Hne : Ok (name, String c r) <> Ok (s, "")) by done.
    pose proof (arguments_halt c r) as Hrest.
    destruct (if String.prefix "()" (String c r) then _ else _) as [[args rest]|e|]; cbn [mbind outcome_bind halts] in *; [|split; [|congruence]|done].
    + destruct (String.eqb rest ""); (split; [|done]); (split; [by intros [m Hm]|done]).
    + split; [by intros [m Hm]|done].
Qed.

(** ** Evaluations *)

#[local] Instance ascii_fields : FieldNames := {| unicode_field _ := false |}.

(** The signature of a method with a tuple and an array. *)
Lemma signature_roundtrip_witness :
  let input t := mkPArg "x" (mkParsed t (kind_text t) "") false in
  let ts := [TupleTy [AddressTy; SliceTy (UintTy 256)] ["to"; "amounts"] ["To"; "Amounts"]; ArrayTy BytesTy 3] in
  signature "transfer" (input <$> ts) = "transfer((address,uint256[]),bytes[3])" /\
  exists sel args, ParseSelector "transfer((address,uint256[]),bytes[3])" = Ok sel /\ Sel_Name sel = "transfer" /\
    map_outcome Argument_UnmarshalJSON (Sel_Inputs sel) = Ok args /\
    (fun a => PT (PType a)) <$> args =
      [TupleTy [AddressTy; SliceTy (UintTy 256)] ["name0"; "name1"] ["Name0"; "Name1"]; ArrayTy BytesTy 3].
Proof.
  intros input ts. split; [reflexivity|].
  destruct (signature_roundtrip "transfer" (input <$> ts) ts) as (sel & args & Hsel & Hname & Hargs & Hp & _);
    [reflexivity|reflexivity|reflexivity|].
  exists sel, args. split; [exact Hsel|]. split; [exact Hname|]. split; [exact Hargs|exact Hp].
Defined.

(** Two functions of one name. *)
Lemma interface_kept_witness :
  let f i := mkField "function" "send" i [] "nonpayable" false false false in
  let fields := [f [mkArgM "to" "address" "address" [] false]; f []] in
  exists abi, UnmarshalJSON id fields = Ok abi /\ kept (method_of id) (functions fields) (ABI_Methods abi) /\
    Method_Sig <$> ABI_Methods abi !! "send" = Some "send(address)" /\ Method_Sig <$> ABI_Methods abi !! "send0" = Some "send()".
Proof.
  intros f fields. let r := eval vm_compute in (UnmarshalJSON id fields) in match r with Ok ?a => exists a end.
  split; [vm_compute; reflexivity|]. split; [|split; vm_compute; reflexivity].
  apply (interface_kept id fields). vm_compute. reflexivity.
Defined.

(** The comment of [overloadedName] expects send2 here. *)
Example overloaded_send : overloadedName "send" (list_to_map [("send", tt); ("send1", tt)] : gmap string unit) = "send0".
Proof. vm_compute. reflexivity. Qed.

(** A dollar sign, which identifiers of Solidity may hold, in the name of a
    field of a tuple. *)
Example dollar_panics : NewType "tuple" "" [mkArgM "$a" "bool" "bool" [] false] = Panic "reflect.StructOf: field has invalid name".
Proof. vm_compute. reflexivity. Qed.

(** Text around a name is ignored, any character separates the types of a
    selector, and arrays of tuples are refused. *)
Example surrounded_type : (PT <$> NewType "1uint8!" "" []) = Ok (UintTy 8).
Proof. vm_compute. reflexivity. Qed.

Example any_separator : ParseSelector "f(bool;bool)" = ParseSelector "f(bool,bool)".
Proof. vm_compute. reflexivity. Qed.

Example tuple_array_refused : exists e, ParseSelector "f((bool)[])" = Err e.
Proof. eexists. vm_compute. reflexivity. Qed.

Example identifier_panics : exists m, ParseSelector "transfer" = Panic m.
Proof. eexists. vm_compute. reflexivity. Qed.
