(* ===== verification/AbiTopics.v ===== *)
(** * AbiTopics: indexed parameters of events (src/eth/abi/topics.go)

    Values as topics of log filters ([MakeTopics]) and topics as values
    ([ParseTopics], [ParseTopicsIntoMap]).  A topic is a list of 32 bytes.  What
    a parser has stored before it fails is not modelled.  The topic of a static
    value is its ABI encoding, and is read back, except for negative numbers
    that are not machine integers and for functions. *)

From Stdlib Require Import Ascii.
From stdpp Require Import gmap sorting.
From stdpp Require Import base list numbers strings.
From S2P Require Import Prelude Text Abi AbiSpec.
Local Open Scope string_scope.
Local Open Scope list_scope.
Local Open Scope Z_scope.

Definition HashLength : nat := 32.

(** A rule of a filter: [common.Hash] and [common.Address] are told apart from
    byte arrays by their names. *)
Inductive Rule := RHash (h : list Z) | RAddress (a : list Z) | RVal (v : GoVal).

(** [new(big.Int).Bytes]: the bytes of the absolute value without leading zeros. *)
Definition big_Bytes (z : Z) : list Z :=
  if z =? 0 then [] else be_bytes (Z.to_nat (Z.log2 (Z.abs z) / 8 + 1)) (Z.abs z).

(** [copy(topic[HashLength-len(blob):], blob)] into an empty topic. *)
Definition right_aligned (blob : list Z) : outcome (list Z) :=
  if 32 <? len blob then Panic "slice bounds out of range" else Ok (LeftPadBytes blob 32).

(** [genIntType]: the low bytes over the sign. *)
Definition genIntType (rule : Z) (size : nat) : list Z :=
  foldl (fun topic (i : nat) => <[(HashLength - i - 1)%nat := Z.land (Z.shiftr rule (Z.of_nat i * 8)) 255]> topic)
    (replicate HashLength (if rule <? 0 then 255 else 0)) (seq 0 size).

Section Make.
Context (Keccak256 : list Z -> list Z).

Definition make_topic (r : Rule) : outcome (list Z) :=
  match r with
  | RHash h => Ok h
  | RAddress a => Ok (LeftPadBytes a 32)
  | RVal (GBig (Some z)) => right_aligned (big_Bytes z)
  | RVal (GBig None) => Panic "invalid memory address or nil pointer dereference"
  | RVal (GBool b) => Ok (replicate 31 0 ++ [if b then 1 else 0])
  | RVal (GInt bits z) => Ok (genIntType z (Z.to_nat (bits / 8)))
  | RVal (GUint _ z) => right_aligned (big_Bytes z)
  | RVal (GString s) => Ok (Keccak256 (string_bytes s))
  | RVal (GSlice e l) =>
      if type_eqb e (TUint 8) then Ok (Keccak256 (List.map byte_val l)) else Err "unsupported indexed type"
  | RVal (GArray e l) =>
      if type_eqb e (TUint 8) then
        if 32 <? len l then Panic "slice bounds out of range" else Ok (RightPadBytes (List.map byte_val l) 32)
      else Err "unsupported indexed type"
  | RVal _ => Err "unsupported indexed type"
  end.

Fixpoint make_all {A B} (f : A -> outcome B) (l : list A) : outcome (list B) :=
  match l with
  | [] => Ok []
  | x :: l => y ← f x; l' ← make_all f l; Ok (y :: l')
  end.

Definition MakeTopics (query : list (list Rule)) : outcome (list (list (list Z))) := make_all (make_all make_topic) query.

End Make.

(** A topic as a value. *)
Definition parse_topic (t : AType) (topic : list Z) : outcome GoVal :=
  match t with
  | TupleTy _ _ _ => Err "tuple type in topic reconstruction"
  | StringTy | BytesTy | SliceTy _ | ArrayTy _ _ => Ok (byte_array topic)
  | FunctionTy =>
      if be_value (take 8 topic) =? 0 then Ok (byte_array (take 24 (drop 8 topic)))
      else Err "bind: got improperly encoded function type"
  | _ => toGoType 0 t topic
  end.

Fixpoint topic_loop {A} (setter : Argument -> GoVal -> A -> outcome A) (fields : Arguments) (topics : list (list Z)) (out : A)
    : outcome A :=
  match fields, topics with
  | arg :: fields, topic :: topics =>
      if negb (Indexed arg) then Err "non-indexed field in topic reconstruction"
      else v ← parse_topic (ArgType arg) topic;
           out ← setter arg v out;
           topic_loop setter fields topics out
  | _, _ => Ok out
  end.

Definition parseTopicWithSetter {A} (setter : Argument -> GoVal -> A -> outcome A) (fields : Arguments) (topics : list (list Z))
    (out : A) : outcome A :=
  if negb (len fields =? len topics) then Err "topic/field count mismatch" else topic_loop setter fields topics out.

(** [Set] of a field of the struct. *)
Definition set_struct (sfields : list StructField) (arg : Argument) (v : GoVal) (out : list GoVal) : outcome (list GoVal) :=
  let name := ToCamelCase (ArgName arg) in
  match FieldByName sfields out name with
  | None => Panic "reflect: call of reflect.Value.Set on zero Value"
  | Some d =>
      if negb (exported name) then Panic "reflect: reflect.Value.Set using value obtained using unexported field"
      else if type_eqb (TypeOf v) (TypeOf d) then Ok (set_field sfields out name v)
      else Panic "reflect.Set: value is not assignable"
  end.

Definition ParseTopics (sfields : list StructField) (out : list GoVal) (fields : Arguments) (topics : list (list Z)) :=
  parseTopicWithSetter (set_struct sfields) fields topics out.

Definition ParseTopicsIntoMap (out : gmap string GoVal) (fields : Arguments) (topics : list (list Z)) : outcome (gmap string GoVal) :=
  parseTopicWithSetter (fun arg v m => Ok (<[ArgName arg := v]> m)) fields topics out.

(** ** Bytes of numbers *)

Lemma be_bytes_lookup n z k : (k < n)%nat -> be_bytes n z !! k = Some (Z.land (Z.shiftr z (Z.of_nat (n - 1 - k) * 8)) 255).
Proof.
  revert z k. induction n as [|n IH]; intros z k Hk; [lia|]. cbn [be_bytes]. destruct (decide (k = n)) as [->|].
  - rewrite lookup_app_r by (rewrite be_bytes_length; lia). rewrite be_bytes_length, Nat.sub_diag.
    replace (S n - 1 - n)%nat with O by lia. done.
  - rewrite lookup_app_l by (rewrite be_bytes_length; lia). rewrite IH by lia. do 2 f_equal. rewrite Z.shiftr_shiftr by lia.
    f_equal. lia.
Qed.

Lemma be_bytes_lead n z : 0 <= z < 256 ^ Z.of_nat n -> be_bytes (S n) z = 0 :: be_bytes n z.
Proof.
  revert z. induction n as [|n IH]; intros z Hz.
  - change (256 ^ Z.of_nat 0) with 1 in Hz. assert (z = 0) as -> by lia. done.
  - rewrite Nat2Z.inj_succ, Z.pow_succ_r in Hz by lia.
    change (be_bytes (S (S n)) z) with (be_bytes (S n) (Z.shiftr z 8) ++ [Z.land z 255]). rewrite IH; [done|].
    rewrite shiftr_8. split; [apply Z.div_pos; lia|apply Z.div_lt_upper_bound; lia].
Qed.

Lemma be_bytes_pad k n z : 0 <= z < 256 ^ Z.of_nat n -> be_bytes (k + n) z = replicate k 0 ++ be_bytes n z.
Proof.
  intros Hz. induction k as [|k IH]; [done|]. cbn [replicate app Nat.add]. rewrite <- IH. apply be_bytes_lead.
  split; [lia|]. eapply Z.lt_le_trans; [apply Hz|]. apply Z.pow_le_mono_r; lia.
Qed.

(** Numbers of 256 bits, aligned to the right, are their words. *)
Lemma big_Bytes_aligned z : 0 <= z < 2 ^ 256 -> right_aligned (big_Bytes z) = Ok (U256Bytes z).
Proof.
  intros Hz. unfold right_aligned, big_Bytes, U256Bytes. rewrite Z.mod_small by (unfold two256; lia).
  destruct (Z.eqb_spec z 0) as [->|Hnz]; [by vm_compute|]. rewrite Z.abs_eq by lia.
  set (n := Z.to_nat (Z.log2 z / 8 + 1)).
  assert (Hlog : 0 <= Z.log2 z < 256) by (split; [apply Z.log2_nonneg|apply Z.log2_lt_pow2; lia]).
  assert (Hdiv : 0 <= Z.log2 z / 8 < 32) by (split; [apply Z.div_pos; lia|apply Z.div_lt_upper_bound; lia]).
  assert (Hn : (n <= 32)%nat) by (unfold n; lia).
  assert (Hb : 0 <= z < 256 ^ Z.of_nat n).
  { split; [lia|]. change 256 with (2 ^ 8). rewrite <- Z.pow_mul_r by lia. apply Z.log2_lt_pow2; [lia|]. unfold n.
    rewrite Z2Nat.id by lia. pose proof (Z.div_mod (Z.log2 z) 8 ltac:(lia)). pose proof (Z.mod_pos_bound (Z.log2 z) 8 ltac:(lia)). lia. }
  unfold len. rewrite be_bytes_length, (proj2 (Z.ltb_ge _ _)) by lia. f_equal. unfold LeftPadBytes. rewrite be_bytes_length.
  change (Z.to_nat 32) with 32%nat. rewrite <- be_bytes_pad by done. f_equal. lia.
Qed.

(** The bytes of a machine integer over its sign are its word. *)
Lemma gen_lookup rule size k : (size <= 32)%nat -> (k < 32)%nat ->
  genIntType rule size !! k =
    Some (if decide (31 - k < size)%nat then Z.land (Z.shiftr rule (Z.of_nat (31 - k) * 8)) 255 else if rule <? 0 then 255 else 0).
Proof.
  intros Hs Hk. unfold genIntType. assert (Hlen : forall n l, length (foldl (fun topic (i : nat) =>
    <[(HashLength - i - 1)%nat := Z.land (Z.shiftr rule (Z.of_nat i * 8)) 255]> topic) l (seq 0 n)) = length l).
  { induction n as [|n IH]; intros l; [done|]. rewrite seq_S, foldl_snoc. cbn. by rewrite length_insert, IH. }
  induction size as [|size IH].
  - cbn [seq foldl]. rewrite decide_False by lia. apply lookup_replicate_2. unfold HashLength. lia.
  - rewrite seq_S, foldl_snoc. cbn [Nat.add]. destruct (decide (k = 31 - size)%nat) as [->|Hne].
    + rewrite decide_True by lia. unfold HashLength at 1. replace (32 - size - 1)%nat with (31 - size)%nat by lia.
      rewrite list_lookup_insert_eq by (rewrite Hlen, length_replicate; unfold HashLength; lia). do 4 f_equal. lia.
    + rewrite list_lookup_insert_ne by (unfold HashLength; lia). rewrite IH by lia.
      destruct (decide (31 - k < size)%nat), (decide (31 - k < S size)%nat); try done; lia.
Qed.

Lemma byte_of_word z j : 0 <= j < 32 -> Z.land (Z.shiftr (z mod two256) (j * 8)) 255 = Z.land (Z.shiftr z (j * 8)) 255.
Proof.
  intros Hj. apply Z.bits_inj'. intros n Hn. rewrite !Z.land_spec, !Z.shiftr_spec by done. change 255 with (Z.ones 8).
  destruct (Z.lt_ge_cases n 8).
  - unfold two256. rewrite Z.mod_pow2_bits_low by lia. done.
  - rewrite Z.ones_spec_high by lia. by rewrite !andb_false_r.
Qed.

Lemma sign_byte z s j : - 2 ^ (8 * s - 1) <= z < 2 ^ (8 * s - 1) -> 0 < s <= j ->
  Z.land (Z.shiftr z (j * 8)) 255 = if z <? 0 then 255 else 0.
Proof.
  intros Hz Hj. assert (Hle : 2 ^ (8 * s - 1) <= 2 ^ (j * 8)) by (apply Z.pow_le_mono_r; lia).
  rewrite Z.shiftr_div_pow2 by lia. destruct (Z.ltb_spec z 0).
  - replace (z / 2 ^ (j * 8)) with (-1); [done|]. apply Z.div_unique with (z + 2 ^ (j * 8)); lia.
  - rewrite Z.div_small by lia. done.
Qed.

Lemma genIntType_word z s : (0 < s <= 32)%nat -> - 2 ^ (8 * Z.of_nat s - 1) <= z < 2 ^ (8 * Z.of_nat s - 1) ->
  genIntType z s = U256Bytes z.
Proof.
  intros Hs Hz. assert (Hlen : length (genIntType z s) = 32%nat).
  { unfold genIntType. generalize (seq 0 s). intros l. change 32%nat with (length (replicate HashLength (if z <? 0 then 255 else 0))).
    generalize (replicate HashLength (if z <? 0 then 255 else 0)). induction l as [|i l IH]; intros t; [done|].
    cbn [foldl]. rewrite IH. apply length_insert. }
  apply list_eq_same_length with 32%nat; [unfold U256Bytes; by rewrite be_bytes_length|done|].
  intros k x y Hk Hx Hy. rewrite gen_lookup in Hx by lia. unfold U256Bytes in Hy. rewrite be_bytes_lookup in Hy by lia.
  injection Hx as <-. injection Hy as <-. replace (32 - 1 - k)%nat with (31 - k)%nat by lia. rewrite byte_of_word by lia.
  destruct (decide (31 - k < s)%nat); [done|]. symmetry. apply (sign_byte z (Z.of_nat s)); [done|lia].
Qed.

(** ** Topics of values *)

Definition rule_of (t : AType) (v : GoVal) : Rule :=
  match t, v with
  | AddressTy, GArray _ l => RAddress (List.map byte_val l)
  | _, _ => RVal v
  end.

(** Types whose topics are values. *)
Definition value_type (t : AType) : bool :=
  match t with IntTy _ | UintTy _ | BoolTy | AddressTy | FixedBytesTy _ | FunctionTy => true | _ => false end.

Lemma topic_packed K t v : wf_type t = true -> value_type t = true -> has_type t v = true ->
  match v with GBig (Some z) => 0 <= z | _ => True end -> make_topic K (rule_of t v) = packElement t v.
Proof.
  intros Hwf Ht Hv Hneg. destruct t as [size|size| | | | | | |n| | | |]; try done; cbn [has_type packElement rule_of] in *.
  - destruct v as [|b z| |[z|]| | | | |]; try done; cbn [make_topic packNum]; repeat rewrite andb_true_iff in Hv.
    + destruct Hv as [[[Hw ->%Z.eqb_eq] H1%Z.leb_le] H2%Z.ltb_lt]. f_equal.
      assert (Hb : 8 * Z.of_nat (Z.to_nat (size / 8)) = size /\ (0 < Z.to_nat (size / 8) <= 32)%nat)
        by (destruct (machine_widths _ Hw) as [->|[->|[->| ->]]]; vm_compute; split; [done|lia|done|lia|done|lia|done|lia]).
      destruct Hb as [Hb Hn]. apply genIntType_word; [done|]. by rewrite Hb.
    + destruct Hv as [_ H2%Z.ltb_lt]. apply big_Bytes_aligned. lia.
  - destruct v as [| |b z|[z|]| | | | |]; try done; cbn [make_topic packNum]; repeat rewrite andb_true_iff in Hv.
    + destruct Hv as [[[Hw ->%Z.eqb_eq] H1%Z.leb_le] H2%Z.ltb_lt]. apply big_Bytes_aligned. split; [done|].
      eapply Z.lt_le_trans; [exact H2|]. apply Z.pow_le_mono_r; [lia|]. destruct (machine_widths _ Hw) as [->|[->|[->| ->]]]; lia.
    + destruct Hv as [_ H2%Z.ltb_lt]. by apply big_Bytes_aligned.
  - by destruct v as [[]| | | | | | | |].
  - apply byte_vals_inv in Hv as (l & -> & Hl & Hb). done.
  - apply byte_vals_inv in Hv as (l & -> & Hl & Hb). cbn [make_topic packElement]. cbn [wf_type] in Hwf. bool_to_prop.
    cbn [type_eqb]. change (8 =? 8) with true. cbv iota. rewrite (proj2 (Z.ltb_ge _ _)) by lia. done.
  - apply byte_vals_inv in Hv as (l & -> & Hl & Hb). cbn [make_topic packElement].
    cbn [type_eqb]. change (8 =? 8) with true. cbv iota. by rewrite (proj2 (Z.ltb_ge _ _)) by lia.
Qed.

Lemma pack_element t v enc : value_type t = true -> has_type t v = true -> pack t v = Ok enc -> packElement t v = Ok enc.
Proof.
  intros Ht Hv. pose proof (has_type_indirect t v Hv) as Hi. destruct t; try done; cbn [pack]; rewrite Hi; cbn [mbind outcome_bind];
    (destruct (typeCheck _ v) as [[]| |]; try done).
Qed.

(** (topics). The topic that [MakeTopics] makes of a value of a static type is its
    ABI encoding, and the parsers of topics read the value back from it, with the
    exception of functions; numbers that are not machine integers must not be
    negative. *)
Theorem topic_roundtrip K t v : wf_type t = true -> value_type t = true -> has_type t v = true ->
  match v with GBig (Some z) => 0 <= z | _ => True end ->
  exists topic, MakeTopics K [[rule_of t v]] = Ok [[topic]] /\ pack t v = Ok topic /\ len topic = 32 /\
    (t <> FunctionTy -> parse_topic t topic = Ok v).
Proof.
  intros Hwf Ht Hv Hneg. destruct (pack_decodes t Hwf v Hv) as (topic & Hp & Hd). exists topic.
  pose proof (pack_element t v topic Ht Hv Hp) as He. unfold decodes in Hd. assert (isDynamicType t = false) as Hs by by destruct t.
  rewrite Hs in Hd. destruct Hd as [Hlen Hread]. assert (Hsize : getTypeSize t = 32) by by destruct t. rewrite Hsize in Hlen.
  split; [|split; [done|split; [done|]]].
  - unfold MakeTopics. cbn [make_all]. rewrite (topic_packed K t v) by done. by rewrite He.
  - intros Hf. specialize (Hread [] []). rewrite app_nil_r in Hread. change ([] ++ topic) with topic in Hread.
    specialize (Hread ltac:(lia)). by destruct t.
Qed.

(** A negative number that is not a machine integer has the topic of its absolute
    value, which a filter for the number does not match and which is read back as
    the absolute value. *)
Lemma negative_topic K size z : machine_width size = false -> - 2 ^ 255 < z < 0 ->
  exists topic, MakeTopics K [[RVal (GBig (Some z))]] = Ok [[topic]] /\
    pack (IntTy size) (GBig (Some z)) <> Ok topic /\ parse_topic (IntTy size) topic = Ok (GBig (Some (- z))).
Proof.
  intros Hw Hz. assert (Ht : forall x, - 2 ^ 255 < x < 2 ^ 255 -> has_type (IntTy size) (GBig (Some x)) = true).
  { intros x Hx. cbn [has_type]. rewrite Hw. cbn [negb andb]. apply andb_true_iff. split; [apply Z.leb_le|apply Z.ltb_lt]; lia. }
  destruct (topic_roundtrip K (IntTy size) (GBig (Some (- z)))) as (topic & Hm & _ & _ & Hr); [done|done|apply Ht; lia|lia|].
  exists topic. split; [|split; [|by apply Hr]].
  - rewrite <- Hm. unfold MakeTopics. cbn [make_all make_topic rule_of]. unfold big_Bytes.
    rewrite Z.abs_opp, (proj2 (Z.eqb_neq z 0)), (proj2 (Z.eqb_neq (- z) 0)) by lia. done.
  - intros Hp. destruct (pack_decodes (IntTy size) eq_refl (GBig (Some z)) (Ht z ltac:(lia))) as (enc & Hp' & Hd).
    rewrite Hp in Hp'. injection Hp' as <-. unfold decodes in Hd. cbn [isDynamicType] in Hd. destruct Hd as [Hlen Hd].
    specialize (Hd [] []). rewrite app_nil_r in Hd. change ([] ++ topic) with topic in Hd. cbn [getTypeSize] in Hlen.
    specialize (Hd ltac:(lia)). specialize (Hr ltac:(done)). cbn [parse_topic] in Hr. change (len []) with 0 in Hd.
    rewrite Hd in Hr. injection Hr as Hr. lia.
Qed.

(** The topic of a function is not read back. *)
Example function_topic : let f := List.map val_byte (seqZ 1 24) in
  exists topic e, MakeTopics id [[RVal (GArray (TUint 8) f)]] = Ok [[topic]] /\ parse_topic FunctionTy topic = Err e.
Proof. eexists _, _. split; vm_compute; reflexivity. Qed.

Lemma topic_roundtrip_witness :
  exists topic, MakeTopics id [[RVal (GInt 16 (-2))]] = Ok [[topic]] /\ parse_topic (IntTy 16) topic = Ok (GInt 16 (-2)).
Proof.
  destruct (topic_roundtrip id (IntTy 16) (GInt 16 (-2))) as (topic & Hm & _ & _ & Hr); [reflexivity|reflexivity|reflexivity|exact I|].
  exists topic. split; [exact Hm|]. apply Hr. discriminate.
Defined.
