(* ===== verification/BindLogs.v ===== *)
(** * BindLogs: logs of bound contracts (src/eth/abi/bind/base.go)

    The filters and subscriptions of a bound contract, the unpacking of its logs
    into structs and maps, and the deployment of contracts.  The logs that a
    filter finds are returned as the list that the subscription delivers.  A log
    made of well-typed values is found by the filter for them and unpacked to
    them. *)

From Stdlib Require Import Ascii.
From stdpp Require Import gmap sorting.
From stdpp Require Import base list numbers strings.
From S2P Require Import Prelude Text Abi AbiSpec AbiParse AbiTopics Bind.
Local Open Scope string_scope.
Local Open Scope list_scope.
Local Open Scope Z_scope.

Record Log := mkLog { LogAddress : Address; LogTopics : list (list Z); LogData : list Z }.

Record FilterQuery := mkFilterQuery {
  QAddresses : list Address;
  QTopics : list (list (list Z));
  FromBlock : option Z;
  ToBlock : option Z
}.

(** The event side of a backend. *)
Class ContractFilterer (W : Type) := {
  backend_FilterLogs : Client -> FilterQuery -> IO W (list Log);
  backend_SubscribeFilterLogs : Client -> FilterQuery -> IO W unit
}.

Record FilterOpts := mkFilterOpts { Start : uint64; End_ : option uint64 }.

(** ** Transactions without a method *)

Section Deploy.
Context {W : Type} `{!Backend W} (CreateAddress : Address -> Z -> Address).

Definition RawTransact (c : BoundContract) (opts : TransactOpts) (calldata : list Z) : IO W Transaction :=
  transact c opts (Some (address c)) calldata.

Definition Transfer (c : BoundContract) (opts : TransactOpts) : IO W Transaction := transact c opts (Some (address c)) [].

Definition tx_nonce (tx : Transaction) : Z :=
  match TxInner tx with LegacyTx _ n _ _ _ _ | DynamicFeeTx _ n _ _ _ _ _ => n end.

(** [DeployContract]: the byte code followed by the arguments of the constructor. *)
Definition DeployContract (opts : TransactOpts) (abi : ContractABI) (bytecode : list Z) (cl : Client) (params : list GoVal)
    : IO W (Address * Transaction * BoundContract) :=
  input ← lift (Pack (erase_args (MInputs (ABI_Constructor abi))) params);
  tx ← transact (mkBoundContract 0 (erase_abi abi) cl) opts None (bytecode ++ input);
  let a := CreateAddress (OptFrom opts) (tx_nonce tx) in
  mret (a, tx, mkBoundContract a (erase_abi abi) cl).

End Deploy.

(** [MetaData] with the parsed interface, which is parsed once. *)
Record MetaData := mkMetaData { meta_fields : list Field; meta_abi : option ContractABI }.

Definition GetAbi `{FieldNames} (K : list Z -> list Z) (m : MetaData) : outcome (ContractABI * MetaData) :=
  match meta_abi m with
  | Some abi => Ok (abi, m)
  | None => abi ← UnmarshalJSON K (meta_fields m); Ok (abi, mkMetaData (meta_fields m) (Some abi))
  end.

Section Logs.
Context {W : Type} `{!ContractFilterer W} (K : list Z -> list Z).
Implicit Type abi : ContractABI.

(** [abi.Events[name].ID]: zero for an event that is not there. *)
Definition event_id abi (name : string) : list Z :=
  match ABI_Events abi !! name with Some e => Event_ID e | None => replicate 32 0 end.

Definition event_topics abi (name : string) (query : list (list Rule)) : outcome (list (list (list Z))) :=
  MakeTopics K ([RHash (event_id abi name)] :: query).

Definition FilterLogs (addr : Address) abi (cl : Client) (opts : option FilterOpts) (name : string) (query : list (list Rule))
    : IO W (list Log) :=
  let opts := default (mkFilterOpts 0 None) opts in
  topics ← lift (event_topics abi name query);
  backend_FilterLogs cl (mkFilterQuery [addr] topics (Some (Start opts)) (End_ opts)).

Definition WatchLogs (addr : Address) abi (cl : Client) (start : option uint64) (name : string) (query : list (list Rule))
    : IO W unit :=
  topics ← lift (event_topics abi name query);
  backend_SubscribeFilterLogs cl (mkFilterQuery [addr] topics start None).

(** [UnpackIntoMap] of arguments and of an interface. *)
Definition Arguments_UnpackIntoMap (args : list Argument) (v : gmap string GoVal) (data : list Z) : outcome (gmap string GoVal) :=
  if len data =? 0 then
    if negb (len args =? 0) then Err "abi: attempting to unmarshall an empty string while arguments are expected" else Ok v
  else vals ← UnpackValues args data;
       Ok (foldl (fun m p => <[ArgName p.1 := p.2]> m) v (zip (NonIndexed args) vals)).

Definition ABI_UnpackIntoMap abi (v : gmap string GoVal) (name : string) (data : list Z) : outcome (gmap string GoVal) :=
  args ← getArguments (erase_abi abi) name data; Arguments_UnpackIntoMap args v data.

Definition event_args abi (name : string) : list Argument :=
  match ABI_Events abi !! name with Some e => erase_args (EInputs e) | None => [] end.

Definition indexed_args abi (name : string) : list Argument := List.filter Indexed (event_args abi name).

Definition UnpackLog abi (sfields : list StructField) (out : list GoVal) (event : string) (log : Log) : outcome (list GoVal) :=
  match LogTopics log with
  | [] => Panic "index out of range [0] with length 0"
  | topic :: topics =>
      if negb (bool_decide (topic = event_id abi event)) then Err "event signature mismatch"
      else out ← (if 0 <? len (LogData log) then UnpackIntoInterface (erase_abi abi) sfields out event (LogData log) else Ok out);
           ParseTopics sfields out (indexed_args abi event) topics
  end.

Definition UnpackLogIntoMap abi (out : gmap string GoVal) (event : string) (log : Log) : outcome (gmap string GoVal) :=
  match LogTopics log with
  | [] => Panic "index out of range [0] with length 0"
  | topic :: topics =>
      if negb (bool_decide (topic = event_id abi event)) then Err "event signature mismatch"
      else out ← (if 0 <? len (LogData log) then ABI_UnpackIntoMap abi out event (LogData log) else Ok out);
           ParseTopicsIntoMap out (indexed_args abi event) topics
  end.

(** ** Logs of values *)

(** A parameter of the event with its value: indexed ones have value types. *)
Definition emitted (b : Argument * GoVal) : Prop :=
  wf_type (ArgType b.1) = true /\ has_type (ArgType b.1) b.2 = true /\
  (Indexed b.1 = true -> value_type (ArgType b.1) = true /\ ArgType b.1 <> FunctionTy /\
     match b.2 with GBig (Some z) => 0 <= z | _ => True end).

Definition bind_value (m : gmap string GoVal) (b : Argument * GoVal) : gmap string GoVal := <[ArgName b.1 := b.2]> m.

Lemma indexed_topics l : Forall emitted l -> Forall (fun b => Indexed b.1 = true) l ->
  exists topics, make_all (make_all (make_topic K)) ((fun b => [rule_of (ArgType b.1) b.2]) <$> l) = Ok ((fun t => [t]) <$> topics) /\
    length topics = length l /\
    forall m, topic_loop (fun arg v m => Ok (<[ArgName arg := v]> m)) l.*1 topics m = Ok (foldl bind_value m l).
Proof.
  induction l as [|[a v] l IH]; intros Hl Hi; [by exists []|]. apply Forall_cons in Hl as [(Hwf & Hv & Hx) Hl].
  apply Forall_cons in Hi as [Ha Hi]. destruct (Hx Ha) as (Hval & Hf & Hneg).
  destruct (topic_roundtrip K _ _ Hwf Hval Hv Hneg) as (topic & Hm & _ & _ & Hr). destruct (IH Hl Hi) as (topics & Hts & Hlen & Hp).
  exists (topic :: topics). cbn [fst snd] in *. unfold MakeTopics in Hm. cbn [make_all] in Hm.
  split; [|split; [cbn; by rewrite Hlen|]].
  - rewrite !fmap_cons. cbn [make_all fst snd]. destruct (make_topic K (rule_of (ArgType a) v)); try done.
    cbn [mbind outcome_bind] in *. injection Hm as ->. by rewrite Hts.
  - intros m. rewrite fmap_cons. cbn [topic_loop fst foldl]. rewrite Ha. cbn [negb]. rewrite (Hr Hf). cbn [mbind outcome_bind].
    apply Hp.
Qed.

(** The data of a log is not empty when it has values. *)
Lemma packed_nonempty args vals data : wf_args args = true -> forallb2 (fun a v => has_type (ArgType a) v) args vals = true ->
  Pack args vals = Ok data -> args <> [] -> 0 < len data.
Proof.
  intros Hargs Hvals Hp Hne. destruct (args_parts args vals Hargs Hvals) as (ps & Hpv & Hpt & Hok & Hz).
  unfold Pack in Hp. destruct (negb _); [done|]. rewrite Hz, pack_loop_eq in Hp. injection Hp as <-.
  cbn [app]. rewrite len_app, heads_len by done. pose proof (len_nonneg (tails ps)).
  destruct args as [|a args]; [done|]. destruct ps as [|p ps]; [done|]. cbn [List.map] in Hpt. injection Hpt as Hpa Hpt.
  cbn [wf_args forallb] in Hargs. rewrite !andb_true_iff in Hargs. destruct Hargs as [[Ha _] _].
  rewrite sumZ_cons. destruct (size_words (ArgType a)) as (k & Hk & Hk1). specialize (Hk1 Ha).
  assert (0 <= sumZ part_size ps).
  { apply sumZ_nonneg. intros x Hx. apply Forall_cons in Hok as [_ Hok]. unfold part_size.
    destruct (size_words (AbiSpec.PType x)) as (j & Hj & _). rewrite Forall_forall in Hok. specialize (Hok x Hx).
    unfold part_ok, decodes in Hok. destruct (isDynamicType (AbiSpec.PType x)) eqn:Hd; [rewrite dynamic_size by done; lia|].
    destruct Hok as [<- _]. apply len_nonneg. }
  unfold part_size at 1. rewrite Hpa. lia.
Qed.

Lemma foldl_bind l : forall m, NoDup (ArgName <$> l.*1) ->
  foldl bind_value m l = list_to_map ((fun b => (ArgName b.1, b.2)) <$> l) ∪ m.
Proof.
  induction l as [|[a v] l IH]; intros m Hnd; cbn [foldl]; [symmetry; apply (left_id_L ∅ (∪))|].
  rewrite !fmap_cons in Hnd. apply NoDup_cons in Hnd as [Hn Hnd]. rewrite IH, fmap_cons, list_to_map_cons by done.
  unfold bind_value. cbn [fst snd]. rewrite <- insert_union_l, <- insert_union_r; [done|].
  apply not_elem_of_list_to_map. rewrite <- list_fmap_compose. intros Hin. apply Hn. by rewrite <- list_fmap_compose.
Qed.

Lemma UnpackIntoMap_packed args vals data : wf_args args = true ->
  forallb2 (fun a v => has_type (ArgType a) v) args vals = true -> Pack args vals = Ok data -> len data < 2 ^ 63 -> 0 < len data ->
  forall all v, NonIndexed all = args -> Arguments_UnpackIntoMap all v data = Ok (foldl bind_value v (zip args vals)).
Proof.
  intros Hwf Hvals Hp Hlen Hpos all v Hall. destruct (pack_unpack args vals Hwf Hvals) as (data' & Hp' & Hu).
  rewrite Hp in Hp'. injection Hp' as <-. specialize (Hu []). rewrite app_nil_r in Hu. specialize (Hu Hlen).
  unfold Arguments_UnpackIntoMap. rewrite (proj2 (Z.eqb_neq _ _)) by lia.
  assert (UnpackValues all data = Ok vals) as ->.
  { rewrite <- Hu. unfold UnpackValues. by rewrite Hall, NonIndexed_wf. }
  cbn [mbind outcome_bind]. by rewrite Hall.
Qed.

Lemma filter_fst (f : Argument -> bool) (l : list (Argument * GoVal)) :
  List.filter f l.*1 = (List.filter (fun b => f b.1) l).*1.
Proof. induction l as [|[a v] l IH]; [done|]. cbn. destruct (f a); cbn; by rewrite IH. Qed.

Lemma filter_split {A} (f : A -> bool) l : List.filter (fun x => negb (f x)) l ++ List.filter f l ≡ₚ l.
Proof.
  induction l as [|x l IH]; [done|]. cbn [List.filter]. destruct (f x); cbn [negb app]; [|by rewrite IH].
  by rewrite <- Permutation_middle, IH.
Qed.

Lemma filter_Forall {A} (P : A -> Prop) (f : A -> bool) l : Forall P l -> Forall P (List.filter f l) /\ Forall (fun x => f x = true) (List.filter f l).
Proof.
  induction 1 as [|x l Hx Hl [IH1 IH2]]; [by repeat constructor|]. cbn [List.filter]. destruct (f x) eqn:E; [|done]. by repeat constructor.
Qed.

(** The values that are not indexed. *)
Lemma plain_typed l : Forall emitted l -> Forall (fun b => negb (Indexed b.1) = true) l ->
  wf_args l.*1 = true /\ forallb2 (fun a v => has_type (ArgType a) v) l.*1 l.*2 = true.
Proof.
  induction 1 as [|[a v] l (Hwf & Hv & _) Hl IH]; [done|]. intros [Ha Hi]%Forall_cons. destruct (IH Hi) as [H1 H2].
  cbn [fst snd] in *. split.
  - change (wf_type (ArgType a) && negb (Indexed a) && wf_args l.*1 = true). by rewrite Hwf, Ha.
  - change (has_type (ArgType a) v && forallb2 (fun a v => has_type (ArgType a) v) l.*1 l.*2 = true). by rewrite Hv.
Qed.

(** (logs). A log with the topics and the data of well-typed values of an event is
    matched by the filter for the values of the indexed parameters, and unpacked
    into the map of all values by the names of the parameters. *)
Theorem log_roundtrip abi name e addr bs :
  ABI_Events abi !! name = Some e -> ABI_Methods abi !! name = None -> erase_args (EInputs e) = bs.*1 ->
  NoDup (ArgName <$> bs.*1) -> Forall emitted bs ->
  let indexed := List.filter (fun b => Indexed b.1) bs in
  let plain := List.filter (fun b => negb (Indexed b.1)) bs in
  exists topics data,
    event_topics abi name ((fun b => [rule_of (ArgType b.1) b.2]) <$> indexed) = Ok ((fun t => [t]) <$> Event_ID e :: topics) /\
    Pack plain.*1 plain.*2 = Ok data /\
    (len data < 2 ^ 63 -> UnpackLogIntoMap abi ∅ name (mkLog addr (Event_ID e :: topics) data) =
       Ok (list_to_map ((fun b => (ArgName b.1, b.2)) <$> bs))).
Proof.
  intros He Hme Hin Hnd Hem indexed plain. destruct (filter_Forall emitted (fun b => Indexed b.1) bs Hem) as [Hie Hii].
  destruct (filter_Forall emitted (fun b => negb (Indexed b.1)) bs Hem) as [Hpe Hpi].
  destruct (indexed_topics indexed Hie Hii) as (topics & Hts & Hlen & Hloop). destruct (plain_typed plain Hpe Hpi) as [Hwf Hty].
  destruct (pack_unpack _ _ Hwf Hty) as (data & Hp & _). exists topics, data.
  assert (Hid : event_id abi name = Event_ID e) by (unfold event_id; by rewrite He).
  split; [|split; [done|]].
  { unfold event_topics, MakeTopics. cbn [make_all make_topic mbind outcome_bind]. by rewrite Hid, Hts. }
  intros Hl. unfold UnpackLogIntoMap. cbn [LogTopics LogData]. rewrite Hid, bool_decide_eq_true_2 by done. cbn [negb].
  assert (Hdata : (if 0 <? len data then ABI_UnpackIntoMap abi ∅ name data else Ok ∅) = Ok (foldl bind_value ∅ plain)).
  { destruct (Z.ltb_spec 0 (len data)) as [Hpos|Hzero].
    - unfold ABI_UnpackIntoMap, getArguments, erase_abi. cbn [Methods Events]. rewrite !lookup_fmap, Hme, He. cbn [fmap option_fmap option_map].
      cbn [mbind outcome_bind]. rewrite Hin. rewrite (UnpackIntoMap_packed _ _ _ Hwf Hty Hp Hl Hpos).
      + by rewrite zip_fst_snd.
      + unfold NonIndexed. by rewrite filter_fst.
    - destruct plain as [|b plain'] eqn:E; [done|]. pose proof (packed_nonempty _ _ _ Hwf Hty Hp ltac:(done)). lia. }
  rewrite Hdata. cbn [mbind outcome_bind]. unfold ParseTopicsIntoMap, parseTopicWithSetter, indexed_args, event_args. rewrite He, Hin, filter_fst.
  fold indexed. unfold len. rewrite length_fmap, Hlen, Z.eqb_refl. cbn [negb]. rewrite Hloop. f_equal.
  assert (Hperm : plain ++ indexed ≡ₚ bs) by apply filter_split.
  rewrite <- foldl_app, foldl_bind by by rewrite Hperm. rewrite map_union_empty. symmetry. apply list_to_map_proper.
  - rewrite <- list_fmap_compose. by rewrite <- list_fmap_compose in Hnd.
  - by rewrite Hperm.
Qed.

End Logs.

(** ** Evaluations *)

#[local] Instance bind_fields : FieldNames := {| unicode_field _ := false |}.

(** A digest for evaluation: the first 32 bytes of the signature. *)
Definition toy_digest (l : list Z) : list Z := RightPadBytes (take 32 l) 32.

Definition transfer_abi : ContractABI :=
  match UnmarshalJSON toy_digest
    [mkField "event" "Transfer" [mkArgM "to" "address" "address" [] true; mkArgM "value" "uint256" "uint256" [] false] [] "" false false false]
  with Ok a => a | _ => empty_abi end.

Lemma log_roundtrip_witness :
  let to := byte_array (seqZ 1 20) in
  let bs := [(mkArgument "to" AddressTy true, to); (mkArgument "value" (UintTy 256) false, GBig (Some 1000))] in
  exists topics data, Pack [mkArgument "value" (UintTy 256) false] [GBig (Some 1000)] = Ok data /\
    (len data < 2 ^ 63 -> UnpackLogIntoMap transfer_abi ∅ "Transfer" (mkLog 7 (toy_digest (string_bytes "Transfer(address,uint256)") :: topics) data) =
      Ok (list_to_map [("to", to); ("value", GBig (Some 1000))])).
Proof.
  intros to bs. destruct (ABI_Events transfer_abi !! "Transfer") as [e|] eqn:He; [|vm_compute in He; discriminate].
  destruct (log_roundtrip toy_digest transfer_abi "Transfer" e 7 bs) as (topics & data & _ & Hp & Hu).
  - exact He.
  - vm_compute. reflexivity.
  - vm_compute in He. injection He as <-. vm_compute. reflexivity.
  - apply (bool_decide_unpack _). vm_compute. exact I.
  - repeat constructor; try (vm_compute; reflexivity); intros Hi; vm_compute in Hi; try discriminate Hi; vm_compute; discriminate.
  - exists topics, data. split; [exact Hp|]. vm_compute in He. injection He as <-. exact Hu.
Defined.
