(* ===== verification/EthTx.v ===== *)
(** * EthTx: transactions of Ethereum (src/eth/core/types)

    The transactions that the node sends to the chains: the three kinds of
    transaction data, the signers, signing and the recovery of the sender with
    its cache, the binary and JSON forms, and the order in which the lists of a
    block are put into a trie.  Big integers that are nil are zero, which
    [copy] makes them.  RLP and the elliptic curve are interfaces; the ordering
    of transactions by price is not modelled.  The theorems are in EthTxSpec.v. *)

From Stdlib Require Import Ascii.
From stdpp Require Import gmap sorting.
From stdpp Require Import base list numbers strings.
From S2P Require Import Prelude Text.
Local Open Scope string_scope.
Local Open Scope list_scope.
Local Open Scope Z_scope.

(** ** Transaction data (legacy_tx.go, access_list_tx.go, dynamic_fee_tx.go) *)

Record AccessTuple := mkAccessTuple { TupleAddress : Address; StorageKeys : list Hash }.

Definition LegacyTxType : Z := 0.
Definition AccessListTxType : Z := 1.
Definition DynamicFeeTxType : Z := 2.

(** The fields that all kinds have, the signature last. *)
Record TxBody := mkBody {
  Nonce : uint64;
  Gas : uint64;
  To : option Address;
  Value : Z;
  Data : list Z;
  V : Z;
  R : Z;
  S : Z
}.

Inductive TxData :=
| LegacyTx (GasPrice : Z) (b : TxBody)
| AccessListTx (ChainID GasPrice : Z) (AccessList : list AccessTuple) (b : TxBody)
| DynamicFeeTx (ChainID GasTipCap GasFeeCap : Z) (AccessList : list AccessTuple) (b : TxBody).

Definition txType (t : TxData) : Z :=
  match t with LegacyTx _ _ => LegacyTxType | AccessListTx _ _ _ _ => AccessListTxType | DynamicFeeTx _ _ _ _ _ => DynamicFeeTxType end.

Definition body (t : TxData) : TxBody :=
  match t with LegacyTx _ b | AccessListTx _ _ _ b | DynamicFeeTx _ _ _ _ b => b end.

Definition gasPrice (t : TxData) : Z :=
  match t with LegacyTx p _ | AccessListTx _ p _ _ => p | DynamicFeeTx _ _ cap _ _ => cap end.
Definition gasTipCap (t : TxData) : Z :=
  match t with LegacyTx p _ | AccessListTx _ p _ _ => p | DynamicFeeTx _ tip _ _ _ => tip end.
Definition gasFeeCap (t : TxData) : Z := gasPrice t.
Definition accessList (t : TxData) : list AccessTuple :=
  match t with LegacyTx _ _ => [] | AccessListTx _ _ l _ | DynamicFeeTx _ _ _ l _ => l end.

Definition rawSignatureValues (t : TxData) : Z * Z * Z := (V (body t), R (body t), S (body t)).

Definition with_signature (b : TxBody) (v r s : Z) : TxBody := mkBody (Nonce b) (Gas b) (To b) (Value b) (Data b) v r s.

(** Only typed transactions take the chain of the signer. *)
Definition setSignatureValues (t : TxData) (chainID v r s : Z) : TxData :=
  match t with
  | LegacyTx p b => LegacyTx p (with_signature b v r s)
  | AccessListTx _ p l b => AccessListTx chainID p l (with_signature b v r s)
  | DynamicFeeTx _ tip cap l b => DynamicFeeTx chainID tip cap l (with_signature b v r s)
  end.

(** ** Big integers *)

Definition BitLen (x : Z) : Z := if x =? 0 then 0 else Z.log2 (Z.abs x) + 1.
Definition big_Uint64 (x : Z) : uint64 := wrap64 (Z.abs x).
Definition byte (x : Z) : Z := x mod 256.

(** [deriveChainId]; [Div] of big integers rounds down for the positive divisor. *)
Definition deriveChainId (v : Z) : Z :=
  if BitLen v <=? 64 then
    let v := big_Uint64 v in
    if (v =? 27) || (v =? 28) then 0 else u64_sub v 35 / 2
  else (v - 35) / 2.

Definition isProtectedV (v : Z) : bool :=
  if BitLen v <=? 8 then
    let v := big_Uint64 v in negb (v =? 27) && negb (v =? 28) && negb (v =? 1) && negb (v =? 0)
  else true.

Definition chainID (t : TxData) : Z :=
  match t with LegacyTx _ b => deriveChainId (V b) | AccessListTx c _ _ _ | DynamicFeeTx c _ _ _ _ => c end.

(** ** The elliptic curve and the digest *)

(** What is hashed: the lists that the signers encode, with the prefix byte of
    typed transactions, and the transaction itself. *)
Inductive Payload :=
| PFrontier (nonce : uint64) (gasPrice : Z) (gas : uint64) (to : option Address) (value : Z) (data : list Z)
| PEIP155 (nonce : uint64) (gasPrice : Z) (gas : uint64) (to : option Address) (value : Z) (data : list Z) (chainId : Z)
| PAccessList (chainId : Z) (nonce : uint64) (gasPrice : Z) (gas : uint64) (to : option Address) (value : Z) (data : list Z)
    (l : list AccessTuple)
| PDynamicFee (chainId : Z) (nonce : uint64) (gasTipCap gasFeeCap : Z) (gas : uint64) (to : option Address) (value : Z) (data : list Z)
    (l : list AccessTuple)
| PTransaction (t : TxData).

Class Secp256k1 := {
  PrivateKey : Type;
  (** [rlpHash] and [prefixedRlpHash] of a payload *)
  payload_hash : Payload -> Hash;
  Sign : Hash -> PrivateKey -> outcome (list Z);
  Ecrecover : Hash -> list Z -> outcome (list Z);
  ValidateSignatureValues : Z -> Z -> Z -> bool -> bool;
  (** [Keccak256(pub[1:])[12:]] *)
  pub_address : list Z -> Address
}.

Definition ErrInvalidSig : string := "invalid transaction v, r, s values".
Definition ErrUnexpectedProtection : string := "transaction type does not supported EIP-155 protected signatures".
Definition ErrTxTypeNotSupported : string := "transaction type not supported".
Definition ErrInvalidChainId : string := "invalid chain id for signer".
Definition ErrGasFeeCapTooLow : string := "fee cap less than base fee".
Definition errShortTypedTx : string := "typed transaction too short".
Definition errNotCached : string := "sender not cached".

Section Transactions.
Context `{Secp256k1}.

(** ** Signers (transaction_signing.go, ethclient/signer.go) *)

Inductive Signer :=
| FrontierSigner
| HomesteadSigner
| EIP155Signer (chainId : Z)
| eip2930Signer (chainId : Z)
| londonSigner (chainId : Z)
| senderFromServer (addr : Address) (blockhash : Hash).

Definition LatestSignerForChainID (chainId : option Z) : Signer :=
  match chainId with None => HomesteadSigner | Some c => londonSigner c end.

(** [ChainID]: nil signers set no chain. *)
Definition Signer_ChainID (s : Signer) : outcome (option Z) :=
  match s with
  | FrontierSigner | HomesteadSigner => Ok None
  | EIP155Signer c | eip2930Signer c | londonSigner c => Ok (Some c)
  | senderFromServer _ _ => Panic "can't sign with senderFromServer"
  end.

Definition Signer_Equal (s s2 : Signer) : bool :=
  match s, s2 with
  | FrontierSigner, FrontierSigner | HomesteadSigner, HomesteadSigner => true
  | EIP155Signer c, EIP155Signer c2 | eip2930Signer c, eip2930Signer c2 | londonSigner c, londonSigner c2 => c2 =? c
  | senderFromServer _ h, senderFromServer _ h2 => h2 =? h
  | _, _ => false
  end.

Definition frontier_hash (t : TxData) : Hash :=
  let b := body t in payload_hash (PFrontier (Nonce b) (gasPrice t) (Gas b) (To b) (Value b) (Data b)).
Definition eip155_hash (c : Z) (t : TxData) : Hash :=
  let b := body t in payload_hash (PEIP155 (Nonce b) (gasPrice t) (Gas b) (To b) (Value b) (Data b) c).
Definition eip2930_hash (c : Z) (t : TxData) : Hash :=
  let b := body t in
  if txType t =? LegacyTxType then eip155_hash c t
  else if txType t =? AccessListTxType then
    payload_hash (PAccessList c (Nonce b) (gasPrice t) (Gas b) (To b) (Value b) (Data b) (accessList t))
  else 0.
Definition london_hash (c : Z) (t : TxData) : Hash :=
  let b := body t in
  if txType t =? DynamicFeeTxType then
    payload_hash (PDynamicFee c (Nonce b) (gasTipCap t) (gasFeeCap t) (Gas b) (To b) (Value b) (Data b) (accessList t))
  else eip2930_hash c t.

Definition Signer_Hash (s : Signer) (t : TxData) : outcome Hash :=
  match s with
  | FrontierSigner | HomesteadSigner => Ok (frontier_hash t)
  | EIP155Signer c => Ok (eip155_hash c t)
  | eip2930Signer c => Ok (eip2930_hash c t)
  | londonSigner c => Ok (london_hash c t)
  | senderFromServer _ _ => Panic "can't sign with senderFromServer"
  end.

Definition SignatureLength : Z := 65.

Definition decodeSignature (sig : list Z) : outcome (Z * Z * Z) :=
  if negb (len sig =? SignatureLength) then Panic "wrong size for signature"
  else Ok (be_value (take 32 sig), be_value (take 32 (drop 32 sig)), byte (nth 64 sig 0 + 27)).

Definition recoverPlain (sighash : Hash) (r s vb : Z) (homestead : bool) : outcome Address :=
  if 8 <? BitLen vb then Err ErrInvalidSig
  else
    let v := byte (u64_sub (big_Uint64 vb) 27) in
    if negb (ValidateSignatureValues v r s homestead) then Err ErrInvalidSig
    else if (32 <? (BitLen r + 7) / 8) || (32 <? (BitLen s + 7) / 8) then Panic "slice bounds out of range"
    else
      pub ← Ecrecover sighash (be_bytes 32 (Z.abs r) ++ be_bytes 32 (Z.abs s) ++ [v]);
      match pub with
      | 4 :: _ => Ok (pub_address pub)
      | _ => Err "invalid public key"
      end.

Definition Protected (t : TxData) : bool := match t with LegacyTx _ b => isProtectedV (V b) | _ => true end.

Definition homestead_Sender (t : TxData) : outcome Address :=
  if negb (txType t =? LegacyTxType) then Err ErrTxTypeNotSupported
  else let '(v, r, s) := rawSignatureValues t in recoverPlain (frontier_hash t) r s v true.

Definition eip2930_Sender (c : Z) (t : TxData) : outcome Address :=
  let '(v, r, s) := rawSignatureValues t in
  if txType t =? LegacyTxType then
    if negb (Protected t) then homestead_Sender t
    else if negb (chainID t =? c) then Err ErrInvalidChainId
    else recoverPlain (eip2930_hash c t) r s (v - c * 2 - 8) true
  else if txType t =? AccessListTxType then
    if negb (chainID t =? c) then Err ErrInvalidChainId else recoverPlain (eip2930_hash c t) r s (v + 27) true
  else Err ErrTxTypeNotSupported.

Definition Signer_Sender (sg : Signer) (t : TxData) : outcome Address :=
  let '(v, r, s) := rawSignatureValues t in
  match sg with
  | FrontierSigner =>
      if negb (txType t =? LegacyTxType) then Err ErrTxTypeNotSupported else recoverPlain (frontier_hash t) r s v false
  | HomesteadSigner => homestead_Sender t
  | EIP155Signer c =>
      if negb (txType t =? LegacyTxType) then Err ErrTxTypeNotSupported
      else if negb (Protected t) then homestead_Sender t
      else if negb (chainID t =? c) then Err ErrInvalidChainId
      else recoverPlain (eip155_hash c t) r s (v - c * 2 - 8) true
  | eip2930Signer c => eip2930_Sender c t
  | londonSigner c =>
      if negb (txType t =? DynamicFeeTxType) then eip2930_Sender c t
      else if negb (chainID t =? c) then Err ErrInvalidChainId
      else recoverPlain (london_hash c t) r s (v + 27) true
  | senderFromServer addr _ => if addr =? 0 then Err errNotCached else Ok addr
  end.

Definition eip155_SignatureValues (c : Z) (t : TxData) (sig : list Z) : outcome (Z * Z * Z) :=
  if negb (txType t =? LegacyTxType) then Err ErrTxTypeNotSupported
  else
    '(r, s, v) ← decodeSignature sig;
    Ok (r, s, if c =? 0 then v else byte (nth 64 sig 0 + 35) + c * 2).

(** The values of a typed transaction: the recovery id as it is. *)
Definition typed_SignatureValues (c txChain : Z) (sig : list Z) : outcome (Z * Z * Z) :=
  if negb (txChain =? 0) && negb (txChain =? c) then Err ErrInvalidChainId
  else '(r, s, _) ← decodeSignature sig; Ok (r, s, nth 64 sig 0).

Definition eip2930_SignatureValues (c : Z) (t : TxData) (sig : list Z) : outcome (Z * Z * Z) :=
  match t with
  | LegacyTx _ _ => eip155_SignatureValues c t sig
  | AccessListTx c' _ _ _ => typed_SignatureValues c c' sig
  | DynamicFeeTx _ _ _ _ _ => Err ErrTxTypeNotSupported
  end.

(** [SignatureValues]: r, s and v. *)
Definition SignatureValues (sg : Signer) (t : TxData) (sig : list Z) : outcome (Z * Z * Z) :=
  match sg with
  | FrontierSigner | HomesteadSigner =>
      if negb (txType t =? LegacyTxType) then Err ErrTxTypeNotSupported else decodeSignature sig
  | EIP155Signer c => eip155_SignatureValues c t sig
  | eip2930Signer c => eip2930_SignatureValues c t sig
  | londonSigner c =>
      match t with DynamicFeeTx c' _ _ _ _ => typed_SignatureValues c c' sig | _ => eip2930_SignatureValues c t sig end
  | senderFromServer _ _ => Panic "can't sign with senderFromServer"
  end.

(** ** Transactions (transaction.go) *)

(** A transaction with the sender cache. *)
Record Transaction := mkTx { inner : TxData; from : option (Signer * Address) }.

Definition NewTx (t : TxData) : Transaction := mkTx t None.

Definition WithSignature (tx : Transaction) (sg : Signer) (sig : list Z) : outcome Transaction :=
  '(r, s, v) ← SignatureValues sg (inner tx) sig;
  c ← Signer_ChainID sg;
  Ok (mkTx (setSignatureValues (inner tx) (default 0 c) v r s) None).

Definition SignTx (tx : Transaction) (sg : Signer) (prv : PrivateKey) : outcome Transaction :=
  h ← Signer_Hash sg (inner tx);
  sig ← Sign h prv;
  WithSignature tx sg sig.

Definition SignNewTx (prv : PrivateKey) (sg : Signer) (t : TxData) : outcome Transaction := SignTx (NewTx t) sg prv.

(** [Sender]: the cache is used when its signer equals the one asked for. *)
Definition Sender (sg : Signer) (tx : Transaction) : outcome Address * Transaction :=
  let compute :=
    match Signer_Sender sg (inner tx) with
    | Ok addr => (Ok addr, mkTx (inner tx) (Some (sg, addr)))
    | e => (e, tx)
    end in
  match from tx with
  | Some (sg0, addr) => if Signer_Equal sg0 sg then (Ok addr, tx) else compute
  | None => compute
  end.

Definition setSenderFromServer (tx : Transaction) (addr : Address) (block : Hash) : Transaction :=
  (Sender (senderFromServer addr block) tx).2.

Definition tx_Hash (tx : Transaction) : Hash := payload_hash (PTransaction (inner tx)).

Definition Cost (t : TxData) : Z := gasPrice t * Gas (body t) + Value (body t).

(** [EffectiveGasTip]: the tip and whether the fee cap is below the base fee. *)
Definition EffectiveGasTip (t : TxData) (baseFee : option Z) : Z * option string :=
  match baseFee with
  | None => (gasTipCap t, None)
  | Some base =>
      (Z.min (gasTipCap t) (gasFeeCap t - base), if gasFeeCap t <? base then Some ErrGasFeeCapTooLow else None)
  end.

Definition TxDifference (a b : list Transaction) : list Transaction :=
  filter (fun tx => tx_Hash tx ∉ tx_Hash <$> b) a.

Record Message := mkMessage {
  msg_to : option Address;
  msg_from : Address;
  msg_nonce : uint64;
  msg_amount : Z;
  msg_gasLimit : uint64;
  msg_gasPrice : Z;
  msg_gasFeeCap : Z;
  msg_gasTipCap : Z;
  msg_data : list Z;
  msg_accessList : list AccessTuple;
  msg_isFake : bool
}.

(** [AsMessage]: the price is the effective one when there is a base fee. *)
Definition message_price (t : TxData) (baseFee : option Z) : Z :=
  match baseFee with
  | None => gasPrice t
  | Some base => Z.min (gasTipCap t + base) (gasFeeCap t)
  end.

Definition AsMessage (tx : Transaction) (sg : Signer) (baseFee : option Z) : outcome Message * Transaction :=
  let t := inner tx in
  let b := body t in
  let (a, tx) := Sender sg tx in
  (a ← a;
   Ok (mkMessage (To b) a (Nonce b) (Value b) (Gas b) (message_price t baseFee) (gasFeeCap t) (gasTipCap t) (Data b)
         (accessList t) false), tx).

Definition sanityCheckSignature (v r s : Z) (maybeProtected : bool) : outcome unit :=
  if isProtectedV v && negb maybeProtected then Err ErrUnexpectedProtection
  else
    let plainV :=
      if isProtectedV v then byte (u64_sub (u64_sub (big_Uint64 v) 35) (u64_mul 2 (big_Uint64 (deriveChainId v))))
      else if maybeProtected then byte (u64_sub (big_Uint64 v) 27)
      else byte (big_Uint64 v) in
    if ValidateSignatureValues plainV r s false then Ok tt else Err ErrInvalidSig.

(** ** JSON (transaction_marshalling.go) *)

Record txJSON := mkTxJSON {
  j_Type : uint64;
  j_Nonce : option uint64;
  j_GasPrice : option Z;
  j_MaxPriorityFeePerGas : option Z;
  j_MaxFeePerGas : option Z;
  j_Gas : option uint64;
  j_Value : option Z;
  j_Data : option (list Z);
  j_V : option Z;
  j_R : option Z;
  j_S : option Z;
  j_To : option Address;
  j_ChainID : option Z;
  j_AccessList : option (list AccessTuple);
  j_Hash : Hash
}.

Definition MarshalJSON (tx : Transaction) : txJSON :=
  let t := inner tx in
  let b := body t in
  let legacy := txType t =? LegacyTxType in
  let dynamic := txType t =? DynamicFeeTxType in
  mkTxJSON (txType t) (Some (Nonce b)) (if dynamic then None else Some (gasPrice t))
    (if dynamic then Some (gasTipCap t) else None) (if dynamic then Some (gasFeeCap t) else None)
    (Some (Gas b)) (Some (Value b)) (Some (Data b)) (Some (V b)) (Some (R b)) (Some (S b)) (To b)
    (if legacy then None else Some (chainID t)) (if legacy then None else Some (accessList t)) (tx_Hash tx).

Definition required_in {A} (place name : string) (o : option A) : outcome A :=
  match o with Some a => Ok a | None => Err ("missing required field '" +:+ name +:+ "' " +:+ place) end.
Definition required {A} : string -> option A -> outcome A := required_in "in transaction".

(** The signature of decoded JSON is checked when it is there. *)
Definition check_signature (b : TxBody) (maybeProtected : bool) : outcome unit :=
  if negb (V b =? 0) || negb (R b =? 0) || negb (S b =? 0) then sanityCheckSignature (V b) (R b) (S b) maybeProtected else Ok tt.

Definition json_signature (dec : txJSON) (nonce gas : uint64) (value : Z) (data : list Z) (maybeProtected : bool) : outcome TxBody :=
  v ← required "v" (j_V dec);
  r ← required "r" (j_R dec);
  s ← required "s" (j_S dec);
  let b := mkBody nonce gas (j_To dec) value data v r s in
  _ ← check_signature b maybeProtected;
  Ok b.

Definition UnmarshalJSON (dec : txJSON) : outcome Transaction :=
  if j_Type dec =? LegacyTxType then
    nonce ← required "nonce" (j_Nonce dec);
    price ← required "gasPrice" (j_GasPrice dec);
    gas ← required "gas" (j_Gas dec);
    value ← required "value" (j_Value dec);
    data ← required "input" (j_Data dec);
    b ← json_signature dec nonce gas value data true;
    Ok (NewTx (LegacyTx price b))
  else if j_Type dec =? AccessListTxType then
    c ← required "chainId" (j_ChainID dec);
    nonce ← required "nonce" (j_Nonce dec);
    price ← required "gasPrice" (j_GasPrice dec);
    gas ← required "gas" (j_Gas dec);
    value ← required "value" (j_Value dec);
    data ← required "input" (j_Data dec);
    b ← json_signature dec nonce gas value data false;
    Ok (NewTx (AccessListTx c price (default [] (j_AccessList dec)) b))
  else if j_Type dec =? DynamicFeeTxType then
    c ← required "chainId" (j_ChainID dec);
    nonce ← required "nonce" (j_Nonce dec);
    tip ← required_in "for txdata" "maxPriorityFeePerGas" (j_MaxPriorityFeePerGas dec);
    cap ← required_in "for txdata" "maxFeePerGas" (j_MaxFeePerGas dec);
    gas ← required_in "for txdata" "gas" (j_Gas dec);
    value ← required "value" (j_Value dec);
    data ← required "input" (j_Data dec);
    b ← json_signature dec nonce gas value data false;
    Ok (NewTx (DynamicFeeTx c tip cap (default [] (j_AccessList dec)) b))
  else Err ErrTxTypeNotSupported.

End Transactions.

(** ** The binary form *)

(** RLP of transaction data: a list, whose first byte is at least 0xc0. *)
Class TxRlp := {
  encode_data : TxData -> list Z;
  decode_legacy : list Z -> outcome TxData;
  decode_access_list : list Z -> outcome TxData;
  decode_dynamic_fee : list Z -> outcome TxData
}.

Section Binary.
Context `{TxRlp}.

Definition encodeTyped (t : TxData) : list Z := txType t :: encode_data t.

Definition MarshalBinary (t : TxData) : list Z := if txType t =? LegacyTxType then encode_data t else encodeTyped t.

Definition decodeTyped (b : list Z) : outcome TxData :=
  match b with
  | [] | [_] => Err errShortTypedTx
  | ty :: rest =>
      if ty =? AccessListTxType then decode_access_list rest
      else if ty =? DynamicFeeTxType then decode_dynamic_fee rest
      else Err ErrTxTypeNotSupported
  end.

Definition UnmarshalBinary (b : list Z) : outcome TxData :=
  match b with
  | first :: _ => if 127 <? first then decode_legacy b else decodeTyped b
  | [] => decodeTyped b
  end.

End Binary.

(** ** Lists in tries (hashing.go, utils.go) *)

(** The RLP of a number: a byte, or the number of its bytes and the bytes. *)
Definition AppendUint64 (i : uint64) : list Z :=
  if i =? 0 then [128]
  else if i <? 128 then [i]
  else if i <? 2 ^ 8 then 129 :: be_bytes 1 i
  else if i <? 2 ^ 16 then 130 :: be_bytes 2 i
  else if i <? 2 ^ 24 then 131 :: be_bytes 3 i
  else if i <? 2 ^ 32 then 132 :: be_bytes 4 i
  else if i <? 2 ^ 40 then 133 :: be_bytes 5 i
  else if i <? 2 ^ 48 then 134 :: be_bytes 6 i
  else if i <? 2 ^ 56 then 135 :: be_bytes 7 i
  else 136 :: be_bytes 8 i.

(** The indices in the order of [DeriveSha]. *)
Definition derive_order (n : nat) : list nat :=
  seq 1 (Nat.min n 128 - 1) ++ (if Nat.ltb 0 n then [0%nat] else []) ++ seq 128 (n - 128).

(** The updates of the trie: the encoded indices with the encoded entries. *)
Definition DeriveSha (entries : list (list Z)) : list (list Z * list Z) :=
  (fun i => (AppendUint64 (Z.of_nat i), nth i entries [])) <$> derive_order (length entries).
