(* ===== verification/EthTxSpec.v ===== *)
(** * EthTxSpec: transactions of Ethereum

    The sender of a signed transaction is its signer; a transaction signed for a
    chain is accepted for no other chain; the cache of the sender does not change
    the result; the binary and the JSON form are read back; and the indices of a
    list go into the trie in the order of their encodings. *)

From Stdlib Require Import Ascii.
From stdpp Require Import gmap sorting.
From stdpp Require Import base list numbers strings.
From S2P Require Import Prelude Text EthTx.
Local Open Scope string_scope.
Local Open Scope list_scope.
Local Open Scope Z_scope.

(** ** Numbers *)

Lemma BitLen_bound x n : 0 <= n -> 0 <= x < 2 ^ n -> BitLen x <= n.
Proof.
  intros Hn Hx. unfold BitLen. destruct (Z.eqb_spec x 0); [done|]. rewrite Z.abs_eq by lia.
  assert (Z.log2 x < n) by (apply Z.log2_lt_pow2; lia). lia.
Qed.

Lemma BitLen_above x n : 0 <= n -> 0 <= x -> n < BitLen x -> 2 ^ n <= x.
Proof.
  intros Hn Hx Hb. destruct (Z.le_gt_cases (2 ^ n) x) as [|Hlt]; [done|]. pose proof (BitLen_bound x n Hn). lia.
Qed.

Lemma BitLen_small x n : 0 <= n -> 0 <= x -> BitLen x <= n -> x < 2 ^ n.
Proof.
  intros Hn Hx. unfold BitLen. destruct (Z.eqb_spec x 0) as [->|]; [intros _; by apply Z.pow_pos_nonneg|].
  rewrite Z.abs_eq by lia. intros Hb. apply Z.log2_lt_pow2; lia.
Qed.

Lemma big_Uint64_id x : 0 <= x < 2 ^ 64 -> big_Uint64 x = x.
Proof. intros Hx. unfold big_Uint64. rewrite Z.abs_eq by lia. apply wrap64_small. unfold is_u64, two64. lia. Qed.

Lemma be_bytes_of_value l : Forall (fun b => 0 <= b < 256) l -> be_bytes (length l) (be_value l) = l.
Proof.
  induction l as [|b l IH] using rev_ind; [done|]. intros [Hl Hb]%Forall_app. apply Forall_inv in Hb.
  rewrite be_value_snoc, length_app, Nat.add_comm. cbn [length Nat.add be_bytes]. rewrite shiftr_8, land_255.
  rewrite Z.div_add_l, (Z.div_small b), Z.add_0_r by lia. rewrite IH by done. f_equal. f_equal.
  rewrite Z.add_comm, Z.mod_add by lia. by apply Z.mod_small.
Qed.

(** The values of v that signing makes. *)
Section Protection.
Context (c b : Z) (Hc : 0 < c) (Hb : b = 0 \/ b = 1).

Lemma protected_derived : deriveChainId (35 + b + c * 2) = c.
Proof using Hc Hb.
  unfold deriveChainId. assert (Hdiv : (35 + b + c * 2 - 35) / 2 = c).
  { replace (35 + b + c * 2 - 35) with (b + c * 2) by lia. rewrite Z.div_add by lia. destruct Hb as [-> | ->]; done. }
  destruct (Z.leb_spec (BitLen (35 + b + c * 2)) 64) as [Hle|]; [|done].
  assert (Hs : 35 + b + c * 2 < 2 ^ 64) by (apply BitLen_small; lia). rewrite big_Uint64_id by lia.
  rewrite (proj2 (Z.eqb_neq _ 27)), (proj2 (Z.eqb_neq _ 28)) by lia. cbn [orb].
  unfold u64_sub. rewrite wrap64_small by (unfold is_u64, two64; lia). done.
Qed.

Lemma protected_V : isProtectedV (35 + b + c * 2) = true.
Proof using Hc Hb.
  unfold isProtectedV. destruct (Z.leb_spec (BitLen (35 + b + c * 2)) 8) as [Hle|]; [|done].
  assert (Hs : 35 + b + c * 2 < 2 ^ 8) by (apply BitLen_small; lia). rewrite big_Uint64_id by lia.
  rewrite !(proj2 (Z.eqb_neq _ _)) by lia. done.
Qed.

End Protection.

(** Comparisons of transaction types. *)
Ltac tx_types :=
  change (LegacyTxType =? LegacyTxType) with true; change (AccessListTxType =? LegacyTxType) with false;
  change (AccessListTxType =? AccessListTxType) with true; change (DynamicFeeTxType =? DynamicFeeTxType) with true;
  change (LegacyTxType =? DynamicFeeTxType) with false; change (AccessListTxType =? DynamicFeeTxType) with false;
  change (DynamicFeeTxType =? LegacyTxType) with false; change (DynamicFeeTxType =? AccessListTxType) with false;
  cbn [negb].

(** ** The curve *)

Class Secp256k1Laws `{Secp256k1} := {
  public_key : PrivateKey -> list Z;
  public_key_form k : exists l, public_key k = 4 :: l;
  Sign_ok h k sig : Sign h k = Ok sig ->
    len sig = 65 /\ Forall (fun b => 0 <= b < 256) sig /\ (nth 64 sig 0 = 0 \/ nth 64 sig 0 = 1) /\
    ValidateSignatureValues (nth 64 sig 0) (be_value (take 32 sig)) (be_value (take 32 (drop 32 sig))) true = true /\
    Ecrecover h sig = Ok (public_key k);
  Validate_id v r s homestead : ValidateSignatureValues v r s homestead = true -> v = 0 \/ v = 1;
  Validate_frontier v r s : ValidateSignatureValues v r s true = true -> ValidateSignatureValues v r s false = true
}.

Section Signing.
Context `{Secp256k1Laws}.

Definition key_address (k : PrivateKey) : Address := pub_address (public_key k).

Lemma sig_split (sig : list Z) : len sig = 65 -> sig = take 32 sig ++ take 32 (drop 32 sig) ++ [nth 64 sig 0].
Proof.
  intros Hl. unfold len in Hl. rewrite <- (take_drop 32 sig) at 1. f_equal. rewrite <- (take_drop 32 (drop 32 sig)) at 1. f_equal.
  rewrite drop_drop. cbn [Nat.add]. destruct (drop 64 sig) as [|x l] eqn:E.
  { apply (f_equal length) in E. rewrite length_drop in E. cbn in E. lia. }
  assert (Hlen : length (drop 64 sig) = 1%nat) by (rewrite length_drop; lia). rewrite E in Hlen. destruct l; [|done].
  f_equal. assert (Hx : sig !! 64%nat = Some x) by (replace 64%nat with (64 + 0)%nat by lia; rewrite <- lookup_drop, E; done).
  symmetry. by apply nth_lookup_Some.
Qed.

(** Recovery from the values of a signature. *)
Lemma recover_signed h k sig homestead : Sign h k = Ok sig ->
  recoverPlain h (be_value (take 32 sig)) (be_value (take 32 (drop 32 sig))) (nth 64 sig 0 + 27) homestead = Ok (key_address k).
Proof.
  intros Hs. destruct (Sign_ok h k sig Hs) as (Hlen & Hbytes & Hv & Hval & Hrec).
  unfold recoverPlain. rewrite (proj2 (Z.ltb_ge 8 _)) by (destruct Hv as [-> | ->]; by vm_compute).
  assert (byte (u64_sub (big_Uint64 (nth 64 sig 0 + 27)) 27) = nth 64 sig 0) as -> by (destruct Hv as [-> | ->]; by vm_compute).
  assert (Hval' : ValidateSignatureValues (nth 64 sig 0) (be_value (take 32 sig)) (be_value (take 32 (drop 32 sig))) homestead = true)
    by (destruct homestead; [done|by apply Validate_frontier]).
  rewrite Hval'. cbn [negb].
  assert (Hr : Forall (fun b => 0 <= b < 256) (take 32 sig) /\ length (take 32 sig) = 32%nat).
  { split; [by apply Forall_take|]. rewrite length_take. unfold len in Hlen. lia. }
  assert (Hs' : Forall (fun b => 0 <= b < 256) (take 32 (drop 32 sig)) /\ length (take 32 (drop 32 sig)) = 32%nat).
  { split; [by apply Forall_take, Forall_drop|]. rewrite length_take, length_drop. unfold len in Hlen. lia. }
  destruct Hr as [Hr Hrl], Hs' as [Hs' Hsl].
  pose proof (be_value_bound _ Hr) as Hrb. pose proof (be_value_bound _ Hs') as Hsb. unfold len in Hrb, Hsb. rewrite Hrl in Hrb. rewrite Hsl in Hsb.
  change (256 ^ Z.of_nat 32) with (2 ^ 256) in Hrb, Hsb.
  assert (Hbits : forall x, 0 <= x < 2 ^ 256 -> 32 <? (BitLen x + 7) / 8 = false).
  { intros x Hx. apply Z.ltb_ge. pose proof (BitLen_bound x 256 ltac:(lia) Hx) as Hbl. change 32 with (263 / 8). apply Z.div_le_mono; lia. }
  rewrite !Hbits by done. cbn [orb]. rewrite !Z.abs_eq by lia.
  pose proof (be_bytes_of_value _ Hr) as Hbr. pose proof (be_bytes_of_value _ Hs') as Hbs. rewrite Hrl in Hbr. rewrite Hsl in Hbs.
  rewrite Hbr, Hbs, <- sig_split, Hrec by done. cbn [mbind outcome_bind]. destruct (public_key_form k) as [l Hl]. unfold key_address.
  rewrite Hl. done.
Qed.

(** Signers for a chain that is not zero, and the transactions they sign: typed
    ones must be for the chain or for none. *)
Definition for_chain (sg : Signer) (c : Z) (t : TxData) : Prop :=
  0 < c /\
  match sg, t with
  | (EIP155Signer c' | eip2930Signer c' | londonSigner c'), LegacyTx _ _ => c' = c
  | (eip2930Signer c' | londonSigner c'), AccessListTx tc _ _ _ | londonSigner c', DynamicFeeTx tc _ _ _ _ =>
      c' = c /\ (tc = 0 \/ tc = c)
  | _, _ => False
  end.

(** The transaction with the signature, and what is recovered from it. *)
Definition signed (t : TxData) (c : Z) (sig : list Z) : TxData :=
  setSignatureValues t c (if txType t =? LegacyTxType then 35 + nth 64 sig 0 + c * 2 else nth 64 sig 0)
    (be_value (take 32 sig)) (be_value (take 32 (drop 32 sig))).

Lemma decode_ok sig : len sig = 65 -> decodeSignature sig =
  Ok (be_value (take 32 sig), be_value (take 32 (drop 32 sig)), byte (nth 64 sig 0 + 27)).
Proof. intros Hl. unfold decodeSignature, SignatureLength. by rewrite Hl. Qed.

Lemma SignTx_signed sg c t k h sig : for_chain sg c t -> Signer_Hash sg t = Ok h -> Sign h k = Ok sig ->
  SignTx (NewTx t) sg k = Ok (mkTx (signed t c sig) None).
Proof.
  intros [Hc Hf] Hh Hs. destruct (Sign_ok h k sig Hs) as (Hlen & _ & Hv & _).
  unfold SignTx. cbn [NewTx inner]. rewrite Hh. cbn [mbind outcome_bind]. rewrite Hs. cbn [mbind outcome_bind].
  unfold WithSignature. change (inner (NewTx t)) with t.
  assert (Hb : byte (nth 64 sig 0 + 35) = 35 + nth 64 sig 0) by (destruct Hv as [-> | ->]; done).
  assert (Hl : forall p b, eip155_SignatureValues c (LegacyTx p b) sig =
    Ok (be_value (take 32 sig), be_value (take 32 (drop 32 sig)), 35 + nth 64 sig 0 + c * 2)).
  { intros p b. unfold eip155_SignatureValues. cbn [txType]. change (LegacyTxType =? LegacyTxType) with true. cbn [negb].
    rewrite decode_ok by done. cbn [mbind outcome_bind]. rewrite (proj2 (Z.eqb_neq c 0)) by lia. by rewrite Hb. }
  assert (Ht : forall tc, tc = 0 \/ tc = c -> typed_SignatureValues c tc sig =
    Ok (be_value (take 32 sig), be_value (take 32 (drop 32 sig)), nth 64 sig 0)).
  { intros tc Htc. unfold typed_SignatureValues. rewrite decode_ok by done.
    destruct Htc as [-> | ->]; rewrite ?Z.eqb_refl, ?andb_false_r; done. }
  destruct sg as [| |c'|c'|c'|]; destruct t as [p b|tc p l b|tc tip cap l b]; try done;
    (subst c' || destruct Hf as [-> Htc]); cbn [SignatureValues eip2930_SignatureValues]; rewrite ?Hl, ?(Ht tc Htc); done.
Qed.

(** (sender). Whoever signs a transaction for a chain that is not zero, with a
    signer that supports its kind, is its sender. *)
Theorem sign_sender sg c t k h sig : for_chain sg c t -> Signer_Hash sg t = Ok h -> Sign h k = Ok sig ->
  exists tx, SignTx (NewTx t) sg k = Ok tx /\ Signer_Sender sg (inner tx) = Ok (key_address k).
Proof.
  intros Hf Hh Hs. eexists. split; [by eapply SignTx_signed|]. cbn [inner].
  destruct (Sign_ok h k sig Hs) as (_ & _ & Hv & _). pose proof (recover_signed h k sig true Hs) as Hr. destruct Hf as [Hc Hf].
  assert (Hplain : 35 + nth 64 sig 0 + c * 2 - c * 2 - 8 = nth 64 sig 0 + 27) by lia.
  destruct sg as [| |c'|c'|c'|]; destruct t as [p b|tc p l b|tc tip cap l b]; try done;
    (subst c' || destruct Hf as [-> Htc]); injection Hh as <-.
  all: cbn [signed setSignatureValues txType Signer_Sender rawSignatureValues body with_signature V R S chainID Protected eip2930_Sender].
  all: tx_types.
  all: rewrite ?protected_V, ?protected_derived, ?Z.eqb_refl by done; cbn [negb]; rewrite ?Hplain; exact Hr.
Qed.

(** Signers that derive the sender from the signature. *)
Definition derives (sg : Signer) : bool := match sg with senderFromServer _ _ => false | _ => true end.

(** A protected v is no recovery id of older signers. *)
Lemma protected_refused h r s c b homestead : 0 < c -> b = 0 \/ b = 1 ->
  recoverPlain h r s (35 + b + c * 2) homestead = Err ErrInvalidSig.
Proof.
  intros Hc Hb. unfold recoverPlain. destruct (Z.ltb_spec 8 (BitLen (35 + b + c * 2))) as [|Hle]; [done|].
  assert (Hs : 35 + b + c * 2 < 2 ^ 8) by (apply BitLen_small; lia). rewrite big_Uint64_id by lia.
  unfold u64_sub. rewrite wrap64_small by (unfold is_u64, two64; lia). unfold byte. rewrite Z.mod_small by lia.
  destruct (ValidateSignatureValues (35 + b + c * 2 - 27) r s homestead) eqn:Hval; [|done].
  apply Validate_id in Hval. lia.
Qed.

(** C31 (replay protection). A transaction that was signed for a chain that is
    not zero has its signer as the sender, and no signer for another chain, nor
    one of the time before chains were part of signatures, accepts it. *)
Theorem replay_protected sg c t k h sig : for_chain sg c t -> Signer_Hash sg t = Ok h -> Sign h k = Ok sig ->
  exists tx, SignTx (NewTx t) sg k = Ok tx /\ Signer_Sender sg (inner tx) = Ok (key_address k) /\
    forall sg', derives sg' = true -> Signer_ChainID sg' <> Ok (Some c) -> exists e, Signer_Sender sg' (inner tx) = Err e.
Proof.
  intros Hf Hh Hs. destruct (sign_sender sg c t k h sig Hf Hh Hs) as (tx & Htx & Hsender). exists tx.
  split; [done|]. split; [done|]. rewrite (SignTx_signed sg c t k h sig Hf Hh Hs) in Htx. injection Htx as <-. cbn [inner].
  destruct (Sign_ok h k sig Hs) as (_ & _ & Hv & _). destruct Hf as [Hc Hf]. intros sg' Hd Hother.
  assert (Hne : forall c', Signer_ChainID sg' = Ok (Some c') -> c =? c' = false).
  { intros c' Hc'. apply Z.eqb_neq. congruence. }
  destruct t as [p b|tc p l b|tc tip cap l b]; destruct sg' as [| |c'|c'|c'|]; try done;
    unfold Signer_Sender, eip2930_Sender, homestead_Sender;
    cbn [signed setSignatureValues txType rawSignatureValues body with_signature V R S chainID Protected];
    tx_types;
    rewrite ?protected_V, ?protected_derived, ?protected_refused, ?(Hne c' eq_refl) by done; by eexists.
Qed.

End Signing.

(** A curve with two keys, to run the theorem on. *)
Definition demo_sign (k : bool) : list Z := be_bytes 32 (if k then 1 else 2) ++ be_bytes 32 1 ++ [0].

Definition demo_curve : Secp256k1 := {|
  PrivateKey := bool;
  payload_hash _ := 7;
  Sign _ k := Ok (demo_sign k);
  Ecrecover _ sig := Ok [4; nth 31 sig 0];
  ValidateSignatureValues v r s _ := ((v =? 0) || (v =? 1)) && (0 <? r) && (0 <? s);
  pub_address pub := nth 1 pub 0
|}.

Definition demo_curve_laws : @Secp256k1Laws demo_curve.
Proof.
  refine {| public_key := (fun k : bool => [4; if k then 1 else 2]) : @PrivateKey demo_curve -> list Z |}.
  - intros k. by eexists.
  - intros h [] sig [= <-]; (split; [done|]; split; [apply Forall_app; split; [apply be_bytes_byte|]; apply Forall_app; split;
      [apply be_bytes_byte|repeat constructor; lia]|]; split; [by left|]; by vm_compute).
  - intros v r s hs Hv. cbn in Hv. apply andb_true_iff in Hv as [Hv _]. apply andb_true_iff in Hv as [Hv _].
    apply orb_true_iff in Hv as [Hv%Z.eqb_eq|Hv%Z.eqb_eq]; [by left|by right].
  - intros v r s Hv. exact Hv.
Defined.

Definition demo_tx : TxData := AccessListTx 0 5 [] (mkBody 1 21000 (Some 9) 100 [] 0 0 0).

(** A transaction signed for chain 366. *)
Example replay_protected_witness : exists tx,
  @SignTx demo_curve (NewTx demo_tx) (eip2930Signer 366) true = Ok tx /\
  @Signer_Sender demo_curve (eip2930Signer 366) (inner tx) = Ok 1 /\
  forall sg', derives sg' = true -> Signer_ChainID sg' <> Ok (Some 366) -> exists e, @Signer_Sender demo_curve sg' (inner tx) = Err e.
Proof.
  apply (@replay_protected demo_curve demo_curve_laws (eip2930Signer 366) 366 demo_tx true 7 (demo_sign true));
    [|reflexivity|reflexivity].
  split; [lia|]. split; [reflexivity|by left].
Defined.

Section Forms.
Context `{Secp256k1Laws}.

(** ** The cache *)

(** The cache of a signer that derives the sender holds what it derives. *)
Definition cache_ok (tx : Transaction) : Prop :=
  match from tx with
  | Some (sg, a) => derives sg = true -> Signer_Sender sg (inner tx) = Ok a
  | None => True
  end.

Lemma equal_sender sg sg' t : Signer_Equal sg sg' = true -> derives sg' = true -> derives sg = true /\ Signer_Sender sg t = Signer_Sender sg' t.
Proof.
  destruct sg, sg'; cbn [Signer_Equal derives]; intros He Hd; try done; try (apply Z.eqb_eq in He; by subst).
Qed.

(** (cache). Along any sequence of requests for the sender, those that remember
    the answer of a server included, a signer that derives the sender gives what
    it derives without the cache. *)
Theorem sender_cached sg tx : cache_ok tx ->
  cache_ok (Sender sg tx).2 /\ inner (Sender sg tx).2 = inner tx /\
  (derives sg = true -> (Sender sg tx).1 = Signer_Sender sg (inner tx)).
Proof.
  intros Hok. assert (Hcompute : forall r : outcome Address * Transaction,
    r = match Signer_Sender sg (inner tx) with Ok addr => (Ok addr, mkTx (inner tx) (Some (sg, addr))) | e => (e, tx) end ->
    cache_ok r.2 /\ inner r.2 = inner tx /\ r.1 = Signer_Sender sg (inner tx)).
  { intros r ->. destruct (Signer_Sender sg (inner tx)) eqn:E; (split; [first [exact Hok | intros _; exact E]|done]). }
  unfold Sender. destruct (from tx) as [[sg0 a]|] eqn:Hf; [|destruct (Hcompute _ eq_refl) as (? & ? & ?); by repeat split].
  destruct (Signer_Equal sg0 sg) eqn:He; [|destruct (Hcompute _ eq_refl) as (? & ? & ?); by repeat split].
  split; [done|]. split; [done|]. intros Hd. destruct (equal_sender sg0 sg (inner tx) He Hd) as [Hd0 <-]. cbn [fst].
  unfold cache_ok in Hok. rewrite Hf in Hok. symmetry. by apply Hok.
Qed.

(** (messages). When the fee cap covers the base fee, a message pays the base fee
    and the effective tip, and never more than the fee cap. *)
Theorem message_fee t base tip : EffectiveGasTip t (Some base) = (tip, None) ->
  message_price t (Some base) = base + tip /\ message_price t (Some base) <= gasFeeCap t.
Proof.
  unfold EffectiveGasTip, message_price. destruct (Z.ltb_spec (gasFeeCap t) base); [done|]. intros [= <-]. lia.
Qed.

(** ** JSON *)

(** (JSON). A transaction whose signature passes the check, or that has none, is
    read back from its JSON form. *)
Theorem json_roundtrip t : check_signature (body t) (txType t =? LegacyTxType) = Ok tt ->
  UnmarshalJSON (MarshalJSON (NewTx t)) = Ok (NewTx t).
Proof.
  intros Hc. unfold UnmarshalJSON, MarshalJSON, NewTx. cbn [inner].
  destruct t as [p b|tc p l b|tc tip cap l b]; destruct b as [n g to v d sv sr ss]; cbn [txType body] in Hc |- *;
    first [change (check_signature (mkBody n g to v d sv sr ss) true = Ok tt) in Hc
          | change (check_signature (mkBody n g to v d sv sr ss) false = Ok tt) in Hc];
    tx_types; cbn [j_Type]; tx_types;
    cbn [mbind outcome_bind required required_in j_Nonce j_GasPrice j_MaxPriorityFeePerGas j_MaxFeePerGas j_Gas j_Value j_Data
         j_ChainID j_AccessList Nonce Gas To Value Data V R S];
    unfold json_signature; cbn [mbind outcome_bind required required_in j_V j_R j_S j_To]; rewrite Hc; done.
Qed.

End Forms.

(** ** The binary form *)

(** What RLP promises: data is a list, and lists are read back. *)
Class TxRlpLaws `{TxRlp} := {
  encode_data_list t : exists b l, encode_data t = b :: l /\ 192 <= b < 256;
  decode_legacy_encode p b : decode_legacy (encode_data (LegacyTx p b)) = Ok (LegacyTx p b);
  decode_access_list_encode c p l b : decode_access_list (encode_data (AccessListTx c p l b)) = Ok (AccessListTx c p l b);
  decode_dynamic_fee_encode c tip cap l b :
    decode_dynamic_fee (encode_data (DynamicFeeTx c tip cap l b)) = Ok (DynamicFeeTx c tip cap l b)
}.

Section BinaryForm.
Context `{TxRlpLaws}.

(** (binary form). Every transaction is read back from its canonical encoding:
    the first byte tells the lists of legacy transactions from the types. *)
Theorem binary_roundtrip t : UnmarshalBinary (MarshalBinary t) = Ok t.
Proof.
  destruct (encode_data_list t) as (x & l & He & Hx). unfold MarshalBinary.
  destruct t as [p b|c p a b|c tip cap a b]; cbn [txType]; tx_types.
  - rewrite He. unfold UnmarshalBinary. rewrite (proj2 (Z.ltb_lt 127 x)) by lia. rewrite <- He. apply decode_legacy_encode.
  - unfold encodeTyped. cbn [txType UnmarshalBinary]. change (127 <? AccessListTxType) with false. rewrite He. cbn [decodeTyped].
    tx_types. rewrite <- He. apply decode_access_list_encode.
  - unfold encodeTyped. cbn [txType UnmarshalBinary]. change (127 <? DynamicFeeTxType) with false. rewrite He. cbn [decodeTyped].
    tx_types. rewrite <- He. apply decode_dynamic_fee_encode.
Qed.

End BinaryForm.

(** ** Lists in tries *)

Fixpoint bytes_lt (a b : list Z) : Prop :=
  match a, b with
  | [], _ :: _ => True
  | x :: a, y :: b => x < y \/ (x = y /\ bytes_lt a b)
  | _, [] => False
  end.

Lemma bytes_lt_app a b c d : length a = length b -> bytes_lt a b -> bytes_lt (a ++ c) (b ++ d).
Proof.
  revert b. induction a as [|x a IH]; intros [|y b] Hl; try done. cbn [bytes_lt app]. injection Hl as Hl.
  intros [?|[-> ?]]; [by left|right]. split; [done|]. by apply IH.
Qed.

Lemma bytes_lt_snoc a x y : x < y -> bytes_lt (a ++ [x]) (a ++ [y]).
Proof. intros Hxy. induction a as [|z a IH]; cbn [bytes_lt app]; [by left|by right]. Qed.

(** Big-endian numbers of one length are ordered as the numbers are. *)
Lemma be_bytes_lt k i j : 0 <= i < j -> j < 256 ^ Z.of_nat k -> bytes_lt (be_bytes k i) (be_bytes k j).
Proof.
  revert i j. induction k as [|k IH]; intros i j Hij Hj; [change (256 ^ Z.of_nat 0) with 1 in Hj; lia|].
  cbn [be_bytes]. rewrite !shiftr_8, !land_255. rewrite Nat2Z.inj_succ, Z.pow_succ_r in Hj by lia.
  destruct (Z.eq_dec (i / 256) (j / 256)) as [He|Hne].
  - rewrite He. apply bytes_lt_snoc. pose proof (Z_div_mod_eq_full i 256). pose proof (Z_div_mod_eq_full j 256). lia.
  - apply bytes_lt_app; [by rewrite !be_bytes_length|]. pose proof (Z.div_le_mono i j 256).
    apply IH; [split; [apply Z.div_pos|]; lia|]. apply Z.div_lt_upper_bound; lia.
Qed.

(** The place of an index: one byte for 1 to 127, then zero, then the rest. *)
Definition place (i : nat) : nat := if Nat.eqb i 0 then 255 else 2 * i.

Lemma AppendUint64_lt i j : (place i < place j)%nat -> Z.of_nat j < 2 ^ 64 ->
  bytes_lt (AppendUint64 (Z.of_nat i)) (AppendUint64 (Z.of_nat j)).
Proof.
  unfold place, AppendUint64. intros Hp Hj.
  destruct (Nat.eqb_spec i 0), (Nat.eqb_spec j 0), (Z.eqb_spec (Z.of_nat i) 0), (Z.eqb_spec (Z.of_nat j) 0); try lia;
  repeat match goal with |- context [?a <? ?b] => destruct (Z.ltb_spec a b) end; try lia; cbn [bytes_lt];
  first [left; lia | right; split; [done|]; apply be_bytes_lt; lia].
Qed.

Lemma seq_places m n : (0 < m)%nat -> StronglySorted (fun i j => (place i < place j)%nat) (seq m n).
Proof.
  revert m. induction n as [|n IH]; intros m Hm; cbn [seq]; constructor; [apply IH; lia|]. apply Forall_forall. intros j Hj.
  apply elem_of_seq in Hj. unfold place. destruct (Nat.eqb_spec m 0), (Nat.eqb_spec j 0); lia.
Qed.

Lemma derive_order_sorted n : StronglySorted (fun i j => (place i < place j)%nat) (derive_order n).
Proof.
  unfold derive_order. apply StronglySorted_app. repeat split; [|by apply seq_places; lia|].
  - intros i j Hi Hj. apply elem_of_seq in Hi. apply elem_of_app in Hj as [Hj|Hj].
    + destruct (Nat.ltb 0 n); [|by apply not_elem_of_nil in Hj]. apply list_elem_of_singleton in Hj as ->.
      unfold place. destruct (Nat.eqb_spec i 0), (Nat.eqb_spec 0 0); lia.
    + apply elem_of_seq in Hj. unfold place. destruct (Nat.eqb_spec i 0), (Nat.eqb_spec j 0); lia.
  - apply StronglySorted_app. repeat split; [|destruct (Nat.ltb 0 n); repeat constructor|by apply seq_places; lia].
    intros i j Hi Hj. destruct (Nat.ltb 0 n); [|by apply not_elem_of_nil in Hi]. apply list_elem_of_singleton in Hi as ->.
    apply elem_of_seq in Hj. unfold place. destruct (Nat.eqb_spec 0 0), (Nat.eqb_spec j 0); lia.
Qed.

Lemma derive_order_perm n : derive_order n ≡ₚ seq 0 n.
Proof.
  unfold derive_order. destruct n as [|n]; [done|]. change (Nat.ltb 0 (Datatypes.S n)) with true.
  rewrite (Permutation_app_comm (seq 1 _)), <- app_assoc. cbn [app seq]. apply Permutation_cons; [done|].
  rewrite Permutation_app_comm. destruct (Nat.le_gt_cases (Datatypes.S n) 128) as [Hle|Hgt].
  - replace (Datatypes.S n - 128)%nat with 0%nat by lia. cbn [seq]. rewrite app_nil_r. by replace (Nat.min _ 128 - 1)%nat with n by lia.
  - replace (Nat.min (Datatypes.S n) 128 - 1)%nat with 127%nat by lia. replace n with (127 + (Datatypes.S n - 128))%nat at 2 by lia.
    by rewrite seq_app.
Qed.

(** (trie of a list). Every entry goes into the trie once, under the RLP of its
    index, and the keys are strictly increasing, as a trie that keeps no more
    than a path of nodes needs. *)
Theorem derive_sha_ordered entries : Z.of_nat (length entries) <= 2 ^ 64 ->
  StronglySorted bytes_lt (DeriveSha entries).*1 /\
  DeriveSha entries ≡ₚ imap (fun i e => (AppendUint64 (Z.of_nat i), e)) entries.
Proof.
  intros Hlen. split.
  - unfold DeriveSha. rewrite <- list_fmap_compose. pose proof (derive_order_sorted (length entries)) as Hs.
    assert (Hin : Forall (fun i => (i < length entries)%nat) (derive_order (length entries))).
    { rewrite derive_order_perm. apply Forall_forall. intros i Hi. apply elem_of_seq in Hi. lia. }
    induction Hs as [|i l Hs IH Hi]; [constructor|]. apply Forall_cons in Hin as [_ Hin]. cbn [fmap list_fmap]. constructor; [by apply IH|].
    rewrite Forall_fmap. eapply Forall_impl; [apply Forall_and; split; [exact Hi|exact Hin]|]. intros j [Hij Hj]. cbn.
    apply AppendUint64_lt; [done|lia].
  - unfold DeriveSha. rewrite derive_order_perm. match goal with |- ?a ≡ₚ ?b => assert (a = b) as ->; [|done] end.
    apply list_eq. intros i. rewrite list_lookup_fmap, list_lookup_imap.
    destruct (entries !! i) as [e|] eqn:He; cbn.
    + pose proof (lookup_lt_Some _ _ _ He). rewrite lookup_seq_lt by done. cbn. by rewrite (nth_lookup_Some _ _ _ _ He).
    + apply lookup_ge_None in He. by rewrite lookup_seq_ge.
Qed.
